(* ===== verification/_CoqProject ===== *)
-Q . S2P
Prelude.v
JsString.v
JsNumber.v
JsFloat.v
JsRounding.v
HttpStatusCodeRules.v
RateLimitDuration.v
JsValue.v
JsJson.v
JsRegex.v
JsRegexRuns.v
JsDecimal.v
BillingExpr.v
BillingRules.v
TierExpr.v
TierRoundTrip.v
PricingSync.v
PricingEditor.v
PricingSnapshots.v
PricingPreview.v
ModelMapping.v
PlaygroundMessage.v
PlaygroundStreaming.v
PlaygroundSession.v
PlaygroundStorage.v
AdvancedCustom.v
ParamOverride.v
ParamOverrideSaved.v
ParamOverrideEditor.v
ParamOverrideDialog.v
ChannelForm.v
ChannelFormSaved.v
Currency.v
PricingCatalog.v
PricingPrices.v
CatalogTiers.v
Format.v
DashboardFlow.v
FlowTotals.v
FlowFilters.v
FlowPanel.v
WalletPayment.v
WalletCashback.v
WalletQuote.v
WalletTopupInfo.v
WalletCheckout.v
WalletHistory.v
NavModules.v
NavSettings.v
SidebarConfig.v
NavSaved.v
TableUrlState.v
DashboardCharts.v
ChartTotals.v
AccountForms.v
UsageLogs.v
