(* ===== verification/Prelude.v ===== *)
(** * Verification of the pure logic of the new-api dashboard

    The repository is an API gateway written in Go with a web dashboard written
    in TypeScript ([src/web/default/src]).  This development models the logic of
    the dashboard that decides something by itself: the expressions that price a
    request and the editors of prices, the synchronisation of prices with upstream
    sources, the public catalog of models, the parsing and validation of settings,
    the forms of channels and of the rules that override request parameters, the
    flow chart of the dashboard, the chat playground with its streamed answers, and
    the amounts of the wallet.
    Every definition is a translation of TypeScript code; paths below are
    relative to [src/web/default/src].

    ** The language

    - [Prelude]: this file.  Insertion-ordered sets and maps as lists
      ([new_set], [oget], [oset], [odelete]: [Set], [Map]), the entries of a map
      that is built by grouping a list, indices of arrays ([find_index], [slice]),
      the stable sort ([sort_by]), sums of integers, tactics and the hint databases
      [jslib].
    - [JsString]: strings as lists of UTF-16 code units, with a string notation;
      [trim], [indexOf], [split], [join], decimal numerals.
    - [JsNumber]: numbers as IEEE 754 binary64 ([spec_float]); [Number(s)],
      [parseFloat], [String(n)], [toFixed], [Math.round], the remainder.
    - [JsFloat]: the order of numbers, when a result is a number in normal form
      ([valid_num]), sorting by a number.
    - [JsRounding]: the exact value of a number as a rational, and the error of a
      chain of products and quotients: at most one part in 2^52 for each.
    - [JsDecimal]: the text of a number as digits, point and exponent, and the
      patterns that remove trailing zeros from it.
    - [JsValue], [JsJson]: plain data ([jval]) with the enumeration order of
      objects, conversions, [JSON.stringify] and [JSON.parse], the round trip
      [JSON_roundtrip], and [JSON_parse_ok]: parsed numbers are in normal form.
    - [JsRegex]: the backtracking matcher of the regular expressions the code
      uses, in continuation-passing style, with the lemmas that compute a match
      and those that say when there is one.  [JsRegexRuns]: what a pattern reads from
      a text whose parts are known ([runs]), and where it cannot match ([refuses]).

    These files model the language, so they have no counterpart under [src].

    ** The components

    - [HttpStatusCodeRules] ([lib/http-status-code-rules.ts]): the text of
      status-code ranges.  [parseHttpStatusCodeRules] gives sorted, disjoint,
      non-adjacent ranges with exactly the codes of the segments
      ([parse_canonical]); the normalized text is a fixed point and is the same
      for all texts with the same codes; malformed segments are reported.
    - [RateLimitDuration] ([features/system-settings/request-limits/
      rate-limit-duration.ts]): durations such as [15m] and the state of a staged
      change.
    - [BillingExpr], [BillingRules] ([features/pricing/lib/billing-expr.ts]): the
      registry of variables, the parser of tiers, the request rules.  The first
      file has all definitions, the second the theorems: rules in normal form are
      read back from their text, and a base expression and rules that were combined
      are split again, exactly when no rule compares or contains a parameter
      ([request_rules_roundtrip], [split_combine]); the loop that removes parentheses
      ends with none.
    - [TierExpr], [TierRoundTrip] ([features/pricing/lib/tier-expr.ts]): the visual
      editor of tiered prices.  A configuration is read back from the expression it
      generates, within the limits [view_readable] states, except for one tier with a
      condition, which is never read ([visual_config_roundtrip]); it generates the same
      again ([visual_expr_fixpoint]).
    - [PricingSync] ([features/system-settings/models/
      upstream-ratio-sync-helpers.ts]): the rebase of a draft configuration is the
      three-way merge of every setting ([rebase_three_way]); the difference patches, applied, give the new options; a
      synchronisation leaves each model priced in one kind of options.
    - [PricingEditor], [PricingSnapshots], [PricingPreview] ([features/
      system-settings/models]: [model-pricing-core.ts, model-pricing-sheet.tsx,
      model-pricing-snapshots.ts, model-ratio-visual-editor.tsx,
      pricing-sync-preview.ts]): the price editor of one model, whose ratios are
      always those of the prices shown ([editor_synced]); the prices of all models,
      which are shown as they were saved ([saved_prices_shown]), except those of a
      mode that was left ([mode_switch_lost]); and the prices shown before a
      synchronisation, which are those of the options its patches leave
      ([proposed_price_applied]).
    - [PricingCatalog], [PricingPrices], [CatalogTiers] ([features/pricing/lib] and the state of
      [hooks/use-filters.ts]): the public catalog.  The page refines its
      specification, the models that pass every filter in the chosen order
      ([filteredModels_page]); the counts beside the options are those of the page
      after the choice ([facet_counts]); the tiers, the prices and the rules the visual
      editor saved are those the catalog shows ([saved_config_shown], which composes
      [TierRoundTrip], [BillingRules] and the catalog).
    - [DashboardFlow], [FlowTotals], [FlowFilters], [FlowPanel] ([features/dashboard/
      lib/flow.ts, flow-selection.ts, components/flow/flow-charts.tsx]): the flow
      chart.  Its nodes and links refine the totals of the paths ([flow_refines]);
      what enters a column leaves it ([flow_balanced], [flow_conserved]); the
      options of the filters agree with the chart ([option_total]); the limit keeps
      the largest nodes ([top_nodes]); the panel is sound in every reachable state
      ([panel_sound], [click_highlights]).
    - [DashboardCharts], [ChartTotals] ([features/dashboard/lib/charts.ts, stats.ts,
      lib/time.ts]): the points of the charts.  With seven times and more every chart
      adds up to the totals beside it ([charts_agree]), with fewer the rows before the
      last seven times are lost ([early_rows_lost]); the charts of users and the
      tooltips account for the same rows ([user_charts_agree], [tooltip_accounts]).
    - [ModelMapping] ([features/channels/lib/model-mapping-validation.ts]): model
      lists and the JSON mapping of a channel.
    - [AdvancedCustom] ([features/channels/lib/advanced-custom.ts]): the routes of
      an advanced custom channel, on untyped values, since they come from
      [JSON.parse]; validity, the first error, templates and the round trip.
    - [ChannelForm], [ChannelFormSaved] ([features/channels/lib/channel-form.ts,
      channel-form-errors.ts]): the form of a channel, the form a stored channel is
      opened with and the payloads.  A stored channel saves the same again
      ([saved_channel_fixpoint]), keeps the settings the form does not know
      ([settings_kept]) and gives back those of its type ([type_fields_reload]).
    - [ParamOverride], [ParamOverrideSaved], [ParamOverrideEditor],
      [ParamOverrideDialog] ([features/channels/components/dialogs/
      param-override-editor-dialog.tsx]): the rules that override parameters, how
      they are stored and opened again ([reopened_rules], [string_value_retyped]),
      and the dialog as a state machine with an invariant ([dialog_sound]).
    - [NavModules] ([lib/nav-modules.ts, hooks/use-top-nav-links.ts]), [NavSettings]
      ([features/system-settings/maintenance]), [SidebarConfig]
      ([hooks/use-sidebar-config.ts, use-sidebar-view.ts, use-sidebar-data.ts,
      features/profile/components/sidebar-modules-card.tsx]), [NavSaved]: the settings
      of the header and the sidebar.  What is saved in the forms is what every reader
      of the text finds ([header_form_saved], [sidebar_follows_settings],
      [user_switches]); texts written otherwise are read differently
      ([untyped_switch_hidden]).
    - [TableUrlState] ([hooks/use-table-url-state.ts], the tables that use it and the
      schemas of their routes in [routes/_authenticated]): the filters, the search and
      the page of a table, kept in the address.  A choice of filters reads back as far
      as the schema of the route keeps it ([RouteColumn], [route_tables],
      [column_filters_kept]), which for two statuses the tables offer is not at all
      ([frozen_status_lost], [expired_status_lost]); a page past the last one is
      corrected in one step ([page_in_range_settles]).  The schema library and the
      router are parameters with laws ([Zod], [Router]).
    - [AccountForms] ([features/keys/lib/api-key-form.ts, features/redemption-codes/lib/
      redemption-form.ts, features/subscriptions/lib/plan-form.ts, features/models/lib/
      model-form.ts, features/users/lib/user-form.ts, lib/admin-permissions.ts]): what is
      saved is opened as a form that saves the same ([saved_key_fixpoint]), and the
      permissions that are saved are those the form shows ([saved_permissions]).
    - [UsageLogs] ([features/usage-logs/lib, api.ts]): the requests for logs, which are
      restricted for users who are no administrators ([user_query_restricted]), and the
      tier a request was billed with ([log_prices_catalog], which composes [BillingExpr]
      and the catalog).
    - [PlaygroundMessage] ([features/playground/types.ts, constants.ts,
      lib/message, lib/streaming/payload-builder.ts]): messages, conversations and
      the request; what is sent, and distinct keys.
    - [PlaygroundStreaming] ([lib/message/message-streaming-utils.ts,
      lib/streaming/stream-utils.ts]): the accumulator that separates reasoning
      from text while chunks arrive.  Its specification is [separation], which
      separates the whole text in one pass; [stream_separated] says every cut of
      the text into chunks gives it, and [parseThinkTags_separation] that the
      parser of finished texts agrees.
    - [PlaygroundSession] ([hooks/use-chat-handler.ts]): the handler as a machine
      whose steps are the chunks and the flush timer; [stream_result] says that
      the answer left after any interleaving is the separation of the text, and
      [flush_timing_changes_result] shows the case its hypotheses exclude.
    - [PlaygroundStorage] ([lib/storage/storage.ts]): what is kept of a
      conversation: the bounds on loaded messages, the collapse of repeated
      sections, and the round trip of stored configurations.
    - [Currency] ([lib/currency.ts] and the currency of [stores/
      system-config-store.ts]): the display of accounting amounts in dollars,
      another currency or tokens.  [Format] ([lib/format.ts]): quota, times, token
      counts, colours; [quota_roundtrip] follows the four roundings from a quota to
      the display and back.
    - [WalletPayment] ([features/wallet/lib/payment.ts, types.ts, constants.ts]):
      the definitions of payment methods, cashback tiers, minimal amounts and
      quotes.  Its theorems are in [WalletCashback] (tiers and percentages, the
      minimum of the wallet) and [WalletQuote] (the exact decimal arithmetic; the
      quote refines the record [quote_exact]).
    - [WalletTopupInfo] ([hooks/use-topup-info.ts]): the parsing of what the server
      sends; [offered_quotes] composes it with the quotes: nothing on the way from
      the answer of the server to a quote throws.
    - [WalletCheckout] ([lib/direct-crypto-checkout.ts], and the redirects and
      messages of [lib/payment.ts]): invoice addresses, exact amounts, and what may
      be shown of the answer of a payment provider.
    - [WalletHistory] ([lib/billing.ts, lib/format.ts]): the rows of the history.

    ** Conventions

    A function that can throw returns [option], [None] being the exception; where
    the code has [null] as well, the inner option is the [null].  Loops are folds
    or structural recursion; where they are not, fuel is the length of the text
    plus one, because each round removes at least one unit ([drain],
    [think_loop], [unwrapLoop], [parse_value]), and a theorem or lemma shows that
    it is enough ([drain_spec], [think_loop_spec], [unwrapOuterParens_done],
    [reads_value]).  Matching of a regular expression recurses on the expression
    and, for a star, on the units left.

    Parameters: [toLowerCase] and [toUpperCase] (the Unicode tables), [nanoid]
    (fresh identifiers), [t] (the translation of a message), the schemas of stored
    values, [URL] (the URL parser of the browser), [NumberFormat] and
    [RelativeTimeFormat] (texts of [Intl]), [dayjs] (the date library), [store] (the
    currency in the store of the configuration), [new_Function] (the evaluation of a
    program text), [localeCompare] (the collation of the browser, a total preorder
    where theorems need it), the colour schemes of the chart library, [DateLib]
    (the dates of the charts), [atob] and [decode] (the texts of logs), and [clock], the
    readings of [Date.now()].

    ** Limits

    Objects have own properties only: a key such as [constructor], which the code
    would find on the prototype, is absent here.  Times and identifiers that the
    code keeps as integral numbers are integers.  [Math.pow(10, -n)] is taken to be
    correctly rounded.  Values are those of JSON, so an array has no named members.
    The option texts of [PricingSnapshots] hold JSON objects.  The updaters of React
    run once, and the one that clones a rule runs before the state is read again.
    The base types of a form are hypotheses, since a third-party library checks
    them; the rules added to it are definitions.

    Not modelled: rendering (components and hooks other than those named above),
    because it is calls of a third-party library; requests and forms of the browser,
    because they are input and output; generated routes, translations and
    sample data; the specifications of charts, which are data for a library; and
    the server, which is written in Go. *)

(** ** Shared lemmas, ordered collections and automation *)
From Stdlib Require Export ZArith Lia.
From stdpp Require Export base option list list_numbers sorting decidable.
Export stdpp.list_basics.list stdpp.list_relations.list stdpp.list_misc.list
  stdpp.list_monad.list stdpp.list_numbers.list stdpp.list_tactics.list.

Set Default Proof Using "Type".

(** ** Automation *)

(** Split every boolean connective of the context into propositions. *)
Ltac bool_to_prop :=
  repeat match goal with
  | H : _ && _ = true |- _ => apply andb_true_iff in H; destruct H
  | H : _ || _ = false |- _ => apply orb_false_iff in H; destruct H
  | H : negb _ = true |- _ => apply negb_true_iff in H
  | H : negb _ = false |- _ => apply negb_false_iff in H
  | H : bool_decide _ = true |- _ => apply bool_decide_eq_true in H
  | H : bool_decide _ = false |- _ => apply bool_decide_eq_false in H
  | H : is_true _ |- _ => unfold is_true in H
  end.

(** Destruct the scrutinee of the first [match] or [if] of the goal. *)
Ltac case_goal :=
  match goal with
  | |- context [match ?x with _ => _ end] => destruct x eqn:?
  end.

(** Destruct the scrutinee of a [match] of a hypothesis. *)
Ltac case_hyp H :=
  match type of H with
  | context [match ?x with _ => _ end] => destruct x eqn:?
  end.

(** Case analysis of a function that returns [Some], discarding the branches
    that return [None]. *)
Ltac solve_some H := repeat (case_hyp H; simplify_eq/=; try discriminate).

(** Evaluates the closed decisions of a goal. *)
Ltac decide_closed :=
  repeat match goal with
  | |- context [bool_decide ?P] =>
    let b := eval vm_compute in (bool_decide P) in
    match b with
    | true => change (bool_decide P) with true
    | false => change (bool_decide P) with false
    end
  end; cbv beta iota.

Create HintDb jslib.
Create Rewrite HintDb jslib.

(** ** Truthiness of optional values *)

(** [a ?? b] *)
Definition nullish {A} (a : option A) (b : A) : A := default b a.

(** ** Lists as JavaScript arrays *)

Section lists.
Context {A : Type}.

(** [xs.slice(i, j)] for indices that are already non-negative. *)
Definition slice_nat (i j : nat) (l : list A) : list A := take (j - i) (drop i l).

(** A relative index of [Array.prototype.slice]. *)
Definition rel_index (len : nat) (i : Z) : nat :=
  if bool_decide (i < 0)%Z then Z.to_nat (Z.of_nat len + i) else Nat.min (Z.to_nat i) len.

(** [xs.slice(i)] *)
Definition slice_from (i : Z) (l : list A) : list A := drop (rel_index (length l) i) l.

(** [xs.slice(i, j)] *)
Definition slice (i j : Z) (l : list A) : list A :=
  slice_nat (rel_index (length l) i) (rel_index (length l) j) l.

(** [xs.findIndex(p)], [None] for [-1]. *)
Fixpoint find_index (p : A → bool) (l : list A) : option nat :=
  match l with
  | [] => None
  | x :: r => if p x then Some 0 else S <$> find_index p r
  end.

(** The largest index whose element satisfies [p] (a loop from the end). *)
Definition find_last_index (p : A → bool) (l : list A) : option nat :=
  (λ i, length l - 1 - i) <$> find_index p (rev l).

Lemma slice_from_0 l : slice_from 0 l = l.
Proof. unfold slice_from, rel_index. case_bool_decide; [lia|]. by rewrite Z2Nat.inj_0. Qed.

Lemma slice_from_nat (n : nat) l : slice_from (Z.of_nat n) l = drop n l.
Proof.
  unfold slice_from, rel_index. case_bool_decide; [lia|]. rewrite Nat2Z.id.
  destruct (decide (n ≤ length l)).
  - by rewrite Nat.min_l.
  - rewrite Nat.min_r by lia. rewrite !drop_ge; [done|lia|lia].
Qed.

Lemma find_index_Some p l i :
  find_index p l = Some i →
  ∃ x, l !! i = Some x ∧ p x = true ∧ ∀ j y, j < i → l !! j = Some y → p y = false.
Proof.
  revert i. induction l as [|x l IH]; intros i H; simplify_eq/=.
  destruct (p x) eqn:E; simplify_eq/=.
  - exists x. split_and!; [done|done|lia].
  - apply fmap_Some in H as (k & Hk & ->).
    destruct (IH _ Hk) as (y & Hy & Hp & Hmin). exists y. split_and!; [done|done|].
    intros [|j] z Hj; simpl; [congruence|]. intros. eapply Hmin; [|done]. lia.
Qed.

Lemma find_index_None p l : find_index p l = None ↔ Forall (λ x, p x = false) l.
Proof.
  induction l as [|x l IH]; simpl; [done|]. rewrite Forall_cons.
  destruct (p x); simpl; [naive_solver|]. rewrite fmap_None. naive_solver.
Qed.

Lemma find_index_lt p l i : find_index p l = Some i → i < length l.
Proof. intros (x & Hx & _)%find_index_Some. by apply lookup_lt_Some in Hx. Qed.

Lemma find_last_index_Some p l i :
  find_last_index p l = Some i →
  ∃ x, l !! i = Some x ∧ p x = true ∧ ∀ j y, i < j → l !! j = Some y → p y = false.
Proof.
  unfold find_last_index. intros (k & Hk & ->)%fmap_Some.
  pose proof (find_index_lt _ _ _ Hk) as Hlt. rewrite length_rev in Hlt.
  destruct (find_index_Some _ _ _ Hk) as (x & Hx & Hp & Hmin).
  assert (rev l = reverse l) as Hrev by (unfold reverse; by rewrite rev_append_rev, app_nil_r).
  rewrite Hrev in Hx, Hmin. exists x. split_and!; [|done|].
  - rewrite reverse_lookup in Hx by lia. rewrite <- Hx. f_equal. lia.
  - intros j y Hj Hy. apply lookup_lt_Some in Hy as Hl.
    apply (Hmin (length l - 1 - j)); [lia|].
    rewrite reverse_lookup by lia. rewrite <- Hy. f_equal. lia.
Qed.

Lemma find_last_index_None p l :
  find_last_index p l = None ↔ Forall (λ x, p x = false) l.
Proof.
  unfold find_last_index. rewrite fmap_None, find_index_None.
  assert (rev l = reverse l) as -> by (unfold reverse; by rewrite rev_append_rev, app_nil_r).
  by rewrite Forall_reverse.
Qed.
End lists.

(** ** Insertion-ordered sets: [new Set(xs)] and [Array.from] *)

Section sets.
Context {A : Type} `{EqDecision A}.

(** [s.has(x)] and [xs.includes(x)] *)
Definition has (x : A) (l : list A) : bool := bool_decide (x ∈ l).

(** [s.add(x)] *)
Definition set_add (x : A) (l : list A) : list A := if has x l then l else l ++ [x].

(** [Array.from(new Set(xs))]: first occurrences, in order. *)
Definition new_set (l : list A) : list A := fold_left (λ s x, set_add x s) l [].

Lemma has_spec x l : has x l = true ↔ x ∈ l.
Proof. unfold has. by rewrite bool_decide_eq_true. Qed.

Lemma has_spec_false x l : has x l = false ↔ x ∉ l.
Proof. unfold has. by rewrite bool_decide_eq_false. Qed.

Lemma elem_of_set_add x y l : y ∈ set_add x l ↔ y = x ∨ y ∈ l.
Proof.
  unfold set_add. destruct (has x l) eqn:E.
  - apply has_spec in E. naive_solver.
  - rewrite elem_of_app, list_elem_of_singleton. naive_solver.
Qed.

Lemma NoDup_set_add x l : NoDup l → NoDup (set_add x l).
Proof.
  intros H. unfold set_add. destruct (has x l) eqn:E; [done|].
  apply has_spec_false in E. apply NoDup_app. split_and!; [done| |apply NoDup_singleton].
  intros y Hy ->%list_elem_of_singleton. done.
Qed.

Lemma elem_of_fold_set_add x l s :
  x ∈ fold_left (λ s x, set_add x s) l s ↔ x ∈ s ∨ x ∈ l.
Proof.
  revert s. induction l as [|y l IH]; intros s; simpl.
  - rewrite elem_of_nil. naive_solver.
  - rewrite IH, elem_of_set_add, elem_of_cons. naive_solver.
Qed.

Lemma NoDup_fold_set_add l s : NoDup s → NoDup (fold_left (λ s x, set_add x s) l s).
Proof. revert s. induction l; intros s H; simpl; auto using NoDup_set_add. Qed.

Lemma elem_of_new_set x l : x ∈ new_set l ↔ x ∈ l.
Proof. unfold new_set. rewrite elem_of_fold_set_add, elem_of_nil. naive_solver. Qed.

Lemma NoDup_new_set l : NoDup (new_set l).
Proof. apply NoDup_fold_set_add, NoDup_nil_2. Qed.

Lemma fold_set_add_fresh l s :
  NoDup (s ++ l) → fold_left (λ s x, set_add x s) l s = s ++ l.
Proof.
  revert s. induction l as [|x l IH]; intros s H; simpl; [by rewrite app_nil_r|].
  assert (has x s = false) as Hx.
  { apply has_spec_false. apply NoDup_app in H as (_ & H & _). intros Hx.
    apply (H x Hx). constructor. }
  unfold set_add at 2. rewrite Hx, IH; by rewrite <- app_assoc.
Qed.

(** Building a set from distinct elements changes nothing. *)
Lemma new_set_NoDup l : NoDup l → new_set l = l.
Proof. intros H. unfold new_set. by rewrite fold_set_add_fresh. Qed.

Lemma new_set_idemp l : new_set (new_set l) = new_set l.
Proof. apply new_set_NoDup, NoDup_new_set. Qed.
End sets.

#[export] Hint Resolve NoDup_new_set NoDup_set_add : jslib.
#[export] Hint Rewrite @elem_of_new_set @elem_of_set_add @has_spec @has_spec_false
  using (typeclasses eauto) : jslib.

(** ** Insertion-ordered maps: [Map] and plain objects *)

Section omap.
Context {K V : Type} `{EqDecision K}.
Implicit Types (m : list (K * V)) (k : K) (v : V).

(** [m.get(k)] *)
Fixpoint oget k m : option V :=
  match m with
  | [] => None
  | (k', v') :: r => if bool_decide (k = k') then Some v' else oget k r
  end.

(** [m.set(k, v)]: an existing key keeps its position, a new one is last. *)
Fixpoint oset k v m : list (K * V) :=
  match m with
  | [] => [(k, v)]
  | (k', v') :: r => if bool_decide (k = k') then (k', v) :: r else (k', v') :: oset k v r
  end.

(** [m.delete(k)] *)
Fixpoint odelete k m : list (K * V) :=
  match m with
  | [] => []
  | (k', v') :: r => if bool_decide (k = k') then r else (k', v') :: odelete k r
  end.

Definition okeys m : list K := m.*1.
Definition ovalues m : list V := m.*2.
Definition ohas k m : bool := bool_decide (is_Some (oget k m)).

(** [new Map(entries)] *)
Definition new_map (l : list (K * V)) : list (K * V) :=
  fold_left (λ m kv, oset kv.1 kv.2 m) l [].

Lemma oget_oset k k' v m :
  oget k (oset k' v m) = if bool_decide (k = k') then Some v else oget k m.
Proof.
  induction m as [|[j w] m IH]; simpl; repeat (case_bool_decide; subst; simpl); congruence.
Qed.

Lemma oget_oset_eq k v m : oget k (oset k v m) = Some v.
Proof. rewrite oget_oset. by case_bool_decide. Qed.

Lemma oget_oset_ne k k' v m : k ≠ k' → oget k (oset k' v m) = oget k m.
Proof. intros. rewrite oget_oset. by case_bool_decide. Qed.

Lemma elem_of_okeys k m : k ∈ okeys m ↔ is_Some (oget k m).
Proof.
  unfold okeys. induction m as [|[j w] m IH]; simpl.
  - rewrite elem_of_nil. split; [done|by intros [? ?]].
  - rewrite elem_of_cons, IH. case_bool_decide; naive_solver.
Qed.

Lemma oget_None k m : oget k m = None ↔ k ∉ okeys m.
Proof. rewrite elem_of_okeys. destruct (oget k m); naive_solver. Qed.

Lemma okeys_oset k v m : okeys (oset k v m) = set_add k (okeys m).
Proof.
  unfold okeys, set_add, has. induction m as [|[j w] m IH].
  - by rewrite bool_decide_eq_false_2 by apply not_elem_of_nil.
  - simpl. destruct (decide (k = j)) as [->|Hne].
    + rewrite (bool_decide_eq_true_2 (j = j)), (bool_decide_eq_true_2 (j ∈ _));
        [done|constructor|done].
    + rewrite (bool_decide_eq_false_2 (k = j)) by done. csimpl. rewrite IH.
      rewrite (bool_decide_ext (k ∈ j :: m.*1) (k ∈ m.*1)); [by case_bool_decide|].
      rewrite elem_of_cons. naive_solver.
Qed.

Lemma NoDup_okeys_oset k v m : NoDup (okeys m) → NoDup (okeys (oset k v m)).
Proof. rewrite okeys_oset. apply NoDup_set_add. Qed.

Lemma elem_of_okeys_odelete k k' m : k ∈ okeys (odelete k' m) → k ∈ okeys m.
Proof.
  induction m as [|[j w] m IH]; simpl; [done|]. unfold okeys in *.
  case_bool_decide; simpl; rewrite ?elem_of_cons; naive_solver.
Qed.

Lemma NoDup_okeys_odelete k m : NoDup (okeys m) → NoDup (okeys (odelete k m)).
Proof.
  unfold okeys. induction m as [|[j w] m IH]; simpl; [done|].
  rewrite NoDup_cons. intros [Hj Hm]. case_bool_decide; [done|]. simpl.
  apply NoDup_cons. split; [|auto]. intros Hin. apply Hj.
  by apply (elem_of_okeys_odelete j k).
Qed.

Lemma oget_odelete k k' m :
  NoDup (okeys m) →
  oget k (odelete k' m) = if bool_decide (k = k') then None else oget k m.
Proof.
  unfold okeys. induction m as [|[j w] m IH]; simpl; [by case_bool_decide|].
  rewrite NoDup_cons. intros [Hj Hm].
  repeat case_bool_decide; simplify_eq/=; rewrite ?IH by done;
    repeat case_bool_decide; simplify_eq; try done.
  by apply oget_None.
Qed.

Lemma oset_id k v m : oget k m = Some v → oset k v m = m.
Proof.
  induction m as [|[j w] m IH]; simpl; [done|]. case_bool_decide; [by intros [= ->]; subst|]. intros. by rewrite IH.
Qed.

Lemma odelete_id k m : oget k m = None → odelete k m = m.
Proof.
  induction m as [|[j w] m IH]; simpl; [done|]. case_bool_decide; [done|]. intros. by rewrite IH.
Qed.

Lemma elem_of_oget k v m : NoDup (okeys m) → (k, v) ∈ m ↔ oget k m = Some v.
Proof.
  unfold okeys. induction m as [|[j w] m IH]; simpl.
  - rewrite elem_of_nil. naive_solver.
  - rewrite NoDup_cons. intros [Hj Hm]. rewrite elem_of_cons. case_bool_decide; subst.
    + split; [intros [?|?]; simplify_eq; [done|]|naive_solver].
      destruct Hj. apply list_elem_of_fmap. by exists (j, v).
    + rewrite <- IH by done. naive_solver.
Qed.

Lemma oget_Some_elem_of k v m : oget k m = Some v → (k, v) ∈ m.
Proof.
  induction m as [|[j w] m IH]; simpl; [done|]. rewrite elem_of_cons.
  case_bool_decide; naive_solver.
Qed.

Lemma oget_app k m1 m2 :
  oget k (m1 ++ m2) = match oget k m1 with Some v => Some v | None => oget k m2 end.
Proof. induction m1 as [|[j w] m IH]; simpl; [done|]. by case_bool_decide. Qed.

Lemma oset_fresh k v m : oget k m = None → oset k v m = m ++ [(k, v)].
Proof.
  induction m as [|[j w] m IH]; simpl; [done|]. case_bool_decide; [done|].
  intros. by rewrite IH.
Qed.

Lemma oget_fold_oset k l m :
  oget k (fold_left (λ m kv, oset kv.1 kv.2 m) l m) =
  match oget k (reverse l) with Some v => Some v | None => oget k m end.
Proof.
  revert m. induction l as [|[j w] l IH]; intros m; simpl; [done|].
  rewrite IH, reverse_cons, oget_app, oget_oset. simpl.
  destruct (oget k (reverse l)); [done|]. by case_bool_decide.
Qed.

(** The last binding of a key wins. *)
Lemma oget_new_map k l : oget k (new_map l) = oget k (reverse l).
Proof. unfold new_map. rewrite oget_fold_oset. by destruct (oget k (reverse l)). Qed.

Lemma NoDup_okeys_new_map l : NoDup (okeys (new_map l)).
Proof.
  unfold new_map. assert (NoDup (okeys (@nil (K * V)))) as H by apply NoDup_nil_2.
  revert H. generalize (@nil (K * V)). induction l; intros m H; simpl;
    auto using NoDup_okeys_oset.
Qed.
End omap.

(** A loop over the entries of an object whose body changes only the key of its entry. *)
Lemma oget_fold_keyed {K V W} `{EqDecision K} (step : list (K * W) → K * V → list (K * W)) (F : K → V → option W → option W) l m k :
  (∀ m j v k, oget k (step m (j, v)) = if bool_decide (k = j) then F j v (oget j m) else oget k m) → NoDup (okeys l) →
  oget k (fold_left step l m) = match oget k l with Some v => F k v (oget k m) | None => oget k m end.
Proof.
  intros Hs. revert m. induction l as [|[j v] l IH]; intros m Hn; [done|]. unfold okeys in Hn. cbn in Hn. apply NoDup_cons in Hn as [Hj Hn].
  cbn [fold_left oget]. rewrite IH, Hs by done. case_bool_decide; [subst|done].
  assert (oget j l = None) as -> by by apply oget_None. done.
Qed.

(** Copying the entries of a map, each with its value changed. *)
Lemma oget_fold_map {K V W} `{EqDecision K} (f : V → W) k (l : list (K * V)) m :
  NoDup (okeys l) →
  oget k (fold_left (λ m '(j, v), oset j (f v) m) l m) = match oget k l with Some v => Some (f v) | None => oget k m end.
Proof.
  revert m. induction l as [|[j v] l IH]; intros m Hl; [done|]. unfold okeys in Hl. cbn [fmap list_fmap fst] in Hl.
  apply NoDup_cons in Hl as [Hj Hl]. cbn [fold_left oget]. rewrite IH, oget_oset by done. case_bool_decide as E; [|done].
  subst j. by apply oget_None in Hj as ->.
Qed.

#[export] Hint Resolve NoDup_okeys_new_map NoDup_okeys_oset NoDup_okeys_odelete : jslib.
#[export] Hint Rewrite @oget_oset_eq using (typeclasses eauto) : jslib.

(** ** Lists with distinct keys *)

Section distinct.
Context {A K : Type} `{EqDecision K} (key : A → K).
Implicit Types (l : list A).

Lemma NoDup_key_inj l x y : NoDup (map key l) → x ∈ l → y ∈ l → key x = key y → x = y.
Proof.
  induction l as [|a l IH]; intros Hnd Hx Hy E; [by apply elem_of_nil in Hx|]. cbn [map] in Hnd.
  apply NoDup_cons in Hnd as [Ha Hnd]. apply elem_of_cons in Hx as [->|Hx], Hy as [->|Hy]; [done|..|by apply IH].
  - destruct Ha. rewrite E. by apply list_elem_of_fmap_2.
  - destruct Ha. rewrite <- E. by apply list_elem_of_fmap_2.
Qed.

Lemma filter_key_none l k : k ∉ map key l → filter (λ x, key x = k) l = [].
Proof.
  intros Hk. induction l as [|a l IH]; [done|]. cbn [map] in Hk. apply not_elem_of_cons in Hk as [Hne Hk].
  rewrite filter_cons, decide_False by congruence. by apply IH.
Qed.

Lemma filter_key_one l x : NoDup (map key l) → x ∈ l → filter (λ y, key y = key x) l = [x].
Proof.
  induction l as [|a l IH]; intros Hnd Hx; [by apply elem_of_nil in Hx|]. cbn [map] in Hnd.
  apply NoDup_cons in Hnd as [Ha Hnd]. rewrite filter_cons. apply elem_of_cons in Hx as [->|Hx].
  - rewrite decide_True by done. f_equal. by apply filter_key_none.
  - rewrite decide_False; [by apply IH|]. intros E. apply Ha. rewrite E. by apply list_elem_of_fmap_2.
Qed.

End distinct.

Lemma filter_ext_in {A} (P Q : A → Prop) `{∀ x, Decision (P x)} `{∀ x, Decision (Q x)} (l : list A) :
  (∀ x, x ∈ l → P x ↔ Q x) → filter P l = filter Q l.
Proof.
  intros Hpq. induction l as [|a l IH]; [done|]. rewrite !filter_cons, IH by (intros; apply Hpq; by right).
  assert (a ∈ a :: l) as [H1 H2]%Hpq by left. by repeat case_decide; try tauto.
Qed.

Lemma filter_all {A} (P : A → Prop) `{∀ x, Decision (P x)} (l : list A) : Forall P l → filter P l = l.
Proof. induction 1 as [|x l Hx _ IH]; [done|]. by rewrite filter_cons, decide_True, IH. Qed.

Lemma NoDup_map_filter {A K} (name : A → K) (P : A → Prop) `{∀ x, Decision (P x)} l :
  NoDup (map name l) → NoDup (map name (filter P l)).
Proof. intros Hnd. eapply sublist_NoDup; [exact Hnd|]. by apply fmap_sublist, sublist_filter. Qed.

Lemma filter_map {A B} (f : A → B) (P : B → Prop) `{∀ y, Decision (P y)} l :
  filter P (map f l) = map f (filter (λ x, P (f x)) l).
Proof. induction l as [|x l IH]; [done|]. cbn [map]. rewrite !filter_cons, IH. by case_decide. Qed.

Lemma fold_left_map {A B C} (f : C → B → C) (g : A → B) l c :
  fold_left f (map g l) c = fold_left (λ c x, f c (g x)) l c.
Proof. revert c. induction l as [|x l IH]; intros c; [done|]. apply IH. Qed.

(** ** Grouping: a map that collects the elements with the same key *)

Section group.
Context {K V E : Type} `{EqDecision K} (key : E → K) (init : E → V) (step : V → E → V).

(** [m.set(key(e), step(m.get(key(e)) ?? init(e), e))] *)
Definition group_add (m : list (K * V)) (e : E) : list (K * V) :=
  oset (key e) (step (nullish (oget (key e) m) (init e)) e) m.

Lemma okeys_group es m : okeys (fold_left group_add es m) = fold_left (λ s x, set_add x s) (map key es) (okeys m).
Proof. revert m. induction es as [|e es IH]; intros m; [done|]. cbn [fold_left map]. rewrite IH. unfold group_add. by rewrite okeys_oset. Qed.

Lemma okeys_grouped es : okeys (fold_left group_add es []) = new_set (map key es).
Proof. apply okeys_group. Qed.

Lemma NoDup_grouped es : NoDup (okeys (fold_left group_add es [])).
Proof. rewrite okeys_grouped. apply NoDup_new_set. Qed.

Lemma oget_group es m k :
  oget k (fold_left group_add es m) =
  match filter (λ e, key e = k) es with
  | [] => oget k m
  | e :: r => Some (fold_left step (e :: r) (nullish (oget k m) (init e)))
  end.
Proof.
  revert m. induction es as [|e es IH]; intros m; [done|]. cbn [fold_left]. rewrite IH. unfold group_add.
  rewrite filter_cons. destruct (decide (key e = k)) as [<-|Hne].
  - rewrite oget_oset_eq. by destruct (filter _ es).
  - by rewrite oget_oset_ne.
Qed.

Lemma elem_of_group es k v :
  (k, v) ∈ fold_left group_add es [] ↔
  ∃ e r, filter (λ e, key e = k) es = e :: r ∧ v = fold_left step (e :: r) (init e).
Proof.
  rewrite elem_of_oget by apply NoDup_grouped.
  rewrite oget_group. destruct (filter _ es) as [|e r]; split.
  - done.
  - by intros (? & ? & ? & ?).
  - intros [= <-]. by exists e, r.
  - by intros (? & ? & [= <- <-] & ->).
Qed.
End group.

(** ** Sums of integers *)

Definition zsum (l : list Z) : Z := foldr Z.add 0%Z l.

Lemma zsum_app a b : zsum (a ++ b) = (zsum a + zsum b)%Z.
Proof. induction a; cbn [zsum foldr app] in *; unfold zsum in *; lia. Qed.

Lemma zsum_perm a b : a ≡ₚ b → zsum a = zsum b.
Proof. unfold zsum. induction 1; cbn [foldr]; lia. Qed.

Lemma zsum_nonneg l : Forall (λ z, 0 <= z)%Z l → (0 <= zsum l)%Z.
Proof. unfold zsum. induction 1; cbn [foldr]; lia. Qed.

Lemma zsum_filter_le {A} (P : A → Prop) `{∀ x, Decision (P x)} (w : A → Z) l :
  Forall (λ x, 0 <= w x)%Z l → (zsum (map w (filter P l)) <= zsum (map w l))%Z.
Proof.
  unfold zsum. induction 1; [done|]. rewrite filter_cons. case_decide; cbn [map foldr]; lia.
Qed.

(** The sums of the parts of a partition add up to the sum of the whole. *)
Lemma zsum_partition {A K} `{EqDecision K} (key : A → K) (w : A → Z) ks l :
  NoDup ks → Forall (λ x, key x ∈ ks) l →
  zsum (map (λ k, zsum (map w (filter (λ x, key x = k) l))) ks) = zsum (map w l).
Proof.
  intros Hks. induction 1 as [|x l Hx Hl IH].
  { induction Hks; [done|]. by cbn [map zsum foldr]. }
  cbn [map zsum foldr]. change (foldr Z.add 0%Z (map w l)) with (zsum (map w l)). rewrite <- IH. clear IH Hl.
  induction Hks as [|k ks Hk Hks IHks]; [by apply elem_of_nil in Hx|]. cbn [map zsum foldr].
  change (foldr Z.add 0%Z ?l) with (zsum l). rewrite filter_cons.
  apply elem_of_cons in Hx as [Hx|Hx].
  - rewrite decide_True by done. cbn [map zsum foldr]. change (foldr Z.add 0%Z ?l) with (zsum l).
    enough (map (λ k, zsum (map w (filter (λ x0, key x0 = k) (x :: l)))) ks
      = map (λ k, zsum (map w (filter (λ x0, key x0 = k) l))) ks) as ->; [lia|].
    apply map_ext_in. intros k' Hk'%list_elem_of_In. rewrite filter_cons, decide_False; [done|]. intros E. congruence.
  - rewrite decide_False by congruence. rewrite (IHks Hx). lia.
Qed.

(** ** [xs.sort(cmp)]: the stable sort by a comparison function *)

Section sort.
Context {A : Type} (cmp : A → A → Z).

Fixpoint sort_insert (x : A) (l : list A) : list A :=
  match l with
  | [] => [x]
  | y :: r => if (cmp x y <=? 0)%Z then x :: l else y :: sort_insert x r
  end.

Definition sort_by (l : list A) : list A := foldr sort_insert [] l.

Lemma sort_insert_perm x l : sort_insert x l ≡ₚ x :: l.
Proof.
  induction l as [|y l IH]; simpl; [done|]. destruct (_ <=? _)%Z; [done|].
  rewrite IH. constructor.
Qed.

Lemma sort_by_perm l : sort_by l ≡ₚ l.
Proof.
  induction l as [|x l IH]; simpl; [done|]. rewrite sort_insert_perm. by constructor.
Qed.

Lemma elem_of_sort_by x l : x ∈ sort_by l ↔ x ∈ l.
Proof. by rewrite sort_by_perm. Qed.

Lemma length_sort_by l : length (sort_by l) = length l.
Proof. apply Permutation_length, sort_by_perm. Qed.

Lemma NoDup_sort_by l : NoDup l → NoDup (sort_by l).
Proof. by rewrite sort_by_perm. Qed.

Definition cmp_le : relation A := λ a b, (cmp a b <= 0)%Z.

(** Elements the predicate holds of stay in their order when they compare equal. *)
Lemma filter_sort_by (Q : A → Prop) `{!∀ x, Decision (Q x)} l :
  (∀ x y, Q x → Q y → (cmp x y <= 0)%Z) → filter Q (sort_by l) = filter Q l.
Proof.
  intros HQ. induction l as [|x l IH]; [done|]. simpl. rewrite filter_cons, <- IH.
  generalize (sort_by l). intros r. clear IH. induction r as [|y r IH]; simpl; [done|].
  destruct (Z.leb_spec (cmp x y) 0) as [Hc|Hc]; [by rewrite filter_cons|].
  rewrite !(filter_cons _ y), IH. destruct (decide (Q x)) as [Hx|Hx]; [|done].
  assert (¬ Q y) as Hy by (intros Hy; specialize (HQ x y Hx Hy); lia).
  by rewrite !(decide_False (P := Q y)) by done.
Qed.

(** The comparison is a total preorder on the elements that satisfy [P]. *)
Variable P : A → Prop.
Hypothesis cmp_total : ∀ a b, P a → P b → (0 < cmp a b)%Z → (cmp b a <= 0)%Z.
Hypothesis cmp_trans : ∀ a b c, P a → P b → P c → cmp_le a b → cmp_le b c → cmp_le a c.

Lemma sort_insert_sorted_on x l :
  P x → Forall P l → StronglySorted cmp_le l → StronglySorted cmp_le (sort_insert x l).
Proof using cmp_total cmp_trans.
  intros Hx HP. induction 1 as [|y l Hl IH Hy]; simpl; [by repeat constructor|].
  apply Forall_cons in HP as [Py HP].
  destruct (Z.leb_spec (cmp x y) 0).
  - constructor; [by constructor|]. constructor; [done|].
    rewrite Forall_forall in *. intros z Hz. apply (cmp_trans x y z); auto.
  - constructor; [by apply IH|]. rewrite sort_insert_perm. apply Forall_cons.
    split; [by apply cmp_total|done].
Qed.

Lemma sort_by_sorted_on l : Forall P l → StronglySorted cmp_le (sort_by l).
Proof using cmp_total cmp_trans.
  induction 1; simpl; [constructor|]. apply sort_insert_sorted_on; [done| |done].
  by rewrite sort_by_perm.
Qed.
End sort.

Lemma sort_by_sorted {A} (cmp : A → A → Z) l :
  (∀ a b, (0 < cmp a b)%Z → (cmp b a <= 0)%Z) →
  (∀ a b c, cmp_le cmp a b → cmp_le cmp b c → cmp_le cmp a c) →
  StronglySorted (cmp_le cmp) (sort_by cmp l).
Proof.
  intros Ht Htr. apply (sort_by_sorted_on cmp (λ _, True)); [by intros; auto|by intros; eauto|].
  by apply Forall_true.
Qed.

(** A map that does not change the comparison. *)
Lemma sort_by_map {A B} (cmpA : A → A → Z) (cmpB : B → B → Z) (f : A → B) l :
  (∀ a b, cmpB (f a) (f b) = cmpA a b) → sort_by cmpB (map f l) = map f (sort_by cmpA l).
Proof.
  intros Hf. unfold sort_by. induction l as [|x l IH]; [done|]. cbn [map foldr]. rewrite IH. generalize (foldr (sort_insert cmpA) [] l).
  intros r. induction r as [|y r IHr]; [done|]. cbn [map sort_insert]. rewrite Hf.
  destruct (cmpA x y <=? 0)%Z; [done|]. cbn [map]. by rewrite IHr.
Qed.

(** A weaker order on the elements that satisfy [P]. *)
Lemma StronglySorted_impl_on {A} (P : A → Prop) (R R' : A → A → Prop) l :
  (∀ a b, P a → P b → R a b → R' a b) → Forall P l → StronglySorted R l → StronglySorted R' l.
Proof.
  intros HR HP Hs. induction Hs as [|x r Hr IH Hx]; constructor; apply Forall_cons in HP as [Px HP]; [by apply IH|].
  rewrite Forall_forall in *. auto.
Qed.

(** A sorted list is left as it is. *)
Lemma sort_by_sorted_id {A} (cmp : A → A → Z) l :
  StronglySorted (cmp_le cmp) l → sort_by cmp l = l.
Proof.
  induction 1 as [|x l Hl IH Hx]; simpl; [done|]. rewrite IH.
  destruct l as [|y l]; simpl; [done|]. apply Forall_cons in Hx as [Hx _].
  unfold cmp_le in Hx. by apply Z.leb_le in Hx as ->.
Qed.

#[export] Hint Resolve sort_by_perm NoDup_sort_by : jslib.
