(* ===== verification/JsString.v ===== *)
(** * JsString: JavaScript strings as lists of UTF-16 code units

    A string is the list of its code units ([N]); a literal ["..."] in
    [js_scope] is decoded from UTF-8 to UTF-16 when the file is parsed, so
    lengths and indices are the ones the language counts. *)
From Stdlib Require Import Strings.Byte.
From S2P Require Export Prelude.

Declare Scope js_scope.
Delimit Scope js_scope with js.

Abbreviation jstring := (list N).

(** ** Literals *)

Inductive units := UNil | UCons (c : N) (u : units).

(** The code units of a code point. *)
Definition encode_point (p : N) : list N :=
  if (p <? 65536)%N then [p]
  else let q := (p - 65536)%N in
       [(55296 + q / 1024)%N; (56320 + q mod 1024)%N].

Fixpoint decode_utf8 (fuel : nat) (l : list N) : list N :=
  match fuel with
  | O => []
  | S fuel =>
    match l with
    | [] => []
    | a :: r =>
      if (a <? 128)%N then encode_point a ++ decode_utf8 fuel r
      else if (a <? 224)%N then
        match r with
        | b :: r => encode_point ((a - 192) * 64 + (b - 128))%N ++ decode_utf8 fuel r
        | _ => []
        end
      else if (a <? 240)%N then
        match r with
        | b :: c :: r =>
          encode_point ((a - 224) * 4096 + (b - 128) * 64 + (c - 128))%N ++ decode_utf8 fuel r
        | _ => []
        end
      else
        match r with
        | b :: c :: d :: r =>
          encode_point ((a - 240) * 262144 + (b - 128) * 4096 + (c - 128) * 64 + (d - 128))%N
            ++ decode_utf8 fuel r
        | _ => []
        end
    end
  end.

Definition units_of_bytes (l : list Byte.byte) : units :=
  let n := map Byte.to_N l in foldr UCons UNil (decode_utf8 (length n) n).

Fixpoint bytes_of_units (u : units) : option (list Byte.byte) :=
  match u with
  | UNil => Some []
  | UCons c u =>
    if (c <? 128)%N then
      match Byte.of_N c, bytes_of_units u with
      | Some b, Some r => Some (b :: r)
      | _, _ => None
      end
    else None
  end.

#[warnings="-via-type-mismatch"]
String Notation list units_of_bytes bytes_of_units
  (via units mapping [[nil] => UNil, [cons] => UCons]) : js_scope.

Open Scope js_scope.

(** The code unit of a one-character literal. *)
Definition cu (s : jstring) : N := hd 0%N s.

(** ** Character classes *)

(** White space and line terminators, the characters [trim] removes. *)
Definition is_space (c : N) : bool :=
  (* tab, LF, VT, FF, CR *)
  ((9 <=? c) && (c <=? 13) || (c =? 32) || (c =? 160) || (c =? 5760)
   || ((8192 <=? c) && (c <=? 8202)) || (c =? 8232) || (c =? 8233) || (c =? 8239)
   || (c =? 8287) || (c =? 12288) || (c =? 65279))%N.

Definition is_digit (c : N) : bool := ((48 <=? c) && (c <=? 57))%N.

(** ** Operations *)

Fixpoint trim_start (s : jstring) : jstring :=
  match s with
  | [] => []
  | c :: r => if is_space c then trim_start r else s
  end.

Definition trim_end (s : jstring) : jstring := reverse (trim_start (reverse s)).

(** [s.trim()] *)
Definition trim (s : jstring) : jstring := trim_end (trim_start s).

(** [s.startsWith(p)] *)
Fixpoint starts_with (p s : jstring) : bool :=
  match p, s with
  | [], _ => true
  | c :: p, d :: s => (c =? d)%N && starts_with p s
  | _, [] => false
  end.

(** [s.endsWith(p)] *)
Definition ends_with (p s : jstring) : bool := starts_with (reverse p) (reverse s).

(** [s.indexOf(p)], [None] for [-1]. *)
Fixpoint index_of (p s : jstring) : option nat :=
  if starts_with p s then Some 0
  else match s with
       | [] => None
       | _ :: r => S <$> index_of p r
       end.

(** [s.includes(p)] *)
Definition includes (p s : jstring) : bool := bool_decide (is_Some (index_of p s)).

(** [s.split(sep)] for a separator of one code unit. *)
Fixpoint split_unit (sep : N) (s : jstring) : list jstring :=
  match s with
  | [] => [[]]
  | c :: r =>
    if (c =? sep)%N then [] :: split_unit sep r
    else match split_unit sep r with
         | [] => [[c]]
         | w :: ws => (c :: w) :: ws
         end
  end.

(** [xs.join(sep)] *)
Fixpoint join (sep : jstring) (l : list jstring) : jstring :=
  match l with
  | [] => []
  | [x] => x
  | x :: r => x ++ sep ++ join sep r
  end.

(** [s.replaceAll(c, t)] for a pattern of one code unit. *)
Definition replace_unit (c : N) (t : jstring) (s : jstring) : jstring :=
  concat (map (λ d, if (d =? c)%N then t else [d]) s).

(** A string is truthy when it is not empty. *)
Definition truthy (s : jstring) : bool := match s with [] => false | _ => true end.

(** [a || b] on strings *)
Definition str_or (a b : jstring) : jstring := if truthy a then a else b.

(** [a || b] where [a] may be [undefined] *)
Definition ostr_or (a : option jstring) (b : jstring) : jstring := str_or (default [] a) b.

Definition otruthy (a : option jstring) : bool := truthy (default [] a).

(** ** Decimal integers *)

Fixpoint digits_fuel (fuel : nat) (n : N) (acc : jstring) : jstring :=
  match fuel with
  | O => acc
  | S f =>
    let acc := (48 + n mod 10)%N :: acc in
    if (n / 10 =? 0)%N then acc else digits_fuel f (n / 10)%N acc
  end.

(** The decimal digits of a natural number. *)
Definition N_to_js (n : N) : jstring := digits_fuel (S (N.to_nat (N.log2 n))) n [].

(** [String(z)] for an integer. *)
Definition Z_to_js (z : Z) : jstring :=
  match z with
  | Z0 => "0"
  | Zpos p => N_to_js (Npos p)
  | Zneg p => "-" ++ N_to_js (Npos p)
  end.

Definition digit_val (c : N) : N := (c - 48)%N.

(** The value of a string of digits. *)
Definition digits_val (s : jstring) : N := fold_left (λ a c, (a * 10 + digit_val c)%N) s 0%N.

Definition all_digits (s : jstring) : bool := forallb is_digit s.

Example literal_units : "a，≤" = [97; 65292; 8804]%N.
Proof. reflexivity. Qed.
Example Z_to_js_ex : Z_to_js (-1205) = "-1205".
Proof. reflexivity. Qed.

(** ** Lemmas *)

Lemma truthy_spec s : truthy s = true ↔ s ≠ [].
Proof. destruct s; simpl; naive_solver. Qed.

Lemma truthy_false s : truthy s = false ↔ s = [].
Proof. destruct s; simpl; naive_solver. Qed.

Lemma starts_with_spec p s : starts_with p s = true ↔ ∃ r, s = p ++ r.
Proof.
  revert s. induction p as [|c p IH]; intros s; simpl; [naive_solver|].
  destruct s as [|d s]; [naive_solver|]. rewrite andb_true_iff, N.eqb_eq, IH. naive_solver.
Qed.

Lemma starts_with_app p r : starts_with p (p ++ r) = true.
Proof. apply starts_with_spec. eauto. Qed.

Lemma ends_with_spec p s : ends_with p s = true ↔ ∃ r, s = r ++ p.
Proof.
  unfold ends_with. rewrite starts_with_spec. split; intros [r Hr].
  - exists (reverse r). apply (f_equal reverse) in Hr.
    by rewrite reverse_app, !reverse_involutive in Hr.
  - exists (reverse r). by rewrite Hr, reverse_app.
Qed.

Lemma index_of_Some p s i :
  index_of p s = Some i → ∃ a b, s = a ++ p ++ b ∧ length a = i.
Proof.
  revert i. induction s as [|c s IH]; intros i; simpl.
  - destruct (starts_with p []) eqn:E; [|done]. intros [= <-].
    apply starts_with_spec in E as [r Hr]. exists [], r. done.
  - destruct (starts_with p (c :: s)) eqn:E.
    + intros [= <-]. apply starts_with_spec in E as [r Hr]. exists [], r. done.
    + intros (k & Hk & ->)%fmap_Some. destruct (IH _ Hk) as (a & b & -> & <-).
      by exists (c :: a), b.
Qed.

(** The first occurrence: no earlier position starts with the pattern. *)
Lemma index_of_first p s i j :
  index_of p s = Some i → j < i → starts_with p (drop j s) = false.
Proof.
  revert i j. induction s as [|c s IH]; intros i j; simpl.
  - destruct (starts_with p []) eqn:E; [|done]. intros [= <-]. lia.
  - destruct (starts_with p (c :: s)) eqn:E; [intros [= <-]; lia|].
    intros (k & Hk & ->)%fmap_Some Hj. destruct j as [|j]; [done|]. simpl.
    eapply IH; [done|lia].
Qed.

Lemma index_of_None p s j : index_of p s = None → starts_with p (drop j s) = false.
Proof.
  revert j. induction s as [|c s IH]; intros j; simpl.
  - destruct (starts_with p []) eqn:E; [done|]. by destruct j.
  - destruct (starts_with p (c :: s)) eqn:E; [done|].
    intros Hk%fmap_None. destruct j as [|j]; [done|]. simpl. by apply IH.
Qed.

Lemma includes_spec p s : includes p s = true ↔ ∃ a b, s = a ++ p ++ b.
Proof.
  unfold includes. rewrite bool_decide_eq_true. split.
  - intros [i (a & b & -> & _)%index_of_Some]. eauto.
  - intros (a & b & ->). destruct (index_of p (a ++ p ++ b)) eqn:E; [eauto|].
    apply (index_of_None _ _ (length a)) in E. rewrite drop_app_length in E.
    by rewrite starts_with_app in E.
Qed.

Lemma join_split_unit sep s : join [sep] (split_unit sep s) = s.
Proof.
  assert (∀ w ws, split_unit sep s = w :: ws → join [sep] (w :: ws) = s).
  { induction s as [|c s IH]; intros w ws; simpl.
    - intros [= <- <-]. done.
    - destruct (N.eqb_spec c sep) as [->|Hne].
      + intros [= <- <-]. destruct (split_unit sep s) as [|w ws] eqn:E.
        * destruct s as [|d s]; simpl in E; [done|]. exfalso.
          destruct (d =? sep)%N; [done|]. by destruct (split_unit sep s).
        * by rewrite <- (IH _ _ eq_refl).
      + destruct (split_unit sep s) as [|w' ws'] eqn:E.
        * exfalso. clear -E. destruct s as [|d s]; [done|]. simpl in E.
          destruct (d =? sep)%N; [done|]. by destruct (split_unit sep s).
        * intros [= <- <-]. rewrite <- (IH _ _ eq_refl). by destruct ws'. }
  destruct (split_unit sep s) as [|w ws] eqn:E; [|naive_solver].
  destruct s as [|d s]; [done|]. simpl in E.
  destruct (d =? sep)%N; [done|]. by destruct (split_unit sep s).
Qed.

Lemma split_unit_clean sep w : sep ∉ w → split_unit sep w = [w].
Proof.
  induction w as [|c w IH]; simpl; [done|]. rewrite not_elem_of_cons. intros [Hc Hw].
  destruct (N.eqb_spec c sep); [by subst|]. by rewrite IH.
Qed.

Lemma split_unit_app sep w s :
  sep ∉ w → split_unit sep (w ++ sep :: s) = w :: split_unit sep s.
Proof.
  induction w as [|c w IH]; simpl.
  - by rewrite N.eqb_refl.
  - rewrite not_elem_of_cons. intros [Hc Hw].
    destruct (N.eqb_spec c sep); [by subst|]. by rewrite IH.
Qed.

(** Splitting a joined list gives the list back when no part has the separator. *)
Lemma split_join_unit sep l :
  l ≠ [] → Forall (λ w, sep ∉ w) l → split_unit sep (join [sep] l) = l.
Proof.
  intros Hl. induction 1 as [|w l Hw HF IH]; [done|]. destruct l as [|w' l].
  - simpl. by apply split_unit_clean.
  - change (join [sep] (w :: w' :: l)) with (w ++ [sep] ++ join [sep] (w' :: l)).
    simpl ([sep] ++ _). rewrite split_unit_app by done. f_equal. by apply IH.
Qed.

(** *** Trimming *)

Definition no_lead (s : jstring) : Prop := match s with [] => True | c :: _ => is_space c = false end.

Definition trimmed (s : jstring) : Prop := no_lead s ∧ no_lead (reverse s).

#[export] Instance no_lead_dec s : Decision (no_lead s).
Proof. destruct s; simpl; apply _. Defined.
#[export] Instance trimmed_dec s : Decision (trimmed s).
Proof. unfold trimmed. apply _. Defined.

Lemma trim_start_no_lead s : no_lead (trim_start s).
Proof. induction s as [|c s IH]; simpl; [done|]. by destruct (is_space c) eqn:E. Qed.

Lemma trim_start_id s : no_lead s → trim_start s = s.
Proof. destruct s as [|c s]; simpl; [done|]. by intros ->. Qed.

Lemma trim_start_suffix s : ∃ p, s = p ++ trim_start s ∧ Forall (λ c, is_space c = true) p.
Proof.
  induction s as [|c s (p & Hp & HF)]; simpl; [by exists []|].
  destruct (is_space c) eqn:E; [|by exists []]. exists (c :: p). split; [|by constructor].
  simpl. by rewrite <- Hp.
Qed.

Lemma no_lead_app_inv a b : a ≠ [] → no_lead (a ++ b) → no_lead a.
Proof. by destruct a. Qed.

Lemma trim_trimmed s : trimmed (trim s).
Proof.
  unfold trim, trim_end. set (t := trim_start s).
  assert (no_lead t) as Ht by apply trim_start_no_lead.
  split; [|rewrite reverse_involutive; apply trim_start_no_lead].
  destruct (trim_start_suffix (reverse t)) as (p & Hp & HF).
  apply (f_equal reverse) in Hp. rewrite reverse_involutive, reverse_app in Hp.
  destruct (reverse (trim_start (reverse t))) eqn:E; [done|].
  rewrite Hp in Ht. by apply no_lead_app_inv in Ht.
Qed.

Lemma trim_id s : trimmed s → trim s = s.
Proof.
  intros [H1 H2]. unfold trim, trim_end. rewrite (trim_start_id s) by done.
  rewrite trim_start_id by done. apply reverse_involutive.
Qed.

Lemma trim_idemp s : trim (trim s) = trim s.
Proof. apply trim_id, trim_trimmed. Qed.

Lemma trimmed_app a b : trimmed a → trimmed b → a ≠ [] → b ≠ [] → ∀ m, trimmed (a ++ m ++ b).
Proof.
  intros [Ha1 Ha2] [Hb1 Hb2] Hna Hnb m. split.
  - destruct a; done.
  - rewrite !reverse_app, <- !app_assoc. destruct (reverse b) eqn:E; [|done].
    apply (f_equal reverse) in E. rewrite reverse_involutive in E. done.
Qed.

(** A string with the right first and last units is trimmed. *)
Lemma trimmed_ends c m d :
  is_space c = false → is_space d = false → trimmed (c :: m ++ [d]).
Proof.
  intros Hc Hd. split; [done|]. change (c :: m ++ [d]) with ([c] ++ m ++ [d]).
  by rewrite !reverse_app.
Qed.

Lemma trimmed_no_space s : Forall (λ c, is_space c = false) s → trimmed s.
Proof.
  intros H. split; [by destruct H|]. apply Forall_reverse in H. by destruct H.
Qed.

Lemma trim_nil : trim [] = [].
Proof. done. Qed.

Lemma Forall_trim (P : N → Prop) s : Forall P s → Forall P (trim s).
Proof.
  assert (∀ s, Forall P s → Forall P (trim_start s)) as H.
  { clear. intros s Hs. destruct (trim_start_suffix s) as (p & E & _). rewrite E in Hs. by apply Forall_app in Hs as [_ ?]. }
  intros Hs. unfold trim, trim_end. apply Forall_reverse, H, Forall_reverse, H, Hs.
Qed.

(** *** Lists of names in a text *)

(** The parts of a text between separators, trimmed and without the empty ones. *)
Definition names_of (sep : N) (s : jstring) : list jstring :=
  filter (λ m, truthy m = true) (map trim (split_unit sep s)).

(** A name that survives the text form: trimmed, not empty, without the separator. *)
Definition name_without (sep : N) (m : jstring) : Prop := m ≠ [] ∧ trimmed m ∧ sep ∉ m.

Lemma split_unit_parts (P : N → Prop) sep s : Forall P s → Forall (λ w, sep ∉ w ∧ Forall P w) (split_unit sep s).
Proof.
  induction 1 as [|c s Hc _ IH]; cbn [split_unit].
  - constructor; [|constructor]. split; [by apply not_elem_of_nil|constructor].
  - destruct (N.eqb_spec c sep) as [->|Hne].
    + constructor; [|done]. split; [by apply not_elem_of_nil|constructor].
    + destruct (split_unit sep s) as [|w ws].
      * constructor; [|constructor]. split; [|by constructor]. intros [->|[]%elem_of_nil]%elem_of_cons. done.
      * apply Forall_cons in IH as [[H1 H2] IH]. constructor; [|done]. split; [|by constructor].
        intros [->|?]%elem_of_cons; done.
Qed.

Lemma names_of_parts (P : N → Prop) sep s : Forall P s → Forall (λ m, name_without sep m ∧ Forall P m) (names_of sep s).
Proof.
  intros Hs. apply Forall_forall. intros m [Hm (w & -> & Hw)%list_elem_of_fmap]%list_elem_of_filter.
  pose proof (split_unit_parts P sep s Hs) as Hp. rewrite Forall_forall in Hp. destruct (Hp w Hw) as [H1 H2].
  split; [|by apply Forall_trim]. split_and!; [by apply truthy_spec|apply trim_trimmed|].
  intros Hin. assert (Forall (λ c, c ∈ w) (trim w)) as Hf by (apply Forall_trim, Forall_forall; done).
  rewrite Forall_forall in Hf. by apply H1, Hf.
Qed.

(** A list of names is read back from its text. *)
Lemma names_of_join sep l : Forall (name_without sep) l → names_of sep (join [sep] l) = l.
Proof.
  intros HN. destruct l as [|m l]; [done|]. unfold names_of. rewrite split_join_unit; [|done|].
  2: { eapply Forall_impl; [exact HN|]. by intros ? (_ & _ & ?). }
  assert (map trim (m :: l) = m :: l) as ->.
  { induction HN as [|x y (_ & Ht & _) HN IH]; [done|]. cbn. by rewrite trim_id, IH. }
  induction HN as [|x y (Hx & _) HN IH]; [done|].
  rewrite filter_cons, decide_True, IH by by apply truthy_spec. done.
Qed.

#[export] Hint Resolve trim_trimmed : jslib.
#[export] Hint Rewrite trim_idemp trim_nil starts_with_app : jslib.

(** *** Decimal numerals *)

(** [lia] with quotients and remainders by ten as atoms. *)
Ltac lia10 :=
  repeat match goal with
  | |- context [(?n mod 10)%N] => let m := fresh "m" in set (m := (n mod 10)%N) in *; clearbody m
  | _ : context [(?n mod 10)%N] |- _ => let m := fresh "m" in set (m := (n mod 10)%N) in *; clearbody m
  | |- context [(?n / 10)%N] => let m := fresh "m" in set (m := (n / 10)%N) in *; clearbody m
  | _ : context [(?n / 10)%N] |- _ => let m := fresh "m" in set (m := (n / 10)%N) in *; clearbody m
  end; lia.

Lemma is_digit_spec c : is_digit c = true ↔ (48 ≤ c ≤ 57)%N.
Proof. unfold is_digit. rewrite andb_true_iff, !N.leb_le. done. Qed.

Lemma digits_val_app a b :
  digits_val (a ++ b) = (digits_val a * 10 ^ N.of_nat (length b) + digits_val b)%N.
Proof.
  unfold digits_val. rewrite fold_left_app. generalize (fold_left (λ a c, (a * 10 + digit_val c)%N) a 0%N).
  induction b as [|c b IH] using rev_ind; intros x; [simpl; lia|].
  rewrite !fold_left_app, length_app. simpl. rewrite IH.
  rewrite Nat.add_1_r, Nat2N.inj_succ, N.pow_succ_r'. lia.
Qed.

Lemma digits_val_cons c b :
  digits_val (c :: b) = (digit_val c * 10 ^ N.of_nat (length b) + digits_val b)%N.
Proof. change (c :: b) with ([c] ++ b). rewrite digits_val_app. unfold digits_val at 1. simpl. lia. Qed.

Lemma digits_fuel_val fuel n acc :
  (n < 2 ^ N.of_nat fuel)%N → (0 < fuel)%nat →
  digits_val (digits_fuel fuel n acc) = (n * 10 ^ N.of_nat (length acc) + digits_val acc)%N.
Proof.
  revert n acc. induction fuel as [|f IH]; intros n acc Hn Hf; [lia|]. simpl.
  pose proof (N.div_mod' n 10) as Hdm. pose proof (N.mod_upper_bound n 10) as Hm.
  destruct (N.eqb_spec (n / 10) 0) as [E|E].
  - rewrite digits_val_cons. unfold digit_val. rewrite (N.add_comm 48), N.add_sub.
    rewrite E in Hdm. rewrite Hdm at 2. lia.
  - rewrite Nat2N.inj_succ, N.pow_succ_r' in Hn.
    rewrite IH; [|apply N.Div0.div_lt_upper_bound; lia|].
    + rewrite digits_val_cons. unfold digit_val. simpl length.
      rewrite Nat2N.inj_succ, N.pow_succ_r'. rewrite (N.add_comm 48), N.add_sub.
      rewrite Hdm at 3. lia.
    + destruct f; [|lia]. exfalso. apply E, N.div_small. simpl in Hn. lia.
Qed.

Lemma digits_fuel_digits fuel n acc :
  all_digits acc = true → all_digits (digits_fuel fuel n acc) = true.
Proof.
  revert n acc. induction fuel as [|f IH]; intros n acc H; [done|]. simpl.
  assert (all_digits ((48 + n mod 10)%N :: acc) = true) as H'.
  { simpl. rewrite H, andb_true_r. apply is_digit_spec.
    pose proof (N.mod_upper_bound n 10). lia10. }
  destruct (_ =? 0)%N; auto.
Qed.

Lemma N_log2_fuel n : (n < 2 ^ N.of_nat (S (N.to_nat (N.log2 n))))%N.
Proof.
  rewrite Nat2N.inj_succ, N2Nat.id. destruct (decide (n = 0%N)) as [->|Hn]; [done|].
  apply N.log2_spec. lia.
Qed.

Lemma digits_val_N_to_js n : digits_val (N_to_js n) = n.
Proof.
  unfold N_to_js. rewrite digits_fuel_val by (apply N_log2_fuel || lia).
  simpl. unfold digits_val. simpl. lia.
Qed.

Lemma all_digits_N_to_js n : all_digits (N_to_js n) = true.
Proof. by apply digits_fuel_digits. Qed.

(** A positive numeral starts with a digit from 1 to 9. *)
Lemma digits_fuel_head fuel n acc :
  (0 < n < 2 ^ N.of_nat fuel)%N →
  ∃ c r, digits_fuel fuel n acc = c :: r ∧ (49 ≤ c ≤ 57)%N.
Proof.
  revert n acc. induction fuel as [|f IH]; intros n acc Hn; [simpl in Hn; lia|]. simpl.
  pose proof (N.div_mod' n 10) as Hdm. pose proof (N.mod_upper_bound n 10) as Hm.
  destruct (N.eqb_spec (n / 10) 0) as [E|E].
  - eexists _, _. split; [done|]. lia10.
  - apply IH. rewrite Nat2N.inj_succ, N.pow_succ_r' in Hn.
    split; [lia10|apply N.Div0.div_lt_upper_bound; lia].
Qed.

Lemma N_to_js_head n : (0 < n)%N → ∃ c r, N_to_js n = c :: r ∧ (49 ≤ c ≤ 57)%N.
Proof. intros. apply digits_fuel_head. split; [done|apply N_log2_fuel]. Qed.

Lemma N_to_js_nonempty n : N_to_js n ≠ [].
Proof.
  destruct (decide (n = 0%N)) as [->|Hn]; [done|].
  destruct (N_to_js_head n) as (c & r & -> & _); [lia|done].
Qed.

Lemma N_to_js_inj n m : N_to_js n = N_to_js m → n = m.
Proof. intros H. rewrite <- (digits_val_N_to_js n), H. apply digits_val_N_to_js. Qed.

Lemma all_digits_no_space s : all_digits s = true → Forall (λ c, is_space c = false) s.
Proof.
  unfold all_digits. rewrite forallb_forall. intros H. apply Forall_forall.
  intros c Hc. apply list_elem_of_In, H, is_digit_spec in Hc. unfold is_space.
  repeat (apply orb_false_iff; split); try apply N.eqb_neq; try apply andb_false_iff;
    rewrite ?N.leb_gt; lia.
Qed.

(** A text that trims to nothing has only spaces. *)
Lemma trim_nil_spaces s : trim s = [] → Forall (λ c, is_space c = true) s.
Proof.
  intros H. destruct (trim_start_suffix s) as (p & E & Hp). rewrite E. apply Forall_app. split; [done|].
  pose proof (trim_start_no_lead s) as Hl. unfold trim, trim_end in H.
  apply (f_equal reverse) in H. rewrite reverse_involutive in H. cbn in H.
  destruct (trim_start_suffix (reverse (trim_start s))) as (q & E2 & Hq).
  rewrite H, app_nil_r in E2. apply (f_equal reverse) in E2. rewrite reverse_involutive in E2.
  rewrite E2. by apply Forall_reverse.
Qed.

Lemma all_digits_not_in c s : all_digits s = true → is_digit c = false → c ∉ s.
Proof.
  unfold all_digits. rewrite forallb_forall. intros H Hc Hin.
  apply list_elem_of_In, H in Hin. congruence.
Qed.

#[export] Hint Resolve all_digits_N_to_js N_to_js_nonempty : jslib.
#[export] Hint Rewrite digits_val_N_to_js : jslib.
