(* ===== verification/JsNumber.v ===== *)
(** * JsNumber: JavaScript numbers as IEEE 754 binary64 values

    Arithmetic is the executable specification of floating-point arithmetic of
    the standard library ([SpecFloat]) at precision 53 and exponent bound 1024,
    so every rounding the code does is done by the model.  Conversions between
    numbers and strings follow the language: correct rounding of a decimal
    numeral, the shortest numeral that reads back, [toFixed]. *)
From Stdlib Require Import Floats.SpecFloat.
From S2P Require Import Prelude JsString.

#[local] Open Scope Z_scope.

Abbreviation num := spec_float.

Definition nan : num := S754_nan.
Definition infinity : num := S754_infinity false.
Definition zero : num := S754_zero false.

Definition nadd : num → num → num := SFadd 53 1024.
Definition nsub : num → num → num := SFsub 53 1024.
Definition nmul : num → num → num := SFmul 53 1024.
Definition ndiv : num → num → num := SFdiv 53 1024.
Definition nlt : num → num → bool := SFltb.
Definition nle : num → num → bool := SFleb.
(** [a === b] *)
Definition neqb : num → num → bool := SFeqb.

Definition of_Z (z : Z) : num := binary_normalize 53 1024 z 0 false.

#[export] Instance num_eq_dec : EqDecision num.
Proof. solve_decision. Defined.

Definition is_nan (x : num) : bool := match x with S754_nan => true | _ => false end.

(** [Number.isFinite(x)] *)
Definition is_finite (x : num) : bool :=
  match x with S754_zero _ | S754_finite _ _ _ => true | _ => false end.

(** A number is truthy unless it is a zero or NaN. *)
Definition num_truthy (x : num) : bool :=
  match x with S754_zero _ | S754_nan => false | _ => true end.

(** [x || y] on numbers *)
Definition num_or (x y : num) : num := if num_truthy x then x else y.

(** [Math.max(x, y)], the positive zero above the negative one. *)
Definition nmax (x y : num) : num :=
  match SFcompare x y with
  | None => nan
  | Some Lt => y
  | Some Gt => x
  | Some Eq => match x with S754_zero true => y | _ => x end
  end.

(** [Math.min(x, y)] and [Math.min(...xs)] *)
Definition nmin (x y : num) : num :=
  match SFcompare x y with
  | None => nan
  | Some Lt => x
  | Some Gt => y
  | Some Eq => match x with S754_zero false => y | _ => x end
  end.

Definition Math_min (l : list num) : num := foldl nmin infinity l.

(** [Math.abs(x)] *)
Definition nabs : num → num := SFabs.

(** The signed mantissa. *)
Definition signed (s : bool) (m : positive) : Z := if s then Zneg m else Zpos m.

(** The integer part below, [None] when not finite. *)
Definition floor_Z (x : num) : option Z :=
  match x with
  | S754_zero _ => Some 0
  | S754_finite s m e => Some (Z.shiftl (signed s m) e)
  | _ => None
  end.

Definition is_integer (x : num) : bool :=
  match x with
  | S754_zero _ => true
  | S754_finite s m e =>
    bool_decide (0 <= e) || bool_decide (Zpos m mod 2 ^ (- e) = 0)
  | _ => false
  end.

Definition max_safe : Z := 9007199254740991.

(** The value of [x] when [Number.isSafeInteger(x)]. *)
Definition safe_integer (x : num) : option Z :=
  if is_integer x then
    z ← floor_Z x; if bool_decide (Z.abs z <= max_safe) then Some z else None
  else None.

(** [Math.floor(x)] and [Math.ceil(x)] *)
Definition nfloor (x : num) : num :=
  match x with
  | S754_finite s m e => match Z.shiftl (signed s m) e with Z0 => zero | z => of_Z z end
  | _ => x
  end.

Definition nceil (x : num) : num :=
  match x with
  | S754_finite s m e => SFopp (nfloor (SFopp x))
  | _ => x
  end.

(** [Math.round(x)]: the integer nearest to [x], the greater one of two; the sign of
    [x] stays when the result is zero. *)
Definition nround (x : num) : num :=
  match x with
  | S754_finite s m e =>
    let z := if 0 <=? e then Z.shiftl (signed s m) e
             else Z.shiftr (Z.shiftl (signed s m) 1 + Z.shiftl 1 (- e)) (1 - e) in
    match z with Z0 => S754_zero s | _ => of_Z z end
  | _ => x
  end.

(** [x % y]: the exact remainder, of the sign of [x]. *)
Definition nrem (x y : num) : num :=
  match x, y with
  | S754_nan, _ | _, S754_nan | S754_infinity _, _ | _, S754_zero _ => nan
  | S754_zero _, _ | _, S754_infinity _ => x
  | S754_finite sx mx ex, S754_finite _ my ey =>
    let e := Z.min ex ey in
    let r := Z.shiftl (Zpos mx) (ex - e) mod Z.shiftl (Zpos my) (ey - e) in
    binary_normalize 53 1024 (if sx then - r else r) e sx
  end.

(** ** Reading decimal numerals *)

(** The quotient of two positive integers, correctly rounded. *)
Definition of_ratio (neg : bool) (p q : positive) : num :=
  let '(mz, ez, lz) := SFdiv_core_binary 53 1024 (Zpos p) 0 (Zpos q) 0 in
  binary_round_aux 53 1024 neg mz ez lz.

Definition digit_count (n : N) : Z := Z.of_nat (length (N_to_js n)).

(** The number nearest to [m * 10^e]. *)
Definition of_decimal (neg : bool) (m : N) (e : Z) : num :=
  match m with
  | N0 => S754_zero neg
  | Npos p =>
    let d := digit_count m + e in
    if 310 <? d then S754_infinity neg
    else if d <? -330 then S754_zero neg
    else if 0 <=? e then binary_normalize 53 1024 (signed neg (p * Z.to_pos (10 ^ e))) 0 neg
    else of_ratio neg p (Z.to_pos (10 ^ (- e)))
  end.

(** The digits at the start of a string, and what follows them. *)
Fixpoint span_digits (s : jstring) : jstring * jstring :=
  match s with
  | c :: r => if is_digit c then let '(a, b) := span_digits r in (c :: a, b) else ([], s)
  | [] => ([], [])
  end.

(** An exponent part [[eE][+-]?digits], 0 when there is none. *)
Definition parse_exponent (s : jstring) : Z * jstring :=
  match s with
  | c :: r =>
    if ((c =? cu "e") || (c =? cu "E"))%N then
      let '(neg, r') :=
        match r with
        | d :: r' => if (d =? cu "-")%N then (true, r')
                     else if (d =? cu "+")%N then (false, r') else (false, r)
        | [] => (false, r)
        end in
      match span_digits r' with
      | ([], _) => (0, s)
      | (ds, rest) => let v := Z.of_N (digits_val ds) in ((if neg then - v else v), rest)
      end
    else (0, s)
  | [] => (0, s)
  end.

(** The longest unsigned decimal literal at the start of a string. *)
Definition parse_unsigned (neg : bool) (s : jstring) : option (num * jstring) :=
  let '(ip, r) := span_digits s in
  let '(fp, r') :=
    match r with
    | c :: r0 => if (c =? cu ".")%N then span_digits r0 else ([], r)
    | [] => ([], r)
    end in
  match ip ++ fp with
  | [] => None
  | ds => let '(e, rest) := parse_exponent r' in
          Some (of_decimal neg (digits_val ds) (e - Z.of_nat (length fp)), rest)
  end.

Definition parse_signed (s : jstring) : option (num * jstring) :=
  let '(neg, r) :=
    match s with
    | c :: r => if (c =? cu "-")%N then (true, r)
                else if (c =? cu "+")%N then (false, r) else (false, s)
    | [] => (false, s)
    end in
  if starts_with "Infinity" r then Some (S754_infinity neg, drop 8 r)
  else parse_unsigned neg r.

(** The lower case of an ASCII letter. *)
Definition ascii_lower (c : N) : N := if ((65 <=? c) && (c <=? 90))%N then (c + 32)%N else c.

(** The digits of a literal in base [2^k] after its prefix. *)
Definition radix_digit (c : N) : option N :=
  if is_digit c then Some (c - 48)%N
  else let l := ascii_lower c in
       if ((97 <=? l) && (l <=? 102))%N then Some (l - 87)%N else None.

Fixpoint parse_radix (base acc : N) (s : jstring) : option N :=
  match s with
  | [] => Some acc
  | c :: r =>
    match radix_digit c with
    | Some d => if (d <? base)%N then parse_radix base (acc * base + d)%N r else None
    | None => None
    end
  end.

(** [Number(s)] for a string. *)
Definition Number_of_string (s : jstring) : num :=
  let t := trim s in
  match t with
  | [] => zero
  | 48%N :: c :: _ :: _ =>
    let digits := drop 2 t in
    let base := if (ascii_lower c =? cu "x")%N then Some 16%N
                else if (ascii_lower c =? cu "o")%N then Some 8%N
                else if (ascii_lower c =? cu "b")%N then Some 2%N else None in
    match base with
    | Some b => match parse_radix b 0 digits with
                | Some n => of_Z (Z.of_N n)
                | None => nan
                end
    | None => match parse_signed t with Some (x, []) => x | _ => nan end
    end
  | _ => match parse_signed t with Some (x, []) => x | _ => nan end
  end.

(** [parseFloat(s)] *)
Definition parseFloat (s : jstring) : num :=
  match parse_signed (trim_start s) with Some (x, _) => x | None => nan end.

(** ** Writing numbers *)

(** A positive finite number as a fraction. *)
Definition ratio_of (m : positive) (e : Z) : Z * Z :=
  if 0 <=? e then (Zpos m * 2 ^ e, 1) else (Zpos m, 2 ^ (- e)).

(** The least [k] with [p * 10^k >= q], counted from [k]. *)
Fixpoint leading_zeros (fuel : nat) (k p q : Z) : Z :=
  match fuel with
  | O => k
  | S f => if q <=? p then k else leading_zeros f (k + 1) (p * 10) q
  end.

(** The exponent [n] with [10^(n-1) <= p/q < 10^n]. *)
Definition decimal_exponent (p q : Z) : Z :=
  if q <=? p then digit_count (Z.to_N (p / q)) else 1 - leading_zeros 400 0 p q.

(** The shortest digits that read back as [x], from [k] digits on. *)
Fixpoint shortest_from (fuel : nat) (x : num) (p q n k : Z) : N * Z :=
  let sh := k - n in
  let '(a, b) := if 0 <=? sh then (p * 10 ^ sh, q) else (p, q * 10 ^ (- sh)) in
  let d := a / b in
  let r := a mod b in
  let lo := bool_decide (of_decimal false (Z.to_N d) (- sh) = x) in
  let hi := bool_decide (of_decimal false (Z.to_N (d + 1)) (- sh) = x) in
  let near := 2 * r <? b in
  match fuel with
  | O => (Z.to_N d, - sh)
  | S f =>
    if lo && (near || negb hi) then (Z.to_N d, - sh)
    else if hi then (Z.to_N (d + 1), - sh)
    else shortest_from f x p q n (k + 1)
  end.

Fixpoint strip_zeros_rev (s : jstring) : jstring :=
  match s with
  | c :: ((_ :: _) as r) => if (c =? 48)%N then strip_zeros_rev r else s
  | _ => s
  end.

Definition zeros (n : Z) : jstring := replicate (Z.to_nat n) 48%N.

(** The layout of the digits [ds] of a number in [[10^(n-1), 10^n)]. *)
Definition layout_digits (ds : jstring) (n : Z) : jstring :=
  let k := Z.of_nat (length ds) in
  if (k <=? n) && (n <=? 21) then ds ++ zeros (n - k)
  else if (0 <? n) && (n <=? 21) then take (Z.to_nat n) ds ++ "." ++ drop (Z.to_nat n) ds
  else if (-6 <? n) && (n <=? 0) then "0." ++ zeros (- n) ++ ds
  else
    let e := n - 1 in
    let es := (if e <? 0 then "-" else "+") ++ Z_to_js (Z.abs e) in
    match ds with
    | [d] => d :: "e" ++ es
    | d :: r => d :: "." ++ r ++ "e" ++ es
    | [] => []
    end.

Definition positive_to_string (x : num) (m : positive) (e : Z) : jstring :=
  let '(p, q) := ratio_of m e in
  let n := decimal_exponent p q in
  let '(d, ex) := shortest_from 17 x p q n 1 in
  let ds := N_to_js d in
  (* the digits of [d * 10^ex], without trailing zeros *)
  layout_digits (reverse (strip_zeros_rev (reverse ds))) (Z.of_nat (length ds) + ex).

(** [String(x)] *)
Definition Number_to_string (x : num) : jstring :=
  match x with
  | S754_nan => "NaN"
  | S754_infinity s => if s then "-Infinity" else "Infinity"
  | S754_zero _ => "0"
  | S754_finite s m e =>
    let t := positive_to_string (S754_finite false m e) m e in
    if s then "-" ++ t else t
  end.

(** [x.toFixed(f)] *)
Definition to_fixed (f : nat) (x : num) : jstring :=
  match x with
  | S754_finite s m e =>
    let '(p, q) := ratio_of m e in
    if 10 ^ 21 * q <=? p then Number_to_string x
    else
      let n := (2 * p * 10 ^ Z.of_nat f + q) / (2 * q) in
      let ds := N_to_js (Z.to_N n) in
      let padded := replicate (S f - length ds) 48%N ++ ds in
      let k := (length padded - f)%nat in
      let body := match f with
                  | O => padded
                  | _ => take k padded ++ "." ++ drop k padded
                  end in
      if s then "-" ++ body else body
  | S754_zero _ => match f with O => "0" | _ => "0." ++ replicate f 48%N end
  | _ => Number_to_string x
  end.

Example num_ex1 : Number_to_string (nadd (Number_of_string "0.1") (Number_of_string " 0.2 ")) = "0.30000000000000004".
Proof. vm_compute. reflexivity. Qed.
Example num_ex2 :
  map (λ s, Number_to_string (Number_of_string s))
    ["1e21"; "123456789012345680000"; "1e-7"; "0.000001"; "5e-324"; "1.7976931348623157e308"; "-2.50"; "0x1F"; "1e400"; "x"; "9007199254740993"; "100"]
  = ["1e+21"; "123456789012345680000"; "1e-7"; "0.000001"; "5e-324"; "1.7976931348623157e+308"; "-2.5"; "31"; "Infinity"; "NaN"; "9007199254740992"; "100"].
Proof. vm_compute. reflexivity. Qed.
Example num_ex3 : map (to_fixed 2) (map Number_of_string ["1.005"; "-1.5"; "0.001"; "1234.5678"])
  = ["1.00"; "-1.50"; "0.00"; "1234.57"].
Proof. vm_compute. reflexivity. Qed.
