(* ===== verification/JsFloat.v ===== *)
(** * JsFloat: the order of numbers, and what rounding preserves

    The comparison of numbers is a total preorder on those that are not NaN, and
    the sign of a difference is the comparison of its operands, so that
    [xs.sort((a, b) => a - b)] sorts.  The second fact needs numbers in the form
    the arithmetic gives them, [valid_num], which every conversion establishes. *)
From Stdlib Require Import Floats.SpecFloat.
From S2P Require Import Prelude JsString JsNumber.

#[local] Open Scope Z_scope.

(** ** The order *)

(** A key whose lexicographic order is the order of numbers. *)
Definition num_key (x : num) : Z * Z * Z :=
  match x with
  | S754_infinity s => ((if s then -2 else 2), 0, 0)
  | S754_zero _ | S754_nan => (0, 0, 0)
  | S754_finite false m e => (1, e, Zpos m)
  | S754_finite true m e => (-1, - e, Zneg m)
  end.

Definition key_lt (a b : Z * Z * Z) : Prop :=
  let '(a1, a2, a3) := a in let '(b1, b2, b3) := b in
  a1 < b1 ∨ a1 = b1 ∧ (a2 < b2 ∨ a2 = b2 ∧ a3 < b3).

Lemma SFcompare_key x y :
  is_nan x = false → is_nan y = false →
  ∃ c, SFcompare x y = Some c ∧
    match c with
    | Lt => key_lt (num_key x) (num_key y)
    | Eq => num_key x = num_key y
    | Gt => key_lt (num_key y) (num_key x)
    end.
Proof.
  destruct x as [[]|[]| |[] m1 e1], y as [[]|[]| |[] m2 e2]; try done; intros _ _;
    eexists; (split; [reflexivity|]); simpl; try (lia || done);
    change (Pos.compare_cont Eq m1 m2) with (Pos.compare m1 m2).
  - destruct (Z.compare_spec e1 e2); simpl; [subst|lia|lia].
    destruct (Pos.compare_spec m1 m2); simpl; [by subst|lia|lia].
  - destruct (Z.compare_spec e1 e2); simpl; [subst|lia|lia].
    destruct (Pos.compare_spec m1 m2); simpl; [by subst|lia|lia].
Qed.

(** Comparisons as statements on the keys. *)
Lemma nlt_key x y : is_nan x = false → is_nan y = false → nlt x y = true ↔ key_lt (num_key x) (num_key y).
Proof.
  intros Hx Hy. unfold nlt, SFltb. destruct (SFcompare_key x y Hx Hy) as (c & -> & Hc).
  destruct (num_key x) as [[a1 a2] a3], (num_key y) as [[b1 b2] b3]; simpl in *.
  destruct c; [injection Hc as -> -> ->| |]; split; (done || lia).
Qed.

Lemma nle_key x y : is_nan x = false → is_nan y = false → nle x y = true ↔ ¬ key_lt (num_key y) (num_key x).
Proof.
  intros Hx Hy. unfold nle, SFleb. destruct (SFcompare_key x y Hx Hy) as (c & -> & Hc).
  destruct (num_key x) as [[a1 a2] a3], (num_key y) as [[b1 b2] b3]; simpl in *.
  destruct c; [injection Hc as -> -> ->| |]; split; (done || lia).
Qed.

Lemma nle_not_nan x y : nle x y = true → is_nan x = false ∧ is_nan y = false.
Proof. by destruct x as [[]|[]| |[] ??], y as [[]|[]| |[] ??]. Qed.

Lemma nlt_not_nan x y : nlt x y = true → is_nan x = false ∧ is_nan y = false.
Proof. by destruct x as [[]|[]| |[] ??], y as [[]|[]| |[] ??]. Qed.

Lemma nle_refl x : is_nan x = false → nle x x = true.
Proof. intros Hx. apply nle_key; [done..|]. destruct (num_key x) as [[??]?]. simpl. lia. Qed.

Lemma nle_trans x y z : nle x y = true → nle y z = true → nle x z = true.
Proof.
  intros H1 H2. destruct (nle_not_nan _ _ H1), (nle_not_nan _ _ H2).
  rewrite nle_key in * by done.
  destruct (num_key x) as [[??]?], (num_key y) as [[??]?], (num_key z) as [[??]?]; simpl in *. lia.
Qed.

Lemma nle_nlt x y : is_nan x = false → is_nan y = false → nle x y = negb (nlt y x).
Proof.
  intros Hx Hy. apply Bool.eq_true_iff_eq. rewrite negb_true_iff, <- not_true_iff_false.
  by rewrite nle_key, nlt_key.
Qed.

Lemma nlt_nle x y : nlt x y = true → nle x y = true.
Proof.
  intros H. destruct (nlt_not_nan _ _ H). rewrite nlt_key in H by done. rewrite nle_key by done.
  destruct (num_key x) as [[??]?], (num_key y) as [[??]?]; simpl in *. lia.
Qed.

Lemma nle_nlt_trans x y z : nle x y = true → nlt y z = true → nlt x z = true.
Proof.
  intros H1 H2. destruct (nle_not_nan _ _ H1), (nlt_not_nan _ _ H2).
  rewrite nle_key in H1 by done. rewrite nlt_key in * by done.
  destruct (num_key x) as [[??]?], (num_key y) as [[??]?], (num_key z) as [[??]?]; simpl in *. lia.
Qed.

Lemma nlt_nle_trans x y z : nlt x y = true → nle y z = true → nlt x z = true.
Proof.
  intros H1 H2. destruct (nlt_not_nan _ _ H1), (nle_not_nan _ _ H2).
  rewrite nle_key in H2 by done. rewrite nlt_key in * by done.
  destruct (num_key x) as [[??]?], (num_key y) as [[??]?], (num_key z) as [[??]?]; simpl in *. lia.
Qed.

Lemma nlt_irrefl x : nlt x x = false.
Proof.
  destruct (is_nan x) eqn:E; [by destruct x|]. apply not_true_iff_false. rewrite nlt_key by done.
  destruct (num_key x) as [[??]?]. simpl. lia.
Qed.

Lemma nle_total x y : is_nan x = false → is_nan y = false → nle x y = true ∨ nlt y x = true.
Proof.
  intros Hx Hy. rewrite nle_nlt by done. destruct (nlt y x); auto.
Qed.

Lemma finite_not_nan x : is_finite x = true → is_nan x = false.
Proof. by destruct x. Qed.

Create HintDb numbers.
#[export] Hint Resolve nle_trans nlt_nle nle_nlt_trans nlt_nle_trans finite_not_nan : numbers.

(** ** Rounding *)

(** The form of the results of the arithmetic: 53 digits, or the least exponent. *)
Definition valid_num (x : num) : bool := valid_binary 53 1024 x.

Definition digits2 (z : Z) : Z := Zdigits2 z.

Lemma digits2_spec p : 2 ^ (digits2 (Zpos p) - 1) <= Zpos p < 2 ^ digits2 (Zpos p) ∧ 1 <= digits2 (Zpos p).
Proof.
  assert (∀ p, 2 ^ Z.of_nat (Pos.to_nat (digits2_pos p) - 1) <= Zpos p < 2 ^ Zpos (digits2_pos p)) as H.
  { clear p. induction p as [p IH|p IH|]; cbn [digits2_pos]; [| |done].
    all: rewrite Pos2Z.inj_succ, Z.pow_succ_r, Pos2Nat.inj_succ by lia.
    all: replace (S (Pos.to_nat (digits2_pos p)) - 1)%nat
           with (S (Pos.to_nat (digits2_pos p) - 1)) by lia.
    all: rewrite Nat2Z.inj_succ, Z.pow_succ_r by lia; lia. }
  unfold digits2. cbn [Zdigits2]. specialize (H p).
  replace (Z.of_nat (Pos.to_nat (digits2_pos p) - 1)) with (Zpos (digits2_pos p) - 1) in H by lia. lia.
Qed.

Lemma digits2_nonneg z : 0 <= digits2 z.
Proof. destruct z; cbn; lia. Qed.

Lemma digits2_unique z d : 0 < z → 2 ^ (d - 1) <= z < 2 ^ d → digits2 z = d.
Proof.
  intros Hz Hd. destruct z as [|p|p]; [lia| |lia]. destruct (digits2_spec p) as [H1 H2].
  set (D := digits2 (Zpos p)) in *.
  assert (¬ D < d) by (intros ?; pose proof (Z.pow_le_mono_r 2 D (d - 1) ltac:(lia) ltac:(lia)); lia).
  assert (¬ d < D).
  { intros ?. destruct (Z.le_gt_cases 0 d).
    - pose proof (Z.pow_le_mono_r 2 d (D - 1) ltac:(lia) ltac:(lia)). lia.
    - rewrite (Z.pow_neg_r 2 d) in Hd by lia. lia. }
  lia.
Qed.

Lemma digits2_le z d : 0 <= z < 2 ^ d → digits2 z <= d.
Proof.
  intros Hz. destruct z as [|p|p]; [| |lia].
  - destruct (Z.le_gt_cases 0 d); [done|]. rewrite Z.pow_neg_r in Hz by lia. lia.
  - destruct (digits2_spec p) as [H1 H2]. destruct (Z.le_gt_cases (digits2 (Zpos p)) d); [done|].
    destruct (Z.le_gt_cases 0 d).
    + pose proof (Z.pow_le_mono_r 2 d (digits2 (Zpos p) - 1) ltac:(lia) ltac:(lia)). lia.
    + rewrite (Z.pow_neg_r 2 d) in Hz by lia. lia.
Qed.

Lemma digits2_div z n : 0 <= z → 0 <= n → n <= digits2 z → digits2 (z / 2 ^ n) = digits2 z - n.
Proof.
  intros Hz Hn Hd. destruct z as [|p|p]; [cbn in *; replace n with 0 by lia; done| |lia].
  destruct (digits2_spec p) as [H1 H2]. set (D := digits2 (Zpos p)) in *.
  pose proof (Z.pow_pos_nonneg 2 n ltac:(lia) Hn) as Hp.
  destruct (Z.eq_dec n D) as [->|Hne].
  - rewrite Z.div_small by lia. cbn. lia.
  - assert (2 ^ (D - n - 1) <= Zpos p / 2 ^ n) as Hlo.
    { apply Z.div_le_lower_bound; [lia|]. rewrite <- Z.pow_add_r by lia.
      replace (n + (D - n - 1)) with (D - 1) by lia. lia. }
    pose proof (Z.pow_pos_nonneg 2 (D - n - 1) ltac:(lia) ltac:(lia)).
    apply digits2_unique; [lia|]. split; [done|].
    apply Z.div_lt_upper_bound; [lia|]. rewrite <- Z.pow_add_r by lia.
    replace (n + (D - n)) with D by lia. lia.
Qed.

Lemma iter_pos_nat {A} (f : A → A) p x : SpecFloat.iter_pos f p x = Nat.iter (Pos.to_nat p) f x.
Proof.
  revert x. induction p as [p IH|p IH|]; intros x; cbn [SpecFloat.iter_pos]; [| |done].
  - rewrite !IH, <- Nat.iter_add, <- Nat.iter_succ_r. f_equal. lia.
  - rewrite !IH, <- Nat.iter_add. f_equal. lia.
Qed.

Lemma shr_m_iter p r : 0 <= shr_m r → shr_m (SpecFloat.iter_pos shr_1 p r) = shr_m r / 2 ^ Zpos p.
Proof.
  assert (∀ r, 0 <= shr_m r → shr_m (shr_1 r) = shr_m r / 2) as H1.
  { intros [m a b]. cbn. intros Hm. destruct m as [|[q|q|]|]; try done.
    - cbn. replace (Zpos q~1) with (1 + Zpos q * 2) by lia. rewrite Z.div_add by lia. done.
    - cbn. replace (Zpos q~0) with (Zpos q * 2) by lia. by rewrite Z.div_mul by lia. }
  assert (∀ (n : nat) r, 0 <= shr_m r → shr_m (Nat.iter n shr_1 r) = shr_m r / 2 ^ Z.of_nat n) as H.
  { clear p r. induction n as [|n IH]; intros r Hr; [cbn; by rewrite Z.div_1_r|].
    change (shr_m (shr_1 (Nat.iter n shr_1 r)) = shr_m r / 2 ^ Z.of_nat (S n)).
    rewrite H1 by (rewrite IH by done; apply Z.div_pos; lia).
    rewrite IH, Z.div_div, Nat2Z.inj_succ, Z.pow_succ_r by lia. f_equal. lia. }
  intros Hr. rewrite <- (positive_nat_Z p), <- H by done. f_equal. apply iter_pos_nat.
Qed.

(** The least exponent a number with magnitude [d] may have. *)
Definition least_exp (d : Z) : Z := Z.max (d - 53) (-1074).

Lemma shr_fexp_spec m e l :
  0 <= m → e <= least_exp (digits2 m + e) →
  shr_m (shr_fexp 53 1024 m e l).1 = m / 2 ^ (least_exp (digits2 m + e) - e) ∧
  (shr_fexp 53 1024 m e l).2 = least_exp (digits2 m + e).
Proof.
  intros Hm He. unfold shr_fexp. change (fexp 53 1024 (Zdigits2 m + e)) with (least_exp (digits2 m + e)).
  set (F := least_exp (digits2 m + e)) in *.
  assert (shr_m (shr_record_of_loc m l) = m) as Hr by (by destruct l as [|[]]).
  unfold shr. destruct (F - e) as [|p|p] eqn:E; cbn [fst snd].
  - rewrite Hr, Z.div_1_r. lia.
  - rewrite shr_m_iter by (rewrite Hr; done). rewrite Hr. lia.
  - lia.
Qed.

Lemma shr_fexp_none m e l :
  least_exp (digits2 m + e) <= e → shr_fexp 53 1024 m e l = (shr_record_of_loc m l, e).
Proof.
  intros He. unfold shr_fexp. change (fexp 53 1024 (Zdigits2 m + e)) with (least_exp (digits2 m + e)).
  unfold shr. by destruct (least_exp (digits2 m + e) - e) eqn:E; [..|lia|].
Qed.

Lemma round_step m l : round_nearest_even m l = m ∨ round_nearest_even m l = m + 1.
Proof. destruct l as [|[]]; cbn; auto. destruct (Z.even m); auto. Qed.

(** The first shift leaves at most 53 digits, and exactly 53 above the least exponent. *)
Lemma first_shift m e :
  0 <= m → e <= least_exp (digits2 m + e) →
  let F := least_exp (digits2 m + e) in
  let m1 := m / 2 ^ (F - e) in
  0 <= m1 ∧ digits2 m1 <= 53 ∧ (F = -1074 ∨ digits2 m1 = 53) ∧ (0 < m → -1074 <= e → 0 < m1).
Proof.
  intros Hm He F m1. set (d := digits2 m) in *. assert (0 <= d) by apply digits2_nonneg.
  split; [apply Z.div_pos; lia|]. split_and!.
  - destruct (Z.le_gt_cases (F - e) d) as [Hle|Hgt].
    + unfold m1. rewrite digits2_div by lia. fold d. unfold F, least_exp in *. lia.
    + unfold m1. rewrite Z.div_small; [cbn; lia|]. split; [done|].
      destruct m as [|p|p]; [by apply Z.pow_pos_nonneg; lia| |lia]. destruct (digits2_spec p) as [[_ H1] _]. fold d in H1.
      pose proof (Z.pow_le_mono_r 2 d (F - e) ltac:(lia) ltac:(lia)). lia.
  - destruct (Z.le_gt_cases (F - e) d) as [Hle|Hgt]; [|unfold F, least_exp in *; lia].
    unfold m1. rewrite digits2_div by lia. fold d. unfold F, least_exp in *. lia.
  - intros Hp He'. destruct m as [|p|p]; [lia| |lia]. destruct (digits2_spec p) as [[H1 H2] H3]. fold d in H1, H2, H3.
    apply Z.div_str_pos. split; [apply Z.pow_pos_nonneg; lia|].
    assert (F - e <= d - 1) by (unfold F, least_exp in *; lia).
    pose proof (Z.pow_le_mono_r 2 (F - e) (d - 1) ltac:(lia) ltac:(lia)). lia.
Qed.

(** The second shift moves by one digit at most, and loses nothing. *)
Lemma second_shift F m1 m2 :
  -1074 <= F → 0 <= m1 → digits2 m1 <= 53 → (F = -1074 ∨ digits2 m1 = 53) → m2 = m1 ∨ m2 = m1 + 1 →
  ∃ m3 f, (let '(mrs, e) := shr_fexp 53 1024 m2 F loc_Exact in (shr_m mrs, e)) = (m3, f) ∧
    0 <= m3 ∧ f = least_exp (digits2 m3 + f) ∧ digits2 m3 <= 53 ∧ F <= f <= F + 1 ∧ m2 = m3 * 2 ^ (f - F).
Proof.
  intros HF Hm1 Hd1 Hd2 Hm2. assert (0 <= m2 < 2 ^ 53 ∨ m2 = 2 ^ 53) as [Hlt| ->].
  { assert (m1 < 2 ^ 53); [|lia]. destruct m1 as [|p|p]; [lia| |lia].
    destruct (digits2_spec p) as [H1 _]. pose proof (Z.pow_le_mono_r 2 (digits2 (Zpos p)) 53 ltac:(lia) ltac:(lia)). lia. }
  - pose proof (digits2_le m2 53 Hlt) as Hd.
    assert (F = -1074 ∨ digits2 m2 = 53) as Hd'.
    { destruct Hd2 as [?|Hd2]; [auto|]. right. destruct m1 as [|p|p]; [done| |lia].
      destruct (digits2_spec p) as [H1 _]. rewrite Hd2 in H1. apply digits2_unique; lia. }
    rewrite shr_fexp_none by (unfold least_exp; lia). exists m2, F.
    rewrite Z.sub_diag, Z.pow_0_r. split; [done|]. split_and!; unfold least_exp; lia.
  - pose proof (shr_fexp_spec (2 ^ 53) F loc_Exact ltac:(lia)) as H2.
    assert (digits2 (2 ^ 53) = 54) as E54 by done. rewrite E54 in H2.
    destruct (shr_fexp _ _ _ _ _) as [r2 f2]. cbn [fst snd] in H2.
    destruct H2 as [H2 H2']; [unfold least_exp; lia|]. eexists _, _. split; [reflexivity|]. rewrite H2, H2'.
    assert (least_exp (54 + F) = F + 1) as -> by (unfold least_exp; lia). replace (F + 1 - F) with 1 by lia.
    change (2 ^ 53 / 2 ^ 1) with (2 ^ 52). change (digits2 (2 ^ 52)) with 53. split_and!; unfold least_exp; lia.
Qed.

(** A rounding takes the mantissa [m1] of the first shift or the next one, [m2], and
    writes it with at most 53 digits. *)
Lemma binary_round_aux_steps s m e l :
  0 <= m → e <= least_exp (digits2 m + e) →
  let F := least_exp (digits2 m + e) in
  let m1 := m / 2 ^ (F - e) in
  ∃ m2 m3 f, (m2 = m1 ∨ m2 = m1 + 1) ∧ 0 <= m3 ∧ m2 = m3 * 2 ^ (f - F) ∧ F <= f <= F + 1 ∧
    f = least_exp (digits2 m3 + f) ∧
    binary_round_aux 53 1024 s m e l =
    match m3 with
    | Z0 => S754_zero s
    | Zpos p => if f <=? 971 then S754_finite s p f else S754_infinity s
    | Zneg _ => S754_nan
    end.
Proof.
  intros Hm He F m1. unfold binary_round_aux. destruct (shr_fexp_spec m e l Hm He) as [Hr Hf]. fold F m1 in Hr, Hf.
  destruct (first_shift m e Hm He) as (H1 & Hd1 & Hd2 & _). fold F m1 in H1, Hd1, Hd2.
  destruct (shr_fexp 53 1024 m e l) as [r f0]. cbn [fst snd] in Hr, Hf. subst f0. rewrite Hr.
  set (m2 := round_nearest_even m1 (loc_of_shr_record r)).
  assert (m2 = m1 ∨ m2 = m1 + 1) as Hm2 by apply round_step. clearbody m2.
  destruct (second_shift F m1 m2) as (m3 & f & Hs & H3 & Hf3 & _ & Hle & E); [unfold F, least_exp; lia|done..|].
  destruct (shr_fexp 53 1024 m2 F loc_Exact) as [r2 f2]. injection Hs as Hr2 ->. rewrite Hr2.
  exists m2, m3, f. split_and!; [done..|lia|lia|done|]. by destruct m3.
Qed.

(** What a rounding gives: a number in normal form of the sign asked for, which is
    not zero when the exponent is in range and the mantissa is not zero. *)
Lemma binary_round_aux_spec s m e l :
  0 <= m → e <= least_exp (digits2 m + e) →
  let x := binary_round_aux 53 1024 s m e l in
  valid_num x = true ∧ is_nan x = false ∧
  (0 < m → -1074 <= e → (∃ p q, x = S754_finite s p q) ∨ x = S754_infinity s).
Proof.
  intros Hm He x. unfold x. destruct (binary_round_aux_steps s m e l Hm He) as (m2 & m3 & f & H2 & H3 & E & _ & Hf & ->).
  destruct (first_shift m e Hm He) as (_ & _ & _ & Hpos).
  assert (0 < m → -1074 <= e → 0 < m3) as Hp3.
  { intros H H'. specialize (Hpos H H'). destruct (Z.eq_dec m3 0) as [->|]; lia. }
  destruct m3 as [|p|p]; [|destruct (Z.leb_spec f 971)|lia].
  - split_and!; [done..|lia].
  - split_and!; [|done|intros; left; eauto]. unfold valid_num. cbn. unfold bounded, canonical_mantissa.
    change (Zpos (digits2_pos p)) with (digits2 (Zpos p)).
    change (fexp 53 1024 (digits2 (Zpos p) + f)) with (least_exp (digits2 (Zpos p) + f)).
    rewrite <- Hf. apply andb_true_iff. split; [by apply Z.eqb_eq|by apply Z.leb_le].
  - split_and!; [done..|intros; by right].
Qed.

Lemma iter_xO m d : Zpos (Pos.iter xO m d) = Zpos m * 2 ^ Zpos d.
Proof.
  induction d as [|d IH] using Pos.peano_ind; [cbn; lia|].
  rewrite Pos.iter_succ, Pos2Z.inj_xO, IH, Pos2Z.inj_succ, Z.pow_succ_r by lia. lia.
Qed.

Lemma shl_align_spec m e f :
  Zpos (shl_align m e f).1 = Zpos m * 2 ^ Z.max 0 (e - f) ∧ (shl_align m e f).2 = Z.min e f.
Proof.
  unfold shl_align. destruct (f - e) as [|p|p] eqn:E; cbn [fst snd].
  - rewrite Z.max_l, Z.pow_0_r by lia. lia.
  - rewrite Z.max_l, Z.pow_0_r by lia. lia.
  - rewrite iter_xO, Z.max_r by lia. split; [repeat f_equal; lia|lia].
Qed.

Lemma digits2_mul_pow m n : 0 <= n → digits2 (Zpos m * 2 ^ n) = digits2 (Zpos m) + n.
Proof.
  intros Hn. destruct (digits2_spec m) as [H1 H2]. set (d := digits2 (Zpos m)) in *.
  pose proof (Z.pow_pos_nonneg 2 n ltac:(lia) Hn).
  apply digits2_unique; [lia|]. replace (d + n - 1) with (d - 1 + n) by lia.
  rewrite !Z.pow_add_r by lia. nia.
Qed.

Lemma binary_round_spec s m e :
  let x := binary_round 53 1024 s m e in
  valid_num x = true ∧ is_nan x = false ∧
  (-1074 <= e → (∃ p q, x = S754_finite s p q) ∨ x = S754_infinity s).
Proof.
  unfold binary_round. change (Zpos (digits2_pos m)) with (digits2 (Zpos m)).
  change (fexp 53 1024) with least_exp. set (f := least_exp _).
  destruct (shl_align_spec m e f) as [H1 H2]. destruct (shl_align m e f) as [mz ez]. cbn [fst snd] in *.
  assert (digits2 (Zpos mz) + ez = digits2 (Zpos m) + e) as Hd by (rewrite H1, digits2_mul_pow; lia).
  destruct (binary_round_aux_spec s (Zpos mz) ez loc_Exact) as (Hv & Hn & Hp); [lia|rewrite Hd; unfold f in *; lia|].
  split_and!; [done..|]. intros He. apply Hp; [lia|]. unfold f, least_exp in *. lia.
Qed.

Lemma binary_normalize_valid m e s : valid_num (binary_normalize 53 1024 m e s) = true.
Proof. destruct m as [|p|p]; [done|..]; apply binary_round_spec. Qed.

(** The sign of a rounded number is the sign of the exact one. *)
Lemma binary_normalize_sign m e :
  -1074 <= e → SFcompare (binary_normalize 53 1024 m e false) zero = Some (m ?= 0).
Proof.
  intros He. destruct m as [|p|p]; [done|..]; cbn [binary_normalize].
  - destruct (binary_round_spec false p e) as (_ & _ & H). by destruct (H He) as [(? & ? & ->)| ->].
  - destruct (binary_round_spec true p e) as (_ & _ & H). by destruct (H He) as [(? & ? & ->)| ->].
Qed.

Lemma valid_finite s m e :
  valid_num (S754_finite s m e) = true → e = least_exp (digits2 (Zpos m) + e) ∧ e <= 971.
Proof.
  unfold valid_num. cbn. unfold bounded, canonical_mantissa. intros [H1%Z.eqb_eq H2%Z.leb_le]%andb_true_iff.
  split; [symmetry; exact H1|exact H2].
Qed.

(** Numbers in normal form are ordered by their exponents first. *)
Lemma aligned_compare m1 e1 m2 e2 f :
  valid_num (S754_finite false m1 e1) = true → valid_num (S754_finite false m2 e2) = true →
  f <= e1 → f <= e2 →
  (Zpos m1 * 2 ^ (e1 - f) ?= Zpos m2 * 2 ^ (e2 - f)) =
  match e1 ?= e2 with Eq => Zpos m1 ?= Zpos m2 | c => c end.
Proof.
  assert (∀ m1 e1 m2 e2, valid_num (S754_finite false m1 e1) = true →
    valid_num (S754_finite false m2 e2) = true → f <= e1 → e1 < e2 →
    Zpos m1 * 2 ^ (e1 - f) < Zpos m2 * 2 ^ (e2 - f)) as Hlt.
  { clear. intros m1 e1 m2 e2 [H1 _]%valid_finite [H2 _]%valid_finite Hf He.
    destruct (digits2_spec m1) as [D1 P1], (digits2_spec m2) as [D2 P2]. unfold least_exp in *.
    assert (digits2 (Zpos m2) = 53) as E2 by lia. assert (digits2 (Zpos m1) <= 53) as E1 by lia.
    rewrite E2 in D2. pose proof (Z.pow_le_mono_r 2 (digits2 (Zpos m1)) 53 ltac:(lia) ltac:(lia)).
    replace (e2 - f) with (1 + (e2 - e1 - 1) + (e1 - f)) by lia. rewrite !Z.pow_add_r by lia.
    pose proof (Z.pow_pos_nonneg 2 (e2 - e1 - 1) ltac:(lia) ltac:(lia)).
    pose proof (Z.pow_pos_nonneg 2 (e1 - f) ltac:(lia) ltac:(lia)).
    change (2 ^ 1) with 2. change (2 ^ (53 - 1)) with 4503599627370496 in D2. change (2 ^ 53) with 9007199254740992 in *.
    set (k := 2 ^ (e2 - e1 - 1)) in *. set (g := 2 ^ (e1 - f)) in *. clearbody k g.
    rewrite !Z.mul_assoc. apply Z.mul_lt_mono_pos_r; [done|]. nia. }
  intros V1 V2 F1 F2. destruct (Z.compare_spec e1 e2) as [->|?|?].
  - pose proof (Z.pow_pos_nonneg 2 (e2 - f) ltac:(lia) ltac:(lia)).
    rewrite !(Z.mul_comm _ (2 ^ (e2 - f))). by rewrite <- Zmult_compare_compat_l by lia.
  - apply Z.compare_lt_iff. by apply Hlt.
  - apply Z.compare_gt_iff. by apply Hlt.
Qed.

(** ** The sign of a difference *)

Lemma nsub_compare x y :
  valid_num x = true → valid_num y = true → is_finite x = true → is_finite y = true →
  SFcompare (nsub x y) zero = SFcompare x y.
Proof.
  intros Vx Vy Fx Fy. destruct x as [sx| | |sx mx ex], y as [sy| | |sy my ey]; try done.
  - by destruct sx, sy.
  - by destruct sy.
  - destruct (valid_finite _ _ _ Vx) as [Ex _], (valid_finite _ _ _ Vy) as [Ey _].
    unfold nsub. cbn [SFsub]. set (f := Z.min ex ey).
    rewrite binary_normalize_sign by (unfold f, least_exp in *; lia).
    destruct (shl_align_spec mx ex f) as [-> _], (shl_align_spec my ey f) as [-> _].
    rewrite !Z.max_r by lia. pose proof (aligned_compare mx ex my ey f Vx Vy ltac:(lia) ltac:(lia)) as Hc.
    set (a := Zpos mx * 2 ^ (ex - f)) in *. set (b := Zpos my * 2 ^ (ey - f)) in *.
    assert (0 < a ∧ 0 < b) as [? ?].
    { pose proof (Z.pow_pos_nonneg 2 (ex - f) ltac:(lia) ltac:(lia)).
      pose proof (Z.pow_pos_nonneg 2 (ey - f) ltac:(lia) ltac:(lia)). unfold a, b. lia. }
    destruct sx, sy; cbn; f_equal.
    + rewrite <- Z.compare_sub, Z.compare_opp, Z.compare_antisym, Hc. by destruct (ex ?= ey).
    + by apply Z.compare_lt_iff; lia.
    + by apply Z.compare_gt_iff; lia.
    + rewrite <- Z.compare_sub, Hc. by destruct (ex ?= ey).
Qed.

(** ** Sorting by [(a, b) => a - b] *)

(** The sign of a comparison function's result; NaN counts as equality. *)
Definition compare_result (v : num) : Z :=
  match SFcompare v zero with Some Lt => -1 | Some Gt => 1 | _ => 0 end.

Lemma compare_nsub_le x y :
  valid_num x = true → valid_num y = true → is_finite x = true → is_finite y = true →
  compare_result (nsub x y) <= 0 ↔ nle x y = true.
Proof.
  intros. unfold compare_result. rewrite nsub_compare by done. unfold nle, SFleb.
  destruct (SFcompare x y) as [[]|] eqn:E; try (split; (done || lia)).
  destruct (SFcompare_key x y) as (c & E' & _); auto using finite_not_nan. congruence.
Qed.

Section sort_numbers.
Context {A : Type} (f : A → num).

Definition number_order (a b : A) : Z := compare_result (nsub (f a) (f b)).
Definition proper_number (a : A) : Prop := valid_num (f a) = true ∧ is_finite (f a) = true.

Lemma sort_numbers_sorted l :
  Forall proper_number l → StronglySorted (λ a b, nle (f a) (f b) = true) (sort_by number_order l).
Proof.
  intros HP. assert (StronglySorted (cmp_le number_order) (sort_by number_order l)) as Hs.
  { apply (sort_by_sorted_on _ proper_number); [..|done]; unfold cmp_le, number_order.
    - intros a b [??] [??] Hlt. rewrite compare_nsub_le by done.
      destruct (nle_total (f b) (f a)) as [?|Hba]; auto using finite_not_nan.
      apply nlt_nle in Hba. apply compare_nsub_le in Hba; [lia|done..].
    - intros a b c [??] [??] [??]. rewrite !compare_nsub_le by done. eauto with numbers. }
  rewrite <- (sort_by_perm number_order) in HP.
  revert HP Hs. apply StronglySorted_impl_on. intros a b [??] [??]. by apply compare_nsub_le.
Qed.

(** By [(a, b) => b - a]: descending. *)
Lemma sort_numbers_sorted_down l :
  Forall proper_number l → StronglySorted (λ a b, nle (f b) (f a) = true) (sort_by (λ a b, number_order b a) l).
Proof.
  intros HP. assert (StronglySorted (cmp_le (λ a b, number_order b a)) (sort_by (λ a b, number_order b a) l)) as Hs.
  { apply (sort_by_sorted_on _ proper_number); [..|done]; unfold cmp_le, number_order.
    - intros a b [??] [??] Hlt. rewrite compare_nsub_le by done.
      destruct (nle_total (f a) (f b)) as [?|Hba]; auto using finite_not_nan.
      apply nlt_nle in Hba. apply compare_nsub_le in Hba; [lia|done..].
    - intros a b c [??] [??] [??]. rewrite !compare_nsub_le by done. eauto with numbers. }
  rewrite <- (sort_by_perm (λ a b, number_order b a)) in HP.
  revert HP Hs. apply StronglySorted_impl_on. intros a b [??] [??]. by apply compare_nsub_le.
Qed.

Lemma sort_numbers_id l :
  Forall proper_number l → StronglySorted (λ a b, nle (f a) (f b) = true) l → sort_by number_order l = l.
Proof.
  intros HP Hs. apply sort_by_sorted_id. revert HP Hs. apply StronglySorted_impl_on.
  intros a b [??] [??]. by apply compare_nsub_le.
Qed.
End sort_numbers.

Lemma neqb_key x y : is_nan x = false → is_nan y = false → neqb x y = true ↔ num_key x = num_key y.
Proof.
  intros Hx Hy. unfold neqb, SFeqb. destruct (SFcompare_key x y Hx Hy) as (c & -> & Hc).
  destruct (num_key x) as [[a1 a2] a3], (num_key y) as [[b1 b2] b3]. unfold key_lt in Hc.
  destruct c; (split; [done|]); intros [= -> -> ->]; (done || lia).
Qed.

Lemma neqb_nle x y : is_nan x = false → is_nan y = false → neqb x y = true → nle y x = true.
Proof.
  intros Hx Hy E%neqb_key; [|done..]. apply nle_key; [done..|]. rewrite E. unfold key_lt. destruct (num_key y) as [[a b] c]. lia.
Qed.

(** [v || next] for the result [v] of a comparison: [next] decides between equals. *)
Definition or_compare (v : num) (next : Z) : Z := if num_truthy v then compare_result v else next.

Lemma or_compare_le x y next :
  valid_num x = true → valid_num y = true → is_finite x = true → is_finite y = true →
  or_compare (nsub x y) next <= 0 ↔ nlt x y = true ∨ neqb x y = true ∧ next <= 0.
Proof.
  intros. unfold or_compare, compare_result. pose proof (nsub_compare x y) as E.
  rewrite E by done. unfold nlt, SFltb, neqb, SFeqb.
  destruct (SFcompare_key x y) as (c & Ec & _); [by apply finite_not_nan..|]. rewrite Ec in *.
  specialize (E ltac:(done) ltac:(done) ltac:(done) ltac:(done)).
  assert (num_truthy (nsub x y) = match c with Eq => false | _ => true end) as ->.
  { destruct (nsub x y) as [[]|[]| |[]]; destruct c; try done; by injection E. }
  destruct c; naive_solver lia.
Qed.

Section sort_numbers_then.
Context {A : Type} (f : A → num) (down : bool) (next : A → A → Z).
Hypothesis next_total : ∀ a b, 0 < next a b → next b a <= 0.
Hypothesis next_trans : ∀ a b c, cmp_le next a b → cmp_le next b c → cmp_le next a c.

(** By the number, ascending or descending, then by [next]. *)
Definition number_then (a b : A) : Z :=
  or_compare (if down then nsub (f b) (f a) else nsub (f a) (f b)) (next a b).

Definition before_then (a b : A) : Prop :=
  (if down then nlt (f b) (f a) = true else nlt (f a) (f b) = true) ∨ neqb (f a) (f b) = true ∧ next a b <= 0.

Lemma number_then_le a b :
  proper_number f a → proper_number f b → cmp_le number_then a b ↔ before_then a b.
Proof.
  intros [??] [??]. unfold cmp_le, number_then, before_then.
  assert (neqb (f b) (f a) = true ↔ neqb (f a) (f b) = true) as E by (rewrite !neqb_key by auto using finite_not_nan; naive_solver).
  destruct down; rewrite or_compare_le by done; by rewrite ?E.
Qed.

Lemma sort_then_sorted l :
  Forall (proper_number f) l → StronglySorted before_then (sort_by number_then l).
Proof using next_total next_trans.
  intros HP. assert (StronglySorted (cmp_le number_then) (sort_by number_then l)) as Hs.
  { apply (sort_by_sorted_on _ (proper_number f)); [..|done].
    - intros a b Ha Hb Hlt. apply (number_then_le b a Hb Ha).
      assert (¬ before_then a b) as Hn by (rewrite <- number_then_le by done; unfold cmp_le; lia).
      destruct Ha as [_ Ha%finite_not_nan], Hb as [_ Hb%finite_not_nan]. revert Hn. unfold before_then. specialize (next_total a b).
      destruct down; rewrite !nlt_key, !neqb_key by done; unfold key_lt;
        destruct (num_key (f a)) as [[a1 a2] a3], (num_key (f b)) as [[b1 b2] b3]; rewrite !pair_equal_spec; lia.
    - intros a b c Ha Hb Hc. rewrite !number_then_le by done. specialize (next_trans a b c). unfold cmp_le in next_trans.
      destruct Ha as [_ Ha%finite_not_nan], Hb as [_ Hb%finite_not_nan], Hc as [_ Hc%finite_not_nan]. unfold before_then.
      destruct down; rewrite !nlt_key, !neqb_key by done; unfold key_lt;
        destruct (num_key (f a)) as [[a1 a2] a3], (num_key (f b)) as [[b1 b2] b3], (num_key (f c)) as [[c1 c2] c3];
        rewrite !pair_equal_spec; lia. }
  rewrite <- (sort_by_perm number_then) in HP.
  revert HP Hs. apply StronglySorted_impl_on. intros a b ??. by apply number_then_le.
Qed.
End sort_numbers_then.

(** ** Conversions and arithmetic give numbers in normal form *)

Lemma digits2_div_lower a b :
  digits2 (Zpos a) - digits2 (Zpos b) <= digits2 (Zpos a / Zpos b).
Proof.
  destruct (digits2_spec a) as [A1 A2], (digits2_spec b) as [B1 B2].
  set (x := digits2 (Zpos a)) in *. set (y := digits2 (Zpos b)) in *.
  destruct (Z.le_gt_cases (x - y) 0); [pose proof (digits2_nonneg (Zpos a / Zpos b)); lia|].
  assert (2 ^ (x - y - 1) <= Zpos a / Zpos b) as Hq.
  { apply Z.div_le_lower_bound; [lia|].
    replace (x - 1) with (y + (x - y - 1)) in A1 by lia. rewrite Z.pow_add_r in A1 by lia.
    pose proof (Z.pow_pos_nonneg 2 (x - y - 1) ltac:(lia) ltac:(lia)). nia. }
  destruct (Zpos a / Zpos b) as [|p|p] eqn:E.
  - pose proof (Z.pow_pos_nonneg 2 (x - y - 1) ltac:(lia) ltac:(lia)). lia.
  - destruct (digits2_spec p) as [P1 P2]. destruct (Z.le_gt_cases (x - y) (digits2 (Zpos p))); [done|].
    pose proof (Z.pow_le_mono_r 2 (digits2 (Zpos p)) (x - y - 1) ltac:(lia) ltac:(lia)). lia.
  - pose proof (Z.div_pos (Zpos a) (Zpos b) ltac:(lia) ltac:(lia)). lia.
Qed.

(** The quotient of two mantissas, with digits enough to be rounded. *)
Lemma quotient_core m1 e1 m2 e2 :
  ∃ ez lz, let sh := e1 - e2 - ez in
    let mz := Zpos m1 * 2 ^ sh / Zpos m2 in
    SFdiv_core_binary 53 1024 (Zpos m1) e1 (Zpos m2) e2 = (mz, ez, lz) ∧ 0 <= sh ∧ 0 <= mz ∧
    ez <= least_exp (digits2 mz + ez) ∧ digits2 (Zpos m1) + e1 - (digits2 (Zpos m2) + e2) - ez <= digits2 mz ∧
    ez <= least_exp (digits2 (Zpos m1) + e1 - (digits2 (Zpos m2) + e2)).
Proof.
  unfold SFdiv_core_binary. change (fexp 53 1024) with least_exp.
  change (Zdigits2 (Zpos m1)) with (digits2 (Zpos m1)). change (Zdigits2 (Zpos m2)) with (digits2 (Zpos m2)).
  set (d := digits2 (Zpos m1) + e1 - (digits2 (Zpos m2) + e2)).
  set (e' := Z.min (least_exp d) (e1 - e2)). set (sh := e1 - e2 - e').
  assert (0 <= sh) by lia.
  replace (match sh with 0 => Zpos m1 | Zpos _ => Z.shiftl (Zpos m1) sh | Zneg _ => 0 end)
    with (Zpos m1 * 2 ^ sh).
  2: { destruct sh as [|p|p]; [lia| |lia]. by rewrite Z.shiftl_mul_pow2 by lia. }
  pose proof (Z.pow_pos_nonneg 2 sh ltac:(lia) ltac:(lia)).
  pose proof (digits2_mul_pow m1 sh ltac:(lia)) as Hd.
  assert (0 < Zpos m1 * 2 ^ sh) as Hpos by (apply Z.mul_pos_pos; lia).
  destruct (Zpos m1 * 2 ^ sh) as [|a|a] eqn:Ea; [lia| |lia].
  destruct (Z.div_eucl (Zpos a) (Zpos m2)) as [q r] eqn:Eq.
  assert (q = Zpos a / Zpos m2) as -> by (unfold Z.div; by rewrite Eq).
  pose proof (digits2_div_lower a m2) as Hq. pose proof (Z.div_pos (Zpos a) (Zpos m2) ltac:(lia) ltac:(lia)).
  exists e', (new_location (Zpos m2) r). fold sh. rewrite Ea. split_and!; [done..| | |]; unfold least_exp, d in *; lia.
Qed.

Lemma quotient_valid s m1 e1 m2 e2 :
  valid_num (let '(mz, ez, lz) := SFdiv_core_binary 53 1024 (Zpos m1) e1 (Zpos m2) e2 in
             binary_round_aux 53 1024 s mz ez lz) = true.
Proof.
  destruct (quotient_core m1 e1 m2 e2) as (ez & lz & -> & _ & Hz & He & _). by apply binary_round_aux_spec.
Qed.

Lemma of_Z_valid z : valid_num (of_Z z) = true.
Proof. apply binary_normalize_valid. Qed.

Lemma of_decimal_valid neg m e : valid_num (of_decimal neg m e) = true.
Proof.
  unfold of_decimal. destruct m as [|p]; [done|].
  destruct (310 <? _); [done|]. destruct (_ <? -330); [done|]. destruct (0 <=? e).
  - apply binary_normalize_valid.
  - apply quotient_valid.
Qed.

Lemma ndiv_valid x y : valid_num (ndiv x y) = true.
Proof. destruct x, y; try done. apply quotient_valid. Qed.

Lemma nadd_valid x y : valid_num x = true → valid_num y = true → valid_num (nadd x y) = true.
Proof.
  intros Vx Vy. destruct x as [[]|[]| |sx mx ex], y as [[]|[]| |sy my ey]; try done.
  all: unfold nadd; apply binary_normalize_valid.
Qed.

Lemma nsub_valid x y : valid_num x = true → valid_num y = true → valid_num (nsub x y) = true.
Proof.
  intros Vx Vy. destruct x as [[]|[]| |sx mx ex], y as [[]|[]| |sy my ey]; try done.
  all: unfold nsub; apply binary_normalize_valid.
Qed.

Lemma product_digits mx my :
  digits2 (Zpos mx) + digits2 (Zpos my) - 1 <= digits2 (Zpos (mx * my)).
Proof.
  destruct (digits2_spec mx) as [X1 X2], (digits2_spec my) as [Y1 Y2].
  set (a := digits2 (Zpos mx)) in *. set (b := digits2 (Zpos my)) in *.
  destruct (digits2_spec (mx * my)) as [P1 P2]. set (c := digits2 (Zpos (mx * my))) in *.
  destruct (Z.le_gt_cases (a + b - 1) c); [done|].
  pose proof (Z.pow_le_mono_r 2 c (a + b - 2) ltac:(lia) ltac:(lia)) as Hc.
  replace (a + b - 2) with ((a - 1) + (b - 1)) in Hc by lia. rewrite Z.pow_add_r in Hc by lia.
  pose proof (Z.pow_pos_nonneg 2 (a - 1) ltac:(lia) ltac:(lia)). nia.
Qed.

Lemma product_exponent s1 mx ex s2 my ey :
  valid_num (S754_finite s1 mx ex) = true → valid_num (S754_finite s2 my ey) = true →
  ex + ey <= least_exp (digits2 (Zpos (mx * my)) + (ex + ey)).
Proof.
  intros [Ex _]%valid_finite [Ey _]%valid_finite. pose proof (product_digits mx my). unfold least_exp in *.
  destruct (digits2_spec mx), (digits2_spec my). lia.
Qed.

Lemma nmul_valid x y : valid_num x = true → valid_num y = true → valid_num (nmul x y) = true.
Proof.
  intros Vx Vy. destruct x as [sx|sx| |sx mx ex], y as [sy|sy| |sy my ey]; try done.
  unfold nmul. cbn [SFmul]. apply binary_round_aux_spec; [lia|]. by eapply product_exponent.
Qed.

Lemma parse_unsigned_valid neg s x r : parse_unsigned neg s = Some (x, r) → valid_num x = true.
Proof.
  unfold parse_unsigned. destruct (span_digits s) as [ip r1].
  destruct (match r1 with [] => _ | _ => _ end) as [fp r2]. destruct (ip ++ fp); [done|].
  destruct (parse_exponent r2). intros [= <- _]. apply of_decimal_valid.
Qed.

Lemma parse_signed_valid s x r : parse_signed s = Some (x, r) → valid_num x = true.
Proof.
  unfold parse_signed. destruct (match s with [] => _ | _ => _ end) as [neg t].
  destruct (starts_with _ t); [by intros [= <- _]|]. apply parse_unsigned_valid.
Qed.

Lemma Number_of_string_valid s : valid_num (Number_of_string s) = true.
Proof.
  assert (∀ t, valid_num match parse_signed t with Some (x, []) => x | _ => nan end = true) as H.
  { intros t. destruct (parse_signed t) as [[x [|]]|] eqn:E; [|done..]. by eapply parse_signed_valid. }
  unfold Number_of_string. repeat (case_goal; try done; try apply H).
  all: apply of_Z_valid.
Qed.

(** ** Small integers are exact *)

Lemma of_Z_pos_exact (s : bool) p :
  digits2 (Zpos p) <= 53 →
  ∃ m e, binary_round 53 1024 s p 0 = S754_finite s m e ∧ e <= 0 ∧ Zpos m = Zpos p * 2 ^ (- e).
Proof.
  intros Hd. destruct (digits2_spec p) as [_ Hd1]. unfold binary_round.
  change (Zpos (digits2_pos p)) with (digits2 (Zpos p)). change (fexp 53 1024) with least_exp.
  rewrite Z.add_0_r. set (f := least_exp (digits2 (Zpos p))).
  assert (f = digits2 (Zpos p) - 53) as Hf by (unfold f, least_exp; lia).
  destruct (shl_align_spec p 0 f) as [H1 H2]. destruct (shl_align p 0 f) as [m e]. cbn [fst snd] in *.
  rewrite Z.min_r in H2 by lia. subst e. rewrite Z.max_r in H1 by lia.
  assert (digits2 (Zpos m) = 53) as Hm by (rewrite H1, digits2_mul_pow; lia).
  exists m, f. split_and!; [|lia|rewrite H1; f_equal; f_equal; lia].
  unfold binary_round_aux. rewrite shr_fexp_none by (rewrite Hm; unfold least_exp; lia).
  cbn [shr_record_of_loc shr_m loc_of_shr_record round_nearest_even].
  rewrite shr_fexp_none by (rewrite Hm; unfold least_exp; lia). cbn [shr_record_of_loc shr_m].
  by destruct (Z.leb_spec f (1024 - 53)); [|lia].
Qed.

Lemma exact_floor s m e p :
  e <= 0 → Zpos m = Zpos p * 2 ^ (- e) →
  is_integer (S754_finite s m e) = true ∧ floor_Z (S754_finite s m e) = Some (signed s p).
Proof.
  intros He Hm. pose proof (Z.pow_pos_nonneg 2 (- e) ltac:(lia) ltac:(lia)). split.
  - cbn [is_integer]. apply orb_true_iff. right. apply bool_decide_eq_true. rewrite Hm. by apply Z.mod_mul; lia.
  - cbn [floor_Z]. f_equal. replace e with (- (- e)) at 1 by lia. rewrite Z.shiftl_opp_r, Z.shiftr_div_pow2 by lia.
    assert (signed s m = signed s p * 2 ^ (- e)) as -> by (destruct s; cbn [signed]; lia).
    by apply Z.div_mul; lia.
Qed.

Lemma digits2_small p b : Zpos p < 2 ^ b → digits2 (Zpos p) <= b.
Proof. intros. apply digits2_le. lia. Qed.

(** ** When a result is a number *)

Lemma nsub_not_nan x y : is_finite x = true → is_finite y = true → is_nan (nsub x y) = false.
Proof.
  intros Hx Hy. destruct x as [[]|[]| |sx mx ex], y as [[]|[]| |sy my ey]; try done.
  all: unfold nsub; cbn [SFsub]; match goal with |- is_nan (binary_normalize _ _ ?z _ _) = _ => destruct z end;
    [done|apply binary_round_spec..].
Qed.

Lemma shr_fexp_nonneg m e l : 0 <= m → 0 <= shr_m (shr_fexp 53 1024 m e l).1.
Proof.
  intros Hm. assert (shr_m (shr_record_of_loc m l) = m) as Hr by (by destruct l as [|[]]).
  unfold shr_fexp, shr. destruct (fexp _ _ _ - e) as [|p|p]; cbn [fst]; rewrite ?Hr; [done| |done].
  rewrite shr_m_iter, Hr by (by rewrite Hr). apply Z.div_pos; [done|]. by apply Z.pow_pos_nonneg.
Qed.

Lemma binary_round_aux_not_nan s m e l : 0 <= m → is_nan (binary_round_aux 53 1024 s m e l) = false.
Proof.
  intros Hm. unfold binary_round_aux. pose proof (shr_fexp_nonneg m e l Hm) as H1.
  destruct (shr_fexp 53 1024 m e l) as [r f]. cbn [fst] in H1.
  assert (0 <= round_nearest_even (shr_m r) (loc_of_shr_record r)) as H2
    by (destruct (round_step (shr_m r) (loc_of_shr_record r)); lia).
  pose proof (shr_fexp_nonneg _ f loc_Exact H2) as H3. destruct (shr_fexp 53 1024 _ f loc_Exact) as [r2 f2].
  cbn [fst] in H3. destruct (shr_m r2) as [|p|p]; [done| |lia]. by destruct (f2 <=? _).
Qed.

(** A quotient by a positive finite number. *)
Lemma ndiv_not_nan x y : is_nan x = false → is_finite y = true → nlt zero y = true → is_nan (ndiv x y) = false.
Proof.
  intros Hx Hy Hp. destruct y as [[]|[]| |[] my ey]; try done. destruct x as [sx|sx| |sx mx ex]; try done.
  unfold ndiv. cbn [SFdiv]. unfold SFdiv_core_binary.
  destruct (Z.div_eucl _ _) as [q r] eqn:E. apply binary_round_aux_not_nan.
  match type of E with Z.div_eucl ?a ?b = _ => assert (q = a / b) as -> by (unfold Z.div; by rewrite E); assert (0 <= a) end.
  - match goal with |- 0 <= match ?s with _ => _ end => destruct s end; [done| |done].
    by apply Z.shiftl_nonneg.
  - by apply Z.div_pos.
Qed.

Lemma nmul_not_nan x y : is_nan x = false → is_finite y = true → nlt zero y = true → is_nan (nmul x y) = false.
Proof.
  intros Hx Hy Hp. destruct y as [[]|[]| |[] my ey]; try done. destruct x as [sx|sx| |sx mx ex]; try done.
  unfold nmul. cbn [SFmul]. by apply binary_round_aux_not_nan.
Qed.

(** [Math.min(high, Math.max(low, x))] lies between [low] and [high]. *)
Lemma nmax_le x y : is_nan x = false → is_nan y = false → nle x (nmax x y) = true ∧ is_nan (nmax x y) = false.
Proof.
  intros Hx Hy. unfold nmax. destruct (SFcompare_key x y Hx Hy) as (c & E & _). rewrite E.
  destruct c; (split; [|by destruct x as [[]| | |]]); unfold nle, SFleb; try (by rewrite E); try (by apply nle_refl).
  all: destruct x as [[]| | |]; try (by rewrite E); by apply nle_refl.
Qed.

Lemma nmax_ge_right x y : is_nan x = false → is_nan y = false → nle y (nmax x y) = true ∧ is_nan (nmax x y) = false.
Proof.
  intros Hx Hy. destruct (nmax_le x y Hx Hy) as [_ Hn]. split; [|done]. unfold nmax.
  destruct (SFcompare_key x y Hx Hy) as (c & -> & Hc).
  assert (c ≠ Lt → nle y x = true) as Hyx.
  { intros Hne. apply nle_key; [done..|]. unfold key_lt in *.
    destruct (num_key x) as [[??]?], (num_key y) as [[??]?], c; simplify_eq/=; (done || lia). }
  destruct c; [|by apply nle_refl|by apply Hyx].
  destruct x as [[]| | |]; try (by apply Hyx); by apply nle_refl.
Qed.

Lemma nmin_le x y :
  is_nan x = false → is_nan y = false →
  nle (nmin x y) x = true ∧ nle (nmin x y) y = true ∧ is_nan (nmin x y) = false ∧ (nmin x y = x ∨ nmin x y = y).
Proof.
  intros Hx Hy. unfold nmin. destruct (SFcompare_key x y Hx Hy) as (c & E & Hc). rewrite E.
  assert (SFcompare y x = Some (CompOpp c)) as E'.
  { destruct (SFcompare_key y x Hy Hx) as (c' & E' & Hc'). rewrite E'. f_equal.
    destruct (num_key x) as [[??]?], (num_key y) as [[??]?]. unfold key_lt in *.
    destruct c, c'; simplify_eq/=; try done; try lia. }
  destruct c.
  - assert (∀ z, z = x ∨ z = y → nle z x = true ∧ nle z y = true ∧ is_nan z = false ∧ (z = x ∨ z = y)) as H.
    { intros z [->| ->]; split_and!; auto using nle_refl; unfold nle, SFleb; by rewrite ?E, ?E'. }
    destruct x as [[]| | |]; apply H; auto.
  - split_and!; auto using nle_refl. unfold nle, SFleb. by rewrite E.
  - split_and!; auto using nle_refl. unfold nle, SFleb. by rewrite E'.
Qed.

Lemma clamp_bounds low high x :
  is_nan x = false → is_nan low = false → is_nan high = false → nle low high = true →
  nle low (nmin high (nmax low x)) = true ∧ nle (nmin high (nmax low x)) high = true.
Proof.
  intros Hx Hl Hh Hlh. destruct (nmax_le low x Hl Hx) as [H1 H2].
  destruct (nmin_le high (nmax low x) Hh H2) as (H3 & _ & _ & [E|E]); (split; [|done]); by rewrite E.
Qed.

(** A positive finite number times or over any number. *)
Lemma pos_nmul_not_nan x y : is_finite x = true → nlt zero x = true → is_nan y = false → is_nan (nmul x y) = false.
Proof.
  intros Hx Hp Hy. destruct x as [[]|[]| |[] mx ex]; try done. destruct y as [sy|sy| |sy my ey]; try done.
  unfold nmul. cbn [SFmul]. by apply binary_round_aux_not_nan.
Qed.

Lemma pos_ndiv_not_nan x y : is_finite x = true → nlt zero x = true → is_nan y = false → is_nan (ndiv x y) = false.
Proof.
  intros Hx Hp Hy. destruct x as [[]|[]| |[] mx ex]; try done. destruct y as [sy|sy| |sy my ey]; try done.
  replace (is_nan (ndiv (S754_finite false mx ex) (S754_finite sy my ey)))
    with (is_nan (ndiv (S754_finite false mx ex) (S754_finite false my ey))); [by apply ndiv_not_nan|].
  unfold ndiv. cbn [SFdiv]. destruct (SFdiv_core_binary _ _ _ _ _ _) as [[q e] l].
  unfold binary_round_aux. destruct (shr_fexp 53 1024 q e l). destruct (shr_fexp 53 1024 _ _ loc_Exact) as [r f].
  destruct (shr_m r); [done| |done]. by destruct (f <=? _).
Qed.

(** Products and quotients of numbers that are not negative. *)
Lemma binary_round_aux_nonneg m e l : 0 <= m → nle zero (binary_round_aux 53 1024 false m e l) = true.
Proof.
  intros Hm. pose proof (binary_round_aux_not_nan false m e l Hm) as Hn. revert Hn. unfold binary_round_aux.
  destruct (shr_fexp 53 1024 m e l) as [r f]. destruct (shr_fexp 53 1024 _ f loc_Exact) as [r2 f2].
  destruct (shr_m r2) as [|p|p]; [done| |done]. by destruct (f2 <=? _).
Qed.

Lemma nmul_nonneg x y :
  nle zero x = true → nle zero y = true → is_nan (nmul x y) = false → nle zero (nmul x y) = true.
Proof.
  intros Hx Hy Hn. destruct x as [[]|[]| |[] mx ex]; try done; destruct y as [[]|[]| |[] my ey]; try done.
  unfold nmul. cbn [SFmul xorb]. by apply binary_round_aux_nonneg.
Qed.

Lemma ndiv_nonneg x y : nle zero x = true → nlt zero y = true → is_finite y = true → nle zero (ndiv x y) = true.
Proof.
  intros Hx Hy Hf. destruct y as [[]|[]| |[] my ey]; try done. destruct x as [[]|[]| |[] mx ex]; try done.
  unfold ndiv. cbn [SFdiv xorb]. unfold SFdiv_core_binary. destruct (Z.div_eucl _ _) as [q r] eqn:E.
  apply binary_round_aux_nonneg.
  match type of E with Z.div_eucl ?a ?b = _ => assert (q = a / b) as -> by (unfold Z.div; by rewrite E); assert (0 <= a) end.
  - match goal with |- 0 <= match ?s with _ => _ end => destruct s end; [done| |done].
    by apply Z.shiftl_nonneg.
  - by apply Z.div_pos.
Qed.

(** ** [Math.min(...xs)] *)

Lemma fold_nmin acc l :
  is_nan acc = false → Forall (λ x, is_nan x = false) l →
  let r := foldl nmin acc l in
  (r = acc ∨ r ∈ l) ∧ nle r acc = true ∧ Forall (λ x, nle r x = true) l.
Proof.
  intros Ha Hl. revert acc Ha. induction Hl as [|x l Hx Hl IH]; intros acc Ha; cbn [foldl].
  - split_and!; [by left|by apply nle_refl|constructor].
  - destruct (nmin_le acc x Ha Hx) as (H1 & H2 & H3 & H4). destruct (IH _ H3) as (I1 & I2 & I3). split_and!.
    + destruct I1 as [->|I1]; [|right; by constructor].
      destruct H4 as [->| ->]; [by left|right; constructor].
    + by eapply nle_trans.
    + constructor; [by eapply nle_trans|done].
Qed.

Lemma Math_min_least l :
  l ≠ [] → Forall (λ x, is_nan x = false) l →
  Math_min l ∈ l ∧ Forall (λ x, nle (Math_min l) x = true) l.
Proof.
  intros Hne Hl. destruct (fold_nmin infinity l eq_refl Hl) as ([E|Hin] & _ & Hle); unfold Math_min; [|done].
  split; [|done]. destruct l as [|x l]; [done|]. rewrite E in *. apply Forall_cons in Hle as [Hx _].
  assert (x = infinity) as -> by (by destruct x as [|[]| |[]]). constructor.
Qed.

(** ** Sums of integers are exact *)

Lemma shr_exact n k :
  0 <= k →
  SpecFloat.iter_pos shr_1 n {| shr_m := k * 2 ^ Zpos n; shr_r := false; shr_s := false |}
  = {| shr_m := k; shr_r := false; shr_s := false |}.
Proof.
  intros Hk. assert (∀ j, 0 <= j → shr_1 {| shr_m := 2 * j; shr_r := false; shr_s := false |}
    = {| shr_m := j; shr_r := false; shr_s := false |}) as H1 by (intros [|p|p]; [done|done|lia]).
  rewrite iter_pos_nat, <- (positive_nat_Z n). revert k Hk. induction (Pos.to_nat n) as [|i IH]; intros k Hk.
  - cbn. f_equal. lia.
  - rewrite Nat.iter_succ_r. rewrite <- (IH k Hk). f_equal. rewrite Nat2Z.inj_succ, Z.pow_succ_r by lia.
    replace (k * (2 * 2 ^ Z.of_nat i)) with (2 * (k * 2 ^ Z.of_nat i)) by lia. apply H1.
    pose proof (Z.pow_nonneg 2 (Z.of_nat i)). nia.
Qed.

(** An integer of at most 53 digits is the same number however it is written. *)
Lemma round_exact (s : bool) P e p :
  digits2 (Zpos p) <= 53 → -1000 <= e <= 0 → Zpos P = Zpos p * 2 ^ (- e) →
  binary_round 53 1024 s P e
  = S754_finite s (Z.to_pos (Zpos p * 2 ^ (53 - digits2 (Zpos p)))) (digits2 (Zpos p) - 53).
Proof.
  intros Hd He HP. destruct (digits2_spec p) as [_ Hd1]. set (d := digits2 (Zpos p)) in *.
  unfold binary_round. change (Zpos (digits2_pos P)) with (digits2 (Zpos P)). change (fexp 53 1024) with least_exp.
  assert (digits2 (Zpos P) + e = d) as -> by (rewrite HP, digits2_mul_pow by lia; unfold d; lia).
  assert (least_exp d = d - 53) as -> by (unfold least_exp; lia).
  destruct (shl_align_spec P e (d - 53)) as [H1 H2]. destruct (shl_align P e (d - 53)) as [m f]. cbn [fst snd] in *.
  assert (Zpos m = Zpos p * 2 ^ (- f)) as Hm.
  { rewrite H1, HP, <- Z.mul_assoc, <- Z.pow_add_r by lia. f_equal. f_equal. lia. }
  assert (digits2 (Zpos m) + f = d) as Hmf by (rewrite Hm, digits2_mul_pow by lia; unfold d; lia).
  set (M := Zpos p * 2 ^ (53 - d)). assert (0 < M) as HM by (pose proof (Z.pow_pos_nonneg 2 (53 - d)); unfold M; lia).
  assert (shr_fexp 53 1024 (Zpos m) f loc_Exact = ({| shr_m := M; shr_r := false; shr_s := false |}, d - 53)) as E1.
  { unfold shr_fexp. change (fexp 53 1024 (Zdigits2 (Zpos m) + f)) with (least_exp (digits2 (Zpos m) + f)).
    rewrite Hmf. assert (least_exp d = d - 53) as -> by (unfold least_exp; lia).
    cbn [shr_record_of_loc]. unfold shr. destruct (d - 53 - f) as [|n|n] eqn:En; [| |lia].
    - replace f with (d - 53) by lia. f_equal. f_equal. rewrite Hm. unfold M. f_equal. f_equal. lia.
    - rewrite <- (shr_exact n M) by lia. f_equal; [|lia]. f_equal. f_equal. rewrite Hm. unfold M.
      rewrite <- Z.mul_assoc, <- Z.pow_add_r by lia. f_equal. f_equal. lia. }
  assert (digits2 M = 53) as HdM by (unfold M; rewrite digits2_mul_pow by lia; unfold d; lia).
  unfold binary_round_aux. rewrite E1. cbn [shr_m loc_of_shr_record round_nearest_even].
  rewrite shr_fexp_none by (rewrite HdM; unfold least_exp; lia). cbn [shr_record_of_loc shr_m].
  destruct M as [|q|q]; [lia| |lia]. cbn [Z.to_pos]. by destruct (Z.leb_spec (d - 53) (1024 - 53)); [|lia].
Qed.

Lemma of_Z_exact p :
  digits2 (Zpos p) <= 53 →
  of_Z (Zpos p) = S754_finite false (Z.to_pos (Zpos p * 2 ^ (53 - digits2 (Zpos p)))) (digits2 (Zpos p) - 53).
Proof. intros Hd. apply round_exact; [done|lia|]. cbn. lia. Qed.

(** An integer aligned to the exponent of another. *)
Lemma align_of_Z r f : Zpos r < 2 ^ 53 → f <= digits2 (Zpos r) - 53 →
  Zpos (shl_align (Z.to_pos (Zpos r * 2 ^ (53 - digits2 (Zpos r)))) (digits2 (Zpos r) - 53) f).1 = Zpos r * 2 ^ (- f).
Proof.
  intros Hr Hf. pose proof (digits2_small r 53 ltac:(lia)) as Hd.
  destruct (shl_align_spec (Z.to_pos (Zpos r * 2 ^ (53 - digits2 (Zpos r)))) (digits2 (Zpos r) - 53) f) as [-> _].
  rewrite Z2Pos.id by (apply Z.mul_pos_pos; [done|apply Z.pow_pos_nonneg; lia]).
  rewrite <- Z.mul_assoc, <- Z.pow_add_r by lia. f_equal. f_equal. lia.
Qed.

(** An integer with a smaller exponent. *)
Lemma normalize_scaled p f : Zpos p < 2 ^ 53 → -1000 <= f <= 0 → binary_normalize 53 1024 (Zpos p * 2 ^ (- f)) f false = of_Z (Zpos p).
Proof.
  intros Hp Hf. pose proof (Z.mul_pos_pos (Zpos p) (2 ^ (- f)) ltac:(lia) ltac:(apply Z.pow_pos_nonneg; lia)) as Hpos.
  destruct (Zpos p * 2 ^ (- f)) as [|P|P] eqn:EP; rewrite ?EP in Hpos; [lia| |lia].
  cbn [binary_normalize]. rewrite (round_exact false P f p); [|apply digits2_small; lia|lia|done].
  by rewrite of_Z_exact by (apply digits2_small; lia).
Qed.

Lemma nadd_of_Z a b : 0 <= a → 0 <= b → a + b < 2 ^ 53 → nadd (of_Z a) (of_Z b) = of_Z (a + b).
Proof.
  intros Ha Hb Hab. destruct a as [|p|p]; [|destruct b as [|q|q]|]; [| | |lia|lia].
  { rewrite Z.add_0_l. change (of_Z 0) with zero. destruct b as [|q|q]; [done| |lia]. rewrite of_Z_exact by (apply digits2_small; lia). done. }
  { rewrite Z.add_0_r. rewrite of_Z_exact by (apply digits2_small; lia). done. }
  pose proof (digits2_small p 53 ltac:(lia)) as Dp. pose proof (digits2_small q 53 ltac:(lia)) as Dq.
  destruct (digits2_spec p) as [_ Lp], (digits2_spec q) as [_ Lq]. rewrite (of_Z_exact p), (of_Z_exact q) by done. unfold nadd. cbn [SFadd cond_Zopp].
  rewrite !align_of_Z by lia. rewrite <- Z.mul_add_distr_r. apply (normalize_scaled (p + q)); lia.
Qed.

Lemma nsub_of_Z a b : 0 <= b <= a → a < 2 ^ 53 → nsub (of_Z a) (of_Z b) = of_Z (a - b).
Proof.
  intros Hb Ha. destruct b as [|q|q]; [|destruct a as [|p|p]; [lia| |lia]|lia].
  { rewrite Z.sub_0_r. destruct a as [|p|p]; [done| |lia]. rewrite of_Z_exact by (apply digits2_small; lia). done. }
  pose proof (digits2_small p 53 ltac:(lia)) as Dp. pose proof (digits2_small q 53 ltac:(lia)) as Dq.
  destruct (digits2_spec p) as [_ Lp], (digits2_spec q) as [_ Lq]. rewrite (of_Z_exact p), (of_Z_exact q) by done. unfold nsub. cbn [SFsub cond_Zopp].
  rewrite !align_of_Z by lia. rewrite <- Z.mul_sub_distr_r. destruct (Zpos p - Zpos q) as [|r|r] eqn:E; [done| |lia]. apply normalize_scaled; lia.
Qed.

(** [l.reduce((sum, x) => sum + x, 0)] *)
Definition nsum (l : list num) : num := fold_left nadd l zero.

Lemma nsum_of_Z l : Forall (λ z, 0 <= z) l → zsum l < 2 ^ 53 → nsum (map of_Z l) = of_Z (zsum l).
Proof.
  intros Hl Hs. unfold nsum. change zero with (of_Z 0). change (zsum l) with (0 + zsum l) in *.
  assert (0 <= 0) as H0 by done. revert H0 Hs. generalize 0 at 2 3 4 5. induction Hl as [|z l Hz Hl IH]; intros a Ha Hs.
  - by rewrite Z.add_0_r.
  - pose proof (zsum_nonneg l Hl). cbn [zsum foldr] in Hs |- *. change (foldr Z.add 0 l) with (zsum l) in *. cbn [map fold_left].
    rewrite nadd_of_Z by lia. rewrite Z.add_assoc. apply IH; lia.
Qed.

Lemma of_Z_finite z : 0 <= z < 2 ^ 53 → is_finite (of_Z z) = true ∧ floor_Z (of_Z z) = Some z.
Proof.
  intros Hz. destruct z as [|p|p]; [done| |lia].
  destruct (of_Z_pos_exact false p) as (m & e & E & He & Hm); [by apply digits2_small; lia|].
  unfold of_Z. cbn [binary_normalize]. rewrite E. split; [done|]. by apply (exact_floor false m e p).
Qed.

(** The order of integers. *)
Lemma compare_of_Z a b : 0 <= b <= a → a < 2 ^ 53 → SFcompare (of_Z a) (of_Z b) = Some (a ?= b).
Proof.
  intros Hb Ha. pose proof (of_Z_finite a ltac:(lia)) as [Fa _]. pose proof (of_Z_finite b ltac:(lia)) as [Fb _].
  rewrite <- nsub_compare by (done || apply of_Z_valid). rewrite nsub_of_Z by lia. unfold of_Z. rewrite binary_normalize_sign by lia.
  f_equal. symmetry. apply Z.compare_sub.
Qed.

Lemma nlt_of_Z a b : 0 <= a < 2 ^ 53 → 0 <= b < 2 ^ 53 → nlt (of_Z a) (of_Z b) = (a <? b).
Proof.
  intros Ha Hb. destruct (Z.le_gt_cases b a) as [Hle|Hgt].
  - unfold nlt, SFltb. rewrite compare_of_Z by lia. unfold Z.ltb. by destruct (a ?= b).
  - assert (nle (of_Z b) (of_Z a) = false) as H.
    { unfold nle, SFleb. rewrite compare_of_Z by lia. destruct (b ?= a) eqn:E; [apply Z.compare_eq_iff in E; lia|rewrite Z.compare_lt_iff in E; lia|done]. }
    pose proof (of_Z_finite a Ha) as [Fa%finite_not_nan _]. pose proof (of_Z_finite b Hb) as [Fb%finite_not_nan _].
    rewrite nle_nlt in H by done. apply negb_false_iff in H. rewrite H. symmetry. by apply Z.ltb_lt.
Qed.

Lemma nle_of_Z a b : 0 <= a < 2 ^ 53 → 0 <= b < 2 ^ 53 → nle (of_Z a) (of_Z b) = (a <=? b).
Proof.
  intros Ha Hb. pose proof (of_Z_finite a Ha) as [Fa%finite_not_nan _]. pose proof (of_Z_finite b Hb) as [Fb%finite_not_nan _].
  rewrite nle_nlt, nlt_of_Z by done. symmetry. apply Z.leb_antisym.
Qed.

Lemma of_Z_integer z : 0 <= z < 2 ^ 53 → is_integer (of_Z z) = true.
Proof.
  intros Hz. destruct z as [|p|p]; [done| |lia].
  destruct (of_Z_pos_exact false p) as (m & e & E & He & Hm); [by apply digits2_small; lia|].
  unfold of_Z. cbn [binary_normalize]. rewrite E. by apply (exact_floor false m e p).
Qed.
