(* ===== verification/JsRounding.v ===== *)
(** * JsRounding: how far a computed number is from the exact one

    The value of a number is a rational.  A product or quotient whose exact value is
    neither very small nor very large is computed with a relative error of at most
    [2^-52]; errors multiply along a chain of operations. *)
From Stdlib Require Import Floats.SpecFloat QArith Qpower Lqa.
From S2P Require Import Prelude JsString JsNumber JsFloat.

#[local] Open Scope Z_scope.

(** ** Powers of two *)

Definition two (z : Z) : Q := Qpower (inject_Z 2) z.

Lemma two_pos z : (0 < two z)%Q.
Proof. apply Qpower_0_lt. done. Qed.

Lemma two_add a b : (two (a + b) == two a * two b)%Q.
Proof. by apply Qpower_plus. Qed.

Lemma two_Z n : 0 <= n → (two n == inject_Z (2 ^ n))%Q.
Proof. intros. unfold two. by rewrite Zpower_Qpower by done. Qed.

Lemma two_le a b : a <= b → (two a <= two b)%Q.
Proof. intros. apply Qpower_le_compat_l; [lia|]. by vm_compute. Qed.

Lemma two_lt_inv a b : (two a < two b)%Q → a < b.
Proof. intros H. destruct (Z.lt_ge_cases a b) as [|Hge]; [done|]. apply two_le in Hge. lra. Qed.

Lemma inject_le a b : a <= b → (inject_Z a <= inject_Z b)%Q.
Proof. by rewrite <- Zle_Qle. Qed.

Lemma inject_lt a b : a < b → (inject_Z a < inject_Z b)%Q.
Proof. by rewrite <- Zlt_Qlt. Qed.

(** ** Values *)

Definition num_value (x : num) : Q :=
  match x with S754_finite s m e => inject_Z (signed s m) * two e | _ => 0 end.

(** [x] is [t] up to [k] roundings. *)
Definition unit_error : Q := two (-52).
Definition close (k : nat) (x t : Q) : Prop :=
  (t * Qpower (1 - unit_error) (Z.of_nat k) <= x ∧ x <= t * Qpower (1 + unit_error) (Z.of_nat k))%Q.

Lemma unit_error_small : (0 < unit_error)%Q ∧ (unit_error < 1)%Q.
Proof. by vm_compute. Qed.

Lemma close_trans j k x y t : close j x y → close k y t → close (j + k) x t.
Proof.
  intros [X1 X2] [Y1 Y2]. destruct unit_error_small as [U1 U2]. unfold close.
  rewrite Nat2Z.inj_add, Z.add_comm, !Qpower_plus, !Qmult_assoc by (intros H; lra). split.
  - eapply Qle_trans; [|exact X1]. apply Qmult_le_compat_r; [done|]. apply Qpower_0_le. lra.
  - eapply Qle_trans; [exact X2|]. apply Qmult_le_compat_r; [done|]. apply Qpower_0_le. lra.
Qed.

Lemma close_scale k x t c : (0 < c)%Q → close k x t → close k (x * c) (t * c).
Proof.
  intros Hc [H1 H2]. assert (∀ r, (t * c * r == t * r * c)%Q) as Hr by (intros; ring).
  split; rewrite Hr; apply Qmult_le_compat_r; (done || lra).
Qed.

#[global] Instance close_proper k : Proper (Qeq ==> Qeq ==> iff) (close k).
Proof. intros x x' Hx t t' Ht. unfold close. by rewrite Hx, Ht. Qed.

(** ** One rounding *)

(** The exact value lies between two consecutive multiples of a power of two. *)
Definition between (m e : Z) (t : Q) : Prop :=
  (inject_Z m * two e <= t ∧ t < inject_Z (m + 1) * two e)%Q.

Lemma between_shift m e F t :
  0 <= m → e <= F → between m e t → between (m / 2 ^ (F - e)) F t.
Proof.
  intros Hm HF [H1 H2]. pose proof (Z.pow_pos_nonneg 2 (F - e) ltac:(lia) ltac:(lia)) as Hp.
  assert (∀ z, (inject_Z (z * 2 ^ (F - e)) * two e == inject_Z z * two F)%Q) as Hz.
  { intros z. rewrite inject_Z_mult, <- (two_Z (F - e)), <- Qmult_assoc, <- two_add by lia.
    by replace (F - e + e) with F by lia. }
  pose proof (Z.mul_div_le m _ Hp). pose proof (Z.mul_succ_div_gt m _ Hp).
  pose proof (two_pos e). split.
  - eapply Qle_trans; [|exact H1]. rewrite <- Hz. apply Qmult_le_compat_r; [|lra]. apply inject_le. lia.
  - eapply Qlt_le_trans; [exact H2|]. rewrite <- Hz. apply Qmult_le_compat_r; [|lra]. apply inject_le. lia.
Qed.

(** A positive mantissa fixes the magnitude of the value. *)
Lemma between_magnitude m e t :
  0 < m → between m e t → (two (digits2 m - 1 + e) <= t ∧ t < two (digits2 m + e))%Q.
Proof.
  intros Hm [H1 H2]. destruct m as [|p|p]; [lia| |lia]. destruct (digits2_spec p) as [[D1 D2] D3].
  pose proof (two_pos e). split.
  - eapply Qle_trans; [|exact H1]. rewrite two_add, two_Z by lia.
    apply Qmult_le_compat_r; [|lra]. by apply inject_le.
  - eapply Qlt_le_trans; [exact H2|]. rewrite two_add, (two_Z (digits2 (Zpos p))) by lia.
    apply Qmult_le_compat_r; [|lra]. apply inject_le. lia.
Qed.

(** A magnitude, and the values that are computed without overflow or underflow. *)
Definition within (b : Z) (t : Q) : Prop := (two (- b) <= t ∧ t <= two b)%Q.
Definition ordinary (t : Q) : Prop := within 1000 t.

Lemma round_close m e l t :
  0 < m → e <= least_exp (digits2 m + e) → between m e t → ordinary t →
  ∃ p f, binary_round_aux 53 1024 false m e l = S754_finite false p f ∧
    close 1 (num_value (S754_finite false p f)) t.
Proof.
  intros Hm He Ht [Ho1 Ho2]. change (- (1000)) with (-1000) in Ho1. destruct (between_magnitude m e t Hm Ht) as [M1 M2].
  assert (-1000 < digits2 m + e) as HL by (apply two_lt_inv; lra).
  assert (digits2 m - 1 + e < 1001) as HU.
  { apply two_lt_inv. assert (two 1000 < two 1001)%Q by (by vm_compute). lra. }
  destruct (binary_round_aux_steps false m e l ltac:(lia) He) as (m2 & m3 & f & H2 & H3 & E & Hff & _ & ->).
  set (F := least_exp (digits2 m + e)) in *.
  assert (F = digits2 m + e - 53) as HF by (unfold F, least_exp; lia).
  assert (0 < m / 2 ^ (F - e)) as Hm1.
  { apply Z.div_str_pos. split; [apply Z.pow_pos_nonneg; lia|]. destruct m as [|q|q]; [lia| |lia].
    destruct (digits2_spec q) as [[D1 _] D3]. etransitivity; [|exact D1]. apply Z.pow_le_mono_r; lia. }
  pose proof (between_shift m e F t ltac:(lia) He Ht) as [B1 B2]. set (m1 := m / 2 ^ (F - e)) in *.
  pose proof (two_pos F) as HpF.
  (* one step of the last digit, against the value *)
  assert (two F <= t * unit_error)%Q as Hulp.
  { rewrite HF. replace (digits2 m + e - 53) with (digits2 m - 1 + e + -52) by lia. rewrite two_add.
    apply Qmult_le_compat_r; [done|]. by vm_compute. }
  destruct m3 as [|p|p]; [lia| |lia]. destruct (Z.leb_spec f 971); [|lia].
  exists p, f. split; [done|]. cbn [num_value signed].
  assert (inject_Z (Zpos p) * two f == inject_Z m2 * two F)%Q as ->.
  { rewrite E, inject_Z_mult, <- (two_Z (f - F)), <- Qmult_assoc, <- two_add by lia. by replace (f - F + F) with f by lia. }
  unfold close. change (Z.of_nat 1) with 1. rewrite !Qpower_1_r.
  rewrite inject_Z_plus in B2. change (inject_Z 1) with 1%Q in B2.
  destruct H2 as [-> | ->].
  - split; lra || nra.
  - rewrite inject_Z_plus. change (inject_Z 1) with 1%Q. split; lra || nra.
Qed.

(** ** Products and quotients *)

(** A positive number of the language. *)
Definition positive_num (x : num) : Prop := (∃ p f, x = S754_finite false p f) ∧ valid_num x = true.

Lemma positive_value x : positive_num x → (0 < num_value x)%Q.
Proof.
  intros [(p & f & ->) _]. cbn. rewrite <- (Qmult_0_l (two f)). apply Qmult_lt_r; [apply two_pos|]. by apply inject_lt.
Qed.

Lemma between_exact m e : between m e (inject_Z m * two e).
Proof.
  split; [lra|]. pose proof (two_pos e). rewrite inject_Z_plus. change (inject_Z 1) with 1%Q. nra.
Qed.

Lemma nmul_close x y :
  positive_num x → positive_num y → ordinary (num_value x * num_value y) →
  positive_num (nmul x y) ∧ close 1 (num_value (nmul x y)) (num_value x * num_value y).
Proof.
  intros [(mx & ex & ->) Vx] [(my & ey & ->) Vy] Ho.
  pose proof (nmul_valid _ _ Vx Vy) as Hv. unfold nmul in *. cbn [SFmul xorb] in *.
  assert (num_value (S754_finite false mx ex) * num_value (S754_finite false my ey) ==
    inject_Z (Zpos (mx * my)) * two (ex + ey))%Q as Et.
  { cbn [num_value signed]. rewrite Pos2Z.inj_mul, inject_Z_mult, two_add. ring. }
  assert (ordinary (inject_Z (Zpos (mx * my)) * two (ex + ey))) as Ho'.
  { unfold ordinary, within in *. rewrite <- Et. done. }
  destruct (round_close (Zpos (mx * my)) (ex + ey) loc_Exact _ ltac:(lia) (product_exponent _ _ _ _ _ _ Vx Vy)
    (between_exact _ _) Ho') as (p & f & E & Hc).
  rewrite E in *. split; [split; [by eexists _, _|done]|]. by rewrite Et.
Qed.

Lemma inject_div_between a b e t :
  0 <= a → (t == inject_Z a / inject_Z (Zpos b) * two e)%Q → between (a / Zpos b) e t.
Proof.
  intros Ha Ht. pose proof (two_pos e) as He. pose proof (inject_lt 0 (Zpos b) ltac:(lia)) as Hb.
  change (inject_Z 0) with 0%Q in Hb.
  pose proof (Z.mul_div_le a (Zpos b) ltac:(lia)) as H1. pose proof (Z.mul_succ_div_gt a (Zpos b) ltac:(lia)) as H2.
  apply inject_le in H1. apply inject_lt in H2. rewrite inject_Z_mult in H1, H2.
  split; rewrite Ht.
  - apply Qmult_le_compat_r; [|lra]. apply Qle_shift_div_l; [done|]. by rewrite Qmult_comm.
  - apply Qmult_lt_r; [done|]. apply Qlt_shift_div_r; [done|]. rewrite Qmult_comm. exact H2.
Qed.

Lemma ndiv_close x y :
  positive_num x → positive_num y → ordinary (num_value x / num_value y) →
  positive_num (ndiv x y) ∧ close 1 (num_value (ndiv x y)) (num_value x / num_value y).
Proof.
  intros Px Py Ho. pose proof (positive_value x Px) as Vx. pose proof (positive_value y Py) as Vy.
  destruct Px as [(mx & ex & ->) _], Py as [(my & ey & ->) _].
  pose proof (ndiv_valid (S754_finite false mx ex) (S754_finite false my ey)) as Hv.
  destruct (quotient_core mx ex my ey) as (ez & lz & E & Hsh & Hz & He & Hd & Hle).
  set (mz := Zpos mx * 2 ^ (ex - ey - ez) / Zpos my) in *.
  set (t := (num_value (S754_finite false mx ex) / num_value (S754_finite false my ey))%Q) in *.
  assert (between mz ez t) as Hb.
  { apply inject_div_between.
    { apply Z.mul_nonneg_nonneg; [lia|]. apply Z.pow_nonneg. lia. }
    unfold t. cbn [num_value signed]. rewrite inject_Z_mult, <- (two_Z (ex - ey - ez)) by done.
    assert (two ex == two ey * two (ex - ey - ez) * two ez)%Q as Hex.
    { rewrite <- !two_add. by replace (ey + (ex - ey - ez) + ez) with ex by lia. }
    rewrite Hex. pose proof (two_pos ey). pose proof (inject_lt 0 (Zpos my) ltac:(lia)) as Hmy.
    change (inject_Z 0) with 0%Q in Hmy. field. split; lra. }
  assert (0 < mz) as Hmz.
  { destruct (between_magnitude (Zpos mx) ex _ ltac:(lia) (between_exact _ _)) as [_ X].
    destruct (between_magnitude (Zpos my) ey _ ltac:(lia) (between_exact _ _)) as [Y _].
    change (inject_Z (Zpos mx) * two ex)%Q with (num_value (S754_finite false mx ex)) in X.
    change (inject_Z (Zpos my) * two ey)%Q with (num_value (S754_finite false my ey)) in Y.
    set (d := digits2 (Zpos mx) + ex - (digits2 (Zpos my) + ey)) in *.
    assert (-1000 < d + 1) as Hd'.
    { apply two_lt_inv. destruct Ho as [Ho _]. eapply Qle_lt_trans; [exact Ho|]. unfold t.
      apply Qlt_shift_div_r; [done|]. eapply Qlt_le_trans; [exact X|].
      assert (two (digits2 (Zpos mx) + ex) == two (d + 1) * two (digits2 (Zpos my) - 1 + ey))%Q as ->.
      { rewrite <- two_add. unfold d. by match goal with |- (two ?a == two ?b)%Q => replace b with a by lia end. }
      rewrite (Qmult_comm (two (d + 1))), (Qmult_comm (two (d + 1))). apply Qmult_le_compat_r; [done|].
      apply Qlt_le_weak, two_pos. }
    destruct mz as [|q|q]; [|lia|lia]. unfold least_exp in *. cbn in Hd. lia. }
  destruct (round_close mz ez lz t Hmz He Hb Ho) as (p & f & Er & Hc).
  unfold ndiv in *. cbn [SFdiv xorb] in *. rewrite E, Er in *. split; [split; [by eexists _, _|done]|done].
Qed.

(** *** Magnitudes along a chain of operations *)

Lemma within_mono a b t : a <= b → within a t → within b t.
Proof. intros H [H1 H2]. pose proof (two_le a b H). pose proof (two_le (- b) (- a) ltac:(lia)). split; lra. Qed.

Lemma within_positive a t : within a t → (0 < t)%Q.
Proof. intros [H _]. pose proof (two_pos (- a)). lra. Qed.

Lemma within_mult a b t u : within a t → within b u → within (a + b) (t * u).
Proof.
  intros Ht Hu. pose proof (within_positive _ _ Ht). pose proof (within_positive _ _ Hu).
  destruct Ht as [T1 T2], Hu as [U1 U2]. split.
  - rewrite Z.opp_add_distr, two_add. apply Qmult_le_compat_nonneg; split; try done; apply Qlt_le_weak, two_pos.
  - rewrite two_add. apply Qmult_le_compat_nonneg; split; (done || lra).
Qed.

Lemma within_div a b t u : within a t → within b u → within (a + b) (t / u).
Proof.
  intros Ht Hu. apply within_mult; [done|]. pose proof (within_positive _ _ Hu) as Hp. destruct Hu as [U1 U2].
  assert (two (- b) * two b == 1)%Q as E by (rewrite <- two_add; by rewrite Z.add_opp_diag_l).
  pose proof (two_pos b). pose proof (two_pos (- b)). split.
  - apply Qle_shift_inv_l; [done|]. rewrite <- E. apply Qmult_le_l; done.
  - apply Qle_shift_inv_r; [done|]. rewrite <- E, (Qmult_comm (two b)). apply Qmult_le_r; done.
Qed.

Lemma within_close a x t : within a t → close 1 x t → within (a + 1) x.
Proof.
  intros Ht [H1 H2]. pose proof (within_positive _ _ Ht) as Hp. destruct Ht as [T1 T2].
  change (Z.of_nat 1) with 1 in H1, H2. rewrite Qpower_1_r in H1, H2.
  assert (unit_error < 1 # 2)%Q by (by vm_compute).
  assert (two (- (a + 1)) == two (- a) * (1 # 2) ∧ two (a + 1) == two a * 2)%Q as [E1 E2].
  { rewrite Z.opp_add_distr, !two_add. split; apply Qmult_comp; reflexivity. }
  unfold within. rewrite E1, E2. split; nra.
Qed.

(** ** Integers *)

Lemma of_Z_value z : 0 < z < 2 ^ 53 → positive_num (of_Z z) ∧ (num_value (of_Z z) == inject_Z z)%Q.
Proof.
  intros Hz. pose proof (of_Z_valid z) as Hv. destruct z as [|p|p]; [lia| |lia].
  destruct (of_Z_pos_exact false p) as (m & e & E & He & Hm); [by apply digits2_small; lia|].
  unfold of_Z in *. cbn [binary_normalize] in *. rewrite E in *. split; [split; [by eexists _, _|done]|].
  cbn [num_value signed]. rewrite Hm, inject_Z_mult, <- (two_Z (- e)), <- Qmult_assoc, <- two_add by lia.
  rewrite Z.add_opp_diag_l. unfold two. cbn. ring.
Qed.

(** A number nearer to an integer than one half is rounded to it. *)
Lemma nround_near x n :
  positive_num x → 0 < n → (inject_Z n - (1 # 2) < num_value x)%Q → (num_value x < inject_Z n + (1 # 2))%Q →
  nround x = of_Z n.
Proof.
  intros [(m & e & ->) _] Hn H1 H2. cbn [num_value signed nround] in *.
  match goal with |- match ?z with _ => _ end = _ => assert (z = n) as ->; [|by destruct n] end.
  destruct (Z.leb_spec 0 e).
  - rewrite Z.shiftl_mul_pow2 by done. rewrite two_Z, <- inject_Z_mult in H1, H2 by done.
    set (z := Zpos m * 2 ^ e) in *.
    assert (inject_Z (n - 1) < inject_Z z)%Q as G1.
    { unfold Z.sub. rewrite inject_Z_plus, inject_Z_opp. change (inject_Z 1) with 1%Q. lra. }
    assert (inject_Z z < inject_Z (n + 1))%Q as G2.
    { rewrite inject_Z_plus. change (inject_Z 1) with 1%Q. lra. }
    rewrite <- Zlt_Qlt in G1, G2. lia.
  - assert (0 < - e) as He by lia. rewrite Z.shiftr_div_pow2, !Z.shiftl_mul_pow2 by lia.
    rewrite Z.mul_1_l, Z.pow_1_r. replace (1 - e) with (1 + - e) by lia. rewrite Z.pow_add_r, Z.pow_1_r by lia.
    set (d := 2 ^ (- e)). assert (0 < d) by (apply Z.pow_pos_nonneg; lia).
    assert (two e * inject_Z d == 1)%Q as Hd.
    { unfold d. rewrite <- two_Z, <- two_add by lia. by rewrite Z.add_opp_diag_r. }
    assert (0 < inject_Z d)%Q as Hdp by (by apply (inject_lt 0)).
    assert ((inject_Z (2 * n - 1) * inject_Z d < inject_Z (2 * Zpos m))%Q ∧
            (inject_Z (2 * Zpos m) < inject_Z (2 * n + 1) * inject_Z d)%Q) as [G1 G2].
    { unfold Z.sub. rewrite !inject_Z_plus, inject_Z_opp, !inject_Z_mult.
      change (inject_Z 1) with 1%Q. change (inject_Z 2) with 2%Q.
      apply (Qmult_lt_r _ _ _ Hdp) in H1. apply (Qmult_lt_r _ _ _ Hdp) in H2.
      rewrite <- Qmult_assoc, Hd in H1, H2. split; lra. }
    rewrite <- inject_Z_mult, <- Zlt_Qlt in G1, G2. symmetry. apply Z.div_unique_pos with (2 * Zpos m + d - 2 * d * n); [nia|cbn [signed]; lia].
Qed.

(** Four roundings do not move an integer below 2^48 by as much as one half. *)
Lemma close_integer x n :
  0 < n < 2 ^ 48 → close 4 x (inject_Z n) → (inject_Z n - (1 # 2) < x)%Q ∧ (x < inject_Z n + (1 # 2))%Q.
Proof.
  intros Hn [H1 H2]. change (Z.of_nat 4) with 4 in *.
  assert (1 - 5 * unit_error <= Qpower (1 - unit_error) 4)%Q as L by (by vm_compute).
  assert (Qpower (1 + unit_error) 4 <= 1 + 5 * unit_error)%Q as U by (by vm_compute).
  pose proof (inject_lt 0 n ltac:(lia)) as P. change (inject_Z 0) with 0%Q in P.
  assert (inject_Z n * (5 * unit_error) < 1 # 2)%Q as B.
  { pose proof (inject_lt n (2 ^ 48) ltac:(lia)) as Hlt.
    eapply Qlt_le_trans; [apply Qmult_lt_r; [by vm_compute|exact Hlt]|]. by vm_compute. }
  split; nra.
Qed.
