(* ===== verification/HttpStatusCodeRules.v ===== *)
(** * HttpStatusCodeRules: [lib/http-status-code-rules.ts]

    The textual rules ["400,500-503"] of retryable status codes: their parser,
    the merge of overlapping ranges and the normalised text.

    A code is an integer: [Number.parseInt] of a string of digits is exact up
    to 2^53, and a larger numeral parses to a number above 599 (possibly
    infinite), which both the code and the model refuse. *)
From S2P Require Import Prelude JsString.

#[local] Open Scope Z_scope.

Record StatusCodeRange := { start : Z; end_ : Z }.

#[export] Instance StatusCodeRange_eq_dec : EqDecision StatusCodeRange.
Proof. solve_decision. Defined.

Record ParsedHttpStatusCodeRules := {
  ok : bool;
  ranges : list StatusCodeRange;
  tokens : list jstring;
  normalized : jstring;
  invalidTokens : list jstring;
}.

(** [/^\d+$/.test(s)] *)
Definition isNumber (s : jstring) : bool := truthy s && all_digits s.

(** [Number.parseInt(s, 10)] on a string of digits. Beyond [2^53] the number of
    the code is only near this integer; both are above every valid code. *)
Definition parse_digits (s : jstring) : Z := Z.of_N (digits_val s).

Definition isValidCode (code : Z) : bool := (100 <=? code) && (code <=? 599).

Definition parseToken (token : jstring) : option StatusCodeRange :=
  let cleaned := filter (λ c, is_space c = false) (trim token) in
  if negb (truthy cleaned) then None
  else if includes "-" cleaned then
    match split_unit (cu "-") cleaned with
    | a :: b :: _ =>
      if negb (isNumber a) || negb (isNumber b) then None
      else
        let start := parse_digits a in
        let end_ := parse_digits b in
        if negb (isValidCode start) || negb (isValidCode end_) || (end_ <? start) then None
        else Some {| start := start; end_ := end_ |}
    | _ => None
    end
  else if negb (isNumber cleaned) then None
  else
    let code := parse_digits cleaned in
    if negb (isValidCode code) then None
    else Some {| start := code; end_ := code |}.

(** The comparison function of the sort. *)
Definition compareRanges (a b : StatusCodeRange) : Z :=
  if negb (start a =? start b) then start a - start b else end_ a - end_ b.

(** The body of the [reduce]: the last merged range is extended in place. *)
Definition mergeStep (merged : list StatusCodeRange) (current : StatusCodeRange)
  : list StatusCodeRange :=
  match reverse merged with
  | [] => merged ++ [current]
  | last :: init =>
    if end_ last + 1 <? start current then merged ++ [current]
    else reverse init ++ [{| start := start last; end_ := Z.max (end_ last) (end_ current) |}]
  end.

Definition mergeRanges (ranges : list StatusCodeRange) : list StatusCodeRange :=
  match ranges with
  | [] => []
  | _ => fold_left mergeStep (sort_by compareRanges ranges) []
  end.

Definition formatRange (r : StatusCodeRange) : jstring :=
  if start r =? end_ r then Z_to_js (start r)
  else Z_to_js (start r) ++ "-" ++ Z_to_js (end_ r).

(** The accepted and the refused segments of the loop, in order. *)
Fixpoint parseSegments (segments : list jstring) : list StatusCodeRange * list jstring :=
  match segments with
  | [] => ([], [])
  | segment :: rest =>
    let '(ranges, invalid) := parseSegments rest in
    match parseToken segment with
    | None => (ranges, segment :: invalid)
    | Some r => (r :: ranges, invalid)
    end
  end.

Definition segmentsOf (raw : jstring) : list jstring :=
  let sanitized := replace_unit (cu "，") "," raw in
  filter (λ s, truthy s = true) (map trim (split_unit (cu ",") sanitized)).

(** The argument is [input?.toString()]: [None] for [null] and [undefined]. *)
Definition parseHttpStatusCodeRules (input : option jstring) : ParsedHttpStatusCodeRules :=
  let raw := trim (default "" input) in
  if bool_decide (length raw = 0%nat) then
    {| ok := true; ranges := []; tokens := []; normalized := ""; invalidTokens := [] |}
  else
    let '(ranges, invalidTokens) := parseSegments (segmentsOf raw) in
    match invalidTokens with
    | _ :: _ =>
      {| ok := false; ranges := []; tokens := []; normalized := raw;
         invalidTokens := invalidTokens |}
    | [] =>
      let merged := mergeRanges ranges in
      let tokens := map formatRange merged in
      {| ok := true; ranges := merged; tokens := tokens; normalized := join "," tokens;
         invalidTokens := [] |}
    end.

Example parse_ex :
  parseHttpStatusCodeRules (Some " 500-503, 400，504 , 429") =
  {| ok := true;
     ranges := [{| start := 400; end_ := 400 |}; {| start := 429; end_ := 429 |};
                {| start := 500; end_ := 504 |}];
     tokens := ["400"; "429"; "500-504"]; normalized := "400,429,500-504";
     invalidTokens := [] |}.
Proof. vm_compute. reflexivity. Qed.

(** ** Ranges as sets of codes *)

(** The codes a list of ranges selects. *)
Definition covers (rs : list StatusCodeRange) (c : Z) : Prop :=
  Exists (λ r, start r <= c <= end_ r) rs.

Definition wf_range (r : StatusCodeRange) : Prop := start r <= end_ r.

Definition in_bounds (r : StatusCodeRange) : Prop :=
  100 <= start r /\ start r <= end_ r /\ end_ r <= 599.

(** [b] starts after [a] with at least one code between them. *)
Definition gap (a b : StatusCodeRange) : Prop := end_ a + 1 < start b.

(** The canonical form: well-formed ranges, increasing, none adjacent. *)
Definition canonical (rs : list StatusCodeRange) : Prop :=
  Forall wf_range rs /\ StronglySorted gap rs.

Lemma covers_nil c : ¬ covers [] c.
Proof. inversion 1. Qed.

Lemma covers_cons r rs c : covers (r :: rs) c ↔ start r <= c <= end_ r ∨ covers rs c.
Proof. unfold covers. apply Exists_cons. Qed.

Lemma covers_app l k c : covers (l ++ k) c ↔ covers l c ∨ covers k c.
Proof. unfold covers. apply Exists_app. Qed.

Lemma covers_perm l k c : l ≡ₚ k → covers l c ↔ covers k c.
Proof.
  unfold covers. intros Hp. rewrite !Exists_exists.
  split; intros (x & Hx & ?); exists x; (split; [|done]).
  - by rewrite <- Hp.
  - by rewrite Hp.
Qed.

Lemma canonical_cons r rs :
  canonical (r :: rs) ↔ wf_range r ∧ Forall (gap r) rs ∧ canonical rs.
Proof.
  unfold canonical. rewrite Forall_cons. split.
  - intros [[? ?] Hs]. inversion Hs; subst. naive_solver.
  - intros (? & ? & ? & ?). split; [done|]. by constructor.
Qed.

Lemma covers_above r rs c : Forall (gap r) rs → covers rs c → end_ r + 1 < c.
Proof.
  intros Hg Hc. unfold covers in Hc. apply Exists_exists in Hc as (x & Hx & Hc).
  rewrite Forall_forall in Hg. specialize (Hg _ Hx). unfold gap in Hg. lia.
Qed.

(** A canonical list is determined by the codes it covers. *)
Lemma canonical_unique l k :
  canonical l → canonical k → (∀ c, covers l c ↔ covers k c) → l = k.
Proof.
  revert k. induction l as [|r l IH]; intros [|s k] Hl Hk Hc; [done| | |].
  - exfalso. apply (covers_nil (start s)), Hc, covers_cons. left.
    apply canonical_cons in Hk as [Hw _]. unfold wf_range in Hw. lia.
  - exfalso. apply (covers_nil (start r)), Hc, covers_cons. left.
    apply canonical_cons in Hl as [Hw _]. unfold wf_range in Hw. lia.
  - apply canonical_cons in Hl as (Hr & Hgr & Hl), Hk as (Hs & Hgs & Hk).
    unfold wf_range in *. setoid_rewrite covers_cons in Hc.
    pose proof (λ c, covers_above r l c Hgr) as Hal.
    pose proof (λ c, covers_above s k c Hgs) as Hak.
    assert (start r = start s) as Estart.
    { destruct (proj1 (Hc (start r))) as [?|?%Hak]; [lia| |];
      destruct (proj2 (Hc (start s))) as [?|?%Hal]; lia. }
    assert (end_ r = end_ s) as Eend.
    { destruct (Z.lt_trichotomy (end_ r) (end_ s)) as [E|[E|E]]; [|done|].
      - destruct (proj2 (Hc (end_ r + 1))) as [?|?%Hal]; lia.
      - destruct (proj1 (Hc (end_ s + 1))) as [?|?%Hak]; lia. }
    destruct r as [r1 r2], s as [s1 s2]; simpl in *; subst. f_equal.
    apply IH; [done..|]. intros c. specialize (Hc c). split; intros H.
    + pose proof (Hal c H). destruct (proj1 Hc) as [?|?]; [by right|lia|done].
    + pose proof (Hak c H). destruct (proj2 Hc) as [?|?]; [by right|lia|done].
Qed.

(** ** Merging *)

Lemma mergeStep_snoc init last cur :
  mergeStep (init ++ [last]) cur =
  if end_ last + 1 <? start cur then (init ++ [last]) ++ [cur]
  else init ++ [{| start := start last; end_ := Z.max (end_ last) (end_ cur) |}].
Proof. unfold mergeStep. rewrite reverse_snoc. by rewrite reverse_involutive. Qed.

Lemma canonical_snoc init last :
  canonical (init ++ [last]) ↔ canonical init ∧ wf_range last ∧ Forall (λ r, gap r last) init.
Proof.
  induction init as [|r init IH]; simpl.
  - rewrite canonical_cons. unfold canonical. naive_solver (constructor).
  - rewrite !canonical_cons, IH, Forall_app, !Forall_cons. naive_solver.
Qed.

Lemma fold_mergeStep init last l :
  canonical (init ++ [last]) →
  Forall wf_range l → StronglySorted (λ a b, start a <= start b) (last :: l) →
  let out := fold_left mergeStep l (init ++ [last]) in
  canonical out ∧ ∀ c, covers out c ↔ covers (init ++ [last]) c ∨ covers l c.
Proof.
  revert init last. induction l as [|r l IH]; intros init last Hc Hw Hs; simpl.
  - split; [done|]. intros c. pose proof (covers_nil c). naive_solver.
  - apply Forall_cons in Hw as [Hr Hw]. inversion Hs as [|? ? Hs' Hl]; subst.
    apply Forall_cons in Hl as [Hlr Hl]. inversion Hs' as [|? ? Hs'' Hr']; subst.
    apply canonical_snoc in Hc as (Hi & Hlast & Hg). unfold wf_range in *.
    rewrite mergeStep_snoc. destruct (Z.ltb_spec (end_ last + 1) (start r)) as [Hlt|Hge].
    + destruct (IH (init ++ [last]) r) as [IH1 IH2]; [|done|done|].
      * apply canonical_snoc. split_and!; [apply canonical_snoc; done|done|].
        apply Forall_app. split; [|by repeat constructor].
        rewrite Forall_forall in *. intros x Hx. specialize (Hg x Hx). unfold gap in *. lia.
      * split; [done|]. intros c. rewrite IH2, covers_app, !covers_cons.
        pose proof (covers_nil c). naive_solver.
    + destruct (IH init {| start := start last; end_ := Z.max (end_ last) (end_ r) |})
        as [IH1 IH2]; [|done| |].
      * apply canonical_snoc. split_and!; [done| |done]. unfold wf_range. simpl. lia.
      * constructor; [done|]. rewrite Forall_forall in *. intros x Hx. simpl. by apply Hl.
      * split; [done|]. intros c. rewrite IH2, !covers_app, !covers_cons. simpl.
        pose proof (covers_nil c). assert (start last <= start r) by done.
        split; [|intros [[?|[?|?]]|[?|?]]; try tauto; try (left; right; left; lia)].
        intros [[?|[?|?]]|?]; try tauto.
        destruct (decide (c <= end_ last)); [left; right; left; lia|right; left; lia].
Qed.

Lemma compareRanges_sorted l :
  StronglySorted (λ a b, start a <= start b) (sort_by compareRanges l).
Proof.
  assert (StronglySorted (cmp_le compareRanges) (sort_by compareRanges l)) as H.
  { apply sort_by_sorted; unfold cmp_le, compareRanges.
    - intros a b. destruct (Z.eqb_spec (start a) (start b)),
        (Z.eqb_spec (start b) (start a)); simpl; lia.
    - intros a b c. destruct (Z.eqb_spec (start a) (start b)),
        (Z.eqb_spec (start b) (start c)), (Z.eqb_spec (start a) (start c)); simpl; lia. }
  induction H as [|x k Hk IH Hx]; constructor; [done|].
  rewrite Forall_forall in *. intros y Hy. specialize (Hx y Hy).
  unfold cmp_le, compareRanges in Hx. destruct (Z.eqb_spec (start x) (start y)); simpl in *; lia.
Qed.

Lemma mergeRanges_spec rs :
  Forall wf_range rs →
  canonical (mergeRanges rs) ∧ ∀ c, covers (mergeRanges rs) c ↔ covers rs c.
Proof.
  intros Hw. unfold mergeRanges. destruct rs as [|r0 rs0]; [|set (rs := r0 :: rs0) in *].
  - split; [|done]. split; constructor.
  - assert (sort_by compareRanges rs ≡ₚ rs) as Hp by apply sort_by_perm.
    pose proof (compareRanges_sorted rs) as Hs. rewrite <- Hp in Hw.
    destruct (sort_by compareRanges rs) as [|x l] eqn:E.
    { apply Permutation_nil_l in Hp. done. }
    apply Forall_cons in Hw as [Hx Hw].
    destruct (fold_mergeStep [] x l) as [H1 H2]; [|done|done|].
    { apply canonical_cons. split_and!; [done|constructor|]. split; constructor. }
    simpl in *. split; [done|]. intros c. rewrite H2.
    rewrite <- (covers_perm _ _ c Hp), !covers_cons. pose proof (covers_nil c). tauto.
Qed.

(** ** Parsing *)

Lemma parseToken_in_bounds t r : parseToken t = Some r → in_bounds r.
Proof.
  unfold parseToken, in_bounds, isValidCode. intros H.
  solve_some H; simpl; bool_to_prop;
    repeat match goal with
    | H : (_ <=? _) = true |- _ => apply Z.leb_le in H
    | H : (_ <? _) = false |- _ => apply Z.ltb_ge in H
    end; lia.
Qed.

Lemma parseSegments_spec segs :
  parseSegments segs =
  (omap parseToken segs, filter (λ s, parseToken s = None) segs).
Proof.
  induction segs as [|s segs IH]; [done|]. rewrite filter_cons. simpl. rewrite IH.
  destruct (parseToken s); case_decide; naive_solver.
Qed.

Lemma in_bounds_wf r : in_bounds r → wf_range r.
Proof. unfold in_bounds, wf_range. lia. Qed.

Lemma parseSegments_bounds segs : Forall in_bounds (parseSegments segs).1.
Proof.
  rewrite parseSegments_spec. apply Forall_forall. simpl.
  intros r (s & _ & Hs)%list_elem_of_omap. by eapply parseToken_in_bounds.
Qed.

Lemma covers_bounds rs :
  Forall wf_range rs → Forall in_bounds rs ↔ (∀ c, covers rs c → 100 <= c <= 599).
Proof.
  intros Hw. split.
  - intros Hb c (r & Hr & Hc)%Exists_exists. rewrite Forall_forall in Hb.
    specialize (Hb r Hr). unfold in_bounds in Hb. lia.
  - intros H. rewrite Forall_forall in *. intros r Hr. specialize (Hw r Hr).
    unfold wf_range, in_bounds in *.
    assert (covers rs (start r)) as H1 by (apply Exists_exists; exists r; split; [done|lia]).
    assert (covers rs (end_ r)) as H2 by (apply Exists_exists; exists r; split; [done|lia]).
    apply H in H1, H2. lia.
Qed.

Lemma mergeRanges_bounds rs : Forall in_bounds rs → Forall in_bounds (mergeRanges rs).
Proof.
  intros Hb. assert (Forall wf_range rs) as Hw by (eapply Forall_impl; eauto using in_bounds_wf).
  destruct (mergeRanges_spec rs Hw) as [[Hc _] Hcov].
  apply covers_bounds; [done|]. intros c. rewrite Hcov. by apply covers_bounds.
Qed.

(** The result of an input that is not blank. *)
Lemma parse_nonblank input (raw := trim (default "" input)) :
  raw ≠ [] →
  parseHttpStatusCodeRules input =
  let '(ranges, invalid) := parseSegments (segmentsOf raw) in
  match invalid with
  | _ :: _ => {| ok := false; ranges := []; tokens := []; normalized := raw; invalidTokens := invalid |}
  | [] => {| ok := true; ranges := mergeRanges ranges; tokens := map formatRange (mergeRanges ranges);
             normalized := join "," (map formatRange (mergeRanges ranges)); invalidTokens := [] |}
  end.
Proof.
  intros H. unfold parseHttpStatusCodeRules. fold raw.
  rewrite bool_decide_eq_false_2; [done|]. by destruct raw.
Qed.

(** ** The normalised text *)

Definition rule_unit (c : N) : Prop := is_digit c = true ∨ c = cu "-" ∨ c = cu ",".

Lemma Forall_digit_rule_unit s : all_digits s = true → Forall rule_unit s.
Proof.
  unfold all_digits. rewrite forallb_forall. intros H. apply Forall_forall.
  intros c Hc. left. apply H. by apply list_elem_of_In.
Qed.

Lemma Z_to_js_nonneg z : 0 <= z → Z_to_js z = N_to_js (Z.to_N z).
Proof. by destruct z. Qed.

Lemma formatRange_eq r :
  in_bounds r →
  formatRange r = if start r =? end_ r then N_to_js (Z.to_N (start r))
                  else N_to_js (Z.to_N (start r)) ++ "-" ++ N_to_js (Z.to_N (end_ r)).
Proof. unfold in_bounds, formatRange. intros. rewrite !Z_to_js_nonneg by lia. done. Qed.

Lemma formatRange_units r : in_bounds r → Forall rule_unit (formatRange r).
Proof.
  intros H. rewrite formatRange_eq by done.
  assert (∀ n, Forall rule_unit (N_to_js n)) as Hn.
  { intros n. apply Forall_digit_rule_unit, all_digits_N_to_js. }
  destruct (_ =? _); [done|]. rewrite !Forall_app. split_and!; [done| |done].
  constructor; [|constructor]. unfold rule_unit. auto.
Qed.

Lemma rule_unit_no_space c : rule_unit c → is_space c = false.
Proof.
  intros [H|[->| ->]]; [|done|done].
  assert (all_digits [c] = true) as Hd by (simpl; by rewrite H).
  apply all_digits_no_space in Hd. by apply Forall_cons in Hd as [? _].
Qed.

Lemma formatRange_nonempty r : in_bounds r → formatRange r ≠ [].
Proof.
  intros H. rewrite formatRange_eq by done. pose proof (N_to_js_nonempty (Z.to_N (start r))).
  destruct (_ =? _); [done|]. by destruct (N_to_js (Z.to_N (start r))).
Qed.

Lemma formatRange_no_comma r : in_bounds r → cu "," ∉ formatRange r.
Proof.
  intros H. rewrite formatRange_eq by done.
  assert (∀ n, cu "," ∉ N_to_js n) as Hn.
  { intros n. by apply all_digits_not_in; [apply all_digits_N_to_js|]. }
  destruct (_ =? _); [done|]. rewrite !elem_of_app.
  intros [?|[?%list_elem_of_singleton|?]]; try done; by eapply Hn.
Qed.

Lemma filter_no_space s : Forall (λ c, is_space c = false) s → filter (λ c, is_space c = false) s = s.
Proof. induction 1; [done|]. rewrite filter_cons. case_decide; [by f_equal|done]. Qed.

Lemma isNumber_N_to_js n : isNumber (N_to_js n) = true.
Proof.
  unfold isNumber. rewrite all_digits_N_to_js, andb_true_r. apply truthy_spec, N_to_js_nonempty.
Qed.

Lemma parse_digits_N_to_js z : 0 <= z → parse_digits (N_to_js (Z.to_N z)) = z.
Proof. intros. unfold parse_digits. rewrite digits_val_N_to_js. lia. Qed.

Lemma dash_not_in_N n : cu "-" ∉ N_to_js n.
Proof. by apply all_digits_not_in; [apply all_digits_N_to_js|]. Qed.

Lemma includes_dash_N n : includes "-" (N_to_js n) = false.
Proof.
  destruct (includes "-" (N_to_js n)) eqn:E; [|done].
  apply includes_spec in E as (a & b & E). destruct (dash_not_in_N n). rewrite E.
  rewrite !elem_of_app. right. left. constructor.
Qed.

Lemma parseToken_formatRange r : in_bounds r → parseToken (formatRange r) = Some r.
Proof.
  intros Hb. pose proof (formatRange_units r Hb) as Hu. pose proof (formatRange_nonempty r Hb) as Hn.
  assert (Forall (λ c, is_space c = false) (formatRange r)) as Hs
    by (eapply Forall_impl; eauto using rule_unit_no_space).
  unfold parseToken. rewrite trim_id by (by apply trimmed_no_space). rewrite filter_no_space by done.
  apply truthy_spec in Hn as ->. simpl (negb true). rewrite formatRange_eq by done.
  destruct r as [s e]. unfold in_bounds in Hb. cbn [start end_] in *.
  assert (∀ z, 100 <= z <= 599 → isValidCode z = true) as Hv
    by (intros; unfold isValidCode; apply andb_true_iff; split; apply Z.leb_le; lia).
  destruct (Z.eqb_spec s e) as [->|Hne].
  - rewrite includes_dash_N, isNumber_N_to_js, parse_digits_N_to_js by lia.
    by rewrite Hv by lia.
  - assert (includes "-" (N_to_js (Z.to_N s) ++ "-" ++ N_to_js (Z.to_N e)) = true) as ->
      by (apply includes_spec; eauto).
    change ("-" ++ N_to_js (Z.to_N e)) with (cu "-" :: N_to_js (Z.to_N e)).
    rewrite split_unit_app by apply dash_not_in_N.
    rewrite split_unit_clean by apply dash_not_in_N.
    rewrite !isNumber_N_to_js, !parse_digits_N_to_js, !Hv by lia. simpl.
    destruct (Z.ltb_spec e s); [lia|done].
Qed.

Lemma join_rule_units l : Forall in_bounds l → Forall rule_unit (join "," (map formatRange l)).
Proof.
  induction 1 as [|r l Hr Hl IH]; [constructor|]. destruct l as [|r' l].
  - by apply formatRange_units.
  - change (join "," (map formatRange (r :: r' :: l)))
      with (formatRange r ++ "," ++ join "," (map formatRange (r' :: l))).
    rewrite !Forall_app. split_and!; [by apply formatRange_units| |done].
    constructor; [|constructor]. unfold rule_unit. auto.
Qed.

Lemma replace_unit_id c t s : c ∉ s → replace_unit c t s = s.
Proof.
  unfold replace_unit. induction s as [|d s IH]; simpl; [done|].
  rewrite not_elem_of_cons. intros [Hd Hs]. destruct (N.eqb_spec d c); [by subst|].
  simpl. by rewrite IH.
Qed.

Lemma segmentsOf_join l :
  l ≠ [] → Forall in_bounds l → segmentsOf (join "," (map formatRange l)) = map formatRange l.
Proof.
  intros Hne Hl. unfold segmentsOf. rewrite replace_unit_id.
  2:{ intros Hin. pose proof (join_rule_units l Hl) as Hu. rewrite Forall_forall in Hu.
      apply Hu in Hin as [?|[?|?]]; done. }
  rewrite split_join_unit; [|by destruct l|].
  2:{ apply Forall_forall. intros w (r & -> & Hr)%list_elem_of_fmap.
      rewrite Forall_forall in Hl. by apply formatRange_no_comma, Hl. }
  clear Hne. induction Hl as [|r l Hr Hl IH]; [done|]. simpl.
  rewrite trim_id, filter_cons.
  - rewrite decide_True by (apply truthy_spec, formatRange_nonempty; done). by f_equal.
  - apply trimmed_no_space. eapply Forall_impl; [by apply formatRange_units|].
    eauto using rule_unit_no_space.
Qed.

Lemma parseSegments_formatRange l :
  Forall in_bounds l → parseSegments (map formatRange l) = (l, []).
Proof.
  induction 1 as [|r l Hr Hl IH]; [done|]. simpl. by rewrite IH, parseToken_formatRange.
Qed.

Lemma mergeRanges_canonical l : canonical l → mergeRanges l = l.
Proof.
  intros Hc. destruct (mergeRanges_spec l) as [H1 H2]; [by apply Hc|].
  by apply canonical_unique.
Qed.

(** The rules that a parse accepts, as (ranges, normalised text). *)
Lemma parse_ok input (out := parseHttpStatusCodeRules input) :
  ok out = true →
  ranges out = mergeRanges (omap parseToken (segmentsOf (trim (default "" input)))) ∧
  normalized out = join "," (map formatRange (ranges out)) ∧
  tokens out = map formatRange (ranges out) ∧ invalidTokens out = [].
Proof.
  unfold out. clear out. destruct (decide (trim (default "" input) = [])) as [E|E].
  - unfold parseHttpStatusCodeRules. rewrite E. done.
  - rewrite parse_nonblank by done. rewrite parseSegments_spec.
    destruct (filter _ _); [|done]. done.
Qed.

Lemma omap_parseToken_bounds segs : Forall in_bounds (omap parseToken segs).
Proof. pose proof (parseSegments_bounds segs) as H. by rewrite parseSegments_spec in H. Qed.

Lemma Forall_in_bounds_wf l : Forall in_bounds l → Forall wf_range l.
Proof. intros. eapply Forall_impl; eauto using in_bounds_wf. Qed.

(** ** Properties *)

(** C14: an accepted input is normalised to a canonical list of ranges: every
    range lies in [100, 599], the ranges increase and no two of them touch; and
    the codes they select are exactly the codes some segment of the input
    selects. *)
Theorem parse_canonical input (out := parseHttpStatusCodeRules input) :
  ok out = true →
  canonical (ranges out) ∧ Forall in_bounds (ranges out) ∧
  ∀ c, covers (ranges out) c ↔
       ∃ segment r, segment ∈ segmentsOf (trim (default "" input)) ∧
                    parseToken segment = Some r ∧ start r <= c <= end_ r.
Proof.
  intros Hok. destruct (parse_ok input Hok) as [Hr _]. fold out in Hr. rewrite Hr.
  set (rs := omap _ _). assert (Forall in_bounds rs) as Hb by apply omap_parseToken_bounds.
  destruct (mergeRanges_spec rs) as [H1 H2]; [by apply Forall_in_bounds_wf|].
  split_and!; [done|by apply mergeRanges_bounds|]. intros c. rewrite H2.
  unfold covers. rewrite Exists_exists. unfold rs. setoid_rewrite list_elem_of_omap. naive_solver.
Qed.

Lemma parse_canonical_witness :
  ok (parseHttpStatusCodeRules (Some "500-503, 400,501-504")) = true ∧
  canonical (ranges (parseHttpStatusCodeRules (Some "500-503, 400,501-504"))).
Proof.
  split; [vm_compute; reflexivity|].
  apply (parse_canonical (Some "500-503, 400,501-504")). vm_compute. reflexivity.
Defined.

(** The normalised text of an accepted input parses again to the same
    result: normalisation is idempotent and loses nothing. *)
Lemma parse_normalized_roundtrip input (out := parseHttpStatusCodeRules input) :
  ok out = true → parseHttpStatusCodeRules (Some (normalized out)) = out.
Proof.
  intros Hok. destruct (parse_ok input Hok) as (Hr & Hn & Ht & Hi). fold out in Hr, Hn, Ht, Hi.
  assert (Forall in_bounds (ranges out)) as Hb
    by (rewrite Hr; apply mergeRanges_bounds, omap_parseToken_bounds).
  assert (canonical (ranges out)) as Hc.
  { rewrite Hr. by apply mergeRanges_spec, Forall_in_bounds_wf, omap_parseToken_bounds. }
  assert (Hout : out = {| ok := true; ranges := ranges out; tokens := map formatRange (ranges out);
                          normalized := join "," (map formatRange (ranges out)); invalidTokens := [] |}).
  { destruct out; simpl in *; by subst. }
  clearbody out. rewrite Hn. generalize dependent (ranges out). intros rs Hr Hn Ht Hb Hc ->.
  destruct rs as [|r rs]; [done|].
  assert (trim (join "," (map formatRange (r :: rs))) = join "," (map formatRange (r :: rs))) as Htr.
  { apply trim_id, trimmed_no_space. eapply Forall_impl; [by apply join_rule_units|].
    eauto using rule_unit_no_space. }
  rewrite parse_nonblank; cbv zeta; cbn [default from_option id]; rewrite Htr.
  - rewrite segmentsOf_join, parseSegments_formatRange, mergeRanges_canonical by done. done.
  - intros E. apply Forall_cons in Hb as [Hb _]. pose proof (formatRange_nonempty r Hb).
    destruct rs; simpl in E; [done|]. by apply app_eq_nil in E as [? _].
Qed.

Lemma parse_normalized_roundtrip_witness :
  parseHttpStatusCodeRules (Some (normalized (parseHttpStatusCodeRules (Some "503,500-502"))))
  = parseHttpStatusCodeRules (Some "503,500-502").
Proof. apply (parse_normalized_roundtrip (Some "503,500-502")). vm_compute. reflexivity. Defined.

(** Two accepted inputs that select the same codes have the same
    normalised text, so comparing the texts compares the sets. *)
Lemma normalized_complete a b :
  ok (parseHttpStatusCodeRules a) = true → ok (parseHttpStatusCodeRules b) = true →
  (∀ c, covers (ranges (parseHttpStatusCodeRules a)) c ↔
        covers (ranges (parseHttpStatusCodeRules b)) c) →
  normalized (parseHttpStatusCodeRules a) = normalized (parseHttpStatusCodeRules b).
Proof.
  intros Ha Hb Hc. destruct (parse_ok a Ha) as (Hra & Hna & _), (parse_ok b Hb) as (Hrb & Hnb & _).
  rewrite Hna, Hnb. do 2 f_equal. apply canonical_unique; [| |done].
  - rewrite Hra. by apply mergeRanges_spec, Forall_in_bounds_wf, omap_parseToken_bounds.
  - rewrite Hrb. by apply mergeRanges_spec, Forall_in_bounds_wf, omap_parseToken_bounds.
Qed.

Lemma normalized_complete_witness :
  normalized (parseHttpStatusCodeRules (Some "400-402")) =
  normalized (parseHttpStatusCodeRules (Some "402,401,400")).
Proof.
  apply normalized_complete; [vm_compute; reflexivity..|].
  intros c. assert (ranges (parseHttpStatusCodeRules (Some "400-402")) =
    ranges (parseHttpStatusCodeRules (Some "402,401,400"))) as -> by (vm_compute; reflexivity).
  reflexivity.
Defined.

(** An input with a segment that is not a rule is refused as a whole: no
    range is returned, the text is kept as it was typed (trimmed) and exactly
    the bad segments are reported, in order. *)
Lemma parse_invalid input segment (raw := trim (default "" input)) :
  segment ∈ segmentsOf raw → parseToken segment = None →
  parseHttpStatusCodeRules input =
  {| ok := false; ranges := []; tokens := []; normalized := raw;
     invalidTokens := filter (λ s, parseToken s = None) (segmentsOf raw) |}.
Proof.
  intros Hin Hno. rewrite parse_nonblank.
  - fold raw. rewrite parseSegments_spec.
    assert (segment ∈ filter (λ s, parseToken s = None) (segmentsOf raw)) as Hf
      by (by apply list_elem_of_filter).
    destruct (filter _ _); [by apply not_elem_of_nil in Hf|done].
  - fold raw. intros E. rewrite E in Hin. vm_compute in Hin. by apply not_elem_of_nil in Hin.
Qed.

Lemma parse_invalid_witness :
  "99" ∈ segmentsOf (trim "99,200") ∧
  ok (parseHttpStatusCodeRules (Some "99,200")) = false.
Proof.
  assert ("99" ∈ segmentsOf (trim "99,200")) as H by (vm_compute; constructor).
  split; [done|]. rewrite (parse_invalid (Some "99,200") "99" H); [done|vm_compute; reflexivity].
Defined.
