(* ===== verification/RateLimitDuration.v ===== *)
(** * RateLimitDuration: [features/system-settings/request-limits/rate-limit-duration.ts]

    The text form ["90s"], ["5m"], ["1h"] of a rate-limit period, the fallback
    to the legacy setting in minutes, and the staged activation of a period. *)
From Stdlib Require Import Floats.SpecFloat.
From S2P Require Import Prelude JsString JsNumber.

#[local] Open Scope Z_scope.

Inductive RateLimitDurationUnit := unit_s | unit_m | unit_h.

#[export] Instance RateLimitDurationUnit_eq_dec : EqDecision RateLimitDurationUnit.
Proof. solve_decision. Defined.

(** The [value] is a safe integer wherever the code builds one. *)
Record RateLimitDuration := { value : Z; unit : RateLimitDurationUnit }.

Record RateLimitPeriodState := {
  effectiveDuration : jstring;
  stagedDuration : jstring;
  isDraft : bool;
  activationPending : bool;
  canActivate : bool;
}.

Definition unit_text (u : RateLimitDurationUnit) : jstring :=
  match u with unit_s => "s" | unit_m => "m" | unit_h => "h" end.

Definition unit_of_char (c : N) : option RateLimitDurationUnit :=
  if (c =? cu "s")%N then Some unit_s
  else if (c =? cu "m")%N then Some unit_m
  else if (c =? cu "h")%N then Some unit_h
  else None.

(** The pattern of a digit from 1 to 9, more digits and a unit letter, anchored at
    both ends: the digits and the unit it captures. *)
Definition rateLimitDurationPattern (duration : jstring)
  : option (jstring * RateLimitDurationUnit) :=
  match span_digits duration with
  | (d :: ds, [c]) =>
    if (d =? cu "0")%N then None else u ← unit_of_char c; Some (d :: ds, u)
  | _ => None
  end.

Definition activationRefreshRetryInterval : Z := 5000.

(** [Number] of the digits is a safe integer exactly when their value is at
    most 2^53 - 1 (the rounding is monotone and exact below 2^53). *)
Definition parseRateLimitDuration (duration : jstring) : option RateLimitDuration :=
  match rateLimitDurationPattern duration with
  | None => None
  | Some (digits, unit) =>
    let value := Z.of_N (digits_val digits) in
    if value <=? max_safe then Some {| value := value; unit := unit |} else None
  end.

Definition formatRateLimitDuration (duration : RateLimitDuration) : jstring :=
  Z_to_js (value duration) ++ unit_text (unit duration).

Definition getRateLimitDurationUnit (duration : jstring) (fallbackUnit : RateLimitDurationUnit)
  : RateLimitDurationUnit :=
  match parseRateLimitDuration duration with
  | Some parsed => unit parsed
  | None =>
    match last duration with
    | Some c => default fallbackUnit (unit_of_char c)
    | None => fallbackUnit
    end
  end.

Definition getRateLimitDuration (duration : jstring) (legacyMinutes : num) : RateLimitDuration :=
  match parseRateLimitDuration duration with
  | Some parsed => parsed
  | None =>
    match safe_integer legacyMinutes with
    | Some z => if 0 <? z then {| value := z; unit := unit_m |} else {| value := 1; unit := unit_m |}
    | None => {| value := 1; unit := unit_m |}
    end
  end.

Definition getRateLimitActivationRefreshDelay (activationAt now : num) (hasRefreshed : bool)
  : option num :=
  match safe_integer activationAt with
  | None => None
  | Some z =>
    if z <=? 0 then None
    else if hasRefreshed then Some (of_Z activationRefreshRetryInterval)
    else Some (nmax zero (nsub (nmul activationAt (of_Z 1000)) now))
  end.

Definition shouldSaveRateLimitDuration (duration savedDuration : jstring) (staged : bool) : bool :=
  negb staged || negb (bool_decide (duration = savedDuration)).

Definition getRateLimitPeriodState (savedDuration : jstring) (legacyMinutes : num)
  (activated active staged : bool) (draftDuration : jstring) : RateLimitPeriodState :=
  let stagedDuration := formatRateLimitDuration (getRateLimitDuration savedDuration legacyMinutes) in
  let legacyDuration := formatRateLimitDuration (getRateLimitDuration "" legacyMinutes) in
  let isDraft := negb (bool_decide (draftDuration = stagedDuration)) in
  {| effectiveDuration := if active then stagedDuration else legacyDuration;
     stagedDuration := stagedDuration;
     isDraft := isDraft;
     activationPending := activated && negb active;
     canActivate := staged && negb activated && negb isDraft
                    && bool_decide (is_Some (parseRateLimitDuration draftDuration)) |}.

Example duration_ex : parseRateLimitDuration "90s" = Some {| value := 90; unit := unit_s |}.
Proof. reflexivity. Qed.
Example duration_ex0 : parseRateLimitDuration "090s" = None.
Proof. reflexivity. Qed.
Example delay_ex :
  getRateLimitActivationRefreshDelay (of_Z 1700000000) (of_Z 1699999999000) false = Some (of_Z 1000).
Proof. vm_compute. reflexivity. Qed.

(** ** Lemmas *)

(** A duration the code may hold: a positive safe integer. *)
Definition valid_duration (d : RateLimitDuration) : Prop := 1 <= value d <= max_safe.

Lemma span_digits_app a b :
  all_digits a = true → (match b with c :: _ => is_digit c = false | [] => True end) →
  span_digits (a ++ b) = (a, b).
Proof.
  induction a as [|c a IH]; simpl; intros Ha Hb.
  - destruct b as [|c b]; simpl; [done|]. by rewrite Hb.
  - apply andb_true_iff in Ha as [-> Ha]. by rewrite IH.
Qed.

Lemma span_digits_spec s a b : span_digits s = (a, b) → s = a ++ b ∧ all_digits a = true.
Proof.
  revert a b. induction s as [|c s IH]; simpl; intros a b H; simplify_eq/=; [done|].
  destruct (is_digit c) eqn:E; simplify_eq/=; [|done].
  destruct (span_digits s) as [a' b'] eqn:E'; simplify_eq/=.
  destruct (IH _ _ eq_refl) as [-> ?]. by rewrite E.
Qed.

Lemma unit_of_char_text u : ∃ c, unit_text u = [c] ∧ unit_of_char c = Some u ∧ is_digit c = false.
Proof. destruct u; eexists; split_and!; reflexivity. Qed.

Lemma unit_of_char_Some c u : unit_of_char c = Some u → unit_text u = [c].
Proof.
  unfold unit_of_char. intros H.
  repeat (case_hyp H; [simplify_eq; match goal with
    | E : (_ =? _)%N = true |- _ => apply N.eqb_eq in E as -> end; reflexivity|]). done.
Qed.

(** The digits of the number a canonical numeral denotes are the numeral. *)
Lemma digits_val_lower d ds :
  (49 <= d)%N → (10 ^ N.of_nat (length ds) <= digits_val (d :: ds))%N.
Proof.
  intros Hd. rewrite digits_val_cons. unfold digit_val.
  assert (1 <= d - 48)%N by lia. nia.
Qed.

Lemma digits_val_upper ds : all_digits ds = true → (digits_val ds < 10 ^ N.of_nat (length ds))%N.
Proof.
  induction ds as [|d ds IH]; [intros; vm_compute; reflexivity|].
  simpl. rewrite andb_true_iff, is_digit_spec. intros [Hd Hds]. specialize (IH Hds).
  rewrite digits_val_cons. unfold digit_val. simpl length. rewrite Nat2N.inj_succ, N.pow_succ_r'. nia.
Qed.

Lemma digits_val_inj a b :
  length a = length b → all_digits a = true → all_digits b = true →
  digits_val a = digits_val b → a = b.
Proof.
  revert b. induction a as [|c a IH]; intros [|d b] Hl Ha Hb Hv; simplify_eq/=; [done|].
  apply andb_true_iff in Ha as [Hc Ha], Hb as [Hd Hb].
  apply is_digit_spec in Hc, Hd. rewrite !digits_val_cons, Hl in Hv. unfold digit_val in Hv.
  pose proof (digits_val_upper _ Ha) as Ua. pose proof (digits_val_upper _ Hb) as Ub. rewrite Hl in Ua.
  assert (c - 48 = d - 48)%N as E by nia. assert (c = d) as -> by lia. f_equal. apply IH; [done..|]. lia.
Qed.

Lemma N_to_js_digits_val d ds :
  all_digits (d :: ds) = true → (49 <= d)%N → N_to_js (digits_val (d :: ds)) = d :: ds.
Proof.
  intros Ha Hd. set (n := digits_val (d :: ds)).
  pose proof (digits_val_lower d ds Hd) as Hlo. pose proof (digits_val_upper _ Ha) as Hhi.
  fold n in Hlo, Hhi. assert (0 < n)%N as Hn.
  { assert (0 < 10 ^ N.of_nat (length ds))%N by (apply N.neq_0_lt_0, N.pow_nonzero; lia). lia. }
  destruct (N_to_js_head n Hn) as (c & r & E & Hc).
  pose proof (digits_val_N_to_js n) as Hv. pose proof (all_digits_N_to_js n) as Had.
  rewrite E in Hv, Had. pose proof (digits_val_lower c r (proj1 Hc)) as Hlo'.
  pose proof (digits_val_upper _ Had) as Hhi'. rewrite Hv in Hlo', Hhi'. simpl length in *.
  rewrite E. apply digits_val_inj; [|done..]. simpl. f_equal.
  destruct (Nat.lt_trichotomy (length r) (length ds)) as [L|[L|L]]; [|done|]; exfalso.
  - assert (10 ^ N.of_nat (S (length r)) <= 10 ^ N.of_nat (length ds))%N by (apply N.pow_le_mono_r; lia). lia.
  - assert (10 ^ N.of_nat (S (length ds)) <= 10 ^ N.of_nat (length r))%N by (apply N.pow_le_mono_r; lia). lia.
Qed.

Lemma pattern_Some s digits u :
  rateLimitDurationPattern s = Some (digits, u) →
  ∃ d ds, digits = d :: ds ∧ s = digits ++ unit_text u ∧ all_digits digits = true ∧ (49 <= d)%N.
Proof.
  unfold rateLimitDurationPattern. destruct (span_digits s) as [a b] eqn:E.
  destruct (span_digits_spec _ _ _ E) as [-> Ha].
  destruct a as [|d ds], b as [|c [|? ?]]; try done.
  destruct (N.eqb_spec d (cu "0")) as [?|Hd]; [done|].
  intros (v & Hv & [= <- <-])%bind_Some. exists d, ds. split_and!; [done| |done|].
  - by rewrite (unit_of_char_Some _ _ Hv).
  - apply andb_true_iff in Ha as [Hdd _]. apply is_digit_spec in Hdd. change (cu "0") with 48%N in Hd. lia.
Qed.

Lemma parseRateLimitDuration_Some s d :
  parseRateLimitDuration s = Some d → valid_duration d ∧ formatRateLimitDuration d = s.
Proof.
  unfold parseRateLimitDuration. destruct (rateLimitDurationPattern s) as [[digits u]|] eqn:E; [|done].
  destruct (pattern_Some _ _ _ E) as (c & cs & -> & -> & Ha & Hc).
  destruct (Z.leb_spec (Z.of_N (digits_val (c :: cs))) max_safe) as [Hle|]; [|done]. intros [= <-].
  pose proof (digits_val_lower c cs Hc) as Hlo.
  assert (0 < 10 ^ N.of_nat (length cs))%N by (apply N.neq_0_lt_0, N.pow_nonzero; lia).
  unfold valid_duration, formatRateLimitDuration. cbn [value unit]. split; [lia|].
  destruct (digits_val (c :: cs)) as [|p] eqn:Ep; [lia|]. simpl (Z_to_js _).
  by rewrite <- Ep, N_to_js_digits_val.
Qed.

Lemma parse_format d : valid_duration d → parseRateLimitDuration (formatRateLimitDuration d) = Some d.
Proof.
  destruct d as [z u]. unfold valid_duration, formatRateLimitDuration. cbn [value unit]. intros Hz.
  destruct z as [|p|p]; try lia. simpl (Z_to_js _).
  destruct (unit_of_char_text u) as (c & Hu & Hc & Hd).
  unfold parseRateLimitDuration, rateLimitDurationPattern.
  rewrite Hu, span_digits_app by (done || apply all_digits_N_to_js).
  destruct (N_to_js_head (Npos p)) as (d & ds & E & Hd'); [lia|].
  pose proof (digits_val_N_to_js (Npos p)) as Hv. rewrite E in *.
  destruct (N.eqb_spec d (cu "0")) as [->|_]; [change (cu "0") with 48%N in Hd'; lia|].
  rewrite Hc. cbn [mbind option_bind]. rewrite Hv. simpl Z.of_N.
  destruct (Z.leb_spec (Zpos p) max_safe); [done|lia].
Qed.

Lemma getRateLimitDuration_valid s legacy : valid_duration (getRateLimitDuration s legacy).
Proof.
  unfold getRateLimitDuration. destruct (parseRateLimitDuration s) as [d|] eqn:E.
  - by apply parseRateLimitDuration_Some in E as [? _].
  - unfold safe_integer. destruct (is_integer legacy); [|done].
    destruct (floor_Z legacy) as [z|]; [|done]. cbn [mbind option_bind].
    case_bool_decide; [|done]. destruct (Z.ltb_spec 0 z); [|done]. unfold valid_duration; simpl; lia.
Qed.

(** ** Properties *)

(** A period is parsed exactly when it is the text of a positive safe
    integer and a unit, and then the text of the result is the input. *)
Lemma parseRateLimitDuration_iff s d :
  parseRateLimitDuration s = Some d ↔ valid_duration d ∧ formatRateLimitDuration d = s.
Proof.
  split; [apply parseRateLimitDuration_Some|]. intros [Hd <-]. by apply parse_format.
Qed.

(** The state shown for a rate-limit period: the effective and the staged
    durations always parse; activation is offered only for a staged, not yet
    activated period whose draft is the saved one; and an activation that is
    pending leaves the legacy period in force. *)
Lemma getRateLimitPeriodState_spec saved legacy activated active staged draft
  (st := getRateLimitPeriodState saved legacy activated active staged draft) :
  parseRateLimitDuration (effectiveDuration st) ≠ None ∧
  parseRateLimitDuration (stagedDuration st) ≠ None ∧
  (canActivate st = true ↔ staged = true ∧ activated = false ∧ draft = stagedDuration st) ∧
  (activationPending st = true →
   effectiveDuration st = formatRateLimitDuration (getRateLimitDuration "" legacy)) ∧
  (parseRateLimitDuration saved ≠ None → stagedDuration st = saved).
Proof.
  pose proof (λ s, parse_format _ (getRateLimitDuration_valid s legacy)) as Hp.
  unfold st, getRateLimitPeriodState. simpl. split_and!.
  - destruct active; by rewrite Hp.
  - by rewrite Hp.
  - rewrite !andb_true_iff, !negb_true_iff, negb_false_iff, !bool_decide_eq_true.
    split; [naive_solver|]. intros (? & ? & ->). rewrite Hp. naive_solver.
  - rewrite andb_true_iff, negb_true_iff. by intros [_ ->].
  - unfold getRateLimitDuration. destruct (parseRateLimitDuration saved) as [d|] eqn:E; [|done].
    intros _. by apply parseRateLimitDuration_Some in E as [_ ?].
Qed.
