(* ===== verification/JsValue.v ===== *)
(** * JsValue: JavaScript values, plain objects and JSON

    [jval] is a value of the language as far as data goes (no functions).  The
    own properties of an object are kept in enumeration order: array indices
    first, increasing, then the other keys in order of creation. *)
From Stdlib Require Import Floats.SpecFloat.
From S2P Require Import Prelude JsString JsNumber.

(** ** Values *)

Unset Elimination Schemes.
Inductive jval :=
  | JUndefined
  | JNull
  | JBool (b : bool)
  | JNum (n : num)
  | JStr (s : jstring)
  | JArr (l : list jval)
  | JObj (o : list (jstring * jval)).
Set Elimination Schemes.

Section jval_ind.
Variable P : jval → Prop.
Hypothesis Pundef : P JUndefined.
Hypothesis Pnull : P JNull.
Hypothesis Pbool : ∀ b, P (JBool b).
Hypothesis Pnum : ∀ n, P (JNum n).
Hypothesis Pstr : ∀ s, P (JStr s).
Hypothesis Parr : ∀ l, Forall P l → P (JArr l).
Hypothesis Pobj : ∀ o, Forall (λ kv, P kv.2) o → P (JObj o).

Fixpoint jval_ind (v : jval) : P v :=
  match v with
  | JUndefined => Pundef
  | JNull => Pnull
  | JBool b => Pbool b
  | JNum n => Pnum n
  | JStr s => Pstr s
  | JArr l =>
    Parr l ((fix go (l : list jval) : Forall P l :=
               match l with
               | [] => Forall_nil_2 P
               | x :: r => Forall_cons_2 P x r (jval_ind x) (go r)
               end) l)
  | JObj o =>
    Pobj o ((fix go (o : list (jstring * jval)) : Forall (λ kv, P kv.2) o :=
               match o with
               | [] => Forall_nil_2 _
               | kv :: r => Forall_cons_2 (λ kv, P kv.2) kv r (jval_ind kv.2) (go r)
               end) o)
  end.
End jval_ind.

(** ** Objects *)

(** A key that is an array index. *)
Definition is_index (k : jstring) : bool :=
  all_digits k && bool_decide (N_to_js (digits_val k) = k) && (digits_val k <=? 4294967294)%N.

(** Create a property that the object does not have. *)
Fixpoint obj_create {V} (k : jstring) (v : V) (o : list (jstring * V)) : list (jstring * V) :=
  match o with
  | [] => [(k, v)]
  | (k', v') :: r =>
    if is_index k && (negb (is_index k') || (digits_val k <? digits_val k')%N)
    then (k, v) :: o
    else (k', v') :: obj_create k v r
  end.

(** [o[k] = v] *)
Definition obj_set {V} (k : jstring) (v : V) (o : list (jstring * V)) : list (jstring * V) :=
  if ohas k o then oset k v o else obj_create k v o.

(** [Object.fromEntries(l)] *)
Definition obj_of_entries {V} (l : list (jstring * V)) : list (jstring * V) :=
  fold_left (λ o kv, obj_set kv.1 kv.2 o) l [].

(** [{...a, ...b}] *)
Definition obj_spread {V} (a b : list (jstring * V)) : list (jstring * V) :=
  fold_left (λ o kv, obj_set kv.1 kv.2 o) b a.

Section objects.
Context {V : Type}.
Implicit Types (o a b : list (jstring * V)) (k : jstring).

Lemma oget_obj_create k k' v o :
  oget k' o = None →
  oget k (obj_create k' v o) = if bool_decide (k = k') then Some v else oget k o.
Proof.
  induction o as [|[j w] o IH]; simpl; [done|]. destruct (decide (k' = j)) as [->|Hne].
  { by rewrite bool_decide_eq_true_2. }
  rewrite (bool_decide_eq_false_2 (k' = j)) by done. intros Hn.
  destruct (is_index k' && _); simpl; [done|].
  rewrite IH by done. repeat case_bool_decide; naive_solver.
Qed.

Lemma oget_obj_set k k' v o :
  oget k (obj_set k' v o) = if bool_decide (k = k') then Some v else oget k o.
Proof.
  unfold obj_set, ohas. case_bool_decide as Hs; [apply oget_oset|].
  apply oget_obj_create. destruct (oget k' o) eqn:E; [|done]. destruct Hs. eauto.
Qed.

Lemma oget_obj_spread k a b :
  oget k (obj_spread a b) = match oget k (reverse b) with Some v => Some v | None => oget k a end.
Proof.
  unfold obj_spread. revert a. induction b as [|[j w] b IH]; intros a; simpl; [done|].
  rewrite IH, reverse_cons, oget_app, oget_obj_set. simpl.
  destruct (oget k (reverse b)); [done|]. by case_bool_decide.
Qed.

Lemma obj_create_perm k v o : obj_create k v o ≡ₚ (k, v) :: o.
Proof.
  induction o as [|[j w] o IH]; simpl; [done|]. destruct (is_index k && _); [done|].
  rewrite IH. constructor.
Qed.

Lemma NoDup_okeys_obj_set k v o : NoDup (okeys o) → NoDup (okeys (obj_set k v o)).
Proof.
  intros H. unfold obj_set, ohas. case_bool_decide as Hs; [by apply NoDup_okeys_oset|].
  unfold okeys. rewrite obj_create_perm. simpl. apply NoDup_cons. split; [|done].
  intros Hk. apply Hs. by apply elem_of_okeys.
Qed.

Lemma NoDup_okeys_obj_spread a b : NoDup (okeys a) → NoDup (okeys (obj_spread a b)).
Proof.
  unfold obj_spread. revert a. induction b as [|[j w] b IH]; intros a H; simpl; [done|].
  by apply IH, NoDup_okeys_obj_set.
Qed.

Lemma elem_of_okeys_obj_set k k' v o : k ∈ okeys (obj_set k' v o) ↔ k = k' ∨ k ∈ okeys o.
Proof.
  rewrite !elem_of_okeys, oget_obj_set. case_bool_decide; subst; [|naive_solver].
  split; [auto|]. eauto.
Qed.

Lemma oget_reverse k o : NoDup (okeys o) → oget k (reverse o) = oget k o.
Proof.
  intros Hn. assert (NoDup (okeys (reverse o))) as Hr.
  { unfold okeys in *. by rewrite fmap_reverse, reverse_Permutation. }
  destruct (oget k o) as [v|] eqn:E.
  - apply elem_of_oget; [done|]. apply elem_of_reverse. by apply elem_of_oget.
  - apply oget_None. unfold okeys. rewrite fmap_reverse, elem_of_reverse. by apply oget_None.
Qed.

Lemma obj_set_id k v o : oget k o = Some v → obj_set k v o = o.
Proof. intros H. unfold obj_set, ohas. rewrite H, bool_decide_eq_true_2 by done. by apply oset_id. Qed.

(** A key that is no array index goes last. *)
Lemma obj_set_last k v o : is_index k = false → oget k o = None → obj_set k v o = o ++ [(k, v)].
Proof.
  intros Hi Hn. unfold obj_set, ohas. rewrite Hn, bool_decide_eq_false_2 by (by intros [? ?]).
  clear Hn. induction o as [|[j w] o IH]; simpl; [done|]. rewrite Hi. simpl. by rewrite IH.
Qed.
End objects.

#[export] Hint Resolve NoDup_okeys_obj_set NoDup_okeys_obj_spread : jslib.

(** The keys of an object are in enumeration order. *)
Fixpoint keys_ordered (ks : list jstring) : bool :=
  match ks with
  | [] => true
  | k :: r =>
    (if is_index k then forallb (λ k', negb (is_index k') || (digits_val k <? digits_val k')%N) r
     else forallb (λ k', negb (is_index k')) r)
    && keys_ordered r
  end.

(** [v?.k] on plain data. *)
Definition member (k : jstring) (v : jval) : jval :=
  match v with JObj o => default JUndefined (oget k o) | _ => JUndefined end.

(** The own properties of a plain object. *)
Definition props (v : jval) : list (jstring * jval) :=
  match v with JObj o => o | _ => [] end.

(** The elements of an array. *)
Definition elems (v : jval) : list jval :=
  match v with JArr l => l | _ => [] end.

(** The own enumerable properties that a spread copies. *)
Definition spread_entries (v : jval) : list (jstring * jval) :=
  match v with
  | JObj o => o
  | JArr l => imap (λ i x, (N_to_js (N.of_nat i), x)) l
  | JStr s => imap (λ i c, (N_to_js (N.of_nat i), JStr [c])) s
  | _ => []
  end.

(** [v == null] *)
Definition is_nullish (v : jval) : bool :=
  match v with JUndefined | JNull => true | _ => false end.

(** ** Conversions *)

Definition typeof_string (v : jval) : bool := match v with JStr _ => true | _ => false end.

(** [Boolean(v)] *)
Definition to_boolean (v : jval) : bool :=
  match v with
  | JUndefined | JNull => false
  | JBool b => b
  | JNum n => num_truthy n
  | JStr s => truthy s
  | JArr _ | JObj _ => true
  end.

(** [a || b] *)
Definition js_or (a b : jval) : jval := if to_boolean a then a else b.

(** [String(v)] *)
Fixpoint to_js_string (v : jval) : jstring :=
  match v with
  | JUndefined => "undefined"
  | JNull => "null"
  | JBool b => if b then "true" else "false"
  | JNum n => Number_to_string n
  | JStr s => s
  | JArr l =>
    join "," (map (λ x, match x with JUndefined | JNull => [] | _ => to_js_string x end) l)
  | JObj _ => "[object Object]"
  end.

(** [Number(v)] *)
Definition to_number (v : jval) : num :=
  match v with
  | JUndefined => nan
  | JNull => zero
  | JBool b => if b then of_Z 1 else zero
  | JNum n => n
  | JStr s => Number_of_string s
  | JArr _ | JObj _ => Number_of_string (to_js_string v)
  end.

(** ** JSON.stringify *)

Definition hex_digit (n : N) : N := (if n <? 10 then 48 + n else 87 + n)%N.

Definition unicode_escape (c : N) : jstring :=
  "\u" ++ [hex_digit (c / 4096); hex_digit (c / 256 mod 16);
           hex_digit (c / 16 mod 16); hex_digit (c mod 16)]%N.

Definition is_lead (c : N) : bool := ((55296 <=? c) && (c <=? 56319))%N.
Definition is_trail (c : N) : bool := ((56320 <=? c) && (c <=? 57343))%N.

(** One unit of a quoted string that is not part of a surrogate pair. *)
Definition quote_unit (c : N) : jstring :=
  if (c =? 34)%N then "\"++[34%N]
  else if (c =? 92)%N then "\\"
  else if (c =? 8)%N then "\b"
  else if (c =? 9)%N then "\t"
  else if (c =? 10)%N then "\n"
  else if (c =? 12)%N then "\f"
  else if (c =? 13)%N then "\r"
  else if (c <? 32)%N || is_lead c || is_trail c then unicode_escape c
  else [c].

Fixpoint quote_units (s : jstring) : jstring :=
  match s with
  | [] => []
  | c :: r =>
    match r with
    | d :: r' => if is_lead c && is_trail d then c :: d :: quote_units r'
                 else quote_unit c ++ quote_units r
    | [] => quote_unit c
    end
  end.

(** [JSON.stringify(s)] for a string. *)
Definition quote (s : jstring) : jstring := [34%N] ++ quote_units s ++ [34%N].

(** A line break and the indentation, nothing for a compact text. *)
Definition newline (indent : option nat) (depth : nat) : jstring :=
  match indent with
  | None => []
  | Some w => 10%N :: replicate (w * depth) 32%N
  end.

Definition bracketed (op cl : N) (indent : option nat) (depth : nat) (items : list jstring) : jstring :=
  match items with
  | [] => [op; cl]
  | _ => [op] ++ newline indent (S depth)
         ++ join ("," ++ newline indent (S depth)) items ++ newline indent depth ++ [cl]
  end.

(** [None] for a value that JSON leaves out. *)
Fixpoint stringify_at (indent : option nat) (depth : nat) (v : jval) : option jstring :=
  match v with
  | JUndefined => None
  | JNull => Some "null"
  | JBool b => Some (if b then "true" else "false")
  | JNum n => Some (if is_finite n then Number_to_string n else "null")
  | JStr s => Some (quote s)
  | JArr l =>
    Some (bracketed (cu "[") (cu "]") indent depth
            (map (λ x, default "null" (stringify_at indent (S depth) x)) l))
  | JObj o =>
    Some (bracketed (cu "{") (cu "}") indent depth
            (omap (λ kv, (λ t, quote kv.1 ++ (match indent with None => ":" | Some _ => ": " end) ++ t)
                         <$> stringify_at indent (S depth) kv.2) o))
  end.

(** [JSON.stringify(v, null, indent)] *)
Definition JSON_stringify (indent : option nat) (v : jval) : option jstring :=
  stringify_at indent 0 v.

(** ** JSON.parse *)

Definition is_json_space (c : N) : bool := ((c =? 32) || (c =? 9) || (c =? 10) || (c =? 13))%N.

Fixpoint skip_ws (s : jstring) : jstring :=
  match s with
  | c :: r => if is_json_space c then skip_ws r else s
  | [] => []
  end.

Definition hex_value (c : N) : option N := d ← radix_digit c; if (d <? 16)%N then Some d else None.

(** The content of a string literal up to its closing quote. *)
Fixpoint parse_string_body (s : jstring) : option (jstring * jstring) :=
  match s with
  | [] => None
  | c :: r =>
    if (c =? 34)%N then Some ([], r)
    else if (c =? 92)%N then
      match r with
      | e :: r1 =>
        let plain u := '(body, rest) ← parse_string_body r1; Some (u :: body, rest) in
        if (e =? 34)%N then plain 34%N
        else if (e =? 92)%N then plain 92%N
        else if (e =? 47)%N then plain 47%N
        else if (e =? 98)%N then plain 8%N
        else if (e =? 102)%N then plain 12%N
        else if (e =? 110)%N then plain 10%N
        else if (e =? 114)%N then plain 13%N
        else if (e =? 116)%N then plain 9%N
        else if (e =? 117)%N then
          match r1 with
          | a :: b :: x :: y :: r2 =>
            match hex_value a, hex_value b, hex_value x, hex_value y with
            | Some a, Some b, Some x, Some y =>
              '(body, rest) ← parse_string_body r2;
              Some ((a * 4096 + b * 256 + x * 16 + y)%N :: body, rest)
            | _, _, _, _ => None
            end
          | _ => None
          end
        else None
      | [] => None
      end
    else if (c <? 32)%N then None
    else '(body, rest) ← parse_string_body r; Some (c :: body, rest)
  end.

(** A number of JSON: no leading zeros, no leading [+], digits around the point. *)
Definition parse_number (s : jstring) : option (jval * jstring) :=
  let '(neg, r) := match s with
                   | c :: r => if (c =? 45)%N then (true, r) else (false, s)
                   | [] => (false, s) end in
  let '(ip, r1) := span_digits r in
  let ip_ok := match ip with [] => false | [_] => true | d :: _ => negb (d =? 48)%N end in
  let '(fp, r2, frac_ok) :=
    match r1 with
    | c :: r0 => if (c =? 46)%N then let '(f, r2) := span_digits r0 in (f, r2, truthy f)
                 else ([], r1, true)
    | [] => ([], r1, true)
    end in
  if ip_ok && frac_ok then
    let '(e, rest) := parse_exponent r2 in
    Some (JNum (of_decimal neg (digits_val (ip ++ fp)) (e - Z.of_nat (length fp))), rest)
  else None.

Section parse.
Variable parse_value : jstring → option (jval * jstring).

(** The elements of an array after the opening bracket or a comma. *)
Fixpoint parse_elements (fuel : nat) (s : jstring) : option (list jval * jstring) :=
  match fuel with
  | O => None
  | S f =>
    '(v, r) ← parse_value s;
    match skip_ws r with
    | c :: r' =>
      if (c =? cu ",")%N then '(vs, rest) ← parse_elements f r'; Some (v :: vs, rest)
      else if (c =? cu "]")%N then Some ([v], r') else None
    | [] => None
    end
  end.

(** The members of an object after the opening brace or a comma, in source order. *)
Fixpoint parse_members (fuel : nat) (s : jstring) : option (list (jstring * jval) * jstring) :=
  match fuel with
  | O => None
  | S f =>
    match skip_ws s with
    | q :: r =>
      if (q =? 34)%N then
        '(k, r1) ← parse_string_body r;
        match skip_ws r1 with
        | c :: r2 =>
          if (c =? cu ":")%N then
            '(v, r3) ← parse_value r2;
            match skip_ws r3 with
            | d :: r4 =>
              if (d =? cu ",")%N then
                '(kvs, rest) ← parse_members f r4; Some ((k, v) :: kvs, rest)
              else if (d =? cu "}")%N then Some ([(k, v)], r4) else None
            | [] => None
            end
          else None
        | [] => None
        end
      else None
    | [] => None
    end
  end.
End parse.

Fixpoint parse_value (fuel : nat) (s : jstring) : option (jval * jstring) :=
  match fuel with
  | O => None
  | S f =>
    let t := skip_ws s in
    match t with
    | [] => None
    | c :: r =>
      if (c =? 34)%N then '(body, rest) ← parse_string_body r; Some (JStr body, rest)
      else if (c =? cu "[")%N then
        match skip_ws r with
        | d :: r' =>
          if (d =? cu "]")%N then Some (JArr [], r')
          else '(vs, rest) ← parse_elements (parse_value f) f r; Some (JArr vs, rest)
        | [] => None
        end
      else if (c =? cu "{")%N then
        match skip_ws r with
        | d :: r' =>
          if (d =? cu "}")%N then Some (JObj [], r')
          else '(kvs, rest) ← parse_members (parse_value f) f r; Some (JObj (obj_of_entries kvs), rest)
        | [] => None
        end
      else if starts_with "true" t then Some (JBool true, drop 4 t)
      else if starts_with "false" t then Some (JBool false, drop 5 t)
      else if starts_with "null" t then Some (JNull, drop 4 t)
      else parse_number t
    end
  end.

(** [JSON.parse(s)], [None] when it throws.  Every nested value starts at least
    one unit further, so the length of the text is enough fuel. *)
Definition JSON_parse (s : jstring) : option jval :=
  '(v, rest) ← parse_value (S (length s)) s;
  match skip_ws rest with [] => Some v | _ => None end.
