(* ===== verification/JsJson.v ===== *)
(** * JsJson: JSON texts read back as the value they were written from

    The round trip holds for every value JSON can represent, compact or
    indented: it is what makes a deep copy through JSON, a stored
    configuration or a quoted string of an expression faithful.  The numbers of a
    parsed text are numbers of the language. *)
From Stdlib Require Import Floats.SpecFloat.
From S2P Require Import Prelude JsString JsNumber JsFloat JsValue.

(** ** Strings *)

Definition valid_units (s : jstring) : Prop := Forall (λ c, (c < 65536)%N) s.

Lemma hex_value_digit n : (n < 16)%N → hex_value (hex_digit n) = Some n.
Proof.
  intros H. assert (forallb (λ k, bool_decide (hex_value (hex_digit (N.of_nat k)) = Some (N.of_nat k)))
    (seq 0 16) = true) as Hall by (vm_compute; reflexivity).
  rewrite forallb_forall in Hall. specialize (Hall (N.to_nat n)). rewrite N2Nat.id in Hall.
  apply bool_decide_eq_true in Hall; [done|]. apply in_seq. lia.
Qed.

Lemma hex_split c :
  (c < 65536)%N →
  (c / 4096 * 4096 + c / 256 mod 16 * 256 + c / 16 mod 16 * 16 + c mod 16 = c)%N.
Proof.
  intros _. assert (c / 4096 = c / 256 / 16)%N as -> by (by rewrite N.Div0.div_div).
  assert (c / 256 = c / 16 / 16)%N as -> by (by rewrite N.Div0.div_div).
  pose proof (N.div_mod' c 16) as H1. pose proof (N.div_mod' (c / 16) 16) as H2.
  pose proof (N.div_mod' (c / 16 / 16) 16) as H3. lia.
Qed.

Lemma parse_unicode_escape c r :
  (c < 65536)%N →
  parse_string_body (unicode_escape c ++ r) =
  ('(body, rest) ← parse_string_body r; Some (c :: body, rest)).
Proof.
  intros H. unfold unicode_escape. cbn [app]. cbn [parse_string_body].
  change (92 =? 34)%N with false. change (92 =? 92)%N with true. cbv iota.
  cbn. rewrite !hex_value_digit; try (apply N.mod_lt; lia).
  - by rewrite hex_split.
  - apply N.Div0.div_lt_upper_bound. lia.
Qed.

Lemma parse_plain_unit c r :
  (c ≠ 34 ∧ c ≠ 92 ∧ 32 ≤ c)%N →
  parse_string_body (c :: r) = ('(body, rest) ← parse_string_body r; Some (c :: body, rest)).
Proof.
  intros (H1 & H2 & H3). cbn [parse_string_body].
  apply N.eqb_neq in H1 as ->. apply N.eqb_neq in H2 as ->. by apply N.ltb_ge in H3 as ->.
Qed.

Lemma parse_quote_unit c r :
  (c < 65536)%N →
  parse_string_body (quote_unit c ++ r) =
  ('(body, rest) ← parse_string_body r; Some (c :: body, rest)).
Proof.
  intros H. unfold quote_unit.
  repeat match goal with
  | |- context [if (c =? ?n)%N then _ else _] =>
    destruct (N.eqb_spec c n) as [->|?]; [reflexivity|]
  end.
  destruct ((c <? 32)%N || is_lead c || is_trail c) eqn:E; [by apply parse_unicode_escape|].
  bool_to_prop. apply parse_plain_unit. split_and!; [done..|]. by apply N.ltb_ge.
Qed.

Lemma parse_quote_units s r :
  valid_units s → parse_string_body (quote_units s ++ 34%N :: r) = Some (s, r).
Proof.
  unfold valid_units. remember (length s) as n eqn:Hn.
  revert s Hn. induction n as [n IH] using lt_wf_ind. intros s -> Hv.
  destruct s as [|c s]; [done|]. apply Forall_cons in Hv as [Hc Hv].
  destruct s as [|d s].
  - cbn [quote_units]. rewrite parse_quote_unit by done. done.
  - change (quote_units (c :: d :: s)) with
      (if is_lead c && is_trail d then c :: d :: quote_units s
       else quote_unit c ++ quote_units (d :: s)).
    destruct (is_lead c && is_trail d) eqn:E.
    + apply Forall_cons in Hv as [Hd Hv]. bool_to_prop. unfold is_lead, is_trail in *. bool_to_prop.
      repeat match goal with H : (_ <=? _)%N = true |- _ => apply N.leb_le in H end.
      cbn [app]. rewrite !parse_plain_unit by (split_and!; lia).
      rewrite (IH (length s)) by (done || simpl; lia). done.
    + rewrite <- app_assoc, parse_quote_unit by done.
      rewrite (IH (length (d :: s))) by (done || simpl; lia). done.
Qed.

(** The text of a string literal is read back, whatever follows it. *)
Lemma parse_quote s r :
  valid_units s → parse_string_body (drop 1 (quote s ++ r)) = Some (s, r).
Proof.
  intros. unfold quote. cbn [app drop]. rewrite <- app_assoc. by apply parse_quote_units.
Qed.

(** ** Numbers *)

(** What may follow a value inside a text. *)
Definition delimiter (r : jstring) : Prop :=
  match r with
  | [] => True
  | c :: _ => c = cu "," ∨ c = cu "]" ∨ c = cu "}" ∨ c = 10%N
  end.

Lemma span_digits_frame s a b r :
  delimiter r → span_digits s = (a, b) → span_digits (s ++ r) = (a, b ++ r).
Proof.
  intros Hr. revert a b. induction s as [|c s IH]; intros a b H; simplify_eq/=.
  - destruct r as [|c r]; [done|]. simpl. by destruct Hr as [->|[->|[->| ->]]].
  - destruct (is_digit c); simplify_eq/=; [|done].
    destruct (span_digits s) as [a' b']; simplify_eq/=. by rewrite (IH _ _ eq_refl).
Qed.

Lemma parse_exponent_frame s e r :
  delimiter r → parse_exponent s = (e, []) → parse_exponent (s ++ r) = (e, r).
Proof.
  intros Hr H. destruct s as [|c s]; simplify_eq/=.
  - destruct r as [|c r]; [done|]. by destruct Hr as [->|[->|[->| ->]]].
  - destruct (_ || _)%N; [|done].
    assert (∀ t (neg : bool),
      match span_digits t with
      | ([], _) => (0%Z, c :: s)
      | (ds, rest) => ((if neg then - Z.of_N (digits_val ds) else Z.of_N (digits_val ds))%Z, rest)
      end = (e, []) →
      match span_digits (t ++ r) with
      | ([], _) => (0%Z, c :: s ++ r)
      | (ds, rest) => ((if neg then - Z.of_N (digits_val ds) else Z.of_N (digits_val ds))%Z, rest)
      end = (e, r)) as Hgo.
    { intros t neg Ht. destruct (span_digits t) as [a b] eqn:E.
      rewrite (span_digits_frame _ _ _ r Hr E). destruct a; simplify_eq/=. done. }
    destruct s as [|d s]; simpl in *; [done|].
    destruct (d =? 45)%N; [by apply (Hgo _ true)|].
    destruct (d =? 43)%N; [by apply (Hgo _ false)|]. by apply (Hgo (d :: s) false).
Qed.

Lemma parse_number_frame s v r :
  delimiter r → parse_number s = Some (v, []) → parse_number (s ++ r) = Some (v, r).
Proof.
  intros Hr. unfold parse_number.
  set (sgn := λ s : jstring, match s with c :: r => if (c =? 45)%N then (true, r) else (false, s) | [] => (false, s) end).
  assert (∀ s, s ≠ [] → sgn (s ++ r) = ((sgn s).1, (sgn s).2 ++ r)) as Hsgn.
  { intros [|c t] ?; [done|]. simpl. by destruct (c =? 45)%N. }
  change (match s ++ r with c :: r0 => if (c =? 45)%N then (true, r0) else (false, s ++ r) | [] => (false, s ++ r) end)
    with (sgn (s ++ r)).
  change (match s with c :: r0 => if (c =? 45)%N then (true, r0) else (false, s) | [] => (false, s) end)
    with (sgn s).
  destruct s as [|c0 s0]; [done|]. rewrite Hsgn by done. destruct (sgn (c0 :: s0)) as [neg t]. simpl fst; simpl snd.
  destruct (span_digits t) as [ip r1] eqn:E1. rewrite (span_digits_frame _ _ _ _ Hr E1).
  destruct r1 as [|c r1].
  - simpl. destruct r as [|d r]; [done|].
    destruct (match ip with [] => false | _ => _ end); [|done].
    destruct Hr as [->|[->|[->| ->]]]; simpl; intros [= <-]; done.
  - simpl. destruct (c =? 46)%N.
    + destruct (span_digits r1) as [fp r2] eqn:E2. rewrite (span_digits_frame _ _ _ _ Hr E2).
      destruct (_ && truthy fp); [|done]. destruct (parse_exponent r2) as [e rest] eqn:E3.
      intros [= <- ->]. by rewrite (parse_exponent_frame _ _ _ Hr E3).
    + destruct (_ && true); [|done]. destruct (parse_exponent (c :: r1)) as [e rest] eqn:E3.
      intros [= <- ->]. change (c :: r1 ++ r) with ((c :: r1) ++ r).
      by rewrite (parse_exponent_frame _ _ _ Hr E3).
Qed.

(** A number whose shortest numeral is a JSON number that reads back. *)
Definition num_readable (n : num) : bool :=
  is_finite n &&
  match parse_number (Number_to_string n) with Some (JNum m, []) => bool_decide (m = n) | _ => false end
  && match Number_to_string n with c :: _ => is_digit c || (c =? 45)%N | [] => false end.

(** ** Values *)

(** A value that JSON can represent. *)
Fixpoint json_ok (v : jval) : Prop :=
  match v with
  | JUndefined => False
  | JNull | JBool _ => True
  | JNum n => num_readable n = true
  | JStr s => valid_units s
  | JArr l => foldr (λ x P, json_ok x ∧ P) True l
  | JObj o =>
    NoDup (okeys o) ∧ keys_ordered (okeys o) = true ∧
    foldr (λ kv P, (valid_units kv.1 ∧ json_ok kv.2) ∧ P) True o
  end.

Lemma foldr_and_Forall {A} (P : A → Prop) l : foldr (λ x Q, P x ∧ Q) True l ↔ Forall P l.
Proof. induction l; simpl; [done|]. rewrite Forall_cons. naive_solver. Qed.

Lemma obj_create_last {V} k (v : V) o :
  keys_ordered (okeys o ++ [k]) = true → obj_create k v o = o ++ [(k, v)].
Proof.
  unfold okeys. induction o as [|[j w] o IH]; simpl; [done|]. intros H. bool_to_prop.
  rewrite IH by done. destruct (is_index k) eqn:Ek; [|done]. simpl.
  assert (is_index j = true ∧ (digits_val j < digits_val k)%N) as [-> Hlt].
  { destruct (is_index j) eqn:Ej.
    - rewrite forallb_app in H. bool_to_prop. simpl in *. bool_to_prop. rewrite Ek in *.
      simpl in *. by split; [|apply N.ltb_lt].
    - rewrite forallb_app in H. bool_to_prop. simpl in *. bool_to_prop. congruence. }
  simpl. destruct (N.ltb_spec (digits_val k) (digits_val j)); [lia|done].
Qed.

Lemma keys_ordered_app ks ks' : keys_ordered (ks ++ ks') = true → keys_ordered ks = true.
Proof.
  induction ks as [|k ks IH]; simpl; [done|]. intros H. bool_to_prop.
  rewrite IH by done. rewrite andb_true_r.
  destruct (is_index k); rewrite forallb_app in H; by bool_to_prop.
Qed.

(** Creating the members in enumeration order rebuilds the object. *)
Lemma obj_of_entries_ordered {V} (o : list (jstring * V)) :
  NoDup (okeys o) → keys_ordered (okeys o) = true → obj_of_entries o = o.
Proof.
  unfold obj_of_entries.
  assert (∀ p, NoDup (okeys (p ++ o)) → keys_ordered (okeys (p ++ o)) = true →
    fold_left (λ o kv, obj_set kv.1 kv.2 o) o p = p ++ o) as Hgo; [|apply (Hgo [])].
  induction o as [|[k v] o IH]; intros p Hnd Hord; simpl; [by rewrite app_nil_r|].
  assert (obj_set k v p = p ++ [(k, v)]) as ->.
  { unfold obj_set, ohas. rewrite bool_decide_eq_false_2.
    - apply obj_create_last. unfold okeys in *. rewrite fmap_app in Hord.
      rewrite fmap_cons in Hord. change (?a :: ?b) with ([a] ++ b) in Hord.
      rewrite app_assoc in Hord. by apply keys_ordered_app in Hord.
    - rewrite <- elem_of_okeys. unfold okeys in *. rewrite fmap_app, fmap_cons in Hnd.
      apply NoDup_app in Hnd as (_ & Hd & _). intros Hin. apply (Hd k Hin). constructor. }
  rewrite IH; [by rewrite <- app_assoc|by rewrite <- app_assoc|by rewrite <- app_assoc].
Qed.

(** ** Layout *)

Definition blank (w : jstring) : Prop := Forall (λ c, is_json_space c = true) w.

Lemma skip_ws_blank w s : blank w → skip_ws (w ++ s) = skip_ws s.
Proof. induction 1 as [|c w Hc]; [done|]. simpl. by rewrite Hc. Qed.

Lemma newline_blank indent depth : blank (newline indent depth).
Proof.
  unfold blank. destruct indent; simpl; [|constructor]. constructor; [done|].
  by apply Forall_replicate.
Qed.

Lemma delimiter_newline indent depth c r :
  delimiter [c] → delimiter (newline indent depth ++ c :: r).
Proof. destruct indent; simpl; [|done]. auto. Qed.

Lemma parse_value_blank f w s : blank w → parse_value (S f) (w ++ s) = parse_value (S f) s.
Proof. intros. cbn [parse_value]. by rewrite skip_ws_blank. Qed.

Lemma join_length sep l t : t ∈ l → length t ≤ length (join sep l).
Proof.
  induction l as [|x l IH]; [by intros ?%elem_of_nil|]. rewrite elem_of_cons.
  destruct l as [|y l]; simpl in *; [intros [->|?%elem_of_nil]; done|].
  rewrite !length_app. intros [->|H]; [lia|]. specialize (IH H). lia.
Qed.

Lemma join_count sep l : Forall (λ t, t ≠ []) l → length l ≤ length (join sep l).
Proof.
  induction 1 as [|x l Hx Hl IH]; [done|]. destruct l as [|y l].
  - destruct x; simpl; [done|lia].
  - change (join sep (x :: y :: l)) with (x ++ sep ++ join sep (y :: l)).
    rewrite !length_app. destruct x; simpl in *; [done|lia].
Qed.

(** ** Arrays and objects *)

Section sequences.
Variables (pv : jstring → option (jval * jstring)) (nl nl' : jstring).
Hypothesis Hnl : blank nl.
Hypothesis Hnl' : blank nl'.
Hypothesis Hdelim : ∀ c r, delimiter [c] → delimiter (nl' ++ c :: r).

Lemma parse_elements_join (items : list (jstring * jval)) n r :
  Forall (λ tv, ∀ r, delimiter r → pv (nl ++ tv.1 ++ r) = Some (tv.2, r)) items →
  items ≠ [] → length items ≤ n →
  parse_elements pv n (nl ++ join ("," ++ nl) items.*1 ++ nl' ++ cu "]" :: r) = Some (items.*2, r).
Proof using Hnl Hnl' Hdelim.
  intros HF. revert n. induction HF as [|[t v] items Ht HF IH]; intros n Hne Hn; [done|].
  destruct n as [|n]; [simpl in Hn; lia|]. destruct items as [|[t' v'] items].
  - cbn [parse_elements fmap list_fmap join fst snd]. rewrite Ht by (apply Hdelim; unfold delimiter; auto).
    cbn [mbind option_bind]. by rewrite skip_ws_blank.
  - replace (nl ++ join ("," ++ nl) ((t, v) :: (t', v') :: items).*1 ++ nl' ++ cu "]" :: r)
      with (nl ++ t ++ cu "," :: nl ++ join ("," ++ nl) ((t', v') :: items).*1 ++ nl' ++ cu "]" :: r).
    2:{ change (join ("," ++ nl) ((t, v) :: (t', v') :: items).*1)
          with (t ++ ("," ++ nl) ++ join ("," ++ nl) ((t', v') :: items).*1).
        by rewrite <- !app_assoc. }
    cbn [parse_elements]. rewrite Ht by (simpl; auto). cbn [mbind option_bind].
    assert (∀ s, skip_ws (cu "," :: s) = cu "," :: s) as -> by done. cbn [fst snd].
    rewrite N.eqb_refl. rewrite IH by (done || simpl in *; lia). done.
Qed.

Lemma parse_members_join (items : list (jstring * (jstring * jval))) sep n r :
  blank sep →
  Forall (λ x, valid_units x.1 ∧ ∀ r, delimiter r → pv (sep ++ x.2.1 ++ r) = Some (x.2.2, r)) items →
  items ≠ [] → length items ≤ n →
  parse_members pv n
    (nl ++ join ("," ++ nl) ((λ x, quote x.1 ++ cu ":" :: sep ++ x.2.1) <$> items) ++ nl' ++ cu "}" :: r)
  = Some ((λ x, (x.1, x.2.2)) <$> items, r).
Proof using Hnl Hnl' Hdelim.
  intros Hsep HF. revert n. induction HF as [|[k [t v]] items [Hk Ht] HF IH]; intros n Hne Hn; [done|].
  cbn [fst snd] in *. destruct n as [|n]; [simpl in Hn; lia|].
  set (tail := match items with [] => nl' ++ cu "}" :: r
               | _ => cu "," :: nl ++ join ("," ++ nl) ((λ x, quote x.1 ++ cu ":" :: sep ++ x.2.1) <$> items) ++ nl' ++ cu "}" :: r end).
  replace (nl ++ _) with (nl ++ 34%N :: quote_units k ++ 34%N :: cu ":" :: sep ++ t ++ tail).
  2:{ unfold tail, quote. destruct items as [|x items]; cbn [fmap list_fmap join fst snd];
        by rewrite <- ?app_assoc; cbn [app]; rewrite <- ?app_assoc; cbn [app]; rewrite <- ?app_assoc. }
  assert (delimiter tail) as Htail.
  { unfold tail. destruct items; [apply Hdelim|]; simpl; auto. }
  cbn [parse_members]. rewrite skip_ws_blank by done. cbn [skip_ws].
  change (is_json_space 34) with false. change (34 =? 34)%N with true. cbv iota.
  rewrite parse_quote_units by done. cbn [mbind option_bind].
  assert (∀ s, skip_ws (cu ":" :: s) = cu ":" :: s) as -> by done.
  rewrite N.eqb_refl, Ht by done. cbn [mbind option_bind]. unfold tail.
  destruct items as [|x items].
  - by rewrite skip_ws_blank.
  - assert (∀ s, skip_ws (cu "," :: s) = cu "," :: s) as -> by done. rewrite N.eqb_refl.
    rewrite IH by (done || simpl in *; lia). done.
Qed.
End sequences.

(** ** The round trip *)

(** The first unit of the text of a value. *)
Definition value_head (t : jstring) : Prop :=
  match t with [] => False | c :: _ => is_json_space c = false ∧ (c =? cu "]")%N = false end.

(** [t] reads as [v] with fuel above its length, before any delimiter. *)
Definition reads (t : jstring) (v : jval) : Prop :=
  value_head t ∧
  ∀ f r, length t < f → delimiter r → parse_value f (t ++ r) = Some (v, r).

Lemma value_head_nonempty t : value_head t → t ≠ [].
Proof. by destruct t. Qed.

Lemma value_head_skip t r :
  value_head t → ∃ c s, t = c :: s ∧ skip_ws (t ++ r) = c :: s ++ r ∧ (c =? cu "]")%N = false.
Proof.
  destruct t as [|c s]; [done|]. intros [Hc Hne]. exists c, s. split_and!; [done| |done].
  simpl. by rewrite Hc.
Qed.

Lemma reads_number n : num_readable n = true → reads (Number_to_string n) (JNum n).
Proof.
  unfold num_readable. intros H. bool_to_prop.
  destruct (parse_number (Number_to_string n)) as [[m r]|] eqn:E; [|done].
  destruct m as [| | |m| | |]; try done. destruct r; [|done]. bool_to_prop. subst.
  destruct (Number_to_string n) as [|c t] eqn:Et; [done|].
  assert (48 ≤ c ≤ 57 ∨ c = 45)%N as Hc.
  { apply orb_true_iff in H0 as [H0|H0]; [left; by apply is_digit_spec|right; by apply N.eqb_eq]. }
  assert (is_json_space c = false) as Hsp.
  { unfold is_json_space. repeat (apply orb_false_iff; split); apply N.eqb_neq; lia. }
  split; [split; [done|apply N.eqb_neq; change (cu "]") with 93%N; lia]|].
  intros [|f] r Hf Hr; [lia|]. cbn [parse_value app].
  assert (skip_ws (c :: t ++ r) = c :: t ++ r) as -> by (cbn [skip_ws]; by rewrite Hsp).
  cbv zeta. cbn [starts_with].
  repeat match goal with
  | |- context [(?a =? ?b)%N] => first [
      assert ((a =? b)%N = false) as -> by (apply N.eqb_neq; cbn; lia) ]
  end.
  cbn [andb]. change (c :: t ++ r) with ((c :: t) ++ r). by apply parse_number_frame.
Qed.

Lemma reads_string s : valid_units s → reads (quote s) (JStr s).
Proof.
  intros Hs. split; [by split|]. intros [|f] r Hf _; [lia|]. unfold quote. cbn [app parse_value skip_ws].
  change (is_json_space 34) with false. change (34 =? 34)%N with true. cbv iota zeta.
  rewrite <- app_assoc. cbn [app]. by rewrite parse_quote_units.
Qed.

(** The text of a representable value. *)
Definition text_at (indent : option nat) (depth : nat) (v : jval) : jstring :=
  default "null" (stringify_at indent depth v).

Lemma stringify_ok indent depth v : json_ok v → stringify_at indent depth v = Some (text_at indent depth v).
Proof. by destruct v. Qed.

Lemma bracketed_cons op cl indent depth items :
  items ≠ [] →
  bracketed op cl indent depth items =
  op :: newline indent (S depth) ++ join ("," ++ newline indent (S depth)) items
     ++ newline indent depth ++ [cl].
Proof. by destruct items. Qed.

Definition colon_space (indent : option nat) : jstring :=
  match indent with None => [] | Some _ => " " end.

Lemma colon_space_blank indent : blank (colon_space indent).
Proof. destruct indent; [repeat constructor|constructor]. Qed.

(** The text of a bracketed sequence, followed by [r]. *)
Lemma bracketed_app op cl indent depth items r :
  items ≠ [] →
  bracketed op cl indent depth items ++ r =
  op :: newline indent (S depth) ++ join ("," ++ newline indent (S depth)) items
     ++ newline indent depth ++ cl :: r.
Proof. intros. rewrite bracketed_cons by done. cbn [app]. by rewrite <- !app_assoc. Qed.

Lemma bracketed_length op cl indent depth items :
  items ≠ [] →
  length (join ("," ++ newline indent (S depth)) items) + 2 ≤ length (bracketed op cl indent depth items).
Proof. intros. rewrite bracketed_cons by done. simpl. rewrite !length_app. simpl. lia. Qed.

Lemma fmap_cons_ne {A B} (f : A → B) x l : f <$> x :: l ≠ [].
Proof. done. Qed.

Lemma join_head sep t ts : ∃ r, join sep (t :: ts) = t ++ r.
Proof. destruct ts; [exists []; by rewrite app_nil_r|by eexists]. Qed.

Lemma skip_ws_items w sep t ts r :
  blank w → value_head t →
  ∃ c s, skip_ws (w ++ join sep (t :: ts) ++ r) = c :: s ∧ (c =? cu "]")%N = false.
Proof.
  intros Hw Ht. rewrite skip_ws_blank by done. destruct (join_head sep t ts) as [r' ->].
  rewrite <- app_assoc. destruct (value_head_skip t (r' ++ r) Ht) as (c & s & _ & -> & ?). eauto.
Qed.

Lemma reads_array indent depth l :
  Forall (λ x, reads (text_at indent (S depth) x) x) l →
  reads (text_at indent depth (JArr l)) (JArr l).
Proof.
  intros HF. unfold text_at at 1. cbn [stringify_at default from_option id].
  destruct l as [|x0 l0]; [split; [by split|]; intros [|f] r ? ?; [lia|done]|].
  change (map _ (x0 :: l0)) with (text_at indent (S depth) <$> x0 :: l0).
  assert (Forall (λ t, t ≠ []) (text_at indent (S depth) <$> x0 :: l0)) as Hne.
  { rewrite Forall_fmap. eapply Forall_impl; [exact HF|]. intros x [? _]. by apply value_head_nonempty. }
  split; [rewrite bracketed_cons by done; by split|]. intros [|f] r Hf Hr; [lia|].
  pose proof (bracketed_length (cu "[") (cu "]") indent depth _ (fmap_cons_ne (text_at indent (S depth)) x0 l0)) as Hlen.
  pose proof (join_count ("," ++ newline indent (S depth)) _ Hne) as Hcount.
  pose proof (Nat.le_lt_trans _ _ _ Hlen Hf) as Hjoin.
  pose proof (Nat.le_lt_trans _ _ _ (proj1 (Nat.add_le_mono_r _ _ 2) Hcount) Hjoin) as Hn.
  assert (∀ t, t ∈ text_at indent (S depth) <$> x0 :: l0 → length t + 2 < S f) as Hitem.
  { intros t Ht. eapply Nat.le_lt_trans; [|exact Hjoin]. by apply Nat.add_le_mono_r, join_length. }
  rewrite length_fmap in Hn. clear Hcount Hlen Hjoin Hf.
  rewrite bracketed_app by done. remember ("," ++ newline indent (S depth)) as sep eqn:Esep.
  cbn [parse_value skip_ws]. change (is_json_space (cu "[")) with false. cbv iota zeta.
  change (cu "[" =? 34)%N with false. rewrite N.eqb_refl. cbv iota.
  apply Forall_cons in HF as HF'. destruct HF' as [[Hx _] _].
  destruct (skip_ws_items (newline indent (S depth)) sep (text_at indent (S depth) x0)
    (text_at indent (S depth) <$> l0) (newline indent depth ++ cu "]" :: r) (newline_blank _ _) Hx)
    as (c & s & Hs & Hc). rewrite fmap_cons, Hs, Hc, <- fmap_cons. clear c s Hs Hc. subst sep.
  pose proof (parse_elements_join (parse_value f) _ _ (newline_blank indent (S depth))
    (newline_blank indent depth) (delimiter_newline indent depth)
    ((λ x, (text_at indent (S depth) x, x)) <$> x0 :: l0) f r) as Hj.
  rewrite <- !list_fmap_compose in Hj. unfold compose in Hj. cbn [fst snd] in Hj.
  rewrite list_fmap_id in Hj. change (λ x, text_at indent (S depth) x) with (text_at indent (S depth)) in Hj.
  rewrite Hj; [done| |done|].
  - rewrite Forall_fmap, Forall_forall in *. intros x Hin r' Hr'. simpl.
    specialize (Hitem _ (list_elem_of_fmap_2 _ _ _ Hin)). destruct f as [|f]; [lia|].
    rewrite parse_value_blank by apply newline_blank. apply HF; [done|lia|done].
  - rewrite length_fmap. lia.
Qed.

Lemma reads_object indent depth o :
  NoDup (okeys o) → keys_ordered (okeys o) = true →
  Forall (λ kv, valid_units kv.1) o →
  Forall (λ kv, stringify_at indent (S depth) kv.2 = Some (text_at indent (S depth) kv.2)
                ∧ reads (text_at indent (S depth) kv.2) kv.2) o →
  reads (text_at indent depth (JObj o)) (JObj o).
Proof.
  intros Hnd Hord Hk HF. unfold text_at at 1. cbn [stringify_at default from_option id].
  assert (omap (λ kv, (λ t, quote kv.1 ++ (match indent with None => ":" | Some _ => ": " end) ++ t)
             <$> stringify_at indent (S depth) kv.2) o
    = (λ x : jstring * (jstring * jval), quote x.1 ++ cu ":" :: colon_space indent ++ x.2.1)
      <$> ((λ kv, (kv.1, (text_at indent (S depth) kv.2, kv.2))) <$> o)) as ->.
  { clear -HF. induction HF as [|[k v] o [Hs _] HF IH]; [done|]. cbn [omap list_omap fst snd] in *.
    rewrite Hs, fmap_cons, fmap_cons, <- IH. cbn [fmap option_fmap option_map fst snd]. by destruct indent. }
  set (items := (λ kv : jstring * jval, (kv.1, (text_at indent (S depth) kv.2, kv.2))) <$> o).
  set (txt := λ x : jstring * (jstring * jval), quote x.1 ++ cu ":" :: colon_space indent ++ x.2.1).
  destruct o as [|[k0 v0] o0]; [split; [by split|]; intros [|f] r ? ?; [lia|done]|].
  assert (Forall (λ t, t ≠ []) (txt <$> items)) as Hne by (apply Forall_fmap, Forall_true; done).
  split; [rewrite bracketed_cons by done; by split|]. intros [|f] r Hf Hr; [lia|].
  pose proof (bracketed_length (cu "{") (cu "}") indent depth _ (fmap_cons_ne txt _ _ : txt <$> items ≠ [])) as Hlen.
  pose proof (join_count ("," ++ newline indent (S depth)) _ Hne) as Hcount.
  pose proof (Nat.le_lt_trans _ _ _ Hlen Hf) as Hjoin.
  pose proof (Nat.le_lt_trans _ _ _ (proj1 (Nat.add_le_mono_r _ _ 2) Hcount) Hjoin) as Hn.
  assert (∀ t, t ∈ txt <$> items → length t + 2 < S f) as Hitem.
  { intros t Ht. eapply Nat.le_lt_trans; [|exact Hjoin]. by apply Nat.add_le_mono_r, join_length. }
  rewrite length_fmap in Hn. clear Hcount Hlen Hjoin Hf.
  rewrite bracketed_app by done. remember ("," ++ newline indent (S depth)) as sep eqn:Esep.
  cbn [parse_value skip_ws]. change (is_json_space (cu "{")) with false. cbv iota zeta.
  change (cu "{" =? 34)%N with false. change (cu "{" =? cu "[")%N with false. rewrite N.eqb_refl. cbv iota.
  assert (∃ s, skip_ws (newline indent (S depth) ++ join sep (txt <$> items) ++ newline indent depth ++ cu "}" :: r)
    = 34%N :: s) as [s ->].
  { rewrite skip_ws_blank by apply newline_blank. unfold items. rewrite !fmap_cons.
    edestruct (join_head sep) as [r' ->]. unfold txt, quote. eexists. reflexivity. }
  change (34 =? cu "}")%N with false. cbv iota. subst sep.
  rewrite (parse_members_join (parse_value f) _ _ (newline_blank indent (S depth))
    (newline_blank indent depth) (delimiter_newline indent depth) items (colon_space indent));
    [|apply colon_space_blank| |done|lia].
  - cbn [mbind option_bind]. do 3 f_equal. unfold items. rewrite <- list_fmap_compose.
    rewrite <- (obj_of_entries_ordered ((k0, v0) :: o0)) at 2 by done. f_equal.
    rewrite <- list_fmap_id. apply list_fmap_ext. by intros ? [? ?].
  - unfold items. rewrite Forall_fmap, Forall_forall in *. intros [k v] Hin. simpl.
    split; [by apply (Hk _ Hin)|]. intros r' Hr'. destruct (HF _ Hin) as [_ Hread]. simpl in Hread.
    assert (txt (k, (text_at indent (S depth) v, v)) ∈ txt <$> items) as Hin'.
    { apply list_elem_of_fmap_2. unfold items. apply list_elem_of_fmap. by exists (k, v). }
    apply Hitem in Hin'.
    assert (length (text_at indent (S depth) v) ≤ length (txt (k, (text_at indent (S depth) v, v)))).
    { unfold txt. cbn [fst snd]. rewrite length_app. cbn [length]. rewrite length_app. lia. }
    destruct f as [|f]; [lia|].
    rewrite parse_value_blank by apply colon_space_blank. apply Hread; [lia|done].
Qed.

Lemma reads_value indent v : ∀ depth, json_ok v → reads (text_at indent depth v) v.
Proof.
  induction v as [| |b|n|s|l IH|o IH] using jval_ind; intros depth Hok.
  - done.
  - split; [by split|]. intros [|f] r ? ?; [lia|done].
  - destruct b; (split; [by split|]; intros [|f] r ? ?; [lia|done]).
  - unfold text_at. cbn [stringify_at default from_option id].
    assert (is_finite n = true) as -> by (simpl in Hok; unfold num_readable in Hok; by bool_to_prop).
    by apply reads_number.
  - by apply reads_string.
  - apply reads_array. simpl in Hok. rewrite foldr_and_Forall in Hok.
    rewrite Forall_forall in *. auto.
  - simpl in Hok. destruct Hok as (Hnd & Hord & Hok). rewrite foldr_and_Forall in Hok.
    apply reads_object; [done..| |]; rewrite Forall_forall in *; intros kv Hin.
    + by apply Hok.
    + split; [by apply stringify_ok, Hok|]. apply IH; [done|by apply Hok].
Qed.

(** Parsing the text of a representable value gives the value back. *)
Lemma JSON_roundtrip indent v :
  json_ok v → ∃ t, JSON_stringify indent v = Some t ∧ JSON_parse t = Some v.
Proof.
  intros Hok. exists (text_at indent 0 v). split; [by apply stringify_ok|].
  destruct (reads_value indent v 0 Hok) as [_ Hr]. unfold JSON_parse.
  specialize (Hr (S (length (text_at indent 0 v))) []). rewrite app_nil_r in Hr.
  rewrite Hr by (simpl; lia || done). done.
Qed.

(** Quoting a string and parsing it gives the string back. *)
Lemma JSON_parse_quote s : valid_units s → JSON_parse (quote s) = Some (JStr s).
Proof. intros Hs. destruct (JSON_roundtrip None (JStr s) Hs) as (t & [= <-] & ?). done. Qed.

(** [json_ok] as a test. *)
Fixpoint json_ok_b (v : jval) : bool :=
  match v with
  | JUndefined => false
  | JNull | JBool _ => true
  | JNum n => num_readable n
  | JStr s => forallb (λ c, c <? 65536)%N s
  | JArr l => forallb json_ok_b l
  | JObj o =>
    bool_decide (NoDup (okeys o)) && keys_ordered (okeys o) &&
    forallb (λ kv, forallb (λ c, c <? 65536)%N kv.1 && json_ok_b kv.2) o
  end.

Lemma valid_units_b s : forallb (λ c, c <? 65536)%N s = true → valid_units s.
Proof.
  rewrite forallb_forall. intros H. apply Forall_forall. intros c Hc.
  by apply N.ltb_lt, H, list_elem_of_In.
Qed.

Lemma json_ok_b_spec v : json_ok_b v = true → json_ok v.
Proof.
  induction v as [| |b|n|s|l IH|o IH] using jval_ind; simpl; try done.
  - apply valid_units_b.
  - rewrite forallb_forall, foldr_and_Forall. intros H. rewrite Forall_forall in *.
    intros x Hx. apply IH; [done|]. by apply H, list_elem_of_In.
  - intros H. bool_to_prop. split_and!; [done..|]. rewrite foldr_and_Forall.
    rewrite forallb_forall in H0. rewrite Forall_forall in *. intros kv Hkv.
    specialize (H0 kv ltac:(by apply list_elem_of_In)). bool_to_prop.
    split; [by apply valid_units_b|by apply IH].
Qed.

(** A blank text is no JSON. *)
Lemma JSON_parse_blank s : trim s = [] → JSON_parse s = None.
Proof.
  intros Hs%trim_nil_spaces. unfold JSON_parse.
  assert (parse_value (S (length s)) s = None) as ->; [|done]. cbn [parse_value].
  assert (Forall (λ c, is_space c = true) (skip_ws s)) as H.
  { clear -Hs. induction Hs as [|c s Hc Hs IH]; cbn [skip_ws]; [constructor|].
    destruct (is_json_space c); [done|]. by constructor. }
  destruct (skip_ws s) as [|c r]; [done|]. apply Forall_cons in H as [Hc _].
  assert (c ≠ 34 ∧ c ≠ cu "[" ∧ c ≠ cu "{" ∧ c ≠ cu "t" ∧ c ≠ cu "f" ∧ c ≠ cu "n" ∧ c ≠ cu "-" ∧ is_digit c = false)%N
    as (H1%N.eqb_neq & H2%N.eqb_neq & H3%N.eqb_neq & H4%N.eqb_neq & H5%N.eqb_neq & H6%N.eqb_neq & H7%N.eqb_neq & H8).
  { assert (∀ d, is_space d = false → c ≠ d) as Hd by (intros d Hd ->; congruence).
    split_and!; try by apply Hd. destruct (is_digit c) eqn:E; [|done].
    assert (all_digits [c] = true) as Hc' by (cbn; by rewrite E).
    apply all_digits_no_space in Hc'. apply Forall_cons in Hc' as [Hc' _]. simpl in Hc'. congruence. }
  rewrite H1, H2, H3. cbn [starts_with]. rewrite (N.eqb_sym 116), (N.eqb_sym 102), (N.eqb_sym 110).
  change (c =? 116)%N with (c =? cu "t")%N. change (c =? 102)%N with (c =? cu "f")%N.
  change (c =? 110)%N with (c =? cu "n")%N. rewrite H4, H5, H6. cbn [andb].
  unfold parse_number. change (c =? 45)%N with (c =? cu "-")%N. rewrite H7. cbn [span_digits]. rewrite H8.
  destruct (c =? 46)%N; [by destruct (span_digits r)|done].
Qed.

(** ** Texts of values and objects built field by field *)

Lemma stringify_reads indent v : json_ok v → JSON_parse (default [] (JSON_stringify indent v)) = Some v.
Proof. intros H. by destruct (JSON_roundtrip indent v H) as (t & -> & ?). Qed.

Lemma JSON_parse_nil : JSON_parse [] = None.
Proof. done. Qed.

Lemma stringify_nonempty indent v : json_ok v → default [] (JSON_stringify indent v) ≠ [].
Proof. intros H E. pose proof (stringify_reads indent v H) as Hr. by rewrite E, JSON_parse_nil in Hr. Qed.

(** The text of a value is not blank. *)
Lemma stringify_not_blank indent v : json_ok v → truthy (trim (default [] (JSON_stringify indent v))) = true.
Proof.
  intros H. pose proof (stringify_reads indent v H) as Hr. apply truthy_spec. intros E. by rewrite JSON_parse_blank in Hr.
Qed.

Lemma keys_ordered_snoc ks k : keys_ordered ks = true → is_index k = false → keys_ordered (ks ++ [k]) = true.
Proof.
  intros H Hk. induction ks as [|j ks IH]; cbn [app keys_ordered]; [by rewrite Hk|].
  cbn [keys_ordered] in H. apply andb_true_iff in H as [H1 H2]. rewrite IH by done. rewrite andb_true_r.
  destruct (is_index j); rewrite forallb_app, H1; cbn [forallb]; by rewrite Hk.
Qed.

Lemma json_ok_obj o : json_ok (JObj o) ↔
  NoDup (okeys o) ∧ keys_ordered (okeys o) = true ∧ Forall (λ kv, valid_units kv.1 ∧ json_ok kv.2) o.
Proof. cbn [json_ok]. by rewrite (foldr_and_Forall (λ kv, valid_units kv.1 ∧ json_ok kv.2)). Qed.

Lemma json_ok_arr l : json_ok (JArr l) ↔ Forall json_ok l.
Proof. apply foldr_and_Forall. Qed.

Lemma Forall_oset {V} (P : jstring * V → Prop) k v o : Forall P o → P (k, v) → Forall P (oset k v o).
Proof.
  intros Ho Hv. induction Ho as [|[j w] o Hw Ho IH]; cbn [oset]; [by constructor|]. case_bool_decide; subst; by constructor.
Qed.

Lemma json_ok_set k v o :
  is_index k = false → valid_units k → json_ok v → json_ok (JObj o) → json_ok (JObj (obj_set k v o)).
Proof.
  rewrite !json_ok_obj. intros Hk Hu Hv (H1 & H2 & H3). split; [by apply NoDup_okeys_obj_set|].
  destruct (oget k o) as [w|] eqn:E.
  - unfold obj_set, ohas. rewrite E, bool_decide_eq_true_2 by done. split; [|by apply Forall_oset].
    rewrite okeys_oset. unfold set_add. assert (k ∈ okeys o) as Hin by (apply elem_of_okeys; by rewrite E).
    by rewrite (proj2 (has_spec _ _) Hin).
  - rewrite obj_set_last by done. unfold okeys. rewrite fmap_app. split; [by apply keys_ordered_snoc|].
    apply Forall_app. split; [done|]. by constructor.
Qed.

Lemma Forall_odelete {V} (P : jstring * V → Prop) k o : Forall P o → Forall P (odelete k o).
Proof. intros H. induction H as [|[j w] o Hw Ho IH]; cbn [odelete]; [constructor|]. case_bool_decide; [done|]. by constructor. Qed.

Lemma keys_ordered_odelete {V} k (o : list (jstring * V)) : keys_ordered (okeys o) = true → keys_ordered (okeys (odelete k o)) = true.
Proof.
  unfold okeys. induction o as [|[j w] o IH]; [done|]. cbn [odelete fmap list_fmap fst keys_ordered].
  rewrite andb_true_iff. intros [H1 H2]. case_bool_decide; [done|]. cbn [fmap list_fmap fst keys_ordered]. rewrite IH by done.
  rewrite andb_true_r. assert (∀ p : jstring → bool, forallb p o.*1 = true → forallb p (odelete k o).*1 = true) as Hp.
  { intros p. rewrite !forallb_forall. intros Hf x Hx%list_elem_of_In. apply Hf, list_elem_of_In. by apply (elem_of_okeys_odelete x k). }
  destruct (is_index j); by apply Hp.
Qed.

Lemma json_ok_delete k o : json_ok (JObj o) → json_ok (JObj (odelete k o)).
Proof.
  rewrite !json_ok_obj. intros (H1 & H2 & H3). split_and!; [by apply NoDup_okeys_odelete|by apply keys_ordered_odelete|by apply Forall_odelete].
Qed.

Lemma valid_trim s : valid_units s → valid_units (trim s).
Proof. apply Forall_trim. Qed.

(** ** The numbers of a parsed text *)

(** Every number in the value is a number of the language. *)
Fixpoint numbers_ok (v : jval) : Prop :=
  match v with
  | JNum n => valid_num n = true
  | JArr l => foldr (λ x Q, numbers_ok x ∧ Q) True l
  | JObj o => foldr (λ kv Q, numbers_ok kv.2 ∧ Q) True o
  | _ => True
  end.

Lemma numbers_ok_arr l : numbers_ok (JArr l) ↔ Forall numbers_ok l.
Proof. apply foldr_and_Forall. Qed.

Lemma numbers_ok_obj o : numbers_ok (JObj o) ↔ Forall (λ kv, numbers_ok kv.2) o.
Proof. apply (foldr_and_Forall (λ kv, numbers_ok kv.2)). Qed.

Lemma numbers_ok_member k v : numbers_ok v → numbers_ok (member k v).
Proof.
  destruct v as [| | | | | |o]; try done. rewrite numbers_ok_obj. unfold member.
  induction 1 as [|[k' v] o Hv Ho IH]; [done|]. simpl. by destruct (bool_decide (k = k')).
Qed.

Lemma to_number_valid v : numbers_ok v → valid_num (to_number v) = true.
Proof. destruct v as [| |[]|n|s|l|o]; try done; intros _; apply Number_of_string_valid. Qed.

Lemma obj_set_values {V} (P : V → Prop) k v o :
  P v → Forall (λ kv : jstring * V, P kv.2) o → Forall (λ kv, P kv.2) (obj_set k v o).
Proof.
  intros Hv Ho. unfold obj_set. destruct (ohas k o); induction Ho as [|[k' v'] o Hv' Ho IH]; simpl.
  - by apply Forall_cons.
  - destruct (bool_decide (k = k')); by apply Forall_cons.
  - by apply Forall_cons.
  - destruct (is_index k && _); repeat (apply Forall_cons; split); done.
Qed.

Lemma obj_of_entries_values {V} (P : V → Prop) (kvs : list (jstring * V)) :
  Forall (λ kv, P kv.2) kvs → Forall (λ kv, P kv.2) (obj_of_entries kvs).
Proof.
  intros Hk. unfold obj_of_entries. assert (Forall (λ kv : jstring * V, P kv.2) []) as H by constructor.
  revert H. generalize (@nil (jstring * V)). induction Hk as [|[k v] kvs Hv Hk IH]; intros o Ho; [done|].
  apply IH, obj_set_values; done.
Qed.

Section parsed.
Variable pv : jstring → option (jval * jstring).
Hypothesis pv_ok : ∀ s v r, pv s = Some (v, r) → numbers_ok v.

Lemma parse_elements_ok fuel s l r : parse_elements pv fuel s = Some (l, r) → Forall numbers_ok l.
Proof.
  revert s l r. induction fuel as [|f IH]; intros s l r; [done|]. simpl.
  destruct (pv s) as [[v r1]|] eqn:E; [|done]. cbn [mbind option_bind]. apply pv_ok in E.
  destruct (skip_ws r1) as [|c r2]; [done|]. destruct (c =? _)%N.
  - destruct (parse_elements pv f r2) as [[vs r3]|] eqn:E2; [|done]. intros [= <- _]. constructor; [done|].
    by eapply IH.
  - destruct (c =? _)%N; [|done]. intros [= <- _]. by repeat constructor.
Qed.

Lemma parse_members_ok fuel s l r :
  parse_members pv fuel s = Some (l, r) → Forall (λ kv, numbers_ok kv.2) l.
Proof.
  revert s l r. induction fuel as [|f IH]; intros s l r; [done|]. simpl.
  destruct (skip_ws s) as [|q r1]; [done|]. destruct (q =? 34)%N; [|done].
  destruct (parse_string_body r1) as [[k r2]|]; [|done]. cbn [mbind option_bind].
  destruct (skip_ws r2) as [|c r3]; [done|]. destruct (c =? _)%N; [|done].
  destruct (pv r3) as [[v r4]|] eqn:E; [|done]. cbn [mbind option_bind]. apply pv_ok in E.
  destruct (skip_ws r4) as [|d r5]; [done|]. destruct (d =? _)%N.
  - destruct (parse_members pv f r5) as [[kvs r6]|] eqn:E2; [|done]. intros [= <- _]. constructor; [done|].
    by eapply IH.
  - destruct (d =? _)%N; [|done]. intros [= <- _]. by repeat constructor.
Qed.
End parsed.

Lemma parse_number_num s v r : parse_number s = Some (v, r) → ∃ n, v = JNum n ∧ valid_num n = true.
Proof.
  unfold parse_number. destruct (match s with [] => _ | _ => _ end) as [neg r0].
  destruct (span_digits r0) as [ip r1].
  destruct (match r1 with [] => _ | _ => _ end) as [[fp r2] ok]. destruct (_ && _); [|done].
  destruct (parse_exponent r2). intros [= <- _]. eexists. split; [done|apply of_decimal_valid].
Qed.

Lemma parse_number_ok s v r : parse_number s = Some (v, r) → numbers_ok v.
Proof. by intros (n & -> & Hn)%parse_number_num. Qed.

Lemma parse_value_ok fuel s v r : parse_value fuel s = Some (v, r) → numbers_ok v.
Proof.
  revert s v r. induction fuel as [|f IH]; intros s v r; [done|]. cbn [parse_value].
  destruct (skip_ws s) as [|c t]; [done|]. destruct (c =? 34)%N.
  { destruct (parse_string_body t) as [[body rest]|]; [|done]. by intros [= <- _]. }
  destruct (c =? cu "[")%N.
  { destruct (skip_ws t) as [|d r']; [done|]. destruct (d =? _)%N; [by intros [= <- _]|].
    destruct (parse_elements _ f t) as [[vs rest]|] eqn:E; [|done]. intros [= <- _].
    apply numbers_ok_arr. by eapply parse_elements_ok. }
  destruct (c =? cu "{")%N.
  { destruct (skip_ws t) as [|d r']; [done|]. destruct (d =? _)%N; [by intros [= <- _]|].
    destruct (parse_members _ f t) as [[vs rest]|] eqn:E; [|done]. intros [= <- _].
    apply numbers_ok_obj, obj_of_entries_values. by eapply parse_members_ok. }
  do 3 (destruct (starts_with _ _); [by intros [= <- _]|]). apply parse_number_ok.
Qed.

Lemma JSON_parse_ok s v : JSON_parse s = Some v → numbers_ok v.
Proof.
  unfold JSON_parse. destruct (parse_value _ s) as [[w rest]|] eqn:E; [|done]. cbn [mbind option_bind].
  destruct (skip_ws rest); [|done]. intros [= <-]. by eapply parse_value_ok.
Qed.

(** The keys of a parsed object are distinct. *)
Lemma parse_value_keys fuel s o r : parse_value fuel s = Some (JObj o, r) → NoDup (okeys o).
Proof.
  destruct fuel as [|f]; [done|]. cbn [parse_value]. destruct (skip_ws s) as [|c t]; [done|].
  destruct (c =? 34)%N; [by destruct (parse_string_body t) as [[]|]|].
  destruct (c =? cu "[")%N.
  { destruct (skip_ws t) as [|d u]; [done|]. destruct (d =? cu "]")%N; [by intros [= ]|].
    by destruct (parse_elements (parse_value f) f t) as [[]|]. }
  destruct (c =? cu "{")%N.
  { destruct (skip_ws t) as [|d u]; [done|]. destruct (d =? cu "}")%N; [intros [= <- _]; apply NoDup_nil_2|].
    destruct (parse_members (parse_value f) f t) as [[kvs rest]|]; [|done]. intros [= <- _].
    apply (NoDup_okeys_obj_spread [] kvs), NoDup_nil_2. }
  destruct (starts_with "true" _); [done|]. destruct (starts_with "false" _); [done|].
  destruct (starts_with "null" _); [done|]. intros H. exfalso. revert H.
  unfold parse_number. generalize (c :: t) as u. intros u.
  cbv zeta. repeat case_match; congruence.
Qed.

Lemma JSON_parse_keys s o : JSON_parse s = Some (JObj o) → NoDup (okeys o).
Proof.
  unfold JSON_parse. destruct (parse_value _ s) as [[v rest]|] eqn:E; [|done]. cbn [mbind option_bind].
  destruct (skip_ws rest); [|done]. intros [= ->]. by eapply parse_value_keys.
Qed.

Lemma parse_value_defined fuel s v r : parse_value fuel s = Some (v, r) → v ≠ JUndefined.
Proof.
  destruct fuel as [|f]; [done|]. cbn [parse_value]. destruct (skip_ws s) as [|c t]; [done|]. destruct (c =? 34)%N.
  { destruct (parse_string_body t) as [[body rest]|]; [|done]. by intros [= <- _]. }
  destruct (c =? cu "[")%N.
  { destruct (skip_ws t) as [|d r']; [done|]. destruct (d =? _)%N; [by intros [= <- _]|].
    destruct (parse_elements _ f t) as [[vs rest]|]; [|done]. by intros [= <- _]. }
  destruct (c =? cu "{")%N.
  { destruct (skip_ws t) as [|d r']; [done|]. destruct (d =? _)%N; [by intros [= <- _]|].
    destruct (parse_members _ f t) as [[vs rest]|]; [|done]. by intros [= <- _]. }
  do 3 (destruct (starts_with _ _); [by intros [= <- _]|]). by intros (n & -> & _)%parse_number_num.
Qed.

Lemma JSON_parse_defined s v : JSON_parse s = Some v → v ≠ JUndefined.
Proof.
  unfold JSON_parse. destruct (parse_value _ s) as [[w rest]|] eqn:E; [|done]. cbn [mbind option_bind].
  destruct (skip_ws rest); [|done]. intros [= <-]. by eapply parse_value_defined.
Qed.
