(* ===== verification/JsRegex.v ===== *)
(** * JsRegex: regular expressions with the language's backtracking semantics

    A pattern is matched by continuation passing, alternatives and repetitions
    in the order the language tries them, with captures and back-references.
    An iteration of a repetition that consumes nothing is refused, as in the
    language, so the length of the text bounds every loop. *)
From S2P Require Import Prelude JsString JsNumber.

Inductive regex :=
  | REmpty
  | RLit (w : jstring)
  | RChar (p : N → bool)
  | RSeq (a b : regex)
  | RAlt (a b : regex)
  | RStar (a : regex)                (** greedy repetition *)
  | RLazy (a : regex)                (** lazy repetition *)
  | RGroup (n : nat) (a : regex)     (** capturing group [n] *)
  | RBack (n : nat)                  (** back-reference to group [n] *)
  | RBol                             (** [^] *)
  | REol                             (** [$] *)
  | RWordB                           (** [\b] *)
  | RBolM                            (** [^] with the [m] flag *)
  | REolM.                           (** [$] with the [m] flag *)

Definition RPlus (a : regex) : regex := RSeq a (RStar a).
Definition ROpt (a : regex) : regex := RAlt a REmpty.
Definition RSeqs (l : list regex) : regex := foldr RSeq REmpty l.
Definition RAlts (l : list regex) : regex :=
  match reverse l with
  | [] => REmpty
  | x :: r => foldl (λ acc y, RAlt y acc) x r
  end.

(** A position in the text: what is before it, reversed, what is left, and the
    captures so far, the latest first. *)
Record rstate := mkState {
  rbefore : jstring;
  rrest : jstring;
  rcaps : list (nat * jstring);
}.

Definition advance (n : nat) (s : rstate) : rstate :=
  mkState (reverse (take n (rrest s)) ++ rbefore s) (drop n (rrest s)) (rcaps s).

Definition is_word (c : N) : bool :=
  is_digit c || ((65 <=? c) && (c <=? 90) || (97 <=? c) && (c <=? 122) || (c =? 95))%N.

(** LF, CR, LS, PS *)
Definition is_line_end (c : N) : bool := ((c =? 10) || (c =? 13) || (c =? 8232) || (c =? 8233))%N.

Definition head_is (p : N → bool) (s : jstring) : bool :=
  match s with c :: _ => p c | [] => false end.

Fixpoint groups_of (r : regex) : list nat :=
  match r with
  | RSeq a b | RAlt a b => groups_of a ++ groups_of b
  | RStar a | RLazy a => groups_of a
  | RGroup n a => n :: groups_of a
  | _ => []
  end.

(** The captures of a group inside a repetition are reset at each iteration. *)
Definition clear_caps (gs : list nat) (s : rstate) : rstate :=
  mkState (rbefore s) (rrest s) (filter (λ c, c.1 ∉ gs) (rcaps s)).

Definition capture (n : nat) (s : rstate) : option jstring := oget n (rcaps s).

(** The loop of a greedy repetition: one more iteration if it matches and
    consumes, else the continuation. *)
Fixpoint star_loop {A} (body : (rstate → option A) → rstate → option A) (gs : list nat)
  (fuel : nat) (k : rstate → option A) (s : rstate) : option A :=
  match fuel with
  | O => k s
  | S f =>
    match body (λ s', if bool_decide (length (rrest s') < length (rrest s))
                      then star_loop body gs f k s' else None) (clear_caps gs s) with
    | Some x => Some x
    | None => k s
    end
  end.

(** The loop of a lazy repetition: the continuation, else one more iteration. *)
Fixpoint lazy_loop {A} (body : (rstate → option A) → rstate → option A) (gs : list nat)
  (fuel : nat) (k : rstate → option A) (s : rstate) : option A :=
  match k s with
  | Some x => Some x
  | None =>
    match fuel with
    | O => None
    | S f => body (λ s', if bool_decide (length (rrest s') < length (rrest s))
                         then lazy_loop body gs f k s' else None) (clear_caps gs s)
    end
  end.

Fixpoint rmatch {A} (r : regex) (k : rstate → option A) (s : rstate) : option A :=
  match r with
  | REmpty => k s
  | RLit w => if starts_with w (rrest s) then k (advance (length w) s) else None
  | RChar p => if head_is p (rrest s) then k (advance 1 s) else None
  | RSeq a b => rmatch a (rmatch b k) s
  | RAlt a b => match rmatch a k s with Some x => Some x | None => rmatch b k s end
  | RStar a => star_loop (rmatch a) (groups_of a) (length (rrest s)) k s
  | RLazy a => lazy_loop (rmatch a) (groups_of a) (length (rrest s)) k s
  | RGroup n a =>
    rmatch a (λ s', k (mkState (rbefore s') (rrest s')
      ((n, reverse (take (length (rbefore s') - length (rbefore s)) (rbefore s'))) :: rcaps s'))) s
  | RBack n =>
    match capture n s with
    | Some w => if starts_with w (rrest s) then k (advance (length w) s) else None
    | None => k s
    end
  | RBol => match rbefore s with [] => k s | _ => None end
  | REol => match rrest s with [] => k s | _ => None end
  | RWordB => if xorb (head_is is_word (rbefore s)) (head_is is_word (rrest s)) then k s else None
  | RBolM => match rbefore s with
             | [] => k s | c :: _ => if is_line_end c then k s else None end
  | REolM => match rrest s with
             | [] => k s | c :: _ => if is_line_end c then k s else None end
  end.

(** The start and the end state of a match. *)
Record rmatched := { m_index : nat; m_text : jstring; m_end : rstate }.

Definition m_group (n : nat) (m : rmatched) : option jstring := capture n (m_end m).

(** The text of a group, empty when it did not take part. *)
Definition mg (n : nat) (m : rmatched) : jstring := default [] (m_group n m).

(** A match that starts exactly at the given position. *)
Definition match_here (r : regex) (before rest : jstring) : option rmatched :=
  s ← rmatch r Some (mkState before rest []);
  let len := length (rbefore s) - length before in
  Some {| m_index := length before; m_text := take len rest; m_end := s |}.

(** The first match at or after a position: [r.exec] with [lastIndex]. *)
Fixpoint exec_from (r : regex) (before rest : jstring) : option rmatched :=
  match match_here r before rest with
  | Some m => Some m
  | None => match rest with
            | [] => None
            | c :: t => exec_from r (c :: before) t
            end
  end.

Definition exec (r : regex) (s : jstring) : option rmatched := exec_from r [] s.
Definition test (r : regex) (s : jstring) : bool := bool_decide (is_Some (exec r s)).

(** All the successive matches of a global pattern; after an empty match the
    next attempt starts one unit further. *)
Fixpoint exec_all (fuel : nat) (r : regex) (before rest : jstring) : list rmatched :=
  match fuel with
  | O => []
  | S f =>
    match exec_from r before rest with
    | None => []
    | Some m =>
      let s := m_end m in
      m :: match m_text m, rrest s with
           | [], [] => []
           | [], c :: t => exec_all f r (c :: rbefore s) t
           | _, t => exec_all f r (rbefore s) t
           end
    end
  end.

Definition match_all (r : regex) (s : jstring) : list rmatched := exec_all (S (length s)) r [] s.

(** The pieces of a text between matches, from a position on. *)
Fixpoint split_pieces (s : jstring) (from : nat) (ms : list rmatched) : list jstring :=
  match ms with
  | [] => [drop from s]
  | m :: ms => slice_nat from (m_index m) s :: split_pieces s (m_index m + length (m_text m)) ms
  end.

(** [s.split(r)] for a pattern without captures that matches no empty text. *)
Definition split_regex (r : regex) (s : jstring) : list jstring := split_pieces s 0 (match_all r s).

(** [s.replace(r, t)] with the [g] flag. *)
Definition replace_all (r : regex) (t : jstring) (s : jstring) : jstring := join t (split_regex r s).

(** [s.replace(r, f)] without the [g] flag: the first match is replaced. *)
Definition replace_first (r : regex) (f : rmatched → jstring) (s : jstring) : jstring :=
  match exec r s with
  | None => s
  | Some m => take (m_index m) s ++ f m ++ drop (m_index m + length (m_text m)) s
  end.

(** ** Character classes *)

Definition one_of (w : jstring) (c : N) : bool := existsb (N.eqb c) w.
Definition none_of (w : jstring) (c : N) : bool := negb (one_of w c).
Definition not_line_end (c : N) : bool := negb (is_line_end c).
Definition any_unit (c : N) : bool := true.

(** A literal with the [i] flag. *)
Definition RLitI (w : jstring) : regex :=
  RSeqs (map (λ c, RChar (λ d, (ascii_lower d =? ascii_lower c)%N)) w).

Definition RSpaces : regex := RStar (RChar is_space).

Example star_backtracks :
  m_group 1 <$> exec (RSeqs [RBol; RLit "("; RGroup 1 (RPlus (RChar any_unit)); RLit " ? 1"; REol]) "(a ? 1 ? 1"
  = Some (Some "a ? 1").
Proof. vm_compute. reflexivity. Qed.

(** ** Lemmas *)

Section lemmas.
Context {A : Type}.
Implicit Types (k : rstate → option A) (s : rstate).

Lemma rmatch_seq a b k s : rmatch (RSeq a b) k s = rmatch a (rmatch b k) s.
Proof. done. Qed.

Lemma rmatch_alt a b k s :
  rmatch (RAlt a b) k s = match rmatch a k s with Some x => Some x | None => rmatch b k s end.
Proof. done. Qed.

Lemma rmatch_group n a k s :
  rmatch (RGroup n a) k s =
  rmatch a (λ s', k (mkState (rbefore s') (rrest s')
    ((n, reverse (take (length (rbefore s') - length (rbefore s)) (rbefore s'))) :: rcaps s'))) s.
Proof. done. Qed.

Lemma rmatch_lit_app w b r cs k :
  rmatch (RLit w) k (mkState b (w ++ r) cs) = k (mkState (reverse w ++ b) r cs).
Proof.
  cbn [rmatch rrest]. rewrite starts_with_app. unfold advance. cbn [rrest rbefore rcaps].
  by rewrite take_app_length, drop_app_length.
Qed.

Lemma rmatch_lit_fail w k s : starts_with w (rrest s) = false → rmatch (RLit w) k s = None.
Proof. intros H. cbn [rmatch]. by rewrite H. Qed.

Lemma rmatch_back_app n w b r cs k :
  capture n (mkState b (w ++ r) cs) = Some w →
  rmatch (RBack n) k (mkState b (w ++ r) cs) = k (mkState (reverse w ++ b) r cs).
Proof. intros H. cbn [rmatch]. rewrite H. apply rmatch_lit_app. Qed.

Lemma clear_caps_nil s : clear_caps [] s = s.
Proof.
  destruct s as [b r cs]. unfold clear_caps. cbn [rbefore rrest rcaps]. f_equal.
  induction cs as [|c cs IH]; [done|]. rewrite filter_cons, decide_True, IH;
    [done|apply not_elem_of_nil].
Qed.

(** One step of the repetition of a class. *)
Lemma star_char_step p f k b t cs :
  star_loop (rmatch (RChar p)) [] (S f) k (mkState b t cs) =
  match t with
  | c :: t' =>
    if p c then match star_loop (rmatch (RChar p)) [] f k (mkState (c :: b) t' cs) with
                | Some x => Some x | None => k (mkState b t cs) end
    else k (mkState b t cs)
  | [] => k (mkState b t cs)
  end.
Proof.
  cbn [star_loop]. rewrite clear_caps_nil. cbn [rrest]. destruct t as [|c t]; [done|].
  change (rmatch (RChar p) ?k' (mkState b (c :: t) cs))
    with (if p c then k' (mkState (c :: b) t cs) else None).
  destruct (p c); [|done]. cbn [rrest]. by rewrite bool_decide_eq_true_2 by apply Nat.lt_succ_diag_r.
Qed.

(** When the continuation refuses every shorter prefix, the outcome of a run
    is the outcome of the continuation after the whole run. *)
Lemma star_char_det p b w r cs k :
  Forall (λ c, p c = true) w → head_is p r = false →
  (∀ w1 w2, w = w1 ++ w2 → w2 ≠ [] → k (mkState (reverse w1 ++ b) (w2 ++ r) cs) = None) →
  rmatch (RStar (RChar p)) k (mkState b (w ++ r) cs) = k (mkState (reverse w ++ b) r cs).
Proof.
  intros Hw Hr Hk. cbn [rmatch rrest groups_of].
  assert (∀ fuel, length w ≤ fuel →
    star_loop (rmatch (RChar p)) [] fuel k (mkState b (w ++ r) cs)
    = k (mkState (reverse w ++ b) r cs)) as Hgo; [|apply Hgo; rewrite length_app; lia].
  revert b Hk. induction Hw as [|c w Hc Hw IH]; intros b Hk fuel Hf.
  - destruct fuel as [|f]; [done|]. rewrite star_char_step.
    destruct r as [|d r]; [done|]. simpl in Hr. cbn [app]. by rewrite Hr.
  - destruct fuel as [|f]; [simpl in Hf; lia|].
    rewrite star_char_step. cbn [app]. rewrite Hc, IH; [| |simpl in Hf; lia].
    + rewrite reverse_cons, <- app_assoc. simpl.
      destruct (k _) eqn:E; [done|]. pose proof (Hk [] (c :: w) eq_refl) as H0. by apply H0.
    + intros w1 w2 -> Hne. specialize (Hk (c :: w1) w2 eq_refl Hne).
      by rewrite reverse_cons, <- app_assoc in Hk.
Qed.

(** The longest run is taken when the continuation accepts it. *)
Lemma star_char_run p b w r cs k x :
  Forall (λ c, p c = true) w → head_is p r = false →
  k (mkState (reverse w ++ b) r cs) = Some x →
  rmatch (RStar (RChar p)) k (mkState b (w ++ r) cs) = Some x.
Proof.
  intros Hw Hr Hk. cbn [rmatch rrest groups_of].
  assert (∀ fuel, length w ≤ fuel →
    star_loop (rmatch (RChar p)) [] fuel k (mkState b (w ++ r) cs) = Some x) as Hgo;
    [|apply Hgo; rewrite length_app; lia].
  revert b Hk. induction Hw as [|c w Hc Hw IH]; intros b Hk fuel Hf.
  - destruct fuel as [|f]; [done|]. rewrite star_char_step.
    destruct r as [|d r]; [done|]. simpl in Hr. cbn [app]. by rewrite Hr.
  - destruct fuel as [|f]; [simpl in Hf; lia|].
    rewrite star_char_step. cbn [app]. rewrite Hc, IH; [done| |simpl in Hf; lia].
    by rewrite reverse_cons, <- app_assoc in Hk.
Qed.

(** The same, for a class or another pattern that does not match after the run. *)
Lemma star_alt_run p a b w r cs k x :
  Forall (λ c, p c = true) w → head_is p r = false → groups_of a = [] →
  (∀ k' b', rmatch a k' (mkState b' r cs) = @None A) →
  k (mkState (reverse w ++ b) r cs) = Some x →
  rmatch (RStar (RAlt (RChar p) a)) k (mkState b (w ++ r) cs) = Some x.
Proof.
  intros Hw Hr Hg Ha Hk. cbn [rmatch rrest groups_of]. rewrite Hg. cbn [app].
  assert (∀ fuel, length w ≤ fuel →
    star_loop (rmatch (RAlt (RChar p) a)) [] fuel k (mkState b (w ++ r) cs) = Some x) as Hgo;
    [|apply Hgo; rewrite length_app; lia].
  revert b Hk. induction Hw as [|c w Hc Hw IH]; intros b Hk [|f] Hf; [done| |simpl in Hf; lia|].
  - cbn [star_loop]. rewrite clear_caps_nil, rmatch_alt. cbn [app reverse] in *.
    rewrite Ha. cbn [rmatch rrest]. by rewrite Hr.
  - cbn [star_loop]. rewrite clear_caps_nil, rmatch_alt.
    change (rmatch (RChar p) ?k' (mkState b ((c :: w) ++ r) cs))
      with (if p c then k' (mkState (c :: b) (w ++ r) cs) else None).
    rewrite Hc. cbn [rrest]. rewrite bool_decide_eq_true_2 by apply Nat.lt_succ_diag_r.
    rewrite IH; [done| |simpl in Hf; lia]. by rewrite reverse_cons, <- app_assoc in Hk.
Qed.

(** No run is accepted but the empty one. *)
Lemma star_char_none p b w r cs k fuel :
  Forall (λ c, p c = true) w → head_is p r = false →
  (∀ w1 w2, w = w1 ++ w2 → w1 ≠ [] → k (mkState (reverse w1 ++ b) (w2 ++ r) cs) = None) →
  star_loop (rmatch (RChar p)) [] fuel k (mkState b (w ++ r) cs) = k (mkState b (w ++ r) cs).
Proof.
  intros Hw Hr. revert b fuel. induction Hw as [|c w Hc Hw IH]; intros b fuel Hk.
  - destruct fuel as [|f]; [done|]. rewrite star_char_step.
    destruct r as [|d r]; [done|]. simpl in Hr. cbn [app]. by rewrite Hr.
  - destruct fuel as [|f]; [done|]. rewrite star_char_step. cbn [app]. rewrite Hc, IH.
    + assert (k (mkState (c :: b) (w ++ r) cs) = None) as ->; [by apply (Hk [c] w)|done].
    + intros w1 w2 -> Hne. specialize (Hk (c :: w1) w2 eq_refl).
      rewrite reverse_cons, <- app_assoc in Hk. by apply Hk.
Qed.

(** The longest accepted prefix of a run is taken. *)
Lemma star_char_pick p b w1 w2 r cs k x :
  Forall (λ c, p c = true) (w1 ++ w2) → head_is p r = false →
  (∀ u v, w2 = u ++ v → u ≠ [] → k (mkState (reverse u ++ reverse w1 ++ b) (v ++ r) cs) = None) →
  k (mkState (reverse w1 ++ b) (w2 ++ r) cs) = Some x →
  rmatch (RStar (RChar p)) k (mkState b (w1 ++ w2 ++ r) cs) = Some x.
Proof.
  intros Hw Hr Hn Hk. cbn [rmatch rrest groups_of].
  assert (∀ fuel, length w1 ≤ fuel →
    star_loop (rmatch (RChar p)) [] fuel k (mkState b (w1 ++ w2 ++ r) cs) = Some x) as Hgo;
    [|apply Hgo; rewrite length_app; lia].
  revert b Hn Hk. apply Forall_app in Hw as [Hw1 Hw2].
  induction Hw1 as [|c w1 Hc Hw1 IH]; intros b Hn Hk fuel Hf.
  - cbn [app] in *. rewrite star_char_none; [done..|]. intros u v -> Hu.
    specialize (Hn u v eq_refl Hu). done.
  - destruct fuel as [|f]; [simpl in Hf; lia|].
    rewrite star_char_step. cbn [app]. rewrite Hc, IH; [done| | |simpl in Hf; lia].
    + intros u v -> Hu. specialize (Hn u v eq_refl Hu). by rewrite reverse_cons, <- app_assoc in Hn.
    + by rewrite reverse_cons, <- app_assoc in Hk.
Qed.

(** A lazy repetition of a class takes the shortest run the continuation accepts. *)
Lemma lazy_char_run p b w r cs k x :
  Forall (λ c, p c = true) w →
  (∀ w1 w2, w = w1 ++ w2 → w2 ≠ [] → k (mkState (reverse w1 ++ b) (w2 ++ r) cs) = None) →
  k (mkState (reverse w ++ b) r cs) = Some x →
  rmatch (RLazy (RChar p)) k (mkState b (w ++ r) cs) = Some x.
Proof.
  intros Hw Hn Hk. cbn [rmatch rrest groups_of].
  assert (∀ fuel, length w ≤ fuel →
    lazy_loop (rmatch (RChar p)) [] fuel k (mkState b (w ++ r) cs) = Some x) as Hgo;
    [|apply Hgo; rewrite length_app; lia].
  revert b Hn Hk. induction Hw as [|c w Hc Hw IH]; intros b Hn Hk fuel Hf.
  - change (reverse [] ++ b) with b in Hk. destruct fuel; cbn [lazy_loop app]; by rewrite Hk.
  - destruct fuel as [|f]; [simpl in Hf; lia|]. cbn [lazy_loop].
    pose proof (Hn [] (c :: w) eq_refl ltac:(done)) as H0. change (reverse [] ++ b) with b in H0. cbn [app] in *.
    rewrite H0, clear_caps_nil.
    change (rmatch (RChar p) ?k' (mkState b (c :: w ++ r) cs))
      with (if p c then k' (mkState (c :: b) (w ++ r) cs) else None).
    rewrite Hc. cbn [rrest]. rewrite bool_decide_eq_true_2 by apply Nat.lt_succ_diag_r.
    apply IH; [| |simpl in Hf; lia].
    + intros w1 w2 -> Hne. specialize (Hn (c :: w1) w2 eq_refl Hne). by rewrite reverse_cons, <- app_assoc in Hn.
    + by rewrite reverse_cons, <- app_assoc in Hk.
Qed.

(** A lazy repetition fails when the continuation refuses every run. *)
Lemma lazy_char_none p b t cs k :
  (∀ w1 w2, t = w1 ++ w2 → k (mkState (reverse w1 ++ b) w2 cs) = None) →
  rmatch (RLazy (RChar p)) k (mkState b t cs) = None.
Proof.
  change (rmatch (RLazy (RChar p)) k (mkState b t cs))
    with (lazy_loop (rmatch (RChar p)) [] (length t) k (mkState b t cs)).
  generalize (length t) as fuel. intros fuel. revert b t.
  induction fuel as [|f IH]; intros b t Hn; cbn [lazy_loop];
    rewrite (Hn [] t eq_refl : k (mkState b t cs) = None); [done|].
  rewrite clear_caps_nil. destruct t as [|c t]; [done|].
  change (rmatch (RChar p) ?k' (mkState b (c :: t) cs)) with (if p c then k' (mkState (c :: b) t cs) else None).
  destruct (p c); [|done]. cbn [rrest]. rewrite bool_decide_eq_true_2 by apply Nat.lt_succ_diag_r.
  apply IH. intros w1 w2 ->. specialize (Hn (c :: w1) w2 eq_refl). by rewrite reverse_cons, <- app_assoc in Hn.
Qed.

(** The text a group has read. *)
Lemma group_text (w b : jstring) :
  reverse (take (length (reverse w ++ b) - length b) (reverse w ++ b)) = w.
Proof.
  rewrite length_app, Nat.add_sub, take_app_length. apply reverse_involutive.
Qed.

(** A group that reads a non-empty run of a class up to a unit outside it. *)
Lemma group_plus_det n p b w r cs k :
  w ≠ [] → Forall (λ c, p c = true) w → head_is p r = false →
  (∀ w1 w2, w = w1 ++ w2 → w1 ≠ [] → w2 ≠ [] →
     k (mkState (reverse w1 ++ b) (w2 ++ r) ((n, w1) :: cs)) = None) →
  rmatch (RGroup n (RPlus (RChar p))) k (mkState b (w ++ r) cs)
  = k (mkState (reverse w ++ b) r ((n, w) :: cs)).
Proof.
  intros Hne Hw Hr Hk. destruct w as [|c w]; [done|]. apply Forall_cons in Hw as [Hc Hw].
  cbn [rmatch rbefore]. change (rmatch (RPlus (RChar p)) ?k' (mkState b ((c :: w) ++ r) cs))
    with (if p c then rmatch (RStar (RChar p)) k' (mkState (c :: b) (w ++ r) cs) else None).
  rewrite Hc. rewrite star_char_det; [|done|done|].
  - cbn [rbefore rrest rcaps]. assert (reverse w ++ c :: b = reverse (c :: w) ++ b) as ->
      by (by rewrite reverse_cons, <- app_assoc). by rewrite group_text.
  - intros w1 w2 -> Hne2. cbn [rbefore rrest rcaps].
    assert (reverse w1 ++ c :: b = reverse (c :: w1) ++ b) as ->
      by (by rewrite reverse_cons, <- app_assoc). rewrite group_text. by apply Hk.
Qed.

(** A group that reads a non-empty run of a class, of which the continuation
    accepts no prefix longer than [w1]. *)
Lemma group_plus_pick n p b w1 w2 r cs k x :
  w1 ≠ [] → Forall (λ c, p c = true) (w1 ++ w2) → head_is p r = false →
  (∀ u v, w2 = u ++ v → u ≠ [] →
     k (mkState (reverse (w1 ++ u) ++ b) (v ++ r) ((n, w1 ++ u) :: cs)) = None) →
  k (mkState (reverse w1 ++ b) (w2 ++ r) ((n, w1) :: cs)) = Some x →
  rmatch (RGroup n (RPlus (RChar p))) k (mkState b (w1 ++ w2 ++ r) cs) = Some x.
Proof.
  intros Hne Hw Hr Hn Hk. destruct w1 as [|c w]; [done|]. cbn [app] in Hw. apply Forall_cons in Hw as [Hc Hw].
  cbn [rmatch rbefore]. change (rmatch (RPlus (RChar p)) ?k' (mkState b ((c :: w) ++ w2 ++ r) cs))
    with (if p c then rmatch (RStar (RChar p)) k' (mkState (c :: b) (w ++ w2 ++ r) cs) else None).
  rewrite Hc. apply star_char_pick; [done|done| |].
  - intros u v E Hu. cbn [rbefore rrest rcaps].
    assert (reverse u ++ reverse w ++ c :: b = reverse ((c :: w) ++ u) ++ b) as ->
      by (by rewrite reverse_app, reverse_cons, <- !app_assoc). rewrite group_text. by apply Hn.
  - cbn [rbefore rrest rcaps]. assert (reverse w ++ c :: b = reverse (c :: w) ++ b) as ->
      by (by rewrite reverse_cons, <- app_assoc). by rewrite group_text.
Qed.

Lemma group_plus_run n p b w r cs k x :
  w ≠ [] → Forall (λ c, p c = true) w → head_is p r = false →
  k (mkState (reverse w ++ b) r ((n, w) :: cs)) = Some x →
  rmatch (RGroup n (RPlus (RChar p))) k (mkState b (w ++ r) cs) = Some x.
Proof.
  intros Hne Hw Hr Hk. destruct w as [|c w]; [done|]. apply Forall_cons in Hw as [Hc Hw].
  cbn [rmatch rbefore]. change (rmatch (RPlus (RChar p)) ?k' (mkState b ((c :: w) ++ r) cs))
    with (if p c then rmatch (RStar (RChar p)) k' (mkState (c :: b) (w ++ r) cs) else None).
  rewrite Hc. apply star_char_run; [done|done|].
  cbn [rbefore rrest rcaps]. assert (reverse w ++ c :: b = reverse (c :: w) ++ b) as ->
      by (by rewrite reverse_cons, <- app_assoc). by rewrite group_text.
Qed.
End lemmas.

(** ** Anchored patterns *)

Lemma exec_from_anchored r c before rest : exec_from (RSeq RBol r) (c :: before) rest = None.
Proof. revert c before. induction rest as [|d rest IH]; intros c before; simpl; [done|apply IH]. Qed.

(** Positions where the pattern does not match are skipped. *)
Lemma exec_from_skip r before w rest :
  (∀ w1 w2, w = w1 ++ w2 → w2 ≠ [] → match_here r (reverse w1 ++ before) (w2 ++ rest) = None) →
  exec_from r before (w ++ rest) = exec_from r (reverse w ++ before) rest.
Proof.
  revert before. induction w as [|c w IH]; intros before H; [done|]. cbn [app exec_from].
  pose proof (H [] (c :: w) eq_refl ltac:(done)) as H0. change (reverse [] ++ before) with before in H0.
  cbn [app] in H0. rewrite H0.
  rewrite IH; [by rewrite reverse_cons, <- app_assoc|].
  intros w1 w2 -> Hne. specialize (H (c :: w1) w2 eq_refl Hne). by rewrite reverse_cons, <- app_assoc in H.
Qed.

Lemma exec_from_here r before rest m : match_here r before rest = Some m → exec_from r before rest = Some m.
Proof. intros H. by destruct rest; cbn [exec_from]; rewrite H. Qed.

Lemma exec_anchored r s : exec (RSeq RBol r) s = match_here r [] s.
Proof.
  unfold exec. destruct s as [|c s]; cbn [exec_from].
  - change (match_here (RSeq RBol r) [] []) with (match_here r [] []). by destruct (match_here r [] []).
  - change (match_here (RSeq RBol r) [] (c :: s)) with (match_here r [] (c :: s)).
    destruct (match_here r [] (c :: s)); [done|]. apply exec_from_anchored.
Qed.

Lemma match_here_start r s :
  match_here r [] s =
  (λ t, {| m_index := 0; m_text := take (length (rbefore t)) s; m_end := t |})
  <$> rmatch r Some (mkState [] s []).
Proof.
  unfold match_here. destruct (rmatch r Some (mkState [] s [])); [|done].
  simpl. by rewrite Nat.sub_0_r.
Qed.

(** ** What a match has read *)

(** The units a pattern may read. *)
Fixpoint reads_unit (r : regex) (c : N) : Prop :=
  match r with
  | RLit w => c ∈ w
  | RChar p => p c = true
  | RSeq a b | RAlt a b => reads_unit a c ∨ reads_unit b c
  | RStar a | RLazy a | RGroup _ a => reads_unit a c
  | RBack _ => True
  | _ => False
  end.

Definition follows (P : N → Prop) (s s' : rstate) : Prop :=
  ∃ w, rrest s = w ++ rrest s' ∧ rbefore s' = reverse w ++ rbefore s ∧ Forall P w.

Lemma follows_refl P s : follows P s s.
Proof. exists []. split_and!; [done..|constructor]. Qed.

Lemma follows_trans P s1 s2 s3 : follows P s1 s2 → follows P s2 s3 → follows P s1 s3.
Proof.
  intros (w1 & E1 & B1 & F1) (w2 & E2 & B2 & F2). exists (w1 ++ w2). split_and!.
  - by rewrite E1, E2, <- app_assoc.
  - by rewrite B2, B1, reverse_app, <- app_assoc.
  - by apply Forall_app.
Qed.

Lemma follows_mono (P Q : N → Prop) s s' : (∀ c, P c → Q c) → follows P s s' → follows Q s s'.
Proof. intros H (w & ? & ? & HF). exists w. split_and!; [done..|]. eapply Forall_impl; eauto. Qed.

Lemma follows_advance (P : N → Prop) w s r :
  rrest s = w ++ r → Forall P w → follows P s (advance (length w) s).
Proof.
  intros E HF. exists w. unfold advance. cbn [rrest rbefore]. rewrite E, take_app_length, drop_app_length.
  done.
Qed.

(** A match reads units its pattern allows, then its continuation accepts. *)
Lemma rmatch_sound {A} r (k : rstate → option A) s x :
  rmatch r k s = Some x → ∃ s', k s' = Some x ∧ follows (reads_unit r) s s'.
Proof.
  revert k s. induction r as [|w|p|a IHa b IHb|a IHa b IHb|a IHa|a IHa|n a IHa|n| | | | |]; intros k s H; cbn [rmatch] in H.
  - exists s. split; [done|apply follows_refl].
  - destruct (starts_with w (rrest s)) eqn:E; [|done]. apply starts_with_spec in E as [r E].
    eexists. split; [done|]. eapply follows_advance; [done|]. by apply Forall_forall.
  - destruct (rrest s) as [|c t] eqn:E; [done|]. cbn [head_is] in H. destruct (p c) eqn:Hc; [|done].
    eexists. split; [done|]. apply (follows_advance _ [c] s t); [exact E|]. by repeat constructor.
  - apply IHa in H as (s1 & H & F1). apply IHb in H as (s2 & H & F2). exists s2. split; [done|].
    eapply follows_trans; (eapply follows_mono; [|done]); simpl; auto.
  - destruct (rmatch a k s) eqn:E.
    + simplify_eq. apply IHa in E as (s1 & H & F1). exists s1. split; [done|].
      eapply follows_mono; [|done]. simpl; auto.
    + apply IHb in H as (s1 & H & F1). exists s1. split; [done|].
      eapply follows_mono; [|done]. simpl; auto.
  - revert s H. generalize (groups_of a) as gs. intros gs s. generalize (length (rrest s)) as fuel.
    intros fuel. revert s. induction fuel as [|f IH]; intros s H; cbn [star_loop] in H.
    { exists s. split; [done|apply follows_refl]. }
    destruct (rmatch a _ _) eqn:E.
    + simplify_eq. apply IHa in E as (s1 & H & F1). case_bool_decide; [|done].
      apply IH in H as (s2 & H & F2). exists s2. split; [done|]. eapply follows_trans; [|done].
      destruct F1 as (w & ? & ? & ?). by exists w.
    + exists s. split; [done|apply follows_refl].
  - revert s H. generalize (groups_of a) as gs. intros gs s. generalize (length (rrest s)) as fuel.
    intros fuel. revert s. induction fuel as [|f IH]; intros s H; cbn [lazy_loop] in H;
      (destruct (k s) eqn:Ek; [simplify_eq; exists s; split; [done|apply follows_refl]|]); [done|].
    apply IHa in H as (s1 & H & F1). case_bool_decide; [|done].
    apply IH in H as (s2 & H & F2). exists s2. split; [done|]. eapply follows_trans; [|done].
    destruct F1 as (w & ? & ? & ?). by exists w.
  - apply IHa in H as (s1 & H & F1). eexists. split; [done|].
    destruct F1 as (w & ? & ? & ?). by exists w.
  - destruct (capture n s) as [w|].
    + destruct (starts_with w (rrest s)) eqn:E; [|done]. apply starts_with_spec in E as [r E].
      eexists. split; [done|]. eapply follows_advance; [done|]. by apply Forall_true.
    + exists s. split; [done|apply follows_refl].
  - destruct (rbefore s); [|done]. exists s. split; [done|apply follows_refl].
  - destruct (rrest s); [|done]. exists s. split; [done|apply follows_refl].
  - destruct (xorb _ _); [|done]. exists s. split; [done|apply follows_refl].
  - destruct (rbefore s) as [|c t]; [|destruct (is_line_end c); [|done]];
      (exists s; split; [done|apply follows_refl]).
  - destruct (rrest s) as [|c t]; [|destruct (is_line_end c); [|done]];
      (exists s; split; [done|apply follows_refl]).
Qed.

(** A text an anchored pattern accepts is made of units of the pattern. *)
Lemma test_units r r' s :
  (∀ k : rstate → option rstate, rmatch r' k (mkState [] s []) = rmatch (RSeq r REol) k (mkState [] s [])) →
  test (RSeq RBol r') s = true → Forall (reads_unit r) s.
Proof.
  intros E. unfold test. rewrite bool_decide_eq_true, exec_anchored, match_here_start, E.
  intros [m Hm]. apply fmap_Some in Hm as (t & Ht & _). cbn [rmatch] in Ht.
  apply rmatch_sound in Ht as (s' & Hs' & w & Hw & _ & HF).
  destruct (rrest s') eqn:E'; [|done]. cbn [rrest] in Hw. by rewrite Hw, app_nil_r.
Qed.

(** *** Where a match is *)

(** A match that starts here is the next part of the text. *)
Lemma match_here_text r before rest m :
  match_here r before rest = Some m →
  m_index m = length before ∧
  rest = m_text m ++ rrest (m_end m) ∧ rbefore (m_end m) = reverse (m_text m) ++ before.
Proof.
  unfold match_here. intros H. destruct (rmatch r Some _) as [s|] eqn:E; [|done].
  injection H as <-. cbn [m_index m_text m_end].
  apply rmatch_sound in E as (s' & [= ->] & w & Hw & Hb & _). cbn [rrest rbefore] in *.
  assert (length (rbefore s) - length before = length w) as ->.
  { rewrite Hb, length_app, length_reverse. lia. }
  rewrite Hw, take_app_length. done.
Qed.

Lemma exec_from_text r before rest m :
  exec_from r before rest = Some m →
  ∃ p, reverse before ++ rest = p ++ m_text m ++ rrest (m_end m) ∧ length p = m_index m ∧
       rbefore (m_end m) = reverse (p ++ m_text m).
Proof.
  revert before. induction rest as [|c rest IH]; intros before; cbn [exec_from];
    destruct (match_here r before _) as [m'|] eqn:E; try done.
  1,2: intros [= ->]; apply match_here_text in E as (Hi & Hr & Hb); exists (reverse before);
    rewrite reverse_app, reverse_involutive, Hi, length_reverse; split_and!; [by rewrite Hr at 1|done|done].
  intros (p & Hp & Hl & Hb)%IH. exists p. split_and!; [|done|done].
  by rewrite <- Hp, reverse_cons, <- app_assoc.
Qed.

Lemma exec_all_text fuel r before rest m :
  m ∈ exec_all fuel r before rest →
  ∃ p tail, reverse before ++ rest = p ++ m_text m ++ tail ∧ length p = m_index m.
Proof.
  revert before rest. induction fuel as [|f IH]; intros before rest; cbn [exec_all]; [by rewrite elem_of_nil|].
  destruct (exec_from r before rest) as [m'|] eqn:E; [|by rewrite elem_of_nil].
  apply exec_from_text in E as (p & Hp & Hl & Hb). rewrite elem_of_cons. intros [->|Hin]; [by eauto|].
  rewrite Hp. destruct (m_text m') as [|c w] eqn:Et; [destruct (rrest (m_end m')) as [|d tl] eqn:Er|].
  - by apply elem_of_nil in Hin.
  - apply IH in Hin as (q & tail & Hq & Hlq). exists q, tail. split; [|done]. rewrite <- Hq, Hb, app_nil_r.
    rewrite reverse_cons, reverse_involutive. by rewrite <- app_assoc.
  - apply IH in Hin as (q & tail & Hq & Hlq). exists q, tail. split; [|done]. rewrite <- Hq, Hb.
    by rewrite reverse_involutive, <- app_assoc.
Qed.

(** Every match of a global pattern is found at its index. *)
Lemma match_all_at r s m : m ∈ match_all r s → starts_with (m_text m) (drop (m_index m) s) = true.
Proof.
  intros (p & tail & Hp & Hl)%exec_all_text. cbn in Hp. subst s. rewrite <- Hl, drop_app_length.
  apply starts_with_app.
Qed.

(** ** Whether a pattern matches *)

Section matches.
Context {A : Type}.
Implicit Types (k : rstate → option A) (b t : jstring).

Lemma lit_some w k b t cs :
  is_Some (rmatch (RLit w) k (mkState b t cs)) ↔ ∃ r, t = w ++ r ∧ is_Some (k (mkState (reverse w ++ b) r cs)).
Proof.
  split.
  - cbn [rmatch rrest]. destruct (starts_with w t) eqn:E; [|by intros []].
    apply starts_with_spec in E as [r ->]. intros H. exists r. split; [done|].
    by rewrite <- (rmatch_lit_app w b r cs k); cbn [rmatch rrest]; rewrite starts_with_app.
  - intros (r & -> & H). by rewrite rmatch_lit_app.
Qed.

Lemma alt_some r r' k s : is_Some (rmatch (RAlt r r') k s) ↔ is_Some (rmatch r k s) ∨ is_Some (rmatch r' k s).
Proof.
  rewrite rmatch_alt. destruct (rmatch r k s); [|naive_solver].
  split; [by left|]. intros _. by eexists.
Qed.

Lemma char_some p k b t cs :
  is_Some (rmatch (RChar p) k (mkState b t cs)) ↔
  ∃ c r, t = c :: r ∧ p c = true ∧ is_Some (k (mkState (c :: b) r cs)).
Proof.
  destruct t as [|c r]; [by split; [intros []|intros (? & ? & ? & _)]|].
  change (rmatch (RChar p) k (mkState b (c :: r) cs)) with (if p c then k (mkState (c :: b) r cs) else None).
  destruct (p c) eqn:E; split.
  - intros H. by exists c, r.
  - by intros (? & ? & [= <- <-] & _ & ?).
  - by intros [].
  - intros (? & ? & [= <- <-] & ? & _). congruence.
Qed.

(** A repeated class matches when what follows accepts the rest after some run. *)
Lemma star_some p k b t cs :
  is_Some (rmatch (RStar (RChar p)) k (mkState b t cs)) ↔
  ∃ w r, t = w ++ r ∧ Forall (λ c, p c = true) w ∧ is_Some (k (mkState (reverse w ++ b) r cs)).
Proof.
  change (rmatch (RStar (RChar p)) k (mkState b t cs))
    with (star_loop (rmatch (RChar p)) [] (length t) k (mkState b t cs)).
  remember (length t) as n eqn:Hn. revert b t Hn.
  induction n as [|n IH]; intros b t Hn.
  - destruct t; [|done]. cbn [star_loop]. split; [intros H; by exists [], []|].
    intros (w & r & E & _ & H). symmetry in E. apply app_eq_nil in E as [-> ->]. done.
  - destruct t as [|c t]; [done|]. injection Hn as Hn. rewrite star_char_step.
    assert ((∃ w r, c :: t = w ++ r ∧ Forall (λ c, p c = true) w ∧ is_Some (k (mkState (reverse w ++ b) r cs))) ↔
      is_Some (k (mkState b (c :: t) cs)) ∨ p c = true ∧ ∃ w r, t = w ++ r ∧ Forall (λ c, p c = true) w ∧
        is_Some (k (mkState (reverse w ++ c :: b) r cs))) as ->.
    { split.
      - intros ([|d w] & r & E & Hw & H); cbn [app] in E; [left; by rewrite E|]. injection E as <- ->.
        apply Forall_cons in Hw as [Hd Hw]. right. split; [done|]. exists w, r. split_and!; [done..|].
        by rewrite reverse_cons, <- app_assoc in H.
      - intros [H|(Hc & w & r & -> & Hw & H)]; [by exists [], (c :: t)|]. exists (c :: w), r.
        split_and!; [done|by constructor|]. by rewrite reverse_cons, <- app_assoc. }
    destruct (p c); [|naive_solver]. specialize (IH (c :: b) t Hn).
    destruct (star_loop _ _ _ _ _) eqn:E.
    + split; [|by eexists]. intros _. right. split; [done|]. apply IH. by eexists.
    + split; [by left|]. intros [H|[_ H]]; [done|]. apply IH in H as []. done.
Qed.

Lemma plus_some p k b t cs :
  is_Some (rmatch (RPlus (RChar p)) k (mkState b t cs)) ↔
  ∃ w r, t = w ++ r ∧ w ≠ [] ∧ Forall (λ c, p c = true) w ∧ is_Some (k (mkState (reverse w ++ b) r cs)).
Proof.
  unfold RPlus. rewrite rmatch_seq, char_some. split.
  - intros (c & t' & -> & Hc & H). apply star_some in H as (w & r & -> & Hw & H).
    exists (c :: w), r. split_and!; [done|done|by constructor|]. by rewrite reverse_cons, <- app_assoc.
  - intros ([|c w] & r & -> & Hne & Hw & H); [done|]. apply Forall_cons in Hw as [Hc Hw].
    exists c, (w ++ r). split_and!; [done..|]. apply star_some. exists w, r. split_and!; [done..|].
    by rewrite reverse_cons, <- app_assoc in H.
Qed.

(** A literal matches, with the [i] flag, any text that differs from it in case only. *)
Lemma liti_some w k b t cs :
  is_Some (rmatch (RLitI w) k (mkState b t cs)) ↔
  ∃ u r, t = u ++ r ∧ map ascii_lower u = map ascii_lower w ∧ is_Some (k (mkState (reverse u ++ b) r cs)).
Proof.
  unfold RLitI, RSeqs. revert b t. induction w as [|c w IH]; intros b t; cbn [map foldr].
  - split; [intros H; by exists [], t|]. by intros ([|d u] & r & -> & E & H).
  - rewrite rmatch_seq, char_some. split.
    + intros (d & t' & -> & Hd%N.eqb_eq & (u & r & -> & E & H)%IH). exists (d :: u), r.
      split_and!; [done|by cbn; rewrite Hd, E|]. by rewrite reverse_cons, <- app_assoc.
    + intros ([|d u] & r & -> & E & H); [done|]. injection E as Ed E. exists d, (u ++ r).
      split_and!; [done|by apply N.eqb_eq|]. apply IH. exists u, r. split_and!; [done..|].
      by rewrite reverse_cons, <- app_assoc in H.
Qed.
End matches.

Lemma match_here_some r b t : is_Some (match_here r b t) ↔ is_Some (rmatch r Some (mkState b t [])).
Proof.
  unfold match_here. destruct (rmatch r Some _) as [s|]; cbn [mbind option_bind].
  - split; intros _; eexists; reflexivity.
  - split; by intros [].
Qed.

Lemma test_anchored r s : test (RSeq RBol r) s = true ↔ is_Some (rmatch r Some (mkState [] s [])).
Proof. unfold test. by rewrite bool_decide_eq_true, exec_anchored, match_here_some. Qed.

(** A pattern matches somewhere when it matches from some position. *)
Lemma test_anywhere r s :
  test r s = true ↔ ∃ b t, s = b ++ t ∧ is_Some (rmatch r Some (mkState (reverse b) t [])).
Proof.
  unfold test, exec. rewrite bool_decide_eq_true.
  assert (∀ t b, is_Some (exec_from r b t) ↔
    ∃ w u, t = w ++ u ∧ is_Some (rmatch r Some (mkState (reverse w ++ b) u []))) as H.
  { induction t as [|c t IH]; intros b; cbn [exec_from].
    - destruct (match_here r b []) as [m|] eqn:E.
      + split; [|by eexists]. intros _. exists [], []. split; [done|]. apply match_here_some. by eexists.
      + split; [by intros []|]. intros (w & u & Ew & H). symmetry in Ew. apply app_eq_nil in Ew as [-> ->].
        apply (match_here_some r b []) in H. rewrite E in H. by destruct H.
    - destruct (match_here r b (c :: t)) as [m|] eqn:E.
      + split; [|by eexists]. intros _. exists [], (c :: t). split; [done|]. apply match_here_some. by eexists.
      + rewrite IH. split.
        * intros (w & u & -> & H). exists (c :: w), u. split; [done|]. by rewrite reverse_cons, <- app_assoc.
        * intros ([|d w] & u & Ew & H).
          { cbn [app] in Ew. rewrite <- Ew in H. apply (match_here_some r b (c :: t)) in H. rewrite E in H. by destruct H. }
          injection Ew as <- ->. exists w, u. split; [done|]. by rewrite reverse_cons, <- app_assoc in H. }
  rewrite H. by setoid_rewrite app_nil_r.
Qed.
