(* ===== verification/JsRegexRuns.v ===== *)
(** * JsRegexRuns: greedy matches of a text known in advance

    To show what a pattern reads from a text a program has written, it is enough
    that each part of the pattern reads its part of the text when the parts after
    it accept the rest ([runs]), and that optional parts that are absent cannot
    match ([refuses]).  These compose along the pattern; [exec_all_step] and
    [split_regex_join] carry them to global matches and to splitting. *)
From S2P Require Import Prelude JsString JsNumber JsRegex.

Implicit Types (r a b : regex) (t rest w u v : jstring) (cs : list (nat * jstring)).

(** The pattern reads [t], before [rest], whenever what follows accepts [rest]. *)
Definition runs r t rest cs cs' : Prop :=
  ∀ (k : rstate → option rstate) bf x,
    k (mkState (reverse t ++ bf) rest cs') = Some x → rmatch r k (mkState bf (t ++ rest) cs) = Some x.

(** The pattern matches no prefix of the text, whatever follows it. *)
Definition refuses r t : Prop :=
  ∀ (k : rstate → option rstate) bf cs, rmatch r k (mkState bf t cs) = None.

(** ** Patterns that read *)

Lemma runs_empty rest cs : runs REmpty [] rest cs cs.
Proof. intros k bf x H. exact H. Qed.

Lemma runs_lit w rest cs : runs (RLit w) w rest cs cs.
Proof. intros k bf x H. by rewrite rmatch_lit_app. Qed.

Lemma runs_seq a b t1 t2 rest cs cs1 cs2 :
  runs a t1 (t2 ++ rest) cs cs1 → runs b t2 rest cs1 cs2 → runs (RSeq a b) (t1 ++ t2) rest cs cs2.
Proof.
  intros Ha Hb k bf x H. rewrite rmatch_seq, <- app_assoc. apply Ha, Hb.
  by rewrite reverse_app, <- app_assoc in H.
Qed.

(** The first part of a sequence reads nothing. *)
Lemma runs_skip a b t rest cs cs' :
  runs a [] (t ++ rest) cs cs → runs b t rest cs cs' → runs (RSeq a b) t rest cs cs'.
Proof. apply (runs_seq a b [] t). Qed.

Lemma runs_seq_end a b t rest cs cs1 cs2 :
  runs a t rest cs cs1 → runs b [] rest cs1 cs2 → runs (RSeq a b) t rest cs cs2.
Proof. intros Ha Hb. rewrite <- (app_nil_r t). by apply (runs_seq a b t [] rest cs cs1). Qed.

Lemma runs_star_char p t rest cs :
  Forall (λ c, p c = true) t → head_is p rest = false → runs (RStar (RChar p)) t rest cs cs.
Proof. intros Ht Hr k bf x H. by apply star_char_run. Qed.

Lemma runs_plus_char p t rest cs :
  t ≠ [] → Forall (λ c, p c = true) t → head_is p rest = false → runs (RPlus (RChar p)) t rest cs cs.
Proof.
  intros Hne Ht Hr. destruct t as [|c t]; [done|]. apply Forall_cons in Ht as [Hc Ht].
  apply (runs_seq _ _ [c] t _ _ cs); [|by apply runs_star_char].
  intros k bf x H. change (rmatch (RChar p) k (mkState bf ([c] ++ t ++ rest) cs))
    with (if p c then k (mkState ([c] ++ bf) (t ++ rest) cs) else None). by rewrite Hc.
Qed.

Lemma runs_group n a t rest cs cs' :
  runs a t rest cs cs' → runs (RGroup n a) t rest cs ((n, t) :: cs').
Proof.
  intros Ha k bf x H. rewrite rmatch_group. apply Ha. cbn [rbefore rrest rcaps].
  by rewrite group_text.
Qed.

Lemma runs_spaces rest cs : head_is is_space rest = false → runs RSpaces [] rest cs cs.
Proof. intros H. by apply runs_star_char. Qed.

Lemma runs_space rest cs : head_is is_space rest = false → runs RSpaces " " rest cs cs.
Proof. intros H. apply runs_star_char; [by repeat constructor|done]. Qed.

Lemma runs_alt_l a b t rest cs cs' : runs a t rest cs cs' → runs (RAlt a b) t rest cs cs'.
Proof. intros Ha k bf x H. rewrite rmatch_alt. by rewrite (Ha k bf x H). Qed.

Lemma runs_alt_r a b t rest cs cs' :
  refuses a (t ++ rest) → runs b t rest cs cs' → runs (RAlt a b) t rest cs cs'.
Proof. intros Ha Hb k bf x H. rewrite rmatch_alt, Ha. by apply Hb. Qed.

Lemma runs_opt a t rest cs cs' : runs a t rest cs cs' → runs (ROpt a) t rest cs cs'.
Proof. apply runs_alt_l. Qed.

Lemma runs_opt_none a rest cs : refuses a rest → runs (ROpt a) [] rest cs cs.
Proof. intros Ha. apply runs_alt_r; [done|apply runs_empty]. Qed.

(** An alternative may be refused because of what follows it. *)
Lemma runs_alt_seq_l a b c t rest cs cs' :
  runs (RSeq a c) t rest cs cs' → runs (RSeq (RAlt a b) c) t rest cs cs'.
Proof. intros Ha k bf x H. rewrite rmatch_seq, rmatch_alt, <- rmatch_seq. by rewrite (Ha k bf x H). Qed.

Lemma runs_alt_seq_r a b c t rest cs cs' :
  refuses (RSeq a c) (t ++ rest) → runs (RSeq b c) t rest cs cs' → runs (RSeq (RAlt a b) c) t rest cs cs'.
Proof. intros Ha Hb k bf x H. rewrite rmatch_seq, rmatch_alt, <- !rmatch_seq, Ha. by apply Hb. Qed.

(** The iterations of a greedy repetition. *)
Fixpoint iterates a (ts : list jstring) rest cs : Prop :=
  match ts with
  | [] => refuses a rest
  | t :: ts => t ≠ [] ∧ runs a t (concat ts ++ rest) cs cs ∧ iterates a ts rest cs
  end.

Lemma runs_star a ts rest cs :
  groups_of a = [] → iterates a ts rest cs → runs (RStar a) (concat ts) rest cs cs.
Proof.
  intros Hg Hts k bf x H. cbn [rmatch rrest]. rewrite Hg.
  assert (∀ fuel, length (concat ts) ≤ fuel →
    star_loop (rmatch a) [] fuel k (mkState bf (concat ts ++ rest) cs) = Some x) as Hgo;
    [|apply Hgo; rewrite length_app; lia].
  revert bf Hts H. induction ts as [|t ts IH]; intros bf Hts H fuel Hf.
  - destruct fuel as [|f]; [done|]. cbn [star_loop]. rewrite clear_caps_nil. by rewrite Hts.
  - destruct Hts as (Hne & Ht & Hts). cbn [concat] in *. rewrite length_app in Hf.
    destruct t as [|d t]; [done|]. destruct fuel as [|f]; [simpl in Hf; lia|].
    cbn [star_loop]. rewrite clear_caps_nil, <- app_assoc. rewrite (Ht _ _ x); [done|].
    cbn [rrest]. rewrite bool_decide_eq_true_2 by (rewrite !length_app; simpl; lia).
    apply IH; [done| |simpl in Hf; lia]. by rewrite reverse_app, <- app_assoc in H.
Qed.

(** ** Patterns that refuse *)

Lemma refuses_lit w c t : starts_with w t = false → refuses (RSeq (RLit w) c) t.
Proof. intros H k bf cs. rewrite rmatch_seq. by apply rmatch_lit_fail. Qed.

Lemma refuses_lit_next w c t : refuses c t → refuses (RSeq (RLit w) c) (w ++ t).
Proof. intros H k bf cs. rewrite rmatch_seq, rmatch_lit_app. apply H. Qed.

Lemma refuses_seq a b t : refuses a t → refuses (RSeq a b) t.
Proof. intros H k bf cs. rewrite rmatch_seq. apply H. Qed.

Lemma refuses_group n a t : refuses a t → refuses (RGroup n a) t.
Proof. intros H k bf cs. rewrite rmatch_group. apply H. Qed.

Lemma refuses_alt a b t : refuses a t → refuses b t → refuses (RAlt a b) t.
Proof. intros Ha Hb k bf cs. by rewrite rmatch_alt, Ha. Qed.

Lemma refuses_alt_seq a b c t :
  refuses (RSeq a c) t → refuses (RSeq b c) t → refuses (RSeq (RAlt a b) c) t.
Proof. intros Ha Hb k bf cs. rewrite rmatch_seq, rmatch_alt, <- !rmatch_seq. by rewrite Ha. Qed.

Lemma refuses_opt_seq a c t :
  refuses a t → refuses c t → refuses (RSeq (ROpt a) c) t.
Proof. intros Ha Hc. apply refuses_alt_seq; [by apply refuses_seq|apply Hc]. Qed.

Lemma refuses_spaces c t : head_is is_space t = false → refuses c t → refuses (RSeq RSpaces c) t.
Proof.
  intros Ht Hc k bf cs. rewrite rmatch_seq.
  rewrite (star_char_det is_space bf [] t cs); [apply Hc|apply Forall_nil_2|done|]. intros w1 w2 E Hne. symmetry in E. by apply app_eq_nil in E as [_ ->].
Qed.

Lemma refuses_space c t :
  head_is is_space t = false → refuses c t → refuses c (" " ++ t) → refuses (RSeq RSpaces c) (" " ++ t).
Proof.
  intros Ht Hc Hsp k bf cs. rewrite rmatch_seq.
  rewrite (star_char_det is_space bf " " t cs); [apply Hc|by repeat constructor|done|].
  intros [|d w1] w2 E Hne.
  - cbn [app] in E. rewrite <- E. apply (Hsp k).
  - injection E as _ E. symmetry in E. apply app_eq_nil in E as [_ ->]. done.
Qed.

Lemma refuses_char p c t : head_is p t = false → refuses (RSeq (RChar p) c) t.
Proof. intros H k bf cs. rewrite rmatch_seq. cbn [rmatch rrest]. by rewrite H. Qed.

Lemma refuses_plus p t : head_is p t = false → refuses (RPlus (RChar p)) t.
Proof. apply refuses_char. Qed.

(** A pattern refuses when it does so with every continuation. *)
Lemma refuses_iff r t :
  refuses r t ↔ ∀ (k : rstate → option rstate) bf cs, ¬ is_Some (rmatch r k (mkState bf t cs)).
Proof. split; intros H k bf cs; [rewrite H; by intros []|by apply eq_None_not_Some]. Qed.

(** ** Matches *)

Definition match_at (bf t rest : jstring) cs : rmatched :=
  {| m_index := length bf; m_text := t; m_end := mkState (reverse t ++ bf) rest cs |}.

Lemma match_here_runs r bf t rest cs :
  runs r t rest [] cs → match_here r bf (t ++ rest) = Some (match_at bf t rest cs).
Proof.
  intros H. unfold match_here. rewrite (H Some bf _ eq_refl). cbn [mbind option_bind rbefore].
  rewrite length_app, length_reverse, Nat.add_sub, take_app_length. done.
Qed.

Lemma match_here_refuses r bf t : refuses r t → match_here r bf t = None.
Proof. intros H. unfold match_here. by rewrite H. Qed.

Lemma exec_runs r t cs : runs r t [] [] cs → exec (RSeq RBol r) t = Some (match_at [] t [] cs).
Proof. intros H. rewrite exec_anchored. rewrite <- (app_nil_r t) at 1. by apply match_here_runs. Qed.

Lemma runs_eol cs : runs REol [] [] cs cs.
Proof. intros k bf x H. exact H. Qed.

(** A text no suffix of which the pattern reads, whatever follows it. *)
Definition unread r w : Prop := ∀ w1 w2 rest, w = w1 ++ w2 → w2 ≠ [] → refuses r (w2 ++ rest).

Lemma exec_from_runs r bf sep t rest cs :
  (∀ w1 w2, sep = w1 ++ w2 → w2 ≠ [] → refuses r (w2 ++ t ++ rest)) → runs r t rest [] cs →
  exec_from r bf (sep ++ t ++ rest) = Some (match_at (reverse sep ++ bf) t rest cs).
Proof.
  intros Hsep Ht. rewrite exec_from_skip; [by apply exec_from_here, match_here_runs|].
  intros w1 w2 E Hne. by apply match_here_refuses, (Hsep w1 w2).
Qed.

Lemma exec_all_step f r bf sep t rest cs :
  t ≠ [] → (∀ w1 w2, sep = w1 ++ w2 → w2 ≠ [] → refuses r (w2 ++ t ++ rest)) → runs r t rest [] cs →
  exec_all (S f) r bf (sep ++ t ++ rest)
  = match_at (reverse sep ++ bf) t rest cs :: exec_all f r (reverse t ++ reverse sep ++ bf) rest.
Proof.
  intros Hne Hsep Ht. cbn [exec_all]. rewrite (exec_from_runs r bf sep t rest cs) by done.
  by destruct t.
Qed.

Lemma exec_from_unread r bf w : unread r w → refuses r [] → exec_from r bf w = None.
Proof.
  intros Hw Hr. rewrite <- (app_nil_r w). rewrite exec_from_skip.
  - cbn [exec_from]. by rewrite match_here_refuses.
  - intros w1 w2 E Hne. by apply match_here_refuses, (Hw w1 w2).
Qed.

Lemma exec_all_unread f r bf w : unread r w → refuses r [] → exec_all f r bf w = [].
Proof. intros Hw Hr. destruct f as [|f]; [done|]. cbn [exec_all]. by rewrite exec_from_unread. Qed.

(** Splitting what was joined gives the parts back. *)
Lemma split_regex_join r sep ws :
  sep ≠ [] → ws ≠ [] → Forall (unread r) ws → refuses r [] →
  (∀ w rest, w ∈ ws → runs r sep (w ++ rest) [] []) →
  split_regex r (join sep ws) = ws.
Proof.
  intros Hsep Hne Hws Hr Hs. unfold split_regex, match_all.
  assert (∀ pre fuel, length (join sep ws) < fuel →
    split_pieces (pre ++ join sep ws) (length pre) (exec_all fuel r (reverse pre) (join sep ws)) = ws) as Hgo;
    [|exact (Hgo [] _ (Nat.lt_succ_diag_r _))].
  induction Hws as [|w ws Hw Hws IH]; [done|]. intros pre fuel Hf. destruct ws as [|w' ws].
  - cbn [join]. rewrite exec_all_unread by done. cbn [split_pieces]. by rewrite drop_app_length.
  - assert (join sep (w :: w' :: ws) = w ++ sep ++ join sep (w' :: ws)) as E by done.
    rewrite E in *. set (J := join sep (w' :: ws)) in *. destruct fuel as [|f]; [lia|].
    rewrite (exec_all_step f r (reverse pre) w sep J []); [|done| |].
    + cbn [split_pieces match_at m_index m_text]. rewrite <- reverse_app, length_reverse.
      f_equal; [unfold slice_nat; by rewrite drop_app_length, length_app, Nat.add_comm, Nat.add_sub, take_app_length|].
      rewrite <- length_app, <- reverse_app, (app_assoc pre), (app_assoc (pre ++ w)).
      apply IH; [done| |].
      * intros u rest Hu. apply Hs. by right.
      * rewrite !length_app in Hf. destruct sep; [done|]. simpl in Hf. lia.
    + intros w1 w2 -> Hne2. by apply (Hw w1 w2).
    + assert (∃ rest, J = w' ++ rest) as [rest ->].
      { unfold J. destruct ws; [exists []; by rewrite app_nil_r|]. by eexists. }
      apply Hs. by right; left.
Qed.

(** ** Alternatives in a group *)

Lemma runs_group_alt_l n a b c t rest cs cs' :
  runs (RSeq (RGroup n a) c) t rest cs cs' → runs (RSeq (RGroup n (RAlt a b)) c) t rest cs cs'.
Proof.
  intros Ha k bf x H. specialize (Ha k bf x H). rewrite rmatch_seq, rmatch_group in *.
  by rewrite rmatch_alt, Ha.
Qed.

Lemma runs_group_alt_r n a b c t rest cs cs' :
  refuses (RSeq (RGroup n a) c) (t ++ rest) → runs (RSeq (RGroup n b) c) t rest cs cs' →
  runs (RSeq (RGroup n (RAlt a b)) c) t rest cs cs'.
Proof.
  intros Ha Hb k bf x H. specialize (Hb k bf x H). specialize (Ha k bf cs).
  rewrite rmatch_seq, rmatch_group in *. by rewrite rmatch_alt, Ha.
Qed.

Lemma refuses_group_lit n w c t : starts_with w t = false → refuses (RSeq (RGroup n (RLit w)) c) t.
Proof. intros H k bf cs. rewrite rmatch_seq, rmatch_group. by apply rmatch_lit_fail. Qed.

Lemma refuses_group_lit_next n w c t : refuses c t → refuses (RSeq (RGroup n (RLit w)) c) (w ++ t).
Proof. intros H k bf cs. rewrite rmatch_seq, rmatch_group, rmatch_lit_app. apply H. Qed.

Lemma refuses_lit_alone w t : starts_with w t = false → refuses (RLit w) t.
Proof. intros H k bf cs. by apply rmatch_lit_fail. Qed.

Lemma starts_with_inv v w u : starts_with v (w ++ u) = true → starts_with v w = true ∨ starts_with w v = true.
Proof.
  revert w. induction v as [|c v IH]; intros w; [by left|]. destruct w as [|d w]; [by right|].
  cbn [app starts_with]. rewrite !andb_true_iff, !N.eqb_eq. intros [-> H]. destruct (IH w H); auto.
Qed.

(** Texts joined by a separator. *)
Lemma join_cons sep x (l : list jstring) : join sep (x :: l) = x ++ concat (map (app sep) l).
Proof.
  revert x. induction l as [|y l IH]; intros x; [cbn; by rewrite app_nil_r|].
  change (join sep (x :: y :: l)) with (x ++ sep ++ join sep (y :: l)). rewrite IH. cbn [map concat].
  by rewrite !app_assoc.
Qed.

(** The units a pattern may read, decided. *)
Fixpoint may_read r (d : N) : bool :=
  match r with
  | RLit w => one_of w d
  | RChar p => p d
  | RSeq a b | RAlt a b => may_read a d || may_read b d
  | RStar a | RLazy a | RGroup _ a => may_read a d
  | RBack _ => true
  | _ => false
  end.

Lemma may_read_spec r (d : N) : reads_unit r d → may_read r d = true.
Proof.
  induction r; cbn [reads_unit may_read]; try tauto; rewrite ?orb_true_iff; try tauto.
  intros H. apply existsb_exists. exists d. split; [by apply list_elem_of_In|apply N.eqb_refl].
Qed.

(** ** Alternatives *)

Lemma RAlts_cons a l : l ≠ [] → RAlts (a :: l) = RAlt a (RAlts l).
Proof.
  intros Hl. unfold RAlts. rewrite reverse_cons. destruct (reverse l) as [|x r] eqn:E.
  - apply (f_equal reverse) in E. by rewrite reverse_involutive in E.
  - cbn [app]. by rewrite foldl_app.
Qed.

Lemma alts_some {A} l (k : rstate → option A) s :
  l ≠ [] → is_Some (rmatch (RAlts l) k s) ↔ ∃ r, r ∈ l ∧ is_Some (rmatch r k s).
Proof.
  induction l as [|a l IH]; intros Hl; [done|]. destruct l as [|b l].
  - change (RAlts [a]) with a. split; [by eexists; split; [left|]|]. by intros (r & ->%list_elem_of_singleton & H).
  - rewrite RAlts_cons, alt_some, IH by done. setoid_rewrite elem_of_cons at 2. naive_solver.
Qed.
