(* ===== verification/JsDecimal.v ===== *)
(** * JsDecimal: texts of decimal numbers

    The patterns that remove the trailing zeros of a fraction, and the form of
    the text of a number: whole part, fraction and exponent, which reading the
    number back and taking its digits apart both use. *)
From Stdlib Require Import Floats.SpecFloat.
From S2P Require Import Prelude JsString JsNumber JsFloat JsRegex.

(** ** Trailing zeros *)

Definition is_zero (c : N) : bool := (c =? 48)%N.

(** [0+$] *)
Definition zeros_end : regex := RSeq (RPlus (RChar is_zero)) REol.

Lemma split_run (p : N → bool) r : ∃ w r', r = w ++ r' ∧ Forall (λ c, p c = true) w ∧ head_is p r' = false.
Proof.
  induction r as [|c r (w & r' & -> & Hw & Hr)]; [by exists [], []|].
  destruct (p c) eqn:E; [exists (c :: w), r'; auto|]. by exists [], (c :: w ++ r').
Qed.

Lemma zeros_end_match {A} b r cs (k : rstate → option A) :
  rmatch zeros_end k (mkState b r cs) =
  if negb (bool_decide (r = [])) && forallb is_zero r then k (mkState (reverse r ++ b) [] cs) else None.
Proof.
  destruct r as [|c t]; [done|].
  change (rmatch zeros_end k (mkState b (c :: t) cs)) with
    (if is_zero c then rmatch (RStar (RChar is_zero)) (rmatch REol k) (mkState (c :: b) t cs) else None).
  rewrite bool_decide_eq_false_2 by done. cbn [forallb negb andb].
  destruct (is_zero c); [|done]. cbn [andb].
  destruct (split_run is_zero t) as (w & r' & -> & Hw & Hr).
  rewrite star_char_det; [|done..|].
  - cbn [rmatch rrest]. rewrite forallb_app.
    assert (forallb is_zero w = true) as -> by (by apply forallb_forall; intros; rewrite Forall_forall in Hw; apply Hw, list_elem_of_In).
    destruct r' as [|d r']; [|cbn in *; by rewrite Hr].
    rewrite app_nil_r, reverse_cons, <- app_assoc. done.
  - intros w1 w2 -> Hne. by destruct w2.
Qed.

(** A fraction without its trailing zeros. *)
Definition clean_fraction (a : jstring) : Prop := ∀ c, last a = Some c → is_zero c = false.

Lemma split_fraction fp : ∃ a z, fp = a ++ z ∧ clean_fraction a ∧ forallb is_zero z = true.
Proof.
  induction fp as [|c fp IH] using rev_ind; [by exists [], []|].
  destruct (is_zero c) eqn:E.
  - destruct IH as (a & z & -> & Ha & Hz). exists a, (z ++ [c]). split_and!; [by rewrite app_assoc|done|].
    rewrite forallb_app, Hz. simpl. by rewrite E.
  - exists (fp ++ [c]), []. rewrite app_nil_r. split_and!; [done| |done].
    intros d. rewrite last_snoc. by intros [= <-].
Qed.

(** Zeros up to the end are the last zeros exactly. *)
Lemma zeros_after a z w1 w2 :
  clean_fraction a → forallb is_zero z = true → a ++ z = w1 ++ w2 → forallb is_zero w2 = true →
  length a ≤ length w1.
Proof.
  intros Ha Hz E Hw. destruct (Nat.le_gt_cases (length a) (length w1)) as [|Hlt]; [done|].
  destruct (last a) as [c|] eqn:El; [|destruct a using rev_ind; [simpl in Hlt; lia|by rewrite last_snoc in El]].
  specialize (Ha c El). apply last_Some in El as [a' ->].
  rewrite length_app in Hlt. simpl in Hlt.
  assert (w2 = drop (length w1) a' ++ c :: z) as ->.
  { apply (f_equal (drop (length w1))) in E. rewrite drop_app_length in E. rewrite <- E, <- app_assoc.
    rewrite drop_app_le by lia. done. }
  rewrite forallb_app in Hw. simpl in Hw. by rewrite Ha, andb_false_r in Hw.
Qed.

(** A pattern that starts with a point matches nowhere in digits. *)
Definition dotted (r : regex) : Prop :=
  ∀ b c t, is_digit c = true → match_here r b (c :: t) = None ∧ match_here r b [] = None.

Lemma exec_dotted r ip t :
  dotted r → Forall (λ c, is_digit c = true) ip →
  exec r (ip ++ t) = exec_from r (reverse ip) t.
Proof.
  intros Hr Hip. unfold exec. rewrite exec_from_skip; [by rewrite app_nil_r|].
  intros w1 w2 -> Hne. destruct w2 as [|c w2]; [done|].
  apply Forall_app in Hip as [_ Hip]. apply Forall_cons in Hip as [Hc _].
  cbn [app]. by apply Hr.
Qed.

Lemma exec_from_digits r b t :
  dotted r → Forall (λ c, is_digit c = true) t → exec_from r b t = None.
Proof.
  intros Hr Ht. revert b. induction Ht as [|c t Hc Ht IH]; intros b; cbn [exec_from].
  - by destruct (Hr b 48%N [] eq_refl) as [_ ->].
  - destruct (Hr b c t Hc) as [-> _]. apply IH.
Qed.

(** Replacing the match after the digits [ip]. *)
Lemma replace_after ip w rest r f m :
  dotted r → Forall (λ c, is_digit c = true) ip →
  match_here r (reverse ip) (w ++ rest) = Some m → m_text m = w →
  replace_first r f (ip ++ w ++ rest) = ip ++ f m ++ rest.
Proof.
  intros Hr Hip Hm Hw. unfold replace_first. rewrite exec_dotted, (exec_from_here _ _ _ m) by done.
  assert (m_index m = length ip) as ->.
  { unfold match_here in Hm. destruct (rmatch _ _ _); [|done]. injection Hm as <-. apply length_reverse. }
  rewrite Hw, take_app_length. do 2 f_equal. by rewrite drop_app_add, drop_app_length.
Qed.

Lemma replace_none ip t r f :
  dotted r → Forall (λ c, is_digit c = true) ip →
  exec_from r (reverse ip) t = None → replace_first r f (ip ++ t) = ip ++ t.
Proof. intros Hr Hip Hn. unfold replace_first. by rewrite exec_dotted, Hn. Qed.

Lemma clean_suffix a w1 w2 z :
  clean_fraction a → a = w1 ++ w2 → w2 ≠ [] → forallb is_zero (w2 ++ z) = false.
Proof.
  intros Ha -> Hne. destruct w2 as [|c w2] using rev_ind; [done|]. clear IHw2 Hne.
  specialize (Ha c). rewrite app_assoc, last_snoc in Ha. rewrite <- app_assoc, forallb_app. simpl.
  rewrite Ha by done. apply andb_false_r.
Qed.

(** [(\.[0-9]*?)0+$] *)
Definition point_zeros_re : regex := RSeq (RGroup 1 (RSeq (RLit ".") (RLazy (RChar is_digit)))) zeros_end.
(** [\.$] *)
Definition point_end_re : regex := RSeq (RLit ".") REol.
(** [(\.\d*?[1-9])0+$] *)
Definition is_nonzero_digit (c : N) : bool := ((49 <=? c) && (c <=? 57))%N.
Definition point_digit_zeros_re : regex :=
  RSeq (RGroup 1 (RSeq (RLit ".") (RSeq (RLazy (RChar is_digit)) (RChar is_nonzero_digit)))) zeros_end.
(** [\.0+$] *)
Definition point_only_zeros_re : regex := RSeq (RLit ".") zeros_end.

Lemma point_not_digit c t : is_digit c = true → starts_with "." (c :: t) = false.
Proof.
  unfold is_digit. intros H. apply not_true_iff_false. intros [r Hr]%starts_with_spec.
  injection Hr as -> _. by vm_compute in H.
Qed.

Lemma dotted_patterns :
  dotted point_zeros_re ∧ dotted point_end_re ∧ dotted point_digit_zeros_re ∧ dotted point_only_zeros_re.
Proof.
  split_and!; intros b c t Hc; (split; [|done]); unfold match_here;
    (assert (∀ k : rstate → option rstate, rmatch (RLit ".") k (mkState b (c :: t) []) = None) as H
      by (intros; apply rmatch_lit_fail; by apply point_not_digit)).
  - unfold point_zeros_re. by rewrite rmatch_seq, rmatch_group, rmatch_seq, H.
  - unfold point_end_re. by rewrite rmatch_seq, H.
  - unfold point_digit_zeros_re. by rewrite rmatch_seq, rmatch_group, rmatch_seq, H.
  - unfold point_only_zeros_re. by rewrite rmatch_seq, H.
Qed.

(** The continuation after the group [1] that starts after [b]: zeros up to the end. *)
Definition after_group (b : jstring) (s : rstate) : option rstate :=
  rmatch zeros_end Some (mkState (rbefore s) (rrest s)
    ((1, reverse (take (length (rbefore s) - length b) (rbefore s))) :: rcaps s)).

Lemma after_group_eq b w z :
  after_group b (mkState (reverse w ++ b) z []) =
  if negb (bool_decide (z = [])) && forallb is_zero z
  then Some (mkState (reverse (w ++ z) ++ b) [] [(1, w)]) else None.
Proof.
  unfold after_group. cbn [rbefore rrest rcaps]. rewrite zeros_end_match, group_text.
  by rewrite reverse_app, <- app_assoc.
Qed.

Lemma match_here_whole r b t caps :
  rmatch r Some (mkState b t []) = Some (mkState (reverse t ++ b) [] caps) →
  match_here r b t = Some {| m_index := length b; m_text := t; m_end := mkState (reverse t ++ b) [] caps |}.
Proof.
  intros H. unfold match_here. rewrite H. cbn. rewrite length_app, Nat.add_sub, length_reverse.
  by rewrite firstn_all.
Qed.

Lemma point_zeros_match b a z :
  Forall (λ c, is_digit c = true) a → clean_fraction a → z ≠ [] → forallb is_zero z = true →
  rmatch point_zeros_re Some (mkState b ("." ++ a ++ z) [])
  = Some (mkState (reverse ("." ++ a ++ z) ++ b) [] [(1, "." ++ a)]).
Proof.
  intros Hd Ha Hne Hz. unfold point_zeros_re. rewrite rmatch_seq, rmatch_group, rmatch_seq, rmatch_lit_app.
  change (rmatch (RLazy (RChar is_digit)) (after_group b) (mkState (reverse "." ++ b) (a ++ z) []) =
    Some (mkState (reverse ("." ++ a ++ z) ++ b) [] [(1, "." ++ a)])).
  assert (∀ w, reverse w ++ reverse "." ++ b = reverse ("." ++ w) ++ b) as Hr
    by (intros; by rewrite app_assoc, <- reverse_app).
  apply lazy_char_run; [done| |].
  - intros w1 w2 E Hne2. rewrite Hr, after_group_eq. by rewrite (clean_suffix a w1 w2), andb_false_r.
  - rewrite Hr, after_group_eq, bool_decide_eq_false_2, Hz by done. cbn [negb andb].
    by rewrite <- app_assoc.
Qed.

Lemma point_zeros_none b a : clean_fraction a → rmatch point_zeros_re Some (mkState b ("." ++ a) []) = None.
Proof.
  intros Ha. unfold point_zeros_re. rewrite rmatch_seq, rmatch_group, rmatch_seq, rmatch_lit_app.
  apply (lazy_char_none _ (reverse "." ++ b) a [] (after_group b)). intros w1 w2 E.
  rewrite app_assoc, <- reverse_app, after_group_eq. destruct w2 as [|c w2]; [done|].
  pose proof (clean_suffix a w1 (c :: w2) [] Ha E ltac:(done)) as Hc. rewrite app_nil_r in Hc.
  by rewrite Hc, andb_false_r.
Qed.

Lemma nonzero_step k b r cs :
  rmatch (RChar is_nonzero_digit) k (mkState b r cs) =
  match r with c :: t => if is_nonzero_digit c then k (mkState (c :: b) t cs) else @None rstate | [] => None end.
Proof. by destruct r. Qed.

Lemma point_digit_zeros_match b a z :
  Forall (λ c, is_digit c = true) a → clean_fraction a → a ≠ [] → z ≠ [] → forallb is_zero z = true →
  rmatch point_digit_zeros_re Some (mkState b ("." ++ a ++ z) [])
  = Some (mkState (reverse ("." ++ a ++ z) ++ b) [] [(1, "." ++ a)]).
Proof.
  intros Hd Ha Hna Hne Hz. unfold point_digit_zeros_re.
  rewrite rmatch_seq, rmatch_group, rmatch_seq, rmatch_lit_app, rmatch_seq.
  destruct a as [|c a _] using rev_ind; [done|].
  apply Forall_app in Hd as [Hd Hc]. rewrite Forall_singleton in Hc.
  assert (is_zero c = false) as Hc0 by (apply Ha; by rewrite last_snoc).
  assert (is_nonzero_digit c = true) as Hnz.
  { unfold is_nonzero_digit, is_digit, is_zero in *. apply N.eqb_neq in Hc0.
    apply andb_true_iff in Hc as [H1%N.leb_le H2%N.leb_le]. apply andb_true_iff. rewrite !N.leb_le. lia. }
  rewrite <- app_assoc. apply lazy_char_run; [done| |].
  - intros w1 w2 E Hne2. rewrite nonzero_step. destruct w2 as [|d w2]; [done|]. cbn [app].
    destruct (is_nonzero_digit d); [|done].
    change (after_group b (mkState (d :: reverse w1 ++ reverse "." ++ b) (w2 ++ [c] ++ z) []) = None).
    replace (d :: reverse w1 ++ reverse "." ++ b) with (reverse ("." ++ w1 ++ [d]) ++ b)
      by (by rewrite !reverse_app, <- !app_assoc).
    rewrite after_group_eq, forallb_app. cbn [forallb app]. by rewrite Hc0, !andb_false_r.
  - rewrite nonzero_step. cbn [app]. rewrite Hnz.
    change (after_group b (mkState (c :: reverse a ++ reverse "." ++ b) z []) =
      Some (mkState (reverse ("." ++ a ++ [c] ++ z) ++ b) [] [(1, "." ++ a ++ [c])])).
    replace (c :: reverse a ++ reverse "." ++ b) with (reverse ("." ++ a ++ [c]) ++ b)
      by (by rewrite !reverse_app, <- !app_assoc).
    rewrite after_group_eq, bool_decide_eq_false_2, Hz by done. cbn [negb andb]. by rewrite <- !app_assoc.
Qed.

Lemma point_digit_zeros_none b a z :
  clean_fraction a → forallb is_zero z = true → a = [] ∨ z = [] →
  rmatch point_digit_zeros_re Some (mkState b ("." ++ a ++ z) []) = None.
Proof.
  intros Ha Hz Haz. unfold point_digit_zeros_re.
  rewrite rmatch_seq, rmatch_group, rmatch_seq, rmatch_lit_app, rmatch_seq.
  apply lazy_char_none. intros w1 w2 E. rewrite nonzero_step. destruct w2 as [|d w2]; [done|].
  destruct (is_nonzero_digit d) eqn:Hd; [|done].
  change (after_group b (mkState (d :: reverse w1 ++ reverse "." ++ b) w2 []) = None).
  replace (d :: reverse w1 ++ reverse "." ++ b) with (reverse ("." ++ w1 ++ [d]) ++ b)
    by (by rewrite !reverse_app, <- !app_assoc).
  rewrite after_group_eq. destruct Haz as [->| ->].
  - exfalso. cbn [app] in E. rewrite E, forallb_app in Hz. cbn in Hz. bool_to_prop.
    match goal with H : is_zero d = true |- _ => apply N.eqb_eq in H as -> end. by vm_compute in Hd.
  - rewrite app_nil_r in E. destruct w2 as [|e w2]; [done|].
    pose proof (clean_suffix a (w1 ++ [d]) (e :: w2) [] Ha) as Hc. rewrite app_nil_r in Hc.
    rewrite Hc; [by rewrite andb_false_r|by rewrite E, <- app_assoc|done].
Qed.

(** ** What the replacements give *)

(** The text without the trailing zeros of the fraction, nor a point before nothing. *)
Definition cleaned (ip a : jstring) : jstring := match a with [] => ip | _ => ip ++ "." ++ a end.

Lemma point_then_digits (a : jstring) :
  a ≠ [] → ∀ b, match_here point_end_re b ("." ++ a) = None.
Proof.
  intros Hne b. unfold match_here, point_end_re. rewrite rmatch_seq, rmatch_lit_app. by destruct a.
Qed.

Lemma exec_from_next r before c t :
  match_here r before (c :: t) = None → exec_from r before (c :: t) = exec_from r (c :: before) t.
Proof. intros H. cbn [exec_from]. by rewrite H. Qed.

Lemma remove_point_zeros ip a z :
  Forall (λ c, is_digit c = true) ip → Forall (λ c, is_digit c = true) a →
  clean_fraction a → forallb is_zero z = true →
  replace_first point_end_re (λ _, []) (replace_first point_zeros_re (mg 1) (ip ++ "." ++ a ++ z)) = cleaned ip a.
Proof.
  intros Hip Ha Hc Hz. destruct dotted_patterns as (D1 & D2 & _ & _).
  assert (replace_first point_zeros_re (mg 1) (ip ++ "." ++ a ++ z) = ip ++ "." ++ a) as ->.
  { destruct z as [|d z].
    - rewrite app_nil_r. apply replace_none; [done..|]. cbn [app]. rewrite exec_from_next.
      + by apply exec_from_digits.
      + unfold match_here. pose proof (point_zeros_none (reverse ip) a Hc) as H. cbn [app] in H. by rewrite H.
    - pose proof (match_here_whole point_zeros_re (reverse ip) _ _
        (point_zeros_match (reverse ip) a (d :: z) Ha Hc ltac:(done) Hz)) as Hm.
      rewrite <- (app_nil_r ("." ++ a ++ d :: z)). erewrite replace_after; [|done|done|by rewrite app_nil_r|done].
      by rewrite app_nil_r. }
  destruct a as [|c a].
  - pose proof (match_here_whole point_end_re (reverse ip) "." [] eq_refl) as Hm.
    rewrite <- (app_nil_r ("." ++ [])). erewrite replace_after; [|done|done|by rewrite app_nil_r|done].
    by rewrite !app_nil_r.
  - cbn [cleaned]. apply replace_none; [done..|]. change ("." ++ c :: a) with (46%N :: c :: a). rewrite exec_from_next.
    + by apply exec_from_digits.
    + by apply (point_then_digits (c :: a)).
Qed.

Lemma remove_point_digit_zeros ip a z :
  Forall (λ c, is_digit c = true) ip → Forall (λ c, is_digit c = true) a →
  clean_fraction a → forallb is_zero z = true → a ++ z ≠ [] →
  replace_first point_only_zeros_re (λ _, []) (replace_first point_digit_zeros_re (mg 1) (ip ++ "." ++ a ++ z))
  = cleaned ip a.
Proof.
  intros Hip Ha Hc Hz Hne. destruct dotted_patterns as (_ & _ & D3 & D4).
  assert (Forall (λ c, is_digit c = true) z) as Hzd.
  { apply Forall_forall. intros c Hin. rewrite forallb_forall in Hz.
    apply list_elem_of_In, Hz, N.eqb_eq in Hin as ->. done. }
  assert (∀ t, t = [] ∨ forallb is_zero t = false →
    match_here point_only_zeros_re (reverse ip) ("." ++ t) = None) as Hno.
  { intros t Ht. unfold match_here, point_only_zeros_re. rewrite rmatch_seq, rmatch_lit_app, zeros_end_match.
    destruct Ht as [->|Ht]; [done|]. by rewrite Ht, andb_false_r. }
  destruct a as [|c a].
  - cbn [app] in *. change (ip ++ 46%N :: z) with (ip ++ "." ++ z).
    rewrite (replace_none ip ("." ++ z)); [|done..|].
    + assert (rmatch point_only_zeros_re Some (mkState (reverse ip) ("." ++ z) []) =
        Some (mkState (reverse ("." ++ z) ++ reverse ip) [] [])) as Hm.
      { unfold point_only_zeros_re. rewrite rmatch_seq, rmatch_lit_app, zeros_end_match.
        rewrite bool_decide_eq_false_2, Hz by done. cbn [negb andb]. by rewrite reverse_app, <- app_assoc. }
      apply match_here_whole in Hm. rewrite <- (app_nil_r ("." ++ z)).
      erewrite replace_after; [|done|done|by rewrite app_nil_r|done]. by rewrite !app_nil_r.
    + cbn [app]. rewrite exec_from_next; [by apply exec_from_digits|].
      unfold match_here. pose proof (point_digit_zeros_none (reverse ip) [] z) as H. cbn [app] in H.
      rewrite H; auto.
  - assert (replace_first point_digit_zeros_re (mg 1) (ip ++ "." ++ (c :: a) ++ z) = ip ++ "." ++ c :: a) as ->.
    { destruct z as [|d z].
      - rewrite app_nil_r. apply replace_none; [done..|]. change ("." ++ c :: a) with (46%N :: c :: a).
        rewrite exec_from_next; [by apply exec_from_digits|].
        unfold match_here. pose proof (point_digit_zeros_none (reverse ip) (c :: a) []) as H.
        rewrite app_nil_r in H. change ("." ++ c :: a) with (46%N :: c :: a) in H. rewrite H; auto.
      - pose proof (match_here_whole point_digit_zeros_re (reverse ip) _ _
          (point_digit_zeros_match (reverse ip) (c :: a) (d :: z) Ha Hc ltac:(done) ltac:(done) Hz)) as Hm.
        rewrite <- (app_nil_r ("." ++ (c :: a) ++ d :: z)).
        erewrite replace_after; [|done|done|by rewrite app_nil_r|done]. by rewrite app_nil_r. }
    apply replace_none; [done..|]. change ("." ++ c :: a) with (46%N :: c :: a).
    rewrite exec_from_next; [by apply exec_from_digits|]. apply (Hno (c :: a)). right.
    pose proof (clean_suffix (c :: a) [] (c :: a) [] Hc eq_refl ltac:(done)) as H. by rewrite app_nil_r in H.
Qed.

(** ** The text of a number *)

Abbreviation digits := (Forall (λ c : N, is_digit c = true)).

(** Whole part, fraction, exponent. *)
Definition numeral (ip fp : jstring) (ex : option Z) : jstring :=
  ip ++ (match fp with [] => [] | _ => "." ++ fp end) ++
  (match ex with None => [] | Some e => "e" ++ (if (e <? 0)%Z then "-" else "+") ++ Z_to_js (Z.abs e) end).

Lemma digits_N n : digits (N_to_js n).
Proof.
  pose proof (all_digits_N_to_js n) as H. unfold all_digits in H. rewrite forallb_forall in H.
  apply Forall_forall. intros c Hc. by apply H, list_elem_of_In.
Qed.

Lemma digits_zeros n : digits (zeros n).
Proof. unfold zeros. apply Forall_replicate. done. Qed.

Lemma digits_layout ds n :
  digits ds → ds ≠ [] →
  ∃ ip fp ex, layout_digits ds n = numeral ip fp ex ∧ digits ip ∧ ip ≠ [] ∧ digits fp ∧
    (ex = None ∨ ex = Some (n - 1)%Z).
Proof.
  intros Hd Hne. unfold layout_digits. set (k := Z.of_nat (length ds)).
  assert (0 < length ds)%nat as Hlen by (destruct ds; [done|simpl; lia]).
  destruct ((k <=? n)%Z && (n <=? 21)%Z) eqn:E1.
  { exists (ds ++ zeros (n - k)), [], None. split_and!; [by unfold numeral; rewrite !app_nil_r| | |constructor|by left].
    - apply Forall_app. split; [done|apply digits_zeros].
    - by destruct ds. }
  destruct ((0 <? n)%Z && (n <=? 21)%Z) eqn:E2.
  { assert (0 < n < k)%Z as Hn by lia.
    exists (take (Z.to_nat n) ds), (drop (Z.to_nat n) ds), None. split_and!.
    - unfold numeral. rewrite app_nil_r. destruct (drop (Z.to_nat n) ds) eqn:Ed; [|done].
      apply (f_equal length) in Ed. rewrite length_drop in Ed. simpl in Ed. lia.
    - by apply Forall_take.
    - intros Ht. apply (f_equal length) in Ht. rewrite length_take in Ht. simpl in Ht. lia.
    - by apply Forall_drop.
    - by left. }
  destruct ((-6 <? n)%Z && (n <=? 0)%Z) eqn:E3.
  { exists "0", (zeros (- n) ++ ds), None. split_and!.
    - unfold numeral. rewrite app_nil_r. destruct (zeros (- n) ++ ds) eqn:Ed; [|done].
      by apply app_eq_nil in Ed as [_ ->].
    - by repeat constructor.
    - done.
    - apply Forall_app. split; [apply digits_zeros|done].
    - by left. }
  destruct ds as [|d r]; [done|]. apply Forall_cons in Hd as [Hd Hr].
  exists [d], r, (Some (n - 1))%Z. split_and!; [|by repeat constructor|done|done|by right].
  unfold numeral. by destruct r.
Qed.

Lemma strip_zeros_digits s : digits s → s ≠ [] → digits (strip_zeros_rev s) ∧ strip_zeros_rev s ≠ [].
Proof.
  induction s as [|c s IH]; intros Hd Hne; [done|]. simpl. destruct s as [|d s]; [done|].
  destruct (c =? 48)%N; [|done]. apply Forall_cons in Hd as [_ Hd]. by apply IH.
Qed.

(** A crude bound on the length of numerals, enough to keep exponents small. *)
Lemma digits_fuel_length fuel n acc : (length (digits_fuel fuel n acc) <= fuel + length acc)%nat.
Proof.
  revert n acc. induction fuel as [|f IH]; intros n acc; cbn [digits_fuel]; [lia|].
  destruct (n / 10 =? 0)%N; [simpl; lia|]. etransitivity; [apply IH|]. simpl. lia.
Qed.

Lemma N_to_js_length n b : (n < 2 ^ b)%N → (length (N_to_js n) <= S (N.to_nat b))%nat.
Proof.
  intros Hn. unfold N_to_js. etransitivity; [apply digits_fuel_length|]. cbn [length].
  enough (N.log2 n <= b)%N by lia. destruct (decide (n = 0)%N) as [->|Hne]; [simpl; lia|].
  apply N.lt_le_incl, N.log2_lt_pow2; lia.
Qed.

Lemma leading_zeros_bound fuel k p q : (k <= leading_zeros fuel k p q <= k + Z.of_nat fuel)%Z.
Proof.
  revert k p. induction fuel as [|f IH]; intros k p; cbn [leading_zeros]; [lia|].
  destruct (q <=? p)%Z; [lia|]. specialize (IH (k + 1) (p * 10))%Z. lia.
Qed.

Lemma shortest_from_bound fuel x p q n k :
  let '(d, ex) := shortest_from fuel x p q n k in
  ∃ j, (k <= j <= k + Z.of_nat fuel ∧ ex = - (j - n) ∧
    let '(a, b) := if 0 <=? j - n then (p * 10 ^ (j - n), q) else (p, q * 10 ^ (- (j - n))) in
    d = Z.to_N (a / b) ∨ d = Z.to_N (a / b + 1))%Z.
Proof.
  revert k. induction fuel as [|f IH]; intros k; cbn [shortest_from].
  - destruct (0 <=? k - n)%Z eqn:E; exists k; rewrite E; (split_and!; [lia..|by left]).
  - specialize (IH (k + 1)%Z).
    destruct (if (0 <=? k - n)%Z then _ else _) as [a b] eqn:E.
    destruct (_ && _); [exists k; rewrite E; split_and!; [lia..|by left]|].
    destruct (bool_decide _); [exists k; rewrite E; split_and!; [lia..|by right]|].
    destruct (shortest_from _ _ _ _ _ _) as [d ex]. destruct IH as (j & H1 & H2). exists j. split; [lia|done].
Qed.

Lemma magnitude_bound x m e :
  valid_num (S754_finite false m e) = true →
  let '(p, q) := ratio_of m e in
  let '(d, ex) := shortest_from 17 x p q (decimal_exponent p q) 1 in
  (-5000 <= Z.of_nat (length (N_to_js d)) + ex <= 5000)%Z.
Proof.
  intros [Hv He]%valid_finite. destruct (digits2_spec m) as [Hm _].
  assert (Zpos m < 2 ^ 53)%Z as Hm53.
  { unfold least_exp in Hv. pose proof (Z.pow_le_mono_r 2 (digits2 (Zpos m)) 53 ltac:(lia) ltac:(lia)). lia. }
  assert (let '(p, q) := ratio_of m e in 0 < p < 2 ^ 1024 ∧ 0 < q)%Z as Hpq.
  { unfold ratio_of. destruct (0 <=? e)%Z eqn:E.
    - split; [|lia]. pose proof (Z.pow_pos_nonneg 2 e ltac:(lia) ltac:(lia)).
      pose proof (Z.pow_le_mono_r 2 e 971 ltac:(lia) ltac:(lia)).
      replace (2 ^ 1024)%Z with (2 ^ 53 * 2 ^ 971)%Z by (rewrite <- Z.pow_add_r; [done|lia..]). nia.
    - pose proof (Z.pow_pos_nonneg 2 (- e) ltac:(lia) ltac:(lia)).
      pose proof (Z.pow_lt_mono_r 2 53 1024 ltac:(lia) ltac:(lia) ltac:(lia)). lia. }
  destruct (ratio_of m e) as [p q]. destruct Hpq as [[Hp1 Hp2] Hq].
  assert (-399 <= decimal_exponent p q <= 1025)%Z as Hn.
  { unfold decimal_exponent. destruct (q <=? p)%Z eqn:E.
    - unfold digit_count. pose proof (N_to_js_length (Z.to_N (p / q)) 1024) as Hl.
      assert (p / q < 2 ^ 1024)%Z by (apply Z.div_lt_upper_bound; nia).
      pose proof (Z.div_pos p q ltac:(lia) ltac:(lia)). specialize (Hl ltac:(lia)). lia.
    - pose proof (leading_zeros_bound 400 0 p q). lia. }
  set (n := decimal_exponent p q) in *. clearbody n.
  pose proof (shortest_from_bound 17 x p q n 1) as Hs. destruct (shortest_from 17 x p q n 1) as [d ex].
  destruct Hs as (j & Hj & -> & Hd).
  assert (Z.of_N d <= 2 ^ 1024 * 10 ^ 420)%Z as Hdb.
  { assert (0 < 10 ^ 420)%Z as HT by lia.
    assert (∀ K, 0 < K → K <= 10 ^ 420 → p * K + 1 <= 2 ^ 1024 * 10 ^ 420)%Z as Hup.
    { intros K. generalize dependent (2 ^ 1024)%Z. generalize dependent (10 ^ 420)%Z. intros T HT B HB. nia. }
    destruct (0 <=? j - n)%Z eqn:E.
    - pose proof (Z.pow_pos_nonneg 10 (j - n) ltac:(lia) ltac:(lia)) as HK.
      pose proof (Z.pow_le_mono_r 10 (j - n) 420 ltac:(lia) ltac:(lia)) as HK2.
      specialize (Hup _ HK HK2). set (K := (10 ^ (j - n))%Z) in *. clearbody K.
      assert (p * K / q <= p * K)%Z by (apply Z.div_le_upper_bound; nia).
      pose proof (Z.div_pos (p * K) q (Z.mul_nonneg_nonneg p K ltac:(lia) ltac:(lia)) ltac:(lia)). lia.
    - pose proof (Z.pow_pos_nonneg 10 (- (j - n)) ltac:(lia) ltac:(lia)) as HK.
      specialize (Hup 1%Z ltac:(lia) ltac:(lia)). set (K := (10 ^ (- (j - n)))%Z) in *. clearbody K.
      assert (1 <= q * K)%Z by nia.
      assert (p / (q * K) <= p)%Z by (apply Z.div_le_upper_bound; nia).
      pose proof (Z.div_pos p (q * K) ltac:(lia) ltac:(lia)). lia. }
  assert (d < 2 ^ 2600)%N as Hd2.
  { assert (2 ^ 1024 * 10 ^ 420 < 2 ^ 2600)%Z by (by vm_compute). lia. }
  pose proof (N_to_js_length d 2600 Hd2). lia.
Qed.

Definition sign_of (x : num) : bool := match x with S754_finite s _ _ => s | _ => false end.

(** The text of a finite number is a numeral, with a sign before it when negative. *)
Lemma Number_to_string_numeral x :
  is_finite x = true →
  ∃ ip fp ex,
    Number_to_string x = (if sign_of x then "-" else []) ++ numeral ip fp ex ∧ digits ip ∧ ip ≠ [] ∧ digits fp ∧
    (valid_num x = true → ex = None ∨ ∃ e, ex = Some e ∧ (-6000 <= e <= 6000)%Z).
Proof.
  intros Hx. destruct x as [s| | |s m e]; try done.
  { exists "0", [], None. split_and!; [done|by repeat constructor|done|constructor|by left]. }
  change (valid_num (S754_finite s m e)) with (valid_num (S754_finite false m e)).
  assert (∃ ip fp ex, positive_to_string (S754_finite false m e) m e = numeral ip fp ex
    ∧ digits ip ∧ ip ≠ [] ∧ digits fp ∧
    (valid_num (S754_finite false m e) = true → ex = None ∨ ∃ e, ex = Some e ∧ (-6000 <= e <= 6000)%Z))
    as (ip & fp & ex & Hn & H).
  { unfold positive_to_string. pose proof (magnitude_bound (S754_finite false m e) m e) as Hb.
    destruct (ratio_of m e) as [p q]. destruct (shortest_from _ _ _ _ _ _) as [d ex].
    destruct (strip_zeros_digits (reverse (N_to_js d))) as [H1 H2].
    - apply Forall_reverse, digits_N.
    - intros Hr. apply (f_equal reverse) in Hr. rewrite reverse_involutive in Hr. by apply N_to_js_nonempty in Hr.
    - destruct (digits_layout (reverse (strip_zeros_rev (reverse (N_to_js d)))) (Z.of_nat (length (N_to_js d)) + ex))
        as (ip & fp & ex' & Hl & Hi & Hne & Hf & Hex).
      + by apply Forall_reverse.
      + intros Hr. apply (f_equal reverse) in Hr. by rewrite reverse_involutive in Hr.
      + exists ip, fp, ex'. split_and!; [done..|]. intros Hv. specialize (Hb Hv).
        destruct Hex as [->| ->]; [by left|]. right. eexists. split; [done|]. lia. }
  exists ip, fp, ex. split_and!; [|apply H..]. cbn [Number_to_string sign_of]. rewrite Hn. by destruct s.
Qed.

(** ** Reading it back *)

Lemma digits_span a r : digits a → head_is is_digit r = false → span_digits (a ++ r) = (a, r).
Proof.
  intros Ha Hr. induction Ha as [|c a Hc Ha IH]; cbn [app span_digits].
  - destruct r as [|c r]; [done|]. cbn in *. by rewrite Hr.
  - by rewrite Hc, IH.
Qed.

Definition exponent_value (ex : option Z) : Z := default 0%Z ex.

Lemma digits_val_Z z : (0 <= z)%Z → ∃ ds, Z_to_js z = ds ∧ digits ds ∧ ds ≠ [] ∧ Z.of_N (digits_val ds) = z.
Proof.
  intros Hz. destruct z as [|p|p]; [|exists (N_to_js (Npos p))|lia].
  - exists "0". split_and!; [done|by repeat constructor|done|done].
  - split_and!; [done|apply digits_N|apply N_to_js_nonempty|]. by rewrite digits_val_N_to_js.
Qed.

Lemma parse_exponent_numeral ex :
  parse_exponent (match ex with None => [] | Some e => "e" ++ (if (e <? 0)%Z then "-" else "+") ++ Z_to_js (Z.abs e) end)
  = (exponent_value ex, []).
Proof.
  destruct ex as [e|]; [|done]. destruct (digits_val_Z (Z.abs e) ltac:(lia)) as (ds & -> & Hd & Hne & Hv).
  assert (span_digits ds = (ds, [])) as Hs by (rewrite <- (app_nil_r ds) at 1; by apply digits_span).
  destruct (Z.ltb_spec e 0); cbn; rewrite Hs; (destruct ds; [done|]); f_equal; rewrite Hv; lia.
Qed.

Lemma parse_unsigned_numeral neg ip fp ex :
  digits ip → ip ≠ [] → digits fp →
  parse_unsigned neg (numeral ip fp ex) =
  Some (of_decimal neg (digits_val (ip ++ fp)) (exponent_value ex - Z.of_nat (length fp)), []).
Proof.
  intros Hi Hne Hf. unfold parse_unsigned, numeral. rewrite digits_span; [|done|by destruct fp, ex].
  set (tail := match ex with None => [] | Some _ => _ end).
  assert (head_is is_digit tail = false ∧ head_is (λ c, c =? cu ".")%N tail = false) as [Ht1 Ht2]
    by (by destruct ex).
  assert ((match (match fp with [] => [] | _ :: _ => "." ++ fp end) ++ tail with
    | c :: r0 => if (c =? cu ".")%N then span_digits r0
                 else ([], (match fp with [] => [] | _ :: _ => "." ++ fp end) ++ tail)
    | [] => ([], (match fp with [] => [] | _ :: _ => "." ++ fp end) ++ tail) end) = (fp, tail)) as ->.
  { destruct fp as [|c fp].
    - cbn [app]. destruct tail as [|d tail]; [done|]. change ((d =? cu ".")%N = false) in Ht2. by rewrite Ht2.
    - cbn [app]. change (46 =? cu ".")%N with true. cbv iota. by apply (digits_span (c :: fp)). }
  destruct (ip ++ fp) eqn:E; [by apply app_eq_nil in E as [? _]|]. rewrite <- E.
  unfold tail. by rewrite parse_exponent_numeral.
Qed.

Lemma numeral_head ip fp ex : digits ip → ip ≠ [] → ∃ c r, numeral ip fp ex = c :: r ∧ is_digit c = true.
Proof. intros Hi Hne. destruct ip as [|c ip]; [done|]. apply Forall_cons in Hi as [Hc _]. by eexists _, _. Qed.

(** No unit of a numeral is a space. *)
Lemma numeral_no_space ip fp ex : digits ip → digits fp → Forall (λ c, is_space c = false) (numeral ip fp ex).
Proof.
  assert (∀ a, digits a → Forall (λ c, is_space c = false) a) as Hd.
  { intros a Ha. apply all_digits_no_space. unfold all_digits. rewrite forallb_forall. rewrite Forall_forall in Ha.
    intros c Hc. by apply Ha, list_elem_of_In. }
  intros Hi Hf. unfold numeral. apply Forall_app. split; [by apply Hd|]. apply Forall_app. split.
  - destruct fp; [done|]. apply Forall_app. split; [by repeat constructor|by apply Hd].
  - destruct ex as [e|]; [|done]. apply Forall_app. split; [by repeat constructor|].
    apply Forall_app. split; [destruct (e <? 0)%Z; by repeat constructor|].
    destruct (digits_val_Z (Z.abs e) ltac:(lia)) as (ds & -> & Hds & _). by apply Hd.
Qed.

Lemma Number_of_numeral (neg : bool) ip fp ex :
  digits ip → ip ≠ [] → digits fp →
  Number_of_string ((if neg then "-" else []) ++ numeral ip fp ex) =
  of_decimal neg (digits_val (ip ++ fp)) (exponent_value ex - Z.of_nat (length fp)).
Proof.
  intros Hi Hne Hf. pose proof (parse_unsigned_numeral neg ip fp ex Hi Hne Hf) as Hp.
  destruct (numeral_head ip fp ex Hi Hne) as (c & r & Hn & Hc).
  assert (parse_signed ((if neg then "-" else []) ++ numeral ip fp ex) =
    Some (of_decimal neg (digits_val (ip ++ fp)) (exponent_value ex - Z.of_nat (length fp)), [])) as Hs.
  { unfold parse_signed. destruct neg; cbn [app].
    - change (cu "-") with 45%N. change (45 =? 45)%N with true. rewrite Hn in *.
      assert (starts_with "Infinity" (c :: r) = false) as ->; [|done].
      apply not_true_iff_false. intros [t Ht]%starts_with_spec. injection Ht as -> _. by vm_compute in Hc.
    - rewrite Hn in *.
      assert ((c =? cu "-")%N = false) as -> by (apply N.eqb_neq; intros ->; by vm_compute in Hc).
      assert ((c =? cu "+")%N = false) as -> by (apply N.eqb_neq; intros ->; by vm_compute in Hc).
      assert (starts_with "Infinity" (c :: r) = false) as ->; [|done].
      apply not_true_iff_false. intros [t Ht]%starts_with_spec. injection Ht as -> _. by vm_compute in Hc. }
  unfold Number_of_string. rewrite trim_id.
  2: { apply trimmed_no_space. apply Forall_app. split; [destruct neg; by repeat constructor|].
       by apply numeral_no_space. }
  destruct neg; cbn [app] in *; [by rewrite Hs|]. rewrite Hn in *. rewrite Hs.
  (* a second unit is never the mark of another base *)
  assert (∀ d, (∃ t, r = d :: t) → (is_digit d || (d =? 46) || (d =? 101))%N = true) as Hd.
  { intros d (t & ->). unfold numeral in Hn. destruct ip as [|i [|j ip]]; [done| |].
    - injection Hn as -> Hn. destruct fp as [|f fp]; [|by injection Hn as <- _].
      destruct ex; [|done]. by injection Hn as <- _.
    - injection Hn as -> <- _. apply Forall_cons in Hi as [_ Hi]. apply Forall_cons in Hi as [-> _]. done. }
  destruct (decide (c = 48%N)) as [->|Hne0].
  - destruct r as [|d [|e r]]; [done..|]. specialize (Hd d ltac:(eauto)).
    assert ((ascii_lower d =? cu "x")%N = false ∧ (ascii_lower d =? cu "o")%N = false ∧
            (ascii_lower d =? cu "b")%N = false) as (-> & -> & ->); [|done].
    unfold is_digit, ascii_lower in *. change (cu "x") with 120%N. change (cu "o") with 111%N.
    change (cu "b") with 98%N.
    rewrite !orb_true_iff, andb_true_iff, !N.leb_le, !N.eqb_eq in Hd.
    destruct ((65 <=? d) && (d <=? 90))%N eqn:E;
      [rewrite andb_true_iff, !N.leb_le in E|rewrite andb_false_iff, !N.leb_gt in E]; rewrite !N.eqb_neq; lia.
  - repeat (case_match; try done).
Qed.

(** A sign and digits, as in an exponent. *)
Lemma Number_of_signed (neg : bool) ds :
  digits ds → ds ≠ [] →
  Number_of_string ((if neg then "-" else "+") ++ ds) = of_decimal neg (digits_val ds) 0.
Proof.
  intros Hd Hne. destruct neg.
  - pose proof (Number_of_numeral true ds [] None Hd Hne ltac:(constructor)) as H. unfold numeral in H.
    rewrite !app_nil_r in H. exact H.
  - pose proof (parse_unsigned_numeral false ds [] None Hd Hne ltac:(constructor)) as H. unfold numeral in H.
    rewrite !app_nil_r in H. unfold Number_of_string.
    rewrite trim_id.
    2: { apply trimmed_no_space. apply Forall_app. split; [by repeat constructor|].
         pose proof (numeral_no_space ds [] None Hd ltac:(constructor)) as H0. unfold numeral in H0.
         by rewrite !app_nil_r in H0. }
    cbn [app]. unfold parse_signed. change (43 =? cu "-")%N with false. change (43 =? cu "+")%N with true. cbv iota.
    assert (starts_with "Infinity" ds = false) as ->.
    { apply not_true_iff_false. intros [t ->]%starts_with_spec. apply Forall_cons in Hd as [Hd _]. by vm_compute in Hd. }
    by rewrite H.
Qed.

(** The number an exponent denotes. *)
Lemma of_decimal_small (s : bool) n :
  (n < 2 ^ 53)%N →
  is_integer (of_decimal s n 0) = true ∧
  floor_Z (of_decimal s n 0) = Some (if s then - Z.of_N n else Z.of_N n)%Z.
Proof.
  intros Hn. destruct n as [|p]; [by destruct s|]. unfold of_decimal.
  assert (0 <= digit_count (Npos p) <= 310)%Z as Hc.
  { unfold digit_count. pose proof (N_to_js_length (Npos p) 53 Hn). lia. }
  rewrite Z.add_0_r. destruct (Z.ltb_spec 310 (digit_count (Npos p))); [lia|].
  destruct (Z.ltb_spec (digit_count (Npos p)) (-330)); [lia|]. cbn [Z.leb Z.compare Z.pow].
  change (10 ^ 0)%Z with 1%Z. cbn [Z.to_pos]. rewrite Pos.mul_1_r.
  destruct (of_Z_pos_exact s p) as (m & e & Hr & He & Hm); [apply digits2_small; lia|].
  assert (binary_normalize 53 1024 (signed s p) 0 s = S754_finite s m e) as ->.
  { destruct s; exact Hr. }
  destruct (exact_floor s m e p He Hm) as [-> ->]. split; [done|]. by destruct s.
Qed.
