(* ===== verification/BillingExpr.v ===== *)
(** * BillingExpr: [features/pricing/lib/billing-expr.ts]

    Billing expressions: the registry of billing variables, the parser of
    tiers, and the request rules, a product of conditional multipliers the
    pricing editor builds and reads back.

    A function that may throw returns [option]: [None] is the exception, and
    [Some None] the [null] of the code. *)
From Stdlib Require Import Floats.SpecFloat.
From S2P Require Import Prelude JsString JsNumber JsValue JsRegex.

(** ** Variable registry *)

Inductive Side := side_input | side_output | side_condition.

Record BillingVar := {
  key : jstring;
  field : option jstring;
  tierField : option jstring;
  label : jstring;
  shortLabel : jstring;
  side : Side;
  isBase : bool;
  isConditionOnly : bool;
  group : option jstring;
}.

Definition BILLING_VARS : list BillingVar := [
  {| key := "p"; field := Some "inputPrice"; tierField := Some "input_unit_cost";
     label := "Input price"; shortLabel := "Input"; side := side_input;
     isBase := true; isConditionOnly := false; group := None |};
  {| key := "c"; field := Some "outputPrice"; tierField := Some "output_unit_cost";
     label := "Completion price"; shortLabel := "Output"; side := side_output;
     isBase := true; isConditionOnly := false; group := None |};
  {| key := "len"; field := None; tierField := None;
     label := "Input length"; shortLabel := "Length"; side := side_condition;
     isBase := false; isConditionOnly := true; group := None |};
  {| key := "cr"; field := Some "cacheReadPrice"; tierField := Some "cache_read_unit_cost";
     label := "Cache read price"; shortLabel := "Cache Read"; side := side_input;
     isBase := false; isConditionOnly := false; group := Some "cache" |};
  {| key := "cc"; field := Some "cacheCreatePrice"; tierField := Some "cache_create_unit_cost";
     label := "Cache create price"; shortLabel := "Cache Write"; side := side_input;
     isBase := false; isConditionOnly := false; group := Some "cache" |};
  {| key := "cc1h"; field := Some "cacheCreate1hPrice"; tierField := Some "cache_create_1h_unit_cost";
     label := "Cache create (1h) price"; shortLabel := "Cache Write (1h)"; side := side_input;
     isBase := false; isConditionOnly := false; group := Some "cache" |};
  {| key := "cc12h"; field := Some "cacheCreate12hPrice"; tierField := Some "cache_create_12h_unit_cost";
     label := "Cache create (12h) price"; shortLabel := "Cache Write (12h)"; side := side_input;
     isBase := false; isConditionOnly := false; group := Some "cache" |};
  {| key := "img"; field := Some "imagePrice"; tierField := Some "image_unit_cost";
     label := "Image input price"; shortLabel := "Image In"; side := side_input;
     isBase := false; isConditionOnly := false; group := Some "media" |};
  {| key := "img_o"; field := Some "imageOutputPrice"; tierField := Some "image_output_unit_cost";
     label := "Image output price"; shortLabel := "Image Out"; side := side_output;
     isBase := false; isConditionOnly := false; group := Some "media" |};
  {| key := "ai"; field := Some "audioInputPrice"; tierField := Some "audio_input_unit_cost";
     label := "Audio input price"; shortLabel := "Audio In"; side := side_input;
     isBase := false; isConditionOnly := false; group := Some "media" |};
  {| key := "ao"; field := Some "audioOutputPrice"; tierField := Some "audio_output_unit_cost";
     label := "Audio output price"; shortLabel := "Audio Out"; side := side_output;
     isBase := false; isConditionOnly := false; group := Some "media" |};
  {| key := "rt"; field := Some "reasoningOutputPrice"; tierField := Some "reasoning_output_unit_cost";
     label := "Reasoning output price"; shortLabel := "Reasoning output"; side := side_output;
     isBase := false; isConditionOnly := false; group := Some "reasoning" |}
].

Definition BILLING_PRICING_VARS : list BillingVar :=
  filter (λ v, isConditionOnly v = false) BILLING_VARS.

Definition BILLING_CONDITION_VARS : list jstring :=
  map key (filter (λ v, isBase v || isConditionOnly v = true) BILLING_VARS).

Definition BILLING_VAR_KEY_TO_FIELD : list (jstring * jstring) :=
  obj_of_entries (map (λ v, (key v, default [] (field v))) BILLING_PRICING_VARS).

Definition BILLING_EXTRA_VARS : list BillingVar :=
  filter (λ v, isBase v = false ∧ isConditionOnly v = false) BILLING_VARS.

(** Pairs (field of the tier, variable of the expression). *)
Definition BILLING_CACHE_VAR_MAP : list (jstring * jstring) :=
  map (λ v, (default [] (tierField v), key v)) BILLING_EXTRA_VARS.

(** The class [[\d.eE+-]] of the numerals of an expression. *)
Definition num_char (c : N) : bool := is_digit c || one_of ".eE+-" c.
(** The class [[\d.eE+]] of the numerals of a tier condition. *)
Definition cond_num_char (c : N) : bool := is_digit c || one_of ".eE+" c.

Definition BILLING_VAR_REGEX : regex :=
  RSeqs [RWordB; RGroup 1 (RAlts (map (λ v, RLit (key v)) BILLING_PRICING_VARS));
         RSpaces; RLit "*"; RSpaces; RGroup 2 (RPlus (RChar num_char))].

(** ** Request rule constants *)

Definition SOURCE_PARAM : jstring := "param".
Definition SOURCE_HEADER : jstring := "header".
Definition SOURCE_TIME : jstring := "time".

Definition MATCH_EQ : jstring := "eq".
Definition MATCH_CONTAINS : jstring := "contains".
Definition MATCH_GT : jstring := "gt".
Definition MATCH_GTE : jstring := "gte".
Definition MATCH_LT : jstring := "lt".
Definition MATCH_LTE : jstring := "lte".
Definition MATCH_EXISTS : jstring := "exists".
Definition MATCH_RANGE : jstring := "range".

Definition TIME_FUNCS : list jstring := ["hour"; "minute"; "weekday"; "month"; "day"].

(** Pairs (value, label). *)
Definition COMMON_TIMEZONES : list (jstring * jstring) := [
  ("Asia/Shanghai", "UTC+8 Shanghai (Asia/Shanghai)");
  ("UTC", "UTC");
  ("America/New_York", "UTC-5 New York (America/New_York)");
  ("America/Los_Angeles", "UTC-8 Los Angeles (America/Los_Angeles)");
  ("America/Chicago", "UTC-6 Chicago (America/Chicago)");
  ("Europe/London", "UTC+0 London (Europe/London)");
  ("Europe/Berlin", "UTC+1 Berlin (Europe/Berlin)");
  ("Asia/Tokyo", "UTC+9 Tokyo (Asia/Tokyo)");
  ("Asia/Singapore", "UTC+8 Singapore (Asia/Singapore)");
  ("Asia/Seoul", "UTC+9 Seoul (Asia/Seoul)");
  ("Australia/Sydney", "UTC+10 Sydney (Australia/Sydney)")
].

Definition RDigits : regex := RPlus (RChar is_digit).
Definition RDigits0 : regex := RStar (RChar is_digit).

Definition NUMERIC_LITERAL_REGEX : regex :=
  RSeqs [RBol; ROpt (RLit "-");
         RAlt (RSeqs [RDigits; ROpt (RLit "."); RDigits0]) (RSeq (RLit ".") RDigits);
         ROpt (RSeqs [RChar (one_of "eE"); ROpt (RChar (one_of "+-")); RDigits]);
         REol].

Inductive PHSource := src_param | src_header.

Record ParamHeaderCondition := {
  ph_source : PHSource;
  path : jstring;
  ph_mode : jstring;
  ph_value : jstring;
}.

Record TimeCondition := {
  timeFunc : jstring;
  timezone : jstring;
  t_mode : jstring;
  t_value : jstring;
  rangeStart : jstring;
  rangeEnd : jstring;
}.

Inductive RequestCondition :=
  | CTime (c : TimeCondition)
  | CParamHeader (c : ParamHeaderCondition).

Record RequestRuleGroup := {
  conditions : list RequestCondition;
  multiplier : jstring;
}.

Record TierCondition := { tc_var : jstring; tc_op : jstring; tc_value : num }.

(** A tier and its prices, by field name. *)
Record ParsedTier := {
  pt_label : jstring;
  pt_conditions : list TierCondition;
  pt_fields : list (jstring * num);
}.

#[export] Instance PHSource_eq_dec : EqDecision PHSource.
Proof. solve_decision. Defined.
#[export] Instance ParamHeaderCondition_eq_dec : EqDecision ParamHeaderCondition.
Proof. solve_decision. Defined.
#[export] Instance TimeCondition_eq_dec : EqDecision TimeCondition.
Proof. solve_decision. Defined.
#[export] Instance RequestCondition_eq_dec : EqDecision RequestCondition.
Proof. solve_decision. Defined.

(** ** Tier parser *)

Definition stripExprVersion (exprStr : jstring) : num * jstring :=
  if negb (truthy exprStr) then (of_Z 1, [])
  else
    match exec (RSeqs [RBol; RLit "v"; RGroup 1 RDigits; RLit ":";
                       RGroup 2 (RStar (RChar any_unit)); REol]) exprStr with
    | Some m => (Number_of_string (mg 1 m), mg 2 m)
    | None => (of_Z 1, exprStr)
    end.

Definition parseTierBody (bodyStr : jstring) : list (jstring * num) :=
  let coeffs := fold_left (λ coeffs m,
      let v := mg 1 m in
      if ohas v coeffs then coeffs
      else obj_set v (Number_of_string (mg 2 m)) coeffs)
    (match_all BILLING_VAR_REGEX bodyStr) [] in
  fold_left (λ tier vf,
      obj_set vf.2 (num_or (default nan (oget vf.1 coeffs)) zero) tier)
    BILLING_VAR_KEY_TO_FIELD [].

Definition RVar : regex := RAlts [RLit "p"; RLit "c"; RLit "len"].
Definition ROp : regex := RAlts [RLit "<"; RLit "<="; RLit ">"; RLit ">="].
Definition ROneCond : regex :=
  RSeqs [RVar; RSpaces; ROp; RSpaces; RPlus (RChar cond_num_char)].
Definition RAnd : regex := RSeqs [RSpaces; RLit "&&"; RSpaces].

(** Groups: 1 the conditions, 2 the label, 3 the body. *)
Definition tierRe : regex :=
  RSeqs [ROpt (RSeqs [RGroup 1 (RSeq ROneCond (RStar (RSeq RAnd ROneCond)));
                      RSpaces; RLit "?"; RSpaces]);
         RLit "tier("; RLit [34%N]; RGroup 2 (RStar (RChar (none_of [34%N]))); RLit [34%N];
         RLit ","; RSpaces; RGroup 3 (RPlus (RChar (none_of ")"))); RLit ")"].

Definition tierCondRe : regex :=
  RSeqs [RBol; RGroup 1 RVar; RSpaces; RGroup 2 ROp; RSpaces;
         RGroup 3 (RPlus (RChar cond_num_char)); REol].

Definition parseTierConditions (condStr : jstring) : list TierCondition :=
  if negb (truthy condStr) then []
  else omap (λ cp,
      (λ cm, {| tc_var := mg 1 cm; tc_op := mg 2 cm;
                tc_value := Number_of_string (mg 3 cm) |})
      <$> exec tierCondRe (trim cp)) (split_regex RAnd condStr).

Definition parseTiersFromExpr (exprStr : jstring) : list ParsedTier :=
  if negb (truthy exprStr) then []
  else
    let body := (stripExprVersion exprStr).2 in
    map (λ m,
      {| pt_label := mg 2 m;
         pt_conditions := parseTierConditions (mg 1 m);
         pt_fields := parseTierBody (mg 3 m) |})
      (match_all tierRe body).

(** The case mapping of the language, [s.toLowerCase()], is a parameter: it is
    the Unicode table. *)
Section tier_labels.
Variable toLowerCase : jstring → jstring.

Definition normalizeTierLabel (l : option jstring) : jstring :=
  match l with
  | None | Some [] => []
  | Some l =>
    let sign ascii wide both := RAlts [RSeq (RLit ascii) (ROpt (RChar (one_of "=＝")));
                                       RLit both; RSeq (RLit wide) (ROpt (RChar (one_of "=＝")))] in
    toLowerCase (replace_all (RPlus (RChar is_space)) ""
      (replace_all (sign ">" "＞" "≥") ">"
        (replace_all (sign "<" "＜" "≤") "<" l)))
  end.

Definition canRenderStructuredPricing (tiers : list ParsedTier)
  (matchedTierLabel : option jstring) (requireMatchedTier : bool) : bool :=
  match tiers with
  | [] => false
  | _ =>
    if negb requireMatchedTier then true
    else
      let normalizedLabel := normalizeTierLabel matchedTierLabel in
      truthy normalizedLabel &&
      existsb (λ tier, bool_decide (normalizeTierLabel (Some (pt_label tier)) = normalizedLabel)) tiers
  end.

End tier_labels.

(** ** Request rule parser *)

Definition depth_after (c : N) (depth : Z) : Z :=
  if (c =? cu "(")%N then (depth + 1)%Z else if (c =? cu ")")%N then (depth - 1)%Z else depth.

(** The scan of a top-level split: [cur] is the part read so far, reversed,
    and [skip] counts the units of a separator still to pass over. *)
Fixpoint splitTopLevel (sep : jstring) (depth : Z) (cur : jstring) (skip : nat) (s : jstring)
  : list jstring :=
  match s with
  | [] => [trim (reverse cur)]
  | c :: r =>
    match skip with
    | S k => splitTopLevel sep depth cur k r
    | O =>
      let depth := depth_after c depth in
      if (depth =? 0)%Z && starts_with sep s
      then trim (reverse cur) :: splitTopLevel sep depth [] (length sep - 1) r
      else splitTopLevel sep depth (c :: cur) 0 r
    end
  end.

Definition splitTopLevelMultiply (expr : jstring) : list jstring :=
  filter (λ s, truthy s = true) (splitTopLevel " * " 0 [] 0 expr).

Definition splitTopLevelAnd (expr : jstring) : list jstring :=
  filter (λ s, truthy s = true) (splitTopLevel " && " 0 [] 0 expr).

(** The parsed literal, [None] for [null]. *)
Definition parseExprLiteral (raw : jstring) : option jval :=
  let text := trim raw in
  if bool_decide (text = "true") || bool_decide (text = "false") then Some (JStr text)
  else if test NUMERIC_LITERAL_REGEX text then Some (JStr text)
  else match JSON_parse text with
       | Some JNull | None => None
       | Some v => Some v
       end.

Definition RTimeFunc : regex := RGroup 1 (RAlts (map RLit TIME_FUNCS)).
Definition RQuoted (n : nat) : regex :=
  RSeqs [RLit [34%N]; RGroup n (RPlus (RChar (none_of [34%N]))); RLit [34%N]].
Definition RNum (n : nat) : regex := RGroup n (RPlus (RChar num_char)).

Definition timeRangeRe (op cl : regex) : regex :=
  RSeqs [RBol; op; RTimeFunc; RLit "("; RQuoted 2; RLit ") >= "; RNum 3; RLit " || ";
         RBack 1; RLit "("; RLit [34%N]; RBack 2; RLit [34%N]; RLit ") < "; RNum 4; cl; REol].

Definition timeCompareRe : regex :=
  RSeqs [RBol; RTimeFunc; RLit "("; RQuoted 2; RLit ") ";
         RGroup 3 (RAlts [RLit "=="; RLit ">="; RLit "<"]); RLit " "; RNum 4; REol].

(** The operators of time conditions and of parameter comparisons. *)
Definition time_op_mode (op : jstring) : jstring :=
  if bool_decide (op = "==") then MATCH_EQ
  else if bool_decide (op = ">=") then MATCH_GTE
  else if bool_decide (op = "<") then MATCH_LT
  else MATCH_EQ.

Definition compare_op_mode (op : jstring) : jstring :=
  if bool_decide (op = ">") then MATCH_GT
  else if bool_decide (op = ">=") then MATCH_GTE
  else if bool_decide (op = "<") then MATCH_LT
  else MATCH_LTE.

Definition tryParseTimeCondition (expr : jstring) : option RequestCondition :=
  let range m := Some (CTime {|
    timeFunc := mg 1 m; timezone := mg 2 m;
    t_mode := MATCH_RANGE; t_value := []; rangeStart := mg 3 m;
    rangeEnd := mg 4 m |}) in
  match exec (timeRangeRe REmpty REmpty) expr with
  | Some m => range m
  | None =>
    match exec (timeRangeRe (RLit "(") (RLit ")")) expr with
    | Some m => range m
    | None =>
      match exec timeCompareRe expr with
      | Some m => Some (CTime {|
          timeFunc := mg 1 m; timezone := mg 2 m;
          t_mode := time_op_mode (mg 3 m);
          t_value := mg 4 m; rangeStart := []; rangeEnd := [] |})
      | None => None
      end
    end
  end.

(** A quoted string literal, escapes included. *)
Definition RString (n : nat) : regex :=
  RGroup n (RSeqs [RLit [34%N];
    RStar (RAlt (RChar (none_of [34%N; 92%N])) (RSeq (RLit "\") (RChar not_line_end)));
    RLit [34%N]]).

Definition headerExistsRe : regex :=
  RSeqs [RBol; RLit "header("; RQuoted 1; RLit ") != "; RLit [34%N; 34%N]; REol].
Definition paramExistsRe : regex := RSeqs [RBol; RLit "param("; RQuoted 1; RLit ") != nil"; REol].
Definition headerContainsRe : regex :=
  RSeqs [RBol; RLit "has(header("; RQuoted 1; RLit "), "; RString 2; RLit ")"; REol].
Definition paramContainsRe : regex :=
  RSeqs [RBol; RLit "param("; RQuoted 1; RLit ") != nil && has(param("; RQuoted 2; RLit "), ";
         RString 3; RLit ")"; REol].
Definition paramCompareRe : regex :=
  RSeqs [RBol; RLit "param("; RQuoted 1; RLit ") != nil && param("; RQuoted 2; RLit ") ";
         RGroup 3 (RAlts [RLit ">"; RLit ">="; RLit "<"; RLit "<="]); RLit " "; RNum 4; REol].
Definition equalsRe : regex :=
  RSeqs [RBol; RGroup 1 (RAlts [RLit "param"; RLit "header"]); RLit "("; RQuoted 2; RLit ") == ";
         RGroup 3 (RPlus (RChar not_line_end)); REol].

Definition mkPH (src : PHSource) (p m v : jstring) : RequestCondition :=
  CParamHeader {| ph_source := src; path := p; ph_mode := m; ph_value := v |}.

(** [JSON.parse(text) as string]: throws on a malformed literal. *)
Definition parse_string_literal (text : jstring) : option jstring :=
  match JSON_parse text with Some v => Some (to_js_string v) | None => None end.

(** The last alternative of the parser. *)
Definition tryParseEquals (expr : jstring) : option RequestCondition :=
  match exec equalsRe expr with
  | None => None
  | Some m =>
    match parseExprLiteral (mg 3 m) with
    | None => None
    | Some v =>
      Some (mkPH (if bool_decide (m_group 1 m = Some "header") then src_header else src_param)
              (mg 2 m) MATCH_EQ (to_js_string v))
    end
  end.

Definition same_path (m : rmatched) : bool := bool_decide (m_group 1 m = m_group 2 m).

Definition tryParseCompare (expr : jstring) : option RequestCondition :=
  match exec paramCompareRe expr with
  | Some m =>
    if same_path m
    then Some (mkPH src_param (mg 1 m)
                 (compare_op_mode (mg 3 m)) (mg 4 m))
    else tryParseEquals expr
  | None => tryParseEquals expr
  end.

Definition tryParseRequestCondition (expr : jstring) : option (option RequestCondition) :=
  match tryParseTimeCondition expr with
  | Some tc => Some (Some tc)
  | None =>
    match exec headerExistsRe expr with
    | Some m => Some (Some (mkPH src_header (mg 1 m) MATCH_EXISTS ""))
    | None =>
      match exec paramExistsRe expr with
      | Some m => Some (Some (mkPH src_param (mg 1 m) MATCH_EXISTS ""))
      | None =>
        match exec headerContainsRe expr with
        | Some m =>
          v ← parse_string_literal (mg 2 m);
          Some (Some (mkPH src_header (mg 1 m) MATCH_CONTAINS v))
        | None =>
          match exec paramContainsRe expr with
          | Some m =>
            if same_path m then
              v ← parse_string_literal (mg 3 m);
              Some (Some (mkPH src_param (mg 1 m) MATCH_CONTAINS v))
            else Some (tryParseCompare expr)
          | None => Some (tryParseCompare expr)
          end
        end
      end
    end
  end.

(** The loop over the conjuncts: stops at the first that is no condition. *)
Fixpoint parseConditions (andParts : list jstring) : option (option (list RequestCondition)) :=
  match andParts with
  | [] => Some (Some [])
  | ap :: rest =>
    cond ← tryParseRequestCondition (trim ap);
    match cond with
    | None => Some None
    | Some c => r ← parseConditions rest; Some (option_map (cons c) r)
    end
  end.

Definition ruleGroupRe : regex :=
  RSeqs [RBol; RLit "("; RGroup 1 (RPlus (RChar any_unit)); RLit " ? "; RNum 2; RLit " : 1)"; REol].

Definition tryParseRuleGroupFactor (part : jstring) : option (option RequestRuleGroup) :=
  match exec ruleGroupRe part with
  | None => Some None
  | Some m =>
    let conditionStr := mg 1 m in
    let multiplier := mg 2 m in
    cs ← parseConditions (splitTopLevelAnd conditionStr);
    match cs with
    | None | Some [] => Some None
    | Some conditions => Some (Some {| conditions := conditions; multiplier := multiplier |})
    end
  end.

Fixpoint parseGroups (parts : list jstring) : option (option (list RequestRuleGroup)) :=
  match parts with
  | [] => Some (Some [])
  | part :: rest =>
    g ← tryParseRuleGroupFactor part;
    match g with
    | None => Some None
    | Some group => r ← parseGroups rest; Some (option_map (cons group) r)
    end
  end.

Definition tryParseRequestRuleExpr (expr : jstring) : option (option (list RequestRuleGroup)) :=
  let trimmed := trim expr in
  if negb (truthy trimmed) then Some (Some [])
  else parseGroups (splitTopLevelMultiply trimmed).

(** ** Combine / split billing expr and request rules *)

(** The loop of [hasFullOuterParens]: false as soon as the depth is zero before the end. *)
Fixpoint outer_depth (depth : Z) (s : jstring) : bool :=
  match s with
  | [] => (depth =? 0)%Z
  | c :: r =>
    let depth := depth_after c depth in
    if (depth =? 0)%Z && truthy r then false else outer_depth depth r
  end.

Definition hasFullOuterParens (expr : jstring) : bool :=
  if negb (starts_with "(" expr) || negb (ends_with ")" expr) then false
  else outer_depth 0 expr.

(** The loop, each iteration of which removes at least one unit. *)
Fixpoint unwrapLoop (fuel : nat) (current : jstring) : jstring :=
  match fuel with
  | O => current
  | S f =>
    if hasFullOuterParens current then unwrapLoop f (trim (slice 1 (-1) current)) else current
  end.

Definition unwrapOuterParens (expr : jstring) : jstring :=
  let t := trim expr in unwrapLoop (length t) t.

(** The parts that are request rules and the others, in order. *)
Fixpoint partitionParts (parts : list jstring) : option (list jstring * list jstring) :=
  match parts with
  | [] => Some ([], [])
  | part :: rest =>
    parsed ← tryParseRequestRuleExpr part;
    '(rules, base) ← partitionParts rest;
    match parsed with
    | Some (_ :: _) => Some (part :: rules, base)
    | _ => Some (rules, part :: base)
    end
  end.

(** The pair (billingExpr, requestRuleExpr). *)
Definition splitBillingExprAndRequestRules (expr : jstring) : option (jstring * jstring) :=
  let trimmed := trim expr in
  if negb (truthy trimmed) then Some ([], [])
  else
    let parts := splitTopLevelMultiply trimmed in
    if length parts <=? 1 then Some (trimmed, [])
    else
      '(ruleParts, baseParts) ← partitionParts parts;
      match ruleParts, baseParts with
      | _ :: _, [base] => Some (unwrapOuterParens base, join " * " ruleParts)
      | _, _ => Some (trimmed, [])
      end.

Definition combineBillingExpr (baseExpr requestRuleExpr : jstring) : jstring :=
  let base := trim baseExpr in
  let rules := trim requestRuleExpr in
  if negb (truthy base) then []
  else if negb (truthy rules) then base
  else "(" ++ base ++ ") * " ++ rules.

(** ** Editor: empty constructors *)

Definition createEmptyCondition : ParamHeaderCondition :=
  {| ph_source := src_param; path := ""; ph_mode := MATCH_EQ; ph_value := "" |}.

Definition createEmptyTimeCondition : TimeCondition :=
  {| timeFunc := "hour"; timezone := "Asia/Shanghai"; t_mode := MATCH_GTE; t_value := "";
     rangeStart := ""; rangeEnd := "" |}.

Definition createEmptyRuleGroup : RequestRuleGroup :=
  {| conditions := [CParamHeader createEmptyCondition]; multiplier := "" |}.

Definition createEmptyTimeRuleGroup : RequestRuleGroup :=
  {| conditions := [CTime createEmptyTimeCondition]; multiplier := "" |}.

(** ** Editor: match options *)

(** Pairs (value, labelKey). *)
Definition getRequestRuleMatchOptions (source : jstring) : list (jstring * jstring) :=
  if bool_decide (source = SOURCE_TIME) then
    [(MATCH_EQ, "Equals"); (MATCH_GTE, "Greater than or equal"); (MATCH_LT, "Less than");
     (MATCH_RANGE, "Overnight range")]
  else
    let base := [(MATCH_EQ, "Equals"); (MATCH_CONTAINS, "Contains"); (MATCH_EXISTS, "Exists")] in
    if bool_decide (source = SOURCE_HEADER) then base
    else base ++ [(MATCH_GT, "Greater than"); (MATCH_GTE, "Greater than or equal");
                  (MATCH_LT, "Less than"); (MATCH_LTE, "Less than or equal")].

(** ** Editor: normalize a single condition *)

(** A condition whose fields may be missing; the values may be of any type. *)
Record PartialCondition := {
  p_source : option jstring;
  p_path : option jstring;
  p_timeFunc : option jstring;
  p_timezone : option jstring;
  p_mode : option jstring;
  p_value : jval;
  p_rangeStart : jval;
  p_rangeEnd : jval;
}.

Definition source_text (s : PHSource) : jstring :=
  match s with src_param => SOURCE_PARAM | src_header => SOURCE_HEADER end.

Definition to_partial (c : RequestCondition) : PartialCondition :=
  match c with
  | CTime t =>
    {| p_source := Some SOURCE_TIME; p_path := None; p_timeFunc := Some (timeFunc t);
       p_timezone := Some (timezone t); p_mode := Some (t_mode t); p_value := JStr (t_value t);
       p_rangeStart := JStr (rangeStart t); p_rangeEnd := JStr (rangeEnd t) |}
  | CParamHeader p =>
    {| p_source := Some (source_text (ph_source p)); p_path := Some (path p); p_timeFunc := None;
       p_timezone := None; p_mode := Some (ph_mode p); p_value := JStr (ph_value p);
       p_rangeStart := JUndefined; p_rangeEnd := JUndefined |}
  end.

Definition isTimeFunc (value : option jstring) : bool :=
  match value with Some v => has v TIME_FUNCS | None => false end.

(** [v == null ? '' : String(v)] *)
Definition string_or_empty (v : jval) : jstring :=
  match v with JUndefined | JNull => [] | _ => to_js_string v end.

(** The mode when the source offers it, else the default. *)
Definition mode_or (source : jstring) (mode : option jstring) (dflt : jstring) : jstring :=
  match mode with
  | Some m => if existsb (λ item, bool_decide (item.1 = m)) (getRequestRuleMatchOptions source)
              then m else dflt
  | None => dflt
  end.

Definition normalizeCondition (cond : option PartialCondition) : RequestCondition :=
  let get {A} (f : PartialCondition → A) (d : A) := match cond with Some c => f c | None => d end in
  let source := get p_source None in
  if bool_decide (source = Some SOURCE_TIME) then
    CTime {| timeFunc := if isTimeFunc (get p_timeFunc None) then default [] (get p_timeFunc None)
                         else "hour";
             timezone := ostr_or (get p_timezone None) "Asia/Shanghai";
             t_mode := mode_or SOURCE_TIME (get p_mode None) MATCH_GTE;
             t_value := string_or_empty (get p_value JUndefined);
             rangeStart := string_or_empty (get p_rangeStart JUndefined);
             rangeEnd := string_or_empty (get p_rangeEnd JUndefined) |}
  else
    let src := if bool_decide (source = Some SOURCE_HEADER) then src_header else src_param in
    CParamHeader {| ph_source := src;
                    path := ostr_or (get p_path None) "";
                    ph_mode := mode_or (source_text src) (get p_mode None) MATCH_EQ;
                    ph_value := string_or_empty (get p_value JUndefined) |}.

(** ** Editor: build expression strings *)

Definition is_numeric (s : jstring) : bool := test NUMERIC_LITERAL_REGEX s.

Definition buildExprLiteral (mode value : jstring) : jstring :=
  let text := trim value in
  if bool_decide (mode = MATCH_CONTAINS) then quote text
  else if bool_decide (text = "true") || bool_decide (text = "false") then text
  else if is_numeric text then text
  else quote text.

Definition time_mode_op (mode : jstring) : jstring :=
  if bool_decide (mode = MATCH_EQ) then "=="
  else if bool_decide (mode = MATCH_GTE) then ">="
  else if bool_decide (mode = MATCH_LT) then "<"
  else "==".

Definition buildTimeConditionExpr (cond : TimeCondition) : jstring :=
  match normalizeCondition (Some (to_partial (CTime cond))) with
  | CTime n =>
    let fn := timeFunc n ++ "(" ++ quote (timezone n) ++ ")" in
    if bool_decide (t_mode n = MATCH_RANGE) then
      let s := trim (rangeStart n) in
      let e := trim (rangeEnd n) in
      if negb (is_numeric s) || negb (is_numeric e) then []
      else fn ++ " >= " ++ s ++ " || " ++ fn ++ " < " ++ e
    else
      let v := trim (t_value n) in
      if negb (is_numeric v) then []
      else fn ++ " " ++ time_mode_op (t_mode n) ++ " " ++ v
  | CParamHeader _ => []
  end.

Definition compare_mode_op (mode : jstring) : option jstring :=
  if bool_decide (mode = MATCH_GT) then Some ">"
  else if bool_decide (mode = MATCH_GTE) then Some ">="
  else if bool_decide (mode = MATCH_LT) then Some "<"
  else if bool_decide (mode = MATCH_LTE) then Some "<="
  else None.

Definition buildRequestConditionExpr (cond : RequestCondition) : jstring :=
  match cond with
  | CTime t => buildTimeConditionExpr t
  | CParamHeader _ =>
    match normalizeCondition (Some (to_partial cond)) with
    | CParamHeader n =>
      let path := trim (path n) in
      if negb (truthy path) then []
      else
        let sourceExpr := source_text (ph_source n) ++ "(" ++ quote path ++ ")" in
        let literal := buildExprLiteral (ph_mode n) (ph_value n) in
        if bool_decide (ph_mode n = MATCH_EXISTS) then
          match ph_source n with
          | src_header => sourceExpr ++ " != " ++ [34%N; 34%N]
          | src_param => sourceExpr ++ " != nil"
          end
        else if bool_decide (ph_mode n = MATCH_CONTAINS) then
          match ph_source n with
          | src_header => "has(" ++ sourceExpr ++ ", " ++ literal ++ ")"
          | src_param => sourceExpr ++ " != nil && has(" ++ sourceExpr ++ ", " ++ literal ++ ")"
          end
        else
          match compare_mode_op (ph_mode n) with
          | Some op =>
            let numText := trim (ph_value n) in
            if negb (is_numeric numText) then []
            else sourceExpr ++ " != nil && " ++ sourceExpr ++ " " ++ op ++ " " ++ numText
          | None => sourceExpr ++ " == " ++ literal
          end
    | CTime _ => []
    end
  end.

Definition buildRuleGroupFactor (group : RequestRuleGroup) : jstring :=
  let multiplier := trim (multiplier group) in
  if negb (is_numeric multiplier) then []
  else
    let condExprs := filter (λ s, truthy s = true)
                       (map buildRequestConditionExpr (conditions group)) in
    match condExprs with
    | [] => []
    | _ =>
      let combined :=
        match condExprs with
        | [e] => e
        | _ => join " && " (map (λ e, if includes " || " e then "(" ++ e ++ ")" else e) condExprs)
        end in
      "(" ++ combined ++ " ? " ++ multiplier ++ " : 1)"
    end.

Definition buildRequestRuleExpr (groups : list RequestRuleGroup) : jstring :=
  join " * " (filter (λ s, truthy s = true) (map buildRuleGroupFactor groups)).

