(* ===== verification/BillingRules.v ===== *)
(** * BillingRules: the request rules the editor builds are read back

    Theorems about [BillingExpr]: splitting at the top level, the texts of the
    conditions, and the round trip of rule expressions. *)
From Stdlib Require Import Floats.SpecFloat.
From S2P Require Import Prelude JsString JsNumber JsValue JsJson JsRegex BillingExpr.

(** ** Splitting at the top level *)

Definition depth_all (w : jstring) (d : Z) : Z := fold_left (λ d c, depth_after c d) w d.

Lemma depth_all_app a b d : depth_all (a ++ b) d = depth_all b (depth_all a d).
Proof. apply fold_left_app. Qed.

(** A run without a split. *)
Lemma splitTopLevel_run sep w r d cur :
  (∀ w1 c w2, w = w1 ++ c :: w2 → depth_all (w1 ++ [c]) d = 0%Z →
              starts_with sep (c :: w2 ++ r) = false) →
  splitTopLevel sep d cur 0 (w ++ r) = splitTopLevel sep (depth_all w d) (reverse w ++ cur) 0 r.
Proof.
  revert d cur. induction w as [|c w IH]; intros d cur H; [done|].
  cbn [app splitTopLevel].
  assert ((depth_after c d =? 0)%Z && starts_with sep (c :: w ++ r) = false) as ->.
  { destruct (Z.eqb_spec (depth_after c d) 0) as [E|E]; [|done]. by apply (H [] c w). }
  rewrite IH.
  - by rewrite reverse_cons, <- app_assoc.
  - intros w1 c' w2 -> Hd. by apply (H (c :: w1) c' w2).
Qed.

(** A separator that starts with a space and a unit [m] cannot start in a run
    without [m] that is not followed by [m]. *)
Lemma no_separator m t w1 c w2 r w :
  w = w1 ++ c :: w2 → m ∉ w → head_is (N.eqb m) r = false →
  starts_with (32%N :: m :: t) (c :: w2 ++ r) = false.
Proof.
  intros -> Hm Hr. apply not_elem_of_app in Hm as [_ Hm]. apply not_elem_of_cons in Hm as [_ Hm].
  cbn [starts_with]. destruct (32 =? c)%N; [|done]. cbn [andb].
  destruct w2 as [|d w2]; cbn [app].
  - destruct r as [|d r]; [done|]. simpl in Hr. by rewrite Hr.
  - apply not_elem_of_cons in Hm as [Hd _]. by apply N.eqb_neq in Hd as ->.
Qed.

Section split_join.
Variables (m : N) (t : jstring).
Let sep : jstring := 32%N :: m :: t.
Hypothesis Hm : m ≠ 32%N.
Hypothesis Hsep : ∀ cur r,
  splitTopLevel sep 0 cur 0 (sep ++ r) = trim (reverse cur) :: splitTopLevel sep 0 [] 0 r.

Lemma splitTopLevel_join parts :
  parts ≠ [] → Forall (λ p, m ∉ p ∧ depth_all p 0 = 0%Z) parts →
  splitTopLevel sep 0 [] 0 (join sep parts) = map trim parts.
Proof using Hm Hsep.
  intros Hne HF. induction HF as [|p parts [Hp Hd] HF IH]; [done|].
  destruct parts as [|q parts].
  - cbn [join map]. rewrite <- (app_nil_r p) at 1. rewrite splitTopLevel_run.
    + cbn [splitTopLevel]. by rewrite app_nil_r, reverse_involutive.
    + intros. by eapply no_separator.
  - change (join sep (p :: q :: parts)) with (p ++ sep ++ join sep (q :: parts)).
    rewrite splitTopLevel_run.
    + rewrite Hd, Hsep, app_nil_r, reverse_involutive, IH by done. done.
    + intros. eapply no_separator; [done|done|]. simpl. by apply N.eqb_neq.
Qed.
End split_join.

Lemma filter_truthy_id l : Forall (λ s, s ≠ []) l → filter (λ s, truthy s = true) l = l.
Proof.
  induction 1 as [|s l Hs Hl IH]; [done|]. rewrite filter_cons, decide_True, IH; [done|].
  by apply truthy_spec.
Qed.

Lemma map_trim_id l : Forall trimmed l → map trim l = l.
Proof. induction 1 as [|s l Hs Hl IH]; [done|]. simpl. by rewrite trim_id, IH. Qed.

(** Well-formed operands of a top-level split on a separator with unit [m]. *)
Definition operand (m : N) (p : jstring) : Prop :=
  p ≠ [] ∧ trimmed p ∧ m ∉ p ∧ depth_all p 0 = 0%Z.

Lemma splitTopLevelMultiply_join parts :
  parts ≠ [] → Forall (operand (cu "*")) parts →
  splitTopLevelMultiply (join " * " parts) = parts.
Proof.
  intros Hne HF. unfold splitTopLevelMultiply.
  change " * " with (32%N :: cu "*" :: [32%N]). rewrite splitTopLevel_join; [|done|done|done|].
  - rewrite map_trim_id, filter_truthy_id; [done| |]; (eapply Forall_impl; [exact HF|]); unfold operand; naive_solver.
  - eapply Forall_impl; [exact HF|]. unfold operand; naive_solver.
Qed.

Lemma splitTopLevelAnd_join parts :
  parts ≠ [] → Forall (operand (cu "&")) parts →
  splitTopLevelAnd (join " && " parts) = parts.
Proof.
  intros Hne HF. unfold splitTopLevelAnd.
  change " && " with (32%N :: cu "&" :: "& "). rewrite splitTopLevel_join; [|done|done|done|].
  - rewrite map_trim_id, filter_truthy_id; [done| |]; (eapply Forall_impl; [exact HF|]); unfold operand; naive_solver.
  - eapply Forall_impl; [exact HF|]. unfold operand; naive_solver.
Qed.

(** ** Numerals *)

Lemma is_numeric_units s : is_numeric s = true → s ≠ [] ∧ Forall (λ c, num_char c = true) s.
Proof.
  intros H. split; [by intros ->|].
  apply (test_units (RSeqs [ROpt (RLit "-");
         RAlt (RSeqs [RDigits; ROpt (RLit "."); RDigits0]) (RSeq (RLit ".") RDigits);
         ROpt (RSeqs [RChar (one_of "eE"); ROpt (RChar (one_of "+-")); RDigits])])) in H; [|done].
  eapply Forall_impl; [exact H|]. intros c Hc.
  cbn [reads_unit RSeqs foldr ROpt RDigits RDigits0 RPlus] in Hc.
  unfold num_char. apply orb_true_iff.
  assert (∀ w : jstring, forallb (one_of ".eE+-") w = true → c ∈ w → one_of ".eE+-" c = true) as Hlit.
  { intros w Hw Hc'. rewrite forallb_forall in Hw. apply Hw. by apply list_elem_of_In. }
  assert (∀ w : jstring, forallb (one_of ".eE+-") w = true → one_of w c = true → one_of ".eE+-" c = true) as Hof.
  { intros w Hw Hc'. unfold one_of in Hc' at 1. apply existsb_exists in Hc' as (d & Hd & ->%N.eqb_eq).
    rewrite forallb_forall in Hw. by apply Hw. }
  repeat match goal with H : _ ∨ _ |- _ => destruct H as [H|H] end;
    first [done | by left | by right; eapply Hlit; [|exact Hc] | by right; eapply Hof; [|exact Hc]].
Qed.

Lemma num_char_cases c : num_char c = true → (48 ≤ c ≤ 57)%N ∨ c ∈ (".eE+-" : jstring).
Proof.
  unfold num_char. intros [H|H]%orb_true_iff; [left; by apply is_digit_spec|right].
  unfold one_of in H. apply existsb_exists in H as (d & Hd & ->%N.eqb_eq). by apply list_elem_of_In.
Qed.

(** A unit that cannot occur in a numeral. *)
Lemma num_char_false c : num_char c = false → ∀ s, is_numeric s = true → c ∉ s.
Proof.
  intros Hc s Hs Hin. apply is_numeric_units in Hs as [_ HF]. rewrite Forall_forall in HF.
  specialize (HF c Hin). simpl in HF. congruence.
Qed.

Lemma num_char_no_space c : num_char c = true → is_space c = false.
Proof.
  intros [H|H]%num_char_cases.
  - assert (all_digits [c] = true) as Hd by (simpl; rewrite andb_true_r; by apply is_digit_spec).
    apply all_digits_no_space in Hd. by apply Forall_cons in Hd as [? _].
  - repeat (apply elem_of_cons in H as [->|H]; [done|]). by apply elem_of_nil in H.
Qed.

Lemma is_numeric_trimmed s : is_numeric s = true → trimmed s.
Proof.
  intros [_ H]%is_numeric_units. apply trimmed_no_space. eapply Forall_impl; [exact H|].
  apply num_char_no_space.
Qed.

Lemma depth_after_plain c d : c ≠ cu "(" → c ≠ cu ")" → depth_after c d = d.
Proof. unfold depth_after. intros H1%N.eqb_neq H2%N.eqb_neq. by rewrite H1, H2. Qed.

Lemma depth_all_plain w d : cu "(" ∉ w → cu ")" ∉ w → depth_all w d = d.
Proof.
  revert d. induction w as [|c w IH]; intros d H1 H2; [done|].
  apply not_elem_of_cons in H1 as [? ?], H2 as [? ?]. change (depth_all (c :: w) d) with (depth_all w (depth_after c d)).
  rewrite depth_after_plain by done. by apply IH.
Qed.

Lemma depth_numeric s d : is_numeric s = true → depth_all s d = d.
Proof. intros H. apply depth_all_plain; by apply num_char_false. Qed.

(** ** Plain texts *)

(** A unit with no role in the syntax of expressions. *)
Definition plain_unit (c : N) : bool :=
  ((32 <=? c) && (c <? 65536))%N && none_of ([34%N; 92%N] ++ "()&*?|") c
  && negb (is_lead c) && negb (is_trail c) && negb (is_line_end c).

Lemma plain_unit_spec c :
  plain_unit c = true →
  (32 ≤ c < 65536)%N ∧ c ∉ [34%N; 92%N] ++ "()&*?|" ∧
  is_lead c = false ∧ is_trail c = false ∧ is_line_end c = false.
Proof.
  unfold plain_unit. rewrite !andb_true_iff, !negb_true_iff, N.leb_le, N.ltb_lt.
  intros (((([? ?] & Hno) & ?) & ?) & ?). split_and!; [done..| |done|done|done].
  intros Hin. unfold none_of, one_of in Hno. apply negb_true_iff in Hno.
  assert (existsb (N.eqb c) ([34%N; 92%N] ++ "()&*?|") = true) as H'; [|congruence].
  apply existsb_exists. exists c. split; [by apply list_elem_of_In|apply N.eqb_refl].
Qed.

Definition plain (s : jstring) : Prop := Forall (λ c, plain_unit c = true) s ∧ trimmed s.

#[export] Instance plain_dec s : Decision (plain s).
Proof. unfold plain. apply _. Defined.

Lemma plain_not_in c s : plain_unit c = false → plain s → c ∉ s.
Proof.
  intros Hc [HF _] Hin. rewrite Forall_forall in HF. specialize (HF c Hin). simpl in HF. congruence.
Qed.

Lemma plain_units s : plain s → valid_units s.
Proof.
  intros [HF _]. eapply Forall_impl; [exact HF|]. simpl. intros c H. apply plain_unit_spec in H. lia.
Qed.

Lemma quote_unit_plain c : plain_unit c = true → quote_unit c = [c].
Proof.
  intros (Hr & Hno & Hl & Ht & _)%plain_unit_spec. unfold quote_unit.
  rewrite Hl, Ht, !orb_false_r.
  assert (∀ n, n ∈ [34%N; 92%N] ++ "()&*?|" → (c =? n)%N = false) as Hne.
  { intros n Hn. apply N.eqb_neq. intros ->. done. }
  rewrite (Hne 34%N), (Hne 92%N) by (vm_compute; repeat constructor).
  repeat match goal with |- context [(c =? ?n)%N] => destruct (N.eqb_spec c n); [lia|] end.
  destruct (N.ltb_spec c 32); [lia|done].
Qed.

Lemma quote_plain s : plain s → quote s = 34%N :: s ++ [34%N].
Proof.
  intros [HF _]. unfold quote. cbn [app]. f_equal. f_equal.
  induction HF as [|c s Hc HF IH]; [done|]. destruct s as [|d s].
  - cbn [quote_units]. by apply quote_unit_plain.
  - change (quote_units (c :: d :: s)) with
      (if is_lead c && is_trail d then c :: d :: quote_units s else quote_unit c ++ quote_units (d :: s)).
    rewrite IH, quote_unit_plain by done. by apply plain_unit_spec in Hc as (_ & _ & -> & _).
Qed.

Lemma plain_no_quote s : plain s → Forall (λ c, none_of [34%N] c = true) s.
Proof.
  intros [HF _]. eapply Forall_impl; [exact HF|]. simpl. intros c (_ & Hno & _)%plain_unit_spec.
  unfold none_of, one_of. simpl. destruct (N.eqb_spec c 34) as [->|?]; [|done].
  destruct Hno. constructor.
Qed.

Lemma plain_no_line_end s : plain s → Forall (λ c, not_line_end c = true) s.
Proof.
  intros [HF _]. eapply Forall_impl; [exact HF|]. simpl. unfold not_line_end.
  by intros c (_ & _ & _ & _ & ->)%plain_unit_spec.
Qed.

Lemma depth_plain s d : plain s → depth_all s d = d.
Proof. intros H. apply depth_all_plain; by apply plain_not_in. Qed.

(** ** Pattern lemmas for the texts of conditions *)

(** A quoted plain text. *)
Lemma match_quoted {A} n (k : rstate → option A) b p r cs :
  p ≠ [] → Forall (λ c, none_of [34%N] c = true) p →
  rmatch (RQuoted n) k (mkState b (34%N :: p ++ 34%N :: r) cs)
  = k (mkState (34%N :: reverse p ++ 34%N :: b) r ((n, p) :: cs)).
Proof.
  intros Hne Hp. change (34%N :: p ++ 34%N :: r) with ([34%N] ++ p ++ [34%N] ++ r).
  unfold RQuoted, RSeqs. cbn [foldr]. rewrite rmatch_seq, rmatch_lit_app, rmatch_seq.
  change (reverse [34%N] ++ b) with (34%N :: b).
  rewrite group_plus_det; [|done|done|done|].
  - rewrite rmatch_seq, rmatch_lit_app. done.
  - intros w1 w2 -> _ Hne2. rewrite rmatch_seq. apply rmatch_lit_fail.
    apply Forall_app in Hp as [_ Hp]. destruct w2 as [|c w2]; [done|].
    apply Forall_cons in Hp as [Hc _]. cbn [rrest app starts_with].
    by destruct (N.eqb_spec 34 c) as [<-|?].
Qed.

(** A numeral followed by a unit no numeral has, or by the end. *)
Lemma match_num {A} n (k : rstate → option A) b v r cs :
  is_numeric v = true → head_is num_char r = false →
  (∀ w1 w2, v = w1 ++ w2 → w1 ≠ [] → w2 ≠ [] → k (mkState (reverse w1 ++ b) (w2 ++ r) ((n, w1) :: cs)) = None) →
  rmatch (RNum n) k (mkState b (v ++ r) cs) = k (mkState (reverse v ++ b) r ((n, v) :: cs)).
Proof. intros [? ?]%is_numeric_units ? ?. by apply group_plus_det. Qed.

(** A numeral whose continuation accepts. *)
Lemma match_num_run {A} n (k : rstate → option A) b v r cs x :
  is_numeric v = true → head_is num_char r = false →
  k (mkState (reverse v ++ b) r ((n, v) :: cs)) = Some x →
  rmatch (RNum n) k (mkState b (v ++ r) cs) = Some x.
Proof. intros [? ?]%is_numeric_units Hr Hk. by apply group_plus_run. Qed.

Lemma match_num_end {A} n (k : rstate → option A) b v cs x :
  is_numeric v = true → k (mkState (reverse v ++ b) [] ((n, v) :: cs)) = Some x →
  rmatch (RNum n) k (mkState b v cs) = Some x.
Proof. intros Hv Hk. rewrite <- (app_nil_r v). by apply match_num_run. Qed.

(** A continuation that starts with a literal outside numerals. *)
Lemma num_then_lit {A} (k : rstate → option A) n b v r cs c w w1 w2 :
  is_numeric v = true → num_char c = false → v = w1 ++ w2 → w2 ≠ [] →
  rmatch (RLit (c :: w)) k (mkState (reverse w1 ++ b) (w2 ++ r) ((n, w1) :: cs)) = None.
Proof.
  intros [_ Hv]%is_numeric_units Hc -> Hne. apply Forall_app in Hv as [_ Hv].
  destruct w2 as [|d w2]; [done|]. apply Forall_cons in Hv as [Hd _].
  apply rmatch_lit_fail. cbn [rrest app starts_with]. destruct (N.eqb_spec c d); [congruence|done].
Qed.

(** The names of the time functions. *)
Lemma match_time_func {A} (k : rstate → option A) b f r :
  f ∈ TIME_FUNCS →
  rmatch RTimeFunc k (mkState b (f ++ r) [])
  = k (mkState (reverse f ++ b) r [(1, f)]).
Proof.
  intros Hf. unfold TIME_FUNCS in Hf.
  unfold RTimeFunc. cbn [rmatch rbefore rcaps].
  let a := eval vm_compute in (RAlts (map RLit TIME_FUNCS)) in
    change (RAlts (map RLit TIME_FUNCS)) with a.
  repeat (apply elem_of_cons in Hf as [->|Hf]).
  all: try by apply elem_of_nil in Hf.
  all: rewrite ?rmatch_alt; repeat (rewrite rmatch_lit_app || rewrite rmatch_lit_fail by done).
  all: cbn [rbefore rrest rcaps]; rewrite group_text; by destruct (k _).
Qed.


(** ** Conditions that are read back *)

(** The conditions in normal form whose text the parser understands: every
    kind but the containment and the comparisons of a parameter. *)
Inductive readable : RequestCondition → Prop :=
  | readable_exists src p :
    plain p → p ≠ [] → readable (mkPH src p MATCH_EXISTS "")
  | readable_contains p v :
    plain p → p ≠ [] → plain v → readable (mkPH src_header p MATCH_CONTAINS v)
  | readable_equals src p v :
    plain p → p ≠ [] → plain v → readable (mkPH src p MATCH_EQ v)
  | readable_compare f tz m v :
    f ∈ TIME_FUNCS → plain tz → tz ≠ [] → m ∈ [MATCH_EQ; MATCH_GTE; MATCH_LT] →
    is_numeric v = true →
    readable (CTime {| timeFunc := f; timezone := tz; t_mode := m; t_value := v;
                       rangeStart := ""; rangeEnd := "" |})
  | readable_range f tz s e :
    f ∈ TIME_FUNCS → plain tz → tz ≠ [] → is_numeric s = true → is_numeric e = true →
    readable (CTime {| timeFunc := f; timezone := tz; t_mode := MATCH_RANGE; t_value := "";
                       rangeStart := s; rangeEnd := e |}).

Definition quoted (s : jstring) : jstring := 34%N :: s ++ [34%N].

Definition literal_text (v : jstring) : jstring := buildExprLiteral MATCH_EQ v.

Lemma ostr_or_ne p d : p ≠ [] → ostr_or (Some p) d = p.
Proof. by destruct p. Qed.

Lemma trim_plain p : plain p → trim p = p.
Proof. intros [_ ?]. by apply trim_id. Qed.

Lemma isTimeFunc_in f : f ∈ TIME_FUNCS → isTimeFunc (Some f) = true.
Proof. intros. by apply has_spec. Qed.

(** A readable condition is in normal form. *)
Definition normal (c : RequestCondition) : Prop := normalizeCondition (Some (to_partial c)) = c.

Lemma mode_or_offered source m d :
  has m (map fst (getRequestRuleMatchOptions source)) = true → mode_or source (Some m) d = m.
Proof.
  unfold mode_or. intros H%has_spec. apply list_elem_of_In, in_map_iff in H as (item & <- & Hin).
  assert (existsb (λ i, bool_decide (i.1 = item.1)) (getRequestRuleMatchOptions source) = true) as ->; [|done].
  apply existsb_exists. exists item. split; [done|]. by apply bool_decide_eq_true.
Qed.

Lemma normal_ph src p m v :
  has m (map fst (getRequestRuleMatchOptions (source_text src))) = true → normal (mkPH src p m v).
Proof.
  intros Hm. unfold normal, mkPH, normalizeCondition. cbn -[mode_or ostr_or].
  assert (∀ q, ostr_or (Some q) "" = q) as -> by by intros [|? ?]. destruct src; cbn -[mode_or ostr_or].
  - change (bool_decide (Some SOURCE_PARAM = Some SOURCE_TIME)) with false. cbn -[mode_or].
    change (bool_decide (Some SOURCE_PARAM = Some SOURCE_HEADER)) with false. by rewrite mode_or_offered.
  - change (bool_decide (Some SOURCE_HEADER = Some SOURCE_TIME)) with false. cbn -[mode_or].
    by rewrite mode_or_offered.
Qed.

Lemma normal_time c :
  timeFunc c ∈ TIME_FUNCS → timezone c ≠ [] →
  has (t_mode c) (map fst (getRequestRuleMatchOptions SOURCE_TIME)) = true → normal (CTime c).
Proof.
  intros Hf Htz Hm. unfold normal, normalizeCondition. cbn -[mode_or ostr_or isTimeFunc].
  rewrite ostr_or_ne, isTimeFunc_in, mode_or_offered by done. by destruct c.
Qed.

Lemma build_exists src p :
  plain p → p ≠ [] →
  buildRequestConditionExpr (mkPH src p MATCH_EXISTS "") =
  source_text src ++ "(" ++ quoted p ++ match src with src_header => ") != " ++ [34%N; 34%N] | src_param => ") != nil" end.
Proof.
  intros Hp Hne. unfold buildRequestConditionExpr. cbn [mkPH].
  rewrite normal_ph by (by destruct src). unfold path, ph_mode, ph_source, mkPH.
  rewrite trim_plain by done. apply truthy_spec in Hne as ->. rewrite quote_plain by done.
  unfold quoted. destruct src; cbn; by rewrite <- ?app_assoc.
Qed.

Lemma build_contains p v :
  plain p → p ≠ [] → plain v →
  buildRequestConditionExpr (mkPH src_header p MATCH_CONTAINS v) =
  "has(header(" ++ quoted p ++ "), " ++ quoted v ++ ")".
Proof.
  intros Hp Hne Hv. unfold buildRequestConditionExpr. cbn [mkPH].
  rewrite normal_ph by done. unfold path, ph_mode, ph_source, ph_value, mkPH, buildExprLiteral.
  rewrite !trim_plain by done. apply truthy_spec in Hne as ->. rewrite !quote_plain by done.
  decide_closed. cbn. unfold quoted. by rewrite <- ?app_assoc.
Qed.

Lemma build_equals src p v :
  plain p → p ≠ [] →
  buildRequestConditionExpr (mkPH src p MATCH_EQ v) =
  source_text src ++ "(" ++ quoted p ++ ") == " ++ literal_text v.
Proof.
  intros Hp Hne. unfold buildRequestConditionExpr. cbn [mkPH].
  rewrite normal_ph by (by destruct src). unfold path, ph_mode, ph_source, ph_value, mkPH.
  rewrite trim_plain by done. apply truthy_spec in Hne as ->. rewrite quote_plain by done.
  unfold literal_text, quoted. decide_closed.
  destruct src; cbn -[buildExprLiteral]; by rewrite <- ?app_assoc.
Qed.

Lemma build_time_compare f tz m v :
  f ∈ TIME_FUNCS → plain tz → tz ≠ [] → m ∈ [MATCH_EQ; MATCH_GTE; MATCH_LT] → is_numeric v = true →
  buildRequestConditionExpr (CTime {| timeFunc := f; timezone := tz; t_mode := m; t_value := v;
                                      rangeStart := ""; rangeEnd := "" |}) =
  f ++ "(" ++ quoted tz ++ ") " ++ time_mode_op m ++ " " ++ v.
Proof.
  intros Hf Htz Hne Hm Hv. unfold buildRequestConditionExpr, buildTimeConditionExpr.
  rewrite normal_time; [|done|done|].
  2: { cbn [t_mode]. repeat (apply elem_of_cons in Hm as [->|Hm]; [done|]). by apply elem_of_nil in Hm. }
  unfold t_mode, t_value, timeFunc, timezone.
  assert (bool_decide (m = MATCH_RANGE) = false) as ->.
  { repeat (apply elem_of_cons in Hm as [->|Hm]; [done|]). by apply elem_of_nil in Hm. }
  rewrite (trim_id v), Hv by (by apply is_numeric_trimmed).
  rewrite quote_plain by done. unfold quoted. cbn -[time_mode_op]. rewrite <- !app_assoc. cbn. by rewrite <- ?app_assoc.
Qed.

Lemma build_time_range f tz s e :
  f ∈ TIME_FUNCS → plain tz → tz ≠ [] → is_numeric s = true → is_numeric e = true →
  buildRequestConditionExpr (CTime {| timeFunc := f; timezone := tz; t_mode := MATCH_RANGE; t_value := "";
                                      rangeStart := s; rangeEnd := e |}) =
  f ++ "(" ++ quoted tz ++ ") >= " ++ s ++ " || " ++ f ++ "(" ++ quoted tz ++ ") < " ++ e.
Proof.
  intros Hf Htz Hne Hs He. unfold buildRequestConditionExpr, buildTimeConditionExpr.
  rewrite normal_time by done. unfold t_mode, rangeStart, rangeEnd, timeFunc, timezone. decide_closed.
  rewrite (trim_id s), (trim_id e), Hs, He by (by apply is_numeric_trimmed).
  rewrite quote_plain by done. unfold quoted. cbn. rewrite <- !app_assoc. cbn. by rewrite <- ?app_assoc.
Qed.

(** ** Reading the texts of conditions *)

(** Normal form of concatenations. *)
Ltac norm_app := repeat (progress (cbn [app]; rewrite <- ?app_assoc)).

Lemma exec_bol l s : exec (RSeqs (RBol :: l)) s = match_here (RSeqs l) [] s.
Proof. apply exec_anchored. Qed.

Definition match_from (s : jstring) (t : rstate) : rmatched :=
  {| m_index := 0; m_text := take (length (rbefore t)) s; m_end := t |}.

Lemma exec_bol_run l s : exec (RSeqs (RBol :: l)) s = match_from s <$> rmatch (RSeqs l) Some (mkState [] s []).
Proof. rewrite exec_bol. apply match_here_start. Qed.

(** The texts of the groups of a match. *)
Ltac read_groups :=
  cbn [fmap option_fmap option_map]; unfold same_path, mg, m_group, capture, advance;
  cbn [m_end match_from rcaps oget]; decide_closed; cbn [from_option]; unfold id.

Lemma rmatch_seqs_cons {A} r l (k : rstate → option A) s : rmatch (RSeqs (r :: l)) k s = rmatch r (rmatch (RSeqs l) k) s.
Proof. done. Qed.

Lemma rmatch_seqs_nil {A} (k : rstate → option A) s : rmatch (RSeqs []) k s = k s.
Proof. done. Qed.

Lemma rmatch_eol {A} (k : rstate → option A) b cs : rmatch REol k (mkState b [] cs) = k (mkState b [] cs).
Proof. done. Qed.

Lemma reverse_quoted p : reverse (quoted p) = 34%N :: reverse p ++ [34%N].
Proof. unfold quoted. by rewrite reverse_cons, reverse_app. Qed.

(** A literal and a quoted text at the start of a pattern. *)
Lemma exec_call w n l p r :
  plain p → p ≠ [] →
  exec (RSeqs (RBol :: RLit w :: RQuoted n :: l)) (w ++ quoted p ++ r) =
  match_from (w ++ quoted p ++ r)
    <$> rmatch (RSeqs l) Some (mkState (reverse (quoted p) ++ reverse w) r [(n, p)]).
Proof.
  intros Hp Hne. rewrite exec_bol_run, rmatch_seqs_cons. f_equal.
  replace (w ++ quoted p ++ r) with (w ++ 34%N :: p ++ 34%N :: r) by (unfold quoted; by norm_app).
  rewrite rmatch_lit_app, rmatch_seqs_cons, match_quoted; [|done|by apply plain_no_quote].
  rewrite reverse_quoted. norm_app. by rewrite app_nil_r.
Qed.

(** A text that does not start with the literal of a pattern. *)
Lemma exec_lit_fail w l s : starts_with w s = false → exec (RSeqs (RBol :: RLit w :: l)) s = None.
Proof. intros H. rewrite exec_bol_run, rmatch_seqs_cons, rmatch_lit_fail; done. Qed.

(** Patterns of the time functions do not read the other conditions. *)
Lemma no_time_condition e :
  starts_with "param(" e || starts_with "header(" e || starts_with "has(" e = true →
  tryParseTimeCondition e = None.
Proof.
  intros H. unfold tryParseTimeCondition, timeRangeRe, timeCompareRe. rewrite !exec_bol_run.
  apply orb_true_iff in H as [[H|H]%orb_true_iff|H]; apply starts_with_spec in H as [r ->]; reflexivity.
Qed.

Lemma read_exists src p :
  plain p → p ≠ [] →
  tryParseRequestCondition (source_text src ++ "(" ++ quoted p ++
    match src with src_header => ") != " ++ [34%N; 34%N] | src_param => ") != nil" end)
  = Some (Some (mkPH src p MATCH_EXISTS "")).
Proof.
  intros Hp Hne. unfold tryParseRequestCondition, headerExistsRe, paramExistsRe.
  rewrite no_time_condition by by destruct src. destruct src.
  - rewrite exec_lit_fail by done. change (source_text src_param ++ "(" ++ ?x) with ("param(" ++ x).
    by rewrite exec_call by done.
  - change (source_text src_header ++ "(" ++ ?x) with ("header(" ++ x). by rewrite exec_call by done.
Qed.

Lemma parse_quoted v : plain v → parse_string_literal (quoted v) = Some v.
Proof.
  intros Hv. unfold parse_string_literal. change (quoted v) with (34%N :: v ++ [34%N]).
  rewrite <- quote_plain by done. by rewrite JSON_parse_quote by by apply plain_units.
Qed.

Lemma plain_no_escape s : plain s → Forall (λ c, none_of [34%N; 92%N] c = true) s.
Proof.
  intros Hs. apply Forall_forall. intros c Hc. unfold none_of, one_of. simpl.
  destruct (N.eqb_spec c 34) as [->|_]; [by apply (plain_not_in 34) in Hs|].
  destruct (N.eqb_spec c 92) as [->|_]; [by apply (plain_not_in 92) in Hs|done].
Qed.

(** A quoted plain text as a string literal. *)
Lemma match_string n (k : rstate → option rstate) b v r cs x :
  plain v → k (mkState (reverse (quoted v) ++ b) r ((n, quoted v) :: cs)) = Some x →
  rmatch (RString n) k (mkState b (quoted v ++ r) cs) = Some x.
Proof.
  intros Hv Hk. unfold RString.
  change (rmatch (RGroup n ?a) k ?s) with
    (rmatch a (λ s', k (mkState (rbefore s') (rrest s')
      ((n, reverse (take (length (rbefore s') - length b) (rbefore s'))) :: rcaps s'))) s).
  replace (quoted v ++ r) with ([34%N] ++ v ++ [34%N] ++ r) by (unfold quoted; by norm_app).
  rewrite rmatch_seqs_cons, rmatch_lit_app, rmatch_seqs_cons. apply star_alt_run; [by apply plain_no_escape|done..|].
  rewrite rmatch_seqs_cons, rmatch_lit_app, rmatch_seqs_nil. cbn [rbefore rrest rcaps].
  replace (reverse [34%N] ++ reverse v ++ reverse [34%N] ++ b) with (reverse (quoted v) ++ b)
    by (rewrite reverse_quoted; by norm_app).
  by rewrite group_text.
Qed.

Lemma read_contains p v :
  plain p → p ≠ [] → plain v →
  tryParseRequestCondition ("has(header(" ++ quoted p ++ "), " ++ quoted v ++ ")")
  = Some (Some (mkPH src_header p MATCH_CONTAINS v)).
Proof.
  intros Hp Hne Hv. unfold tryParseRequestCondition, headerExistsRe, paramExistsRe, headerContainsRe.
  rewrite no_time_condition, (exec_lit_fail "header("), (exec_lit_fail "param(") by done.
  rewrite exec_call by done. rewrite rmatch_seqs_cons, rmatch_lit_app, rmatch_seqs_cons.
  erewrite match_string; [|done|reflexivity]. read_groups. by rewrite parse_quoted.
Qed.

(** ** Literals *)

Lemma literal_cases v :
  plain v → (literal_text v = v ∧ (v = "true" ∨ v = "false" ∨ is_numeric v = true)) ∨ literal_text v = quoted v.
Proof.
  intros Hv. unfold literal_text, buildExprLiteral. rewrite trim_plain by done. decide_closed.
  destruct (bool_decide (v = "true")) eqn:E1; [left; bool_to_prop; auto|].
  destruct (bool_decide (v = "false")) eqn:E2; [left; bool_to_prop; auto|]. cbn [orb].
  destruct (is_numeric v) eqn:E3; [left; auto|right; by apply quote_plain].
Qed.

Lemma quoted_trimmed v : trimmed (quoted v).
Proof. apply (trimmed_ends 34%N v 34%N); done. Qed.

Lemma literal_trimmed v : plain v → trimmed (literal_text v).
Proof. intros Hv. destruct (literal_cases v Hv) as [[-> _]| ->]; [apply Hv|apply quoted_trimmed]. Qed.

Lemma literal_nonempty v : plain v → literal_text v ≠ [].
Proof. intros Hv. by destruct (literal_cases v Hv) as [[-> [->|[->|[? _]%is_numeric_units]]]| ->]. Qed.

Lemma literal_not_in m v : plain_unit m = false → m ≠ 34%N → plain v → m ∉ literal_text v.
Proof.
  intros Hm H34 Hv. pose proof (plain_not_in m v Hm Hv) as Hn.
  destruct (literal_cases v Hv) as [[-> _]| ->]; [done|].
  unfold quoted. rewrite not_elem_of_cons, not_elem_of_app, list_elem_of_singleton. done.
Qed.

Lemma literal_depth v d : plain v → depth_all (literal_text v) d = d.
Proof. intros Hv. apply depth_all_plain; by apply literal_not_in. Qed.

Lemma literal_line v : plain v → Forall (λ c, not_line_end c = true) (literal_text v).
Proof.
  intros Hv. apply Forall_forall. intros c Hc. unfold not_line_end. apply negb_true_iff.
  destruct (is_line_end c) eqn:E; [|done]. exfalso. revert Hc. apply literal_not_in; [| |done].
  - unfold plain_unit. rewrite E. by rewrite !andb_false_r.
  - by intros ->.
Qed.

Lemma read_literal v : plain v → parseExprLiteral (literal_text v) = Some (JStr v).
Proof.
  intros Hv. unfold parseExprLiteral. rewrite trim_id by by apply literal_trimmed.
  change (test NUMERIC_LITERAL_REGEX ?t) with (is_numeric t).
  destruct (literal_cases v Hv) as [[-> Hc]| ->].
  - destruct (bool_decide (v = "true")) eqn:E1; [done|].
    destruct (bool_decide (v = "false")) eqn:E2; [done|]. bool_to_prop.
    destruct Hc as [?|[?|Hn]]; [done|done|]. by rewrite Hn.
  - rewrite !bool_decide_false by (by destruct v as [|? [|? [|? [|? [|? ?]]]]]). cbn [orb].
    destruct (is_numeric (quoted v)) eqn:E.
    + apply (num_char_false 34) in E; [|done]. destruct E. constructor.
    + unfold quoted. rewrite <- quote_plain by done. rewrite JSON_parse_quote by by apply plain_units. done.
Qed.

(** An equality is read by the last pattern. *)
Lemma equals_falls_through src p t :
  plain p → p ≠ [] →
  let e := source_text src ++ "(" ++ quoted p ++ ") == " ++ t in
  tryParseRequestCondition e = Some (tryParseEquals e).
Proof.
  intros Hp Hne e. unfold tryParseRequestCondition, headerExistsRe, paramExistsRe, headerContainsRe,
    paramContainsRe, tryParseCompare, paramCompareRe. subst e.
  rewrite no_time_condition by by destruct src. destruct src.
  - rewrite (exec_lit_fail "header(") by done. change (source_text src_param ++ "(" ++ ?x) with ("param(" ++ x).
    rewrite (exec_call "param(") by done. rewrite rmatch_seqs_cons, rmatch_lit_fail by done.
    rewrite (exec_lit_fail "has(header(") by done. cbn [fmap option_fmap option_map].
    rewrite !(exec_call "param(") by done. by rewrite rmatch_seqs_cons, rmatch_lit_fail, rmatch_seqs_cons, rmatch_lit_fail by done.
  - change (source_text src_header ++ "(" ++ ?x) with ("header(" ++ x).
    rewrite (exec_call "header(") by done. rewrite rmatch_seqs_cons, rmatch_lit_fail by done.
    by rewrite !(exec_lit_fail "param("), (exec_lit_fail "has(header(") by done.
Qed.

(** The name of a source, as the first group of a pattern. *)
Lemma match_source {A} (k : rstate → option A) src r :
  rmatch (RGroup 1 (RAlts [RLit "param"; RLit "header"])) k (mkState [] (source_text src ++ r) [])
  = k (mkState (reverse (source_text src)) r [(1, source_text src)]).
Proof.
  change (RAlts [RLit "param"; RLit "header"]) with (RAlt (RLit "param") (RLit "header")).
  cbn [rmatch rbefore rcaps].
  destruct src; cbn -[Nat.sub reverse]; rewrite ?take_0, ?drop_0; cbn; by destruct (k _).
Qed.

Lemma read_equals src p v :
  plain p → p ≠ [] → plain v →
  tryParseRequestCondition (source_text src ++ "(" ++ quoted p ++ ") == " ++ literal_text v)
  = Some (Some (mkPH src p MATCH_EQ v)).
Proof.
  intros Hp Hne Hv. rewrite equals_falls_through by done. unfold tryParseEquals, equalsRe.
  rewrite exec_bol_run, rmatch_seqs_cons, match_source, rmatch_seqs_cons, rmatch_lit_app, rmatch_seqs_cons.
  replace (quoted p ++ ") == " ++ literal_text v) with (34%N :: p ++ 34%N :: ") == " ++ literal_text v)
    by (unfold quoted; by norm_app).
  rewrite match_quoted; [|done|by apply plain_no_quote].
  rewrite rmatch_seqs_cons, rmatch_lit_app, rmatch_seqs_cons, <- (app_nil_r (literal_text v)).
  erewrite group_plus_run; [|by apply literal_nonempty|by apply literal_line|done|done].
  read_groups. rewrite read_literal by done. by destruct src.
Qed.

(** ** Time conditions *)

Lemma time_func_facts f :
  f ∈ TIME_FUNCS → f ≠ [] ∧ ∀ op : jstring, op = "(" → starts_with op f = false ∧ ∀ r, starts_with op (f ++ r) = false.
Proof.
  intros Hf. unfold TIME_FUNCS in Hf.
  repeat (apply elem_of_cons in Hf as [->|Hf]; [split; [done|intros op ->; split; done]|]).
  by apply elem_of_nil in Hf.
Qed.

(** The head of the patterns of time conditions. *)
Lemma match_time_head {A} l (k : rstate → option A) b f tz r :
  f ∈ TIME_FUNCS → plain tz → tz ≠ [] →
  rmatch (RSeqs (RTimeFunc :: RLit "(" :: RQuoted 2 :: l)) k (mkState b (f ++ "(" ++ quoted tz ++ r) [])
  = rmatch (RSeqs l) k (mkState (reverse (quoted tz) ++ reverse (f ++ "(") ++ b) r [(2, tz); (1, f)]).
Proof.
  intros Hf Htz Hne. rewrite rmatch_seqs_cons, match_time_func, rmatch_seqs_cons, rmatch_lit_app, rmatch_seqs_cons by done.
  replace (quoted tz ++ r) with (34%N :: tz ++ 34%N :: r) by (unfold quoted; by norm_app).
  rewrite match_quoted; [|done|by apply plain_no_quote].
  rewrite reverse_quoted, reverse_app. by norm_app.
Qed.

(** The range patterns do not read a comparison. *)
Lemma range_rejects_compare f tz m v :
  f ∈ TIME_FUNCS → plain tz → tz ≠ [] → m ∈ [MATCH_EQ; MATCH_GTE; MATCH_LT] → is_numeric v = true →
  exec (timeRangeRe REmpty REmpty) (f ++ "(" ++ quoted tz ++ ") " ++ time_mode_op m ++ " " ++ v) = None.
Proof.
  intros Hf Htz Hne Hm Hv. unfold timeRangeRe. rewrite exec_bol_run, rmatch_seqs_cons.
  change (rmatch REmpty ?k ?s) with (k s). rewrite match_time_head by done.
  apply elem_of_cons in Hm as [->|[->|[->| []%elem_of_nil]%elem_of_cons]%elem_of_cons]; [done| |done].
  change (") " ++ time_mode_op MATCH_GTE ++ " " ++ v) with (") >= " ++ v).
  rewrite rmatch_seqs_cons, rmatch_lit_app, rmatch_seqs_cons, <- (app_nil_r v), match_num; [done|done|done|].
  intros w1 w2 E _ Hw2. rewrite rmatch_seqs_cons. by apply (num_then_lit _ _ _ v).
Qed.

Lemma paren_range_rejects f r : f ∈ TIME_FUNCS → exec (timeRangeRe (RLit "(") (RLit ")")) (f ++ r) = None.
Proof.
  intros Hf. unfold timeRangeRe. rewrite exec_bol_run, rmatch_seqs_cons, rmatch_lit_fail; [done|].
  by apply time_func_facts.
Qed.

Lemma read_time_compare f tz m v :
  f ∈ TIME_FUNCS → plain tz → tz ≠ [] → m ∈ [MATCH_EQ; MATCH_GTE; MATCH_LT] → is_numeric v = true →
  tryParseRequestCondition (f ++ "(" ++ quoted tz ++ ") " ++ time_mode_op m ++ " " ++ v)
  = Some (Some (CTime {| timeFunc := f; timezone := tz; t_mode := m; t_value := v;
                         rangeStart := ""; rangeEnd := "" |})).
Proof.
  intros Hf Htz Hne Hm Hv. unfold tryParseRequestCondition, tryParseTimeCondition.
  rewrite range_rejects_compare, paren_range_rejects by done. unfold timeCompareRe.
  rewrite exec_bol_run, match_time_head, rmatch_seqs_cons, rmatch_lit_app by done.
  assert (rmatch (RSeqs [RGroup 3 (RAlts [RLit "=="; RLit ">="; RLit "<"]); RLit " "; RNum 4; REol]) Some
    (mkState (reverse ") " ++ reverse (quoted tz) ++ reverse (f ++ "(") ++ "") (time_mode_op m ++ " " ++ v) [(2, tz); (1, f)])
    = Some (mkState (reverse v ++ reverse (time_mode_op m ++ " ") ++ reverse ") " ++ reverse (quoted tz) ++ reverse (f ++ "(") ++ "")
              [] [(4, v); (3, time_mode_op m); (2, tz); (1, f)])) as ->.
  { generalize (reverse ") " ++ reverse (quoted tz) ++ reverse (f ++ "(") ++ "") as b. intros b.
    rewrite rmatch_seqs_cons. change (RAlts [RLit "=="; RLit ">="; RLit "<"]) with (RAlt (RLit "==") (RAlt (RLit ">=") (RLit "<"))).
    assert (∀ b', rmatch (RSeqs [RLit " "; RNum 4; REol]) Some (mkState b' (" " ++ v) [(3, time_mode_op m); (2, tz); (1, f)])
                  = Some (mkState (reverse v ++ reverse " " ++ b') [] [(4, v); (3, time_mode_op m); (2, tz); (1, f)])) as Hk.
    { intros b'. rewrite rmatch_seqs_cons, rmatch_lit_app, rmatch_seqs_cons. by apply match_num_end. }
    change (rmatch (RGroup 3 ?a) ?k (mkState b ?r ?cs)) with
      (rmatch a (λ s', k (mkState (rbefore s') (rrest s')
      ((3, reverse (take (length (rbefore s') - length b) (rbefore s'))) :: rcaps s'))) (mkState b r cs)).
    rewrite reverse_app, <- app_assoc.
    apply elem_of_cons in Hm as [->|[->|[->| []%elem_of_nil]%elem_of_cons]%elem_of_cons].
    - change (time_mode_op MATCH_EQ) with ("==" : jstring) in *.
      by rewrite rmatch_alt, rmatch_lit_app; cbn [rbefore rrest rcaps]; rewrite group_text, Hk.
    - change (time_mode_op MATCH_GTE) with (">=" : jstring) in *.
      rewrite rmatch_alt, (rmatch_lit_fail "==") by done.
      by rewrite rmatch_alt, rmatch_lit_app; cbn [rbefore rrest rcaps]; rewrite group_text, Hk.
    - change (time_mode_op MATCH_LT) with ("<" : jstring) in *.
      rewrite rmatch_alt, (rmatch_lit_fail "==") by done. rewrite rmatch_alt, (rmatch_lit_fail ">=") by done.
      by rewrite rmatch_lit_app; cbn [rbefore rrest rcaps]; rewrite group_text, Hk. }
  read_groups.
  apply elem_of_cons in Hm as [->|[->|[->| []%elem_of_nil]%elem_of_cons]%elem_of_cons]; done.
Qed.

Definition range_text (f tz s e : jstring) : jstring :=
  f ++ "(" ++ quoted tz ++ ") >= " ++ s ++ " || " ++ f ++ "(" ++ quoted tz ++ ") < " ++ e.

(** The range patterns, with the text [a] their opening reads and the text [z]
    their closing reads. *)
Lemma exec_range op cl a z f tz s e :
  (∀ k x, rmatch op k (mkState [] (a ++ x) []) = k (mkState (reverse a) x []) :> option rstate) →
  (∀ k b cs, rmatch cl k (mkState b z cs) = k (mkState (reverse z ++ b) [] cs) :> option rstate) →
  head_is num_char z = false →
  f ∈ TIME_FUNCS → plain tz → tz ≠ [] → is_numeric s = true → is_numeric e = true →
  ∃ t, exec (timeRangeRe op cl) (a ++ range_text f tz s e ++ z) = Some t ∧
       rcaps (m_end t) = [(4, e); (3, s); (2, tz); (1, f)].
Proof.
  intros Hop Hcl Hz Hf Htz Hne Hs He. unfold timeRangeRe. rewrite exec_bol_run, rmatch_seqs_cons, Hop.
  replace (range_text f tz s e ++ z) with
    (f ++ "(" ++ quoted tz ++ ") >= " ++ s ++ " || " ++ f ++ "(" ++ [34%N] ++ tz ++ [34%N] ++ ") < " ++ e ++ z)
    by (unfold range_text, quoted; by norm_app).
  rewrite match_time_head, rmatch_seqs_cons, rmatch_lit_app, rmatch_seqs_cons by done.
  rewrite match_num; [|done|done|].
  2: { intros w1 w2 E _ Hw2. rewrite rmatch_seqs_cons. by apply (num_then_lit _ _ _ s). }
  rewrite rmatch_seqs_cons, rmatch_lit_app, rmatch_seqs_cons, rmatch_back_app by done.
  rewrite rmatch_seqs_cons, rmatch_lit_app, rmatch_seqs_cons, rmatch_lit_app.
  rewrite rmatch_seqs_cons, rmatch_back_app by done.
  rewrite rmatch_seqs_cons, rmatch_lit_app, rmatch_seqs_cons, rmatch_lit_app, rmatch_seqs_cons.
  erewrite match_num_run; [|done|done|rewrite rmatch_seqs_cons, Hcl; reflexivity].
  eexists. split; reflexivity.
Qed.

Lemma read_range f tz s e :
  f ∈ TIME_FUNCS → plain tz → tz ≠ [] → is_numeric s = true → is_numeric e = true →
  let c := CTime {| timeFunc := f; timezone := tz; t_mode := MATCH_RANGE; t_value := "";
                    rangeStart := s; rangeEnd := e |} in
  tryParseRequestCondition (range_text f tz s e) = Some (Some c) ∧
  tryParseRequestCondition ("(" ++ range_text f tz s e ++ ")") = Some (Some c).
Proof.
  intros Hf Htz Hne Hs He c. unfold tryParseRequestCondition, tryParseTimeCondition. split.
  - destruct (exec_range REmpty REmpty [] [] f tz s e) as (t & Ht & Hc); try done.
    cbn [app] in Ht. rewrite app_nil_r in Ht. rewrite Ht.
    unfold mg, m_group, capture. rewrite Hc. reflexivity.
  - assert (exec (timeRangeRe REmpty REmpty) ("(" ++ range_text f tz s e ++ ")") = None) as ->.
    { unfold timeRangeRe. by rewrite exec_bol_run. }
    destruct (exec_range (RLit "(") (RLit ")") "(" ")" f tz s e) as (t & Ht & Hc); try done.
    rewrite Ht. unfold mg, m_group, capture. rewrite Hc. reflexivity.
Qed.

(** ** The round trip of a condition *)

(** The text of a condition, in parentheses when it is a disjunction. *)
Definition wrapped (e : jstring) : jstring := if includes " || " e then "(" ++ e ++ ")" else e.

Lemma not_in_no_includes m w s : m ∈ w → m ∉ s → includes w s = false.
Proof.
  intros Hm Hs. destruct (includes w s) eqn:E; [|done]. apply includes_spec in E as (a & b & ->).
  rewrite !not_elem_of_app in Hs. naive_solver.
Qed.

(** The parts of the texts, units of the syntax excepted. *)
Ltac no_unit :=
  repeat (rewrite not_elem_of_app; split);
  try solve [apply (bool_decide_unpack _); reflexivity
            |by apply literal_not_in
            |by apply plain_not_in
            |by apply num_char_false
            |unfold quoted; rewrite not_elem_of_cons, not_elem_of_app, list_elem_of_singleton;
             split_and!; [done|by apply plain_not_in|done]].

Lemma time_func_not_in m f : f ∈ TIME_FUNCS → plain_unit m = false → m ∉ f.
Proof.
  intros Hf. unfold TIME_FUNCS in Hf. intros Hm Hin. 
  assert (plain_unit m = true); [|congruence].
  repeat (apply elem_of_cons in Hf as [->|Hf];
          [repeat (apply elem_of_cons in Hin as [->|Hin]; [done|]); by apply elem_of_nil in Hin|]).
  by apply elem_of_nil in Hf.
Qed.

(** No unit of the syntax of products and conjunctions occurs in the texts. *)
Lemma readable_no_unit m c :
  readable c → m ∈ ("*&?" : jstring) → m ∉ buildRequestConditionExpr c.
Proof.
  intros Hc Hm. destruct Hc as [src p Hp Hne|p v Hp Hne Hv|src p v Hp Hne Hv|f tz mo v Hf Htz Hne Hmo Hv|f tz s e Hf Htz Hne Hs He].
  - rewrite build_exists by done.
    repeat (apply elem_of_cons in Hm as [->|Hm]; [destruct src; no_unit|]). by apply elem_of_nil in Hm.
  - rewrite build_contains by done.
    repeat (apply elem_of_cons in Hm as [->|Hm]; [no_unit|]). by apply elem_of_nil in Hm.
  - rewrite build_equals by done.
    repeat (apply elem_of_cons in Hm as [->|Hm]; [destruct src; no_unit|]). by apply elem_of_nil in Hm.
  - rewrite build_time_compare by done.
    apply elem_of_cons in Hmo as [->|[->|[->| []%elem_of_nil]%elem_of_cons]%elem_of_cons];
    (repeat (apply elem_of_cons in Hm as [->|Hm]; [no_unit; by apply time_func_not_in|]); by apply elem_of_nil in Hm).
  - rewrite build_time_range by done.
    repeat (apply elem_of_cons in Hm as [->|Hm]; [no_unit; by apply time_func_not_in|]). by apply elem_of_nil in Hm.
Qed.

Lemma depth_quoted v d : plain v → depth_all (quoted v) d = d.
Proof. intros Hv. unfold quoted. change (34%N :: v ++ [34%N]) with ([34%N] ++ v ++ [34%N]).
  by rewrite !depth_all_app, (depth_plain v). Qed.

Lemma depth_time_func f d : f ∈ TIME_FUNCS → depth_all f d = d.
Proof. intros Hf. apply depth_all_plain; by apply time_func_not_in. Qed.

Lemma depth_open d : depth_all "(" d = (d + 1)%Z.
Proof. done. Qed.
Lemma depth_close w d : depth_all (cu ")" :: w) d = depth_all w (d - 1)%Z.
Proof. done. Qed.

Ltac depth_simpl :=
  repeat first [rewrite depth_all_app | rewrite depth_quoted by done | rewrite literal_depth by done
               | match goal with H : is_numeric ?v = true |- _ => rewrite (depth_numeric v) by done end
               | match goal with H : ?f ∈ TIME_FUNCS |- _ => rewrite (depth_time_func f) by done end].

Lemma readable_depth c : readable c → depth_all (buildRequestConditionExpr c) 0 = 0%Z.
Proof.
  destruct 1 as [src p Hp Hne|p v Hp Hne Hv|src p v Hp Hne Hv|f tz mo v Hf Htz Hne Hmo Hv|f tz s e Hf Htz Hne Hs He].
  - rewrite build_exists by done. destruct src; depth_simpl; reflexivity.
  - rewrite build_contains by done. depth_simpl. reflexivity.
  - rewrite build_equals by done. destruct src; depth_simpl; reflexivity.
  - rewrite build_time_compare by done.
    apply elem_of_cons in Hmo as [->|[->|[->| []%elem_of_nil]%elem_of_cons]%elem_of_cons]; depth_simpl; reflexivity.
  - rewrite build_time_range by done. depth_simpl. reflexivity.
Qed.

Lemma time_func_trimmed f : f ∈ TIME_FUNCS → trimmed f.
Proof.
  intros Hf. unfold TIME_FUNCS in Hf.
  repeat (apply elem_of_cons in Hf as [->|Hf]; [split; reflexivity|]). by apply elem_of_nil in Hf.
Qed.

Lemma trimmed_between a m b s :
  s = a ++ m ++ b → trimmed a → trimmed b → a ≠ [] → b ≠ [] → trimmed s.
Proof. intros ->. by intros; apply trimmed_app. Qed.

Lemma readable_trimmed c : readable c → trimmed (buildRequestConditionExpr c).
Proof.
  destruct 1 as [src p Hp Hne|p v Hp Hne Hv|src p v Hp Hne Hv|f tz mo v Hf Htz Hne Hmo Hv|f tz s e Hf Htz Hne Hs He].
  - rewrite build_exists by done. destruct src.
    + by apply (trimmed_between "param" ("(" ++ quoted p ++ ") != ") "nil"); [norm_app|..].
    + by apply (trimmed_between "header" ("(" ++ quoted p ++ ") != ") [34%N; 34%N]); [norm_app|..].
  - rewrite build_contains by done.
    by apply (trimmed_between "has(header(" (quoted p ++ "), " ++ quoted v) ")"); [norm_app|..].
  - rewrite build_equals by done.
    apply (trimmed_between (source_text src) ("(" ++ quoted p ++ ") == ") (literal_text v));
      [by norm_app|by destruct src|by apply literal_trimmed|by destruct src|by apply literal_nonempty].
  - rewrite build_time_compare by done.
    apply (trimmed_between f ("(" ++ quoted tz ++ ") " ++ time_mode_op mo ++ " ") v);
      [by norm_app|by apply time_func_trimmed|by apply is_numeric_trimmed|by apply time_func_facts
      |by apply is_numeric_units].
  - rewrite build_time_range by done.
    apply (trimmed_between f ("(" ++ quoted tz ++ ") >= " ++ s ++ " || " ++ f ++ "(" ++ quoted tz ++ ") < ") e);
      [by norm_app|by apply time_func_trimmed|by apply is_numeric_trimmed|by apply time_func_facts
      |by apply is_numeric_units].
Qed.

Lemma readable_nonempty c : readable c → buildRequestConditionExpr c ≠ [].
Proof.
  destruct 1 as [src p Hp Hne|p v Hp Hne Hv|src p v Hp Hne Hv|f tz mo v Hf Htz Hne Hmo Hv|f tz s e Hf Htz Hne Hs He].
  - rewrite build_exists by done. by destruct src.
  - by rewrite build_contains.
  - rewrite build_equals by done. by destruct src.
  - rewrite build_time_compare by done. intros [? _]%app_nil. by apply time_func_facts in Hf as [? _].
  - rewrite build_time_range by done. intros [? _]%app_nil. by apply time_func_facts in Hf as [? _].
Qed.

(** A condition is read back from its text, in parentheses or not. *)
Lemma read_condition c :
  readable c →
  tryParseRequestCondition (buildRequestConditionExpr c) = Some (Some c) ∧
  tryParseRequestCondition (wrapped (buildRequestConditionExpr c)) = Some (Some c).
Proof.
  intros Hc. unfold wrapped.
  assert (includes " || " (buildRequestConditionExpr c) = false →
          tryParseRequestCondition (buildRequestConditionExpr c) = Some (Some c) → 
          tryParseRequestCondition (buildRequestConditionExpr c) = Some (Some c) ∧
          tryParseRequestCondition (if includes " || " (buildRequestConditionExpr c)
             then "(" ++ buildRequestConditionExpr c ++ ")" else buildRequestConditionExpr c) = Some (Some c))
    as Hsimple by (by intros -> ?).
  assert (cu "|" ∈ (" || " : jstring)) as Hbar by (apply (bool_decide_unpack _); reflexivity).
  destruct Hc as [src p Hp Hne|p v Hp Hne Hv|src p v Hp Hne Hv|f tz mo v Hf Htz Hne Hmo Hv|f tz s e Hf Htz Hne Hs He].
  - apply Hsimple; rewrite build_exists by done; [|by apply read_exists].
    apply (not_in_no_includes (cu "|")); [done|]. destruct src; no_unit.
  - apply Hsimple; rewrite build_contains by done; [|by apply read_contains].
    apply (not_in_no_includes (cu "|")); [done|]. no_unit.
  - apply Hsimple; rewrite build_equals by done; [|by apply read_equals].
    apply (not_in_no_includes (cu "|")); [done|]. destruct src; no_unit.
  - apply Hsimple; rewrite build_time_compare by done; [|by apply read_time_compare].
    apply (not_in_no_includes (cu "|")); [done|].
    apply elem_of_cons in Hmo as [->|[->|[->| []%elem_of_nil]%elem_of_cons]%elem_of_cons];
      no_unit; by apply time_func_not_in.
  - rewrite build_time_range by done. change (f ++ _) with (range_text f tz s e).
    assert (includes " || " (range_text f tz s e) = true) as ->; [|by apply read_range].
    apply includes_spec. exists (f ++ "(" ++ quoted tz ++ ") >= " ++ s), (f ++ "(" ++ quoted tz ++ ") < " ++ e).
    unfold range_text. by norm_app.
Qed.

(** ** Conditions the parser does not read back *)

(** The comparisons and the containment of a parameter, whose texts are
    conjunctions. *)
Inductive guarded : RequestCondition → Prop :=
  | guarded_compare p m v :
    plain p → p ≠ [] → m ∈ [MATCH_GT; MATCH_GTE; MATCH_LT; MATCH_LTE] → is_numeric v = true →
    guarded (mkPH src_param p m v)
  | guarded_contains p v : plain p → p ≠ [] → plain v → guarded (mkPH src_param p MATCH_CONTAINS v).

(** The test that follows the guard. *)
Definition guarded_test (c : RequestCondition) : jstring :=
  match c with
  | CParamHeader c =>
    match compare_mode_op (ph_mode c) with
    | Some op => "param(" ++ quoted (path c) ++ ") " ++ op ++ " " ++ ph_value c
    | None => "has(param(" ++ quoted (path c) ++ "), " ++ quoted (ph_value c) ++ ")"
    end
  | CTime _ => []
  end.

Definition guard_text (p : jstring) : jstring := "param(" ++ quoted p ++ ") != nil".

Lemma compare_modes m :
  m ∈ [MATCH_GT; MATCH_GTE; MATCH_LT; MATCH_LTE] →
  (∃ op, compare_mode_op m = Some op ∧ op ∈ ([">"; ">="; "<"; "<="] : list jstring)) ∧
  bool_decide (m = MATCH_EXISTS) = false ∧ bool_decide (m = MATCH_CONTAINS) = false ∧
  has m (map fst (getRequestRuleMatchOptions (source_text src_param))) = true.
Proof.
  intros Hm.
  repeat (apply elem_of_cons in Hm as [->|Hm];
          [split_and!; [eexists; split; [reflexivity|repeat constructor]|done..]|]).
  by apply elem_of_nil in Hm.
Qed.

(** The parameter that is guarded. *)
Definition guarded_path (c : RequestCondition) : jstring := match c with CParamHeader c => path c | CTime _ => [] end.

Lemma build_guarded c :
  guarded c → plain (guarded_path c) ∧ guarded_path c ≠ [] ∧
    buildRequestConditionExpr c = join " && " [guard_text (guarded_path c); guarded_test c].
Proof.
  destruct 1 as [p m v Hp Hne Hm Hv|p v Hp Hne Hv]; (split_and!; [done|done|]);
    unfold buildRequestConditionExpr; cbn [mkPH guarded_path path].
  - destruct (compare_modes m Hm) as ((op & Eop & Hop) & E1 & E2 & Ho).
    rewrite normal_ph by done.
    unfold path, ph_mode, ph_source, ph_value, mkPH, guarded_test, guard_text. cbn [ph_mode path ph_value].
    rewrite Eop, E1, E2, trim_plain, (trim_id v), Hv by (done || by apply is_numeric_trimmed).
    rewrite (proj2 (truthy_spec p)), quote_plain by done. cbn [negb]. unfold quoted, join. by norm_app.
  - rewrite normal_ph by done.
    unfold path, ph_mode, ph_source, ph_value, mkPH, guarded_test, guard_text, buildExprLiteral.
    rewrite !trim_plain by done. rewrite (proj2 (truthy_spec p)), !quote_plain by done.
    decide_closed. cbn [ph_mode path ph_value negb]. change (compare_mode_op MATCH_CONTAINS) with (@None jstring).
    unfold quoted, join. by norm_app.
Qed.

(** The test alone is no condition. *)
Lemma read_guarded_test c : guarded c → tryParseRequestCondition (guarded_test c) = Some None.
Proof.
  intros Hc. unfold tryParseRequestCondition, headerExistsRe, paramExistsRe, headerContainsRe,
    paramContainsRe, tryParseCompare, paramCompareRe, tryParseEquals, equalsRe.
  destruct Hc as [p m v Hp Hne Hm Hv|p v Hp Hne Hv].
  - destruct (compare_modes m Hm) as ((op & Eop & Hop) & _).
    unfold guarded_test, mkPH, ph_mode, path, ph_value. rewrite Eop.
    rewrite no_time_condition, (exec_lit_fail "header("), (exec_lit_fail "has(header(") by done.
    assert (∀ b cs l, rmatch (RSeqs (RLit ") != nil" :: l)) Some (mkState b (") " ++ op ++ " " ++ v) cs) = None ∧
      rmatch (RSeqs (RLit ") != nil && has(param(" :: l)) Some (mkState b (") " ++ op ++ " " ++ v) cs) = None ∧
      rmatch (RSeqs (RLit ") != nil && param(" :: l)) Some (mkState b (") " ++ op ++ " " ++ v) cs) = None ∧
      rmatch (RSeqs (RLit ") == " :: l)) Some (mkState b (") " ++ op ++ " " ++ v) cs) = None) as Hf.
    { intros b cs l. rewrite !rmatch_seqs_cons.
      repeat (apply elem_of_cons in Hop as [->|Hop]; [by split_and!|]). by apply elem_of_nil in Hop. }
    rewrite !(exec_call "param(") by done. 
    rewrite (proj1 (Hf _ _ _)), (proj1 (proj2 (Hf _ _ _))), (proj1 (proj2 (proj2 (Hf _ _ _)))).
    cbn [fmap option_fmap option_map]. rewrite exec_bol_run, rmatch_seqs_cons.
    change ("param(" ++ ?x) with (source_text src_param ++ ("(" ++ x)).
    rewrite match_source, rmatch_seqs_cons, rmatch_lit_app, rmatch_seqs_cons.
    replace (quoted p ++ ") " ++ op ++ " " ++ v) with (34%N :: p ++ 34%N :: ") " ++ op ++ " " ++ v)
      by (unfold quoted; by norm_app).
    rewrite match_quoted; [|done|by apply plain_no_quote]. by rewrite (proj2 (proj2 (proj2 (Hf _ _ _)))).
  - change (guarded_test _) with ("has(param(" ++ quoted p ++ "), " ++ quoted v ++ ")").
    rewrite no_time_condition, (exec_lit_fail "header("), !(exec_lit_fail "param("), (exec_lit_fail "has(header(") by done.
    by rewrite exec_bol_run.
Qed.

Lemma guard_operand p m : plain p → m ∈ ("*&" : jstring) → operand m (guard_text p).
Proof.
  intros Hp Hm. unfold guard_text. split_and!.
  - done.
  - by apply (trimmed_between "param" ("(" ++ quoted p ++ ") != ") "nil"); [norm_app|..].
  - repeat (apply elem_of_cons in Hm as [->|Hm]; [no_unit|]). by apply elem_of_nil in Hm.
  - by depth_simpl.
Qed.

Lemma guarded_test_operand c m : guarded c → m ∈ ("*&" : jstring) → operand m (guarded_test c).
Proof.
  intros [p mo v Hp Hne Hmo Hv|p v Hp Hne Hv] Hm.
  - destruct (compare_modes mo Hmo) as ((op & Eop & Hop) & _).
    unfold guarded_test, mkPH, ph_mode, path, ph_value. rewrite Eop. pose proof (is_numeric_units v Hv) as [? _].
    split_and!.
    + done.
    + apply (trimmed_between "param(" (quoted p ++ ") " ++ op ++ " ") v); [by norm_app|done| |done|done].
      by apply is_numeric_trimmed.
    + repeat (apply elem_of_cons in Hop as [->|Hop];
        [repeat (apply elem_of_cons in Hm as [->|Hm]; [no_unit|]); by apply elem_of_nil in Hm|]).
      by apply elem_of_nil in Hop.
    + repeat (apply elem_of_cons in Hop as [->|Hop]; [by depth_simpl|]). by apply elem_of_nil in Hop.
  - change (guarded_test _) with ("has(param(" ++ quoted p ++ "), " ++ quoted v ++ ")"). split_and!.
    + done.
    + by apply (trimmed_between "has(param(" (quoted p ++ "), " ++ quoted v) ")"); [norm_app|..].
    + repeat (apply elem_of_cons in Hm as [->|Hm]; [no_unit|]). by apply elem_of_nil in Hm.
    + by depth_simpl.
Qed.

(** ** Groups *)

(** A condition in normal form, with texts that need no escape and values that are
    numerals where numerals are compared. *)
Definition offered (c : RequestCondition) : Prop := readable c ∨ guarded c.

Record normal_group (g : RequestRuleGroup) : Prop := {
  normal_nonempty : conditions g ≠ [];
  normal_conditions : Forall offered (conditions g);
  normal_multiplier : is_numeric (multiplier g) = true;
}.

(** A comparison or a containment of a parameter. *)
Definition is_guarded (c : RequestCondition) : bool :=
  match c with
  | CParamHeader c =>
    bool_decide (ph_source c = src_param) && has (ph_mode c) [MATCH_GT; MATCH_GTE; MATCH_LT; MATCH_LTE; MATCH_CONTAINS]
  | CTime _ => false
  end.

Definition reads_back (g : RequestRuleGroup) : bool := negb (existsb is_guarded (conditions g)).

Lemma guarded_is c : guarded c → is_guarded c = true.
Proof.
  intros [p m v _ _ Hm _|p v _ _ _]; [|by vm_compute].
  repeat (apply elem_of_cons in Hm as [->|Hm]; [by vm_compute|]). by apply elem_of_nil in Hm.
Qed.

Lemma readable_is c : readable c → is_guarded c = false.
Proof. by intros [[] p _ _|p v _ _ _|[] p v _ _ _|f tz m v _ _ _ _ _|f tz s e _ _ _ _ _]. Qed.

(** The text of a condition, alone or among others. *)
Definition text_of (several : bool) (c : RequestCondition) : jstring :=
  if several then wrapped (buildRequestConditionExpr c) else buildRequestConditionExpr c.

Definition several (cs : list RequestCondition) : bool := (1 <? length cs)%nat.

(** The texts of the conditions of a group. *)
Definition texts (cs : list RequestCondition) : list jstring := map (text_of (several cs)) cs.

Definition rule_text (g : RequestRuleGroup) : jstring :=
  "(" ++ join " && " (texts (conditions g)) ++ " ? " ++ multiplier g ++ " : 1)".

Lemma offered_nonempty c : offered c → buildRequestConditionExpr c ≠ [].
Proof.
  intros [Hc|Hc]; [by apply readable_nonempty|]. by destruct (build_guarded c Hc) as (_ & _ & ->).
Qed.

Lemma build_group g : normal_group g → buildRuleGroupFactor g = rule_text g.
Proof.
  intros [Hne Hc Hm]. unfold buildRuleGroupFactor, rule_text.
  rewrite trim_id, Hm by by apply is_numeric_trimmed. cbn [negb].
  rewrite filter_truthy_id.
  - destruct (conditions g) as [|c [|d cs]]; [done|done|]. cbn [map texts]. by rewrite map_map.
  - apply Forall_map. eapply Forall_impl; [exact Hc|]. apply offered_nonempty.
Qed.

(** The depth of a text does not depend on where it starts. *)
Lemma depth_shift e d k : depth_all e (d + k) = (depth_all e d + k)%Z.
Proof.
  revert d. induction e as [|c e IH]; intros d; [done|].
  change (depth_all (c :: e) ?d) with (depth_all e (depth_after c d)). rewrite <- IH. f_equal.
  unfold depth_after. destruct (c =? _)%N; [lia|]. destruct (c =? _)%N; lia.
Qed.

Lemma wrapped_props e m :
  e ≠ [] → trimmed e → m ∉ e → depth_all e 0 = 0%Z → m ∉ ("()" : jstring) →
  wrapped e ≠ [] ∧ trimmed (wrapped e) ∧ m ∉ wrapped e ∧ depth_all (wrapped e) 0 = 0%Z.
Proof.
  intros ? ? Hm Hd Hp. unfold wrapped. destruct (includes " || " e); [|done]. split_and!.
  - done.
  - by apply trimmed_ends.
  - rewrite !not_elem_of_cons in Hp. rewrite !not_elem_of_app, !list_elem_of_singleton. naive_solver.
  - rewrite !depth_all_app, depth_open. change (0 + 1)%Z with 1%Z. 
    assert (depth_all e 1 = 1%Z) as ->; [|done].
    pose proof (depth_shift e 0 1) as Hs. rewrite Hd in Hs. exact Hs.
Qed.

(** The parts the conjunction of a group is split into: the text of a guarded condition
    is itself a conjunction. *)
Definition conjuncts (b : bool) (c : RequestCondition) : list jstring :=
  if is_guarded c then [guard_text (guarded_path c); guarded_test c] else [text_of b c].

Definition group_parts (cs : list RequestCondition) : list jstring := concat (map (conjuncts (several cs)) cs).

Lemma readable_operand b c m : readable c → m ∈ ("*&" : jstring) → operand m (text_of b c).
Proof.
  intros Hc Hm. assert (m ∈ ("*&?" : jstring)) as Hm'
    by (repeat (apply elem_of_cons in Hm as [->|Hm]; [apply (bool_decide_unpack _); reflexivity|]); by apply elem_of_nil in Hm).
  assert (m ∉ ("()" : jstring)) as Hp
    by (repeat (apply elem_of_cons in Hm as [->|Hm]; [apply (bool_decide_unpack _); reflexivity|]); by apply elem_of_nil in Hm).
  unfold text_of. destruct b; [apply wrapped_props|split_and!]; try done;
    first [by apply readable_nonempty|by apply readable_trimmed|by apply readable_no_unit|by apply readable_depth].
Qed.

Lemma guarded_no_bar c : guarded c → cu "|" ∉ buildRequestConditionExpr c.
Proof.
  intros Hc. destruct (build_guarded c Hc) as (Hp & _ & ->). unfold guard_text. cbn [join].
  destruct Hc as [p m v _ _ Hm Hv|p v _ _ Hv]; cbn [guarded_path mkPH path] in *.
  - destruct (compare_modes m Hm) as ((op & Eop & Hop) & _). unfold guarded_test, mkPH, ph_mode, path, ph_value. rewrite Eop.
    repeat (apply elem_of_cons in Hop as [->|Hop]; [no_unit|]). by apply elem_of_nil in Hop.
  - change (guarded_test _) with ("has(param(" ++ quoted p ++ "), " ++ quoted v ++ ")"). no_unit.
Qed.

(** The text of a condition is that of its conjuncts, which are operands. *)
Lemma offered_conjuncts b c :
  offered c → conjuncts b c ≠ [] ∧ text_of b c = join " && " (conjuncts b c) ∧
  ∀ m, m ∈ ("*&" : jstring) → Forall (operand m) (conjuncts b c).
Proof.
  unfold conjuncts. intros [Hc|Hc].
  - rewrite readable_is by done. split_and!; [done..|]. intros m Hm. by apply Forall_singleton, readable_operand.
  - destruct (build_guarded c Hc) as (Hp & Hne & Hb). rewrite guarded_is by done. split_and!; [done| |].
    + rewrite <- Hb. unfold text_of, wrapped. destruct b; [|done].
      rewrite (not_in_no_includes (cu "|")); [done|apply (bool_decide_unpack _); reflexivity|by apply guarded_no_bar].
    + intros m Hm. apply Forall_cons; split; [by apply guard_operand|]. by apply Forall_singleton, guarded_test_operand.
Qed.

Lemma join_app sep (l k : list jstring) : l ≠ [] → k ≠ [] → join sep (l ++ k) = join sep l ++ sep ++ join sep k.
Proof.
  intros Hl Hk. induction l as [|x l IH]; [done|]. destruct l as [|y l].
  - by destruct k.
  - change (join sep ((x :: y :: l) ++ k)) with (x ++ sep ++ join sep ((y :: l) ++ k)). rewrite IH by done.
    change (join sep (x :: y :: l)) with (x ++ sep ++ join sep (y :: l)). by rewrite <- !app_assoc.
Qed.

Lemma join_concat sep (ls : list (list jstring)) : Forall (λ l, l ≠ []) ls → join sep (map (join sep) ls) = join sep (concat ls).
Proof.
  induction 1 as [|l ls Hl Hls IH]; [done|]. destruct ls as [|k ls]; [cbn; by rewrite app_nil_r|].
  change (join sep (map (join sep) (l :: k :: ls))) with (join sep l ++ sep ++ join sep (map (join sep) (k :: ls))).
  rewrite IH. change (concat (l :: k :: ls)) with (l ++ concat (k :: ls)). rewrite join_app; [done..|].
  apply Forall_cons in Hls as [Hk _]. by destruct k.
Qed.

(** A group is the conjunction of its parts. *)
Lemma group_parts_spec cs :
  Forall offered cs →
  join " && " (texts cs) = join " && " (group_parts cs) ∧ (cs ≠ [] → group_parts cs ≠ []) ∧
  ∀ m, m ∈ ("*&" : jstring) → Forall (operand m) (group_parts cs).
Proof.
  unfold texts, group_parts. generalize (several cs) as b. intros b Hc. split_and!.
  - rewrite <- join_concat.
    + rewrite map_map. f_equal. apply map_ext_in. intros c Hin. rewrite Forall_forall in Hc.
      by apply offered_conjuncts, Hc, list_elem_of_In.
    + apply Forall_map. eapply Forall_impl; [exact Hc|]. intros c H. by apply offered_conjuncts.
  - intros Hne. destruct Hc as [|c cs Hc _]; [done|]. cbn [map concat]. apply (offered_conjuncts b) in Hc as [H _].
    by destruct (conjuncts b c).
  - intros m Hm. apply Forall_concat, Forall_map. eapply Forall_impl; [exact Hc|]. intros c H. by apply offered_conjuncts.
Qed.

(** The parts are read back, up to the test of a guarded condition. *)
Lemma parse_parts cs :
  Forall offered cs → parseConditions (group_parts cs) = Some (if existsb is_guarded cs then None else Some cs).
Proof.
  unfold group_parts. generalize (several cs) as b. intros b.
  induction 1 as [|c cs Hc _ IH]; [done|]. cbn [map concat existsb]. unfold conjuncts at 1. destruct Hc as [Hc|Hc].
  - rewrite readable_is by done. cbn [app parseConditions orb].
    assert (trimmed (text_of b c)) as Ht by (apply (readable_operand b c (cu "*") Hc); left).
    rewrite trim_id by done. assert (tryParseRequestCondition (text_of b c) = Some (Some c)) as ->
      by (unfold text_of; destruct b; by apply read_condition).
    cbn [mbind option_bind]. rewrite IH. by destruct (existsb is_guarded cs).
  - rewrite guarded_is by done. destruct (build_guarded c Hc) as (Hp & Hne & _). cbn [app parseConditions orb].
    assert (cu "*" ∈ ("*&" : jstring)) as Hm by constructor.
    assert (trimmed (guard_text (guarded_path c))) as Ht1 by by apply (guard_operand _ (cu "*")).
    assert (trimmed (guarded_test c)) as Ht2 by by apply (guarded_test_operand c (cu "*")).
    rewrite !trim_id by done.
    change (guard_text (guarded_path c)) with (source_text src_param ++ "(" ++ quoted (guarded_path c) ++ ") != nil").
    rewrite (read_exists src_param) by done. cbn [mbind option_bind]. by rewrite read_guarded_test.
Qed.

(** After its first unit, the end of a rule holds no other question mark between spaces. *)
Lemma no_other_question m u v :
  is_numeric m = true → " ? " ++ m ++ " : 1)" = u ++ v → u ≠ [] → starts_with " ? " v = false.
Proof.
  intros Hm E Hu. destruct (starts_with " ? " v) eqn:Es; [|done].
  apply starts_with_spec in Es as [r ->]. destruct u as [|c u]; [done|]. clear Hu. exfalso.
  cbn [app] in E. injection E as _ E. destruct u as [|c' u]; cbn [app] in E; [done|].
  injection E as _ E. assert (cu "?" ∉ 32%N :: m ++ " : 1)") as Hq.
  { apply not_elem_of_cons. split; [done|]. no_unit. }
  apply Hq. rewrite E. apply elem_of_app. right. do 2 constructor.
Qed.

(** The condition and the multiplier of a rule are found by its pattern. *)
Lemma exec_rule cond mu :
  cond ≠ [] → is_numeric mu = true →
  ∃ m, exec ruleGroupRe ("(" ++ cond ++ " ? " ++ mu ++ " : 1)") = Some m ∧ mg 1 m = cond ∧ mg 2 m = mu.
Proof.
  intros Hcond Hm. unfold ruleGroupRe.
  rewrite exec_bol_run, rmatch_seqs_cons, rmatch_lit_app, rmatch_seqs_cons.
  rewrite <- (app_nil_r (" ? " ++ mu ++ " : 1)")).
  erewrite group_plus_pick; [|done|by apply Forall_true|done| |]; cycle 1.
  - intros u v E Hu. rewrite rmatch_seqs_cons. apply rmatch_lit_fail. cbn [rrest]. rewrite app_nil_r.
    by apply (no_other_question mu u).
  - rewrite (app_nil_r (" ? " ++ _)), rmatch_seqs_cons, rmatch_lit_app, rmatch_seqs_cons.
    erewrite match_num_run; [reflexivity|done|done|reflexivity].
  - eexists. split; [reflexivity|]. split; read_groups; reflexivity.
Qed.

Lemma read_group g :
  normal_group g → tryParseRuleGroupFactor (rule_text g) = Some (if reads_back g then Some g else None).
Proof.
  intros [Hne Hc Hm]. unfold tryParseRuleGroupFactor, rule_text. destruct (group_parts_spec (conditions g) Hc) as (-> & Hpne & Hop).
  set (cond := join " && " (group_parts (conditions g))).
  assert (Hsplit : splitTopLevelAnd cond = group_parts (conditions g)).
  { apply splitTopLevelAnd_join; [by apply Hpne|]. apply Hop. do 2 constructor. }
  assert (cond ≠ []) as Hcond by (intros E; rewrite E in Hsplit; by apply (Hpne Hne)).
  destruct (exec_rule cond (multiplier g)) as (m & -> & -> & ->); [done|done|].
  rewrite Hsplit, parse_parts by done. cbn [mbind option_bind]. unfold reads_back.
  destruct (existsb is_guarded (conditions g)); [done|]. by destruct g as [[|c cs] mu].
Qed.

Lemma rule_shape_operand parts mu :
  Forall (operand (cu "*")) parts → is_numeric mu = true →
  operand (cu "*") ("(" ++ join " && " parts ++ " ? " ++ mu ++ " : 1)").
Proof.
  intros Hop Hm.
  assert (cu "*" ∉ join " && " parts ∧ depth_all (join " && " parts) 1 = 1%Z) as [Hn Hd].
  { induction Hop as [|t ts (_ & _ & Ht & Htd) Hop IH]; [by split; [apply not_elem_of_nil|]|].
    assert (depth_all t 1 = 1%Z) as Htd'. { pose proof (depth_shift t 0 1) as Hs. by rewrite Htd in Hs. }
    destruct ts as [|t' ts]; [done|]. change (join ?s (t :: t' :: ts)) with (t ++ s ++ join s (t' :: ts)).
    destruct IH as [IH1 IH2]. rewrite !depth_all_app, Htd'. split; [|exact IH2].
    rewrite !not_elem_of_app. split_and!; [done| |done]. apply (bool_decide_unpack _); reflexivity. }
  split_and!.
  - done.
  - apply (trimmed_between "(" (join " && " parts ++ " ? " ++ mu ++ " : 1") ")"); by norm_app.
  - no_unit. done.
  - rewrite !depth_all_app. change (depth_all "(" 0) with 1%Z. rewrite Hd.
    change (depth_all " ? " 1) with 1%Z. by rewrite (depth_numeric mu).
Qed.

Lemma rule_operand g : normal_group g → operand (cu "*") (rule_text g).
Proof.
  intros [Hne Hc Hm]. unfold rule_text. destruct (group_parts_spec (conditions g) Hc) as (-> & _ & Hop).
  apply rule_shape_operand; [|done]. apply Hop. constructor.
Qed.

(** ** Rule expressions *)

Lemma build_groups groups :
  Forall normal_group groups → buildRequestRuleExpr groups = join " * " (map rule_text groups).
Proof.
  intros Hg. unfold buildRequestRuleExpr.
  rewrite (map_ext_in buildRuleGroupFactor rule_text).
  - rewrite filter_truthy_id; [done|]. by apply Forall_map, Forall_true.
  - intros g Hin. apply build_group. rewrite Forall_forall in Hg. by apply Hg, list_elem_of_In.
Qed.

Lemma rule_operands groups :
  Forall normal_group groups → Forall (operand (cu "*")) (map rule_text groups).
Proof. intros Hg. apply Forall_map. eapply Forall_impl; [exact Hg|]. apply rule_operand. Qed.

Lemma parse_rule_texts groups :
  Forall normal_group groups →
  parseGroups (map rule_text groups) = Some (if forallb reads_back groups then Some groups else None).
Proof.
  induction 1 as [|g groups Hg HF IH]; [done|]. cbn [map parseGroups forallb]. rewrite read_group by done.
  cbn [mbind option_bind]. destruct (reads_back g); [|done]. cbn [andb]. rewrite IH. by destruct (forallb _ _).
Qed.

Lemma join_trimmed m sep parts :
  parts ≠ [] → Forall (operand m) parts → join sep parts ≠ [] ∧ trimmed (join sep parts).
Proof.
  intros Hne HF. induction HF as [|p parts (Hp & Ht & _) HF IH]; [done|].
  destruct parts as [|q parts]; [done|].
  destruct IH as [IH1 IH2]; [done|]. change (join sep (p :: q :: parts)) with (p ++ sep ++ join sep (q :: parts)).
  split; [by destruct p|]. by apply trimmed_app.
Qed.

Lemma rule_groups_read groups :
  Forall normal_group groups →
  tryParseRequestRuleExpr (buildRequestRuleExpr groups) = Some (if forallb reads_back groups then Some groups else None).
Proof.
  intros Hg. rewrite build_groups by done. unfold tryParseRequestRuleExpr.
  destruct groups as [|g groups]; [done|].
  destruct (join_trimmed (cu "*") " * " (map rule_text (g :: groups))) as [Hne Ht]; [done|by apply rule_operands|].
  rewrite trim_id by done. apply truthy_spec in Hne as ->. cbn [negb].
  rewrite splitTopLevelMultiply_join; [|done|by apply rule_operands]. by apply parse_rule_texts.
Qed.


Definition sample_groups : list RequestRuleGroup :=
  [{| conditions := [mkPH src_header "x-tier" MATCH_CONTAINS "fast mode";
                     CTime {| timeFunc := "hour"; timezone := "Asia/Shanghai"; t_mode := MATCH_RANGE;
                              t_value := ""; rangeStart := "22"; rangeEnd := "6" |};
                     mkPH src_param "stream" MATCH_EQ "true"];
      multiplier := "1.5" |};
   {| conditions := [mkPH src_param "service_tier" MATCH_EXISTS ""]; multiplier := "2" |}].

(** A rule on the number of tokens, which is not read back. *)
Definition guarded_group : RequestRuleGroup :=
  {| conditions := [mkPH src_param "stream" MATCH_EQ "true"; mkPH src_param "max_tokens" MATCH_GT "4096"]; multiplier := "2" |}.

Lemma sample_groups_normal : Forall normal_group sample_groups.
Proof.
  repeat constructor; try discriminate; try (apply (bool_decide_unpack _); vm_compute; reflexivity).
Qed.

Lemma guarded_group_normal : normal_group guarded_group.
Proof.
  split; [discriminate| |reflexivity]. constructor; [left|constructor; [right|constructor]]; constructor;
    try discriminate; try (apply (bool_decide_unpack _); vm_compute; reflexivity); try reflexivity.
Qed.


(** ** Combining a base expression and rules *)

(** Balanced parentheses: the depth is never negative, and ends at zero. *)
Fixpoint balanced (d : Z) (s : jstring) : bool :=
  match s with
  | [] => (d =? 0)%Z
  | c :: r => let d := depth_after c d in (0 <=? d)%Z && balanced d r
  end.

Lemma depth_after_succ c d : depth_after c (d + 1) = (depth_after c d + 1)%Z.
Proof. unfold depth_after. destruct (c =? _)%N; [lia|]. destruct (c =? _)%N; lia. Qed.

(** Between parentheses a balanced text is not split. *)
Lemma split_inner sep w r d cur :
  balanced d w = true →
  splitTopLevel sep (d + 1) cur 0 (w ++ r) = splitTopLevel sep 1 (reverse w ++ cur) 0 r.
Proof.
  revert d cur. induction w as [|c w IH]; intros d cur Hb; cbn [balanced] in Hb.
  - apply Z.eqb_eq in Hb as ->. done.
  - bool_to_prop. cbn [app splitTopLevel]. rewrite depth_after_succ.
    assert ((depth_after c d + 1 =? 0)%Z = false) as -> by (apply Z.eqb_neq; apply Z.leb_le in H; lia).
    cbn [andb]. rewrite IH by done. by rewrite reverse_cons, <- app_assoc.
Qed.

Definition in_parens (w : jstring) : jstring := "(" ++ w ++ ")".
#[local] Arguments in_parens : simpl never.

Lemma split_parens w r :
  balanced 0 w = true →
  splitTopLevel " * " 0 [] 0 (in_parens w ++ r)
  = splitTopLevel " * " 0 (reverse (in_parens w)) 0 r.
Proof.
  intros Hb. unfold in_parens. change (("(" ++ w ++ ")") ++ r) with (cu "(" :: ((w ++ ")") ++ r)).
  cbn [splitTopLevel]. change (depth_after (cu "(") 0) with (0 + 1)%Z. cbn [Z.eqb Z.add andb].
  rewrite <- app_assoc. rewrite (split_inner _ w _ 0) by done.
  assert (reverse ("(" ++ w ++ ")") = cu ")" :: reverse w ++ [cu "("]) as ->
    by (rewrite !reverse_app, <- app_assoc; done).
  cbn [app]. cbn [splitTopLevel]. change (depth_after (cu ")") 1) with 0%Z. done.
Qed.

Lemma in_parens_trimmed w : trimmed (in_parens w).
Proof. by apply trimmed_ends. Qed.

Lemma split_parens_join w rest :
  balanced 0 w = true → rest ≠ [] → Forall (operand (cu "*")) rest →
  splitTopLevelMultiply (in_parens w ++ " * " ++ join " * " rest) = in_parens w :: rest.
Proof.
  intros Hb Hne Hr. unfold splitTopLevelMultiply. rewrite split_parens by done.
  change (splitTopLevel " * " 0 ?cur 0 (" * " ++ ?t)) with (trim (reverse cur) :: splitTopLevel " * " 0 [] 0 t).
  rewrite filter_cons, reverse_involutive, trim_id by apply in_parens_trimmed.
  rewrite decide_True by done. f_equal. by apply splitTopLevelMultiply_join.
Qed.

Lemma split_parens_single w : balanced 0 w = true → splitTopLevelMultiply (in_parens w) = [in_parens w].
Proof.
  intros Hb. unfold splitTopLevelMultiply. rewrite <- (app_nil_r (in_parens w)) at 1.
  rewrite split_parens by done. cbn [splitTopLevel].
  by rewrite reverse_involutive, trim_id by apply in_parens_trimmed.
Qed.

(** A rule ends with its neutral factor. *)
Lemma rule_group_end s m : exec ruleGroupRe s = Some m → ∃ w, s = w ++ " : 1)".
Proof.
  unfold ruleGroupRe. rewrite exec_bol_run. intros H. apply fmap_Some in H as (t & Ht & _).
  rewrite rmatch_seqs_cons in Ht. apply rmatch_sound in Ht as (s1 & Ht & (w1 & E1 & _ & _)).
  rewrite rmatch_seqs_cons in Ht. apply rmatch_sound in Ht as (s2 & Ht & (w2 & E2 & _ & _)).
  rewrite rmatch_seqs_cons in Ht. apply rmatch_sound in Ht as (s3 & Ht & (w3 & E3 & _ & _)).
  rewrite rmatch_seqs_cons in Ht. apply rmatch_sound in Ht as (s4 & Ht & (w4 & E4 & _ & _)).
  rewrite rmatch_seqs_cons in Ht. cbn [rmatch] in Ht.
  destruct (starts_with " : 1)" (rrest s4)) eqn:E; [|done]. apply starts_with_spec in E as [r E].
  rewrite rmatch_seqs_cons in Ht. cbn [rmatch] in Ht.
  assert (rrest (advance (length " : 1)") s4) = r) as Hr.
  { unfold advance. cbn [rrest]. by rewrite E, drop_app_length. }
  rewrite Hr in Ht. destruct r; [|done]. rewrite app_nil_r in E. cbn [rrest] in E1.
  exists (w1 ++ w2 ++ w3 ++ w4). by rewrite E1, E2, E3, E4, E, <- !app_assoc.
Qed.

Lemma parens_no_rule w :
  balanced 0 w = true → ends_with " : 1" w = false → tryParseRequestRuleExpr (in_parens w) = Some None.
Proof.
  intros Hb He. unfold tryParseRequestRuleExpr. rewrite trim_id by apply in_parens_trimmed.
  change (negb (truthy (in_parens w))) with false. rewrite split_parens_single by done.
  cbn [parseGroups]. unfold tryParseRuleGroupFactor. destruct (exec ruleGroupRe (in_parens w)) eqn:E; [|done].
  apply rule_group_end in E as [w' E]. unfold in_parens in E.
  change " : 1)" with (" : 1" ++ ")") in E. rewrite !app_assoc in E. apply app_inj_tail in E as [E _].
  destruct w' as [|c w']; [done|]. cbn [app] in E. injection E as _ E.
  assert (ends_with " : 1" w = true); [|congruence]. apply ends_with_spec. by exists w'.
Qed.

Lemma partition_rules groups :
  Forall normal_group groups →
  partitionParts (map rule_text groups)
  = Some (map rule_text (filter (λ g, reads_back g = true) groups), map rule_text (filter (λ g, reads_back g = false) groups)).
Proof.
  induction 1 as [|g groups Hg HF IH]; [done|]. cbn [map partitionParts]. rewrite !filter_cons.
  assert (tryParseRequestRuleExpr (rule_text g) = Some (if reads_back g then Some [g] else None)) as ->.
  { destruct (rule_operand g Hg) as (Hne & Ht & _). unfold tryParseRequestRuleExpr.
    rewrite trim_id by done. pose proof Hne as ->%truthy_spec. cbn [negb].
    assert (splitTopLevelMultiply (rule_text g) = [rule_text g]) as ->.
    { apply (splitTopLevelMultiply_join [rule_text g]); [done|]. by apply Forall_singleton, rule_operand. }
    pose proof (parse_rule_texts [g] (proj2 (Forall_singleton _ _) Hg)) as H. cbn [map forallb] in H. rewrite H.
    by rewrite andb_true_r. }
  cbn [mbind option_bind]. rewrite IH. cbn [mbind option_bind]. by destruct (reads_back g).
Qed.

Lemma all_read_back groups :
  if forallb reads_back groups
  then filter (λ g, reads_back g = true) groups = groups ∧ filter (λ g, reads_back g = false) groups = []
  else filter (λ g, reads_back g = false) groups ≠ [].
Proof.
  induction groups as [|g groups IH]; [done|]. cbn [forallb]. rewrite !filter_cons.
  destruct (reads_back g); cbn [andb]; [|done]. destruct (forallb _ _); [|done]. destruct IH as [IH1 IH2]. by rewrite decide_True, IH1.
Qed.

Lemma slice_inner (a b : N) m : slice 1 (-1) (a :: m ++ [b]) = m.
Proof.
  unfold slice, slice_nat, rel_index. decide_closed.
  cbn [length]. rewrite length_app. cbn [length].
  replace (Nat.min (Z.to_nat 1) (S (length m + 1))) with 1 by lia.
  replace (Z.to_nat (Z.of_nat (S (length m + 1)) + -1) - 1) with (length m) by lia.
  change (drop 1 (a :: m ++ [b])) with (m ++ [b]). by rewrite take_app_length.
Qed.

Lemma trim_length s : length (trim s) ≤ length s.
Proof.
  unfold trim, trim_end. rewrite length_reverse.
  assert (∀ t, length (trim_start t) ≤ length t) as H.
  { intros t. destruct (trim_start_suffix t) as (p & E & _). rewrite E at 2. rewrite length_app. lia. }
  etransitivity; [apply H|]. rewrite length_reverse. apply H.
Qed.

Lemma full_parens_inner s : hasFullOuterParens s = true → ∃ m, s = in_parens m.
Proof.
  unfold hasFullOuterParens. destruct (starts_with "(" s) eqn:E1; [|done].
  destruct (ends_with ")" s) eqn:E2; [|done]. intros _.
  apply starts_with_spec in E1 as [r ->]. apply ends_with_spec in E2 as [r' E2].
  destruct r' as [|c r']; [done|]. injection E2 as <- ->. by exists r'.
Qed.

Lemma unwrap_stable f g s : length s ≤ f → length s ≤ g → unwrapLoop f s = unwrapLoop g s.
Proof.
  revert g s. induction f as [|f IH]; intros g s Hf Hg.
  - destruct s; [|simpl in Hf; lia]. by destruct g.
  - destruct g as [|g]; [destruct s; [done|simpl in Hg; lia]|]. cbn [unwrapLoop].
    destruct (hasFullOuterParens s) eqn:E; [|done]. apply full_parens_inner in E as [m ->].
    change (in_parens m) with (cu "(" :: m ++ [cu ")"]) in *. rewrite slice_inner.
    cbn [length] in *. rewrite length_app in *. pose proof (trim_length m). apply IH; lia.
Qed.

(** The unwrapping loop ends with no outer pair of parentheses left. *)
Lemma unwrapOuterParens_done e : hasFullOuterParens (unwrapOuterParens e) = false.
Proof.
  unfold unwrapOuterParens. generalize (trim e) as s. intros s.
  assert (∀ f s, length s ≤ f → hasFullOuterParens (unwrapLoop f s) = false) as H; [|by apply H].
  clear s. induction f as [|f IH]; intros s Hf.
  - destruct s; [done|simpl in Hf; lia].
  - cbn [unwrapLoop]. destruct (hasFullOuterParens s) eqn:E; [|done].
    apply full_parens_inner in E as [m ->]. apply IH.
    change (in_parens m) with (cu "(" :: m ++ [cu ")"]) in *. rewrite slice_inner.
    cbn [length] in *. rewrite length_app in *. pose proof (trim_length m). lia.
Qed.

Lemma outer_inner w d : balanced d w = true → (0 ≤ d)%Z → outer_depth (d + 1) (w ++ ")") = true.
Proof.
  revert d. induction w as [|c w IH]; intros d Hb Hd; cbn [balanced] in Hb.
  - apply Z.eqb_eq in Hb as ->. done.
  - bool_to_prop. apply Z.leb_le in H. cbn [app outer_depth]. rewrite depth_after_succ.
    assert ((depth_after c d + 1 =? 0)%Z = false) as -> by (apply Z.eqb_neq; lia). cbn [andb]. by apply IH.
Qed.

Lemma unwrap_parens w :
  balanced 0 w = true → trimmed w → unwrapOuterParens (in_parens w) = unwrapOuterParens w.
Proof.
  intros Hb Ht. unfold unwrapOuterParens. rewrite trim_id, (trim_id w) by (done || apply in_parens_trimmed).
  change (length (in_parens w)) with (S (length (w ++ [cu ")"]))). cbn [unwrapLoop].
  assert (hasFullOuterParens (in_parens w) = true) as ->.
  { unfold hasFullOuterParens, in_parens. rewrite starts_with_app.
    assert (ends_with ")" ("(" ++ w ++ ")") = true) as ->.
    { apply ends_with_spec. exists ("(" ++ w). by rewrite <- app_assoc. }
    cbn [negb orb]. change ("(" ++ w ++ ")") with (cu "(" :: (w ++ ")")). cbn [outer_depth].
    change (depth_after (cu "(") 0) with (0 + 1)%Z. cbn [Z.eqb Z.add andb]. by apply (outer_inner w 0). }
  unfold in_parens. change ("(" ++ w ++ ")") with (cu "(" :: w ++ [cu ")"]). rewrite slice_inner, trim_id by done.
  apply unwrap_stable; [rewrite length_app|]; lia.
Qed.

Lemma split_combined baseExpr groups :
  let base := trim baseExpr in
  let combined := combineBillingExpr baseExpr (buildRequestRuleExpr groups) in
  base ≠ [] → balanced 0 base = true → ends_with " : 1" base = false →
  groups ≠ [] → Forall normal_group groups →
  splitBillingExprAndRequestRules combined
  = Some (if forallb reads_back groups then (unwrapOuterParens base, buildRequestRuleExpr groups) else (combined, [])).
Proof.
  intros base combined Hbase Hb He Hne Hg.
  destruct (join_trimmed (cu "*") " * " (map rule_text groups)) as [Hj Ht];
    [by destruct groups|by apply rule_operands|].
  assert (combined = in_parens base ++ " * " ++ join " * " (map rule_text groups)) as E.
  { unfold combined, combineBillingExpr. fold base. rewrite build_groups, (trim_id _ Ht) by done.
    rewrite (proj2 (truthy_spec base)), (proj2 (truthy_spec _)) by done. cbn [negb]. unfold in_parens. by norm_app. }
  assert (trim combined = combined) as Htc.
  { rewrite E. apply trim_id, trimmed_app; [apply in_parens_trimmed|done|done|done]. }
  unfold splitBillingExprAndRequestRules. rewrite Htc.
  assert (truthy combined = true) as -> by by rewrite E. cbn [negb].
  assert (splitTopLevelMultiply combined = in_parens base :: map rule_text groups) as ->
    by (rewrite E; apply split_parens_join; [done|by destruct groups|by apply rule_operands]).
  assert (length (in_parens base :: map rule_text groups) <=? 1 = false) as ->
    by (destruct groups; [done|reflexivity]).
  cbn [partitionParts]. rewrite parens_no_rule by done. cbn [mbind option_bind]. rewrite partition_rules by done.
  cbn [mbind option_bind]. pose proof (all_read_back groups) as Hall. destruct (forallb reads_back groups).
  - destruct Hall as [-> ->]. rewrite build_groups by done. destruct groups as [|g groups]; [done|]. cbn [map].
    rewrite unwrap_parens; [done|done|]. subst base. apply trim_trimmed.
  - destruct (filter (λ g, reads_back g = false) groups) as [|h hs]; [done|].
    by destruct (map rule_text (filter (λ g, reads_back g = true) groups)).
Qed.


Definition sample_base : jstring := "tier(" ++ quoted "standard" ++ ", p * 2.5 + c * 10)".


(** ** Normal forms *)

Lemma mode_or_idem source m d :
  has d (map fst (getRequestRuleMatchOptions source)) = true →
  has (mode_or source m d) (map fst (getRequestRuleMatchOptions source)) = true.
Proof.
  intros Hd. unfold mode_or. destruct m as [m|]; [|done].
  destruct (existsb _ _) eqn:E; [|done]. apply existsb_exists in E as (item & Hin & Hi).
  bool_to_prop. subst m. apply has_spec, list_elem_of_In, in_map_iff. by exists item.
Qed.

(** Normalizing makes a condition of the editor out of any partial one: the
    mode is one the source offers, and a second pass changes nothing. *)
Lemma normalizeCondition_idempotent cond :
  let c := normalizeCondition cond in
  normalizeCondition (Some (to_partial c)) = c ∧
  match c with
  | CTime t => timeFunc t ∈ TIME_FUNCS ∧ timezone t ≠ [] ∧
               t_mode t ∈ map fst (getRequestRuleMatchOptions SOURCE_TIME)
  | CParamHeader p => ph_mode p ∈ map fst (getRequestRuleMatchOptions (source_text (ph_source p)))
  end.
Proof.
  intros c. unfold normalizeCondition in c. destruct (bool_decide _) in c; subst c.
  - assert (∀ tf : option jstring, (if isTimeFunc tf then default [] tf else "hour") ∈ TIME_FUNCS) as Htf.
    { intros tf. destruct (isTimeFunc tf) eqn:E; [|constructor]. destruct tf as [f|]; [|done].
      by apply has_spec. }
    assert (∀ tz, ostr_or tz "Asia/Shanghai" ≠ []) as Htz.
    { intros [[|? ?]|]; done. }
    split_and!; [|apply Htf|apply Htz|apply has_spec; by apply mode_or_idem].
    apply normal_time; [apply Htf|apply Htz|by apply mode_or_idem].
  - assert (∀ src m, has (mode_or (source_text src) m MATCH_EQ) (map fst (getRequestRuleMatchOptions (source_text src))) = true)
      as Hm by (intros src m; apply mode_or_idem; by destruct src).
    split; [apply normal_ph, Hm|apply has_spec, Hm].
Qed.
