(* ===== verification/TierExpr.v ===== *)
(** * TierExpr: [features/pricing/lib/tier-expr.ts]

    The visual editor of tiered prices: a configuration, a list of tiers with
    their conditions and unit costs, is turned into a billing expression
    ([generateExprFromVisualConfig]) and an expression is read back as a
    configuration ([tryParseVisualConfig]).

    Tiers and configurations are plain objects, as in the code: [VisualTier] has
    an index signature and the editor spreads objects over one another. *)
From Stdlib Require Import Floats.SpecFloat.
From S2P Require Import Prelude JsString JsNumber JsValue JsRegex BillingExpr.

Definition CACHE_MODE_TIMED : jstring := "timed".
Definition CACHE_MODE_GENERIC : jstring := "generic".

(** ** Objects of the editor *)

Definition is_str (s : jstring) (v : jval) : bool :=
  match v with JStr t => bool_decide (t = s) | _ => false end.

(** [tier?.explicitExtraFields?.includes(field)]: an array of strings when present. *)
Definition explicit_includes (tier : jval) (field : jstring) : bool :=
  existsb (is_str field) (elems (member "explicitExtraFields" tier)).

(** [Number(v) || 0] *)
Definition cost_of (v : jval) : num := num_or (to_number v) zero.

Definition getTierCacheMode (tier : jval) : jstring :=
  if is_str CACHE_MODE_TIMED (member "cache_mode" tier) then CACHE_MODE_TIMED
  else if is_str CACHE_MODE_GENERIC (member "cache_mode" tier) then CACHE_MODE_GENERIC
  else
    let hasTimedCache := existsb (λ field,
        nlt zero (to_number (member field tier)) || explicit_includes tier field)
      ["cache_create_1h_unit_cost"; "cache_create_12h_unit_cost"] in
    if hasTimedCache then CACHE_MODE_TIMED else CACHE_MODE_GENERIC.

Definition normalizeVisualTier (tier : jval) : jval :=
  let cost field := (field, JNum (cost_of (member field tier))) in
  JObj (obj_spread
    (obj_spread
      [("label", if is_nullish (member "label" tier) then JStr [] else member "label" tier);
       cost "input_unit_cost"; cost "output_unit_cost";
       ("cache_mode", JStr (getTierCacheMode tier));
       ("conditions", JArr (elems (member "conditions" tier)))]
      (props tier))
    [cost "cache_read_unit_cost"; cost "cache_create_unit_cost";
     cost "cache_create_1h_unit_cost"; cost "cache_create_12h_unit_cost";
     cost "image_unit_cost"; cost "image_output_unit_cost";
     cost "audio_input_unit_cost"; cost "audio_output_unit_cost";
     cost "reasoning_output_unit_cost"]).

Definition createDefaultVisualConfig : jval :=
  JObj [("tiers", JArr [normalizeVisualTier (JObj [
    ("conditions", JArr []);
    ("input_unit_cost", JNum zero);
    ("output_unit_cost", JNum zero);
    ("label", JStr "base");
    ("cache_mode", JStr CACHE_MODE_GENERIC)])])].

Definition normalizeVisualConfig (config : jval) : jval :=
  match elems (member "tiers" config) with
  | [] => createDefaultVisualConfig
  | tiers => JObj (obj_spread (props config) [("tiers", JArr (map normalizeVisualTier tiers))])
  end.

(** ** Generating an expression *)

Definition condition_kept (c : jval) : bool :=
  to_boolean (member "var" c) && to_boolean (member "op" c) &&
  negb (is_nullish (member "value" c)) && negb (is_str [] (member "value" c)).

Definition condition_text (c : jval) : jstring :=
  to_js_string (member "var" c) ++ " " ++ to_js_string (member "op" c) ++ " " ++
  to_js_string (member "value" c).

Definition buildConditionStr (conditions : jval) : jstring :=
  join " && " (map condition_text (filter (λ c, condition_kept c = true) (elems conditions))).

Definition price_text (exprVar : jstring) (v : num) : jstring :=
  exprVar ++ " * " ++ Number_to_string v.

(** The price of an optional variable, when the expression states it. *)
Definition extra_price (tier : jval) (field : jstring) : option num :=
  let v := cost_of (member field tier) in
  if negb (neqb v zero) || explicit_includes tier field then Some v else None.

Definition buildTierBodyExpr (tier : jval) : jstring :=
  join " + "
    ([price_text "p" (cost_of (member "input_unit_cost" tier));
      price_text "c" (cost_of (member "output_unit_cost" tier))] ++
     omap (λ cv, price_text cv.2 <$> extra_price tier cv.1) BILLING_CACHE_VAR_MAP).

(** [tier.label || dflt] in a template *)
Definition label_or (tier : jval) (dflt : jstring) : jstring :=
  if to_boolean (member "label" tier) then to_js_string (member "label" tier) else dflt.

Definition tier_call (label body : jstring) : jstring :=
  "tier(" ++ [34%N] ++ label ++ [34%N] ++ ", " ++ body ++ ")".

Definition generateExprFromVisualConfig (config : jval) : jstring :=
  match elems (member "tiers" config) with
  | [] => "p * 0 + c * 0"
  | [tier] =>
    let body := tier_call (label_or tier "default") (buildTierBodyExpr tier) in
    let cond := buildConditionStr (member "conditions" tier) in
    if truthy cond then cond ++ " ? " ++ body ++ " : p * 0 + c * 0" else body
  | tiers =>
    join " : " (imap (λ i tier,
      let body := tier_call (label_or tier ("tier_" ++ N_to_js (N.of_nat (i + 1))))
                    (buildTierBodyExpr tier) in
      let cond := buildConditionStr (member "conditions" tier) in
      if bool_decide (i < length tiers - 1) && truthy cond then cond ++ " ? " ++ body else body)
      tiers)
  end.

(** ** Reading an expression *)

(** [[\d.eE+-]+] in a group *)
Definition RCost (n : nat) : regex := RGroup n (RPlus (RChar num_char)).

(** [v\s*\*\s*] and a cost *)
Definition RPrice (v : jstring) (n : nat) : list regex :=
  [RLit v; RSpaces; RLit "*"; RSpaces; RCost n].

(** The optional prices, their groups numbered from [n]. *)
Fixpoint optCache (n : nat) (vars : list jstring) : list regex :=
  match vars with
  | [] => []
  | v :: vars => ROpt (RSeqs ([RSpaces; RLit "+"; RSpaces] ++ RPrice v n)) :: optCache (S n) vars
  end.

Definition cacheVarNames : list jstring := map snd BILLING_CACHE_VAR_MAP.

(** The groups of the costs are numbered from [n]. *)
Definition bodyPat (n : nat) : list regex :=
  RPrice "p" n ++ [RSpaces; RLit "+"; RSpaces] ++ RPrice "c" (n + 1) ++ optCache (n + 2) cacheVarNames.

(** The call of [tier]: a quoted label, in group [n], and the body. *)
Definition tierPat (n : nat) : list regex :=
  [RLit "tier("; RLit [34%N]; RGroup n (RStar (RChar (none_of [34%N]))); RLit [34%N];
   RLit ","; RSpaces] ++ bodyPat (n + 1) ++ [RLit ")"].

Definition singleRe : regex := RSeqs ([RBol] ++ tierPat 1 ++ [REol]).

Definition condGroup : regex := RGroup 1 (RSeq ROneCond (RStar (RSeq RAnd ROneCond))).

Definition visualTierRe : regex :=
  RSeqs ([ROpt (RSeqs [condGroup; RSpaces; RLit "?"; RSpaces])] ++ tierPat 2).

(** [tier[field] = price], and the field is listed when the price is zero. *)
Definition set_price (field : jstring) (price : num) (tier : jval) : jval :=
  let tier := JObj (obj_set field (JNum price) (props tier)) in
  if neqb price zero
  then JObj (obj_set "explicitExtraFields"
               (JArr (elems (member "explicitExtraFields" tier) ++ [JStr field])) (props tier))
  else tier.

(** The loop over [BILLING_CACHE_VAR_MAP]: the text of each price, if any. *)
Definition set_prices (texts : list (option jstring)) (tier : jval) : jval :=
  fold_left (λ tier ft,
      match ft.2 with
      | Some text => set_price ft.1 (Number_of_string text) tier
      | None => tier
      end)
    (zip (map fst BILLING_CACHE_VAR_MAP) texts) tier.

(** The tier of a match, its label in group [n]. *)
Definition matched_tier (n : nat) (conditions : list jval) (m : rmatched) : jval :=
  normalizeVisualTier
    (set_prices (map (λ i, m_group (n + 3 + i) m) (seq 0 (length BILLING_CACHE_VAR_MAP)))
      (JObj [("conditions", JArr conditions);
             ("input_unit_cost", JNum (Number_of_string (mg (n + 1) m)));
             ("output_unit_cost", JNum (Number_of_string (mg (n + 2) m)));
             ("label", JStr (mg n m))])).

Definition condition_object (var op : jstring) (value : num) : jval :=
  JObj [("var", JStr var); ("op", JStr op); ("value", JNum value)].

Definition parseVisualConditions (condStr : jstring) : list jval :=
  if negb (truthy condStr) then []
  else omap (λ cp,
      (λ cm, condition_object (mg 1 cm) (mg 2 cm) (Number_of_string (mg 3 cm)))
      <$> exec tierCondRe (trim cp)) (split_regex RAnd condStr).

(** The loop over the matches: [None] when two are not separated by a colon,
    else the position reached and the tiers. *)
Fixpoint visualTiers (body : jstring) (cursor : nat) (tiers : list jval) (ms : list rmatched)
  : option (nat * list jval) :=
  match ms with
  | [] => Some (cursor, tiers)
  | m :: ms =>
    let separator := trim (slice_nat cursor (m_index m) body) in
    if bool_decide (separator = match tiers with [] => [] | _ => ":" end) then
      visualTiers body (m_index m + length (m_text m))
        (tiers ++ [matched_tier 2 (parseVisualConditions (mg 1 m)) m]) ms
    else None
  end.

Definition versionRe : regex :=
  RSeqs [RBol; RLit "v"; RDigits; RLit ":"; RGroup 1 (RStar (RChar any_unit)); REol].

(** [exprStr] is [None] when undefined or null; the result [None] is [null]. *)
Definition tryParseVisualConfig (exprStr : option jstring) : option jval :=
  match exprStr with
  | None | Some [] => None
  | Some exprStr =>
    let body := match exec versionRe exprStr with Some m => mg 1 m | None => exprStr end in
    match exec singleRe body with
    | Some simple =>
      Some (normalizeVisualConfig
        (JObj [("tiers", JArr [matched_tier 1 [] simple])]))
    | None =>
      '(cursor, tiers) ← visualTiers body 0 [] (match_all visualTierRe body);
      match tiers with
      | [] => None
      | _ =>
        if truthy (trim (drop cursor body)) then None
        else Some (normalizeVisualConfig (JObj [("tiers", JArr tiers)]))
      end
    end
  end.

(** ** The estimator *)

(** Pairs (variable, state key). *)
Definition ESTIMATOR_VARS : list (jstring * jstring) := [
  ("cr", "cacheReadTokens"); ("cc", "cacheCreateTokens"); ("cc1h", "cacheCreate1hTokens");
  ("cc12h", "cacheCreate12hTokens"); ("img", "imageTokens"); ("img_o", "imageOutputTokens");
  ("ai", "audioInputTokens"); ("ao", "audioOutputTokens"); ("rt", "reasoningOutputTokens")].

Record EvalResult := { cost : num; matchedTier : jstring; eval_error : option jstring }.

(** [\b(...)\b] over some words *)
Definition word_re (words : list jstring) : regex :=
  RSeqs [RWordB; RGroup 1 (RAlts (map RLit words)); RWordB].

Definition exprUsesExtraVars (exprStr : jstring) : bool :=
  truthy exprStr && test (word_re (map fst ESTIMATOR_VARS)) exprStr.

(** The numbers the expression may use, in the order they are passed. *)
Definition estimator_env (exprStr : jstring) (promptTokens completionTokens : num)
  (extraTokenValues : list (jstring * num)) : list (jstring * num) :=
  let value k := num_or (default nan (oget k extraTokenValues)) zero in
  let len := nadd (nadd (nadd (nadd promptTokens (value "cacheReadTokens")) (value "cacheCreateTokens"))
               (value "cacheCreate1hTokens")) (value "cacheCreate12hTokens") in
  let outputTokens := if test (word_re ["rt"]) exprStr
                      then nmax zero (nsub completionTokens (value "reasoningOutputTokens"))
                      else completionTokens in
  [("p", promptTokens); ("c", outputTokens); ("len", len)] ++ map (λ f, (f.1, value f.2)) ESTIMATOR_VARS.

Section estimator.
(** The evaluation of a program text by the language, [new Function]: the message
    of the exception, or the value and the name last given to [tier]. *)
Variable new_Function : list (jstring * num) → jstring → jstring + (jval * option jstring).

Definition evalExprLocally (exprStr : jstring) (promptTokens completionTokens : num)
  (extraTokenValues : list (jstring * num)) : EvalResult :=
  if negb (truthy exprStr) || negb (truthy (trim exprStr)) then
    {| cost := zero; matchedTier := []; eval_error := None |}
  else
    match new_Function (estimator_env exprStr promptTokens completionTokens extraTokenValues) exprStr with
    | inr (v, t) => {| cost := cost_of v; matchedTier := default [] t; eval_error := None |}
    | inl message => {| cost := zero; matchedTier := []; eval_error := Some message |}
    end.

End estimator.
