(* ===== verification/TierRoundTrip.v ===== *)
(** * TierRoundTrip: what the visual editor writes and reads back

    The expression generated from a configuration is read by the two patterns of
    [tryParseVisualConfig] part by part ([JsRegexRuns]).  [config_views] is what the
    expression holds of a configuration; the theorems at the end state that
    reading gives it back, that generating again gives the same text, and the
    case in which the text cannot be read. *)
From Stdlib Require Import Floats.SpecFloat.
From stdpp Require Import sets.
From S2P Require Import Prelude JsString JsNumber JsValue JsRegex JsRegexRuns JsDecimal BillingExpr TierExpr.

(** ** Texts of numbers *)

(** A cost whose numeral is read back as it is. *)
Definition cost_readable (x : num) : bool :=
  is_finite x && bool_decide (Number_of_string (Number_to_string x) = x).

Lemma number_chars x :
  is_finite x = true → Number_to_string x ≠ [] ∧ Forall (λ c, num_char c = true) (Number_to_string x).
Proof.
  intros (ip & fp & ex & -> & Hi & Hne & Hf & _)%Number_to_string_numeral.
  assert (∀ d, digits d → Forall (λ c, num_char c = true) d) as Hd.
  { intros d H. eapply Forall_impl; [exact H|]. intros c Hc. unfold num_char. by rewrite Hc. }
  split; [unfold numeral; by destruct (sign_of x), ip|].
  apply Forall_app. split; [destruct (sign_of x); [by repeat constructor|apply Forall_nil_2]|].
  unfold numeral. rewrite !Forall_app. split_and!; [by apply Hd| |].
  - destruct fp as [|c fp]; [apply Forall_nil_2|]. apply Forall_app. split; [by repeat constructor|by apply Hd].
  - destruct ex as [e|]; [|apply Forall_nil_2]. destruct (digits_val_Z (Z.abs e)) as (ds & -> & Hds & _); [lia|].
    rewrite !Forall_app. split_and!; [by repeat constructor| |by apply Hd].
    destruct (e <? 0)%Z; by repeat constructor.
Qed.

(** ** Reading conditions *)

Definition TIER_OPS : list jstring := ["<"; "<="; ">"; ">="].

Lemma var_runs var rest cs : var ∈ BILLING_CONDITION_VARS → runs RVar var rest cs cs.
Proof.
  intros H. unfold RVar, RAlts. cbn.
  repeat (apply elem_of_cons in H as [->|H]); [| | |by apply elem_of_nil in H].
  - apply runs_alt_l, runs_lit.
  - apply runs_alt_r; [by apply refuses_lit_alone|]. apply runs_alt_l, runs_lit.
  - apply runs_alt_r; [by apply refuses_lit_alone|]. apply runs_alt_r; [by apply refuses_lit_alone|]. apply runs_lit.
Qed.

Lemma op_runs c op t rest cs cs' :
  op ∈ TIER_OPS → (∀ u, refuses c ("=" ++ u)) → runs c t rest cs cs' → runs (RSeq ROp c) (op ++ t) rest cs cs'.
Proof.
  intros H Hc Ht. unfold ROp, RAlts. cbn.
  repeat (apply elem_of_cons in H as [->|H]); [| | | |by apply elem_of_nil in H].
  - apply runs_alt_seq_l. by eapply runs_seq; [apply runs_lit|].
  - apply runs_alt_seq_r; [apply (refuses_lit_next "<"), Hc|].
    apply runs_alt_seq_l. by eapply runs_seq; [apply runs_lit|].
  - do 2 (apply runs_alt_seq_r; [by apply refuses_lit|]).
    apply runs_alt_seq_l. by eapply runs_seq; [apply runs_lit|].
  - do 2 (apply runs_alt_seq_r; [by apply refuses_lit|]).
    apply runs_alt_seq_r; [apply (refuses_lit_next ">"), Hc|]. by eapply runs_seq; [apply runs_lit|].
Qed.

Lemma op_group_runs n c op t rest cs cs' :
  op ∈ TIER_OPS → (∀ u, refuses c ("=" ++ u)) → runs c t rest ((n, op) :: cs) cs' →
  runs (RSeq (RGroup n ROp) c) (op ++ t) rest cs cs'.
Proof.
  intros H Hc Ht. unfold ROp, RAlts. cbn.
  repeat (apply elem_of_cons in H as [->|H]); [| | | |by apply elem_of_nil in H].
  - apply runs_group_alt_l. by eapply runs_seq; [apply runs_group, runs_lit|].
  - apply runs_group_alt_r; [apply (refuses_group_lit_next n "<"), Hc|].
    apply runs_group_alt_l. by eapply runs_seq; [apply runs_group, runs_lit|].
  - do 2 (apply runs_group_alt_r; [by apply refuses_group_lit|]).
    apply runs_group_alt_l. by eapply runs_seq; [apply runs_group, runs_lit|].
  - do 2 (apply runs_group_alt_r; [by apply refuses_group_lit|]).
    apply runs_group_alt_r; [apply (refuses_group_lit_next n ">"), Hc|]. by eapply runs_seq; [apply runs_group, runs_lit|].
Qed.

(** A condition the editor writes: its variable, its operator and the text of its value. *)
Definition condition_readable (c : jval) : bool :=
  match member "var" c, member "op" c with
  | JStr var, JStr op =>
    let text := to_js_string (member "value" c) in
    has var BILLING_CONDITION_VARS && has op TIER_OPS && truthy text && forallb cond_num_char text
  | _, _ => false
  end.

Definition condition_read (c : jval) : jval :=
  condition_object (to_js_string (member "var" c)) (to_js_string (member "op" c))
    (Number_of_string (to_js_string (member "value" c))).

Lemma condition_readable_spec c :
  condition_readable c = true →
  ∃ var op text, member "var" c = JStr var ∧ member "op" c = JStr op ∧ to_js_string (member "value" c) = text ∧
    var ∈ BILLING_CONDITION_VARS ∧ op ∈ TIER_OPS ∧ text ≠ [] ∧ Forall (λ c, cond_num_char c = true) text.
Proof.
  unfold condition_readable. destruct (member "var" c); try done. destruct (member "op" c); try done.
  intros H. bool_to_prop. eexists _, _, _. split_and!; [done..|by apply has_spec|by apply has_spec|by apply truthy_spec|].
  apply Forall_forall. intros d Hd. eapply forallb_forall; [done|]. by apply list_elem_of_In.
Qed.

Lemma not_in_vars var d : var ∈ BILLING_CONDITION_VARS → d ∉ [112; 99; 108; 101; 110]%N → d ∉ var.
Proof.
  intros H Hd. repeat (apply elem_of_cons in H as [->|H]); [..|by apply elem_of_nil in H];
    contradict Hd; clear -Hd; set_solver.
Qed.

Lemma op_units op d : op ∈ TIER_OPS → d ∈ op → d = 60%N ∨ d = 61%N ∨ d = 62%N.
Proof.
  intros H Hd. repeat (apply elem_of_cons in H as [->|H]); [..|by apply elem_of_nil in H]; set_solver.
Qed.

Lemma op_head op u : op ∈ TIER_OPS → head_is is_space (op ++ u) = false.
Proof. intros H. by repeat (apply elem_of_cons in H as [->|H]); [..|by apply elem_of_nil in H]. Qed.

Lemma var_head var u :
  var ∈ BILLING_CONDITION_VARS →
  ∃ d r, var ++ u = d :: r ∧ (d = 112 ∨ d = 99 ∨ d = 108)%N.
Proof.
  intros H. repeat (apply elem_of_cons in H as [->|H]); [..|by apply elem_of_nil in H]; eexists _, _; split; eauto.
Qed.

Lemma cond_num_units t d : Forall (λ c, cond_num_char c = true) t → d ∈ t → is_space d = false ∧ d ≠ 38%N.
Proof.
  intros H Hd. eapply Forall_forall in H; [|exact Hd]. unfold cond_num_char in H.
  apply orb_true_iff in H as [H|H].
  - split; [|by intros ->]. apply is_digit_spec in H. assert (d ∈ [48;49;50;51;52;53;54;55;56;57]%N) as Hin.
    { rewrite !elem_of_cons. lia. }
    repeat (apply elem_of_cons in Hin as [->|Hin]; [done|]). by apply elem_of_nil in Hin.
  - unfold one_of in H. apply existsb_exists in H as (e & He & Ee). apply N.eqb_eq in Ee as <-.
    repeat (destruct He as [<-|He]; [done|]). by destruct He.
Qed.

Lemma cond_num_head t u : t ≠ [] → Forall (λ c, cond_num_char c = true) t → head_is is_space (t ++ u) = false.
Proof.
  destruct t as [|d t]; [done|]. intros _ H. apply (cond_num_units _ d) in H; [|by left]. apply H.
Qed.

Lemma condition_text_trimmed c : condition_readable c = true → trimmed (condition_text c).
Proof.
  intros (var & op & text & Hv & Ho & Ht & Hvar & Hop & Hne & Hnum)%condition_readable_spec.
  unfold condition_text. rewrite Hv, Ho, Ht. cbn [to_js_string]. split.
  - destruct (var_head var (" " ++ op ++ " " ++ text) Hvar) as (d & r & -> & Hd). by destruct Hd as [-> |[-> | ->]].
  - rewrite !reverse_app, <- !app_assoc. destruct (reverse text) as [|d r] eqn:E.
    + apply (f_equal reverse) in E. by rewrite reverse_involutive in E.
    + cbn. apply (cond_num_units text d); [done|]. apply elem_of_reverse. rewrite E. by left.
Qed.

Lemma RAnd_unread c : condition_readable c = true → unread RAnd (condition_text c).
Proof.
  intros Hc w1 w2 rest E Hne. pose proof (condition_text_trimmed c Hc) as [_ Hlast].
  assert (38%N ∉ condition_text c) as Hamp.
  { apply condition_readable_spec in Hc as (var & op & text & Hv & Ho & Ht & Hvar & Hop & _ & Hnum).
    unfold condition_text. rewrite Hv, Ho, Ht. cbn [to_js_string]. rewrite !not_elem_of_app. split_and!.
    - apply not_in_vars; [done|]. set_solver.
    - set_solver.
    - intros H. by destruct (op_units op _ Hop H) as [?|[?|?]].
    - set_solver.
    - intros H. by destruct (cond_num_units text _ Hnum H). }
  rewrite E in Hamp, Hlast. apply refuses_iff. intros k bf cs H.
  apply star_some in H as (sp & r & E1 & Hsp & H). apply lit_some in H as (r' & -> & _).
  apply app_eq_inv in E1 as [(v & E1 & E2)|(v & E1 & E2)].
  - destruct v as [|d v]; [rewrite app_nil_r in E1; subst sp|].
    + rewrite reverse_app in Hlast. apply Forall_reverse in Hsp. destruct (reverse w2) as [|d r] eqn:Er.
      * apply (f_equal reverse) in Er. by rewrite reverse_involutive in Er.
      * apply Forall_cons in Hsp as [Hd _]. cbn in Hlast. congruence.
    + injection E2 as <- _. apply Hamp. rewrite E1. set_solver.
  - rewrite reverse_app in Hlast. subst sp. apply Forall_app in Hsp as [Hsp _]. apply Forall_reverse in Hsp.
    destruct (reverse w2) as [|d r] eqn:Er.
    + apply (f_equal reverse) in Er. by rewrite reverse_involutive in Er.
    + apply Forall_cons in Hsp as [Hd _]. cbn in Hlast. congruence.
Qed.

Lemma RAnd_runs rest cs : head_is is_space rest = false → runs RAnd " && " rest cs cs.
Proof.
  intros H. eapply (runs_seq _ _ " " "&& "); [by apply runs_space|].
  eapply (runs_seq _ _ "&&" " "); [apply runs_lit|]. eapply runs_seq_end; [by apply runs_space|apply runs_empty].
Qed.

Lemma condition_text_runs c rest cs :
  condition_readable c = true → head_is cond_num_char rest = false → runs ROneCond (condition_text c) rest cs cs.
Proof.
  intros (var & op & text & Hv & Ho & Ht & Hvar & Hop & Hne & Hnum)%condition_readable_spec Hr.
  unfold condition_text. rewrite Hv, Ho, Ht. cbn [to_js_string].
  eapply runs_seq; [by apply var_runs|]. eapply runs_seq; [apply runs_space; rewrite <- app_assoc; by apply op_head|].
  eapply op_runs; [done| |].
  - intros u. apply refuses_spaces; [done|]. apply refuses_seq, refuses_plus. done.
  - eapply runs_seq; [apply runs_space; by apply cond_num_head|].
    eapply runs_seq_end; [by apply runs_plus_char|apply runs_empty].
Qed.

Lemma condition_text_head c u :
  condition_readable c = true → ∃ d r, condition_text c ++ u = d :: r ∧ (d = 112 ∨ d = 99 ∨ d = 108)%N.
Proof.
  intros (var & op & text & Hv & Ho & Ht & Hvar & _)%condition_readable_spec.
  unfold condition_text. rewrite Hv. cbn [to_js_string]. rewrite <- app_assoc. by apply var_head.
Qed.

Lemma condition_text_start c u : condition_readable c = true → head_is is_space (condition_text c ++ u) = false.
Proof. intros H. destruct (condition_text_head c u H) as (d & r & -> & Hd). by destruct Hd as [-> |[-> | ->]]. Qed.

Lemma condition_text_exec c :
  condition_readable c = true →
  exec tierCondRe (condition_text c) = Some (match_at [] (condition_text c) []
    [(3, to_js_string (member "value" c)); (2, to_js_string (member "op" c)); (1, to_js_string (member "var" c))]).
Proof.
  intros (var & op & text & Hv & Ho & Ht & Hvar & Hop & Hne & Hnum)%condition_readable_spec.
  unfold condition_text. rewrite Hv, Ho, Ht. cbn [to_js_string]. apply exec_runs.
  eapply runs_seq; [by apply runs_group, var_runs|]. eapply runs_seq; [apply runs_space; rewrite <- app_assoc; by apply op_head|].
  eapply op_group_runs; [done| |].
  - intros u. apply refuses_spaces; [done|]. apply refuses_seq, refuses_group, refuses_plus. done.
  - eapply runs_seq; [apply runs_space; by apply cond_num_head|].
    eapply runs_seq_end; [apply runs_group; by apply runs_plus_char|].
    eapply runs_seq_end; [apply runs_eol|apply runs_empty].
Qed.

Lemma parse_conditions_text cs :
  Forall (λ c, condition_readable c = true) cs →
  parseVisualConditions (join " && " (map condition_text cs)) = map condition_read cs.
Proof.
  intros Hcs. unfold parseVisualConditions. destruct cs as [|c0 cs0] eqn:Ecs; [done|]. rewrite <- Ecs in *.
  assert (truthy (join " && " (map condition_text cs)) = true) as ->.
  { subst cs. cbn [map]. rewrite join_cons. apply Forall_cons in Hcs as [Hc _].
    by destruct (condition_text_head c0 (concat (map (app " && ") (map condition_text cs0))) Hc) as (d & r & -> & _). }
  cbn [negb]. rewrite split_regex_join; [|done|by subst cs| | |].
  - clear c0 cs0 Ecs. induction Hcs as [|c cs Hc Hcs IH]; [done|]. cbn [map omap list_omap].
    rewrite trim_id by (by apply condition_text_trimmed). rewrite condition_text_exec by done. cbn. by rewrite <- IH.
  - apply Forall_map. eapply Forall_impl; [done|]. apply RAnd_unread.
  - intros k bf cs'. done.
  - intros w rest Hw. apply RAnd_runs. apply list_elem_of_fmap in Hw as (c & -> & Hc).
    rewrite Forall_forall in Hcs. by apply condition_text_start, Hcs.
Qed.

(** ** Reading prices *)

Lemma seqs_app_nil l : RSeqs (l ++ []) = RSeqs l.
Proof. by rewrite app_nil_r. Qed.

Lemma number_start x u : is_finite x = true → head_is is_space (Number_to_string x ++ u) = false.
Proof.
  intros [Hne H]%number_chars. destruct (Number_to_string x) as [|c t]; [done|].
  apply Forall_cons in H as [H _]. cbn. unfold num_char in H. apply orb_true_iff in H as [H|H].
  - apply (cond_num_units [c] c); [|by left]. apply Forall_cons. split; [|apply Forall_nil_2].
    unfold cond_num_char. by rewrite H.
  - unfold one_of in H. apply existsb_exists in H as (e & He & Ee). apply N.eqb_eq in Ee as <-.
    repeat (destruct He as [<-|He]; [done|]). by destruct He.
Qed.

(** A price, then the rest of the pattern. *)
Lemma price_runs v n x tail t rest cs cs' :
  is_finite x = true → head_is num_char (t ++ rest) = false →
  runs (RSeqs tail) t rest ((n, Number_to_string x) :: cs) cs' →
  runs (RSeqs (RPrice v n ++ tail)) (price_text v x ++ t) rest cs cs'.
Proof.
  intros Hx Ht H. unfold price_text. rewrite <- !app_assoc. cbn [RSeqs RPrice app foldr].
  eapply runs_seq; [apply runs_lit|]. eapply (runs_seq _ _ " " ("* " ++ Number_to_string x ++ t)); [by apply runs_space|].
  eapply (runs_seq _ _ "*" (" " ++ Number_to_string x ++ t)); [apply runs_lit|].
  eapply runs_seq; [apply runs_space; rewrite <- app_assoc; by apply number_start|].
  apply number_chars in Hx as [Hne Hc].
  eapply runs_seq; [apply runs_group; by apply runs_plus_char|exact H].
Qed.

(** [v] is not read at the start of the price of [w]. *)
Definition distinct_vars (v w : jstring) : bool :=
  if starts_with v w
  then match drop (length v) w with c :: _ => negb (is_space c) && negb (c =? cu "*")%N | [] => false end
  else negb (starts_with w v).

Lemma price_refused v w n tail u :
  distinct_vars v w = true → refuses (RSeqs (RPrice v n ++ tail)) (w ++ " " ++ u).
Proof.
  unfold distinct_vars. cbn [RSeqs RPrice app foldr]. destruct (starts_with v w) eqn:E.
  - apply starts_with_spec in E as [r ->]. rewrite drop_app_length. destruct r as [|c r]; [done|].
    intros [Hc Hs]%andb_true_iff. apply negb_true_iff in Hc, Hs. rewrite <- app_assoc.
    apply refuses_lit_next, refuses_spaces; [done|]. apply refuses_lit.
    change (((cu "*") =? c)%N && true = false). by rewrite N.eqb_sym, Hs.
  - intros Hw%negb_true_iff. apply refuses_lit. destruct (starts_with v (w ++ _)) eqn:E'; [|done].
    apply starts_with_inv in E' as [?|?]; congruence.
Qed.

(** The texts of the optional prices. *)
Definition extra_texts (vars : list jstring) (vals : list (option num)) : list jstring :=
  omap (λ wx, price_text wx.1 <$> wx.2) (zip vars vals).

Definition plus_texts (l : list jstring) : jstring := concat (map (app " + ") l).

(** The captures after them. *)
Fixpoint extra_caps (n : nat) (vals : list (option num)) (cs : list (nat * jstring)) :=
  match vals with
  | [] => cs
  | Some x :: vals => extra_caps (S n) vals ((n, Number_to_string x) :: cs)
  | None :: vals => extra_caps (S n) vals cs
  end.

Lemma plus_texts_head l u : head_is num_char (plus_texts l ++ ")" ++ u) = false.
Proof. by destruct l. Qed.

Definition word (w : jstring) : bool := match w with c :: _ => negb (is_space c) | [] => false end.

Lemma word_start w u : word w = true → head_is is_space (w ++ u) = false.
Proof. destruct w as [|c w]; [done|]. by intros H%negb_true_iff. Qed.

Lemma word_no_space w u : word w = true → starts_with w (" " ++ u) = false.
Proof.
  destruct w as [|c w]; [done|]. intros H%negb_true_iff. cbn.
  destruct (N.eqb_spec c 32) as [->|]; done.
Qed.

Lemma plus_texts_refused v n vars vals u :
  word v = true → Forall (λ w, distinct_vars v w = true ∧ word w = true) vars →
  refuses (RSeqs ([RSpaces; RLit "+"; RSpaces] ++ RPrice v n)) (plus_texts (extra_texts vars vals) ++ ")" ++ u).
Proof.
  intros Hv H. assert (refuses (RSeqs ([RSpaces; RLit "+"; RSpaces] ++ RPrice v n)) (")" ++ u)) as H0.
  { cbn [RSeqs app foldr]. apply refuses_spaces; [done|]. by apply refuses_lit. }
  revert vals. induction H as [|w vars [Hw Hww] H IH]; intros vals; [exact H0|].
  - destruct vals as [|[x|] vals]; [exact H0| |apply IH].
    change (plus_texts (extra_texts (w :: vars) (Some x :: vals)))
      with ((" + " ++ w ++ " * " ++ Number_to_string x) ++ plus_texts (extra_texts vars vals)).
    rewrite <- !app_assoc. set (u' := Number_to_string x ++ _). cbn [RSeqs app foldr].
    apply (refuses_space _ ("+ " ++ w ++ " * " ++ u')); [done| |by apply refuses_lit].
    apply (refuses_lit_next "+"). apply (refuses_space _ (w ++ " * " ++ u')); [by apply word_start| |].
    + apply (price_refused v w n [] ("* " ++ u')); done.
    + apply refuses_lit. by apply word_no_space.
Qed.

Lemma extras_runs n vars vals tail u rest cs cs' :
  length vals = length vars → Forall (λ x, from_option is_finite true x = true) vals →
  Forall (λ w, word w = true) vars → ForallOrdPairs (λ v w, distinct_vars v w = true) vars →
  runs (RSeqs tail) (")" ++ u) rest (extra_caps n vals cs) cs' →
  runs (RSeqs (optCache n vars ++ tail)) (plus_texts (extra_texts vars vals) ++ ")" ++ u) rest cs cs'.
Proof.
  intros Hlen Hfin Hword Hsep. revert n vals cs Hlen Hfin.
  induction Hsep as [|v vars Hv Hsep IH]; intros n vals cs Hlen Hfin H.
  { destruct vals; [exact H|done]. }
  destruct vals as [|val vals]; [done|]. injection Hlen as Hlen. apply Forall_cons in Hfin as [Hx Hfin].
  apply Forall_cons in Hword as [Hvw Hword]. cbn [optCache app].
  specialize (IH Hword (S n) vals). destruct val as [x|].
  - change (plus_texts (extra_texts (v :: vars) (Some x :: vals)))
      with ((" + " ++ price_text v x) ++ plus_texts (extra_texts vars vals)). rewrite <- app_assoc.
    eapply (runs_seq _ (RSeqs _)); [|by apply IH]. apply runs_opt.
    eapply (runs_seq _ _ " " ("+ " ++ price_text v x)); [by apply runs_space|].
    eapply (runs_seq _ _ "+" (" " ++ price_text v x)); [apply runs_lit|].
    eapply runs_seq; [apply runs_space; unfold price_text; rewrite <- !app_assoc; by apply word_start|].
    rewrite <- (app_nil_r (RPrice v n)), <- (app_nil_r (price_text v x)).
    apply price_runs; [done| |apply runs_empty]. cbn [app]. rewrite <- app_assoc. apply plus_texts_head.
  - eapply (runs_skip _ (RSeqs _)); [|by apply IH]. apply runs_opt_none. rewrite <- !app_assoc.
    apply (plus_texts_refused v n vars vals); [done|]. by rewrite Forall_and.
Qed.

(** ** Tiers as the expression holds them *)

(** The label, the conditions that are written, the costs, and the prices of the
    optional variables that are written. *)
Record TierView := mkView {
  v_label : jstring;
  v_conditions : list jval;
  v_input : num;
  v_output : num;
  v_extras : list (option num);
}.

Definition kept_conditions (tier : jval) : list jval :=
  filter (λ c, condition_kept c = true) (elems (member "conditions" tier)).

Definition view_of (dflt : jstring) (conditions : list jval) (tier : jval) : TierView := {|
  v_label := label_or tier dflt;
  v_conditions := conditions;
  v_input := cost_of (member "input_unit_cost" tier);
  v_output := cost_of (member "output_unit_cost" tier);
  v_extras := map (extra_price tier) (map fst BILLING_CACHE_VAR_MAP);
|}.

(** What the expression holds of a configuration: the conditions of the last tier
    are not written, and a tier without label gets one. *)
Definition config_views (tiers : list jval) : list TierView :=
  match tiers with
  | [tier] => [view_of "default" (kept_conditions tier) tier]
  | _ => imap (λ i tier, view_of ("tier_" ++ N_to_js (N.of_nat (i + 1)))
           (if bool_decide (i < length tiers - 1) then kept_conditions tier else []) tier) tiers
  end.

Definition view_body (v : TierView) : jstring :=
  price_text "p" (v_input v) ++ " + " ++ price_text "c" (v_output v) ++
  plus_texts (extra_texts cacheVarNames (v_extras v)).

Definition view_call (v : TierView) : jstring := tier_call (v_label v) (view_body v).

Definition view_conditions_text (v : TierView) : jstring :=
  join " && " (map condition_text (v_conditions v)).

Definition view_text (v : TierView) : jstring :=
  match v_conditions v with
  | [] => view_call v
  | _ => view_conditions_text v ++ " ? " ++ view_call v
  end.

(** A tier whose text is read back. *)
Definition view_readable (v : TierView) : bool :=
  negb (has 34%N (v_label v)) && forallb condition_readable (v_conditions v) &&
  cost_readable (v_input v) && cost_readable (v_output v) &&
  forallb (from_option cost_readable true) (v_extras v) &&
  bool_decide (length (v_extras v) = length cacheVarNames).

Lemma view_readable_spec v :
  view_readable v = true ↔
  34%N ∉ v_label v ∧ Forall (λ c, condition_readable c = true) (v_conditions v) ∧
  cost_readable (v_input v) = true ∧ cost_readable (v_output v) = true ∧
  Forall (λ x, from_option cost_readable true x = true) (v_extras v) ∧
  length (v_extras v) = length cacheVarNames.
Proof.
  unfold view_readable. rewrite !andb_true_iff, negb_true_iff, has_spec_false, bool_decide_eq_true, !forallb_forall.
  rewrite !Forall_forall. setoid_rewrite list_elem_of_In. tauto.
Qed.

Lemma cost_readable_spec x :
  cost_readable x = true ↔ is_finite x = true ∧ Number_of_string (Number_to_string x) = x.
Proof. unfold cost_readable. by rewrite andb_true_iff, bool_decide_eq_true. Qed.

Lemma extra_texts_prices tier (m : list (jstring * jstring)) :
  omap (λ cv, price_text cv.2 <$> extra_price tier cv.1) m
  = extra_texts (map snd m) (map (extra_price tier) (map fst m)).
Proof.
  unfold extra_texts. induction m as [|[f w] m IH]; [done|]. cbn [map omap list_omap zip zip_with fst snd].
  destruct (extra_price tier f); cbn; by rewrite <- IH.
Qed.

Lemma body_view dflt cs tier : buildTierBodyExpr tier = view_body (view_of dflt cs tier).
Proof.
  unfold buildTierBodyExpr, view_body. cbn [v_input v_output v_extras view_of].
  rewrite extra_texts_prices. cbn [app]. rewrite join_cons. cbn [map concat].
  unfold plus_texts, cacheVarNames. by rewrite <- app_assoc.
Qed.

Lemma truthy_conditions (cs : list jval) : truthy (join " && " (map condition_text cs)) = negb (bool_decide (cs = [])).
Proof.
  destruct cs as [|c cs]; [done|]. cbn [map]. rewrite join_cons. unfold condition_text.
  by destruct (to_js_string (member "var" c)).
Qed.

(** The expression is that of the views. *)
Lemma generate_views config :
  elems (member "tiers" config) ≠ [] →
  (∀ tier, elems (member "tiers" config) = [tier] → kept_conditions tier = []) →
  generateExprFromVisualConfig config = join " : " (map view_text (config_views (elems (member "tiers" config)))).
Proof.
  unfold generateExprFromVisualConfig. intros Hne Hone.
  destruct (elems (member "tiers" config)) as [|tier [|tier2 tiers]]; [done| |].
  - unfold buildConditionStr. change (filter _ (elems (member "conditions" tier))) with (kept_conditions tier).
    rewrite truthy_conditions, (Hone tier eq_refl), (body_view "default" (kept_conditions tier)).
    rewrite bool_decide_eq_true_2 by done. cbn [negb config_views map join].
    unfold view_text. cbn [v_conditions view_of]. by rewrite (Hone tier eq_refl).
  - set (l := tier :: tier2 :: tiers). f_equal.
    change (config_views l) with (imap (λ i tier, view_of ("tier_" ++ N_to_js (N.of_nat (i + 1)))
           (if bool_decide (i < length l - 1) then kept_conditions tier else []) tier) l).
    generalize (length l - 1) as last. intros last. rewrite fmap_imap. apply imap_ext. intros i t _.
    cbn [compose]. unfold view_text. cbn [v_conditions view_of].
    unfold buildConditionStr. change (filter _ (elems (member "conditions" t))) with (kept_conditions t).
    rewrite truthy_conditions, (body_view ("tier_" ++ N_to_js (N.of_nat (i + 1)))
      (if bool_decide (i < last) then kept_conditions t else [])).
    destruct (bool_decide (i < last)); cbn [andb]; [|done].
    by destruct (kept_conditions t).
Qed.

(** ** Reading a tier *)

Definition tier_caps (n : nat) (v : TierView) (cs : list (nat * jstring)) : list (nat * jstring) :=
  extra_caps (n + 3) (v_extras v)
    ((n + 2, Number_to_string (v_output v)) :: (n + 1, Number_to_string (v_input v)) :: (n, v_label v) :: cs).

Lemma cache_vars_ok :
  Forall (λ w, word w = true) cacheVarNames ∧ ForallOrdPairs (λ v w, distinct_vars v w = true) cacheVarNames.
Proof.
  split; [apply Forall_forall; intros w; repeat (intros [->|H]%elem_of_cons; [done|revert H]); by rewrite elem_of_nil|].
  repeat constructor.
Qed.

Lemma label_class l : 34%N ∉ l → Forall (λ c, none_of [34%N] c = true) l.
Proof.
  intros H. apply Forall_forall. intros c Hc. unfold none_of, one_of. cbn. rewrite orb_false_r.
  destruct (N.eqb_spec 34 c) as [<-|]; [done|]. by destruct (N.eqb_spec c 34).
Qed.

Lemma call_runs n v tail rest cs cs' :
  view_readable v = true → runs (RSeqs tail) [] rest (tier_caps n v cs) cs' →
  runs (RSeqs (tierPat n ++ tail)) (view_call v) rest cs cs'.
Proof.
  intros (Hl & _ & Hi & Ho & He & Hlen)%view_readable_spec H.
  apply cost_readable_spec in Hi as [Hi _], Ho as [Ho _].
  unfold view_call, tier_call, view_body, tierPat, bodyPat. rewrite <- !app_assoc. cbn [app].
  destruct cache_vars_ok as [Hw Hd].
  eapply (runs_seq _ (RSeqs _) "tier("); [apply runs_lit|].
  eapply (runs_seq _ (RSeqs _) [34%N]); [apply runs_lit|].
  eapply (runs_seq _ (RSeqs _) (v_label v)); [apply runs_group, runs_star_char; [by apply label_class|done]|].
  eapply (runs_seq _ (RSeqs _) [34%N]); [apply runs_lit|].
  eapply (runs_seq _ (RSeqs _) ","); [apply runs_lit|].
  eapply (runs_seq _ (RSeqs _) " "); [by apply runs_space|].
  apply price_runs; [done..|]. eapply (runs_seq _ (RSeqs _) " "); [by apply runs_space|].
  eapply (runs_seq _ (RSeqs _) "+"); [apply runs_lit|]. eapply (runs_seq _ (RSeqs _) " "); [by apply runs_space|].
  apply price_runs; [done|rewrite <- app_assoc; apply plus_texts_head|].
  apply (extras_runs _ _ _ _ []); [done| |done..|].
  - eapply Forall_impl; [exact He|]. intros [x|]; [|done]. cbn. by intros [? _]%cost_readable_spec.
  - eapply (runs_seq _ (RSeqs _) ")"); [apply runs_lit|].
    unfold tier_caps in H. by replace (n + 1 + 2) with (n + 3) by lia; replace (n + 1 + 1) with (n + 2) by lia.
Qed.

(** Where no tier starts. *)
Lemma RVar_refuses t : head_is (one_of "pcl") t = false → refuses RVar t.
Proof.
  intros H. destruct t as [|c t].
  - apply refuses_alt; [by apply refuses_lit_alone|]. by apply refuses_alt; apply refuses_lit_alone.
  - cbn in H. rewrite !orb_false_iff in H. destruct H as (H1 & H2 & H3 & _).
    assert (∀ d w, (c =? d)%N = false → starts_with (d :: w) (c :: t) = false) as Hs.
    { intros d w Hd. cbn. by rewrite N.eqb_sym, Hd. }
    apply refuses_alt; [by apply refuses_lit_alone, Hs|]. by apply refuses_alt; apply refuses_lit_alone, Hs.
Qed.

Lemma visual_refuses t :
  head_is (one_of "pcl") t = false → starts_with "tier(" t = false → refuses visualTierRe t.
Proof.
  intros Hv Ht. apply (refuses_opt_seq _ (RSeqs _)); [|by apply refuses_lit].
  apply (refuses_seq condGroup), refuses_group, refuses_seq, (refuses_seq RVar). by apply RVar_refuses.
Qed.

Definition view_caps (v : TierView) : list (nat * jstring) :=
  tier_caps 2 v (match v_conditions v with [] => [] | _ => [(1, view_conditions_text v)] end).

Lemma condition_list_runs cs rest caps :
  cs ≠ [] → Forall (λ c, condition_readable c = true) cs →
  runs condGroup (join " && " (map condition_text cs)) (" ? " ++ rest) caps
    ((1, join " && " (map condition_text cs)) :: caps).
Proof.
  intros Hne H. destruct cs as [|c cs]; [done|]. apply Forall_cons in H as [Hc H].
  apply runs_group. cbn [map]. rewrite join_cons. eapply runs_seq.
  - apply condition_text_runs; [done|]. by destruct cs.
  - apply runs_star; [done|]. induction H as [|d cs Hd H IH]; cbn [map iterates concat].
    + apply (refuses_seq RAnd), (refuses_space _ ("? " ++ rest)); [done| |]; by apply refuses_lit.
    + split_and!; [done| |by apply IH]. eapply runs_seq; [apply RAnd_runs; by apply condition_text_start|].
      apply condition_text_runs; [done|]. by destruct cs.
Qed.

Lemma view_runs v rest : view_readable v = true → runs visualTierRe (view_text v) rest [] (view_caps v).
Proof.
  intros Hv. unfold view_text, view_caps. destruct (v_conditions v) as [|c cs] eqn:E.
  - apply (runs_skip _ (RSeqs _)).
    + apply runs_opt_none. apply (refuses_seq condGroup), refuses_group, refuses_seq, (refuses_seq RVar).
      by apply RVar_refuses.
    + rewrite <- (app_nil_r (tierPat 2)). apply call_runs; [done|apply runs_empty].
  - rewrite (app_assoc (view_conditions_text v)). eapply (runs_seq _ (RSeqs _)).
    + apply runs_opt. eapply (runs_seq condGroup (RSeqs _)).
      * apply condition_list_runs; [by rewrite E|]. by apply view_readable_spec in Hv as (_ & ? & _).
      * eapply (runs_seq _ (RSeqs _) " "); [by apply runs_space|].
        eapply (runs_seq _ (RSeqs _) "?" " "); [apply runs_lit|].
        eapply runs_seq_end; [by apply runs_space|apply runs_empty].
    + rewrite <- (app_nil_r (tierPat 2)). apply call_runs; [done|apply runs_empty].
Qed.

(** ** The tier of a match *)

(** [set_prices] on the values of the prices. *)
Definition restore_prices (vals : list (option num)) (tier : jval) : jval :=
  fold_left (λ tier fx, match fx.2 with Some x => set_price fx.1 x tier | None => tier end)
    (zip (map fst BILLING_CACHE_VAR_MAP) vals) tier.

Definition view_object (v : TierView) : jval :=
  normalizeVisualTier (restore_prices (v_extras v)
    (JObj [("conditions", JArr (map condition_read (v_conditions v)));
           ("input_unit_cost", JNum (v_input v));
           ("output_unit_cost", JNum (v_output v));
           ("label", JStr (v_label v))])).

Lemma set_prices_restore vals tier :
  Forall (λ x, from_option cost_readable true x = true) vals →
  set_prices (map (fmap Number_to_string) vals) tier = restore_prices vals tier.
Proof.
  intros H. unfold set_prices, restore_prices. generalize (map fst BILLING_CACHE_VAR_MAP) as fields.
  revert tier. induction H as [|x vals Hx H IH]; intros tier [|f fields]; try done.
  cbn [map zip zip_with fold_left fst snd]. rewrite IH. destruct x as [x|]; [|done].
  cbn [fmap option_fmap option_map]. apply cost_readable_spec in Hx as [_ ->]. done.
Qed.

Lemma extra_caps_below k n vals cs : k < n → oget k (extra_caps n vals cs) = oget k cs.
Proof.
  revert n cs. induction vals as [|[x|] vals IH]; intros n cs Hk; cbn [extra_caps]; [done| |].
  - rewrite IH by lia. cbn. by rewrite bool_decide_eq_false_2 by lia.
  - by rewrite IH by lia.
Qed.

Lemma extra_caps_get n vals cs :
  (∀ k, n <= k → oget k cs = None) →
  map (λ i, oget (n + i) (extra_caps n vals cs)) (seq 0 (length vals)) = map (fmap Number_to_string) vals.
Proof.
  revert n cs. induction vals as [|x vals IH]; intros n cs Hcs; [done|]. cbn [length seq map]. f_equal.
  - rewrite Nat.add_0_r. destruct x as [x|]; cbn [extra_caps]; rewrite extra_caps_below by lia.
    + cbn. by rewrite bool_decide_eq_true_2.
    + by apply Hcs; lia.
  - rewrite <- (seq_shift (length vals) 0), map_map.
    assert (∀ cs', (∀ k, S n <= k → oget k cs' = None) → map (λ i, oget (n + S i) (extra_caps (S n) vals cs')) (seq 0 (length vals))
      = map (fmap Number_to_string) vals) as Hgo.
    { intros cs' H'. rewrite <- (IH (S n) cs' H'). apply map_ext. intros i. by rewrite Nat.add_succ_r. }
    destruct x as [x|]; cbn [extra_caps]; apply Hgo.
    + intros k Hk. cbn. rewrite bool_decide_eq_false_2 by lia. apply Hcs. lia.
    + intros k Hk. apply Hcs. lia.
Qed.

Lemma matched_view n conditions bf t rest v cs :
  view_readable v = true → (∀ k, n <= k → oget k cs = None) → conditions = map condition_read (v_conditions v) →
  matched_tier n conditions (match_at bf t rest (tier_caps n v cs)) = view_object v.
Proof.
  intros (_ & _ & Hi & Ho & He & Hlen)%view_readable_spec Hcs ->.
  apply cost_readable_spec in Hi as [_ Hi], Ho as [_ Ho].
  unfold matched_tier, view_object. rewrite <- set_prices_restore by done. f_equal. f_equal.
  - rewrite <- (extra_caps_get (n + 3) (v_extras v)
      ((n + 2, Number_to_string (v_output v)) :: (n + 1, Number_to_string (v_input v)) :: (n, v_label v) :: cs)).
    + rewrite Hlen. apply map_ext. intros i. unfold m_group, capture, match_at, tier_caps. cbn [m_end rcaps]. done.
    + intros k Hk. cbn. rewrite !bool_decide_eq_false_2 by lia. apply Hcs. lia.
  - unfold mg, m_group, capture, match_at, tier_caps. cbn [m_end rcaps].
    rewrite !extra_caps_below by lia. cbn [oget].
    repeat first [rewrite bool_decide_eq_true_2 by lia | rewrite bool_decide_eq_false_2 by lia]. cbn [default from_option id].
    by rewrite Hi, Ho.
Qed.

(** ** Reading a configuration *)

Lemma view_text_head v u :
  view_readable v = true → ∃ c r, view_text v ++ u = c :: r ∧ (c = 112 ∨ c = 99 ∨ c = 108 ∨ c = 116)%N.
Proof.
  intros (_ & Hc & _)%view_readable_spec. unfold view_text, view_conditions_text. destruct (v_conditions v) as [|c cs].
  - eexists _, _. split; [done|]. by do 3 right.
  - apply Forall_cons in Hc as [Hc _]. cbn [map]. rewrite join_cons, <- !app_assoc.
    edestruct (condition_text_head c) as (d & r & -> & Hd); [done|]. eexists _, _. split; [done|]. tauto.
Qed.

Lemma views_head vs :
  vs ≠ [] → Forall (λ v, view_readable v = true) vs →
  ∃ c r, join " : " (map view_text vs) = c :: r ∧ (c = 112 ∨ c = 99 ∨ c = 108 ∨ c = 116)%N.
Proof.
  intros Hne H. destruct H as [|v vs Hv _]; [done|]. cbn [map]. rewrite join_cons. by apply view_text_head.
Qed.

Lemma no_version s : head_is (N.eqb (cu "v")) s = false → exec versionRe s = None.
Proof.
  intros H. unfold versionRe. apply (eq_trans (exec_anchored (RSeqs _) s)). apply match_here_refuses.
  apply (refuses_lit "v" (RSeqs _)). destruct s as [|c s]; [done|]. cbn in *. by rewrite H.
Qed.

Lemma view_caps_conditions v bf t rest :
  view_readable v = true →
  matched_tier 2 (parseVisualConditions (mg 1 (match_at bf t rest (view_caps v)))) (match_at bf t rest (view_caps v))
  = view_object v.
Proof.
  intros Hv. unfold view_caps at 2. apply matched_view; [done| |].
  - intros k Hk. destruct (v_conditions v); [done|]. cbn. by rewrite bool_decide_eq_false_2 by lia.
  - assert (mg 1 (match_at bf t rest (view_caps v)) = view_conditions_text v) as ->.
    { unfold mg, m_group, capture, match_at, view_caps, tier_caps. cbn [m_end rcaps].
      rewrite extra_caps_below by lia. cbn. repeat rewrite bool_decide_eq_false_2 by lia.
      unfold view_conditions_text. by destruct (v_conditions v). }
    apply parse_conditions_text. by apply view_readable_spec in Hv as (_ & ? & _).
Qed.

Lemma colon_refuses w1 w2 u v :
  " : " = w1 ++ w2 → w2 ≠ [] → view_readable v = true → refuses visualTierRe (w2 ++ view_text v ++ u).
Proof.
  intros E Hne Hv.
  assert (w2 = " : " ∨ w2 = ": " ∨ w2 = " ") as [-> | [-> | ->]]; [|by apply visual_refuses..].
  destruct w1 as [|? [|? [|? w1]]]; cbn [app] in E; [by left|injection E as _ E; by auto..|].
  injection E as _ _ _ E. symmetry in E. by apply app_eq_nil in E as [_ ->].
Qed.

Definition tier_separator (acc : list jval) : jstring := match acc with [] => [] | _ => " : " end.

Lemma visual_tiers_step v pre acc rest ms :
  view_readable v = true →
  let body := pre ++ tier_separator acc ++ view_text v ++ rest in
  visualTiers body (length pre) acc
    (match_at (reverse (tier_separator acc) ++ reverse pre) (view_text v) rest (view_caps v) :: ms)
  = visualTiers body (length (pre ++ tier_separator acc ++ view_text v)) (acc ++ [view_object v]) ms.
Proof.
  intros Hv body. cbn [visualTiers]. rewrite view_caps_conditions by done. cbn [match_at m_index m_text].
  rewrite <- reverse_app, length_reverse, <- length_app, <- app_assoc.
  assert (slice_nat (length pre) (length (pre ++ tier_separator acc)) body = tier_separator acc) as ->.
  { unfold slice_nat, body. by rewrite drop_app_length, length_app, Nat.add_comm, Nat.add_sub, take_app_length. }
  rewrite bool_decide_eq_true_2; [done|]. by destruct acc.
Qed.

(** The loop reads the tiers one after the other. *)
Lemma visual_tiers_loop vs v pre acc fuel :
  Forall (λ v, view_readable v = true) (v :: vs) →
  let text := tier_separator acc ++ join " : " (map view_text (v :: vs)) in
  length text < fuel →
  visualTiers (pre ++ text) (length pre) acc (exec_all fuel visualTierRe (reverse pre) text)
  = Some (length (pre ++ text), acc ++ map view_object (v :: vs)).
Proof.
  revert v pre acc fuel. induction vs as [|v' vs IH]; intros v pre acc fuel [Hv Hvs]%Forall_cons text Hf;
    unfold text in *; clear text; cbn [map] in *; rewrite join_cons in *; (destruct fuel as [|fuel]; [lia|]);
    (assert (view_text v ≠ []) as Hne by
      (destruct (view_text_head v [] Hv) as (c & r & E & _); rewrite app_nil_r in E; by rewrite E));
    (rewrite (exec_all_step fuel visualTierRe (reverse pre) _ (view_text v) _ (view_caps v));
      [|done|intros w1 w2 Ew Hne2; destruct acc; [by destruct w1, w2|by eapply colon_refuses]|by apply view_runs]).
  - cbn [map concat] in *. rewrite visual_tiers_step by done. rewrite app_nil_r. by destruct fuel.
  - rewrite visual_tiers_step by done. set (pre' := pre ++ tier_separator acc ++ view_text v).
    assert (reverse (view_text v) ++ reverse (tier_separator acc) ++ reverse pre = reverse pre') as ->
      by (unfold pre'; by rewrite !reverse_app, <- app_assoc).
    set (rest := concat (map (app " : ") (view_text v' :: map view_text vs))) in *.
    assert (∀ u, pre ++ tier_separator acc ++ view_text v ++ u = pre' ++ u) as E
      by (intros u; unfold pre'; by rewrite <- !app_assoc).
    rewrite E. specialize (IH v' pre' (acc ++ [view_object v]) fuel Hvs).
    assert (tier_separator (acc ++ [view_object v]) ++ join " : " (view_text v' :: map view_text vs) = rest) as Er.
    { rewrite join_cons. unfold rest. cbn [map concat]. rewrite <- app_assoc. by destruct acc. }
    cbn [map] in IH. rewrite Er in IH. cbn zeta in IH. rewrite IH.
    + by rewrite <- app_assoc.
    + rewrite !length_app in Hf. assert (0 < length (view_text v)) by (destruct (view_text v); [done|simpl; lia]).
      fold rest in Hf. lia.
Qed.

(** *** The pattern of a single tier *)

Lemma single_exec v :
  view_readable v = true →
  exec singleRe (view_call v) = Some (match_at [] (view_call v) [] (tier_caps 1 v [])).
Proof.
  intros Hv. apply (exec_runs (RSeqs _)). apply call_runs; [done|].
  eapply (runs_seq_end REol (RSeqs [])); [apply runs_eol|apply runs_empty].
Qed.

Lemma single_conditional c u : (c = 112 ∨ c = 99 ∨ c = 108)%N → exec singleRe (c :: u) = None.
Proof.
  intros Hc. apply (eq_trans (exec_anchored (RSeqs _) _)), match_here_refuses.
  apply (refuses_lit "tier(" (RSeqs _)). by destruct Hc as [-> | [-> | ->]].
Qed.

(** The rest of the pattern after the label. *)
Definition single_rest : regex := RSeqs ([RLit ","; RSpaces] ++ bodyPat 2 ++ [RLit ")"]).

Lemma single_rest_units : ¬ reads_unit single_rest (cu ":").
Proof. by intros H%may_read_spec. Qed.

Lemma unit_split (c : N) a b u v : c ∉ a → c ∉ b → a ++ c :: u = b ++ c :: v → a = b ∧ u = v.
Proof.
  revert b. induction a as [|d a IH]; intros [|e b] Ha Hb E; cbn [app] in E.
  - by injection E.
  - injection E as <- _. by destruct Hb; left.
  - injection E as -> _. by destruct Ha; left.
  - injection E as -> E. destruct (IH b) as [-> ->]; [set_solver..|done|done].
Qed.

(** No text with a colon after the label is a single tier. *)
Lemma single_colon label u :
  34%N ∉ label → cu ":" ∈ u → exec singleRe ("tier(" ++ [34%N] ++ label ++ [34%N] ++ u) = None.
Proof.
  intros Hl Hu. apply (eq_trans (exec_anchored (RSeqs _) _)). apply eq_None_not_Some. rewrite match_here_some.
  change (¬ is_Some (rmatch (RLit "tier(") (rmatch (RLit [34%N]) (rmatch (RStar (RChar (none_of [34%N])))
    (λ s', rmatch (RLit [34%N]) (rmatch single_rest (rmatch REol Some)) (mkState (rbefore s') (rrest s')
      ((1, reverse (take (length (rbefore s') - length (reverse [34%N] ++ reverse "tier(")) (rbefore s'))) :: rcaps s')))))
    (mkState [] ("tier(" ++ [34%N] ++ label ++ [34%N] ++ u) []))).
  intros H. apply lit_some in H as (r1 & E1 & H). apply app_inv_head in E1 as <-.
  apply lit_some in H as (r2 & E2 & H). apply app_inv_head in E2 as <-.
  apply star_some in H as (w & r & E & Hw & H). apply lit_some in H as (r3 & E3 & [x Hx]).
  assert (34%N ∉ w) as Hw34.
  { intros Hin. rewrite Forall_forall in Hw. by specialize (Hw _ Hin). }
  cbn [rrest] in E3. subst r. destruct (unit_split 34%N label w u r3 Hl Hw34 E) as [-> ->].
  apply rmatch_sound in Hx as (s' & Hs' & w' & E' & _ & HF). cbn [rmatch rrest] in Hs', E'.
  destruct (rrest s') eqn:Er; [|done]. rewrite app_nil_r in E'. subst w'.
  apply single_rest_units. rewrite Forall_forall in HF. by apply HF.
Qed.

Lemma single_none v vs :
  view_readable v = true → v_conditions v ≠ [] ∨ vs ≠ [] →
  exec singleRe (join " : " (map view_text (v :: vs))) = None.
Proof.
  intros Hv Hc. apply view_readable_spec in Hv as (Hl & Hcs & _). cbn [map]. rewrite join_cons.
  unfold view_text at 1, view_conditions_text. destruct (v_conditions v) as [|c cs].
  - unfold view_call, tier_call. rewrite <- !app_assoc. apply single_colon; [done|].
    destruct Hc as [?|Hne]; [done|]. destruct vs; [done|]. cbn [map concat]. set_solver.
  - apply Forall_cons in Hcs as [Hcs _]. cbn [map]. rewrite join_cons, <- !app_assoc.
    edestruct (condition_text_head c) as (d & r & -> & Hd); [done|]. by apply single_conditional.
Qed.

(** What [tryParseVisualConfig] answers to the text of readable tiers. *)
Lemma tryParse_views vs :
  vs ≠ [] → Forall (λ v, view_readable v = true) vs →
  tryParseVisualConfig (Some (join " : " (map view_text vs)))
  = Some (normalizeVisualConfig (JObj [("tiers", JArr (map view_object vs))])).
Proof.
  intros Hne Hvs. unfold tryParseVisualConfig. destruct (views_head vs Hne Hvs) as (c & r & E & Hc).
  rewrite E, no_version by (by destruct Hc as [-> | [-> | [-> | ->]]]). rewrite <- E. clear c r E Hc.
  destruct vs as [|v vs]; [done|]. pose proof Hvs as [Hv _]%Forall_cons.
  destruct (decide (v_conditions v = [] ∧ vs = [])) as [[Hc ->]|Hmany].
  - cbn [map join]. assert (view_text v = view_call v) as -> by (unfold view_text; by rewrite Hc).
    rewrite single_exec by done. rewrite matched_view; [done|done| |by rewrite Hc]. intros k Hk. done.
  - rewrite single_none; [|done|].
    + pose proof (visual_tiers_loop vs v [] [] _ Hvs (Nat.lt_succ_diag_r _)) as Hloop.
      cbn [tier_separator app length] in Hloop. change (reverse []) with (@nil N) in Hloop. unfold match_all. rewrite Hloop. cbn [mbind option_bind map].
      by rewrite drop_all.
    + destruct (decide (v_conditions v = [])); [|by left]. right. tauto.
Qed.

(** ** Objects of the editor *)

Definition EXTRA_FIELDS : list jstring := map fst BILLING_CACHE_VAR_MAP.

Lemma member_props k t : member k t = default JUndefined (oget k (props t)).
Proof. by destruct t. Qed.

Lemma oget_map_fun (g : jstring → jval) k fs :
  oget k (map (λ f, (f, g f)) fs) = if bool_decide (k ∈ fs) then Some (g k) else None.
Proof.
  induction fs as [|f fs IH]; [done|]. cbn [map oget]. rewrite IH.
  destruct (decide (k = f)) as [->|Hne].
  - rewrite !bool_decide_eq_true_2; [done|by left|done].
  - rewrite (bool_decide_eq_false_2 (k = f)) by done.
    rewrite (bool_decide_ext (k ∈ f :: fs) (k ∈ fs)); [done|]. rewrite elem_of_cons. tauto.
Qed.

(** The properties [normalizeVisualTier] gives a tier that does not have them. *)
Definition tier_defaults (tier : jval) : list (jstring * jval) :=
  [("label", if is_nullish (member "label" tier) then JStr [] else member "label" tier);
   ("input_unit_cost", JNum (cost_of (member "input_unit_cost" tier)));
   ("output_unit_cost", JNum (cost_of (member "output_unit_cost" tier)));
   ("cache_mode", JStr (getTierCacheMode tier));
   ("conditions", JArr (elems (member "conditions" tier)))].

Lemma normalize_get k tier :
  NoDup (okeys (props tier)) →
  oget k (props (normalizeVisualTier tier)) =
    if bool_decide (k ∈ EXTRA_FIELDS) then Some (JNum (cost_of (member k tier)))
    else match oget k (props tier) with Some v => Some v | None => oget k (tier_defaults tier) end.
Proof.
  intros Hnd. change (props (normalizeVisualTier tier)) with
    (obj_spread (obj_spread (tier_defaults tier) (props tier))
       (map (λ f, (f, JNum (cost_of (member f tier)))) EXTRA_FIELDS)).
  rewrite !oget_obj_spread, (oget_reverse k (props tier)) by done. rewrite oget_reverse, oget_map_fun.
  - by case_bool_decide.
  - unfold okeys. rewrite map_map. by apply (bool_decide_unpack _); vm_compute.
Qed.

Lemma normalize_keys tier : NoDup (okeys (props (normalizeVisualTier tier))).
Proof.
  apply NoDup_okeys_obj_spread, NoDup_okeys_obj_spread. by apply (bool_decide_unpack _); vm_compute.
Qed.

Lemma cost_of_idemp v : cost_of (JNum (cost_of v)) = cost_of v.
Proof. unfold cost_of. cbn [to_number]. unfold num_or. by destruct (num_truthy (to_number v)) eqn:E; [rewrite E|]. Qed.

(** *** Restored prices *)

Lemma set_price_get k field x tier :
  k ≠ "explicitExtraFields" →
  oget k (props (set_price field x tier)) = if bool_decide (k = field) then Some (JNum x) else oget k (props tier).
Proof.
  intros Hk. unfold set_price. destruct (neqb x zero); cbn [props].
  - rewrite oget_obj_set, (bool_decide_eq_false_2 (k = _)) by done. apply oget_obj_set.
  - apply oget_obj_set.
Qed.

Lemma set_price_keys field x tier : NoDup (okeys (props tier)) → NoDup (okeys (props (set_price field x tier))).
Proof. intros H. unfold set_price. destruct (neqb x zero); cbn [props]; auto with jslib. Qed.

Definition explicit_list (tier : jval) : list jval := elems (member "explicitExtraFields" tier).

Lemma set_price_explicit field x tier :
  field ≠ "explicitExtraFields" →
  explicit_list (set_price field x tier) = explicit_list tier ++ (if neqb x zero then [JStr field] else []).
Proof.
  intros Hf. unfold explicit_list, set_price.
  assert (member "explicitExtraFields" (JObj (obj_set field (JNum x) (props tier))) = member "explicitExtraFields" tier) as E.
  { rewrite (member_props _ tier). cbn [member]. by rewrite oget_obj_set, bool_decide_eq_false_2. }
  destruct (neqb x zero); [|by rewrite E, app_nil_r].
  cbn [member props]. rewrite oget_obj_set, bool_decide_eq_true_2 by done. cbn [default from_option id elems].
  by rewrite <- E.
Qed.

(** [restore_prices] over any list of fields. *)
Definition restore_over (fields : list jstring) (vals : list (option num)) (tier : jval) : jval :=
  fold_left (λ tier fx, match fx.2 with Some x => set_price fx.1 x tier | None => tier end) (zip fields vals) tier.

Lemma restore_keys fields vals tier :
  NoDup (okeys (props tier)) → NoDup (okeys (props (restore_over fields vals tier))).
Proof.
  unfold restore_over. revert vals tier. induction fields as [|f fields IH]; intros [|[x|] vals] tier H; [done..| |].
  - by apply IH, set_price_keys.
  - by apply IH.
Qed.

Lemma zip_absent (fields : list jstring) (vals : list (option num)) f : f ∉ fields → oget f (zip fields vals) = None.
Proof.
  intros Hf. apply oget_None. contradict Hf. revert vals Hf.
  induction fields as [|g fields IH]; intros [|v vals] Hf; try by apply elem_of_nil in Hf.
  cbn in Hf. apply elem_of_cons in Hf as [->|Hf]; [by left|right; by eapply IH].
Qed.

(** The value given to a field. *)
Definition field_value (fields : list jstring) (vals : list (option num)) (k : jstring) : option num :=
  mjoin (oget k (zip fields vals)).

Lemma restore_get fields vals tier k :
  k ≠ "explicitExtraFields" → NoDup fields →
  oget k (props (restore_over fields vals tier)) =
    match field_value fields vals k with Some x => Some (JNum x) | None => oget k (props tier) end.
Proof.
  intros Hk. unfold restore_over, field_value. revert vals tier.
  induction fields as [|f fields IH]; intros [|v vals] tier Hnd; [done..|].
  apply NoDup_cons in Hnd as [Hf Hnd]. cbn [zip zip_with fold_left fst snd oget].
  rewrite IH by done. case_bool_decide as E.
  - subst k. assert (oget f (zip fields vals) = None) as ->.
    { by apply zip_absent. }
    cbn. destruct v as [x|]; [|done]. by rewrite set_price_get, bool_decide_eq_true_2.
  - destruct v as [x|]; [|done]. by rewrite set_price_get, (bool_decide_eq_false_2 (k = f)).
Qed.

Lemma restore_explicit fields vals tier :
  "explicitExtraFields" ∉ fields →
  explicit_list (restore_over fields vals tier) =
  explicit_list tier ++ omap (λ fx, x ← fx.2; if neqb x zero then Some (JStr fx.1) else None) (zip fields vals).
Proof.
  unfold restore_over. revert vals tier. induction fields as [|f fields IH]; intros [|v vals] tier Hnot;
    [by rewrite app_nil_r..|].
  apply not_elem_of_cons in Hnot as [Hf Hnot]. cbn [zip zip_with fold_left fst snd omap list_omap].
  rewrite IH by done. destruct v as [x|]; [|done]. cbn [mbind option_bind].
  rewrite set_price_explicit by done. destruct (neqb x zero); [by rewrite <- app_assoc|by rewrite app_nil_r].
Qed.

Lemma explicit_includes_restored fields vals tier f :
  "explicitExtraFields" ∉ fields → NoDup fields → explicit_list tier = [] →
  explicit_includes (restore_over fields vals tier) f
  = match field_value fields vals f with Some x => neqb x zero | None => false end.
Proof.
  intros Hnot Hnd He. unfold explicit_includes. change (elems _) with (explicit_list (restore_over fields vals tier)).
  rewrite restore_explicit, He by done. cbn [app]. clear He Hnot. unfold field_value.
  revert vals. induction fields as [|g fields IH]; intros [|v vals]; [done..|].
  apply NoDup_cons in Hnd as [Hg Hnd]. cbn [zip zip_with omap list_omap fst snd oget].
  specialize (IH Hnd vals). case_bool_decide as E.
  - subst g. assert (oget f (zip fields vals) = None) as En.
    { by apply zip_absent. }
    rewrite En in IH. cbn in IH. destruct v as [x|]; [|exact IH]. cbn [mbind option_bind mjoin option_join].
    destruct (neqb x zero); [|exact IH]. cbn. by rewrite bool_decide_eq_true_2.
  - destruct v as [x|]; [|exact IH]. cbn [mbind option_bind]. destruct (neqb x zero); [|exact IH].
    cbn [existsb is_str]. by rewrite (bool_decide_eq_false_2 (g = f)) by congruence.
Qed.

(** ** What a read tier holds *)

Definition extra_of (v : TierView) (f : jstring) : option num := field_value EXTRA_FIELDS (v_extras v) f.

(** The cache mode is not written: it is timed when a timed price is. *)
Definition view_cache_mode (v : TierView) : jstring :=
  if existsb (λ f, match extra_of v f with Some x => nlt zero x || neqb x zero | None => false end)
       ["cache_create_1h_unit_cost"; "cache_create_12h_unit_cost"]
  then CACHE_MODE_TIMED else CACHE_MODE_GENERIC.

Record holds (v : TierView) (tier : jval) : Prop := {
  h_label : member "label" tier = JStr (v_label v);
  h_conditions : member "conditions" tier = JArr (map condition_read (v_conditions v));
  h_input : member "input_unit_cost" tier = JNum (v_input v);
  h_output : member "output_unit_cost" tier = JNum (v_output v);
  h_cache_mode : member "cache_mode" tier = JStr (view_cache_mode v);
  h_extras f : f ∈ EXTRA_FIELDS → member f tier = JNum (default zero (extra_of v f));
  h_explicit f : f ∈ EXTRA_FIELDS →
    explicit_includes tier f = match extra_of v f with Some x => neqb x zero | None => false end;
}.

Lemma cost_readable_or x : cost_readable x = true → num_or x zero = x.
Proof. destruct x as [[]|[]| |]; done. Qed.

Lemma extra_of_readable v f x : view_readable v = true → extra_of v f = Some x → cost_readable x = true.
Proof.
  intros (_ & _ & _ & _ & He & _)%view_readable_spec. unfold extra_of, field_value.
  generalize EXTRA_FIELDS as fields. intros fields. revert fields. induction He as [|y vals Hy He IH]; intros [|g fields] H; try done.
  cbn [zip zip_with oget] in H. case_bool_decide; [|by eapply IH].
  cbn in H. destruct y as [y|]; [|done]. by simplify_eq.
Qed.

Lemma extra_fields_ok : NoDup EXTRA_FIELDS ∧ "explicitExtraFields" ∉ EXTRA_FIELDS.
Proof. split; by apply (bool_decide_unpack _); vm_compute. Qed.

Section read_tier.
Variable v : TierView.
Hypothesis readable : view_readable v = true.

Let base : jval :=
  JObj [("conditions", JArr (map condition_read (v_conditions v)));
        ("input_unit_cost", JNum (v_input v));
        ("output_unit_cost", JNum (v_output v));
        ("label", JStr (v_label v))].
Let priced : jval := restore_over EXTRA_FIELDS (v_extras v) base.

Lemma priced_keys : NoDup (okeys (props priced)).
Proof. apply restore_keys. by apply (bool_decide_unpack _); vm_compute. Qed.

Lemma priced_get k :
  k ≠ "explicitExtraFields" →
  oget k (props priced) = match extra_of v k with Some x => Some (JNum x) | None => oget k (props base) end.
Proof. intros Hk. apply restore_get; [done|apply extra_fields_ok]. Qed.

Lemma priced_other k : k ≠ "explicitExtraFields" → k ∉ EXTRA_FIELDS → oget k (props priced) = oget k (props base).
Proof. intros Hk Hf. rewrite priced_get by done. unfold extra_of, field_value. by rewrite zip_absent. Qed.

(** A property the tier has and that is no optional price is kept twice. *)
Lemma kept_twice k w :
  k ∉ EXTRA_FIELDS → oget k (props (normalizeVisualTier priced)) = Some w →
  member k (normalizeVisualTier (view_object v)) = w.
Proof.
  intros Hk Hw. rewrite member_props, normalize_get by apply normalize_keys.
  rewrite bool_decide_eq_false_2 by done. change (view_object v) with (normalizeVisualTier priced).
  by rewrite Hw.
Qed.

Lemma kept_base k w :
  k ≠ "explicitExtraFields" → k ∉ EXTRA_FIELDS → oget k (props base) = Some w →
  member k (normalizeVisualTier (view_object v)) = w.
Proof.
  intros Hk Hf Hw. apply kept_twice; [done|]. rewrite normalize_get by apply priced_keys.
  by rewrite bool_decide_eq_false_2, priced_other, Hw.
Qed.

Lemma priced_includes f :
  explicit_includes priced f = match extra_of v f with Some x => neqb x zero | None => false end.
Proof. apply explicit_includes_restored; [apply extra_fields_ok..|done]. Qed.

Lemma kept_includes f : explicit_includes (normalizeVisualTier (view_object v)) f = explicit_includes priced f.
Proof.
  unfold explicit_includes. do 2 f_equal. rewrite !member_props, normalize_get by apply normalize_keys.
  rewrite bool_decide_eq_false_2 by apply extra_fields_ok.
  change (view_object v) with (normalizeVisualTier priced).
  rewrite !normalize_get, bool_decide_eq_false_2 by (apply extra_fields_ok || apply priced_keys).
  by destruct (oget "explicitExtraFields" (props priced)).
Qed.

Lemma base_no_extra f : f ∈ EXTRA_FIELDS → oget f (props base) = None.
Proof.
  intros Hf. apply oget_None. intros Hb. cbn in Hb. revert Hf. apply (bool_decide_unpack (f ∉ EXTRA_FIELDS)).
  repeat (apply elem_of_cons in Hb as [->|Hb]; [by vm_compute|]). by apply elem_of_nil in Hb.
Qed.

Lemma priced_member f : f ∈ EXTRA_FIELDS → cost_of (member f priced) = default zero (extra_of v f).
Proof.
  intros Hf. assert (f ≠ "explicitExtraFields") as Hne by (intros ->; by apply extra_fields_ok in Hf).
  rewrite member_props, priced_get by done. destruct (extra_of v f) as [x|] eqn:E.
  - cbn. unfold cost_of. by apply cost_readable_or, (extra_of_readable v f).
  - by rewrite base_no_extra.
Qed.

Lemma timed_price f :
  f ∈ EXTRA_FIELDS →
  nlt zero (to_number (member f priced)) || explicit_includes priced f
  = match extra_of v f with Some x => nlt zero x || neqb x zero | None => false end.
Proof.
  intros Hf. rewrite priced_includes. assert (f ≠ "explicitExtraFields") as Hne by (intros ->; by apply extra_fields_ok in Hf).
  rewrite member_props, priced_get by done. destruct (extra_of v f) as [x|]; [done|].
  rewrite orb_false_r. assert (oget f (props base) = None) as ->; [by apply base_no_extra|done].
Qed.

Lemma priced_cache_mode : getTierCacheMode priced = view_cache_mode v.
Proof.
  unfold getTierCacheMode, view_cache_mode.
  assert (member "cache_mode" priced = JUndefined) as ->.
  { rewrite member_props, priced_other; [done|done|by apply (bool_decide_unpack _); vm_compute]. }
  cbn [is_str existsb]. rewrite !timed_price by (apply (bool_decide_unpack _); by vm_compute). done.
Qed.

Lemma read_tier_holds : holds v (normalizeVisualTier (view_object v)).
Proof.
  split; try (apply kept_base; [done|by apply (bool_decide_unpack _); vm_compute|done]).
  - apply kept_twice; [by apply (bool_decide_unpack _); vm_compute|]. rewrite normalize_get by apply priced_keys.
    rewrite bool_decide_eq_false_2, priced_other by (done || by apply (bool_decide_unpack _); vm_compute).
    by rewrite <- priced_cache_mode.
  - intros f Hf. rewrite member_props, normalize_get, bool_decide_eq_true_2 by (done || apply normalize_keys).
    cbn [default from_option id]. f_equal. rewrite <- (priced_member f Hf).
    rewrite (member_props f (view_object v)). change (view_object v) with (normalizeVisualTier priced).
    rewrite normalize_get, bool_decide_eq_true_2 by (done || apply priced_keys). apply cost_of_idemp.
  - intros f _. by rewrite kept_includes, priced_includes.
Qed.
End read_tier.

(** ** Round trips *)

Definition tiers_of (config : jval) : list jval := elems (member "tiers" config).

(** Every tier is read back, and a single tier has no condition. *)
Definition config_readable (config : jval) : bool :=
  forallb view_readable (config_views (tiers_of config)) &&
  match tiers_of config with
  | [] => false
  | [tier] => bool_decide (kept_conditions tier = [])
  | _ => true
  end.

Lemma config_readable_spec config :
  config_readable config = true →
  Forall (λ v, view_readable v = true) (config_views (tiers_of config)) ∧ config_views (tiers_of config) ≠ [] ∧
  generateExprFromVisualConfig config = join " : " (map view_text (config_views (tiers_of config))).
Proof.
  unfold config_readable. rewrite andb_true_iff. intros [Hv Hc].
  split_and!.
  - apply Forall_forall. intros v Hin. eapply forallb_forall; [done|]. by apply list_elem_of_In.
  - by destruct (tiers_of config) as [|? []].
  - apply generate_views; fold (tiers_of config).
    + by destruct (tiers_of config).
    + intros tier E. rewrite E in Hc. by apply bool_decide_eq_true in Hc.
Qed.

(** The default price after a conditional tier is no tier. *)
Lemma default_price_unmatched fuel bf : exec_all fuel visualTierRe bf " : p * 0 + c * 0" = [].
Proof. destruct fuel as [|fuel]; [done|]. by vm_compute. Qed.

(** A configuration of one tier whose conditions are written is generated as a
    conditional with a default price, which is never read back. *)
Lemma single_condition_lost config tier :
  tiers_of config = [tier] → kept_conditions tier ≠ [] →
  forallb view_readable (config_views [tier]) = true →
  tryParseVisualConfig (Some (generateExprFromVisualConfig config)) = None.
Proof.
  intros Ht Hc Hv. cbn [config_views forallb] in Hv. rewrite andb_true_r in Hv.
  set (v := view_of "default" (kept_conditions tier) tier) in *.
  assert (generateExprFromVisualConfig config = view_text v ++ " : p * 0 + c * 0") as E.
  { unfold generateExprFromVisualConfig. fold (tiers_of config). rewrite Ht. unfold buildConditionStr.
    change (filter _ (elems (member "conditions" tier))) with (kept_conditions tier).
    rewrite truthy_conditions, bool_decide_eq_false_2 by done. cbn [negb].
    rewrite (body_view "default" (kept_conditions tier)). unfold view_text. fold v.
    change (v_conditions v) with (kept_conditions tier). destruct (kept_conditions tier); [done|].
    unfold view_conditions_text. by rewrite <- !app_assoc. }
  assert (∃ d r, view_text v ++ " : p * 0 + c * 0" = d :: r ∧ (d = 112 ∨ d = 99 ∨ d = 108)%N) as (d & r & Ed & Hd).
  { pose proof (proj1 (view_readable_spec v) Hv) as (_ & Hcs & _). unfold view_text, view_conditions_text.
    change (v_conditions v) with (kept_conditions tier) in *. destruct Hcs as [|c cs Hcr _]; [done|].
    cbn [map]. rewrite join_cons, <- !app_assoc. by apply condition_text_head. }
  unfold tryParseVisualConfig. rewrite E, Ed, no_version, single_conditional, <- Ed by (done || by destruct Hd as [-> | [-> | ->]]).
  unfold match_all.
  rewrite (exec_all_step _ visualTierRe [] [] (view_text v) " : p * 0 + c * 0" (view_caps v));
    [|by intros En; rewrite En in Ed; injection Ed as <- _; destruct Hd as [?|[?|?]]
     |intros w1 w2 Ew Hne; symmetry in Ew; by apply app_eq_nil in Ew as [_ ->]|by apply view_runs].
  rewrite default_price_unmatched.
  pose proof (visual_tiers_step v [] [] " : p * 0 + c * 0" [] Hv) as Hs. cbn [tier_separator app length] in Hs.
  change (reverse [] ++ reverse []) with (@nil N) in Hs. change (reverse [] ++ []) with (@nil N). rewrite Hs. cbn [visualTiers mbind option_bind].
  by rewrite drop_app_length.
Qed.

(** One tier whose conditions are written. *)
Definition lone_conditional (config : jval) : bool :=
  match tiers_of config with [tier] => negb (bool_decide (kept_conditions tier = [])) | _ => false end.

(** C3: The expression generated from tiers is read back as a configuration whose tiers
    hold the labels (a tier without one gets one), the conditions, the costs and the
    optional prices that are written, when the labels hold no quote, the numerals of the
    costs are read as the same numbers, and the conditions compare a variable of the
    editor with a value whose numeral has no minus.  Only the cache mode is computed
    again, and the conditions of the last of several tiers are not written.  A single
    tier with conditions is never read back. *)
Theorem visual_config_roundtrip config :
  tiers_of config ≠ [] → forallb view_readable (config_views (tiers_of config)) = true →
  let read := tryParseVisualConfig (Some (generateExprFromVisualConfig config)) in
  if lone_conditional config then read = None
  else ∃ tiers', read = Some (JObj [("tiers", JArr tiers')]) ∧ Forall2 holds (config_views (tiers_of config)) tiers'.
Proof.
  intros Hne Hv. cbv zeta. destruct (lone_conditional config) eqn:Es.
  - unfold lone_conditional in Es. destruct (tiers_of config) as [|tier [|]] eqn:Et; try done.
    apply (single_condition_lost config tier Et); [|done]. by apply negb_true_iff, bool_decide_eq_false in Es.
  - assert (config_readable config = true) as Hr.
    { unfold config_readable. rewrite Hv. unfold lone_conditional in Es. destruct (tiers_of config) as [|tier [|]]; try done.
      by apply negb_false_iff in Es. }
    apply config_readable_spec in Hr as (Hv' & Hne' & ->). rewrite tryParse_views by done.
    set (vs := config_views _) in *. exists (map normalizeVisualTier (map view_object vs)). split; [by destruct vs|].
    clear -Hv'. induction Hv'; constructor; [by apply read_tier_holds|done].
Qed.

(** ** Generating again *)

(** The value of a condition is written as the language writes its number. *)
Definition condition_canonical (c : jval) : bool :=
  bool_decide (Number_to_string (Number_of_string (to_js_string (member "value" c))) = to_js_string (member "value" c)).

Definition view_canonical (v : TierView) : bool :=
  truthy (v_label v) && forallb condition_canonical (v_conditions v).

Lemma condition_read_text c :
  condition_readable c = true → condition_canonical c = true → condition_text (condition_read c) = condition_text c.
Proof.
  intros (var & op & text & Hv & Ho & Ht & _)%condition_readable_spec Hc%bool_decide_eq_true.
  unfold condition_text. rewrite Hv, Ho. unfold condition_read. rewrite Hv, Ho.
  change (var ++ " " ++ op ++ " " ++ Number_to_string (Number_of_string (to_js_string (member "value" c)))
    = var ++ " " ++ op ++ " " ++ to_js_string (member "value" c)). by rewrite Hc.
Qed.

Lemma condition_read_kept c : condition_readable c = true → condition_kept (condition_read c) = true.
Proof.
  intros (var & op & text & Hv & Ho & Ht & Hvar & Hop & _)%condition_readable_spec.
  unfold condition_read, condition_kept. rewrite Hv, Ho.
  change (truthy var && truthy op && true && true = true).
  assert (truthy var = true ∧ truthy op = true) as [-> ->]; [|done].
  split; apply truthy_spec; intros ->.
  - revert Hvar. by apply (bool_decide_unpack ([] ∉ BILLING_CONDITION_VARS)); vm_compute.
  - revert Hop. by apply (bool_decide_unpack ([] ∉ TIER_OPS)); vm_compute.
Qed.

Lemma field_values fields vals :
  NoDup fields → length vals = length fields → map (field_value fields vals) fields = vals.
Proof.
  intros Hnd. revert vals. induction fields as [|f fields IH]; intros [|x vals] Hlen; try done.
  apply NoDup_cons in Hnd as [Hf Hnd]. injection Hlen as Hlen. cbn [map]. f_equal.
  - unfold field_value. cbn [zip zip_with oget]. by rewrite bool_decide_eq_true_2; [destruct x|].
  - rewrite <- (IH Hnd vals Hlen) at 2. apply map_ext_in. intros g Hg%list_elem_of_In.
    unfold field_value. cbn [zip zip_with oget]. rewrite bool_decide_eq_false_2; [done|]. by intros ->.
Qed.

Lemma read_price v tier f :
  view_readable v = true → holds v tier → f ∈ EXTRA_FIELDS → extra_price tier f = extra_of v f.
Proof.
  intros Hv Ht Hf. unfold extra_price. rewrite (h_extras v tier Ht f Hf), (h_explicit v tier Ht f Hf).
  destruct (extra_of v f) as [x|] eqn:E; [|done]. cbn [default from_option id]. unfold cost_of. cbn [to_number].
  rewrite cost_readable_or by (by eapply extra_of_readable). by destruct (neqb x zero).
Qed.

(** The text of a read tier is the text it was read from. *)
Lemma read_text v tier dflt :
  view_readable v = true → view_canonical v = true → holds v tier →
  kept_conditions tier = map condition_read (v_conditions v) ∧
  view_text (view_of dflt (kept_conditions tier) tier) = view_text v.
Proof.
  intros Hv [Hl Hc]%andb_true_iff Ht. pose proof (proj1 (view_readable_spec v) Hv) as (_ & Hcs & Hi & Ho & _ & Hlen).
  assert (kept_conditions tier = map condition_read (v_conditions v)) as Hk.
  { unfold kept_conditions. rewrite (h_conditions v tier Ht). cbn [elems]. clear -Hcs.
    induction Hcs as [|c cs Hc _ IH]; [done|]. cbn [map]. rewrite filter_cons_True by (by apply condition_read_kept).
    by rewrite IH. }
  split; [done|]. rewrite Hk.
  assert (view_call (view_of dflt (map condition_read (v_conditions v)) tier) = view_call v) as Hcall.
  { unfold view_call, view_body. cbn [view_of v_label v_input v_output v_extras].
    change (map fst BILLING_CACHE_VAR_MAP) with EXTRA_FIELDS.
    assert (map (extra_price tier) EXTRA_FIELDS = v_extras v) as ->.
    { rewrite <- (field_values EXTRA_FIELDS (v_extras v)) by (apply extra_fields_ok || by rewrite Hlen).
      apply map_ext_in. intros f Hf%list_elem_of_In. by apply read_price. }
    unfold label_or. rewrite (h_label v tier Ht), (h_input v tier Ht), (h_output v tier Ht). cbn [to_boolean to_js_string].
    rewrite Hl. unfold cost_of. cbn [to_number]. by rewrite !cost_readable_or. }
  unfold view_text. rewrite Hcall. cbn [view_of v_conditions]. unfold view_conditions_text. cbn [view_of v_conditions].
  assert (map condition_text (map condition_read (v_conditions v)) = map condition_text (v_conditions v)) as Et.
  { rewrite forallb_forall in Hc. rewrite Forall_forall in Hcs. rewrite map_map. apply map_ext_in. intros c Hin.
    apply condition_read_text; [apply Hcs; by apply list_elem_of_In|by apply Hc]. }
  rewrite Et. by destruct (v_conditions v).
Qed.

Lemma config_views_length tiers : length (config_views tiers) = length tiers.
Proof. destruct tiers as [|t [|t2 tiers]]; [done..|]. apply length_imap. Qed.

(** The last tier of a readable configuration is written without condition. *)
Lemma last_unconditional config i v :
  config_readable config = true → config_views (tiers_of config) !! i = Some v →
  length (tiers_of config) - 1 <= i → v_conditions v = [].
Proof.
  unfold config_readable. intros [_ H]%andb_true_iff. destruct (tiers_of config) as [|t [|t2 tiers]]; [done| |].
  - apply bool_decide_eq_true in H. destruct i; [|done]. by intros [= <-] _.
  - set (l := t :: t2 :: tiers). intros Hi Hlast.
    change (config_views l) with (imap (λ i tier, view_of ("tier_" ++ N_to_js (N.of_nat (i + 1)))
           (if bool_decide (i < length l - 1) then kept_conditions tier else []) tier) l) in Hi.
    rewrite list_lookup_imap in Hi. apply fmap_Some in Hi as (x & _ & ->). cbn [v_conditions view_of].
    by rewrite bool_decide_eq_false_2 by lia.
Qed.

Lemma read_config_text vs tiers :
  Forall2 holds vs tiers → Forall (λ v, view_readable v = true ∧ view_canonical v = true) vs →
  (∀ i v, vs !! i = Some v → length vs - 1 <= i → v_conditions v = []) →
  map view_text (config_views tiers) = map view_text vs.
Proof.
  intros H2 Hvs Hlast. pose proof (Forall2_length _ _ _ H2) as Hlen.
  destruct tiers as [|t [|t2 tiers]]; [by destruct vs| |].
  - destruct vs as [|v [|]]; try done. apply Forall2_cons in H2 as [Ht _]. apply Forall_cons in Hvs as [[Hr Hc] _].
    cbn [config_views map]. by destruct (read_text v t "default" Hr Hc Ht) as [_ ->].
  - set (l := t :: t2 :: tiers) in *.
    change (config_views l) with (imap (λ i tier, view_of ("tier_" ++ N_to_js (N.of_nat (i + 1)))
           (if bool_decide (i < length l - 1) then kept_conditions tier else []) tier) l).
    apply list_eq. intros i. rewrite !list_lookup_fmap, list_lookup_imap.
    destruct (vs !! i) as [v|] eqn:Ei.
    + destruct (Forall2_lookup_l _ _ _ _ _ H2 Ei) as (tier & -> & Ht).
      rewrite Forall_forall in Hvs. destruct (Hvs v) as [Hr Hc]; [by eapply list_elem_of_lookup_2|].
      cbn [fmap option_fmap option_map]. f_equal.
      destruct (read_text v tier ("tier_" ++ N_to_js (N.of_nat (i + 1))) Hr Hc Ht) as [Hk <-].
      case_bool_decide; [done|]. by rewrite Hk, (Hlast i v Ei) by lia.
    + apply lookup_ge_None in Ei. by rewrite (lookup_ge_None_2 l i) by lia.
Qed.

(** Reading a generated expression and generating again gives the same expression:
    what the editor opens is what it saved, when the tiers are labelled and the
    values of the conditions are written as the language writes numbers. *)
Lemma visual_expr_fixpoint config :
  config_readable config = true → forallb view_canonical (config_views (tiers_of config)) = true →
  ∃ config', tryParseVisualConfig (Some (generateExprFromVisualConfig config)) = Some config' ∧
    generateExprFromVisualConfig config' = generateExprFromVisualConfig config.
Proof.
  intros Hr Hc. pose proof (config_readable_spec config Hr) as (Hv & Hne & Hg). rewrite Hg.
  rewrite tryParse_views by done. eexists. split; [done|]. set (vs := config_views (tiers_of config)) in *.
  set (tiers' := map normalizeVisualTier (map view_object vs)).
  assert (Forall2 holds vs tiers') as H2.
  { unfold tiers'. clear -Hv. induction Hv; constructor; [by apply read_tier_holds|done]. }
  assert (∀ i v, vs !! i = Some v → length vs - 1 <= i → v_conditions v = []) as Hlast.
  { intros i v Hi Hl. apply (last_unconditional config i v); [done..|]. by rewrite <- config_views_length. }
  assert (Forall (λ v, view_readable v = true ∧ view_canonical v = true) vs) as Hvs.
  { apply Forall_and. split; [done|]. apply Forall_forall. intros v Hin.
    eapply forallb_forall; [done|]. by apply list_elem_of_In. }
  assert (normalizeVisualConfig (JObj [("tiers", JArr (map view_object vs))]) = JObj [("tiers", JArr tiers')]) as ->
    by (by destruct vs).
  rewrite generate_views; cbn [member]; change (elems (default JUndefined (oget "tiers" [("tiers", JArr tiers')]))) with tiers'.
  - by rewrite (read_config_text vs).
  - unfold tiers'. by destruct vs.
  - intros tier E. rewrite E in H2. destruct vs as [|v [|]]; try by inversion H2.
    apply Forall2_cons in H2 as [Ht _]. apply Forall_cons in Hvs as [[Hr' Hc'] _].
    destruct (read_text v tier [] Hr' Hc' Ht) as [-> _]. by rewrite (Hlast 0 v eq_refl) by (cbn; lia).
Qed.

(** ** The estimator *)

(** The cost shown is never NaN, and an error comes with no cost. *)
Lemma evalExprLocally_cost new_Function exprStr p c extra :
  let r := evalExprLocally new_Function exprStr p c extra in
  is_nan (cost r) = false ∧ (eval_error r ≠ None → cost r = zero ∧ matchedTier r = []).
Proof.
  unfold evalExprLocally. destruct (negb _ || negb _); [done|].
  destruct (new_Function _ _) as [message|[v t]]; cbn [cost matchedTier eval_error]; [done|].
  split; [|done]. unfold cost_of, num_or. by destruct (to_number v) as [[]| [] | |].
Qed.

(** A word between units that are no word units is found. *)
Lemma word_found words w b t :
  w ∈ words → w ≠ [] → Forall (λ c, is_word c = true) w →
  head_is is_word (reverse b) = false → head_is is_word t = false →
  test (word_re words) (b ++ w ++ t) = true.
Proof.
  intros Hin Hne Hw Hb Ht. apply test_anywhere. exists b, (w ++ t). split; [done|].
  unfold word_re. cbn [RSeqs foldr]. rewrite rmatch_seq. cbn [rmatch rbefore rrest]. rewrite Hb.
  assert (head_is is_word (w ++ t) = true) as -> by (by destruct Hw).
  cbn [xorb]. apply alts_some; [by destruct words; [apply elem_of_nil in Hin|]|].
  exists (RLit w). split; [by apply list_elem_of_fmap_2|].
  apply lit_some. exists t. split; [done|]. cbn [rbefore rrest].
  assert (head_is is_word (reverse w ++ reverse b) = true) as ->.
  { apply Forall_reverse in Hw. destruct (reverse w) eqn:E; [|by apply Forall_cons in Hw as [? _]].
    apply (f_equal reverse) in E. by rewrite reverse_involutive in E. }
  rewrite Ht. by eexists.
Qed.

(** The estimator asks for the other token counts when a tier states their price. *)
Lemma extra_vars_asked tier field a b :
  is_Some (extra_price tier field) → field ∈ EXTRA_FIELDS →
  exprUsesExtraVars (a ++ buildTierBodyExpr tier ++ b) = true.
Proof.
  intros [x Hx] Hf. apply list_elem_of_fmap in Hf as ([f w] & -> & Hw). cbn [fst] in Hx.
  assert (price_text w x ∈ omap (λ cv, price_text cv.2 <$> extra_price tier cv.1) BILLING_CACHE_VAR_MAP) as Hin.
  { apply list_elem_of_omap. exists (f, w). split; [done|]. cbn [fst snd]. by rewrite Hx. }
  apply list_elem_of_split in Hin as (l1 & l2 & E). unfold buildTierBodyExpr. rewrite E. cbn [app].
  rewrite join_cons. cbn [map concat]. rewrite map_app, concat_app. cbn [map concat]. unfold price_text at 3.
  set (l := concat (map _ l1)). set (r := concat (map _ l2)).
  unfold exprUsesExtraVars.
  assert (∃ pre u, a ++ (price_text "p" (cost_of (member "input_unit_cost" tier)) ++
    ((" + " ++ price_text "c" (cost_of (member "output_unit_cost" tier))) ++ l ++
     (" + " ++ w ++ " * " ++ Number_to_string x) ++ r)) ++ b = (pre ++ " + ") ++ w ++ " " ++ u) as (pre & u & ->).
  { eexists (a ++ price_text "p" _ ++ " + " ++ price_text "c" _ ++ l), ("* " ++ Number_to_string x ++ r ++ b).
    by rewrite <- !app_assoc. }
  apply andb_true_iff. split; [by destruct pre|].
  assert (w ∈ map fst ESTIMATOR_VARS ∧ w ≠ [] ∧ Forall (λ c, is_word c = true) w) as (H1 & H2 & H3).
  { assert (Forall (λ p : jstring * jstring, p.2 ∈ map fst ESTIMATOR_VARS ∧ p.2 ≠ [] ∧
      Forall (λ c, is_word c = true) p.2) BILLING_CACHE_VAR_MAP) as H by (by apply (bool_decide_unpack _); vm_compute).
    rewrite Forall_forall in H. exact (H _ Hw). }
  apply word_found; [done..| |done]. by rewrite reverse_app.
Qed.

(** Normalizing a tier again changes nothing. *)
Lemma normalizeVisualTier_idemp tier k :
  NoDup (okeys (props tier)) →
  oget k (props (normalizeVisualTier (normalizeVisualTier tier))) = oget k (props (normalizeVisualTier tier)).
Proof.
  intros Hnd. rewrite (normalize_get k (normalizeVisualTier tier)) by apply normalize_keys.
  rewrite (member_props k (normalizeVisualTier tier)), normalize_get by done.
  case_bool_decide as Hk; [cbn [default from_option id]; by rewrite cost_of_idemp|].
  destruct (oget k (props tier)) as [w|]; [done|].
  destruct (oget k (tier_defaults tier)) as [w|] eqn:E; [done|].
  apply oget_None in E. by apply oget_None.
Qed.

(** ** Witnesses *)

Definition sample_config : jval :=
  JObj [("tiers", JArr [
    JObj [("label", JStr "small"); ("input_unit_cost", JNum (of_Z 3)); ("cache_create_1h_unit_cost", JStr "2.5");
          ("conditions", JArr [condition_object "len" "<=" (of_Z 2000); condition_object "p" "<" (of_Z 5)]);
          ("explicitExtraFields", JArr [JStr "image_unit_cost"])];
    JObj [("input_unit_cost", JNum (of_Z 7))]])].

Definition conditional_tier : jval :=
  JObj [("label", JStr "small"); ("input_unit_cost", JNum (of_Z 3));
        ("conditions", JArr [condition_object "p" "<" (of_Z 5)])].

Example visual_config_roundtrip_witness :
  (∃ tiers', tryParseVisualConfig (Some (generateExprFromVisualConfig sample_config)) = Some (JObj [("tiers", JArr tiers')])
    ∧ Forall2 holds (config_views (tiers_of sample_config)) tiers') ∧
  tryParseVisualConfig (Some (generateExprFromVisualConfig (JObj [("tiers", JArr [conditional_tier])]))) = None.
Proof.
  split; [apply (visual_config_roundtrip sample_config)|apply (visual_config_roundtrip (JObj [("tiers", JArr [conditional_tier])]))];
    (by vm_compute) || (vm_compute; discriminate).
Defined.

Example visual_expr_fixpoint_witness :
  ∃ config', tryParseVisualConfig (Some (generateExprFromVisualConfig sample_config)) = Some config' ∧
    generateExprFromVisualConfig config' = generateExprFromVisualConfig sample_config.
Proof. apply (visual_expr_fixpoint sample_config); vm_compute; reflexivity. Defined.

Example single_condition_lost_witness :
  tryParseVisualConfig (Some (generateExprFromVisualConfig (JObj [("tiers", JArr [conditional_tier])]))) = None.
Proof.
  apply (single_condition_lost _ conditional_tier); [reflexivity|vm_compute; discriminate|vm_compute; reflexivity].
Defined.
