(* ===== verification/PricingSync.v ===== *)
(** * PricingSync: [features/system-settings/models/upstream-ratio-sync-helpers.ts]

    Synchronisation of prices with upstream sources: the three-way rebase of a
    draft configuration, the patches of the pricing options, and the fields a
    comparison shows.  Channel ids, versions, intervals and states are integers. *)
From Stdlib Require Import Floats.SpecFloat.
From S2P Require Import Prelude JsString JsNumber JsValue.

(** ** Data ([features/system-settings/types.ts]) *)

Record UpstreamChannel := {
  uc_id : Z;
  uc_name : jstring;
  uc_base_url : jstring;
  uc_status : Z;
  uc_type : option Z;
}.

Inductive PricingSyncStrategy := strategy_highest | strategy_lowest | strategy_average.

Record PricingSyncSource := {
  channel_id : Z;
  enabled : bool;
  endpoint : jstring;
  interval_seconds : Z;
  last_success_at : option Z;
  last_error : option jstring;
}.

Record PricingSyncConfig := {
  strategy : PricingSyncStrategy;
  sources : list PricingSyncSource;
  version : Z;
}.

Inductive PricingSyncMode := mode_manual | mode_general | mode_channel.
Inductive PricingSyncStatus := status_ready | status_conflict | status_stale | status_unavailable.

Record PricingSyncModelState := {
  model_name : jstring;
  mode : PricingSyncMode;
  ms_channel_id : Z;
  status : PricingSyncStatus;
  conflict_details : option jstring;
  last_applied_at : option Z;
}.

(** The value of a pricing option: a number or a string. *)
Inductive pvalue := PNum (n : num) | PStr (s : jstring).

(** [Partial<{set, delete}>]: an absent property is [None]. *)
Record PricingSyncPatch := {
  patch_set : option (list (jstring * pvalue));
  patch_delete : option (list jstring);
}.

Record RatioDifference := {
  current : option pvalue;
  upstreams : list (jstring * pvalue);
  confidence : list (jstring * bool);
}.

(** Differences by model, then by ratio type. *)
Abbreviation DifferencesMap := (list (jstring * list (jstring * RatioDifference))).

(** Selected values by model, then by ratio type. *)
Abbreviation ResolutionsMap := (list (jstring * list (jstring * pvalue))).

#[export] Instance PricingSyncStrategy_eq_dec : EqDecision PricingSyncStrategy.
Proof. solve_decision. Defined.
#[export] Instance PricingSyncMode_eq_dec : EqDecision PricingSyncMode.
Proof. solve_decision. Defined.

(** ** Errors of a request *)

(** A thrown value, and whether it is an [Error]. *)
Record thrown := { thrown_value : jval; thrown_is_error : bool }.

(** [typeof v === 'object' && v !== null && k in v] *)
Definition object_with (k : jstring) (v : jval) : bool :=
  match v with JObj o => ohas k o | _ => false end.

Definition getPricingSyncErrorMessage (error : thrown) (fallback : jstring) : jstring :=
  let v := thrown_value error in
  let from_error :=
    match member "message" v with
    | JStr message => if thrown_is_error error && truthy message then message else fallback
    | _ => fallback
    end in
  if object_with "response" v then
    match member "message" (member "data" (member "response" v)) with
    | JStr message => if truthy (trim message) then message else from_error
    | _ => from_error
    end
  else from_error.

Definition isPricingSyncVersionConflict (error : thrown) : bool :=
  object_with "response" (thrown_value error) &&
  match member "status" (member "response" (thrown_value error)) with
  | JNum n => neqb n (of_Z 409)
  | _ => false
  end.

(** ** Sources *)

(** Pairs (id, name). *)
Definition getRunnablePricingSyncSources (channels : list UpstreamChannel)
  (config : option PricingSyncConfig) : list (Z * jstring) :=
  match config with
  | None => []
  | Some config =>
    let sourcesByChannel := new_map (map (λ s, (channel_id s, s)) (sources config)) in
    map (λ channel, (uc_id channel, uc_name channel))
      (filter (λ channel,
        bool_decide (uc_status channel = 1%Z) &&
        match oget (uc_id channel) sourcesByChannel with
        | Some source => enabled source && (0 <? interval_seconds source)%Z
        | None => false
        end = true) channels)
  end.

Definition sources_map (c : PricingSyncConfig) : list (Z * PricingSyncSource) :=
  new_map (map (λ s, (channel_id s, s)) (sources c)).

(** The fields an administrator edits. *)
Definition same_settings (a b : PricingSyncSource) : bool :=
  eqb (enabled a) (enabled b) && bool_decide (endpoint a = endpoint b) &&
  bool_decide (interval_seconds a = interval_seconds b).

(** The rebased source: each field the draft changed, else the latest one. *)
Definition rebase_source (baseSource draftSource latestSource : PricingSyncSource) : PricingSyncSource :=
  {| channel_id := channel_id latestSource;
     enabled := if negb (eqb (enabled draftSource) (enabled baseSource))
                then enabled draftSource else enabled latestSource;
     endpoint := if negb (bool_decide (endpoint draftSource = endpoint baseSource))
                 then endpoint draftSource else endpoint latestSource;
     interval_seconds := if negb (bool_decide (interval_seconds draftSource = interval_seconds baseSource))
                         then interval_seconds draftSource else interval_seconds latestSource;
     last_success_at := last_success_at latestSource;
     last_error := last_error latestSource |}.

(** The body of [sourceIDs.forEach]. *)
Definition rebase_step (baseSources draftSources : list (Z * PricingSyncSource))
  (rebasedSources : list (Z * PricingSyncSource)) (channelID : Z) : list (Z * PricingSyncSource) :=
  match oget channelID draftSources, oget channelID baseSources with
  | None, Some _ => odelete channelID rebasedSources
  | None, None => rebasedSources
  | Some draftSource, None => oset channelID draftSource rebasedSources
  | Some draftSource, Some baseSource =>
    let rebasedSource := rebase_source baseSource draftSource
                           (nullish (oget channelID rebasedSources) baseSource) in
    let changed := negb (same_settings draftSource baseSource) in
    if changed then oset channelID rebasedSource rebasedSources else rebasedSources
  end.

Definition rebasePricingSyncConfigDraft (base draft latest : PricingSyncConfig) : PricingSyncConfig :=
  let baseSources := sources_map base in
  let draftSources := sources_map draft in
  let sourceIDs := new_set (okeys baseSources ++ okeys draftSources) in
  let rebasedSources := fold_left (rebase_step baseSources draftSources) sourceIDs (sources_map latest) in
  {| strategy := if negb (bool_decide (strategy draft = strategy base)) then strategy draft else strategy latest;
     sources := ovalues rebasedSources;
     version := version latest |}.

(** ** Differences *)

(** The pair (automatic, manual). *)
Definition splitPricingSyncDifferences (differences : DifferencesMap)
  (modelStates : list (jstring * PricingSyncModelState)) : DifferencesMap * DifferencesMap :=
  fold_left (λ '(automatic, manual) '(modelName, difference),
      if bool_decide (mode <$> oget modelName modelStates = Some mode_manual)
      then (automatic, obj_set modelName difference manual)
      else (obj_set modelName difference automatic, manual))
    differences ([], []).

Definition pricingSyncPreferencesForModels (modelNames : list jstring)
  (modelStates : list (jstring * PricingSyncModelState)) : list PricingSyncModelState :=
  map (λ modelName,
    nullish (oget modelName modelStates)
      {| model_name := modelName; mode := mode_general; ms_channel_id := 0; status := status_ready;
         conflict_details := None; last_applied_at := None |}) modelNames.

(** ** Fields and option keys *)

Definition RATIO_SYNC_FIELDS : list jstring :=
  ["model_ratio"; "completion_ratio"; "cache_ratio"; "create_cache_ratio"; "image_ratio";
   "audio_ratio"; "audio_completion_ratio"].

Definition SYNC_FIELD_ORDER : list jstring :=
  RATIO_SYNC_FIELDS ++ ["model_price"; "billing_mode"; "billing_expr"].

Definition NUMERIC_SYNC_FIELDS : list jstring := new_set (RATIO_SYNC_FIELDS ++ ["model_price"]).

Definition RATIO_OPTION_KEYS : list jstring :=
  ["ModelRatio"; "CompletionRatio"; "CacheRatio"; "CreateCacheRatio"; "ImageRatio"; "AudioRatio";
   "AudioCompletionRatio"].

Definition TIERED_OPTION_KEYS : list jstring :=
  ["billing_setting.billing_mode"; "billing_setting.billing_expr"].

Definition PRICING_FORM_OPTION_KEYS : list (jstring * jstring) := [
  ("ModelPrice", "ModelPrice");
  ("ModelRatio", "ModelRatio");
  ("CacheRatio", "CacheRatio");
  ("CreateCacheRatio", "CreateCacheRatio");
  ("CompletionRatio", "CompletionRatio");
  ("ImageRatio", "ImageRatio");
  ("AudioRatio", "AudioRatio");
  ("AudioCompletionRatio", "AudioCompletionRatio");
  ("BillingMode", "billing_setting.billing_mode");
  ("BillingExpr", "billing_setting.billing_expr");
  ("TaskPriceUnit", "billing_setting.task_price_unit")
].

(** ** Patches *)

(** [a === b] *)
Definition pvalue_eqb (a b : pvalue) : bool :=
  match a, b with
  | PNum x, PNum y => neqb x y
  | PStr x, PStr y => bool_decide (x = y)
  | _, _ => false
  end.

Definition to_pvalue (v : jval) : option pvalue :=
  match v with JNum n => Some (PNum n) | JStr s => Some (PStr s) | _ => None end.

(** [JSON.parse(text || '{}') as Record<string, number | string>]: [None] when
    the text is not of that type. *)
Definition parse_price_map (text : option jstring) : option (list (jstring * pvalue)) :=
  match JSON_parse (ostr_or text "{}") with
  | Some (JObj o) => mapM (λ kv, pair kv.1 <$> to_pvalue kv.2) o
  | _ => None
  end.

(** The models to set, and the models to delete. *)
Definition diff_step (previous set : list (jstring * pvalue)) (entry : jstring * pvalue)
  : list (jstring * pvalue) :=
  let unchanged := match oget entry.1 previous with
                   | Some v => pvalue_eqb v entry.2
                   | None => false
                   end in
  if unchanged then set else obj_set entry.1 entry.2 set.

Definition diff_set (previous next : list (jstring * pvalue)) : list (jstring * pvalue) :=
  fold_left (diff_step previous) next [].

Definition diff_deleted (previous next : list (jstring * pvalue)) : list jstring :=
  filter (λ model, ohas model next = false) (okeys previous).

Definition diff_patch (previous next : list (jstring * pvalue)) : option PricingSyncPatch :=
  let set := diff_set previous next in
  let deleted := diff_deleted previous next in
  let nonempty {A} (l : list A) := match l with [] => None | _ => Some l end in
  match nonempty set, nonempty deleted with
  | None, None => None
  | s, d => Some {| patch_set := s; patch_delete := d |}
  end.

(** The loop over the option keys; [None] when a map does not parse. *)
Fixpoint diff_patches (keys : list (jstring * jstring)) (before after : list (jstring * jstring))
  (patches : list (jstring * PricingSyncPatch)) : option (list (jstring * PricingSyncPatch)) :=
  match keys with
  | [] => Some patches
  | (formKey, optionKey) :: rest =>
    previous ← parse_price_map (oget formKey before);
    next ← parse_price_map (oget formKey after);
    diff_patches rest before after
      match diff_patch previous next with
      | Some p => obj_set optionKey p patches
      | None => patches
      end
  end.

Definition buildPricingMapDiffPatches (before after : list (jstring * jstring))
  : option (list (jstring * PricingSyncPatch)) :=
  diff_patches PRICING_FORM_OPTION_KEYS before after [].

(** [patches[optionKey] ?? {}] *)
Definition patch_at (optionKey : jstring) (patches : list (jstring * PricingSyncPatch)) : PricingSyncPatch :=
  nullish (oget optionKey patches) {| patch_set := None; patch_delete := None |}.

Definition deleteModel (patches : list (jstring * PricingSyncPatch)) (optionKey model : jstring)
  : list (jstring * PricingSyncPatch) :=
  let patch := patch_at optionKey patches in
  obj_set optionKey {| patch_set := patch_set patch;
                       patch_delete := Some (nullish (patch_delete patch) [] ++ [model]) |} patches.

Definition setModel (patches : list (jstring * PricingSyncPatch)) (optionKey model : jstring)
  (value : pvalue) : list (jstring * PricingSyncPatch) :=
  let patch := patch_at optionKey patches in
  obj_set optionKey {| patch_set := Some (obj_set model value (nullish (patch_set patch) []));
                       patch_delete := patch_delete patch |} patches.

(** [Number(value)] *)
Definition pvalue_number (v : pvalue) : num :=
  match v with PNum n => n | PStr s => Number_of_string s end.

(** [String(value)] *)
Definition pvalue_string (v : pvalue) : jstring :=
  match v with PNum n => Number_to_string n | PStr s => s end.

(** The option keys whose entry of the model is deleted for a selection of fields. *)
Definition deleted_keys (selectedTypes : list jstring) : list jstring :=
  let hasPrice := has "model_price" selectedTypes in
  let hasRatio := existsb (λ field, has field RATIO_SYNC_FIELDS) selectedTypes in
  if hasPrice then RATIO_OPTION_KEYS ++ TIERED_OPTION_KEYS
  else if hasRatio then "ModelPrice" :: TIERED_OPTION_KEYS
  else "ModelPrice" :: RATIO_OPTION_KEYS.

(** The case mapping of the language, [s.toUpperCase()], is a parameter: it is
    the Unicode table. *)
Section patches.
Variable toUpperCase : jstring → jstring.

Definition optionKeyBySyncField (ratioType : jstring) : jstring :=
  match oget ratioType [("billing_mode", "billing_setting.billing_mode");
                        ("billing_expr", "billing_setting.billing_expr")] with
  | Some k => k
  | None => join [] (map (λ word, toUpperCase (take 1 word) ++ drop 1 word) (split_unit (cu "_") ratioType))
  end.

(** The value sent for a field. *)
Definition sync_value (ratioType : jstring) (value : pvalue) : pvalue :=
  if has ratioType NUMERIC_SYNC_FIELDS then PNum (pvalue_number value) else value.

(** The body of the loop over the resolutions. *)
Definition patch_model (patches : list (jstring * PricingSyncPatch))
  (resolution : jstring * list (jstring * pvalue)) : list (jstring * PricingSyncPatch) :=
  let '(model, ratios) := resolution in
  let patches := fold_left (λ ps key, deleteModel ps key model) (deleted_keys (okeys ratios)) patches in
  fold_left (λ ps '(ratioType, value),
      setModel ps (optionKeyBySyncField ratioType) model (sync_value ratioType value))
    ratios patches.

Definition buildPricingSyncPatches (resolutions : ResolutionsMap) : list (jstring * PricingSyncPatch) :=
  fold_left patch_model resolutions [].

End patches.

(** ** Display *)

Definition formatSyncValue (field : jstring) (value : pvalue) : jstring :=
  if has field RATIO_SYNC_FIELDS then "×" ++ pvalue_string value else pvalue_string value.

(** [constants.ts]: pairs (label, value). *)
Definition RATIO_TYPE_OPTIONS : list (jstring * jstring) := [
  ("Model ratio", "model_ratio");
  ("Completion ratio", "completion_ratio");
  ("Cache ratio", "cache_ratio");
  ("Create cache ratio", "create_cache_ratio");
  ("Image ratio", "image_ratio");
  ("Audio ratio", "audio_ratio");
  ("Audio completion ratio", "audio_completion_ratio");
  ("Fixed price", "model_price");
  ("Expression billing", "billing_expr")
].

Definition getSyncFieldLabel (ratioType : jstring) (t : jstring → jstring) : jstring :=
  if bool_decide (ratioType = "model_ratio") then t "Input tokens"
  else if bool_decide (ratioType = "completion_ratio") then t "Output tokens"
  else if bool_decide (ratioType = "cache_ratio") then t "Cache read price"
  else if bool_decide (ratioType = "create_cache_ratio") then t "Cache write price"
  else if bool_decide (ratioType = "model_price") then t "Per-request"
  else if bool_decide (ratioType = "image_ratio") then t "Image tokens"
  else if bool_decide (ratioType = "audio_ratio") then t "Input audio"
  else if bool_decide (ratioType = "audio_completion_ratio") then t "Output audio"
  else match find (λ o, bool_decide (o.2 = ratioType)) RATIO_TYPE_OPTIONS with
       | Some opt => t opt.1
       | None => ratioType
       end.

Definition getOrderedRatioTypes (ratioTypes : list (jstring * RatioDifference))
  (filter_ : option jstring) : list jstring :=
  let keys := okeys ratioTypes in
  let ordered := filter (λ f, has f keys = true) SYNC_FIELD_ORDER
                 ++ filter (λ f, has f SYNC_FIELD_ORDER = false) keys in
  match filter_ with
  | None | Some [] => ordered
  | Some f => if bool_decide (f = "__all__") then ordered
              else filter (λ field, field = f) ordered
  end.

Definition getDisplaySyncFields (ratioTypes : list (jstring * RatioDifference))
  (filter_ : option jstring) : list jstring :=
  let fields := getOrderedRatioTypes ratioTypes filter_ in
  if negb (has "billing_expr" fields) then fields
  else filter (λ field, field ≠ "billing_mode") fields.

(** A value of a source other than the text ['same']. *)
Definition isSelectableUpstreamValue (value : option pvalue) : bool :=
  match value with
  | None => false
  | Some (PStr s) => negb (bool_decide (s = "same"))
  | Some (PNum _) => true
  end.

Definition getPreferredSyncField (ratioTypes : list (jstring * RatioDifference))
  (ratioType sourceName : jstring) : jstring :=
  let exprValue := d ← oget "billing_expr" ratioTypes; oget sourceName (upstreams d) in
  if negb (bool_decide (ratioType = "billing_expr")) && isSelectableUpstreamValue exprValue
  then "billing_expr" else ratioType.

(** ** The rebase is a three-way merge *)

(** Sources keyed by their own channel. *)
Definition keyed (m : list (Z * PricingSyncSource)) : Prop :=
  NoDup (okeys m) ∧ ∀ id s, oget id m = Some s → channel_id s = id.

Lemma keyed_oset m id s : keyed m → channel_id s = id → keyed (oset id s m).
Proof.
  intros [Hn Hk] Hs. split; [by apply NoDup_okeys_oset|].
  intros id' s'. rewrite oget_oset. case_bool_decide; [naive_solver|apply Hk].
Qed.

Lemma keyed_odelete m id : keyed m → keyed (odelete id m).
Proof.
  intros [Hn Hk]. split; [by apply NoDup_okeys_odelete|].
  intros id' s'. rewrite oget_odelete by done. case_bool_decide; [done|apply Hk].
Qed.

Lemma keyed_fold l m :
  keyed m → keyed (fold_left (λ m kv, oset kv.1 kv.2 m) (map (λ s, (channel_id s, s)) l) m).
Proof.
  revert m. induction l as [|s l IH]; intros m Hm; [done|]. cbn [map fold_left]. by apply IH, keyed_oset.
Qed.

Lemma keyed_sources c : keyed (sources_map c).
Proof. apply keyed_fold. split; [apply NoDup_nil_2|done]. Qed.

Lemma keyed_entries m : keyed m → map (λ s, (channel_id s, s)) (ovalues m) = m.
Proof.
  intros [Hn Hk]. unfold ovalues.
  assert (∀ id s, (id, s) ∈ m → channel_id s = id) as He.
  { intros id s Hin. apply Hk. by apply elem_of_oget. }
  clear Hn Hk. induction m as [|[id s] m IH]; [done|]. cbn. f_equal.
  - by rewrite (He id s) by constructor.
  - apply IH. intros id' s' Hin. apply He. by constructor.
Qed.

Lemma keyed_rebuild m : keyed m → new_map (map (λ s, (channel_id s, s)) (ovalues m)) = m.
Proof.
  intros Hm. rewrite keyed_entries by done. destruct Hm as [Hn Hk].
  clear Hk. unfold new_map. rewrite <- (app_nil_l m) in Hn. change m with ([] ++ m) at 2.
  generalize dependent (@nil (Z * PricingSyncSource)). induction m as [|[id s] m IH]; intros acc Hn.
  - by rewrite app_nil_r.
  - cbn [fold_left fst snd]. rewrite oset_fresh.
    + rewrite IH; by rewrite <- app_assoc.
    + apply oget_None. unfold okeys in *. rewrite fmap_app in Hn. apply NoDup_app in Hn as (_ & Hd & _).
      intros Hin. apply (Hd id Hin). constructor.
Qed.

(** The settings of a source. *)
Definition settings (s : PricingSyncSource) : bool * jstring * Z :=
  (enabled s, endpoint s, interval_seconds s).

Lemma same_settings_spec a b : same_settings a b = true ↔ settings a = settings b.
Proof.
  unfold same_settings, settings. rewrite !andb_true_iff, eqb_true_iff, !bool_decide_eq_true.
  split; [by intros [[-> ->] ->]|intros [=]; auto].
Qed.

(** The three-way merge of one value: what the draft made of the base, unless it
    left it as it was. *)
Definition merge3 {A} `{EqDecision A} (base draft latest : A) : A := if decide (base = draft) then latest else draft.

(** The merge of the states of one source, each of which may be missing.  A source that
    is in the base and the draft, where its settings differ, is there afterwards; one
    that was removed from the latest configuration comes back with what the base had. *)
Definition merge_source (b d l : option PricingSyncSource) : option PricingSyncSource :=
  match b, d with
  | Some _, None => None
  | None, None => l
  | None, Some d => Some d
  | Some b, Some d =>
    if decide (settings b = settings d) then l
    else
      let l := default b l in
      Some {| channel_id := channel_id l;
              enabled := merge3 (enabled b) (enabled d) (enabled l);
              endpoint := merge3 (endpoint b) (endpoint d) (endpoint l);
              interval_seconds := merge3 (interval_seconds b) (interval_seconds d) (interval_seconds l);
              last_success_at := last_success_at l; last_error := last_error l |}
  end.

(** The code merges a source so. *)
Lemma rebase_source_merge b d l :
  (if negb (same_settings d b) then Some (rebase_source b d (nullish l b)) else l) = merge_source (Some b) (Some d) l.
Proof.
  unfold merge_source. destruct (decide (settings b = settings d)) as [E|E].
  - assert (same_settings d b = true) as -> by by apply same_settings_spec. done.
  - assert (same_settings d b = false) as -> by (apply not_true_iff_false; by intros E'%same_settings_spec).
    cbn [negb]. unfold rebase_source, merge3, nullish. f_equal. f_equal.
    + by destruct (enabled d), (enabled b).
    + destruct (decide (endpoint b = endpoint d)); case_bool_decide; done || congruence.
    + destruct (decide (interval_seconds b = interval_seconds d)); case_bool_decide; done || congruence.
Qed.

Lemma keyed_rebase_step bm dm m id :
  keyed bm → keyed dm → keyed m → keyed (rebase_step bm dm m id).
Proof.
  intros [_ Hb] [_ Hd] Hm. unfold rebase_step.
  destruct (oget id dm) as [d|] eqn:Ed, (oget id bm) as [b|] eqn:Eb; [|by apply keyed_oset; auto| |done].
  - destruct (negb _); [|done]. apply keyed_oset; [done|]. cbn [channel_id rebase_source].
    destruct (oget id m) as [l|] eqn:El; cbn; [by apply Hm|by apply Hb].
  - by apply keyed_odelete.
Qed.

Lemma oget_rebase_step bm dm m id id' :
  keyed m →
  oget id (rebase_step bm dm m id') =
  if bool_decide (id = id') then merge_source (oget id bm) (oget id dm) (oget id m) else oget id m.
Proof.
  intros [Hn _]. unfold rebase_step. destruct (decide (id = id')) as [<-|Hne].
  - rewrite bool_decide_eq_true_2 by done.
    destruct (oget id dm), (oget id bm); [|cbn [merge_source]; rewrite ?oget_odelete, ?oget_oset_eq by done; try done..].
    + rewrite <- rebase_source_merge. destruct (negb _); [|done]. by rewrite oget_oset_eq.
    + by rewrite bool_decide_eq_true_2.
  - rewrite bool_decide_eq_false_2 by done.
    destruct (oget id' dm), (oget id' bm); rewrite ?oget_odelete, ?oget_oset_ne by done; try done.
    + destruct (negb _); [|done]. by rewrite oget_oset_ne.
    + by rewrite bool_decide_eq_false_2.
Qed.

Lemma oget_rebase_fold bm dm ids m id :
  keyed bm → keyed dm → keyed m → NoDup ids →
  keyed (fold_left (rebase_step bm dm) ids m) ∧
  oget id (fold_left (rebase_step bm dm) ids m) =
  if bool_decide (id ∈ ids) then merge_source (oget id bm) (oget id dm) (oget id m) else oget id m.
Proof.
  intros Hb Hd. revert m. induction ids as [|i ids IH]; intros m Hm Hn; [done|].
  apply NoDup_cons in Hn as [Hi Hn]. cbn [fold_left].
  destruct (IH (rebase_step bm dm m i)) as [Hk ->]; [by apply keyed_rebase_step|done|].
  split; [done|]. rewrite oget_rebase_step by done.
  destruct (decide (id = i)) as [->|Hne].
  - rewrite (bool_decide_eq_false_2 (i ∈ ids)), !bool_decide_eq_true_2 by (done || constructor). done.
  - rewrite (bool_decide_eq_false_2 (id = i)) by done.
    rewrite (bool_decide_ext (id ∈ i :: ids) (id ∈ ids)); [done|]. rewrite elem_of_cons. naive_solver.
Qed.

Lemma rebase_lookup base draft latest id :
  oget id (sources_map (rebasePricingSyncConfigDraft base draft latest)) =
  merge_source (oget id (sources_map base)) (oget id (sources_map draft)) (oget id (sources_map latest)).
Proof.
  unfold rebasePricingSyncConfigDraft. set (ids := new_set _).
  destruct (oget_rebase_fold (sources_map base) (sources_map draft) ids (sources_map latest) id)
    as [Hk E]; [apply keyed_sources..|apply NoDup_new_set|].
  unfold sources_map at 1. cbn [sources]. rewrite keyed_rebuild by done. rewrite E.
  case_bool_decide as Hin; [done|]. unfold ids in Hin. rewrite elem_of_new_set, elem_of_app, !elem_of_okeys in Hin.
  destruct (oget id (sources_map base)), (oget id (sources_map draft)); [naive_solver..|done].
Qed.

(** C37: The rebase of a draft is the three-way merge of the sources: one the draft
    removed is gone, one it added or whose settings it changed is there, each setting
    the one of the draft where the draft changed it and the latest one otherwise, and
    one it left alone is as in the latest configuration.  The strategy is merged the
    same way, the version is the latest one, and no channel has two sources. *)
Theorem rebase_three_way base draft latest :
  let rebased := rebasePricingSyncConfigDraft base draft latest in
  (∀ id, oget id (sources_map rebased) =
         merge_source (oget id (sources_map base)) (oget id (sources_map draft)) (oget id (sources_map latest))) ∧
  strategy rebased = merge3 (strategy base) (strategy draft) (strategy latest) ∧
  version rebased = version latest ∧
  NoDup (map channel_id (sources rebased)).
Proof.
  cbn. split_and!; [apply rebase_lookup|unfold merge3; case_bool_decide; destruct (decide _); cbn [negb]; congruence|done|].
  unfold rebasePricingSyncConfigDraft. cbn [sources].
  destruct (oget_rebase_fold (sources_map base) (sources_map draft)
    (new_set (okeys (sources_map base) ++ okeys (sources_map draft))) (sources_map latest) 0)
    as [[Hn Hk] _]; [apply keyed_sources..|apply NoDup_new_set|].
  set (m := fold_left _ _ _) in *.
  assert (map channel_id (ovalues m) = okeys m) as ->; [|done].
  rewrite <- (keyed_entries m) at 2 by done. unfold okeys. rewrite <- list_fmap_compose. done.
Qed.

Lemma sources_map_ovalues l :
  NoDup (map channel_id l) → ovalues (new_map (map (λ s, (channel_id s, s)) l)) = l.
Proof.
  intros Hn. assert (new_map (map (λ s, (channel_id s, s)) l) = map (λ s, (channel_id s, s)) l) as ->.
  - unfold new_map. rewrite <- (app_nil_l (map _ l)) at 2. 
    assert (NoDup (okeys (@nil (Z * PricingSyncSource)) ++ map channel_id l)) as H by done. revert H.
    generalize (@nil (Z * PricingSyncSource)). clear Hn. induction l as [|s l IH]; intros acc H.
    + by rewrite app_nil_r.
    + cbn [map fold_left fst snd]. rewrite oset_fresh.
      * rewrite IH; [by rewrite <- app_assoc|]. unfold okeys in *. rewrite fmap_app. cbn in H |- *.
        by rewrite <- app_assoc.
      * apply oget_None. intros Hin. apply NoDup_app in H as (_ & H & _). apply (H _ Hin). constructor.
  - unfold ovalues. induction l as [|s l IH]; [done|]. cbn. f_equal. apply IH. by apply NoDup_cons in Hn as [_ ?].
Qed.

(** Rebasing loses nothing on either side. An untouched draft gives the
    latest configuration; without changes in between, every source of the
    result has the settings of the draft. *)
Lemma rebase_one_sided base draft latest :
  (NoDup (map channel_id (sources latest)) → rebasePricingSyncConfigDraft base base latest = latest) ∧
  (∀ id, settings <$> oget id (sources_map (rebasePricingSyncConfigDraft base draft base))
       = settings <$> oget id (sources_map draft)) ∧
  strategy (rebasePricingSyncConfigDraft base draft base) = strategy draft.
Proof.
  split_and!.
  - intros Hn. destruct latest as [st ss v]. unfold rebasePricingSyncConfigDraft. cbn [strategy sources version] in *.
    rewrite bool_decide_eq_true_2 by done. cbn [negb]. f_equal.
    set (ids := new_set _). unfold sources_map at 3. cbn [sources].
    rewrite <- (sources_map_ovalues ss Hn) at 2. f_equal.
    assert (∀ m id, rebase_step (sources_map base) (sources_map base) m id = m) as Hid.
    { intros m id. unfold rebase_step. destruct (oget id (sources_map base)) as [b|]; [|done].
      assert (same_settings b b = true) as -> by by apply same_settings_spec. done. }
    generalize (new_map (map (λ s, (channel_id s, s)) ss)). intros m. clear -Hid. revert m.
    induction ids as [|i ids IH]; intros m; [done|]. cbn [fold_left]. by rewrite Hid.
  - intros id. rewrite rebase_lookup. unfold merge_source.
    destruct (oget id (sources_map base)) as [b|], (oget id (sources_map draft)) as [d|]; try done.
    destruct (decide (settings b = settings d)) as [E|E]; cbn.
    + by rewrite E.
    + f_equal. unfold settings, merge3. cbn [enabled endpoint interval_seconds].
      by repeat destruct (decide _) as [->|].
  - cbn. case_bool_decide; cbn; congruence.
Qed.

Definition sample_source (id : Z) (e : bool) (t : Z) : PricingSyncSource :=
  {| channel_id := id; enabled := e; endpoint := "/api/pricing"; interval_seconds := t;
     last_success_at := None; last_error := None |}.

Definition sample_config (v : Z) (l : list PricingSyncSource) : PricingSyncConfig :=
  {| strategy := strategy_highest; sources := l; version := v |}.

Lemma rebase_one_sided_witness :
  rebasePricingSyncConfigDraft (sample_config 1 [sample_source 7 true 60])
    (sample_config 1 [sample_source 7 true 60]) (sample_config 2 [sample_source 7 false 30; sample_source 9 true 5])
  = sample_config 2 [sample_source 7 false 30; sample_source 9 true 5].
Proof.
  apply (rebase_one_sided (sample_config 1 [sample_source 7 true 60]) (sample_config 1 [])
           (sample_config 2 [sample_source 7 false 30; sample_source 9 true 5])).
  apply (bool_decide_unpack _). reflexivity.
Defined.

(** ** Patches carry the difference *)

(** What applying a patch to a map gives. *)
Definition apply_patch (m : list (jstring * pvalue)) (p : option PricingSyncPatch) : list (jstring * pvalue) :=
  match p with
  | None => m
  | Some p =>
    let m := fold_left (λ m k, odelete k m) (nullish (patch_delete p) []) m in
    fold_left (λ m kv, obj_set kv.1 kv.2 m) (nullish (patch_set p) []) m
  end.

(** Equal up to [===]. *)
Definition same_value (a b : option pvalue) : Prop :=
  match a, b with
  | None, None => True
  | Some x, Some y => x = y ∨ pvalue_eqb x y = true
  | _, _ => False
  end.

Lemma same_value_refl a : same_value a a.
Proof. destruct a; simpl; auto. Qed.

Lemma oget_fold_odelete k ks (m : list (jstring * pvalue)) :
  NoDup (okeys m) →
  NoDup (okeys (fold_left (λ m k, odelete k m) ks m)) ∧
  oget k (fold_left (λ m k, odelete k m) ks m) = if has k ks then None else oget k m.
Proof.
  revert m. induction ks as [|k' ks IH]; intros m Hm; [done|]. cbn [fold_left].
  destruct (IH (odelete k' m)) as [Hn ->]; [by apply NoDup_okeys_odelete|]. split; [done|].
  rewrite oget_odelete by done. unfold has. destruct (decide (k = k')) as [->|Hne].
  - rewrite (bool_decide_eq_true_2 (k' = k')), (bool_decide_eq_true_2 (k' ∈ k' :: ks)) by (done || constructor).
    by case_bool_decide.
  - rewrite (bool_decide_eq_false_2 (k = k')) by done.
    rewrite (bool_decide_ext (k ∈ k' :: ks) (k ∈ ks)); [done|]. rewrite elem_of_cons. naive_solver.
Qed.

(** The entries of a change: those of [next] that are not in [previous]. *)
Lemma oget_diff_set k previous next :
  NoDup (okeys next) →
  NoDup (okeys (diff_set previous next)) ∧
  oget k (diff_set previous next) =
  match oget k next with
  | Some v => match oget k previous with
              | Some w => if pvalue_eqb w v then None else Some v
              | None => Some v
              end
  | None => None
  end.
Proof.
  intros Hn. unfold diff_set.
  assert (∀ l acc, NoDup (okeys acc) → NoDup (okeys l) → (∀ k, k ∈ okeys l → oget k acc = None) →
    NoDup (okeys (fold_left (diff_step previous) l acc)) ∧
    oget k (fold_left (diff_step previous) l acc)
    = match oget k l with
      | Some v => match oget k previous with
                  | Some w => if pvalue_eqb w v then None else Some v
                  | None => Some v
                  end
      | None => oget k acc
      end) as H.
  { induction l as [|[model value] l IH]; intros acc Ha Hl Hf; [done|]. cbn [fold_left].
    unfold okeys in Hl. apply NoDup_cons in Hl as [Hm Hl].
    unfold diff_step at 2 4. cbn [fst snd].
    set (u := match oget model previous with Some v => pvalue_eqb v value | None => false end).
    destruct (IH (if u then acc else obj_set model value acc)) as [Hnd ->].
    - destruct u; [done|]. by apply NoDup_okeys_obj_set.
    - done.
    - intros j Hj. assert (oget j acc = None) as Hja by (apply Hf; by constructor).
      destruct u; [done|]. rewrite oget_obj_set, bool_decide_eq_false_2; [done|]. by intros ->.
    - split; [done|]. cbn [oget]. destruct (decide (k = model)) as [->|Hne].
      + rewrite (bool_decide_eq_true_2 (model = model)) by done.
        assert (oget model l = None) as -> by by apply oget_None.
        assert (oget model acc = None) as Hacc by (apply Hf; constructor).
        subst u. destruct (oget model previous) as [w|]; [destruct (pvalue_eqb w value); [done|]|];
          by rewrite oget_obj_set, bool_decide_eq_true_2.
      + rewrite (bool_decide_eq_false_2 (k = model)) by done. destruct (oget k l); [done|].
        destruct u; [done|]. by rewrite oget_obj_set, bool_decide_eq_false_2. }
  destruct (H next []) as [H1 ->]; [apply NoDup_nil_2|done|done|]. split; [done|]. by destruct (oget k next).
Qed.

Lemma has_diff_deleted k previous next :
  has k (diff_deleted previous next) = ohas k previous && negb (ohas k next).
Proof.
  apply eq_bool_prop_intro. rewrite !Is_true_true, andb_true_iff, negb_true_iff, has_spec.
  unfold diff_deleted. rewrite list_elem_of_filter, elem_of_okeys. unfold ohas at 2.
  rewrite bool_decide_eq_true. naive_solver.
Qed.

(** The parts of the patch of a difference. *)
Lemma diff_patch_parts previous next :
  let p := diff_patch previous next in
  nullish (p ≫= patch_set) [] = diff_set previous next ∧
  nullish (p ≫= patch_delete) [] = diff_deleted previous next.
Proof.
  unfold diff_patch. by destruct (diff_set previous next), (diff_deleted previous next).
Qed.

Lemma apply_patch_parts m p :
  apply_patch m p =
  fold_left (λ m kv, obj_set kv.1 kv.2 m) (nullish (p ≫= patch_set) [])
    (fold_left (λ m k, odelete k m) (nullish (p ≫= patch_delete) []) m).
Proof. by destruct p as [[s d]|]. Qed.

Lemma apply_diff_patch previous next k :
  NoDup (okeys previous) → NoDup (okeys next) →
  same_value (oget k (apply_patch previous (diff_patch previous next))) (oget k next).
Proof.
  intros Hp Hn. rewrite apply_patch_parts. destruct (diff_patch_parts previous next) as [-> ->].
  destruct (oget_fold_odelete k (diff_deleted previous next) previous Hp) as [Hd Ed].
  destruct (oget_diff_set k previous next Hn) as [Hs Es].
  change (fold_left _ (diff_set previous next) ?m) with (obj_spread m (diff_set previous next)).
  rewrite oget_obj_spread, oget_reverse, Es, Ed, has_diff_deleted by done. unfold ohas.
  destruct (oget k next) as [v|]; [|rewrite (bool_decide_eq_false_2 (is_Some None)) by by intros [? ?]].
  - rewrite (bool_decide_eq_true_2 (is_Some (Some v))) by done. rewrite andb_false_r.
    destruct (oget k previous) as [w|]; [|simpl; auto]. destruct (pvalue_eqb w v) eqn:E; simpl; auto.
  - destruct (oget k previous) as [w|] eqn:E; [by rewrite bool_decide_eq_true_2|].
    by destruct (_ && _).
Qed.

(** ** Parsed maps *)

Lemma NoDup_okeys_obj_of_entries {V} (l : list (jstring * V)) : NoDup (okeys (obj_of_entries l)).
Proof. apply (NoDup_okeys_obj_spread [] l), NoDup_nil_2. Qed.

Lemma JSON_parse_object s o : JSON_parse s = Some (JObj o) → NoDup (okeys o).
Proof.
  unfold JSON_parse. intros H. apply bind_Some in H as ([v rest] & H & Hr).
  destruct (skip_ws rest); [|done]. injection Hr as ->. cbn [parse_value] in H.
  destruct (skip_ws s) as [|c r]; [done|].
  destruct (c =? 34)%N; [by apply bind_Some in H as ([? ?] & _ & ?)|].
  destruct (c =? cu "[")%N.
  { destruct (skip_ws r) as [|d r']; [done|]. destruct (d =? cu "]")%N; [done|].
    by apply bind_Some in H as ([? ?] & _ & ?). }
  destruct (c =? cu "{")%N.
  { destruct (skip_ws r) as [|d r']; [done|]. destruct (d =? cu "}")%N.
    - injection H as <- _. apply NoDup_nil_2.
    - apply bind_Some in H as ([kvs ?] & _ & H). injection H as <- _. apply NoDup_okeys_obj_of_entries. }
  destruct (starts_with "true" _); [done|]. destruct (starts_with "false" _); [done|].
  destruct (starts_with "null" _); [done|]. unfold parse_number in H. by solve_some H.
Qed.

Lemma mapM_keys (o : list (jstring * jval)) m :
  mapM (λ kv, pair kv.1 <$> to_pvalue kv.2) o = Some m → okeys m = okeys o.
Proof.
  revert m. induction o as [|[k v] o IH]; intros m H; cbn in H; [by injection H as <-|].
  apply bind_Some in H as ([k' v'] & H1 & H). apply bind_Some in H as (m' & H2 & H). injection H as <-.
  apply fmap_Some in H1 as (w & _ & [= -> ->]). unfold okeys in *. cbn. f_equal. by apply IH.
Qed.

Lemma parse_price_map_NoDup text m : parse_price_map text = Some m → NoDup (okeys m).
Proof.
  unfold parse_price_map. destruct (JSON_parse _) as [[]|] eqn:E; try done.
  intros H. rewrite (mapM_keys _ _ H). by eapply JSON_parse_object.
Qed.

Lemma diff_patches_spec keys before after patches out :
  NoDup keys.*2 → (∀ k, k ∈ keys.*2 → oget k patches = None) →
  diff_patches keys before after patches = Some out →
  ∀ option_key,
    match find (λ fo, bool_decide (fo.2 = option_key)) keys with
    | Some (formKey, _) =>
      ∃ previous next, parse_price_map (oget formKey before) = Some previous ∧
        parse_price_map (oget formKey after) = Some next ∧
        oget option_key out = diff_patch previous next
    | None => oget option_key out = oget option_key patches
    end.
Proof.
  revert patches. induction keys as [|[fk ok] keys IH]; intros patches Hn Hf H key; cbn [diff_patches] in H.
  { by injection H as <-. }
  apply NoDup_cons in Hn as [Hok Hn].
  apply bind_Some in H as (previous & Hp & H). apply bind_Some in H as (next & Hx & H).
  assert (oget ok patches = None) as Hokn by (apply Hf; constructor).
  set (ps := match diff_patch previous next with Some p => obj_set ok p patches | None => patches end) in H.
  assert (oget key ps = if bool_decide (key = ok) then diff_patch previous next else oget key patches) as Eps.
  { subst ps. destruct (diff_patch previous next); [by rewrite oget_obj_set|]. case_bool_decide; congruence. }
  assert (∀ k, k ∈ keys.*2 → oget k ps = None) as Hf'.
  { intros k Hk. assert (k ≠ ok) by by intros ->.
    subst ps. destruct (diff_patch previous next); [|by apply Hf; constructor].
    rewrite oget_obj_set, bool_decide_eq_false_2 by done. by apply Hf; constructor. }
  specialize (IH ps Hn Hf' H key). cbn [find snd]. destruct (decide (ok = key)) as [->|Hne].
  - rewrite bool_decide_eq_true_2 by done. exists previous, next. split_and!; [done..|].
    destruct (find _ keys) as [[fk' ok']|] eqn:E.
    + apply find_some in E as [Hin E]. cbn in E. bool_to_prop. subst. destruct Hok.
      apply list_elem_of_fmap. exists (fk', key). split; [done|]. by apply list_elem_of_In.
    + rewrite IH, Eps. by rewrite bool_decide_eq_true_2.
  - rewrite bool_decide_eq_false_2 by done. destruct (find _ keys) as [[fk' ok']|]; [done|].
    rewrite IH, Eps. rewrite bool_decide_eq_false_2; [done|]. by intros ->.
Qed.

(** C38: the patches between two states of the pricing form carry the first into
    the second: for every option, applying its patch to the map before gives the
    map after, and an option without a change has no patch. *)
Theorem diff_patches_apply before after patches :
  buildPricingMapDiffPatches before after = Some patches →
  ∀ formKey optionKey, (formKey, optionKey) ∈ PRICING_FORM_OPTION_KEYS →
  ∃ previous next,
    parse_price_map (oget formKey before) = Some previous ∧
    parse_price_map (oget formKey after) = Some next ∧
    (∀ model, same_value (oget model (apply_patch previous (oget optionKey patches))) (oget model next)) ∧
    (oget optionKey patches = None ↔
       okeys previous ⊆ okeys next ∧
       ∀ model v, oget model next = Some v → ∃ w, oget model previous = Some w ∧ pvalue_eqb w v = true).
Proof.
  intros H formKey optionKey Hin.
  assert (find (λ fo, bool_decide (fo.2 = optionKey)) PRICING_FORM_OPTION_KEYS = Some (formKey, optionKey)) as E.
  { unfold PRICING_FORM_OPTION_KEYS in Hin.
    repeat (apply elem_of_cons in Hin as [[= -> ->]|Hin]; [reflexivity|]). by apply elem_of_nil in Hin. }
  pose proof (diff_patches_spec PRICING_FORM_OPTION_KEYS before after [] patches) as Hs.
  assert (NoDup PRICING_FORM_OPTION_KEYS.*2) as Hnd by (apply (bool_decide_unpack _); reflexivity).
  pose proof (Hs Hnd (λ k _, eq_refl) H optionKey) as Hk. clear Hs Hnd.
  rewrite E in Hk. destruct Hk as (previous & next & Hp & Hx & Hk). exists previous, next.
  pose proof (parse_price_map_NoDup _ _ Hp). pose proof (parse_price_map_NoDup _ _ Hx).
  split_and!; [done..| |].
  - intros model. rewrite Hk. by apply apply_diff_patch.
  - rewrite Hk. clear Hk H E. split.
    + intros Hnone. destruct (diff_patch_parts previous next) as [Es Ed]. rewrite Hnone in Es, Ed. cbn in Es, Ed.
      split.
      * intros model Hm. apply elem_of_okeys in Hm. pose proof (has_diff_deleted model previous next) as Hh.
        rewrite <- Ed in Hh. unfold ohas in Hh. rewrite (bool_decide_eq_true_2 (is_Some (oget model previous))) in Hh by done.
        apply elem_of_okeys. change (has model []) with false in Hh. symmetry in Hh. cbn in Hh.
        apply negb_false_iff in Hh. by bool_to_prop.
      * intros model v Hv. destruct (oget_diff_set model previous next) as [_ Eg]; [done|].
        rewrite <- Es, Hv in Eg. cbn in Eg. destruct (oget model previous) as [w|]; [|done].
        exists w. split; [done|]. by destruct (pvalue_eqb w v).
    + intros [Hsub Hsame]. unfold diff_patch.
      assert (diff_deleted previous next = []) as ->.
      { apply elem_of_nil_inv. intros m Hm. apply has_spec in Hm. rewrite has_diff_deleted in Hm. bool_to_prop.
        unfold ohas in *. bool_to_prop. apply H2. apply elem_of_okeys, Hsub. by apply elem_of_okeys. }
      assert (diff_set previous next = []) as ->; [|done].
      destruct (diff_set previous next) as [|[m v] l] eqn:Ed; [done|]. exfalso.
      destruct (oget_diff_set m previous next) as [_ Eg]; [done|]. rewrite Ed in Eg. cbn in Eg.
      rewrite bool_decide_eq_true_2 in Eg by done. destruct (oget m next) as [v'|] eqn:Em; [|done].
      destruct (Hsame _ _ Em) as (w & Ew & Hw). by rewrite Ew, Hw in Eg.
Qed.

Definition sample_before : list (jstring * jstring) :=
  [("ModelPrice", "{" ++ quote "a" ++ ":1," ++ quote "b" ++ ":2}")].
Definition sample_after : list (jstring * jstring) :=
  [("ModelPrice", "{" ++ quote "b" ++ ":3}")].
Definition sample_patches : list (jstring * PricingSyncPatch) :=
  [("ModelPrice", {| patch_set := Some [("b", PNum (of_Z 3))]; patch_delete := Some ["a"] |})].

Lemma diff_patches_apply_witness :
  ∃ previous next, parse_price_map (oget "ModelPrice" sample_before) = Some previous ∧
    parse_price_map (oget "ModelPrice" sample_after) = Some next ∧
    (∀ model, same_value (oget model (apply_patch previous (oget "ModelPrice" sample_patches))) (oget model next)) ∧
    (oget "ModelPrice" sample_patches = None ↔
       okeys previous ⊆ okeys next ∧
       ∀ model v, oget model next = Some v → ∃ w, oget model previous = Some w ∧ pvalue_eqb w v = true).
Proof.
  refine (diff_patches_apply sample_before sample_after sample_patches _ "ModelPrice" "ModelPrice" _);
    [vm_compute; reflexivity|constructor].
Defined.

(** ** Patches of the selected values *)

Definition set_at (key : jstring) (patches : list (jstring * PricingSyncPatch)) : list (jstring * pvalue) :=
  nullish (patch_set (patch_at key patches)) [].

Definition deletes_at (key : jstring) (patches : list (jstring * PricingSyncPatch)) : list jstring :=
  nullish (patch_delete (patch_at key patches)) [].

Lemma patch_at_obj_set k k' p ps :
  patch_at k (obj_set k' p ps) = if bool_decide (k = k') then p else patch_at k ps.
Proof. unfold patch_at. rewrite oget_obj_set. by case_bool_decide. Qed.

Lemma deleteModel_at ps ok m k :
  set_at k (deleteModel ps ok m) = set_at k ps ∧
  deletes_at k (deleteModel ps ok m) = if bool_decide (k = ok) then deletes_at k ps ++ [m] else deletes_at k ps.
Proof.
  unfold set_at, deletes_at, deleteModel. rewrite patch_at_obj_set.
  destruct (decide (k = ok)) as [->|Hne].
  - by rewrite !bool_decide_eq_true_2.
  - by rewrite !bool_decide_eq_false_2.
Qed.

Lemma setModel_at ps ok m v k :
  deletes_at k (setModel ps ok m v) = deletes_at k ps ∧
  set_at k (setModel ps ok m v) = if bool_decide (k = ok) then obj_set m v (set_at k ps) else set_at k ps.
Proof.
  unfold set_at, deletes_at, setModel. rewrite patch_at_obj_set.
  destruct (decide (k = ok)) as [->|Hne].
  - by rewrite !bool_decide_eq_true_2.
  - by rewrite !bool_decide_eq_false_2.
Qed.

Lemma delete_fold_at ks ps m k :
  set_at k (fold_left (λ ps key, deleteModel ps key m) ks ps) = set_at k ps ∧
  ∀ m', m' ∈ deletes_at k (fold_left (λ ps key, deleteModel ps key m) ks ps) ↔
        m' ∈ deletes_at k ps ∨ m' = m ∧ k ∈ ks.
Proof.
  revert ps. induction ks as [|key ks IH]; intros ps.
  - split; [done|]. intros m'. rewrite elem_of_nil. naive_solver.
  - cbn [fold_left]. destruct (IH (deleteModel ps key m)) as [-> Hd].
    destruct (deleteModel_at ps key m k) as [-> Ed]. split; [done|].
    intros m'. rewrite Hd, Ed, elem_of_cons. case_bool_decide as Hk.
    + rewrite elem_of_app, list_elem_of_singleton. naive_solver.
    + naive_solver.
Qed.

Section patch_specs.
Variable toUpperCase : jstring → jstring.

(** The entries a selection sets, by option key. *)
Definition selected_entries (ratios : list (jstring * pvalue)) : list (jstring * pvalue) :=
  map (λ rv, (optionKeyBySyncField toUpperCase rv.1, sync_value rv.1 rv.2)) ratios.

Definition set_field (m : jstring) (ps : list (jstring * PricingSyncPatch)) (rv : jstring * pvalue) :=
  setModel ps (optionKeyBySyncField toUpperCase rv.1) m (sync_value rv.1 rv.2).

Lemma set_fold_at ratios ps m k :
  deletes_at k (fold_left (set_field m) ratios ps) = deletes_at k ps ∧
  ∀ m', oget m' (set_at k (fold_left (set_field m) ratios ps)) =
        match (if bool_decide (m' = m) then oget k (reverse (selected_entries ratios)) else None) with
        | Some v => Some v
        | None => oget m' (set_at k ps)
        end.
Proof.
  revert ps. induction ratios as [|[r v] ratios IH]; intros ps.
  - split; [done|]. intros m'. by case_bool_decide.
  - cbn [fold_left]. destruct (IH (set_field m ps (r, v))) as [-> Hs].
    destruct (setModel_at ps (optionKeyBySyncField toUpperCase r) m (sync_value r v) k) as [Ed Es].
    unfold set_field in *. cbn [fst snd] in *. split; [done|]. intros m'. rewrite Hs, Es.
    cbn [selected_entries map]. rewrite reverse_cons, oget_app. cbn [oget fst snd].
    destruct (decide (m' = m)) as [->|Hne].
    + rewrite (bool_decide_eq_true_2 (m = m)) by done.
      change (map _ ratios) with (selected_entries ratios).
      destruct (oget k (reverse (selected_entries ratios))); [done|].
      destruct (bool_decide (k = _)); [|done]. by rewrite oget_obj_set, bool_decide_eq_true_2.
    + rewrite (bool_decide_eq_false_2 (m' = m)) by done.
      destruct (bool_decide (k = _)); [|done]. by rewrite oget_obj_set, bool_decide_eq_false_2.
Qed.

Lemma patch_model_eq ps m ratios :
  patch_model toUpperCase ps (m, ratios) =
  fold_left (set_field m) ratios (fold_left (λ ps key, deleteModel ps key m) (deleted_keys (okeys ratios)) ps).
Proof.
  unfold patch_model. generalize (fold_left (λ ps key, deleteModel ps key m) (deleted_keys (okeys ratios)) ps).
  induction ratios as [|[r v] ratios IH]; intros ps'; [done|]. cbn [fold_left]. apply IH.
Qed.

Lemma build_fold_at resolutions ps k :
  NoDup (okeys resolutions) →
  (∀ m, m ∈ deletes_at k (fold_left (patch_model toUpperCase) resolutions ps) ↔
        m ∈ deletes_at k ps ∨ ∃ ratios, oget m resolutions = Some ratios ∧ k ∈ deleted_keys (okeys ratios)) ∧
  (∀ m, oget m (set_at k (fold_left (patch_model toUpperCase) resolutions ps)) =
        match ratios ← oget m resolutions; oget k (reverse (selected_entries ratios)) with
        | Some v => Some v
        | None => oget m (set_at k ps)
        end).
Proof.
  revert ps. induction resolutions as [|[m0 ratios0] resolutions IH]; intros ps Hn.
  - split; [|done]. intros m. cbn. naive_solver.
  - apply NoDup_cons in Hn as [Hm0 Hn]. cbn [fold_left].
    destruct (IH (patch_model toUpperCase ps (m0, ratios0)) Hn) as [Hd Hs].
    assert (oget m0 resolutions = None) as Hnone by by apply oget_None.
    rewrite patch_model_eq in Hd, Hs.
    destruct (delete_fold_at (deleted_keys (okeys ratios0)) ps m0 k) as [Es1 Ed1].
    destruct (set_fold_at ratios0 (fold_left (λ ps key, deleteModel ps key m0) (deleted_keys (okeys ratios0)) ps) m0 k)
      as [Ed2 Es2]. rewrite patch_model_eq.
    split; intros m; [rewrite Hd, Ed2, Ed1|rewrite Hs, Es2, Es1]; cbn [oget].
    + destruct (decide (m = m0)) as [->|Hne].
      * rewrite bool_decide_eq_true_2 by done. rewrite Hnone. naive_solver.
      * rewrite bool_decide_eq_false_2 by done. naive_solver.
    + destruct (decide (m = m0)) as [->|Hne].
      * rewrite !bool_decide_eq_true_2 by done. rewrite Hnone. done.
      * by rewrite !bool_decide_eq_false_2.
Qed.
End patch_specs.

(** The patches of a selection, by option key and model: the deletions are
    those the kind of the selection calls for, and a selected value is set under
    the option of its field (the last one, if several fields share an option). *)
Lemma sync_patches_spec toUpperCase resolutions :
  NoDup (okeys resolutions) →
  let patches := buildPricingSyncPatches toUpperCase resolutions in
  ∀ key model,
    (model ∈ deletes_at key patches ↔
       ∃ ratios, oget model resolutions = Some ratios ∧ key ∈ deleted_keys (okeys ratios)) ∧
    oget model (set_at key patches) =
      (ratios ← oget model resolutions; oget key (reverse (selected_entries toUpperCase ratios))).
Proof.
  intros Hn patches key model. destruct (build_fold_at toUpperCase resolutions [] key Hn) as [Hd Hs].
  unfold patches, buildPricingSyncPatches. rewrite Hd, Hs. split.
  - change (deletes_at key []) with (@nil jstring). rewrite elem_of_nil. naive_solver.
  - by destruct (_ ≫= _).
Qed.

(** The fields and the option keys of the three ways to price a model. *)
Definition price_kinds : list (list jstring * list jstring) :=
  [(["model_price"], ["ModelPrice"]);
   (RATIO_SYNC_FIELDS, RATIO_OPTION_KEYS);
   (["billing_mode"; "billing_expr"], TIERED_OPTION_KEYS)].

Lemma deleted_keys_kind fields keys selected :
  (fields, keys) ∈ price_kinds → selected ≠ [] → selected ⊆ fields →
  ∀ key, key ∈ "ModelPrice" :: RATIO_OPTION_KEYS ++ TIERED_OPTION_KEYS →
         (key ∈ deleted_keys selected ↔ key ∉ keys).
Proof.
  intros Hk Hne Hsub key Hkey. unfold deleted_keys.
  destruct selected as [|f sel]; [done|]. assert (Hf : f ∈ fields) by (apply Hsub; constructor).
  assert (∀ g, g ∉ fields → has g (f :: sel) = false) as Hno.
  { intros g Hg. apply has_spec_false. intros Hin. by apply Hg, Hsub. }
  assert (∀ L K : list jstring,
    bool_decide (Forall (λ k, k ∈ L ↔ k ∉ K) ("ModelPrice" :: RATIO_OPTION_KEYS ++ TIERED_OPTION_KEYS)) = true →
    key ∈ L ↔ key ∉ K) as Hall.
  { intros L K HL. bool_to_prop. rewrite Forall_forall in HL. by apply HL. }
  unfold price_kinds in Hk.
  apply elem_of_cons in Hk as [[= -> ->]|Hk].
  { assert (has "model_price" (f :: sel) = true) as ->; [|by apply Hall].
    apply has_spec. apply list_elem_of_singleton in Hf as ->. constructor. }
  apply elem_of_cons in Hk as [[= -> ->]|Hk].
  - rewrite Hno by (apply (bool_decide_unpack _); reflexivity).
    assert (existsb (λ field, has field RATIO_SYNC_FIELDS) (f :: sel) = true) as ->; [|by apply Hall].
    cbn. apply has_spec in Hf. by rewrite Hf.
  - apply list_elem_of_singleton in Hk as [= -> ->].
    rewrite Hno by (apply (bool_decide_unpack _); reflexivity).
    assert (existsb (λ field, has field RATIO_SYNC_FIELDS) (f :: sel) = false) as ->; [|by apply Hall].
    apply not_true_iff_false. intros [g [Hg Hr]]%existsb_exists. apply has_spec in Hr.
    apply list_elem_of_In, Hsub in Hg. 
    assert (Forall (λ g, g ∉ ["billing_mode"; "billing_expr"]) RATIO_SYNC_FIELDS) as HF
      by (apply (bool_decide_unpack _); vm_compute; exact I).
    rewrite Forall_forall in HF. by apply (HF g).
Qed.

Section one_mode.
Variable toUpperCase : jstring → jstring.
(** The ASCII letters. *)
Hypothesis toUpperCase_ascii : ∀ c, (97 ≤ c ≤ 122)%N → toUpperCase [c] = [(c - 32)%N].

Lemma option_keys_kind fields keys :
  (fields, keys) ∈ price_kinds → map (optionKeyBySyncField toUpperCase) fields = keys.
Proof using toUpperCase_ascii.
  intros Hk. unfold price_kinds in Hk.
  repeat (apply elem_of_cons in Hk as [[= -> ->]|Hk];
    [unfold optionKeyBySyncField; cbn [map RATIO_SYNC_FIELDS]; vm_compute; rewrite ?toUpperCase_ascii by lia; reflexivity|]).
  by apply elem_of_nil in Hk.
Qed.

(** After a selection of one kind (a fixed price, ratios or an expression)
    the model is priced in that way only: the options of the other kinds lose
    the model, and no option of the selected kind does. *)
Lemma sync_patches_one_kind resolutions model ratios fields keys :
  NoDup (okeys resolutions) → oget model resolutions = Some ratios →
  (fields, keys) ∈ price_kinds → okeys ratios ≠ [] → okeys ratios ⊆ fields →
  let patches := buildPricingSyncPatches toUpperCase resolutions in
  ∀ key, key ∈ "ModelPrice" :: RATIO_OPTION_KEYS ++ TIERED_OPTION_KEYS →
    if has key keys then model ∉ deletes_at key patches
    else model ∈ deletes_at key patches ∧ oget model (set_at key patches) = None.
Proof using toUpperCase_ascii.
  intros Hn Hm Hk Hne Hsub patches key Hkey.
  destruct (build_fold_at toUpperCase resolutions [] key Hn) as [Hd Hs].
  pose proof (deleted_keys_kind fields keys (okeys ratios) Hk Hne Hsub key Hkey) as Hdel.
  unfold patches, buildPricingSyncPatches. specialize (Hd model). specialize (Hs model). rewrite Hm in Hd, Hs.
  change (deletes_at key []) with (@nil jstring) in Hd. rewrite elem_of_nil in Hd.
  destruct (has key keys) eqn:E; [apply has_spec in E|apply has_spec_false in E].
  - rewrite Hd. naive_solver.
  - split; [rewrite Hd; naive_solver|]. rewrite Hs. cbn.
    assert (oget key (reverse (selected_entries toUpperCase ratios)) = None) as ->; [|done].
    apply oget_None. unfold okeys. rewrite fmap_reverse, elem_of_reverse. intros Hin.
    unfold selected_entries in Hin. rewrite <- list_fmap_compose in Hin.
    apply list_elem_of_fmap in Hin as ([f v] & -> & Hin). cbn in E. apply E.
    rewrite <- (option_keys_kind fields keys Hk). apply list_elem_of_fmap. exists f. split; [done|].
    apply Hsub. apply list_elem_of_fmap. by exists (f, v).
Qed.
End one_mode.

(** A case mapping with the ASCII letters. *)
Definition ascii_upper (s : jstring) : jstring :=
  map (λ c, if ((97 <=? c) && (c <=? 122))%N then (c - 32)%N else c) s.

Lemma ascii_upper_spec c : (97 ≤ c ≤ 122)%N → ascii_upper [c] = [(c - 32)%N].
Proof.
  intros [H1 H2]. unfold ascii_upper. cbn. apply N.leb_le in H1 as ->. by apply N.leb_le in H2 as ->.
Qed.

Definition sample_resolutions : ResolutionsMap :=
  [("gpt", [("model_ratio", PStr "2.5"); ("completion_ratio", PNum (of_Z 4))]); ("dall", [("model_price", PStr "0.04")])].

Lemma sync_patches_spec_witness :
  ("gpt" : jstring) ∈ deletes_at "ModelPrice" (buildPricingSyncPatches ascii_upper sample_resolutions) ↔
  ∃ ratios, oget "gpt" sample_resolutions = Some ratios ∧ ("ModelPrice" : jstring) ∈ deleted_keys (okeys ratios).
Proof.
  apply (sync_patches_spec ascii_upper sample_resolutions).
  apply (bool_decide_unpack _). vm_compute. exact I.
Defined.

Lemma sync_patches_one_kind_witness :
  if has ("ModelPrice" : jstring) RATIO_OPTION_KEYS
  then ("gpt" : jstring) ∉ deletes_at "ModelPrice" (buildPricingSyncPatches ascii_upper sample_resolutions)
  else ("gpt" : jstring) ∈ deletes_at "ModelPrice" (buildPricingSyncPatches ascii_upper sample_resolutions) ∧
       oget "gpt" (set_at "ModelPrice" (buildPricingSyncPatches ascii_upper sample_resolutions)) = None.
Proof.
  apply (sync_patches_one_kind ascii_upper ascii_upper_spec sample_resolutions "gpt"
    [("model_ratio", PStr "2.5"); ("completion_ratio", PNum (of_Z 4))] RATIO_SYNC_FIELDS RATIO_OPTION_KEYS).
  - apply (bool_decide_unpack _). vm_compute. exact I.
  - vm_compute. reflexivity.
  - right. left.
  - discriminate.
  - apply (bool_decide_unpack _). vm_compute. exact I.
  - left.
Defined.

(** The models in manual mode are set apart, and every difference is kept in
    exactly one of the two groups. *)
Lemma split_differences_partition differences states :
  NoDup (okeys differences) →
  let groups := splitPricingSyncDifferences differences states in
  ∀ model,
    if bool_decide (mode <$> oget model states = Some mode_manual)
    then oget model groups.2 = oget model differences ∧ oget model groups.1 = None
    else oget model groups.1 = oget model differences ∧ oget model groups.2 = None.
Proof.
  intros Hn. unfold splitPricingSyncDifferences.
  set (step := λ '(automatic, manual) '(modelName, difference), _).
  assert (∀ l a m, NoDup (okeys l) → (∀ k, k ∈ okeys l → oget k a = None ∧ oget k m = None) →
    let '(a', m') := fold_left step l (a, m) in
    ∀ model, if bool_decide (mode <$> oget model states = Some mode_manual)
      then oget model m' = match oget model l with Some d => Some d | None => oget model m end ∧ oget model a' = oget model a
      else oget model a' = match oget model l with Some d => Some d | None => oget model a end ∧ oget model m' = oget model m)
    as H.
  { induction l as [|[k d] l IH]; intros a m Hl Hf; [intros model; by case_bool_decide|].
    apply NoDup_cons in Hl as [Hk Hl]. cbn [fold_left].
    assert (step (a, m) (k, d) = if bool_decide (mode <$> oget k states = Some mode_manual)
            then (a, obj_set k d m) else (obj_set k d a, m)) as -> by done.
    assert (oget k l = None) as Hkn by by apply oget_None.
    destruct (bool_decide (mode <$> oget k states = Some mode_manual)) eqn:Ek;
      [specialize (IH a (obj_set k d m) Hl)|specialize (IH (obj_set k d a) m Hl)];
      (match type of IH with ?P → _ => assert P as HP end;
       [intros j Hj; destruct (Hf j) as [? ?]; [by constructor|]; rewrite oget_obj_set, bool_decide_eq_false_2;
          [done|by intros ->]|]);
      specialize (IH HP); destruct (fold_left step l _) as [a' m']; intros model; specialize (IH model);
      cbn [oget]; rewrite oget_obj_set in IH;
      (destruct (decide (model = k)) as [->|Hne];
       [rewrite (bool_decide_eq_true_2 (k = k)) in * by done; rewrite Hkn in IH; rewrite Ek in *;
        destruct (Hf k) as [H1 H2]; [constructor|]; rewrite ?H1, ?H2 in *; done
       |rewrite (bool_decide_eq_false_2 (model = k)) in * by done; done]). }
  specialize (H differences [] [] Hn (λ _ _, conj eq_refl eq_refl)).
  destruct (fold_left step differences ([], [])) as [a m]. intros model. specialize (H model). cbn.
  case_bool_decide; destruct H as [-> ->]; by destruct (oget model differences).
Qed.

Definition sample_states : list (jstring * PricingSyncModelState) :=
  [("b", {| model_name := "b"; mode := mode_manual; ms_channel_id := 0; status := status_ready;
            conflict_details := None; last_applied_at := None |})].

Lemma split_differences_partition_witness :
  let groups := splitPricingSyncDifferences [("a", []); ("b", [])] sample_states in
  if bool_decide (mode <$> oget "b" sample_states = Some mode_manual)
  then oget "b" groups.2 = oget "b" [("a", []); ("b", [])] ∧ oget "b" groups.1 = None
  else oget "b" groups.1 = oget "b" [("a", []); ("b", [])] ∧ oget "b" groups.2 = None.
Proof.
  apply (split_differences_partition [("a", []); ("b", [])] sample_states).
  apply (bool_decide_unpack _). vm_compute. exact I.
Defined.

(** The fields shown without a filter are the fields of the comparison, each
    once, those of the known order first and in that order. *)
Lemma ordered_ratio_types_perm ratioTypes filter_ :
  NoDup (okeys ratioTypes) → default [] filter_ = [] ∨ filter_ = Some "__all__" →
  let shown := getOrderedRatioTypes ratioTypes filter_ in
  shown ≡ₚ okeys ratioTypes ∧
  ∃ known others, shown = known ++ others ∧ known `sublist_of` SYNC_FIELD_ORDER ∧
    ∀ f, f ∈ others → f ∉ SYNC_FIELD_ORDER.
Proof.
  intros Hn Hf shown. unfold shown, getOrderedRatioTypes. set (keys := okeys ratioTypes) in *.
  assert (∀ X, (match filter_ with None | Some [] => X | Some f => if bool_decide (f = "__all__") then X
     else filter (λ field, field = f) X end) = X) as ->.
  { intros X. destruct Hf as [Hf| ->]; [|done]. by destruct filter_ as [[|? ?]|]. }
  split.
  - apply NoDup_Permutation.
    + apply NoDup_app. split_and!.
      * apply NoDup_filter. apply (bool_decide_unpack _). vm_compute. exact I.
      * intros f. rewrite !list_elem_of_filter. intros [_ Hin] [Ho _]. by apply has_spec_false in Ho.
      * by apply NoDup_filter.
    + done.
    + intros f. rewrite elem_of_app, !list_elem_of_filter, has_spec, has_spec_false.
      destruct (decide (f ∈ SYNC_FIELD_ORDER)); naive_solver.
  - exists (filter (λ f, has f keys = true) SYNC_FIELD_ORDER), (filter (λ f, has f SYNC_FIELD_ORDER = false) keys).
    split_and!; [done|apply sublist_filter|]. intros f. rewrite list_elem_of_filter, has_spec_false. naive_solver.
Qed.

Lemma ordered_ratio_types_perm_witness :
  let d := {| current := None; upstreams := []; confidence := [] |} in
  getOrderedRatioTypes [("billing_expr", d); ("x", d); ("model_ratio", d)] None
  ≡ₚ okeys [("billing_expr", d); ("x", d); ("model_ratio", d)].
Proof.
  apply ordered_ratio_types_perm; [|left; reflexivity]. apply (bool_decide_unpack _). vm_compute. exact I.
Defined.
