(* ===== verification/PricingEditor.v ===== *)
(** * PricingEditor: the price editor of one model

    [features/system-settings/models/pricing-format.ts], [model-pricing-core.ts]
    and the state of [model-pricing-sheet.tsx].

    Prices are edited as texts; what is saved are ratios derived from them.  The
    six dependent prices ("lanes") and their ratios are kept in records indexed
    by [LaneKey], [ratioFieldByLane] naming the field of the form in the code. *)
From Stdlib Require Import Floats.SpecFloat.
From S2P Require Import Prelude JsString JsNumber JsValue JsRegex BillingExpr.

(** ** Formatting of prices ([pricing-format.ts]) *)

Definition DISPLAY_DECIMALS : nat := 12.
Definition SNAP_DECIMALS : nat := 8.
Definition SNAP_EPSILON : num := Number_of_string "1e-12".

(** [Number.EPSILON] *)
Definition EPSILON : num := S754_finite false 4503599627370496 (-104).

(** The values that stand for no value: the empty string, null, undefined, false. *)
Definition hasValue (v : jval) : bool :=
  match v with
  | JStr [] | JNull | JUndefined | JBool false => false
  | _ => true
  end.

(** The number of a value, [None] for [null].  The test [value !== 0] of the
    second copy of this function changes nothing: a number is a value. *)
Definition toNumberOrNull (v : jval) : option num :=
  if hasValue v then
    let n := to_number v in if is_finite n then Some n else None
  else None.

Definition roundToDecimals (value : num) (decimals : nat) : num :=
  let factor := of_Z (10 ^ Z.of_nat decimals) in
  ndiv (nround (nmul value factor)) factor.

(** The loop over the decimals from [decimals] on. *)
Fixpoint snap_from (fuel decimals : nat) (tolerance value : num) : num :=
  match fuel with
  | O => value
  | S fuel =>
    let rounded := roundToDecimals value decimals in
    if nle (nabs (nsub value rounded)) tolerance then rounded
    else snap_from fuel (S decimals) tolerance value
  end.

Definition snap_tolerance (value : num) : num :=
  nmax SNAP_EPSILON (nmul (nmul (nabs value) EPSILON) (of_Z 8)).

Definition snapFloatDrift (value : num) : num :=
  snap_from (S SNAP_DECIMALS) 0 (snap_tolerance value) value.

Definition formatPricingNumber (value : jval) : jstring :=
  match toNumberOrNull value with
  | None => []
  | Some n => Number_to_string (parseFloat (to_fixed DISPLAY_DECIMALS (snapFloatDrift n)))
  end.

(** ** Lanes ([model-pricing-core.ts]) *)

Inductive PricingMode := per_token | per_request | tiered_expr.
#[export] Instance PricingMode_eq_dec : EqDecision PricingMode.
Proof. solve_decision. Defined.

Inductive LaneKey := lane_completion | lane_cache | lane_createCache | lane_image
  | lane_audioInput | lane_audioOutput.
#[export] Instance LaneKey_eq_dec : EqDecision LaneKey.
Proof. solve_decision. Defined.

(** [Record<LaneKey, A>] *)
Record Lanes (A : Type) := mkLanes {
  completion : A; cache : A; createCache : A; image : A; audioInput : A; audioOutput : A
}.
Arguments mkLanes {A} _ _ _ _ _ _.
Arguments completion {A} _.
Arguments cache {A} _.
Arguments createCache {A} _.
Arguments image {A} _.
Arguments audioInput {A} _.
Arguments audioOutput {A} _.

Definition lane_get {A} (k : LaneKey) (l : Lanes A) : A :=
  match k with
  | lane_completion => completion l
  | lane_cache => cache l
  | lane_createCache => createCache l
  | lane_image => image l
  | lane_audioInput => audioInput l
  | lane_audioOutput => audioOutput l
  end.

(** The record of the values of a function. *)
Definition lanes_of {A} (f : LaneKey → A) : Lanes A :=
  mkLanes (f lane_completion) (f lane_cache) (f lane_createCache) (f lane_image)
    (f lane_audioInput) (f lane_audioOutput).

(** [{...l, [k]: v}] *)
Definition lane_set {A} (k : LaneKey) (v : A) (l : Lanes A) : Lanes A :=
  lanes_of (λ j, if decide (j = k) then v else lane_get j l).

(** [laneConfigs], by key *)
Definition LANE_KEYS : list LaneKey :=
  [lane_completion; lane_cache; lane_createCache; lane_image; lane_audioInput; lane_audioOutput].

Definition ratioFieldByLane (k : LaneKey) : jstring :=
  match k with
  | lane_completion => "completionRatio"
  | lane_cache => "cacheRatio"
  | lane_createCache => "createCacheRatio"
  | lane_image => "imageRatio"
  | lane_audioInput => "audioRatio"
  | lane_audioOutput => "audioCompletionRatio"
  end.

Definition EMPTY_LANE_PRICES : Lanes jstring := lanes_of (λ _, []).
Definition EMPTY_LANE_ENABLED : Lanes bool := lanes_of (λ _, false).

(** The prices of a model; an absent property is [None]. *)
Record ModelRatioData := {
  d_name : jstring;
  d_price : option jstring;
  d_ratio : option jstring;
  d_ratios : Lanes (option jstring);
  d_billingMode : option PricingMode;
  d_billingExpr : option jstring;
  d_requestRuleExpr : option jstring;
}.

Definition numericDraftRegex : regex :=
  RSeqs [RBol;
         ROpt (RAlt (RSeq RDigits (ROpt (RSeq (RLit ".") RDigits0))) (RSeq (RLit ".") RDigits0));
         REol].

(** A property as a value. *)
Definition field_val (v : option jstring) : jval :=
  match v with Some s => JStr s | None => JUndefined end.

Definition ratioToBasePrice (ratio : jval) : jstring :=
  match toNumberOrNull ratio with
  | None => []
  | Some n => formatPricingNumber (JNum (nmul n (of_Z 2)))
  end.

Definition deriveLanePrice (ratio denominator : jval) (fallback : jstring) : jstring :=
  match toNumberOrNull ratio, toNumberOrNull denominator with
  | Some r, Some d => formatPricingNumber (JNum (nmul r d))
  | _, _ => fallback
  end.

Record LaneState := {
  ls_promptPrice : jstring;
  ls_prices : Lanes jstring;
  ls_enabled : Lanes bool;
}.

Definition createInitialLaneState (data : option ModelRatioData) : LaneState :=
  match data with
  | None => {| ls_promptPrice := []; ls_prices := EMPTY_LANE_PRICES; ls_enabled := EMPTY_LANE_ENABLED |}
  | Some data =>
    let promptPrice := ratioToBasePrice (field_val (d_ratio data)) in
    let price k := deriveLanePrice (field_val (lane_get k (d_ratios data))) (JStr promptPrice) [] in
    let audioInputPrice := price lane_audioInput in
    {| ls_promptPrice := promptPrice;
       ls_prices := lane_set lane_audioOutput
         (deriveLanePrice (field_val (audioOutput (d_ratios data))) (JStr audioInputPrice) [])
         (lanes_of price);
       ls_enabled := lanes_of (λ k, hasValue (field_val (lane_get k (d_ratios data)))) |}
  end.

(** ** The form ([model-pricing-sheet.tsx]) *)

Record ModelPricingFormValues := {
  f_name : jstring;
  f_price : jstring;
  f_ratio : jstring;
  f_ratios : Lanes jstring;
}.

Record EditorState := {
  pricingMode : PricingMode;
  promptPrice : jstring;
  lanePrices : Lanes jstring;
  laneEnabled : Lanes bool;
  billingExpr : jstring;
  requestRuleExpr : jstring;
  form : ModelPricingFormValues;
}.

(** The effect that follows a change of the edited model. *)
Definition load (editData : option ModelRatioData) : EditorState :=
  let next := createInitialLaneState editData in
  let get f := match editData with Some d => default [] (f d) | None => [] end in
  {| pricingMode :=
       match editData with
       | Some d => if decide (d_billingMode d = Some tiered_expr) then tiered_expr
                   else if otruthy (d_price d) then per_request else per_token
       | None => per_token
       end;
     promptPrice := ls_promptPrice next;
     lanePrices := ls_prices next;
     laneEnabled := ls_enabled next;
     billingExpr := get d_billingExpr;
     requestRuleExpr := get d_requestRuleExpr;
     form := {| f_name := match editData with Some d => d_name d | None => [] end;
                f_price := get d_price;
                f_ratio := get d_ratio;
                f_ratios := lanes_of (λ k, get (λ d, lane_get k (d_ratios d))) |} |}.

Definition deriveLaneRatio (lane : LaneKey) (price nextPromptPrice : jstring)
  (nextLanePrices : Lanes jstring) : jstring :=
  match toNumberOrNull (JStr price) with
  | None => []
  | Some priceNumber =>
    let base := if decide (lane = lane_audioOutput) then audioInput nextLanePrices else nextPromptPrice in
    match toNumberOrNull (JStr base) with
    | None => []
    | Some b => if neqb b zero then [] else formatPricingNumber (JNum (ndiv priceNumber b))
    end
  end.

Definition base_ratio (nextPromptPrice : jstring) : jstring :=
  match toNumberOrNull (JStr nextPromptPrice) with
  | Some inputPrice => formatPricingNumber (JNum (ndiv inputPrice (of_Z 2)))
  | None => []
  end.

Definition with_ratios (f : Lanes jstring → Lanes jstring) (v : ModelPricingFormValues) : ModelPricingFormValues :=
  {| f_name := f_name v; f_price := f_price v; f_ratio := f_ratio v; f_ratios := f (f_ratios v) |}.

(** [setFormValue(ratioFieldByLane[lane], value)] *)
Definition set_ratio (lane : LaneKey) (value : jstring) : ModelPricingFormValues → ModelPricingFormValues :=
  with_ratios (lane_set lane value).

Definition syncLaneRatios (nextPromptPrice : jstring) (nextLanePrices : Lanes jstring)
  (nextLaneEnabled : Lanes bool) (v : ModelPricingFormValues) : ModelPricingFormValues :=
  let v := {| f_name := f_name v; f_price := f_price v; f_ratio := base_ratio nextPromptPrice;
              f_ratios := f_ratios v |} in
  fold_left (λ v key,
      set_ratio key
        (if negb (lane_get key nextLaneEnabled) then []
         else deriveLaneRatio key (lane_get key nextLanePrices) nextPromptPrice nextLanePrices) v)
    LANE_KEYS v.

Definition handlePromptPriceChange (value : jstring) (s : EditorState) : EditorState :=
  if negb (test numericDraftRegex value) then s
  else {| pricingMode := pricingMode s; promptPrice := value; lanePrices := lanePrices s;
          laneEnabled := laneEnabled s; billingExpr := billingExpr s; requestRuleExpr := requestRuleExpr s;
          form := syncLaneRatios value (lanePrices s) (laneEnabled s) (form s) |}.

Definition handleLanePriceChange (lane : LaneKey) (value : jstring) (s : EditorState) : EditorState :=
  if negb (test numericDraftRegex value) then s
  else
    let nextLanePrices := lane_set lane value (lanePrices s) in
    let v := if lane_get lane (laneEnabled s)
             then set_ratio lane (deriveLaneRatio lane value (promptPrice s) nextLanePrices) (form s)
             else form s in
    let v := if bool_decide (lane = lane_audioInput) && audioOutput (laneEnabled s)
             then set_ratio lane_audioOutput
                    (deriveLaneRatio lane_audioOutput (audioOutput nextLanePrices) (promptPrice s) nextLanePrices) v
             else v in
    {| pricingMode := pricingMode s; promptPrice := promptPrice s; lanePrices := nextLanePrices;
       laneEnabled := laneEnabled s; billingExpr := billingExpr s; requestRuleExpr := requestRuleExpr s;
       form := v |}.

Definition handleLaneToggle (lane : LaneKey) (checked : bool) (s : EditorState) : EditorState :=
  let nextEnabled := lane_set lane checked (laneEnabled s) in
  let '(nextEnabled, nextPrices, v) :=
    if checked then (nextEnabled, lanePrices s, form s)
    else
      let nextPrices := lane_set lane [] (lanePrices s) in
      let v := set_ratio lane [] (form s) in
      if decide (lane = lane_audioInput)
      then (lane_set lane_audioOutput false nextEnabled, lane_set lane_audioOutput [] nextPrices,
            set_ratio lane_audioOutput [] v)
      else (nextEnabled, nextPrices, v) in
  let v := if checked
           then set_ratio lane (deriveLaneRatio lane (lane_get lane nextPrices) (promptPrice s) nextPrices) v
           else v in
  {| pricingMode := pricingMode s; promptPrice := promptPrice s; lanePrices := nextPrices;
     laneEnabled := nextEnabled; billingExpr := billingExpr s; requestRuleExpr := requestRuleExpr s;
     form := v |}.

(** [tier("base", p * 0 + c * 0)] *)
Definition DEFAULT_BILLING_EXPR : jstring :=
  "tier(" ++ [34%N] ++ "base" ++ [34%N] ++ ", p * 0 + c * 0)".

Definition handleModeChange (nextMode : PricingMode) (s : EditorState) : EditorState :=
  {| pricingMode := nextMode; promptPrice := promptPrice s; lanePrices := lanePrices s;
     laneEnabled := laneEnabled s;
     billingExpr := if bool_decide (nextMode = tiered_expr) && negb (truthy (billingExpr s))
                    then DEFAULT_BILLING_EXPR else billingExpr s;
     requestRuleExpr := requestRuleExpr s; form := form s |}.

(** The field of the fixed price, and the field of the name. *)
Definition handleFixedPriceChange (value : jstring) (s : EditorState) : EditorState :=
  if negb (test numericDraftRegex value) then s
  else {| pricingMode := pricingMode s; promptPrice := promptPrice s; lanePrices := lanePrices s;
          laneEnabled := laneEnabled s; billingExpr := billingExpr s; requestRuleExpr := requestRuleExpr s;
          form := {| f_name := f_name (form s); f_price := value; f_ratio := f_ratio (form s);
                     f_ratios := f_ratios (form s) |} |}.

Definition handleNameChange (value : jstring) (s : EditorState) : EditorState :=
  {| pricingMode := pricingMode s; promptPrice := promptPrice s; lanePrices := lanePrices s;
     laneEnabled := laneEnabled s; billingExpr := billingExpr s; requestRuleExpr := requestRuleExpr s;
     form := {| f_name := value; f_price := f_price (form s); f_ratio := f_ratio (form s);
                f_ratios := f_ratios (form s) |} |}.

Definition setExpressions (expr rules : jstring) (s : EditorState) : EditorState :=
  {| pricingMode := pricingMode s; promptPrice := promptPrice s; lanePrices := lanePrices s;
     laneEnabled := laneEnabled s; billingExpr := expr; requestRuleExpr := rules; form := form s |}.

(** ** What the user does *)

Inductive EditorEvent :=
  | EvPrompt (value : jstring)
  | EvLanePrice (lane : LaneKey) (value : jstring)
  | EvLaneToggle (lane : LaneKey) (checked : bool)
  | EvMode (mode : PricingMode)
  | EvFixedPrice (value : jstring)
  | EvName (value : jstring)
  | EvExpressions (expr rules : jstring).

Definition editor_step (s : EditorState) (e : EditorEvent) : EditorState :=
  match e with
  | EvPrompt v => handlePromptPriceChange v s
  | EvLanePrice l v => handleLanePriceChange l v s
  | EvLaneToggle l c => handleLaneToggle l c s
  | EvMode m => handleModeChange m s
  | EvFixedPrice v => handleFixedPriceChange v s
  | EvName v => handleNameChange v s
  | EvExpressions x r => setExpressions x r s
  end.

Definition editor_run (s : EditorState) (es : list EditorEvent) : EditorState := fold_left editor_step es s.

(** ** Saving *)

(** A dependent price is given without an input price. *)
Definition input_price_missing (s : EditorState) : bool :=
  bool_decide (pricingMode s = per_token) &&
  bool_decide (toNumberOrNull (JStr (promptPrice s)) = None) &&
  existsb (λ k, lane_get k (laneEnabled s) && hasValue (JStr (lane_get k (lanePrices s)))) LANE_KEYS.

Definition audio_price_missing (s : EditorState) : bool :=
  bool_decide (pricingMode s = per_token) && audioOutput (laneEnabled s) &&
  negb (hasValue (JStr (audioInput (lanePrices s)))).

(** The field with the error, [None] when the values are valid. *)
Definition validatePricingValues (s : EditorState) : option jstring :=
  if input_price_missing s then Some "ratio"
  else if audio_price_missing s then Some "audioRatio"
  else None.

Definition buildSubmitData (s : EditorState) (values : ModelPricingFormValues) : ModelRatioData := {|
  d_name := trim (f_name values);
  d_price := Some (f_price values);
  d_ratio := Some (f_ratio values);
  d_ratios := lanes_of (λ k, Some (lane_get k (f_ratios values)));
  d_billingMode := Some (pricingMode s);
  d_billingExpr := if decide (pricingMode s = tiered_expr) then Some (billingExpr s) else None;
  d_requestRuleExpr := if decide (pricingMode s = tiered_expr) then Some (requestRuleExpr s) else None;
|}.

(** [null] is [None]; the schema of the form asks for a name. *)
Definition commitDraft (s : EditorState) : option ModelRatioData :=
  let isValid := truthy (f_name (form s)) in
  if negb isValid || bool_decide (is_Some (validatePricingValues s)) then None
  else Some (buildSubmitData s (form s)).

(** ** Warnings and preview *)

Section texts.
Variable t : jstring → jstring.

Definition has_price_conflict (editData : option ModelRatioData) : bool :=
  match editData with
  | Some d => otruthy (d_price d) &&
    (hasValue (field_val (d_ratio d)) || existsb (λ k, hasValue (field_val (lane_get k (d_ratios d)))) LANE_KEYS)
  | None => false
  end.

Definition warnings (editData : option ModelRatioData) (s : EditorState) : list jstring :=
  (if has_price_conflict editData then
     [t "This model has both fixed-price and token-price settings. Saving the current mode will rewrite the conflicting fields."]
   else []) ++
  (if input_price_missing s then [t "Input price is required before saving dependent prices."] else []) ++
  (if audio_price_missing s then [t "Audio output price requires an audio input price."] else []).

Record PreviewRow := { pr_key : jstring; pr_label : jstring; pr_value : jstring; pr_multiline : bool }.

Definition preview_row (k l v : jstring) : PreviewRow :=
  {| pr_key := k; pr_label := l; pr_value := v; pr_multiline := false |}.

Definition dollars (price : jstring) : jstring := if truthy price then "$" ++ price else t "Empty".

Definition lane_dollars (k : LaneKey) (lanePrices : Lanes jstring) (laneEnabled : Lanes bool) : jstring :=
  if lane_get k laneEnabled then dollars (lane_get k lanePrices) else t "Empty".

Definition buildPreviewRows (values : ModelPricingFormValues) (mode : PricingMode)
  (billingExpr requestRuleExpr promptPrice : jstring) (lanePrices : Lanes jstring)
  (laneEnabled : Lanes bool) : list PreviewRow :=
  match mode with
  | tiered_expr =>
    let effectiveExpr := combineBillingExpr billingExpr requestRuleExpr in
    [preview_row "mode" "BillingMode" "tiered_expr";
     {| pr_key := "expr"; pr_label := t "Expression"; pr_value := str_or effectiveExpr (t "Empty");
        pr_multiline := true |}]
  | per_request => [preview_row "price" "ModelPrice" (str_or (f_price values) (t "Empty"))]
  | per_token =>
    let lane k := lane_dollars k lanePrices laneEnabled in
    [preview_row "inputPrice" (t "Input price") (dollars promptPrice);
     preview_row "completion" (t "Completion price") (lane lane_completion);
     preview_row "cache" (t "Cache read price") (lane lane_cache);
     preview_row "createCache" (t "Cache write price") (lane lane_createCache);
     preview_row "image" (t "Image input price") (lane lane_image);
     preview_row "audio" (t "Audio input price") (lane lane_audioInput);
     preview_row "audioCompletion" (t "Audio output price") (lane lane_audioOutput)]
  end.
End texts.

(** ** Lemmas *)

Lemma lane_get_of {A} (f : LaneKey → A) k : lane_get k (lanes_of f) = f k.
Proof. by destruct k. Qed.

Lemma lane_get_set {A} k j (v : A) l : lane_get j (lane_set k v l) = if decide (j = k) then v else lane_get j l.
Proof. apply lane_get_of. Qed.

Lemma lane_get_set_eq {A} k (v : A) l : lane_get k (lane_set k v l) = v.
Proof. by rewrite lane_get_set, decide_True. Qed.

Lemma lane_get_set_ne {A} k j (v : A) l : j ≠ k → lane_get j (lane_set k v l) = lane_get j l.
Proof. intros. by rewrite lane_get_set, decide_False. Qed.

#[local] Hint Rewrite @lane_get_of @lane_get_set_eq : jslib.

Lemma elem_of_lane_keys k : k ∈ LANE_KEYS.
Proof. by apply (bool_decide_unpack _); destruct k; vm_compute. Qed.

(** The ratio a lane should have. *)
Definition lane_ratio (s : EditorState) (k : LaneKey) : jstring :=
  if lane_get k (laneEnabled s)
  then deriveLaneRatio k (lane_get k (lanePrices s)) (promptPrice s) (lanePrices s) else [].

(** The ratios of the form are those of the prices shown. *)
Definition synced (s : EditorState) : Prop :=
  f_ratio (form s) = base_ratio (promptPrice s) ∧
  ∀ k, lane_get k (f_ratios (form s)) = lane_ratio s k.

(** Only the price of the input audio matters to another lane. *)
Lemma deriveLaneRatio_other k price prompt prices1 prices2 :
  (k = lane_audioOutput → audioInput prices1 = audioInput prices2) →
  deriveLaneRatio k price prompt prices1 = deriveLaneRatio k price prompt prices2.
Proof. intros H. unfold deriveLaneRatio. destruct (decide (k = lane_audioOutput)); [by rewrite H|done]. Qed.

Lemma sync_fold f keys v k :
  lane_get k (f_ratios (fold_left (λ v key, set_ratio key (f key) v) keys v))
  = if decide (k ∈ keys) then f k else lane_get k (f_ratios v).
Proof.
  revert v. induction keys as [|j keys IH]; intros v; [done|]. cbn [fold_left]. rewrite IH.
  destruct (decide (k ∈ keys)) as [Hin|Hin].
  - by rewrite decide_True by (by right).
  - cbn [set_ratio with_ratios f_ratios]. rewrite lane_get_set. destruct (decide (k = j)) as [->|Hne].
    + by rewrite decide_True by (by left).
    + rewrite decide_False; [done|]. rewrite elem_of_cons. tauto.
Qed.

Lemma sync_fold_ratio f keys v :
  f_ratio (fold_left (λ v key, set_ratio key (f key) v) keys v) = f_ratio v.
Proof. revert v. induction keys as [|j keys IH]; intros v; [done|]. cbn [fold_left]. by rewrite IH. Qed.

(** Giving the input price puts every ratio in accordance with the prices. *)
Lemma prompt_syncs value s : test numericDraftRegex value = true → synced (handlePromptPriceChange value s).
Proof.
  intros Hv. unfold handlePromptPriceChange. rewrite Hv. cbn [negb]. split; cbn [form promptPrice].
  - unfold syncLaneRatios. by rewrite sync_fold_ratio.
  - intros k. unfold syncLaneRatios. rewrite sync_fold, decide_True by apply elem_of_lane_keys.
    unfold lane_ratio. cbn [laneEnabled lanePrices promptPrice]. by destruct (lane_get k (laneEnabled s)).
Qed.

Lemma lane_price_synced lane value s : synced s → synced (handleLanePriceChange lane value s).
Proof.
  intros [Hr Hl]. unfold handleLanePriceChange. destruct (negb _); [done|].
  split; [by destruct (bool_decide _ && _), (lane_get lane (laneEnabled s))|].
  intros k. specialize (Hl k). unfold lane_ratio in *.
  destruct (lane_get lane (laneEnabled s)) eqn:E1, (audioOutput (laneEnabled s)) eqn:E2, lane, k;
    cbn [lane_get laneEnabled form] in *; rewrite ?E1, ?E2 in *; try done; try exact Hl;
    rewrite ?E1, ?E2; first [reflexivity|exact Hl].
Qed.

Lemma lane_toggle_synced lane checked s : synced s → synced (handleLaneToggle lane checked s).
Proof.
  intros [Hr Hl]. unfold handleLaneToggle. split.
  - destruct checked; [done|]. by destruct lane.
  - intros k. specialize (Hl k). unfold lane_ratio in *.
    destruct checked, lane, k; first [reflexivity|exact Hl].
Qed.

(** What the user does before the first change of the input price may leave the
    ratios of a loaded model as they were; afterwards they follow the prices. *)
Lemma editor_step_synced s e : synced s → synced (editor_step s e).
Proof.
  intros Hs. destruct e as [v|l v|l c|m|v|v|x r]; cbn [editor_step].
  - unfold handlePromptPriceChange. destruct (test numericDraftRegex v) eqn:E; [|done].
    pose proof (prompt_syncs v s E) as H. unfold handlePromptPriceChange in H. by rewrite E in H.
  - by apply lane_price_synced.
  - by apply lane_toggle_synced.
  - exact Hs.
  - unfold handleFixedPriceChange. by destruct (negb _).
  - exact Hs.
  - exact Hs.
Qed.

Lemma editor_run_synced es s : synced s → synced (editor_run s es).
Proof.
  revert s. induction es as [|e es IH]; intros s Hs; [done|]. cbn. by apply IH, editor_step_synced.
Qed.

Lemma load_new_synced : synced (load None).
Proof. split; [done|]. by intros []. Qed.

(** C11: The ratios that are saved are those of the prices shown: always in the editor of
    a new model, and in the editor of an existing model from the first accepted
    change of the input price on, whatever the user does before and after. *)
Theorem editor_synced :
  (∀ es, synced (editor_run (load None) es)) ∧
  (∀ editData es value es', test numericDraftRegex value = true →
     synced (editor_run (load editData) (es ++ EvPrompt value :: es'))).
Proof.
  split; [intros es; apply editor_run_synced, load_new_synced|].
  intros editData es value es' Hv. unfold editor_run. rewrite fold_left_app. cbn [fold_left editor_step].
  by apply editor_run_synced, prompt_syncs.
Qed.

Example editor_synced_witness :
  synced (editor_run (load None) [EvPrompt "3"; EvLaneToggle lane_completion true; EvLanePrice lane_completion "15"]) ∧
  synced (editor_run (load None) ([EvMode per_token] ++ EvPrompt "2.5" :: [EvLaneToggle lane_cache true])).
Proof.
  split; [apply (proj1 editor_synced)|apply (proj2 editor_synced)]. vm_compute. reflexivity.
Defined.

(** The example of the placeholders: 3 USD and 15 USD are the ratios 1.5 and 5. *)
Example editor_ratios :
  let v := form (editor_run (load None)
    [EvPrompt "3"; EvLaneToggle lane_completion true; EvLanePrice lane_completion "15"]) in
  (f_ratio v, completion (f_ratios v)) = ("1.5", "5").
Proof. vm_compute. reflexivity. Qed.

(** *** Formatting *)

Lemma snap_from_spec fuel decimals tol x :
  let r := snap_from fuel decimals tol x in
  r = x ∨ nle (nabs (nsub x r)) tol = true.
Proof.
  revert decimals. induction fuel as [|fuel IH]; intros decimals; [by left|]. cbn [snap_from].
  destruct (nle _ _) eqn:E; [by right|apply IH].
Qed.
