(* ===== verification/PricingSnapshots.v ===== *)
(** * PricingSnapshots: the prices of all models

    [features/system-settings/models/model-pricing-snapshots.ts] and the state of
    [model-ratio-visual-editor.tsx]: the option texts, one JSON object per kind of
    price, are read as one snapshot per model; what the price editor commits is
    written back into the options.

    The names of models are taken not to be properties of [Object.prototype],
    and the options to hold JSON objects. *)
From Stdlib Require Import Floats.SpecFloat.
From S2P Require Import Prelude JsString JsNumber JsValue JsJson JsRegex JsDecimal BillingExpr PricingEditor.

(** ** Options *)

(** One value per pricing option. *)
Record Options (A : Type) := mkOptions {
  o_price : A; o_ratio : A; o_ratios : Lanes A; o_mode : A; o_expr : A; o_unit : A
}.
Arguments mkOptions {A} _ _ _ _ _ _.
Arguments o_price {A} _.
Arguments o_ratio {A} _.
Arguments o_ratios {A} _.
Arguments o_mode {A} _.
Arguments o_expr {A} _.
Arguments o_unit {A} _.

Definition lanes_map {A B} (f : A → B) (l : Lanes A) : Lanes B := lanes_of (λ k, f (lane_get k l)).

Definition options_map {A B} (f : A → B) (o : Options A) : Options B :=
  mkOptions (f (o_price o)) (f (o_ratio o)) (lanes_map f (o_ratios o)) (f (o_mode o)) (f (o_expr o)) (f (o_unit o)).

(** [Record<string, number | string>] *)
Abbreviation pmap := (list (jstring * jval)).

(** [safeJsonParse(value, { fallback })] ([features/system-settings/utils/json-parser.ts]) *)
Definition safeJsonParse (value : option jstring) (fallback : jval) : jval :=
  let fallback := if is_nullish fallback then JNull else fallback in
  match value with
  | None => fallback
  | Some value => if truthy (trim value) then default fallback (JSON_parse (trim value)) else fallback
  end.

Definition parse_options (texts : Options jstring) : Options pmap :=
  options_map (λ text, props (safeJsonParse (Some text) (JObj []))) texts.

(** ** Snapshots *)

(** The fields of [ModelRatioData] and the conflict. *)
Record ModelPricingSnapshot := { snapshot_data : ModelRatioData; hasConflict : bool }.

Definition snapshot_name (s : ModelPricingSnapshot) : jstring := d_name (snapshot_data s).

Definition hasPricingValue (value : option jstring) : bool :=
  match value with None | Some [] => false | Some _ => true end.

(** [toNumberOrNull] of this file *)
Definition toNumberOrNull (value : option jstring) : option num :=
  if negb (hasPricingValue value) then None
  else let n := Number_of_string (default [] value) in if is_finite n then Some n else None.

Definition ratioToPrice (ratio denominator : option jstring) : jstring :=
  match toNumberOrNull ratio, (if otruthy denominator then toNumberOrNull denominator else Some (of_Z 2)) with
  | Some r, Some d => formatPricingNumber (JNum (nmul r d))
  | _, _ => []
  end.

Definition getModeLabel (m : option PricingMode) : jstring :=
  match m with
  | Some per_request => "Per-request"
  | Some tiered_expr => "Expression"
  | _ => "Per-token"
  end.

Definition getModeVariant (m : option PricingMode) : jstring :=
  match m with
  | Some per_request => "warning"
  | Some tiered_expr => "info"
  | _ => "success"
  end.

Section summaries.
Variable t : jstring → jstring.

(** The matches of the global pattern [tier\(]. *)
Definition getExpressionSummary (row : ModelPricingSnapshot) : jstring :=
  let tierCount := length (match_all (RLit "tier(") (default [] (d_billingExpr (snapshot_data row)))) in
  if 0 <? tierCount
  then t "Tiered pricing" ++ " · " ++ N_to_js (N.of_nat tierCount) ++ " " ++ t "tiers"
  else t "Expression pricing".

Definition getPriceSummary (row : ModelPricingSnapshot) : jstring :=
  let d := snapshot_data row in
  match d_billingMode d with
  | Some tiered_expr => getExpressionSummary row
  | Some per_request =>
    match d_price d with
    | Some (_ :: _ as price) => "$" ++ price ++ " / " ++ t "request"
    | _ => t "Unset price"
    end
  | _ =>
    let inputPrice := ratioToPrice (d_ratio d) None in
    if negb (truthy inputPrice) then t "Unset price"
    else
      let extraCount := length (filter (λ k, hasPricingValue (lane_get k (d_ratios d)) = true) LANE_KEYS) in
      if 0 <? extraCount
      then t "Input" ++ " $" ++ inputPrice ++ " · " ++ N_to_js (N.of_nat extraCount) ++ " " ++ t "extras"
      else t "Input" ++ " $" ++ inputPrice
  end.

Definition getPriceDetail (row : ModelPricingSnapshot) : jstring :=
  let d := snapshot_data row in
  match d_billingMode d with
  | Some tiered_expr => if otruthy (d_requestRuleExpr d) then t "Includes request rules" else t "Expression based"
  | Some per_request => t "Fixed request price"
  | _ =>
    let inputPrice := ratioToPrice (d_ratio d) None in
    if negb (truthy inputPrice) then t "No base input price"
    else
      let detail label k :=
        if otruthy (lane_get k (d_ratios d))
        then [t label ++ " $" ++ ratioToPrice (lane_get k (d_ratios d)) (Some inputPrice)] else [] in
      let details := take 2 (detail "Output" lane_completion ++ detail "Cache" lane_cache
                             ++ detail "Cache write" lane_createCache) in
      match details with [] => t "Base input price only" | _ => join " · " details end
  end.
End summaries.

(** [map[name]?.toString() || ''] *)
Definition map_text (name : jstring) (m : pmap) : jstring :=
  match oget name m with
  | None | Some JUndefined | Some JNull => []
  | Some v => to_js_string v
  end.

(** The names, in the order the maps are read. *)
Definition model_names (m : Options pmap) : list jstring :=
  new_set (okeys (o_price m) ++ okeys (o_ratio m) ++ okeys (cache (o_ratios m)) ++ okeys (createCache (o_ratios m))
    ++ okeys (completion (o_ratios m)) ++ okeys (image (o_ratios m)) ++ okeys (audioInput (o_ratios m))
    ++ okeys (audioOutput (o_ratios m)) ++ okeys (o_mode m) ++ okeys (o_expr m)).

(** [billingExprMap[name] || '']; a value that is no string throws when it is split. *)
Definition full_expr (name : jstring) (m : pmap) : option jstring :=
  match oget name m with
  | Some (JStr s) => Some s
  | Some v => if to_boolean v then None else Some []
  | None => Some []
  end.

(** [modeForModel === 'tiered_expr'] *)
Definition is_tiered (mode : option jval) : bool :=
  match mode with Some (JStr s) => bool_decide (s = "tiered_expr") | _ => false end.

(** The snapshot of a name: [None] is an exception. *)
Definition snapshot_of (m : Options pmap) (name : jstring) : option ModelPricingSnapshot :=
  let price := map_text name (o_price m) in
  let ratio := map_text name (o_ratio m) in
  let ratios := lanes_map (map_text name) (o_ratios m) in
  let make mode expr rules conflict := {|
    snapshot_data := {| d_name := name; d_price := Some price; d_ratio := Some ratio;
                        d_ratios := lanes_map Some ratios; d_billingMode := Some mode;
                        d_billingExpr := expr; d_requestRuleExpr := rules |};
    hasConflict := conflict |} in
  if is_tiered (oget name (o_mode m)) then
    fullExpr ← full_expr name (o_expr m);
    '(pureExpr, requestRuleExpr) ← splitBillingExprAndRequestRules fullExpr;
    Some (make tiered_expr (Some pureExpr) (Some requestRuleExpr) false)
  else
    Some (make (if truthy price then per_request else per_token) None None
            (truthy price && (truthy ratio || existsb (λ k, truthy (lane_get k ratios)) LANE_KEYS))).

Definition snapshots_of_maps (m : Options pmap) : option (list ModelPricingSnapshot) :=
  mapM (snapshot_of m) (model_names m).

Definition buildModelSnapshots (texts : Options jstring) : option (list ModelPricingSnapshot) :=
  snapshots_of_maps (parse_options texts).

Definition mode_text (m : PricingMode) : jstring :=
  match m with per_token => "per-token" | per_request => "per-request" | tiered_expr => "tiered_expr" end.

Definition signature_object (d : ModelRatioData) : jval :=
  let text (v : option jstring) := JStr (default [] v) in
  JObj [("price", text (d_price d)); ("ratio", text (d_ratio d));
        ("cacheRatio", text (cache (d_ratios d))); ("createCacheRatio", text (createCache (d_ratios d)));
        ("completionRatio", text (completion (d_ratios d))); ("imageRatio", text (image (d_ratios d)));
        ("audioRatio", text (audioInput (d_ratios d))); ("audioCompletionRatio", text (audioOutput (d_ratios d)));
        ("billingMode", JStr (mode_text (default per_token (d_billingMode d))));
        ("billingExpr", text (d_billingExpr d)); ("requestRuleExpr", text (d_requestRuleExpr d))].

Definition getSnapshotSignature (snapshot : option ModelPricingSnapshot) : jstring :=
  match snapshot with
  | None => []
  | Some s => default [] (JSON_stringify None (signature_object (snapshot_data s)))
  end.

(** ** Rows of the editor ([model-ratio-visual-editor.tsx]) *)

Record ModelRow := {
  displayed : ModelPricingSnapshot;
  saved : option ModelPricingSnapshot;
  draft : option ModelPricingSnapshot;
  isDraftChanged : bool;
  isDraftDeleted : bool;
  isDraftNew : bool;
}.

Definition by_name (rows : list ModelPricingSnapshot) : list (jstring * ModelPricingSnapshot) :=
  new_map (map (λ row, (snapshot_name row, row)) rows).

Definition model_row (savedByName draftByName : list (jstring * ModelPricingSnapshot)) (name : jstring) : option ModelRow :=
  let saved := oget name savedByName in
  let draft := oget name draftByName in
  match (match saved with Some s => Some s | None => draft end) with
  | None => None
  | Some displayed => Some {|
      displayed := displayed; saved := saved; draft := draft;
      isDraftChanged := negb (bool_decide (getSnapshotSignature saved = getSnapshotSignature draft));
      isDraftDeleted := bool_decide (is_Some saved) && negb (bool_decide (is_Some draft));
      isDraftNew := negb (bool_decide (is_Some saved)) && bool_decide (is_Some draft) |}
  end.

(** [localeCompare], the collation of the platform, is a parameter. *)
Definition models (localeCompare : jstring → jstring → Z) (savedRows draftRows : list ModelPricingSnapshot) : list ModelRow :=
  let savedByName := by_name savedRows in
  let draftByName := by_name draftRows in
  let modelNames := new_set (okeys savedByName ++ okeys draftByName) in
  sort_by (λ a b, localeCompare (snapshot_name (displayed a)) (snapshot_name (displayed b)))
    (filter (λ row, isDraftDeleted row = false) (omap (model_row savedByName draftByName) modelNames)).

(** Models per token, per request and by expression. *)
Definition modeCounts (rows : list ModelRow) : nat * nat * nat :=
  fold_left (λ '(tok, req, tier) row,
    match d_billingMode (snapshot_data (displayed row)) with
    | Some per_request => (tok, S req, tier)
    | Some tiered_expr => (tok, req, S tier)
    | _ => (S tok, req, tier)
    end) rows (0, 0, 0).

(** ** Writing *)

Definition setIfPresent (target : pmap) (name : jstring) (value : option jstring) : pmap :=
  if negb (otruthy value) then target
  else
    let parsed := parseFloat (default [] value) in
    if is_finite parsed then obj_set name (JNum parsed) target else target.

(** The three ratios and prices of a model that is priced per token. *)
Definition set_ratios (data : ModelRatioData) (name : jstring) (m : Options pmap) : Options pmap :=
  mkOptions (o_price m) (setIfPresent (o_ratio m) name (d_ratio data))
    (lanes_of (λ k, setIfPresent (lane_get k (o_ratios m)) name (lane_get k (d_ratios data))))
    (o_mode m) (o_expr m) (o_unit m).

Definition set_price_option (data : ModelRatioData) (name : jstring) (m : Options pmap) : Options pmap :=
  mkOptions (setIfPresent (o_price m) name (d_price data)) (o_ratio m) (o_ratios m) (o_mode m) (o_expr m) (o_unit m).

Definition set_expression (name combined : jstring) (m : Options pmap) : Options pmap :=
  mkOptions (o_price m) (o_ratio m) (o_ratios m)
    (obj_set name (JStr "tiered_expr") (o_mode m)) (obj_set name (JStr combined) (o_expr m)) (o_unit m).

Definition delete_model (name : jstring) (m : Options pmap) : Options pmap := options_map (odelete name) m.

(** The body of the loop over the target names. *)
Definition persist_one (data : ModelRatioData) (m : Options pmap) (name : jstring) : Options pmap :=
  let m := delete_model name m in
  if decide (d_billingMode data = Some tiered_expr) then
    let combined := combineBillingExpr (default [] (d_billingExpr data)) (default [] (d_requestRuleExpr data)) in
    let m := if truthy combined then set_expression name combined m else m in
    set_ratios data name (set_price_option data name m)
  else if otruthy (d_price data) then set_price_option data name m
  else set_ratios data name m.

Definition persist_maps (data : ModelRatioData) (targetNames : list jstring) (m : Options pmap) : Options pmap :=
  fold_left (persist_one data) targetNames m.

Definition OPTION_KEYS : Options jstring :=
  mkOptions "ModelPrice" "ModelRatio"
    (mkLanes "CompletionRatio" "CacheRatio" "CreateCacheRatio" "ImageRatio" "AudioRatio" "AudioCompletionRatio")
    "billing_setting.billing_mode" "billing_setting.billing_expr" "billing_setting.task_price_unit".

(** [JSON.stringify(map, null, 2)] *)
Definition option_text (m : pmap) : jstring := default [] (JSON_stringify (Some 2) (JObj m)).

(** The calls of [onChange], in order. *)
Definition option_changes (m : Options pmap) : list (jstring * jstring) :=
  let change f := (f OPTION_KEYS, f (options_map option_text m)) in
  [change o_price; change o_ratio; change (λ o, cache (o_ratios o)); change (λ o, createCache (o_ratios o));
   change (λ o, completion (o_ratios o)); change (λ o, image (o_ratios o)); change (λ o, audioInput (o_ratios o));
   change (λ o, audioOutput (o_ratios o)); change o_mode; change o_expr; change o_unit].

Definition persistPricingData (texts : Options jstring) (data : ModelRatioData) (targetNames : list jstring)
  : list (jstring * jstring) :=
  option_changes (persist_maps data targetNames (parse_options texts)).

(** ** The panel *)

Record PanelState := {
  editData : option ModelRatioData;
  editorOpen : bool;
  sheetOpen : bool;
  globalFilter : jstring;
}.

Definition editable_data (d : ModelRatioData) : ModelRatioData := {|
  d_name := d_name d; d_price := d_price d; d_ratio := d_ratio d; d_ratios := d_ratios d;
  d_billingMode := Some (if decide (d_billingMode d = Some tiered_expr) then tiered_expr
                         else if otruthy (d_price d) then per_request else per_token);
  d_billingExpr := d_billingExpr d; d_requestRuleExpr := d_requestRuleExpr d |}.

Definition handleEdit (isMobile : bool) (row : ModelRow) (p : PanelState) : PanelState :=
  let editableModel := match draft row with
                       | Some d => d
                       | None => match saved row with Some s => s | None => displayed row end
                       end in
  {| editData := Some (editable_data (snapshot_data editableModel)); editorOpen := true;
     sheetOpen := isMobile || sheetOpen p; globalFilter := globalFilter p |}.

Definition handleAdd (isMobile : bool) (p : PanelState) : PanelState :=
  {| editData := None; editorOpen := true; sheetOpen := isMobile || sheetOpen p; globalFilter := globalFilter p |}.

Definition handleGlobalFilterChange (next : jstring) (p : PanelState) : PanelState :=
  if bool_decide (next = globalFilter p) then p
  else {| editData := None; editorOpen := false; sheetOpen := false; globalFilter := next |}.

(** The changes of the options, and the panel. *)
Definition handleDelete (texts : Options jstring) (name : jstring) (p : PanelState)
  : list (jstring * jstring) * PanelState :=
  (option_changes (delete_model name (parse_options texts)),
   if bool_decide (d_name <$> editData p = Some name)
   then {| editData := None; editorOpen := false; sheetOpen := false; globalFilter := globalFilter p |}
   else p).

(** [None] when the copy is refused. *)
Definition handleBatchCopy (texts : Options jstring) (selected : list jstring) (p : PanelState)
  : option (list (jstring * jstring)) :=
  match editData p, selected with
  | None, _ | _, [] => None
  | Some data, targetNames => Some (persistPricingData texts data targetNames)
  end.

(** The answer of [commitOpenEditor], the changes of the options, and the panel;
    [editor] is the state of the open editor, if there is one. *)
Definition commitOpenEditor (texts : Options jstring) (editor : option EditorState) (p : PanelState)
  : bool * list (jstring * jstring) * PanelState :=
  match editor with
  | Some s =>
    if editorOpen p then
      match commitDraft s with
      | None => (false, [], p)
      | Some data =>
        (true, persistPricingData texts data [d_name data],
         {| editData := Some data; editorOpen := editorOpen p; sheetOpen := sheetOpen p;
            globalFilter := globalFilter p |})
      end
    else (true, [], p)
  | None => (true, [], p)
  end.

(** ** Lemmas *)

Lemma lanes_map_get {A B} (f : A → B) l k : lane_get k (lanes_map f l) = f (lane_get k l).
Proof. by destruct k. Qed.

Lemma lanes_ext {A} (l l' : Lanes A) : (∀ k, lane_get k l = lane_get k l') → l = l'.
Proof.
  intros H. destruct l, l'. pose proof (H lane_completion). pose proof (H lane_cache). pose proof (H lane_createCache).
  pose proof (H lane_image). pose proof (H lane_audioInput). pose proof (H lane_audioOutput). cbn in *. congruence.
Qed.

(** The values of a name. *)
Definition values_of (name : jstring) (m : Options pmap) : Options (option jval) := options_map (oget name) m.

Definition options_all {A} (P : A → Prop) (o : Options A) : Prop :=
  P (o_price o) ∧ P (o_ratio o) ∧ (∀ k, P (lane_get k (o_ratios o))) ∧ P (o_mode o) ∧ P (o_expr o) ∧ P (o_unit o).

Definition keyed (m : Options pmap) : Prop := options_all (λ o, NoDup (okeys o)) m.

Lemma options_ext {A} (o o' : Options A) :
  o_price o = o_price o' → o_ratio o = o_ratio o' → (∀ k, lane_get k (o_ratios o) = lane_get k (o_ratios o')) →
  o_mode o = o_mode o' → o_expr o = o_expr o' → o_unit o = o_unit o' → o = o'.
Proof. destruct o, o'. cbn. intros -> -> H%lanes_ext -> -> ->. by rewrite H. Qed.

(** The number that is written for a text, if any. *)
Definition number_of (value : option jstring) : option jval :=
  if otruthy value then
    let parsed := parseFloat (default [] value) in if is_finite parsed then Some (JNum parsed) else None
  else None.

Lemma setIfPresent_get k target name value :
  oget k (setIfPresent target name value) =
    if bool_decide (k = name) then match number_of value with Some v => Some v | None => oget k target end
    else oget k target.
Proof.
  unfold setIfPresent, number_of. destruct (otruthy value); cbn [negb]; [|by case_bool_decide].
  destruct (is_finite _); [|by case_bool_decide]. by rewrite oget_obj_set.
Qed.

Lemma setIfPresent_keys target name value : NoDup (okeys target) → NoDup (okeys (setIfPresent target name value)).
Proof. intros H. unfold setIfPresent. destruct (negb _); [done|]. destruct (is_finite _); auto with jslib. Qed.

(** What is stored for a target. *)
Definition stored (data : ModelRatioData) : Options (option jval) :=
  let none := lanes_of (λ _ : LaneKey, @None jval) in
  let ratios := lanes_map number_of (d_ratios data) in
  if decide (d_billingMode data = Some tiered_expr) then
    let combined := combineBillingExpr (default [] (d_billingExpr data)) (default [] (d_requestRuleExpr data)) in
    mkOptions (number_of (d_price data)) (number_of (d_ratio data)) ratios
      (if truthy combined then Some (JStr "tiered_expr") else None)
      (if truthy combined then Some (JStr combined) else None) None
  else if otruthy (d_price data) then mkOptions (number_of (d_price data)) None none None None None
  else mkOptions None (number_of (d_ratio data)) ratios None None None.

Lemma delete_get k name m :
  keyed m → values_of k (delete_model name m) = if bool_decide (k = name) then options_map (λ _, None) m else values_of k m.
Proof.
  intros (Hp & Hr & Hl & Hm & He & Hu). case_bool_decide; (apply options_ext; [| |intros j| | |]); unfold values_of, delete_model; cbn [options_map o_price o_ratio o_ratios o_mode o_expr o_unit];
    rewrite ?lanes_map_get, oget_odelete by auto; by case_bool_decide.
Qed.

Lemma delete_keyed name m : keyed m → keyed (delete_model name m).
Proof.
  intros (Hp & Hr & Hl & Hm & He & Hu). unfold keyed, options_all, delete_model.
  cbn [options_map o_price o_ratio o_ratios o_mode o_expr o_unit].
  split_and!; [| |intros k; rewrite lanes_map_get| | |]; by apply NoDup_okeys_odelete.
Qed.

Lemma set_ratios_get k data name m :
  values_of k (set_ratios data name m) =
    if bool_decide (k = name) then
      let v := values_of k m in
      let put new old := match new with Some x => Some x | None => old end in
      mkOptions (o_price v) (put (number_of (d_ratio data)) (o_ratio v))
        (lanes_of (λ j, put (number_of (lane_get j (d_ratios data))) (lane_get j (o_ratios v)))) (o_mode v) (o_expr v) (o_unit v)
    else values_of k m.
Proof.
  case_bool_decide as E.
  - subst k. apply options_ext; try done; [|intros j]; unfold values_of, set_ratios; cbn [options_map o_ratio o_ratios];
      rewrite ?lanes_map_get, ?lane_get_of, setIfPresent_get, bool_decide_eq_true_2; try done.
    by rewrite lanes_map_get.
  - apply options_ext; try done; [|intros j]; unfold values_of, set_ratios; cbn [options_map o_ratio o_ratios];
      rewrite ?lanes_map_get, ?lane_get_of, setIfPresent_get, bool_decide_eq_false_2; done.
Qed.

Lemma set_price_option_get k data name m :
  values_of k (set_price_option data name m) =
    if bool_decide (k = name) then
      let v := values_of k m in
      mkOptions (match number_of (d_price data) with Some x => Some x | None => o_price v end)
        (o_ratio v) (o_ratios v) (o_mode v) (o_expr v) (o_unit v)
    else values_of k m.
Proof.
  unfold values_of, set_price_option, options_map. cbn [o_price o_ratio o_ratios o_mode o_expr o_unit].
  rewrite setIfPresent_get. by case_bool_decide.
Qed.

Lemma set_expression_get k name combined m :
  values_of k (set_expression name combined m) =
    if bool_decide (k = name) then
      let v := values_of k m in
      mkOptions (o_price v) (o_ratio v) (o_ratios v) (Some (JStr "tiered_expr")) (Some (JStr combined)) (o_unit v)
    else values_of k m.
Proof.
  unfold values_of, set_expression, options_map. cbn [o_price o_ratio o_ratios o_mode o_expr o_unit].
  rewrite !oget_obj_set. by case_bool_decide.
Qed.

(** One target: its values are those of the data, the others stay. *)
Lemma persist_one_get k data m name :
  keyed m → values_of k (persist_one data m name) = if bool_decide (k = name) then stored data else values_of k m.
Proof.
  intros Hm. pose proof (delete_get k name m Hm) as Hd. unfold persist_one, stored.
  set (d := delete_model name m) in *. clearbody d.
  destruct (decide (d_billingMode data = Some tiered_expr)).
  - set (combined := combineBillingExpr _ _).
    rewrite set_ratios_get, set_price_option_get. destruct (truthy combined);
      rewrite ?set_expression_get, Hd; case_bool_decide; try done;
      (apply options_ext; cbn; [by destruct (number_of _)|by destruct (number_of _)|intros j; rewrite ?lane_get_of, ?lanes_map_get|..]; try done);
      by destruct (number_of _).
  - destruct (otruthy (d_price data)).
    + rewrite set_price_option_get, Hd. case_bool_decide; [|done].
      apply options_ext; try done. cbn. by destruct (number_of _).
    + rewrite set_ratios_get, Hd. case_bool_decide; [|done].
      apply options_ext; try done; cbn; [by destruct (number_of _)|intros j; rewrite ?lane_get_of, ?lanes_map_get; by destruct (number_of _)].
Qed.

Lemma persist_one_keyed data m name : keyed m → keyed (persist_one data m name).
Proof.
  intros Hm%(delete_keyed name). unfold persist_one. set (d := delete_model name m) in *. clearbody d.
  assert (∀ d, keyed d → keyed (set_ratios data name d)) as Hr.
  { intros d' (? & ? & ? & ? & ? & ?). split_and!; try done; [by apply setIfPresent_keys|].
    intros k. cbn [set_ratios o_ratios]. rewrite lane_get_of. by apply setIfPresent_keys. }
  assert (∀ d, keyed d → keyed (set_price_option data name d)) as Hp.
  { intros d' (? & ? & ? & ? & ? & ?). split_and!; try done. by apply setIfPresent_keys. }
  destruct (decide _).
  - apply Hr, Hp. destruct (truthy _); [|done]. destruct Hm as (? & ? & ? & ? & ? & ?).
    split_and!; try done; cbn [set_expression o_mode o_expr]; auto with jslib.
  - destruct (otruthy _); auto.
Qed.

Lemma persist_maps_keyed data targets m : keyed m → keyed (persist_maps data targets m).
Proof.
  unfold persist_maps. revert m. induction targets as [|name targets IH]; intros m Hm; [done|].
  by apply IH, persist_one_keyed.
Qed.

Lemma persist_maps_get k data targets m :
  keyed m → values_of k (persist_maps data targets m) = if bool_decide (k ∈ targets) then stored data else values_of k m.
Proof.
  unfold persist_maps. revert m. induction targets as [|name targets IH]; intros m Hm; [done|].
  cbn [fold_left]. rewrite IH, persist_one_get by (done || by apply persist_one_keyed).
  rewrite (bool_decide_ext (k ∈ name :: targets) (k = name ∨ k ∈ targets)) by apply elem_of_cons.
  repeat case_bool_decide; naive_solver.
Qed.

(** [map_text] and [full_expr] of a value. *)
Definition value_text (v : option jval) : jstring :=
  match v with None | Some JUndefined | Some JNull => [] | Some v => to_js_string v end.

(** A snapshot depends on the values of its name only. *)
Definition snapshot_from (name : jstring) (v : Options (option jval)) : option ModelPricingSnapshot :=
  let price := value_text (o_price v) in
  let ratio := value_text (o_ratio v) in
  let ratios := lanes_map value_text (o_ratios v) in
  let make mode expr rules conflict := {|
    snapshot_data := {| d_name := name; d_price := Some price; d_ratio := Some ratio;
                        d_ratios := lanes_map Some ratios; d_billingMode := Some mode;
                        d_billingExpr := expr; d_requestRuleExpr := rules |};
    hasConflict := conflict |} in
  if is_tiered (o_mode v) then
    fullExpr ← match o_expr v with
               | Some (JStr s) => Some s
               | Some v => if to_boolean v then None else Some []
               | None => Some []
               end;
    '(pureExpr, requestRuleExpr) ← splitBillingExprAndRequestRules fullExpr;
    Some (make tiered_expr (Some pureExpr) (Some requestRuleExpr) false)
  else
    Some (make (if truthy price then per_request else per_token) None None
            (truthy price && (truthy ratio || existsb (λ k, truthy (lane_get k ratios)) LANE_KEYS))).

Definition same_values (name : jstring) (m m' : Options pmap) : Prop := values_of name m = values_of name m'.

Lemma snapshot_of_from m name : snapshot_of m name = snapshot_from name (values_of name m).
Proof. done. Qed.

Lemma snapshot_of_values name m m' : same_values name m m' → snapshot_of m name = snapshot_of m' name.
Proof. intros E. rewrite !snapshot_of_from. by rewrite E. Qed.

Lemma elem_of_model_names name m :
  name ∈ model_names m ↔
  is_Some (oget name (o_price m)) ∨ is_Some (oget name (o_ratio m)) ∨
  (∃ k, is_Some (oget name (lane_get k (o_ratios m)))) ∨
  is_Some (oget name (o_mode m)) ∨ is_Some (oget name (o_expr m)).
Proof.
  unfold model_names. rewrite elem_of_new_set, !elem_of_app, !elem_of_okeys. split.
  - intros H. repeat destruct H as [H|H]; eauto; right; right; left;
      [by exists lane_cache|by exists lane_createCache|by exists lane_completion|by exists lane_image
      |by exists lane_audioInput|by exists lane_audioOutput].
  - intros [H|[H|[[k H]|[H|H]]]]; [tauto..| | |]; [destruct k; tauto|tauto|tauto].
Qed.

Lemma model_names_values name m m' : same_values name m m' → name ∈ model_names m ↔ name ∈ model_names m'.
Proof.
  intros E. rewrite !elem_of_model_names. unfold same_values, values_of in E.
  rewrite (f_equal o_price E : oget name (o_price m) = _), (f_equal o_ratio E : oget name (o_ratio m) = _),
    (f_equal o_mode E : oget name (o_mode m) = _), (f_equal o_expr E : oget name (o_expr m) = _).
  assert (∀ k, oget name (lane_get k (o_ratios m)) = oget name (lane_get k (o_ratios m'))) as Ek.
  { intros k. pose proof (f_equal (λ o, lane_get k (o_ratios o)) E) as Ek. cbn [options_map o_ratios] in Ek.
    by rewrite !lanes_map_get in Ek. }
  by setoid_rewrite Ek.
Qed.

(** The text a saved number is shown as. *)
Definition shown (value : option jstring) : jstring := value_text (number_of value).

(** The snapshot of a model that was saved. *)
Definition saved_snapshot (data : ModelRatioData) (name : jstring) : option ModelPricingSnapshot :=
  let make price ratio ratios mode expr rules := {|
    snapshot_data := {| d_name := name; d_price := Some price; d_ratio := Some ratio;
                        d_ratios := lanes_map Some ratios; d_billingMode := Some mode;
                        d_billingExpr := expr; d_requestRuleExpr := rules |};
    hasConflict := false |} in
  let none := lanes_of (λ _ : LaneKey, [] : jstring) in
  let ratios := lanes_map shown (d_ratios data) in
  let combined := combineBillingExpr (default [] (d_billingExpr data)) (default [] (d_requestRuleExpr data)) in
  if decide (d_billingMode data = Some tiered_expr) then
    '(expr, rules) ← splitBillingExprAndRequestRules combined;
    Some (make (shown (d_price data)) (shown (d_ratio data)) ratios tiered_expr (Some expr) (Some rules))
  else if otruthy (d_price data) then
    Some (make (shown (d_price data)) [] none (if truthy (shown (d_price data)) then per_request else per_token) None None)
  else Some (make [] (shown (d_ratio data)) ratios per_token None None).

Lemma shown_none value : otruthy value = false → shown value = [].
Proof. unfold shown, number_of. by intros ->. Qed.

(** What the options hold after saving. *)
Lemma persisted_values data targets m :
  keyed m → (d_billingMode data = Some tiered_expr →
    combineBillingExpr (default [] (d_billingExpr data)) (default [] (d_requestRuleExpr data)) ≠ []) →
  let m' := persist_maps data targets m in
  (∀ name, name ∈ targets → snapshot_of m' name = saved_snapshot data name) ∧
  (∀ name, name ∉ targets → snapshot_of m' name = snapshot_of m name ∧ (name ∈ model_names m' ↔ name ∈ model_names m)).
Proof.
  intros Hm Hexpr m'. split.
  - intros name Hin. rewrite snapshot_of_from. unfold m'. rewrite persist_maps_get, bool_decide_eq_true_2 by done.
    unfold stored, saved_snapshot. destruct (decide (d_billingMode data = Some tiered_expr)) as [Ht|Ht].
    + specialize (Hexpr Ht). set (combined := combineBillingExpr _ _) in *.
      assert (truthy combined = true) as -> by (by apply truthy_spec). done.
    + destruct (otruthy (d_price data)); [|done]. unfold snapshot_from. cbn [o_mode o_price o_ratio o_ratios is_tiered].
      cbn [lanes_map lanes_of lane_get value_text completion cache createCache image audioInput audioOutput existsb LANE_KEYS truthy orb].
      by rewrite andb_false_r.
  - intros name Hout. assert (same_values name m' m) as E.
    { unfold same_values, m'. by rewrite persist_maps_get, bool_decide_eq_false_2. }
    split; [by apply snapshot_of_values|by apply model_names_values].
Qed.

Lemma Number_to_string_nonempty x : is_finite x = true → Number_to_string x ≠ [].
Proof.
  intros (ip & fp & ex & -> & _ & Hne & _)%Number_to_string_numeral. unfold numeral. by destruct (sign_of x), ip.
Qed.

(** *** Through the texts *)

Definition options_ok (m : Options pmap) : Prop := options_all (λ o, json_ok (JObj o)) m.

Lemma parsed_keyed texts : keyed (parse_options texts).
Proof.
  assert (∀ text, NoDup (okeys (props (safeJsonParse (Some text) (JObj []))))) as H.
  { intros text. unfold safeJsonParse. destruct (truthy _); cbn [is_nullish]; [|apply NoDup_nil_2].
    destruct (JSON_parse (trim text)) as [v|] eqn:E; cbn [default from_option id]; [|apply NoDup_nil_2].
    destruct v; try apply NoDup_nil_2. by eapply JSON_parse_keys. }
  split_and!; try apply H. intros k. cbn [parse_options options_map o_ratios]. rewrite lanes_map_get. apply H.
Qed.

Lemma option_text_trim m : trim (option_text m) = option_text m.
Proof.
  apply trim_id. unfold option_text, JSON_stringify. cbn [stringify_at default from_option id].
  generalize (omap (λ kv, (λ t, quote kv.1 ++ ": " ++ t) <$> stringify_at (Some 2) 1 kv.2) m). intros l.
  unfold bracketed. destruct l as [|t l]; [by apply (trimmed_ends _ [])|].
  rewrite !app_assoc. apply (trimmed_ends (cu "{") _ (cu "}")); done.
Qed.

Lemma parse_option_text m : json_ok (JObj m) → props (safeJsonParse (Some (option_text m)) (JObj [])) = m.
Proof.
  intros Hm. unfold safeJsonParse. rewrite option_text_trim. unfold option_text.
  destruct (JSON_roundtrip (Some 2) (JObj m) Hm) as (t & -> & Ht). cbn [default from_option id].
  destruct t as [|c t]; [by vm_compute in Ht|]. cbn [truthy]. by rewrite Ht.
Qed.

(** The options after the calls of [onChange]. *)
Definition apply_changes (changes : list (jstring * jstring)) : Options jstring :=
  options_map (λ key, default [] (oget key changes)) OPTION_KEYS.

Lemma apply_option_changes m : apply_changes (option_changes m) = options_map option_text m.
Proof. by destruct m as [p r [] mo e u]. Qed.

(** What is written is what is read. *)
Lemma options_reread m : options_ok m → parse_options (apply_changes (option_changes m)) = m.
Proof.
  intros (Hp & Hr & Hl & Hm & He & Hu). rewrite apply_option_changes.
  apply options_ext; [| |intros k| | |]; cbn [parse_options options_map o_price o_ratio o_ratios o_mode o_expr o_unit];
    rewrite ?lanes_map_get; by apply parse_option_text.
Qed.

(** C5: After the data of an editor are saved for some models and the options are read
    again, each of these models is shown with what was saved: the fixed price alone
    when there is one, else the ratios, or the expression with the numbers as a
    fallback, every number as the language prints it and none in conflict; all
    other models are shown as before. *)
Theorem saved_prices_shown texts data targets :
  let before := parse_options texts in
  let after := parse_options (apply_changes (persistPricingData texts data targets)) in
  options_ok (persist_maps data targets before) →
  (d_billingMode data = Some tiered_expr →
    combineBillingExpr (default [] (d_billingExpr data)) (default [] (d_requestRuleExpr data)) ≠ []) →
  (∀ name, name ∈ targets → snapshot_of after name = saved_snapshot data name) ∧
  (∀ name, name ∉ targets →
     snapshot_of after name = snapshot_of before name ∧ (name ∈ model_names after ↔ name ∈ model_names before)).
Proof.
  intros before after Hok Hexpr. unfold after, persistPricingData. rewrite options_reread by done.
  apply persisted_values; [apply parsed_keyed|done].
Qed.

(** A deleted model is no longer among the models, and the others are shown as
    before. *)
Lemma deleted_model_gone texts name p :
  let before := parse_options texts in
  let after := parse_options (apply_changes (handleDelete texts name p).1) in
  options_ok (delete_model name before) →
  name ∉ model_names after ∧
  (∀ other, other ≠ name →
     snapshot_of after other = snapshot_of before other ∧ (other ∈ model_names after ↔ other ∈ model_names before)).
Proof.
  intros before after Hok. unfold after, handleDelete. cbn [fst]. rewrite options_reread by done.
  fold before. pose proof delete_get as Hd. split.
  - rewrite elem_of_model_names. pose proof (Hd name name before (parsed_keyed texts)) as E.
    rewrite bool_decide_eq_true_2 in E by done. unfold values_of in E.
    rewrite (f_equal o_price E : oget name (o_price _) = _), (f_equal o_ratio E : oget name (o_ratio _) = _),
      (f_equal o_mode E : oget name (o_mode _) = _), (f_equal o_expr E : oget name (o_expr _) = _).
    cbn [options_map o_price o_ratio o_mode o_expr].
    intros [[]|[[]|[[k [v Hv]]|[[]|[]]]]]; try done.
    pose proof (f_equal (λ o, lane_get k (o_ratios o)) E) as Ek. cbn [options_map o_ratios] in Ek.
    rewrite !lanes_map_get in Ek. by rewrite Ek in Hv.
  - intros other Hne. assert (same_values other (delete_model name before) before) as E.
    { unfold same_values. rewrite Hd, bool_decide_eq_false_2 by (done || apply parsed_keyed). done. }
    split; [by apply snapshot_of_values|by apply model_names_values].
Qed.

(** A model with a fixed price that is switched to prices per token in the editor keeps
    its fixed price: the price stays in the form, and saving prefers it to the mode. *)
Lemma mode_switch_lost texts s data :
  pricingMode s = per_token → number_of (Some (f_price (form s))) ≠ None → commitDraft s = Some data →
  options_ok (persist_maps data [d_name data] (parse_options texts)) →
  ∃ snapshot,
    snapshot_of (parse_options (apply_changes (persistPricingData texts data [d_name data]))) (d_name data) = Some snapshot ∧
    d_billingMode (snapshot_data snapshot) = Some per_request ∧
    d_ratio (snapshot_data snapshot) = Some [].
Proof.
  intros Hmode Hprice Hcommit Hok.
  assert (data = buildSubmitData s (form s)) as Hdata.
  { unfold commitDraft in Hcommit. destruct (_ || _); [done|]. by injection Hcommit. }
  unfold persistPricingData. rewrite options_reread by done.
  destruct (persisted_values data [d_name data] (parse_options texts)) as [Hsaved _]; [apply parsed_keyed|subst data; cbn; by rewrite Hmode|].
  rewrite Hsaved by (by left). unfold saved_snapshot.
  assert (d_billingMode data = Some per_token) as -> by (subst data; cbn; by rewrite Hmode).
  assert (d_price data = Some (f_price (form s))) as -> by (by subst data).
  cbn [decide]. rewrite decide_False by done.
  assert (otruthy (Some (f_price (form s))) = true) as ->.
  { destruct (otruthy _) eqn:E; [done|]. unfold number_of in Hprice. by rewrite E in Hprice. }
  eexists. split; [done|]. cbn [snapshot_data d_billingMode d_ratio]. split; [|done].
  assert (truthy (shown (Some (f_price (form s)))) = true) as ->; [|done].
  unfold shown. apply truthy_spec. destruct (number_of _) as [v|] eqn:E; [|done].
  unfold number_of in E. destruct (otruthy _); [|done]. destruct (is_finite _) eqn:Ef; [|done].
  injection E as <-. cbn [value_text to_js_string]. by apply Number_to_string_nonempty.
Qed.

(** *** Signatures *)

(** The prices, the mode and the expressions that are compared. *)
Definition same_pricing (a b : ModelRatioData) : Prop :=
  default [] (d_price a) = default [] (d_price b) ∧ default [] (d_ratio a) = default [] (d_ratio b) ∧
  (∀ k, default [] (lane_get k (d_ratios a)) = default [] (lane_get k (d_ratios b))) ∧
  default per_token (d_billingMode a) = default per_token (d_billingMode b) ∧
  default [] (d_billingExpr a) = default [] (d_billingExpr b) ∧
  default [] (d_requestRuleExpr a) = default [] (d_requestRuleExpr b).

Lemma signature_object_same a b : signature_object a = signature_object b ↔ same_pricing a b.
Proof.
  unfold signature_object, same_pricing. split.
  - intros [= H1 H2 H3 H4 H5 H6 H7 H8 H9 H10 H11]. split_and!; try done; [by intros []|].
    revert H9. by destruct (default per_token (d_billingMode a)), (default per_token (d_billingMode b)).
  - intros (H1 & H2 & H3 & H4 & H5 & H6). rewrite H1, H2, H4, H5, H6.
    rewrite (H3 lane_completion : default [] (completion _) = _), (H3 lane_cache : default [] (cache _) = _),
      (H3 lane_createCache : default [] (createCache _) = _), (H3 lane_image : default [] (image _) = _),
      (H3 lane_audioInput : default [] (audioInput _) = _), (H3 lane_audioOutput : default [] (audioOutput _) = _). done.
Qed.

(** Every text of the data is made of units of the language. *)
Definition data_ok (d : ModelRatioData) : Prop := json_ok (signature_object d).

(** A row is marked as changed exactly when the model is new or deleted in the draft,
    or a price, the mode or an expression differs. *)
Lemma draft_changed_iff savedByName draftByName name row :
  model_row savedByName draftByName name = Some row →
  (∀ s, saved row = Some s → data_ok (snapshot_data s)) → (∀ d, draft row = Some d → data_ok (snapshot_data d)) →
  isDraftChanged row = false ↔
  ∃ s d, saved row = Some s ∧ draft row = Some d ∧ same_pricing (snapshot_data s) (snapshot_data d).
Proof.
  intros Hrow Hs Hd.
  assert (isDraftChanged row = negb (bool_decide (getSnapshotSignature (saved row) = getSnapshotSignature (draft row)))
    ∧ (saved row ≠ None ∨ draft row ≠ None)) as [-> Hsome].
  { revert Hrow. unfold model_row. generalize getSnapshotSignature as signature. intros signature.
    destruct (oget name savedByName), (oget name draftByName); intros [= <-]; cbn [isDraftChanged saved draft]; auto. }
  rewrite negb_false_iff, bool_decide_eq_true.
  assert (∀ s, data_ok (snapshot_data s) → ∃ c t, getSnapshotSignature (Some s) = c :: t ∧
    JSON_parse (getSnapshotSignature (Some s)) = Some (signature_object (snapshot_data s))) as Hsig.
  { intros s Hok. unfold getSnapshotSignature. destruct (JSON_roundtrip None _ Hok) as (t & -> & Ht).
    cbn [default from_option id]. destruct t as [|c t]; [by vm_compute in Ht|]. by exists c, t. }
  destruct (saved row) as [s|], (draft row) as [d|].
  - destruct (Hsig s (Hs s eq_refl)) as (_ & _ & _ & Ps), (Hsig d (Hd d eq_refl)) as (_ & _ & _ & Pd).
    split; [intros E; exists s, d; split_and!; [done..|]|intros (s' & d' & [= <-] & [= <-] & H)].
    + apply signature_object_same. rewrite E in Ps. congruence.
    + apply signature_object_same in H. unfold getSnapshotSignature. by rewrite H.
  - destruct (Hsig s (Hs s eq_refl)) as (c & t & E & _). rewrite E. cbn. naive_solver.
  - destruct (Hsig d (Hd d eq_refl)) as (c & t & E & _). rewrite E. cbn. naive_solver.
  - naive_solver.
Qed.

(** ** Witnesses *)

Definition sample_texts : Options jstring :=
  options_map (λ o, option_text o)
    (mkOptions [("gpt-a", JNum (of_Z 2)); ("gpt-b", JNum (of_Z 1))] [("gpt-c", JNum (of_Z 3))]
       (lanes_of (λ k, if decide (k = lane_completion) then [("gpt-c", JNum (of_Z 4))] else [])) [] [] []).

(** The model of fixed price 2, switched to prices per token in the editor. *)
Definition switched_editor : EditorState :=
  editor_run (load (Some {| d_name := "gpt-a"; d_price := Some "2"; d_ratio := Some []; d_ratios := lanes_of (λ _, Some []);
                            d_billingMode := Some per_request; d_billingExpr := None; d_requestRuleExpr := None |}))
    [EvMode per_token; EvPrompt "3"].

Definition switched_data : ModelRatioData := buildSubmitData switched_editor (form switched_editor).

Lemma options_ok_b m :
  json_ok_b (JObj (o_price m)) && json_ok_b (JObj (o_ratio m)) && forallb (λ k, json_ok_b (JObj (lane_get k (o_ratios m)))) LANE_KEYS
  && json_ok_b (JObj (o_mode m)) && json_ok_b (JObj (o_expr m)) && json_ok_b (JObj (o_unit m)) = true →
  options_ok m.
Proof.
  rewrite !andb_true_iff, forallb_forall. intros (((((Hp & Hr) & Hl) & Hm) & He) & Hu).
  split_and!; try by apply json_ok_b_spec. intros k. apply json_ok_b_spec, Hl, list_elem_of_In, elem_of_lane_keys.
Qed.

Example saved_prices_shown_witness :
  snapshot_of (parse_options (apply_changes (persistPricingData sample_texts switched_data ["gpt-b"]))) "gpt-b"
    = saved_snapshot switched_data "gpt-b" ∧
  snapshot_of (parse_options (apply_changes (persistPricingData sample_texts switched_data ["gpt-b"]))) "gpt-c"
    = snapshot_of (parse_options sample_texts) "gpt-c".
Proof.
  destruct (saved_prices_shown sample_texts switched_data ["gpt-b"]) as [H1 H2].
  - apply options_ok_b. vm_compute. reflexivity.
  - vm_compute. discriminate.
  - split; [apply H1; by left|apply H2]. by apply (bool_decide_unpack _); vm_compute.
Defined.

Example deleted_model_gone_witness :
  "gpt-a" ∉ model_names (parse_options (apply_changes
    (handleDelete sample_texts "gpt-a" {| editData := None; editorOpen := false; sheetOpen := false; globalFilter := [] |}).1)).
Proof. apply deleted_model_gone. apply options_ok_b. vm_compute. reflexivity. Defined.

Example mode_switch_lost_witness :
  ∃ snapshot,
    snapshot_of (parse_options (apply_changes (persistPricingData sample_texts switched_data ["gpt-a"]))) "gpt-a" = Some snapshot ∧
    d_billingMode (snapshot_data snapshot) = Some per_request ∧ d_ratio (snapshot_data snapshot) = Some [].
Proof.
  apply (mode_switch_lost sample_texts switched_editor switched_data).
  - vm_compute. reflexivity.
  - vm_compute. discriminate.
  - vm_compute. reflexivity.
  - apply options_ok_b. vm_compute. reflexivity.
Defined.

Definition sample_rows (texts : Options jstring) : list (jstring * ModelPricingSnapshot) :=
  by_name (default [] (buildModelSnapshots texts)).

Definition sample_row : ModelRow :=
  Eval vm_compute in
  match model_row (sample_rows sample_texts) (sample_rows sample_texts) "gpt-c" with
  | Some row => row
  | None => {| displayed := {| snapshot_data := switched_data; hasConflict := true |}; saved := None; draft := None;
               isDraftChanged := true; isDraftDeleted := true; isDraftNew := true |}
  end.

Example draft_changed_iff_witness : isDraftChanged sample_row = false.
Proof.
  apply (draft_changed_iff (sample_rows sample_texts) (sample_rows sample_texts) "gpt-c").
  - vm_compute. reflexivity.
  - intros s [= <-]. apply json_ok_b_spec. vm_compute. reflexivity.
  - intros s [= <-]. apply json_ok_b_spec. vm_compute. reflexivity.
  - eexists _, _. split; [reflexivity|]. split; [reflexivity|]. split_and!; reflexivity.
Defined.
