(* ===== verification/PricingPreview.v ===== *)
(** * PricingPreview: [features/system-settings/models/pricing-sync-preview.ts]

    The prices in money that a synchronisation of prices shows before it is
    applied: the current price of a field and the price a source, or the values
    already selected, would give it. *)
From Stdlib Require Import Floats.SpecFloat.
From S2P Require Import Prelude JsString JsNumber JsFloat JsValue PricingEditor PricingSnapshots PricingSync.

(** ** Values *)

(** [Partial<Record<RatioType, number | string | null>>]: the inner [None] is
    [null] or [undefined]. *)
Abbreviation PricingValues := (list (jstring * option pvalue)).

(** [values.key] *)
Definition value_at (key : jstring) (values : PricingValues) : option pvalue := mjoin (oget key values).

(** Pairs (ratio type, field of the snapshot). *)
Definition snapshotFields : list (jstring * (ModelRatioData → option jstring)) := [
  ("model_price", d_price);
  ("model_ratio", d_ratio);
  ("completion_ratio", λ d, completion (d_ratios d));
  ("cache_ratio", λ d, cache (d_ratios d));
  ("create_cache_ratio", λ d, createCache (d_ratios d));
  ("image_ratio", λ d, image (d_ratios d));
  ("audio_ratio", λ d, audioInput (d_ratios d));
  ("audio_completion_ratio", λ d, audioOutput (d_ratios d))
].

Definition numberValue (value : option pvalue) : option num :=
  match value with
  | None | Some (PStr []) => None
  | Some v => let number := pvalue_number v in
              if is_finite number && nle zero number then Some number else None
  end.

(** [Number.isFinite(price) ? price : null] *)
Definition finite_or_null (price : num) : option num := if is_finite price then Some price else None.

Definition defaultedFields : list jstring := ["image_ratio"; "audio_ratio"; "audio_completion_ratio"].

(** [v ?? 1] *)
Definition or_one (v : option pvalue) : option pvalue := Some (nullish v (PNum (of_Z 1))).

Definition priceForField (values : PricingValues) (field : jstring) (mode : PricingMode) (quotaPerUnit : num) : option num :=
  if bool_decide (field = "model_price") then
    if decide (mode = per_request) then numberValue (value_at "model_price" values) else None
  else if negb (bool_decide (mode = per_token)) || negb (has field RATIO_SYNC_FIELDS) then None
  else if negb (is_finite quotaPerUnit) || nle quotaPerUnit zero then None
  else
    base ← numberValue (value_at "model_ratio" values);
    let inputPrice := ndiv (nmul base (of_Z 1000000)) quotaPerUnit in
    if bool_decide (field = "model_ratio") then finite_or_null inputPrice
    else
      ratio ← numberValue (if has field defaultedFields then or_one (value_at field values) else value_at field values);
      let price := nmul inputPrice ratio in
      if bool_decide (field = "audio_completion_ratio") then
        inputAudio ← numberValue (or_one (value_at "audio_ratio" values));
        finite_or_null (nmul price inputAudio)
      else finite_or_null price.

(** ** The preview *)

(** The loop over [snapshotFields]. *)
Definition current_values (snapshot : option ModelPricingSnapshot) (differences : list (jstring * RatioDifference))
  : PricingValues :=
  fold_left (λ values '(ratioType, snapshotKey),
      let value := s ← snapshot; snapshotKey (snapshot_data s) in
      let values := match value with
                    | Some (_ :: _ as text) => obj_set ratioType (Some (PStr text)) values
                    | _ => values
                    end in
      match oget ratioType differences with
      | Some difference => obj_set ratioType (current difference) values
      | None => values
      end)
    snapshotFields [].

(** [v === 'tiered_expr'] *)
Definition says_tiered (v : option pvalue) : bool :=
  match v with Some (PStr s) => bool_decide (s = "tiered_expr") | _ => false end.

Definition current_mode (snapshot : option ModelPricingSnapshot) (differences : list (jstring * RatioDifference)) : PricingMode :=
  let mode := s ← snapshot; d_billingMode (snapshot_data s) in
  if bool_decide (mode = Some tiered_expr) || says_tiered (d ← oget "billing_mode" differences; current d)
  then tiered_expr
  else if decide (mode = Some per_request) then per_request else per_token.

Definition proposed_mode (currentMode : PricingMode) (categoryChanges : PricingValues) : PricingMode :=
  if ohas "model_price" categoryChanges then per_request
  else if existsb (λ key, ohas key categoryChanges) RATIO_SYNC_FIELDS then per_token
  else if ohas "billing_expr" categoryChanges || says_tiered (value_at "billing_mode" categoryChanges)
  then tiered_expr
  else currentMode.

(** [upstreamValue === 'same'] *)
Definition is_same (v : pvalue) : bool := match v with PStr s => bool_decide (s = "same") | PNum _ => false end.

(** The selected values as values of the preview. *)
Definition selected_values (resolutions : list (jstring * pvalue)) : PricingValues :=
  map (λ kv, (kv.1, Some kv.2)) resolutions.

(** The prices [current] and [proposed]. *)
Definition getPricingSyncPricePreview (snapshot : option ModelPricingSnapshot)
  (differences : list (jstring * RatioDifference)) (resolutions : list (jstring * pvalue))
  (field : jstring) (sourceName : option jstring) (quotaPerUnit : num) : option num * option num :=
  let current := current_values snapshot differences in
  let currentMode := current_mode snapshot differences in
  let currentPrice := priceForField current field currentMode quotaPerUnit in
  let upstreamValue := match sourceName with
                       | None => oget field resolutions
                       | Some name => d ← oget field differences; oget name (upstreams d)
                       end in
  match upstreamValue with
  | None => (currentPrice, None)
  | Some value =>
    let changes := obj_set field (if is_same value then value_at field current else Some value) (selected_values resolutions) in
    let categoryChanges := if is_same value then selected_values resolutions else changes in
    (currentPrice, priceForField (obj_spread current changes) field (proposed_mode currentMode categoryChanges) quotaPerUnit)
  end.

(** ** Prices *)

Lemma numberValue_spec value n : numberValue value = Some n → is_finite n = true ∧ nle zero n = true.
Proof.
  destruct value as [[x|[|c s]]|]; cbn [numberValue]; try done;
    (destruct (_ && _) eqn:E; [|done]; intros [= <-]; by apply andb_true_iff in E).
Qed.

Lemma finite_or_null_some p n : finite_or_null p = Some n → p = n ∧ is_finite n = true.
Proof. unfold finite_or_null. destruct (is_finite p) eqn:E; [|done]. by intros [= ->]. Qed.

Lemma nmul_finite_left x y : is_finite (nmul x y) = true → is_nan x = false.
Proof. by destruct x. Qed.

Lemma inputPrice_nonneg base quotaPerUnit :
  is_finite base = true → nle zero base = true → is_finite quotaPerUnit = true → nle quotaPerUnit zero = false →
  nle zero (ndiv (nmul base (of_Z 1000000)) quotaPerUnit) = true.
Proof.
  intros Hf Hb Hq Hp. apply ndiv_nonneg; [|rewrite nle_nlt in Hp by (done || by apply finite_not_nan); by apply negb_false_iff in Hp|done].
  apply nmul_nonneg; [done..|]. apply nmul_not_nan; [by apply finite_not_nan|done..].
Qed.

Lemma priceForField_valid values field mode quotaPerUnit price :
  priceForField values field mode quotaPerUnit = Some price → is_finite price = true ∧ nle zero price = true.
Proof.
  unfold priceForField. case_bool_decide.
  { destruct (decide _); [apply numberValue_spec|done]. }
  destruct (negb _ || negb _); [done|]. destruct (negb (is_finite quotaPerUnit) || _) eqn:Eq; [done|].
  apply orb_false_iff in Eq as [Hq%negb_false_iff Hp].
  destruct (numberValue (value_at "model_ratio" values)) as [base|] eqn:Eb; [|done]. cbn [mbind option_bind].
  apply numberValue_spec in Eb as [Hbf Hb]. pose proof (inputPrice_nonneg base quotaPerUnit Hbf Hb Hq Hp) as Hi.
  set (inputPrice := ndiv _ _) in *. clearbody inputPrice. case_bool_decide.
  { intros [-> Hf]%finite_or_null_some. done. }
  destruct (numberValue (if has _ _ then _ else _)) as [ratio|] eqn:Er; [|done]. cbn [mbind option_bind].
  apply numberValue_spec in Er as [_ Hr]. case_bool_decide.
  - destruct (numberValue (or_one _)) as [audio|] eqn:Ea; [|done]. cbn [mbind option_bind].
    apply numberValue_spec in Ea as [_ Ha]. intros [<- Hf]%finite_or_null_some. split; [done|].
    apply nmul_nonneg; [|done|by apply finite_not_nan].
    apply nmul_nonneg; [done..|]. by eapply nmul_finite_left.
  - intros [<- Hf]%finite_or_null_some. split; [done|]. apply nmul_nonneg; [done..|by apply finite_not_nan].
Qed.

(** Every price shown before a synchronisation is a finite number that is not
    negative, whatever the sources, the selection and the unit of the quota hold. *)
Lemma preview_prices_valid snapshot differences resolutions field sourceName quotaPerUnit price :
  let preview := getPricingSyncPricePreview snapshot differences resolutions field sourceName quotaPerUnit in
  preview.1 = Some price ∨ preview.2 = Some price →
  is_finite price = true ∧ nle zero price = true.
Proof.
  intros preview. unfold preview, getPricingSyncPricePreview.
  destruct (match sourceName with None => _ | Some _ => _ end) as [value|]; cbn [fst snd];
    intros [H|H]; (done || by eapply priceForField_valid).
Qed.

(** ** What a source that agrees proposes *)

Lemma value_at_same field v (current : PricingValues) key :
  value_at field current = v → value_at key (obj_spread current (obj_set field v ([] : PricingValues))) = value_at key current.
Proof.
  intros <-. unfold value_at. assert (∀ v, obj_set field v ([] : PricingValues) = [(field, v)]) as -> by done. cbn [obj_spread fold_left fst snd].
  rewrite oget_obj_set. case_bool_decide; [subst|done]. by destruct (oget field current) as [[]|].
Qed.

Lemma priceForField_values values values' field mode quotaPerUnit :
  (∀ key, value_at key values = value_at key values') →
  priceForField values field mode quotaPerUnit = priceForField values' field mode quotaPerUnit.
Proof. intros H. unfold priceForField. by rewrite !H. Qed.

(** While nothing is selected, a source that reports a field as the same proposes
    the current price. *)
Lemma preview_same snapshot differences field sourceName d v quotaPerUnit :
  oget field differences = Some d → oget sourceName (upstreams d) = Some v → is_same v = true →
  let preview := getPricingSyncPricePreview snapshot differences [] field (Some sourceName) quotaPerUnit in
  preview.2 = preview.1.
Proof.
  intros Hd Hv Hs. unfold getPricingSyncPricePreview. rewrite Hd. cbn [mbind option_bind]. rewrite Hv, Hs. cbn [fst snd].
  apply priceForField_values. intros key. by apply value_at_same.
Qed.

(** ** What is shown is what is applied *)

Lemma value_at_merged field v current resolutions :
  NoDup (okeys resolutions) →
  value_at field (obj_spread current (obj_set field (Some v) (selected_values resolutions))) = Some v.
Proof.
  intros Hn. unfold value_at. rewrite oget_obj_spread, oget_reverse, oget_obj_set, bool_decide_eq_true_2; try done.
  apply NoDup_okeys_obj_set. unfold okeys, selected_values in *. by rewrite <- list_fmap_compose.
Qed.

Lemma ohas_selected key resolutions : ohas key (selected_values resolutions) = has key (okeys resolutions).
Proof.
  unfold ohas, has. apply bool_decide_ext. rewrite <- elem_of_okeys. unfold okeys, selected_values.
  by rewrite <- list_fmap_compose.
Qed.

Lemma ohas_selected_set key field v resolutions :
  field ∈ okeys resolutions → ohas key (obj_set field v (selected_values resolutions)) = has key (okeys resolutions).
Proof.
  intros Hf. unfold ohas, has. apply bool_decide_ext. rewrite <- elem_of_okeys, elem_of_okeys_obj_set.
  assert (∀ k, k ∈ okeys (selected_values resolutions) ↔ k ∈ okeys resolutions) as Hk.
  { intros k. unfold okeys, selected_values. by rewrite <- list_fmap_compose. }
  rewrite Hk. naive_solver.
Qed.

(** A price is proposed only for a field whose tariff the selection leads to. *)
Lemma proposed_field values field currentMode changes quotaPerUnit price :
  priceForField values field (proposed_mode currentMode changes) quotaPerUnit = Some price →
  ohas field changes = true →
  field = "model_price" ∨ has field RATIO_SYNC_FIELDS = true ∧ ohas "model_price" changes = false.
Proof.
  unfold priceForField. case_bool_decide; [auto|]. destruct (negb _ || negb _) eqn:E; [done|].
  apply orb_false_iff in E as [Em%negb_false_iff Ef%negb_false_iff]. intros _ _. right. split; [done|].
  bool_to_prop. unfold proposed_mode in Em. by destruct (ohas "model_price" changes).
Qed.

Lemma priced_value values field mode quotaPerUnit price v :
  priceForField values field mode quotaPerUnit = Some price → value_at field values = Some v →
  numberValue (Some v) = Some (pvalue_number v).
Proof.
  intros Hp Hv. assert (numberValue (Some v) ≠ None) as Hn.
  { intros Hn. revert Hp. unfold priceForField. case_bool_decide as E1.
    - subst field. rewrite Hv, Hn. by destruct (decide _).
    - destruct (negb _ || negb _); [done|]. destruct (negb _ || _); [done|].
      destruct (numberValue (value_at "model_ratio" values)) as [base|] eqn:Eb; [|done]. cbn [mbind option_bind].
      case_bool_decide as E2; [subst field; rewrite Hv, Hn in Eb; done|].
      rewrite Hv. assert (or_one (Some v) = Some v) as -> by done.
      assert ((if has field defaultedFields then Some v else Some v) = Some v) as -> by by destruct (has _ _).
      by rewrite Hn. }
  destruct v as [x|[|c s]]; cbn [numberValue] in *; (done || by destruct (_ && _)).
Qed.

Section applied.
Variable toUpperCase : jstring → jstring.
(** The ASCII letters. *)
Hypothesis toUpperCase_ascii : ∀ c, (97 ≤ c ≤ 122)%N → toUpperCase [c] = [(c - 32)%N].

Lemma known_option_keys :
  map (optionKeyBySyncField toUpperCase) SYNC_FIELD_ORDER = RATIO_OPTION_KEYS ++ "ModelPrice" :: TIERED_OPTION_KEYS.
Proof using toUpperCase_ascii.
  unfold SYNC_FIELD_ORDER. rewrite map_app.
  rewrite (option_keys_kind toUpperCase toUpperCase_ascii RATIO_SYNC_FIELDS RATIO_OPTION_KEYS) by (right; left).
  f_equal. pose proof (option_keys_kind toUpperCase toUpperCase_ascii ["model_price"] ["ModelPrice"] ltac:(left)) as Hp.
  pose proof (option_keys_kind toUpperCase toUpperCase_ascii ["billing_mode"; "billing_expr"] TIERED_OPTION_KEYS
    ltac:(right; right; left)) as Ht.
  cbn [map] in *. congruence.
Qed.

Lemma option_key_inj f g :
  f ∈ SYNC_FIELD_ORDER → g ∈ SYNC_FIELD_ORDER →
  optionKeyBySyncField toUpperCase f = optionKeyBySyncField toUpperCase g → f = g.
Proof using toUpperCase_ascii.
  assert (NoDup (map (optionKeyBySyncField toUpperCase) SYNC_FIELD_ORDER)) as Hn.
  { rewrite known_option_keys. by apply (bool_decide_unpack _); vm_compute. }
  revert Hn. generalize SYNC_FIELD_ORDER. intros l Hn [i Hi]%list_elem_of_lookup [j Hj]%list_elem_of_lookup E.
  enough (i = j) by naive_solver.
  apply (NoDup_lookup _ i j (optionKeyBySyncField toUpperCase f) Hn); [|rewrite E];
    (change (map ?k ?m) with (k <$> m); rewrite list_lookup_fmap; by rewrite ?Hi, ?Hj).
Qed.

Lemma selected_entry field v ratios :
  NoDup (okeys ratios) → okeys ratios ⊆ SYNC_FIELD_ORDER → oget field ratios = Some v →
  oget (optionKeyBySyncField toUpperCase field) (reverse (selected_entries toUpperCase ratios))
    = Some (sync_value field v).
Proof using toUpperCase_ascii.
  intros Hn Hs Hv. assert (NoDup (okeys (selected_entries toUpperCase ratios))) as Hn'.
  { assert (okeys (selected_entries toUpperCase ratios) = optionKeyBySyncField toUpperCase <$> okeys ratios) as ->
      by (unfold okeys, selected_entries; by rewrite <- !list_fmap_compose).
    apply NoDup_fmap_2_strong; [|done]. intros f g Hf Hg. apply option_key_inj; by apply Hs. }
  rewrite oget_reverse by done. apply (elem_of_oget _ _ _ Hn').
  apply list_elem_of_fmap. exists (field, v). split; [done|]. by apply elem_of_oget.
Qed.

(** *** The options a selection leaves behind *)

(** The value of a field of the model once the patches are applied: deletions come
    first, and a field no patch touches keeps the value it has. *)
Definition after_patches (patches : list (jstring * PricingSyncPatch)) (model : jstring) (current : PricingValues)
  (field : jstring) : option pvalue :=
  let key := optionKeyBySyncField toUpperCase field in
  match oget model (set_at key patches) with
  | Some v => Some v
  | None => if has model (deletes_at key patches) then None else value_at field current
  end.

(** A field of a selection without a fixed price is set, or it keeps its value. *)
Lemma after_ratio selection model ratios current field :
  NoDup (okeys selection) → oget model selection = Some ratios → NoDup (okeys ratios) → okeys ratios ⊆ SYNC_FIELD_ORDER →
  has "model_price" (okeys ratios) = false → existsb (λ f, has f RATIO_SYNC_FIELDS) (okeys ratios) = true →
  has field RATIO_SYNC_FIELDS = true →
  after_patches (buildPricingSyncPatches toUpperCase selection) model current field
  = match oget field ratios with Some v => Some (PNum (pvalue_number v)) | None => value_at field current end.
Proof using toUpperCase_ascii.
  intros Hsel Hm Hn Hs Hno Hratio Hf%has_spec. unfold after_patches, buildPricingSyncPatches.
  set (key := optionKeyBySyncField toUpperCase field). destruct (build_fold_at toUpperCase selection [] key Hsel) as [Hdel Hset].
  rewrite Hset, Hm. cbn [mbind option_bind]. destruct (oget field ratios) as [v|] eqn:Ev.
  { unfold key. rewrite (selected_entry field v ratios) by done. unfold sync_value.
    assert (has field NUMERIC_SYNC_FIELDS = true) as ->; [|done]. apply has_spec. unfold NUMERIC_SYNC_FIELDS.
    rewrite elem_of_new_set, elem_of_app. by left. }
  assert (oget key (reverse (selected_entries toUpperCase ratios)) = None) as ->.
  { apply oget_None. unfold okeys. rewrite fmap_reverse, elem_of_reverse. unfold selected_entries. rewrite <- list_fmap_compose.
    intros (rv & E & Hin)%list_elem_of_fmap. cbn in E. apply oget_None in Ev. apply Ev.
    assert (rv.1 ∈ okeys ratios) as Hin' by by apply (list_elem_of_fmap_2 fst).
    apply option_key_inj in E as ->; [done| |by apply Hs]. unfold SYNC_FIELD_ORDER. apply elem_of_app. by left. }
  change (oget model (set_at key [])) with (@None pvalue). cbv iota.
  assert (has model (deletes_at key (fold_left (patch_model toUpperCase) selection [])) = false) as ->; [|done].
  apply has_spec_false. rewrite Hdel. intros [Hd|(ratios' & Hr & Hd)]; [by apply elem_of_nil in Hd|].
  rewrite Hm in Hr. injection Hr as <-. revert Hd. unfold deleted_keys. rewrite Hno, Hratio.
  assert (key ∈ RATIO_OPTION_KEYS) as Hk.
  { rewrite <- (option_keys_kind toUpperCase toUpperCase_ascii RATIO_SYNC_FIELDS RATIO_OPTION_KEYS) by (right; left).
    apply list_elem_of_fmap. by exists field. }
  intros Hd. assert (Forall (λ k, k ∉ "ModelPrice" :: TIERED_OPTION_KEYS) RATIO_OPTION_KEYS) as Hall.
  { by apply (bool_decide_unpack _); vm_compute. }
  rewrite Forall_forall in Hall. by apply (Hall key).
Qed.

(** A selected fixed price is set. *)
Lemma after_fixed selection model ratios current v :
  NoDup (okeys selection) → oget model selection = Some ratios → NoDup (okeys ratios) → okeys ratios ⊆ SYNC_FIELD_ORDER →
  oget "model_price" ratios = Some v →
  after_patches (buildPricingSyncPatches toUpperCase selection) model current "model_price" = Some (PNum (pvalue_number v)).
Proof using toUpperCase_ascii.
  intros Hsel Hm Hn Hs Hv. unfold after_patches, buildPricingSyncPatches.
  destruct (build_fold_at toUpperCase selection [] (optionKeyBySyncField toUpperCase "model_price") Hsel) as [_ Hset].
  rewrite Hset, Hm. cbn [mbind option_bind]. by rewrite (selected_entry _ v ratios).
Qed.

(** *** The price of a field *)

(** The ratios a price multiplies the price of the input by, in their order. *)
Definition price_factors (field : jstring) : list jstring :=
  if bool_decide (field = "model_ratio") then []
  else if bool_decide (field = "audio_completion_ratio") then ["audio_completion_ratio"; "audio_ratio"] else [field].

(** The price of a field by the options of a model, in money per million tokens: the
    fixed price, or the ratio of the model times a million, by the quota of a unit of
    money, times the ratios of the field.  A ratio that is not set counts as one. *)
Definition option_price (quotaPerUnit : num) (options : jstring → option pvalue) (field : jstring) : num :=
  let number f := from_option pvalue_number (of_Z 1) (options f) in
  if bool_decide (field = "model_price") then number "model_price"
  else fold_left nmul (map number (price_factors field)) (ndiv (nmul (number "model_ratio") (of_Z 1000000)) quotaPerUnit).

Lemma numberValue_number v n : numberValue v = Some n → ∃ p, v = Some p ∧ pvalue_number p = n.
Proof. destruct v as [[x|[|c s]]|]; cbn [numberValue]; try done; (destruct (_ && _); [|done]); intros [= <-]; by eexists. Qed.

Lemma number_or_one v n : numberValue (or_one v) = Some n → from_option pvalue_number (of_Z 1) v = n.
Proof. intros (p & [= E] & <-)%numberValue_number. subst p. by destruct v. Qed.

(** The price the code computes is that of the values it is given. *)
Lemma priceForField_price values field mode quotaPerUnit price :
  priceForField values field mode quotaPerUnit = Some price → price = option_price quotaPerUnit (λ f, value_at f values) field.
Proof.
  unfold priceForField, option_price, price_factors. case_bool_decide as E0.
  { destruct (decide _); [|done]. by intros (p & -> & <-)%numberValue_number. }
  destruct (negb _ || negb _); [done|]. destruct (negb _ || _); [done|].
  destruct (numberValue (value_at "model_ratio" values)) as [base|] eqn:Eb; [|done]. cbn [mbind option_bind].
  apply numberValue_number in Eb as (b & -> & <-). cbn [from_option].
  case_bool_decide as E1; [by intros [<- _]%finite_or_null_some|].
  destruct (numberValue (if has _ _ then _ else _)) as [ratio|] eqn:Er; [|done]. cbn [mbind option_bind].
  assert (from_option pvalue_number (of_Z 1) (value_at field values) = ratio) as Hr.
  { destruct (has field defaultedFields); [by apply number_or_one|]. by apply numberValue_number in Er as (r & -> & <-). }
  case_bool_decide as E2.
  - subst field. destruct (numberValue (or_one _)) as [audio|] eqn:Ea; [|done]. cbn [mbind option_bind].
    intros [<- _]%finite_or_null_some. apply number_or_one in Ea. cbn [map fold_left]. by rewrite Hr, Ea.
  - intros [<- _]%finite_or_null_some. cbn [map fold_left]. by rewrite Hr.
Qed.

Lemma option_price_ext quotaPerUnit o o' field :
  (∀ f, f ∈ (if bool_decide (field = "model_price") then ["model_price"] else "model_ratio" :: price_factors field) →
    from_option pvalue_number (of_Z 1) (o f) = from_option pvalue_number (of_Z 1) (o' f)) →
  option_price quotaPerUnit o field = option_price quotaPerUnit o' field.
Proof.
  intros H. unfold option_price. case_bool_decide; [apply H; left|].
  rewrite (H "model_ratio") by left. f_equal. apply map_ext_in. intros f Hf. apply H. right. by apply list_elem_of_In.
Qed.

(** The values of a preview of selected fields. *)
Lemma value_at_selected key field v current ratios :
  NoDup (okeys ratios) → oget field ratios = Some v →
  value_at key (obj_spread current (obj_set field (Some v) (selected_values ratios)))
  = match oget key ratios with Some v => Some v | None => value_at key current end.
Proof.
  intros Hn Hv. assert (okeys (selected_values ratios) = okeys ratios) as Hk
    by (unfold okeys, selected_values; by rewrite <- list_fmap_compose).
  unfold value_at. rewrite oget_obj_spread, oget_reverse, oget_obj_set by (apply NoDup_okeys_obj_set; by rewrite Hk).
  case_bool_decide as E; [subst key; by rewrite Hv|]. unfold selected_values.
  assert (oget key (map (λ kv, (kv.1, Some kv.2)) ratios) = Some <$> oget key ratios) as ->; [|by destruct (oget key ratios)].
  clear. induction ratios as [|[k w] ratios IH]; [done|]. cbn [map oget fst snd]. by case_bool_decide.
Qed.

(** C30: The price that is proposed for a selected field is the price of the model once
    the patches of the selection are applied to its options, computed from those
    options: the fixed price, or the input price times the ratios of the field, those
    that are selected and those that stay.  The patches set the option of the field to
    the number selected, and this number is finite and not negative. *)
Theorem proposed_price_applied snapshot differences selection model ratios field v quotaPerUnit price :
  NoDup (okeys selection) → oget model selection = Some ratios →
  NoDup (okeys ratios) → okeys ratios ⊆ SYNC_FIELD_ORDER →
  oget field ratios = Some v → is_same v = false →
  (getPricingSyncPricePreview snapshot differences ratios field None quotaPerUnit).2 = Some price →
  let options := after_patches (buildPricingSyncPatches toUpperCase selection) model (current_values snapshot differences) in
  price = option_price quotaPerUnit options field ∧
  options field = Some (PNum (pvalue_number v)) ∧
  is_finite (pvalue_number v) = true ∧ nle zero (pvalue_number v) = true.
Proof using toUpperCase_ascii.
  intros Hsel Hm Hn Hs Hv Hsame Hp options. unfold getPricingSyncPricePreview in Hp.
  rewrite Hv, Hsame in Hp. cbn [fst snd] in Hp. set (current := current_values snapshot differences) in *.
  assert (field ∈ okeys ratios) as Hf by (apply elem_of_okeys; eauto).
  pose proof (priced_value _ _ _ _ _ _ Hp (value_at_merged field v _ ratios Hn)) as Hnum.
  pose proof (priceForField_price _ _ _ _ _ Hp) as ->.
  apply proposed_field in Hp; [|rewrite ohas_selected_set by done; by apply has_spec].
  rewrite ohas_selected_set in Hp by done. apply numberValue_spec in Hnum.
  destruct Hp as [->|[Hfr Hno]].
  - assert (options "model_price" = Some (PNum (pvalue_number v))) as Ho by by apply (after_fixed selection model ratios).
    split_and!; [|done|apply Hnum..]. apply option_price_ext. intros f ->%list_elem_of_singleton.
    by rewrite (value_at_selected _ _ v), Ho, Hv.
  - assert (existsb (λ f, has f RATIO_SYNC_FIELDS) (okeys ratios) = true) as Hr.
    { apply existsb_exists. exists field. split; [by apply list_elem_of_In|done]. }
    assert (∀ f, has f RATIO_SYNC_FIELDS = true → options f
      = match oget f ratios with Some v => Some (PNum (pvalue_number v)) | None => value_at f current end) as Ho.
    { intros f Hf'. by apply after_ratio. }
    split_and!; [|by rewrite Ho, Hv|apply Hnum..]. apply option_price_ext.
    assert (bool_decide (field = "model_price") = false) as -> by (apply bool_decide_eq_false_2; by intros ->).
    intros f Hin. rewrite (value_at_selected _ _ v), Ho; [by destruct (oget f ratios)| |done..].
    apply elem_of_cons in Hin as [->|Hin]; [done|]. revert Hin. unfold price_factors.
    case_bool_decide; [by intros ?%elem_of_nil|]. case_bool_decide; [|by intros ->%list_elem_of_singleton].
    by intros [->|[->|[]%elem_of_nil]%elem_of_cons]%elem_of_cons.
Qed.
End applied.

(** ** Examples and witnesses *)

Definition preview_snapshot (audio audioOut : option jstring) : ModelPricingSnapshot := {|
  snapshot_data := {| d_name := "model"; d_price := None; d_ratio := Some "0.5";
    d_ratios := lanes_of (λ k, match k with lane_audioInput => audio | lane_audioOutput => audioOut | _ => None end);
    d_billingMode := None; d_billingExpr := None; d_requestRuleExpr := None |};
  hasConflict := false |}.

Definition reported (current : option pvalue) (v : pvalue) : RatioDifference :=
  {| current := current; upstreams := [("source", v)]; confidence := [] |}.

Definition audioDifferences : list (jstring * RatioDifference) :=
  [("audio_ratio", reported None (PNum (Number_of_string "0.93")));
   ("audio_completion_ratio", reported None (PNum (Number_of_string "1.87")))].

(** The prices of [pricing-sync-preview.test.ts] as texts. *)
Definition preview_texts (p : option num * option num) : option jstring * option jstring :=
  (Number_to_string <$> p.1, Number_to_string <$> p.2).

Definition quota_default : num := of_Z 500000.

Example preview_quota_unit :
  preview_texts (getPricingSyncPricePreview (Some (preview_snapshot None None)) audioDifferences [] "audio_ratio"
    (Some "source") (of_Z 1000000)) = (Some "0.5", Some "0.465").
Proof. vm_compute. reflexivity. Qed.

Example preview_no_quota :
  getPricingSyncPricePreview (Some (preview_snapshot None None)) audioDifferences [] "audio_ratio"
    (Some "source") (of_Z 0) = (None, None).
Proof. vm_compute. reflexivity. Qed.

Example preview_candidate_only :
  preview_texts (getPricingSyncPricePreview (Some (preview_snapshot None None)) audioDifferences [] "audio_completion_ratio"
    (Some "source") quota_default) = (Some "1", Some "1.87").
Proof. vm_compute. reflexivity. Qed.

Example preview_new_base :
  preview_texts (getPricingSyncPricePreview (Some (preview_snapshot None None)) audioDifferences
    [("model_ratio", PNum (of_Z 2))] "audio_ratio" (Some "source") quota_default) = (Some "1", Some "3.72").
Proof. vm_compute. reflexivity. Qed.

Example preview_not_a_number :
  preview_texts (getPricingSyncPricePreview (Some (preview_snapshot None None))
    [("audio_ratio", reported (Some (PNum (of_Z 1))) (PStr "NaN"))] [] "audio_ratio" (Some "source") quota_default)
    = (Some "1", None).
Proof. vm_compute. reflexivity. Qed.

Example preview_fixed_price_selected :
  getPricingSyncPricePreview (Some (preview_snapshot None None)) audioDifferences
    [("model_price", PNum (of_Z 2))] "audio_ratio" (Some "source") quota_default
    = (Some (of_Z 1), None).
Proof. vm_compute. reflexivity. Qed.

Example preview_prices_valid_witness : is_finite (of_Z 4) = true ∧ nle zero (of_Z 4) = true.
Proof.
  apply (preview_prices_valid (Some (preview_snapshot None None)) audioDifferences
    [("model_ratio", PNum (of_Z 2))] "model_ratio" None quota_default).
  right. vm_compute. reflexivity.
Defined.

Definition same_audio : list (jstring * RatioDifference) :=
  [("audio_ratio", reported (Some (PNum (Number_of_string "0.8"))) (PStr "same"))].

Example preview_same_witness :
  let preview := getPricingSyncPricePreview (Some (preview_snapshot None None)) same_audio [] "audio_ratio"
                   (Some "source") quota_default in
  preview.2 = preview.1.
Proof.
  apply (preview_same (Some (preview_snapshot None None)) same_audio "audio_ratio" "source"
    (reported (Some (PNum (Number_of_string "0.8"))) (PStr "same")) (PStr "same")); vm_compute; reflexivity.
Defined.

Example proposed_price_applied_witness :
  let options := after_patches ascii_upper (buildPricingSyncPatches ascii_upper sample_resolutions) "gpt" (current_values None []) in
  Number_of_string "20" = option_price quota_default options "completion_ratio" ∧
  options "completion_ratio" = Some (PNum (of_Z 4)) ∧ is_finite (of_Z 4) = true ∧ nle zero (of_Z 4) = true.
Proof.
  apply (proposed_price_applied ascii_upper ascii_upper_spec None [] sample_resolutions "gpt"
    [("model_ratio", PStr "2.5"); ("completion_ratio", PNum (of_Z 4))] "completion_ratio" (PNum (of_Z 4)) quota_default);
    try (vm_compute; reflexivity); try (apply (bool_decide_unpack _); vm_compute; reflexivity).
Defined.
