(* ===== verification/ModelMapping.v ===== *)
(** * ModelMapping: [features/channels/lib/model-mapping-validation.ts]

    The model list of a channel and the JSON mapping that redirects models:
    parsing, validation and the classification of models for display.  The
    arguments are strings, as their types say. *)
From Stdlib Require Import Floats.SpecFloat.
From S2P Require Import Prelude JsString JsNumber JsValue JsJson.

Definition parseModelsString (modelsStr : jstring) : list jstring :=
  if truthy modelsStr
  then names_of (cu ",") modelsStr
  else [].

Definition formatModelsArray (models : list jstring) : jstring := join "," (new_set models).

Definition normalizeModelName (model : jstring) : jstring := trim model.

(** [JSON.parse(text)] when it is an object and no array; the other values and
    the exception are [None]. *)
Definition parse_mapping (text : jstring) : option (list (jstring * jval)) :=
  match JSON_parse text with Some (JObj o) => Some o | _ => None end.

Definition extractMappingSourceModels (modelMapping : jstring) : list jstring :=
  let trimmed := trim modelMapping in
  if negb (truthy trimmed) then []
  else match parse_mapping trimmed with
       | None => []
       | Some parsed => new_set (filter (λ k, truthy k = true) (map trim (okeys parsed)))
       end.

Definition extractRedirectModels (modelMapping : jstring) : list jstring :=
  let trimmed := trim modelMapping in
  if negb (truthy trimmed) then []
  else match parse_mapping trimmed with
       | None => []
       | Some parsed =>
         new_set (omap (λ value, match value with
                                 | JStr s => if truthy (trim s) then Some (trim s) else None
                                 | _ => None
                                 end) (ovalues parsed))
       end.

(** The loop over the positions. *)
Fixpoint differ_at (a b : list jstring) : bool :=
  match a, b with
  | x :: a, y :: b => if bool_decide (x = y) then differ_at a b else true
  | _, _ => false
  end.

Definition hasModelConfigChanged (currentModels : list jstring) (currentModelMapping : jstring)
  (initialModels : list jstring) (initialModelMapping : jstring) : bool :=
  if bool_decide (length initialModels = 0) && negb (truthy initialModelMapping) then true
  else if negb (bool_decide (length currentModels = length initialModels)) then true
  else if differ_at currentModels initialModels then true
  else negb (bool_decide (trim currentModelMapping = trim initialModelMapping)).

Definition findMissingModelsInMapping (modelMapping : jstring) (currentModels : list jstring) : list jstring :=
  if negb (truthy modelMapping) || bool_decide (trim modelMapping = []) then []
  else match parse_mapping modelMapping with
       | None => []
       | Some parsedMapping =>
         let modelSet := new_set (map normalizeModelName currentModels) in
         new_set (filter (λ key, truthy key && negb (has key modelSet) = true)
                    (map normalizeModelName (okeys parsedMapping)))
       end.

(** The error, [None] when the mapping is valid. *)
Definition validateModelMappingJson (modelMapping : jstring) : option jstring :=
  if negb (truthy modelMapping) || bool_decide (trim modelMapping = []) then None
  else match JSON_parse modelMapping with
       | None => Some "Model mapping must be valid JSON format"
       | Some (JObj parsed) =>
         if existsb (λ value, negb (typeof_string value)) (ovalues parsed)
         then Some "Model mapping values must be strings" else None
       | Some _ => Some "Model mapping must be a valid JSON object"
       end.

Definition findExposedTargetModels (modelMapping : jstring) (currentModels : list jstring) : list jstring :=
  let redirectModels := extractRedirectModels modelMapping in
  match redirectModels with
  | [] => []
  | _ =>
    let modelSet := new_set (map normalizeModelName currentModels) in
    filter (λ model, has (normalizeModelName model) modelSet = true) redirectModels
  end.

Record CategorizedModels := {
  normalizedCurrentModels : list jstring;
  normalizedRedirectModels : list jstring;
  classificationSet : list jstring;
  redirectOnlySet : list jstring;
}.

Definition categorizeModelsWithRedirect (currentModels redirectModels : list jstring) : CategorizedModels :=
  let current := new_set (filter (λ m, truthy m = true) (map normalizeModelName currentModels)) in
  let redirect := new_set (filter (λ m, truthy m = true) (map normalizeModelName redirectModels)) in
  {| normalizedCurrentModels := current;
     normalizedRedirectModels := redirect;
     classificationSet := new_set (current ++ redirect);
     redirectOnlySet := new_set (filter (λ m, negb (has m current) = true) redirect) |}.

Example missing_ex :
  findMissingModelsInMapping ("{" ++ quote " gpt-4 " ++ ":" ++ quote "x" ++ "," ++ quote "b" ++ ":" ++ quote "y" ++ "}") ["b "]
  = ["gpt-4"].
Proof. vm_compute. reflexivity. Qed.

(** ** Model lists *)

(** Names that survive the text form. *)
Definition list_name (m : jstring) : Prop := name_without (cu ",") m.

(** A list of models is read back from its text, without the repetitions. *)
Lemma models_roundtrip models :
  Forall list_name models → parseModelsString (formatModelsArray models) = new_set models.
Proof.
  intros HF. unfold parseModelsString, formatModelsArray.
  assert (Forall list_name (new_set models)) as HN.
  { rewrite !Forall_forall in *. intros m Hm. apply HF. by rewrite elem_of_new_set in Hm. }
  set (l := new_set models) in *. clearbody l. clear HF models.
  destruct (truthy (join "," l)) eqn:E; [exact (names_of_join _ l HN)|]. apply truthy_false in E.
  rewrite <- (names_of_join _ l HN). change ([cu ","]) with ("," : jstring). by rewrite E.
Qed.

Lemma models_roundtrip_witness :
  parseModelsString (formatModelsArray ["gpt-4"; "o3"; "gpt-4"]) = new_set ["gpt-4"; "o3"; "gpt-4"].
Proof.
  apply models_roundtrip.
  apply Forall_forall. intros m Hm. unfold list_name, name_without, trimmed.
  repeat (apply elem_of_cons in Hm as [->|Hm];
    [split_and!; [discriminate|reflexivity|reflexivity|apply (bool_decide_unpack _); vm_compute; exact I]|]).
  by apply elem_of_nil in Hm.
Defined.

(** ** Validation *)

Lemma trim_nil_blank s : truthy s = false ∨ trim s = [] ↔ trim s = [].
Proof. split; [|auto]. intros [H%truthy_false|H]; [by subst|done]. Qed.

Lemma blank_check s : (negb (truthy s) || bool_decide (trim s = [])) = bool_decide (trim s = []).
Proof. destruct s as [|c s]; [done|]. done. Qed.

(** A mapping is valid exactly when it is blank or an object of strings; a
    valid mapping has as sources all its trimmed keys, as targets all its trimmed
    values, the empty ones excepted. *)
Lemma validate_mapping modelMapping :
  (validateModelMappingJson modelMapping = None ↔
     trim modelMapping = [] ∨
     ∃ parsed, JSON_parse modelMapping = Some (JObj parsed) ∧ Forall (λ v, ∃ s, v = JStr s) (ovalues parsed)) ∧
  (∀ parsed, trim modelMapping ≠ [] → JSON_parse (trim modelMapping) = Some (JObj parsed) →
     Forall (λ v, ∃ s, v = JStr s) (ovalues parsed) →
     (∀ m, m ∈ extractMappingSourceModels modelMapping ↔ m ≠ [] ∧ ∃ k, k ∈ okeys parsed ∧ m = trim k) ∧
     (∀ m, m ∈ extractRedirectModels modelMapping ↔ m ≠ [] ∧ ∃ s, JStr s ∈ ovalues parsed ∧ m = trim s)).
Proof.
  split.
  - unfold validateModelMappingJson. rewrite blank_check. case_bool_decide as Hb; [naive_solver|].
    destruct (JSON_parse modelMapping) as [v|] eqn:E; [|naive_solver].
    destruct v as [| | | | | |parsed]; try (split; [done|naive_solver]).
    destruct (existsb _ (ovalues parsed)) eqn:Ex.
    + split; [done|]. intros [?|(p & [= <-] & HF)]; [done|]. apply existsb_exists in Ex as (v & Hv & Ht).
      rewrite Forall_forall in HF. destruct (HF v) as [s ->]; [by apply list_elem_of_In|done].
    + split; [|done]. intros _. right. exists parsed. split; [done|]. apply Forall_forall. intros v Hv.
      destruct (typeof_string v) eqn:Et; [destruct v; try done; by eexists|].
      assert (existsb (λ value, negb (typeof_string value)) (ovalues parsed) = true); [|congruence].
      apply existsb_exists. exists v. split; [by apply list_elem_of_In|]. by rewrite Et.
  - intros parsed Hb Hp HF. unfold extractMappingSourceModels, extractRedirectModels, parse_mapping.
    pose proof Hb as ->%truthy_spec. cbn [negb]. rewrite Hp. split; intros m; rewrite elem_of_new_set.
    + rewrite list_elem_of_filter, truthy_spec. change (map trim (okeys parsed)) with (trim <$> okeys parsed).
      rewrite list_elem_of_fmap. naive_solver.
    + rewrite list_elem_of_omap. split.
      * intros (v & Hv & Hm). destruct v; try done. destruct (truthy (trim s)) eqn:E; [|done].
        injection Hm as <-. split; [by apply truthy_spec|by exists s].
      * intros (Hm & s & Hs & ->). exists (JStr s). split; [done|]. by apply truthy_spec in Hm as ->.
Qed.

Definition sample_mapping : jstring :=
  "{" ++ quote " a " ++ ":" ++ quote "b" ++ "}".

Lemma validate_mapping_witness :
  ("b" : jstring) ∈ extractRedirectModels sample_mapping ↔
  ("b" : jstring) ≠ [] ∧ ∃ s, JStr s ∈ ovalues [(" a ", JStr "b")] ∧ "b" = trim s.
Proof.
  apply (proj2 (validate_mapping sample_mapping) [(" a ", JStr "b")]);
    [discriminate|vm_compute; reflexivity|].
  repeat constructor. by exists "b".
Defined.

(** ** Models missing from the list, models exposed by it *)

Lemma elem_of_normalized m models :
  m ∈ new_set (map normalizeModelName models) ↔ ∃ m', m' ∈ models ∧ m = trim m'.
Proof.
  rewrite elem_of_new_set. change (map normalizeModelName models) with (normalizeModelName <$> models).
  rewrite list_elem_of_fmap. unfold normalizeModelName. naive_solver.
Qed.

(** The missing models of a mapping are its trimmed non-empty sources that no
    model of the list is, each once. *)
Lemma missing_models modelMapping parsed currentModels :
  JSON_parse modelMapping = Some (JObj parsed) →
  NoDup (findMissingModelsInMapping modelMapping currentModels) ∧
  ∀ m, m ∈ findMissingModelsInMapping modelMapping currentModels ↔
       m ≠ [] ∧ (∃ k, k ∈ okeys parsed ∧ m = trim k) ∧ ∀ m', m' ∈ currentModels → trim m' ≠ m.
Proof.
  intros Hp. unfold findMissingModelsInMapping, parse_mapping. rewrite blank_check, Hp.
  case_bool_decide as Hb.
  { by rewrite JSON_parse_blank in Hp. }
  split; [apply NoDup_new_set|]. intros m.
  rewrite elem_of_new_set, list_elem_of_filter, andb_true_iff, negb_true_iff, truthy_spec, has_spec_false.
  rewrite elem_of_normalized. change (map normalizeModelName (okeys parsed)) with (trim <$> okeys parsed).
  rewrite list_elem_of_fmap. unfold normalizeModelName. naive_solver.
Qed.

Lemma missing_models_witness :
  NoDup (findMissingModelsInMapping sample_mapping ["b"]) ∧
  ∀ m, m ∈ findMissingModelsInMapping sample_mapping ["b"] ↔
       m ≠ [] ∧ (∃ k, k ∈ okeys [(" a ", JStr "b")] ∧ m = trim k) ∧ ∀ m', m' ∈ ["b" : jstring] → trim m' ≠ m.
Proof. apply missing_models. vm_compute. reflexivity. Defined.

(** The exposed targets are the redirect targets that the list holds too. *)
Lemma exposed_targets modelMapping currentModels m :
  m ∈ findExposedTargetModels modelMapping currentModels ↔
  m ∈ extractRedirectModels modelMapping ∧ ∃ m', m' ∈ currentModels ∧ trim m' = trim m.
Proof.
  unfold findExposedTargetModels. destruct (extractRedirectModels modelMapping) as [|x l] eqn:E.
  { rewrite elem_of_nil. naive_solver. }
  rewrite <- E, list_elem_of_filter, has_spec, elem_of_normalized. unfold normalizeModelName. naive_solver.
Qed.

(** The classification for display: the two sets of trimmed names, their
    union, and the targets that are no model of the list. *)
Lemma categorize_sets currentModels redirectModels :
  let c := categorizeModelsWithRedirect currentModels redirectModels in
  (∀ m, m ∈ normalizedCurrentModels c ↔ m ≠ [] ∧ ∃ m', m' ∈ currentModels ∧ m = trim m') ∧
  (∀ m, m ∈ normalizedRedirectModels c ↔ m ≠ [] ∧ ∃ m', m' ∈ redirectModels ∧ m = trim m') ∧
  classificationSet c ≡ₚ normalizedCurrentModels c ++ redirectOnlySet c ∧
  NoDup (classificationSet c).
Proof.
  assert (∀ l m, m ∈ new_set (filter (λ m, truthy m = true) (map normalizeModelName l)) ↔
                 m ≠ [] ∧ ∃ m', m' ∈ l ∧ m = trim m') as Hn.
  { intros l m. rewrite elem_of_new_set, list_elem_of_filter, truthy_spec.
    change (map normalizeModelName l) with (trim <$> l). rewrite list_elem_of_fmap. naive_solver. }
  cbn. split_and!; [apply Hn|apply Hn| |apply NoDup_new_set].
  set (cur := new_set (filter _ (map normalizeModelName currentModels))). set (red := new_set (filter _ (map normalizeModelName redirectModels))).
  apply NoDup_Permutation; [apply NoDup_new_set| |].
  - apply NoDup_app. split_and!; [apply NoDup_new_set| |apply NoDup_new_set].
    intros m Hm Hin. apply elem_of_new_set, list_elem_of_filter in Hin as [Hin _].
    rewrite negb_true_iff, has_spec_false in Hin. done.
  - intros m. rewrite elem_of_new_set, !elem_of_app, elem_of_new_set, list_elem_of_filter, negb_true_iff, has_spec_false.
    destruct (decide (m ∈ cur)); naive_solver.
Qed.

(** Saving is offered for a new channel and for a change of the list of
    models or of the trimmed mapping, and only then. *)
Lemma config_changed_spec currentModels currentModelMapping initialModels initialModelMapping :
  hasModelConfigChanged currentModels currentModelMapping initialModels initialModelMapping = false ↔
  (initialModels ≠ [] ∨ initialModelMapping ≠ []) ∧ currentModels = initialModels ∧
  trim currentModelMapping = trim initialModelMapping.
Proof.
  assert (∀ a b, length a = length b → differ_at a b = false ↔ a = b) as Hd.
  { induction a as [|x a IH]; intros [|y b] H; try done. cbn. injection H as H.
    case_bool_decide; [rewrite IH by done|]; split; congruence. }
  unfold hasModelConfigChanged.
  destruct (bool_decide (length initialModels = 0) && _) eqn:E1.
  { bool_to_prop. apply truthy_false in H0. destruct initialModels; [|done]. naive_solver. }
  assert (initialModels ≠ [] ∨ initialModelMapping ≠ []) as Hi.
  { apply andb_false_iff in E1 as [E1|E1]; [left; intros ->; done|right; intros ->; done]. }
  clear E1. destruct (decide (length currentModels = length initialModels)) as [El|El];
    [rewrite (bool_decide_eq_true_2 _ El)|rewrite (bool_decide_eq_false_2 _ El)]; cbn [negb].
  - specialize (Hd _ _ El). destruct (differ_at _ _).
    + split; [done|]. naive_solver.
    + case_bool_decide; cbn [negb]; naive_solver.
  - split; [done|]. intros (_ & -> & _). done.
Qed.
