(* ===== verification/PlaygroundMessage.v ===== *)
(** * PlaygroundMessage: messages of the playground ([features/playground])

    The data of [types.ts], the helpers of [lib/message] on messages and
    conversations, and the request payload of [lib/streaming].  Times and
    durations are integers, in milliseconds and seconds; [Date.now()] and
    [nanoid()] are arguments. *)
From Stdlib Require Import Floats.SpecFloat.
From S2P Require Import Prelude JsString JsNumber JsValue.

(** ** Data *)

Inductive MessageRole := role_user | role_assistant | role_system.
Inductive MessageStatus := LOADING | STREAMING | COMPLETE | ERROR.
Inductive PlaygroundMessageLayoutMode := layout_alternating | layout_left.

#[export] Instance MessageRole_eq_dec : EqDecision MessageRole.
Proof. solve_decision. Defined.
#[export] Instance MessageStatus_eq_dec : EqDecision MessageStatus.
Proof. solve_decision. Defined.
#[export] Instance LayoutMode_eq_dec : EqDecision PlaygroundMessageLayoutMode.
Proof. solve_decision. Defined.

Record MessageVersion := mkVersion { version_id : jstring; version_content : jstring }.

Record Source := { href : jstring; title : jstring }.

Record Reasoning := {
  r_content : jstring;
  r_duration : Z;
  r_startedAt : option Z;
  r_completedAt : option Z;
  r_durationMs : option Z;
}.

Record Message := {
  key : jstring;
  from : MessageRole;
  versions : list MessageVersion;
  createdAt : option Z;
  startedAt : option Z;
  completedAt : option Z;
  durationMs : option Z;
  sources : option (list Source);
  reasoning : option Reasoning;
  isReasoningStreaming : option bool;
  isReasoningComplete : option bool;
  isContentComplete : option bool;
  status : option MessageStatus;
  errorCode : option jstring;
}.

(** ** Updates of single fields: [{...message, field: v}] *)

Definition with_versions (v : list MessageVersion) (m : Message) : Message :=
  {| key := key m; from := from m; versions := v; createdAt := createdAt m; startedAt := startedAt m;
     completedAt := completedAt m; durationMs := durationMs m; sources := sources m;
     reasoning := reasoning m; isReasoningStreaming := isReasoningStreaming m;
     isReasoningComplete := isReasoningComplete m; isContentComplete := isContentComplete m;
     status := status m; errorCode := errorCode m |}.

Definition with_createdAt (v : option Z) (m : Message) : Message :=
  {| key := key m; from := from m; versions := versions m; createdAt := v; startedAt := startedAt m;
     completedAt := completedAt m; durationMs := durationMs m; sources := sources m;
     reasoning := reasoning m; isReasoningStreaming := isReasoningStreaming m;
     isReasoningComplete := isReasoningComplete m; isContentComplete := isContentComplete m;
     status := status m; errorCode := errorCode m |}.

Definition with_timing (s c d : option Z) (m : Message) : Message :=
  {| key := key m; from := from m; versions := versions m; createdAt := createdAt m; startedAt := s;
     completedAt := c; durationMs := d; sources := sources m;
     reasoning := reasoning m; isReasoningStreaming := isReasoningStreaming m;
     isReasoningComplete := isReasoningComplete m; isContentComplete := isContentComplete m;
     status := status m; errorCode := errorCode m |}.

Definition with_reasoning (v : option Reasoning) (m : Message) : Message :=
  {| key := key m; from := from m; versions := versions m; createdAt := createdAt m; startedAt := startedAt m;
     completedAt := completedAt m; durationMs := durationMs m; sources := sources m;
     reasoning := v; isReasoningStreaming := isReasoningStreaming m;
     isReasoningComplete := isReasoningComplete m; isContentComplete := isContentComplete m;
     status := status m; errorCode := errorCode m |}.

Definition with_reasoning_streaming (v : bool) (m : Message) : Message :=
  {| key := key m; from := from m; versions := versions m; createdAt := createdAt m; startedAt := startedAt m;
     completedAt := completedAt m; durationMs := durationMs m; sources := sources m;
     reasoning := reasoning m; isReasoningStreaming := Some v;
     isReasoningComplete := isReasoningComplete m; isContentComplete := isContentComplete m;
     status := status m; errorCode := errorCode m |}.

Definition with_status (v : MessageStatus) (m : Message) : Message :=
  {| key := key m; from := from m; versions := versions m; createdAt := createdAt m; startedAt := startedAt m;
     completedAt := completedAt m; durationMs := durationMs m; sources := sources m;
     reasoning := reasoning m; isReasoningStreaming := isReasoningStreaming m;
     isReasoningComplete := isReasoningComplete m; isContentComplete := isContentComplete m;
     status := Some v; errorCode := errorCode m |}.

(** [errorCode: v], [None] for [null]. *)
Definition with_error_code (v : option jstring) (m : Message) : Message :=
  {| key := key m; from := from m; versions := versions m; createdAt := createdAt m; startedAt := startedAt m;
     completedAt := completedAt m; durationMs := durationMs m; sources := sources m;
     reasoning := reasoning m; isReasoningStreaming := isReasoningStreaming m;
     isReasoningComplete := isReasoningComplete m; isContentComplete := isContentComplete m;
     status := status m; errorCode := v |}.

(** ** Constants *)

Definition API_REQUEST_ERROR : jstring := "Request error occurred".
Definition NETWORK_ERROR : jstring := "Network connection failed or server not responding".
Definition PARSE_ERROR : jstring := "Error parsing response data".
Definition STREAM_START_ERROR : jstring := "Error establishing connection".
Definition CONNECTION_CLOSED : jstring := "Connection closed".
Definition INTERRUPTED : jstring := "Generation was interrupted".

Definition ERROR_MESSAGES : list jstring :=
  [API_REQUEST_ERROR; NETWORK_ERROR; PARSE_ERROR; STREAM_START_ERROR; CONNECTION_CLOSED; INTERRUPTED].

(** ** Timing ([message-timing-utils.ts]) *)

Definition completeAssistantTiming (message : Message) (completedAt : Z) : Message :=
  if negb (bool_decide (from message = role_assistant)) then message
  else
    let startedAt := nullish (startedAt message) (nullish (createdAt message) completedAt) in
    with_timing (Some startedAt) (Some completedAt) (Some (Z.max 0 (completedAt - startedAt))) message.

Definition startReasoningTiming (message : Message) (startedAt : Z) : Reasoning :=
  {| r_content := nullish (r_content <$> reasoning message) "";
     r_duration := nullish (r_duration <$> reasoning message) 0%Z;
     r_startedAt := Some (nullish (reasoning message ≫= r_startedAt) startedAt);
     r_completedAt := reasoning message ≫= r_completedAt;
     r_durationMs := reasoning message ≫= r_durationMs |}.

(** [Math.ceil(ms / 1000)] *)
Definition ceil_seconds (ms : Z) : Z := (- ((- ms) / 1000))%Z.

Definition completeReasoningTiming (message : Message) (completedAt : Z) : Message :=
  match reasoning message with
  | None => message
  | Some r =>
    match r_durationMs r with
    | Some _ => message
    | None =>
      let startedAt := nullish (r_startedAt r) (nullish (startedAt message) completedAt) in
      let durationMs := Z.max 0 (completedAt - startedAt) in
      with_reasoning (Some {| r_content := r_content r; r_duration := ceil_seconds durationMs;
                              r_startedAt := Some startedAt; r_completedAt := Some completedAt;
                              r_durationMs := Some durationMs |}) message
    end
  end.

(** ** Messages ([message-utils.ts]) *)

(** [nanoid k] is the [k]th identifier drawn. *)
Section ids.
Variable nanoid : nat → jstring.

Definition createMessageVersion (k : nat) (content : jstring) : MessageVersion :=
  mkVersion (nanoid k) content.

(** Draws two identifiers, the key first. *)
Definition createUserMessage (k : nat) (content : jstring) (createdAt : Z) : Message :=
  {| key := nanoid k; from := role_user; versions := [createMessageVersion (S k) content];
     createdAt := Some createdAt; startedAt := None; completedAt := None; durationMs := None;
     sources := None; reasoning := None; isReasoningStreaming := None; isReasoningComplete := None;
     isContentComplete := None; status := None; errorCode := None |}.

Definition createLoadingAssistantMessage (k : nat) (startedAt : Z) : Message :=
  {| key := nanoid k; from := role_assistant; versions := [createMessageVersion (S k) ""];
     createdAt := Some startedAt; startedAt := Some startedAt; completedAt := None; durationMs := None;
     sources := None; reasoning := None; isReasoningStreaming := Some false;
     isReasoningComplete := Some false; isContentComplete := Some false; status := Some LOADING;
     errorCode := None |}.
End ids.

Definition getCurrentVersion (message : Message) : MessageVersion :=
  match versions message with
  | v :: _ => v
  | [] => mkVersion "default" ""
  end.

Definition getMessageContent (message : Message) : jstring := version_content (getCurrentVersion message).

Definition hasMessageContent (message : Message) : bool :=
  negb (bool_decide (trim (getMessageContent message) = [])).

Definition updateCurrentVersionContent (message : Message) (content : jstring) : Message :=
  with_versions [mkVersion (version_id (getCurrentVersion message)) content] message.

Inductive ContentPart :=
  | part_text (text : option jstring)
  | part_image_url (url : jstring).

Inductive MessagePayloadContent :=
  | content_text (text : jstring)
  | content_parts (parts : list ContentPart).

Definition buildMessageContent (text : jstring) (imageUrls : list jstring) : MessagePayloadContent :=
  let validImages := filter (λ url, trim url ≠ []) imageUrls in
  match validImages with
  | [] => content_text text
  | _ => content_parts (part_text (Some text) :: map (λ url, part_image_url (trim url)) validImages)
  end.

Definition getTextContent (content : MessagePayloadContent) : jstring :=
  match content with
  | content_text s => s
  | content_parts parts =>
    match find (λ part, match part with part_text _ => true | _ => false end) parts with
    | Some (part_text text) => ostr_or text ""
    | _ => ""
    end
  end.

Record ChatCompletionMessage := { role : MessageRole; content : MessagePayloadContent }.

Definition formatMessageForAPI (message : Message) : ChatCompletionMessage :=
  {| role := from message; content := content_text (version_content (getCurrentVersion message)) |}.

Definition isValidMessage (message : Message) : bool :=
  match versions message with
  | [] => false
  | _ => negb (bool_decide (from message = role_assistant) && negb (hasMessageContent message))
  end.

(** ** Updates ([message-update-utils.ts]) *)

Definition updateLastAssistantMessage (messages : list Message) (updater : Message → Message) : list Message :=
  match reverse messages with
  | [] => messages
  | last :: init =>
    if negb (bool_decide (from last = role_assistant)) then messages
    else reverse init ++ [updater last]
  end.

Definition updateAssistantMessageWithError (messages : list Message) (errorMessage : jstring)
  (errorCode : option jstring) (title : jstring) (now : Z) : list Message :=
  updateLastAssistantMessage messages (λ message,
    let updatedMessage := updateCurrentVersionContent message (title ++ ": " ++ errorMessage) in
    completeAssistantTiming
      (with_error_code (match errorCode with Some (_ :: _) => errorCode | _ => None end)
        (with_reasoning_streaming false (with_status ERROR updatedMessage))) now).

(** ** Think tags ([message-reasoning-utils.ts]) *)

Record ParsedThinkTags := { visibleContent : jstring; pt_reasoning : jstring; hasUnclosedTag : bool }.

Definition OPEN_TAG : jstring := "<think>".
Definition CLOSE_TAG : jstring := "</think>".

(** The loop, from the current position on: each iteration passes an opening
    tag, so the length of the text bounds it. *)
Fixpoint think_loop (fuel : nat) (rest : jstring) (visibleParts reasoningParts : list jstring)
  : list jstring * list jstring * bool :=
  match fuel with
  | O => (visibleParts, reasoningParts, false)
  | S f =>
    match index_of OPEN_TAG rest with
    | None => (if truthy rest then visibleParts ++ [rest] else visibleParts, reasoningParts, false)
    | Some openPos =>
      let visibleParts := if 0 <? openPos then visibleParts ++ [take openPos rest] else visibleParts in
      let body := drop (openPos + 7) rest in
      match index_of CLOSE_TAG body with
      | None => (visibleParts, reasoningParts ++ [body], true)
      | Some closePos =>
        think_loop f (drop (closePos + 8) body) visibleParts (reasoningParts ++ [take closePos body])
      end
    end
  end.

Definition parseThinkTags (content : jstring) : ParsedThinkTags :=
  if negb (includes OPEN_TAG content) then
    {| visibleContent := content; pt_reasoning := ""; hasUnclosedTag := false |}
  else
    let '(visibleParts, reasoningParts, hasUnclosedTag) := think_loop (S (length content)) content [] [] in
    {| visibleContent := trim (join "" visibleParts);
       pt_reasoning := trim (join [10%N; 10%N] reasoningParts);
       hasUnclosedTag := hasUnclosedTag |}.

(** ** What a message shows ([message-content-utils.ts]) *)

Record MessageContentState := {
  displayContent : jstring;
  hasSources : bool;
  isAssistant : bool;
  showLoader : bool;
  showMessageContent : bool;
  st_sources : list Source;
  reasoningContent : option jstring;   (** [Some] exactly when [hasReasoning] *)
}.

(** [Boolean(b)] of an optional boolean. *)
Definition flag (b : option bool) : bool := default false b.

Definition shouldShowMessageLoader (message : Message) (isAssistant : bool) (versionContent : jstring) : bool :=
  isAssistant && negb (flag (isReasoningStreaming message)) &&
  (bool_decide (status message = Some LOADING) ||
   (bool_decide (status message = Some STREAMING) && negb (truthy versionContent))).

Definition shouldShowMessageContent (message : Message) (versionContent : jstring) : bool :=
  (bool_decide (from message = role_user) || negb (flag (isReasoningStreaming message))) &&
  (0 <? length versionContent).

Definition getMessageContentState (message : Message) (versionContent : jstring) : MessageContentState :=
  let isAssistant := bool_decide (from message = role_assistant) in
  let sources := nullish (sources message) [] in
  let reasoningContent := if isAssistant then r_content <$> reasoning message else None in
  {| displayContent := versionContent;
     hasSources := 0 <? length sources;
     isAssistant := isAssistant;
     showLoader := shouldShowMessageLoader message isAssistant versionContent;
     showMessageContent := shouldShowMessageContent message versionContent;
     st_sources := sources;
     reasoningContent := if otruthy reasoningContent then reasoningContent else None |}.

(** ** Errors, actions, the editor and the layout of a message *)

Definition MODEL_PRICE_ERROR_CODE : jstring := "model_price_error".
Definition FALLBACK_ERROR_CONTENT : jstring := "An unknown error occurred".

Inductive ErrorKind := kind_generic | kind_model_price.

Record MessageErrorState := { es_content : jstring; es_kind : ErrorKind; showSettingsLink : bool }.

Definition isAdminRole (role : option Z) : bool :=
  match role with Some r => (10 <=? r)%Z | None => false end.

Definition isErrorMessage (message : Message) : bool := bool_decide (status message = Some ERROR).

Definition getMessageErrorState (message : Message) (isAdmin : bool) : option MessageErrorState :=
  if negb (isErrorMessage message) then None
  else
    let isModelPriceError := bool_decide (errorCode message = Some MODEL_PRICE_ERROR_CODE) in
    Some {| es_content := str_or (getMessageContent message) FALLBACK_ERROR_CONTENT;
            es_kind := if isModelPriceError then kind_model_price else kind_generic;
            showSettingsLink := isModelPriceError && isAdmin |}.

Record MessageActionState := {
  as_content : jstring; hasContent : bool; as_isAssistant : bool; isLoading : bool; isUser : bool;
}.

Definition getMessageActionState (message : Message) : MessageActionState :=
  {| as_content := getMessageContent message;
     hasContent := hasMessageContent message;
     as_isAssistant := bool_decide (from message = role_assistant);
     isLoading := bool_decide (status message = Some LOADING) || bool_decide (status message = Some STREAMING);
     isUser := bool_decide (from message = role_user) |}.

Record MessageEditorState := { canSave : bool; hasChanged : bool; showSaveAndSubmit : bool }.

Definition getMessageEditorState (message : Message) (editText originalText : jstring) : MessageEditorState :=
  let hasText := 0 <? length (trim editText) in
  let hasChanged := negb (bool_decide (editText = originalText)) in
  {| canSave := hasText && hasChanged;
     hasChanged := hasChanged;
     showSaveAndSubmit := bool_decide (from message = role_user) |}.

Inductive MessageAlignment := align_left | align_right.

Definition getMessageAlignment (message : Message) (layoutMode : PlaygroundMessageLayoutMode) : MessageAlignment :=
  if bool_decide (layoutMode = layout_left) then align_left
  else if bool_decide (from message = role_user) then align_right else align_left.

(** ** Conversations ([conversation-message-utils.ts]) *)

Section conversations.
Variable nanoid : nat → jstring.

(** [k] identifiers were drawn before. *)
Definition appendUserMessagePair (k : nat) (messages : list Message) (content : jstring) (now : Z) : list Message :=
  messages ++ [createUserMessage nanoid k content now; createLoadingAssistantMessage nanoid (k + 2) now].

Definition createRegeneratedMessages (k : nat) (messages : list Message) (messageKey : jstring) (now : Z)
  : option (list Message) :=
  match find_index (λ message, bool_decide (key message = messageKey)) messages with
  | None => None
  | Some messageIndex =>
    if bool_decide (from <$> messages !! messageIndex = Some role_user)
    then Some (take (messageIndex + 1) messages ++ [createLoadingAssistantMessage nanoid k now])
    else Some (take messageIndex messages ++ [createLoadingAssistantMessage nanoid k now])
  end.

Definition removeMessageByKey (messages : list Message) (messageKey : jstring) : list Message :=
  filter (λ message, key message ≠ messageKey) messages.

(** The loop from [beforeIndex - 1] down, for an index of the list. *)
Fixpoint getPreviousUserMessage (messages : list Message) (beforeIndex : nat) : option Message :=
  match beforeIndex with
  | O => None
  | S index =>
    match messages !! index with
    | Some m => if bool_decide (from m = role_user) then Some m else getPreviousUserMessage messages index
    | None => None
    end
  end.

(** The pair (messages, shouldSend). *)
Definition applyMessageEdit (k : nat) (messages : list Message) (messageKey content : jstring)
  (shouldSubmit : bool) (submittedAt : Z) : option (list Message * bool) :=
  match find_index (λ message, bool_decide (key message = messageKey)) messages with
  | None => None
  | Some messageIndex =>
    let updatedMessages := map (λ message,
        if bool_decide (key message = messageKey)
        then with_createdAt (if shouldSubmit then Some submittedAt else createdAt message)
               (updateCurrentVersionContent message content)
        else message) messages in
    if negb shouldSubmit || negb (bool_decide (from <$> updatedMessages !! messageIndex = Some role_user))
    then Some (updatedMessages, false)
    else Some (take (messageIndex + 1) updatedMessages ++ [createLoadingAssistantMessage nanoid k submittedAt], true)
  end.
End conversations.

Definition getEditingMessageContent (messages : list Message) (editingKey : option jstring) : jstring :=
  if negb (otruthy editingKey) then ""
  else match find (λ item, bool_decide (Some (key item) = editingKey)) messages with
       | Some message => getMessageContent message
       | None => ""
       end.

Record ChatMessageRenderState := { alwaysShowActions : bool; rs_content : jstring; isEditing : bool }.

Definition getChatMessageRenderState (messages : list Message) (message : Message) (messageIndex : Z)
  (editingKey : option jstring) : ChatMessageRenderState :=
  {| alwaysShowActions := bool_decide (messageIndex = Z.of_nat (length messages) - 1)%Z &&
                          bool_decide (from message = role_assistant);
     rs_content := getMessageContent message;
     isEditing := bool_decide (editingKey = Some (key message)) |}.

(** ** The request ([streaming/payload-builder.ts]) *)

Record PlaygroundConfig := {
  cf_model : jstring; cf_group : jstring; cf_temperature : num; cf_top_p : num; cf_max_tokens : num;
  cf_frequency_penalty : num; cf_presence_penalty : num; cf_seed : option num; cf_stream : bool;
}.

Record ParameterEnabled := {
  pe_temperature : bool; pe_top_p : bool; pe_max_tokens : bool; pe_frequency_penalty : bool;
  pe_presence_penalty : bool; pe_seed : bool;
}.

Record ChatCompletionRequest := {
  rq_model : jstring; rq_group : option jstring; rq_messages : list ChatCompletionMessage; rq_stream : bool;
  rq_temperature : option num; rq_top_p : option num; rq_max_tokens : option num;
  rq_frequency_penalty : option num; rq_presence_penalty : option num; rq_seed : option num;
}.

Definition DEFAULT_GROUP : jstring := "default".

Definition DEFAULT_CONFIG : PlaygroundConfig :=
  {| cf_model := "gpt-4o"; cf_group := DEFAULT_GROUP; cf_temperature := of_decimal false 7 (-1);
     cf_top_p := of_Z 1; cf_max_tokens := of_Z 4096; cf_frequency_penalty := zero;
     cf_presence_penalty := zero; cf_seed := None; cf_stream := true |}.

Definition DEFAULT_PARAMETER_ENABLED : ParameterEnabled :=
  {| pe_temperature := true; pe_top_p := true; pe_max_tokens := false; pe_frequency_penalty := true;
     pe_presence_penalty := true; pe_seed := false |}.

Definition buildChatCompletionPayload (messages : list Message) (config : PlaygroundConfig)
  (parameterEnabled : ParameterEnabled) : ChatCompletionRequest :=
  let processedMessages := map formatMessageForAPI (filter (λ m, isValidMessage m = true) messages) in
  let on (enabled : bool) (v : num) := if enabled then Some v else None in
  {| rq_model := cf_model config; rq_group := Some (cf_group config); rq_messages := processedMessages;
     rq_stream := cf_stream config;
     rq_temperature := on (pe_temperature parameterEnabled) (cf_temperature config);
     rq_top_p := on (pe_top_p parameterEnabled) (cf_top_p config);
     rq_max_tokens := on (pe_max_tokens parameterEnabled) (cf_max_tokens config);
     rq_frequency_penalty := on (pe_frequency_penalty parameterEnabled) (cf_frequency_penalty config);
     rq_presence_penalty := on (pe_presence_penalty parameterEnabled) (cf_presence_penalty config);
     rq_seed := if pe_seed parameterEnabled then cf_seed config else None |}.

(** ** What is sent *)

Definition sent (messages : list Message) : list ChatCompletionMessage :=
  map formatMessageForAPI (filter (λ m, isValidMessage m = true) messages).

Lemma sent_app l k : sent (l ++ k) = sent l ++ sent k.
Proof. unfold sent. by rewrite filter_app, map_app. Qed.

Lemma sent_loading nanoid k now : sent [createLoadingAssistantMessage nanoid k now] = [].
Proof. reflexivity. Qed.

Lemma rq_messages_sent messages config enabled :
  rq_messages (buildChatCompletionPayload messages config enabled) = sent messages.
Proof. done. Qed.

Lemma sent_user (m : Message) :
  from m = role_user → versions m ≠ [] → sent [m] = [formatMessageForAPI m].
Proof.
  intros Hf Hv. unfold sent. rewrite filter_cons_True; [done|].
  unfold isValidMessage. rewrite Hf. by destruct (versions m).
Qed.

Lemma find_key_Some (messages : list Message) k i :
  find_index (λ m, bool_decide (key m = k)) messages = Some i →
  ∃ m, messages !! i = Some m ∧ key m = k ∧ i < length messages.
Proof.
  intros H. pose proof (find_index_lt _ _ _ H). apply find_index_Some in H as (m & Hm & Hk & _).
  bool_to_prop. eauto.
Qed.

(** With distinct keys, a map over the messages of a key changes one index. *)
Lemma map_by_key (f : Message → Message) (messages : list Message) i m k :
  NoDup (key <$> messages) → messages !! i = Some m → key m = k →
  map (λ x, if bool_decide (key x = k) then f x else x) messages = <[i := f m]> messages.
Proof.
  revert i. induction messages as [|x l IH]; intros i Hd Hm Hk; [done|].
  apply NoDup_cons in Hd as [Hx Hd]. simpl. destruct i as [|i]; simpl in *; simplify_eq.
  - rewrite bool_decide_eq_true_2 by done. f_equal.
    transitivity (map id l); [|apply map_id]. apply map_ext_in. intros y Hy.
    rewrite bool_decide_eq_false_2; [done|]. intros E. apply Hx. rewrite <- E.
    apply list_elem_of_fmap_2. by apply list_elem_of_In.
  - rewrite (bool_decide_eq_false_2 (key x = key m)); [by f_equal; apply IH|].
    intros E. apply Hx. rewrite E. apply list_elem_of_fmap_2. by eapply list_elem_of_lookup_2.
Qed.

(** What each way of asking sends: the messages up to the question, the valid
    ones, and never the loading placeholder that is shown after it. *)
Lemma sent_messages nanoid k messages messageKey content config enabled now :
  NoDup (key <$> messages) →
  rq_messages (buildChatCompletionPayload (appendUserMessagePair nanoid k messages content now) config enabled) =
    sent messages ++ [{| role := role_user; PlaygroundMessage.content := content_text content |}] ∧
  (∀ regenerated, createRegeneratedMessages nanoid k messages messageKey now = Some regenerated →
    ∃ i m, messages !! i = Some m ∧ key m = messageKey ∧
      rq_messages (buildChatCompletionPayload regenerated config enabled) =
      sent (take (if bool_decide (from m = role_user) then i + 1 else i) messages)) ∧
  (∀ edited, applyMessageEdit nanoid k messages messageKey content true now = Some (edited, true) →
    ∃ i m, messages !! i = Some m ∧ key m = messageKey ∧ from m = role_user ∧
      rq_messages (buildChatCompletionPayload edited config enabled) =
      sent (take i messages) ++ [{| role := role_user; PlaygroundMessage.content := content_text content |}]).
Proof.
  intros Hd. rewrite rq_messages_sent. split_and!.
  - unfold appendUserMessagePair. rewrite sent_app. reflexivity.
  - intros r H. unfold createRegeneratedMessages in H.
    destruct (find_index _ messages) as [i|] eqn:E; [|done].
    apply find_key_Some in E as (m & Hm & Hk & Hi). rewrite Hm in H. simpl in H.
    exists i, m. split_and!; [done..|]. rewrite rq_messages_sent.
    rewrite <- (bool_decide_ext (from m = role_user) (Some (from m) = Some role_user)) in H by (split; congruence).
    destruct (bool_decide (from m = role_user)); injection H as <-; rewrite sent_app, sent_loading; apply app_nil_r.
  - intros ed H. unfold applyMessageEdit in H.
    destruct (find_index _ messages) as [i|] eqn:E; [|done].
    apply find_key_Some in E as (m & Hm & Hk & Hi). cbv zeta in H.
    rewrite (map_by_key _ _ _ _ _ Hd Hm Hk) in H. rewrite list_lookup_insert_eq in H by done.
    cbn [negb orb fmap option_fmap option_map] in H. case_bool_decide as Hf; [|done].
    injection H as <-. injection Hf as Hf.
    exists i, m. split_and!; [done..|]. rewrite rq_messages_sent, sent_app, sent_loading, app_nil_r.
    rewrite insert_take_drop by done. rewrite take_app_ge by (rewrite length_take; lia).
    rewrite length_take, Nat.min_l by lia. replace (i + 1 - i) with 1 by lia. simpl take.
    rewrite sent_app. f_equal. rewrite sent_user; [|done|done].
    unfold formatMessageForAPI. simpl. by rewrite Hf.
Qed.

Lemma sent_messages_witness :
  let user := createUserMessage (λ k, N_to_js (N.of_nat k)) 0 "hi" 5 in
  let answer := createLoadingAssistantMessage (λ k, N_to_js (N.of_nat k)) 2 5 in
  rq_messages (buildChatCompletionPayload
    (appendUserMessagePair (λ k, N_to_js (N.of_nat k)) 4 [user; answer] "and now?" 9)
    DEFAULT_CONFIG DEFAULT_PARAMETER_ENABLED) =
  [{| role := role_user; content := content_text "hi" |};
   {| role := role_user; content := content_text "and now?" |}].
Proof.
  intros user answer.
  destruct (sent_messages (λ k, N_to_js (N.of_nat k)) 4 [user; answer] "0" "and now?"
    DEFAULT_CONFIG DEFAULT_PARAMETER_ENABLED 9) as (H & _ & _).
  - apply (bool_decide_unpack _); vm_compute; exact I.
  - rewrite H. vm_compute. reflexivity.
Defined.

(** ** Keys stay distinct *)

(** The keys are distinct, and the identifiers still to be drawn are new. *)
Definition fresh_keys (nanoid : nat → jstring) (k : nat) (messages : list Message) : Prop :=
  NoDup (key <$> messages) ∧ ∀ j, k ≤ j → nanoid j ∉ key <$> messages.

Lemma fresh_keys_sub nanoid k messages messages' :
  key <$> messages' `sublist_of` key <$> messages → fresh_keys nanoid k messages → fresh_keys nanoid k messages'.
Proof.
  intros Hs [Hd Hf]. split; [by eapply sublist_NoDup|]. intros j Hj Hin. apply (Hf j Hj).
  by eapply elem_of_submseteq, sublist_submseteq.
Qed.

Section keys.
Variable nanoid : nat → jstring.
Hypothesis nanoid_inj : ∀ i j, nanoid i = nanoid j → i = j.

Lemma fresh_keys_snoc k n messages m :
  fresh_keys nanoid k messages → k ≤ n → key m = nanoid n → fresh_keys nanoid (S n) (messages ++ [m]).
Proof using nanoid_inj.
  intros [Hd Hf] Hn Hm. unfold fresh_keys. rewrite fmap_app. simpl. rewrite Hm. split.
  - apply NoDup_app. split_and!; [done| |apply NoDup_singleton].
    intros x Hx ->%list_elem_of_singleton. by apply (Hf n).
  - intros j Hj. rewrite not_elem_of_app, list_elem_of_singleton.
    split; [apply Hf; lia|]. intros ?%nanoid_inj. lia.
Qed.

Lemma fresh_keys_weaken k k' messages : fresh_keys nanoid k messages → k ≤ k' → fresh_keys nanoid k' messages.
Proof. intros [Hd Hf] Hk. split; [done|]. intros j Hj. apply Hf. lia. Qed.

Lemma edited_keys messages messageKey f :
  (∀ m, key (f m) = key m) →
  key <$> map (λ m, if bool_decide (key m = messageKey) then f m else m) messages = key <$> messages.
Proof.
  intros H. rewrite <- list_fmap_compose. apply list_fmap_ext. intros i m _. simpl.
  case_bool_decide; by rewrite ?H.
Qed.

(** The keys of a conversation stay distinct through every operation, as long as
    the identifiers drawn are. *)
Lemma keys_distinct k messages messageKey content submit now :
  fresh_keys nanoid k messages →
  fresh_keys nanoid (k + 4) (appendUserMessagePair nanoid k messages content now) ∧
  (∀ regenerated, createRegeneratedMessages nanoid k messages messageKey now = Some regenerated →
    fresh_keys nanoid (k + 2) regenerated) ∧
  (∀ edited send, applyMessageEdit nanoid k messages messageKey content submit now = Some (edited, send) →
    fresh_keys nanoid (k + 2) edited) ∧
  fresh_keys nanoid k (removeMessageByKey messages messageKey).
Proof using nanoid_inj.
  intros Hk.
  assert (∀ n l, fresh_keys nanoid k l → fresh_keys nanoid (k + 2) (take n l ++ [createLoadingAssistantMessage nanoid k now])) as Hl.
  { intros n l Hfl. apply (fresh_keys_weaken (S k)); [|lia]. eapply (fresh_keys_snoc k); [|done|done].
    eapply fresh_keys_sub; [|done]. rewrite fmap_take. apply sublist_take. }
  split_and!.
  - unfold appendUserMessagePair.
    change [createUserMessage nanoid k content now; createLoadingAssistantMessage nanoid (k + 2) now] with
      ([createUserMessage nanoid k content now] ++ [createLoadingAssistantMessage nanoid (k + 2) now]).
    rewrite app_assoc. apply (fresh_keys_weaken (S (k + 2))); [|lia].
    eapply (fresh_keys_snoc (S k)); [|lia|done]. by eapply (fresh_keys_snoc k).
  - intros r H. unfold createRegeneratedMessages in H. destruct (find_index _ _); [|done].
    case_bool_decide; simplify_eq; by apply Hl.
  - intros ed send H. unfold applyMessageEdit in H. destruct (find_index _ _) as [i|]; [|done].
    cbv zeta in H. set (um := map _ _) in H.
    assert (fresh_keys nanoid k um) as Hum.
    { unfold fresh_keys, um. rewrite edited_keys by done. done. }
    destruct (negb submit || _); simplify_eq; [by apply (fresh_keys_weaken k); [|lia]|by apply Hl].
  - eapply fresh_keys_sub; [|done]. unfold removeMessageByKey.
    induction messages as [|m l IH]; [done|]. rewrite filter_cons. case_decide; simpl.
    + apply sublist_skip, IH. by eapply fresh_keys_sub; [|exact Hk]; apply sublist_cons.
    + apply sublist_cons, IH. by eapply fresh_keys_sub; [|exact Hk]; apply sublist_cons.
Qed.
End keys.

Lemma keys_distinct_witness :
  let nanoid := λ k, N_to_js (N.of_nat k) in
  fresh_keys nanoid 4 (appendUserMessagePair nanoid 0 [] "hi" 5).
Proof.
  intros nanoid.
  refine (proj1 (keys_distinct nanoid _ 0 [] "0" "hi" false 5 _)).
  - intros i j H%N_to_js_inj. lia.
  - split; [apply NoDup_nil_2|]. intros j _ H. by apply elem_of_nil in H.
Defined.
