(* ===== verification/PlaygroundStreaming.v ===== *)
(** * PlaygroundStreaming: streamed answers of the playground

    The accumulator that separates [<think>] text from the visible text while
    chunks arrive ([lib/message/message-streaming-utils.ts]), the updates of the
    last message, and the chunks of the wire ([lib/streaming/stream-utils.ts]).
    The theorems compare the accumulator with a reference that separates the
    whole text in one pass. *)
From Stdlib Require Import Floats.SpecFloat.
From S2P Require Import Prelude JsString JsNumber JsValue PlaygroundMessage.

(** ** The accumulator *)

Inductive StreamingContentMode := mode_content | mode_reasoning.
Inductive StreamChunkType := chunk_reasoning | chunk_content.

(** The variables the closures of [createStreamingContentAccumulator] share. *)
Record accumulator := mkAcc {
  mode : StreamingContentMode;
  pendingTag : jstring;
  receivedContent : jstring;
  receivedReasoning : jstring;
}.

Definition createStreamingContentAccumulator : accumulator := mkAcc mode_content [] [] [].

(** The pair (received, delta). *)
Definition appendDedupedChunk (received chunk : jstring) : jstring * jstring :=
  if negb (truthy chunk) then (received, [])
  else if starts_with received chunk then (chunk, drop (length received) chunk)
  else (received ++ chunk, chunk).

Definition tag_of (m : StreamingContentMode) : jstring :=
  match m with mode_content => OPEN_TAG | mode_reasoning => CLOSE_TAG end.

Definition other (m : StreamingContentMode) : StreamingContentMode :=
  match m with mode_content => mode_reasoning | mode_reasoning => mode_content end.

(** The two texts an update emits. *)
Record emitted := mkEmitted { e_content : jstring; e_reasoning : jstring }.

Definition emit (m : StreamingContentMode) (text : jstring) (e : emitted) : emitted :=
  match m with
  | mode_content => mkEmitted (e_content e ++ text) (e_reasoning e)
  | mode_reasoning => mkEmitted (e_content e) (e_reasoning e ++ text)
  end.

(** What is pending, followed by an update. *)
Definition add_pending (p e : emitted) : emitted :=
  mkEmitted (e_content p ++ e_content e) (e_reasoning p ++ e_reasoning e).

(** The length of the longest proper prefix of the tag, at most [n], that ends
    the text: the inner loop. *)
Fixpoint pending_prefix (tag text : jstring) (n : nat) : nat :=
  match n with
  | O => 0
  | S k => if ends_with (take n tag) text then n else pending_prefix tag text k
  end.

(** The loop over the pending text; each iteration that continues removes a tag. *)
Fixpoint drain (fuel : nat) (m : StreamingContentMode) (pending : jstring) (e : emitted)
  : StreamingContentMode * jstring * emitted :=
  match fuel with
  | O => (m, pending, e)
  | S f =>
    if negb (truthy pending) then (m, pending, e)
    else
      let tag := tag_of m in
      match index_of tag pending with
      | Some tagIndex =>
        drain f (other m) (drop (tagIndex + length tag) pending) (emit m (take tagIndex pending) e)
      | None =>
        let n := pending_prefix tag pending (Nat.min (length tag - 1) (length pending)) in
        (m, drop (length pending - n) pending, emit m (take (length pending - n) pending) e)
      end
  end.

Definition appendContent (a : accumulator) (chunk : jstring) : accumulator * emitted :=
  let '(received, delta) := appendDedupedChunk (receivedContent a) chunk in
  let pending := pendingTag a ++ delta in
  let '(m, pending, e) := drain (S (length pending)) (mode a) pending (mkEmitted [] []) in
  (mkAcc m pending received (receivedReasoning a), e).

Definition append (a : accumulator) (type : StreamChunkType) (chunk : jstring) : accumulator * emitted :=
  match type with
  | chunk_content => appendContent a chunk
  | chunk_reasoning =>
    let '(received, delta) := appendDedupedChunk (receivedReasoning a) chunk in
    (mkAcc (mode a) (pendingTag a) (receivedContent a) received, mkEmitted [] delta)
  end.

Definition finish (a : accumulator) : accumulator * emitted :=
  (mkAcc (mode a) [] (receivedContent a) (receivedReasoning a), emit (mode a) (pendingTag a) (mkEmitted [] [])).

Definition reset (a : accumulator) : accumulator := createStreamingContentAccumulator.

Example accumulator_ex :
  let '(a, e1) := appendContent createStreamingContentAccumulator "before <thi" in
  let '(a, e2) := appendContent a "nk>step" in
  let '(a, e3) := appendContent a "</think>after" in
  (e1, e2, e3) = (mkEmitted "before " "", mkEmitted "" "step", mkEmitted "after" "").
Proof. vm_compute. reflexivity. Qed.

(** ** Updates of the streamed message *)

Definition processStreamingContent (message : Message) (contentChunk : option jstring) (now : Z) : Message :=
  let current := version_content (getCurrentVersion message) in
  let fullContent := if otruthy contentChunk then current ++ default [] contentChunk else current in
  if negb (includes OPEN_TAG fullContent) then
    with_reasoning_streaming false (updateCurrentVersionContent message fullContent)
  else
    let parsed := parseThinkTags fullContent in
    let finalReasoning :=
      if truthy (pt_reasoning parsed) then
        let r := startReasoningTiming message now in
        Some {| r_content := pt_reasoning parsed; r_duration := r_duration r; r_startedAt := r_startedAt r;
                r_completedAt := r_completedAt r; r_durationMs := r_durationMs r |}
      else reasoning message in
    with_reasoning_streaming (hasUnclosedTag parsed)
      (with_reasoning finalReasoning (updateCurrentVersionContent message fullContent)).

Definition getAppendableChunk (currentContent chunk : jstring) : jstring :=
  if negb (truthy currentContent) || negb (starts_with currentContent chunk) then chunk
  else drop (length currentContent) chunk.

(** [now] and [now'] are the times the reasoning starts and completes. *)
Definition applyStreamingChunk (message : Message) (type : StreamChunkType) (chunk : jstring) (now now' : Z)
  : Message :=
  if bool_decide (status message = Some ERROR) then message
  else match type with
  | chunk_reasoning =>
    let r := startReasoningTiming message now in
    let appendableChunk := getAppendableChunk (r_content r) chunk in
    with_status STREAMING (with_reasoning_streaming true (with_reasoning
      (Some {| r_content := r_content r ++ appendableChunk; r_duration := r_duration r;
               r_startedAt := r_startedAt r; r_completedAt := r_completedAt r;
               r_durationMs := r_durationMs r |}) message))
  | chunk_content =>
    let appendableChunk := getAppendableChunk (version_content (getCurrentVersion message)) chunk in
    let contentMessage := processStreamingContent message (Some appendableChunk) now in
    with_status STREAMING
      (if flag (isReasoningStreaming contentMessage) then contentMessage
       else completeReasoningTiming contentMessage now')
  end.

Definition finalizeMessage (message : Message) (apiReasoningContent : option jstring) (now now' : Z) : Message :=
  let current := version_content (getCurrentVersion message) in
  let parsedThinkTags := if includes OPEN_TAG current then Some (parseThinkTags current) else None in
  let visible := nullish (visibleContent <$> parsedThinkTags) current in
  let finalReasoning :=
    str_or (default [] apiReasoningContent)
      (str_or (default [] (r_content <$> reasoning message))
         (default [] (pt_reasoning <$> parsedThinkTags))) in
  let r := startReasoningTiming message now in
  completeReasoningTiming
    (with_reasoning_streaming false (with_reasoning
      (if truthy finalReasoning
       then Some {| r_content := finalReasoning; r_duration := r_duration r; r_startedAt := r_startedAt r;
                    r_completedAt := r_completedAt r; r_durationMs := r_durationMs r |}
       else None)
      (updateCurrentVersionContent message visible))) now'.

Definition completeAssistantMessage (message : Message) (now now' now'' : Z) : Message :=
  completeAssistantTiming (with_status COMPLETE (finalizeMessage message None now now')) now''.

Definition isAssistantMessageFinal (message : Message) : bool :=
  bool_decide (status message = Some COMPLETE) || bool_decide (status message = Some ERROR).

Definition isAssistantMessagePending (message : Message) : bool :=
  bool_decide (status message = Some LOADING) || bool_decide (status message = Some STREAMING).

Definition isPendingAssistantMessage (message : option Message) : bool :=
  match message with
  | Some m => bool_decide (from m = role_assistant) && isAssistantMessagePending m
  | None => false
  end.

(** A choice of a response: its message's content and reasoning, when present. *)
Record ChatCompletionChoice := { ch_content : option jstring; ch_reasoning : option jstring }.

Definition hasChatCompletionChoice (choices : option (list ChatCompletionChoice)) : bool :=
  match choices with Some (_ :: _) => true | _ => false end.

Definition applyChatCompletionChoice (message : Message) (choice : ChatCompletionChoice) (now now' now'' : Z)
  : Message :=
  completeAssistantTiming (with_status COMPLETE
    (finalizeMessage (updateCurrentVersionContent message (ostr_or (ch_content choice) ""))
       (ch_reasoning choice) now now')) now''.

Definition applyChatCompletionResponse (message : Message) (choices : option (list ChatCompletionChoice))
  (now now' now'' : Z) : option Message :=
  match choices with
  | Some (choice :: _) => Some (applyChatCompletionChoice message choice now now' now'')
  | _ => None
  end.

(** [t] translates a message key. *)
Definition sanitizeMessagesOnLoad (t : jstring → jstring) (messages : list Message) (now now' now'' : Z)
  : list Message :=
  match find_last_index (λ m, isPendingAssistantMessage (Some m)) messages with
  | None => messages
  | Some targetIndex =>
    match messages !! targetIndex with
    | None => messages
    | Some target =>
      let finalized := finalizeMessage target None now now' in
      let hasContent := hasMessageContent finalized in
      let hasReasoning := truthy (trim (default [] (r_content <$> reasoning finalized))) in
      let sanitized :=
        if hasContent || hasReasoning then
          completeAssistantTiming (with_reasoning_streaming false (with_status COMPLETE finalized)) now''
        else
          completeAssistantTiming (with_reasoning_streaming false (with_status ERROR
            (updateCurrentVersionContent finalized (t API_REQUEST_ERROR ++ ": " ++ t INTERRUPTED)))) now'' in
      <[targetIndex := sanitized]> messages
    end
  end.

(** ** The wire ([lib/streaming/stream-utils.ts]) *)

Definition STREAM_DONE_MESSAGE : jstring := "[DONE]".
Definition STREAM_CLOSED_READY_STATE : Z := 2.

(** [v?.[0]] *)
Definition first_item (v : jval) : jval :=
  match v with
  | JArr (x :: _) => x
  | JStr (c :: _) => JStr [c]
  | JObj o => default JUndefined (oget "0" o)
  | _ => JUndefined
  end.

Record StreamErrorDetails := { d_errorCode : jval; d_errorMessage : jval }.

Definition parseStreamErrorDetails (data : option jstring) : StreamErrorDetails :=
  let fallbackMessage := JStr (ostr_or data API_REQUEST_ERROR) in
  let fallback := {| d_errorCode := JUndefined; d_errorMessage := fallbackMessage |} in
  if negb (otruthy data) then fallback
  else match JSON_parse (default [] data) with
       | None => fallback
       | Some parsed =>
         let error := member "error" parsed in
         if negb (to_boolean error) then fallback
         else
           let code := member "code" error in
           let message := member "message" error in
           {| d_errorCode := if to_boolean code then code else JUndefined;
              d_errorMessage := if to_boolean message then message else fallbackMessage |}
       end.

(** The updates of a chunk; [None] when parsing throws (so does a [null] chunk). *)
Definition parseStreamMessageUpdates (data : jstring) : option (list (StreamChunkType * jval)) :=
  match JSON_parse data with
  | None | Some JNull => None
  | Some chunk =>
    let delta := member "delta" (first_item (member "choices" chunk)) in
    if negb (to_boolean delta) then Some []
    else
      let reasoning_content := member "reasoning_content" delta in
      let content := member "content" delta in
      Some ((if to_boolean reasoning_content then [(chunk_reasoning, reasoning_content)] else [])
            ++ (if to_boolean content then [(chunk_content, content)] else []))
  end.

Definition isStreamDoneMessage (data : jstring) : bool := bool_decide (data = STREAM_DONE_MESSAGE).

Definition isStreamClosedReadyState (readyState : option Z) : bool :=
  bool_decide (readyState = Some STREAM_CLOSED_READY_STATE).

Definition getStreamReadyStateError (eventReadyState sourceStatus : option Z) : option jstring :=
  match eventReadyState, sourceStatus with
  | Some rs, Some status =>
    if (STREAM_CLOSED_READY_STATE <=? rs)%Z && negb (status =? 200)%Z
    then Some ("HTTP " ++ Z_to_js status ++ ": " ++ CONNECTION_CLOSED) else None
  | _, _ => None
  end.

(** ** The reference: a text separated in one pass

    What the accumulator must give for the whole text: the text outside and
    inside of the tags, each opening tag matched by the next closing tag. *)

Definition no_text : emitted := mkEmitted [] [].

Fixpoint separate (fuel : nat) (m : StreamingContentMode) (s : jstring) : emitted :=
  match fuel with
  | O => no_text
  | S f =>
    match index_of (tag_of m) s with
    | Some i => add_pending (emit m (take i s) no_text) (separate f (other m) (drop (i + length (tag_of m)) s))
    | None => emit m s no_text
    end
  end.

(** Each tag is not empty, so the length of the text is enough fuel. *)
Definition separation (m : StreamingContentMode) (s : jstring) : emitted := separate (S (length s)) m s.

(** The text received after some chunks. *)
Definition received_text (chunks : list jstring) : jstring :=
  fold_left (λ r c, (appendDedupedChunk r c).1) chunks [].

(** The accumulator over a list of chunks, with all it emits. *)
Definition accumulate (st : accumulator * emitted) (c : StreamChunkType * jstring) : accumulator * emitted :=
  let '(a, e) := append st.1 c.1 c.2 in (a, add_pending st.2 e).

Definition accumulate_all (chunks : list (StreamChunkType * jstring)) : accumulator * emitted :=
  fold_left accumulate chunks (createStreamingContentAccumulator, no_text).

(** All that is emitted, with the end of the stream. *)
Definition total (chunks : list (StreamChunkType * jstring)) : emitted :=
  let '(a, e) := accumulate_all chunks in add_pending e (finish a).2.

Definition chunks_of (type : StreamChunkType) (chunks : list (StreamChunkType * jstring)) : list jstring :=
  omap (λ c, match type, c.1 with
             | chunk_content, chunk_content | chunk_reasoning, chunk_reasoning => Some c.2
             | _, _ => None
             end) chunks.

(** [shuffle a b c]: [c] is an interleaving of [a] and [b]. *)
Inductive shuffle {A} : list A → list A → list A → Prop :=
  | shuffle_nil : shuffle [] [] []
  | shuffle_left x a b c : shuffle a b c → shuffle (x :: a) b (x :: c)
  | shuffle_right x a b c : shuffle a b c → shuffle a (x :: b) (x :: c).

(** No text is repeated at the start. *)
Definition no_repeat (s : jstring) : Prop := ∀ c t, c ≠ [] → s ≠ c ++ c ++ t.

Definition no_repeat_b (s : jstring) : bool :=
  forallb (λ k, negb (bool_decide (take k s = take k (drop k s)))) (seq 1 (length s / 2)).

(** ** Lemmas *)

Lemma no_repeat_b_spec s : no_repeat_b s = true → no_repeat s.
Proof.
  unfold no_repeat_b. rewrite forallb_forall. intros H c t Hc ->.
  assert (length c ≠ 0) by (destruct c; simpl; [done|lia]).
  specialize (H (length c)). rewrite take_app_length, drop_app_length, take_app_length in H.
  rewrite bool_decide_eq_true_2 in H by done. ospecialize (H _); [|done].
  apply in_seq. rewrite !length_app. split; [lia|]. apply Nat.lt_succ_r, Nat.div_le_lower_bound; lia.
Qed.

Lemma add_pending_assoc a b c : add_pending a (add_pending b c) = add_pending (add_pending a b) c.
Proof. unfold add_pending. simpl. by rewrite !app_assoc. Qed.

Lemma add_pending_nil_l a : add_pending no_text a = a.
Proof. by destruct a. Qed.

Lemma add_pending_nil_r a : add_pending a no_text = a.
Proof. destruct a. unfold add_pending. simpl. by rewrite !app_nil_r. Qed.

Lemma emit_add m s e : emit m s e = add_pending e (emit m s no_text).
Proof. destruct m, e; unfold add_pending; simpl; by rewrite app_nil_r. Qed.

Lemma emit_app m s t : emit m (s ++ t) no_text = add_pending (emit m s no_text) (emit m t no_text).
Proof. by destruct m. Qed.

#[export] Hint Rewrite add_pending_nil_l add_pending_nil_r : jslib.

(** *** Occurrences *)

Lemma index_of_prefix p s r i : index_of p s = Some i → index_of p (s ++ r) = Some i.
Proof.
  revert i. induction s as [|c s IH]; intros i; simpl.
  - destruct p as [|d p]; [|done]. intros [= <-]. by destruct r.
  - destruct (starts_with p (c :: s)) eqn:E.
    + intros [= <-]. apply starts_with_spec in E as [t Ht].
      change (c :: s ++ r) with ((c :: s) ++ r). rewrite Ht, <- app_assoc. by rewrite starts_with_app.
    + intros (k & Hk & ->)%fmap_Some. pose proof (index_of_Some _ _ _ Hk) as (a & b & -> & Hl).
      destruct (starts_with p (c :: (a ++ p ++ b) ++ r)) eqn:E2; [|by rewrite (IH _ Hk)].
      exfalso. apply starts_with_spec in E2 as [t Ht].
      assert (starts_with p (c :: a ++ p ++ b) = true) as Hc; [|congruence].
      apply starts_with_spec. exists (drop (length p) (c :: a ++ p ++ b)).
      rewrite <- (take_drop (length p) (c :: a ++ p ++ b)) at 1. f_equal.
      change (c :: (a ++ p ++ b) ++ r) with ((c :: a ++ p ++ b) ++ r) in Ht.
      apply (f_equal (take (length p))) in Ht. rewrite take_app_length in Ht.
      rewrite take_app_le in Ht; [done|]. simpl. rewrite !length_app. lia.
Qed.

Lemma index_of_skip p s k :
  k ≤ length s → (∀ j, j < k → starts_with p (drop j s) = false) →
  index_of p s = Nat.add k <$> index_of p (drop k s).
Proof.
  revert s. induction k as [|k IH]; intros s Hk H; [rewrite drop_0; by destruct (index_of p s)|].
  simpl.
  destruct s as [|c s]; simpl in *; [lia|].
  pose proof (H 0 ltac:(lia)) as H0. rewrite drop_0 in H0. rewrite H0. rewrite (IH s); [|lia|].
  - by destruct (index_of p (drop k s)).
  - intros j Hj. apply (H (S j)). lia.
Qed.

Lemma tag_length m : 0 < length (tag_of m).
Proof. destruct m; simpl; lia. Qed.

Lemma index_of_lt m s i : index_of (tag_of m) s = Some i → i + length (tag_of m) ≤ length s.
Proof. intros (a & b & -> & <-)%index_of_Some. rewrite !length_app. lia. Qed.

(** *** The separation does not depend on the fuel *)

Lemma separate_fuel f m s : length s < f → separate f m s = separation m s.
Proof.
  unfold separation. remember (S (length s)) as g eqn:Hg. assert (length s < g) as Hs by lia.
  clear Hg. intros Hf. revert g m s Hs Hf.
  induction f as [|f IH]; intros [|g] m s Hg Hf; try lia. simpl.
  destruct (index_of (tag_of m) s) as [i|] eqn:E; [|done]. f_equal.
  apply index_of_lt in E. pose proof (tag_length m). apply IH; rewrite length_drop; lia.
Qed.

Lemma separation_eq m s :
  separation m s =
  match index_of (tag_of m) s with
  | Some i => add_pending (emit m (take i s) no_text) (separation (other m) (drop (i + length (tag_of m)) s))
  | None => emit m s no_text
  end.
Proof.
  unfold separation at 1. simpl. destruct (index_of (tag_of m) s) as [i|] eqn:E; [|done].
  f_equal. apply separate_fuel. apply index_of_lt in E. pose proof (tag_length m).
  rewrite length_drop. lia.
Qed.

Lemma separation_nil m : separation m [] = no_text.
Proof. by destruct m. Qed.

(** Text before any occurrence of the tag is emitted as it is. *)
Lemma separation_skip m s k :
  k ≤ length s → (∀ j, j < k → starts_with (tag_of m) (drop j s) = false) →
  separation m s = add_pending (emit m (take k s) no_text) (separation m (drop k s)).
Proof.
  intros Hk H. rewrite separation_eq, (separation_eq m (drop k s)), (index_of_skip _ _ _ Hk H).
  destruct (index_of (tag_of m) (drop k s)) as [i|]; simpl.
  - rewrite add_pending_assoc, <- emit_app. rewrite drop_drop.
    replace (take k s ++ take i (drop k s)) with (take (k + i) s); [by rewrite Nat.add_assoc|].
    by rewrite <- take_take_drop.
  - by rewrite <- emit_app, take_drop.
Qed.

(** *** The pending prefix *)

Lemma pending_prefix_le tag s n : pending_prefix tag s n ≤ n.
Proof. induction n as [|n IH]; simpl; [done|]. destruct (ends_with _ s); lia. Qed.

Lemma pending_prefix_max tag s n k :
  pending_prefix tag s n < k → k ≤ n → ends_with (take k tag) s = false.
Proof.
  induction n as [|n IH]; cbn [pending_prefix]; [lia|].
  destruct (ends_with (take (S n) tag) s) eqn:E; [lia|]. intros H1 H2.
  destruct (decide (k = S n)) as [->|]; [done|]. apply IH; lia.
Qed.

Lemma pending_prefix_suffix m s n :
  let k := pending_prefix (tag_of m) s n in k ≤ length s → n ≤ length (tag_of m) →
  drop (length s - k) s = take k (tag_of m).
Proof.
  simpl. induction n as [|n IH]; cbn [pending_prefix]; intros Hk Hn.
  - rewrite Nat.sub_0_r, drop_all. done.
  - destruct (ends_with (take (S n) (tag_of m)) s) eqn:E; [|apply IH; lia].
    apply ends_with_spec in E as [r ->].
    rewrite length_app, length_take, Nat.min_l by lia.
    replace (length r + S n - S n) with (length r) by lia. apply drop_app_length.
Qed.

(** No occurrence of the tag starts before the pending prefix, whatever follows. *)
Lemma pending_prefix_safe m s r j :
  index_of (tag_of m) s = None →
  j < length s - pending_prefix (tag_of m) s (Nat.min (length (tag_of m) - 1) (length s)) →
  starts_with (tag_of m) (drop j (s ++ r)) = false.
Proof.
  intros Hn Hj. apply not_true_iff_false. intros [t Ht]%starts_with_spec.
  rewrite drop_app_le in Ht by lia. set (tag := tag_of m) in *.
  destruct (decide (length tag ≤ length s - j)) as [Hle|Hgt].
  - apply (index_of_None _ _ j) in Hn. apply not_true_iff_false in Hn. apply Hn.
    apply starts_with_spec. exists (drop (length tag) (drop j s)).
    rewrite <- (take_drop (length tag) (drop j s)) at 1. f_equal.
    apply (f_equal (take (length tag))) in Ht.
    rewrite take_app_length, take_app_le in Ht; [done|]. rewrite length_drop. lia.
  - assert (ends_with (take (length s - j) tag) s = false) as Hf.
    { eapply pending_prefix_max with (n := Nat.min (length tag - 1) (length s)); lia. }
    apply not_true_iff_false in Hf. apply Hf, ends_with_spec. exists (take j s).
    rewrite <- (take_drop j s) at 1. f_equal.
    apply (f_equal (take (length s - j))) in Ht.
    rewrite take_app_le in Ht by (rewrite length_drop; lia).
    rewrite take_ge in Ht by (rewrite length_drop; lia).
    rewrite Ht, take_app_le; [done|lia].
Qed.

(** *** The loop *)

Lemma drain_spec f m p e m' p' e' :
  length p < f → drain f m p e = (m', p', e') →
  length p' < length (tag_of m') ∧ p' = take (length p') (tag_of m') ∧
  ∃ d, e' = add_pending e d ∧ ∀ r, separation m (p ++ r) = add_pending d (separation m' (p' ++ r)).
Proof.
  revert m p e. induction f as [|f IH]; intros m p e Hf; [lia|]. simpl.
  destruct (truthy p) eqn:Hp; simpl; cycle 1.
  { intros [= <- <- <-]. apply truthy_false in Hp as ->. split; [apply tag_length|]. split; [done|].
    exists no_text. split; [|intros r]; by autorewrite with jslib. }
  destruct (index_of (tag_of m) p) as [i|] eqn:E.
  - intros H. pose proof (index_of_lt _ _ _ E). pose proof (tag_length m).
    apply IH in H as (Hl & Ht & d & -> & Hd); [|rewrite length_drop; lia]. split; [done|]. split; [done|].
    exists (add_pending (emit m (take i p) no_text) d). split.
    + rewrite emit_add. by rewrite add_pending_assoc.
    + intros r. rewrite <- add_pending_assoc, <- Hd.
      rewrite separation_eq, (index_of_prefix _ _ _ _ E).
      rewrite take_app_le, drop_app_le by lia. done.
  - set (n := pending_prefix _ _ _). intros [= <- <- <-].
    pose proof (pending_prefix_le (tag_of m) p (Nat.min (length (tag_of m) - 1) (length p))) as Hle.
    fold n in Hle. pose proof (tag_length m). rewrite length_drop. split; [lia|].
    replace (length p - (length p - n)) with n by lia. split; [apply pending_prefix_suffix; fold n; lia|].
    exists (emit m (take (length p - n) p) no_text). split; [apply emit_add|]. intros r.
    rewrite (separation_skip m (p ++ r) (length p - n)).
    + rewrite take_app_le, drop_app_le by lia. done.
    + rewrite length_app. lia.
    + intros j Hj. by apply pending_prefix_safe.
Qed.

(** What is pending stays pending when nothing is added. *)
Lemma drain_pending f m p e :
  length p < length (tag_of m) → p = take (length p) (tag_of m) → drain (S f) m p e = (m, p, e).
Proof.
  intros Hl Hp. cbn [drain]. destruct (truthy p) eqn:E; [|done]. simpl. apply truthy_spec in E.
  destruct (index_of (tag_of m) p) eqn:Ei; [apply index_of_lt in Ei; lia|].
  replace (Nat.min (length (tag_of m) - 1) (length p)) with (length p) by lia.
  replace (pending_prefix (tag_of m) p (length p)) with (length p).
  - rewrite Nat.sub_diag, drop_0, take_0. by destruct m, e; unfold emit; simpl; rewrite app_nil_r.
  - assert (ends_with (take (length p) (tag_of m)) p = true) as He.
    { rewrite <- Hp. apply ends_with_spec. by exists []. }
    destruct (length p) as [|n]; [done|]. cbn [pending_prefix]. by rewrite He.
Qed.

Lemma separation_short m p : length p < length (tag_of m) → separation m p = emit m p no_text.
Proof.
  intros H. rewrite separation_eq. destruct (index_of (tag_of m) p) eqn:E; [|done].
  apply index_of_lt in E. lia.
Qed.

(** *** The accumulator *)

Lemma appendDedupedChunk_delta r c : (appendDedupedChunk r c).1 = r ++ (appendDedupedChunk r c).2.
Proof.
  unfold appendDedupedChunk. destruct (truthy c); simpl; [|by rewrite app_nil_r].
  destruct (starts_with r c) eqn:E; simpl; [|done].
  apply starts_with_spec in E as [t ->]. by rewrite drop_app_length.
Qed.

Lemma received_text_snoc l c : received_text (l ++ [c]) = (appendDedupedChunk (received_text l) c).1.
Proof. unfold received_text. by rewrite fold_left_app. Qed.

Lemma chunks_of_app type l k : chunks_of type (l ++ k) = chunks_of type l ++ chunks_of type k.
Proof. unfold chunks_of. apply omap_app. Qed.

Lemma shuffle_nil_l {A} (l : list A) : shuffle [] l l.
Proof. induction l; by constructor. Qed.

Lemma shuffle_nil_r {A} (l : list A) : shuffle l [] l.
Proof. induction l; by constructor. Qed.

Lemma shuffle_app {A} (a b c a' b' c' : list A) :
  shuffle a b c → shuffle a' b' c' → shuffle (a ++ a') (b ++ b') (c ++ c').
Proof. induction 1; simpl; [done|..]; intros; constructor; auto. Qed.

Lemma accumulate_all_snoc l c : accumulate_all (l ++ [c]) = accumulate (accumulate_all l) c.
Proof. unfold accumulate_all. by rewrite fold_left_app. Qed.

(** What holds after any chunks: the received texts, the pending text, and the
    split of the content between what was emitted and what is still to come. *)
Definition accumulated_ok (chunks : list (StreamChunkType * jstring)) (a : accumulator) (e : emitted) : Prop :=
  receivedContent a = received_text (chunks_of chunk_content chunks) ∧
  receivedReasoning a = received_text (chunks_of chunk_reasoning chunks) ∧
  length (pendingTag a) < length (tag_of (mode a)) ∧
  pendingTag a = take (length (pendingTag a)) (tag_of (mode a)) ∧
  ∃ think, shuffle think (receivedReasoning a) (e_reasoning e) ∧
    ∀ r, separation mode_content (receivedContent a ++ r) =
         add_pending (mkEmitted (e_content e) think) (separation (mode a) (pendingTag a ++ r)).

Lemma accumulate_ok chunks : accumulated_ok chunks (accumulate_all chunks).1 (accumulate_all chunks).2.
Proof.
  induction chunks as [|[type c] l IH] using rev_ind.
  - split_and!; try done; [simpl; lia|]. exists []. split; [constructor|].
    intros r. by rewrite add_pending_nil_l.
  - rewrite accumulate_all_snoc. destruct (accumulate_all l) as [a e].
    destruct IH as (Hc & Hr & Hl & Hp & think & Hs & Hsep). unfold accumulate. simpl in *.
    unfold accumulated_ok. rewrite !chunks_of_app.
    destruct type; simpl; rewrite app_nil_r, received_text_snoc.
    + pose proof (appendDedupedChunk_delta (receivedReasoning a) c) as Hd.
      rewrite <- Hr, <- Hc. destruct (appendDedupedChunk _ c) as [rec delta]. simpl in *.
      split_and!; try done. exists think. rewrite app_nil_r. split; [|done].
      rewrite Hd. rewrite <- (app_nil_r think). apply shuffle_app; [done|apply shuffle_nil_l].
    + unfold appendContent. pose proof (appendDedupedChunk_delta (receivedContent a) c) as Hd.
      rewrite <- Hr, <- Hc. destruct (appendDedupedChunk _ c) as [rec delta]. simpl in Hd.
      destruct (drain _ _ _ _) as [[m' p'] e'] eqn:E. simpl.
      apply drain_spec in E as (Hl' & Hp' & d & -> & Hsep'); [|lia].
      split_and!; try done. exists (think ++ e_reasoning d). split.
      * pose proof (shuffle_app _ _ _ _ _ _ Hs (shuffle_nil_r (e_reasoning d))) as H.
        by rewrite app_nil_r in H.
      * intros r. rewrite Hd, <- app_assoc, Hsep, app_assoc, Hsep', add_pending_assoc. done.
Qed.

Lemma total_spec chunks :
  let sep := separation mode_content (received_text (chunks_of chunk_content chunks)) in
  e_content (total chunks) = e_content sep ∧
  shuffle (e_reasoning sep) (received_text (chunks_of chunk_reasoning chunks)) (e_reasoning (total chunks)).
Proof.
  simpl. pose proof (accumulate_ok chunks) as H. unfold total.
  destruct (accumulate_all chunks) as [a e]. destruct H as (Hc & Hr & Hl & _ & think & Hs & Hsep).
  simpl in *. specialize (Hsep []). rewrite !app_nil_r in Hsep. rewrite (separation_short (mode a)) in Hsep by done.
  rewrite <- Hc, <- Hr, Hsep. split; [by destruct (mode a)|]. simpl.
  pose proof (shuffle_app _ _ _ _ _ _ Hs (shuffle_nil_r (e_reasoning (emit (mode a) (pendingTag a) no_text)))) as H.
  by rewrite app_nil_r in H.
Qed.

(** C23: however the stream is cut into chunks, what the accumulator emits in all
    is the separation of the whole text received: the visible text is exactly the
    text outside of the tags, and the reasoning interleaves the text inside of the
    tags with the text of the reasoning chunks. *)
Theorem stream_separated chunks :
  let sep := separation mode_content (received_text (chunks_of chunk_content chunks)) in
  e_content (total chunks) = e_content sep ∧
  shuffle (e_reasoning sep) (received_text (chunks_of chunk_reasoning chunks)) (e_reasoning (total chunks)).
Proof. exact (total_spec chunks). Qed.

(** *** Delta and cumulative streams *)

Lemma received_fold_delta chunks r :
  no_repeat (r ++ concat chunks) →
  fold_left (λ r c, (appendDedupedChunk r c).1) chunks r = r ++ concat chunks.
Proof.
  revert r. induction chunks as [|c l IH]; intros r H; simpl; [by rewrite app_nil_r|].
  simpl in H. rewrite app_assoc in H.
  assert ((appendDedupedChunk r c).1 = r ++ c) as ->; [|by rewrite IH, app_assoc].
  unfold appendDedupedChunk. destruct (truthy c) eqn:Ec; simpl; cycle 1.
  { apply truthy_false in Ec as ->. by rewrite app_nil_r. }
  destruct (starts_with r c) eqn:E; simpl; [|done].
  apply starts_with_spec in E as [t ->]. destruct r as [|x r]; [done|].
  exfalso. apply (H (x :: r) (t ++ concat l)); [done|]. by rewrite <- !app_assoc.
Qed.

Lemma received_fold_cumulative chunks r :
  Sorted prefix (r :: chunks) →
  fold_left (λ r c, (appendDedupedChunk r c).1) chunks r = default r (last chunks).
Proof.
  revert r. induction chunks as [|c l IH]; intros r H; simpl; [done|].
  apply Sorted_inv in H as [Hs Hr]. apply HdRel_inv in Hr as [t ->].
  assert ((appendDedupedChunk r (r ++ t)).1 = r ++ t) as ->.
  { unfold appendDedupedChunk. rewrite starts_with_app. destruct (r ++ t) eqn:E; simpl; [|done].
    by apply app_nil in E as [-> _]. }
  rewrite IH by done. by destruct l as [|y l]; [|rewrite last_cons_cons; destruct (last (y :: l)) eqn:E;
    [|apply last_None in E]].
Qed.

(** The accumulator accepts both kinds of streams: chunks that are deltas
    give their concatenation, if it does not start with a text twice in a row,
    and cumulative chunks give the last one. *)
Lemma delta_and_cumulative chunks :
  (no_repeat (concat chunks) → received_text chunks = concat chunks) ∧
  (Sorted prefix chunks → received_text chunks = default [] (last chunks)).
Proof.
  split; intros H.
  - by apply (received_fold_delta chunks []).
  - apply (received_fold_cumulative chunks []). constructor; [done|].
    destruct chunks; constructor. apply prefix_nil.
Qed.

Lemma accumulate_received chunks type :
  let a := (accumulate_all chunks).1 in
  append a type (received_text (chunks_of type chunks)) = (a, no_text).
Proof.
  simpl. pose proof (accumulate_ok chunks) as H.
  destruct (accumulate_all chunks) as [a e]. destruct H as (Hc & Hr & Hl & Hp & _). simpl in *.
  assert (∀ r, appendDedupedChunk r r = (r, [])) as Hd.
  { intros r. unfold appendDedupedChunk. destruct r as [|x r]; [done|]. simpl truthy. cbn [negb].
    rewrite <- (app_nil_r (x :: r)) at 2. rewrite starts_with_app. by rewrite drop_all. }
  destruct type; simpl; rewrite <- ?Hc, <- ?Hr.
  - rewrite Hd. by destruct a.
  - unfold appendContent. rewrite Hd, app_nil_r, drain_pending by done. by destruct a.
Qed.

(** A delta that equals all the text received before is dropped, although a
    stream of deltas may repeat its text: the chunks [ha], [ha] give [ha]. *)
Lemma repeated_delta_lost chunks type :
  total (chunks ++ [(type, received_text (chunks_of type chunks))]) = total chunks.
Proof.
  unfold total. rewrite accumulate_all_snoc. unfold accumulate. simpl.
  rewrite accumulate_received. destruct (accumulate_all chunks) as [a e]. simpl. by rewrite add_pending_nil_r.
Qed.

(** *** The parser of finished texts *)

Lemma join_nil l : join "" l = concat l.
Proof.
  induction l as [|x [|y l] IH]; [done|simpl; by rewrite app_nil_r|].
  change (join "" (x :: y :: l)) with (x ++ join "" (y :: l)). by rewrite IH.
Qed.

(** One round of the parser is two rounds of the accumulator. *)
Lemma think_loop_spec f rest vis reas vis' reas' unclosed :
  length rest < f → think_loop f rest vis reas = (vis', reas', unclosed) →
  ∃ dv dr, vis' = vis ++ dv ∧ reas' = reas ++ dr ∧
    separation mode_content rest = mkEmitted (concat dv) (concat dr) ∧
    ∀ g e, length rest < g →
      (drain g mode_content rest e).1.1 = if unclosed then mode_reasoning else mode_content.
Proof.
  revert rest vis reas. induction f as [|f IH]; intros rest vis reas Hf; [lia|]. cbn [think_loop].
  destruct (index_of OPEN_TAG rest) as [i|] eqn:E; cycle 1.
  { intros [= <- <- <-]. exists (if truthy rest then [rest] else []), [].
    rewrite app_nil_r. split_and!; [by (destruct rest; simpl; rewrite ?app_nil_r)|done| |].
    - rewrite separation_eq. simpl tag_of. rewrite E. by (destruct rest; simpl; rewrite ?app_nil_r).
    - intros [|g] e Hg; [lia|]. cbn [drain tag_of]. rewrite E. by destruct (truthy rest). }
  pose proof (index_of_lt mode_content _ _ E) as Hi. simpl tag_of in Hi. simpl length in Hi.
  set (vis1 := if 0 <? i then vis ++ [take i rest] else vis).
  assert (∃ d1, vis1 = vis ++ d1 ∧ concat d1 = take i rest) as (d1 & -> & Hd1).
  { unfold vis1. destruct (Nat.ltb_spec 0 i).
    - exists [take i rest]. split; [done|]. apply app_nil_r.
    - exists []. rewrite app_nil_r. split; [done|]. by replace i with 0 by lia. }
  destruct (index_of CLOSE_TAG (drop (i + 7) rest)) as [j|] eqn:E2.
  - intros H. pose proof (index_of_lt mode_reasoning _ _ E2) as Hj. simpl length in Hj.
    rewrite length_drop in Hj.
    apply IH in H as (dv & dr & -> & -> & Hsep & Hm); [|rewrite !length_drop; lia].
    exists (d1 ++ dv), (take j (drop (i + 7) rest) :: dr).
    rewrite <- !app_assoc. split_and!; [done|done| |].
    + rewrite separation_eq. simpl tag_of. rewrite E. simpl other. simpl length.
      rewrite separation_eq. simpl tag_of. rewrite E2. simpl other. simpl length. rewrite Hsep.
      unfold add_pending. simpl. by rewrite concat_app, Hd1.
    + intros [|[|g]] e Hg; [lia|lia|]. cbn [drain].
      destruct (truthy rest) eqn:Hr; [|apply truthy_false in Hr; subst; simpl in Hi; lia].
      cbn [negb]. simpl tag_of. rewrite E. simpl other. simpl length.
      destruct (truthy (drop (i + 7) rest)) eqn:Hr2; cycle 1.
      { apply truthy_false in Hr2. rewrite Hr2 in E2. done. }
      cbn [negb]. simpl tag_of. rewrite E2. simpl other. simpl length.
      apply Hm. rewrite !length_drop. lia.
  - intros [= <- <- <-]. exists d1, [drop (i + 7) rest]. split_and!; [done|done| |].
    + rewrite separation_eq. simpl tag_of. rewrite E. simpl other. simpl length.
      rewrite separation_eq. simpl tag_of. rewrite E2.
      unfold add_pending. simpl. by rewrite Hd1, !app_nil_r.
    + intros [|[|g]] e Hg; [lia|lia|]. cbn [drain].
      destruct (truthy rest) eqn:Hr; [|apply truthy_false in Hr; subst; simpl in Hi; lia].
      cbn [negb]. simpl tag_of. rewrite E. simpl other. simpl length.
      destruct (truthy (drop (i + 7) rest)); [|done]. cbn [negb]. simpl tag_of. by rewrite E2.
Qed.

(** The parser of a finished text agrees with the incremental accumulator:
    the same visible text and the same reasoning (up to the separators of the
    parts and to spaces at the ends), and a tag is unclosed exactly when the
    accumulator would go on with reasoning. *)
Lemma parseThinkTags_separation content :
  let parsed := parseThinkTags content in
  let sep := separation mode_content content in
  visibleContent parsed = (if includes OPEN_TAG content then trim (e_content sep) else e_content sep) ∧
  (∃ parts, concat parts = e_reasoning sep ∧ pt_reasoning parsed = trim (join [10%N; 10%N] parts)) ∧
  mode (appendContent createStreamingContentAccumulator content).1 =
    if hasUnclosedTag parsed then mode_reasoning else mode_content.
Proof.
  simpl. destruct (think_loop (S (length content)) content [] []) as [[vis reas] u] eqn:E.
  pose proof E as E'. apply think_loop_spec in E' as (dv & dr & -> & -> & Hsep & Hm); [|lia]. cbn [app] in E.
  assert (mode (appendContent createStreamingContentAccumulator content).1 =
          if u then mode_reasoning else mode_content) as ->.
  { rewrite <- (Hm (S (length content)) no_text) by lia. destruct content as [|c s]; [done|].
    unfold appendContent, appendDedupedChunk. cbn [truthy negb starts_with receivedContent pendingTag
      createStreamingContentAccumulator length drop app mode].
    change (mkEmitted [] []) with no_text. by destruct (drain _ _ _ _) as [[]]. }
  unfold parseThinkTags. rewrite Hsep. destruct (includes OPEN_TAG content) eqn:Hi; cbn [negb].
  - rewrite E. cbn [visibleContent pt_reasoning hasUnclosedTag e_content e_reasoning].
    rewrite join_nil. split_and!; [done| |done]. by exists dr.
  - assert (index_of OPEN_TAG content = None) as Hn.
    { unfold includes in Hi. bool_to_prop. destruct (index_of OPEN_TAG content); [|done].
      destruct Hi. eauto. }
    rewrite separation_eq in Hsep. simpl tag_of in Hsep. rewrite Hn in Hsep. simpl in Hsep.
    injection Hsep as Hv Hr. cbn [think_loop] in E. rewrite Hn in E. simplify_eq/=.
    split_and!; [done| |done]. exists []. done.
Qed.

(** *** Messages loaded from storage *)

Lemma completeReasoning_keeps m now :
  let m' := completeReasoningTiming m now in
  key m' = key m ∧ from m' = from m ∧ status m' = status m ∧ versions m' = versions m ∧
  isReasoningStreaming m' = isReasoningStreaming m ∧
  r_content <$> reasoning m' = r_content <$> reasoning m.
Proof.
  simpl. unfold completeReasoningTiming. destruct (reasoning m) as [r|] eqn:E; [|by rewrite E].
  destruct (r_durationMs r); [by rewrite E|]. by simpl.
Qed.

Lemma finalize_keeps m api n1 n2 :
  let m' := finalizeMessage m api n1 n2 in
  key m' = key m ∧ from m' = from m ∧ isReasoningStreaming m' = Some false ∧ status m' = status m.
Proof.
  simpl. unfold finalizeMessage. set (fm := with_reasoning_streaming _ _).
  by destruct (completeReasoning_keeps fm n2) as (-> & -> & -> & _ & -> & _).
Qed.

Lemma completeAssistantTiming_keeps m now :
  let m' := completeAssistantTiming m now in
  key m' = key m ∧ from m' = from m ∧ isReasoningStreaming m' = isReasoningStreaming m ∧
  status m' = status m ∧ versions m' = versions m ∧ reasoning m' = reasoning m.
Proof. simpl. unfold completeAssistantTiming. by destruct (negb _). Qed.

(** Loading repairs the last message that was left loading or streaming, and
    only that one: it keeps what it has when there is text or reasoning and becomes
    complete, or else becomes an error that says the generation was interrupted. *)
Lemma sanitizeMessagesOnLoad_spec t messages n1 n2 n3 :
  let loaded := sanitizeMessagesOnLoad t messages n1 n2 n3 in
  (Forall (λ m, isPendingAssistantMessage (Some m) = false) messages ∧ loaded = messages) ∨
  ∃ i m m', messages !! i = Some m ∧ isPendingAssistantMessage (Some m) = true ∧
    (∀ j x, i < j → messages !! j = Some x → isPendingAssistantMessage (Some x) = false) ∧
    loaded = <[i := m']> messages ∧ key m' = key m ∧ from m' = role_assistant ∧
    isReasoningStreaming m' = Some false ∧
    let kept := finalizeMessage m None n1 n2 in
    if hasMessageContent kept || truthy (trim (default [] (r_content <$> reasoning kept)))
    then status m' = Some COMPLETE ∧ versions m' = versions kept ∧ reasoning m' = reasoning kept
    else status m' = Some ERROR ∧ getMessageContent m' = t API_REQUEST_ERROR ++ ": " ++ t INTERRUPTED.
Proof.
  simpl. unfold sanitizeMessagesOnLoad.
  destruct (find_last_index _ messages) as [i|] eqn:E; [right|left]; cycle 1.
  { split; [by apply find_last_index_None in E|done]. }
  apply find_last_index_Some in E as (m & Hm & Hp & Hlast). rewrite Hm.
  pose proof (finalize_keeps m None n1 n2) as (Hk & Hf & Hr & _).
  set (kept := finalizeMessage m None n1 n2) in *.
  assert (from m = role_assistant) as Hfrom by (unfold isPendingAssistantMessage in Hp; by bool_to_prop).
  exists i, m. destruct (hasMessageContent kept || truthy _) eqn:Ec; eexists; (do 4 (split; [done|]));
    match goal with |- context [completeAssistantTiming ?x n3] =>
      destruct (completeAssistantTiming_keeps x n3) as (-> & -> & -> & E4 & E5 & E6) end;
    (do 3 (split; [simpl; congruence|])); cbv zeta; fold kept; rewrite Ec, E4;
    (split; [done|]); [by rewrite E5, E6|].
  unfold getMessageContent, getCurrentVersion. by rewrite E5.
Qed.

Lemma delta_and_cumulative_witness :
  received_text ["ab"; "c"; "bd"] = "abcbd" ∧ received_text ["a"; "ab"; "abab"] = "abab".
Proof.
  split.
  - apply (proj1 (delta_and_cumulative ["ab"; "c"; "bd"])). apply no_repeat_b_spec. vm_compute. reflexivity.
  - apply (proj2 (delta_and_cumulative ["a"; "ab"; "abab"])).
    apply Sorted_cons; [apply Sorted_cons; [apply Sorted_cons; [apply Sorted_nil|apply HdRel_nil]|]|].
    + apply HdRel_cons. exists "ab". reflexivity.
    + apply HdRel_cons. exists "b". reflexivity.
Defined.
