(* ===== verification/PlaygroundSession.v ===== *)
(** * PlaygroundSession: the chat handler of the playground

    The state of [hooks/use-chat-handler.ts] as a machine over its events: the
    chunks of a stream and the timer that flushes what is pending to the last
    message, closed by completion, an error or a stop. *)
From S2P Require Import Prelude JsString JsNumber JsValue PlaygroundMessage PlaygroundStreaming.

(** ** The chat handler ([hooks/use-chat-handler.ts])

    The refs of the hook and the list of messages.  A clock gives the readings
    of [Date.now()] in the order an event takes them. *)

Record session := mkSession {
  accumulated : accumulator;
  pending : emitted;
  timer : bool;
  messages : list Message;
}.

Definition flushStreamUpdates (s : session) (clock : nat → Z) : session :=
  let p := pending s in
  if negb (truthy (e_reasoning p)) && negb (truthy (e_content p))
  then mkSession (accumulated s) p false (messages s)
  else mkSession (accumulated s) (mkEmitted [] []) false
         (updateLastAssistantMessage (messages s) (λ message,
            let message := if truthy (e_reasoning p)
              then applyStreamingChunk message chunk_reasoning (e_reasoning p) (clock 0) (clock 1)
              else message in
            if truthy (e_content p)
            then applyStreamingChunk message chunk_content (e_content p) (clock 2) (clock 3)
            else message)).

Definition finishStreamContent (s : session) : session :=
  let '(a, updates) := finish (accumulated s) in
  mkSession a (add_pending (pending s) updates) (timer s) (messages s).

(** Sets the timer that flushes, unless it is set. *)
Definition handleStreamUpdate (s : session) (type : StreamChunkType) (chunk : jstring) : session :=
  let '(a, updates) := append (accumulated s) type chunk in
  mkSession a (add_pending (pending s) updates) true (messages s).

Definition reset_accumulator (s : session) : session :=
  mkSession (reset (accumulated s)) (pending s) (timer s) (messages s).

Definition map_last (f : Message → Message) (s : session) : session :=
  mkSession (accumulated s) (pending s) (timer s) (updateLastAssistantMessage (messages s) f).

Definition handleStreamComplete (s : session) (clock : nat → Z) : session :=
  map_last (λ message,
      if isAssistantMessageFinal message then message
      else completeAssistantMessage message (clock 4) (clock 5) (clock 6))
    (reset_accumulator (flushStreamUpdates (finishStreamContent s) clock)).

Section display.
Variable t : jstring → jstring.

Definition getDisplayError (error : jstring) : jstring :=
  if has error ERROR_MESSAGES then t error
  else if ends_with (": " ++ CONNECTION_CLOSED) error
  then slice 0 (- Z.of_nat (length CONNECTION_CLOSED)) error ++ t CONNECTION_CLOSED
  else error.

Definition handleStreamError (s : session) (error : jstring) (errorCode : option jstring) (clock : nat → Z)
  : session :=
  let s := reset_accumulator (flushStreamUpdates (finishStreamContent s) clock) in
  mkSession (accumulated s) (pending s) (timer s)
    (updateAssistantMessageWithError (messages s) (getDisplayError error) errorCode (t API_REQUEST_ERROR) (clock 4)).

(** The answer of [sendNonStreamingChat], when the request was not aborted. *)
Definition receiveChatCompletion (s : session) (choices : option (list ChatCompletionChoice)) (clock : nat → Z)
  : session :=
  if negb (hasChatCompletionChoice choices) then handleStreamError s API_REQUEST_ERROR None clock
  else mkSession (accumulated s) (pending s) (timer s)
         (updateLastAssistantMessage (messages s) (λ message,
            nullish (applyChatCompletionResponse message choices (clock 0) (clock 1) (clock 2)) message)).
End display.

Definition stopGeneration (s : session) (clock : nat → Z) : session :=
  map_last (λ message,
      if isAssistantMessagePending message
      then completeAssistantMessage message (clock 4) (clock 5) (clock 6) else message)
    (reset_accumulator (flushStreamUpdates (finishStreamContent s) clock)).

(** [sendStreamingChat]: the state in which the request is sent. *)
Definition sendStreamingChat (s : session) : session :=
  mkSession (reset (accumulated s)) (mkEmitted [] []) (timer s) (messages s).

(** The events while a stream is open: a chunk, or the timer that fires. *)
Inductive stream_event :=
  | on_chunk (type : StreamChunkType) (chunk : jstring)
  | on_timer (clock : nat → Z).

Definition stream_step (s : session) (e : stream_event) : session :=
  match e with
  | on_chunk type chunk => handleStreamUpdate s type chunk
  | on_timer clock => if timer s then flushStreamUpdates s clock else s
  end.

Definition stream_run (s : session) (events : list stream_event) : session := fold_left stream_step events s.


(** The chunks among the events. *)
Definition event_chunks (events : list stream_event) : list (StreamChunkType * jstring) :=
  omap (λ e, match e with on_chunk type chunk => Some (type, chunk) | on_timer _ => None end) events.

(** ** Lemmas *)

Lemma updateLast_snoc ms m f :
  from m = role_assistant → updateLastAssistantMessage (ms ++ [m]) f = ms ++ [f m].
Proof.
  intros H. unfold updateLastAssistantMessage. rewrite reverse_app. simpl.
  rewrite bool_decide_eq_true_2 by done. simpl. by rewrite reverse_involutive.
Qed.

(** A message that is being streamed, with the texts it has so far. *)
Definition streamed (m0 : Message) (F : emitted) (m : Message) : Prop :=
  key m = key m0 ∧ from m = role_assistant ∧ isAssistantMessagePending m = true ∧
  getMessageContent m = e_content F ∧ default [] (r_content <$> reasoning m) = e_reasoning F.

Lemma pending_not_error m : isAssistantMessagePending m = true → status m ≠ Some ERROR.
Proof. unfold isAssistantMessagePending. by intros H E; rewrite E in H. Qed.

Lemma appendable_fresh (F p rest : jstring) : no_repeat (F ++ p ++ rest) → getAppendableChunk F p = p.
Proof.
  intros H. unfold getAppendableChunk. destruct (truthy F) eqn:E; [|done]. simpl.
  destruct (starts_with F p) eqn:Es; [|done]. apply starts_with_spec in Es as [t ->].
  exfalso. apply (H F (t ++ rest)); [by apply truthy_spec|]. by rewrite <- app_assoc.
Qed.

Lemma includes_app_false p a b : includes p (a ++ b) = false → includes p a = false.
Proof.
  rewrite <- !not_true_iff_false, !includes_spec. intros H (x & y & ->). apply H.
  exists x, (y ++ b). by rewrite <- !app_assoc.
Qed.

Lemma apply_reasoning_streamed m0 F m chunk now now' rest :
  streamed m0 F m → no_repeat (e_reasoning F ++ chunk ++ rest) →
  streamed m0 (add_pending F (mkEmitted [] chunk)) (applyStreamingChunk m chunk_reasoning chunk now now').
Proof.
  intros (Hk & Hf & Hp & Hc & Hr) Hn. unfold applyStreamingChunk.
  rewrite (bool_decide_eq_false_2 (status m = Some ERROR)) by (by apply pending_not_error).
  assert (r_content (startReasoningTiming m now) = e_reasoning F) as Hs by (rewrite <- Hr; done).
  rewrite Hs, (appendable_fresh _ _ _ Hn). split_and!; try done. simpl. by rewrite app_nil_r.
Qed.

Lemma apply_content_streamed m0 F m chunk now now' rest :
  streamed m0 F m → no_repeat (e_content F ++ chunk ++ rest) → includes OPEN_TAG (e_content F ++ chunk) = false →
  streamed m0 (add_pending F (mkEmitted chunk [])) (applyStreamingChunk m chunk_content chunk now now').
Proof.
  intros (Hk & Hf & Hp & Hc & Hr) Hn Ht. unfold applyStreamingChunk.
  rewrite (bool_decide_eq_false_2 (status m = Some ERROR)) by (by apply pending_not_error).
  unfold getMessageContent in Hc. rewrite Hc, (appendable_fresh _ _ _ Hn). unfold processStreamingContent.
  rewrite Hc. replace (if otruthy (Some chunk) then _ else _) with (e_content F ++ chunk); cycle 1.
  { destruct chunk; simpl; by rewrite ?app_nil_r. }
  rewrite Ht. cbn [negb]. set (cm := with_reasoning_streaming _ _).
  pose proof (completeReasoning_keeps cm now') as (Ek & Ef & _ & Ev & _ & Er).
  change (flag (isReasoningStreaming cm)) with false. cbn iota.
  set (cm' := completeReasoningTiming cm now') in *. split_and!; simpl.
  - by rewrite Ek.
  - by rewrite Ef.
  - done.
  - unfold getMessageContent, getCurrentVersion. simpl. by rewrite Ev.
  - rewrite app_nil_r. change (reasoning (with_status STREAMING cm')) with (reasoning cm'). by rewrite Er.
Qed.

(** One flush moves what is pending to the message. *)
Lemma flush_streamed m0 F ms m s clock rest :
  messages s = ms ++ [m] → streamed m0 F m →
  let T := add_pending (add_pending F (pending s)) rest in
  no_repeat (e_content T) → no_repeat (e_reasoning T) → includes OPEN_TAG (e_content T) = false →
  let s' := flushStreamUpdates s clock in
  accumulated s' = accumulated s ∧ timer s' = false ∧ pending s' = no_text ∧
  ∃ m', messages s' = ms ++ [m'] ∧ streamed m0 (add_pending F (pending s)) m'.
Proof.
  intros Hm Hs T Hc Hr Ht. unfold T in *. simpl in Hc, Hr, Ht. rewrite <- !app_assoc in *.
  unfold flushStreamUpdates. destruct s as [a [pc pr] tm msgs]. simpl in *. subst msgs.
  destruct (negb (truthy pr) && negb (truthy pc)) eqn:E; simpl.
  { bool_to_prop. apply truthy_false in H as ->. apply truthy_false in H0 as ->. split_and!; [done..|].
    exists m. split; [done|]. by rewrite add_pending_nil_r. }
  split_and!; [done..|]. rewrite updateLast_snoc by apply Hs. eexists. split; [done|].
  set (m1 := if truthy pr then _ else _).
  assert (streamed m0 (add_pending F (mkEmitted [] pr)) m1) as H1.
  { unfold m1. destruct (truthy pr) eqn:Ep; [by eapply apply_reasoning_streamed|].
    apply truthy_false in Ep as ->. by rewrite add_pending_nil_r. }
  replace (add_pending F (mkEmitted pc pr)) with
    (add_pending (add_pending F (mkEmitted [] pr)) (mkEmitted pc [])); cycle 1.
  { unfold add_pending. simpl. by rewrite !app_nil_r. }
  destruct (truthy pc) eqn:Ep.
  - eapply apply_content_streamed; [done| |].
    + simpl. rewrite app_nil_r. exact Hc.
    + simpl. rewrite app_nil_r. rewrite app_assoc in Ht. by apply includes_app_false in Ht.
  - apply truthy_false in Ep as ->. by rewrite add_pending_nil_r.
Qed.

(** What is emitted only grows. *)
Lemma accumulate_grows l k : ∃ x, (accumulate_all (l ++ k)).2 = add_pending (accumulate_all l).2 x.
Proof.
  induction k as [|c k [x IH]] using rev_ind; [exists no_text; by rewrite app_nil_r, add_pending_nil_r|].
  rewrite app_assoc, accumulate_all_snoc. unfold accumulate.
  destruct (append _ _ _) as [a e]. simpl. rewrite IH. eexists. by rewrite <- add_pending_assoc.
Qed.

Lemma event_chunks_app l k : event_chunks (l ++ k) = event_chunks l ++ event_chunks k.
Proof. apply omap_app. Qed.

Section session.
Context (s0 : session) (ms : list Message) (m0 : Message).
Hypothesis messages_s0 : messages s0 = ms ++ [m0].
Hypothesis m0_streamed : streamed m0 no_text m0.
Context (T : emitted).
Hypothesis no_repeat_content : no_repeat (e_content T).
Hypothesis no_repeat_reasoning : no_repeat (e_reasoning T).
Hypothesis no_tag : includes OPEN_TAG (e_content T) = false.

(** While the stream is open, the message and what is pending are together what
    the accumulator emitted, whenever the timer fired. *)
Lemma stream_run_ok events rest :
  add_pending (accumulate_all (event_chunks events)).2 rest = T →
  let s := stream_run (sendStreamingChat s0) events in
  accumulated s = (accumulate_all (event_chunks events)).1 ∧
  ∃ F m, messages s = ms ++ [m] ∧ streamed m0 F m ∧
         add_pending F (pending s) = (accumulate_all (event_chunks events)).2.
Proof using messages_s0 m0_streamed no_repeat_content no_repeat_reasoning no_tag.
  revert rest. induction events as [|e events IH] using rev_ind; intros rest HT.
  - simpl. split; [done|]. exists no_text, m0. by rewrite messages_s0.
  - rewrite event_chunks_app in *. unfold stream_run. rewrite fold_left_app. simpl.
    destruct (accumulate_grows (event_chunks events) (event_chunks [e])) as [x Hx].
    rewrite Hx, <- add_pending_assoc in HT. destruct (IH _ HT) as (Ha & F & m & Hm & Hs & He). clear IH.
    fold (stream_run (sendStreamingChat s0) events). set (s := stream_run _ _) in *.
    destruct e as [type chunk|clock]; simpl.
    + rewrite accumulate_all_snoc in *. unfold accumulate, handleStreamUpdate in *. simpl in *.
      rewrite Ha. destruct (append _ _ _) as [a e] eqn:Eap. simpl. split; [done|].
      exists F, m. split_and!; [done..|]. by rewrite add_pending_assoc, He.
    + rewrite app_nil_r in *. destruct (timer s); [|by eauto 10].
      assert (add_pending (add_pending F (pending s)) (add_pending x rest) = T) as HT' by by rewrite He.
      destruct (flush_streamed m0 F ms m s clock (add_pending x rest)) as (Ha' & _ & Hp & m' & Hm' & Hs');
        try done; [by rewrite HT'..|].
      split; [by rewrite Ha'|]. exists (add_pending F (pending s)), m'.
      by rewrite Hp, add_pending_nil_r.
Qed.
End session.

Lemma completeAssistant_streamed m0 F m n1 n2 n3 :
  streamed m0 F m → includes OPEN_TAG (e_content F) = false →
  let m' := completeAssistantMessage m n1 n2 n3 in
  key m' = key m0 ∧ from m' = role_assistant ∧ status m' = Some COMPLETE ∧
  isReasoningStreaming m' = Some false ∧ getMessageContent m' = e_content F ∧
  r_content <$> reasoning m' = if truthy (e_reasoning F) then Some (e_reasoning F) else None.
Proof.
  intros (Hk & Hf & Hp & Hc & Hr) Ht. simpl. unfold completeAssistantMessage, finalizeMessage.
  unfold getMessageContent in Hc. rewrite Hc, Ht. simpl nullish. rewrite Hr.
  assert (str_or (default [] None) (str_or (e_reasoning F) (default [] (pt_reasoning <$> None))) = e_reasoning F) as ->.
  { unfold str_or. simpl. by destruct (e_reasoning F). }
  set (fm := with_reasoning_streaming _ _).
  pose proof (completeReasoning_keeps fm n2) as (Ek & Ef & _ & Ev & Es & Er).
  set (fm' := completeReasoningTiming fm n2) in *. unfold completeAssistantTiming.
  assert (from (with_status COMPLETE fm') = role_assistant) as Hfr by by rewrite <- Hf.
  rewrite (bool_decide_eq_true_2 _ Hfr). simpl. split_and!.
  - by rewrite Ek.
  - by rewrite Ef.
  - done.
  - by rewrite Es.
  - unfold getMessageContent, getCurrentVersion. simpl. by rewrite Ev.
  - rewrite Er. unfold fm. simpl. by destruct (truthy (e_reasoning F)).
Qed.

(** What both the completion and the stop of a stream do with a pending message. *)
Lemma close_ok close s clock m0 ms m F :
  close = handleStreamComplete ∨ close = stopGeneration →
  messages s = ms ++ [m] → streamed m0 F m →
  let T := add_pending (add_pending F (pending s)) (finish (accumulated s)).2 in
  no_repeat (e_content T) → no_repeat (e_reasoning T) → includes OPEN_TAG (e_content T) = false →
  let s' := close s clock in
  accumulated s' = createStreamingContentAccumulator ∧ pending s' = no_text ∧ timer s' = false ∧
  ∃ m' n1 n2 n3, messages s' = ms ++ [completeAssistantMessage m' n1 n2 n3] ∧ streamed m0 T m'.
Proof.
  intros Hclose Hm Hs T Hc Hr Ht. unfold T in *.
  set (s1 := finishStreamContent s).
  assert (add_pending F (pending s1) = T) as HT by apply add_pending_assoc.
  destruct (flush_streamed m0 F ms m s1 clock no_text) as (Ha & Htm & Hp & m' & Hm' & Hs');
    rewrite ?add_pending_nil_r, ?HT; try done.
  rewrite HT in Hs'. pose proof Hs' as (_ & Hfr & Hpend & _).
  assert (isAssistantMessageFinal m' = false) as Hfin.
  { unfold isAssistantMessagePending, isAssistantMessageFinal in *.
    destruct (status m') as [[]|]; done. }
  destruct Hclose as [-> | ->]; unfold handleStreamComplete, stopGeneration, map_last; fold s1; simpl;
    (split_and!; [done..|]; exists m', (clock 4), (clock 5), (clock 6); split; [|done]);
    rewrite Hm', updateLast_snoc by done; by rewrite ?Hpend, ?Hfin.
Qed.

(** C32: the answer a stream leaves does not depend on when the timer flushes.  If the
    texts do not start with a repetition and the visible text shows no tag, then
    after any interleaving of chunks and flushes, completing (or stopping) leaves
    exactly the separation of the received text in the last message, complete,
    with nothing pending. *)
Theorem stream_result close s ms m events clock :
  close = handleStreamComplete ∨ close = stopGeneration →
  messages s = ms ++ [m] → from m = role_assistant → status m = Some LOADING →
  getMessageContent m = "" → reasoning m = None →
  let chunks := event_chunks events in
  let sep := separation mode_content (received_text (chunks_of chunk_content chunks)) in
  let R := e_reasoning (total chunks) in
  no_repeat (e_content sep) → no_repeat R → includes OPEN_TAG (e_content sep) = false →
  let s' := close (stream_run (sendStreamingChat s) events) clock in
  shuffle (e_reasoning sep) (received_text (chunks_of chunk_reasoning chunks)) R ∧
  (accumulated s' = createStreamingContentAccumulator ∧ pending s' = no_text ∧ timer s' = false) ∧
  ∃ m', messages s' = ms ++ [m'] ∧ key m' = key m ∧ from m' = role_assistant ∧
    status m' = Some COMPLETE ∧ isReasoningStreaming m' = Some false ∧
    getMessageContent m' = e_content sep ∧
    r_content <$> reasoning m' = if truthy R then Some R else None.
Proof.
  intros Hclose Hm Hf Hst Hc0 Hr0 chunks sep R Hc Hr Ht s'.
  destruct (total_spec chunks) as [HV Hsh]. split; [exact Hsh|]. fold sep in HV.
  assert (streamed m no_text m) as Hs0.
  { split_and!; try done; [by unfold isAssistantMessagePending; rewrite Hst|by rewrite Hr0]. }
  rewrite <- HV in *. unfold s', R, chunks in *. clear s' sep HV Hsh R chunks.
  unfold total in *. destruct (accumulate_all (event_chunks events)) as [a e] eqn:E.
  destruct (stream_run_ok s ms m Hm Hs0 (add_pending e (finish a).2) Hc Hr Ht events (finish a).2)
    as (Ha & F & m1 & Hm1 & Hs1 & HF); [by rewrite E|].
  rewrite E in Ha, HF. simpl in Ha, HF.
  pose proof (close_ok close _ clock m ms m1 F Hclose Hm1 Hs1) as H. cbv zeta in H.
  rewrite HF, Ha in H. destruct (H Hc Hr Ht) as (H1 & H2 & H3 & m' & n1 & n2 & n3 & Hm' & Hs').
  split; [done|]. eexists. split; [done|].
  destruct (completeAssistant_streamed m _ m' n1 n2 n3 Hs' Ht) as (? & ? & ? & ? & ? & ?). done.
Qed.

Lemma stream_result_witness :
  let m := createLoadingAssistantMessage (λ k, N_to_js (N.of_nat k)) 0 100 in
  let s := mkSession createStreamingContentAccumulator no_text false [m] in
  let events := [on_chunk chunk_content "Hi <thi"; on_timer (λ _, 200%Z);
                 on_chunk chunk_content "nk>plan</think> there"] in
  ∃ m', messages (handleStreamComplete (stream_run (sendStreamingChat s) events) (λ _, 300%Z)) = [] ++ [m'] ∧
    status m' = Some COMPLETE ∧ getMessageContent m' = "Hi  there" ∧
    r_content <$> reasoning m' = Some "plan".
Proof.
  intros m s events.
  destruct (stream_result handleStreamComplete s [] m events (λ _, 300%Z)) as (_ & _ & m' & Hm & H).
  - by left.
  - done.
  - done.
  - done.
  - done.
  - done.
  - apply no_repeat_b_spec. vm_compute. reflexivity.
  - apply no_repeat_b_spec. vm_compute. reflexivity.
  - vm_compute. reflexivity.
  - exists m'. split; [exact Hm|]. destruct H as (_ & _ & Hs & _ & Hc & Hr). split; [exact Hs|].
    split; [rewrite Hc; vm_compute; reflexivity|rewrite Hr; vm_compute; reflexivity].
Defined.

(** The timer can still change the answer of a stream that repeats itself: the
    chunks [bon], [b], [on] give [bonbon], but only [bon] when the timer fires after
    the first, because each flush drops text that repeats the message. *)
Lemma flush_timing_changes_result nanoid k now ms s clock :
  let run events := messages (handleStreamComplete (stream_run (sendStreamingChat
    (mkSession (accumulated s) (pending s) (timer s) (ms ++ [createLoadingAssistantMessage nanoid k now])))
    events) clock) in
  let b := on_chunk chunk_content "bon" in
  let rest := [on_chunk chunk_content "b"; on_chunk chunk_content "on"] in
  getMessageContent <$> last (run (b :: rest)) = Some "bonbon" ∧
  getMessageContent <$> last (run (b :: on_timer clock :: rest)) = Some "bon".
Proof.
  simpl. unfold handleStreamComplete, map_last, flushStreamUpdates. simpl.
  rewrite !updateLast_snoc by done. rewrite !last_snoc. done.
Qed.

(** *** Errors *)

Lemma apply_error_keeps type chunk n1 n2 m :
  status m = Some ERROR → applyStreamingChunk m type chunk n1 n2 = m.
Proof. intros H. unfold applyStreamingChunk. by rewrite bool_decide_eq_true_2. Qed.

Lemma flush_error_keeps s clock ms m :
  messages s = ms ++ [m] → from m = role_assistant → status m = Some ERROR →
  messages (flushStreamUpdates s clock) = messages s.
Proof.
  intros Hm Hf Hst. unfold flushStreamUpdates.
  destruct (negb (truthy (e_reasoning (pending s))) && negb (truthy (e_content (pending s)))); [done|]. simpl.
  rewrite Hm, updateLast_snoc by done.
  destruct (truthy (e_reasoning (pending s))), (truthy (e_content (pending s)));
    repeat rewrite (apply_error_keeps _ _ _ _ m Hst); done.
Qed.

Lemma run_error_keeps s events ms m :
  messages s = ms ++ [m] → from m = role_assistant → status m = Some ERROR →
  messages (stream_run s events) = messages s.
Proof.
  intros Hm Hf Hst. induction events as [|e events IH] using rev_ind; [done|].
  unfold stream_run in *. rewrite fold_left_app. simpl. set (s1 := fold_left _ _ _) in *.
  destruct e as [type chunk|clock]; simpl.
  - unfold handleStreamUpdate. by destruct (append _ _ _).
  - destruct (timer s1); [|done]. erewrite flush_error_keeps; [done|by rewrite IH|done|done].
Qed.

Lemma flush_last s clock ms m :
  messages s = ms ++ [m] → from m = role_assistant →
  ∃ m', messages (flushStreamUpdates s clock) = ms ++ [m'] ∧ from m' = role_assistant ∧ key m' = key m.
Proof.
  intros Hm Hf. unfold flushStreamUpdates.
  destruct (negb _ && negb _); [by exists m|]. simpl. rewrite Hm, updateLast_snoc by done.
  eexists. split; [done|].
  assert (∀ type chunk n1 n2 m1, from (applyStreamingChunk m1 type chunk n1 n2) = from m1 ∧
                                 key (applyStreamingChunk m1 type chunk n1 n2) = key m1) as Ha.
  { intros type chunk n1 n2 m1. unfold applyStreamingChunk. case_bool_decide; [done|].
    destruct type; [done|]. set (cm := processStreamingContent _ _ _).
    assert (from cm = from m1 ∧ key cm = key m1) as [E1 E2].
    { unfold cm, processStreamingContent. case_match; done. }
    destruct (flag (isReasoningStreaming cm)); simpl; [done|].
    destruct (completeReasoning_keeps cm n2) as (-> & -> & _). done. }
  destruct (truthy (e_reasoning (pending s))), (truthy (e_content (pending s)));
    rewrite ?(proj1 (Ha _ _ _ _ _)), ?(proj2 (Ha _ _ _ _ _)); done.
Qed.

Lemma emitted_nil e : e_content e = [] → e_reasoning e = [] → e = no_text.
Proof. destruct e. simpl. by intros -> ->. Qed.

(** An error ends the answer: the last message shows the error with its code,
    nothing is pending, and no later chunk, flush, completion or stop changes it. *)
Lemma stream_error_final t s ms m error errorCode clock events clock' :
  messages s = ms ++ [m] → from m = role_assistant →
  let s' := handleStreamError t s error errorCode clock in
  accumulated s' = createStreamingContentAccumulator ∧ pending s' = no_text ∧ timer s' = false ∧
  (∃ m', messages s' = ms ++ [m'] ∧ key m' = key m ∧ status m' = Some ERROR ∧
     PlaygroundMessage.errorCode m' = (if otruthy errorCode then errorCode else None) ∧
     getMessageContent m' = t API_REQUEST_ERROR ++ ": " ++ getDisplayError t error) ∧
  messages (stream_run s' events) = messages s' ∧
  messages (handleStreamComplete (stream_run s' events) clock') = messages s' ∧
  messages (stopGeneration (stream_run s' events) clock') = messages s'.
Proof.
  intros Hm Hf. simpl. set (s' := handleStreamError _ _ _ _ _).
  set (s1 := flushStreamUpdates (finishStreamContent s) clock).
  destruct (flush_last (finishStreamContent s) clock ms m Hm Hf) as (m1 & Hm1 & Hf1 & Hk1).
  fold s1 in Hm1.
  assert (∃ m', messages s' = ms ++ [m'] ∧ key m' = key m ∧ from m' = role_assistant ∧ status m' = Some ERROR ∧
     PlaygroundMessage.errorCode m' = (if otruthy errorCode then errorCode else None) ∧
     getMessageContent m' = t API_REQUEST_ERROR ++ ": " ++ getDisplayError t error)
    as (m' & Hm' & Hk & Hf' & Hst & Hec & Hcon).
  { unfold s', handleStreamError. fold s1. simpl. unfold updateAssistantMessageWithError.
    rewrite Hm1, updateLast_snoc by done. eexists. split; [done|].
    unfold completeAssistantTiming. set (um := with_error_code _ _).
    assert (from um = role_assistant) as Hum by done. rewrite (bool_decide_eq_true_2 _ Hum). simpl.
    split_and!; [done..| |done]. by destruct errorCode as [[|]|]. }
  assert (accumulated s' = createStreamingContentAccumulator ∧ pending s' = no_text ∧ timer s' = false) as (?&?&?).
  { unfold s', handleStreamError. simpl. unfold flushStreamUpdates.
    destruct (negb (truthy _) && negb (truthy _)) eqn:E; simpl; [|done].
    bool_to_prop. split_and!; try done. apply truthy_false in H, H0.
    by apply emitted_nil. }
  pose proof (run_error_keeps s' events ms m' Hm' Hf' Hst) as Hrun.
  split_and!; try done; [by eauto 10| |]; unfold handleStreamComplete, stopGeneration, map_last; simpl;
    (erewrite flush_error_keeps; [|simpl; by rewrite Hrun|done|done]); simpl; rewrite Hrun, Hm';
    rewrite updateLast_snoc by done; do 2 f_equal; unfold isAssistantMessageFinal, isAssistantMessagePending;
    by rewrite Hst.
Qed.

Lemma stream_error_final_witness :
  let m := createLoadingAssistantMessage (λ k, N_to_js (N.of_nat k)) 0 100 in
  let s := mkSession createStreamingContentAccumulator (mkEmitted "part" "") true [m] in
  let s' := handleStreamError (λ x, x) s "HTTP 500: Connection closed" (Some "500") (λ _, 300%Z) in
  (∃ m', messages s' = [] ++ [m'] ∧ status m' = Some ERROR ∧
     getMessageContent m' = "Request error occurred: HTTP 500: Connection closed") ∧
  messages (stream_run s' [on_chunk chunk_content "late"; on_timer (λ _, 400%Z)]) = messages s'.
Proof.
  intros m s s'.
  destruct (stream_error_final (λ x, x) s [] m "HTTP 500: Connection closed" (Some "500") (λ _, 300%Z)
    [on_chunk chunk_content "late"; on_timer (λ _, 400%Z)] (λ _, 500%Z)) as (_ & _ & _ & (m' & H) & Hrun & _).
  - reflexivity.
  - reflexivity.
  - destruct H as (Hm & _ & Hst & _ & Hc). split; [|exact Hrun]. exists m'. split; [exact Hm|].
    split; [exact Hst|]. rewrite Hc. vm_compute. reflexivity.
Defined.
