(* ===== verification/PlaygroundStorage.v ===== *)
(** * PlaygroundStorage: [features/playground/lib/storage/storage.ts]

    What the playground keeps of a conversation: the limits on stored and loaded
    messages, the truncation of long texts, the collapse of texts that repeat
    their sections, and the loading of stored messages.  The schemas, which check
    parsed values, are built with a third-party validator and are parameters. *)
From S2P Require Import Prelude JsString JsNumber JsValue JsJson JsRegex PlaygroundMessage PlaygroundStreaming.

(** ** Limits ([storage-schema.ts]) *)

Definition MAX_STORED_MESSAGES : nat := 100.
Definition MAX_STORED_MESSAGES_BYTES : N := 1024 * 1024.
Definition MAX_LOADED_MESSAGES_CHARS : N := 120000.
Definition MAX_LOADED_MESSAGE_CHARS : N := 40000.

Definition TRUNCATED_CONTENT_SUFFIX : jstring := [10%N; 10%N] ++ "[...]".
Definition MIN_PREFIX_COLLAPSE_LENGTH : N := 2000.
Definition MIN_REPEATED_SECTION_COUNT : nat := 3.

(** [text.length]; the limits are binary numbers. *)
Definition text_length (text : jstring) : N := N.of_nat (length text).

(** ** Stored values

    The storage of the browser maps keys to texts; writing is taken not to fail for
    want of space.  A reading function gives [None] where the code throws. *)

Definition STORAGE_VERSION : num := of_Z 1.
Definition CONFIG : jstring := "playground_config".
Definition MESSAGES : jstring := "playground_messages".
Definition PARAMETER_ENABLED : jstring := "playground_parameter_enabled".

Abbreviation storage := (list (jstring * jstring)).

Definition readStoredValue (key : jstring) (localStorage : storage) : option jval :=
  let saved := oget key localStorage in
  if negb (otruthy saved) then Some JNull else JSON_parse (default [] saved).

Definition readStoredMessagesValue (localStorage : storage) : option jval * storage :=
  let saved := oget MESSAGES localStorage in
  if negb (otruthy saved) then (Some JNull, localStorage)
  else if (MAX_STORED_MESSAGES_BYTES <? text_length (default [] saved))%N
  then (Some JNull, odelete MESSAGES localStorage)
  else (JSON_parse (default [] saved), localStorage).

Definition unwrapStoredValue (value : jval) : jval :=
  match value with
  | JObj o => match oget "version" o, oget "data" o with
              | Some _, Some data => data
              | _, _ => value
              end
  | _ => value
  end.

Definition writeStoredValue (key : jstring) (data : jval) (localStorage : storage) : storage :=
  match JSON_stringify None (JObj [("version", JNum STORAGE_VERSION); ("data", data)]) with
  | Some text => oset key text localStorage
  | None => localStorage
  end.

(** ** Trimming *)

Definition trimMessages (messages : list Message) : list Message :=
  if length messages <=? MAX_STORED_MESSAGES then messages
  else slice_from (- Z.of_nat MAX_STORED_MESSAGES) messages.

Definition getMessageSize (message : Message) : N :=
  fold_left (λ total version, total + text_length (version_content version))%N (versions message) 0%N
  + match reasoning message with Some r => text_length (r_content r) | None => 0%N end.

Definition truncateText (text : jstring) (maxLength : N) : jstring :=
  if (text_length text <=? maxLength)%N then text
  else if (maxLength <=? text_length TRUNCATED_CONTENT_SUFFIX)%N then take (N.to_nat maxLength) text
  else take (N.to_nat (maxLength - text_length TRUNCATED_CONTENT_SUFFIX)) text ++ TRUNCATED_CONTENT_SUFFIX.

(** The loop from the last message down; [result] is in the order of the list. *)
Fixpoint trim_by_size (reversed : list Message) (totalSize : N) (result : list Message) : list Message :=
  match reversed with
  | [] => result
  | message :: rest =>
    let messageSize := getMessageSize message in
    if (0 <? length result) && (MAX_LOADED_MESSAGES_CHARS <? totalSize + messageSize)%N then result
    else trim_by_size rest (totalSize + messageSize)%N (message :: result)
  end.

Definition trimMessagesByContentSize (messages : list Message) : list Message :=
  trim_by_size (reverse messages) 0%N [].

(** ** Repeated sections *)

(** [/^#{2,6}\s+\d+\.\s+.+$/gm] *)
Definition SECTION_HEADING_LINE_PATTERN : regex :=
  let hash := RLit "#" in
  let spaces := RPlus (RChar is_space) in
  RSeqs [RBolM; hash; hash; ROpt hash; ROpt hash; ROpt hash; ROpt hash; spaces;
         RPlus (RChar is_digit); RLit "."; spaces; RPlus (RChar not_line_end); REolM].

Record SectionOccurrence := { heading : jstring; index : nat }.

Definition getSectionOccurrences (text : jstring) : list SectionOccurrence :=
  map (λ m, {| heading := m_text m; index := m_index m |}) (match_all SECTION_HEADING_LINE_PATTERN text).

Definition getHeadingCounts (occurrences : list SectionOccurrence) : list (jstring * nat) :=
  fold_left (λ counts o, oset (heading o) (nullish (oget (heading o) counts) 0 + 1) counts) occurrences [].

(** The loop from the last occurrence down. *)
Fixpoint last_repeated (counts : list (jstring * nat)) (seenHeadings : list jstring)
  (reversed : list SectionOccurrence) : list nat :=
  match reversed with
  | [] => []
  | o :: rest =>
    if (nullish (oget (heading o) counts) 0 <? MIN_REPEATED_SECTION_COUNT) || has (heading o) seenHeadings
    then last_repeated counts seenHeadings rest
    else index o :: last_repeated counts (set_add (heading o) seenHeadings) rest
  end.

(** [None] for [-1]. *)
Definition findLastRepeatedSectionRunStart (text : jstring) : option nat :=
  let occurrences := getSectionOccurrences text in
  match last_repeated (getHeadingCounts occurrences) [] (reverse occurrences) with
  | [] => None
  | i :: rest => Some (fold_left Nat.min rest i)
  end.

Definition collapseRepeatedSectionSnapshots (text : jstring) : jstring :=
  if (text_length text <? MIN_PREFIX_COLLAPSE_LENGTH)%N then text
  else match findLastRepeatedSectionRunStart text with
       | None => text
       | Some start => drop start text
       end.

(** ** Loading *)

(** The message, and whether it is a new object.  [now], [now'] and [now''] are
    the readings of the clock. *)
Definition normalizeStoredMessageForLoad (message : Message) (now now' now'' : Z) : Message * bool :=
  let contents := map (λ version,
      truncateText (collapseRepeatedSectionSnapshots (version_content version)) MAX_LOADED_MESSAGE_CHARS)
    (versions message) in
  let newVersions := zip_with (λ version content, mkVersion (version_id version) content)
    (versions message) contents in
  let newReasoning := (λ r,
      {| r_content := truncateText (r_content r) MAX_LOADED_MESSAGE_CHARS; r_duration := r_duration r;
         r_startedAt := r_startedAt r; r_completedAt := r_completedAt r; r_durationMs := r_durationMs r |})
    <$> reasoning message in
  let versionsChanged := existsb (λ version,
      negb (bool_decide (truncateText (collapseRepeatedSectionSnapshots (version_content version))
                           MAX_LOADED_MESSAGE_CHARS = version_content version) &&
            bool_decide (collapseRepeatedSectionSnapshots (version_content version) = version_content version)))
    (versions message) in
  let reasoningChanged := negb (bool_decide (r_content <$> newReasoning = r_content <$> reasoning message)) in
  let changed := versionsChanged || reasoningChanged in
  let normalized := if changed then with_reasoning newReasoning (with_versions newVersions message) else message in
  if negb (isAssistantMessagePending normalized) then (normalized, changed)
  else
    let hasContent := hasMessageContent normalized in
    let hasReasoning := truthy (trim (default [] (r_content <$> reasoning normalized))) in
    if negb hasContent && negb hasReasoning then (normalized, changed)
    else
      let completedAt := nullish (completedAt normalized)
        (nullish (reasoning normalized ≫= r_completedAt)
           (nullish (startedAt normalized) (nullish (createdAt normalized) now))) in
      (completeAssistantTiming
         (with_reasoning_streaming false (with_status COMPLETE (finalizeMessage normalized None now' now'')))
         completedAt, true).

(** The schemas check a value and give the checked copy; [None]: they throw. *)
Section storage_access.
Variables playgroundConfigSchema parameterEnabledSchema : jval → option jval.

(** [messagesSchema.parse] on a stored value, which gives messages, and on messages,
    which gives the value to store. *)
Variable messagesSchema : jval → option (list Message).
Variable messages_to_store : list Message → option jval.
Variable t : jstring → jstring.

Definition loadConfig (localStorage : storage) : jval :=
  match readStoredValue CONFIG localStorage with
  | Some saved =>
    if negb (to_boolean saved) then JObj []
    else default (JObj []) (playgroundConfigSchema (unwrapStoredValue saved))
  | None => JObj []
  end.

Definition saveConfig (config : jval) (localStorage : storage) : storage :=
  match playgroundConfigSchema config with
  | Some parsed => writeStoredValue CONFIG parsed localStorage
  | None => localStorage
  end.

Definition loadParameterEnabled (localStorage : storage) : jval :=
  match readStoredValue PARAMETER_ENABLED localStorage with
  | Some saved =>
    if negb (to_boolean saved) then JObj []
    else default (JObj []) (parameterEnabledSchema (unwrapStoredValue saved))
  | None => JObj []
  end.

Definition saveParameterEnabled (parameterEnabled : jval) (localStorage : storage) : storage :=
  match parameterEnabledSchema parameterEnabled with
  | Some parsed => writeStoredValue PARAMETER_ENABLED parsed localStorage
  | None => localStorage
  end.

Definition saveMessages (messages : list Message) (localStorage : storage) : storage :=
  match messages_to_store (trimMessages messages) with
  | Some parsed => writeStoredValue MESSAGES parsed localStorage
  | None => localStorage
  end.

Definition loadMessages (localStorage : storage) (now now' now'' : Z) : option (list Message) * storage :=
  let '(saved, localStorage) := readStoredMessagesValue localStorage in
  match saved with
  | None => (None, localStorage)
  | Some saved =>
    if negb (to_boolean saved) then (None, localStorage)
    else match messagesSchema (unwrapStoredValue saved) with
         | None => (None, localStorage)
         | Some parsed =>
           let results := map (λ m, normalizeStoredMessageForLoad m now now' now'') parsed in
           let normalized := results.*1 in
           let normalizedChanged := existsb snd results in
           let trimmed := trimMessages normalized in
           let trimmedIsNew := negb (length normalized <=? MAX_STORED_MESSAGES) in
           let sizeTrimmed := trimMessagesByContentSize trimmed in
           (* trimMessagesByContentSize always builds a new array *)
           let sizeTrimmedIsNew := true in
           let sanitized := sanitizeMessagesOnLoad t sizeTrimmed now now' now'' in
           (Some sanitized,
            if normalizedChanged || trimmedIsNew || sizeTrimmedIsNew
            then saveMessages sanitized localStorage else localStorage)
         end
  end.

Definition clearPlaygroundData (localStorage : storage) : storage :=
  odelete MESSAGES (odelete PARAMETER_ENABLED (odelete CONFIG localStorage)).
End storage_access.

(** ** Lemmas *)

Lemma trimMessages_suffix messages :
  trimMessages messages = drop (length messages - MAX_STORED_MESSAGES) messages.
Proof.
  unfold trimMessages. destruct (Nat.leb_spec (length messages) MAX_STORED_MESSAGES) as [H|H].
  - by replace (length messages - MAX_STORED_MESSAGES) with 0 by lia.
  - unfold slice_from, rel_index. rewrite bool_decide_eq_true_2 by (unfold MAX_STORED_MESSAGES; lia).
    f_equal. lia.
Qed.

Definition total_size (messages : list Message) : N := foldr (λ m n, getMessageSize m + n)%N 0%N messages.

Lemma trim_by_size_spec rest total result :
  total = total_size result →
  let out := trim_by_size rest total result in
  ∃ dropped kept, reverse rest = dropped ++ kept ∧ out = kept ++ result ∧
    (length kept = 0 ∨ length out = 1 ∨ (total_size out <= MAX_LOADED_MESSAGES_CHARS)%N) ∧
    (dropped = [] ∨ ∃ d m, dropped = d ++ [m] ∧ out ≠ [] ∧
       (MAX_LOADED_MESSAGES_CHARS < getMessageSize m + total_size out)%N).
Proof.
  revert total result. induction rest as [|m rest IH]; intros total result Ht out; unfold out; simpl.
  { exists [], []. split_and!; auto. }
  destruct ((0 <? length result) && _) eqn:E.
  - bool_to_prop. apply Nat.ltb_lt in H. apply N.ltb_lt in H0.
    exists (reverse rest ++ [m]), []. rewrite reverse_cons, app_nil_r. split_and!; auto. right.
    exists (reverse rest), m. split_and!; [done| |lia]. by destruct result; [simpl in H; lia|].
  - edestruct (IH (total + getMessageSize m)%N (m :: result)) as (d & k & Hr & Ho & Hb & Hd).
    { simpl. lia. }
    exists d, (k ++ [m]). rewrite reverse_cons, Hr, <- !app_assoc. split_and!; [done|exact Ho| |exact Hd].
    destruct Hb as [Hk|Hb]; [|by right]. destruct k; [|done]. rewrite Ho. simpl.
    apply andb_false_iff in E as [E|E].
    + apply Nat.ltb_ge in E. destruct result; [|simpl in E; lia]. auto.
    + apply N.ltb_ge in E. right; right. lia.
Qed.

(** What loading keeps of the messages is a suffix of them, with at most 100
    messages and at most 120,000 units of text unless it is a single message, and
    no message is dropped that would have fitted. *)
Lemma loaded_messages_bounds messages :
  let kept := trimMessagesByContentSize (trimMessages messages) in
  ∃ dropped, messages = dropped ++ kept ∧ length kept <= MAX_STORED_MESSAGES ∧
    (length kept = 1 ∨ (total_size kept <= MAX_LOADED_MESSAGES_CHARS)%N) ∧
    (kept = [] → messages = []) ∧
    (∀ rest m, dropped = rest ++ [m] →
       length kept = MAX_STORED_MESSAGES ∨
       (MAX_LOADED_MESSAGES_CHARS < getMessageSize m + total_size kept)%N).
Proof.
  simpl. rewrite trimMessages_suffix. set (n := length messages - MAX_STORED_MESSAGES).
  unfold trimMessagesByContentSize.
  destruct (trim_by_size_spec (reverse (drop n messages)) 0%N [] eq_refl) as (d & k & Hr & Ho & Hb & Hd).
  rewrite Ho in *. rewrite app_nil_r in *. rewrite reverse_involutive in Hr.
  pose proof (f_equal length Hr) as Hlen. rewrite length_drop, length_app in Hlen.
  exists (take n messages ++ d). split_and!.
  - by rewrite <- app_assoc, <- Hr, take_drop.
  - unfold n in Hlen. lia.
  - destruct Hb as [Hk|Hb]; [|done]. right. destruct k; done.
  - intros ->. destruct Hd as [->|(? & ? & _ & ? & _)]; [|done].
    destruct messages; [done|]. simpl in Hlen. unfold n, MAX_STORED_MESSAGES in Hlen. simpl in Hlen. lia.
  - intros rest m Hm. destruct Hd as [->|(d' & m' & -> & _ & Hs)].
    + left. rewrite app_nil_r in Hm. pose proof (f_equal length Hm) as Hl.
      rewrite length_take, length_app in Hl. simpl in Hl, Hlen. unfold n in *. lia.
    + right. rewrite app_assoc in Hm. apply app_inj_tail in Hm as [_ ->]. done.
Qed.

(** ** Repeated sections *)

Definition occurrences_of (h : jstring) (occurrences : list SectionOccurrence) : nat :=
  length (filter (λ o, heading o = h) occurrences).

Lemma getHeadingCounts_spec occurrences h :
  nullish (oget h (getHeadingCounts occurrences)) 0 = occurrences_of h occurrences.
Proof.
  unfold getHeadingCounts, occurrences_of. induction occurrences as [|o l IH] using rev_ind; [done|].
  rewrite fold_left_app, filter_app, length_app. simpl. rewrite oget_oset.
  rewrite filter_cons. case_bool_decide as E; [subst h|]; case_decide; try congruence; simpl; rewrite IH; lia.
Qed.

Lemma last_repeated_sound counts seen reversed i :
  i ∈ last_repeated counts seen reversed →
  ∃ o, o ∈ reversed ∧ index o = i ∧ MIN_REPEATED_SECTION_COUNT ≤ nullish (oget (heading o) counts) 0.
Proof.
  revert seen. induction reversed as [|o l IH]; intros seen; simpl; [by rewrite elem_of_nil|].
  destruct ((_ <? _) || _) eqn:E.
  - intros (o' & ? & ? & ?)%IH. exists o'. rewrite elem_of_cons. auto.
  - bool_to_prop. apply Nat.ltb_ge in H. rewrite elem_of_cons. intros [->|(o' & ? & ? & ?)%IH].
    + exists o. split_and!; [constructor|done|done].
    + exists o'. rewrite elem_of_cons. auto.
Qed.

Lemma last_repeated_complete counts seen reversed o :
  o ∈ reversed → MIN_REPEATED_SECTION_COUNT ≤ nullish (oget (heading o) counts) 0 → heading o ∉ seen →
  ∃ o', o' ∈ reversed ∧ heading o' = heading o ∧ index o' ∈ last_repeated counts seen reversed.
Proof.
  revert seen. induction reversed as [|x l IH]; intros seen Hin Hc Hs; [by apply elem_of_nil in Hin|].
  simpl. destruct (decide (heading x = heading o)) as [Hx|Hx].
  - exists x. split_and!; [constructor|done|]. rewrite Hx.
    rewrite (proj2 (Nat.ltb_ge _ _) Hc). apply has_spec_false in Hs. rewrite Hs. simpl. constructor.
  - apply elem_of_cons in Hin as [->|Hin]; [done|].
    destruct ((_ <? _) || _).
    + destruct (IH seen Hin Hc Hs) as (o' & ? & ? & ?). exists o'. rewrite elem_of_cons. auto.
    + destruct (IH (set_add (heading x) seen) Hin Hc) as (o' & ? & ? & ?).
      { rewrite elem_of_set_add. naive_solver. }
      exists o'. rewrite !elem_of_cons. auto.
Qed.

Lemma fold_min_spec l i : let m := fold_left Nat.min l i in m ∈ i :: l ∧ ∀ x, x ∈ i :: l → m ≤ x.
Proof.
  revert i. induction l as [|y l IH]; intros i; simpl.
  - split; [constructor|]. by intros x ->%list_elem_of_singleton.
  - destruct (IH (i `min` y)) as [H1 H2]. split.
    + apply elem_of_cons in H1 as [->|H1].
      * destruct (Nat.min_spec i y) as [[_ ->]|[_ ->]]; rewrite !elem_of_cons; auto.
      * rewrite !elem_of_cons. auto.
    + pose proof (H2 (i `min` y) ltac:(constructor)).
      intros x [->|[->|Hx]%elem_of_cons]%elem_of_cons; [lia|lia|]. apply H2. by constructor.
Qed.

Lemma occurrence_at text o :
  o ∈ getSectionOccurrences text → starts_with (heading o) (drop (index o) text) = true.
Proof.
  intros (m & -> & Hm)%list_elem_of_fmap. by apply match_all_at in Hm.
Qed.

(** A text is left as it is when it is short or no section heading occurs three
    times.  Otherwise what is kept starts at a heading that occurs three times, and
    still holds an occurrence of every such heading. *)
Lemma collapseRepeatedSectionSnapshots_spec text :
  let occurrences := getSectionOccurrences text in
  let kept := collapseRepeatedSectionSnapshots text in
  (((text_length text < MIN_PREFIX_COLLAPSE_LENGTH)%N ∨
    ∀ h, occurrences_of h occurrences < MIN_REPEATED_SECTION_COUNT) ∧ kept = text) ∨
  ((MIN_PREFIX_COLLAPSE_LENGTH <= text_length text)%N ∧
   ∃ o, o ∈ occurrences ∧ kept = drop (index o) text ∧ starts_with (heading o) kept = true ∧
     MIN_REPEATED_SECTION_COUNT ≤ occurrences_of (heading o) occurrences ∧
     ∀ h, MIN_REPEATED_SECTION_COUNT ≤ occurrences_of h occurrences →
       ∃ o', o' ∈ occurrences ∧ heading o' = h ∧ index o ≤ index o').
Proof.
  simpl. unfold collapseRepeatedSectionSnapshots, findLastRepeatedSectionRunStart.
  destruct (N.ltb_spec (text_length text) MIN_PREFIX_COLLAPSE_LENGTH) as [Hl|Hl]; [by left; auto|].
  set (occs := getSectionOccurrences text).
  assert (∀ h, MIN_REPEATED_SECTION_COUNT ≤ occurrences_of h occs →
    ∃ o', o' ∈ occs ∧ heading o' = h ∧ index o' ∈ last_repeated (getHeadingCounts occs) [] (reverse occs)) as Hall.
  { intros h Hh. unfold occurrences_of in Hh.
    destruct (filter (λ o, heading o = h) occs) as [|o l] eqn:E; [simpl in Hh; unfold MIN_REPEATED_SECTION_COUNT in Hh; lia|].
    assert (o ∈ filter (λ o, heading o = h) occs) as Hin by (rewrite E; constructor).
    apply list_elem_of_filter in Hin as [Ho Hin]. rewrite <- E in Hh.
    destruct (last_repeated_complete (getHeadingCounts occs) [] (reverse occs) o) as (o' & H1 & H2 & H3).
    - by apply elem_of_reverse.
    - rewrite getHeadingCounts_spec, Ho. done.
    - apply not_elem_of_nil.
    - exists o'. rewrite elem_of_reverse in H1. split_and!; [done|congruence|done]. }
  destruct (last_repeated _ _ _) as [|i l] eqn:E.
  - left. split; [right|done]. intros h. apply Nat.nle_gt. intros Hh.
    destruct (Hall h Hh) as (o' & _ & _ & Hin). by apply elem_of_nil in Hin.
  - right. split; [done|]. destruct (fold_min_spec l i) as [Hin Hmin]. set (start := fold_left Nat.min l i) in *.
    rewrite <- E in Hin. apply last_repeated_sound in Hin as (o & Ho & Hi & Hc).
    rewrite elem_of_reverse in Ho. rewrite getHeadingCounts_spec in Hc.
    exists o. rewrite Hi. split_and!; [done|done| |done|].
    + rewrite <- Hi. by apply occurrence_at.
    + intros h Hh. destruct (Hall h Hh) as (o' & H1 & H2 & H3). exists o'. split_and!; [done..|]. by apply Hmin.
Qed.

(** ** Saving and loading *)

Lemma write_read key v st :
  json_ok v →
  ∃ saved, readStoredValue key (writeStoredValue key v st) = Some saved ∧
    to_boolean saved = true ∧ unwrapStoredValue saved = v.
Proof.
  intros Hv. unfold readStoredValue, writeStoredValue.
  set (envelope := JObj [("version", JNum STORAGE_VERSION); ("data", v)]).
  assert (json_ok envelope) as Hok.
  { assert (json_ok_b (JObj [("version", JNum STORAGE_VERSION); ("data", JNull)]) = true) as H by by vm_compute.
    apply json_ok_b_spec in H. destruct H as (? & ? & (? & ?) & (? & _) & _). by repeat split. }
  destruct (JSON_roundtrip None envelope Hok) as (text & -> & Hp).
  rewrite oget_oset_eq. exists envelope. destruct text; [by vm_compute in Hp|]. unfold otruthy. simpl.
  rewrite Hp. split_and!; reflexivity.
Qed.

Lemma write_frame key key' v st : key ≠ key' → oget key (writeStoredValue key' v st) = oget key st.
Proof. intros. unfold writeStoredValue. destruct (JSON_stringify _ _); [by rewrite oget_oset_ne|done]. Qed.

(** A configuration that the schema accepts is loaded the way the schema gave
    it, whatever the storage held before, and saving it leaves what is stored under
    the other keys; a configuration the schema refuses changes nothing. *)
Lemma stored_config_roundtrip schema config st :
  (∀ parsed, schema config = Some parsed → json_ok parsed ∧ schema parsed = Some parsed) →
  match schema config with
  | Some parsed => loadConfig schema (saveConfig schema config st) = parsed
  | None => saveConfig schema config st = st
  end ∧
  ∀ key, key ≠ CONFIG → oget key (saveConfig schema config st) = oget key st.
Proof.
  unfold saveConfig, loadConfig. destruct (schema config) as [parsed|]; intros Hs; [|done].
  destruct (Hs parsed eq_refl) as [Hj Hp]. split; [|intros; by apply write_frame].
  destruct (write_read CONFIG parsed st Hj) as (saved & -> & -> & ->). simpl. by rewrite Hp.
Qed.

Example stored_config_roundtrip_witness :
  let schema v := match v with JObj _ => Some v | _ => None end in
  let config := JObj [("model", JStr "gpt-4o"); ("stream", JBool true)] in
  loadConfig schema (saveConfig schema config [(CONFIG, "{}" : jstring); (MESSAGES, "[]" : jstring)]) = config.
Proof.
  intros schema config.
  exact (proj1 (stored_config_roundtrip schema config [(CONFIG, "{}" : jstring); (MESSAGES, "[]" : jstring)]
    ltac:(intros parsed [= <-]; split; [apply json_ok_b_spec; vm_compute; reflexivity|reflexivity]))).
Defined.
