(* ===== verification/AdvancedCustom.v ===== *)
(** * AdvancedCustom: [features/channels/lib/advanced-custom.ts]

    The routes of an advanced custom channel: the options the editor offers, the
    templates, and parsing, normalization and validation of a configuration.  A
    configuration is a JavaScript value, because it may come from a text that
    [JSON.parse] reads and nothing checks its types; a function that can throw
    a [TypeError] returns [option], [None] being the exception. *)
From Stdlib Require Import Floats.SpecFloat.
From S2P Require Import Prelude JsString JsNumber JsValue JsJson.

(** ** Reading untyped values *)

(** [v.k]: throws on [null] and [undefined]. *)
Definition prop (k : jstring) (v : jval) : option jval :=
  match v with JUndefined | JNull => None | _ => Some (member k v) end.

(** [v.trim()]: throws unless [v] is a string. *)
Definition trim_of (v : jval) : option jstring :=
  match v with JStr s => Some (trim s) | _ => None end.

(** [v?.trim() || ''] *)
Definition opt_trim (v : jval) : option jstring :=
  match v with JUndefined | JNull => Some [] | _ => trim_of v end.

(** [v === s] *)
Definition is_str (v : jval) (s : jstring) : bool :=
  match v with JStr s' => bool_decide (s' = s) | _ => false end.

(** ** Options *)

Definition CHANNEL_TYPE_ADVANCED_CUSTOM : Z := 58.

(** Pairs (value, label). *)
Definition ADVANCED_CUSTOM_CONVERTER_OPTIONS : list (jstring * jstring) := [
  ("none", "Native forwarding");
  ("anthropic_messages_to_openai_chat_completions", "Anthropic Messages to OpenAI Chat");
  ("openai_chat_completions_to_anthropic_messages", "OpenAI Chat to Anthropic Messages");
  ("openai_chat_completions_to_openai_responses", "OpenAI Chat to OpenAI Responses");
  ("openai_responses_to_openai_chat_completions", "OpenAI Responses to OpenAI Chat");
  ("gemini_generate_content_to_openai_chat_completions", "Gemini Generate Content to OpenAI Chat");
  ("openai_chat_completions_to_gemini_generate_content", "OpenAI Chat to Gemini Generate Content")
].

Definition ADVANCED_CUSTOM_AUTH_MODE_OPTIONS : list (jstring * jstring) := [
  ("default", "Default Bearer"); ("none", "No Auth"); ("header", "Header"); ("query", "Query")
].

Definition ADVANCED_CUSTOM_INCOMING_PATH_OPTIONS : list (jstring * jstring) := [
  ("/v1/chat/completions", "OpenAI Chat");
  ("/v1/responses", "OpenAI Responses");
  ("/v1/responses/compact", "OpenAI Responses Compact");
  ("/v1/embeddings", "OpenAI Embeddings");
  ("/v1/images/generations", "OpenAI Image Generations");
  ("/v1/images/edits", "OpenAI Image Edits");
  ("/v1/completions", "OpenAI Completions");
  ("/v1/audio/speech", "OpenAI Audio Speech");
  ("/v1/audio/transcriptions", "OpenAI Audio Transcriptions");
  ("/v1/audio/translations", "OpenAI Audio Translations");
  ("/v1/rerank", "OpenAI Rerank");
  ("/v1/realtime", "OpenAI Realtime");
  ("/v1/messages", "Claude Messages");
  ("/v1beta/models/{model}:generateContent", "Gemini Generate Content");
  ("/v1beta/models/{model}:embedContent", "Gemini Embed Content");
  ("/v1beta/models/{model}:batchEmbedContents", "Gemini Batch Embed Contents")
].

Definition ADVANCED_CUSTOM_ROUTE_SUMMARY_LABELS : list (jstring * jstring) :=
  [("/v1/chat/completions", "OpenAI Chat")].

(** ** Templates *)

Definition auth_obj (type name value : jstring) : jval :=
  JObj [("type", JStr type); ("name", JStr name); ("value", JStr value)].

Definition bearerHeaderAuth : jval := auth_obj "header" "Authorization" "Bearer {api_key}".
Definition apiKeyHeaderAuth : jval := auth_obj "header" "x-api-key" "{api_key}".
Definition geminiQueryAuth : jval := auth_obj "query" "key" "{api_key}".

Definition route_obj (incoming_path upstream_path converter : jstring) (auth : jval) : jval :=
  JObj [("incoming_path", JStr incoming_path); ("upstream_path", JStr upstream_path);
        ("converter", JStr converter); ("auth", auth)].

Definition config_obj (routes : list jval) : jval := JObj [("advanced_routes", JArr routes)].

(** Triples (value, label, config). *)
Definition ADVANCED_CUSTOM_TEMPLATE_OPTIONS : list (jstring * jstring * jval) := [
  ("official_openai_chat", "Official OpenAI Chat", config_obj
    [route_obj "/v1/chat/completions" "/v1/chat/completions" "none" bearerHeaderAuth]);
  ("official_openai_responses", "Official OpenAI Responses", config_obj
    [route_obj "/v1/responses" "/v1/responses" "none" bearerHeaderAuth]);
  ("official_openai_embeddings", "Official OpenAI Embeddings", config_obj
    [route_obj "/v1/embeddings" "/v1/embeddings" "none" bearerHeaderAuth]);
  ("official_openai_images", "Official OpenAI Images", config_obj
    [route_obj "/v1/images/generations" "/v1/images/generations" "none" bearerHeaderAuth;
     route_obj "/v1/images/edits" "/v1/images/edits" "none" bearerHeaderAuth]);
  ("official_claude_messages", "Official Claude Messages", config_obj
    [route_obj "/v1/messages" "/v1/messages" "none" apiKeyHeaderAuth]);
  ("official_gemini_native", "Official Gemini Native", config_obj
    [route_obj "/v1beta/models/{model}:generateContent" "/v1beta/models/{model}:generateContent" "none" geminiQueryAuth;
     route_obj "/v1beta/models/{model}:embedContent" "/v1beta/models/{model}:embedContent" "none" geminiQueryAuth;
     route_obj "/v1beta/models/{model}:batchEmbedContents" "/v1beta/models/{model}:batchEmbedContents" "none"
       geminiQueryAuth]);
  ("official_gemini_from_openai_chat", "Official Gemini from OpenAI Chat", config_obj
    [route_obj "/v1/chat/completions" "/v1beta/models/{model}:generateContent"
       "openai_chat_completions_to_gemini_generate_content" geminiQueryAuth])
].

Definition cloneAdvancedCustomConfig (config : jval) : option jval := JSON_stringify None config ≫= JSON_parse.

Definition getAdvancedCustomTemplateConfig (templateKey : jstring) : option jval :=
  let template := match find (λ option, bool_decide (option.1.1 = templateKey)) ADVANCED_CUSTOM_TEMPLATE_OPTIONS with
                  | Some t => Some t
                  | None => head ADVANCED_CUSTOM_TEMPLATE_OPTIONS
                  end in
  template ≫= λ t, cloneAdvancedCustomConfig t.2.

Definition createAdvancedCustomRoute : jval :=
  JObj [("incoming_path", JStr "/v1/chat/completions"); ("upstream_path", JStr "/v1/chat/completions");
        ("converter", JStr "none")].

Definition createAdvancedCustomConfig : jval := config_obj [createAdvancedCustomRoute].

Definition getAdvancedCustomUpstreamPathPlaceholder (converter : jstring) : jstring :=
  if bool_decide (converter = "openai_chat_completions_to_gemini_generate_content")
  then "/v1beta/models/{model}:generateContent"
  else if bool_decide (converter = "openai_chat_completions_to_anthropic_messages") then "/v1/messages"
  else if bool_decide (converter = "openai_responses_to_openai_chat_completions") then "/v1/chat/completions"
  else "/v1/chat/completions".

(** ** Converters and paths *)

Definition isAdvancedCustomConverter (value : jval) : bool :=
  existsb (λ option, is_str value option.1) ADVANCED_CUSTOM_CONVERTER_OPTIONS.

Definition isConverterPathAllowed (incomingPath : jstring) (converter : jval) : bool :=
  if is_str converter "none" then true
  else if is_str converter "anthropic_messages_to_openai_chat_completions"
  then bool_decide (incomingPath = "/v1/messages")
  else if is_str converter "openai_chat_completions_to_anthropic_messages" ||
          is_str converter "openai_chat_completions_to_openai_responses" ||
          is_str converter "openai_chat_completions_to_gemini_generate_content"
  then bool_decide (incomingPath = "/v1/chat/completions")
  else if is_str converter "openai_responses_to_openai_chat_completions"
  then bool_decide (incomingPath = "/v1/responses")
  else includes ":generateContent" incomingPath || includes ":streamGenerateContent" incomingPath.

Definition getAdvancedCustomIncomingPathOptions (converter : jstring) : list (jstring * jstring) :=
  filter (λ option, isConverterPathAllowed option.1 (JStr converter) = true) ADVANCED_CUSTOM_INCOMING_PATH_OPTIONS.

Definition getDefaultAdvancedCustomIncomingPath (converter : jstring) : jstring :=
  ostr_or (fst <$> head (getAdvancedCustomIncomingPathOptions converter)) "/v1/chat/completions".

Definition isAdvancedCustomIncomingPathAllowed (incomingPath converter : jstring) : bool :=
  isConverterPathAllowed incomingPath (JStr converter).

Definition getAdvancedCustomConverterOptions (incomingPath : jstring) : list (jstring * jstring) :=
  let normalizedIncomingPath := trim incomingPath in
  filter (λ option, bool_decide (option.1 = "none") ||
                    isConverterPathAllowed normalizedIncomingPath (JStr option.1) = true)
    ADVANCED_CUSTOM_CONVERTER_OPTIONS.

Definition getAdvancedCustomIncomingPathLabel (value : jstring) : jstring :=
  ostr_or (snd <$> find (λ option, bool_decide (option.1 = value)) ADVANCED_CUSTOM_INCOMING_PATH_OPTIONS) value.

(** ** Normalization *)

Definition getAdvancedCustomRouteUpstreamPath (route : jval) : option jstring :=
  upstream_path ← prop "upstream_path" route;
  trim_of (js_or upstream_path (JStr "")).

Definition normalizeAdvancedCustomRoute (route : jval) : option jval :=
  incoming_path ← prop "incoming_path" route;
  upstream_path ← getAdvancedCustomRouteUpstreamPath route;
  converter ← prop "converter" route;
  auth ← prop "auth" route;
  Some (JObj ([("incoming_path", js_or incoming_path (JStr "")); ("upstream_path", JStr upstream_path);
               ("converter", js_or converter (JStr "none"))]
              ++ (if to_boolean auth
                  then [("auth", JObj [("type", member "type" auth);
                                       ("name", js_or (member "name" auth) (JStr ""));
                                       ("value", js_or (member "value" auth) (JStr ""))])]
                  else []))).

Definition normalizeAdvancedCustomConfig (config : jval) : option jval :=
  advanced_routes ← prop "advanced_routes" config;
  match advanced_routes with
  | JArr l => config_obj <$> mapM normalizeAdvancedCustomRoute l
  | _ => Some (config_obj [])
  end.

(** [None] is [null]: the exceptions are caught. *)
Definition parseAdvancedCustomConfig (value : option jstring) : option jval :=
  if negb (otruthy (trim <$> value)) then None
  else match JSON_parse (default [] value) with
       | Some (JObj o) => normalizeAdvancedCustomConfig (JObj o)
       | _ => None
       end.

Definition stringifyAdvancedCustomConfig (config : jval) : option jstring :=
  normalizeAdvancedCustomConfig config ≫= JSON_stringify (Some 2).

(** ** Validation *)

Record AdvancedCustomValidationError := mkError { message : jstring; routeIndex : option nat }.

(** The message of an error, [Some None] when the authentication is valid. *)
Definition validateRouteAuth (auth : jval) : option (option jstring) :=
  if negb (to_boolean auth) then Some None
  else
    let type := member "type" auth in
    if is_str type "none" then Some None
    else if negb (is_str type "header") && negb (is_str type "query") then Some (Some "Auth type is invalid")
    else
      name ← opt_trim (member "name" auth);
      if negb (truthy name) then Some (Some "Auth name is required")
      else
        value ← opt_trim (member "value" auth);
        if negb (truthy value) then Some (Some "Auth value is required") else Some None.

Section url.
(** [new URL(text)] of the platform: its host and protocol, [None] when it throws. *)
Variable URL : jstring → option (jstring * jstring).

Definition isFullHttpURLOrAbsolutePath (value : jstring) : bool :=
  if starts_with "/" value then negb (starts_with "//" value)
  else match URL value with
       | Some (host, protocol) =>
         truthy host && (bool_decide (protocol = "http:") || bool_decide (protocol = "https:"))
       | None => false
       end.

(** One round of the loop: the message of the error of a route, [Some None] when
    it is valid, and the path it adds to [seenPaths]. *)
Definition validate_route (seenPaths : list jstring) (route : jval) : option (option jstring * jstring) :=
  incoming ← prop "incoming_path" route;
  incomingPath ← opt_trim incoming;
  upstreamPath ← getAdvancedCustomRouteUpstreamPath route;
  let converter := js_or (member "converter" route) (JStr "none") in
  let error m := Some (Some m, incomingPath) in
  if negb (truthy incomingPath) then error "Incoming path is required"
  else if negb (starts_with "/" incomingPath) then error "Incoming path must start with /"
  else if includes "?" incomingPath then error "Incoming path must not include query"
  else if has incomingPath seenPaths then error "Incoming path must be unique"
  else if negb (truthy upstreamPath) then error "Upstream path is required"
  else if negb (isFullHttpURLOrAbsolutePath upstreamPath)
  then error "Upstream path must be a full URL or a path starting with /"
  else if negb (isAdvancedCustomConverter converter) then error "Converter is not registered"
  else if negb (isConverterPathAllowed incomingPath converter) then error "Converter does not match incoming path"
  else authError ← validateRouteAuth (member "auth" route); Some (authError, incomingPath).

Fixpoint validate_routes (seenPaths : list jstring) (index : nat) (routes : list jval)
  : option (option AdvancedCustomValidationError) :=
  match routes with
  | [] => Some None
  | route :: rest =>
    '(error, incomingPath) ← validate_route seenPaths route;
    match error with
    | Some m => Some (Some (mkError m (Some index)))
    | None => validate_routes (set_add incomingPath seenPaths) (S index) rest
    end
  end.

(** The routes of a normalized configuration. *)
Definition routes_of (normalized : jval) : list jval :=
  match member "advanced_routes" normalized with JArr l => l | _ => [] end.

(** [Some None]: the configuration is valid; [None]: an exception. *)
Definition validateAdvancedCustomConfig (config : jval) : option (option AdvancedCustomValidationError) :=
  if negb (to_boolean config) then Some (Some (mkError "Advanced custom configuration is required" None))
  else
    normalized ← normalizeAdvancedCustomConfig config;
    match routes_of normalized with
    | [] => Some (Some (mkError "Advanced custom configuration requires at least one route" None))
    | routes => validate_routes [] 0 routes
    end.

Definition advancedCustomConfigUsesRelativeUpstreamPath (config : jval) : option bool :=
  if negb (to_boolean config) then Some false
  else
    normalized ← normalizeAdvancedCustomConfig config;
    paths ← mapM getAdvancedCustomRouteUpstreamPath (routes_of normalized);
    Some (existsb (starts_with "/") paths).

(** [null] is the empty label, which the caller skips as well. *)
Definition getAdvancedCustomRouteSummaryLabel (route : jval) : option jstring :=
  incoming ← prop "incoming_path" route;
  incomingPath ← opt_trim incoming;
  if negb (truthy incomingPath) then Some []
  else Some (ostr_or (oget incomingPath ADVANCED_CUSTOM_ROUTE_SUMMARY_LABELS)
               (getAdvancedCustomIncomingPathLabel incomingPath)).

Record AdvancedCustomStats := { routeCount : nat; valid : bool; routeTypeLabels : list jstring }.

Definition getAdvancedCustomStats (value : option jstring) : option AdvancedCustomStats :=
  match parseAdvancedCustomConfig value with
  | None => Some {| routeCount := 0; valid := false; routeTypeLabels := [] |}
  | Some config =>
    normalized ← normalizeAdvancedCustomConfig config;
    let routes := routes_of normalized in
    labels ← mapM getAdvancedCustomRouteSummaryLabel routes;
    error ← validateAdvancedCustomConfig normalized;
    Some {| routeCount := length routes;
            valid := bool_decide (error = None);
            routeTypeLabels := new_set (filter (λ l, truthy l = true) labels) |}
  end.
End url.

(** ** Authentication *)

Definition getAdvancedCustomAuthMode (route : jval) : option jval :=
  auth ← prop "auth" route;
  Some (js_or (member "type" auth) (JStr "default")).

(** [JUndefined] for [undefined]. *)
Definition buildAdvancedCustomAuth (mode : jstring) (previousAuth : jval) : jval :=
  let field k fallback := js_or (member k previousAuth) (JStr fallback) in
  if bool_decide (mode = "default") then JUndefined
  else if bool_decide (mode = "none") then JObj [("type", JStr "none")]
  else if bool_decide (mode = "header")
  then JObj [("type", JStr "header"); ("name", field "name" "Authorization"); ("value", field "value" "Bearer {api_key}")]
  else JObj [("type", JStr "query"); ("name", field "name" "api_key"); ("value", field "value" "{api_key}")].

(** ** Lemmas *)

(** Evaluates the members of an object with constant keys. *)
Ltac members :=
  unfold prop, member; cbn [oget from_option id mbind option_bind to_boolean]; decide_closed;
  cbn [oget from_option id mbind option_bind to_boolean]; decide_closed.

Ltac steps := cbn [mbind option_bind negb opt_trim trim_of].

Lemma js_or_idemp a b : js_or (js_or a b) b = js_or a b.
Proof. unfold js_or. destruct (to_boolean a) eqn:E; [by rewrite E|by destruct (to_boolean b)]. Qed.

(** [trim] on what a trimmed or absent text gives. *)
Lemma trim_of_idemp v u : trim_of v = Some u → trim_of (js_or (JStr u) (JStr "")) = Some u.
Proof.
  destruct v; try done. intros [= <-]. unfold js_or. simpl.
  destruct (truthy (trim s)) eqn:E; simpl; [by rewrite trim_idemp|].
  apply truthy_false in E. by rewrite E.
Qed.

Lemma normalize_route_idemp r r' :
  normalizeAdvancedCustomRoute r = Some r' → normalizeAdvancedCustomRoute r' = Some r'.
Proof.
  unfold normalizeAdvancedCustomRoute, getAdvancedCustomRouteUpstreamPath.
  destruct (prop "incoming_path" r) as [ip|] eqn:E1; [|done]. simpl.
  destruct (prop "upstream_path" r) as [up|] eqn:E2; [|done]. simpl.
  destruct (trim_of _) as [u|] eqn:Eu; [|done]. simpl.
  destruct (prop "converter" r) as [cv|] eqn:E3; [|done]. simpl.
  destruct (prop "auth" r) as [au|] eqn:E4; [|done]. simpl.
  intros [= <-]. apply trim_of_idemp in Eu.
  destruct (to_boolean au); cbn [app]; members; rewrite Eu; members; by rewrite !js_or_idemp.
Qed.

Lemma mapM_normalize_idemp l l' :
  mapM normalizeAdvancedCustomRoute l = Some l' → mapM normalizeAdvancedCustomRoute l' = Some l'.
Proof.
  revert l'. induction l as [|r l IH]; intros l'; simpl; [by intros [= <-]|].
  destruct (normalizeAdvancedCustomRoute r) as [r'|] eqn:E; [|done]. simpl.
  destruct (mapM normalizeAdvancedCustomRoute l) as [rs|]; [|done]. simpl. intros [= <-]. simpl.
  by rewrite (normalize_route_idemp _ _ E), (IH _ eq_refl).
Qed.

Lemma normalize_shape c n :
  normalizeAdvancedCustomConfig c = Some n →
  ∃ routes, n = config_obj routes ∧ mapM normalizeAdvancedCustomRoute routes = Some routes.
Proof.
  unfold normalizeAdvancedCustomConfig. destruct (prop _ c) as [v|]; [|done]. simpl.
  destruct v; try (intros [= <-]; by exists []).
  destruct (mapM _ l) as [rs|] eqn:E; [|done]. intros [= <-]. exists rs. split; [done|].
  by eapply mapM_normalize_idemp.
Qed.

Lemma normalize_config_obj routes :
  normalizeAdvancedCustomConfig (config_obj routes) = config_obj <$> mapM normalizeAdvancedCustomRoute routes.
Proof. unfold normalizeAdvancedCustomConfig, config_obj. by members. Qed.

Lemma routes_of_config routes : routes_of (config_obj routes) = routes.
Proof. unfold routes_of, config_obj. by members. Qed.

Lemma normalize_idemp c n :
  normalizeAdvancedCustomConfig c = Some n → normalizeAdvancedCustomConfig n = Some n.
Proof. intros (rs & -> & H)%normalize_shape. by rewrite normalize_config_obj, H. Qed.

Lemma trim_nonempty c s : is_space c = false → trim (c :: s) ≠ [].
Proof.
  intros Hc. unfold trim, trim_end. simpl. rewrite Hc. intros H.
  destruct (trim_start_suffix (reverse (c :: s))) as (p & Hp & HF).
  apply (f_equal reverse) in H. rewrite reverse_involutive in H. change (reverse []) with (@nil N) in H.
  rewrite H, app_nil_r in Hp. rewrite <- Hp in HF.
  rewrite Forall_reverse, Forall_cons in HF. destruct HF. congruence.
Qed.

(** ** Round trip *)

(** The text of a configuration is read back as the normalized configuration,
    which normalizing again leaves as it is. *)
Lemma advanced_custom_roundtrip config normalized :
  normalizeAdvancedCustomConfig config = Some normalized → json_ok normalized →
  normalizeAdvancedCustomConfig normalized = Some normalized ∧
  ∃ text, stringifyAdvancedCustomConfig config = Some text ∧
          parseAdvancedCustomConfig (Some text) = Some normalized.
Proof.
  intros Hn Hok. pose proof (normalize_idemp _ _ Hn) as Hi. split; [done|].
  destruct (JSON_roundtrip (Some 2) normalized Hok) as (t & Ht & Hp).
  exists t. unfold stringifyAdvancedCustomConfig. rewrite Hn. split; [done|].
  unfold parseAdvancedCustomConfig.
  destruct (normalize_shape _ _ Hn) as (rs & -> & _).
  assert (∃ r, t = cu "{" :: r) as [r ->].
  { unfold JSON_stringify, config_obj in Ht. cbn in Ht. injection Ht as <-. eauto. }
  assert (otruthy (trim <$> Some (cu "{" :: r)) = true) as -> by (by apply truthy_spec, trim_nonempty).
  change (default [] (Some (cu "{" :: r))) with (cu "{" :: r). rewrite Hp. exact Hi.
Qed.

Lemma advanced_custom_roundtrip_witness :
  ∃ text, stringifyAdvancedCustomConfig createAdvancedCustomConfig = Some text ∧
          parseAdvancedCustomConfig (Some text) = Some createAdvancedCustomConfig.
Proof.
  refine (proj2 (advanced_custom_roundtrip createAdvancedCustomConfig createAdvancedCustomConfig _ _)).
  - vm_compute. reflexivity.
  - apply json_ok_b_spec. vm_compute. reflexivity.
Defined.

(** ** Validation *)

(** What a valid authentication and a valid route are, without the order of the checks. *)
Definition valid_auth (auth : jval) : Prop :=
  to_boolean auth = false ∨ member "type" auth = JStr "none" ∨
  ((member "type" auth = JStr "header" ∨ member "type" auth = JStr "query") ∧
   ∃ name value, member "name" auth = JStr name ∧ member "value" auth = JStr value ∧
                 trim name ≠ [] ∧ trim value ≠ []).

Definition route_path (route : jval) : jstring :=
  match member "incoming_path" route with JStr s => trim s | _ => [] end.

Section validation.
Variable URL : jstring → option (jstring * jstring).

Definition valid_route (route : jval) : Prop :=
  ∃ incoming upstream converter,
    member "incoming_path" route = JStr incoming ∧ member "upstream_path" route = JStr upstream ∧
    js_or (member "converter" route) (JStr "none") = JStr converter ∧
    starts_with "/" (trim incoming) = true ∧ cu "?" ∉ trim incoming ∧
    trim upstream ≠ [] ∧ isFullHttpURLOrAbsolutePath URL (trim upstream) = true ∧
    converter ∈ ADVANCED_CUSTOM_CONVERTER_OPTIONS.*1 ∧
    isConverterPathAllowed (trim incoming) (JStr converter) = true ∧ valid_auth (member "auth" route).

Lemma is_str_spec v s : is_str v s = true ↔ v = JStr s.
Proof.
  unfold is_str. destruct v; try (by split).
  rewrite bool_decide_eq_true. split; [by intros ->|by intros [= ->]].
Qed.

Lemma opt_trim_truthy v t : opt_trim v = Some t → t ≠ [] → ∃ s, v = JStr s ∧ t = trim s.
Proof. destruct v; simpl; intros [= <-] ?; try done. eauto. Qed.

Lemma validateRouteAuth_spec auth : validateRouteAuth auth = Some None ↔ valid_auth auth.
Proof.
  unfold validateRouteAuth, valid_auth. destruct (to_boolean auth) eqn:Eb; simpl; [|naive_solver].
  destruct (is_str (member "type" auth) "none") eqn:En.
  { apply is_str_spec in En. naive_solver. }
  assert (member "type" auth ≠ JStr "none") by (intros H%is_str_spec; congruence).
  destruct (negb (is_str (member "type" auth) "header") && negb (is_str (member "type" auth) "query")) eqn:Et.
  { bool_to_prop. split; [done|].
    intros [?|[?|[[Hh%is_str_spec|Hh%is_str_spec] _]]]; congruence. }
  assert (member "type" auth = JStr "header" ∨ member "type" auth = JStr "query") as Htype.
  { apply andb_false_iff in Et as [Et|Et]; apply negb_false_iff, is_str_spec in Et; auto. }
  split.
  - intros H1. right; right. split; [done|].
    destruct (opt_trim (member "name" auth)) as [n|] eqn:E1; [|done]. simpl in H1.
    destruct (truthy n) eqn:Tn; [|done]. simpl in H1.
    destruct (opt_trim (member "value" auth)) as [w|] eqn:E2; [|done]. simpl in H1.
    destruct (truthy w) eqn:Tw; [|done]. apply truthy_spec in Tn, Tw.
    destruct (opt_trim_truthy _ _ E1 Tn) as (s1 & -> & ->).
    destruct (opt_trim_truthy _ _ E2 Tw) as (s2 & -> & ->). eauto 10.
  - intros [?|[?|(_ & n & w & -> & -> & Hn & Hw)]]; [done..|]. simpl.
    apply truthy_spec in Hn, Hw. rewrite Hn. simpl. by rewrite Hw.
Qed.

Lemma includes_unit c s : includes [c] s = true ↔ c ∈ s.
Proof.
  rewrite includes_spec. split.
  - intros (a & b & ->). rewrite !elem_of_app. simpl. right; left. by apply list_elem_of_singleton.
  - intros (a & b & ->)%list_elem_of_split. by exists a, b.
Qed.

Lemma isAdvancedCustomConverter_spec v :
  isAdvancedCustomConverter v = true ↔ ∃ s, v = JStr s ∧ s ∈ ADVANCED_CUSTOM_CONVERTER_OPTIONS.*1.
Proof.
  unfold isAdvancedCustomConverter. rewrite existsb_exists. split.
  - intros (o & Ho & ->%is_str_spec). exists o.1. split; [done|].
    apply list_elem_of_fmap_2. by apply list_elem_of_In.
  - intros (s & -> & (o & -> & Ho)%list_elem_of_fmap). exists o. split; [by apply list_elem_of_In|].
    by apply is_str_spec.
Qed.

Lemma getUpstream_spec route u :
  u ≠ [] →
  getAdvancedCustomRouteUpstreamPath route = Some u ↔
  ∃ s, member "upstream_path" route = JStr s ∧ trim s = u.
Proof.
  intros Hu. unfold getAdvancedCustomRouteUpstreamPath. split.
  - destruct (prop "upstream_path" route) as [v|] eqn:E; [|done]. simpl.
    assert (member "upstream_path" route = v) as -> by (destruct route; simpl in *; congruence).
    unfold js_or. destruct v as [| |b|n|s|l|o]; simpl; try (destruct (to_boolean _));
      simpl; try (by intros [= <-]); try done.
    + by destruct b; simpl; intros [= <-].
    + by destruct (num_truthy n); simpl; intros [= <-].
    + destruct (truthy s); simpl; intros [= <-]; eauto. done.
  - intros (s & Hs & <-). destruct route as [| | | | | |o]; try done. cbn [prop mbind option_bind].
    rewrite Hs. unfold js_or. simpl. destruct (truthy s) eqn:E; [done|]. by apply truthy_false in E as ->.
Qed.

Lemma validate_route_spec seen route path :
  validate_route URL seen route = Some (None, path) ↔
  valid_route route ∧ path = route_path route ∧ path ∉ seen.
Proof.
  unfold validate_route, valid_route, route_path. split.
  - destruct (prop "incoming_path" route) as [v|] eqn:E; [|done]. steps.
    assert (member "incoming_path" route = v) as -> by (destruct route; simpl in *; congruence).
    destruct (opt_trim v) as [ip|] eqn:Ei; [|done]. steps.
    destruct (getAdvancedCustomRouteUpstreamPath route) as [up|] eqn:Eu; [|done]. steps.
    destruct (truthy ip) eqn:Ht; [|done]. steps.
    destruct (starts_with "/" ip) eqn:Hs; [|done]. steps.
    destruct (includes "?" ip) eqn:Hq; [done|].
    destruct (has ip seen) eqn:Hh; [done|].
    destruct (truthy up) eqn:Htu; [|done]. steps.
    destruct (isFullHttpURLOrAbsolutePath URL up) eqn:Hf; [|done]. steps.
    destruct (isAdvancedCustomConverter _) eqn:Hc; [|done]. steps.
    destruct (isConverterPathAllowed _ _) eqn:Ha; [|done]. steps.
    destruct (validateRouteAuth _) as [[]|] eqn:Hau; steps; [done| |done]. intros [= <-].
    apply truthy_spec in Ht, Htu. apply validateRouteAuth_spec in Hau.
    apply isAdvancedCustomConverter_spec in Hc as (cv & Hcv & Hin). rewrite Hcv in Ha.
    destruct (opt_trim_truthy _ _ Ei Ht) as (s & -> & ->).
    apply getUpstream_spec in Eu as (u & Hu & <-); [|done].
    apply has_spec_false in Hh. split_and!; [|done|done].
    exists s, u, cv. split_and!; try done.
    intros Hin'%(includes_unit (cu "?")). change [cu "?"] with ("?" : jstring) in Hin'. congruence.
  - intros [(s & u & cv & Hs & Hu & Hcv & Hsl & Hq & Hnu & Hf & Hin & Ha & Hau) [Hp Hseen]].
    rewrite Hs in *. subst path.
    assert (prop "incoming_path" route = Some (JStr s)) as -> by (destruct route; try done; by rewrite <- Hs).
    steps. rewrite (proj2 (getUpstream_spec route (trim u) Hnu)) by eauto. steps.
    assert (truthy (trim s) = true) as -> by (by apply starts_with_spec in Hsl as [r ->]).
    rewrite Hsl. steps.
    assert (includes "?" (trim s) = false) as ->.
    { apply not_true_iff_false. change ("?" : jstring) with [cu "?"]. by rewrite includes_unit. }
    apply has_spec_false in Hseen. rewrite Hseen. apply truthy_spec in Hnu. rewrite Hnu, Hf. steps.
    rewrite Hcv, (proj2 (isAdvancedCustomConverter_spec (JStr cv))) by eauto. steps. rewrite Ha. steps.
    by rewrite (proj2 (validateRouteAuth_spec _) Hau).
Qed.

Lemma validate_routes_spec seen index routes :
  validate_routes URL seen index routes = Some None ↔
  Forall valid_route routes ∧ NoDup (route_path <$> routes) ∧ Forall (λ r, route_path r ∉ seen) routes.
Proof.
  revert seen index. induction routes as [|r rs IH]; intros seen index; simpl.
  { split; [|done]. intros _. split_and!; [constructor|apply NoDup_nil_2|constructor]. }
  rewrite !Forall_cons, NoDup_cons. split.
  - destruct (validate_route URL seen r) as [[[m|] path]|] eqn:E; [done| |done]. simpl.
    rewrite IH. apply validate_route_spec in E as (Hv & -> & Hseen). intros (HF & Hd & HS).
    rewrite Forall_forall in HS. split_and!; try done.
    + intros (r' & Hr' & Hin)%list_elem_of_fmap. apply (HS r' Hin). rewrite <- Hr'.
      apply elem_of_set_add. auto.
    + apply Forall_forall. intros r' Hin Hs. apply (HS r' Hin). apply elem_of_set_add. auto.
  - intros ([Hv HF] & [Hn Hd] & [Hseen HS]).
    rewrite (proj2 (validate_route_spec seen r (route_path r))) by done. simpl. apply IH.
    split_and!; [done..|]. rewrite Forall_forall in *. intros r' Hin [He|Hs]%elem_of_set_add.
    + apply Hn. rewrite <- He. by apply list_elem_of_fmap_2.
    + by apply (HS r' Hin).
Qed.

Lemma nonempty_match {A B} (l : list A) (x : B) (f : list A → B) :
  l ≠ [] → match l with [] => x | y :: k => f (y :: k) end = f l.
Proof. by destruct l. Qed.

Lemma validate_config_obj routes :
  mapM normalizeAdvancedCustomRoute routes = Some routes → routes ≠ [] →
  validateAdvancedCustomConfig URL (config_obj routes) = validate_routes URL [] 0 routes.
Proof.
  intros Hn Hne. unfold validateAdvancedCustomConfig. change (to_boolean (config_obj routes)) with true. rewrite normalize_config_obj, Hn. cbn [fmap option_fmap option_map]. steps.
  rewrite routes_of_config. by apply (nonempty_match routes _ (validate_routes URL [] 0)).
Qed.

(** C39: a configuration is accepted exactly when, once normalized, it has routes,
    each of them is valid (paths, converter and authentication), and no incoming
    path occurs twice. *)
Theorem validateAdvancedCustomConfig_iff config :
  validateAdvancedCustomConfig URL config = Some None ↔
  ∃ routes, normalizeAdvancedCustomConfig config = Some (config_obj routes) ∧ routes ≠ [] ∧
            Forall valid_route routes ∧ NoDup (route_path <$> routes).
Proof.
  unfold validateAdvancedCustomConfig. split.
  - destruct (to_boolean config); [|done]. steps.
    destruct (normalizeAdvancedCustomConfig config) as [n|] eqn:E; [|done]. steps.
    destruct (normalize_shape _ _ E) as (routes & -> & Hn). rewrite routes_of_config.
    destruct (decide (routes = [])) as [->|Hne]; [done|]. rewrite (nonempty_match routes _ (validate_routes URL [] 0)) by done.
    rewrite validate_routes_spec. intros (HF & Hd & _). by exists routes.
  - intros (routes & Hn & Hne & HF & Hd).
    assert (to_boolean config = true) as ->.
    { destruct config as [| |b|n|s|l|o]; simpl in *; try done;
        unfold normalizeAdvancedCustomConfig in Hn; simpl in Hn; injection Hn as <-; done. }
    steps. rewrite Hn. steps. rewrite routes_of_config, (nonempty_match routes _ (validate_routes URL [] 0)) by done.
    apply validate_routes_spec. split_and!; [done..|].
    apply Forall_forall. intros r' _. apply not_elem_of_nil.
Qed.

Lemma validate_routes_first seen k routes m i :
  validate_routes URL seen k routes = Some (Some (mkError m i)) →
  ∃ j, i = Some (k + j) ∧ j < length routes ∧
    validate_routes URL seen k (take j routes) = Some None ∧
    validate_routes URL seen k (take (S j) routes) = Some (Some (mkError m i)).
Proof.
  revert seen k. induction routes as [|r rs IH]; intros seen k; simpl; [done|].
  destruct (validate_route URL seen r) as [[[m'|] path]|] eqn:E; simpl; [|intros H|done].
  - intros [= -> <-]. exists 0. rewrite Nat.add_0_r.
    split_and!; [done|simpl; lia|done|done].
  - apply IH in H as (j & -> & Hj & H1 & H2). exists (S j). split_and!; [f_equal; lia|simpl; lia| |].
    + cbn [take validate_routes]. rewrite ?E. exact H1.
    + cbn [take validate_routes]. rewrite ?E. exact H2.
Qed.

Lemma mapM_take (f : jval → option jval) l n : mapM f l = Some l → mapM f (take n l) = Some (take n l).
Proof.
  rewrite !mapM_Some. intros H. by apply Forall2_take.
Qed.

(** A reported error is the first one: the routes before it form a valid
    configuration, and with its route they give the same error. *)
Lemma validateAdvancedCustomConfig_first config m i :
  validateAdvancedCustomConfig URL config = Some (Some (mkError m (Some i))) →
  ∃ routes, normalizeAdvancedCustomConfig config = Some (config_obj routes) ∧ i < length routes ∧
    (0 < i → validateAdvancedCustomConfig URL (config_obj (take i routes)) = Some None) ∧
    validateAdvancedCustomConfig URL (config_obj (take (S i) routes)) = Some (Some (mkError m (Some i))).
Proof.
  unfold validateAdvancedCustomConfig at 1. destruct (to_boolean config); [|done]. steps.
  destruct (normalizeAdvancedCustomConfig config) as [n|] eqn:E; [|done]. steps.
  destruct (normalize_shape _ _ E) as (routes & -> & Hn). rewrite routes_of_config.
  destruct (decide (routes = [])) as [->|Hne]; [done|]. rewrite (nonempty_match routes _ (validate_routes URL [] 0)) by done. intros H.
  apply validate_routes_first in H as (j & [= ->] & Hj & H1 & H2). exists routes. split_and!; [done|done| |].
  - intros Hpos. rewrite validate_config_obj; [done|by apply mapM_take|].
    by destruct routes, j; [|..|]; try lia.
  - rewrite validate_config_obj; [done|by apply mapM_take|]. by destruct routes.
Qed.
End validation.

(** A route with a path that is not allowed for its converter, after a valid one. *)
Definition sample_config : jval :=
  config_obj [route_obj " /v1/messages" "https://api.example.com/v1" "none" bearerHeaderAuth;
              route_obj "/v1/responses" "/v1/responses" "anthropic_messages_to_openai_chat_completions" JUndefined].

Lemma validateAdvancedCustomConfig_first_witness :
  let URL := λ s, if starts_with "https://" s then Some (drop 8 s, "https:" : jstring) else None in
  validateAdvancedCustomConfig URL sample_config =
    Some (Some (mkError "Converter does not match incoming path" (Some 1))) ∧
  ∃ routes, normalizeAdvancedCustomConfig sample_config = Some (config_obj routes) ∧
    validateAdvancedCustomConfig URL (config_obj (take 1 routes)) = Some None.
Proof.
  intros URL.
  assert (validateAdvancedCustomConfig URL sample_config =
    Some (Some (mkError "Converter does not match incoming path" (Some 1)))) as H by (vm_compute; reflexivity).
  split; [exact H|].
  destruct (validateAdvancedCustomConfig_first URL sample_config _ 1 H) as (routes & Hn & _ & Hv & _).
  exists routes. split; [exact Hn|]. apply Hv. lia.
Defined.

(** ** What the editor offers *)

Lemma clone_templates t :
  t ∈ ADVANCED_CUSTOM_TEMPLATE_OPTIONS →
  cloneAdvancedCustomConfig t.2 = Some t.2 ∧ normalizeAdvancedCustomConfig t.2 = Some t.2 ∧
  ∀ URL, validateAdvancedCustomConfig URL t.2 = Some None.
Proof.
  intros H. repeat (apply elem_of_cons in H as [->|H];
    [split_and!; [vm_compute; reflexivity|vm_compute; reflexivity|intros URL; vm_compute; reflexivity]|]).
  by apply elem_of_nil in H.
Qed.

(** What the editor offers validates: every template (the first one for an
    unknown key), and every route with an offered path, a converter offered for it
    and the upstream path suggested for the converter. *)
Lemma editor_offers_valid URL :
  (∀ key, ∃ config, getAdvancedCustomTemplateConfig key = Some config ∧
     normalizeAdvancedCustomConfig config = Some config ∧
     validateAdvancedCustomConfig URL config = Some None) ∧
  (∀ path converter, path ∈ ADVANCED_CUSTOM_INCOMING_PATH_OPTIONS.*1 →
     converter ∈ (getAdvancedCustomConverterOptions path).*1 →
     validateAdvancedCustomConfig URL (config_obj [JObj
       [("incoming_path", JStr path);
        ("upstream_path", JStr (getAdvancedCustomUpstreamPathPlaceholder converter));
        ("converter", JStr converter)]]) = Some None) ∧
  (∀ converter, converter ∈ ADVANCED_CUSTOM_CONVERTER_OPTIONS.*1 →
     converter ∈ (getAdvancedCustomConverterOptions (getDefaultAdvancedCustomIncomingPath converter)).*1).
Proof.
  split_and!.
  - intros key. unfold getAdvancedCustomTemplateConfig.
    assert (∃ t, t ∈ ADVANCED_CUSTOM_TEMPLATE_OPTIONS ∧
      match find (λ option, bool_decide (option.1.1 = key)) ADVANCED_CUSTOM_TEMPLATE_OPTIONS with
      | Some t => Some t | None => head ADVANCED_CUSTOM_TEMPLATE_OPTIONS end = Some t) as (t & Ht & ->).
    { destruct (find _ _) as [t|] eqn:E.
      - exists t. split; [|done]. apply find_some in E as [E _]. by apply list_elem_of_In.
      - eexists. split; [apply list_elem_of_here|done]. }
    simpl. destruct (clone_templates t Ht) as (Hc & Hn & Hv). exists t.2. done.
  - intros path converter Hp Hc.
    repeat (apply elem_of_cons in Hp as [->|Hp];
      [vm_compute in Hc; repeat (apply elem_of_cons in Hc as [->|Hc]; [vm_compute; reflexivity|]);
       by apply elem_of_nil in Hc|]).
    by apply elem_of_nil in Hp.
  - intros converter Hc.
    repeat (apply elem_of_cons in Hc as [->|Hc]; [apply (bool_decide_unpack _); vm_compute; exact I|]).
    by apply elem_of_nil in Hc.
Qed.

(** A configuration text whose types are wrong passes parsing, and the summary
    of the channel form then throws instead of calling it invalid. *)
Lemma stats_throw_on_number URL :
  let text := "{" ++ quote "advanced_routes" ++ ":[{" ++ quote "incoming_path" ++ ":1}]}" in
  (∃ config, parseAdvancedCustomConfig (Some text) = Some config) ∧
  getAdvancedCustomStats URL (Some text) = None.
Proof. split; [eexists|]; vm_compute; reflexivity. Qed.
