(* ===== verification/ParamOverride.v ===== *)
(** * ParamOverride: the rules that override the parameters of a request

    [features/channels/components/dialogs/param-override-editor-dialog.tsx], the
    part outside the component: the modes and their fields, the templates, the
    conversions between rules and JSON, the validation, the drafts of the values
    with a form of their own, and the state a stored text is opened with.  Values
    that come from [JSON.parse] are untyped.  Every rule and condition gets an
    identifier when it is read; the counter of identifiers is threaded through, and
    [clock] gives the reading of [Date.now()] for each.  The dialog is in
    [ParamOverrideEditor], the theorems on stored rules in [ParamOverrideSaved]. *)
From S2P Require Import Prelude JsString JsNumber JsFloat JsValue.

(** ** Data *)

Record ParamOverrideCondition := {
  pc_id : jstring; pc_path : jstring; pc_mode : jstring; pc_value_text : jstring; pc_invert : bool; pc_pass_missing_key : bool
}.

Record ParamOverrideOperation := {
  op_id : jstring; op_description : jstring; op_path : jstring; op_mode : jstring; op_from : jstring; op_to : jstring;
  op_value_text : jstring; op_keep_origin : bool; op_logic : jstring; op_conditions : list ParamOverrideCondition
}.

#[export] Instance ParamOverrideCondition_eq_dec : EqDecision ParamOverrideCondition.
Proof. solve_decision. Defined.

#[export] Instance ParamOverrideOperation_eq_dec : EqDecision ParamOverrideOperation.
Proof. solve_decision. Defined.

Definition OPERATION_MODE_OPTIONS : list (jstring * jstring) := [
  ("Set Field", "set"); ("Delete Field", "delete"); ("Append to End", "append"); ("Prepend to Start", "prepend");
  ("Copy Field", "copy"); ("Move Field", "move"); ("String Replace", "replace"); ("Regex Replace", "regex_replace");
  ("Trim Prefix", "trim_prefix"); ("Trim Suffix", "trim_suffix"); ("Ensure Prefix", "ensure_prefix");
  ("Ensure Suffix", "ensure_suffix"); ("Trim Space", "trim_space"); ("To Lowercase", "to_lower"); ("To Uppercase", "to_upper");
  ("Return Custom Error", "return_error"); ("Prune Object Items", "prune_objects"); ("Pass Through Headers", "pass_headers");
  ("Sync Fields", "sync_fields"); ("Set Request Header", "set_header"); ("Delete Request Header", "delete_header");
  ("Copy Request Header", "copy_header"); ("Move Request Header", "move_header")].

Definition OPERATION_MODE_VALUES : list jstring := map snd OPERATION_MODE_OPTIONS.

Definition OPERATION_MODE_LABEL_MAP : list (jstring * jstring) := map (λ '(label, value), (value, label)) OPERATION_MODE_OPTIONS.

Definition CONDITION_MODE_OPTIONS : list (jstring * jstring) := [
  ("Exact Match", "full"); ("Prefix", "prefix"); ("Suffix", "suffix"); ("Contains", "contains"); ("Greater Than", "gt");
  ("Greater Than or Equal", "gte"); ("Less Than", "lt"); ("Less Than or Equal", "lte")].

Definition CONDITION_MODE_VALUES : list jstring := map snd CONDITION_MODE_OPTIONS.

(** The fields that a mode has; an absent flag is [false]. *)
Record ModeMeta := {
  mm_path : bool; mm_pathOptional : bool; mm_value : bool; mm_from : bool; mm_to : bool; mm_keepOrigin : bool; mm_pathAlias : bool
}.

Definition meta_of (fields : list jstring) : ModeMeta := {|
  mm_path := has "path" fields; mm_pathOptional := has "pathOptional" fields; mm_value := has "value" fields;
  mm_from := has "from" fields; mm_to := has "to" fields; mm_keepOrigin := has "keepOrigin" fields;
  mm_pathAlias := has "pathAlias" fields |}.

Definition MODE_META : list (jstring * ModeMeta) := [
  ("delete", meta_of ["path"]); ("set", meta_of ["path"; "value"; "keepOrigin"]);
  ("append", meta_of ["path"; "value"; "keepOrigin"]); ("prepend", meta_of ["path"; "value"; "keepOrigin"]);
  ("copy", meta_of ["from"; "to"]); ("move", meta_of ["from"; "to"]); ("replace", meta_of ["path"; "from"]);
  ("regex_replace", meta_of ["path"; "from"]); ("trim_prefix", meta_of ["path"; "value"]);
  ("trim_suffix", meta_of ["path"; "value"]); ("ensure_prefix", meta_of ["path"; "value"]);
  ("ensure_suffix", meta_of ["path"; "value"]); ("trim_space", meta_of ["path"]); ("to_lower", meta_of ["path"]);
  ("to_upper", meta_of ["path"]); ("return_error", meta_of ["value"]); ("prune_objects", meta_of ["pathOptional"; "value"]);
  ("pass_headers", meta_of ["value"; "keepOrigin"]); ("sync_fields", meta_of ["from"; "to"]);
  ("set_header", meta_of ["path"; "value"; "keepOrigin"]); ("delete_header", meta_of ["path"]);
  ("copy_header", meta_of ["from"; "to"; "keepOrigin"; "pathAlias"]);
  ("move_header", meta_of ["from"; "to"; "keepOrigin"; "pathAlias"])].

(** [MODE_META[mode] || MODE_META.set] *)
Definition mode_meta (mode : jstring) : ModeMeta :=
  nullish (oget mode MODE_META) (meta_of ["path"; "value"; "keepOrigin"]).

Definition VALUE_REQUIRED_MODES : list jstring :=
  ["trim_prefix"; "trim_suffix"; "ensure_prefix"; "ensure_suffix"; "set_header"; "return_error"; "prune_objects"; "pass_headers"].

Definition FROM_REQUIRED_MODES : list jstring :=
  ["copy"; "move"; "replace"; "regex_replace"; "copy_header"; "move_header"; "sync_fields"].

Definition TO_REQUIRED_MODES : list jstring := ["copy"; "move"; "copy_header"; "move_header"; "sync_fields"].

(** ** Templates *)

Definition operations_of (l : list jval) : jval := JObj [("operations", JArr l)].

Definition LEGACY_TEMPLATE : jval := JObj [("temperature", JNum zero); ("max_tokens", JNum (of_Z 1000))].

Definition OPERATION_TEMPLATE : jval := operations_of [JObj [
  ("description", JStr "Set default temperature for openai/* models."); ("path", JStr "temperature"); ("mode", JStr "set");
  ("value", JNum (Number_of_string "0.7"));
  ("conditions", JArr [JObj [("path", JStr "model"); ("mode", JStr "prefix"); ("value", JStr "openai/")]]); ("logic", JStr "AND")]].

Definition HEADER_PASSTHROUGH_TEMPLATE : jval := operations_of [JObj [
  ("description", JStr "Pass through X-Request-Id header to upstream."); ("mode", JStr "pass_headers");
  ("value", JArr [JStr "X-Request-Id"]); ("keep_origin", JBool true)]].

Definition GEMINI_IMAGE_4K_TEMPLATE : jval := operations_of [JObj [
  ("description", JStr "Set imageSize to 4K when model contains gemini/image and ends with 4k."); ("mode", JStr "set");
  ("path", JStr "generationConfig.imageConfig.imageSize"); ("value", JStr "4K");
  ("conditions", JArr [
    JObj [("path", JStr "original_model"); ("mode", JStr "contains"); ("value", JStr "gemini")];
    JObj [("path", JStr "original_model"); ("mode", JStr "contains"); ("value", JStr "image")];
    JObj [("path", JStr "original_model"); ("mode", JStr "suffix"); ("value", JStr "4k")]]); ("logic", JStr "AND")]].

Definition CODEX_CLI_HEADER_PASSTHROUGH_HEADERS : list jstring :=
  ["Originator"; "Session_id"; "User-Agent"; "X-Codex-Beta-Features"; "X-Codex-Turn-Metadata"].

Definition CLAUDE_CLI_HEADER_PASSTHROUGH_HEADERS : list jstring := [
  "X-Stainless-Arch"; "X-Stainless-Lang"; "X-Stainless-Os"; "X-Stainless-Package-Version"; "X-Stainless-Retry-Count";
  "X-Stainless-Runtime"; "X-Stainless-Runtime-Version"; "X-Stainless-Timeout"; "User-Agent"; "X-App"; "Anthropic-Beta";
  "Anthropic-Dangerous-Direct-Browser-Access"; "Anthropic-Version"].

Definition buildPassHeadersTemplate (headers : list jstring) : jval :=
  operations_of [JObj [("mode", JStr "pass_headers"); ("value", JArr (map JStr headers)); ("keep_origin", JBool true)]].

Definition AWS_BEDROCK_ANTHROPIC_COMPAT_TEMPLATE : jval := operations_of [
  JObj [
    ("description", JStr "Normalize anthropic-beta header tokens for Bedrock compatibility."); ("mode", JStr "set_header");
    ("path", JStr "anthropic-beta");
    ("value", JObj [
      ("advanced-tool-use-2025-11-20", JStr "tool-search-tool-2025-10-19"); ("bash_20241022", JNull); ("bash_20250124", JNull);
      ("code-execution-2025-08-25", JNull); ("compact-2026-01-12", JStr "compact-2026-01-12");
      ("computer-use-2025-01-24", JStr "computer-use-2025-01-24"); ("computer-use-2025-11-24", JStr "computer-use-2025-11-24");
      ("context-1m-2025-08-07", JStr "context-1m-2025-08-07");
      ("context-management-2025-06-27", JStr "context-management-2025-06-27"); ("effort-2025-11-24", JNull);
      ("fast-mode-2026-02-01", JNull); ("files-api-2025-04-14", JNull); ("fine-grained-tool-streaming-2025-05-14", JNull);
      ("interleaved-thinking-2025-05-14", JStr "interleaved-thinking-2025-05-14"); ("mcp-client-2025-11-20", JNull);
      ("mcp-client-2025-04-04", JNull); ("mcp-servers-2025-12-04", JNull); ("output-128k-2025-02-19", JNull);
      ("structured-output-2024-03-01", JNull); ("prompt-caching-scope-2026-01-05", JNull); ("skills-2025-10-02", JNull);
      ("structured-outputs-2025-11-13", JNull); ("text_editor_20241022", JNull); ("text_editor_20250124", JNull);
      ("token-efficient-tools-2025-02-19", JNull); ("tool-search-tool-2025-10-19", JStr "tool-search-tool-2025-10-19");
      ("web-fetch-2025-09-10", JNull); ("web-search-2025-03-05", JNull); ("oauth-2025-04-20", JNull)])];
  JObj [("description", JStr "Remove all tools[*].custom.input_examples before upstream relay."); ("mode", JStr "delete");
        ("path", JStr "tools.*.custom.input_examples")]].

Record TemplatePresetConfig := { tp_label : jstring; tp_legacy : bool; tp_payload : jval }.

Definition TEMPLATE_PRESET_CONFIG : list (jstring * TemplatePresetConfig) := [
  ("operations_default", {| tp_label := "New Format Template"; tp_legacy := false; tp_payload := OPERATION_TEMPLATE |});
  ("legacy_default", {| tp_label := "Legacy Format Template"; tp_legacy := true; tp_payload := LEGACY_TEMPLATE |});
  ("pass_headers_auth", {| tp_label := "Header Passthrough (X-Request-Id)"; tp_legacy := false;
     tp_payload := HEADER_PASSTHROUGH_TEMPLATE |});
  ("gemini_image_4k", {| tp_label := "Gemini Image 4K"; tp_legacy := false; tp_payload := GEMINI_IMAGE_4K_TEMPLATE |});
  ("claude_cli_headers_passthrough", {| tp_label := "Claude CLI Header Passthrough"; tp_legacy := false;
     tp_payload := buildPassHeadersTemplate CLAUDE_CLI_HEADER_PASSTHROUGH_HEADERS |});
  ("codex_cli_headers_passthrough", {| tp_label := "Codex CLI Header Passthrough"; tp_legacy := false;
     tp_payload := buildPassHeadersTemplate CODEX_CLI_HEADER_PASSTHROUGH_HEADERS |});
  ("aws_bedrock_anthropic_beta_override", {| tp_label := "AWS Bedrock Claude Compat"; tp_legacy := false;
     tp_payload := AWS_BEDROCK_ANTHROPIC_COMPAT_TEMPLATE |})].

(** ** Values and their texts *)

Definition toValueText (value : jval) : jstring :=
  match value with
  | JUndefined => []
  | JStr s => s
  | _ => default [] (JSON_stringify None value)
  end.

Definition parseLooseValue (valueText : jstring) : jval :=
  let raw := trim valueText in
  match raw with
  | [] => JStr []
  | _ => nullish (JSON_parse raw) (JStr raw)
  end.

Definition verifyJSON (text : jstring) : bool := bool_decide (is_Some (JSON_parse text)).

(** [JSON.stringify(value, null, 2)] *)
Definition pretty (value : jval) : jstring := default [] (JSON_stringify (Some 2) value).

(** [parsed && typeof parsed === 'object' && !Array.isArray(parsed)] *)
Definition is_object (v : jval) : bool := match v with JObj _ => true | _ => false end.

(** [v && typeof v === 'object'] *)
Definition is_object_or_array (v : jval) : bool := match v with JObj _ | JArr _ => true | _ => false end.

(** [typeof v === 'string' ? v : ''] *)
Definition string_or_empty (v : jval) : jstring := match v with JStr s => s | _ => [] end.

(** [v !== undefined] *)
Definition defined (v : jval) : bool := match v with JUndefined => false | _ => true end.

(** [v === true] and [v === false] *)
Definition is_true (v : jval) : bool := match v with JBool true => true | _ => false end.
Definition is_false (v : jval) : bool := match v with JBool false => true | _ => false end.

(** The mode of a value when it is one of the known ones. *)
Definition known_mode (modes : list jstring) (fallback : jstring) (v : jval) : jstring :=
  match v with JStr s => if has s modes then s else fallback | _ => fallback end.

(** ** Rules from JSON *)

Section reading.
(** The reading of the clock for the identifier with a number. *)
Variable clock : nat → Z.
Variable toUpperCase : jstring → jstring.

(** What reading does: it takes identifiers, and throws on a property of [null]. *)
Definition Reading (A : Type) : Type := nat → option (A * nat).

Definition nextLocalId (localIdSeed : nat) : jstring * nat :=
  ("po_" ++ Z_to_js (clock localIdSeed) ++ "_" ++ N_to_js (N.of_nat localIdSeed), S localIdSeed).

(** [l.map(f)] for a function that takes identifiers. *)
Fixpoint map_reading {A B} (f : A → Reading B) (l : list A) : Reading (list B) := λ seed,
  match l with
  | [] => Some ([], seed)
  | x :: r => '(y, seed) ← f x seed; '(ys, seed) ← map_reading f r seed; Some (y :: ys, seed)
  end.

Definition normalizeCondition (condition : jval) : Reading ParamOverrideCondition := λ seed,
  let '(id, seed) := nextLocalId seed in
  match condition with
  | JNull => None
  | _ => Some ({| pc_id := id; pc_path := string_or_empty (member "path" condition);
                  pc_mode := known_mode CONDITION_MODE_VALUES "full" (member "mode" condition);
                  pc_value_text := toValueText (member "value" condition); pc_invert := is_true (member "invert" condition);
                  pc_pass_missing_key := is_true (member "pass_missing_key" condition) |}, seed)
  end.

Definition createDefaultCondition : Reading ParamOverrideCondition := normalizeCondition (JObj []).

Definition normalizeOperation (operation : jval) : Reading ParamOverrideOperation := λ seed,
  let '(id, seed) := nextLocalId seed in
  match operation with
  | JNull => None
  | _ =>
    '(conditions, seed) ← match member "conditions" operation with
                          | JArr l => map_reading normalizeCondition l seed
                          | _ => Some ([], seed)
                          end;
    Some ({| op_id := id; op_description := string_or_empty (member "description" operation);
             op_path := string_or_empty (member "path" operation);
             op_mode := known_mode OPERATION_MODE_VALUES "set" (member "mode" operation);
             op_value_text := toValueText (member "value" operation); op_keep_origin := is_true (member "keep_origin" operation);
             op_from := string_or_empty (member "from" operation); op_to := string_or_empty (member "to" operation);
             op_logic := if bool_decide (toUpperCase (to_js_string (js_or (member "logic" operation) (JStr "OR"))) = "AND")
                         then "AND" else "OR";
             op_conditions := conditions |}, seed)
  end.

Definition createDefaultOperation : Reading ParamOverrideOperation := normalizeOperation (JObj [("mode", JStr "set")]).

(** The rules of a parsed text: [operations.map(normalizeOperation)], or a default one. *)
Definition read_operations (l : list jval) : Reading (list ParamOverrideOperation) := λ seed,
  match l with
  | [] => '(o, seed) ← createDefaultOperation seed; Some ([o], seed)
  | _ => map_reading normalizeOperation l seed
  end.

(** *** The state a stored text is opened with *)

Inductive EditMode := edit_visual | edit_json.
Inductive VisualMode := visual_operations | visual_legacy.

Record EditorState := {
  editMode : EditMode; visualMode : VisualMode; legacyValue : jstring; operations : list ParamOverrideOperation;
  jsonText : jstring; jsonError : jstring
}.

(** The operations of an object that has some. *)
Definition parsed_operations (parsed : jval) : option (list jval) :=
  match member "operations" parsed with JArr l => Some l | _ => None end.

Definition parseInitialState (rawValue : jstring) : Reading EditorState := λ seed,
  let with_default (mode : EditMode) (visual : VisualMode) (legacy json error : jstring) :=
    '(o, seed) ← createDefaultOperation seed;
    Some ({| editMode := mode; visualMode := visual; legacyValue := legacy; operations := [o]; jsonText := json;
             jsonError := error |}, seed) in
  let trimmed := trim rawValue in
  if negb (truthy trimmed) then with_default edit_visual visual_operations [] [] []
  else
    match JSON_parse trimmed with
    | None => with_default edit_json visual_operations [] rawValue "Invalid JSON format"
    | Some parsed =>
      match parsed_operations parsed with
      | Some l =>
        '(ops, seed) ← read_operations l seed;
        Some ({| editMode := edit_visual; visualMode := visual_operations; legacyValue := []; operations := ops;
                 jsonText := pretty parsed; jsonError := [] |}, seed)
      | None =>
        if is_object parsed then with_default edit_visual visual_legacy (pretty parsed) (pretty parsed) []
        else with_default edit_json visual_operations [] (pretty parsed) []
      end
    end.

(** ** Drafts of values *)

Definition PruneRule : Type := ParamOverrideCondition.

(** The same object as a condition gives. *)
Definition normalizePruneRule (rule : jval) : Reading PruneRule := normalizeCondition rule.

Record PruneObjectsDraft := { pd_simpleMode : bool; pd_typeText : jstring; pd_logic : jstring; pd_recursive : bool; pd_rules : list PruneRule }.

(** The rules of [where], and of [conditions] when it is an object. *)
Definition entry_rules (v : jval) : Reading (list PruneRule) :=
  map_reading (λ '(path, value), normalizePruneRule (JObj [("path", JStr path); ("mode", JStr "full"); ("value", value)])) (props v).

Definition prune_rules (parsed : jval) : Reading (list PruneRule) := λ seed,
  '(whereRules, seed) ← entry_rules (member "where" parsed) seed;
  '(rules, seed) ← match member "conditions" parsed with
                   | JArr l => map_reading normalizePruneRule
                                 (filter (λ item, is_object_or_array item = true) l) seed
                   | conditions => entry_rules conditions seed
                   end;
  Some (whereRules ++ rules, seed).

(** [try ... catch]: reading the rules does not throw, as [prune_draft_total] shows. *)
Definition parsePruneObjectsDraft (valueText : jstring) : Reading PruneObjectsDraft := λ seed,
  let simple (typeText : jstring) : option (PruneObjectsDraft * nat) :=
    Some ({| pd_simpleMode := true; pd_typeText := typeText; pd_logic := "AND"; pd_recursive := true; pd_rules := [] |}, seed) in
  let raw := trim valueText in
  if negb (truthy raw) then simple []
  else
    match JSON_parse raw with
    | None => simple raw
    | Some (JStr s) => simple (trim s)
    | Some (JObj o) =>
      let parsed := JObj o in
      '(rules, seed) ← prune_rules parsed seed;
      Some ({| pd_simpleMode := negb (existsb (λ k, defined (member k parsed))
                                        ["logic"; "recursive"; "where"; "conditions"]);
               pd_typeText := match member "type" parsed with JUndefined => [] | type => trim (to_js_string type) end;
               pd_logic := if bool_decide (toUpperCase (to_js_string (js_or (member "logic" parsed) (JStr "AND"))) = "OR")
                           then "OR" else "AND";
               pd_recursive := negb (is_false (member "recursive" parsed)); pd_rules := rules |}, seed)
    | Some parsed => simple (trim (if is_nullish parsed then [] else to_js_string parsed))
    end.
End reading.

Record ReturnErrorDraft := {
  rd_message : jstring; rd_statusCode : num; rd_code : jstring; rd_type : jstring; rd_skipRetry : bool; rd_simpleMode : bool
}.

(** A status code in range, or 400. *)
Definition status_or_400 (statusCode : num) : num :=
  if is_integer statusCode && nle (of_Z 100) statusCode && nle statusCode (of_Z 599) then statusCode else of_Z 400.

Definition parseReturnErrorDraft (valueText : jstring) : ReturnErrorDraft :=
  let simple (message : jstring) := {| rd_message := message; rd_statusCode := of_Z 400; rd_code := []; rd_type := [];
                                       rd_skipRetry := true; rd_simpleMode := true |} in
  let raw := trim valueText in
  match raw with
  | [] => simple []
  | _ =>
    match JSON_parse raw with
    | Some (JObj o) =>
      let parsed := JObj o in
      let text (v : jval) := trim (to_js_string (js_or v (JStr []))) in
      {| rd_message := text (js_or (member "message" parsed) (member "msg" parsed));
         rd_statusCode := status_or_400 (to_number match member "status_code" parsed with
                                                   | JUndefined => member "status" parsed
                                                   | statusCode => statusCode
                                                   end);
         rd_code := text (member "code" parsed); rd_type := text (member "type" parsed);
         rd_skipRetry := negb (is_false (member "skip_retry" parsed)); rd_simpleMode := false |}
    | _ => simple raw
    end
  end.

(** [if (b) payload[k] = v] *)
Definition set_if (b : bool) (k : jstring) (v : jval) (payload : list (jstring * jval)) : list (jstring * jval) :=
  if b then obj_set k v payload else payload.

(** [JSON.stringify(value)] *)
Definition compact (value : jval) : jstring := default [] (JSON_stringify None value).

Definition buildReturnErrorValueText (draft : ReturnErrorDraft) : jstring :=
  let message := trim (rd_message draft) in
  if rd_simpleMode draft then message
  else
    let code := trim (rd_code draft) in
    let type := trim (rd_type draft) in
    let payload := [("message", JStr message); ("status_code", JNum (status_or_400 (rd_statusCode draft)))] in
    let payload := set_if (truthy code) "code" (JStr code) payload in
    let payload := set_if (truthy type) "type" (JStr type) payload in
    compact (JObj (set_if (negb (rd_skipRetry draft)) "skip_retry" (JBool false) payload)).

Section prune_text.
Variable toUpperCase : jstring → jstring.

(** A rule of the payload; one without a path is left out. *)
Definition prune_condition (rule : PruneRule) : jval :=
  let valueRaw := trim (pc_value_text rule) in
  let payload := [("path", JStr (trim (pc_path rule)));
                  ("mode", JStr (if has (pc_mode rule) CONDITION_MODE_VALUES then pc_mode rule else "full"))] in
  let payload := set_if (truthy valueRaw) "value" (parseLooseValue valueRaw) payload in
  let payload := set_if (pc_invert rule) "invert" (JBool true) payload in
  JObj (set_if (pc_pass_missing_key rule) "pass_missing_key" (JBool true) payload).

Definition buildPruneObjectsValueText (draft : PruneObjectsDraft) : jstring :=
  let typeText := trim (pd_typeText draft) in
  if pd_simpleMode draft then typeText
  else
    let payload := set_if (truthy typeText) "type" (JStr typeText) [] in
    let payload := set_if (bool_decide (toUpperCase (str_or (pd_logic draft) "AND") = "OR")) "logic" (JStr "OR") payload in
    let payload := set_if (negb (pd_recursive draft)) "recursive" (JBool false) payload in
    let conditions := map prune_condition (filter (λ rule, truthy (trim (pc_path rule)) = true) (pd_rules draft)) in
    let payload := set_if (0 <? length conditions)%nat "conditions" (JArr conditions) payload in
    if negb (truthy typeText) && (length conditions =? 0)%nat then compact (JObj [("logic", JStr "AND")])
    else compact (JObj payload).
End prune_text.

(** The elements of an array as trimmed texts that are not empty. *)
Definition header_names (l : list jval) : list jstring :=
  filter (λ s, truthy s = true) (map (λ i, trim (if is_nullish i then [] else to_js_string i)) l).

Definition parsePassHeaderNames (rawValue : jval) : list jstring :=
  match rawValue with
  | JArr l => header_names l
  | JObj _ =>
    match member "headers" rawValue with
    | JArr l => header_names l
    | _ => match member "header" rawValue with JUndefined => [] | header => header_names [header] end
    end
  | JStr s => names_of (cu ",") s
  | _ => []
  end.

(** An end of [sync_fields]: whether it is a header, and the name. *)
Record SyncTarget := { st_type : jstring; st_key : jstring }.

Definition parseSyncTargetSpec (toLowerCase : jstring → jstring) (spec : jstring) : SyncTarget :=
  let raw := trim spec in
  match raw with
  | [] => {| st_type := "json"; st_key := [] |}
  | _ =>
    match index_of ":" raw with
    | None => {| st_type := "json"; st_key := raw |}
    | Some idx =>
      {| st_type := if bool_decide (toLowerCase (trim (take idx raw)) = "header") then "header" else "json";
         st_key := trim (drop (S idx) raw) |}
    end
  end.

Definition buildSyncTargetSpec (type key : jstring) : jstring :=
  let normalizedType : jstring := if bool_decide (type = "header") then "header" else "json" in
  let normalizedKey := trim key in
  if truthy normalizedKey then normalizedType ++ ":" ++ normalizedKey else [].

(** ** Rules to JSON *)

Definition condition_blank (c : ParamOverrideCondition) : bool :=
  negb (truthy (trim (pc_path c))) && negb (truthy (trim (pc_value_text c))) && bool_decide (pc_mode c = "full")
  && negb (pc_invert c) && negb (pc_pass_missing_key c).

Definition isOperationBlank (operation : ParamOverrideOperation) : bool :=
  bool_decide (op_mode operation = "set") && negb (truthy (trim (op_path operation))) && negb (truthy (trim (op_from operation)))
  && negb (truthy (trim (op_to operation))) && negb (truthy (trim (op_value_text operation)))
  && negb (op_keep_origin operation) && forallb condition_blank (op_conditions operation).

Definition buildConditionPayload (condition : ParamOverrideCondition) : option jval :=
  let path := trim (pc_path condition) in
  if negb (truthy path) then None
  else
    let payload := [("path", JStr path); ("mode", JStr (str_or (pc_mode condition) "full"));
                    ("value", parseLooseValue (pc_value_text condition))] in
    let payload := set_if (pc_invert condition) "invert" (JBool true) payload in
    Some (JObj (set_if (pc_pass_missing_key condition) "pass_missing_key" (JBool true) payload)).

(** The payload of one rule: the function mapped in [buildOperationsJson]. *)
Definition operation_payload (operation : ParamOverrideOperation) : jval :=
  let mode := str_or (op_mode operation) "set" in
  let meta := mode_meta mode in
  let descriptionValue := trim (op_description operation) in
  let pathValue := trim (op_path operation) in
  let fromValue := trim (op_from operation) in
  let toValue := trim (op_to operation) in
  let payload := [("mode", JStr mode)] in
  let payload := set_if (truthy descriptionValue) "description" (JStr descriptionValue) payload in
  let payload := set_if (mm_path meta) "path" (JStr pathValue) payload in
  let payload := set_if (mm_pathOptional meta && truthy pathValue) "path" (JStr pathValue) payload in
  let payload := set_if (mm_value meta) "value" (parseLooseValue (op_value_text operation)) payload in
  let payload := set_if (mm_keepOrigin meta && op_keep_origin operation) "keep_origin" (JBool true) payload in
  let payload := set_if (mm_from meta) "from" (JStr fromValue) payload in
  let payload := set_if (negb (mm_to meta) && truthy toValue) "to" (JStr toValue) payload in
  let payload := set_if (mm_to meta) "to" (JStr toValue) payload in
  let unset (k : jstring) := negb (to_boolean (member k (JObj payload))) in
  let payload := set_if (mm_pathAlias meta && unset "from" && truthy pathValue) "from" (JStr pathValue) payload in
  let payload := set_if (mm_pathAlias meta && unset "to" && truthy pathValue) "to" (JStr pathValue) payload in
  let conditions := omap buildConditionPayload (op_conditions operation) in
  let payload := set_if (0 <? length conditions)%nat "conditions" (JArr conditions) payload in
  let payload := set_if (0 <? length conditions)%nat "logic"
                   (JStr (if bool_decide (op_logic operation = "AND") then "AND" else "OR")) payload in
  JObj payload.

Section messages.
(** The translation of a message, with the number of a rule. *)
Variable t : jstring → option nat → jstring.

(** The message returned for one rule.  The later checks of modes with a value for an
    empty one are never reached. *)
Definition validate_operation (line : nat) (op : ParamOverrideOperation) : option jstring :=
  let mode := str_or (op_mode op) "set" in
  let meta := mode_meta mode in
  let pathValue := trim (op_path op) in
  let fromValue := trim (op_from op) in
  let toValue := trim (op_to op) in
  let raw := trim (op_value_text op) in
  let aliased := mm_pathAlias meta && truthy pathValue in
  let fails (message : jstring) := Some (t message (Some line)) in
  if mm_path meta && negb (truthy pathValue) then fails "Rule {{line}} is missing target path"
  else if has mode FROM_REQUIRED_MODES && negb (truthy fromValue) && negb aliased then fails "Rule {{line}} is missing source field"
  else if has mode TO_REQUIRED_MODES && negb (truthy toValue) && negb aliased then fails "Rule {{line}} is missing target field"
  else if has mode VALUE_REQUIRED_MODES && negb (truthy raw) then fails "Rule {{line}} is missing value"
  else if bool_decide (mode = "return_error") && match JSON_parse raw with
                                                 | Some (JObj o) => negb (truthy (trim (to_js_string (js_or (member "message" (JObj o)) (JStr [])))))
                                                 | _ => false
                                                 end
       then fails "Rule {{line}} return_error requires a message field"
  else if bool_decide (mode = "pass_headers") && (length (parsePassHeaderNames (parseLooseValue raw)) =? 0)%nat
       then fails "Rule {{line}} pass_headers format is invalid"
  else None.

(** The message for the first rule that has one. *)
Definition validateOperations (operations : list ParamOverrideOperation) : jstring :=
  default [] (head (omap (λ '(i, op), validate_operation (S i) op) (imap pair operations))).

(** The text, or the message of the error thrown. *)
Definition buildOperationsJson (sourceOperations : list ParamOverrideOperation) (validate : bool) : jstring + jstring :=
  let filteredOps := filter (λ o, isOperationBlank o = false) sourceOperations in
  match filteredOps with
  | [] => inl []
  | _ =>
    let message := if validate then validateOperations filteredOps else [] in
    if truthy message then inr message else inl (pretty (operations_of (map operation_payload filteredOps)))
  end.
End messages.
