(* ===== verification/ParamOverrideSaved.v ===== *)
(** * ParamOverrideSaved: what is stored of override rules, and opened again

    The rules of [ParamOverride] are written as JSON and read back when the dialog
    is opened.  [reopened_rules] is the round trip, under the condition that the
    texts of values are [kept]; [string_value_retyped] shows what happens to the
    others.  [saved_rules_complete] says what every stored rule has. *)
From Stdlib Require Import Floats.SpecFloat.
From S2P Require Import Prelude JsString JsNumber JsFloat JsDecimal JsValue JsJson ParamOverride.

(** ** Texts of values *)

Lemma trimmed_bracketed op cl indent depth items :
  is_space op = false → is_space cl = false → trimmed (bracketed op cl indent depth items).
Proof.
  intros Ho Hc. unfold bracketed. destruct items as [|x l]; [by apply (trimmed_ends op [] cl)|].
  cbn [app]. rewrite !app_assoc. by apply (trimmed_ends op _ cl).
Qed.

Lemma stringify_trimmed indent v : json_ok v → trimmed (default [] (JSON_stringify indent v)).
Proof.
  unfold JSON_stringify. destruct v as [| |b|n|s|l|o]; intros Hok; cbn [stringify_at default from_option id].
  - done.
  - by split.
  - destruct b; by split.
  - unfold json_ok, num_readable in Hok. apply andb_true_iff in Hok as [[Hf _]%andb_true_iff _]. rewrite Hf.
    destruct (Number_to_string_numeral n Hf) as (ip & fp & ex & -> & Hi & _ & Hfp & _). apply trimmed_no_space.
    apply Forall_app. split; [destruct (sign_of n); by repeat constructor|by apply numeral_no_space].
  - unfold quote. cbn [app]. by apply (trimmed_ends 34%N _ 34%N).
  - by apply trimmed_bracketed.
  - by apply trimmed_bracketed.
Qed.

(** A value whose text is read as the value itself: a text must not be JSON. *)
Definition kept_value (v : jval) : Prop :=
  json_ok v ∧ match v with JStr s => trimmed s ∧ JSON_parse s = None | _ => True end.

Lemma toValueText_trimmed v : kept_value v → trimmed (toValueText v).
Proof. intros [Hok Hs]. destruct v; try exact (stringify_trimmed None _ Hok). by destruct Hs. Qed.

Lemma parse_value_text v : kept_value v → JSON_parse (toValueText v) = match v with JStr _ => None | _ => Some v end.
Proof. intros [Hok Hs]. destruct v; try done; try (exact (stringify_reads None _ Hok)). by destruct Hs. Qed.

Lemma kept_reads v : kept_value v → parseLooseValue (toValueText v) = v.
Proof.
  intros Hk. unfold parseLooseValue. rewrite trim_id, parse_value_text by (done || by apply toValueText_trimmed).
  assert (match v with JStr _ => True | _ => toValueText v ≠ [] end) as Hne.
  { destruct Hk as [Hok _]. destruct v; try done; exact (stringify_nonempty None _ Hok). }
  destruct v as [| | | |s| |]; try (destruct (toValueText _); done). by destruct s.
Qed.

Lemma toValueText_blank v : kept_value v → toValueText v = [] → v = JStr [].
Proof.
  intros [Hok _] E. destruct v as [| | | |s| |]; try by destruct (stringify_nonempty None _ Hok). by cbn in E; subst.
Qed.

Lemma parseLooseValue_trim s : parseLooseValue (trim s) = parseLooseValue s.
Proof. unfold parseLooseValue. by rewrite trim_idemp. Qed.

(** The text of a value in the editor that is read again as the same value. *)
Definition kept_text (s : jstring) : Prop :=
  kept_value (parseLooseValue s) ∧ (trim s ≠ [] → parseLooseValue s ≠ JStr []).

(** ** Objects built field by field *)

Lemma json_ok_set_if b k v o :
  is_index k = false → valid_units k → (b = true → json_ok v) → json_ok (JObj o) → json_ok (JObj (set_if b k v o)).
Proof. intros. destruct b; [|done]. apply json_ok_set; auto. Qed.

Lemma member_set_if b k k' v o : member k (JObj (set_if b k' v o)) = if b && bool_decide (k = k') then v else member k (JObj o).
Proof.
  destruct b; [|done]. cbn [set_if andb member]. rewrite oget_obj_set. by case_bool_decide.
Qed.

(** A key of the payloads. *)
Ltac payload_key := solve [reflexivity | apply valid_units_b; reflexivity].

(** ** Conditions *)

(** The strings of a condition or a rule are texts of 16-bit units, and its value is kept. *)
Definition condition_ok (c : ParamOverrideCondition) : Prop :=
  valid_units (pc_path c) ∧ pc_mode c ∈ CONDITION_MODE_VALUES ∧ kept_value (parseLooseValue (pc_value_text c)).

Lemma valid_mode s : s ∈ CONDITION_MODE_VALUES ++ OPERATION_MODE_VALUES → valid_units s ∧ s ≠ [].
Proof.
  assert (forallb (λ s, forallb (λ c, c <? 65536)%N s && truthy s) (CONDITION_MODE_VALUES ++ OPERATION_MODE_VALUES) = true) as H
    by (vm_compute; reflexivity).
  rewrite forallb_forall in H. intros Hs%list_elem_of_In%H. apply andb_true_iff in Hs as [H1 H2%truthy_spec]. split; [|done].
  by apply valid_units_b.
Qed.

Section reading.
Variable clock : nat → Z.
Variable toUpperCase : jstring → jstring.

Lemma map_reading_Forall2 {A B} (f : A → Reading B) (R : A → B → Prop) l :
  Forall (λ x, ∀ seed, ∃ y seed', f x seed = Some (y, seed') ∧ R x y) l →
  ∀ seed, ∃ ys seed', map_reading f l seed = Some (ys, seed') ∧ Forall2 R l ys.
Proof.
  induction 1 as [|x l Hx _ IH]; intros seed; cbn [map_reading].
  - exists [], seed. by split; [|constructor].
  - destruct (Hx seed) as (y & seed1 & -> & Hy). cbn [mbind option_bind].
    destruct (IH seed1) as (ys & seed2 & -> & Hys). exists (y :: ys), seed2. by split; [|constructor].
Qed.

Lemma map_reading_map {A B C} (f : A → Reading B) (g : C → A) l seed : map_reading f (map g l) seed = map_reading (λ x, f (g x)) l seed.
Proof. revert seed. induction l as [|x l IH]; intros seed; [done|]. cbn [map map_reading]. destruct (f (g x) seed) as [[y s]|]; [|done]. cbn. by rewrite IH. Qed.

Lemma condition_payload_ok c v : condition_ok c → buildConditionPayload c = Some v → json_ok v.
Proof.
  intros (Hp & Hm & [Hv _]). unfold buildConditionPayload. destruct (negb _); [done|]. intros [= <-].
  destruct (valid_mode (pc_mode c)) as [Hmu _]; [apply elem_of_app; by left|].
  repeat (apply json_ok_set_if; [payload_key..|done|]). apply json_ok_obj. split; [by apply (bool_decide_unpack _); vm_compute|].
  split; [done|]. repeat constructor; try (apply valid_units_b; reflexivity); cbn [json_ok snd]; [by apply valid_trim| |done].
  unfold str_or. destruct (truthy _); [done|by apply valid_units_b].
Qed.

(** A stored condition is read back as one that is stored the same. *)
Lemma condition_reload c v seed : condition_ok c → buildConditionPayload c = Some v →
  ∃ c' seed', normalizeCondition clock v seed = Some (c', seed') ∧ buildConditionPayload c' = Some v ∧ pc_mode c' = pc_mode c.
Proof.
  intros (_ & Hm & Hv). unfold buildConditionPayload. destruct (truthy (trim (pc_path c))) eqn:Ep; cbn [negb]; [|done].
  intros [= <-]. set (o := set_if _ _ _ _). unfold normalizeCondition, nextLocalId. eexists _, _. split; [reflexivity|].
  cbn [pc_path pc_mode pc_value_text pc_invert pc_pass_missing_key]. unfold o.
  assert (pc_mode c ≠ []) as Hne by (apply valid_mode, elem_of_app; by left).
  assert (str_or (pc_mode c) "full" = pc_mode c) as -> by by destruct (pc_mode c).
  rewrite !member_set_if. cbn [member oget]. decide_closed. rewrite !andb_false_r.
  cbn [default from_option id string_or_empty known_mode]. rewrite (proj2 (has_spec _ _) Hm), trim_idemp, Ep, kept_reads by done.
  cbn [negb]. split; [|done]. f_equal. f_equal. rewrite !andb_true_r.
  assert (str_or (pc_mode c) "full" = pc_mode c) as -> by by destruct (pc_mode c).
  destruct (pc_invert c), (pc_pass_missing_key c); reflexivity.
Qed.
End reading.

(** ** Rules *)

Lemma mode_facts m : m ∈ OPERATION_MODE_VALUES →
  valid_units m ∧ m ≠ [] ∧ (mm_pathAlias (mode_meta m) = true → m = "copy_header" ∨ m = "move_header") ∧
  (has m FROM_REQUIRED_MODES = true → mm_from (mode_meta m) = true) ∧
  (has m TO_REQUIRED_MODES = true → mm_to (mode_meta m) = true) ∧
  (has m VALUE_REQUIRED_MODES = true → mm_value (mode_meta m) = true) ∧ (m = "set" → mm_path (mode_meta m) = true).
Proof.
  assert (forallb (λ m, implb (mm_pathAlias (mode_meta m)) (bool_decide (m = "copy_header" ∨ m = "move_header"))
    && implb (has m FROM_REQUIRED_MODES) (mm_from (mode_meta m)) && implb (has m TO_REQUIRED_MODES) (mm_to (mode_meta m))
    && implb (has m VALUE_REQUIRED_MODES) (mm_value (mode_meta m)) && implb (bool_decide (m = "set")) (mm_path (mode_meta m)))
    OPERATION_MODE_VALUES = true) as H by (vm_compute; reflexivity).
  rewrite forallb_forall in H. intros Hm. destruct (valid_mode m) as [Hu Hne]; [apply elem_of_app; by right|].
  apply list_elem_of_In, H in Hm. bool_to_prop. rewrite !implb_true_iff in *. rewrite !bool_decide_eq_true in *. by split_and!.
Qed.

(** The ends of a rule with two ends: a header may be named by the path. *)
Definition from_value (op : ParamOverrideOperation) : jstring :=
  let meta := mode_meta (op_mode op) in
  if mm_from meta then
    if mm_pathAlias meta && negb (truthy (trim (op_from op))) then trim (op_path op) else trim (op_from op)
  else [].

Definition to_value (op : ParamOverrideOperation) : jstring :=
  if mm_pathAlias (mode_meta (op_mode op)) && negb (truthy (trim (op_to op))) then trim (op_path op) else trim (op_to op).

(** A rule that is opened again: texts are trimmed, fields the mode does not have are
    empty, and conditions without a path are gone. *)
Record reopened (op op' : ParamOverrideOperation) : Prop := {
  ro_mode : op_mode op' = op_mode op;
  ro_description : op_description op' = trim (op_description op);
  ro_path : let meta := mode_meta (op_mode op) in
    op_path op' = if mm_path meta || mm_pathOptional meta then trim (op_path op) else [];
  ro_from : op_from op' = from_value op;
  ro_to : op_to op' = to_value op;
  ro_value : op_value_text op' = if mm_value (mode_meta (op_mode op)) then toValueText (parseLooseValue (op_value_text op)) else [];
  ro_keep : op_keep_origin op' = mm_keepOrigin (mode_meta (op_mode op)) && op_keep_origin op;
  ro_conditions : omap buildConditionPayload (op_conditions op') = omap buildConditionPayload (op_conditions op);
  ro_logic : omap buildConditionPayload (op_conditions op) ≠ [] → (op_logic op' = "AND" ↔ op_logic op = "AND");
}.

Definition operation_ok (op : ParamOverrideOperation) : Prop :=
  op_mode op ∈ OPERATION_MODE_VALUES ∧
  valid_units (op_description op) ∧ valid_units (op_path op) ∧ valid_units (op_from op) ∧ valid_units (op_to op) ∧
  (mm_value (mode_meta (op_mode op)) = true → kept_text (op_value_text op)) ∧ Forall condition_ok (op_conditions op).

Lemma or_set m : m ≠ [] → str_or m "set" = m.
Proof. by destruct m. Qed.

Lemma to_boolean_str s : to_boolean (JStr s) = truthy s.
Proof. done. Qed.

(** The fields of the payload of a rule. *)
Lemma payload_members op : op_mode op ∈ OPERATION_MODE_VALUES →
  let v := operation_payload op in
  let meta := mode_meta (op_mode op) in
  let conditions := omap buildConditionPayload (op_conditions op) in
  member "mode" v = JStr (op_mode op) ∧ string_or_empty (member "description" v) = trim (op_description op) ∧
  string_or_empty (member "path" v) = (if mm_path meta || mm_pathOptional meta then trim (op_path op) else []) ∧
  string_or_empty (member "from" v) = from_value op ∧ string_or_empty (member "to" v) = to_value op ∧
  member "value" v = (if mm_value meta then parseLooseValue (op_value_text op) else JUndefined) ∧
  is_true (member "keep_origin" v) = mm_keepOrigin meta && op_keep_origin op ∧
  member "conditions" v = (if (0 <? length conditions)%nat then JArr conditions else JUndefined) ∧
  member "logic" v = (if (0 <? length conditions)%nat then JStr (if bool_decide (op_logic op = "AND") then "AND" else "OR") else JUndefined).
Proof.
  intros Hm v meta conditions. destruct (mode_facts _ Hm) as (_ & Hne & Ha & _). unfold v, operation_payload.
  rewrite or_set by done. fold meta conditions. cbv zeta. rewrite !member_set_if. cbn [member oget]. decide_closed.
  rewrite !andb_false_r, !andb_true_r. cbn [default from_option id string_or_empty].
  assert (mm_pathAlias meta = true → mm_from meta = true ∧ mm_to meta = true) as Hal.
  { intros [E|E]%Ha; unfold meta; rewrite E; by split. }
  unfold from_value, to_value. fold meta. split_and!; try done.
  - by destruct (truthy (trim (op_description op))) eqn:E; [|apply truthy_false in E].
  - destruct (mm_path meta), (mm_pathOptional meta), (truthy (trim (op_path op))) eqn:E; try done;
      cbn; by apply truthy_false in E.
  - destruct (mm_pathAlias meta); [destruct Hal as [-> _]; [done|]|by destruct (mm_from meta)].
    rewrite to_boolean_str. destruct (truthy (trim (op_from op))) eqn:E1, (truthy (trim (op_path op))) eqn:E2; try done.
    cbn. apply truthy_false in E1, E2. congruence.
  - destruct (mm_pathAlias meta); [destruct Hal as [_ ->]; [done|]|].
    + rewrite to_boolean_str. destruct (truthy (trim (op_to op))) eqn:E1, (truthy (trim (op_path op))) eqn:E2; try done.
      cbn. apply truthy_false in E1, E2. congruence.
    + destruct (mm_to meta), (truthy (trim (op_to op))) eqn:E; try done. cbn. by apply truthy_false in E.
  - by destruct (mm_keepOrigin meta && op_keep_origin op).
Qed.

(** Opened again, a rule is stored as before. *)
Lemma reopened_payload op op' : operation_ok op → reopened op op' → operation_payload op' = operation_payload op.
Proof.
  intros (Hm & _ & _ & _ & _ & Hv & _) [E1 E2 E3 E4 E5 E6 E7 E8 E9]. destruct (mode_facts _ Hm) as (_ & Hne & Ha & _).
  unfold operation_payload. rewrite E1, E2, E3, E4, E5, E6, E7, E8, or_set by done. clear E1 E2 E3 E4 E5 E6 E7 E8.
  assert (∀ b : bool, b = (0 <? length (omap buildConditionPayload (op_conditions op)))%nat →
    set_if b "logic" (JStr (if bool_decide (op_logic op' = "AND") then "AND" else "OR"))
    = set_if b "logic" (JStr (if bool_decide (op_logic op = "AND") then "AND" else "OR"))) as ->; [|clear E9|done].
  { intros b Hb. destruct b; [|done]. f_equal. f_equal. erewrite bool_decide_ext; [done|]. apply E9. by intros E; rewrite E in Hb. }
  set (conditions := omap buildConditionPayload (op_conditions op)). set (meta := mode_meta (op_mode op)) in *.
  cbv zeta. f_equal. f_equal. f_equal. rewrite trim_idemp.
  assert ((if mm_value meta then parseLooseValue (if mm_value meta then toValueText (parseLooseValue (op_value_text op)) else [])
    else JUndefined) = (if mm_value meta then parseLooseValue (op_value_text op) else JUndefined)) as Hval.
  { destruct (mm_value meta); [|done]. apply kept_reads, Hv. done. }
  unfold from_value, to_value. fold meta.
  destruct (mm_pathAlias meta) eqn:Ealias.
  - (* a header named by the path *)
    clear Hval Hv. unfold meta in *. destruct (Ha eq_refl) as [E|E]; rewrite E; vm_compute mode_meta;
      cbn [mm_path mm_pathOptional mm_value mm_from mm_to mm_keepOrigin mm_pathAlias orb andb negb]; rewrite trim_nil.
    all: generalize (trim_idemp (op_path op)) (trim_idemp (op_from op)) (trim_idemp (op_to op)).
    all: generalize (trim (op_path op)) (trim (op_from op)) (trim (op_to op)); intros p f q Hp Hf Hq.
    all: destruct (truthy (trim (op_description op))), (op_keep_origin op), p, f, q; cbn [truthy negb]; rewrite ?Hp, ?Hf, ?Hq; reflexivity.
  - clear Ha Hv. cbn [andb]. cbn [set_if]. rewrite (trim_idemp (op_to op)).
    destruct (mm_value meta); [rewrite Hval|]; clear Hval;
      destruct (mm_from meta), (mm_path meta), (mm_pathOptional meta), (mm_keepOrigin meta); cbn [andb orb]; rewrite ?trim_idemp; reflexivity.
Qed.

Section reload.
Variable clock : nat → Z.
Variable toUpperCase : jstring → jstring.
Hypothesis toUpperCase_AND : toUpperCase "AND" = "AND".
Hypothesis toUpperCase_OR : toUpperCase "OR" = "OR".

Lemma conditions_reload cs seed : Forall condition_ok cs →
  ∃ cs' seed', map_reading (normalizeCondition clock) (omap buildConditionPayload cs) seed = Some (cs', seed') ∧
    omap buildConditionPayload cs' = omap buildConditionPayload cs.
Proof.
  intros Hcs. destruct (map_reading_Forall2 (normalizeCondition clock) (λ v c', buildConditionPayload c' = Some v)
    (omap buildConditionPayload cs)) with (seed := seed) as (cs' & seed' & E & H).
  { apply Forall_forall. intros v (c & Hc & Ev)%list_elem_of_omap seed0. rewrite Forall_forall in Hcs.
    destruct (condition_reload clock c v seed0 (Hcs c Hc) Ev) as (c' & seed1 & E1 & E2 & _). by exists c', seed1. }
  exists cs', seed'. split; [done|]. clear E. induction H as [|v c' vs cs'' Hv _ IH]; [done|]. cbn [omap list_omap]. by rewrite Hv, IH.
Qed.

Lemma operation_reload op seed : operation_ok op →
  ∃ op' seed', normalizeOperation clock toUpperCase (operation_payload op) seed = Some (op', seed') ∧ reopened op op'.
Proof using toUpperCase_AND toUpperCase_OR.
  intros (Hm & _ & _ & _ & _ & Hv & Hc). destruct (payload_members op Hm) as (E1 & E2 & E3 & E4 & E5 & E6 & E7 & E8 & E9).
  destruct (conditions_reload (op_conditions op) (S seed) Hc) as (cs' & seed' & Ecs & Hcs).
  set (conditions := omap buildConditionPayload (op_conditions op)) in *.
  assert (match member "conditions" (operation_payload op) with
          | JArr l => map_reading (normalizeCondition clock) l (S seed) | _ => Some ([], S seed) end
    = Some (if (0 <? length conditions)%nat then (cs', seed') else ([], S seed))) as Hread.
  { rewrite E8. by destruct (0 <? length conditions)%nat. }
  unfold normalizeOperation, nextLocalId. destruct (operation_payload op) as [| | | | | |o] eqn:Eo; try (by unfold operation_payload in Eo).
  rewrite Hread. cbn [mbind option_bind].
  assert (omap buildConditionPayload (if (0 <? length conditions)%nat then (cs', seed') else ([], S seed)).1 = conditions) as Hcs'.
  { destruct (Nat.ltb_spec 0 (length conditions)) as [Hl|Hl]; [done|]. cbn. symmetry. apply nil_length_inv. lia. }
  destruct (if (0 <? length conditions)%nat then (cs', seed') else ([], S seed)) as [cs2 seed2]. cbn [fst] in Hcs'.
  eexists _, _. split; [reflexivity|]. rewrite E1, E2, E3, E4, E5, E6, E7, E9. cbn [known_mode]. rewrite (proj2 (has_spec _ _) Hm).
  split; cbn [op_mode op_description op_path op_from op_to op_value_text op_keep_origin op_conditions op_logic]; try done.
  - by destruct (mm_value (mode_meta (op_mode op))).
  - fold conditions. intros Hne. assert ((0 <? length conditions)%nat = true) as -> by (apply Nat.ltb_lt; by destruct conditions; [|cbn; lia]).
    case_bool_decide as H1; cbn [js_or to_boolean truthy to_js_string]; [by rewrite toUpperCase_AND|]. by rewrite toUpperCase_OR.
Qed.
End reload.

(** ** Validation *)

(** A guard that returns an error when a condition holds. *)
Lemma guard_None {A} (b : bool) (e : A) (rest : option A) : (if b then Some e else rest) = None ↔ b = false ∧ rest = None.
Proof. destruct b; naive_solver. Qed.

Lemma negb_truthy s : negb (truthy s) = true ↔ s = [].
Proof. by rewrite negb_true_iff, truthy_false. Qed.

Section validation.
Variable t : jstring → option nat → jstring.

(** What a rule without an error has, for its mode. *)
Definition complete (op : ParamOverrideOperation) : Prop :=
  let mode := str_or (op_mode op) "set" in
  let meta := mode_meta mode in
  let aliased := mm_pathAlias meta && truthy (trim (op_path op)) in
  (mm_path meta = true → trim (op_path op) ≠ []) ∧
  (has mode FROM_REQUIRED_MODES = true → trim (op_from op) ≠ [] ∨ aliased = true) ∧
  (has mode TO_REQUIRED_MODES = true → trim (op_to op) ≠ [] ∨ aliased = true) ∧
  (has mode VALUE_REQUIRED_MODES = true → trim (op_value_text op) ≠ []) ∧
  (mode = "return_error" → ∀ o, JSON_parse (trim (op_value_text op)) = Some (JObj o) →
     trim (to_js_string (js_or (member "message" (JObj o)) (JStr []))) ≠ []) ∧
  (mode = "pass_headers" → parsePassHeaderNames (parseLooseValue (op_value_text op)) ≠ []).

Lemma validate_spec line op : validate_operation t line op = None ↔ complete op.
Proof.
  unfold validate_operation, complete. set (mode := str_or (op_mode op) "set"). set (meta := mode_meta mode).
  rewrite parseLooseValue_trim, !guard_None. rewrite !andb_false_iff, !negb_false_iff, <- !truthy_spec.
  assert (∀ b : bool, b = false ↔ ¬ b = true) as Hb by (intros []; naive_solver).
  rewrite !(Hb (bool_decide _)), !bool_decide_eq_true.
  assert (match JSON_parse (trim (op_value_text op)) with
          | Some (JObj o) => negb (truthy (trim (to_js_string (js_or (member "message" (JObj o)) (JStr []))))) | _ => false end = false
    ↔ ∀ o, JSON_parse (trim (op_value_text op)) = Some (JObj o) →
        trim (to_js_string (js_or (member "message" (JObj o)) (JStr []))) ≠ []) as ->.
  { split.
    - intros H o E. rewrite E in H. by apply negb_false_iff, truthy_spec in H.
    - intros H. destruct (JSON_parse _) as [[| | | | | |o]|]; try done. apply negb_false_iff, truthy_spec. by apply H. }
  assert ((length (parsePassHeaderNames (parseLooseValue (op_value_text op))) =? 0)%nat = false
    ↔ parsePassHeaderNames (parseLooseValue (op_value_text op)) ≠ []) as ->.
  { rewrite Nat.eqb_neq. destruct (parsePassHeaderNames _); naive_solver. }
  assert (∀ P Q : Prop, Decision P → (¬ P ∨ Q ↔ (P → Q))) as Himp by (intros P Q [?|?]; tauto).
  rewrite !Himp by apply _. clear Hb Himp.
  destruct (mm_path meta), (has mode FROM_REQUIRED_MODES), (has mode TO_REQUIRED_MODES), (has mode VALUE_REQUIRED_MODES); intuition congruence.
Qed.

Lemma validateOperations_spec ops : (∀ m n, t m n ≠ []) → validateOperations t ops = [] ↔ Forall complete ops.
Proof.
  intros Ht. unfold validateOperations. 
  assert (∀ k, default [] (head (omap (λ '(i, op), validate_operation t (S i) op) (imap (λ i op, (k + i, op)) ops))) = [] ↔ Forall complete ops) as H; [|exact (H 0)].
  induction ops as [|op ops IH]; intros k; [split; [constructor|done]|].
  cbn [imap]. cbn [omap list_omap]. rewrite Forall_cons. destruct (validate_operation t (S (k + 0)) op) as [m|] eqn:E.
  - cbn [head default from_option id]. split; [|by intros [H _]; apply (validate_spec (S (k + 0))) in H; rewrite H in E].
    intros ->. unfold validate_operation in E. repeat (case_match; [injection E as E; by destruct (Ht _ _ E)|]). done.
  - apply validate_spec in E. specialize (IH (S k)).
    assert (imap ((λ i op, (k + i, op)) ∘ S) ops = imap (λ i op, (S k + i, op)) ops) as ->.
    { apply imap_ext. intros i x _. cbn. f_equal. lia. }
    rewrite IH. tauto.
Qed.
End validation.

(** A complete rule stays complete when it is opened again, and is not blank. *)
Lemma reopened_complete op op' : operation_ok op → reopened op op' → complete op → complete op'.
Proof.
  intros (Hm & _ & _ & _ & _ & Hv & _) [E1 _ E3 E4 E5 E6 _ _ _]. destruct (mode_facts _ Hm) as (_ & Hne & Ha & HF & HT & HV & _).
  unfold complete. rewrite E1, E3, E4, E5, or_set by done. unfold from_value, to_value. set (mode := op_mode op) in *. set (meta := mode_meta mode) in *.
  intros (H1 & H2 & H3 & H4 & H5 & H6). split_and!.
  - intros Hp. rewrite Hp. cbn [orb]. rewrite trim_idemp. auto.
  - intros Hf. left. rewrite (HF Hf). destruct (mm_pathAlias meta), (truthy (trim (op_from op))) eqn:E; cbn [andb negb]; rewrite trim_idemp.
    + by apply truthy_spec.
    + destruct (H2 Hf) as [Hx|Hx]; [by apply truthy_spec in Hx; rewrite Hx in E|]. cbn in Hx. by apply truthy_spec.
    + by apply truthy_spec.
    + destruct (H2 Hf) as [Hx|Hx]; [done|done].
  - intros Hf. left. destruct (mm_pathAlias meta), (truthy (trim (op_to op))) eqn:E; cbn [andb negb]; rewrite trim_idemp.
    + by apply truthy_spec.
    + destruct (H3 Hf) as [Hx|Hx]; [by apply truthy_spec in Hx; rewrite Hx in E|]. cbn in Hx. by apply truthy_spec.
    + by apply truthy_spec.
    + destruct (H3 Hf) as [Hx|Hx]; [done|done].
  - intros Hval. pose proof (HV Hval) as Hmv. rewrite E6. fold mode. fold meta. rewrite Hmv. destruct (Hv Hmv) as [Hk Hb].
    rewrite trim_id by by apply toValueText_trimmed. intros E. by apply (Hb (H4 Hval)), toValueText_blank.
  - intros Hmode o. assert (mm_value meta = true) as Hmv by (apply HV; by rewrite Hmode). rewrite E6. fold mode. fold meta. rewrite Hmv.
    destruct (Hv Hmv) as [Hk _]. rewrite trim_id, parse_value_text by (done || by apply toValueText_trimmed). intros E.
    assert (parseLooseValue (op_value_text op) = JObj o) as Ev by (destruct (parseLooseValue _); congruence).
    apply (H5 Hmode). unfold parseLooseValue in Ev. destruct (trim (op_value_text op)) as [|c s]; [done|].
    destruct (JSON_parse (c :: s)) as [v|]; cbn [nullish default from_option id] in Ev; congruence.
  - intros Hmode. assert (mm_value meta = true) as Hmv by (apply HV; by rewrite Hmode). rewrite E6. fold mode. fold meta. rewrite Hmv.
    destruct (Hv Hmv) as [Hk _]. rewrite kept_reads by done. auto.
Qed.

Lemma complete_not_blank op : op_mode op ∈ OPERATION_MODE_VALUES → complete op → isOperationBlank op = false.
Proof.
  intros Hm [H1 _]. destruct (mode_facts _ Hm) as (_ & Hne & _ & _ & _ & _ & Hset). rewrite or_set in H1 by done.
  unfold isOperationBlank. case_bool_decide as E; [|done]. specialize (H1 (Hset E)). apply truthy_spec in H1. by rewrite H1.
Qed.

(** The payload is a value that JSON can represent. *)
Lemma payload_ok op : operation_ok op → json_ok (operation_payload op).
Proof.
  intros (Hm & Hd & Hp & Hf & Ht & Hv & Hc). destruct (mode_facts _ Hm) as (Hmu & Hne & _). unfold operation_payload.
  rewrite or_set by done.
  repeat (apply json_ok_set_if; [payload_key..| |]); try (intros _; cbn [json_ok]; by apply valid_trim).
  - intros _. case_bool_decide; by apply valid_units_b.
  - intros _. apply json_ok_arr, Forall_forall. intros v (c & Hin & Ev)%list_elem_of_omap. rewrite Forall_forall in Hc.
    by eapply condition_payload_ok; [apply Hc|].
  - done.
  - intros Hval. by destruct (Hv Hval) as [[? _] _].
  - apply json_ok_obj. split; [by apply (bool_decide_unpack _); vm_compute|]. split; [done|].
    constructor; [|constructor]. split; [by apply valid_units_b|done].
Qed.

(** ** Stored rules *)

Definition not_blank (ops : list ParamOverrideOperation) : list ParamOverrideOperation :=
  filter (λ o, isOperationBlank o = false) ops.

Section stored.
Variable clock : nat → Z.
Variable toUpperCase : jstring → jstring.
Variable t : jstring → option nat → jstring.
Hypothesis toUpperCase_AND : toUpperCase "AND" = "AND".
Hypothesis toUpperCase_OR : toUpperCase "OR" = "OR".
(** No message is translated as nothing, which would count as no error. *)
Hypothesis t_nonempty : ∀ m n, t m n ≠ [].

Lemma operations_payload_ok ops : Forall operation_ok ops → json_ok (operations_of (map operation_payload ops)).
Proof.
  intros H. apply json_ok_obj. split; [by apply (bool_decide_unpack _); vm_compute|]. split; [done|].
  constructor; [|constructor]. split; [by apply valid_units_b|]. apply json_ok_arr, Forall_map. eapply Forall_impl; [exact H|].
  intros op. apply payload_ok.
Qed.

(** A text that is built is that of complete rules. *)
Lemma built_rules ops text : buildOperationsJson t ops true = inl text → text ≠ [] →
  not_blank ops ≠ [] ∧ Forall complete (not_blank ops) ∧ text = pretty (operations_of (map operation_payload (not_blank ops))).
Proof using t_nonempty.
  unfold buildOperationsJson. fold (not_blank ops). destruct (not_blank ops) as [|o l] eqn:E; [by intros [= <-]|].
  destruct (truthy (validateOperations t (o :: l))) eqn:Ev; [done|]. intros [= <-] _. split_and!; [done| |done].
  apply (validateOperations_spec t); [done|]. by apply truthy_false in Ev.
Qed.

Lemma build_complete ops : ops ≠ [] → Forall complete ops → Forall (λ op, op_mode op ∈ OPERATION_MODE_VALUES) ops →
  buildOperationsJson t ops true = inl (pretty (operations_of (map operation_payload ops))).
Proof using t_nonempty.
  intros Hne Hc Hm. unfold buildOperationsJson. rewrite filter_all.
  - destruct ops as [|o l]; [done|]. apply (validateOperations_spec t) in Hc as ->; done.
  - rewrite Forall_forall in *. intros op Hop. by apply complete_not_blank; auto.
Qed.

Lemma reopened_all l l' : Forall operation_ok l → Forall2 reopened l l' → Forall complete l →
  Forall complete l' ∧ Forall (λ op, op_mode op ∈ OPERATION_MODE_VALUES) l' ∧ map operation_payload l' = map operation_payload l.
Proof.
  intros Hok Hr. induction Hr as [|op op' l l' Hr _ IH]; intros Hc; [by split_and!|].
  apply Forall_cons in Hok as [Ho Hok], Hc as [Hco Hc]. destruct (IH Hok Hc) as (H1 & H2 & H3). split_and!.
  - constructor; [by eapply reopened_complete|done].
  - constructor; [|done]. rewrite (ro_mode _ _ Hr). apply Ho.
  - cbn [map]. by rewrite H3, (reopened_payload op op').
Qed.

(** C9: Rules that are saved are opened again as the same rules, with trimmed texts,
    values written as their JSON, without the fields their modes do not have and without
    conditions that have no path, and saving those gives the same text again.  The modes
    are known ones, and no value is written as a JSON string that is empty, has blanks
    at an end or is JSON itself, which opens as another value, or holds a number that
    is not written back the same, as -0 and 1e999. *)
Theorem reopened_rules ops text seed :
  Forall operation_ok (not_blank ops) → buildOperationsJson t ops true = inl text → text ≠ [] →
  ∃ state seed', parseInitialState clock toUpperCase text seed = Some (state, seed') ∧
    editMode state = edit_visual ∧ visualMode state = visual_operations ∧ jsonError state = [] ∧
    Forall2 reopened (not_blank ops) (operations state) ∧ buildOperationsJson t (operations state) true = inl text.
Proof using toUpperCase_AND toUpperCase_OR t_nonempty.
  intros Hok Hb Hne. destruct (built_rules ops text Hb Hne) as (Hnb & Hc & ->). set (l := not_blank ops) in *.
  pose proof (operations_payload_ok l Hok) as Hjson. set (parsed := operations_of (map operation_payload l)) in *.
  assert (trim (pretty parsed) = pretty parsed) as Htrim by (apply trim_id, stringify_trimmed, Hjson).
  unfold parseInitialState. rewrite Htrim, (proj2 (truthy_spec _) Hne). cbn [negb].
  assert (JSON_parse (pretty parsed) = Some parsed) as -> by (apply stringify_reads, Hjson).
  change (parsed_operations parsed) with (Some (map operation_payload l)).
  assert (∃ l' seed', read_operations clock toUpperCase (map operation_payload l) seed = Some (l', seed') ∧ Forall2 reopened l l')
    as (l' & seed' & -> & Hl').
  { destruct (map_reading_Forall2 (λ op, normalizeOperation clock toUpperCase (operation_payload op)) reopened l) with (seed := seed)
      as (l' & seed' & E & Hl').
    - eapply Forall_impl; [exact Hok|]. intros op Hop seed0. by apply operation_reload.
    - exists l', seed'. split; [|done]. rewrite <- E, <- map_reading_map. by destruct l. }
  cbn [mbind option_bind]. eexists _, seed'. split; [reflexivity|]. cbn [editMode visualMode jsonError operations]. split_and!; try done.
  destruct (reopened_all l l' Hok Hl' Hc) as (Hc' & Hm' & Emap). rewrite build_complete, Emap; [done| |done..]. by destruct Hl'.
Qed.

(** What every stored rule has: a known mode and the fields it needs. *)
Record stored_rule (v : jval) : Prop := {
  sr_mode : ∃ m, member "mode" v = JStr m ∧ m ∈ OPERATION_MODE_VALUES;
  sr_path : ∀ m, member "mode" v = JStr m → mm_path (mode_meta m) = true → ∃ s, member "path" v = JStr s ∧ s ≠ [] ∧ trimmed s;
  sr_from : ∀ m, member "mode" v = JStr m → m ∈ FROM_REQUIRED_MODES → ∃ s, member "from" v = JStr s ∧ s ≠ [] ∧ trimmed s;
  sr_to : ∀ m, member "mode" v = JStr m → m ∈ TO_REQUIRED_MODES → ∃ s, member "to" v = JStr s ∧ s ≠ [] ∧ trimmed s;
  sr_value : ∀ m, member "mode" v = JStr m → m ∈ VALUE_REQUIRED_MODES → member "value" v ≠ JStr [];
  sr_conditions : ∀ l, member "conditions" v = JArr l →
    l ≠ [] ∧ Forall (λ c, ∃ s, member "path" c = JStr s ∧ s ≠ [] ∧ trimmed s) l ∧
    (member "logic" v = JStr "AND" ∨ member "logic" v = JStr "OR");
}.

Lemma string_member v s : string_or_empty v = s → s ≠ [] → v = JStr s.
Proof. intros <-. by destruct v. Qed.

Lemma trim_found s : trim s ≠ [] → trim s ≠ [] ∧ trimmed (trim s).
Proof. split; [done|apply trim_trimmed]. Qed.

Lemma condition_path c v : buildConditionPayload c = Some v → ∃ s, member "path" v = JStr s ∧ s ≠ [] ∧ trimmed s.
Proof.
  unfold buildConditionPayload. destruct (truthy (trim (pc_path c))) eqn:E; [|done]. intros [= <-]. apply truthy_spec in E.
  exists (trim (pc_path c)). split; [|by apply trim_found]. rewrite !member_set_if. decide_closed. by rewrite !andb_false_r.
Qed.

Lemma complete_stored op : operation_ok op → complete op → stored_rule (operation_payload op).
Proof.
  intros (Hm & _ & _ & _ & _ & Hv & _). destruct (mode_facts _ Hm) as (_ & Hne & _ & HF & HT & HV & _).
  unfold complete. rewrite or_set by done. intros (H1 & H2 & H3 & H4 & _).
  destruct (payload_members op Hm) as (E1 & _ & E3 & E4 & E5 & E6 & _ & E8 & E9). split; rewrite ?E1.
  - by eexists.
  - intros m [= <-] Hp. exists (trim (op_path op)). split; [|by apply trim_found, H1]. rewrite Hp in E3. apply string_member; auto.
  - intros m [= <-] Hf%has_spec. exists (from_value op).
    assert (from_value op ≠ [] ∧ trimmed (from_value op)) as [Hx ?]; [|split; [by apply string_member|done]].
    unfold from_value. rewrite (HF Hf). destruct (mm_pathAlias _ && negb (truthy (trim (op_from op)))) eqn:E.
    + apply andb_true_iff in E as [_ Hfe%negb_truthy]. apply trim_found. destruct (H2 Hf) as [?|[_ ?%truthy_spec]%andb_true_iff]; done.
    + apply trim_found. intros Hfe. rewrite Hfe in E. destruct (H2 Hf) as [?|[Ha ?]%andb_true_iff]; [done|]. by rewrite Ha in E.
  - intros m [= <-] Hf%has_spec. exists (to_value op).
    assert (to_value op ≠ [] ∧ trimmed (to_value op)) as [Hx ?]; [|split; [by apply string_member|done]].
    unfold to_value. destruct (mm_pathAlias _ && negb (truthy (trim (op_to op)))) eqn:E.
    + apply andb_true_iff in E as [_ Hfe%negb_truthy]. apply trim_found. destruct (H3 Hf) as [?|[_ ?%truthy_spec]%andb_true_iff]; done.
    + apply trim_found. intros Hfe. rewrite Hfe in E. destruct (H3 Hf) as [?|[Ha ?]%andb_true_iff]; [done|]. by rewrite Ha in E.
  - intros m [= <-] Hval%has_spec. rewrite E6, (HV Hval). by apply Hv, H4; auto.
  - intros l. rewrite E8, E9. destruct (Nat.ltb_spec 0 (length (omap buildConditionPayload (op_conditions op)))) as [Hl|_]; [|done].
    intros [= <-]. split_and!.
    + intros E. rewrite E in Hl. cbn in Hl. lia.
    + apply Forall_forall. intros v (c & _ & Ev)%list_elem_of_omap. by eapply condition_path.
    + case_bool_decide; [by left|by right].
Qed.

(** Every rule of a saved text has a known mode and, as its mode needs them, a path,
    both ends and a value that are not empty, and no condition without a path. *)
Lemma saved_rules_complete ops text :
  Forall operation_ok (not_blank ops) → buildOperationsJson t ops true = inl text → text ≠ [] →
  ∃ l, JSON_parse text = Some (operations_of l) ∧ length l = length (not_blank ops) ∧ Forall stored_rule l.
Proof using t_nonempty.
  intros Hok Hb Hne. destruct (built_rules ops text Hb Hne) as (_ & Hc & ->). exists (map operation_payload (not_blank ops)).
  split_and!; [by apply stringify_reads, operations_payload_ok|apply length_map|]. apply Forall_map.
  clear -Hok Hc. induction Hok as [|op l Ho _ IH]; [constructor|]. apply Forall_cons in Hc as [Hco Hc]. constructor; [|auto].
  by apply complete_stored.
Qed.

(** C40: A text value that is itself JSON is changed by opening the dialog and saving: the
    value stored afterwards is the one the text denotes, as 1 for the text of 1. *)
Theorem string_value_retyped v path seed :
  json_ok v → valid_units (compact v) → trimmed path → path ≠ [] → valid_units path →
  match v with JStr _ => False | _ => True end →
  let rule value := operations_of [JObj [("mode", JStr "set"); ("path", JStr path); ("value", value)]] in
  ∃ state seed', parseInitialState clock toUpperCase (pretty (rule (JStr (compact v)))) seed = Some (state, seed') ∧
    buildOperationsJson t (operations state) true = inl (pretty (rule v)) ∧ JStr (compact v) ≠ v.
Proof using t_nonempty toUpperCase_OR.
  intros Hv Htu Hp Hne Hpu Hs rule. set (text := compact v) in *.
  assert (json_ok (rule (JStr text))) as Hok.
  { apply json_ok_obj. split; [by apply (bool_decide_unpack _); vm_compute|]. split; [done|]. constructor; [|constructor].
    split; [by apply valid_units_b|]. apply json_ok_arr. constructor; [|constructor]. apply json_ok_obj.
    split; [by apply (bool_decide_unpack _); vm_compute|]. split; [done|].
    repeat (apply Forall_cons; split; [split; [by apply valid_units_b|]|]); try done. by apply valid_units_b. }
  pose proof (stringify_nonempty (Some 2) _ Hok) as Hnt. fold (pretty (rule (JStr text))) in Hnt.
  unfold parseInitialState. rewrite (trim_id (pretty _)) by (apply stringify_trimmed, Hok).
  rewrite (proj2 (truthy_spec _) Hnt). cbn [negb].
  assert (JSON_parse (pretty (rule (JStr text))) = Some (rule (JStr text))) as -> by by apply stringify_reads.
  change (parsed_operations _) with (Some [JObj [("mode", JStr "set"); ("path", JStr path); ("value", JStr text)]]).
  cbn [read_operations map_reading]. unfold normalizeOperation at 1, nextLocalId. cbn [member oget]. decide_closed.
  cbn [default from_option id mbind option_bind]. eexists _, _. split; [reflexivity|]. cbn [operations].
  assert (kept_value v) as Hk by (split; [done|by destruct v]).
  assert (parseLooseValue text = v) as Hread.
  { transitivity (parseLooseValue (toValueText v)); [|by apply kept_reads]. unfold text. by destruct v. }
  split; [|by destruct v]. rewrite build_complete; [|done|..].
  - unfold rule. cbn [map]. unfold operation_payload. cbn [op_mode op_description op_path op_from op_to op_value_text op_keep_origin
      op_conditions string_or_empty toValueText omap list_omap]. rewrite trim_nil, (trim_id path), Hread by done.
    destruct path; [done|]. reflexivity.
  - constructor; [|constructor]. unfold complete. cbn [op_mode op_path string_or_empty]. change (str_or _ _) with ("set" : jstring).
    rewrite (trim_id path) by done. split_and!; try done.
  - constructor; [|constructor]. by apply (bool_decide_unpack _).
Qed.
End stored.

(** ** Values with a form of their own *)

(** The payload of a draft in the advanced mode. *)
Lemma return_error_members d :
  let message := trim (rd_message d) in let code := trim (rd_code d) in let type := trim (rd_type d) in
  let payload := [("message", JStr message); ("status_code", JNum (status_or_400 (rd_statusCode d)))] in
  let payload := set_if (truthy code) "code" (JStr code) payload in
  let payload := set_if (truthy type) "type" (JStr type) payload in
  let payload := set_if (negb (rd_skipRetry d)) "skip_retry" (JBool false) payload in
  (valid_units (rd_message d) → valid_units (rd_code d) → valid_units (rd_type d) → json_ok (JNum (status_or_400 (rd_statusCode d))) →
     json_ok (JObj payload)) ∧
  member "message" (JObj payload) = JStr message ∧ member "status_code" (JObj payload) = JNum (status_or_400 (rd_statusCode d)) ∧
  member "code" (JObj payload) = (if truthy code then JStr code else JUndefined) ∧
  member "type" (JObj payload) = (if truthy type then JStr type else JUndefined) ∧
  member "skip_retry" (JObj payload) = (if rd_skipRetry d then JUndefined else JBool false) ∧ member "msg" (JObj payload) = JUndefined.
Proof.
  intros message code type payload1 payload2 payload3 payload. unfold payload, payload3, payload2, payload1. split.
  - intros Hm Hc Ht Hs. repeat (apply json_ok_set_if; [payload_key..| |]); try (intros _; cbn [json_ok]; by apply valid_trim); [done|].
    apply json_ok_obj. split; [by apply (bool_decide_unpack _); vm_compute|]. split; [done|].
    repeat (apply Forall_cons; split; [split; [by apply valid_units_b|]|]); [by apply valid_trim|done|done].
  - rewrite !member_set_if. cbn [member oget]. decide_closed. rewrite !andb_false_r, !andb_true_r. cbn [default from_option id]. split_and!; try done.
    by destruct (rd_skipRetry d).
Qed.

Lemma status_or_400_idemp n : status_or_400 (status_or_400 n) = status_or_400 n.
Proof. unfold status_or_400 at 2 3. destruct (_ && _) eqn:E; [unfold status_or_400; by rewrite E|done]. Qed.

Lemma or_text s : trim (to_js_string (js_or (if truthy (trim s) then JStr (trim s) else JUndefined) (JStr []))) = trim s.
Proof.
  destruct (truthy (trim s)) eqn:E; unfold js_or; [rewrite to_boolean_str, E; apply trim_idemp|].
  apply truthy_false in E. by rewrite E.
Qed.

(** The form of a custom error reads back what it wrote: in the advanced mode every
    field, trimmed and with a status code in range, in the simple mode the message, if
    it is not itself a JSON object. *)
Lemma return_error_roundtrip d :
  valid_units (rd_message d) → valid_units (rd_code d) → valid_units (rd_type d) → json_ok (JNum (status_or_400 (rd_statusCode d))) →
  (rd_simpleMode d = true → ∀ o, JSON_parse (trim (rd_message d)) ≠ Some (JObj o)) →
  parseReturnErrorDraft (buildReturnErrorValueText d)
  = if rd_simpleMode d then Build_ReturnErrorDraft (trim (rd_message d)) (of_Z 400) [] [] true true
    else Build_ReturnErrorDraft (trim (rd_message d)) (status_or_400 (rd_statusCode d)) (trim (rd_code d)) (trim (rd_type d)) (rd_skipRetry d) false.
Proof.
  intros Hm Hc Ht Hs Hsimple. unfold buildReturnErrorValueText. destruct (rd_simpleMode d).
  - unfold parseReturnErrorDraft. rewrite trim_idemp. specialize (Hsimple eq_refl). destruct (trim (rd_message d)) as [|c s]; [done|].
    destruct (JSON_parse (c :: s)) as [[| | | | | |o]|]; try done. by destruct (Hsimple o).
  - pose proof (return_error_members d) as (Hok & E1 & E2 & E3 & E4 & E5 & E6). specialize (Hok Hm Hc Ht Hs).
    set (payload := set_if (negb (rd_skipRetry d)) _ _ _) in *. unfold parseReturnErrorDraft, compact.
    rewrite trim_id by by apply (stringify_trimmed None).
    destruct (default [] (JSON_stringify None (JObj payload))) as [|c s] eqn:Etext; [by apply (stringify_nonempty None) in Hok|].
    rewrite <- Etext, stringify_reads by done. rewrite E1, E2, E3, E4, E5. f_equal.
    + assert (js_or (JStr (trim (rd_message d))) (member "msg" (JObj payload)) = if truthy (trim (rd_message d)) then JStr (trim (rd_message d)) else JUndefined)
        as -> by (unfold js_or; rewrite to_boolean_str, E6; by destruct (truthy (trim (rd_message d)))). apply or_text.
    + cbn [to_number]. apply status_or_400_idemp.
    + apply or_text.
    + apply or_text.
    + by destruct (rd_skipRetry d).
Qed.

(** An end of [sync_fields] is read back. *)
Lemma sync_target_roundtrip toLowerCase type key :
  toLowerCase "header" = "header" → toLowerCase "json" = "json" → trim key ≠ [] →
  parseSyncTargetSpec toLowerCase (buildSyncTargetSpec type key)
  = {| st_type := if bool_decide (type = "header") then "header" else "json"; st_key := trim key |}.
Proof.
  intros Hh Hj Hk. unfold buildSyncTargetSpec. rewrite (proj2 (truthy_spec _) Hk).
  assert (∀ a : jstring, trimmed a → a ≠ [] → trim (a ++ trim key) = a ++ trim key) as Htrim.
  { intros a Ha Hne. apply trim_id. apply (trimmed_app a (trim key) Ha (trim_trimmed key) Hne Hk []). }
  case_bool_decide; unfold parseSyncTargetSpec; [change (("header" : jstring) ++ ":" ++ trim key) with (("header:" : jstring) ++ trim key)|
    change (("json" : jstring) ++ ":" ++ trim key) with (("json:" : jstring) ++ trim key)]; rewrite Htrim by (done || by apply (bool_decide_unpack _)).
  - change ({| st_type := if bool_decide (toLowerCase "header" = "header") then "header" else "json"; st_key := trim (trim key) |}
            = {| st_type := "header"; st_key := trim key |}). by rewrite Hh, trim_idemp.
  - change ({| st_type := if bool_decide (toLowerCase "json" = "header") then "header" else "json"; st_key := trim (trim key) |}
            = {| st_type := "json"; st_key := trim key |}). by rewrite Hj, trim_idemp.
Qed.

(** A rule without a path is not written: the rule that the form adds is lost at once. *)
Lemma blank_rule_not_written toUpperCase simpleMode rules rule d : trim (pc_path rule) = [] →
  let with_rules rules := Build_PruneObjectsDraft simpleMode (pd_typeText d) (pd_logic d) (pd_recursive d) rules in
  buildPruneObjectsValueText toUpperCase (with_rules (rules ++ [rule])) = buildPruneObjectsValueText toUpperCase (with_rules rules).
Proof.
  intros Hr with_rules. unfold buildPruneObjectsValueText, with_rules. cbn [pd_simpleMode pd_typeText pd_logic pd_recursive pd_rules].
  rewrite filter_app, filter_cons_False, filter_nil, app_nil_r; [done|]. by rewrite Hr.
Qed.

(** ** Samples *)

Module Samples.

Definition sample_clock (n : nat) : Z := 1700000000000.
Definition sample_toUpperCase (s : jstring) : jstring := map (λ c, if ((97 <=? c) && (c <=? 122))%N then (c - 32)%N else c) s.
Definition sample_t (message : jstring) (line : option nat) : jstring := 33%N :: message.

Definition sample_rule : ParamOverrideOperation := {|
  op_id := "po_1"; op_description := " Default temperature "; op_path := " temperature"; op_mode := "set"; op_from := []; op_to := [];
  op_value_text := "0.7"; op_keep_origin := true; op_logic := "AND";
  op_conditions := [{| pc_id := "po_2"; pc_path := "model "; pc_mode := "prefix"; pc_value_text := "openai/"; pc_invert := false; pc_pass_missing_key := true |};
                    {| pc_id := "po_3"; pc_path := []; pc_mode := "full"; pc_value_text := []; pc_invert := false; pc_pass_missing_key := false |}] |}.

Definition sample_text : jstring := match buildOperationsJson sample_t [sample_rule] true with inl text => text | inr _ => [] end.

Lemma sample_t_nonempty m n : sample_t m n ≠ [].
Proof. done. Qed.

Lemma sample_ok : Forall operation_ok (not_blank [sample_rule]).
Proof.
  assert (not_blank [sample_rule] = [sample_rule]) as -> by (vm_compute; reflexivity). constructor; [|constructor].
  assert (∀ s, forallb (λ c, c <? 65536)%N s = true → valid_units s) as Hu by apply valid_units_b.
  split_and!; try (apply Hu; vm_compute; reflexivity).
  - apply (bool_decide_unpack _); vm_compute; reflexivity.
  - intros _. split.
    + assert (parseLooseValue "0.7" = JNum (Number_of_string "0.7")) as E by (vm_compute; reflexivity). cbn [op_value_text sample_rule]. rewrite E.
      split; [apply json_ok_b_spec; vm_compute; reflexivity|done].
    + intros _. vm_compute. done.
  - cbn [op_conditions sample_rule].
    apply Forall_cons; split; [|apply Forall_cons; split; [|constructor]]; (split_and!; [apply Hu; vm_compute; reflexivity| |]);
      try (apply (bool_decide_unpack _); vm_compute; reflexivity); split; try (apply json_ok_b_spec; vm_compute; reflexivity);
      (split; [apply (bool_decide_unpack _)|]; vm_compute; reflexivity).
Qed.

Definition sample_error : ReturnErrorDraft := {|
  rd_message := " quota exceeded "; rd_statusCode := of_Z 429; rd_code := "rate_limit"; rd_type := []; rd_skipRetry := false; rd_simpleMode := false |}.
End Samples.

Import Samples.

Example reopened_rules_witness :
  ∃ state seed', parseInitialState sample_clock sample_toUpperCase sample_text 5 = Some (state, seed') ∧
    editMode state = edit_visual ∧ visualMode state = visual_operations ∧ jsonError state = [] ∧
    Forall2 reopened (not_blank [sample_rule]) (operations state) ∧ buildOperationsJson sample_t (operations state) true = inl sample_text.
Proof.
  apply (reopened_rules sample_clock sample_toUpperCase sample_t); [vm_compute; reflexivity..|apply sample_t_nonempty|apply sample_ok|vm_compute; reflexivity|].
  intros E. assert (length sample_text = 0%nat) as El by by rewrite E. vm_compute in El. done.
Defined.

Example saved_rules_complete_witness :
  ∃ l, JSON_parse sample_text = Some (operations_of l) ∧ length l = length (not_blank [sample_rule]) ∧ Forall stored_rule l.
Proof.
  apply (saved_rules_complete sample_t); [apply sample_t_nonempty|apply sample_ok|vm_compute; reflexivity|].
  intros E. assert (length sample_text = 0%nat) as El by by rewrite E. vm_compute in El. done.
Defined.

(** The text ["1"] of a stored rule becomes the number 1. *)
Example string_value_retyped_witness :
  let rule value := operations_of [JObj [("mode", JStr "set"); ("path", JStr "user"); ("value", value)]] in
  ∃ state seed', parseInitialState sample_clock sample_toUpperCase (pretty (rule (JStr (compact (JNum (of_Z 1)))))) 0 = Some (state, seed') ∧
    buildOperationsJson sample_t (operations state) true = inl (pretty (rule (JNum (of_Z 1)))) ∧ JStr (compact (JNum (of_Z 1))) ≠ JNum (of_Z 1).
Proof.
  apply (string_value_retyped sample_clock sample_toUpperCase sample_t); [vm_compute; reflexivity|apply sample_t_nonempty|apply json_ok_b_spec; vm_compute; reflexivity
    |apply valid_units_b; vm_compute; reflexivity|apply (bool_decide_unpack _); vm_compute; reflexivity|done|apply valid_units_b; vm_compute; reflexivity|done].
Defined.

Example return_error_roundtrip_witness :
  parseReturnErrorDraft (buildReturnErrorValueText sample_error) = Build_ReturnErrorDraft "quota exceeded" (of_Z 429) "rate_limit" [] false false.
Proof.
  etransitivity; [apply (return_error_roundtrip sample_error)|vm_compute; reflexivity]; try (apply valid_units_b; vm_compute; reflexivity);
    [apply json_ok_b_spec; vm_compute; reflexivity|done].
Defined.
