(* ===== verification/ParamOverrideEditor.v ===== *)
(** * ParamOverrideEditor: the dialog for override rules

    The component of [features/channels/components/dialogs/
    param-override-editor-dialog.tsx] as a state machine: its state with the counter
    of identifiers, one definition for every handler, and the changes that the forms
    of its parts make.  A handler that throws gives [None].  Rendering is left out;
    the position of a dragged rule over another is a parameter of its event. *)
From stdpp Require Import relations.
From S2P Require Import Prelude JsString JsNumber JsFloat JsValue ParamOverride.

(** ** Lists of rules *)

Inductive DropPosition := drop_before | drop_after.

#[export] Instance DropPosition_eq_dec : EqDecision DropPosition.
Proof. solve_decision. Defined.

Definition has_op_id (id : jstring) (o : ParamOverrideOperation) : bool := bool_decide (op_id o = id).

Definition reorderOperations (ops : list ParamOverrideOperation) (sourceId targetId : jstring) (position : DropPosition)
  : list ParamOverrideOperation :=
  if negb (truthy sourceId) || negb (truthy targetId) || bool_decide (sourceId = targetId) then ops
  else
    match find_index (has_op_id sourceId) ops with
    | None => ops
    | Some srcIdx =>
      match ops !! srcIdx with
      | None => ops
      | Some moved =>
        let next := delete srcIdx ops in
        match find_index (has_op_id targetId) next with
        | None => ops
        | Some idx =>
          let insertIdx := match position with drop_after => S idx | drop_before => idx end in
          take insertIdx next ++ moved :: drop insertIdx next
        end
      end
    end.

Definition getOperationSummary (operation : ParamOverrideOperation) (index : nat) : jstring :=
  let mode := str_or (op_mode operation) "set" in
  let modeLabel := ostr_or (oget mode OPERATION_MODE_LABEL_MAP) mode in
  let path := trim (op_path operation) in
  let from := trim (op_from operation) in
  let to := trim (op_to operation) in
  let shown := if bool_decide (mode = "sync_fields") then str_or from (str_or to "-") else str_or path (str_or from (str_or to "-")) in
  N_to_js (N.of_nat (index + 1)) ++ ". " ++ modeLabel ++ " · " ++ shown.

(** The modes of the rules that occur most, at most four. *)
Definition topOperationModes (operations : list ParamOverrideOperation) : list (jstring * Z) :=
  let counts := fold_left (λ counts op,
    let mode := str_or (op_mode op) "set" in oset mode (default 0%Z (oget mode counts) + 1)%Z counts) operations [] in
  slice 0 4 (sort_by (λ a b, (b.2 - a.2)%Z) counts).

Definition filteredOperations (toLowerCase : jstring → jstring) (operationSearch : jstring)
  (operations : list ParamOverrideOperation) : list ParamOverrideOperation :=
  let keyword := toLowerCase (trim operationSearch) in
  if negb (truthy keyword) then operations
  else filter (λ op,
    let searchableText := toLowerCase (join " " (filter (λ s, truthy s = true)
      [op_description op; op_mode op; op_path op; op_from op; op_to op; op_value_text op])) in
    includes keyword searchableText = true) operations.

Definition operationCount (operations : list ParamOverrideOperation) : nat :=
  length (filter (λ o, isOperationBlank o = false) operations).

(** *** Labels of the fields *)

Definition getModePathLabel (mode : jstring) : jstring :=
  if bool_decide (mode = "set_header") || bool_decide (mode = "delete_header") then "Header Name"
  else if bool_decide (mode = "prune_objects") then "Target Path (optional)" else "Target Field Path".

Definition getModeFromLabel (mode : jstring) : jstring :=
  if bool_decide (mode = "replace") then "Match Text"
  else if bool_decide (mode = "regex_replace") then "Regex Pattern"
  else if bool_decide (mode = "copy_header") || bool_decide (mode = "move_header") then "Source Header" else "Source Field".

Definition getModeToLabel (mode : jstring) : jstring :=
  if bool_decide (mode = "replace") || bool_decide (mode = "regex_replace") then "Replace With"
  else if bool_decide (mode = "copy_header") || bool_decide (mode = "move_header") then "Target Header" else "Target Field".

Definition getModeValueLabel (mode : jstring) : jstring :=
  if bool_decide (mode = "set_header") then "Header Value (supports string or JSON mapping)"
  else if bool_decide (mode = "pass_headers") then "Pass-through Headers (comma-separated or JSON array)"
  else if has mode ["trim_prefix"; "trim_suffix"; "ensure_prefix"; "ensure_suffix"] then "Prefix/Suffix Text"
  else if bool_decide (mode = "prune_objects") then "Prune Rule (string or JSON object)"
  else "Value (supports JSON or plain text)".

(** ** State *)

Record DialogState := {
  ds_editor : EditorState; operationSearch : jstring; selectedOperationId : jstring; expandedConditions : list (jstring * bool);
  draggedOperationId : jstring; dragOverOperationId : jstring; dragOverPosition : DropPosition; templatePresetKey : jstring;
  localIdSeed : nat; toasts : list jstring; saved : option jstring
}.

Definition setEditor (e : EditorState) (s : DialogState) : DialogState := {|
  ds_editor := e; operationSearch := operationSearch s; selectedOperationId := selectedOperationId s;
  expandedConditions := expandedConditions s; draggedOperationId := draggedOperationId s;
  dragOverOperationId := dragOverOperationId s; dragOverPosition := dragOverPosition s;
  templatePresetKey := templatePresetKey s; localIdSeed := localIdSeed s; toasts := toasts s; saved := saved s |}.

Definition setOperationSearch (search : jstring) (s : DialogState) : DialogState := {|
  ds_editor := ds_editor s; operationSearch := search; selectedOperationId := selectedOperationId s;
  expandedConditions := expandedConditions s; draggedOperationId := draggedOperationId s;
  dragOverOperationId := dragOverOperationId s; dragOverPosition := dragOverPosition s;
  templatePresetKey := templatePresetKey s; localIdSeed := localIdSeed s; toasts := toasts s; saved := saved s |}.

Definition setSelectedOperationId (id : jstring) (s : DialogState) : DialogState := {|
  ds_editor := ds_editor s; operationSearch := operationSearch s; selectedOperationId := id;
  expandedConditions := expandedConditions s; draggedOperationId := draggedOperationId s;
  dragOverOperationId := dragOverOperationId s; dragOverPosition := dragOverPosition s;
  templatePresetKey := templatePresetKey s; localIdSeed := localIdSeed s; toasts := toasts s; saved := saved s |}.

Definition setExpandedConditions (expanded : list (jstring * bool)) (s : DialogState) : DialogState := {|
  ds_editor := ds_editor s; operationSearch := operationSearch s; selectedOperationId := selectedOperationId s;
  expandedConditions := expanded; draggedOperationId := draggedOperationId s;
  dragOverOperationId := dragOverOperationId s; dragOverPosition := dragOverPosition s;
  templatePresetKey := templatePresetKey s; localIdSeed := localIdSeed s; toasts := toasts s; saved := saved s |}.

Definition setDrag (dragged over : jstring) (position : DropPosition) (s : DialogState) : DialogState := {|
  ds_editor := ds_editor s; operationSearch := operationSearch s; selectedOperationId := selectedOperationId s;
  expandedConditions := expandedConditions s; draggedOperationId := dragged; dragOverOperationId := over;
  dragOverPosition := position; templatePresetKey := templatePresetKey s; localIdSeed := localIdSeed s; toasts := toasts s;
  saved := saved s |}.

Definition setTemplatePresetKey (key : jstring) (s : DialogState) : DialogState := {|
  ds_editor := ds_editor s; operationSearch := operationSearch s; selectedOperationId := selectedOperationId s;
  expandedConditions := expandedConditions s; draggedOperationId := draggedOperationId s;
  dragOverOperationId := dragOverOperationId s; dragOverPosition := dragOverPosition s; templatePresetKey := key;
  localIdSeed := localIdSeed s; toasts := toasts s; saved := saved s |}.

Definition setSeed (seed : nat) (s : DialogState) : DialogState := {|
  ds_editor := ds_editor s; operationSearch := operationSearch s; selectedOperationId := selectedOperationId s;
  expandedConditions := expandedConditions s; draggedOperationId := draggedOperationId s;
  dragOverOperationId := dragOverOperationId s; dragOverPosition := dragOverPosition s;
  templatePresetKey := templatePresetKey s; localIdSeed := seed; toasts := toasts s; saved := saved s |}.

(** [toast.error(message)] *)
Definition toast (message : jstring) (s : DialogState) : DialogState := {|
  ds_editor := ds_editor s; operationSearch := operationSearch s; selectedOperationId := selectedOperationId s;
  expandedConditions := expandedConditions s; draggedOperationId := draggedOperationId s;
  dragOverOperationId := dragOverOperationId s; dragOverPosition := dragOverPosition s;
  templatePresetKey := templatePresetKey s; localIdSeed := localIdSeed s; toasts := toasts s ++ [message]; saved := saved s |}.

(** [props.onSave(result)], and the dialog is closed. *)
Definition save (result : jstring) (s : DialogState) : DialogState := {|
  ds_editor := ds_editor s; operationSearch := operationSearch s; selectedOperationId := selectedOperationId s;
  expandedConditions := expandedConditions s; draggedOperationId := draggedOperationId s;
  dragOverOperationId := dragOverOperationId s; dragOverPosition := dragOverPosition s;
  templatePresetKey := templatePresetKey s; localIdSeed := localIdSeed s; toasts := toasts s; saved := Some result |}.

Definition ops (s : DialogState) : list ParamOverrideOperation := operations (ds_editor s).

Definition setOperations (l : list ParamOverrideOperation) (s : DialogState) : DialogState :=
  let e := ds_editor s in
  setEditor {| editMode := editMode e; visualMode := visualMode e; legacyValue := legacyValue e; operations := l;
               jsonText := jsonText e; jsonError := jsonError e |} s.

Definition setLegacyValue (value : jstring) (s : DialogState) : DialogState :=
  let e := ds_editor s in
  setEditor {| editMode := editMode e; visualMode := visualMode e; legacyValue := value; operations := operations e;
               jsonText := jsonText e; jsonError := jsonError e |} s.

Definition setJson (text error : jstring) (s : DialogState) : DialogState :=
  let e := ds_editor s in
  setEditor {| editMode := editMode e; visualMode := visualMode e; legacyValue := legacyValue e; operations := operations e;
               jsonText := text; jsonError := error |} s.

Definition setEditMode (mode : EditMode) (s : DialogState) : DialogState :=
  let e := ds_editor s in
  setEditor {| editMode := mode; visualMode := visualMode e; legacyValue := legacyValue e; operations := operations e;
               jsonText := jsonText e; jsonError := jsonError e |} s.

(** The selected rule is one of the list: the effect that runs after every change. *)
Definition keep_selected (s : DialogState) : DialogState :=
  match ops s with
  | [] => setSelectedOperationId [] s
  | o :: _ => if existsb (has_op_id (selectedOperationId s)) (ops s) then s else setSelectedOperationId (op_id o) s
  end.

(** ** Changes of one rule *)

(** The changes that the forms make: [Partial<ParamOverrideOperation>]. *)
Inductive OperationPatch :=
  | patch_mode (mode : jstring) | patch_path (path : jstring) | patch_description (description : jstring)
  | patch_value_text (value_text : jstring) | patch_keep_origin (keep_origin : bool) | patch_from (from : jstring)
  | patch_to (to : jstring) | patch_ends (from to : jstring) | patch_logic (logic : jstring).

Definition with_fields (description path mode from to value_text : jstring) (keep_origin : bool) (logic : jstring)
  (o : ParamOverrideOperation) : ParamOverrideOperation := {|
  op_id := op_id o; op_description := description; op_path := path; op_mode := mode; op_from := from; op_to := to;
  op_value_text := value_text; op_keep_origin := keep_origin; op_logic := logic; op_conditions := op_conditions o |}.

Definition apply_patch (patch : OperationPatch) (o : ParamOverrideOperation) : ParamOverrideOperation :=
  let '(Build_ParamOverrideOperation id description path mode from to value_text keep_origin logic conditions) := o in
  match patch with
  | patch_mode mode => with_fields description path mode from to value_text keep_origin logic o
  | patch_path path => with_fields description path mode from to value_text keep_origin logic o
  | patch_description description => with_fields description path mode from to value_text keep_origin logic o
  | patch_value_text value_text => with_fields description path mode from to value_text keep_origin logic o
  | patch_keep_origin keep_origin => with_fields description path mode from to value_text keep_origin logic o
  | patch_from from => with_fields description path mode from to value_text keep_origin logic o
  | patch_to to => with_fields description path mode from to value_text keep_origin logic o
  | patch_ends from to => with_fields description path mode from to value_text keep_origin logic o
  | patch_logic logic => with_fields description path mode from to value_text keep_origin logic o
  end.

Definition with_conditions (conditions : list ParamOverrideCondition) (o : ParamOverrideOperation) : ParamOverrideOperation := {|
  op_id := op_id o; op_description := op_description o; op_path := op_path o; op_mode := op_mode o; op_from := op_from o;
  op_to := op_to o; op_value_text := op_value_text o; op_keep_origin := op_keep_origin o; op_logic := op_logic o;
  op_conditions := conditions |}.

(** [Partial<ParamOverrideCondition>], and [Partial<PruneRule>]. *)
Inductive ConditionPatch :=
  | cond_path (path : jstring) | cond_mode (mode : jstring) | cond_value_text (value_text : jstring)
  | cond_invert (invert : bool) | cond_pass_missing_key (pass_missing_key : bool).

Definition apply_condition_patch (patch : ConditionPatch) (c : ParamOverrideCondition) : ParamOverrideCondition :=
  let fields (path mode value_text : jstring) (invert pass : bool) := {|
    pc_id := pc_id c; pc_path := path; pc_mode := mode; pc_value_text := value_text; pc_invert := invert; pc_pass_missing_key := pass |} in
  let '(Build_ParamOverrideCondition _ path mode value_text invert pass) := c in
  match patch with
  | cond_path path => fields path mode value_text invert pass
  | cond_mode mode => fields path mode value_text invert pass
  | cond_value_text value_text => fields path mode value_text invert pass
  | cond_invert invert => fields path mode value_text invert pass
  | cond_pass_missing_key pass => fields path mode value_text invert pass
  end.

(** [Partial<ReturnErrorDraft>]: the changes of its form. *)
Inductive ReturnErrorPatch :=
  | error_simpleMode (simpleMode : bool) | error_message (message : jstring) | error_statusCode (statusCode : num)
  | error_code (code : jstring) | error_type (type : jstring) | error_skipRetry (skipRetry : bool)
  | error_preset (statusCode : num) (code type : jstring).

Definition apply_error_patch (patch : ReturnErrorPatch) (d : ReturnErrorDraft) : ReturnErrorDraft :=
  let '(Build_ReturnErrorDraft message statusCode code type skipRetry simpleMode) := d in
  match patch with
  | error_simpleMode simpleMode => Build_ReturnErrorDraft message statusCode code type skipRetry simpleMode
  | error_message message => Build_ReturnErrorDraft message statusCode code type skipRetry simpleMode
  | error_statusCode statusCode => Build_ReturnErrorDraft message statusCode code type skipRetry simpleMode
  | error_code code => Build_ReturnErrorDraft message statusCode code type skipRetry simpleMode
  | error_type type => Build_ReturnErrorDraft message statusCode code type skipRetry simpleMode
  | error_skipRetry skipRetry => Build_ReturnErrorDraft message statusCode code type skipRetry simpleMode
  | error_preset statusCode code type => Build_ReturnErrorDraft message statusCode code type skipRetry simpleMode
  end.

(** [Partial<PruneObjectsDraft>]: the changes of its form but for the rules. *)
Inductive PrunePatch :=
  | prune_simpleMode (simpleMode : bool) | prune_typeText (typeText : jstring) | prune_logic (logic : jstring)
  | prune_recursive (recursive : bool).

Definition apply_prune_patch (patch : PrunePatch) (d : PruneObjectsDraft) : PruneObjectsDraft :=
  let '(Build_PruneObjectsDraft simpleMode typeText logic recursive rules) := d in
  match patch with
  | prune_simpleMode simpleMode => Build_PruneObjectsDraft simpleMode typeText logic recursive rules
  | prune_typeText typeText => Build_PruneObjectsDraft simpleMode typeText logic recursive rules
  | prune_logic logic => Build_PruneObjectsDraft simpleMode typeText logic recursive rules
  | prune_recursive recursive => Build_PruneObjectsDraft simpleMode typeText logic recursive rules
  end.

Definition with_rules (simpleMode : bool) (rules : list PruneRule) (d : PruneObjectsDraft) : PruneObjectsDraft :=
  Build_PruneObjectsDraft simpleMode (pd_typeText d) (pd_logic d) (pd_recursive d) rules.

(** ** Handlers *)

Section dialog.
Variable clock : nat → Z.
Variable toUpperCase : jstring → jstring.
Variable t : jstring → option nat → jstring.

(** A handler that takes identifiers. *)
Definition reading {A} (r : Reading A) (k : A → DialogState → DialogState) (s : DialogState) : option DialogState :=
  '(x, seed) ← r (localIdSeed s); Some (k x (setSeed seed s)).

(** The effect that runs when the dialog opens or its value changes. *)
Definition initialize (value : jstring) : DialogState → option DialogState :=
  reading (parseInitialState clock toUpperCase value) (λ e s, {|
    ds_editor := e; operationSearch := []; selectedOperationId := default [] (op_id <$> head (operations e));
    expandedConditions := []; draggedOperationId := []; dragOverOperationId := []; dragOverPosition := drop_before;
    templatePresetKey := match visualMode e with visual_legacy => "legacy_default" | visual_operations => "operations_default" end;
    localIdSeed := localIdSeed s; toasts := toasts s; saved := None |}).

(** *** Rules *)

Definition updateOperation (operationId : jstring) (patch : OperationPatch) (s : DialogState) : DialogState :=
  setOperations (map (λ o, if has_op_id operationId o then apply_patch patch o else o) (ops s)) s.

(** The button that formats a value: no change when it is not JSON. *)
Definition formatValue (operation : ParamOverrideOperation) (s : DialogState) : DialogState :=
  match JSON_parse (op_value_text operation) with
  | Some parsed => updateOperation (op_id operation) (patch_value_text (pretty parsed)) s
  | None => s
  end.

(** The change of one end of [sync_fields], read with [parseSyncTargetSpec]. *)
Definition updateSyncEnd (toLowerCase : jstring → jstring) (source : bool) (type key : option jstring)
  (operation : ParamOverrideOperation) (s : DialogState) : DialogState :=
  let target := parseSyncTargetSpec toLowerCase (if source then op_from operation else op_to operation) in
  let spec := buildSyncTargetSpec (nullish type (st_type target)) (nullish key (st_key target)) in
  updateOperation (op_id operation) (if source then patch_from spec else patch_to spec) s.

Definition addOperation : DialogState → option DialogState :=
  reading (createDefaultOperation clock toUpperCase) (λ created s,
    setSelectedOperationId (op_id created) (setOperations (ops s ++ [created]) s)).

(** The object that a rule is cloned through. *)
Definition clone_source (source : ParamOverrideOperation) : jval := JObj [
  ("description", JStr (op_description source)); ("path", JStr (op_path source)); ("mode", JStr (op_mode source));
  ("value", parseLooseValue (op_value_text source)); ("keep_origin", JBool (op_keep_origin source));
  ("from", JStr (op_from source)); ("to", JStr (op_to source)); ("logic", JStr (op_logic source));
  ("conditions", JArr (map (λ c, JObj [
     ("path", JStr (pc_path c)); ("mode", JStr (pc_mode c)); ("value", parseLooseValue (pc_value_text c));
     ("invert", JBool (pc_invert c)); ("pass_missing_key", JBool (pc_pass_missing_key c))]) (op_conditions source)))].

Definition duplicateOperation (operationId : jstring) (s : DialogState) : option DialogState :=
  match find_index (has_op_id operationId) (ops s) with
  | None => Some s
  | Some idx =>
    match ops s !! idx with
    | None => Some s
    | Some source =>
      reading (normalizeOperation clock toUpperCase (clone_source source)) (λ cloned s,
        setSelectedOperationId (op_id cloned) (setOperations (take (S idx) (ops s) ++ cloned :: drop (S idx) (ops s)) s)) s
    end
  end.

Definition removeOperation (operationId : jstring) (s : DialogState) : option DialogState :=
  if (length (ops s) <=? 1)%nat then reading (createDefaultOperation clock toUpperCase) (λ created s, setOperations [created] s) s
  else Some (setOperations (filter (λ o, op_id o ≠ operationId) (ops s)) s).

(** *** Conditions *)

Definition addCondition (operationId : jstring) : DialogState → option DialogState :=
  reading (createDefaultCondition clock) (λ created s,
    setExpandedConditions (oset (pc_id created) true (expandedConditions s))
      (setOperations (map (λ op, if has_op_id operationId op then with_conditions (op_conditions op ++ [created]) op else op) (ops s)) s)).

Definition updateCondition (operationId conditionId : jstring) (patch : ConditionPatch) (s : DialogState) : DialogState :=
  setOperations (map (λ op, if has_op_id operationId op
    then with_conditions (map (λ c, if bool_decide (pc_id c = conditionId) then apply_condition_patch patch c else c) (op_conditions op)) op
    else op) (ops s)) s.

Definition removeCondition (operationId conditionId : jstring) (s : DialogState) : DialogState :=
  setOperations (map (λ op, if has_op_id operationId op
    then with_conditions (filter (λ c, pc_id c ≠ conditionId) (op_conditions op)) op else op) (ops s)) s.

(** [onExpandedChange], and the two buttons that change all conditions of the selected rule. *)
Definition setExpanded (conditionId : jstring) (expanded : bool) (s : DialogState) : DialogState :=
  setExpandedConditions (oset conditionId expanded (expandedConditions s)) s.

Definition selectedOperation (s : DialogState) : option ParamOverrideOperation :=
  head (filter (λ o, op_id o = selectedOperationId s) (ops s)).

Definition expandConditions (expanded : bool) (s : DialogState) : DialogState :=
  match selectedOperation s with
  | None => s
  | Some op => setExpandedConditions (fold_left (λ m c, oset (pc_id c) expanded m) (op_conditions op) (expandedConditions s)) s
  end.

(** *** Drafts *)

Definition updateReturnErrorDraft (operationId : jstring) (patch : ReturnErrorPatch) (s : DialogState) : DialogState :=
  setOperations (map (λ op, if has_op_id operationId op
    then apply_patch (patch_value_text (buildReturnErrorValueText (apply_error_patch patch (parseReturnErrorDraft (op_value_text op))))) op
    else op) (ops s)) s.

(** The value of a rule after a change of its draft. *)
Definition update_draft (updater : PruneObjectsDraft → Reading PruneObjectsDraft) (op : ParamOverrideOperation)
  : Reading ParamOverrideOperation := λ seed,
  '(draft, seed) ← parsePruneObjectsDraft clock toUpperCase (op_value_text op) seed;
  '(nextDraft, seed) ← updater draft seed;
  Some (apply_patch (patch_value_text (buildPruneObjectsValueText toUpperCase nextDraft)) op, seed).

Definition updatePruneObjectsDraft (operationId : jstring) (updater : PruneObjectsDraft → Reading PruneObjectsDraft)
  (s : DialogState) : option DialogState :=
  reading (map_reading (λ op, if has_op_id operationId op then update_draft updater op else λ seed, Some (op, seed)) (ops s))
    setOperations s.

(** The draft shown for the selected rule, read with new identifiers when it is rendered. *)
Definition pruneObjectsDraft (s : DialogState) : option (option PruneObjectsDraft * DialogState) :=
  match selectedOperation s with
  | Some op =>
    if bool_decide (op_mode op = "prune_objects") then
      '(draft, seed) ← parsePruneObjectsDraft clock toUpperCase (op_value_text op) (localIdSeed s); Some (Some draft, setSeed seed s)
    else Some (None, s)
  | None => Some (None, s)
  end.

(** A rendering: the initial value of the rules is created again, and dropped. *)
Definition render (s : DialogState) : option (option PruneObjectsDraft * DialogState) :=
  '(_, seed) ← createDefaultOperation clock toUpperCase (localIdSeed s); pruneObjectsDraft (setSeed seed s).

(** A change that takes no identifier. *)
Definition pure_update (f : PruneObjectsDraft → PruneObjectsDraft) (draft : PruneObjectsDraft) : Reading PruneObjectsDraft :=
  λ seed, Some (f draft, seed).

Definition patchPruneObjectsDraft (operationId : jstring) (patch : PrunePatch) : DialogState → option DialogState :=
  updatePruneObjectsDraft operationId (pure_update (apply_prune_patch patch)).

Definition addPruneRule (operationId : jstring) : DialogState → option DialogState :=
  updatePruneObjectsDraft operationId (λ draft seed,
    '(rule, seed) ← normalizePruneRule clock (JObj []) seed;
    Some (with_rules false (pd_rules draft ++ [rule]) draft, seed)).

Definition updatePruneRule (operationId ruleId : jstring) (patch : ConditionPatch) : DialogState → option DialogState :=
  updatePruneObjectsDraft operationId (pure_update (λ draft, with_rules (pd_simpleMode draft)
    (map (λ r, if bool_decide (pc_id r = ruleId) then apply_condition_patch patch r else r) (pd_rules draft)) draft)).

Definition removePruneRule (operationId ruleId : jstring) : DialogState → option DialogState :=
  updatePruneObjectsDraft operationId (pure_update (λ draft, with_rules (pd_simpleMode draft)
    (filter (λ r, pc_id r ≠ ruleId) (pd_rules draft)) draft)).

(** *** Dragging *)

Definition resetDragState (s : DialogState) : DialogState := setDrag [] [] drop_before s.

Definition handleDragStart (operationId : jstring) (s : DialogState) : DialogState :=
  setSelectedOperationId operationId (setDrag operationId (dragOverOperationId s) (dragOverPosition s) s).

Definition handleDragOver (operationId : jstring) (position : DropPosition) (s : DialogState) : DialogState :=
  if negb (truthy (draggedOperationId s)) || bool_decide (draggedOperationId s = operationId) then s
  else setDrag (draggedOperationId s) operationId position s.

(** [data] is the text of the data transfer. *)
Definition handleDrop (operationId data : jstring) (s : DialogState) : DialogState :=
  let sourceId := str_or (draggedOperationId s) data in
  let position := if bool_decide (dragOverOperationId s = operationId) then dragOverPosition s else drop_before in
  resetDragState
    (if truthy sourceId && truthy operationId && negb (bool_decide (sourceId = operationId))
     then setSelectedOperationId sourceId (setOperations (reorderOperations (ops s) sourceId operationId position) s)
     else s).

(** *** Modes, templates, JSON *)

(** The text of the visual editor, or the message of the error thrown. *)
Definition buildVisualJson (e : EditorState) : jstring + jstring :=
  match visualMode e with
  | visual_legacy =>
    let trimmed := trim (legacyValue e) in
    if negb (truthy trimmed) then inl []
    else
      match JSON_parse trimmed with
      | None => inr (t "Parameter override must be valid JSON format" None)
      | Some parsed => if is_object parsed then inl (pretty parsed) else inr (t "Legacy format must be a JSON object" None)
      end
  | visual_operations => buildOperationsJson t (operations e) true
  end.

Definition switchToJsonMode (s : DialogState) : DialogState :=
  let e := ds_editor s in
  match editMode e with
  | edit_json => s
  | edit_visual =>
    setEditMode edit_json
      (match buildVisualJson e with
       | inl text => setJson text [] s
       | inr message =>
         let text := match visualMode e with
                     | visual_legacy => legacyValue e
                     | visual_operations => match buildOperationsJson t (operations e) false with inl text => text | inr _ => [] end
                     end in
         setJson text (str_or message (t "Parameter configuration error" None)) (toast message s)
       end)
  end.

(** The editor after a change of the rules in the visual mode. *)
Definition visual_state (mode : VisualMode) (legacy : jstring) (l : list ParamOverrideOperation) (json : jstring) : EditorState := {|
  editMode := edit_visual; visualMode := mode; legacyValue := legacy; operations := l; jsonText := json; jsonError := [] |}.

(** [setOperations(l); setSelectedOperationId(l[0]?.id || '')] among others. *)
Definition show_operations (mode : VisualMode) (legacy json : jstring) (l : list ParamOverrideOperation) (s : DialogState) : DialogState :=
  setSelectedOperationId (default [] (op_id <$> head l)) (setEditor (visual_state mode legacy l json) s).

Definition switchToVisualMode (s : DialogState) : option DialogState :=
  let e := ds_editor s in
  match editMode e with
  | edit_visual => Some s
  | edit_json =>
    let trimmed := trim (jsonText e) in
    let default_operation := createDefaultOperation clock toUpperCase in
    if negb (truthy trimmed) then
      reading default_operation (λ fallback, show_operations visual_operations [] (jsonText e) [fallback]) s
    else
      match JSON_parse trimmed with
      | None => Some (toast (t "Parameter override must be valid JSON format" None) s)
      | Some parsed =>
        match parsed_operations parsed with
        | Some l =>
          reading (read_operations clock toUpperCase l) (λ nextOps s,
            setTemplatePresetKey "operations_default" (show_operations visual_operations [] (jsonText e) nextOps s)) s
        | None =>
          if is_object parsed then
            reading default_operation (λ fallback s,
              setTemplatePresetKey "legacy_default" (show_operations visual_legacy (pretty parsed) (jsonText e) [fallback] s)) s
          else Some (toast (t "Parameter override must be a valid JSON object" None) s)
        end
      end
  end.

(** The legacy text with the defaults of a template, when the current one can be read. *)
Definition merged_legacy (payload : jval) (legacy : jstring) : option jstring :=
  let trimmed := trim legacy in
  parsedCurrent ← (if truthy trimmed then JSON_parse trimmed else Some (JObj []));
  Some (pretty (JObj (obj_spread (obj_spread [] (props payload)) (spread_entries parsedCurrent)))).

Definition fillTemplate (append : bool) (s : DialogState) : option DialogState :=
  let e := ds_editor s in
  let preset := nullish (oget (templatePresetKey s) TEMPLATE_PRESET_CONFIG)
    {| tp_label := "New Format Template"; tp_legacy := false; tp_payload := OPERATION_TEMPLATE |} in
  let payload := tp_payload preset in
  let legacy_text (text : jstring) := reading (createDefaultOperation clock toUpperCase) (λ created s,
    setEditor (visual_state visual_legacy text [created] text) s) s in
  if tp_legacy preset then
    match append, visualMode e with
    | true, visual_legacy =>
      match merged_legacy payload (legacyValue e) with
      | None => Some (toast (t "Current legacy JSON is invalid, cannot append" None) s)
      | Some text => legacy_text text
      end
    | _, _ => legacy_text (pretty payload)
    end
  else
    let operationsPayload := elems (member "operations" payload) in
    if append then
      reading (map_reading (normalizeOperation clock toUpperCase) operationsPayload) (λ appended s,
        let existing := match visualMode e with
                        | visual_operations => filter (λ o, isOperationBlank o = false) (operations e)
                        | visual_legacy => []
                        end in
        show_operations visual_operations [] [] (existing ++ appended) s) s
    else
      reading (read_operations clock toUpperCase operationsPayload) (λ finalOps s,
        show_operations visual_operations (legacyValue e) (pretty (operations_of operationsPayload)) finalOps s) s.

Definition resetEditorState : DialogState → option DialogState :=
  reading (createDefaultOperation clock toUpperCase) (λ fallback s,
    setTemplatePresetKey "operations_default" (show_operations visual_operations [] [] [fallback] s)).

Definition handleJsonChange (nextValue : jstring) (s : DialogState) : DialogState :=
  let trimmed := trim nextValue in
  setJson nextValue (if negb (truthy trimmed) || verifyJSON trimmed then [] else t "JSON format error" None) s.

Definition formatJson (s : DialogState) : DialogState :=
  let trimmed := trim (jsonText (ds_editor s)) in
  if negb (truthy trimmed) then s
  else
    match JSON_parse trimmed with
    | None => toast (t "Parameter override must be valid JSON format" None) s
    | Some parsed => setJson (pretty parsed) [] s
    end.

Definition visualValidationError (s : DialogState) : jstring :=
  match editMode (ds_editor s) with
  | edit_json => []
  | edit_visual => match buildVisualJson (ds_editor s) with
                   | inl _ => []
                   | inr message => str_or message (t "Parameter configuration error" None)
                   end
  end.

(** What is saved, or the message of the error thrown. *)
Definition save_text (e : EditorState) : jstring + jstring :=
  match editMode e with
  | edit_visual => buildVisualJson e
  | edit_json =>
    let trimmed := trim (jsonText e) in
    if negb (truthy trimmed) then inl []
    else
      match JSON_parse trimmed with
      | None => inr (t "Parameter override must be valid JSON format" None)
      | Some parsed => inl (pretty parsed)
      end
  end.

Definition handleSave (s : DialogState) : DialogState :=
  match save_text (ds_editor s) with inl result => save result s | inr message => toast message s end.

(** ** Steps *)

(** What the user can do; the selected rule is kept valid after every change. *)
Inductive dialog_step (s : DialogState) : DialogState → Prop :=
  | step_pure s' : In s' [formatJson s; switchToJsonMode s; handleSave s; resetDragState s; expandConditions true s; expandConditions false s] →
      dialog_step s (keep_selected s')
  | step_update id patch : (∀ mode, patch = patch_mode mode → mode ∈ OPERATION_MODE_VALUES) →
      dialog_step s (keep_selected (updateOperation id patch s))
  | step_format_value o : o ∈ ops s → dialog_step s (keep_selected (formatValue o s))
  | step_sync lower source type key o : o ∈ ops s → dialog_step s (keep_selected (updateSyncEnd lower source type key o s))
  | step_update_condition id cid patch : (∀ mode, patch = cond_mode mode → mode ∈ CONDITION_MODE_VALUES) →
      dialog_step s (keep_selected (updateCondition id cid patch s))
  | step_remove_condition id cid : dialog_step s (keep_selected (removeCondition id cid s))
  | step_expanded cid expanded : dialog_step s (keep_selected (setExpanded cid expanded s))
  | step_error id patch : dialog_step s (keep_selected (updateReturnErrorDraft id patch s))
  | step_select o : o ∈ ops s → dialog_step s (keep_selected (setSelectedOperationId (op_id o) s))
  | step_search search : dialog_step s (keep_selected (setOperationSearch search s))
  | step_preset key : dialog_step s (keep_selected (setTemplatePresetKey key s))
  | step_legacy value : dialog_step s (keep_selected (setLegacyValue value s))
  | step_json value : dialog_step s (keep_selected (handleJsonChange value s))
  | step_drag_start o : o ∈ ops s → dialog_step s (keep_selected (handleDragStart (op_id o) s))
  | step_drag_over o position : o ∈ ops s → dialog_step s (keep_selected (handleDragOver (op_id o) position s))
  | step_drop o data : o ∈ ops s → dialog_step s (keep_selected (handleDrop (op_id o) data s))
  | step_reading r s' : In r [addOperation s; resetEditorState s; switchToVisualMode s; fillTemplate true s; fillTemplate false s] →
      r = Some s' → dialog_step s (keep_selected s')
  | step_render draft s' : render s = Some (draft, s') → dialog_step s (keep_selected s')
  | step_initialize value s' : initialize value s = Some s' → dialog_step s (keep_selected s')
  | step_duplicate id s' : duplicateOperation id s = Some s' → dialog_step s (keep_selected s')
  | step_remove id s' : removeOperation id s = Some s' → dialog_step s (keep_selected s')
  | step_add_condition id s' : addCondition id s = Some s' → dialog_step s (keep_selected s')
  | step_prune id patch s' : patchPruneObjectsDraft id patch s = Some s' → dialog_step s (keep_selected s')
  | step_add_rule id s' : addPruneRule id s = Some s' → dialog_step s (keep_selected s')
  | step_update_rule id rid patch s' : updatePruneRule id rid patch s = Some s' → dialog_step s (keep_selected s')
  | step_remove_rule id rid s' : removePruneRule id rid s = Some s' → dialog_step s (keep_selected s').

(** The state of the component before its effects have run. *)
Definition mounted (created : ParamOverrideOperation) (seed : nat) : DialogState := {|
  ds_editor := visual_state visual_operations [] [created] []; operationSearch := []; selectedOperationId := [];
  expandedConditions := []; draggedOperationId := []; dragOverOperationId := []; dragOverPosition := drop_before;
  templatePresetKey := "operations_default"; localIdSeed := seed; toasts := []; saved := None |}.

Inductive dialog_reachable : DialogState → Prop :=
  | reach_mounted seed seed' created : createDefaultOperation clock toUpperCase seed = Some (created, seed') →
      dialog_reachable (keep_selected (mounted created seed'))
  | reach_step s s' : dialog_reachable s → dialog_step s s' → dialog_reachable s'.
End dialog.
