(* ===== verification/ParamOverrideDialog.v ===== *)
(** * ParamOverrideDialog: properties of the dialog for override rules

    The rules of the dialog of [ParamOverrideEditor] in every reachable state
    ([dialog_sound]), where a dragged rule goes ([dropped_rule_moves]), what both
    modes save ([json_mode_saves_same]), and the rules of the form of
    [prune_objects], which no handler finds ([prune_rules_frozen]). *)
From stdpp Require Import relations.
From S2P Require Import Prelude JsString JsNumber JsFloat JsValue JsJson ParamOverride ParamOverrideSaved ParamOverrideEditor.

(** ** Identifiers *)

Section identifiers.
Variable clock : nat → Z.
Variable toUpperCase : jstring → jstring.
Variable t : jstring → option nat → jstring.

(** The identifier with a number. *)
Definition id_of (k : nat) : jstring := (nextLocalId clock k).1.

Lemma Z_to_js_plain z : 95%N ∉ Z_to_js z.
Proof.
  assert (∀ n, 95%N ∉ N_to_js n) as H by (intros n; eapply all_digits_not_in; [apply all_digits_N_to_js|reflexivity]).
  destruct z as [|p|p]; cbn [Z_to_js]; [by apply has_spec_false|apply H|]. apply not_elem_of_app. split; [by apply has_spec_false|apply H].
Qed.

Lemma id_of_inj j k : id_of j = id_of k → j = k.
Proof.
  unfold id_of, nextLocalId. cbn [fst]. intros E%(app_inv_head "po_").
  assert (∀ a b x y : jstring, 95%N ∉ a → 95%N ∉ b → a ++ 95%N :: x = b ++ 95%N :: y → x = y) as H.
  { clear. induction a as [|c a IH]; intros [|d b] x y Ha Hb E; cbn [app] in E; injection E.
    - done.
    - intros _ <-. destruct Hb. by left.
    - intros _ ->. destruct Ha. by left.
    - intros E' _. apply not_elem_of_cons in Ha as [_ Ha], Hb as [_ Hb]. by eapply IH. }
  apply H, N_to_js_inj in E; [lia|apply Z_to_js_plain..].
Qed.

(** Distinct identifiers with numbers in a range. *)
Definition ids_in (a b : nat) (l : list jstring) : Prop := NoDup l ∧ Forall (λ i, ∃ k, a <= k < b ∧ i = id_of k) l.

Lemma ids_in_mono a b a' b' l : a' <= a → b <= b' → ids_in a b l → ids_in a' b' l.
Proof. intros Ha Hb [H1 H2]. split; [done|]. eapply Forall_impl; [exact H2|]. intros i (k & Hk & ->). exists k. split; [lia|done]. Qed.

Lemma ids_in_app a b c l l' : a <= b → b <= c → ids_in a b l → ids_in b c l' → ids_in a c (l ++ l').
Proof.
  intros Hab Hbc H H'. pose proof (ids_in_mono a b a c l ltac:(lia) ltac:(lia) H) as [_ H1].
  pose proof (ids_in_mono b c a c l' ltac:(lia) ltac:(lia) H') as [_ H2]. split; [|by apply Forall_app].
  apply NoDup_app. split_and!; [apply H| |apply H']. intros i Hi Hi'. destruct H as [_ H], H' as [_ H'].
  rewrite Forall_forall in H, H'. destruct (H i Hi) as (j & Hj & ->), (H' _ Hi') as (k & Hk & E%id_of_inj). lia.
Qed.

Lemma ids_in_single k b : k < b → ids_in k b [id_of k].
Proof. intros. split; [apply NoDup_singleton|]. constructor; [|constructor]. exists k. split; [lia|done]. Qed.

Lemma ids_in_filter {A} a b (f : A → jstring) (P : A → Prop) `{∀ x, Decision (P x)} l :
  ids_in a b (map f l) → ids_in a b (map f (filter P l)).
Proof.
  intros [H1 H2]. split.
  - by apply NoDup_map_filter.
  - apply Forall_forall. intros i (x & -> & [_ Hx]%list_elem_of_filter)%list_elem_of_fmap.
    rewrite Forall_forall in H2. by apply H2, list_elem_of_fmap_2.
Qed.

(** *** What reading gives *)

(** A property of what is read, with the numbers of its identifiers. *)
Lemma map_reading_inv {A B} (f : A → Reading B) (P : B → Prop) (key : B → jstring) l seed ys seed' :
  (∀ x seed y seed', x ∈ l → f x seed = Some (y, seed') → seed < seed' ∧ key y = id_of seed ∧ P y) →
  map_reading f l seed = Some (ys, seed') → seed + length l <= seed' ∧ length ys = length l ∧ ids_in seed seed' (map key ys) ∧ Forall P ys.
Proof.
  revert seed ys. induction l as [|x l IH]; intros seed ys Hf; cbn [map_reading].
  - intros [= <- <-]. split_and!; [cbn; lia|done|split; [constructor|constructor]|constructor].
  - destruct (f x seed) as [[y seed1]|] eqn:E; [|done]. cbn [mbind option_bind].
    destruct (map_reading f l seed1) as [[ys' seed2]|] eqn:E2; [|done]. cbn [mbind option_bind]. intros [= <- <-].
    destruct (Hf x seed y seed1 ltac:(left) E) as (H1 & H2 & H3).
    destruct (IH seed1 ys') as (H4 & H5 & H6 & H7); [|done|].
    { intros x' s' y' s'' Hx. apply Hf. by right. }
    cbn [length map]. split_and!; [lia|lia| |by constructor]. rewrite H2. apply (ids_in_app seed seed1 seed2 [id_of seed]); [lia..| |done].
    by apply ids_in_single.
Qed.

Definition condition_wf (c : ParamOverrideCondition) : Prop := pc_mode c ∈ CONDITION_MODE_VALUES.

Lemma known_mode_in modes d v : d ∈ modes → known_mode modes d v ∈ modes.
Proof. intros Hd. destruct v; try done. cbn. destruct (has s modes) eqn:E; [by apply has_spec|done]. Qed.

Lemma normalizeCondition_inv v seed c seed' : normalizeCondition clock v seed = Some (c, seed') →
  seed' = S seed ∧ pc_id c = id_of seed ∧ condition_wf c.
Proof.
  pose proof (known_mode_in CONDITION_MODE_VALUES "full" (member "mode" v) ltac:(by apply (bool_decide_unpack _))) as Hk.
  unfold normalizeCondition, nextLocalId. destruct v; try done; intros [= <- <-]; (split_and!; [done..|]); exact Hk.
Qed.

(** A rule with a known mode and distinct conditions whose identifiers are before [seed]. *)
Definition operation_wf (seed : nat) (o : ParamOverrideOperation) : Prop :=
  op_mode o ∈ OPERATION_MODE_VALUES ∧ ids_in 0 seed (map pc_id (op_conditions o)) ∧ Forall condition_wf (op_conditions o).

Lemma operation_wf_mono a b o : a <= b → operation_wf a o → operation_wf b o.
Proof. intros Hab (H1 & H2 & H3). split_and!; [done| |done]. by eapply (ids_in_mono 0 a 0 b). Qed.

Lemma normalizeOperation_inv v seed o seed' : normalizeOperation clock toUpperCase v seed = Some (o, seed') →
  seed < seed' ∧ op_id o = id_of seed ∧ operation_wf seed' o.
Proof.
  unfold normalizeOperation, nextLocalId. set (conditions := match member "conditions" v with JArr l => _ | _ => _ end).
  assert (∀ cs s, conditions = Some (cs, s) → seed < s ∧ ids_in 0 s (map pc_id cs) ∧ Forall condition_wf cs) as Hcs.
  { intros cs s. unfold conditions. destruct (member "conditions" v) as [| | | | |l|]; try (intros [= <- <-]; split_and!; [lia|by split; constructor|constructor]).
    intros E. apply (map_reading_inv (normalizeCondition clock) condition_wf pc_id) in E as (H1 & _ & H2 & H3).
    - split_and!; [lia| |done]. by apply (ids_in_mono (S seed) s 0 s); [lia|lia|].
    - intros x s0 y s1 _ (-> & ? & ?)%normalizeCondition_inv. split_and!; [lia|done..]. }
  pose proof (known_mode_in OPERATION_MODE_VALUES "set" (member "mode" v) ltac:(by apply (bool_decide_unpack _))) as Hk.
  destruct conditions as [[cs s]|]; [|by destruct v]. destruct (Hcs cs s eq_refl) as (H1 & H2 & H3). cbn [mbind option_bind].
  destruct v; try done; intros [= <- <-]; (split_and!; [done..|]); (split_and!; [exact Hk|done..]).
Qed.

(** Rules with distinct identifiers before [seed]. *)
Definition rules_wf (seed : nat) (l : list ParamOverrideOperation) : Prop := ids_in 0 seed (map op_id l) ∧ Forall (operation_wf seed) l.

Lemma read_rules_inv l seed ys seed' : map_reading (normalizeOperation clock toUpperCase) l seed = Some (ys, seed') →
  seed + length l <= seed' ∧ length ys = length l ∧ ids_in seed seed' (map op_id ys) ∧ Forall (operation_wf seed') ys.
Proof.
  revert seed ys. induction l as [|v l IH]; intros seed ys; cbn [map_reading].
  - intros [= <- <-]. split_and!; [cbn; lia|done|split; constructor|constructor].
  - destruct (normalizeOperation clock toUpperCase v seed) as [[o seed1]|] eqn:E; [|done]. cbn [mbind option_bind].
    destruct (map_reading _ l seed1) as [[ys' seed2]|] eqn:E2; [|done]. cbn [mbind option_bind]. intros [= <- <-].
    apply normalizeOperation_inv in E as (H1 & H2 & H3). destruct (IH seed1 ys' E2) as (H4 & H5 & H6 & H7).
    cbn [length map]. split_and!; [lia|lia| |].
    + rewrite H2. apply (ids_in_app seed seed1 seed2 [id_of seed]); [lia..| |done]. by apply ids_in_single.
    + constructor; [|done]. by eapply operation_wf_mono; [|exact H3]; lia.
Qed.

Lemma default_inv seed o seed' : createDefaultOperation clock toUpperCase seed = Some (o, seed') →
  seed < seed' ∧ op_id o = id_of seed ∧ operation_wf seed' o.
Proof. apply normalizeOperation_inv. Qed.

Lemma read_operations_inv l seed ys seed' : read_operations clock toUpperCase l seed = Some (ys, seed') →
  seed <= seed' ∧ ys ≠ [] ∧ ids_in seed seed' (map op_id ys) ∧ Forall (operation_wf seed') ys.
Proof.
  unfold read_operations. destruct l as [|v l].
  - destruct (createDefaultOperation clock toUpperCase seed) as [[o s]|] eqn:E; [|done]. cbn [mbind option_bind]. intros [= <- <-].
    apply default_inv in E as (H1 & H2 & H3). split_and!; [lia|done| |by constructor]. cbn [map]. rewrite H2. by apply ids_in_single.
  - intros (H1 & H2 & H3 & H4)%read_rules_inv. cbn [length] in H1, H2. split_and!; [lia| |done|done]. by destruct ys.
Qed.

(** ** The rules of the dialog *)

Lemma rules_wf_mono a b l : a <= b → rules_wf a l → rules_wf b l.
Proof.
  intros Hab [H1 H2]. split; [by apply (ids_in_mono 0 a 0 b); [lia..|]|]. eapply Forall_impl; [exact H2|].
  intros o. by apply operation_wf_mono.
Qed.

(** Rules appended with later identifiers. *)
Lemma rules_wf_app a b l l' : rules_wf a l → a <= b → ids_in a b (map op_id l') → Forall (operation_wf b) l' → rules_wf b (l ++ l').
Proof.
  intros [H1 H2] Hab H3 H4. split.
  - rewrite map_app. apply (ids_in_app 0 a b); [lia|lia|done..].
  - apply Forall_app. split; [|done]. by apply (rules_wf_mono a b l).
Qed.

Lemma rules_wf_perm a l l' : l ≡ₚ l' → rules_wf a l → rules_wf a l'.
Proof. intros E [[H1 H2] H3]. assert (map op_id l ≡ₚ map op_id l') as E' by by apply fmap_Permutation. split; [split|]; by rewrite <- ?E', <- ?E. Qed.

Lemma rules_wf_filter (P : ParamOverrideOperation → Prop) `{∀ o, Decision (P o)} a l : rules_wf a l → rules_wf a (filter P l).
Proof. intros [H1 H2]. split; [by apply ids_in_filter|]. rewrite Forall_forall in *. intros o [_ Ho]%list_elem_of_filter. auto. Qed.

(** A change of rules that keeps their identifiers. *)
Lemma rules_wf_map f a l : (∀ o, op_id (f o) = op_id o) → (∀ o, operation_wf a o → operation_wf a (f o)) → rules_wf a l → rules_wf a (map f l).
Proof.
  intros Hid Hwf [H1 H2]. split.
  - assert (map op_id (map f l) = map op_id l) as -> by (rewrite map_map; by apply map_ext). done.
  - apply Forall_fmap. eapply Forall_impl; [exact H2|]. apply Hwf.
Qed.

Lemma rules_wf_map_if id f a l : (∀ o, op_id (f o) = op_id o) → (∀ o, operation_wf a o → operation_wf a (f o)) → rules_wf a l →
  rules_wf a (map (λ o, if has_op_id id o then f o else o) l).
Proof. intros Hid Hwf. apply rules_wf_map; intros o; destruct (has_op_id id o); auto. Qed.

Lemma patch_id patch o : op_id (apply_patch patch o) = op_id o.
Proof. by destruct o, patch. Qed.

Lemma patch_wf a patch o : (∀ mode, patch = patch_mode mode → mode ∈ OPERATION_MODE_VALUES) → operation_wf a o → operation_wf a (apply_patch patch o).
Proof. intros Hm (H1 & H2 & H3). split; [|by destruct o, patch]. destruct o, patch; try exact H1. by apply Hm. Qed.

Lemma value_patch_wf a text o : operation_wf a o → operation_wf a (apply_patch (patch_value_text text) o).
Proof. by apply patch_wf. Qed.

Lemma conditions_wf a cs o : ids_in 0 a (map pc_id cs) → Forall condition_wf cs → operation_wf a o → operation_wf a (with_conditions cs o).
Proof. intros ?? (H1 & _). by split_and!. Qed.

(** Rules whose values are rewritten one after the other, taking identifiers. *)
Lemma rules_wf_reading (f : ParamOverrideOperation → Reading ParamOverrideOperation) l seed l' seed' a :
  (∀ o s o' s', f o s = Some (o', s') → s <= s' ∧ op_id o' = op_id o ∧ op_mode o' = op_mode o ∧ op_conditions o' = op_conditions o) →
  map_reading f l seed = Some (l', seed') → seed <= seed' ∧ length l' = length l ∧ (rules_wf a l → rules_wf a l').
Proof.
  intros Hf. assert (∀ l seed l', map_reading f l seed = Some (l', seed') → seed <= seed' ∧
    map op_id l' = map op_id l ∧ (Forall (operation_wf a) l → Forall (operation_wf a) l')) as H.
  { clear l seed l'. induction l as [|o l IH]; intros seed l'; cbn [map_reading].
    - by intros [= <- <-].
    - destruct (f o seed) as [[o' s]|] eqn:E; [|done]. cbn [mbind option_bind]. destruct (map_reading f l s) as [[ys s']|] eqn:E2; [|done].
      cbn [mbind option_bind]. intros [= <- <-]. apply Hf in E as (H1 & H2 & H3 & H4). apply IH in E2 as (H5 & H6 & H7).
      split_and!; [lia|cbn [map]; by rewrite H2, H6|]. intros [Ho Hl]%Forall_cons. constructor; [|auto].
      destruct Ho as (? & ? & ?). unfold operation_wf. rewrite H3, H4. done. }
  intros E. apply H in E as (H1 & H2 & H3). split_and!; [done| |].
  - by rewrite <- (length_map op_id l'), H2, length_map.
  - intros [H4 H5]. split; [by rewrite H2|auto].
Qed.

(** *** Moving a rule *)

Lemma reorder_perm l a b position : reorderOperations l a b position ≡ₚ l.
Proof.
  unfold reorderOperations. destruct (_ || _ || _); [done|]. destruct (find_index _ l) as [i|]; [|done].
  destruct (l !! i) as [moved|] eqn:E; [|done]. destruct (find_index _ (delete i l)) as [j|]; [|done].
  generalize (match position with drop_before => j | drop_after => S j end). intros k.
  rewrite <- Permutation_middle, take_drop, <- (delete_Permutation l i moved E). done.
Qed.


(** *** Drafts *)

Lemma entry_rules_inv v seed rules seed' : entry_rules clock v seed = Some (rules, seed') → seed <= seed' ∧ ids_in seed seed' (map pc_id rules).
Proof.
  intros E. apply (map_reading_inv _ (λ _, True) pc_id) in E as (H1 & _ & H2 & _); [split; [lia|done]|].
  intros [k w] s c s' _ (-> & -> & _)%normalizeCondition_inv. split_and!; [lia|done..].
Qed.

Lemma prune_rules_inv v seed rules seed' : prune_rules clock v seed = Some (rules, seed') → seed <= seed' ∧ ids_in seed seed' (map pc_id rules).
Proof.
  unfold prune_rules. destruct (entry_rules clock (member "where" v) seed) as [[l1 s1]|] eqn:E1; [|done]. cbn [mbind option_bind].
  set (r := match member "conditions" v with JArr l => _ | _ => _ end).
  assert (∀ l s, r = Some (l, s) → s1 <= s ∧ ids_in s1 s (map pc_id l)) as H.
  { intros l s. unfold r. destruct (member "conditions" v); try apply entry_rules_inv. intros E.
    apply (map_reading_inv _ (λ _, True) pc_id) in E as (H1 & _ & H2 & _); [split; [lia|done]|].
    intros x s0 c s' _ (-> & -> & _)%normalizeCondition_inv. split_and!; [lia|done..]. }
  destruct r as [[l2 s2]|]; [|done]. cbn [mbind option_bind]. intros [= <- <-].
  destruct (entry_rules_inv _ _ _ _ E1) as [H1 H2], (H l2 s2 eq_refl) as [H3 H4]. split; [lia|]. rewrite map_app. by apply (ids_in_app seed s1 s2).
Qed.

(** The rules of a draft have new identifiers. *)
Lemma draft_inv text seed d seed' : parsePruneObjectsDraft clock toUpperCase text seed = Some (d, seed') →
  seed <= seed' ∧ ids_in seed seed' (map pc_id (pd_rules d)).
Proof.
  assert (seed <= seed ∧ ids_in seed seed (map pc_id [])) as Hnil by by split; [|split; constructor].
  unfold parsePruneObjectsDraft. destruct (negb _); [by intros [= <- <-]|].
  destruct (JSON_parse (trim text)) as [[]|]; try by intros [= <- <-].
  destruct (prune_rules clock _ seed) as [[rules s]|] eqn:E; [|done]. intros [= <- <-]. by apply prune_rules_inv in E.
Qed.

Lemma map_reading_total {A B} (f : A → Reading B) l : (∀ x seed, x ∈ l → is_Some (f x seed)) → ∀ seed, is_Some (map_reading f l seed).
Proof.
  induction l as [|x l IH]; intros Hf seed; cbn [map_reading]; [done|].
  destruct (Hf x seed ltac:(left)) as [[y s] ->]. cbn [mbind option_bind].
  destruct (IH (λ x s Hx, Hf x s ltac:(by right)) s) as [[ys s'] ->]. done.
Qed.

Lemma entry_rules_total v seed : is_Some (entry_rules clock v seed).
Proof. apply map_reading_total. by intros [k w] s _. Qed.

(** Reading a draft does not throw. *)
Lemma prune_draft_total text seed : is_Some (parsePruneObjectsDraft clock toUpperCase text seed).
Proof.
  unfold parsePruneObjectsDraft. destruct (negb _); [done|]. destruct (JSON_parse (trim text)) as [[| | | | | |o]|]; try done.
  assert (is_Some (prune_rules clock (JObj o) seed)) as [[rules s] ->]; [|done]. unfold prune_rules.
  destruct (entry_rules_total (member "where" (JObj o)) seed) as [[l1 s1] ->]. cbn [mbind option_bind].
  set (r := match member "conditions" (JObj o) with JArr l => _ | _ => _ end).
  assert (is_Some r) as [[l2 s2] ->]; [|done]. unfold r. destruct (member "conditions" (JObj o)) as [| | | | |l|]; try apply entry_rules_total.
  apply map_reading_total. intros x s [Hx _]%list_elem_of_filter. by destruct x.
Qed.

(** *** Steps *)

Definition dialog_wf (s : DialogState) : Prop := ops s ≠ [] ∧ rules_wf (localIdSeed s) (ops s).

(** Identifiers are used up and the rules stay well formed. *)
Definition advances (s s' : DialogState) : Prop := localIdSeed s <= localIdSeed s' ∧ (dialog_wf s → dialog_wf s').

Lemma advances_same s s' : ops s' = ops s → localIdSeed s' = localIdSeed s → advances s s'.
Proof. intros E1 E2. unfold advances, dialog_wf. by rewrite E1, E2. Qed.

Lemma keep_selected_fields s : ops (keep_selected s) = ops s ∧ localIdSeed (keep_selected s) = localIdSeed s.
Proof. unfold keep_selected. destruct (ops s) eqn:E; [by split|]. case_match; by split. Qed.

Lemma advances_keep s s' : advances s s' → advances s (keep_selected s').
Proof. destruct (keep_selected_fields s') as [E1 E2]. unfold advances, dialog_wf. by rewrite E1, E2. Qed.

(** One rule is changed. *)
Lemma advances_map id f s : (∀ o, op_id (f o) = op_id o) → (∀ a o, operation_wf a o → operation_wf a (f o)) →
  advances s (setOperations (map (λ o, if has_op_id id o then f o else o) (ops s)) s).
Proof.
  intros Hid Hwf. split; [done|]. intros [H1 H2]. split; [by unfold ops in *; cbn; destruct (operations _)|].
  apply rules_wf_map_if; auto.
Qed.

Lemma advances_reading {A} (r : Reading A) k s s' : reading r k s = Some s' →
  (∀ x seed, r (localIdSeed s) = Some (x, seed) → localIdSeed s <= seed ∧ localIdSeed (k x (setSeed seed s)) = seed ∧
    (dialog_wf s → ops (k x (setSeed seed s)) ≠ [] ∧ rules_wf seed (ops (k x (setSeed seed s))))) → advances s s'.
Proof.
  unfold reading. destruct (r (localIdSeed s)) as [[x seed]|]; [|done]. intros [= <-] H. destruct (H x seed eq_refl) as (H1 & H2 & H3).
  split; [by rewrite H2|]. unfold dialog_wf at 2. by rewrite H2.
Qed.

(** New rules in place of the others. *)
Lemma advances_rules (r : Reading (list ParamOverrideOperation)) k s s' : reading r k s = Some s' →
  (∀ l seed, r (localIdSeed s) = Some (l, seed) → localIdSeed s <= seed ∧ l ≠ [] ∧ ids_in (localIdSeed s) seed (map op_id l) ∧ Forall (operation_wf seed) l) →
  (∀ l s, ops (k l s) = l ∧ localIdSeed (k l s) = localIdSeed s) → advances s s'.
Proof.
  intros E Hr Hk. eapply advances_reading; [exact E|]. intros l seed (H1 & H2 & H3 & H4)%Hr. destruct (Hk l (setSeed seed s)) as [-> ->].
  split_and!; [done..|]. intros _. split; [done|]. split; [|done]. by apply (ids_in_mono (localIdSeed s) seed 0 seed); [lia..|].
Qed.

(** A default rule in place of the others. *)
Lemma advances_default k s s' : reading (createDefaultOperation clock toUpperCase) k s = Some s' →
  (∀ o s, ops (k o s) = [o] ∧ localIdSeed (k o s) = localIdSeed s) → advances s s'.
Proof.
  intros E Hk. eapply advances_reading; [exact E|]. intros o seed (H1 & H2 & H3)%default_inv. destruct (Hk o (setSeed seed s)) as [-> ->].
  split_and!; [lia|done|]. intros _. split; [done|]. split; [|by constructor]. cbn [map]. rewrite H2.
  apply (ids_in_mono (localIdSeed s) seed 0 seed); [lia..|]. by apply ids_in_single.
Qed.

Lemma initialize_advances value s s' : initialize clock toUpperCase value s = Some s' → advances s s'.
Proof.
  unfold initialize. intros E. eapply advances_reading; [exact E|]. intros e seed Hp. cbn [ops ds_editor localIdSeed setSeed].
  change (ops _) with (operations e).
  assert (localIdSeed s <= seed ∧ operations e ≠ [] ∧ ids_in (localIdSeed s) seed (map op_id (operations e)) ∧ Forall (operation_wf seed) (operations e))
    as (H1 & H2 & H3 & H4).
  { revert Hp. unfold parseInitialState.
    assert (∀ mode visual legacy json error, ('(o, seed) ← createDefaultOperation clock toUpperCase (localIdSeed s);
      Some ({| editMode := mode; visualMode := visual; legacyValue := legacy; operations := [o]; jsonText := json; jsonError := error |}, seed))
      = Some (e, seed) → localIdSeed s <= seed ∧ operations e ≠ [] ∧ ids_in (localIdSeed s) seed (map op_id (operations e)) ∧
      Forall (operation_wf seed) (operations e)) as Hd.
    { intros mode visual legacy json error. destruct (createDefaultOperation _ _ _) as [[o sd]|] eqn:Eo; [|done]. cbn [mbind option_bind].
      intros [= <- <-]. apply default_inv in Eo as (H1 & H2 & H3). cbn [operations map]. rewrite H2. split_and!; [lia|done|by apply ids_in_single|by constructor]. }
    destruct (negb _); [apply Hd|]. destruct (JSON_parse _) as [parsed|]; [|apply Hd]. destruct (parsed_operations parsed) as [l|].
    - destruct (read_operations clock toUpperCase l (localIdSeed s)) as [[ys sd]|] eqn:El; [|done]. cbn [mbind option_bind]. intros [= <- <-].
      by apply read_operations_inv in El.
    - destruct (is_object parsed); apply Hd. }
  split_and!; [done..|]. intros _. split; [done|]. split; [|done]. by apply (ids_in_mono (localIdSeed s) seed 0 seed); [lia..|].
Qed.

Lemma add_advances s s' : addOperation clock toUpperCase s = Some s' → advances s s'.
Proof.
  intros E. eapply advances_reading; [exact E|]. intros o seed (H1 & H2 & H3)%default_inv. split_and!; [lia|done|].
  intros [Hne Hwf]. cbn [ops setSelectedOperationId setOperations setEditor ds_editor operations setSeed localIdSeed]. split; [by intros [? ?]%app_eq_nil|].
  apply (rules_wf_app (localIdSeed s)); [done|lia| |by constructor]. cbn [map]. rewrite H2. by apply ids_in_single.
Qed.

(** A rule put between the others. *)
Lemma rules_wf_insert i o seed a l : rules_wf a l → a <= seed → op_id o = id_of a → a < seed → operation_wf seed o → rules_wf seed (take i l ++ o :: drop i l).
Proof.
  intros Hl Ha Hid Hlt Ho. apply (rules_wf_perm seed (l ++ [o])).
  - rewrite <- (take_drop i l) at 1. rewrite <- Permutation_cons_append. apply Permutation_middle.
  - apply (rules_wf_app a); [done|lia| |by constructor]. cbn [map]. rewrite Hid. by apply ids_in_single.
Qed.

Lemma duplicate_advances id s s' : duplicateOperation clock toUpperCase id s = Some s' → advances s s'.
Proof.
  unfold duplicateOperation. destruct (find_index _ _) as [i|]; [|by intros [= <-]; apply advances_same].
  destruct (ops s !! i) as [source|]; [|by intros [= <-]; apply advances_same]. intros E.
  eapply advances_reading; [exact E|]. intros o seed (H1 & H2 & H3)%normalizeOperation_inv. split_and!; [lia|done|].
  intros [Hne Hwf]. change (ops _) with (take (S i) (ops s) ++ o :: drop (S i) (ops s)). split; [by intros [_ ?]%app_eq_nil|].
  apply (rules_wf_insert (S i) o seed (localIdSeed s)); [done|lia|done|lia|done].
Qed.

Lemma remove_advances id s s' : removeOperation clock toUpperCase id s = Some s' → advances s s'.
Proof.
  unfold removeOperation. destruct (Nat.leb_spec (length (ops s)) 1) as [_|Hl]; [intros E; by eapply advances_default|].
  intros [= <-]. split; [done|]. intros [Hne Hwf]. cbn [ops setOperations setEditor ds_editor operations localIdSeed]. split; [|by apply rules_wf_filter].
  destruct (ops s) as [|o1 [|o2 l]]; [done|cbn in Hl; lia|]. destruct Hwf as [[Hn _] _]. cbn [map] in Hn.
  apply NoDup_cons in Hn as [Hn _]. intros E. assert (∀ o, o ∈ o1 :: o2 :: l → op_id o = id) as Hall.
  { intros o Ho. destruct (decide (op_id o = id)) as [|Hd]; [done|]. assert (o ∈ filter (λ o, op_id o ≠ id) (o1 :: o2 :: l)) as Hin by by apply list_elem_of_filter.
    change (o ∈ ops (setOperations (filter (λ o, op_id o ≠ id) (o1 :: o2 :: l)) s)) in Hin. rewrite E in Hin. by apply elem_of_nil in Hin. }
  apply Hn. rewrite (Hall o1 ltac:(left)), <- (Hall o2 ltac:(right; left)). left.
Qed.

Lemma add_condition_advances id s s' : addCondition clock id s = Some s' → advances s s'.
Proof.
  intros E. eapply advances_reading; [exact E|]. intros c seed (-> & H2 & H3)%normalizeCondition_inv. split_and!; [lia|done|].
  intros [Hne Hwf]. cbn [ops setExpandedConditions setOperations setEditor ds_editor operations setSeed localIdSeed].
  split; [by unfold ops in *; destruct (operations _)|]. assert (rules_wf (S (localIdSeed s)) (ops s)) as Hwf' by by apply (rules_wf_mono (localIdSeed s)); [lia|].
  split; [rewrite map_map|]; [|].
  - erewrite map_ext; [apply Hwf'|]. intros o. by destruct (has_op_id id o).
  - apply Forall_fmap. destruct Hwf as [_ Hwf]. eapply Forall_impl; [exact Hwf|]. intros o Ho. cbn.
    destruct (has_op_id id o); [|by apply (operation_wf_mono (localIdSeed s)); [lia|]]. destruct Ho as (Ho1 & Ho2 & Ho3).
    split_and!; [done| |apply Forall_app; by split; [|constructor]]. cbn [with_conditions op_conditions]. rewrite map_app.
    apply (ids_in_app 0 (localIdSeed s)); [lia|lia|done|]. cbn [map]. rewrite H2. apply ids_in_single. lia.
Qed.

Lemma condition_patch_id patch c : pc_id (apply_condition_patch patch c) = pc_id c.
Proof. by destruct c, patch. Qed.

Lemma update_condition_advances id cid patch s : (∀ mode, patch = cond_mode mode → mode ∈ CONDITION_MODE_VALUES) → advances s (updateCondition id cid patch s).
Proof.
  intros Hm. apply advances_map; [done|]. intros a o Ho. pose proof Ho as (_ & H2 & H3). apply conditions_wf; [| |done].
  - rewrite map_map. erewrite map_ext; [exact H2|]. intros c. cbn. case_bool_decide; [apply condition_patch_id|done].
  - apply Forall_fmap. eapply Forall_impl; [exact H3|]. intros c Hc. cbn. case_bool_decide; [|done].
    destruct c, patch; try exact Hc. by apply Hm.
Qed.

Lemma remove_condition_advances id cid s : advances s (removeCondition id cid s).
Proof.
  apply advances_map; [done|]. intros a o Ho. pose proof Ho as (_ & H2 & H3). apply conditions_wf; [by apply ids_in_filter| |done].
  rewrite Forall_forall in *. intros c [_ Hc]%list_elem_of_filter. auto.
Qed.

Lemma update_advances id patch s : (∀ mode, patch = patch_mode mode → mode ∈ OPERATION_MODE_VALUES) → advances s (updateOperation id patch s).
Proof. intros Hm. apply advances_map; [apply patch_id|]. intros a o. by apply patch_wf. Qed.

(** A change of a draft that keeps or takes identifiers. *)
Lemma draft_advances id updater s s' : (∀ d seed d' seed', updater d seed = Some (d', seed') → seed <= seed') →
  updatePruneObjectsDraft clock toUpperCase id updater s = Some s' → advances s s'.
Proof.
  intros Hu E. eapply advances_reading; [exact E|]. intros l seed Hl.
  apply (rules_wf_reading _ _ _ _ _ seed) in Hl as (H1 & H2 & H3).
  - split_and!; [done..|]. intros [Hne Hwf]. change (ops _) with l. split.
    + intros ->. by destruct (ops s).
    + apply H3. by apply (rules_wf_mono (localIdSeed s)).
  - intros o s0 o' s1. destruct (has_op_id id o); [|by intros [= <- <-]]. unfold update_draft.
    destruct (parsePruneObjectsDraft _ _ _ _) as [[d s2]|] eqn:Ed; [|done]. cbn [mbind option_bind].
    destruct (updater d s2) as [[d' s3]|] eqn:Eu; [|done]. cbn [mbind option_bind]. intros [= <- <-].
    apply draft_inv in Ed as [H4 _]. apply Hu in Eu. split_and!; [lia|by destruct o..].
Qed.

Lemma pure_advances id f s s' : updatePruneObjectsDraft clock toUpperCase id (pure_update f) s = Some s' → advances s s'.
Proof. apply draft_advances. by intros d seed d' seed' [= <- <-]. Qed.

Lemma drop_advances id data s : advances s (handleDrop id data s).
Proof.
  split; [unfold handleDrop; by case_match|]. intros [H1 H2]. unfold handleDrop, dialog_wf. case_match; [|by split].
  cbn [ops resetDragState setDrag setSelectedOperationId setOperations setEditor ds_editor operations localIdSeed].
  pose proof (reorder_perm (ops s) (str_or (draggedOperationId s) data) id (if bool_decide (dragOverOperationId s = id) then dragOverPosition s else drop_before)) as Hp.
  split; [|by eapply rules_wf_perm]. intros E. change (operations _) with (ops s) in *. rewrite E in Hp. by apply Permutation_nil_l in Hp.
Qed.

(** Every template but the legacy one has rules. *)
Lemma preset_operations key : let preset := nullish (oget key TEMPLATE_PRESET_CONFIG)
    {| tp_label := "New Format Template"; tp_legacy := false; tp_payload := OPERATION_TEMPLATE |} in
  tp_legacy preset = false → elems (member "operations" (tp_payload preset)) ≠ [].
Proof.
  destruct (oget key TEMPLATE_PRESET_CONFIG) as [preset|] eqn:E; [|done]. apply oget_Some_elem_of in E.
  assert (Forall (λ kv, tp_legacy kv.2 = true ∨ (0 < length (elems (member "operations" (tp_payload kv.2))))%nat) TEMPLATE_PRESET_CONFIG) as H
    by (apply (bool_decide_unpack _); vm_compute; reflexivity).
  rewrite Forall_forall in H. cbn. intros Hl He. destruct (H _ E) as [Hx|Hx]; cbn in Hx; [congruence|]. rewrite He in Hx. cbn in Hx. lia.
Qed.

Lemma template_advances append s s' : fillTemplate clock toUpperCase t append s = Some s' → advances s s'.
Proof.
  unfold fillTemplate. pose proof (preset_operations (templatePresetKey s)) as Hne. cbv zeta in Hne. set (preset := nullish _ _) in *.
  destruct (tp_legacy preset); [clear Hne|specialize (Hne eq_refl)].
  - intros E. assert (∀ text s', reading (createDefaultOperation clock toUpperCase) (λ created s,
      setEditor (visual_state visual_legacy text [created] text) s) s = Some s' → advances s s') as Hd by (intros text s1 E1; by eapply advances_default).
    destruct append; [|by apply Hd in E]. destruct (visualMode (ds_editor s)); [by apply Hd in E|].
    destruct (merged_legacy _ _); [by apply Hd in E|]. injection E as <-. by apply advances_same.
  - destruct append; intros E.
    + eapply advances_reading; [exact E|]. intros l seed (H1 & H2 & H3 & H4)%read_rules_inv. split_and!; [lia|done|].
      intros [_ Hwf]. change (ops _) with (match visualMode (ds_editor s) with visual_operations => filter (λ o, isOperationBlank o = false) (ops s) | visual_legacy => [] end ++ l).
      split.
      * intros [_ ->]%app_eq_nil. by destruct (elems _).
      * apply (rules_wf_app (localIdSeed s)); [|lia|done|done]. destruct (visualMode _); [by apply rules_wf_filter|]. split; [split|]; constructor.
    + eapply advances_rules; [exact E|apply read_operations_inv|]. by intros [].
Qed.

Lemma visual_advances s s' : switchToVisualMode clock toUpperCase t s = Some s' → advances s s'.
Proof.
  unfold switchToVisualMode. destruct (editMode (ds_editor s)); [by intros [= <-]; apply advances_same|].
  destruct (negb _); [intros E; by eapply advances_default|]. destruct (JSON_parse _) as [parsed|]; [|by intros [= <-]; apply advances_same].
  destruct (parsed_operations parsed).
  - intros E. eapply advances_rules; [exact E|apply read_operations_inv|]. by intros [].
  - destruct (is_object parsed); [intros E; by eapply advances_default|by intros [= <-]; apply advances_same].
Qed.

Lemma render_advances s draft s' : pruneObjectsDraft clock toUpperCase s = Some (draft, s') → advances s s'.
Proof.
  unfold pruneObjectsDraft. destruct (selectedOperation s) as [op|]; [|by intros [= <- <-]; apply advances_same].
  case_bool_decide; [|by intros [= <- <-]; apply advances_same]. destruct (parsePruneObjectsDraft _ _ _ _) as [[d seed]|] eqn:E; [|done].
  intros [= <- <-]. apply draft_inv in E as [H1 _]. split; [done|]. intros [H2 H3]. split; [done|]. by apply (rules_wf_mono (localIdSeed s)).
Qed.

Lemma rendering_advances s draft s' : render clock toUpperCase s = Some (draft, s') → advances s s'.
Proof.
  unfold render. destruct (createDefaultOperation _ _ _) as [[o seed]|] eqn:E; [|done]. cbn [mbind option_bind]. intros [H1 H2]%render_advances.
  apply default_inv in E as (H3 & _). cbn in H1. split; [lia|]. intros [H4 H5]. apply H2. split; [done|]. by apply (rules_wf_mono (localIdSeed s)); [cbn; lia|].
Qed.

(** Every step uses up identifiers and keeps the rules well formed. *)
Lemma step_advances s s' : dialog_step clock toUpperCase t s s' → advances s s'.
Proof.
  intros H. destruct H; apply advances_keep.
  - repeat match goal with H : In _ _ |- _ => destruct H as [<-|H]; [|] end; [| | | | | |done];
      apply advances_same; unfold formatJson, switchToJsonMode, handleSave, expandConditions; repeat case_match; done.
  - by apply update_advances.
  - unfold formatValue. destruct (JSON_parse _); [by apply update_advances|by apply advances_same].
  - apply update_advances. by destruct source.
  - by apply update_condition_advances.
  - apply remove_condition_advances.
  - by apply advances_same.
  - apply advances_map; [intros; apply patch_id|]. intros a o'. apply value_patch_wf.
  - by apply advances_same.
  - by apply advances_same.
  - by apply advances_same.
  - by apply advances_same.
  - by apply advances_same.
  - by apply advances_same.
  - unfold handleDragOver. by case_match; apply advances_same.
  - apply drop_advances.
  - repeat match goal with H : In _ _ |- _ => destruct H as [<-|H]; [|] end; [| | | | |done].
    + by apply add_advances.
    + by eapply advances_default.
    + by apply visual_advances.
    + by eapply template_advances.
    + by eapply template_advances.
  - by eapply rendering_advances.
  - by eapply initialize_advances.
  - by eapply duplicate_advances.
  - by eapply remove_advances.
  - by eapply add_condition_advances.
  - by eapply pure_advances.
  - eapply draft_advances; [|done]. intros d seed d' seed'. cbn beta. destruct (normalizePruneRule _ _ _) as [[r sd]|] eqn:E; [|done].
    cbn [mbind option_bind]. intros [= <- <-]. apply normalizeCondition_inv in E as (-> & _). lia.
  - by eapply pure_advances.
  - by eapply pure_advances.
Qed.

Lemma steps_seed s s' : rtc (dialog_step clock toUpperCase t) s s' → localIdSeed s <= localIdSeed s'.
Proof. induction 1 as [|s s1 s' Hs _ IH]; [done|]. apply step_advances in Hs as [? _]. lia. Qed.

Lemma keep_selected_found s : ops s ≠ [] → ∃ o, o ∈ ops s ∧ op_id o = selectedOperationId (keep_selected s).
Proof.
  unfold keep_selected. destruct (ops s) as [|o l] eqn:E; [done|]. intros _. destruct (existsb _ (o :: l)) eqn:Ee.
  - apply existsb_exists in Ee as (o' & Ho' & Hid). exists o'. split; [by apply list_elem_of_In|]. by apply bool_decide_eq_true in Hid.
  - exists o. split; [left|done].
Qed.

Lemma reachable_wf s : dialog_reachable clock toUpperCase t s → dialog_wf s ∧ ∃ o, o ∈ ops s ∧ op_id o = selectedOperationId s.
Proof.
  assert (∀ s, dialog_wf s → dialog_wf (keep_selected s) ∧ ∃ o, o ∈ ops (keep_selected s) ∧ op_id o = selectedOperationId (keep_selected s)) as Hk.
  { intros s1 H. destruct (keep_selected_fields s1) as [E1 E2]. split; [unfold dialog_wf; by rewrite E1, E2|].
    rewrite E1. apply keep_selected_found, H. }
  induction 1 as [seed seed' created E|s s' _ [Hwf _] Hs].
  - apply Hk. apply default_inv in E as (H1 & H2 & H3). split; [done|]. split; [|by constructor]. cbn [ops map]. cbn.
    rewrite H2. apply (ids_in_mono seed seed' 0 seed'); [lia..|]. by apply ids_in_single.
  - pose proof (step_advances s s' Hs) as [_ H]. specialize (H Hwf). split; [done|].
    assert (∃ s1, s' = keep_selected s1) as [s1 ->] by (destruct Hs; by eexists). destruct (keep_selected_fields s1) as [E1 _].
    destruct H as [Hne _]. rewrite E1 in *. by apply keep_selected_found.
Qed.

Lemma filter_unique {A K} (key : A → K) `{EqDecision K} x l : NoDup (map key l) → x ∈ l → filter (λ y, key y = key x) l = [x].
Proof.
  induction l as [|y l IH]; intros Hn Hx; [by apply elem_of_nil in Hx|]. cbn [map] in Hn. apply NoDup_cons in Hn as [Hy Hn].
  apply elem_of_cons in Hx as [->|Hx].
  - rewrite filter_cons_True by done. f_equal. apply elem_of_nil_inv. intros z [E Hz]%list_elem_of_filter. apply Hy. rewrite <- E. by apply list_elem_of_fmap_2.
  - rewrite filter_cons_False; [by apply IH|]. intros E. apply Hy. rewrite E. by apply list_elem_of_fmap_2.
Qed.

(** C10: In every reachable state of the dialog there is a rule, exactly one rule is the
    selected one, all rules and the conditions of each have distinct identifiers, and
    modes are known. *)
Theorem dialog_sound s : dialog_reachable clock toUpperCase t s →
  (∃ op, selectedOperation s = Some op ∧ filter (λ o, op_id o = selectedOperationId s) (ops s) = [op]) ∧
  NoDup (map op_id (ops s)) ∧
  Forall (λ op, op_mode op ∈ OPERATION_MODE_VALUES ∧ NoDup (map pc_id (op_conditions op)) ∧
                Forall (λ c, pc_mode c ∈ CONDITION_MODE_VALUES) (op_conditions op)) (ops s).
Proof.
  intros [[Hne [[Hn _] Hf]] (op & Hop & Hid)]%reachable_wf. split_and!; [|done|].
  - exists op. unfold selectedOperation. rewrite <- Hid, (filter_unique op_id op) by done. by split.
  - eapply Forall_impl; [exact Hf|]. intros o (H1 & [H2 _] & H3). by split_and!.
Qed.

(** Two functions that agree on later identifiers. *)
Lemma map_reading_ext {A B} (f g : A → Reading B) l a seed :
  (∀ x s, a <= s → f x s = g x s) → (∀ x s y s', g x s = Some (y, s') → s <= s') → a <= seed → map_reading f l seed = map_reading g l seed.
Proof.
  intros Hfg Hg. revert seed. induction l as [|x l IH]; intros seed Hs; [done|]. cbn [map_reading]. rewrite Hfg by done.
  destruct (g x seed) as [[y s]|] eqn:E; [|done]. cbn [mbind option_bind]. apply Hg in E. by rewrite IH by lia.
Qed.

Lemma update_draft_mono f op s op' s' : update_draft clock toUpperCase (pure_update f) op s = Some (op', s') → s <= s'.
Proof.
  unfold update_draft. destruct (parsePruneObjectsDraft _ _ _ _) as [[d s1]|] eqn:E; [|done]. cbn. intros [= <- <-]. by apply draft_inv in E as [? _].
Qed.

(** A change that leaves the drafts read from now on as they are. *)
Lemma draft_update_ext id f s :
  (∀ text seed d seed', localIdSeed s <= seed → parsePruneObjectsDraft clock toUpperCase text seed = Some (d, seed') → f d = d) →
  updatePruneObjectsDraft clock toUpperCase id (pure_update f) s = updatePruneObjectsDraft clock toUpperCase id (pure_update (λ d, d)) s.
Proof.
  intros Hf. unfold updatePruneObjectsDraft, reading. rewrite (map_reading_ext _ (λ op, if has_op_id id op then update_draft clock toUpperCase (pure_update (λ d, d)) op
    else λ seed, Some (op, seed)) _ (localIdSeed s)); [done| | |lia].
  - intros op seed Hs. destruct (has_op_id id op); [|done]. unfold update_draft.
    destruct (parsePruneObjectsDraft _ _ _ _) as [[d s1]|] eqn:E; [|done]. cbn. by rewrite (Hf _ _ _ _ Hs E).
  - intros op seed y s'. destruct (has_op_id id op); [apply update_draft_mono|by intros [= <- <-]].
Qed.

Lemma identity_draft_total id s : is_Some (updatePruneObjectsDraft clock toUpperCase id (pure_update (λ d, d)) s).
Proof.
  unfold updatePruneObjectsDraft, reading.
  match goal with |- context [map_reading ?f ?l ?seed] => assert (is_Some (map_reading f l seed)) as [[y seed'] ->]; [|done] end.
  apply map_reading_total. intros op seed _. destruct (has_op_id id op); [|done]. unfold update_draft.
  by destruct (prune_draft_total (op_value_text op) seed) as [[d s1] ->].
Qed.

(** A rule of the shown draft is never changed or removed: it got new identifiers when
    the draft was rendered, and later readings of the draft have others, so that the
    handlers find no rule and only write the text of the value again. *)
Lemma prune_rules_frozen s draft s1 s2 id rule patch :
  pruneObjectsDraft clock toUpperCase s = Some (Some draft, s1) → rule ∈ pd_rules draft → rtc (dialog_step clock toUpperCase t) s1 s2 →
  ∃ s3, updatePruneRule clock toUpperCase id (pc_id rule) patch s2 = Some s3 ∧ removePruneRule clock toUpperCase id (pc_id rule) s2 = Some s3 ∧
    updatePruneObjectsDraft clock toUpperCase id (pure_update (λ d, d)) s2 = Some s3.
Proof.
  intros Hd Hr Hs%steps_seed. assert (∃ k, k < localIdSeed s2 ∧ pc_id rule = id_of k) as (k & Hk & ->).
  { unfold pruneObjectsDraft in Hd. destruct (selectedOperation s) as [op|]; [|done]. case_bool_decide; [|done].
    destruct (parsePruneObjectsDraft _ _ _ _) as [[d seed]|] eqn:E; [|done]. injection Hd as <- <-.
    apply draft_inv in E as (_ & _ & Hf). rewrite Forall_forall in Hf. destruct (Hf (pc_id rule)) as (k & Hk & ->); [by apply list_elem_of_fmap_2|].
    exists k. cbn in Hs. split; [lia|done]. }
  assert (∀ d, id_of k ∉ map pc_id (pd_rules d) → with_rules (pd_simpleMode d)
      (map (λ r, if bool_decide (pc_id r = id_of k) then apply_condition_patch patch r else r) (pd_rules d)) d = d ∧
      with_rules (pd_simpleMode d) (filter (λ r, pc_id r ≠ id_of k) (pd_rules d)) d = d) as Hid.
  { intros [sm tt lg rc rules] Hni. cbn in Hni |- *. unfold with_rules. cbn. split; f_equal.
    - rewrite <- (map_id rules) at 2. apply map_ext_in. intros r Hin%list_elem_of_In. rewrite bool_decide_eq_false_2; [done|].
      intros E. apply Hni. rewrite <- E. by apply list_elem_of_fmap_2.
    - apply filter_all, Forall_forall. intros r Hin E. apply Hni. rewrite <- E. by apply list_elem_of_fmap_2. }
  destruct (identity_draft_total id s2) as [s3 E3]. exists s3. split_and!; [| |done]; rewrite <- E3; apply draft_update_ext;
    intros text seed d seed' Hseed (_ & _ & Hf)%draft_inv; apply Hid; intros (k' & Hk' & E%id_of_inj)%(proj1 (Forall_forall _ _) Hf); lia.
Qed.

(** *** Dragging *)

Lemma find_index_id id l o : NoDup (map op_id l) → o ∈ l → op_id o = id →
  ∃ before after, l = before ++ o :: after ∧ find_index (has_op_id id) l = Some (length before) ∧ Forall (λ o, op_id o ≠ id) (before ++ after).
Proof.
  intros Hn Ho Hid. induction l as [|o' l IH]; [by apply elem_of_nil in Ho|]. cbn [map] in Hn. apply NoDup_cons in Hn as [Hn1 Hn2].
  cbn [find_index]. unfold has_op_id at 1. apply elem_of_cons in Ho as [<-|Ho].
  - exists [], l. rewrite bool_decide_eq_true_2 by done. split_and!; [done..|]. apply Forall_forall. intros o' Ho' E. apply Hn1. rewrite Hid, <- E.
    by apply list_elem_of_fmap_2.
  - destruct (IH Hn2 Ho) as (before & after & -> & E & Hf). exists (o' :: before), after.
    assert (op_id o' ≠ id) as Hne by (intros <-; apply Hn1; rewrite <- Hid; apply list_elem_of_fmap_2; set_solver).
    rewrite bool_decide_eq_false_2, E by done. split_and!; [done..|]. by constructor.
Qed.

(** The moved rule stands before or after the target, and all others as they were. *)
Lemma reorder_spec l source target position :
  NoDup (map op_id l) → source ∈ l → target ∈ l → op_id source ≠ op_id target → op_id source ≠ [] → op_id target ≠ [] →
  ∃ before after, filter (λ o, op_id o ≠ op_id source) l = before ++ target :: after ∧
    reorderOperations l (op_id source) (op_id target) position
    = before ++ match position with drop_before => [source; target] | drop_after => [target; source] end ++ after.
Proof.
  intros Hn Hs Ht Hne Hs0 Ht0. unfold reorderOperations. apply truthy_spec in Hs0 as ->, Ht0 as ->. rewrite bool_decide_eq_false_2 by done. cbn [negb orb].
  destruct (find_index_id (op_id source) l source Hn Hs eq_refl) as (b & a & -> & -> & Hf). rewrite list_lookup_middle by done.
  assert (delete (length b) (b ++ source :: a) = b ++ a) as ->.
  { by rewrite delete_middle. }
  assert (filter (λ o, op_id o ≠ op_id source) (b ++ source :: a) = b ++ a) as ->.
  { rewrite filter_app, filter_cons_False by (by intros []). rewrite <- filter_app. by apply filter_all. }
  assert (NoDup (map op_id (b ++ a))) as Hn'.
  { rewrite map_app in *. cbn [map] in Hn. apply NoDup_app in Hn as (H1 & H2 & H3%NoDup_cons). apply NoDup_app. split_and!; [done| |apply H3].
    intros i Hi Hi'. apply (H2 i Hi). by right. }
  assert (target ∈ b ++ a) as Ht'.
  { apply elem_of_app in Ht as [?|[->|?]%elem_of_cons]; [apply elem_of_app; by left|done|apply elem_of_app; by right]. }
  destruct (find_index_id (op_id target) (b ++ a) target Hn' Ht' eq_refl) as (before & after & E & -> & _). exists before, after.
  split; [done|]. rewrite E. destruct position.
  - by rewrite take_app_length, drop_app_length.
  - change (S (length before)) with (1 + length before). rewrite Nat.add_comm, take_app_add, drop_app_add. cbn. by rewrite <- app_assoc.
Qed.

Lemma id_of_truthy k : id_of k ≠ [].
Proof. done. Qed.

Lemma wf_id_nonempty a l o : rules_wf a l → o ∈ l → op_id o ≠ [].
Proof.
  intros [[_ H] _] Ho. rewrite Forall_forall in H. destruct (H (op_id o)) as (k & _ & ->); [by apply list_elem_of_fmap_2|]. apply id_of_truthy.
Qed.

(** A dragged rule that is dropped on another one stands right before it, or right after
    it when the pointer was over its lower half, the other rules keep their order, and the
    moved rule is the selected one. *)
Lemma dropped_rule_moves s source target data :
  dialog_reachable clock toUpperCase t s → source ∈ ops s → target ∈ ops s → op_id source ≠ op_id target →
  draggedOperationId s = op_id source →
  let s' := handleDrop (op_id target) data s in
  let lower := bool_decide (dragOverOperationId s = op_id target ∧ dragOverPosition s = drop_after) in
  ∃ before after, filter (λ o, op_id o ≠ op_id source) (ops s) = before ++ target :: after ∧
    ops s' = before ++ (if lower then [target; source] else [source; target]) ++ after ∧
    selectedOperation s' = Some source ∧ draggedOperationId s' = [].
Proof.
  intros [[_ Hwf] _]%reachable_wf Hs Ht Hne Hd s' lower. pose proof (wf_id_nonempty _ _ _ Hwf Hs) as Hs0. pose proof (wf_id_nonempty _ _ _ Hwf Ht) as Ht0.
  pose proof Hwf as [[Hn _] _]. set (position := if bool_decide (dragOverOperationId s = op_id target) then dragOverPosition s else drop_before).
  assert (str_or (draggedOperationId s) data = op_id source) as Hstr by (rewrite Hd; by destruct (op_id source)).
  assert (s' = resetDragState (setSelectedOperationId (op_id source) (setOperations (reorderOperations (ops s) (op_id source) (op_id target) position) s))) as ->.
  { unfold s', handleDrop. rewrite Hstr. apply truthy_spec in Hs0 as ->, Ht0 as ->. by rewrite bool_decide_eq_false_2. }
  destruct (reorder_spec (ops s) source target position Hn Hs Ht Hne Hs0 Ht0) as (before & after & E1 & E2). exists before, after. split; [done|].
  unfold selectedOperation.
  change (ops (resetDragState _)) with (reorderOperations (ops s) (op_id source) (op_id target) position).
  change (selectedOperationId (resetDragState _)) with (op_id source). split_and!; [|..|done].
  - rewrite E2. unfold position, lower. destruct (dragOverPosition s); repeat case_bool_decide; naive_solver.
  - pose proof (reorder_perm (ops s) (op_id source) (op_id target) position) as Hp. rewrite (filter_unique op_id source); [done| |].
    + by rewrite Hp.
    + by rewrite Hp.
Qed.
End identifiers.

(** ** Both modes save the same *)

Section modes.
Variable t : jstring → option nat → jstring.

(** A text of JSON is saved from the JSON mode as it is. *)
Lemma json_mode_saves v e error : json_ok v → save_text t {| editMode := edit_json; visualMode := visualMode e; legacyValue := legacyValue e;
  operations := operations e; jsonText := pretty v; jsonError := error |} = inl (pretty v).
Proof.
  intros Hv. unfold save_text. cbn [editMode jsonText]. rewrite (trim_id (pretty v)) by (apply stringify_trimmed, Hv).
  rewrite (proj2 (truthy_spec _)) by apply stringify_nonempty, Hv. cbn [negb]. unfold pretty at 1. by rewrite stringify_reads.
Qed.

(** What building the text of rules gives. *)
Lemma build_cases l b :
  not_blank l = [] ∧ buildOperationsJson t l b = inl [] ∨
  not_blank l ≠ [] ∧ ((∃ m, b = true ∧ buildOperationsJson t l b = inr m) ∨
                      buildOperationsJson t l b = inl (pretty (operations_of (map operation_payload (not_blank l))))).
Proof.
  unfold buildOperationsJson. fold (not_blank l). destruct (not_blank l) as [|o r]; [by left|]. right. split; [done|].
  destruct b; [|by right]. destruct (truthy _); [left; by eexists|by right].
Qed.

(** Switching from the forms to the JSON text and saving there stores the text that
    the forms would have stored; rules that the forms refuse to store are stored. *)
Lemma json_mode_saves_same s :
  let e := ds_editor s in
  let saved_after := save_text t (ds_editor (switchToJsonMode t s)) in
  editMode e = edit_visual →
  match visualMode e with
  | visual_operations => Forall operation_ok (not_blank (ops s))
  | visual_legacy => ∀ v, JSON_parse (trim (legacyValue e)) = Some v → json_ok v
  end →
  match save_text t e, visualMode e with
  | inl text, _ => saved_after = inl text
  | inr _, visual_operations => saved_after = inl (pretty (operations_of (map operation_payload (not_blank (ops s)))))
  | inr _, visual_legacy => True
  end.
Proof.
  intros e saved_after He Hok. unfold saved_after, switchToJsonMode. fold e. rewrite He. unfold save_text at 1. rewrite He.
  assert (save_text t (ds_editor (setEditMode edit_json (setJson [] [] s))) = inl []) as Hnil by done.
  unfold buildVisualJson. destruct (visualMode e) eqn:Ev.
  - change (operations e) with (ops s). pose proof (operations_payload_ok _ Hok) as Hj.
    destruct (build_cases (ops s) true) as [[_ E]|[Hne [(m & _ & E)|E]]]; rewrite E.
    + apply Hnil.
    + destruct (build_cases (ops s) false) as [[? _]|[_ [(m' & ? & _)|E']]]; [done..|]. rewrite E'. apply (json_mode_saves _ e), Hj.
    + apply (json_mode_saves _ e), Hj.
  - destruct (truthy (trim (legacyValue e))); cbn [negb]; [|apply Hnil]. destruct (JSON_parse (trim (legacyValue e))) as [v|]; [|done].
    destruct (is_object v); [|done]. apply (json_mode_saves v e), Hok. done.
Qed.
End modes.

(** ** Samples *)

Module DialogSamples.
Import Samples.

Definition reachable : DialogState → Prop := dialog_reachable sample_clock sample_toUpperCase sample_t.

(** What a handler that reads gives, or the state itself. *)
Definition run (f : DialogState → option DialogState) (s : DialogState) : DialogState := keep_selected (default s (f s)).

Definition sample_created : ParamOverrideOperation * nat :=
  default (sample_rule, 0%nat) (createDefaultOperation sample_clock sample_toUpperCase 0).

Definition opened : DialogState := keep_selected (mounted sample_created.1 sample_created.2).
Definition with_two : DialogState := run (addOperation sample_clock sample_toUpperCase) opened.
Definition first_rule : ParamOverrideOperation := default sample_rule (ops with_two !! 0%nat).
Definition second_rule : ParamOverrideOperation := default sample_rule (ops with_two !! 1%nat).
Definition dragging : DialogState := keep_selected (handleDragStart (op_id first_rule) with_two).
Definition dragged_over : DialogState := keep_selected (handleDragOver (op_id second_rule) drop_after dragging).

Lemma reachable_opened : reachable opened.
Proof. apply (reach_mounted sample_clock sample_toUpperCase sample_t 0). vm_compute. reflexivity. Qed.

Lemma reachable_two : reachable with_two.
Proof.
  eapply reach_step; [exact reachable_opened|]. unfold with_two, run.
  apply (step_reading _ _ _ _ (addOperation sample_clock sample_toUpperCase opened)); [by left|]. vm_compute. reflexivity.
Qed.

Lemma reachable_dragged : reachable dragged_over.
Proof.
  assert (reachable dragging) as H.
  { eapply reach_step; [exact reachable_two|]. apply step_drag_start. apply (bool_decide_unpack _). vm_compute. reflexivity. }
  eapply reach_step; [exact H|]. apply step_drag_over. apply (bool_decide_unpack _). vm_compute. reflexivity.
Qed.

Definition sample_prune_text : jstring := pretty (operations_of [JObj [("mode", JStr "prune_objects");
  ("value", JObj [("type", JStr "tool"); ("where", JObj [("name", JStr "search")])])]]).
Definition with_prune : DialogState := run (initialize sample_clock sample_toUpperCase sample_prune_text) opened.
Definition shown_draft : PruneObjectsDraft * DialogState := match pruneObjectsDraft sample_clock sample_toUpperCase with_prune with
  | Some (Some draft, s) => (draft, s) | _ => (Build_PruneObjectsDraft true [] [] true [], with_prune) end.
Definition shown_rule : PruneRule := default (Build_ParamOverrideCondition [] [] [] [] false false) (pd_rules shown_draft.1 !! 0%nat).

(** The sample rule, stored from the forms and from the JSON text. *)
Definition with_sample : DialogState := setOperations [sample_rule] opened.
End DialogSamples.

Import Samples DialogSamples.

Example dialog_sound_witness :
  (∃ op, selectedOperation with_two = Some op ∧ filter (λ o, op_id o = selectedOperationId with_two) (ops with_two) = [op]) ∧
  NoDup (map op_id (ops with_two)) ∧
  Forall (λ op, op_mode op ∈ OPERATION_MODE_VALUES ∧ NoDup (map pc_id (op_conditions op)) ∧
                Forall (λ c, pc_mode c ∈ CONDITION_MODE_VALUES) (op_conditions op)) (ops with_two).
Proof. apply (dialog_sound sample_clock sample_toUpperCase sample_t), reachable_two. Defined.

Example dropped_rule_moves_witness :
  let s' := handleDrop (op_id second_rule) [] dragged_over in
  ∃ before after, filter (λ o, op_id o ≠ op_id first_rule) (ops dragged_over) = before ++ second_rule :: after ∧
    ops s' = before ++ [second_rule; first_rule] ++ after ∧ selectedOperation s' = Some first_rule ∧ draggedOperationId s' = [].
Proof.
  refine (dropped_rule_moves sample_clock sample_toUpperCase sample_t dragged_over first_rule second_rule [] reachable_dragged _ _ _ _);
    [apply (bool_decide_unpack _); vm_compute; reflexivity..|vm_compute; reflexivity].
Defined.

Example prune_rules_frozen_witness :
  length (pd_rules shown_draft.1) = 1%nat ∧
  ∃ s3, let id := selectedOperationId with_prune in
    updatePruneRule sample_clock sample_toUpperCase id (pc_id shown_rule) (cond_path "id") shown_draft.2 = Some s3 ∧
    removePruneRule sample_clock sample_toUpperCase id (pc_id shown_rule) shown_draft.2 = Some s3 ∧
    updatePruneObjectsDraft sample_clock sample_toUpperCase id (pure_update (λ d, d)) shown_draft.2 = Some s3.
Proof.
  split; [vm_compute; reflexivity|].
  refine (prune_rules_frozen sample_clock sample_toUpperCase sample_t with_prune shown_draft.1 shown_draft.2 shown_draft.2
    (selectedOperationId with_prune) shown_rule (cond_path "id") _ _ _); [vm_compute; reflexivity| |done].
  apply (bool_decide_unpack _). vm_compute. reflexivity.
Defined.

Example json_mode_saves_same_witness :
  save_text sample_t (ds_editor with_sample) = inl sample_text ∧
  save_text sample_t (ds_editor (switchToJsonMode sample_t with_sample)) = inl sample_text.
Proof.
  assert (save_text sample_t (ds_editor with_sample) = inl sample_text) as E by (vm_compute; reflexivity). split; [exact E|].
  pose proof (json_mode_saves_same sample_t with_sample ltac:(reflexivity) sample_ok) as H. rewrite E in H. exact H.
Defined.
