(* ===== verification/ChannelForm.v ===== *)
(** * ChannelForm: [features/channels/lib/channel-form.ts]

    The form of a channel: the checks of its schema, the form a stored channel is
    opened with, and the payloads that create and update a channel.  Channels, form
    values and payloads are JavaScript objects; [None] is an exception.  The base
    types of the fields are checked by a third-party library and are assumptions of
    the theorems in [ChannelFormSaved]. *)
From S2P Require Import Prelude JsString JsNumber JsFloat JsValue ParamOverride AdvancedCustom.

(** ** Values *)

(** [v === z] *)
Definition is_num (v : jval) (z : Z) : bool := match v with JNum n => bool_decide (n = of_Z z) | _ => false end.

(** [[...].includes(v)], and [set.has(v)], for numbers. *)
Definition among (l : list Z) (v : jval) : bool := existsb (is_num v) l.

(** A field that is a string or [undefined]. *)
Definition text (v : jval) : option jstring := match v with JStr s => Some s | _ => None end.

(** [!!value?.trim()] *)
Definition filled (v : jval) : bool := otruthy (trim <$> text v).

(** [v ?? w] *)
Definition coalesce (v w : jval) : jval := if is_nullish v then w else v.

(** [v || ''] and [v || null] *)
Definition or_empty (v : jval) : jval := js_or v (JStr []).
Definition or_null (v : jval) : jval := js_or v JNull.

(** ** The schema *)

(** [Some JUndefined] for an empty text. *)
Definition parseOptionalJson (value : option jstring) : option jval :=
  if negb (otruthy (trim <$> value)) then Some JUndefined else JSON_parse (default [] value).

Definition is_undefined (v : jval) : bool := match v with JUndefined => true | _ => false end.

(** [isJsonObjectValue] is [is_object] of the override rules. *)
Definition isOptionalJsonObject (value : option jstring) : bool :=
  match parseOptionalJson value with
  | Some parsed => is_undefined parsed || is_object parsed
  | None => false
  end.

Definition isOptionalModelMapping (value : option jstring) : bool :=
  match parseOptionalJson value with
  | Some parsed => is_undefined parsed || is_object parsed && forallb (λ kv, typeof_string kv.2) (props parsed)
  | None => false
  end.

(** [Number.isInteger(code) && code >= 100 && code <= 599] *)
Definition is_status (code : num) : bool := is_integer code && nle (of_Z 100) code && nle code (of_Z 599).

Definition isOptionalStatusCodeMapping (value : option jstring) : bool :=
  match parseOptionalJson value with
  | Some parsed => is_undefined parsed ||
      is_object parsed && forallb (λ '(from, to), is_status (Number_of_string from) && is_status (to_number to)) (props parsed)
  | None => false
  end.

Definition isCodexCredential (value : option jstring) : bool :=
  match parseOptionalJson value with
  | Some parsed => is_undefined parsed ||
      is_object parsed && filled (member "access_token" parsed) && filled (member "account_id" parsed)
  | None => false
  end.

Definition isVertexJsonKey (value : option jstring) : bool :=
  match parseOptionalJson value with
  | Some JUndefined => true
  | Some (JArr l) => forallb is_object l
  | Some parsed => is_object parsed
  | None => false
  end.

Record Issue := { issue_path : jstring; issue_message : jstring }.

#[export] Instance Issue_eq_dec : EqDecision Issue.
Proof. solve_decision. Defined.

Section schema.
(** [new URL(text)] of the platform, as in [AdvancedCustom]. *)
Variable URL : jstring → option (jstring * jstring).

(** The value of [parseAdvancedCustomConfig], [null] when it has none. *)
Definition advanced_config (value : option jstring) : jval := default JNull (parseAdvancedCustomConfig value).

Definition refine_advanced (data : jval) : option (list Issue) :=
  let advancedCustomConfig := advanced_config (text (member "advanced_custom" data)) in
  advancedCustomError ← validateAdvancedCustomConfig URL advancedCustomConfig;
  relative ← advancedCustomConfigUsesRelativeUpstreamPath advancedCustomConfig;
  Some (match advancedCustomError with
        | Some error => [{| issue_path := "advanced_custom"; issue_message := message error |}]
        | None => []
        end ++
        if relative && negb (filled (member "base_url" data))
        then [{| issue_path := "base_url"; issue_message := "Base URL is required when an advanced route uses an upstream path" |}]
        else []).

(** The issue of a rule that is broken. *)
Definition issue (b : bool) (path message : jstring) : list Issue :=
  if b then [{| issue_path := path; issue_message := message |}] else [].

(** More than one key is created. *)
Definition batched (data : jval) : bool :=
  to_boolean (member "multi_key_mode" data) && negb (is_str (member "multi_key_mode" data) "single").

(** The function of [superRefine]: the issues in the order they are added. *)
Definition superRefine (data : jval) : option (list Issue) :=
  let type := member "type" data in
  advanced ← (if is_num type CHANNEL_TYPE_ADVANCED_CUSTOM then refine_advanced data else Some []);
  Some (issue (among [3; 8; 36; 45]%Z type && negb (filled (member "base_url" data)))
          "base_url" "Base URL is required for this channel type" ++ advanced ++
        issue (among [3; 18; 21; 39; 41; 49]%Z type && negb (filled (member "other" data)))
          "other" "This channel type requires additional configuration" ++
        issue (is_num type 57 && batched data) "multi_key_mode" "Codex channels do not support batch creation" ++
        issue (is_num type 57 && filled (member "key" data) && negb (isCodexCredential (text (member "key" data))))
          "key" "Codex credential must be a JSON object with access_token and account_id" ++
        issue (is_num type 41 && is_str (member "vertex_key_type" data) "json" && filled (member "key" data)
               && negb (isVertexJsonKey (text (member "key" data)))) "key" "Vertex AI service account key must be valid JSON" ++
        issue (is_num type 41 && is_str (member "vertex_key_type" data) "api_key" && batched data)
          "multi_key_mode" "Vertex AI API Key mode does not support batch creation").

(** The checks of the schema on texts that hold JSON. *)
Definition json_fields_ok (data : jval) : bool :=
  isOptionalModelMapping (text (member "model_mapping" data)) && isOptionalStatusCodeMapping (text (member "status_code_mapping" data))
  && forallb (λ k, isOptionalJsonObject (text (member k data))) ["setting"; "param_override"; "header_override"; "settings"].
End schema.

(** ** Lists in texts *)

Definition parseGroups (groups : jstring) : list jstring := names_of (cu ",") groups.

(** [parseModels] is the same function. *)
Definition parseModels (models : jstring) : list jstring := parseGroups models.

Definition formatGroups (groups : list jstring) : jstring := join "," groups.
Definition formatModels (models : list jstring) : jstring := join "," models.

Definition validateJSON (value : jstring) : bool := negb (truthy (trim value)) || verifyJSON value.
Definition validateModelMapping (value : jstring) : bool := negb (truthy (trim value)) || validateJSON value.

(** ** Default values *)

Definition CHANNEL_FORM_DEFAULT_VALUES : jval := JObj [
  ("name", JStr []); ("type", JNum (of_Z 1)); ("base_url", JStr []); ("key", JStr []); ("openai_organization", JStr []);
  ("models", JStr []); ("group", JArr []); ("model_mapping", JStr []); ("priority", JNum zero); ("weight", JNum zero);
  ("test_model", JStr []); ("auto_ban", JNum (of_Z 1)); ("status", JNum (of_Z 1)); ("status_code_mapping", JStr []);
  ("tag", JStr []); ("remark", JStr []); ("setting", JStr []); ("param_override", JStr []); ("header_override", JStr []);
  ("settings", JStr "{}"); ("other", JStr []); ("multi_key_mode", JStr "single"); ("multi_key_type", JStr "random");
  ("batch_add_set_key_prefix_2_name", JBool false); ("key_mode", JStr "append"); ("force_format", JBool false);
  ("thinking_to_content", JBool false); ("proxy", JStr []); ("pass_through_body_enabled", JBool false);
  ("system_prompt", JStr []); ("system_prompt_override", JBool false); ("is_enterprise_account", JBool false);
  ("vertex_key_type", JStr "json"); ("aws_key_type", JStr "ak_sk"); ("azure_responses_version", JStr []);
  ("allow_service_tier", JBool false); ("disable_store", JBool false); ("allow_safety_identifier", JBool false);
  ("allow_include_obfuscation", JBool false); ("allow_inference_geo", JBool false); ("allow_speed", JBool false);
  ("claude_beta_query", JBool false); ("disable_task_polling_sleep", JBool false);
  ("upstream_model_update_check_enabled", JBool false); ("upstream_model_update_auto_sync_enabled", JBool false);
  ("upstream_model_update_ignored_models", JStr []); ("advanced_custom", JStr [])].

(** ** The form of a stored channel *)

(** What [JSON.parse] gives for a text of a channel, when a property of it can be read. *)
Definition readable (value : jval) : option jval :=
  parsed ← (if to_boolean value then text value ≫= JSON_parse else None);
  if is_nullish parsed then None else Some parsed.

Definition extraSettings (setting : jval) : list (jstring * jval) :=
  let parsed := default JUndefined (readable setting) in
  [("force_format", js_or (member "force_format" parsed) (JBool false));
   ("thinking_to_content", js_or (member "thinking_to_content" parsed) (JBool false));
   ("proxy", or_empty (member "proxy" parsed));
   ("pass_through_body_enabled", js_or (member "pass_through_body_enabled" parsed) (JBool false));
   ("system_prompt", or_empty (member "system_prompt" parsed));
   ("system_prompt_override", js_or (member "system_prompt_override" parsed) (JBool false))].

(** The fields read from the settings of a type.  Reading the routes comes last, so that
    an exception there leaves the other fields. *)
Definition type_settings (settings : jval) : list (jstring * jval) :=
  let parsed := default JUndefined (readable settings) in
  let flag (k : jstring) := JBool (is_true (member k parsed)) in
  [("is_enterprise_account", flag "openrouter_enterprise");
   ("vertex_key_type", js_or (member "vertex_key_type" parsed) (JStr "json"));
   ("azure_responses_version", or_empty (member "azure_responses_version" parsed));
   ("aws_key_type", js_or (member "aws_key_type" parsed) (JStr "ak_sk"));
   ("allow_service_tier", flag "allow_service_tier"); ("disable_store", flag "disable_store");
   ("allow_include_obfuscation", flag "allow_include_obfuscation"); ("allow_inference_geo", flag "allow_inference_geo");
   ("allow_speed", flag "allow_speed"); ("claude_beta_query", flag "claude_beta_query");
   ("disable_task_polling_sleep", flag "disable_task_polling_sleep");
   ("allow_safety_identifier", flag "allow_safety_identifier");
   ("upstream_model_update_check_enabled", flag "upstream_model_update_check_enabled");
   ("upstream_model_update_auto_sync_enabled", flag "upstream_model_update_auto_sync_enabled");
   ("upstream_model_update_ignored_models",
     match member "upstream_model_update_ignored_models" parsed with JArr l => JStr (to_js_string (JArr l)) | _ => JStr [] end);
   ("advanced_custom",
     let advanced := member "advanced_custom" parsed in
     JStr (if to_boolean advanced then default [] (stringifyAdvancedCustomConfig advanced) else []))].

Definition transformChannelToFormDefaults (channel : jval) : option jval :=
  multi_key_mode ← prop "multi_key_mode" (member "channel_info" channel);
  let string_of (k : jstring) := (k, or_empty (member k channel)) in
  let number_of (k : jstring) := (k, js_or (member k channel) (JNum zero)) in
  Some (JObj ([
    string_of "name"; ("type", member "type" channel); string_of "base_url"; ("key", JStr []); string_of "openai_organization";
    string_of "models"; ("group", JArr (map JStr (parseGroups (to_js_string (or_empty (member "group" channel))))));
    string_of "model_mapping"; number_of "priority"; number_of "weight"; string_of "test_model";
    ("auto_ban", coalesce (member "auto_ban" channel) (JNum (of_Z 1))); ("status", member "status" channel);
    string_of "status_code_mapping"; string_of "tag"; string_of "remark"; string_of "setting"; string_of "param_override";
    string_of "header_override"; ("settings", js_or (member "settings" channel) (JStr "{}")); string_of "other";
    ("multi_key_mode", JStr "single"); ("multi_key_type", js_or multi_key_mode (JStr "random"));
    ("batch_add_set_key_prefix_2_name", JBool false); ("key_mode", JStr "append")]
    ++ extraSettings (member "setting" channel) ++ type_settings (member "settings" channel))).

(** ** Payloads *)

Definition buildSettingJSON (formData : jval) : jstring :=
  let flag (k : jstring) := (k, js_or (member k formData) (JBool false)) in
  let string_of (k : jstring) := (k, or_empty (member k formData)) in
  compact (JObj [flag "force_format"; flag "thinking_to_content"; string_of "proxy"; flag "pass_through_body_enabled";
                 string_of "system_prompt"; flag "system_prompt_override"]).

(** The types whose models can be fetched. *)
Definition MODEL_FETCHABLE_TYPES : list Z := [1; 4; 14; 17; 20; 23; 24; 25; 26; 27; 31; 34; 35; 40; 42; 43; 47; 48]%Z.

(** An assignment ([Some]) or a deletion ([None]) of a property. *)
Definition change (o : list (jstring * jval)) (c : jstring * option jval) : list (jstring * jval) :=
  match c.2 with Some v => obj_set c.1 v o | None => odelete c.1 o end.

(** [if (b) o[k] = v; else delete o[k]] *)
Definition keep (b : bool) (k : jstring) (v : jval) : jstring * option jval := (k, if b then Some v else None).

Definition ignored_models (formData : jval) : list jstring :=
  new_set (names_of (cu ",") (to_js_string (or_empty (member "upstream_model_update_ignored_models" formData)))).

Definition settings_changes (formData settings : jval) : list (jstring * option jval) :=
  let type := member "type" formData in
  let flag (k : jstring) := JBool (is_true (member k formData)) in
  let check_enabled := is_true (member "upstream_model_update_check_enabled" formData) in
  [keep (is_num type 41) "vertex_key_type" (js_or (member "vertex_key_type" formData) (JStr "json"));
   keep (is_num type 3 && to_boolean (member "azure_responses_version" formData))
     "azure_responses_version" (member "azure_responses_version" formData);
   keep (is_num type 20) "openrouter_enterprise" (flag "is_enterprise_account");
   keep (is_num type 33) "aws_key_type" (js_or (member "aws_key_type" formData) (JStr "ak_sk"));
   keep (among [1; 14]%Z type) "allow_service_tier" (flag "allow_service_tier");
   keep (is_num type 1) "disable_store" (flag "disable_store");
   keep (is_num type 1) "allow_safety_identifier" (flag "allow_safety_identifier");
   keep (is_num type 1) "allow_include_obfuscation" (flag "allow_include_obfuscation");
   keep (among [1; 14]%Z type) "allow_inference_geo" (flag "allow_inference_geo");
   keep (is_num type 14) "allow_speed" (flag "allow_speed");
   keep (is_num type 14) "claude_beta_query" (flag "claude_beta_query");
   ("disable_task_polling_sleep", Some (flag "disable_task_polling_sleep"))]
  ++ (if among MODEL_FETCHABLE_TYPES type then
        [("upstream_model_update_check_enabled", Some (JBool check_enabled));
         ("upstream_model_update_auto_sync_enabled",
           Some (JBool (check_enabled && is_true (member "upstream_model_update_auto_sync_enabled" formData))));
         ("upstream_model_update_ignored_models", Some (JArr (map JStr (ignored_models formData))));
         ("upstream_model_update_last_detected_models",
           Some match member "upstream_model_update_last_detected_models" settings with
                | JArr l => if check_enabled then JArr l else JArr []
                | _ => JArr []
                end);
         ("upstream_model_update_last_check_time",
           Some match member "upstream_model_update_last_check_time" settings with JNum n => JNum n | _ => JNum zero end)]
      else [])
  ++ (if is_num type CHANNEL_TYPE_ADVANCED_CUSTOM then
        match parseAdvancedCustomConfig (text (member "advanced_custom" formData)) with
        | Some config => [("advanced_custom", Some config)]
        | None => []
        end
      else [("advanced_custom", None)]).

(** The settings the changes start from. *)
Definition parsed_settings (formData : jval) : jval :=
  match text (member "settings" formData) with
  | Some s => if truthy s && negb (bool_decide (s = "{}")) then default (JObj []) (JSON_parse s) else JObj []
  | None => JObj []
  end.

(** Properties set on an array are not in its text; on other values setting one throws. *)
Definition buildSettingsJSON (formData : jval) : option jstring :=
  match parsed_settings formData with
  | JObj o => Some (compact (JObj (fold_left change (settings_changes formData (JObj o)) o)))
  | JArr l => Some (compact (JArr l))
  | _ => None
  end.

(** [replace(/\/+$/, '')] *)
Fixpoint drop_slashes (s : jstring) : jstring :=
  match s with
  | c :: r => if (c =? cu "/")%N then drop_slashes r else s
  | [] => []
  end.

Definition normalizeBaseUrl (value : jval) : jstring := reverse (drop_slashes (reverse (trim (to_js_string (or_empty value))))).

(** Empty strings become [null]. *)
Definition clean_up (o : list (jstring * jval)) : list (jstring * jval) :=
  map (λ '(k, v), (k, if is_str v [] then JNull else v)) o.

Definition group_text (formData : jval) : jval := JStr (to_js_string (member "group" formData)).

Record CreatePayload := { cp_mode : jval; cp_multi_key_mode : jval; cp_batch_add_set_key_prefix_2_name : jval; cp_channel : jval }.

Definition transformFormDataToCreatePayload (formData : jval) : option CreatePayload :=
  let mode := js_or (member "multi_key_mode" formData) (JStr "single") in
  let field (k : jstring) := (k, member k formData) in
  let nullable (k : jstring) := (k, or_null (member k formData)) in
  settings ← buildSettingsJSON formData;
  let channel := [
    field "name"; field "type"; ("base_url", or_null (JStr (normalizeBaseUrl (member "base_url" formData)))); field "key";
    nullable "openai_organization"; field "models"; ("group", group_text formData); nullable "model_mapping";
    nullable "priority"; nullable "weight"; nullable "test_model"; ("auto_ban", coalesce (member "auto_ban" formData) (JNum (of_Z 1)));
    field "status"; nullable "status_code_mapping"; nullable "tag"; ("remark", or_empty (member "remark" formData));
    ("setting", JStr (buildSettingJSON formData)); nullable "param_override"; nullable "header_override";
    ("settings", JStr settings); ("other", or_empty (member "other" formData))] in
  Some {| cp_mode := mode;
          cp_multi_key_mode := if is_str mode "multi_to_single" then member "multi_key_type" formData else JUndefined;
          cp_batch_add_set_key_prefix_2_name :=
            if is_str mode "batch" then member "batch_add_set_key_prefix_2_name" formData else JUndefined;
          cp_channel := JObj (clean_up channel) |}.

(** The fields that are sent as empty strings, so that an update clears them. *)
Definition CLEARED_FIELDS : list jstring :=
  ["openai_organization"; "test_model"; "tag"; "remark"; "model_mapping"; "status_code_mapping"; "param_override"; "header_override"].

Definition transformFormDataToUpdatePayload (formData channelId : jval) : option jval :=
  let field (k : jstring) := (k, member k formData) in
  let nullable (k : jstring) := (k, or_null (member k formData)) in
  settings ← buildSettingsJSON formData;
  let payload := [
    ("id", channelId); field "name"; field "type"; ("base_url", or_null (JStr (normalizeBaseUrl (member "base_url" formData))));
    nullable "openai_organization"; field "models"; ("group", group_text formData); nullable "model_mapping";
    ("priority", coalesce (member "priority" formData) (JNum zero)); ("weight", coalesce (member "weight" formData) (JNum zero));
    nullable "test_model"; ("auto_ban", coalesce (member "auto_ban" formData) (JNum (of_Z 1))); nullable "status_code_mapping";
    nullable "tag"; ("remark", or_empty (member "remark" formData)); ("setting", JStr (buildSettingJSON formData));
    nullable "param_override"; nullable "header_override"; ("settings", JStr settings); ("other", or_empty (member "other" formData))] in
  let payload := payload ++ (if filled (member "key" formData) then [field "key"] else []) in
  let payload := obj_set "base_url" (JStr (normalizeBaseUrl (member "base_url" formData))) (clean_up payload) in
  Some (JObj (fold_left (λ o k, obj_set k (or_empty (member k formData)) o) CLEARED_FIELDS payload)).

(** ** Errors *)

(** [channel-form-errors.ts] *)
Definition ADVANCED_SETTINGS_FIELDS : list jstring := [
  "priority"; "weight"; "test_model"; "auto_ban"; "tag"; "remark"; "param_override"; "header_override"; "status_code_mapping";
  "advanced_custom"; "force_format"; "thinking_to_content"; "pass_through_body_enabled"; "proxy"; "system_prompt";
  "system_prompt_override"; "allow_service_tier"; "disable_store"; "allow_safety_identifier"; "allow_include_obfuscation";
  "allow_inference_geo"; "allow_speed"; "claude_beta_query"; "disable_task_polling_sleep";
  "upstream_model_update_check_enabled"; "upstream_model_update_auto_sync_enabled"; "upstream_model_update_ignored_models"].

Definition isAdvancedSettingsField (fieldName : jstring) : bool := has fieldName ADVANCED_SETTINGS_FIELDS.

Definition hasAdvancedSettingsErrors (errors : list (jstring * jval)) : bool := existsb isAdvancedSettingsField (okeys errors).
