(* ===== verification/ChannelFormSaved.v ===== *)
(** * ChannelFormSaved: what is stored of a channel, and opened again

    A channel that stores the payload of a form is opened as a form that saves the
    same payload again ([saved_channel_fixpoint]); the settings keep what the form
    does not know ([settings_kept]) and exactly the fields of the type of the channel
    come back ([type_fields_reload]).  Forms that pass the schema never throw
    ([accepted_form_saves]). *)
From S2P Require Import Prelude JsString JsNumber JsFloat JsDecimal JsValue JsJson ParamOverride ParamOverrideSaved AdvancedCustom ChannelForm.

(** ** Changes of an object *)

Lemma oget_change k c o : NoDup (okeys o) → oget k (change o c) = if bool_decide (k = c.1) then c.2 else oget k o.
Proof. intros Hn. destruct c as [k' [v|]]; cbn [change fst snd]; [apply oget_obj_set|by apply oget_odelete]. Qed.

Lemma NoDup_change c o : NoDup (okeys o) → NoDup (okeys (change o c)).
Proof. destruct c as [k' [v|]]; cbn [change fst snd]; [apply NoDup_okeys_obj_set|apply NoDup_okeys_odelete]. Qed.

Lemma NoDup_changes l o : NoDup (okeys o) → NoDup (okeys (fold_left change l o)).
Proof. revert o. induction l as [|c l IH]; intros o Hn; [done|]. by apply IH, NoDup_change. Qed.

(** Changes of distinct properties: each has its new value and all others are kept. *)
Lemma oget_changes l o k : NoDup (okeys l) → NoDup (okeys o) →
  oget k (fold_left change l o) = match oget k l with Some v => v | None => oget k o end.
Proof.
  revert o. induction l as [|[k' w] l IH]; intros o Hl Ho; [done|]. unfold okeys in Hl. cbn in Hl. apply NoDup_cons in Hl as [Hk Hl].
  cbn [fold_left oget]. rewrite IH by (done || by apply NoDup_change). rewrite oget_change by done. cbn [fst snd].
  case_bool_decide; [subst|done]. assert (oget k' l = None) as -> by by apply oget_None. done.
Qed.

(** Changes that an object already has. *)
Lemma changes_id l o : Forall (λ c, oget c.1 o = c.2) l → fold_left change l o = o.
Proof.
  induction 1 as [|[k w] l H _ IH]; [done|]. cbn [fold_left]. cbn in H.
  assert (change o (k, w) = o) as ->; [|done]. destruct w as [v|]; cbn [change fst snd]; [by apply obj_set_id|by apply odelete_id].
Qed.

Definition change_ok (c : jstring * option jval) : Prop :=
  is_index c.1 = false ∧ valid_units c.1 ∧ match c.2 with Some v => json_ok v | None => True end.

Lemma json_ok_changes l o : Forall change_ok l → json_ok (JObj o) → json_ok (JObj (fold_left change l o)).
Proof.
  intros H. revert o. induction H as [|[k [v|]] l (Hi & Hu & Hv) _ IH]; intros o Ho; [done|..]; apply IH.
  - by apply json_ok_set.
  - by apply json_ok_delete.
Qed.

(** ** Settings *)

(** The properties of the settings that the form changes, and those it only keeps. *)
Definition TYPE_KEYS : list jstring := [
  "vertex_key_type"; "azure_responses_version"; "openrouter_enterprise"; "aws_key_type"; "allow_service_tier"; "disable_store";
  "allow_safety_identifier"; "allow_include_obfuscation"; "allow_inference_geo"; "allow_speed"; "claude_beta_query";
  "disable_task_polling_sleep"].
Definition UPDATE_KEYS : list jstring := [
  "upstream_model_update_check_enabled"; "upstream_model_update_auto_sync_enabled"; "upstream_model_update_ignored_models";
  "upstream_model_update_last_detected_models"; "upstream_model_update_last_check_time"].

Definition CHANGED_KEYS : list jstring := TYPE_KEYS ++ UPDATE_KEYS ++ ["advanced_custom"].

Lemma changed_keys f s : okeys (settings_changes f s) `sublist_of` CHANGED_KEYS.
Proof.
  unfold settings_changes, okeys. rewrite !fmap_app. unfold CHANGED_KEYS. repeat apply sublist_app; [done| |].
  - by destruct (among MODEL_FETCHABLE_TYPES _); [|apply sublist_nil_l].
  - destruct (is_num _ _); [|done]. destruct (parseAdvancedCustomConfig _); [done|apply sublist_nil_l].
Qed.

Lemma NoDup_changed_keys f s : NoDup (okeys (settings_changes f s)).
Proof.
  eapply sublist_NoDup; [|apply changed_keys]. apply (bool_decide_unpack _). vm_compute. reflexivity.
Qed.

(** The settings after the changes. *)
Definition new_settings (f : jval) (o : list (jstring * jval)) : list (jstring * jval) :=
  fold_left change (settings_changes f (JObj o)) o.

Lemma new_settings_get f o k : NoDup (okeys o) →
  oget k (new_settings f o) = match oget k (settings_changes f (JObj o)) with Some v => v | None => oget k o end.
Proof. intros Ho. unfold new_settings. apply oget_changes; [apply NoDup_changed_keys|done]. Qed.

Lemma other_key f o k : NoDup (okeys o) → k ∉ CHANGED_KEYS → oget k (new_settings f o) = oget k o.
Proof.
  intros Ho Hk. rewrite new_settings_get by done. assert (oget k (settings_changes f (JObj o)) = None) as ->; [|done].
  apply oget_None. intros Hin. apply Hk. eapply elem_of_sublist; [exact Hin|apply changed_keys].
Qed.

Section type_keys.
Context (f : jval) (o : list (jstring * jval)).
Let type := member "type" f.
Let flag (k : jstring) := JBool (is_true (member k f)).
Let at_key (k : jstring) := oget k (new_settings f o).
Let when (b : bool) (v : jval) : option jval := if b then Some v else None.

(** The settings of the type of the channel. *)
Lemma type_key_values : NoDup (okeys o) →
  at_key "vertex_key_type" = when (is_num type 41) (js_or (member "vertex_key_type" f) (JStr "json")) ∧
  at_key "azure_responses_version"
  = when (is_num type 3 && to_boolean (member "azure_responses_version" f)) (member "azure_responses_version" f) ∧
  at_key "openrouter_enterprise" = when (is_num type 20) (flag "is_enterprise_account") ∧
  at_key "aws_key_type" = when (is_num type 33) (js_or (member "aws_key_type" f) (JStr "ak_sk")) ∧
  at_key "allow_service_tier" = when (among [1; 14]%Z type) (flag "allow_service_tier") ∧
  at_key "disable_store" = when (is_num type 1) (flag "disable_store") ∧
  at_key "allow_safety_identifier" = when (is_num type 1) (flag "allow_safety_identifier") ∧
  at_key "allow_include_obfuscation" = when (is_num type 1) (flag "allow_include_obfuscation") ∧
  at_key "allow_inference_geo" = when (among [1; 14]%Z type) (flag "allow_inference_geo") ∧
  at_key "allow_speed" = when (is_num type 14) (flag "allow_speed") ∧
  at_key "claude_beta_query" = when (is_num type 14) (flag "claude_beta_query") ∧
  at_key "disable_task_polling_sleep" = Some (flag "disable_task_polling_sleep").
Proof.
  intros Ho. unfold at_key. split_and!; rewrite new_settings_get by done; unfold settings_changes; cbv zeta; rewrite oget_app;
    cbn [oget keep]; by decide_closed.
Qed.

(** The settings of the update of models. *)
Lemma update_key_values : NoDup (okeys o) →
  let check := is_true (member "upstream_model_update_check_enabled" f) in
  if among MODEL_FETCHABLE_TYPES type then
    at_key "upstream_model_update_check_enabled" = Some (JBool check) ∧
    at_key "upstream_model_update_auto_sync_enabled"
    = Some (JBool (check && is_true (member "upstream_model_update_auto_sync_enabled" f))) ∧
    at_key "upstream_model_update_ignored_models" = Some (JArr (map JStr (ignored_models f))) ∧
    at_key "upstream_model_update_last_detected_models"
    = Some match member "upstream_model_update_last_detected_models" (JObj o) with
           | JArr l => if check then JArr l else JArr [] | _ => JArr [] end ∧
    at_key "upstream_model_update_last_check_time"
    = Some match member "upstream_model_update_last_check_time" (JObj o) with JNum n => JNum n | _ => JNum zero end
  else Forall (λ k, at_key k = oget k o) UPDATE_KEYS.
Proof.
  intros Ho check. assert (∀ k, oget k (if is_num type CHANNEL_TYPE_ADVANCED_CUSTOM then
      match parseAdvancedCustomConfig (text (member "advanced_custom" f)) with Some c => [("advanced_custom", Some c)] | None => [] end
      else [("advanced_custom", None)]) = if bool_decide (k = "advanced_custom") then
        (if is_num type CHANNEL_TYPE_ADVANCED_CUSTOM then Some <$> parseAdvancedCustomConfig (text (member "advanced_custom" f)) else Some None)
      else None) as Hadv.
  { intros k. destruct (is_num _ _); [destruct (parseAdvancedCustomConfig _)|]; cbn [oget]; by case_bool_decide. }
  destruct (among MODEL_FETCHABLE_TYPES type) eqn:E.
  - unfold at_key. rewrite !new_settings_get by done. unfold settings_changes; cbv zeta. fold type. rewrite E, !oget_app.
    cbn [oget keep]. decide_closed. by split_and!.
  - unfold UPDATE_KEYS, at_key. repeat (apply Forall_cons; split); [..|constructor]; rewrite new_settings_get by done;
      unfold settings_changes; cbv zeta; fold type; rewrite E, !oget_app, Hadv; cbn [oget keep]; by decide_closed.
Qed.

Lemma advanced_value : NoDup (okeys o) →
  at_key "advanced_custom" = if is_num type CHANNEL_TYPE_ADVANCED_CUSTOM then
      match parseAdvancedCustomConfig (text (member "advanced_custom" f)) with Some c => Some c | None => oget "advanced_custom" o end
    else None.
Proof.
  intros Ho. unfold at_key. rewrite new_settings_get by done. unfold settings_changes; cbv zeta. fold type. rewrite !oget_app. cbn [oget keep]. decide_closed.
  destruct (among _ _); cbn [oget]; decide_closed; destruct (is_num _ CHANNEL_TYPE_ADVANCED_CUSTOM); try destruct (parseAdvancedCustomConfig _); cbn [oget]; by decide_closed.
Qed.
End type_keys.

(** ** Forms *)

(** Fields that hold a text, or nothing. *)
Definition PLAIN_FIELDS : list jstring := [
  "openai_organization"; "model_mapping"; "test_model"; "status_code_mapping"; "tag"; "remark"; "param_override"; "header_override"; "other"].
Definition SETTING_FLAGS : list jstring := ["force_format"; "thinking_to_content"; "pass_through_body_enabled"; "system_prompt_override"].
Definition SETTING_TEXTS : list jstring := ["proxy"; "system_prompt"; "azure_responses_version"; "upstream_model_update_ignored_models"].

(** A form whose fields have the types of the schema, with texts of 16-bit units, and a
    base address without spaces before its last slashes. *)
Record form_ok (f : jval) : Prop := {
  fo_required : Forall (λ k, ∃ s, member k f = JStr s) ["name"; "models"];
  fo_plain : Forall (λ k, ∃ s, or_empty (member k f) = JStr s) PLAIN_FIELDS;
  fo_flags : Forall (λ k, ∃ b, js_or (member k f) (JBool false) = JBool b) SETTING_FLAGS;
  fo_texts : Forall (λ k, ∃ s, or_empty (member k f) = JStr s ∧ valid_units s) SETTING_TEXTS;
  fo_numbers : Forall (λ k, ∃ n, coalesce (member k f) (JNum zero) = JNum n ∧ (n = zero ∨ num_truthy n = true)) ["priority"; "weight"];
  fo_auto_ban : ∃ n, coalesce (member "auto_ban" f) (JNum (of_Z 1)) = JNum n;
  fo_type : ∃ n, member "type" f = JNum n;
  fo_group : ∃ gs, member "group" f = JArr (map JStr gs) ∧ Forall (name_without (cu ",")) gs;
  fo_url : trimmed (normalizeBaseUrl (member "base_url" f));
  fo_key_types : Forall (λ kd, ∃ s, js_or (member kd.1 f) (JStr kd.2) = JStr s ∧ s ≠ [] ∧ valid_units s)
                   [("vertex_key_type" : jstring, "json" : jstring); ("aws_key_type" : jstring, "ak_sk" : jstring)];
  fo_settings : ∃ o, parsed_settings f = JObj o ∧ json_ok (JObj o);
  fo_advanced : is_num (member "type" f) CHANNEL_TYPE_ADVANCED_CUSTOM = true →
    ∃ c, parseAdvancedCustomConfig (text (member "advanced_custom" f)) = Some c ∧ json_ok c;
}.

Lemma js_or_truthy v w : to_boolean v = true → js_or v w = v.
Proof. unfold js_or. by intros ->. Qed.

Lemma js_or_falsy v w : to_boolean v = false → js_or v w = w.
Proof. unfold js_or. by intros ->. Qed.

Lemma or_empty_str v s : or_empty v = JStr s → to_boolean v = true → v = JStr s.
Proof. unfold or_empty, js_or. intros H E. by rewrite E in H. Qed.

Lemma or_empty_idemp v : or_empty (or_empty v) = or_empty v.
Proof. apply js_or_idemp. Qed.

Lemma valid_join sep l : valid_units sep → Forall valid_units l → valid_units (join sep l).
Proof.
  intros Hs. induction 1 as [|s l Hv Hl IH]; [constructor|]. destruct l as [|s' l]; [done|].
  change (join sep (s :: s' :: l)) with (s ++ sep ++ join sep (s' :: l)). by repeat (apply Forall_app; split).
Qed.

Lemma join_strings l : to_js_string (JArr (map JStr l)) = join "," l.
Proof. cbn [to_js_string]. by rewrite map_map, map_id. Qed.

(** The models to ignore are names, each once. *)
Lemma ignored_models_spec f s : or_empty (member "upstream_model_update_ignored_models" f) = JStr s → valid_units s →
  NoDup (ignored_models f) ∧ Forall (λ m, name_without (cu ",") m ∧ valid_units m) (ignored_models f).
Proof.
  intros E Hs. unfold ignored_models. rewrite E. cbn [to_js_string]. split; [apply NoDup_new_set|].
  pose proof (names_of_parts _ (cu ",") s Hs) as Hp. rewrite Forall_forall in *. intros m Hm. apply Hp. by apply elem_of_new_set.
Qed.

Lemma json_ok_member o k v : json_ok (JObj o) → member k (JObj o) = v → v = JUndefined ∨ json_ok v.
Proof.
  intros (_ & _ & H)%json_ok_obj <-. cbn [member]. destruct (oget k o) as [w|] eqn:E; [right|by left].
  rewrite Forall_forall in H. by apply (H (k, w)), oget_Some_elem_of.
Qed.

Section settings.
Context (f : jval) (o : list (jstring * jval)).
Hypothesis Hf : form_ok f.
Hypothesis Hs : parsed_settings f = JObj o.

Lemma settings_source : json_ok (JObj o).
Proof using Hf Hs. destruct (fo_settings f Hf) as (o' & E & ?). by rewrite Hs in E; injection E as <-. Qed.

Lemma settings_NoDup : NoDup (okeys o).
Proof using Hf Hs. apply (proj1 (json_ok_obj o) settings_source). Qed.

Lemma keep_ok b k v : is_index k = false → valid_units k → (b = true → json_ok v) → change_ok (keep b k v).
Proof. intros Hi Hu Hv. destruct b; split_and!; try done. by apply Hv. Qed.

Lemma key_type_text k d : (k, d) ∈ [("vertex_key_type" : jstring, "json" : jstring); ("aws_key_type" : jstring, "ak_sk" : jstring)] →
  ∃ s, js_or (member k f) (JStr d) = JStr s ∧ s ≠ [] ∧ valid_units s.
Proof using Hf. intros Hk. pose proof (fo_key_types f Hf) as H. rewrite Forall_forall in H. by apply (H (k, d)). Qed.

Lemma setting_text k : k ∈ SETTING_TEXTS → ∃ s, or_empty (member k f) = JStr s ∧ valid_units s.
Proof using Hf. intros Hk. pose proof (fo_texts f Hf) as H. rewrite Forall_forall in H. by apply H. Qed.

Ltac listed := by apply (bool_decide_unpack _); vm_compute.

(** Every value that the form writes can be represented. *)
Lemma changes_ok : Forall change_ok (settings_changes f (JObj o)).
Proof using Hf Hs.
  destruct (key_type_text "vertex_key_type" "json") as (s1 & E1 & _ & V1); [listed|].
  destruct (key_type_text "aws_key_type" "ak_sk") as (s2 & E2 & _ & V2); [listed|].
  destruct (setting_text "azure_responses_version") as (s3 & E3 & V3); [listed|].
  destruct (setting_text "upstream_model_update_ignored_models") as (s4 & E4 & V4); [listed|].
  pose proof settings_source as Ho. unfold settings_changes; cbv zeta. rewrite E1, E2. repeat (apply Forall_app; split).
  - repeat (apply Forall_cons; split; [apply keep_ok; [payload_key..|]|]); try (intros _; done).
    + intros [_ Hb]%andb_true_iff. by rewrite (or_empty_str _ _ E3 Hb).
    + apply Forall_cons. split; [|constructor]. split_and!; [payload_key..|done].
  - destruct (among _ _); [|constructor]. repeat (apply Forall_cons; split; [split_and!; [payload_key..|cbn [snd]]|]); [done|done| | | |constructor].
    + apply json_ok_arr, Forall_map. destruct (ignored_models_spec f s4 E4 V4) as [_ H]. eapply Forall_impl; [exact H|]. by intros m [_ ?].
    + destruct (member _ (JObj o)) as [| | | | |l|] eqn:E; try done. destruct (is_true _); [|done].
      by destruct (json_ok_member _ _ _ Ho E).
    + destruct (member _ (JObj o)) as [| | |n| | |] eqn:E; try done. by destruct (json_ok_member _ _ _ Ho E).
  - destruct (is_num _ _) eqn:Et; [|by apply Forall_singleton; split_and!; [payload_key..|]].
    destruct (fo_advanced f Hf Et) as (c & -> & Hc). apply Forall_singleton. by split_and!; [payload_key..|].
Qed.

(** The text of the settings is read as the changed settings. *)
Lemma settings_text :
  ∃ t, buildSettingsJSON f = Some t ∧ t ≠ [] ∧ JSON_parse t = Some (JObj (new_settings f o)) ∧ NoDup (okeys (new_settings f o)).
Proof using Hf Hs.
  unfold buildSettingsJSON. rewrite Hs. exists (compact (JObj (new_settings f o))).
  assert (json_ok (JObj (new_settings f o))) as Hj by (apply json_ok_changes; [apply changes_ok|apply settings_source]).
  split_and!; [done|by apply stringify_nonempty|by apply stringify_reads|apply NoDup_changes, settings_NoDup].
Qed.
End settings.

(** ** Payloads *)

Definition blank_value (v : jval) : Prop := to_boolean v = false ∧ match v with JNull | JUndefined | JStr _ => True | _ => False end.

(** A stored value is the one sent, where nothing, [null] and the empty text are the same. *)
Definition same_stored (v w : jval) : Prop := v = w ∨ (blank_value v ∧ blank_value w).

(** A channel that stores what a payload sends. *)
Definition stores (channel payload : jval) : Prop :=
  Forall (λ kv, kv.1 = ("key" : jstring) ∨ same_stored (member kv.1 channel) kv.2) (props payload).

Lemma same_or_empty v w : same_stored v w → or_empty v = or_empty w.
Proof. intros [->|[[Hv _] [Hw _]]]; [done|]. unfold or_empty. by rewrite !js_or_falsy. Qed.

Lemma same_js_or v w d : same_stored v w → js_or v d = js_or w d.
Proof. intros [->|[[Hv _] [Hw _]]]; [done|]. by rewrite !js_or_falsy. Qed.

Lemma same_num v n : same_stored v (JNum n) → v = JNum n.
Proof. by intros [->|[_ [_ []]]]. Qed.

Lemma same_text v s : same_stored v (JStr s) → s ≠ [] → v = JStr s.
Proof. intros [->|[_ [Hb _]]] Hs; [done|]. by destruct s. Qed.

Definition cleaned (v : jval) : jval := if is_str v [] then JNull else v.

Lemma js_or_cleaned v d : js_or (cleaned v) d = js_or v d.
Proof.
  unfold cleaned. destruct v as [| | | |s| |]; try done. cbn [is_str]. case_bool_decide; [by subst|done].
Qed.

Lemma js_or_null v d : js_or (cleaned (or_null v)) d = js_or v d.
Proof. rewrite js_or_cleaned. unfold or_null, js_or. destruct (to_boolean v) eqn:E; [by rewrite E|done]. Qed.

Lemma or_empty_cleaned v : or_empty (cleaned v) = or_empty v.
Proof. apply js_or_cleaned. Qed.

Lemma or_empty_null v : or_empty (cleaned (or_null v)) = or_empty v.
Proof. apply js_or_null. Qed.

Lemma js_or_coalesce v d : js_or (cleaned (coalesce v d)) d = js_or v d.
Proof. rewrite js_or_cleaned. unfold coalesce. destruct v; try done; cbn [is_nullish]; unfold js_or; by destruct (to_boolean d). Qed.

(** What the payloads of a form have in common: the texts, the group and the address up to
    an empty text, the numbers up to a missing one, and the two texts of settings. *)
Record payload_of (f p : jval) (t : jstring) : Prop := {
  po_texts : ∀ k, k ∈ ("name" : jstring) :: ("models" : jstring) :: PLAIN_FIELDS → ∃ v, oget k (props p) = Some v ∧ or_empty v = or_empty (member k f);
  po_url : ∃ v, oget "base_url" (props p) = Some v ∧ or_empty v = JStr (normalizeBaseUrl (member "base_url" f));
  po_group : ∃ v, oget "group" (props p) = Some v ∧ or_empty v = or_empty (group_text f);
  po_numbers : ∀ k, k ∈ ["priority" : jstring; "weight" : jstring] → ∃ v, oget k (props p) = Some v ∧ js_or v (JNum zero) = js_or (member k f) (JNum zero);
  po_auto_ban : oget "auto_ban" (props p) = Some (cleaned (coalesce (member "auto_ban" f) (JNum (of_Z 1))));
  po_type : oget "type" (props p) = Some (cleaned (member "type" f));
  po_setting : oget "setting" (props p) = Some (JStr (buildSettingJSON f));
  po_settings : oget "settings" (props p) = Some (JStr t);
}.

Definition id_part (f id : jval) : list (jstring * jval) := [("id", cleaned id)].

(** The payload of an update, field by field. *)
Definition update_fields (f id : jval) (t : jstring) : list (jstring * jval) := [
  ("id", cleaned id); ("name", cleaned (member "name" f)); ("type", cleaned (member "type" f));
  ("base_url", JStr (normalizeBaseUrl (member "base_url" f))); ("openai_organization", or_empty (member "openai_organization" f));
  ("models", cleaned (member "models" f)); ("group", cleaned (group_text f)); ("model_mapping", or_empty (member "model_mapping" f));
  ("priority", cleaned (coalesce (member "priority" f) (JNum zero))); ("weight", cleaned (coalesce (member "weight" f) (JNum zero)));
  ("test_model", or_empty (member "test_model" f)); ("auto_ban", cleaned (coalesce (member "auto_ban" f) (JNum (of_Z 1))));
  ("status_code_mapping", or_empty (member "status_code_mapping" f)); ("tag", or_empty (member "tag" f));
  ("remark", or_empty (member "remark" f)); ("setting", cleaned (JStr (buildSettingJSON f)));
  ("param_override", or_empty (member "param_override" f)); ("header_override", or_empty (member "header_override" f));
  ("settings", cleaned (JStr t)); ("other", cleaned (or_empty (member "other" f)))].

Definition key_field (f : jval) : list (jstring * jval) := if filled (member "key" f) then [("key" : jstring, cleaned (member "key" f))] else [].

Lemma update_payload f id t : buildSettingsJSON f = Some t →
  transformFormDataToUpdatePayload f id = Some (JObj (update_fields f id t ++ key_field f)).
Proof.
  intros E. unfold transformFormDataToUpdatePayload. rewrite E. cbn [mbind option_bind]. unfold update_fields, key_field.
  generalize (normalizeBaseUrl (member "base_url" f)) (buildSettingJSON f) (group_text f). intros url setting group.
  generalize (filled (member "key" f)). intros b. f_equal. f_equal.
  destruct b; reflexivity.
Qed.

Lemma setting_nonempty f : buildSettingJSON f ≠ [].
Proof. unfold buildSettingJSON, compact, JSON_stringify. cbn [stringify_at default from_option id]. unfold bracketed. by case_match. Qed.

Lemma cleaned_text s : s ≠ [] → cleaned (JStr s) = JStr s.
Proof. intros Hs. unfold cleaned. cbn [is_str]. by rewrite bool_decide_eq_false_2. Qed.

Lemma update_payload_of f id t p : buildSettingsJSON f = Some t → t ≠ [] →
  transformFormDataToUpdatePayload f id = Some p → payload_of f p t.
Proof.
  intros E Ht. rewrite (update_payload f id t E). intros [= <-]. cbn [props]. unfold update_fields, key_field.
  assert (∀ k v, oget k (update_fields f id t) = Some v → oget k (update_fields f id t ++ key_field f) = Some v) as Hl.
  { intros k v Hk. by rewrite oget_app, Hk. }
  fold (update_fields f id t) (key_field f). split.
  - apply Forall_forall. repeat (apply Forall_cons; split); [..|constructor]; (eexists; split; [apply Hl; reflexivity|]);
      first [apply or_empty_cleaned|apply or_empty_idemp|by rewrite or_empty_cleaned, or_empty_idemp].
  - eexists. split; [apply Hl; reflexivity|]. unfold or_empty, js_or. cbn [to_boolean]. by destruct (normalizeBaseUrl _).
  - eexists. split; [apply Hl; reflexivity|]. apply or_empty_cleaned.
  - apply Forall_forall. repeat (apply Forall_cons; split); [..|constructor]; (eexists; split; [apply Hl; reflexivity|]);
      apply js_or_coalesce.
  - apply Hl. reflexivity.
  - apply Hl. reflexivity.
  - apply Hl. transitivity (Some (cleaned (JStr (buildSettingJSON f)))); [reflexivity|]. by rewrite cleaned_text by apply setting_nonempty.
  - apply Hl. transitivity (Some (cleaned (JStr t))); [reflexivity|]. by rewrite cleaned_text.
Qed.

Lemma create_payload_of f t p : buildSettingsJSON f = Some t → t ≠ [] →
  transformFormDataToCreatePayload f = Some p → payload_of f (cp_channel p) t.
Proof.
  intros E Ht. unfold transformFormDataToCreatePayload. rewrite E. cbn [mbind option_bind]. intros [= <-]. cbn [cp_channel props].
  split.
  - apply Forall_forall. repeat (apply Forall_cons; split); [..|constructor]; (eexists; split; [reflexivity|]);
      first [apply or_empty_cleaned|apply or_empty_null|etransitivity; [apply or_empty_cleaned|apply or_empty_idemp]].
  - eexists. split; [reflexivity|]. etransitivity; [apply or_empty_null|]. unfold or_empty, js_or. cbn [to_boolean]. by destruct (normalizeBaseUrl _).
  - exists (cleaned (group_text f)). split; [reflexivity|apply or_empty_cleaned].
  - apply Forall_forall. repeat (apply Forall_cons; split); [..|constructor]; (eexists; split; [reflexivity|]);
      apply js_or_null.
  - reflexivity.
  - reflexivity.
  - transitivity (Some (cleaned (JStr (buildSettingJSON f)))); [reflexivity|]. by rewrite cleaned_text by apply setting_nonempty.
  - transitivity (Some (cleaned (JStr t))); [reflexivity|]. by rewrite cleaned_text.
Qed.

(** ** The form that is opened *)

Section reload.
Context (f c p : jval) (t : jstring) (o : list (jstring * jval)) (mk : jval).
Hypothesis Hf : form_ok f.
Hypothesis Hs : parsed_settings f = JObj o.
Hypothesis Ht : buildSettingsJSON f = Some t.
Hypothesis Hp : payload_of f p t.
Hypothesis Hstored : stores c p.
Hypothesis Hmk : prop "multi_key_mode" (member "channel_info" c) = Some mk.

Lemma stored_field k v : oget k (props p) = Some v → k ≠ "key" → same_stored (member k c) v.
Proof using Hstored.
  intros Hk Hne. apply oget_Some_elem_of in Hk. unfold stores in Hstored. rewrite Forall_forall in Hstored. by destruct (Hstored (k, v) Hk).
Qed.

Lemma stored_text k : k ∈ ("name" : jstring) :: ("models" : jstring) :: PLAIN_FIELDS → or_empty (member k c) = or_empty (member k f).
Proof using Hp Hstored.
  intros Hk. destruct (po_texts _ _ _ Hp k Hk) as (v & E & <-). apply same_or_empty, stored_field; [done|].
  intros ->. revert Hk. by apply (bool_decide_unpack _).
Qed.

Lemma stored_number k : k ∈ ["priority" : jstring; "weight" : jstring] → js_or (member k c) (JNum zero) = coalesce (member k f) (JNum zero).
Proof using Hp Hstored Hf.
  intros Hk. destruct (po_numbers _ _ _ Hp k Hk) as (v & E & Ev).
  assert (same_stored (member k c) v) as Hst by (apply stored_field; [done|]; intros ->; revert Hk; by apply (bool_decide_unpack _)).
  rewrite (same_js_or _ _ _ Hst), Ev. pose proof (fo_numbers f Hf) as H. rewrite Forall_forall in H. destruct (H k Hk) as (n & En & Hn).
  rewrite En. unfold coalesce in En. destruct (member k f) as [| | |m| | |]; cbn [is_nullish] in En; try done.
  injection En as ->. unfold js_or. cbn [to_boolean]. destruct Hn as [->|Hn]; [done|]. by rewrite Hn.
Qed.

Lemma stored_settings : member "settings" c = JStr t ∧ t ≠ [] ∧ JSON_parse t = Some (JObj (new_settings f o)) ∧ NoDup (okeys (new_settings f o)).
Proof using Hp Hstored Hf Hs Ht.
  destruct (settings_text f o Hf Hs) as (t' & E & Hne & Hparse & Hn). rewrite Ht in E. injection E as <-.
  split_and!; [|done..]. apply same_text; [|done]. apply stored_field; [apply (po_settings _ _ _ Hp)|done].
Qed.

Lemma readable_text s v : JSON_parse s = Some v → s ≠ [] → is_nullish v = false → readable (JStr s) = Some v.
Proof. intros E Hne Hv. unfold readable. cbn [to_boolean]. apply truthy_spec in Hne as ->. cbn [text mbind option_bind]. rewrite E. cbn. by rewrite Hv. Qed.

(** The form opened for the channel. *)
Definition opened : jval := default JUndefined (transformChannelToFormDefaults c).

Lemma opened_form : transformChannelToFormDefaults c = Some opened.
Proof using Hmk. unfold opened, transformChannelToFormDefaults. by rewrite Hmk. Qed.

(** The fields of the channel in the form. *)
Lemma opened_field k : k ∈ ("name" : jstring) :: ("models" : jstring) :: PLAIN_FIELDS → member k opened = or_empty (member k c).
Proof using Hmk.
  unfold opened, transformChannelToFormDefaults. rewrite Hmk. cbn [mbind option_bind default from_option id]. revert k. apply Forall_forall.
  repeat (apply Forall_cons; split); [..|constructor]; reflexivity.
Qed.

Lemma opened_others :
  member "type" opened = member "type" c ∧ member "base_url" opened = or_empty (member "base_url" c) ∧
  member "group" opened = JArr (map JStr (parseGroups (to_js_string (or_empty (member "group" c))))) ∧
  member "priority" opened = js_or (member "priority" c) (JNum zero) ∧ member "weight" opened = js_or (member "weight" c) (JNum zero) ∧
  member "auto_ban" opened = coalesce (member "auto_ban" c) (JNum (of_Z 1)) ∧ member "key" opened = JStr [] ∧
  member "settings" opened = js_or (member "settings" c) (JStr "{}").
Proof using Hmk.
  unfold opened, transformChannelToFormDefaults. rewrite Hmk. cbn [mbind option_bind default from_option id]. split_and!; reflexivity.
Qed.

Lemma opened_setting k : k ∈ okeys (extraSettings (member "setting" c)) → member k opened = member k (JObj (extraSettings (member "setting" c))).
Proof using Hmk.
  unfold opened, transformChannelToFormDefaults. rewrite Hmk. cbn [mbind option_bind default from_option id]. revert k. apply Forall_forall.
  repeat (apply Forall_cons; split); [..|constructor]; reflexivity.
Qed.

Lemma opened_type_setting k : k ∈ okeys (type_settings (member "settings" c)) → member k opened = member k (JObj (type_settings (member "settings" c))).
Proof using Hmk.
  unfold opened, transformChannelToFormDefaults. rewrite Hmk. cbn [mbind option_bind default from_option id]. revert k. apply Forall_forall.
  repeat (apply Forall_cons; split); [..|constructor]; reflexivity.
Qed.

Lemma setting_json : json_ok (JObj [
    ("force_format", js_or (member "force_format" f) (JBool false)); ("thinking_to_content", js_or (member "thinking_to_content" f) (JBool false));
    ("proxy", or_empty (member "proxy" f)); ("pass_through_body_enabled", js_or (member "pass_through_body_enabled" f) (JBool false));
    ("system_prompt", or_empty (member "system_prompt" f)); ("system_prompt_override", js_or (member "system_prompt_override" f) (JBool false))]).
Proof using Hf.
  pose proof (fo_flags f Hf) as Hflags. rewrite Forall_forall in Hflags.
  assert (∀ k, k ∈ SETTING_FLAGS → json_ok (js_or (member k f) (JBool false))) as Hb by (intros k Hk; by destruct (Hflags k Hk) as [b ->]).
  assert (∀ k, k ∈ SETTING_TEXTS → json_ok (or_empty (member k f))) as Ht' by (intros k Hk; by destruct (setting_text f Hf k Hk) as (s & -> & ?)).
  apply json_ok_obj. split; [by apply (bool_decide_unpack _); vm_compute|]. split; [done|].
  repeat (apply Forall_cons; split; [split; [by apply valid_units_b|]; first [apply Hb|apply Ht']; by apply (bool_decide_unpack _); vm_compute|]). constructor.
Qed.

(** The settings of all types come back. *)
Lemma opened_extra :
  Forall (λ k, member k opened = js_or (member k f) (JBool false)) SETTING_FLAGS ∧
  Forall (λ k, member k opened = or_empty (member k f)) ["proxy"; "system_prompt"].
Proof using Hf Hmk Hp Hstored.
  assert (member "setting" c = JStr (buildSettingJSON f)) as E.
  { apply same_text; [|apply setting_nonempty]. apply stored_field; [apply (po_setting _ _ _ Hp)|done]. }
  pose proof (readable_text _ _ (stringify_reads None _ setting_json) (setting_nonempty f) eq_refl) as Hr.
  assert (∀ k, k ∈ okeys (extraSettings (JStr [])) → member k opened = member k (JObj (extraSettings (JStr (buildSettingJSON f))))) as Hk.
  { intros k Hk. rewrite <- E. by apply opened_setting. }
  unfold extraSettings in Hk at 2. change (readable (JStr (buildSettingJSON f))) with (readable (JStr (default [] (JSON_stringify None (JObj [
    ("force_format", js_or (member "force_format" f) (JBool false)); ("thinking_to_content", js_or (member "thinking_to_content" f) (JBool false));
    ("proxy", or_empty (member "proxy" f)); ("pass_through_body_enabled", js_or (member "pass_through_body_enabled" f) (JBool false));
    ("system_prompt", or_empty (member "system_prompt" f)); ("system_prompt_override", js_or (member "system_prompt_override" f) (JBool false))]))))) in Hk.
  rewrite Hr in Hk. cbv zeta in Hk. split.
  - repeat (apply Forall_cons; split; [rewrite Hk by (by apply (bool_decide_unpack _); vm_compute); apply js_or_idemp|]). constructor.
  - repeat (apply Forall_cons; split; [rewrite Hk by (by apply (bool_decide_unpack _); vm_compute); apply js_or_idemp|]). constructor.
Qed.

(** The setting of a key among the settings that were stored. *)
Lemma opened_type_value k : k ∈ okeys (type_settings (JStr [])) → member k opened = member k (JObj (type_settings (JStr t))).
Proof using Hf Hmk Hp Hs Hstored Ht. intros Hk. destruct stored_settings as (E & _). rewrite <- E. by apply opened_type_setting. Qed.

Lemma stored_readable : readable (JStr t) = Some (JObj (new_settings f o)).
Proof using Hf Hp Hs Hstored Ht. destruct stored_settings as (_ & Hne & Hparse & _). by apply readable_text. Qed.

(** A flag that the form of a type has. *)
Definition TYPE_FLAGS : list (jstring * jstring * list Z) := [
  ("is_enterprise_account", "openrouter_enterprise", [20]%Z); ("allow_service_tier", "allow_service_tier", [1; 14]%Z);
  ("disable_store", "disable_store", [1]%Z); ("allow_safety_identifier", "allow_safety_identifier", [1]%Z);
  ("allow_include_obfuscation", "allow_include_obfuscation", [1]%Z); ("allow_inference_geo", "allow_inference_geo", [1; 14]%Z);
  ("allow_speed", "allow_speed", [14]%Z); ("claude_beta_query", "claude_beta_query", [14]%Z)].

Lemma among_one z v : among [z] v = is_num v z.
Proof. unfold among. cbn [existsb]. apply orb_false_r. Qed.

Lemma opened_flags :
  Forall (λ '(k, _, types), member k opened = JBool (among types (member "type" f) && is_true (member k f))) TYPE_FLAGS ∧
  member "disable_task_polling_sleep" opened = JBool (is_true (member "disable_task_polling_sleep" f)).
Proof using Hf Hmk Hp Hs Hstored Ht.
  assert (∀ k, k ∈ okeys (type_settings (JStr [])) → member k opened = member k (JObj (type_settings (JStr t)))) as Hk by apply opened_type_value.
  unfold type_settings in Hk at 2. rewrite stored_readable in Hk. cbv zeta in Hk. cbn [default from_option id] in Hk.
  destruct stored_settings as (_ & _ & _ & Hn). destruct (type_key_values f o (settings_NoDup f o Hf Hs)) as (E1 & E2 & E3 & E4 & E5 & E6 & E7 & E8 & E9 & E10 & E11 & E12).
  assert (∀ k (b : bool) v, oget k (new_settings f o) = (if b then Some (JBool v) else None) → JBool (is_true (member k (JObj (new_settings f o)))) = JBool (b && v)) as Hflag.
  { intros k b v Ek. cbn [member]. rewrite Ek. by destruct b, v. }
  split.
  - repeat (apply Forall_cons; split; [rewrite Hk by (by apply (bool_decide_unpack _); vm_compute); rewrite ?among_one|]); [..|constructor].
    all: etransitivity; [|first [exact (Hflag _ _ _ E3)|exact (Hflag _ _ _ E5)|exact (Hflag _ _ _ E6)|exact (Hflag _ _ _ E7)
      |exact (Hflag _ _ _ E8)|exact (Hflag _ _ _ E9)|exact (Hflag _ _ _ E10)|exact (Hflag _ _ _ E11)]]; reflexivity.
  - rewrite Hk by (by apply (bool_decide_unpack _); vm_compute). exact (Hflag "disable_task_polling_sleep" true _ E12).
Qed.

Ltac read_setting Hk := rewrite Hk by (by apply (bool_decide_unpack _); vm_compute).

Lemma opened_texts :
  member "vertex_key_type" opened = (if is_num (member "type" f) 41 then js_or (member "vertex_key_type" f) (JStr "json") else JStr "json") ∧
  member "aws_key_type" opened = (if is_num (member "type" f) 33 then js_or (member "aws_key_type" f) (JStr "ak_sk") else JStr "ak_sk") ∧
  member "azure_responses_version" opened = (if is_num (member "type" f) 3 then or_empty (member "azure_responses_version" f) else JStr []).
Proof using Hf Hmk Hp Hs Hstored Ht.
  assert (∀ k, k ∈ okeys (type_settings (JStr [])) → member k opened = member k (JObj (type_settings (JStr t)))) as Hk by apply opened_type_value.
  unfold type_settings in Hk at 2. rewrite stored_readable in Hk. cbv zeta in Hk. cbn [default from_option id] in Hk.
  destruct (type_key_values f o (settings_NoDup f o Hf Hs)) as (E1 & E2 & _ & E4 & _).
  assert (∀ k d (b : bool) v, oget k (new_settings f o) = (if b then Some (js_or v d) else None) →
    js_or (member k (JObj (new_settings f o))) d = (if b then js_or v d else d)) as Hor.
  { intros k d b v Ek. cbn [member]. rewrite Ek. destruct b; [apply js_or_idemp|done]. }
  split_and!.
  - read_setting Hk. etransitivity; [|exact (Hor _ _ _ _ E1)]. reflexivity.
  - read_setting Hk. etransitivity; [|exact (Hor _ _ _ _ E4)]. reflexivity.
  - read_setting Hk. transitivity (or_empty (member "azure_responses_version" (JObj (new_settings f o)))); [reflexivity|].
    cbn [member]. rewrite E2. destruct (is_num _ 3); [|done]. cbn [andb]. destruct (to_boolean (member "azure_responses_version" f)) eqn:Eb; [done|].
    unfold or_empty. by rewrite !js_or_falsy.
Qed.

(** The models to ignore as the text of the form. *)
Definition ignored_text : jval := JStr (join "," (ignored_models f)).

Lemma opened_updates : among MODEL_FETCHABLE_TYPES (member "type" f) = true →
  let check := is_true (member "upstream_model_update_check_enabled" f) in
  member "upstream_model_update_check_enabled" opened = JBool check ∧
  member "upstream_model_update_auto_sync_enabled" opened
  = JBool (check && is_true (member "upstream_model_update_auto_sync_enabled" f)) ∧
  member "upstream_model_update_ignored_models" opened = ignored_text.
Proof using Hf Hmk Hp Hs Hstored Ht.
  intros Ef check.
  assert (∀ k, k ∈ okeys (type_settings (JStr [])) → member k opened = member k (JObj (type_settings (JStr t)))) as Hk by apply opened_type_value.
  unfold type_settings in Hk at 2. rewrite stored_readable in Hk. cbv zeta in Hk. cbn [default from_option id] in Hk.
  pose proof (update_key_values f o (settings_NoDup f o Hf Hs)) as H. rewrite Ef in H. destruct H as (E1 & E2 & E3 & _).
  split_and!; read_setting Hk.
  - transitivity (JBool (is_true (member "upstream_model_update_check_enabled" (JObj (new_settings f o))))); [reflexivity|].
    cbn [member]. rewrite E1. cbn. by destruct (is_true _).
  - transitivity (JBool (is_true (member "upstream_model_update_auto_sync_enabled" (JObj (new_settings f o))))); [reflexivity|].
    cbn [member]. rewrite E2. cbn. unfold check. by destruct (_ && _).
  - transitivity (match member "upstream_model_update_ignored_models" (JObj (new_settings f o)) with JArr l => JStr (to_js_string (JArr l)) | _ => JStr [] end); [reflexivity|].
    cbn [member]. rewrite E3. cbn [default from_option id]. by rewrite join_strings.
Qed.

Lemma opened_ignored : among MODEL_FETCHABLE_TYPES (member "type" f) = true → ignored_models opened = ignored_models f.
Proof using Hf Hmk Hp Hs Hstored Ht.
  intros Ef. destruct (opened_updates Ef) as (_ & _ & E). unfold ignored_models at 1. rewrite E.
  destruct (setting_text f Hf "upstream_model_update_ignored_models") as (s & Es & Hv); [by apply (bool_decide_unpack _); vm_compute|].
  destruct (ignored_models_spec f s Es Hv) as [Hn Hnames].
  assert (to_js_string (or_empty ignored_text) = join "," (ignored_models f)) as ->.
  { unfold or_empty, js_or, ignored_text. cbn [to_boolean]. by destruct (join _ _). }
  rewrite names_of_join; [by apply new_set_NoDup|]. eapply Forall_impl; [exact Hnames|]. by intros m [? _].
Qed.

Lemma opened_advanced : is_num (member "type" f) CHANNEL_TYPE_ADVANCED_CUSTOM = true →
  parseAdvancedCustomConfig (text (member "advanced_custom" opened)) = parseAdvancedCustomConfig (text (member "advanced_custom" f)).
Proof using Hf Hmk Hp Hs Hstored Ht.
  intros Et. destruct (fo_advanced f Hf Et) as (cfg & Ec & Hok). pose proof (advanced_value f o (settings_NoDup f o Hf Hs)) as E.
  rewrite Et, Ec in E.
  assert (∀ k, k ∈ okeys (type_settings (JStr [])) → member k opened = member k (JObj (type_settings (JStr t)))) as Hk by apply opened_type_value.
  unfold type_settings in Hk at 2. rewrite stored_readable in Hk. cbv zeta in Hk. cbn [default from_option id] in Hk.
  assert (∃ v, normalizeAdvancedCustomConfig v = Some cfg) as [v Hv].
  { unfold parseAdvancedCustomConfig in Ec. destruct (negb _); [done|]. destruct (JSON_parse _) as [[]|]; try done. by eexists. }
  destruct (normalize_shape _ _ Hv) as (rs & Ecfg & _). pose proof (normalize_idemp _ _ Hv) as Hi.
  destruct (advanced_custom_roundtrip cfg cfg Hi Hok) as (_ & tx & Etx & Eparse).
  rewrite Ec. read_setting Hk.
  transitivity (parseAdvancedCustomConfig (text (JStr (if to_boolean (member "advanced_custom" (JObj (new_settings f o)))
    then default [] (stringifyAdvancedCustomConfig (member "advanced_custom" (JObj (new_settings f o)))) else [])))); [reflexivity|].
  cbn [member]. rewrite E. cbn [default from_option id]. assert (to_boolean cfg = true) as -> by by rewrite Ecfg. by rewrite Etx.
Qed.

Lemma opened_type : member "type" opened = member "type" f.
Proof using Hf Hmk Hp Hstored.
  destruct opened_others as (E & _). rewrite E. destruct (fo_type f Hf) as (n & En).
  pose proof (stored_field _ _ (po_type _ _ _ Hp) ltac:(done)) as H. rewrite En in *. by apply same_num in H.
Qed.

Lemma is_true_bool b : is_true (JBool b) = b.
Proof. by destruct b. Qed.

(** Opening and saving again changes none of the settings. *)
Lemma settings_stay : Forall (λ ch, oget ch.1 (new_settings f o) = ch.2) (settings_changes opened (JObj (new_settings f o))).
Proof using Hf Hmk Hp Hs Hstored Ht.
  pose proof opened_type as Ety. destruct opened_flags as [Hflags Hsleep]. destruct opened_texts as (Evk & Eaws & Eaz).
  pose proof (settings_NoDup f o Hf Hs) as Hn. destruct (type_key_values f o Hn) as (E1 & E2 & E3 & E4 & E5 & E6 & E7 & E8 & E9 & E10 & E11 & E12).
  unfold TYPE_FLAGS in Hflags. rewrite !Forall_cons, !among_one in Hflags. destruct Hflags as (F1 & F2 & F3 & F4 & F5 & F6 & F7 & F8 & _).
  unfold settings_changes; cbv zeta. rewrite Ety. repeat (apply Forall_app; split).
  - rewrite F1, F2, F3, F4, F5, F6, F7, F8, Hsleep, Evk, Eaws, Eaz.
    assert (∀ k (b b' : bool) v v', oget k (new_settings f o) = (if b then Some v else None) → b' = b → (b = true → v' = v) →
      oget (keep b' k v').1 (new_settings f o) = (keep b' k v').2) as Hkeep.
    { intros k b b' v v' Ek -> Hv. change (oget k (new_settings f o) = if b then Some v' else None). rewrite Ek. destruct b; [|done]. by rewrite Hv. }
    repeat (apply Forall_cons; split); [..|constructor].
    all: try (eapply Hkeep; [first [exact E3|exact E5|exact E6|exact E7|exact E8|exact E9|exact E10|exact E11]|done|intros Hb; by rewrite Hb, is_true_bool]).
    + eapply Hkeep; [exact E1|done|intros ->; apply js_or_idemp].
    + eapply Hkeep; [exact E2|..].
      * destruct (is_num _ 3); [|done]. cbn [andb]. unfold or_empty, js_or. destruct (to_boolean (member _ f)) eqn:Eb; [done|reflexivity].
      * intros [-> Hb]%andb_true_iff. by apply js_or_truthy.
    + eapply Hkeep; [exact E4|done|intros ->; apply js_or_idemp].
    + cbn [fst snd]. rewrite E12. by rewrite is_true_bool.
  - destruct (among MODEL_FETCHABLE_TYPES (member "type" f)) eqn:Ef; [|constructor].
    pose proof (update_key_values f o Hn) as H. rewrite Ef in H. destruct H as (U1 & U2 & U3 & U4 & U5).
    destruct (opened_updates Ef) as (O1 & O2 & _). rewrite (opened_ignored Ef), O1, O2, !is_true_bool.
    repeat (apply Forall_cons; split); [..|constructor]; cbn [fst snd].
    + exact U1.
    + rewrite U2. by destruct (is_true (member "upstream_model_update_check_enabled" f)).
    + done.
    + rewrite U4. change (member "upstream_model_update_last_detected_models" (JObj (new_settings f o))) with (default JUndefined (oget "upstream_model_update_last_detected_models" (new_settings f o))).
      rewrite U4. cbn [default from_option id].
      by destruct (member "upstream_model_update_last_detected_models" (JObj o)), (is_true (member "upstream_model_update_check_enabled" f)).
    + rewrite U5. change (member "upstream_model_update_last_check_time" (JObj (new_settings f o))) with (default JUndefined (oget "upstream_model_update_last_check_time" (new_settings f o))).
      rewrite U5. cbn [default from_option id]. by destruct (member "upstream_model_update_last_check_time" (JObj o)).
  - pose proof (advanced_value f o Hn) as E. destruct (is_num _ CHANNEL_TYPE_ADVANCED_CUSTOM) eqn:Et.
    + rewrite (opened_advanced Et). destruct (parseAdvancedCustomConfig _) as [cfg|]; [|constructor]. by apply Forall_singleton.
    + by apply Forall_singleton.
Qed.

Lemma settings_saved_again : buildSettingsJSON opened = Some t.
Proof using Hf Hmk Hp Hs Hstored Ht.
  destruct stored_settings as (E & Hne & Hparse & _). destruct opened_others as (_ & _ & _ & _ & _ & _ & _ & Eset).
  assert (parsed_settings opened = JObj (new_settings f o)) as Eparsed.
  { unfold parsed_settings. rewrite Eset, E. unfold js_or. cbn [to_boolean]. rewrite (proj2 (truthy_spec _) Hne). cbn [text].
    rewrite (proj2 (truthy_spec _) Hne). cbn [andb]. case_bool_decide as Eb; cbn [negb]; [|by rewrite Hparse].
    assert (JSON_parse "{}" = Some (JObj [])) as E0 by (vm_compute; reflexivity). rewrite Eb, E0 in Hparse. congruence. }
  unfold buildSettingsJSON. rewrite Eparsed. fold (new_settings opened (new_settings f o)). unfold new_settings at 1.
  rewrite (changes_id _ _ settings_stay). unfold buildSettingsJSON in Ht. by rewrite Hs in Ht.
Qed.

(** ** The same payload again *)

Lemma drop_slashes_idemp s : drop_slashes (drop_slashes s) = drop_slashes s.
Proof. induction s as [|x s IH]; [done|]. cbn [drop_slashes]. destruct (x =? cu "/")%N eqn:E; [exact IH|]. cbn [drop_slashes]. by rewrite E. Qed.

Lemma normalizeBaseUrl_again v : trimmed (normalizeBaseUrl v) → normalizeBaseUrl (JStr (normalizeBaseUrl v)) = normalizeBaseUrl v.
Proof.
  intros Htr. unfold normalizeBaseUrl at 1. assert (to_js_string (or_empty (JStr (normalizeBaseUrl v))) = normalizeBaseUrl v) as ->.
  { unfold or_empty, js_or. cbn [to_boolean]. by destruct (normalizeBaseUrl v). }
  rewrite trim_id by done. unfold normalizeBaseUrl. by rewrite reverse_involutive, drop_slashes_idemp.
Qed.

Lemma or_empty_JStr s : or_empty (JStr s) = JStr s.
Proof. by destruct s. Qed.

Lemma opened_fields id : update_fields opened id t = update_fields f id t.
Proof using Hf Hmk Hp Hs Hstored Ht.
  destruct opened_others as (_ & Eurl & Egroup & Eprio & Eweight & Eban & _). destruct opened_extra as [Hflags Htexts].
  assert (∀ k, k ∈ ("name" : jstring) :: ("models" : jstring) :: PLAIN_FIELDS → member k opened = or_empty (member k f)) as Htext.
  { intros k Hk. by rewrite opened_field, stored_text. }
  assert (∀ k, k ∈ PLAIN_FIELDS → or_empty (member k opened) = or_empty (member k f)) as Hplain.
  { intros k Hk. rewrite Htext by (by right; right). apply or_empty_idemp. }
  assert (∀ k, k ∈ ["name" : jstring; "models" : jstring] → member k opened = member k f) as Hreq.
  { intros k Hk. pose proof (fo_required f Hf) as H. rewrite Forall_forall in H. destruct (H k Hk) as [s Es].
    rewrite Htext, Es; [apply or_empty_JStr|]. apply elem_of_cons in Hk as [->|[->|[]%elem_of_nil]%elem_of_cons]; [left|right; left]. }
  assert (normalizeBaseUrl (member "base_url" opened) = normalizeBaseUrl (member "base_url" f)) as Hurl.
  { rewrite Eurl. destruct (po_url _ _ _ Hp) as (v & Ev & Eo). rewrite (same_or_empty _ v), Eo by (by apply stored_field).
    apply normalizeBaseUrl_again, (fo_url f Hf). }
  assert (group_text opened = group_text f) as Hgroup.
  { destruct (fo_group f Hf) as (gs & Eg & Hgs). destruct (po_group _ _ _ Hp) as (v & Ev & Eo).
    unfold group_text. rewrite Egroup, (same_or_empty _ v), Eo by (by apply stored_field). unfold group_text. rewrite Eg, join_strings.
    rewrite or_empty_JStr. f_equal. cbn [to_js_string]. unfold parseGroups. rewrite !map_map, !map_id. f_equal. by apply (names_of_join (cu ",")). }
  assert (∀ k, k ∈ ["priority" : jstring; "weight" : jstring] → js_or (member k c) (JNum zero) = coalesce (member k f) (JNum zero)) as Hnum
    by apply stored_number.
  assert (∀ v, coalesce (coalesce v (JNum zero)) (JNum zero) = coalesce v (JNum zero)) as Hco by (intros v; by destruct v).
  assert (coalesce (member "auto_ban" opened) (JNum (of_Z 1)) = coalesce (member "auto_ban" f) (JNum (of_Z 1))) as Hban.
  { rewrite Eban. destruct (fo_auto_ban f Hf) as (n & En). pose proof (stored_field _ _ (po_auto_ban _ _ _ Hp) ltac:(done)) as H.
    rewrite En in *. apply same_num in H. by rewrite H. }
  assert (buildSettingJSON opened = buildSettingJSON f) as Hset.
  { rewrite Forall_forall in Hflags, Htexts.
    assert (∀ k, k ∈ SETTING_FLAGS → js_or (member k opened) (JBool false) = js_or (member k f) (JBool false)) as Hflag.
    { intros k Hk. rewrite Hflags by done. apply js_or_idemp. }
    assert (∀ k, k ∈ ["proxy" : jstring; "system_prompt" : jstring] → or_empty (member k opened) = or_empty (member k f)) as Htext'.
    { intros k Hk. rewrite Htexts by done. apply js_or_idemp. }
    unfold buildSettingJSON. cbv zeta. do 4 rewrite Hflag by (by apply (bool_decide_unpack _); vm_compute).
    by do 2 rewrite Htext' by (by apply (bool_decide_unpack _); vm_compute). }
  unfold update_fields. rewrite opened_type, Hurl, Hgroup, Hban, Hset, Eprio, Eweight.
  do 2 rewrite Hnum by (by apply (bool_decide_unpack _); vm_compute). rewrite !Hco.
  do 9 rewrite Hplain by (by apply (bool_decide_unpack _); vm_compute). by do 2 rewrite Hreq by (by apply (bool_decide_unpack _); vm_compute).
Qed.
End reload.

(** What a channel stores after a form was saved, by an update or when it is created. *)
Definition saved_as (f id c : jval) (p : list (jstring * jval)) : Prop :=
  transformFormDataToUpdatePayload f id = Some (JObj p) ∧
  (stores c (JObj p) ∨ ∃ q, transformFormDataToCreatePayload f = Some q ∧ stores c (cp_channel q)).

(** The settings and the common payload of a form that was saved. *)
Lemma saved_payload f id c p : form_ok f → saved_as f id c p →
  ∃ o t q, parsed_settings f = JObj o ∧ buildSettingsJSON f = Some t ∧ p = update_fields f id t ++ key_field f ∧ payload_of f q t ∧ stores c q.
Proof.
  intros Hf [Hu Hc]. destruct (fo_settings f Hf) as (o & Hs & _). destruct (settings_text f o Hf Hs) as (t & Ht & Hne & _).
  pose proof (update_payload_of f id t _ Ht Hne Hu) as Hp. rewrite (update_payload f id t Ht) in Hu. injection Hu as <-.
  destruct Hc as [Hc|(q & Hq & Hc)]; [by exists o, t, (JObj (update_fields f id t ++ key_field f))|].
  exists o, t, (cp_channel q). split_and!; try done. by apply create_payload_of.
Qed.

(** C6: A channel that was created or updated from a form is opened as a form that saves
    exactly the same again, but for the key, which is sent only when it was entered. *)
Theorem saved_channel_fixpoint f id c p mk :
  form_ok f → saved_as f id c p → prop "multi_key_mode" (member "channel_info" c) = Some mk →
  ∃ f', transformChannelToFormDefaults c = Some f' ∧ transformFormDataToUpdatePayload f' id = Some (JObj (odelete "key" p)).
Proof.
  intros Hf (o & t & q & Hs & Ht & -> & Hp & Hc)%saved_payload Hmk; [|done]. exists (opened c). split; [by eapply opened_form|].
  rewrite (update_payload _ id t) by by eapply settings_saved_again. erewrite opened_fields by done.
  assert (key_field (opened c) = []) as ->.
  { unfold key_field. by destruct (opened_others c mk Hmk) as (_ & _ & _ & _ & _ & _ & -> & _). }
  rewrite app_nil_r. f_equal. f_equal. unfold key_field. by destruct (filled _).
Qed.

(** Of the settings that depend on the type of a channel exactly those of its type come
    back as they were entered, all others as the defaults, and models to ignore as a
    list without spaces and repetitions. *)
Lemma type_fields_reload f id c p mk :
  form_ok f → saved_as f id c p → prop "multi_key_mode" (member "channel_info" c) = Some mk →
  let type := member "type" f in
  ∃ f', transformChannelToFormDefaults c = Some f' ∧
    Forall (λ '(k, _, types), member k f' = JBool (among types type && is_true (member k f))) TYPE_FLAGS ∧
    member "disable_task_polling_sleep" f' = JBool (is_true (member "disable_task_polling_sleep" f)) ∧
    member "vertex_key_type" f' = (if is_num type 41 then js_or (member "vertex_key_type" f) (JStr "json") else JStr "json") ∧
    member "aws_key_type" f' = (if is_num type 33 then js_or (member "aws_key_type" f) (JStr "ak_sk") else JStr "ak_sk") ∧
    member "azure_responses_version" f' = (if is_num type 3 then or_empty (member "azure_responses_version" f) else JStr []) ∧
    (among MODEL_FETCHABLE_TYPES type = true →
      let check := is_true (member "upstream_model_update_check_enabled" f) in
      member "upstream_model_update_check_enabled" f' = JBool check ∧
      member "upstream_model_update_auto_sync_enabled" f' = JBool (check && is_true (member "upstream_model_update_auto_sync_enabled" f)) ∧
      member "upstream_model_update_ignored_models" f' = ignored_text f).
Proof.
  intros Hf (o & t & q & Hs & Ht & -> & Hp & Hc)%saved_payload Hmk type; [|done]. exists (opened c). split; [by eapply opened_form|].
  destruct (opened_flags f c q t o mk Hf Hs Ht Hp Hc Hmk) as [H1 H2]. destruct (opened_texts f c q t o mk Hf Hs Ht Hp Hc Hmk) as (H3 & H4 & H5).
  split_and!; try done. by eapply opened_updates.
Qed.

(** C7: Saving a form keeps every setting the form does not know, and those of the update
    of models for types whose models cannot be fetched. *)
Theorem settings_kept f id p o :
  form_ok f → transformFormDataToUpdatePayload f id = Some p → parsed_settings f = JObj o →
  ∃ t o', member "settings" p = JStr t ∧ JSON_parse t = Some (JObj o') ∧
    (∀ k, k ∉ CHANGED_KEYS → oget k o' = oget k o) ∧
    (among MODEL_FETCHABLE_TYPES (member "type" f) = false → Forall (λ k, oget k o' = oget k o) UPDATE_KEYS).
Proof.
  intros Hf Hu Hs. destruct (settings_text f o Hf Hs) as (t & Ht & Hne & Hparse & _). pose proof (settings_NoDup f o Hf Hs) as Hn.
  exists t, (new_settings f o). split_and!; [|done| |].
  - pose proof (po_settings _ _ _ (update_payload_of f id t p Ht Hne Hu)) as E. rewrite (update_payload f id t Ht) in Hu. injection Hu as <-.
    cbn [member]. cbn [props] in E. by rewrite E.
  - intros k. by apply other_key.
  - intros Ef. pose proof (update_key_values f o Hn) as H. by rewrite Ef in H.
Qed.

(** ** Forms that are accepted *)

Lemma accepted_settings f : json_fields_ok f = true → ∃ o, parsed_settings f = JObj o.
Proof.
  unfold json_fields_ok. rewrite !andb_true_iff. cbn [forallb]. rewrite !andb_true_iff. intros (_ & _ & _ & _ & H & _).
  unfold parsed_settings. destruct (text (member "settings" f)) as [s|]; [|by exists []].
  destruct (truthy s && _); [|by exists []]. unfold isOptionalJsonObject, parseOptionalJson in H. change (otruthy (trim <$> Some s)) with (truthy (trim s)) in H.
  destruct (truthy (trim s)) eqn:E; cbn [negb] in H.
  - cbn [default from_option id] in H. destruct (JSON_parse s) as [v|] eqn:Ep; [|done]. apply JSON_parse_defined in Ep. destruct v; try done. by eexists.
  - rewrite (JSON_parse_blank s) by by apply truthy_false. by exists [].
Qed.

(** Building the payloads of a form whose texts the schema accepts never throws, and
    both payloads carry the same settings. *)
Lemma accepted_form_saves f id : json_fields_ok f = true →
  ∃ o p q, parsed_settings f = JObj o ∧ transformFormDataToUpdatePayload f id = Some p ∧ transformFormDataToCreatePayload f = Some q ∧
    member "settings" p = member "settings" (cp_channel q).
Proof.
  intros [o Ho]%accepted_settings. assert (∃ t, buildSettingsJSON f = Some t) as [t Ht] by (unfold buildSettingsJSON; rewrite Ho; eauto).
  unfold transformFormDataToCreatePayload. rewrite (update_payload f id t Ht), Ht. cbn [mbind option_bind]. do 3 eexists. split_and!; [done..|].
  unfold update_fields. cbv [member clean_up map cp_channel]. reflexivity.
Qed.

(** ** An example *)

(** A channel of Claude (type 14) with settings the form does not know. *)
Definition sample_form : jval := JObj (fold_left (λ o kv, obj_set kv.1 kv.2 o) [
  ("name", JStr "claude"); ("type", JNum (of_Z 14)); ("models", JStr "a,b"); ("group", JArr [JStr "default"; JStr "vip"]);
  ("base_url", JStr "https://host/"); ("key", JStr "secret"); ("settings", JStr (compact (JObj [("note", JStr "kept"); ("disable_store", JBool true)])));
  ("allow_speed", JBool true); ("disable_store", JBool true); ("upstream_model_update_check_enabled", JBool true);
  ("upstream_model_update_ignored_models", JStr "x, y,x"); ("proxy", JStr "socks5://proxy"); ("priority", JNum (of_Z 3))]
  (props CHANNEL_FORM_DEFAULT_VALUES)).

Definition sample_payload : list (jstring * jval) := props (default JNull (transformFormDataToUpdatePayload sample_form (JNum (of_Z 7)))).
Definition sample_channel : jval := JObj (sample_payload ++ [("channel_info" : jstring, JObj [])]).

(** A channel that has the properties of a payload, and others, stores the payload. *)
Lemma stores_more p r : NoDup (okeys p) → stores (JObj (p ++ r)) (JObj p).
Proof.
  intros Hn. apply Forall_forall. intros [k v] Hin. right. left. cbn [member fst snd].
  rewrite oget_app. apply elem_of_oget in Hin; [|done]. cbn [props] in Hin. by rewrite Hin.
Qed.

Lemma sample_saved : saved_as sample_form (JNum (of_Z 7)) sample_channel sample_payload.
Proof. split; [vm_compute; reflexivity|]. left. apply stores_more. by apply (bool_decide_unpack _); vm_compute. Qed.

(** A field of the sample is a text. *)
Ltac sample_text := eexists; split; [vm_compute; reflexivity|]; try (split; [discriminate|]); apply valid_units_b; vm_compute; reflexivity.

Lemma sample_form_ok : form_ok sample_form.
Proof.
  constructor.
  - repeat constructor; eexists; vm_compute; reflexivity.
  - repeat constructor; eexists; vm_compute; reflexivity.
  - repeat constructor; eexists; vm_compute; reflexivity.
  - repeat constructor; sample_text.
  - repeat constructor; eexists; (split; [vm_compute; reflexivity|]); [right|left]; vm_compute; reflexivity.
  - eexists; vm_compute; reflexivity.
  - eexists; vm_compute; reflexivity.
  - exists ["default" : jstring; "vip" : jstring]. split; [vm_compute; reflexivity|].
    repeat constructor; try (by apply (bool_decide_unpack _); vm_compute); vm_compute; reflexivity.
  - by apply (bool_decide_unpack _); vm_compute.
  - repeat constructor; sample_text.
  - exists [("note" : jstring, JStr "kept"); ("disable_store" : jstring, JBool true)]. split; [vm_compute; reflexivity|].
    apply json_ok_b_spec. vm_compute. reflexivity.
  - intros H. vm_compute in H. discriminate.
Qed.

Example saved_channel_fixpoint_witness :
  ∃ f', transformChannelToFormDefaults sample_channel = Some f' ∧
    transformFormDataToUpdatePayload f' (JNum (of_Z 7)) = Some (JObj (odelete "key" sample_payload)).
Proof. eapply (saved_channel_fixpoint sample_form); [apply sample_form_ok|apply sample_saved|vm_compute; reflexivity]. Defined.

Example type_fields_reload_witness :
  ∃ f', transformChannelToFormDefaults sample_channel = Some f' ∧
    member "allow_speed" f' = JBool true ∧ member "disable_store" f' = JBool false ∧
    member "upstream_model_update_ignored_models" f' = JStr "x,y".
Proof.
  edestruct (type_fields_reload sample_form) as (f' & Ef & Hflags & _ & _ & _ & _ & Hup);
    [apply sample_form_ok|apply sample_saved|vm_compute; reflexivity|]. exists f'. split; [done|].
  rewrite Forall_forall in Hflags. destruct (Hup ltac:(vm_compute; reflexivity)) as (_ & _ & Hi).
  split_and!; [| |rewrite Hi; vm_compute; reflexivity].
  - refine (eq_trans (Hflags ("allow_speed", "allow_speed", [14%Z]) _) _); [by apply (bool_decide_unpack _); vm_compute|vm_compute; reflexivity].
  - refine (eq_trans (Hflags ("disable_store", "disable_store", [1%Z]) _) _); [by apply (bool_decide_unpack _); vm_compute|vm_compute; reflexivity].
Defined.

Example settings_kept_witness : ∃ p t o',
  transformFormDataToUpdatePayload sample_form (JNum (of_Z 7)) = Some p ∧
  member "settings" p = JStr t ∧ JSON_parse t = Some (JObj o') ∧ oget "note" o' = Some (JStr "kept").
Proof.
  exists (JObj sample_payload). destruct (settings_kept sample_form (JNum (of_Z 7)) (JObj sample_payload)
    [("note" : jstring, JStr "kept"); ("disable_store" : jstring, JBool true)]) as (t & o' & E & Hp & Hk & _);
    [apply sample_form_ok|vm_compute; reflexivity|vm_compute; reflexivity|].
  exists t, o'. split_and!; [vm_compute; reflexivity|done..|]. rewrite Hk; [reflexivity|by apply (bool_decide_unpack _); vm_compute].
Defined.

Example accepted_form_saves_witness : ∃ o p q, parsed_settings sample_form = JObj o ∧
  transformFormDataToUpdatePayload sample_form (JNum (of_Z 7)) = Some p ∧ transformFormDataToCreatePayload sample_form = Some q ∧
  member "settings" p = member "settings" (cp_channel q).
Proof. apply (accepted_form_saves sample_form). vm_compute. reflexivity. Defined.

(** A space before the last slash of an address is kept, and removed when it is opened. *)
Example url_space_left : normalizeBaseUrl (JStr "https://host /") = "https://host " ∧ normalizeBaseUrl (JStr "https://host ") = "https://host".
Proof. split; vm_compute; reflexivity. Qed.
