(* ===== verification/Currency.v ===== *)
(** * Currency: [lib/currency.ts] and the configuration in [stores/system-config-store.ts]

    How amounts are converted between the accounting unit and what is displayed,
    and how they are written.  Numbers in a locale are written by the platform,
    [Intl.NumberFormat], which is a parameter. *)
From Stdlib Require Import Floats.SpecFloat.
From S2P Require Import Prelude JsString JsNumber JsFloat JsValue JsRegex JsDecimal.

(** ** Configuration *)

Inductive CurrencyDisplayType := USD | CNY | TOKENS | CUSTOM.

#[export] Instance CurrencyDisplayType_eq_dec : EqDecision CurrencyDisplayType.
Proof. solve_decision. Defined.

Record CurrencyConfig := {
  displayInCurrency : bool;
  quotaDisplayType : CurrencyDisplayType;
  quotaPerUnit : num;
  usdExchangeRate : num;
  customCurrencySymbol : jstring;
  customCurrencyExchangeRate : num;
}.

Definition DEFAULT_CURRENCY_CONFIG : CurrencyConfig := {|
  displayInCurrency := true; quotaDisplayType := USD; quotaPerUnit := of_Z 500000;
  usdExchangeRate := of_Z 1; customCurrencySymbol := [164%N]; customCurrencyExchangeRate := of_Z 1;
|}.

Definition display_type_text (t : CurrencyDisplayType) : jstring :=
  match t with USD => "USD" | CNY => "CNY" | TOKENS => "TOKENS" | CUSTOM => "CUSTOM" end.

Definition DISPLAY_TYPE_VALUES : list CurrencyDisplayType := [USD; CNY; TOKENS; CUSTOM].

Definition isCurrencyDisplayType (value : jval) : option CurrencyDisplayType :=
  match value with
  | JStr s => List.find (λ t, bool_decide (display_type_text t = s)) DISPLAY_TYPE_VALUES
  | _ => None
  end.

Definition parseCurrencyDisplayType (value : jval) (fallback : CurrencyDisplayType) : CurrencyDisplayType :=
  nullish (isCurrencyDisplayType value) fallback.

(** [x && x > 0 ? x : y] *)
Definition positive_or (x y : num) : num := if num_truthy x && nlt zero x then x else y.

(** [None]: the store holds no currency. *)
Definition getConfig (currency : option CurrencyConfig) : CurrencyConfig :=
  let c := nullish currency DEFAULT_CURRENCY_CONFIG in
  {| displayInCurrency := displayInCurrency c;
     quotaDisplayType := quotaDisplayType c;
     quotaPerUnit := positive_or (quotaPerUnit c) (quotaPerUnit DEFAULT_CURRENCY_CONFIG);
     usdExchangeRate := positive_or (usdExchangeRate c) (usdExchangeRate DEFAULT_CURRENCY_CONFIG);
     customCurrencySymbol := str_or (trim (customCurrencySymbol c)) (customCurrencySymbol DEFAULT_CURRENCY_CONFIG);
     customCurrencyExchangeRate :=
       positive_or (customCurrencyExchangeRate c) (customCurrencyExchangeRate DEFAULT_CURRENCY_CONFIG) |}.

Inductive DisplayMeta :=
  | Currency_meta (symbol currencyCode : jstring) (exchangeRate : num)
  | Custom_meta (symbol : jstring) (exchangeRate : num)
  | Tokens_meta (quotaPerUnit : num).

Definition getDisplayMeta (config : CurrencyConfig) : DisplayMeta :=
  match quotaDisplayType config with
  | CNY => Currency_meta [165%N] "CNY" (usdExchangeRate config)
  | CUSTOM => Custom_meta (customCurrencySymbol config) (customCurrencyExchangeRate config)
  | TOKENS => Tokens_meta (quotaPerUnit config)
  | USD => Currency_meta "$" "USD" (of_Z 1)
  end.

Definition getBillingDisplayMeta (config : CurrencyConfig) : DisplayMeta :=
  match getDisplayMeta config with
  | Tokens_meta _ => Currency_meta "$" "USD" (of_Z 1)
  | meta => meta
  end.

(** The pair of the configuration and what it displays. *)
Definition getCurrencyDisplay (currency : option CurrencyConfig) : CurrencyConfig * DisplayMeta :=
  let config := getConfig currency in (config, getDisplayMeta config).

(** ** Options *)

(** Numbers of digits are natural numbers: the platform refuses others. *)
Record CurrencyFormatOptions := {
  digitsLarge : option nat;
  digitsSmall : option nat;
  abbreviate : option bool;
  minimumNonZero : option num;
  compact : option bool;
  showSymbol : option bool;
  locale : option jstring;
}.

Record ResolvedCurrencyFormatOptions := {
  r_digitsLarge : nat;
  r_digitsSmall : nat;
  r_abbreviate : bool;
  r_minimumNonZero : num;
  r_compact : bool;
  r_showSymbol : bool;
  r_locale : option jstring;
}.

Definition DEFAULT_FORMAT_OPTIONS : ResolvedCurrencyFormatOptions := {|
  r_digitsLarge := 2; r_digitsSmall := 4; r_abbreviate := true; r_minimumNonZero := zero;
  r_compact := false; r_showSymbol := true; r_locale := None;
|}.

Definition mergeOptions (options : option CurrencyFormatOptions) : ResolvedCurrencyFormatOptions :=
  match options with
  | None => DEFAULT_FORMAT_OPTIONS
  | Some o =>
    {| r_digitsLarge := nullish (digitsLarge o) (r_digitsLarge DEFAULT_FORMAT_OPTIONS);
       r_digitsSmall := nullish (digitsSmall o) (r_digitsSmall DEFAULT_FORMAT_OPTIONS);
       r_abbreviate := nullish (abbreviate o) (r_abbreviate DEFAULT_FORMAT_OPTIONS);
       r_minimumNonZero := nullish (minimumNonZero o) (r_minimumNonZero DEFAULT_FORMAT_OPTIONS);
       r_compact := nullish (compact o) (r_compact DEFAULT_FORMAT_OPTIONS);
       r_showSymbol := nullish (showSymbol o) (r_showSymbol DEFAULT_FORMAT_OPTIONS);
       r_locale := match locale o with Some l => Some l | None => r_locale DEFAULT_FORMAT_OPTIONS end |}
  end.

(** ** Writing numbers *)

(** The patterns are [/(\.[0-9]*?)0+$/] and [/\.$/]. *)
Definition removeTrailingZeros (str : jstring) : jstring :=
  if negb (includes "." str) then str
  else replace_first point_end_re (λ _, []) (replace_first point_zeros_re (mg 1) str).

Definition formatNumberWithSuffix (value : num) (digitsLarge digitsSmall : nat) (abbreviate : bool) : jstring :=
  let abs := nabs value in
  if abbreviate && nle (of_Z 1000) abs
  then removeTrailingZeros (to_fixed 1 (ndiv value (of_Z 1000))) ++ "k"
  else
    let digits := if nle (of_Z 1) abs then digitsLarge else digitsSmall in
    removeTrailingZeros (to_fixed digits value).

(** [Math.pow(10, -digits)] is taken to be correctly rounded. *)
Definition adjustForMinimum (value : num) (digits : nat) (minimumNonZero : num) : num :=
  if neqb value zero then value
  else
    let threshold := if nlt zero minimumNonZero then minimumNonZero else of_decimal false 1 (- Z.of_nat digits) in
    let abs := nabs value in
    if nlt zero abs && nlt abs threshold
    then if nlt zero value then threshold else SFopp threshold
    else value.

(** What a formatter of the platform is built with. *)
Record NumberFormatOptions := {
  currency : option jstring;   (** style [currency] with a narrow symbol *)
  compactNotation : bool;
  minimumFractionDigits : option nat;
  maximumFractionDigits : nat;
}.

Section format.
(** [new Intl.NumberFormat(locale, options).format(value)] *)
Variable NumberFormat : option jstring → NumberFormatOptions → num → jstring.

Definition formatCurrencyValue (value : num) (options : ResolvedCurrencyFormatOptions) (meta : DisplayMeta) : jstring :=
  match meta with
  | Tokens_meta _ =>
    if r_compact options
    then NumberFormat (r_locale options)
           {| currency := None; compactNotation := true; minimumFractionDigits := None; maximumFractionDigits := 1 |} value
    else formatNumberWithSuffix value (r_digitsLarge options) (r_digitsSmall options) (r_abbreviate options)
  | Currency_meta _ currencyCode _ =>
    let digits := if nle (of_Z 1) (nabs value) then r_digitsLarge options else r_digitsSmall options in
    let adjustedValue := adjustForMinimum value digits (r_minimumNonZero options) in
    NumberFormat (r_locale options)
      {| currency := if r_showSymbol options then Some currencyCode else None;
         compactNotation := r_compact options; minimumFractionDigits := Some 0;
         maximumFractionDigits := if r_compact options then 1 else digits |} adjustedValue
  | Custom_meta symbol _ =>
    let digits := if nle (of_Z 1) (nabs value) then r_digitsLarge options else r_digitsSmall options in
    let adjustedValue := adjustForMinimum value digits (r_minimumNonZero options) in
    let decimal := NumberFormat (r_locale options)
      {| currency := None; compactNotation := r_compact options; minimumFractionDigits := Some 0;
         maximumFractionDigits := if r_compact options then 1 else digits |} adjustedValue in
    if r_showSymbol options then symbol ++ " " ++ decimal else decimal
  end.

(** The currency in the store; amounts are [null], [undefined] ([None]) or a number. *)
Variable store : option CurrencyConfig.

Definition missing (amount : option num) : bool :=
  match amount with None => true | Some a => is_nan a end.

Definition walletDisplayAmountToBackend (amount : num) : num :=
  if negb (is_finite amount) then zero
  else match (getCurrencyDisplay store).2 with
       | Tokens_meta _ => amount
       | Currency_meta _ _ exchangeRate | Custom_meta _ exchangeRate =>
         if nlt zero exchangeRate then ndiv amount exchangeRate else amount
       end.

Definition backendAmountToWalletDisplay (amount : num) : num :=
  if negb (is_finite amount) then zero
  else match (getCurrencyDisplay store).2 with
       | Tokens_meta _ => amount
       | Currency_meta _ _ exchangeRate | Custom_meta _ exchangeRate => nmul amount exchangeRate
       end.

Definition formatCurrencyFromUSD (amountUSD : option num) (options : option CurrencyFormatOptions) : jstring :=
  if missing amountUSD then "-"
  else
    let amountUSD := default nan amountUSD in
    let '(config, meta) := getCurrencyDisplay store in
    let merged := mergeOptions options in
    match meta with
    | Tokens_meta _ =>
      let tokens := nmul amountUSD (quotaPerUnit config) in
      if r_compact merged
      then NumberFormat (r_locale merged)
             {| currency := None; compactNotation := true; minimumFractionDigits := None; maximumFractionDigits := 1 |} tokens
      else formatNumberWithSuffix tokens 0 (r_digitsSmall merged) (r_abbreviate merged)
    | Currency_meta _ _ exchangeRate | Custom_meta _ exchangeRate =>
      formatCurrencyValue (nmul amountUSD exchangeRate) merged meta
    end.

Definition formatBillingCurrencyFromUSD (amountUSD : option num) (options : option CurrencyFormatOptions) : jstring :=
  if missing amountUSD then "-"
  else
    let amountUSD := default nan amountUSD in
    let meta := getBillingDisplayMeta (getCurrencyDisplay store).1 in
    let value := match meta with
                 | Currency_meta _ _ exchangeRate | Custom_meta _ exchangeRate => nmul amountUSD exchangeRate
                 | Tokens_meta _ => amountUSD
                 end in
    formatCurrencyValue value (mergeOptions options) meta.

Definition formatQuotaWithCurrency (quota : option num) (options : option CurrencyFormatOptions) : jstring :=
  if missing quota then "-"
  else formatCurrencyFromUSD (Some (ndiv (default nan quota) (quotaPerUnit (getCurrencyDisplay store).1))) options.

Definition getCurrencyLabel : jstring :=
  let '(config, meta) := getCurrencyDisplay store in
  match meta with
  | Tokens_meta _ => "Tokens"
  | _ => match quotaDisplayType config with
         | CNY => "CNY"
         | CUSTOM => match meta with Custom_meta symbol _ => symbol | _ => "Custom" end
         | _ => "USD"
         end
  end.

Definition isCurrencyDisplayEnabled : bool :=
  match (getCurrencyDisplay store).2 with Tokens_meta _ => false | _ => true end.

Definition formatLocalCurrencyAmount (amount : option num) (options : option CurrencyFormatOptions) : jstring :=
  if missing amount then "-"
  else
    let meta := getBillingDisplayMeta (getCurrencyDisplay store).1 in
    formatCurrencyValue (default nan amount) (mergeOptions options) meta.
End format.

Example removeTrailingZeros_ex :
  map removeTrailingZeros ["1.50"; "100"; "2.00"; "0.0100"; "10.0"; "1.05"] = ["1.5"; "100"; "2"; "0.01"; "10"; "1.05"].
Proof. vm_compute. reflexivity. Qed.

(** ** Properties *)

(** The rate a display applies to an accounting amount. *)
Definition rate_of (meta : DisplayMeta) : option num :=
  match meta with
  | Currency_meta _ _ rate | Custom_meta _ rate => Some rate
  | Tokens_meta _ => None
  end.

(** Formatting an accounting amount is formatting the amount converted once;
    the two displays of accounting amounts agree unless tokens are shown, and the
    billing display never shows tokens. *)
Lemma converted_once NumberFormat store amount options :
  let meta := (getCurrencyDisplay store).2 in
  let billing := getBillingDisplayMeta (getCurrencyDisplay store).1 in
  let local a := formatLocalCurrencyAmount NumberFormat store (Some a) options in
  ∃ rate, rate_of billing = Some rate ∧
    (is_nan (nmul amount rate) = false →
     formatBillingCurrencyFromUSD NumberFormat store (Some amount) options = local (nmul amount rate)) ∧
    match rate_of meta with
    | Some rate' => rate' = rate ∧
        formatCurrencyFromUSD NumberFormat store (Some amount) options =
        formatBillingCurrencyFromUSD NumberFormat store (Some amount) options
    | None => rate = of_Z 1
    end.
Proof.
  simpl. unfold formatLocalCurrencyAmount, formatBillingCurrencyFromUSD, formatCurrencyFromUSD, getCurrencyDisplay,
    getBillingDisplayMeta, missing. cbn [fst snd].
  destruct (getDisplayMeta (getConfig store)) as [symbol code rate|symbol rate|unit]; cbn [rate_of];
    eexists; (split; [reflexivity|]); cbn [default id].
  all: destruct (is_nan amount) eqn:Ha; (split; [intros Hn; rewrite ?Hn|done]); try done; by destruct amount.
Qed.

(** What is removed are the trailing zeros of the fraction, and the point when
    nothing else is left of the fraction. *)
Lemma removeTrailingZeros_spec ip fp :
  digits ip → digits fp →
  removeTrailingZeros ip = ip ∧
  ∃ a z, fp = a ++ z ∧ forallb is_zero z = true ∧ clean_fraction a ∧
    removeTrailingZeros (ip ++ "." ++ fp) = cleaned ip a.
Proof.
  intros Hi Hf. split.
  - unfold removeTrailingZeros. destruct (includes "." ip) eqn:E; [|done].
    apply includes_spec in E as (a & b & ->). apply Forall_app in Hi as [_ Hi].
    apply Forall_cons in Hi as [Hi _]. by vm_compute in Hi.
  - destruct (split_fraction fp) as (a & z & -> & Ha & Hz). exists a, z. split_and!; [done..|].
    apply Forall_app in Hf as [Hfa _]. unfold removeTrailingZeros.
    assert (includes "." (ip ++ "." ++ a ++ z) = true) as -> by (apply includes_spec; by eexists _, _).
    by apply remove_point_zeros.
Qed.

Lemma zero_not_nan : is_nan zero = false.
Proof. done. Qed.

(** An amount that is not zero is never adjusted to one below the threshold,
    keeps its sign, and is left alone when it is large enough. *)
Lemma adjustForMinimum_bounds value digits minimum :
  is_finite value = true → is_finite minimum = true →
  let threshold := if nlt zero minimum then minimum else of_decimal false 1 (- Z.of_nat digits) in
  let adjusted := adjustForMinimum value digits minimum in
  nlt zero threshold = true →
  (neqb value zero = true → adjusted = value) ∧
  (neqb value zero = false →
     nle threshold (nabs adjusted) = true ∧ nlt zero adjusted = nlt zero value) ∧
  (nle threshold (nabs value) = true → adjusted = value).
Proof.
  intros Hv Hm threshold adjusted Ht. unfold adjusted, adjustForMinimum. fold threshold.
  assert (is_nan threshold = false ∧ is_nan value = false ∧ is_nan (nabs value) = false) as (Hn1 & Hn2 & Hn3).
  { apply nlt_not_nan in Ht as [_ ?]. by destruct value. }
  assert (nle threshold (nabs value) = true → nlt (nabs value) threshold = false) as Hle.
  { rewrite nle_nlt by done. by intros ?%negb_true_iff. }
  destruct (neqb value zero) eqn:E0; [by split_and!|]. split_and!; [done|intros _|].
  - assert (nlt zero (nabs value) = true) as -> by (by destruct value as [|[]| |[]]).
    destruct (nlt (nabs value) threshold) eqn:E; cbn [andb].
    + assert (nabs threshold = threshold ∧ nabs (SFopp threshold) = threshold) as [Ha1 Ha2]
        by (by destruct threshold as [|[]| |[]]).
      destruct (nlt zero value) eqn:Es; rewrite ?Ha1, ?Ha2, nle_refl by done; split; try done.
      by destruct threshold as [|[]| |[]].
    + split; [|done]. rewrite nle_nlt by done. by rewrite E.
  - intros H. rewrite (Hle H). by rewrite andb_false_r.
Qed.

Example converted_once_witness :
  let format (l : option jstring) (o : NumberFormatOptions) (x : num) := Number_to_string x in
  let store := Some {| displayInCurrency := true; quotaDisplayType := CNY; quotaPerUnit := of_Z 500000;
    usdExchangeRate := of_Z 7; customCurrencySymbol := "$"; customCurrencyExchangeRate := of_Z 1 |} in
  formatBillingCurrencyFromUSD format store (Some (of_Z 10)) None = "70" ∧
  ∃ rate, rate_of (getBillingDisplayMeta (getCurrencyDisplay store).1) = Some rate.
Proof.
  intros format store. destruct (converted_once format store (of_Z 10) None) as (rate & Hr & Hb & _).
  split; [|by exists rate]. injection Hr as <-. rewrite Hb; vm_compute; reflexivity.
Defined.

Example removeTrailingZeros_spec_witness :
  removeTrailingZeros "12" = "12" ∧ ∃ a z, ("500" : jstring) = a ++ z ∧ removeTrailingZeros "12.500" = cleaned "12" a.
Proof.
  destruct (removeTrailingZeros_spec "12" "500") as (H1 & a & z & H2 & _ & _ & H3);
    [repeat constructor..|]. split; [exact H1|]. exists a, z. split; [exact H2|exact H3].
Defined.

Example adjustForMinimum_bounds_witness :
  let value := Number_of_string "0.001" in
  nle (Number_of_string "0.01") (nabs (adjustForMinimum value 2 zero)) = true.
Proof.
  refine (proj1 (proj1 (proj2 (adjustForMinimum_bounds (Number_of_string "0.001") 2 zero _ _ _)) _));
    vm_compute; reflexivity.
Defined.
