(* ===== verification/PricingCatalog.v ===== *)
(** * PricingCatalog: the public catalog of models and prices

    [features/pricing/types.ts, constants.ts, lib/model-type.ts, lib/model-helpers.ts,
    lib/pricing-group-order.ts, lib/auto-group-chain.ts, lib/filters.ts], the group
    ratios of [lib/price.ts], the state of [hooks/use-filters.ts], the join of
    [hooks/use-pricing-data.ts] and the options of [components/pricing-sidebar.tsx].

    [toLowerCase] and [localeCompare], the Unicode tables and the collation of the
    platform, are parameters.  Identifiers and quota types are integers. *)
From Stdlib Require Import Floats.SpecFloat.
From S2P Require Import Prelude JsString JsNumber JsFloat JsValue JsRegex JsRegexRuns.

(** ** Data *)

Record PricingVendor := {
  v_id : Z;
  v_name : jstring;
  v_icon : option jstring;
  v_description : option jstring;
}.

Record PricingGroupRef := { ref_id : Z; ref_name : jstring }.

(** An absent property, and [null], is [None]. *)
Record PricingModel := {
  model_id : Z;
  model_name : jstring;
  aliases : option (list jstring);
  description : option jstring;
  vendor_id : option Z;
  vendor_name : option jstring;
  vendor_icon : option jstring;
  vendor_description : option jstring;
  quota_type : Z;
  model_ratio : num;
  completion_ratio : num;
  model_price : option num;
  cache_ratio : option num;
  create_cache_ratio : option num;
  image_ratio : option num;
  audio_ratio : option num;
  audio_completion_ratio : option num;
  enable_groups : option (list jstring);
  enable_group_refs : option (list PricingGroupRef);
  tags : option jstring;
  supported_endpoint_types : option (list jstring);
  model_key : option jstring;
  group_ratio : option (list (jstring * num));
  billing_mode : option jstring;
  billing_expr : option jstring;
  output_modalities : option (list jstring);
  capabilities : option (list jstring);
}.

(** [constants.ts] *)
Definition SORT_NAME : jstring := "name".
Definition SORT_PRICE_LOW : jstring := "price-low".
Definition SORT_PRICE_HIGH : jstring := "price-high".
Definition SORT_BENEFIT : jstring := "benefit".
Definition DEFAULT_SORT_OPTION : jstring := SORT_BENEFIT.
Definition FILTER_ALL : jstring := "all".
Definition QUOTA_TYPES_TOKEN : jstring := "token".
Definition QUOTA_TYPES_REQUEST : jstring := "request".
Definition MODEL_TYPES : list jstring :=
  ["text"; "image"; "audio"; "video"; "embedding"; "rerank"; "other"].
Definition EXCLUDED_GROUPS : list jstring := [[]; "auto"].
Definition QUOTA_TOKEN : Z := 0.
Definition QUOTA_REQUEST : Z := 1.

Definition list_of {A} (l : option (list A)) : list A := default [] l.

(** ** Groups *)

(** [getMinGroupRatio]: the loop over the groups, from infinity. *)
Definition min_step (ratios : list (jstring * num)) (minRatio : num) (group : jstring) : num :=
  match oget group ratios with
  | Some ratio => if nlt ratio minRatio then ratio else minRatio
  | None => minRatio
  end.

Definition getMinGroupRatio (enableGroups : list jstring) (groupRatio : list (jstring * num)) : num :=
  match enableGroups with
  | [] => of_Z 1
  | _ => let minRatio := fold_left (min_step groupRatio) enableGroups infinity in
         if neqb minRatio infinity then of_Z 1 else minRatio
  end.

Definition getDisplayGroupRatio (model : PricingModel) (groupFilter : option jstring) : num :=
  let ratios := list_of (group_ratio model) in
  match (if otruthy groupFilter then oget (default [] groupFilter) ratios else None) with
  | Some ratio => ratio
  | None => getMinGroupRatio (list_of (enable_groups model)) ratios
  end.

(** The copy of [lib/dynamic-price.ts]. *)
Definition getDynamicDisplayGroupRatio (model : PricingModel) (groupFilter : option jstring) : num :=
  let groups := list_of (enable_groups model) in
  let ratios := list_of (group_ratio model) in
  match (if otruthy groupFilter then oget (default [] groupFilter) ratios else None) with
  | Some ratio => ratio
  | None =>
    if bool_decide (length groups = 0) then of_Z 1
    else
      let minRatio := fold_left (min_step ratios) groups infinity in
      if neqb minRatio infinity then of_Z 1 else minRatio
  end.

Section catalog.
Variable toLowerCase : jstring → jstring.
Variable localeCompare : jstring → jstring → Z.

Definition ratio_or_one (groupRatio : list (jstring * num)) (group : jstring) : num :=
  nullish (oget group groupRatio) (of_Z 1).

Definition sortGroupsByRatio (groups : list jstring) (groupRatio : list (jstring * num)) : list jstring :=
  sort_by (λ left right,
      or_compare (nsub (ratio_or_one groupRatio left) (ratio_or_one groupRatio right)) (localeCompare left right))
    groups.

Definition sortGroupsByName (groups : list jstring) (groupNames : list (jstring * jstring)) : list jstring :=
  sort_by (λ left right,
      localeCompare (nullish (oget left groupNames) left) (nullish (oget right groupNames) right)) groups.

Definition getAutoGroupChain (autoGroups modelEnableGroups : list jstring) (groupRatio : list (jstring * num))
  : list jstring :=
  sortGroupsByRatio (filter (λ group, has group modelEnableGroups = true) autoGroups) groupRatio.

(** ** Models *)

Definition getAvailableGroups (model : PricingModel) (usableGroup : list (jstring * (jstring * num))) : list jstring :=
  filter (λ g, has g (list_of (enable_groups model)) = true)
    (filter (λ g, has g EXCLUDED_GROUPS = false) (okeys usableGroup)).

Definition getPricingGroupDisplayName (model : PricingModel) (group : jstring) : jstring :=
  match find (λ ref, bool_decide (Z_to_js (ref_id ref) = group)) (list_of (enable_group_refs model)) with
  | Some ref => ref_name ref
  | None => group
  end.

(** *** [path.replace(/\{model\}/g, modelName)] *)

(** The replacement text, with its patterns [$$], [$&], [$`] and [$'] written out;
    the expression has no groups, so that any other [$] stands for itself. *)
Fixpoint expand_replacement (before matched after template : jstring) : jstring :=
  match template with
  | [] => []
  | c :: rest =>
    match rest with
    | d :: rest' =>
      if (c =? 36)%N then
        if (d =? 36)%N then c :: expand_replacement before matched after rest'
        else if (d =? 38)%N then matched ++ expand_replacement before matched after rest'
        else if (d =? 96)%N then before ++ expand_replacement before matched after rest'
        else if (d =? 39)%N then after ++ expand_replacement before matched after rest'
        else c :: expand_replacement before matched after rest
      else c :: expand_replacement before matched after rest
    | [] => [c]
    end
  end.

Definition model_placeholder : regex := RLit "{model}".

(** The text from a position on, each match replaced. *)
Fixpoint replace_matches (template s : jstring) (from : nat) (ms : list rmatched) : jstring :=
  match ms with
  | [] => drop from s
  | m :: ms =>
    let after := (m_index m + length (m_text m))%nat in
    slice_nat from (m_index m) s
    ++ expand_replacement (take (m_index m) s) (m_text m) (drop after s) template
    ++ replace_matches template s after ms
  end.

Definition replaceModelInPath (path modelName : jstring) : jstring :=
  replace_matches modelName path 0 (match_all model_placeholder path).

Definition isTokenBasedModel (model : PricingModel) : bool := bool_decide (quota_type model = QUOTA_TOKEN).

(** *** The task of a model *)

(** [(?:^|[/_.-])w(?:[/_.-]|$)] *)
Definition separator : regex := RChar (one_of "/_.-").
Definition whole_word (w : jstring) : regex := RSeqs [RAlt RBol separator; RLit w; RAlt separator REol].

Definition words (ws : list jstring) : regex := RAlts (map RLit ws).

Definition rerank_re : regex := RLit "rerank".
Definition embed_re : regex := RAlt (RLit "embed") (whole_word "bge").
Definition video_re : regex :=
  RAlt (words ["sora"; "veo"; "kling"; "pika"; "video"; "seedance"])
    (RSeqs [RAlt RBol separator; RLit "wan"; RChar (λ c, is_digit c || one_of "_.-" c)]).
Definition image_re : regex :=
  RAlts [RLit "dall-e"; RLit "gpt-image"; RSeq (RLit "flux") (RChar (one_of ".-")); RLit "imagen"; RLit "ideogram";
         RLit "stable-diffusion"; RLit "sdxl"; RLit "midjourney"; RLit "recraft"; RLit "seedream"].
Definition audio_re : regex :=
  RAlt (words ["whisper"; "tts"; "speech"; "voice"; "audio"; "realtime"]) (whole_word "asr").

Definition getModelType (model : PricingModel) : jstring :=
  let endpoints := list_of (supported_endpoint_types model) in
  if has "jina-rerank" endpoints then "rerank"
  else if has "embeddings" endpoints then "embedding"
  else if has "openai-video" endpoints then "video"
  else if has "image-generation" endpoints then "image"
  else if has "embeddings" (list_of (capabilities model)) then "embedding"
  else
    let output := list_of (output_modalities model) in
    if has "video" output then "video"
    else if has "image" output then "image"
    else if has "audio" output then "audio"
    else
      let name := toLowerCase (model_name model) in
      if test rerank_re name then "rerank"
      else if test embed_re name then "embedding"
      else if test video_re name then "video"
      else if test image_re name then "image"
      else if test audio_re name then "audio"
      else if has "text" output
           || existsb (λ endpoint, has endpoint ["openai"; "openai-response"; "anthropic"; "gemini"]) endpoints
      then "text" else "other".

(** ** Filters *)

(** [text?.toLowerCase().includes(lowerQuery)] *)
Definition text_matches (lowerQuery : jstring) (text : option jstring) : bool :=
  match text with Some s => includes lowerQuery (toLowerCase s) | None => false end.

Definition search_matches (query : jstring) (m : PricingModel) : bool :=
  let lowerQuery := toLowerCase query in
  text_matches lowerQuery (Some (model_name m))
  || existsb (λ alias, includes lowerQuery (toLowerCase alias)) (list_of (aliases m))
  || text_matches lowerQuery (description m)
  || text_matches lowerQuery (tags m)
  || text_matches lowerQuery (vendor_name m).

Definition filterBySearch (models : list PricingModel) (query : jstring) : list PricingModel :=
  if negb (truthy query) then models else filter (λ m, search_matches query m = true) models.

Definition filterByVendor (models : list PricingModel) (vendor : jstring) : list PricingModel :=
  if bool_decide (vendor = FILTER_ALL) then models
  else filter (λ m, vendor_name m = Some vendor) models.

Definition filterByGroup (models : list PricingModel) (group : jstring) : list PricingModel :=
  if bool_decide (group = FILTER_ALL) then models
  else filter (λ m, has group (list_of (enable_groups m)) = true) models.

Definition filterByQuotaType (models : list PricingModel) (quotaType : jstring) : list PricingModel :=
  if bool_decide (quotaType = FILTER_ALL) then models
  else
    let targetType := if bool_decide (quotaType = QUOTA_TYPES_TOKEN) then QUOTA_TOKEN else QUOTA_REQUEST in
    filter (λ m, quota_type m = targetType) models.

Definition filterByModelType (models : list PricingModel) (modelType : jstring) : list PricingModel :=
  if bool_decide (modelType = FILTER_ALL) then models
  else filter (λ model, getModelType model = modelType) models.

Definition tag_separators : regex := RPlus (RChar (λ c, one_of ",;|" c || is_space c)).

Definition parseTags (tagsString : option jstring) : list jstring :=
  if negb (otruthy tagsString) then []
  else filter (λ t, truthy t = true) (map trim (split_regex tag_separators (default [] tagsString))).

Definition lower_tags (m : PricingModel) : list jstring := map toLowerCase (parseTags (tags m)).

(** The tags of one model, added to a set. *)
Definition add_tags (tagSet : list jstring) (model : PricingModel) : list jstring :=
  if otruthy (tags model) then fold_left (λ s tag, set_add tag s) (lower_tags model) tagSet else tagSet.

Definition extractAllTags (models : list PricingModel) : list jstring :=
  sort_by localeCompare (fold_left add_tags models []).

Definition filterByTag (models : list PricingModel) (tag : jstring) : list PricingModel :=
  if bool_decide (tag = FILTER_ALL) then models
  else filter (λ m, otruthy (tags m) && has (toLowerCase tag) (lower_tags m) = true) models.

(** *** Sorting *)

Definition getModelPrice (model : PricingModel) : num :=
  if bool_decide (quota_type model = 0%Z) then model_ratio model
  else match model_price model with Some p => num_or p zero | None => zero end.

Definition getModelBenefit (model : PricingModel) (groupFilter : jstring) : num :=
  nmax zero (nmul (nsub (of_Z 1) (getDisplayGroupRatio model (Some groupFilter))) (of_Z 100)).

Definition benefit_order (groupFilter : jstring) (a b : PricingModel) : Z :=
  or_compare (nsub (getModelBenefit b groupFilter) (getModelBenefit a groupFilter))
    (localeCompare (model_name a) (model_name b)).

Definition sortModels (models : list PricingModel) (sortBy groupFilter : jstring) : list PricingModel :=
  if bool_decide (sortBy = SORT_NAME) then sort_by (λ a b, localeCompare (model_name a) (model_name b)) models
  else if bool_decide (sortBy = SORT_PRICE_LOW) then
    sort_by (λ a b, compare_result (nsub (getModelPrice a) (getModelPrice b))) models
  else if bool_decide (sortBy = SORT_PRICE_HIGH) then
    sort_by (λ a b, compare_result (nsub (getModelPrice b) (getModelPrice a))) models
  else if bool_decide (sortBy = SORT_BENEFIT) then sort_by (benefit_order groupFilter) models
  else models.

(** *** All filters *)

Record PricingFilterValues := {
  search : jstring; vendor : jstring; group : jstring; quotaType : jstring; modelType : jstring; tag : jstring
}.

Inductive PricingFacet := facet_vendor | facet_group | facet_quotaType | facet_modelType | facet_tag.

(** [skipFacet !== facet] *)
Definition kept (skipFacet : option PricingFacet) (facet : PricingFacet) : bool :=
  match skipFacet, facet with
  | Some facet_vendor, facet_vendor | Some facet_group, facet_group | Some facet_quotaType, facet_quotaType
  | Some facet_modelType, facet_modelType | Some facet_tag, facet_tag => false
  | _, _ => true
  end.

Definition filterModelsForFacet (models : list PricingModel) (filters : PricingFilterValues)
  (skipFacet : option PricingFacet) : list PricingModel :=
  let result := filterBySearch models (search filters) in
  let result := if kept skipFacet facet_vendor then filterByVendor result (vendor filters) else result in
  let result := if kept skipFacet facet_group then filterByGroup result (group filters) else result in
  let result := if kept skipFacet facet_quotaType then filterByQuotaType result (quotaType filters) else result in
  let result := if kept skipFacet facet_modelType then filterByModelType result (modelType filters) else result in
  if kept skipFacet facet_tag then filterByTag result (tag filters) else result.

Definition filterAndSortModels (models : list PricingModel) (filters : PricingFilterValues) (sortBy : jstring)
  : list PricingModel :=
  sortModels (filterModelsForFacet models filters None) sortBy (group filters).

(** ** The state of the filters ([hooks/use-filters.ts]) *)

Record FilterState := {
  fs_search : option jstring;
  fs_sort : option jstring;
  fs_vendor : option jstring;
  fs_group : option jstring;
  fs_quotaType : option jstring;
  fs_modelType : option jstring;
  fs_tag : option jstring;
  fs_tokenUnit : option jstring;
  fs_view : option jstring;
  fs_rechargePrice : option bool;
}.

Definition searchInput (s : FilterState) : jstring := ostr_or (fs_search s) [].
Definition sortBy (s : FilterState) : jstring := ostr_or (fs_sort s) DEFAULT_SORT_OPTION.
Definition vendorFilter (s : FilterState) : jstring := ostr_or (fs_vendor s) FILTER_ALL.
Definition groupFilter (s : FilterState) : jstring := ostr_or (fs_group s) FILTER_ALL.
Definition quotaTypeFilter (s : FilterState) : jstring := ostr_or (fs_quotaType s) FILTER_ALL.
Definition modelTypeFilter (s : FilterState) : jstring := ostr_or (fs_modelType s) FILTER_ALL.
Definition tagFilter (s : FilterState) : jstring := ostr_or (fs_tag s) FILTER_ALL.
Definition tokenUnit (s : FilterState) : jstring :=
  if bool_decide (fs_tokenUnit s = Some ("K" : jstring)) then "K" else "M".
Definition viewMode (s : FilterState) : jstring :=
  match fs_view s with Some v => if bool_decide (v = "table") then "table" else "card" | None => "card" end.
Definition showRechargePrice (s : FilterState) : bool := default false (fs_rechargePrice s).

(** A property of an update: absent, or present with a value, which may be
    [undefined] and then deletes the property. *)
Definition updated {A} (update : option (option A)) (old : option A) : option A :=
  match update with Some v => v | None => old end.

Record FilterUpdates := mkUpdates {
  u_search : option (option jstring);
  u_sort : option (option jstring);
  u_vendor : option (option jstring);
  u_group : option (option jstring);
  u_quotaType : option (option jstring);
  u_modelType : option (option jstring);
  u_tag : option (option jstring);
  u_tokenUnit : option (option jstring);
  u_view : option (option jstring);
  u_rechargePrice : option (option bool);
}.

Definition updateFilters (u : FilterUpdates) (s : FilterState) : FilterState := {|
  fs_search := updated (u_search u) (fs_search s);
  fs_sort := updated (u_sort u) (fs_sort s);
  fs_vendor := updated (u_vendor u) (fs_vendor s);
  fs_group := updated (u_group u) (fs_group s);
  fs_quotaType := updated (u_quotaType u) (fs_quotaType s);
  fs_modelType := updated (u_modelType u) (fs_modelType s);
  fs_tag := updated (u_tag u) (fs_tag s);
  fs_tokenUnit := updated (u_tokenUnit u) (fs_tokenUnit s);
  fs_view := updated (u_view u) (fs_view s);
  fs_rechargePrice := updated (u_rechargePrice u) (fs_rechargePrice s);
|}.

(** [v === standard ? undefined : v] *)
Definition unless (standard v : jstring) : option jstring := if bool_decide (v = standard) then None else Some v.

Definition setSearchInput (v : jstring) : FilterState → FilterState :=
  updateFilters (mkUpdates (Some (if truthy v then Some v else None)) None None None None None None None None None).
Definition setSortBy (v : jstring) : FilterState → FilterState :=
  updateFilters (mkUpdates None (Some (unless DEFAULT_SORT_OPTION v)) None None None None None None None None).
Definition setVendorFilter (v : jstring) : FilterState → FilterState :=
  updateFilters (mkUpdates None None (Some (unless FILTER_ALL v)) None None None None None None None).
Definition setGroupFilter (v : jstring) : FilterState → FilterState :=
  updateFilters (mkUpdates None None None (Some (unless FILTER_ALL v)) None None None None None None).
Definition setQuotaTypeFilter (v : jstring) : FilterState → FilterState :=
  updateFilters (mkUpdates None None None None (Some (unless FILTER_ALL v)) None None None None None).
Definition setModelTypeFilter (v : jstring) : FilterState → FilterState :=
  updateFilters (mkUpdates None None None None None (Some (unless FILTER_ALL v)) None None None None).
Definition setTagFilter (v : jstring) : FilterState → FilterState :=
  updateFilters (mkUpdates None None None None None None (Some (unless FILTER_ALL v)) None None None).
Definition setTokenUnit (v : jstring) : FilterState → FilterState :=
  updateFilters (mkUpdates None None None None None None None (Some (unless "M" v)) None None).
Definition setViewMode (v : jstring) : FilterState → FilterState :=
  updateFilters (mkUpdates None None None None None None None None (Some (unless "card" v)) None).
Definition setShowRechargePrice (v : bool) : FilterState → FilterState :=
  updateFilters (mkUpdates None None None None None None None None None (Some (if v then Some true else None))).

Definition clearFilters : FilterState → FilterState :=
  updateFilters (mkUpdates None None (Some None) (Some None) (Some None) (Some None) (Some None) None None None).
Definition clearSearch : FilterState → FilterState :=
  updateFilters (mkUpdates (Some None) None None None None None None None None None).

(** The filters of a state. *)
Definition filter_values (s : FilterState) : PricingFilterValues := {|
  search := searchInput s; vendor := vendorFilter s; group := groupFilter s;
  quotaType := quotaTypeFilter s; modelType := modelTypeFilter s; tag := tagFilter s |}.

Definition availableTags (models : list PricingModel) : list jstring :=
  match models with [] => [] | _ => extractAllTags models end.

Definition filteredModels (models : list PricingModel) (s : FilterState) : list PricingModel :=
  match models with [] => [] | _ => filterAndSortModels models (filter_values s) (sortBy s) end.

Definition facet_values (s : FilterState) : list jstring :=
  [vendorFilter s; groupFilter s; quotaTypeFilter s; modelTypeFilter s; tagFilter s].

Definition hasActiveFilters (s : FilterState) : bool :=
  existsb (λ v, negb (bool_decide (v = FILTER_ALL))) (facet_values s).

Definition activeFilterCount (s : FilterState) : nat :=
  foldr (λ v n, (if negb (bool_decide (v = FILTER_ALL)) then 1 else 0) + n)%nat 0%nat (facet_values s).

(** ** The options of the sidebar ([components/pricing-sidebar.tsx]) *)

Record FilterOption := {
  fo_value : jstring;
  fo_label : jstring;
  fo_count : nat;
  fo_suffix : option jstring;
}.

Definition countBy (models : list PricingModel) (predicate : PricingModel → bool) : nat :=
  fold_left (λ count model, (count + if predicate model then 1 else 0)%nat) models 0%nat.

(** The patterns are [/0+$/] and [/\.$/]. *)
Definition formatGroupRatio (ratio : option num) : option jstring :=
  match ratio with
  | None => None
  | Some ratio => Some ("x" ++
      (if is_integer ratio then Number_to_string ratio
       else replace_first (RSeq (RLit ".") REol) (λ _, [])
              (replace_first (RSeq (RPlus (RChar (λ c, (c =? 48)%N))) REol) (λ _, []) (to_fixed 3 ratio))))
  end.

Record SidebarProps := {
  sp_state : FilterState;
  sp_models : list PricingModel;
  vendors : list PricingVendor;
  groups : list jstring;
  groupRatios : list (jstring * num);
  groupNames : list (jstring * jstring);
  sp_tags : list jstring;
}.

(** [options.filter(option => option.count > 0 || option.value === selected)] *)
Definition shown_options (selected : jstring) (options : list FilterOption) : list FilterOption :=
  filter (λ o, (0 <? fo_count o)%nat || bool_decide (fo_value o = selected) = true) options.

Section options.
Variable t : jstring → jstring.

Definition facet_models (p : SidebarProps) (facet : PricingFacet) : list PricingModel :=
  filterModelsForFacet (sp_models p) (filter_values (sp_state p)) (Some facet).

Definition all_option (label : jstring) (models : list PricingModel) : FilterOption :=
  {| fo_value := FILTER_ALL; fo_label := label; fo_count := length models; fo_suffix := None |}.

Definition plain_option (value label : jstring) (count : nat) : FilterOption :=
  {| fo_value := value; fo_label := label; fo_count := count; fo_suffix := None |}.

Definition vendorOptions (p : SidebarProps) : list FilterOption :=
  let vendorModels := facet_models p facet_vendor in
  all_option (t "All Vendors") vendorModels ::
  shown_options (vendorFilter (sp_state p))
    (map (λ v, plain_option (v_name v) (v_name v)
                 (countBy vendorModels (λ model, bool_decide (vendor_name model = Some (v_name v))))) (vendors p)).

Definition groupOptions (p : SidebarProps) : list FilterOption :=
  let groupModels := facet_models p facet_group in
  all_option (t "All Groups") groupModels ::
  shown_options (groupFilter (sp_state p))
    (map (λ g, {| fo_value := g; fo_label := nullish (oget g (groupNames p)) g;
                  fo_count := countBy groupModels (λ model, has g (list_of (enable_groups model)));
                  fo_suffix := formatGroupRatio (oget g (groupRatios p)) |})
       (sortGroupsByRatio (groups p) (groupRatios p))).

Definition quotaOptions (p : SidebarProps) : list FilterOption :=
  let quotaModels := facet_models p facet_quotaType in
  filter (λ o, bool_decide (fo_value o = FILTER_ALL) || (0 <? fo_count o)%nat
               || bool_decide (fo_value o = quotaTypeFilter (sp_state p)) = true)
    [all_option (t "All Models") quotaModels;
     plain_option QUOTA_TYPES_TOKEN (t "Token-based") (countBy quotaModels (λ m, bool_decide (quota_type m = 0%Z)));
     plain_option QUOTA_TYPES_REQUEST (t "Per Request") (countBy quotaModels (λ m, bool_decide (quota_type m = 1%Z)))].

Definition tagOptions (p : SidebarProps) : list FilterOption :=
  let tagModels := facet_models p facet_tag in
  all_option (t "All Tags") tagModels ::
  shown_options (tagFilter (sp_state p))
    (map (λ tag, plain_option tag tag (countBy tagModels (λ model, has (toLowerCase tag) (lower_tags model)))) (sp_tags p)).

(** [getModelTypeLabels(t)] without the first. *)
Definition modelTypeLabels : list (jstring * jstring) :=
  [("text", t "Text"); ("image", t "Images"); ("audio", t "Audio"); ("video", t "Video");
   ("embedding", t "Embedding models"); ("rerank", t "Reranking"); ("other", t "Other")].

Definition modelTypeOptions (p : SidebarProps) : list FilterOption :=
  let modelTypeModels := facet_models p facet_modelType in
  all_option (t "All Types") modelTypeModels ::
  shown_options (modelTypeFilter (sp_state p))
    (map (λ '(value, label), plain_option value label
            (countBy modelTypeModels (λ model, bool_decide (getModelType model = value)))) modelTypeLabels).

(** The options of a facet, and what choosing one does. *)
Definition options_of (facet : PricingFacet) (p : SidebarProps) : list FilterOption :=
  match facet with
  | facet_vendor => vendorOptions p
  | facet_group => groupOptions p
  | facet_quotaType => quotaOptions p
  | facet_modelType => modelTypeOptions p
  | facet_tag => tagOptions p
  end.

Definition onChange (facet : PricingFacet) : jstring → FilterState → FilterState :=
  match facet with
  | facet_vendor => setVendorFilter
  | facet_group => setGroupFilter
  | facet_quotaType => setQuotaTypeFilter
  | facet_modelType => setModelTypeFilter
  | facet_tag => setTagFilter
  end.
End options.
End catalog.

(** ** The data of the page ([hooks/use-pricing-data.ts]) *)

Record PricingData := {
  pd_data : option (list PricingModel);
  pd_vendors : option (list PricingVendor);
  pd_group_ratio : list (jstring * num);
}.

(** The lower bound of the rates. *)
Definition MIN_RATE : num := Number_of_string "0.001".

Definition priceRate (price : option num) : num := nmax (nullish price (of_Z 1)) MIN_RATE.

Definition usdExchangeRate (price usd_exchange_rate : option num) : num :=
  nmax (nullish usd_exchange_rate (priceRate price)) MIN_RATE.

Definition with_vendor (ratios : list (jstring * num)) (vendor : option PricingVendor) (m : PricingModel) : PricingModel := {|
  model_id := model_id m; model_name := model_name m; aliases := aliases m; description := description m;
  vendor_id := vendor_id m; vendor_name := v_name <$> vendor; vendor_icon := v ← vendor; v_icon v;
  vendor_description := v ← vendor; v_description v;
  quota_type := quota_type m; model_ratio := model_ratio m; completion_ratio := completion_ratio m;
  model_price := model_price m; cache_ratio := cache_ratio m; create_cache_ratio := create_cache_ratio m;
  image_ratio := image_ratio m; audio_ratio := audio_ratio m; audio_completion_ratio := audio_completion_ratio m;
  enable_groups := enable_groups m; enable_group_refs := enable_group_refs m; tags := tags m;
  supported_endpoint_types := supported_endpoint_types m; model_key := Some (model_name m);
  group_ratio := Some ratios; billing_mode := billing_mode m; billing_expr := billing_expr m;
  output_modalities := output_modalities m; capabilities := capabilities m |}.

(** An id of 0 is no vendor. *)
Definition catalog_models (data : PricingData) : list PricingModel :=
  match pd_data data, pd_vendors data with
  | Some models, Some vendors =>
    let vendorMap := new_map (map (λ v, (v_id v, v)) vendors) in
    map (λ model,
        let vendor := match vendor_id model with
                      | Some vid => if bool_decide (vid = 0%Z) then None else oget vid vendorMap
                      | None => None
                      end in
        with_vendor (pd_group_ratio data) vendor model) models
  | _, _ => []
  end.

Definition group_names (pricing_groups : option (list PricingGroupRef)) : list (jstring * jstring) :=
  fold_left (λ names g, obj_set (Z_to_js (ref_id g)) (ref_name g) names) (default [] pricing_groups) [].

(** ** Filters as predicates *)

Section filters.
Variable toLowerCase : jstring → jstring.
Variable localeCompare : jstring → jstring → Z.

(** What a model has to satisfy for a value of a facet. *)
Definition facet_match (facet : PricingFacet) (value : jstring) (m : PricingModel) : bool :=
  bool_decide (value = FILTER_ALL) ||
  match facet with
  | facet_vendor => bool_decide (vendor_name m = Some value)
  | facet_group => has value (list_of (enable_groups m))
  | facet_quotaType =>
    bool_decide (quota_type m = if bool_decide (value = QUOTA_TYPES_TOKEN) then QUOTA_TOKEN else QUOTA_REQUEST)
  | facet_modelType => bool_decide (getModelType toLowerCase m = value)
  | facet_tag => has (toLowerCase value) (lower_tags toLowerCase m)
  end.

Definition facet_value (facet : PricingFacet) (f : PricingFilterValues) : jstring :=
  match facet with
  | facet_vendor => vendor f
  | facet_group => group f
  | facet_quotaType => quotaType f
  | facet_modelType => modelType f
  | facet_tag => tag f
  end.

Definition FACETS : list PricingFacet := [facet_vendor; facet_group; facet_quotaType; facet_modelType; facet_tag].

Definition searched (query : jstring) (m : PricingModel) : bool :=
  negb (truthy query) || search_matches toLowerCase query m.

(** The specification of the page: the search, and every facet that is not skipped. *)
Definition matches (f : PricingFilterValues) (skipFacet : option PricingFacet) (m : PricingModel) : bool :=
  searched (search f) m &&
  forallb (λ facet, negb (kept skipFacet facet) || facet_match facet (facet_value facet f) m) FACETS.

Lemma filter_true (l : list PricingModel) (p : PricingModel → bool) :
  (∀ m, p m = true) → filter (λ m, p m = true) l = l.
Proof. intros H. induction l as [|m l IH]; [done|]. by rewrite filter_cons_True, IH by apply H. Qed.

Lemma filter_eq (l : list PricingModel) (p q : PricingModel → bool) :
  (∀ m, p m = q m) → filter (λ m, p m = true) l = filter (λ m, q m = true) l.
Proof. intros H. apply list_filter_iff. intros m. by rewrite H. Qed.

Lemma filter_and (l : list PricingModel) (p q : PricingModel → bool) :
  filter (λ m, q m = true) (filter (λ m, p m = true) l) = filter (λ m, p m && q m = true) l.
Proof.
  rewrite list_filter_filter. apply list_filter_iff. intros m. by rewrite andb_true_iff, (and_comm (q m = true)).
Qed.

Lemma lower_tags_untagged m : otruthy (tags m) = false → lower_tags toLowerCase m = [].
Proof. unfold lower_tags, parseTags. by intros ->. Qed.

Lemma filter_facet (models : list PricingModel) value :
  filterByVendor models value = filter (λ m, facet_match facet_vendor value m = true) models ∧
  filterByGroup models value = filter (λ m, facet_match facet_group value m = true) models ∧
  filterByQuotaType models value = filter (λ m, facet_match facet_quotaType value m = true) models ∧
  filterByModelType toLowerCase models value = filter (λ m, facet_match facet_modelType value m = true) models ∧
  filterByTag toLowerCase models value = filter (λ m, facet_match facet_tag value m = true) models.
Proof.
  unfold filterByVendor, filterByGroup, filterByQuotaType, filterByModelType, filterByTag, facet_match.
  case_bool_decide as E; cbn [orb]; [by split_and!; symmetry; apply filter_true|].
  split_and!; apply list_filter_iff; intros m; rewrite ?bool_decide_eq_true; try done.
  destruct (otruthy (tags m)) eqn:Et; [done|]. rewrite lower_tags_untagged by done. by cbn.
Qed.

Lemma filterBySearch_searched models query :
  filterBySearch toLowerCase models query = filter (λ m, searched query m = true) models.
Proof.
  unfold filterBySearch, searched. destruct (negb (truthy query)); [by rewrite filter_true|done].
Qed.

(** The chain of filters is the filter of the conjunction. *)
Lemma filterModelsForFacet_spec models f skip :
  filterModelsForFacet toLowerCase models f skip = filter (λ m, matches f skip m = true) models.
Proof.
  unfold filterModelsForFacet, matches. cbn [forallb FACETS facet_value].
  rewrite filterBySearch_searched.
  assert (∀ (b : bool) (p : PricingModel → bool) (l : list PricingModel), (if b then filter (λ m, p m = true) l else l) = filter (λ m, negb b || p m = true) l) as Hif.
  { intros [] p l; [by apply filter_eq|by rewrite filter_true]. }
  repeat match goal with
  | |- context [if ?b then filterByVendor ?l ?v else _] => rewrite (proj1 (filter_facet l v))
  | |- context [if ?b then filterByGroup ?l ?v else _] => rewrite (proj1 (proj2 (filter_facet l v)))
  | |- context [if ?b then filterByQuotaType ?l ?v else _] => rewrite (proj1 (proj2 (proj2 (filter_facet l v))))
  | |- context [if ?b then filterByModelType _ ?l ?v else _] =>
    rewrite (proj1 (proj2 (proj2 (proj2 (filter_facet l v)))))
  | |- context [if ?b then filterByTag _ ?l ?v else _] => rewrite (proj2 (proj2 (proj2 (proj2 (filter_facet l v)))))
  end.
  rewrite !Hif, !filter_and. apply filter_eq. intros m. cbv beta. by rewrite !andb_true_r, !andb_assoc.
Qed.

Lemma sortModels_perm models sortBy gf : sortModels localeCompare models sortBy gf ≡ₚ models.
Proof. unfold sortModels. repeat case_bool_decide; auto with jslib. Qed.

(** What is listed. *)
Lemma filteredModels_perm models s :
  filteredModels toLowerCase localeCompare models s
    ≡ₚ filter (λ m, matches (filter_values s) None m = true) models.
Proof.
  unfold filteredModels, filterAndSortModels. destruct models as [|m models]; [done|].
  by rewrite sortModels_perm, filterModelsForFacet_spec.
Qed.

Lemma countBy_length models p : countBy models p = length (filter (λ m, p m = true) models).
Proof.
  unfold countBy. enough (∀ n, fold_left (λ count model, (count + if p model then 1 else 0)%nat) models n
    = (n + length (filter (λ m, p m = true) models))%nat) as H by apply (H 0%nat).
  induction models as [|m models IH]; intros n.
  - cbn. lia.
  - cbn [fold_left]. rewrite IH, filter_cons. destruct (p m) eqn:E.
    + rewrite decide_True by done. cbn [length]. lia.
    + rewrite decide_False by done. lia.
Qed.

(** *** The counts of the sidebar *)

(** The filters after the choice of a value in a facet. *)
Definition with_facet (facet : PricingFacet) (value : jstring) (f : PricingFilterValues) : PricingFilterValues :=
  match facet with
  | facet_vendor => {| search := search f; vendor := value; group := group f; quotaType := quotaType f; modelType := modelType f; tag := tag f |}
  | facet_group => {| search := search f; vendor := vendor f; group := value; quotaType := quotaType f; modelType := modelType f; tag := tag f |}
  | facet_quotaType => {| search := search f; vendor := vendor f; group := group f; quotaType := value; modelType := modelType f; tag := tag f |}
  | facet_modelType => {| search := search f; vendor := vendor f; group := group f; quotaType := quotaType f; modelType := value; tag := tag f |}
  | facet_tag => {| search := search f; vendor := vendor f; group := group f; quotaType := quotaType f; modelType := modelType f; tag := value |}
  end.

Lemma unless_read v : v ≠ [] → ostr_or (unless FILTER_ALL v) FILTER_ALL = v.
Proof. unfold unless. case_bool_decide; [by subst|]. by destruct v. Qed.

(** A choice in the sidebar changes that facet only. *)
Lemma onChange_values facet value s :
  value ≠ [] → filter_values (onChange facet value s) = with_facet facet value (filter_values s).
Proof.
  intros Hv. pose proof (unless_read value Hv) as E.
  unfold filter_values, searchInput, vendorFilter, groupFilter, quotaTypeFilter, modelTypeFilter, tagFilter.
  destruct facet;
    cbn [onChange setVendorFilter setGroupFilter setQuotaTypeFilter setModelTypeFilter setTagFilter updateFilters updated
      u_search u_sort u_vendor u_group u_quotaType u_modelType u_tag fs_search fs_vendor fs_group fs_quotaType
      fs_modelType fs_tag with_facet search vendor group quotaType modelType tag]; by rewrite E.
Qed.

Lemma matches_with_facet facet value f m :
  matches (with_facet facet value f) None m = matches f (Some facet) m && facet_match facet value m.
Proof.
  unfold matches, FACETS. destruct facet; cbn [with_facet search forallb facet_value kept negb orb vendor group quotaType modelType tag];
    repeat match goal with |- context [facet_match ?f ?v m] => generalize (facet_match f v m); intros [] end;
    by destruct (searched _ m).
Qed.
End filters.

(** *** Every option tells what choosing it lists *)

Section counts.
Variable toLowerCase : jstring → jstring.
Variable localeCompare : jstring → jstring → Z.
Variable t : jstring → jstring.

(** The values that are offered, and the number of models for each. *)
Definition counted (p : SidebarProps) (facet : PricingFacet) (o : FilterOption) : Prop :=
  fo_value o = FILTER_ALL ∧ fo_count o = length (facet_models toLowerCase p facet) ∨
  fo_count o = countBy (facet_models toLowerCase p facet) (facet_match toLowerCase facet (fo_value o)) .

(** No vendor, group or tag has the name that stands for all, or an empty one. *)
Definition named (p : SidebarProps) : Prop :=
  Forall (λ n, n ≠ [] ∧ n ≠ FILTER_ALL) (map v_name (vendors p) ++ groups p ++ sp_tags p).

Lemma countBy_ext models p q : (∀ m, p m = q m) → countBy models p = countBy models q.
Proof. intros H. rewrite !countBy_length. f_equal. apply list_filter_iff. intros m. by rewrite H. Qed.

Lemma shown_options_in selected options o : o ∈ shown_options selected options → o ∈ options.
Proof. unfold shown_options. by intros [_ ?]%list_elem_of_filter. Qed.

Lemma option_counted facet p o :
  named p → o ∈ options_of toLowerCase localeCompare t facet p → fo_value o ≠ [] ∧ counted p facet o.
Proof.
  intros Hn Ho. unfold named in Hn. rewrite !Forall_app, !Forall_forall in Hn. destruct Hn as (Hv & Hg & Ht).
  unfold counted. destruct facet; cbn [options_of] in Ho.
  - apply elem_of_cons in Ho as [->|Ho]; [by split; [|left]|].
    apply shown_options_in, list_elem_of_fmap in Ho as (v & -> & Hin). cbn [plain_option fo_value fo_count].
    destruct (Hv (v_name v)) as [He Ha]; [by apply list_elem_of_fmap_2|]. split; [done|right].
    apply countBy_ext. intros m. unfold facet_match. by rewrite (bool_decide_eq_false_2 (_ = FILTER_ALL)).
  - apply elem_of_cons in Ho as [->|Ho]; [by split; [|left]|].
    apply shown_options_in, list_elem_of_fmap in Ho as (g & -> & Hin). cbn [fo_value fo_count].
    unfold sortGroupsByRatio in Hin. rewrite elem_of_sort_by in Hin.
    destruct (Hg g Hin) as [He Ha]. split; [done|right].
    apply countBy_ext. intros m. unfold facet_match. by rewrite (bool_decide_eq_false_2 (_ = FILTER_ALL)).
  - unfold quotaOptions in Ho. apply list_elem_of_filter in Ho as [_ Ho].
    repeat (apply elem_of_cons in Ho as [->|Ho]); [by split; [|left]|split; [done|right]; by apply countBy_ext| split; [done|right]; by apply countBy_ext|by apply elem_of_nil in Ho].
  - apply elem_of_cons in Ho as [->|Ho]; [by split; [|left]|].
    apply shown_options_in, list_elem_of_fmap in Ho as ([value label] & -> & Hin). cbn [plain_option fo_value fo_count].
    assert (value ≠ [] ∧ value ≠ FILTER_ALL) as [He Ha].
    { revert Hin. unfold modelTypeLabels. rewrite !elem_of_cons, elem_of_nil. intros Hin.
      by repeat destruct Hin as [Hin|Hin]; try (injection Hin as -> _). }
    split; [done|right]. apply countBy_ext. intros m. unfold facet_match. by rewrite (bool_decide_eq_false_2 (_ = FILTER_ALL)).
  - apply elem_of_cons in Ho as [->|Ho]; [by split; [|left]|].
    apply shown_options_in, list_elem_of_fmap in Ho as (tg & -> & Hin). cbn [plain_option fo_value fo_count].
    destruct (Ht tg Hin) as [He Ha]. split; [done|right].
    apply countBy_ext. intros m. unfold facet_match. by rewrite (bool_decide_eq_false_2 (_ = FILTER_ALL)).
Qed.

Lemma counted_listed facet p o :
  fo_value o ≠ [] → counted p facet o →
  length (filteredModels toLowerCase localeCompare (sp_models p) (onChange facet (fo_value o) (sp_state p))) = fo_count o.
Proof.
  intros He Hc. rewrite filteredModels_perm, onChange_values by done.
  assert (∀ m, matches toLowerCase (with_facet facet (fo_value o) (filter_values (sp_state p))) None m
    = matches toLowerCase (filter_values (sp_state p)) (Some facet) m && facet_match toLowerCase facet (fo_value o) m) as E
    by (intros m; apply matches_with_facet).
  rewrite (filter_eq _ _ _ E), <- filter_and. destruct Hc as [[Ha ->]| ->];
    rewrite ?countBy_length; unfold facet_models; rewrite filterModelsForFacet_spec; [|done].
  f_equal. rewrite Ha. apply filter_true. intros m. unfold facet_match. by rewrite bool_decide_eq_true_2.
Qed.

(** C34: The number beside every option of the sidebar is the number of models the page
    lists after that option is chosen, whatever the other filters and the search. *)
Theorem facet_counts facet p o :
  named p → o ∈ options_of toLowerCase localeCompare t facet p →
  length (filteredModels toLowerCase localeCompare (sp_models p) (onChange facet (fo_value o) (sp_state p))) = fo_count o.
Proof. intros Hn Ho. destruct (option_counted facet p o Hn Ho). by apply counted_listed. Qed.

End counts.

(** ** The page *)

Section page.
Variable toLowerCase : jstring → jstring.
Variable localeCompare : jstring → jstring → Z.
(** The collation is a total preorder. *)
Hypothesis localeCompare_total : ∀ a b, (0 < localeCompare a b)%Z → (localeCompare b a <= 0)%Z.
Hypothesis localeCompare_trans : ∀ a b c,
  (localeCompare a b <= 0)%Z → (localeCompare b c <= 0)%Z → (localeCompare a c <= 0)%Z.

Definition name_order (a b : PricingModel) : Z := localeCompare (model_name a) (model_name b).

(** The order each choice asks for. *)
Definition listed_before (sortBy gf : jstring) (a b : PricingModel) : Prop :=
  if bool_decide (sortBy = SORT_NAME) then (name_order a b <= 0)%Z
  else if bool_decide (sortBy = SORT_PRICE_LOW) then nle (getModelPrice a) (getModelPrice b) = true
  else if bool_decide (sortBy = SORT_PRICE_HIGH) then nle (getModelPrice b) (getModelPrice a) = true
  else if bool_decide (sortBy = SORT_BENEFIT) then
    nlt (getModelBenefit b gf) (getModelBenefit a gf) = true ∨
    neqb (getModelBenefit a gf) (getModelBenefit b gf) = true ∧ (name_order a b <= 0)%Z
  else True.

(** Prices and benefits are finite numbers in normal form. *)
Definition priced (gf : jstring) (m : PricingModel) : Prop :=
  proper_number getModelPrice m ∧ proper_number (λ m, getModelBenefit m gf) m.

(** The contract of the page: which models are listed, and in which order. *)
Record catalog_page (models : list PricingModel) (s : FilterState) (shown : list PricingModel) : Prop := {
  page_models : shown ≡ₚ filter (λ m, matches toLowerCase (filter_values s) None m = true) models;
  page_order : StronglySorted (listed_before (sortBy s) (groupFilter s)) shown;
}.

Lemma sortModels_sorted models sortBy gf :
  Forall (priced gf) models → StronglySorted (listed_before sortBy gf) (sortModels localeCompare models sortBy gf).
Proof using localeCompare_total localeCompare_trans.
  intros HP. assert (Forall (proper_number getModelPrice) models) as Hprice by (eapply Forall_impl; [exact HP|by intros m []]).
  assert (Forall (proper_number (λ m, getModelBenefit m gf)) models) as Hben by (eapply Forall_impl; [exact HP|by intros m []]).
  unfold sortModels, listed_before. case_bool_decide.
  { apply sort_by_sorted; unfold cmp_le; eauto. }
  case_bool_decide; [by apply sort_numbers_sorted|]. case_bool_decide; [by apply sort_numbers_sorted_down|].
  case_bool_decide.
  - apply (sort_then_sorted (λ m, getModelBenefit m gf) true name_order); unfold cmp_le, name_order; eauto.
  - clear. induction models as [|m models IH]; constructor; [done|by apply Forall_true].
Qed.

(** C13: The page implements its contract: it lists exactly the models that satisfy the
    search and every filter, in the order asked for; by benefit, ties are in the
    order of the names. *)
Theorem filteredModels_page models s :
  Forall (priced (groupFilter s)) models →
  catalog_page models s (filteredModels toLowerCase localeCompare models s).
Proof using localeCompare_total localeCompare_trans.
  intros HP. split; [apply filteredModels_perm|]. unfold filteredModels.
  destruct models as [|m models]; [constructor|]. unfold filterAndSortModels.
  apply sortModels_sorted. rewrite filterModelsForFacet_spec. rewrite Forall_forall in *. intros x [_ Hx]%list_elem_of_filter. by apply HP.
Qed.

(** ** Tags *)

Lemma fold_add_tags models s :
  (NoDup s → NoDup (fold_left (add_tags toLowerCase) models s)) ∧
  ∀ tg, tg ∈ fold_left (add_tags toLowerCase) models s → tg ∈ s ∨ ∃ m, m ∈ models ∧ tg ∈ lower_tags toLowerCase m.
Proof.
  revert s. induction models as [|m models IH]; intros s; [split; [done|by left]|]. cbn [fold_left].
  destruct (IH (add_tags toLowerCase s m)) as [IHn IHe]. split.
  - intros Hs. apply IHn. unfold add_tags. destruct (otruthy (tags m)); [by apply NoDup_fold_set_add|done].
  - intros tg [Hin|(m' & ? & ?)]%IHe; [|right; exists m'; by split; [right|]].
    unfold add_tags in Hin. destruct (otruthy (tags m)); [|by left].
    apply elem_of_fold_set_add in Hin as [?|?]; [by left|right; exists m; by split; [left|]].
Qed.

(** The tags that are offered are the tags of the models, each once, in order, and
    choosing one lists a model when nothing else is chosen. *)
Lemma offered_tags models :
  (∀ s, toLowerCase (toLowerCase s) = toLowerCase s) →
  NoDup (availableTags toLowerCase localeCompare models) ∧
  StronglySorted (λ a b, (localeCompare a b <= 0)%Z) (availableTags toLowerCase localeCompare models) ∧
  ∀ tg, tg ∈ availableTags toLowerCase localeCompare models →
    (∃ m, m ∈ models ∧ tg ∈ lower_tags toLowerCase m) ∧ filterByTag toLowerCase models tg ≠ [].
Proof using localeCompare_total localeCompare_trans.
  intros Hlow. unfold availableTags. destruct models as [|m0 models0] eqn:Em; [split_and!; [constructor..|by intros ? ?%elem_of_nil]|].
  rewrite <- Em. clear Em m0 models0. unfold extractAllTags. destruct (fold_add_tags models []) as [Hn He].
  split_and!; [by apply NoDup_sort_by, Hn, NoDup_nil_2|by apply sort_by_sorted; eauto|].
  intros tg Hin. rewrite elem_of_sort_by in Hin. destruct (He tg Hin) as [[]%elem_of_nil|(m & Hm & Ht)].
  split; [by exists m|]. intros Hnil. pose proof (filter_facet toLowerCase models tg) as (_ & _ & _ & _ & E).
  rewrite E in Hnil. apply (filter_nil_not_elem_of _ _ m Hnil); [|done]. unfold facet_match.
  apply orb_true_iff. right. apply has_spec. unfold lower_tags in *. apply list_elem_of_fmap in Ht as (tg' & -> & Ht).
  rewrite Hlow. by apply list_elem_of_fmap_2.
Qed.
End page.

(** *** The text of the tags *)

Definition is_tag_separator (c : N) : bool := one_of ",;|" c || is_space c.

Definition clean_tag (tg : jstring) : Prop := tg ≠ [] ∧ Forall (λ c, is_tag_separator c = false) tg.

Lemma clean_tag_head tg rest : clean_tag tg → head_is is_tag_separator (tg ++ rest) = false.
Proof. intros [Hne Hc]. destruct tg as [|c tg]; [done|]. by apply Forall_cons in Hc as [Hc _]. Qed.

Lemma clean_tag_trim tg : clean_tag tg → trim tg = tg.
Proof.
  intros [_ Hc]. apply trim_id, trimmed_no_space. eapply Forall_impl; [exact Hc|].
  intros c H. by apply orb_false_iff in H as [_ ?].
Qed.

(** Tags joined by commas are read back. *)
Lemma parseTags_join ts : Forall clean_tag ts → parseTags (Some (join "," ts)) = ts.
Proof.
  intros Hts. destruct (decide (ts = [])) as [->|Hne]; [done|].
  assert (otruthy (Some (join "," ts)) = true) as Ht.
  { destruct ts as [|tg ts]; [done|]. apply Forall_cons in Hts as [[Hn _] _]. destruct tg; [done|]. by destruct ts. }
  unfold parseTags. rewrite Ht. cbn [negb default from_option id].
  rewrite (split_regex_join tag_separators "," ts); [|done|done| | |].
  - assert (map trim ts = ts) as ->.
    { clear Ht Hne. induction Hts as [|tg ts Htg Hts IH]; [done|]. cbn [map]. by rewrite IH, clean_tag_trim. }
    clear Ht Hne. induction Hts as [|tg ts [Hn _] Hts IH]; [done|]. rewrite filter_cons_True, IH; [done|]. by destruct tg.
  - eapply Forall_impl; [exact Hts|]. intros tg [_ Hc] w1 w2 rest -> Hw. apply refuses_plus.
    destruct w2 as [|c w2]; [done|]. apply Forall_app in Hc as [_ Hc]. by apply Forall_cons in Hc as [Hc _].
  - by apply refuses_plus.
  - intros w rest Hw. rewrite Forall_forall in Hts. apply runs_plus_char; [done|by repeat constructor|].
    by apply clean_tag_head, Hts.
Qed.

(** ** Group ratios *)

Lemma min_step_spec ratios groups acc :
  is_nan acc = false →
  let m := fold_left (min_step ratios) groups acc in
  is_nan m = false ∧ nle m acc = true ∧ (m = acc ∨ ∃ g, g ∈ groups ∧ oget g ratios = Some m) ∧
  ∀ g r, g ∈ groups → oget g ratios = Some r → is_nan r = false → nle m r = true.
Proof.
  revert acc. induction groups as [|g groups IH]; intros acc Ha; cbn [fold_left].
  { split_and!; [done|by apply nle_refl|by left|by intros ?? []%elem_of_nil]. }
  set (acc' := min_step ratios acc g).
  assert (is_nan acc' = false ∧ nle acc' acc = true ∧ (acc' = acc ∨ oget g ratios = Some acc') ∧
    ∀ r, oget g ratios = Some r → is_nan r = false → nle acc' r = true) as (Hn & Hle & Hfrom & Hr).
  { unfold acc', min_step. destruct (oget g ratios) as [r|] eqn:E; [|split_and!; [done|by apply nle_refl|by left|done]].
    destruct (nlt r acc) eqn:Hlt.
    - destruct (nlt_not_nan _ _ Hlt). split_and!; [done|by apply nlt_nle|by right|]. intros ? [= <-] _. by apply nle_refl.
    - split_and!; [done|by apply nle_refl|by left|]. intros ? [= <-] Hnr. by rewrite nle_nlt, Hlt. }
  destruct (IH acc' Hn) as (Hm & Hmle & Hmfrom & Hmr). split_and!; [done|by eapply nle_trans| |].
  - destruct Hmfrom as [->|(g' & ? & ?)]; [|right; exists g'; split; [by right|done]].
    destruct Hfrom as [->|?]; [by left|]. right. exists g. split; [by left|done].
  - intros g' r [->|Hin]%elem_of_cons Hg Hnr; [|by eapply Hmr]. eapply nle_trans; [exact Hmle|by apply Hr].
Qed.

(** Without a chosen group, the ratio that prices are shown with is the least finite
    ratio of the groups a model is enabled for, or 1 when none has a ratio; the
    copy of the function for dynamic prices gives the same ratio. *)
Lemma display_group_ratio model groupFilter :
  getDynamicDisplayGroupRatio model groupFilter = getDisplayGroupRatio model groupFilter ∧
  let ratio := getDisplayGroupRatio model None in
  (ratio = of_Z 1 ∨ ∃ g, g ∈ list_of (enable_groups model) ∧ oget g (list_of (group_ratio model)) = Some ratio) ∧
  ∀ g r, g ∈ list_of (enable_groups model) → oget g (list_of (group_ratio model)) = Some r → is_finite r = true →
    nle ratio r = true.
Proof.
  split.
  { unfold getDynamicDisplayGroupRatio, getDisplayGroupRatio, getMinGroupRatio.
    destruct (if otruthy groupFilter then _ else _); [done|]. by destruct (list_of (enable_groups model)). }
  unfold getDisplayGroupRatio. cbn [otruthy default from_option truthy]. unfold getMinGroupRatio.
  generalize (list_of (group_ratio model)). intros ratios.
  destruct (list_of (enable_groups model)) as [|g0 gs] eqn:Eg; [split; [by left|by intros ?? []%elem_of_nil]|].
  rewrite <- Eg. clear Eg. generalize (list_of (enable_groups model)). intros groups.
  destruct (min_step_spec ratios groups infinity eq_refl) as (Hn & _ & Hfrom & Hr).
  set (m := fold_left _ _ _) in *. clearbody m. destruct (neqb m infinity) eqn:E.
  - split; [by left|]. intros g r Hg Hgr Hf. specialize (Hr g r Hg Hgr (finite_not_nan r Hf)).
    destruct m as [|[]| |[]]; try done. by destruct r as [|[]| |[]].
  - split; [|intros g r Hg Hgr Hf; apply (Hr g r Hg Hgr), finite_not_nan, Hf].
    destruct Hfrom as [->|?]; [done|by right].
Qed.

(** ** Paths *)

Lemma expand_plain b m a template : Forall (λ c, c ≠ 36%N) template → expand_replacement b m a template = template.
Proof.
  induction 1 as [|c template Hc Ht IH]; [done|]. cbn [expand_replacement]. apply N.eqb_neq in Hc.
  destruct template as [|d rest]; [done|]. by rewrite Hc, IH.
Qed.

(** A name without a dollar sign takes the place of every placeholder. *)
Lemma replaceModelInPath_plain path name :
  Forall (λ c, c ≠ 36%N) name → replaceModelInPath path name = replace_all model_placeholder name path.
Proof.
  intros Hn. unfold replaceModelInPath, replace_all, split_regex. generalize (match_all model_placeholder path). intros ms.
  generalize 0%nat. induction ms as [|m ms IH]; intros from; cbn [replace_matches split_pieces]; [done|].
  rewrite expand_plain, IH by done. by destruct ms.
Qed.

(** ** The state of the filters *)

(** The count of active filters is zero exactly when none is active, and clearing
    them leaves the search, the order and the rest. *)
Lemma cleared_filters s :
  (activeFilterCount s = 0%nat ↔ hasActiveFilters s = false) ∧
  hasActiveFilters (clearFilters s) = false ∧
  searchInput (clearFilters s) = searchInput s ∧ sortBy (clearFilters s) = sortBy s ∧
  tokenUnit (clearFilters s) = tokenUnit s ∧ viewMode (clearFilters s) = viewMode s ∧
  showRechargePrice (clearFilters s) = showRechargePrice s.
Proof.
  split_and!; try done. unfold activeFilterCount, hasActiveFilters.
  induction (facet_values s) as [|v vs IH]; [done|]. cbn [foldr existsb].
  destruct (negb _); cbn [orb]; [split; [lia|done]|exact IH].
Qed.

(** ** The data of the page *)

Lemma MIN_RATE_spec : is_nan MIN_RATE = false ∧ nlt zero MIN_RATE = true.
Proof. by vm_compute. Qed.

(** The rates are never zero: they divide the prices that are shown. *)
Lemma rates_positive price usd :
  is_nan (nullish price (of_Z 1)) = false → is_nan (nullish usd (of_Z 1)) = false →
  nlt zero (priceRate price) = true ∧ nlt zero (usdExchangeRate price usd) = true.
Proof.
  intros Hp Hu. destruct MIN_RATE_spec as [Hn Hpos].
  assert (∀ x, is_nan x = false → nlt zero (nmax x MIN_RATE) = true ∧ is_nan (nmax x MIN_RATE) = false) as Hmax.
  { intros x Hx. destruct (nmax_ge_right x MIN_RATE Hx Hn). split; [|done]. by eapply nlt_nle_trans. }
  unfold usdExchangeRate. split; [by apply Hmax|]. apply Hmax. destruct usd as [u|]; [done|]. by apply Hmax.
Qed.

(** ** Examples and witnesses *)

(** A collation for the examples: by the first unit. *)
Definition first_unit_order (a b : jstring) : Z := Z.of_N (cu a) - Z.of_N (cu b).

Lemma first_unit_order_total a b : (0 < first_unit_order a b)%Z → (first_unit_order b a <= 0)%Z.
Proof. unfold first_unit_order. lia. Qed.

Lemma first_unit_order_trans a b c :
  (first_unit_order a b <= 0)%Z → (first_unit_order b c <= 0)%Z → (first_unit_order a c <= 0)%Z.
Proof. unfold first_unit_order. lia. Qed.

Definition ascii_lower_text (s : jstring) : jstring := map ascii_lower s.

Lemma ascii_lower_text_idemp s : ascii_lower_text (ascii_lower_text s) = ascii_lower_text s.
Proof.
  unfold ascii_lower_text. rewrite map_map. apply map_ext. intros c. unfold ascii_lower.
  destruct ((65 <=? c) && (c <=? 90))%N eqn:E; [|by rewrite E].
  apply andb_true_iff in E as [H1%N.leb_le H2%N.leb_le].
  assert ((c + 32 <=? 90)%N = false) as -> by (apply N.leb_gt; lia). by rewrite andb_false_r.
Qed.

Definition sample_model (name : jstring) (groups : list jstring) (ratios : list (jstring * num)) : PricingModel := {|
  model_id := 1; model_name := name; aliases := None; description := None; vendor_id := None; vendor_name := None;
  vendor_icon := None; vendor_description := None; quota_type := 0; model_ratio := of_Z 1; completion_ratio := of_Z 1;
  model_price := None; cache_ratio := None; create_cache_ratio := None; image_ratio := None; audio_ratio := None;
  audio_completion_ratio := None; enable_groups := Some groups; enable_group_refs := None;
  tags := Some "Fast, open;chat"; supported_endpoint_types := None; model_key := None; group_ratio := Some ratios;
  billing_mode := None; billing_expr := None; output_modalities := None; capabilities := None |}.

Definition no_filters : FilterState := {|
  fs_search := None; fs_sort := None; fs_vendor := None; fs_group := None; fs_quotaType := None;
  fs_modelType := None; fs_tag := None; fs_tokenUnit := None; fs_view := None; fs_rechargePrice := None |}.

(** The models of [filters.test.ts]. *)
Definition sample_models : list PricingModel := [
  sample_model "zeta" ["standard"; "sale"] [("standard", of_Z 1); ("sale", Number_of_string "0.4")];
  sample_model "alpha" ["standard"; "sale"] [("standard", Number_of_string "0.6"); ("sale", of_Z 1)];
  sample_model "surcharge" ["standard"] [("standard", Number_of_string "1.2")]].

Example sorted_by_benefit :
  map model_name (filteredModels ascii_lower_text first_unit_order sample_models no_filters) = ["zeta"; "alpha"; "surcharge"].
Proof. vm_compute. reflexivity. Qed.

Example tags_read : parseTags (Some "Fast, open;chat") = ["Fast"; "open"; "chat"].
Proof. vm_compute. reflexivity. Qed.

Example model_types :
  map (λ n, getModelType ascii_lower_text (sample_model n [] [])) ["BAAI/bge-m3"; "wan2.1"; "swan"; "flux-pro"; "my-asr"; "o1"]
  = ["embedding"; "video"; "other"; "image"; "audio"; "other"].
Proof. vm_compute. reflexivity. Qed.

Example replacement_patterns : replaceModelInPath "/v1/{model}/x" "a$&b" = "/v1/a{model}b/x".
Proof. vm_compute. reflexivity. Qed.

Definition sample_props : SidebarProps := {|
  sp_state := no_filters; sp_models := sample_models; vendors := []; groups := ["standard"; "sale"];
  groupRatios := [("sale", Number_of_string "0.5")]; groupNames := []; sp_tags := ["fast"; "open"] |}.

Definition sale_option : FilterOption :=
  {| fo_value := "sale"; fo_label := "sale"; fo_count := 2; fo_suffix := Some "x0.5" |}.

Example facet_counts_witness :
  length (filteredModels ascii_lower_text first_unit_order sample_models (setGroupFilter "sale" no_filters)) = 2.
Proof.
  apply (facet_counts ascii_lower_text first_unit_order (λ s, s) facet_group sample_props sale_option).
  - apply (bool_decide_unpack _). vm_compute. reflexivity.
  - cbn [options_of]. assert (groupOptions ascii_lower_text first_unit_order (λ s, s) sample_props
      = [{| fo_value := "all"; fo_label := "All Groups"; fo_count := 3; fo_suffix := None |}; sale_option;
         {| fo_value := "standard"; fo_label := "standard"; fo_count := 3; fo_suffix := None |}]) as ->
      by (vm_compute; reflexivity). right. left.
Defined.

Example filteredModels_page_witness :
  catalog_page ascii_lower_text first_unit_order sample_models no_filters
    (filteredModels ascii_lower_text first_unit_order sample_models no_filters).
Proof.
  apply (filteredModels_page ascii_lower_text first_unit_order first_unit_order_total first_unit_order_trans).
  repeat (apply Forall_cons; split; [split; split; vm_compute; reflexivity|]). by apply Forall_nil.
Defined.

Example offered_tags_witness :
  NoDup (availableTags ascii_lower_text first_unit_order sample_models) ∧
  filterByTag ascii_lower_text sample_models "fast" ≠ [].
Proof.
  destruct (offered_tags ascii_lower_text first_unit_order first_unit_order_total first_unit_order_trans sample_models
    ascii_lower_text_idemp) as (H1 & _ & H2).
  split; [exact H1|]. apply H2. assert (availableTags ascii_lower_text first_unit_order sample_models = ["chat"; "fast"; "open"])
    as -> by (vm_compute; reflexivity). right. left.
Defined.

Example display_group_ratio_witness :
  nle (getDisplayGroupRatio (sample_model "zeta" ["standard"; "sale"] [("standard", of_Z 1); ("sale", Number_of_string "0.4")]) None)
    (of_Z 1) = true.
Proof.
  refine (proj2 (proj2 (display_group_ratio _ None)) "standard" (of_Z 1) _ _ _); [left|vm_compute; reflexivity..].
Defined.
