(* ===== verification/PricingPrices.v ===== *)
(** * PricingPrices: the prices of the catalog

    [features/pricing/lib/price.ts, lib/dynamic-price.ts and lib/pricing-tier-label.ts]:
    prices by ratio, per token or per request, and the prices of an expression.
    The texts of amounts are those of [lib/currency.ts] (file [Currency]). *)
From Stdlib Require Import Floats.SpecFloat.
From S2P Require Import Prelude JsString JsNumber JsFloat JsValue JsRegex JsDecimal BillingExpr BillingRules Currency.
From S2P Require Import PricingCatalog.

Inductive TokenUnit := unit_M | unit_K.

Inductive PriceType := price_input | price_output | price_cache | price_create_cache | price_image
  | price_audio_input | price_audio_output.

Definition TOKEN_UNIT_DIVISORS (u : TokenUnit) : num := match u with unit_M => of_Z 1 | unit_K => of_Z 1000 end.

(** ** Texts *)

(** Groups: 1 the symbol, 2 the number, 3 the suffix [k]. *)
Definition formatted_re : regex :=
  RSeqs [RBol; RGroup 1 (RStar (RChar (λ c, negb (is_digit c || one_of "-" c))));
         RGroup 2 (RSeqs [RPlus (RChar (λ c, is_digit c || one_of "-," c)); ROpt (RLit "."); RDigits0]);
         RGroup 3 (ROpt (RLit "k")); REol].

(** [/\.?0+$/] *)
Definition zero_tail_re : regex := RSeqs [ROpt (RLit "."); RPlus (RChar is_zero); REol].

Definition stripTrailingZeros (formatted : jstring) : jstring :=
  match exec formatted_re formatted with
  | None => formatted
  | Some m =>
    let cleanNumber := replace_unit (cu ",") [] (mg 2 m) in
    let parsed := parseFloat cleanNumber in
    if is_nan parsed then formatted
    else
      let result := Number_to_string parsed in
      let result := if includes "e" result then replace_first zero_tail_re (λ _, []) (to_fixed 20 parsed) else result in
      mg 1 m ++ result ++ mg 3 m
  end.

(** ** Prices by ratio ([price.ts]) *)

Definition hasRatio (value : option num) : bool := match value with Some v => is_finite v | None => false end.

(** [base * Number(ratio)], NaN when the ratio is missing. *)
Definition times_ratio (base : num) (value : option num) : num :=
  if hasRatio value then nmul base (default nan value) else nan.

Definition calculateTokenPrice (model : PricingModel) (type : PriceType) (ratio : num) : num :=
  let base := nmul (nmul (model_ratio model) (of_Z 2)) ratio in
  match type with
  | price_input => base
  | price_output => nmul base (completion_ratio model)
  | price_cache => times_ratio base (cache_ratio model)
  | price_create_cache => times_ratio base (create_cache_ratio model)
  | price_image => times_ratio base (image_ratio model)
  | price_audio_input => times_ratio base (audio_ratio model)
  | price_audio_output =>
    if hasRatio (audio_ratio model) && hasRatio (audio_completion_ratio model)
    then nmul (nmul base (default nan (audio_ratio model))) (default nan (audio_completion_ratio model))
    else nan
  end.

Definition applyRechargeRate (price : num) (showWithRecharge : bool) (priceRate usdExchangeRate : num) : num :=
  if negb showWithRecharge then price else ndiv (nmul price priceRate) usdExchangeRate.

Definition price_options (large small : nat) : option CurrencyFormatOptions :=
  Some {| digitsLarge := Some large; digitsSmall := Some small; abbreviate := Some false; minimumNonZero := None;
          compact := None; showSymbol := None; locale := None |}.

Section prices.
Variable NumberFormat : option jstring → NumberFormatOptions → num → jstring.
Variable store : option CurrencyConfig.
(** What the page is set to: with or without the recharge rate. *)
Variables (showWithRecharge : bool) (priceRate usdExchangeRate : num).

Definition formatTokenPriceAtRatio (model : PricingModel) (type : PriceType) (ratio : num) (tokenUnit : TokenUnit) : jstring :=
  if bool_decide (quota_type model = QUOTA_REQUEST) then "-"
  else
    let priceInUSD := applyRechargeRate (calculateTokenPrice model type ratio) showWithRecharge priceRate usdExchangeRate in
    formatCurrencyFromUSD NumberFormat store (Some (ndiv priceInUSD (TOKEN_UNIT_DIVISORS tokenUnit))) (price_options 4 6).

Definition formatPrice (model : PricingModel) (type : PriceType) (tokenUnit : TokenUnit) : jstring :=
  if bool_decide (quota_type model = QUOTA_REQUEST) then "-"
  else formatTokenPriceAtRatio model type (getDisplayGroupRatio model None) tokenUnit.

Definition formatGroupPrice (model : PricingModel) (group : jstring) (type : PriceType) (tokenUnit : TokenUnit)
  (groupRatio : list (jstring * num)) : jstring :=
  if bool_decide (quota_type model = QUOTA_REQUEST) then "-"
  else
    let ratio := match oget group groupRatio with Some r => r | None => of_Z 1 end in
    let priceInUSD := applyRechargeRate (calculateTokenPrice model type ratio) showWithRecharge priceRate usdExchangeRate in
    formatCurrencyFromUSD NumberFormat store (Some (ndiv priceInUSD (TOKEN_UNIT_DIVISORS tokenUnit))) (price_options 4 6).

(** [(model.model_price || 0) * ratio] *)
Definition request_price (model : PricingModel) (ratio : num) : num :=
  nmul (match model_price model with Some p => num_or p zero | None => zero end) ratio.

Definition formatFixedPrice (model : PricingModel) (group : jstring) (groupRatio : list (jstring * num)) : jstring :=
  if negb (bool_decide (quota_type model = QUOTA_REQUEST)) then "-"
  else
    let ratio := match oget group groupRatio with Some r => r | None => of_Z 1 end in
    formatCurrencyFromUSD NumberFormat store
      (Some (applyRechargeRate (request_price model ratio) showWithRecharge priceRate usdExchangeRate)) (price_options 4 4).

Definition formatRequestPriceAtRatio (model : PricingModel) (ratio : num) : jstring :=
  if negb (bool_decide (quota_type model = QUOTA_REQUEST)) then "-"
  else formatCurrencyFromUSD NumberFormat store
         (Some (applyRechargeRate (request_price model ratio) showWithRecharge priceRate usdExchangeRate)) (price_options 4 4).

Definition formatRequestPrice (model : PricingModel) : jstring :=
  if negb (bool_decide (quota_type model = QUOTA_REQUEST)) then "-"
  else formatRequestPriceAtRatio model (getDisplayGroupRatio model None).
End prices.

(** ** Prices of an expression ([dynamic-price.ts]) *)

Record DynamicPriceOptions := {
  do_tokenUnit : TokenUnit;
  do_showRechargePrice : option bool;
  do_priceRate : option num;
  do_usdExchangeRate : option num;
  do_groupRatioMultiplier : option num;
}.

Record DynamicPriceEntry := {
  de_value : num;
  de_formatted : jstring;
  de_variable : BillingVar;
}.

(** The fields [key], [field], [label] and [shortLabel] of an entry are those of its variable. *)
Definition de_field (e : DynamicPriceEntry) : jstring := default [] (field (de_variable e)).

Record DynamicPricingSummary := {
  ds_tiers : list ParsedTier;
  ds_tier : option ParsedTier;
  tierCount : nat;
  hasRequestRules : bool;
  isSpecialExpression : bool;
  rawExpression : jstring;
  entries : list DynamicPriceEntry;
  baseEntries : list DynamicPriceEntry;
  primaryEntries : list DynamicPriceEntry;
  secondaryEntries : list DynamicPriceEntry;
}.

Definition PRIMARY_DYNAMIC_FIELDS : list jstring := ["inputPrice"; "outputPrice"].

Definition is_primary (e : DynamicPriceEntry) : bool := has (de_field e) PRIMARY_DYNAMIC_FIELDS.

Definition isDynamicPricingModel (model : PricingModel) : bool :=
  bool_decide (billing_mode model = Some ("tiered_expr" : jstring)) && otruthy (billing_expr model).

Definition getDynamicPricingTiers (model : PricingModel) : option (list ParsedTier) :=
  if negb (isDynamicPricingModel model) then Some []
  else
    '(billingExpr, _) ← splitBillingExprAndRequestRules (ostr_or (billing_expr model) []);
    Some (parseTiersFromExpr billingExpr).

Definition hasDynamicRequestRules (model : PricingModel) : option bool :=
  if negb (isDynamicPricingModel model) then Some false
  else
    '(_, requestRuleExpr) ← splitBillingExprAndRequestRules (ostr_or (billing_expr model) []);
    groups ← tryParseRequestRuleExpr requestRuleExpr;
    Some (match groups with Some (_ :: _) => true | _ => false end).

(** The order of the sort. *)
Definition entry_order (a b : DynamicPriceEntry) : Z :=
  let aPrimary := is_primary a in
  let bPrimary := is_primary b in
  if negb (eqb aPrimary bPrimary) then if aPrimary then (-1)%Z else 1%Z else 0%Z.

Section dynamic.
Variable NumberFormat : option jstring → NumberFormatOptions → num → jstring.
Variable store : option CurrencyConfig.

Definition formatDynamicUnitPrice (valuePerMillionTokens : num) (options : DynamicPriceOptions) : jstring :=
  let groupRatio := nullish (do_groupRatioMultiplier options) (of_Z 1) in
  let priceRate := nullish (do_priceRate options) (of_Z 1) in
  let usdExchangeRate := nullish (do_usdExchangeRate options) (of_Z 1) in
  let priceUSD := ndiv (nmul valuePerMillionTokens groupRatio) (TOKEN_UNIT_DIVISORS (do_tokenUnit options)) in
  let displayPrice := applyRechargeRate priceUSD (nullish (do_showRechargePrice options) false) priceRate usdExchangeRate in
  formatBillingCurrencyFromUSD NumberFormat store (Some displayPrice) (price_options 4 6).

(** [Number(tier[variable.field])] *)
Definition tier_price (tier : ParsedTier) (variable : BillingVar) : num :=
  match field variable with Some f => nullish (oget f (pt_fields tier)) nan | None => nan end.

(** The function of [flatMap]. *)
Definition price_entry (options : DynamicPriceOptions) (tier : ParsedTier) (variable : BillingVar) : option DynamicPriceEntry :=
  if negb (otruthy (field variable)) then None
  else
    let value := tier_price tier variable in
    if negb (is_finite value) || nle value zero then None
    else Some {| de_value := value; de_formatted := formatDynamicUnitPrice value options; de_variable := variable |}.

Definition getDynamicPriceEntries (tier : option ParsedTier) (options : DynamicPriceOptions) : list DynamicPriceEntry :=
  match tier with
  | None => []
  | Some tier => sort_by entry_order (omap (price_entry options tier) BILLING_PRICING_VARS)
  end.

Definition without_group (options : DynamicPriceOptions) : DynamicPriceOptions := {|
  do_tokenUnit := do_tokenUnit options; do_showRechargePrice := do_showRechargePrice options;
  do_priceRate := do_priceRate options; do_usdExchangeRate := do_usdExchangeRate options;
  do_groupRatioMultiplier := Some (of_Z 1) |}.

(** [None] is an exception, [Some None] the [null] of a model without an expression. *)
Definition getDynamicPricingSummary (model : PricingModel) (options : DynamicPriceOptions)
  : option (option DynamicPricingSummary) :=
  if negb (isDynamicPricingModel model) then Some None
  else
    tiers ← getDynamicPricingTiers model;
    hasRules ← hasDynamicRequestRules model;
    let tier := head tiers in
    let es := getDynamicPriceEntries tier options in
    let rawExpression := ostr_or (billing_expr model) [] in
    Some (Some {|
      ds_tiers := tiers; ds_tier := tier; tierCount := length tiers; hasRequestRules := hasRules;
      isSpecialExpression := bool_decide (0 < length (trim rawExpression)) && bool_decide (length tiers = 0);
      rawExpression := rawExpression; entries := es;
      baseEntries := getDynamicPriceEntries tier (without_group options);
      primaryEntries := filter (λ e, is_primary e = true) es;
      secondaryEntries := filter (λ e, is_primary e = false) es |}).
End dynamic.

(** ** Labels of tiers ([pricing-tier-label.ts]) *)

Section labels.
Variable t : jstring → jstring.

Definition tier_labels : list (jstring * jstring) := [("p", "Input"); ("c", "Output"); ("len", "Context")].
Definition tier_operators : list (jstring * jstring) := [("<", "<"); ("<=", "≤"); (">", ">"); (">=", "≥")].

Definition count_text (value : num) : jstring :=
  if nle (of_Z 1000000) value && neqb (nrem value (of_Z 1000000)) zero
  then Number_to_string (ndiv value (of_Z 1000000)) ++ "M"
  else if nle (of_Z 1000) value && neqb (nrem value (of_Z 1000)) zero
  then Number_to_string (ndiv value (of_Z 1000)) ++ "K"
  else Number_to_string value.

(** A variable or an operator that is not listed is written as [undefined];
    the type of a condition excludes it. *)
Definition condition_label (c : TierCondition) : jstring :=
  t (default "undefined" (oget (tc_var c) tier_labels)) ++ " "
  ++ default "undefined" (oget (tc_op c) tier_operators) ++ " " ++ count_text (tc_value c).

Definition getPricingTierLabel (tier : ParsedTier) (tierCount : nat) : jstring :=
  match pt_conditions tier with
  | [] => if bool_decide (tierCount = 1) then t "All requests" else t "Other requests"
  | conditions => join " · " (map condition_label conditions)
  end.
End labels.

(** ** What is shown for a group *)

(** The price of a model in the list is the price of one of its groups, when one of
    them has a finite ratio. *)
Lemma listed_price_of_group NumberFormat store show rate usd model type unit :
  let ratios := list_of (group_ratio model) in
  (∃ g r, g ∈ list_of (enable_groups model) ∧ oget g ratios = Some r ∧ is_finite r = true) →
  ∃ g, g ∈ list_of (enable_groups model) ∧
    formatPrice NumberFormat store show rate usd model type unit
      = formatGroupPrice NumberFormat store show rate usd model g type unit ratios ∧
    formatRequestPrice NumberFormat store show rate usd model
      = formatFixedPrice NumberFormat store show rate usd model g ratios.
Proof.
  intros ratios (g0 & r0 & Hg0 & Hr0 & Hf0).
  assert (∃ g, g ∈ list_of (enable_groups model) ∧ oget g ratios = Some (getDisplayGroupRatio model None)) as (g & Hg & E).
  { unfold getDisplayGroupRatio. cbn [otruthy default from_option truthy]. unfold getMinGroupRatio. fold ratios.
    destruct (list_of (enable_groups model)) as [|g1 gs] eqn:Eg; [by apply elem_of_nil in Hg0|]. rewrite <- Eg in *.
    destruct (min_step_spec ratios (list_of (enable_groups model)) infinity eq_refl) as (Hn & _ & Hfrom & Hr).
    specialize (Hr g0 r0 Hg0 Hr0 (finite_not_nan r0 Hf0)). set (m := fold_left _ _ _) in *. clearbody m.
    assert (m ≠ infinity) as Hm by (intros ->; by destruct r0 as [|[]| |[]]).
    assert (neqb m infinity = false) as -> by (by destruct m as [|[]| |[]]).
    destruct Hfrom as [->|?]; done. }
  exists g. split; [done|]. unfold formatPrice, formatGroupPrice, formatRequestPrice, formatFixedPrice,
    formatTokenPriceAtRatio, formatRequestPriceAtRatio. rewrite E. by destruct (bool_decide (quota_type model = QUOTA_REQUEST)).
Qed.

(** ** Missing ratios *)

(** The optional ratios a price needs. *)
Definition needed_ratios (model : PricingModel) (type : PriceType) : list (option num) :=
  match type with
  | price_input | price_output => []
  | price_cache => [cache_ratio model]
  | price_create_cache => [create_cache_ratio model]
  | price_image => [image_ratio model]
  | price_audio_input => [audio_ratio model]
  | price_audio_output => [audio_ratio model; audio_completion_ratio model]
  end.

Lemma nmul_nan_left y : nmul nan y = nan.
Proof. by destruct y. Qed.

Lemma ndiv_nan_left y : ndiv nan y = nan.
Proof. by destruct y. Qed.

(** A price whose ratio the model does not have is shown as a dash, whatever the
    group, the unit, the currency and the recharge rate. *)
Lemma missing_ratio_dash NumberFormat store show rate usd model type ratio unit :
  existsb (λ r, negb (hasRatio r)) (needed_ratios model type) = true →
  formatTokenPriceAtRatio NumberFormat store show rate usd model type ratio unit = "-".
Proof.
  intros Hr. unfold formatTokenPriceAtRatio. destruct (bool_decide _); [done|].
  assert (calculateTokenPrice model type ratio = nan) as ->.
  { destruct type; cbn [needed_ratios existsb] in Hr; try done; cbn [calculateTokenPrice]; unfold times_ratio.
    all: repeat match goal with H : context [hasRatio ?r] |- _ => destruct (hasRatio r) end; done. }
  unfold applyRechargeRate. destruct (negb show); by rewrite ?nmul_nan_left, ?ndiv_nan_left.
Qed.

(** Prices by ratio are shown in tokens when amounts are, unlike those of expressions. *)
Lemma static_price_in_tokens NumberFormat store show rate usd model type ratio unit q :
  (getCurrencyDisplay store).2 = Tokens_meta q → quota_type model ≠ QUOTA_REQUEST →
  let price := ndiv (applyRechargeRate (calculateTokenPrice model type ratio) show rate usd) (TOKEN_UNIT_DIVISORS unit) in
  is_nan price = false →
  formatTokenPriceAtRatio NumberFormat store show rate usd model type ratio unit
    = formatNumberWithSuffix (nmul price (quotaPerUnit (getCurrencyDisplay store).1)) 0 6 false.
Proof.
  intros Hd Hq price Hn. unfold formatTokenPriceAtRatio. rewrite bool_decide_eq_false_2 by done.
  fold price. unfold formatCurrencyFromUSD. cbn [missing]. rewrite Hn. destruct (getCurrencyDisplay store) as [config meta].
  cbn [snd] in Hd. subst meta. by cbn.
Qed.

(** ** Entries of an expression *)

Lemma entry_order_total a b : (0 < entry_order a b)%Z → (entry_order b a <= 0)%Z.
Proof. unfold entry_order. by destruct (is_primary a), (is_primary b). Qed.

Lemma entry_order_trans a b c :
  cmp_le entry_order a b → cmp_le entry_order b c → cmp_le entry_order a c.
Proof. unfold cmp_le, entry_order. by destruct (is_primary a), (is_primary b), (is_primary c). Qed.

Lemma sorted_entries_split es :
  StronglySorted (cmp_le entry_order) es →
  es = filter (λ e, is_primary e = true) es ++ filter (λ e, is_primary e = false) es.
Proof.
  induction 1 as [|e es Hs IH He]; [done|]. rewrite !filter_cons. destruct (is_primary e) eqn:E.
  - rewrite decide_True, decide_False by done. cbn [app]. by rewrite <- IH.
  - rewrite decide_False, decide_True by done.
    assert (filter (λ e, is_primary e = true) es = []) as Hnil.
    { apply elem_of_nil_inv. intros e' [Hp Hin]%list_elem_of_filter. rewrite Forall_forall in He. specialize (He e' Hin).
      unfold cmp_le, entry_order in He. rewrite E, Hp in He. cbn in He. lia. }
    rewrite Hnil in IH |- *. cbn [app] in IH |- *. by rewrite <- IH.
Qed.

Section dynamic_entries.
Variable NumberFormat : option jstring → NumberFormatOptions → num → jstring.
Variable store : option CurrencyConfig.
Variable tier : ParsedTier.

(** A price that is shown. *)
Definition priced_variable (v : BillingVar) : Prop :=
  otruthy (field v) = true ∧ is_finite (tier_price tier v) = true ∧ nle (tier_price tier v) zero = false.

Lemma elem_of_entries options e :
  e ∈ getDynamicPriceEntries NumberFormat store (Some tier) options ↔
  de_variable e ∈ BILLING_PRICING_VARS ∧ priced_variable (de_variable e) ∧ de_value e = tier_price tier (de_variable e) ∧
  de_formatted e = formatDynamicUnitPrice NumberFormat store (de_value e) options.
Proof.
  unfold getDynamicPriceEntries. rewrite elem_of_sort_by, list_elem_of_omap. unfold price_entry, priced_variable. split.
  - intros (v & Hv & E). destruct (otruthy (field v)) eqn:Ef; [|done]. cbn [negb] in E.
    destruct (negb _ || _) eqn:Eb; [done|]. injection E as <-. cbn [de_variable de_value de_formatted].
    apply orb_false_iff in Eb as [?%negb_false_iff ?]. by split_and!.
  - intros (Hv & (Hf & Hfin & Hpos) & Ev & Ef). exists (de_variable e). split; [done|].
    rewrite Hf, Hfin, Hpos. cbn [negb orb]. rewrite <- Ev, <- Ef. by destruct e.
Qed.

Lemma entries_map options options' :
  map (λ e, (de_value e, de_variable e)) (getDynamicPriceEntries NumberFormat store (Some tier) options)
  = map (λ e, (de_value e, de_variable e)) (getDynamicPriceEntries NumberFormat store (Some tier) options').
Proof.
  unfold getDynamicPriceEntries.
  set (again := λ e, {| de_value := de_value e; de_formatted := formatDynamicUnitPrice NumberFormat store (de_value e) options';
                        de_variable := de_variable e |}).
  assert (omap (price_entry NumberFormat store options' tier) BILLING_PRICING_VARS
    = map again (omap (price_entry NumberFormat store options tier) BILLING_PRICING_VARS)) as ->.
  { assert (∀ v, price_entry NumberFormat store options' tier v = again <$> price_entry NumberFormat store options tier v) as Hv.
    { intros v. unfold price_entry. destruct (negb (otruthy _)); [done|]. by destruct (negb _ || _). }
    induction BILLING_PRICING_VARS as [|v vs IH]; [done|]. cbn [omap list_omap]. rewrite Hv.
    destruct (price_entry _ _ options tier v); cbn [fmap option_fmap option_map]; [cbn [map]; f_equal|]; exact IH. }
  rewrite (sort_by_map entry_order entry_order again) by done. rewrite map_map. by apply map_ext.
Qed.

(** The entries of a tier are its positive finite prices, input and output first;
    the entries without the ratio of the group are the same prices in the same
    order, and the two lists of the summary are the entries taken apart. *)
Lemma dynamic_entries options :
  let es := getDynamicPriceEntries NumberFormat store (Some tier) options in
  (∀ v, (∃ e, e ∈ es ∧ de_variable e = v) ↔ v ∈ BILLING_PRICING_VARS ∧ priced_variable v) ∧
  Forall (λ e, is_finite (de_value e) = true ∧ nlt zero (de_value e) = true ∧ de_value e = tier_price tier (de_variable e)) es ∧
  es = filter (λ e, is_primary e = true) es ++ filter (λ e, is_primary e = false) es ∧
  map (λ e, (de_value e, de_variable e)) (getDynamicPriceEntries NumberFormat store (Some tier) (without_group options))
    = map (λ e, (de_value e, de_variable e)) es.
Proof.
  intros es. split_and!.
  - intros v. split.
    + intros (e & (Hv & Hp & _)%elem_of_entries & <-). done.
    + intros [Hv Hp]. exists {| de_value := tier_price tier v; de_variable := v;
        de_formatted := formatDynamicUnitPrice NumberFormat store (tier_price tier v) options |}.
      split; [|done]. by apply elem_of_entries.
  - apply Forall_forall. intros e (_ & (_ & Hf & Hp) & E & _)%elem_of_entries. rewrite E. split_and!; [done| |done].
    rewrite nle_nlt in Hp by (done || by apply finite_not_nan). by apply negb_false_iff in Hp.
  - apply sorted_entries_split, sort_by_sorted; [apply entry_order_total|apply entry_order_trans].
  - apply entries_map.
Qed.
End dynamic_entries.

(** ** What a stored expression shows *)

(** The summary of a model whose expression is taken apart into a base and rules. *)
Lemma summary_of_split NumberFormat store options model expr base rules groups :
  billing_mode model = Some ("tiered_expr" : jstring) → billing_expr model = Some expr → truthy expr = true →
  splitBillingExprAndRequestRules expr = Some (base, rules) → tryParseRequestRuleExpr rules = Some (Some groups) →
  ∃ summary, getDynamicPricingSummary NumberFormat store model options = Some (Some summary) ∧
    ds_tiers summary = parseTiersFromExpr base ∧ hasRequestRules summary = negb (bool_decide (groups = [])) ∧
    entries summary = getDynamicPriceEntries NumberFormat store (head (ds_tiers summary)) options.
Proof.
  intros Hmode Hexpr Ht Hsplit Hrules.
  assert (isDynamicPricingModel model = true) as Hd.
  { unfold isDynamicPricingModel. rewrite Hmode, Hexpr, bool_decide_eq_true_2 by done. exact Ht. }
  assert (ostr_or (billing_expr model) [] = expr) as Hor.
  { rewrite Hexpr. unfold ostr_or, str_or. cbn [default from_option id]. by rewrite Ht. }
  unfold getDynamicPricingSummary, getDynamicPricingTiers, hasDynamicRequestRules. rewrite Hd, Hor, Hsplit.
  cbn [negb mbind option_bind]. rewrite Hrules. cbn [mbind option_bind].
  eexists. split; [reflexivity|]. cbn [ds_tiers hasRequestRules entries]. split_and!; [done|by destruct groups|done].
Qed.

(** ** Examples and witnesses *)

(** Thousands separators are dropped; a number of 31 digits loses a digit of its exponent. *)
Example stripped :
  map stripTrailingZeros ["$1,234.50"; "0.500k"; "$0.0000001"; "-"; "free"] = ["$1234.5"; "0.5k"; "$0.0000001"; "-"; "free"].
Proof. vm_compute. reflexivity. Qed.

Example stripped_exponent : stripTrailingZeros ("$1" ++ replicate 30 (cu "0")) = "$1e+3".
Proof. vm_compute. reflexivity. Qed.

(** A formatter for the examples: the number with its code. *)
Definition sample_format (locale : option jstring) (o : NumberFormatOptions) (x : num) : jstring :=
  default [] (currency o) ++ Number_to_string x.

Definition discount_model : PricingModel :=
  sample_model "m" ["standard"; "discount"] [("standard", of_Z 1); ("discount", Number_of_string "0.5")].

Example listed_price :
  formatPrice sample_format None false (of_Z 1) (of_Z 1) discount_model price_input unit_M = "USD1".
Proof. vm_compute. reflexivity. Qed.

Example listed_price_of_group_witness :
  ∃ g, g ∈ list_of (enable_groups discount_model) ∧
    formatPrice sample_format None false (of_Z 1) (of_Z 1) discount_model price_input unit_M
      = formatGroupPrice sample_format None false (of_Z 1) (of_Z 1) discount_model g price_input unit_M
          (list_of (group_ratio discount_model)) ∧
    formatRequestPrice sample_format None false (of_Z 1) (of_Z 1) discount_model
      = formatFixedPrice sample_format None false (of_Z 1) (of_Z 1) discount_model g (list_of (group_ratio discount_model)).
Proof.
  apply (listed_price_of_group sample_format None false (of_Z 1) (of_Z 1) discount_model price_input unit_M).
  exists "standard", (of_Z 1). split; [left|]. split; vm_compute; reflexivity.
Defined.

Example missing_ratio_dash_witness :
  formatTokenPriceAtRatio sample_format None true (of_Z 4) (of_Z 7) discount_model price_audio_output (of_Z 1) unit_K = "-".
Proof. apply missing_ratio_dash. reflexivity. Defined.

Definition sample_options : DynamicPriceOptions := {|
  do_tokenUnit := unit_M; do_showRechargePrice := None; do_priceRate := None; do_usdExchangeRate := None;
  do_groupRatioMultiplier := Some (Number_of_string "0.5") |}.

Definition model_of (expr : jstring) : PricingModel := {|
  model_id := 1; model_name := "tiered"; aliases := None; description := None; vendor_id := None; vendor_name := None;
  vendor_icon := None; vendor_description := None; quota_type := 0; model_ratio := of_Z 1; completion_ratio := of_Z 1;
  model_price := None; cache_ratio := None; create_cache_ratio := None; image_ratio := None; audio_ratio := None;
  audio_completion_ratio := None; enable_groups := None; enable_group_refs := None;
  tags := None; supported_endpoint_types := None; model_key := None; group_ratio := None;
  billing_mode := Some "tiered_expr"; billing_expr := Some expr;
  output_modalities := None; capabilities := None |}.

Definition saved_model : PricingModel := model_of (combineBillingExpr sample_base (buildRequestRuleExpr sample_groups)).

(** The values of [dynamic-price.test.ts]: 2.5 and 10, halved by the ratio of the group. *)
Example saved_entries :
  match getDynamicPricingSummary sample_format None saved_model sample_options with
  | Some (Some s) => (map (λ e, key (de_variable e)) (primaryEntries s), map de_formatted (entries s))
  | _ => ([], [])
  end = (["p"; "c"], ["USD1.25"; "USD5"]).
Proof. vm_compute. reflexivity. Qed.

Example tier_label :
  getPricingTierLabel (λ s, s) {| pt_label := "long"; pt_fields := [];
    pt_conditions := [{| tc_var := "len"; tc_op := ">="; tc_value := of_Z 128000 |};
                      {| tc_var := "p"; tc_op := "<"; tc_value := of_Z 2000000 |}] |} 2
  = "Context ≥ 128K · Input < 2M".
Proof. vm_compute. reflexivity. Qed.
