(* ===== verification/CatalogTiers.v ===== *)
(** * CatalogTiers: from the visual editor to the catalog

    The tiers and prices a configuration of the visual editor ([TierExpr]) is saved
    with are those the catalog ([PricingPrices]) reads with the patterns of
    [parseTiersFromExpr] ([features/pricing/lib/billing-expr.ts]), alone or multiplied
    by request rules.  The patterns are read part by part ([JsRegexRuns]). *)
From Stdlib Require Import Floats.SpecFloat.
From S2P Require Import Prelude JsString JsNumber JsFloat JsValue JsRegex JsRegexRuns JsDecimal BillingExpr BillingRules TierExpr TierRoundTrip.
From S2P Require Import Currency PricingCatalog PricingPrices.

(** ** The body of a tier *)

(** The variables of prices. *)
Definition price_keys : list jstring := map key BILLING_PRICING_VARS.

(** The pattern of a price after the boundary of a word. *)
Definition cost_re : regex := RSeqs [RSpaces; RLit "*"; RSpaces; RGroup 2 (RPlus (RChar num_char))].
Definition price_re : regex := RSeq (RGroup 1 (RAlts (map RLit price_keys))) cost_re.

Lemma price_keys_ok :
  ForallOrdPairs (λ v w, distinct_vars v w = true) price_keys ∧ Forall (λ w, head_is is_word w = true) price_keys ∧ NoDup price_keys.
Proof. split_and!; [repeat constructor|by repeat constructor|by apply (bool_decide_unpack _); vm_compute]. Qed.

Lemma key_refused v w u : distinct_vars v w = true → refuses (RSeq (RGroup 1 (RLit v)) cost_re) (w ++ " " ++ u).
Proof.
  intros H k bf cs. rewrite rmatch_seq, rmatch_group. unfold distinct_vars in H. destruct (starts_with v w) eqn:E.
  - apply starts_with_spec in E as [r ->]. rewrite drop_app_length in H. destruct r as [|c r]; [done|].
    apply andb_true_iff in H as [Hc Hs]. apply negb_true_iff in Hc, Hs. rewrite <- app_assoc, rmatch_lit_app.
    apply (refuses_spaces (RSeqs [RLit "*"; RSpaces; RGroup 2 (RPlus (RChar num_char))])); [done|].
    apply (refuses_lit "*" (RSeqs _)). change (((cu "*") =? c)%N && true = false). by rewrite N.eqb_sym, Hs.
  - apply rmatch_lit_fail. apply negb_true_iff in H. destruct (starts_with v (w ++ " " ++ u)) eqn:E'; [|done].
    apply starts_with_inv in E' as [?|?]; congruence.
Qed.

(** An alternative that follows ones that refuse. *)
Lemma alts_runs c l w t rest cs cs' :
  (∀ v pre post, l = pre ++ w :: post → v ∈ pre → refuses (RSeq (RGroup 1 (RLit v)) c) (t ++ rest)) →
  w ∈ l → runs (RSeq (RGroup 1 (RLit w)) c) t rest cs cs' → runs (RSeq (RGroup 1 (RAlts (map RLit l))) c) t rest cs cs'.
Proof.
  intros Hpre Hw Hr. induction l as [|v l IH]; [by apply elem_of_nil in Hw|]. destruct l as [|v' l].
  - by apply list_elem_of_singleton in Hw as ->.
  - cbn [map]. rewrite RAlts_cons by done. destruct (decide (v = w)) as [->|Hne]; [by apply runs_group_alt_l|].
    assert (w ∈ v' :: l) as Hw' by by apply elem_of_cons in Hw as [?|?].
    apply runs_group_alt_r.
    + apply list_elem_of_split in Hw' as (pre & post & E). apply (Hpre v (v :: pre) post); [by rewrite E|left].
    + apply IH; [|done]. intros u pre post E Hu. apply (Hpre u (v :: pre) post); [by rewrite E|by right].
Qed.

Lemma price_re_runs w x rest cs :
  w ∈ price_keys → is_finite x = true → head_is num_char rest = false →
  runs price_re (price_text w x) rest cs ((2, Number_to_string x) :: (1, w) :: cs).
Proof.
  intros Hw Hx Hrest. destruct price_keys_ok as (Hd & _ & _). apply (alts_runs cost_re price_keys w); [|done|].
  - intros v pre post E Hv. unfold price_text. rewrite <- !app_assoc.
    apply (key_refused v w ("* " ++ Number_to_string x ++ rest)). rewrite E in Hd. clear -Hd Hv.
    induction pre as [|u pre IH]; [by apply elem_of_nil in Hv|]. inversion Hd as [|? ? Hu Hd']; subst.
    apply elem_of_cons in Hv as [->|Hv]; [|by apply IH]. rewrite Forall_forall in Hu. apply Hu, elem_of_app. right. left.
  - unfold price_text. eapply (runs_seq _ cost_re); [apply runs_group, runs_lit|].
    eapply (runs_seq _ (RSeqs _) " " ("* " ++ Number_to_string x)); [by apply runs_space|].
    eapply (runs_seq _ (RSeqs _) "*" (" " ++ Number_to_string x)); [apply runs_lit|].
    eapply (runs_seq _ (RSeqs _) " "); [apply runs_space; by apply number_start|].
    apply number_chars in Hx as [Hne Hc]. eapply runs_seq_end; [apply runs_group; by apply runs_plus_char|apply runs_empty].
Qed.

Lemma price_word_boundary bf w x :
  head_is is_word bf = false → w ∈ price_keys →
  ∀ rest (k : rstate → option rstate) cs,
  rmatch BILLING_VAR_REGEX k (mkState bf (price_text w x ++ rest) cs) = rmatch price_re k (mkState bf (price_text w x ++ rest) cs).
Proof.
  intros Hb Hw rest k cs. change BILLING_VAR_REGEX with (RSeq RWordB price_re). rewrite rmatch_seq. cbn [rmatch rbefore rrest].
  rewrite Hb. destruct price_keys_ok as (_ & Hh & _). rewrite Forall_forall in Hh. specialize (Hh w Hw).
  assert (head_is is_word (price_text w x ++ rest) = true) as -> by by destruct w. done.
Qed.

Lemma no_price_starts c t : c = 32%N ∨ c = cu "+" → refuses BILLING_VAR_REGEX (c :: t).
Proof.
  intros Hc k bf cs. change BILLING_VAR_REGEX with (RSeq RWordB price_re). rewrite rmatch_seq. cbn [rmatch].
  assert (refuses price_re (c :: t)) as H; [|by destruct (xorb _ _); [apply H|]].
  apply refuses_seq, refuses_group. by destruct Hc as [-> | ->].
Qed.

(** The matches of a body: the variables and the numerals of its prices, in order. *)
Definition pair_of (m : rmatched) : jstring * jstring := (mg 1 m, mg 2 m).
Definition price_pairs (ps : list (jstring * num)) : list jstring := map (λ p, price_text p.1 p.2) ps.
Definition price_ok (p : jstring * num) : Prop := p.1 ∈ price_keys ∧ is_finite p.2 = true.

Lemma body_step f bf sep p rest :
  price_ok p → sep = [] ∧ head_is is_word bf = false ∨ sep = " + " → head_is num_char rest = false →
  ∃ bf', map pair_of (exec_all (S f) BILLING_VAR_REGEX bf (sep ++ price_text p.1 p.2 ++ rest))
    = (p.1, Number_to_string p.2) :: map pair_of (exec_all f BILLING_VAR_REGEX bf' rest).
Proof.
  intros [Hw Hx] Hsep Hrest. destruct p as [w x]. cbn [fst snd] in *.
  assert (head_is is_word (reverse sep ++ bf) = false) as Hb by by destruct Hsep as [[-> ?]| ->].
  cbn [exec_all]. rewrite exec_from_skip; cycle 1.
  { intros w1 w2 E Hne. apply match_here_refuses. destruct Hsep as [[-> _]| ->]; [by destruct w1, w2|].
    destruct w2 as [|c w2]; [done|]. apply no_price_starts.
    assert (c ∈ (" + " : jstring)) as Hc by (rewrite E; apply elem_of_app; right; left).
    apply elem_of_cons in Hc as [->|[->|[->|[]%elem_of_nil]%elem_of_cons]%elem_of_cons]; by (left + right). }
  rewrite (exec_from_here _ _ _ (match_at (reverse sep ++ bf) (price_text w x) rest [(2, Number_to_string x); (1, w)])).
  - assert (price_text w x ≠ []) as Hne by (unfold price_text; by destruct w).
    eexists. cbn [match_at m_text m_end rrest rbefore]. destruct (price_text w x) eqn:E; [done|]. rewrite <- E. cbn [map]. f_equal.
  - pose proof (match_here_runs price_re (reverse sep ++ bf) _ _ _ (price_re_runs w x rest [] Hw Hx Hrest)) as H.
    unfold match_here in *. by rewrite price_word_boundary.
Qed.

Lemma plus_head l : head_is num_char (plus_texts l) = false.
Proof. by destruct l. Qed.

Lemma plus_cons x l : plus_texts (x :: l) = " + " ++ x ++ plus_texts l.
Proof. done. Qed.

Lemma body_pairs_plus fuel bf ps :
  Forall price_ok ps → length ps < fuel →
  map pair_of (exec_all fuel BILLING_VAR_REGEX bf (plus_texts (price_pairs ps))) = map (λ p, (p.1, Number_to_string p.2)) ps.
Proof.
  intros H. revert fuel bf. induction H as [|p ps Hp _ IH]; intros fuel bf Hf; (destruct fuel as [|fuel]; [simpl in Hf; lia|]).
  - assert (refuses BILLING_VAR_REGEX []) as Hr.
    { intros k bf' cs. change BILLING_VAR_REGEX with (RSeq RWordB price_re). rewrite rmatch_seq. cbn [rmatch].
      assert (refuses price_re []) as Hr by (by apply refuses_seq, refuses_group). destruct (xorb _ _); [apply Hr|done]. }
    rewrite exec_all_unread; [done| |done]. intros [] [] ? E ?; done.
  - change (price_pairs (p :: ps)) with (price_text p.1 p.2 :: price_pairs ps). rewrite plus_cons.
    destruct (body_step fuel bf " + " p (plus_texts (price_pairs ps))) as [bf' ->]; [done|by right|apply plus_head|].
    cbn [map]. f_equal. apply IH. simpl in Hf. lia.
Qed.

Lemma body_pairs p ps :
  Forall price_ok (p :: ps) →
  map pair_of (match_all BILLING_VAR_REGEX (price_text p.1 p.2 ++ plus_texts (price_pairs ps)))
  = map (λ p, (p.1, Number_to_string p.2)) (p :: ps).
Proof.
  intros [Hp Hps]%Forall_cons. unfold match_all.
  destruct (body_step (length (price_text p.1 p.2 ++ plus_texts (price_pairs ps))) [] [] p (plus_texts (price_pairs ps))) as [bf' E];
    [done|by left|apply plus_head|]. cbn [app] in E. rewrite E. cbn [map]. f_equal. apply body_pairs_plus; [done|].
  assert (∀ l : list (jstring * num), length l ≤ length (plus_texts (price_pairs l))) as Hlen.
  { induction l as [|q l IH]; [done|]. change (price_pairs (q :: l)) with (price_text q.1 q.2 :: price_pairs l).
    rewrite plus_cons, !length_app. cbn [length]. lia. }
  specialize (Hlen ps). rewrite length_app. assert (0 < length (price_text p.1 p.2)); [|lia].
  unfold price_text. rewrite !length_app. cbn. lia.
Qed.

(** ** The prices of a tier *)

(** The prices that are written, by variable. *)
Definition extra_prices (names : list jstring) (vals : list (option num)) : list (jstring * num) :=
  omap (λ wx, (λ x, (wx.1, x)) <$> wx.2) (zip names vals).

Definition view_prices (v : TierView) : list (jstring * num) :=
  ("p", v_input v) :: ("c", v_output v) :: extra_prices cacheVarNames (v_extras v).

Lemma extra_texts_pairs names vals : extra_texts names vals = price_pairs (extra_prices names vals).
Proof.
  unfold extra_texts, extra_prices, price_pairs. generalize (zip names vals) as l.
  induction l as [|[w [x|]] l IH]; [done|..]; cbn [omap list_omap fst snd fmap option_fmap option_map map]; by rewrite IH.
Qed.

Lemma view_body_prices v :
  view_body v = price_text "p" (v_input v) ++ plus_texts (price_pairs (("c", v_output v) :: extra_prices cacheVarNames (v_extras v))).
Proof.
  unfold view_body. rewrite extra_texts_pairs.
  change (price_pairs (("c", v_output v) :: ?l)) with (price_text "c" (v_output v) :: price_pairs l). by rewrite plus_cons.
Qed.

Lemma extra_prices_in names vals p : p ∈ extra_prices names vals → p.1 ∈ names ∧ Some p.2 ∈ vals.
Proof.
  intros ([w o] & Hin & E)%list_elem_of_omap. cbn [fst snd] in E. destruct o as [x|]; [|done]. injection E as <-. cbn [fst snd].
  split; [by eapply elem_of_zip_l|by eapply elem_of_zip_r].
Qed.

Lemma view_prices_ok v :
  view_readable v = true → Forall (λ p, p.1 ∈ price_keys ∧ cost_readable p.2 = true) (view_prices v).
Proof.
  intros (_ & _ & Hi & Ho & He & _)%view_readable_spec.
  assert (("p" : jstring) ∈ price_keys ∧ ("c" : jstring) ∈ price_keys ∧ Forall (λ w, w ∈ price_keys) cacheVarNames) as (Hp & Hc & Hn)
    by by apply (bool_decide_unpack _); vm_compute.
  apply Forall_cons; split; [done|]. apply Forall_cons; split; [done|].
  apply Forall_forall. intros p [Hw Hx]%extra_prices_in. rewrite Forall_forall in Hn. split; [by apply Hn|]. by apply (proj1 (Forall_forall _ _) He _ Hx).
Qed.

(** The first price of each variable wins. *)
Lemma coeffs_get k (ps : list (jstring * num)) acc :
  Forall (λ p, cost_readable p.2 = true) ps →
  oget k (fold_left (λ coeffs (vt : jstring * jstring),
      if ohas vt.1 coeffs then coeffs else obj_set vt.1 (Number_of_string vt.2) coeffs)
    (map (λ p, (p.1, Number_to_string p.2)) ps) acc)
  = match oget k acc with Some x => Some x | None => oget k ps end.
Proof.
  intros H. revert acc. induction H as [|[w x] ps Hx _ IH]; intros acc; [cbn; by destruct (oget k acc)|].
  cbn [map fold_left fst snd] in *. rewrite IH. apply cost_readable_spec in Hx as [_ ->]. cbn [oget].
  unfold ohas. case_bool_decide as Hw.
  - destruct (oget k acc) eqn:E; [done|]. case_bool_decide; [subst k; rewrite E in Hw; by destruct Hw as [? ?]|done].
  - rewrite oget_obj_set. case_bool_decide; [subst k|done].
    destruct (oget w acc) eqn:E; [|done]. destruct Hw. by eexists.
Qed.

Definition view_price (v : TierView) (k : jstring) : num := default zero (oget k (view_prices v)).

Lemma key_fields : BILLING_VAR_KEY_TO_FIELD = map (λ x, (key x, default [] (field x))) BILLING_PRICING_VARS ∧
  NoDup (map (λ x, default [] (field x)) BILLING_PRICING_VARS).
Proof. split; [by vm_compute|by apply (bool_decide_unpack _); vm_compute]. Qed.

(** The prices read from the body of a tier. *)
Lemma parse_view_body v x :
  view_readable v = true → x ∈ BILLING_PRICING_VARS →
  oget (default [] (field x)) (parseTierBody (view_body v)) = Some (view_price v (key x)).
Proof.
  intros Hv Hx. pose proof (view_prices_ok v Hv) as Hok. unfold parseTierBody.
  assert (∀ k, oget k (fold_left (λ coeffs m, let v := mg 1 m in if ohas v coeffs then coeffs
      else obj_set v (Number_of_string (mg 2 m)) coeffs) (match_all BILLING_VAR_REGEX (view_body v)) []) = oget k (view_prices v)) as Hc.
  { intros k. pose proof (fold_left_map (λ coeffs (vt : jstring * jstring),
      if ohas vt.1 coeffs then coeffs else obj_set vt.1 (Number_of_string vt.2) coeffs) pair_of
      (match_all BILLING_VAR_REGEX (view_body v)) []) as E. cbn [pair_of fst snd] in E. cbv zeta. rewrite <- E.
    rewrite view_body_prices, (body_pairs ("p", v_input v)).
    - change (oget k (view_prices v)) with (match oget k ([] : list (jstring * num)) with Some x => Some x | None => oget k (view_prices v) end).
      apply coeffs_get. eapply Forall_impl; [exact Hok|]. by intros p [_ ?].
    - change (Forall price_ok (view_prices v)). eapply Forall_impl; [exact Hok|]. intros p [Hw [Hf _]%cost_readable_spec]. by split. }
  set (coeffs := fold_left _ _ []) in *. clearbody coeffs. destruct key_fields as [-> Hn].
  rewrite fold_left_map. cbn [fst snd].
  pose proof (oget_obj_spread (default [] (field x)) []
    (map (λ y, (default [] (field y), num_or (default nan (oget (key y) coeffs)) zero)) BILLING_PRICING_VARS)) as Hs.
  unfold obj_spread in Hs. rewrite fold_left_map in Hs. cbn [fst snd] in Hs. rewrite Hs. clear Hs.
  assert (∀ l : list BillingVar, okeys (map (λ y, (default [] (field y), num_or (default nan (oget (key y) coeffs)) zero)) l)
    = map (λ y, default [] (field y)) l) as Hkeys by (intros l; unfold okeys; by rewrite <- list_fmap_compose).
  rewrite oget_reverse by by rewrite Hkeys.
  assert (oget (default [] (field x)) (map (λ y, (default [] (field y), num_or (default nan (oget (key y) coeffs)) zero)) BILLING_PRICING_VARS)
    = Some (num_or (default nan (oget (key x) coeffs)) zero)) as ->.
  { apply elem_of_oget; [by rewrite Hkeys|]. apply list_elem_of_In, in_map_iff. exists x. split; [done|by apply list_elem_of_In]. }
  f_equal. rewrite Hc. unfold view_price. destruct (oget (key x) (view_prices v)) as [y|] eqn:E; [|done].
  apply oget_Some_elem_of in E. rewrite Forall_forall in Hok. destruct (Hok _ E) as [_ Hy]. cbn. by apply cost_readable_or.
Qed.

Lemma view_price_finite v k : view_readable v = true → is_finite (view_price v k) = true.
Proof.
  intros Hv%view_prices_ok. unfold view_price. destruct (oget k (view_prices v)) as [x|] eqn:E; [|done].
  apply oget_Some_elem_of in E. rewrite Forall_forall in Hv. by destruct (Hv _ E) as [_ [? _]%cost_readable_spec].
Qed.

(** The price of a variable is its unit cost in the tier. *)
Definition unit_cost (tier : jval) (x : BillingVar) : num := cost_of (member (default [] (tierField x)) tier).

Lemma extra_prices_get tier (m : list (jstring * jstring)) f w :
  NoDup (map snd m) → (f, w) ∈ m →
  oget w (extra_prices (map snd m) (map (extra_price tier) (map fst m))) = extra_price tier f.
Proof.
  unfold extra_prices. induction m as [|[f' w'] m IH]; intros Hn Hin; [by apply elem_of_nil in Hin|].
  cbn [map] in Hn. apply NoDup_cons in Hn as [Hw' Hn]. cbn [map zip zip_with omap list_omap fst snd].
  assert (∀ o, oget w (match (λ x, (w', x)) <$> o with Some p => p :: extra_prices (map snd m) (map (extra_price tier) (map fst m))
    | None => extra_prices (map snd m) (map (extra_price tier) (map fst m)) end)
    = if bool_decide (w = w') then match o with Some x => Some x | None => oget w (extra_prices (map snd m) (map (extra_price tier) (map fst m))) end
      else oget w (extra_prices (map snd m) (map (extra_price tier) (map fst m)))) as Ho.
  { intros [x|]; cbn; by case_bool_decide. }
  unfold extra_prices in Ho. rewrite Ho. clear Ho. case_bool_decide as E.
  - subst w'. assert (f = f') as <-.
    { apply elem_of_cons in Hin as [[= ->]|Hin]; [done|]. destruct Hw'. by apply (list_elem_of_fmap_2 snd _ (f, w)). }
    destruct (extra_price tier f) as [x|]; [done|]. apply oget_None. intros Hk. apply Hw'.
    apply list_elem_of_fmap in Hk as ([k x] & -> & Hk). by apply extra_prices_in in Hk as [? _].
  - apply elem_of_cons in Hin as [[= -> ->]|Hin]; [done|]. by apply IH.
Qed.

Lemma cost_of_zero v : neqb (cost_of v) zero = true → cost_of v = zero.
Proof. unfold cost_of, num_or. by destruct (to_number v) as [[]|[]| |[]]. Qed.

Lemma view_unit_cost dflt cs tier x : x ∈ BILLING_PRICING_VARS → view_price (view_of dflt cs tier) (key x) = unit_cost tier x.
Proof.
  intros Hx. unfold view_price, unit_cost.
  assert (∀ w f, (f, w) ∈ BILLING_CACHE_VAR_MAP → default zero (oget w (view_prices (view_of dflt cs tier))) = cost_of (member f tier)) as Hextra.
  { intros w f Hin. assert (w ≠ "p" ∧ w ≠ "c") as [Hp Hc].
    { assert (Forall (λ fw : jstring * jstring, fw.2 ≠ "p" ∧ fw.2 ≠ "c") BILLING_CACHE_VAR_MAP) as H
        by by apply (bool_decide_unpack _); vm_compute. rewrite Forall_forall in H. exact (H _ Hin). }
    unfold view_prices. cbn [oget]. rewrite !bool_decide_eq_false_2 by done. cbn [v_extras view_of].
    unfold cacheVarNames. rewrite (extra_prices_get tier BILLING_CACHE_VAR_MAP f w); [|by apply (bool_decide_unpack _); vm_compute|done].
    unfold extra_price. destruct (neqb (cost_of (member f tier)) zero) eqn:E; cbn [negb orb]; [|done].
    apply cost_of_zero in E. rewrite E. by destruct (explicit_includes tier f). }
  assert (x ∈ filter (λ y, isBase y = true) BILLING_PRICING_VARS ∨ (default [] (tierField x), key x) ∈ BILLING_CACHE_VAR_MAP) as [Hb|He].
  { assert (Forall (λ y, isBase y = true ∨ (default [] (tierField y), key y) ∈ BILLING_CACHE_VAR_MAP) BILLING_PRICING_VARS) as H
      by by apply (bool_decide_unpack _); vm_compute.
    rewrite Forall_forall in H. destruct (H x Hx); [left|by right]. by apply list_elem_of_filter. }
  - by repeat (apply elem_of_cons in Hb as [->|Hb]; [done|]); apply elem_of_nil in Hb.
  - by apply Hextra.
Qed.

(** ** The tiers of an expression *)

Definition tier_condition (c : jval) : TierCondition :=
  {| tc_var := to_js_string (member "var" c); tc_op := to_js_string (member "op" c);
     tc_value := Number_of_string (to_js_string (member "value" c)) |}.

Lemma parse_tier_conditions cs :
  Forall (λ c, condition_readable c = true) cs →
  parseTierConditions (join " && " (map condition_text cs)) = map tier_condition cs.
Proof.
  intros Hcs. unfold parseTierConditions. destruct cs as [|c0 cs0] eqn:Ecs; [done|]. rewrite <- Ecs in *.
  rewrite truthy_conditions, bool_decide_eq_false_2 by by subst. cbn [negb].
  rewrite split_regex_join; [|done|by subst cs| | |].
  - clear c0 cs0 Ecs. induction Hcs as [|c cs Hc Hcs IH]; [done|]. cbn [map omap list_omap].
    rewrite trim_id by (by apply condition_text_trimmed). rewrite condition_text_exec by done. cbn. by rewrite <- IH.
  - apply Forall_map. eapply Forall_impl; [done|]. apply RAnd_unread.
  - intros k bf cs'. done.
  - intros w rest Hw. apply RAnd_runs. apply list_elem_of_fmap in Hw as (c & -> & Hc).
    rewrite Forall_forall in Hcs. by apply condition_text_start, Hcs.
Qed.

(** Texts without parentheses. *)
Definition no_parens (s : jstring) : Prop := Forall (λ c, c ≠ cu "(" ∧ c ≠ cu ")") s.

Lemma no_parens_app s t : no_parens (s ++ t) ↔ no_parens s ∧ no_parens t.
Proof. apply Forall_app. Qed.

Lemma no_parens_number x : is_finite x = true → no_parens (Number_to_string x).
Proof. intros [_ H]%number_chars. eapply Forall_impl; [exact H|]. intros c Hc. by split; intros ->. Qed.

Lemma no_parens_price p : price_ok p → no_parens (price_text p.1 p.2).
Proof.
  intros [Hw Hx]. unfold price_text. rewrite !no_parens_app. split_and!; [|by repeat constructor|by apply no_parens_number].
  assert (Forall no_parens price_keys) as H by (unfold no_parens; by apply (bool_decide_unpack _); vm_compute).
  rewrite Forall_forall in H. by apply H.
Qed.

Lemma no_parens_body v : view_readable v = true → no_parens (view_body v).
Proof.
  intros Hv. rewrite view_body_prices. pose proof (view_prices_ok v Hv) as H. unfold view_prices in H.
  assert (Forall price_ok (view_prices v)) as Hok.
  { eapply Forall_impl; [exact H|]. intros p [Hw [Hf _]%cost_readable_spec]. by split. }
  apply Forall_cons in Hok as [Hp Hps]. rewrite no_parens_app. split; [by apply (no_parens_price ("p", v_input v))|].
  clear -Hps. revert Hps. generalize (("c" : jstring, v_output v) :: extra_prices cacheVarNames (v_extras v)) as ps.
  induction 1 as [|p ps Hp _ IH]; [constructor|].
  change (price_pairs (p :: ps)) with (price_text p.1 p.2 :: price_pairs ps). rewrite plus_cons, !no_parens_app.
  split_and!; [by repeat constructor|by apply no_parens_price|done].
Qed.

Lemma view_body_ne v : view_body v ≠ [].
Proof. done. Qed.

(** What the pattern of a tier captures. *)
Definition shown_caps (v : TierView) : list (nat * jstring) :=
  (3, view_body v) :: (2, v_label v) :: match v_conditions v with [] => [] | _ => [(1, view_conditions_text v)] end.

Lemma tier_call_runs v rest cs :
  view_readable v = true →
  runs (RSeqs [RLit "tier("; RLit [34%N]; RGroup 2 (RStar (RChar (none_of [34%N]))); RLit [34%N];
         RLit ","; RSpaces; RGroup 3 (RPlus (RChar (none_of ")"))); RLit ")"])
    (view_call v) rest cs ((3, view_body v) :: (2, v_label v) :: cs).
Proof.
  intros Hv. pose proof Hv as (Hl & _)%view_readable_spec. unfold view_call, tier_call.
  eapply (runs_seq _ (RSeqs _) "tier("); [apply runs_lit|].
  eapply (runs_seq _ (RSeqs _) [34%N]); [apply runs_lit|].
  eapply (runs_seq _ (RSeqs _) (v_label v)); [apply runs_group, runs_star_char; [by apply label_class|done]|].
  eapply (runs_seq _ (RSeqs _) [34%N]); [apply runs_lit|].
  eapply (runs_seq _ (RSeqs _) ","); [apply runs_lit|].
  eapply (runs_seq _ (RSeqs _) " "); [by apply runs_space|].
  eapply (runs_seq _ (RSeqs _) (view_body v)).
  - apply runs_group, runs_plus_char; [apply view_body_ne| |done].
    eapply Forall_impl; [by apply no_parens_body|]. intros c [_ Hc]. unfold none_of, one_of. cbn. rewrite orb_false_r.
    change (cu ")") with 41%N in Hc. apply negb_true_iff, N.eqb_neq. congruence.
  - eapply runs_seq_end; [apply runs_lit|apply runs_empty].
Qed.

Lemma tier_refuses t : head_is (one_of "pcl") t = false → starts_with "tier(" t = false → refuses tierRe t.
Proof.
  intros Hv Ht. apply (refuses_opt_seq _ (RSeqs _)); [|by apply refuses_lit].
  apply (refuses_seq condGroup), refuses_group, refuses_seq, (refuses_seq RVar). by apply RVar_refuses.
Qed.

Lemma tier_runs v rest : view_readable v = true → runs tierRe (view_text v) rest [] (shown_caps v).
Proof.
  intros Hv. unfold view_text, shown_caps. destruct (v_conditions v) as [|c cs] eqn:E.
  - apply (runs_skip _ (RSeqs _)); [|by apply tier_call_runs].
    apply runs_opt_none. apply (refuses_seq condGroup), refuses_group, refuses_seq, (refuses_seq RVar). by apply RVar_refuses.
  - rewrite (app_assoc (view_conditions_text v)). eapply (runs_seq _ (RSeqs _)); [|by apply tier_call_runs].
    apply runs_opt. eapply (runs_seq condGroup (RSeqs _)).
    + apply condition_list_runs; [by rewrite E|]. by apply view_readable_spec in Hv as (_ & ? & _).
    + eapply (runs_seq _ (RSeqs _) " "); [by apply runs_space|].
      eapply (runs_seq _ (RSeqs _) "?" " "); [apply runs_lit|].
      eapply runs_seq_end; [by apply runs_space|apply runs_empty].
Qed.

(** A tier as the catalog has it. *)
Definition parsed_tier (m : rmatched) : ParsedTier :=
  {| pt_label := mg 2 m; pt_conditions := parseTierConditions (mg 1 m); pt_fields := parseTierBody (mg 3 m) |}.

Definition shown_tier (v : TierView) : ParsedTier :=
  {| pt_label := v_label v; pt_conditions := map tier_condition (v_conditions v); pt_fields := parseTierBody (view_body v) |}.

Lemma shown_groups v bf t rest :
  let m := match_at bf t rest (shown_caps v) in
  mg 1 m = view_conditions_text v ∧ mg 2 m = v_label v ∧ mg 3 m = view_body v.
Proof.
  unfold mg, m_group, capture, match_at, shown_caps, view_conditions_text. cbn [m_end rcaps oget].
  rewrite !bool_decide_eq_false_2, !bool_decide_eq_true_2 by done. cbn [default from_option id]. split_and!; [|done..].
  by destruct (v_conditions v).
Qed.

Lemma parsed_match v bf t rest : view_readable v = true → parsed_tier (match_at bf t rest (shown_caps v)) = shown_tier v.
Proof.
  intros (_ & Hc & _)%view_readable_spec. destruct (shown_groups v bf t rest) as (E1 & E2 & E3).
  unfold parsed_tier, shown_tier. rewrite E1, E2, E3. unfold view_conditions_text. by rewrite parse_tier_conditions.
Qed.

Lemma view_text_ne v : view_readable v = true → view_text v ≠ [].
Proof. intros Hv. destruct (view_text_head v [] Hv) as (c & r & E & _). rewrite app_nil_r in E. by rewrite E. Qed.

Lemma colon_tier_refuses w1 w2 u v :
  " : " = w1 ++ w2 → w2 ≠ [] → refuses tierRe (w2 ++ view_text v ++ u).
Proof.
  intros E Hne. assert (w2 = " : " ∨ w2 = ": " ∨ w2 = " ") as [-> | [-> | ->]]; [|by apply tier_refuses..].
  destruct w1 as [|? [|? [|? w1]]]; cbn [app] in E; [by left|injection E as _ E; by auto..|].
  injection E as _ _ _ E. symmetry in E. by apply app_eq_nil in E as [_ ->].
Qed.

Lemma parsed_loop vs fuel bf sep :
  Forall (λ v, view_readable v = true) vs → sep = [] ∨ sep = " : " → vs ≠ [] →
  length (join " : " (map view_text vs)) < fuel →
  map parsed_tier (exec_all fuel tierRe bf (sep ++ join " : " (map view_text vs))) = map shown_tier vs.
Proof.
  intros H. revert fuel bf sep. induction H as [|v vs Hv Hvs IH]; intros fuel bf sep Hsep Hne Hf; [done|].
  destruct fuel as [|fuel]; [lia|]. pose proof (view_text_ne v Hv) as Hn.
  assert (∀ rest, map parsed_tier (exec_all (S fuel) tierRe bf (sep ++ view_text v ++ rest))
    = shown_tier v :: map parsed_tier (exec_all fuel tierRe (reverse (view_text v) ++ reverse sep ++ bf) rest)) as Hstep.
  { intros rest. rewrite (exec_all_step fuel tierRe bf sep (view_text v) rest (shown_caps v)); [|done| |by apply tier_runs].
    - cbn [map]. by rewrite parsed_match.
    - intros w1 w2 E Hw. destruct Hsep as [->| ->]; [by destruct w1, w2|by eapply colon_tier_refuses]. }
  destruct vs as [|v' vs].
  - cbn [map join]. rewrite <- (app_nil_r (view_text v)) at 1. rewrite Hstep. cbn [map]. f_equal.
    rewrite exec_all_unread; [done| |by apply tier_refuses]. by intros [] [] ? ?.
  - change (join " : " (map view_text (v :: v' :: vs))) with (view_text v ++ " : " ++ join " : " (map view_text (v' :: vs))) in *.
    rewrite Hstep. cbn [map]. f_equal. apply IH; [by right|done|]. rewrite !length_app in Hf. change (length " : ") with 3 in Hf. lia.
Qed.

(** The catalog reads the tiers of an expression that was generated. *)
Lemma parse_views vs :
  vs ≠ [] → Forall (λ v, view_readable v = true) vs → parseTiersFromExpr (join " : " (map view_text vs)) = map shown_tier vs.
Proof.
  intros Hne Hvs. destruct (views_head vs Hne Hvs) as (c & r & E & Hc). unfold parseTiersFromExpr, stripExprVersion.
  rewrite E. cbn [truthy negb].
  assert (exec (RSeqs [RBol; RLit "v"; RGroup 1 RDigits; RLit ":"; RGroup 2 (RStar (RChar any_unit)); REol]) (c :: r) = None) as ->.
  { apply (eq_trans (exec_anchored (RSeqs _) _)), match_here_refuses. apply (refuses_lit "v" (RSeqs _)).
    by destruct Hc as [-> | [-> | [-> | ->]]]. }
  cbn [snd]. rewrite <- E. apply (parsed_loop vs _ [] []); [done|by left|done|apply Nat.lt_succ_diag_r].
Qed.

(** ** Taking the expression apart *)

(** The texts before the call of a tier hold no product. *)
Definition plain_head (s : jstring) : Prop := Forall (λ c, c ≠ cu "(" ∧ c ≠ cu ")" ∧ c ≠ cu "*") s.

#[export] Instance plain_head_dec s : Decision (plain_head s).
Proof. unfold plain_head. apply _. Defined.

Lemma plain_head_app s t : plain_head (s ++ t) ↔ plain_head s ∧ plain_head t.
Proof. apply Forall_app. Qed.

Lemma plain_head_join sep l : plain_head sep → Forall plain_head l → plain_head (join sep l).
Proof.
  intros Hs H. induction H as [|s l H1 H2 IH]; [constructor|]. destruct l as [|t l]; [done|].
  change (join sep (s :: t :: l)) with (s ++ sep ++ join sep (t :: l)). by rewrite !plain_head_app.
Qed.

Lemma plain_condition c : condition_readable c = true → plain_head (condition_text c).
Proof.
  intros (var & op & text & Hv & Ho & Ht & Hvar & Hop & _ & Hnum)%condition_readable_spec.
  unfold condition_text. rewrite Hv, Ho, Ht. cbn [to_js_string]. rewrite !plain_head_app. split_and!.
  - repeat (apply elem_of_cons in Hvar as [->|Hvar]; [apply (bool_decide_unpack _); by vm_compute|]). by apply elem_of_nil in Hvar.
  - apply (bool_decide_unpack _); by vm_compute.
  - repeat (apply elem_of_cons in Hop as [->|Hop]; [apply (bool_decide_unpack _); by vm_compute|]). by apply elem_of_nil in Hop.
  - apply (bool_decide_unpack _); by vm_compute.
  - eapply Forall_impl; [exact Hnum|]. intros d Hd. by split_and!; intros ->.
Qed.

Definition call_inner (v : TierView) : jstring := [34%N] ++ v_label v ++ [34%N] ++ ", " ++ view_body v.

(** A tier is a plain head and a call. *)
Lemma view_text_parts v :
  view_readable v = true → ∃ h, view_text v = h ++ in_parens (call_inner v) ∧ plain_head h.
Proof.
  intros (_ & Hc & _)%view_readable_spec. unfold view_text. destruct (v_conditions v) as [|c cs] eqn:E.
  - exists "tier". split; [|apply (bool_decide_unpack _); by vm_compute].
    unfold view_call, tier_call, in_parens, call_inner. change "tier(" with ("tier" ++ "("). by rewrite <- !app_assoc.
  - exists (view_conditions_text v ++ " ? " ++ "tier"). split.
    + unfold view_call, tier_call, in_parens, call_inner. change "tier(" with ("tier" ++ "("). by rewrite <- !app_assoc.
    + rewrite !plain_head_app. split_and!; [|apply (bool_decide_unpack _); by vm_compute..].
      unfold view_conditions_text. rewrite E. apply plain_head_join; [apply (bool_decide_unpack _); by vm_compute|].
      apply Forall_map. eapply Forall_impl; [exact Hc|]. apply plain_condition.
Qed.

Lemma balanced_plain s r d : no_parens s → (0 <= d)%Z → balanced d (s ++ r) = balanced d r.
Proof.
  intros H Hd. induction H as [|c s [H1 H2] _ IH]; [done|]. cbn [app balanced]. rewrite depth_after_plain by done.
  rewrite IH. by rewrite (proj2 (Z.leb_le _ _)) by lia.
Qed.

Lemma balanced_within w r d k :
  balanced d w = true → (0 <= d)%Z → (0 <= k)%Z → balanced (d + k) (w ++ r) = balanced k r.
Proof.
  revert d. induction w as [|c w IH]; intros d Hb Hd Hk; cbn [balanced app] in *.
  - apply Z.eqb_eq in Hb as ->. done.
  - apply andb_true_iff in Hb as [H0 Hb]. apply Z.leb_le in H0.
    assert (depth_after c (d + k) = depth_after c d + k)%Z as ->
      by (unfold depth_after; destruct (c =? _)%N; [lia|]; destruct (c =? _)%N; lia).
    rewrite (proj2 (Z.leb_le _ _)) by lia. by apply IH.
Qed.

Section labelled.
Variable v : TierView.
Hypothesis Hv : view_readable v = true.
Hypothesis Hlabel : no_parens (v_label v).

Lemma call_inner_balanced : balanced 0 (call_inner v) = true.
Proof using Hv Hlabel.
  rewrite <- (app_nil_r (call_inner v)), balanced_plain; [done| |done]. unfold call_inner. rewrite !no_parens_app.
  split_and!; [by repeat constructor|done|by repeat constructor|by repeat constructor|by apply no_parens_body].
Qed.

Lemma view_balanced r : balanced 0 (view_text v ++ r) = balanced 0 r.
Proof using Hv Hlabel.
  destruct (view_text_parts v Hv) as (h & -> & Hh). rewrite <- app_assoc, balanced_plain; [|by eapply Forall_impl; [exact Hh|]; intros c (? & ? & _)|done].
  unfold in_parens. change (("(" ++ call_inner v ++ ")") ++ r) with (cu "(" :: (call_inner v ++ ")") ++ r). cbn [balanced].
  change (depth_after (cu "(") 0) with (0 + 1)%Z. rewrite <- app_assoc, balanced_within by (done || apply call_inner_balanced). done.
Qed.

(** No product at the top level of a tier. *)
Lemma view_not_split r cur :
  splitTopLevel " * " 0 cur 0 (view_text v ++ r) = splitTopLevel " * " 0 (reverse (view_text v) ++ cur) 0 r.
Proof using Hv Hlabel.
  destruct (view_text_parts v Hv) as (h & -> & Hh). rewrite <- app_assoc, splitTopLevel_run.
  - assert (depth_all h 0 = 0%Z) as ->.
    { apply depth_all_plain; intros Hin; unfold plain_head in Hh; rewrite Forall_forall in Hh; destruct (Hh _ Hin) as (? & ? & ?); done. }
    unfold in_parens. change (("(" ++ call_inner v ++ ")") ++ r) with (cu "(" :: ((call_inner v ++ ")") ++ r)). cbn [splitTopLevel].
    change (depth_after (cu "(") 0) with (0 + 1)%Z. cbn [Z.eqb Z.add andb].
    rewrite <- app_assoc, (split_inner _ (call_inner v) _ 0) by apply call_inner_balanced. cbn [app splitTopLevel].
    change (depth_after (cu ")") 1) with 0%Z. change ((0 =? 0)%Z && starts_with " * " (cu ")" :: r)) with false. cbv iota.
    f_equal. rewrite reverse_app. change ("(" ++ ?w ++ ")") with (cu "(" :: w ++ ")"). rewrite reverse_cons, reverse_app. by rewrite <- !app_assoc.
  - intros w1 c w2 E _. apply (no_separator (cu "*") " " w1 c w2 _ h); [done| |done].
    intros Hin. unfold plain_head in Hh; rewrite Forall_forall in Hh. by destruct (Hh _ Hin) as (_ & _ & ?).
Qed.
End labelled.

Definition view_ok (v : TierView) : Prop := view_readable v = true ∧ no_parens (v_label v).

Lemma views_balanced vs : Forall view_ok vs → balanced 0 (join " : " (map view_text vs)) = true.
Proof.
  induction 1 as [|v vs [Hv Hl] _ IH]; [done|]. destruct vs as [|w vs].
  - cbn [map join]. rewrite <- (app_nil_r (view_text v)). by rewrite view_balanced.
  - change (join " : " (map view_text (v :: w :: vs))) with (view_text v ++ " : " ++ join " : " (map view_text (w :: vs))).
    by rewrite view_balanced, balanced_plain by (done || by repeat constructor).
Qed.

Lemma views_not_split vs cur : Forall view_ok vs → ∃ t, splitTopLevel " * " 0 cur 0 (join " : " (map view_text vs)) = [t].
Proof.
  intros H. revert cur. induction H as [|v vs [Hv Hl] Hvs IH]; intros cur; [by eexists|]. destruct vs as [|w vs].
  - cbn [map join]. rewrite <- (app_nil_r (view_text v)), view_not_split by done. by eexists.
  - change (join " : " (map view_text (v :: w :: vs))) with (view_text v ++ " : " ++ join " : " (map view_text (w :: vs))).
    rewrite view_not_split by done. rewrite (splitTopLevel_run " * " " : "); [apply IH|].
    intros w1 c w2 E _. apply (no_separator (cu "*") " " w1 c w2 _ " : " E); [by apply (bool_decide_unpack _); vm_compute|].
    destruct (views_head (w :: vs)) as (d & u & -> & Hd); [done| |by destruct Hd as [-> | [-> | [-> | ->]]]].
    eapply Forall_impl; [exact Hvs|]. by intros x [? _].
Qed.

(** ** What is saved and what is shown *)

Lemma views_end vs : vs ≠ [] → ∃ w, join " : " (map view_text vs) = w ++ ")".
Proof.
  intros Hne. induction vs as [|v vs IH]; [done|]. destruct vs as [|w vs].
  - cbn [map join]. unfold view_text, view_call, tier_call. destruct (v_conditions v).
    + exists ("tier(" ++ [34%N] ++ v_label v ++ [34%N] ++ ", " ++ view_body v). by rewrite <- !app_assoc.
    + exists (view_conditions_text v ++ " ? " ++ "tier(" ++ [34%N] ++ v_label v ++ [34%N] ++ ", " ++ view_body v). by rewrite <- !app_assoc.
  - change (join " : " (map view_text (v :: w :: vs))) with (view_text v ++ " : " ++ join " : " (map view_text (w :: vs))).
    destruct IH as [u ->]; [done|]. exists (view_text v ++ " : " ++ u). by rewrite <- !app_assoc.
Qed.

Section views.
Variable vs : list TierView.
Hypothesis Hne : vs ≠ [].
Hypothesis Hvs : Forall view_ok vs.
Let base : jstring := join " : " (map view_text vs).

Lemma views_readable : Forall (λ v, view_readable v = true) vs.
Proof using Hvs. eapply Forall_impl; [exact Hvs|]. by intros v [? _]. Qed.

Lemma views_shape :
  base ≠ [] ∧ trimmed base ∧ ends_with " : 1" base = false ∧ unwrapOuterParens base = base.
Proof using Hne Hvs.
  destruct (views_head vs Hne views_readable) as (c & r & E & Hc). destruct (views_end vs Hne) as [w Ew].
  fold base in E, Ew. assert (trimmed base) as Ht.
  { rewrite Ew. destruct w as [|d w]; [by apply (bool_decide_unpack _); vm_compute|]. rewrite Ew in E. injection E as <- _.
    apply trimmed_ends; [|done]. by destruct Hc as [-> | [-> | [-> | ->]]]. }
  split_and!; [by rewrite E|done| |].
  - destruct (ends_with " : 1" base) eqn:Ee; [|done]. apply ends_with_spec in Ee as [u Eu]. rewrite Ew in Eu.
    change " : 1" with (" : " ++ [49%N]) in Eu. rewrite app_assoc in Eu. by apply app_inj_tail in Eu as [_ ?].
  - unfold unwrapOuterParens. rewrite trim_id by done. destruct (length base); [done|]. cbn [unwrapLoop].
    assert (hasFullOuterParens base = false) as ->; [|done]. unfold hasFullOuterParens.
    assert (starts_with "(" base = false) as ->; [|done]. rewrite E. by destruct Hc as [-> | [-> | [-> | ->]]].
Qed.

(** The base and the rules are found again. *)
Lemma split_views groups :
  Forall normal_group groups → forallb reads_back groups = true →
  splitBillingExprAndRequestRules (combineBillingExpr base (buildRequestRuleExpr groups)) = Some (base, buildRequestRuleExpr groups) ∧
  truthy (combineBillingExpr base (buildRequestRuleExpr groups)) = true.
Proof using Hne Hvs.
  intros Hg Hr. destruct views_shape as (Hb & Ht & He & Hu). destruct groups as [|g groups].
  - change (buildRequestRuleExpr []) with (@nil N). unfold combineBillingExpr. rewrite (trim_id _ Ht).
    rewrite (proj2 (truthy_spec base)) by done. change (truthy (trim [])) with false. cbn [negb]. split; [|by apply truthy_spec].
    unfold splitBillingExprAndRequestRules. rewrite (trim_id _ Ht), (proj2 (truthy_spec base)) by done. cbn [negb].
    destruct (views_not_split vs [] Hvs) as [t Et]. fold base in Et. unfold splitTopLevelMultiply. rewrite Et.
    assert ((length (filter (λ s, truthy s = true) [t]) <=? 1) = true) as ->; [|done].
    rewrite filter_cons. by destruct (decide _).
  - pose proof (split_combined base (g :: groups)) as Hs. cbv zeta in Hs. rewrite (trim_id _ Ht), Hr, Hu in Hs.
    split; [apply Hs; try done; by apply views_balanced|].
    unfold combineBillingExpr. rewrite (trim_id _ Ht), (proj2 (truthy_spec base)) by done. cbn [negb].
    destruct (negb (truthy _)); [|done]. by apply truthy_spec.
Qed.
End views.

(** What the editor names a tier without a label. *)
Definition default_label (n i : nat) : jstring := if bool_decide (n = 1) then "default" else "tier_" ++ N_to_js (N.of_nat (i + 1)).

(** The conditions of the last tier are not written. *)
Definition written_conditions (n i : nat) (tier : jval) : list jval := if bool_decide (i < n - 1) then kept_conditions tier else [].

Lemma config_views_get tiers i tier :
  (∀ t, tiers = [t] → kept_conditions t = []) → tiers !! i = Some tier →
  config_views tiers !! i = Some (view_of (default_label (length tiers) i) (written_conditions (length tiers) i tier) tier).
Proof.
  intros Hone Hi. destruct tiers as [|t [|t2 tiers]]; [done| |].
  - destruct i as [|i]; [|done]. injection Hi as <-. cbn. unfold default_label, written_conditions. cbn. by rewrite Hone.
  - set (l := t :: t2 :: tiers) in *.
    change (config_views l) with (imap (λ i tier, view_of ("tier_" ++ N_to_js (N.of_nat (i + 1)))
           (if bool_decide (i < length l - 1) then kept_conditions tier else []) tier) l).
    rewrite list_lookup_imap, Hi. done.
Qed.

Lemma written_once config t : config_readable config = true → tiers_of config = [t] → kept_conditions t = [].
Proof. unfold config_readable. intros [_ H]%andb_true_iff E. rewrite E in H. by bool_to_prop. Qed.

(** Labels without parentheses. *)
Definition labels_plain (config : jval) : Prop := Forall (λ v, no_parens (v_label v)) (config_views (tiers_of config)).

#[export] Instance labels_plain_dec config : Decision (labels_plain config).
Proof. unfold labels_plain, no_parens. apply _. Defined.

(** C33: What is saved with the visual editor is what the catalog shows.  For tiers the
    editor reads back, whose labels hold no parentheses, and for any rules that are read
    back, the summary of the model has one tier for each tier of the editor, with its
    label, the conditions that are written and, for each variable, its unit cost; it
    says there are rules exactly when there are; and the prices listed are the positive
    unit costs of the first tier. *)
Theorem saved_config_shown NumberFormat store options model config groups :
  config_readable config = true → labels_plain config → Forall normal_group groups → forallb reads_back groups = true →
  billing_mode model = Some ("tiered_expr" : jstring) →
  billing_expr model = Some (combineBillingExpr (generateExprFromVisualConfig config) (buildRequestRuleExpr groups)) →
  let n := length (tiers_of config) in
  ∃ summary, getDynamicPricingSummary NumberFormat store model options = Some (Some summary) ∧
    length (ds_tiers summary) = n ∧
    (∀ i tier, tiers_of config !! i = Some tier → ∃ t, ds_tiers summary !! i = Some t ∧
      pt_label t = label_or tier (default_label n i) ∧
      pt_conditions t = map tier_condition (written_conditions n i tier) ∧
      ∀ x, x ∈ BILLING_PRICING_VARS → oget (default [] (field x)) (pt_fields t) = Some (unit_cost tier x)) ∧
    hasRequestRules summary = negb (bool_decide (groups = [])) ∧
    ∀ tier x, head (tiers_of config) = Some tier → x ∈ BILLING_PRICING_VARS →
      (∃ e, e ∈ entries summary ∧ de_variable e = x ∧ de_value e = unit_cost tier x) ↔ nlt zero (unit_cost tier x) = true.
Proof.
  intros Hconfig Hlabels Hg Hr Hmode Hexpr n. destruct (config_readable_spec config Hconfig) as (Hv & Hne & Hgen).
  set (vs := config_views (tiers_of config)) in *. rewrite Hgen in Hexpr.
  assert (Forall view_ok vs) as Hok by by apply Forall_and.
  destruct (split_views vs Hne Hok groups Hg Hr) as [Hsplit Ht].
  pose proof (rule_groups_read groups Hg) as Hrules. rewrite Hr in Hrules.
  destruct (summary_of_split NumberFormat store options model _ _ _ groups Hmode Hexpr Ht Hsplit Hrules) as (summary & Es & Et & Eh & Ee).
  rewrite parse_views in Et by done. exists summary.
  assert (∀ i tier, tiers_of config !! i = Some tier → ∃ t, ds_tiers summary !! i = Some t ∧
      pt_label t = label_or tier (default_label n i) ∧
      pt_conditions t = map tier_condition (written_conditions n i tier) ∧
      ∀ x, x ∈ BILLING_PRICING_VARS → oget (default [] (field x)) (pt_fields t) = Some (unit_cost tier x)) as Htiers.
  { intros i tier Hi. pose proof (config_views_get (tiers_of config) i tier (λ t, written_once config t Hconfig) Hi) as Hvi.
    fold vs in Hvi. eexists. split; [by rewrite Et, list_lookup_fmap, Hvi|]. split_and!; [done..|].
    intros x Hx. cbn [pt_fields shown_tier]. rewrite parse_view_body, view_unit_cost; [done..| |done].
    rewrite Forall_forall in Hv. apply Hv. by eapply list_elem_of_lookup_2. }
  split_and!; [done|by rewrite Et, length_map; unfold vs, n; rewrite config_views_length|exact Htiers|done|].
  intros tier x Htier Hx. rewrite Ee. rewrite head_lookup in Htier.
  destruct (Htiers 0 tier Htier) as (t & Ht0 & _ & _ & Hf). rewrite <- head_lookup in Ht0.
  assert (head (ds_tiers summary) = Some t) as -> by done.
  assert (∀ y, y ∈ BILLING_PRICING_VARS → tier_price t y = unit_cost tier y) as Hprice.
  { intros y Hy. unfold tier_price. assert (is_Some (field y)) as [f Hfy].
    { assert (Forall (λ y, is_Some (field y)) BILLING_PRICING_VARS) as H by by repeat constructor; eexists.
      rewrite Forall_forall in H. by apply H. }
    pose proof (Hf y Hy) as H. rewrite Hfy in H |- *. cbn in H. by rewrite H. }
  assert (is_finite (unit_cost tier x) = true) as Hfin.
  { rewrite <- (view_unit_cost (default_label n 0) (written_conditions n 0 tier)) by done. apply view_price_finite.
    rewrite Forall_forall in Hv. apply Hv. eapply list_elem_of_lookup_2, config_views_get; [|exact Htier].
    intros t'. by apply written_once. }
  assert (nlt zero (unit_cost tier x) = negb (nle (unit_cost tier x) zero)) as Hlt.
  { rewrite nle_nlt by (done || by apply finite_not_nan). by rewrite negb_involutive. }
  rewrite Hlt, negb_true_iff. split.
  - intros (e & (_ & (_ & _ & Hp) & _)%elem_of_entries & <- & _). by rewrite <- Hprice.
  - intros Hp. exists {| de_value := unit_cost tier x; de_variable := x;
      de_formatted := formatDynamicUnitPrice NumberFormat store (unit_cost tier x) options |}.
    split; [|done]. apply elem_of_entries. cbn [de_variable de_value de_formatted]. unfold priced_variable. rewrite Hprice by done.
    split_and!; try done. assert (Forall (λ y, otruthy (field y) = true) BILLING_PRICING_VARS) as H by by repeat constructor.
    rewrite Forall_forall in H. by apply H.
Qed.

(** ** Examples and witnesses *)

Definition editor_model : PricingModel :=
  model_of (combineBillingExpr (generateExprFromVisualConfig sample_config) (buildRequestRuleExpr sample_groups)).

(** The labels, the conditions and the prices the catalog reads. *)
Example shown_tiers :
  match getDynamicPricingTiers editor_model with
  | Some tiers => map (λ t, (pt_label t, map tc_var (pt_conditions t),
      Number_to_string <$> oget "inputPrice" (pt_fields t), Number_to_string <$> oget "cacheCreate1hPrice" (pt_fields t))) tiers
  | None => []
  end = [("small" : jstring, ["len"; "p"], Some ("3" : jstring), Some ("2.5" : jstring)); ("tier_2" : jstring, [], Some ("7" : jstring), Some ("0" : jstring))].
Proof. vm_compute. reflexivity. Qed.

Example saved_config_shown_witness :
  ∃ summary, getDynamicPricingSummary sample_format None editor_model sample_options = Some (Some summary) ∧
    length (ds_tiers summary) = 2 ∧ hasRequestRules summary = true.
Proof.
  destruct (saved_config_shown sample_format None sample_options editor_model sample_config sample_groups)
    as (summary & H1 & H2 & _ & H3 & _);
    [by vm_compute|apply (bool_decide_unpack _); by vm_compute|apply sample_groups_normal|by vm_compute|done|done|].
  exists summary. split; [exact H1|]. split; [exact H2|exact H3].
Defined.
