(* ===== verification/Format.v ===== *)
(** * Format: [lib/format.ts]

    Quota in the units of the display and back, durations, token counts, the colour
    of a text.  Dates are written by a library and numbers of a locale by the
    platform; both are parameters. *)
From Stdlib Require Import Floats.SpecFloat QArith Lqa.
From S2P Require Import Prelude JsString JsNumber JsFloat JsRounding JsValue JsRegex Currency.

#[local] Open Scope Z_scope.

Example round_ex :
  map nround [Number_of_string "2.5"; Number_of_string "-2.5"; Number_of_string "-0.4"; Number_of_string "0.49"; of_Z 7]
  = [of_Z 3; of_Z (-2); S754_zero true; zero; of_Z 7].
Proof. vm_compute. reflexivity. Qed.

Example rem_ex :
  (nrem (of_Z 125) (of_Z 60), nrem (Number_of_string "-5.5") (of_Z 2)) = (of_Z 5, Number_of_string "-1.5").
Proof. vm_compute. reflexivity. Qed.

Inductive TimeUnit := seconds | milliseconds.

#[export] Instance TimeUnit_eq_dec : EqDecision TimeUnit.
Proof. solve_decision. Defined.

Section format.
Variable NumberFormat : option jstring → NumberFormatOptions → num → jstring.
Variable store : option CurrencyConfig.
(** [new Intl.RelativeTimeFormat(locales, { numeric: 'always' }).format(n, unit)] *)
Variable RelativeTimeFormat : option jstring → num → jstring → jstring.
(** [dayjs(ms).format(pattern)] *)
Variable dayjs : num → jstring → jstring.
(** [Intl.NumberFormat(undefined, { style: 'percent', maximumFractionDigits: 2 })] *)
Variable PercentFormat : num → jstring.
(** [new Date(text).getTime()] *)
Variable date_time : jstring → num.

(** ** Numbers *)

Definition formatNumber (value : option num) (locales : option jstring) : jstring :=
  if missing value then "-"
  else NumberFormat locales
    {| currency := None; compactNotation := false; minimumFractionDigits := None; maximumFractionDigits := 2 |}
    (default nan value).

Definition formatCompactNumber (value : option num) (locales : option jstring) : jstring :=
  if missing value then "-"
  else NumberFormat locales
    {| currency := None; compactNotation := true; minimumFractionDigits := None; maximumFractionDigits := 1 |}
    (default nan value).

Definition formatPercent (value : option num) : jstring :=
  if missing value then "-" else PercentFormat (ndiv (default nan value) (of_Z 100)).

Definition formatCurrencyUSD (value : option num) : jstring := formatCurrencyFromUSD NumberFormat store value None.

(** ** Quota *)

Definition quota_options (large small : nat) (abbreviated : bool) : CurrencyFormatOptions :=
  {| digitsLarge := Some large; digitsSmall := Some small; abbreviate := Some abbreviated;
     minimumNonZero := None; compact := None; showSymbol := None; locale := None |}.

Definition formatQuota (quota : num) : jstring :=
  formatQuotaWithCurrency NumberFormat store (Some quota) (Some (quota_options 2 4 true)).

Definition formatLogQuota (quota : num) : jstring :=
  formatQuotaWithCurrency NumberFormat store (Some quota) (Some (quota_options 4 6 false)).

Definition parseQuotaFromDollars (amount : num) : num :=
  if negb (is_finite amount) then zero
  else
    let '(config, meta) := getCurrencyDisplay store in
    match meta with
    | Tokens_meta _ => nround amount
    | Currency_meta _ _ exchangeRate | Custom_meta _ exchangeRate =>
      let usdAmount := if nlt zero exchangeRate then ndiv amount exchangeRate else amount in
      nround (nmul usdAmount (quotaPerUnit config))
    end.

Definition quotaUnitsToDollars (units : num) : num :=
  let '(config, meta) := getCurrencyDisplay store in
  match meta with
  | Tokens_meta _ => units
  | Currency_meta _ _ exchangeRate | Custom_meta _ exchangeRate => nmul (ndiv units (quotaPerUnit config)) exchangeRate
  end.

(** ** Times *)

Definition no_timestamp (timestamp : option num) : bool :=
  match timestamp with
  | None => true
  | Some t => negb (num_truthy t) || neqb t (of_Z (-1)) || neqb t zero
  end.

Definition in_milliseconds (timestamp : num) (unit : TimeUnit) : num :=
  if bool_decide (unit = seconds) then nmul timestamp (of_Z 1000) else timestamp.

Definition formatTimestampToDate (timestamp : option num) (unit : TimeUnit) : jstring :=
  if no_timestamp timestamp then "-"
  else dayjs (in_milliseconds (default nan timestamp) unit) "YYYY-MM-DD HH:mm:ss".

Definition formatTimestamp (timestamp : num) : jstring :=
  if neqb timestamp (of_Z (-1)) then "Never" else formatTimestampToDate (Some timestamp) seconds.

(** [now] is the reading of [Date.now()]. *)
Definition formatTimestampRelative (now : num) (timestamp : option num) (unit : TimeUnit) (locales : option jstring) : jstring :=
  if no_timestamp timestamp then "-"
  else
    let ms := in_milliseconds (default nan timestamp) unit in
    let diffSeconds := nround (ndiv (nsub ms now) (of_Z 1000)) in
    let absSeconds := nabs diffSeconds in
    let format n unit := RelativeTimeFormat locales n unit in
    if nlt absSeconds (of_Z 60) then format diffSeconds "second"
    else if nlt absSeconds (of_Z 3600) then format (nround (ndiv diffSeconds (of_Z 60))) "minute"
    else if nlt absSeconds (of_Z 86400) then format (nround (ndiv diffSeconds (of_Z 3600))) "hour"
    else if nlt absSeconds (of_Z 2592000) then format (nround (ndiv diffSeconds (of_Z 86400))) "day"
    else if nlt absSeconds (of_Z 31536000) then format (nround (ndiv diffSeconds (of_Z 2592000))) "month"
    else format (nround (ndiv diffSeconds (of_Z 31536000))) "year".

Definition formatTimestampForInput (timestamp : num) : jstring :=
  if neqb timestamp (of_Z (-1)) then [] else dayjs (nmul timestamp (of_Z 1000)) "YYYY-MM-DDTHH:mm".

Definition parseTimestampFromInput (value : jstring) : num :=
  if negb (truthy value) then of_Z (-1) else nfloor (ndiv (date_time value) (of_Z 1000)).

Definition formatTokens (tokens : num) : jstring :=
  if neqb tokens zero then "-"
  else if nlt tokens (of_Z 1000) then Number_to_string tokens
  else if nlt tokens (of_Z 1000000) then to_fixed 1 (ndiv tokens (of_Z 1000)) ++ "K"
  else to_fixed 2 (ndiv tokens (of_Z 1000000)) ++ "M".

Definition formatUseTime (seconds : num) : jstring :=
  if nlt seconds (of_Z 60) then to_fixed 1 seconds ++ "s"
  else
    let minutes := nfloor (ndiv seconds (of_Z 60)) in
    let remainingSeconds := nrem seconds (of_Z 60) in
    Number_to_string minutes ++ "m " ++ to_fixed 0 remainingSeconds ++ "s".
End format.

(** ** The colour of a text *)

(** The conversion of the bitwise operators to 32 bits. *)
Definition int32 (z : Z) : Z := (z + 2147483648) mod 4294967296 - 2147483648.

(** The numbers of the loop are integers below 2^53, on which arithmetic is exact. *)
Definition hash_step (hash : Z) (c : N) : Z :=
  let hash := Z.of_N c + (int32 (Z.shiftl hash 5) - hash) in int32 hash.

Definition stringToColor (str : jstring) : jstring :=
  if negb (truthy str) then "gray"
  else
    let hash := fold_left hash_step str 0 in
    let hue := Z.abs (Z.rem hash 360) in
    let saturation := 65 + Z.rem (Z.abs hash) 10 in
    let lightness := 55 + Z.rem (Z.abs (Z.shiftr hash 8)) 10 in
    "hsl(" ++ Z_to_js hue ++ ", " ++ Z_to_js saturation ++ "%, " ++ Z_to_js lightness ++ "%)".

Example color_ex : stringToColor "gpt-4o" = "hsl(227, 72%, 56%)".
Proof. vm_compute. reflexivity. Qed.

(** ** Properties *)

(** A positive number neither very small nor very large. *)
Definition moderate (x : num) : Prop := positive_num x ∧ within 100 (num_value x).

Lemma positive_facts x : positive_num x → is_finite x = true ∧ nlt zero x = true.
Proof. by intros [(p & f & ->) _]. Qed.

(** One more product or quotient in a chain. *)
Lemma mul_step a x c : positive_num x → within a (num_value x) → a <= 800 → moderate c →
  positive_num (nmul x c) ∧ within (a + 101) (num_value (nmul x c)) ∧
  close 1 (num_value (nmul x c)) (num_value x * num_value c).
Proof.
  intros Px Wx Ha [Pc Wc]. pose proof (within_mult _ _ _ _ Wx Wc) as W.
  destruct (nmul_close x c Px Pc) as [P C]; [by eapply within_mono; [|exact W]; lia|].
  split_and!; [done| |done]. replace (a + 101) with (a + 100 + 1) by lia. by eapply within_close.
Qed.

Lemma div_step a x c : positive_num x → within a (num_value x) → a <= 800 → moderate c →
  positive_num (ndiv x c) ∧ within (a + 101) (num_value (ndiv x c)) ∧
  close 1 (num_value (ndiv x c)) (num_value x / num_value c).
Proof.
  intros Px Wx Ha [Pc Wc]. pose proof (within_div _ _ _ _ Wx Wc) as W.
  destruct (ndiv_close x c Px Pc) as [P C]; [by eapply within_mono; [|exact W]; lia|].
  split_and!; [done| |done]. replace (a + 101) with (a + 100 + 1) by lia. by eapply within_close.
Qed.

(** An integer divided, multiplied, and taken back: four roundings. *)
Lemma chain_close n q r :
  0 < n < 2 ^ 48 → moderate q → moderate r →
  let x := nmul (ndiv (of_Z n) q) r in
  positive_num x ∧ nround (nmul (ndiv x r) q) = of_Z n.
Proof.
  intros Hn Hq Hr x. destruct (of_Z_value n) as [Pn Vn]; [lia|].
  assert (within 48 (num_value (of_Z n))) as Wn.
  { unfold within. rewrite Vn, (two_Z 48) by lia. split; [|apply inject_le; lia].
    apply (Qle_trans _ (inject_Z 1)); [by vm_compute|apply inject_le; lia]. }
  destruct (div_step 48 _ q Pn Wn ltac:(lia) Hq) as (P1 & W1 & C1).
  destruct (mul_step _ _ r P1 W1 ltac:(lia) Hr) as (P2 & W2 & C2). fold x in P2, W2, C2.
  destruct (div_step _ _ r P2 W2 ltac:(lia) Hr) as (P3 & W3 & C3).
  destruct (mul_step _ _ q P3 W3 ltac:(lia) Hq) as (P4 & W4 & C4). split; [done|].
  pose proof (positive_value q (proj1 Hq)) as Vq. pose proof (positive_value r (proj1 Hr)) as Vr.
  destruct (close_integer (num_value (nmul (ndiv x r) q)) n Hn) as [L U]; [|apply nround_near; [done|lia|done|done]].
  assert (close 2 (num_value x) (inject_Z n / num_value q * num_value r)) as D2.
  { apply (close_trans 1 1 _ _ _ C2), close_scale; [done|]. by rewrite Vn in C1. }
  assert (close 3 (num_value (ndiv x r)) (inject_Z n / num_value q)) as D3.
  { apply (close_trans 1 2 _ _ _ C3). apply (close_scale _ _ _ (/ num_value r)) in D2; [|by apply Qinv_lt_0_compat].
    unfold Qdiv at 1. assert (inject_Z n / num_value q == inject_Z n / num_value q * num_value r * / num_value r)%Q as ->
      by (field; lra). exact D2. }
  apply (close_trans 1 3 _ _ _ C4). apply (close_scale _ _ _ (num_value q)) in D3; [|done].
  assert (inject_Z n == inject_Z n / num_value q * num_value q)%Q as E by (field; lra). by rewrite E at 1.
Qed.

(** A quota converted to the units of the display and read back is the quota,
    in tokens and in every currency, for quotas below 2^48: the roundings on the
    way are undone by the last one. *)
Lemma quota_roundtrip store units :
  0 <= units < 2 ^ 48 →
  moderate (quotaPerUnit (getCurrencyDisplay store).1) →
  (∀ rate, rate_of (getCurrencyDisplay store).2 = Some rate → moderate rate) →
  parseQuotaFromDollars store (quotaUnitsToDollars store (of_Z units)) = of_Z units.
Proof.
  intros Hn Hq Hr. unfold parseQuotaFromDollars, quotaUnitsToDollars.
  destruct (getCurrencyDisplay store) as [config meta]. cbn [fst snd] in *. set (q := quotaPerUnit config) in *.
  assert (∀ rate, moderate rate → let x := nmul (ndiv (of_Z units) q) rate in
    is_finite x = true ∧ nlt zero rate = true ∧ nround (nmul (ndiv x rate) q) = of_Z units) as H.
  { intros rate Hrate x. destruct (positive_facts rate) as [_ Hlt]; [by destruct Hrate|].
    destruct (Z.eq_dec units 0) as [->|Hne].
    - unfold x. destruct Hq as [[(p & f & ->) _] _], Hrate as [[(p' & f' & ->) _] _]. done.
    - destruct (chain_close units q rate) as [P E]; [lia|done..|]. split_and!; [by apply positive_facts|done|done]. }
  destruct meta as [symbol code rate|symbol rate|unit].
  1,2: destruct (H rate) as (Hf & Hlt & E); [by apply Hr|]; rewrite Hf, Hlt; exact E.
  destruct (Z.eq_dec units 0) as [->|Hne]; [done|].
  destruct (of_Z_value units) as [P V]; [lia|]. destruct (positive_facts _ P) as [-> _]. cbn [negb].
  apply nround_near; [done|lia|..]; rewrite V; lra.
Qed.

Example quota_roundtrip_witness :
  let store := Some {| displayInCurrency := true; quotaDisplayType := CNY; quotaPerUnit := of_Z 500000;
    usdExchangeRate := Number_of_string "7.3"; customCurrencySymbol := []; customCurrencyExchangeRate := of_Z 1 |} in
  quotaUnitsToDollars store (of_Z 1234567) = Number_of_string "18.0246782" ∧
  parseQuotaFromDollars store (quotaUnitsToDollars store (of_Z 1234567)) = of_Z 1234567.
Proof.
  intros store. split; [by vm_compute|].
  apply (quota_roundtrip store 1234567); [lia| |intros rate [= <-]];
    (split; [split; [eexists _, _; by vm_compute|by vm_compute]|by vm_compute]).
Defined.

(** The colour of a text: a hue below 360, a saturation of 65 to 74 and a
    lightness of 55 to 64 percent; the hash stays a 32-bit integer, and no step of
    it leaves the integers a number holds exactly. *)
Lemma stringToColor_bounds str :
  str ≠ [] → Forall (λ c, (c < 65536)%N) str →
  (∃ hue saturation lightness, 0 <= hue < 360 ∧ 65 <= saturation < 75 ∧ 55 <= lightness < 65 ∧
     stringToColor str =
       "hsl(" ++ Z_to_js hue ++ ", " ++ Z_to_js saturation ++ "%, " ++ Z_to_js lightness ++ "%)") ∧
  ∀ before c after, str = before ++ c :: after →
    let hash := fold_left hash_step before 0 in
    - 2 ^ 31 <= hash < 2 ^ 31 ∧ Z.abs (Z.of_N c + (int32 (Z.shiftl hash 5) - hash)) <= max_safe.
Proof.
  assert (∀ z, - 2 ^ 31 <= int32 z < 2 ^ 31) as Hint.
  { intros z. unfold int32. pose proof (Z.mod_pos_bound (z + 2147483648) 4294967296 ltac:(lia)). lia. }
  intros Hne Hu. split.
  - unfold stringToColor. apply truthy_spec in Hne as ->. cbn [negb].
    set (hash := fold_left hash_step str 0).
    pose proof (Z.rem_bound_abs hash 360 ltac:(lia)). pose proof (Z.rem_bound_pos (Z.abs hash) 10 ltac:(lia) ltac:(lia)).
    pose proof (Z.rem_bound_pos (Z.abs (Z.shiftr hash 8)) 10 ltac:(lia) ltac:(lia)).
    exists (Z.abs (Z.rem hash 360)), (65 + Z.rem (Z.abs hash) 10), (55 + Z.rem (Z.abs (Z.shiftr hash 8)) 10).
    split_and!; [lia..|reflexivity].
  - intros before c after -> hash.
    assert (- 2 ^ 31 <= hash < 2 ^ 31) as Hh.
    { unfold hash. destruct before as [|d before _] using rev_ind; [cbn; lia|]. rewrite fold_left_app. apply Hint. }
    apply Forall_app in Hu as [_ Hu]. apply Forall_cons in Hu as [Hc _]. specialize (Hint (Z.shiftl hash 5)).
    split; [done|]. unfold max_safe. lia.
Qed.

Example stringToColor_bounds_witness :
  ∃ hue saturation lightness, 0 <= hue < 360 ∧ 65 <= saturation < 75 ∧ 55 <= lightness < 65 ∧
    stringToColor "gpt-4o" =
      "hsl(" ++ Z_to_js hue ++ ", " ++ Z_to_js saturation ++ "%, " ++ Z_to_js lightness ++ "%)".
Proof. apply (proj1 (stringToColor_bounds "gpt-4o" ltac:(done) ltac:(by repeat constructor))). Defined.

(** The parts of a duration are rounded separately, so that sixty seconds are
    shown beside the minutes, and sixty seconds instead of a minute. *)
Lemma formatUseTime_sixty_seconds :
  formatUseTime (Number_of_string "119.6") = "1m 60s" ∧ formatUseTime (Number_of_string "59.96") = "60.0s".
Proof. split; vm_compute; reflexivity. Qed.

(** A count just below a million is shown as a thousand thousands. *)
Lemma tokens_thousand_thousands : formatTokens (of_Z 999950) = "1000.0K".
Proof. vm_compute. reflexivity. Qed.
