(* ===== verification/DashboardFlow.v ===== *)
(** * DashboardFlow: the flow chart of the dashboard

    [features/dashboard/lib/flow.ts], without the specification handed to the
    chart library ([FlowPanel]): the path of a row of usage through the stages,
    the filters and their options, the limit to the top nodes, the highlighting,
    and the graph of nodes and links.  The objects in the maps that the code
    mutates are the entries of ordered maps here; the collation and the number
    format of the browser and the colour schemes of the chart library are
    parameters.  The theorems are in [FlowTotals] and [FlowPanel]. *)
From S2P Require Import Prelude JsString JsNumber JsFloat JsRegex Currency.

(** ** Data ([features/dashboard/types.ts]) *)

Record FlowGroupRef := { gr_id : num; gr_name : jstring }.

Record FlowQuotaDataItem := {
  user_id : option num;
  username : option jstring;
  node_name : option jstring;
  use_group : option jstring;
  use_group_ref : option FlowGroupRef;
  token_id : option num;
  token_name : option jstring;
  channel_id : option num;
  channel_name : option jstring;
  model_name : option jstring;
  token_used : option num;
  count : option num;
  quota : option num;
}.

Inductive FlowMetric := metric_quota | metric_tokens | metric_requests.
Inductive FlowOverflowMode := mode_aggregate | mode_hide.
Inductive FlowRole := role_user | role_admin | role_root.
Inductive FlowNodeKind := kind_user | kind_node | kind_token | kind_group | kind_model | kind_channel.

#[export] Instance FlowMetric_eq_dec : EqDecision FlowMetric.
Proof. solve_decision. Defined.
#[export] Instance FlowOverflowMode_eq_dec : EqDecision FlowOverflowMode.
Proof. solve_decision. Defined.
#[export] Instance FlowRole_eq_dec : EqDecision FlowRole.
Proof. solve_decision. Defined.
#[export] Instance FlowNodeKind_eq_dec : EqDecision FlowNodeKind.
Proof. solve_decision. Defined.

(** A kind as a text. *)
Definition kind_text (k : FlowNodeKind) : jstring :=
  match k with
  | kind_user => "user" | kind_node => "node" | kind_token => "token"
  | kind_group => "group" | kind_model => "model" | kind_channel => "channel"
  end.

Record FlowNodeFilter := { nf_kind : FlowNodeKind; nf_id : jstring }.
Record FlowLinkSelection := { ls_source : jstring; ls_target : jstring }.

#[export] Instance FlowNodeFilter_eq_dec : EqDecision FlowNodeFilter.
Proof. solve_decision. Defined.
#[export] Instance FlowLinkSelection_eq_dec : EqDecision FlowLinkSelection.
Proof. solve_decision. Defined.

Record FlowBuildOptions := {
  fo_role : option FlowRole;
  selectedUsers : option (list jstring);
  selectedNodes : option (list FlowNodeFilter);
  activeNode : option FlowNodeFilter;
  activeLink : option FlowLinkSelection;
  fo_palette : option (list jstring);
  visibleStages : option (list FlowNodeKind);
  topNodeLimit : option num;
  overflowMode : option FlowOverflowMode;
  maskSensitive : option bool;
  fo_deletedTokenLabel : option (num → jstring);
  otherNodeLabel : option (FlowNodeKind → jstring);
}.

Record FlowMetrics := { m_quota : num; m_tokens : num; m_requests : num }.
Record FlowPathNode := { pn_id : jstring; pn_label : jstring; pn_kind : FlowNodeKind }.
Record PreparedFlowPath := { path : list FlowPathNode; metrics : FlowMetrics }.
Record FlowNodeRank := { rk_node : FlowPathNode; rk_value : num }.

Record DashboardFlowNode := {
  n_id : jstring;
  n_label : jstring;
  n_kind : FlowNodeKind;
  n_value : num;
  n_metrics : FlowMetrics;
  n_color : jstring;
  n_colorKey : jstring;
  n_highlighted : option bool;
  n_dimmed : option bool;
}.

Record DashboardFlowLink := {
  l_source : jstring;
  l_target : jstring;
  l_value : num;
  l_metrics : FlowMetrics;
  l_sourceLabel : jstring;
  l_targetLabel : jstring;
  l_color : jstring;
  l_linkColor : jstring;
  l_linkAlpha : num;
  l_hoverColor : jstring;
  l_colorKey : jstring;
  l_share : num;
  l_highlighted : option bool;
  l_dimmed : option bool;
}.

Record DashboardFlowGraph := { nodes : list DashboardFlowNode; links : list DashboardFlowLink }.

Record FlowUserFilterOption := {
  uo_value : jstring; uo_label : jstring; uo_valueLabel : jstring; uo_valueRaw : num; uo_color : jstring
}.

Record FlowNodeFilterOption := {
  no_kind : FlowNodeKind; no_value : jstring; no_label : jstring; no_valueLabel : jstring; no_valueRaw : num;
  no_color : jstring
}.

Record FlowFilterOptions := { users : list FlowUserFilterOption; node_options : list FlowNodeFilterOption }.
Record ProcessedFlowData := { summary : FlowMetrics; flow : DashboardFlowGraph; filterOptions : FlowFilterOptions }.

Definition DEFAULT_FLOW_CHART_COLOR : jstring := "#1664FF".

Definition OTHER_FLOW_NODE_IDS (k : FlowNodeKind) : jstring := kind_text k ++ ":__other__".

Definition DEFAULT_OTHER_FLOW_NODE_LABELS (k : FlowNodeKind) : jstring := "Other " ++ kind_text k ++ "s".

Definition SENSITIVE_FLOW_KINDS : list FlowNodeKind := [kind_user; kind_node; kind_token; kind_group; kind_channel].
Definition FLOW_NODE_KINDS : list FlowNodeKind := [kind_user; kind_node; kind_token; kind_group; kind_model; kind_channel].
Definition OTHER_FLOW_NODE_ID_SET : list jstring := map OTHER_FLOW_NODE_IDS FLOW_NODE_KINDS.

(** ** The path of a row *)

(** [numberValue]: the missing values [undefined] and [null] both give zero. *)
Definition numberValue (value : option num) : num :=
  match value with Some n => if is_finite n then n else zero | None => zero end.

Definition rowMetrics (row : FlowQuotaDataItem) : FlowMetrics :=
  {| m_quota := numberValue (quota row); m_tokens := numberValue (token_used row); m_requests := numberValue (count row) |}.

Definition metricValue (metrics : FlowMetrics) (metric : FlowMetric) : num :=
  match metric with
  | metric_requests => m_requests metrics
  | metric_tokens => m_tokens metrics
  | metric_quota => m_quota metrics
  end.

Definition userNode (row : FlowQuotaDataItem) : FlowPathNode :=
  let userID := numberValue (user_id row) in
  {| pn_id := if nlt zero userID then "user:" ++ Number_to_string userID else "user:" ++ ostr_or (username row) "unknown";
     pn_label := ostr_or (username row) (if nlt zero userID then "user-" ++ Number_to_string userID else "Unknown User");
     pn_kind := kind_user |}.

Definition nodeNameNode (row : FlowQuotaDataItem) : FlowPathNode :=
  let nodeName := ostr_or (node_name row) "default-node" in
  {| pn_id := "node:" ++ nodeName; pn_label := nodeName; pn_kind := kind_node |}.

(** [ctx.deletedTokenLabel]: the labeler is optional. *)
Definition deletedTokenLabel (tokenID : num) (ctx : option (num → jstring)) : jstring :=
  if nle tokenID zero then "Unknown Token"
  else match ctx with Some labeler => labeler tokenID | None => "token-" ++ Number_to_string tokenID end.

Definition tokenNode (row : FlowQuotaDataItem) (ctx : option (num → jstring)) : FlowPathNode :=
  let tokenID := numberValue (token_id row) in
  {| pn_id := if nlt zero tokenID then "token:" ++ Number_to_string tokenID else "token:" ++ ostr_or (token_name row) "unknown";
     pn_label := ostr_or (token_name row) (deletedTokenLabel tokenID ctx);
     pn_kind := kind_token |}.

Definition groupNode (row : FlowQuotaDataItem) : FlowPathNode :=
  let useGroup := ostr_or (use_group row) "unknown" in
  {| pn_id := "group:" ++ useGroup; pn_label := ostr_or (gr_name <$> use_group_ref row) useGroup; pn_kind := kind_group |}.

Definition modelNode (row : FlowQuotaDataItem) : FlowPathNode :=
  let model := ostr_or (model_name row) "unknown" in
  {| pn_id := "model:" ++ model; pn_label := ostr_or (model_name row) "Unknown Model"; pn_kind := kind_model |}.

Definition channelNode (row : FlowQuotaDataItem) : FlowPathNode :=
  let channelID := numberValue (channel_id row) in
  {| pn_id := if nlt zero channelID then "channel:" ++ Number_to_string channelID
           else "channel:" ++ ostr_or (channel_name row) "unknown";
     pn_label := ostr_or (channel_name row) (if nlt zero channelID then "channel-" ++ Number_to_string channelID else "Unknown");
     pn_kind := kind_channel |}.

Definition NODE_BUILDERS (stage : FlowNodeKind) (row : FlowQuotaDataItem) (ctx : option (num → jstring)) : FlowPathNode :=
  match stage with
  | kind_user => userNode row
  | kind_node => nodeNameNode row
  | kind_token => tokenNode row ctx
  | kind_group => groupNode row
  | kind_model => modelNode row
  | kind_channel => channelNode row
  end.

(** [ROLE_FLOW_STAGES] *)
Definition getFlowStages (role : FlowRole) : list FlowNodeKind :=
  match role with
  | role_root => [kind_user; kind_node; kind_token; kind_group; kind_model; kind_channel]
  | role_admin => [kind_user; kind_group; kind_model; kind_channel]
  | role_user => [kind_token; kind_group; kind_model]
  end.

Definition MIN_FLOW_STAGES : nat := 2.

Definition resolveVisibleStages (role : FlowRole) (visibleStages : option (list FlowNodeKind)) : list FlowNodeKind :=
  let stages := getFlowStages role in
  match visibleStages with
  | None => stages
  | Some visible =>
    let filtered := filter (λ stage, has stage visible = true) stages in
    if (MIN_FLOW_STAGES <=? length filtered)%nat then filtered else stages
  end.

Definition flowPathForStages (row : FlowQuotaDataItem) (stages : list FlowNodeKind) (ctx : option (num → jstring))
  : list FlowPathNode :=
  map (λ stage, NODE_BUILDERS stage row ctx) stages.

(** ** Colours *)

(** An entry of the colour schemes of the chart library; a colour that is not a text
    (a gradient) is [None]. *)
Record ColorScheme := { maxDomainLength : option nat; scheme : list (option jstring) }.

Section colors.
Variable vchartDefaultDataScheme : list ColorScheme.

(** [getDashboardChartColors] ([lib/charts.ts]); the table of the library is not empty. *)
Definition getDashboardChartColors (domainLength : nat) : list jstring :=
  let fits (item : ColorScheme) :=
    match maxDomainLength item with Some (S m) => (domainLength <=? S m)%nat | _ => true end in
  match nullish (Some <$> head (filter (λ item, fits item = true) vchartDefaultDataScheme)) (last vchartDefaultDataScheme) with
  | Some item => omap (λ color, color) (scheme item)
  | None => []
  end.

(** [palette && palette.length > 0] *)
Definition given_palette (palette : option (list jstring)) : option (list jstring) :=
  match palette with Some (_ :: _) => palette | _ => None end.

Definition colorAt (index : nat) (palette : option (list jstring)) : jstring :=
  let colors := nullish (given_palette palette) (getDashboardChartColors (index + 1)) in
  match colors with
  | [] => DEFAULT_FLOW_CHART_COLOR
  | _ => nullish (colors !! (index mod length colors)%nat) DEFAULT_FLOW_CHART_COLOR
  end.

Definition colorPalette (colorCount : nat) (palette : option (list jstring)) : list jstring :=
  match given_palette palette with
  | Some colors => colors
  | None => match getDashboardChartColors colorCount with [] => [DEFAULT_FLOW_CHART_COLOR] | colors => colors end
  end.

Definition stableColorMap (keys : list jstring) (palette : option (list jstring)) : list (jstring * jstring) :=
  let uniqueKeys := new_set keys in
  let colors := colorPalette (length uniqueKeys) palette in
  fold_left (λ m '(index, key), oset key (colorAt index (Some colors)) m) (imap pair uniqueKeys) [].
End colors.

Record DisplayColor := { dc_color : jstring; dc_alpha : num }.

(** [/^[0-9a-f]{6}$/i] *)
Definition is_hex (c : N) : bool := match radix_digit c with Some d => (d <? 16)%N | None => false end.
Definition hex_re : regex := RSeqs (RBol :: replicate 6 (RChar is_hex) ++ [REol]).

Definition alphaColor (color : jstring) (alpha : num) : DisplayColor :=
  let normalized := trim color in
  let hex := if starts_with "#" normalized then drop 1 normalized else normalized in
  if negb (test hex_re hex) then {| dc_color := normalized; dc_alpha := alpha |}
  else
    let value := Z.of_N (default 0%N (parse_radix 16 0 hex)) in
    let red := Z.land (Z.shiftr value 16) 255 in
    let green := Z.land (Z.shiftr value 8) 255 in
    let blue := Z.land value 255 in
    {| dc_color := "rgba(" ++ Z_to_js red ++ ", " ++ Z_to_js green ++ ", " ++ Z_to_js blue ++ ", " ++ to_fixed 2 alpha ++ ")";
       dc_alpha := of_Z 1 |}.

(** ** Filters *)

Definition filterRows (rows : list FlowQuotaDataItem) (selectedUsers : option (list jstring)) : list FlowQuotaDataItem :=
  let selectedUsers := new_set (default [] selectedUsers) in
  if (length selectedUsers =? 0)%nat then rows
  else filter (λ row, has (pn_id (userNode row)) selectedUsers = true) rows.

(** The separator is the character with code 0. *)
Definition nodeFilterKey (filter : FlowNodeFilter) : jstring := kind_text (nf_kind filter) ++ [0%N] ++ nf_id filter.

Definition NodeFilters := list (FlowNodeKind * list jstring).

Definition normalizeSelectedNodeFilters (selectedNodes : option (list FlowNodeFilter)) (stages : list FlowNodeKind)
  : NodeFilters :=
  fold_left (λ filters filter,
    if negb (has (nf_kind filter) stages) then filters
    else oset (nf_kind filter) (set_add (nf_id filter) (nullish (oget (nf_kind filter) filters) [])) filters)
  (default [] selectedNodes) [].

(** The ids of a path by kind. *)
Definition pathNodesByKind (path : list FlowPathNode) : NodeFilters :=
  fold_left (λ m node, oset (pn_kind node) (set_add (pn_id node) (nullish (oget (pn_kind node) m) [])) m) path [].

Definition pathMatchesNodeFilters (path : list FlowPathNode) (filters : NodeFilters) : bool :=
  match filters with
  | [] => true
  | _ =>
    let byKind := pathNodesByKind path in
    forallb (λ '(pn_kind, selectedIds),
      match oget pn_kind byKind with
      | None => false
      | Some pathIds => existsb (λ pn_id, has pn_id pathIds) selectedIds
      end) filters
  end.

Definition filterRowsByNodes (rows : list FlowQuotaDataItem) (selectedNodes : option (list FlowNodeFilter))
  (stages : list FlowNodeKind) (ctx : option (num → jstring)) : list FlowQuotaDataItem :=
  let filters := normalizeSelectedNodeFilters selectedNodes stages in
  if (length filters =? 0)%nat then rows
  else filter (λ row, pathMatchesNodeFilters (flowPathForStages row stages ctx) filters = true) rows.

Definition selectedNodeFiltersExceptKind (selectedNodes : option (list FlowNodeFilter)) (pn_kind : FlowNodeKind)
  : option (list FlowNodeFilter) :=
  match filter (λ filter, nf_kind filter ≠ pn_kind) (default [] selectedNodes) with
  | [] => None
  | filtered => Some filtered
  end.

(** ** The nodes and links of the graph *)

Definition no_metrics : FlowMetrics := {| m_quota := zero; m_tokens := zero; m_requests := zero |}.

(** [previous.requests += metrics.requests], and the quota and the tokens. *)
Definition add_metrics (a b : FlowMetrics) : FlowMetrics :=
  {| m_quota := nadd (m_quota a) (m_quota b); m_tokens := nadd (m_tokens a) (m_tokens b);
     m_requests := nadd (m_requests a) (m_requests b) |}.

Definition NodeMap := list (jstring * DashboardFlowNode).
Definition LinkMap := list (jstring * DashboardFlowLink).

Definition addNode (map : NodeMap) (pathNode : FlowPathNode) (metrics : FlowMetrics) (metric : FlowMetric)
  (color colorKey : jstring) : NodeMap :=
  let previous := nullish (oget (pn_id pathNode) map)
    {| n_id := pn_id pathNode; n_label := pn_label pathNode; n_kind := pn_kind pathNode; n_value := zero;
       n_metrics := no_metrics; n_color := color; n_colorKey := colorKey;
       n_highlighted := None; n_dimmed := None |} in
  oset (pn_id pathNode)
    {| n_id := n_id previous; n_label := n_label previous; n_kind := n_kind previous;
       n_value := nadd (n_value previous) (metricValue metrics metric);
       n_metrics := add_metrics (n_metrics previous) metrics; n_color := n_color previous; n_colorKey := n_colorKey previous;
       n_highlighted := n_highlighted previous; n_dimmed := n_dimmed previous |} map.

(** The separator is the character with code 0. *)
Definition pathLinkKey (source target : FlowPathNode) : jstring := pn_id source ++ [0%N] ++ pn_id target.

Definition linkStableKey (link : DashboardFlowLink) : jstring := l_source link ++ [0%N] ++ l_target link.

Definition addLink (map : LinkMap) (source target : FlowPathNode) (metrics : FlowMetrics) (metric : FlowMetric)
  (color colorKey : jstring) : LinkMap :=
  let key := pathLinkKey source target in
  let previous := nullish (oget key map)
    {| l_source := pn_id source; l_target := pn_id target; l_value := zero; l_metrics := no_metrics;
       l_sourceLabel := pn_label source; l_targetLabel := pn_label target; l_color := color; l_linkColor := color;
       l_linkAlpha := of_Z 1; l_hoverColor := color; l_colorKey := colorKey; l_share := zero;
       l_highlighted := None; l_dimmed := None |} in
  oset key
    {| l_source := l_source previous; l_target := l_target previous;
       l_value := nadd (l_value previous) (metricValue metrics metric);
       l_metrics := add_metrics (l_metrics previous) metrics;
       l_sourceLabel := l_sourceLabel previous; l_targetLabel := l_targetLabel previous; l_color := l_color previous;
       l_linkColor := l_linkColor previous; l_linkAlpha := l_linkAlpha previous; l_hoverColor := l_hoverColor previous;
       l_colorKey := l_colorKey previous; l_share := l_share previous;
       l_highlighted := l_highlighted previous; l_dimmed := l_dimmed previous |} map.

Definition buildSummary (rows : list FlowQuotaDataItem) : FlowMetrics :=
  fold_left (λ summary row, add_metrics summary (rowMetrics row)) rows no_metrics.

(** [a || b] for comparisons of texts and indices. *)
Definition or_else (c next : Z) : Z := if (c =? 0)%Z then next else c.

(** The links [source -> target] of a path. *)
Definition steps (path : list FlowPathNode) : list (FlowPathNode * FlowPathNode) := zip path (tail path).

(** *** The limit to the top nodes *)

Definition normalizeTopNodeLimit (limit : option num) : option num :=
  match limit with
  | None => None
  | Some limit => let parsed := nfloor limit in if is_finite parsed && nlt zero parsed then Some parsed else None
  end.

Definition otherFlowNode (kind : FlowNodeKind) (labeler : option (FlowNodeKind → jstring)) : FlowPathNode :=
  {| pn_id := OTHER_FLOW_NODE_IDS kind;
     pn_label := match labeler with Some labeler => labeler kind | None => DEFAULT_OTHER_FLOW_NODE_LABELS kind end;
     pn_kind := kind |}.

Definition StageTotals := list (jstring * FlowNodeRank).

(** The inner loop of [buildTopNodeSets]: one node of the path of a row. *)
Definition add_rank (value : num) (totals : list (FlowNodeKind * StageTotals)) (node : FlowPathNode)
  : list (FlowNodeKind * StageTotals) :=
  match oget (pn_kind node) totals with
  | None => totals
  | Some stageTotals =>
    let current := nullish (oget (pn_id node) stageTotals) {| rk_node := node; rk_value := zero |} in
    oset (pn_kind node)
      (oset (pn_id node) {| rk_node := rk_node current; rk_value := nadd (rk_value current) value |} stageTotals) totals
  end.

Definition isTopFlowNode (node : FlowPathNode) (topNodeSets : option NodeFilters) : bool :=
  match topNodeSets with
  | None => true
  | Some sets => match oget (pn_kind node) sets with None => true | Some topNodes => has (pn_id node) topNodes end
  end.

Definition applyTopNodeLimit (path : list FlowPathNode) (topNodeSets : option NodeFilters) (mode : FlowOverflowMode)
  (labeler : option (FlowNodeKind → jstring)) : option (list FlowPathNode) :=
  match topNodeSets with
  | None => Some path
  | Some _ =>
    if negb (existsb (λ node, negb (isTopFlowNode node topNodeSets)) path) then Some path
    else if bool_decide (mode = mode_hide) then None
    else Some (map (λ node, if isTopFlowNode node topNodeSets then node else otherFlowNode (pn_kind node) labeler) path)
  end.

(** *** Highlighting *)

Definition pathContainsFlowNode (path : list FlowPathNode) (filter : FlowNodeFilter) : bool :=
  existsb (λ node, bool_decide (pn_kind node = nf_kind filter) && bool_decide (pn_id node = nf_id filter)) path.

Definition pathContainsFlowLink (path : list FlowPathNode) (link : FlowLinkSelection) : bool :=
  existsb (λ '(source, target), bool_decide (pn_id source = ls_source link) && bool_decide (pn_id target = ls_target link))
    (steps path).

Record FlowHighlightSets := { hs_nodes : list jstring; hs_links : list jstring }.

(** [matchesPath] *)
Definition matchesPath (activeNode : option FlowNodeFilter) (activeLink : option FlowLinkSelection)
  (path : list FlowPathNode) : bool :=
  match activeLink with
  | Some link => pathContainsFlowLink path link
  | None => match activeNode with Some node => pathContainsFlowNode path node | None => false end
  end.

Definition buildFlowHighlightSets (preparedPaths : list PreparedFlowPath) (activeNode : option FlowNodeFilter)
  (activeLink : option FlowLinkSelection) (stages : list FlowNodeKind) : option FlowHighlightSets :=
  let nodeActive := match activeNode with Some node => has (nf_kind node) stages | None => false end in
  if negb nodeActive && negb (bool_decide (is_Some activeLink)) then None
  else
    let sets := fold_left (λ sets prepared,
      if negb (matchesPath activeNode activeLink (path prepared)) then sets
      else {| hs_nodes := fold_left (λ s node, set_add (pn_id node) s) (path prepared) (hs_nodes sets);
              hs_links := fold_left (λ s '(source, target), set_add (pathLinkKey source target) s)
                            (steps (path prepared)) (hs_links sets) |})
      preparedPaths {| hs_nodes := []; hs_links := [] |} in
    if (length (hs_nodes sets) =? 0)%nat then None else Some sets.

Definition set_node_highlight (highlighted : bool) (n : DashboardFlowNode) : DashboardFlowNode :=
  {| n_id := n_id n; n_label := n_label n; n_kind := n_kind n; n_value := n_value n; n_metrics := n_metrics n;
     n_color := n_color n; n_colorKey := n_colorKey n;
     n_highlighted := Some highlighted; n_dimmed := Some (negb highlighted) |}.

Definition set_link_highlight (highlighted : bool) (l : DashboardFlowLink) : DashboardFlowLink :=
  {| l_source := l_source l; l_target := l_target l; l_value := l_value l; l_metrics := l_metrics l;
     l_sourceLabel := l_sourceLabel l; l_targetLabel := l_targetLabel l; l_color := l_color l; l_linkColor := l_linkColor l;
     l_linkAlpha := l_linkAlpha l; l_hoverColor := l_hoverColor l; l_colorKey := l_colorKey l; l_share := l_share l;
     l_highlighted := Some highlighted; l_dimmed := Some (negb highlighted) |}.

(** The loops over the values of both maps. *)
Definition applyFlowHighlights (nodes : NodeMap) (links : LinkMap) (highlightSets : option FlowHighlightSets)
  : NodeMap * LinkMap :=
  match highlightSets with
  | None => (nodes, links)
  | Some sets =>
    (map (λ '(k, n), (k, set_node_highlight (has (n_id n) (hs_nodes sets)) n)) nodes,
     map (λ '(k, l), (k, set_link_highlight (has (linkStableKey l) (hs_links sets)) l)) links)
  end.

(** *** Masking *)

(** Four bullets. *)
Definition FLOW_MASK_TEXT : jstring := "••••".

Definition maskFlowLabel (label : jstring) : jstring := match label with [] => label | _ => FLOW_MASK_TEXT end.

Definition set_label (label : jstring) (n : DashboardFlowNode) : DashboardFlowNode :=
  {| n_id := n_id n; n_label := label; n_kind := n_kind n; n_value := n_value n; n_metrics := n_metrics n;
     n_color := n_color n; n_colorKey := n_colorKey n; n_highlighted := n_highlighted n; n_dimmed := n_dimmed n |}.

Definition set_link_labels (source target : jstring) (l : DashboardFlowLink) : DashboardFlowLink :=
  {| l_source := l_source l; l_target := l_target l; l_value := l_value l; l_metrics := l_metrics l;
     l_sourceLabel := source; l_targetLabel := target; l_color := l_color l; l_linkColor := l_linkColor l;
     l_linkAlpha := l_linkAlpha l; l_hoverColor := l_hoverColor l; l_colorKey := l_colorKey l; l_share := l_share l;
     l_highlighted := l_highlighted l; l_dimmed := l_dimmed l |}.

(** The nodes whose labels are masked. *)
Definition is_masked (n : DashboardFlowNode) : bool :=
  has (n_kind n) SENSITIVE_FLOW_KINDS && negb (has (n_id n) OTHER_FLOW_NODE_ID_SET).

Definition maskFlowGraphLabels (nodes : NodeMap) (links : LinkMap) : NodeMap * LinkMap :=
  let masked := map (λ '(k, n), (k, if is_masked n then set_label (maskFlowLabel (n_label n)) n else n)) nodes in
  let maskedById := fold_left (λ m '(k, n), if is_masked n then oset (n_id n) (maskFlowLabel (n_label n)) m else m) nodes [] in
  (masked,
   if (length maskedById =? 0)%nat then links
   else map (λ '(k, l), (k, set_link_labels (nullish (oget (l_source l) maskedById) (l_sourceLabel l))
                               (nullish (oget (l_target l) maskedById) (l_targetLabel l)) l)) links).

(** ** The graph and the options *)

Section flow.
Variable vchartDefaultDataScheme : list ColorScheme.
(** [a.localeCompare(b)] *)
Variable localeCompare : jstring → jstring → Z.
(** [Intl.NumberFormat] *)
Variable NumberFormat : option jstring → NumberFormatOptions → num → jstring.

Definition rank_order (a b : FlowNodeRank) : Z :=
  or_compare (nsub (rk_value b) (rk_value a))
    (or_else (localeCompare (pn_label (rk_node a)) (pn_label (rk_node b)))
       (localeCompare (pn_id (rk_node a)) (pn_id (rk_node b)))).

(** [buildTopNodeSets]: the totals of the nodes of every stage. *)
Definition stage_totals (rows : list FlowQuotaDataItem) (metric : FlowMetric) (stages : list FlowNodeKind)
  (ctx : option (num → jstring)) : list (FlowNodeKind * StageTotals) :=
  fold_left (λ totals row,
    let value := metricValue (rowMetrics row) metric in
    fold_left (add_rank value) (flowPathForStages row stages ctx) totals)
  rows (fold_left (λ totals stage, oset stage [] totals) stages []).

Definition buildTopNodeSets (rows : list FlowQuotaDataItem) (metric : FlowMetric) (stages : list FlowNodeKind)
  (limit : option num) (ctx : option (num → jstring)) : option NodeFilters :=
  match limit with
  | None => None
  | Some limit =>
    if negb (num_truthy limit) then None
    else Some (fold_left (λ topSets '(kind, stageTotals),
      let topIds := map (λ rank, pn_id (rk_node rank))
                      (slice 0 (default 0%Z (floor_Z limit)) (sort_by rank_order (ovalues stageTotals))) in
      oset kind (new_set topIds) topSets) (stage_totals rows metric stages ctx) [])
  end.

(** [assignLinkDisplayColors]: the order of the links of one source, and the colours
    that its loop assigns.  A link is identified by its key. *)
Definition source_order (a b : DashboardFlowLink) : Z :=
  or_compare (nsub (l_value b) (l_value a)) (localeCompare (linkStableKey a) (linkStableKey b)).

Definition link_alpha (count index : nat) : num :=
  if (count =? 1)%nat then Number_of_string "0.34"
  else nadd (Number_of_string "0.24")
         (nmul (ndiv (of_Z (Z.of_nat index)) (of_Z (Z.max (Z.of_nat count - 1) 1))) (Number_of_string "0.2")).

Definition links_by_source (links : list DashboardFlowLink) : list (jstring * list DashboardFlowLink) :=
  fold_left (λ m link, oset (l_source link) (nullish (oget (l_source link) m) [] ++ [link]) m) links [].

Definition group_colors (sourceLinks : list DashboardFlowLink) : list (jstring * DisplayColor) :=
  let sortedLinks := sort_by source_order sourceLinks in
  imap (λ index link, (linkStableKey link, alphaColor (l_color link) (link_alpha (length sortedLinks) index))) sortedLinks.

Definition set_display_color (assigned : list (jstring * DisplayColor)) (l : DashboardFlowLink) : DashboardFlowLink :=
  match oget (linkStableKey l) assigned with
  | None => l
  | Some displayColor =>
    {| l_source := l_source l; l_target := l_target l; l_value := l_value l; l_metrics := l_metrics l;
       l_sourceLabel := l_sourceLabel l; l_targetLabel := l_targetLabel l; l_color := l_color l;
       l_linkColor := dc_color displayColor; l_linkAlpha := dc_alpha displayColor; l_hoverColor := l_color l;
       l_colorKey := l_colorKey l; l_share := l_share l; l_highlighted := l_highlighted l; l_dimmed := l_dimmed l |}
  end.

Definition assignLinkDisplayColors (links : list DashboardFlowLink) : list DashboardFlowLink :=
  let assigned := mbind group_colors (ovalues (links_by_source links)) in
  map (set_display_color assigned) links.

Definition byValueThenLabel (a b : DashboardFlowNode) : Z :=
  or_compare (nsub (n_value b) (n_value a)) (localeCompare (n_label a) (n_label b)).

(** The first loop of [buildFlowGraph]. *)
Definition preparePaths (rows : list FlowQuotaDataItem) (stages : list FlowNodeKind) (ctx : option (num → jstring))
  (topNodeSets : option NodeFilters) (overflowMode : FlowOverflowMode) (labeler : option (FlowNodeKind → jstring))
  : list PreparedFlowPath :=
  omap (λ row,
    path ← applyTopNodeLimit (flowPathForStages row stages ctx) topNodeSets overflowMode labeler;
    Some {| path := path; metrics := rowMetrics row |}) rows.

(** [prepared.path[0]?.id], without the absent and the empty ones. *)
Definition root_ids (preparedPaths : list PreparedFlowPath) : list jstring :=
  omap (λ prepared, match head (path prepared) with
                    | Some root => if truthy (pn_id root) then Some (pn_id root) else None
                    | None => None
                    end) preparedPaths.

(** The second loop: the nodes and the links of one path. *)
Definition add_path (metric : FlowMetric) (colors : list (jstring * jstring)) (palette : option (list jstring))
  (graph : NodeMap * LinkMap) (prepared : PreparedFlowPath) : NodeMap * LinkMap :=
  match head (path prepared) with
  | None => graph
  | Some root =>
    let color := nullish (oget (pn_id root) colors) (colorAt vchartDefaultDataScheme 0 palette) in
    (fold_left (λ nodes node, addNode nodes node (metrics prepared) metric color (pn_id root)) (path prepared) graph.1,
     fold_left (λ links '(source, target), addLink links source target (metrics prepared) metric color (pn_id root))
       (steps (path prepared)) graph.2)
  end.

Definition set_share (total : num) (l : DashboardFlowLink) : DashboardFlowLink :=
  {| l_source := l_source l; l_target := l_target l; l_value := l_value l; l_metrics := l_metrics l;
     l_sourceLabel := l_sourceLabel l; l_targetLabel := l_targetLabel l; l_color := l_color l; l_linkColor := l_linkColor l;
     l_linkAlpha := l_linkAlpha l; l_hoverColor := l_hoverColor l; l_colorKey := l_colorKey l;
     l_share := if nlt zero total then ndiv (l_value l) total else zero;
     l_highlighted := l_highlighted l; l_dimmed := l_dimmed l |}.

(** The order of the links of the graph. *)
Definition link_order (a b : DashboardFlowLink) : Z :=
  or_else (localeCompare (l_source a) (l_source b)) (localeCompare (l_target a) (l_target b)).

(** The total of the links that leave the first column. *)
Definition first_step_total (preparedPaths : list PreparedFlowPath) (flowLinks : list DashboardFlowLink) : num :=
  let firstStepSources := new_set (root_ids preparedPaths) in
  fold_left (λ sum link, nadd sum (l_value link)) (filter (λ link, has (l_source link) firstStepSources = true) flowLinks) zero.

(** The graph of the prepared paths: the part of [buildFlowGraph] after the first loop. *)
Definition graph_of_paths (preparedPaths : list PreparedFlowPath) (metric : FlowMetric) (stages : list FlowNodeKind)
  (palette : option (list jstring)) (options : FlowBuildOptions) : DashboardFlowGraph :=
  let colors := stableColorMap vchartDefaultDataScheme (sort_by localeCompare (root_ids preparedPaths)) palette in
  let graph := fold_left (add_path metric colors palette) preparedPaths ([], []) in
  let graph := if default false (maskSensitive options) then maskFlowGraphLabels graph.1 graph.2 else graph in
  let graph := applyFlowHighlights graph.1 graph.2
                 (buildFlowHighlightSets preparedPaths (activeNode options) (activeLink options) stages) in
  let flowLinks := sort_by link_order (ovalues graph.2) in
  let total := first_step_total preparedPaths flowLinks in
  {| nodes := sort_by byValueThenLabel (ovalues graph.1);
     links := assignLinkDisplayColors (map (set_share total) flowLinks) |}.

Definition buildFlowGraph (rows : list FlowQuotaDataItem) (metric : FlowMetric) (role : FlowRole)
  (options : FlowBuildOptions) : DashboardFlowGraph :=
  let stages := resolveVisibleStages role (visibleStages options) in
  let ctx := fo_deletedTokenLabel options in
  let topNodeSets := buildTopNodeSets rows metric stages (normalizeTopNodeLimit (topNodeLimit options)) ctx in
  let overflowMode := nullish (overflowMode options) mode_aggregate in
  let preparedPaths := preparePaths rows stages ctx topNodeSets overflowMode (otherNodeLabel options) in
  graph_of_paths preparedPaths metric stages (fo_palette options) options.

Definition formatNumber (value : num) : jstring :=
  NumberFormat None {| currency := None; compactNotation := false; minimumFractionDigits := None; maximumFractionDigits := 0 |} value.

(** *** The options of the filters *)

Record UserTotal := { ut_label : jstring; ut_value : num; ut_color : jstring }.

Definition add_user (metric : FlowMetric) (colors : list (jstring * jstring)) (palette : option (list jstring))
  (users : list (jstring * UserTotal)) (row : FlowQuotaDataItem) : list (jstring * UserTotal) :=
  let user := userNode row in
  if negb (num_truthy (default zero (user_id row))) && negb (otruthy (username row)) then users
  else
    let value := metricValue (rowMetrics row) metric in
    let current := nullish (oget (pn_id user) users)
      {| ut_label := pn_label user; ut_value := zero;
         ut_color := nullish (oget (pn_id user) colors) (colorAt vchartDefaultDataScheme 0 palette) |} in
    oset (pn_id user) {| ut_label := ut_label current; ut_value := nadd (ut_value current) value; ut_color := ut_color current |}
      users.

Definition user_option_order (a b : FlowUserFilterOption) : Z :=
  or_compare (nsub (uo_valueRaw b) (uo_valueRaw a)) (localeCompare (uo_label a) (uo_label b)).

Definition buildUserFilterOptions (rows : list FlowQuotaDataItem) (metric : FlowMetric) (palette : option (list jstring))
  : list FlowUserFilterOption :=
  let colors := stableColorMap vchartDefaultDataScheme (sort_by localeCompare (map (λ row, pn_id (userNode row)) rows)) palette in
  let users := fold_left (add_user metric colors palette) rows [] in
  sort_by user_option_order
    (map (λ '(value, user), {| uo_value := value; uo_label := ut_label user; uo_valueLabel := formatNumber (ut_value user);
                               uo_valueRaw := ut_value user; uo_color := ut_color user |}) users).

(** The totals of the nodes of a stage, over the rows the filters of the other stages leave. *)
Definition add_option (metric : FlowMetric) (stage : FlowNodeKind) (ctx : option (num → jstring))
  (totals : list (jstring * FlowNodeRank)) (row : FlowQuotaDataItem) : list (jstring * FlowNodeRank) :=
  let value := metricValue (rowMetrics row) metric in
  let node := NODE_BUILDERS stage row ctx in
  let key := nodeFilterKey {| nf_kind := pn_kind node; nf_id := pn_id node |} in
  let current := nullish (oget key totals) {| rk_node := node; rk_value := zero |} in
  oset key {| rk_node := rk_node current; rk_value := nadd (rk_value current) value |} totals.

Definition stage_options (rows : list FlowQuotaDataItem) (metric : FlowMetric) (stages : list FlowNodeKind)
  (colors : list (jstring * jstring)) (palette : option (list jstring)) (ctx : option (num → jstring))
  (selectedNodes : option (list FlowNodeFilter)) (stage : FlowNodeKind) : list FlowNodeFilterOption :=
  let candidateRows := filterRowsByNodes rows (selectedNodeFiltersExceptKind selectedNodes stage) stages ctx in
  let totals := fold_left (add_option metric stage ctx) candidateRows [] in
  map (λ rank, {| no_kind := pn_kind (rk_node rank); no_value := pn_id (rk_node rank); no_label := pn_label (rk_node rank);
                  no_valueLabel := formatNumber (rk_value rank); no_valueRaw := rk_value rank;
                  no_color := nullish (oget (pn_id (rk_node rank)) colors) (colorAt vchartDefaultDataScheme 0 palette) |})
    (ovalues totals).

Definition node_option_order (stages : list FlowNodeKind) (a b : FlowNodeFilterOption) : Z :=
  let stageOrder := new_map (imap (λ index stage, (stage, Z.of_nat index)) stages) in
  or_else (nullish (oget (no_kind a) stageOrder) 0 - nullish (oget (no_kind b) stageOrder) 0)%Z
    (or_compare (nsub (no_valueRaw b) (no_valueRaw a))
       (or_else (localeCompare (no_label a) (no_label b)) (localeCompare (no_value a) (no_value b)))).

Definition buildNodeFilterOptions (rows : list FlowQuotaDataItem) (metric : FlowMetric) (role : FlowRole)
  (visibleStages : option (list FlowNodeKind)) (palette : option (list jstring)) (ctx : option (num → jstring))
  (selectedNodes : option (list FlowNodeFilter)) : list FlowNodeFilterOption :=
  let stages := resolveVisibleStages role visibleStages in
  let colorIds := new_set (mbind (λ row, map pn_id (flowPathForStages row stages ctx)) rows) in
  let colors := stableColorMap vchartDefaultDataScheme (sort_by localeCompare colorIds) palette in
  sort_by (node_option_order stages)
    (mbind (stage_options rows metric stages colors palette ctx selectedNodes) stages).

Definition buildFlowFilterOptions (rows : list FlowQuotaDataItem) (metric : FlowMetric) (palette : option (list jstring))
  (role : FlowRole) (visibleStages : option (list FlowNodeKind)) (selectedNodes : option (list FlowNodeFilter))
  : FlowFilterOptions :=
  {| users := buildUserFilterOptions rows metric palette;
     node_options := buildNodeFilterOptions rows metric role visibleStages palette None selectedNodes |}.

(** The rows a chart shows: [filterRows], then [filterRowsByNodes]. *)
Definition shown_rows (rows : list FlowQuotaDataItem) (options : FlowBuildOptions) : list FlowQuotaDataItem :=
  let stages := resolveVisibleStages (nullish (fo_role options) role_user) (visibleStages options) in
  filterRowsByNodes (filterRows rows (selectedUsers options)) (selectedNodes options) stages (fo_deletedTokenLabel options).

Definition buildDashboardFlowData (rows : list FlowQuotaDataItem) (metric : FlowMetric) (options : FlowBuildOptions)
  : ProcessedFlowData :=
  let role := nullish (fo_role options) role_user in
  let palette := fo_palette options in
  let ctx := fo_deletedTokenLabel options in
  let userFilteredRows := filterRows rows (selectedUsers options) in
  let filteredRows := shown_rows rows options in
  {| summary := buildSummary filteredRows;
     flow := buildFlowGraph filteredRows metric role options;
     filterOptions :=
       {| users := buildUserFilterOptions rows metric palette;
          node_options := buildNodeFilterOptions userFilteredRows metric role (visibleStages options) palette ctx
                            (selectedNodes options) |} |}.
End flow.
