(* ===== verification/FlowTotals.v ===== *)
(** * FlowTotals: what the nodes, links and options of the flow chart add up to

    The nodes and the links of a graph hold the totals of the paths through them
    ([graph_nodes], [graph_links]); from this follow the conservation of the flow
    and the agreement of the filter options with the chart. *)
From Stdlib Require Import Floats.SpecFloat.
From S2P Require Import Prelude JsString JsNumber JsFloat Currency DashboardFlow.

(** ** Paths through stages *)

(** The id of a node starts with its kind. *)
Definition typed (n : FlowPathNode) : Prop := ∃ r, pn_id n = kind_text (pn_kind n) ++ ":" ++ r.

(** A path with one node for every stage. *)
Record stage_path (stages : list FlowNodeKind) (p : list FlowPathNode) : Prop := {
  sp_kinds : map pn_kind p = stages;
  sp_typed : Forall typed p;
}.

Lemma typed_kind n m : typed n → typed m → pn_id n = pn_id m → pn_kind n = pn_kind m.
Proof. intros [r Hr] [r' Hr'] E. rewrite Hr, Hr' in E. by destruct (pn_kind n), (pn_kind m). Qed.

Lemma NODE_BUILDERS_kind stage row ctx : pn_kind (NODE_BUILDERS stage row ctx) = stage.
Proof. by destruct stage. Qed.

Lemma NODE_BUILDERS_typed stage row ctx : typed (NODE_BUILDERS stage row ctx).
Proof.
  unfold typed. rewrite NODE_BUILDERS_kind. destruct stage; cbn [NODE_BUILDERS].
  all: unfold userNode, nodeNameNode, tokenNode, groupNode, modelNode, channelNode; cbn [pn_id].
  all: try case_match; by eexists.
Qed.

(** The label of deleted tokens has no part in the ids. *)
Lemma NODE_BUILDERS_id stage row ctx ctx' : pn_id (NODE_BUILDERS stage row ctx) = pn_id (NODE_BUILDERS stage row ctx').
Proof. by destruct stage. Qed.

Lemma flowPath_stages row stages ctx : stage_path stages (flowPathForStages row stages ctx).
Proof.
  split.
  - unfold flowPathForStages. rewrite map_map. rewrite <- (map_id stages) at 2. apply map_ext. intros s. apply NODE_BUILDERS_kind.
  - apply Forall_forall. intros n (s & -> & _)%list_elem_of_fmap. apply NODE_BUILDERS_typed.
Qed.

Lemma limited_path stages p sets mode labeler p' :
  stage_path stages p → applyTopNodeLimit p sets mode labeler = Some p' → stage_path stages p'.
Proof.
  intros Hp. unfold applyTopNodeLimit. destruct sets as [sets|]; [|by intros [= <-]].
  destruct (negb _); [by intros [= <-]|]. destruct (bool_decide _); [done|]. intros [= <-]. destruct Hp as [Hk Ht]. split.
  - rewrite <- Hk, map_map. apply map_ext. intros n. by case_match.
  - apply Forall_map. eapply Forall_impl; [exact Ht|]. intros n Hn. cbn. case_match; [done|]. by exists "__other__".
Qed.

Lemma NoDup_stages role visible : NoDup (resolveVisibleStages role visible).
Proof.
  assert (NoDup (getFlowStages role)) as Hs by (destruct role; apply (bool_decide_unpack _); vm_compute; exact I).
  unfold resolveVisibleStages. destruct visible as [v|]; [|done]. case_match; [by apply NoDup_filter|done].
Qed.

Lemma stages_length role visible : 2 <= length (resolveVisibleStages role visible).
Proof.
  unfold resolveVisibleStages. destruct visible as [v|]; [|destruct role; cbn; lia].
  destruct (Nat.leb_spec MIN_FLOW_STAGES (length (filter (λ stage, has stage v = true) (getFlowStages role)))); [done|].
  destruct role; cbn; lia.
Qed.

Lemma stage_path_ids stages p : NoDup stages → stage_path stages p → NoDup (map pn_id p).
Proof.
  intros Hs [<- Ht]. induction Ht as [|n p Hn Ht IH]; [constructor|]. cbn [map] in *.
  apply NoDup_cons in Hs as [Hn' Hs]. constructor; [|by apply IH].
  intros (m & E & Hm)%list_elem_of_fmap. apply Hn'. rewrite Forall_forall in Ht.
  apply list_elem_of_fmap. exists m. split; [|done]. apply typed_kind; auto.
Qed.

(** The id of a path at a stage. *)
Definition at_stage (s : FlowNodeKind) (p : PreparedFlowPath) : jstring :=
  default [] (pn_id <$> head (filter (λ n, pn_kind n = s) (path p))).

Lemma at_stage_spec stages s p :
  stage_path stages (path p) → s ∈ stages → ∃ n, n ∈ path p ∧ pn_kind n = s ∧ at_stage s p = pn_id n.
Proof.
  intros [Hk _] Hs. rewrite <- Hk in Hs. apply list_elem_of_fmap in Hs as (n & -> & Hn).
  unfold at_stage. destruct (filter _ (path p)) as [|m r] eqn:E.
  - exfalso. by apply (filter_nil_not_elem_of _ _ n E).
  - assert (m ∈ filter (λ x, pn_kind x = pn_kind n) (path p)) as [Hm' Hm]%list_elem_of_filter by (rewrite E; left).
    by exists m.
Qed.

(** The ids a path goes through, and its steps. *)
Definition path_ids (p : PreparedFlowPath) : list jstring := map pn_id (path p).
Definition step_ids (p : PreparedFlowPath) : list (jstring * jstring) :=
  map (λ '(a, b), (pn_id a, pn_id b)) (steps (path p)).

Lemma at_stage_iff stages s p i n :
  NoDup stages → stage_path stages (path p) → s ∈ stages → typed n → pn_kind n = s → pn_id n = i →
  i ∈ path_ids p ↔ at_stage s p = i.
Proof.
  intros Hnd Hp Hs Hn Hk <-. destruct (at_stage_spec stages s p Hp Hs) as (m & Hm & Hmk & ->).
  pose proof (sp_typed _ _ Hp) as Ht. rewrite Forall_forall in Ht. unfold path_ids. rewrite list_elem_of_fmap. split.
  - intros (n' & E & Hn'). rewrite E. f_equal.
    assert (pn_kind n' = s) as Hk' by (rewrite <- Hk; symmetry; apply typed_kind; auto).
    apply (NoDup_key_inj pn_kind (path p)); [by rewrite (sp_kinds _ _ Hp)|done..|congruence].
  - intros E. exists m. split; [congruence|done].
Qed.

Lemma step_ids_nodes p i j : (i, j) ∈ step_ids p → i ∈ path_ids p ∧ j ∈ path_ids p.
Proof.
  unfold step_ids, path_ids, steps. intros ([a b] & [= -> ->] & Hab)%list_elem_of_fmap.
  split; apply list_elem_of_fmap_2; [by eapply elem_of_zip_l|]. apply elem_of_zip_r in Hab. destruct (path p); [done|by right].
Qed.

(** No id has the separator in it. *)
Definition plain_path (p : list FlowPathNode) : Prop := Forall (λ n, 0%N ∉ pn_id n) p.

(** The key of a link, from the ids of its ends. *)
Definition step_key (st : jstring * jstring) : jstring := st.1 ++ [0%N] ++ st.2.

Lemma step_key_inj a b c d : 0%N ∉ a → 0%N ∉ c → step_key (a, b) = step_key (c, d) → (a, b) = (c, d).
Proof.
  unfold step_key. cbn [fst snd]. revert c. induction a as [|x a IH]; intros [|y c] Ha Hc E.
  - cbn in E. by injection E as ->.
  - cbn in E. injection E as <- _. destruct Hc. by left.
  - cbn in E. injection E as -> _. destruct Ha. by left.
  - cbn [app] in E. injection E as -> E. apply not_elem_of_cons in Ha as [_ Ha], Hc as [_ Hc].
    by injection (IH c Ha Hc E) as -> ->.
Qed.

Lemma NoDup_step_ids stages p : NoDup stages → stage_path stages (path p) → NoDup (step_ids p).
Proof.
  intros Hs Hp. pose proof (stage_path_ids _ _ Hs Hp) as Hn. unfold step_ids, steps.
  apply (NoDup_fmap_1 fst). change (fmap fst ?l) with (map fst l). rewrite map_map.
  assert (∀ l l', NoDup (map pn_id l) → NoDup (map (λ x : FlowPathNode * FlowPathNode, (let '(a, b) := x in (pn_id a, pn_id b)).1) (zip l l'))) as H.
  { clear. intros l. induction l as [|a l IH]; intros l' Hl; [constructor|]. destruct l' as [|b l']; [constructor|].
    cbn [map zip zip_with] in *. apply NoDup_cons in Hl as [Ha Hl]. constructor; [|by apply IH].
    intros ([x y] & E & Hx)%list_elem_of_fmap. apply Ha. cbn [fst] in E. rewrite E. apply list_elem_of_fmap_2.
    by eapply elem_of_zip_l. }
  by apply H.
Qed.

(** ** The events of a graph *)

(** What a path adds to a node or to a link. *)
Record PathEvent (A : Type) := { ev_item : A; ev_metrics : FlowMetrics; ev_color : jstring; ev_root : jstring }.
Arguments ev_item {A}. Arguments ev_metrics {A}. Arguments ev_color {A}. Arguments ev_root {A}.

Definition path_events {A} (color : FlowPathNode → jstring) (items : list FlowPathNode → list A) (p : PreparedFlowPath)
  : list (PathEvent A) :=
  match head (path p) with
  | None => []
  | Some root => map (λ x, {| ev_item := x; ev_metrics := metrics p; ev_color := color root; ev_root := pn_id root |}) (items (path p))
  end.

Definition node_init (e : PathEvent FlowPathNode) : DashboardFlowNode :=
  {| n_id := pn_id (ev_item e); n_label := pn_label (ev_item e); n_kind := pn_kind (ev_item e); n_value := zero;
     n_metrics := no_metrics; n_color := ev_color e; n_colorKey := ev_root e; n_highlighted := None; n_dimmed := None |}.

Definition node_step (metric : FlowMetric) (n : DashboardFlowNode) (e : PathEvent FlowPathNode) : DashboardFlowNode :=
  {| n_id := n_id n; n_label := n_label n; n_kind := n_kind n; n_value := nadd (n_value n) (metricValue (ev_metrics e) metric);
     n_metrics := add_metrics (n_metrics n) (ev_metrics e); n_color := n_color n; n_colorKey := n_colorKey n;
     n_highlighted := n_highlighted n; n_dimmed := n_dimmed n |}.

Definition link_init (e : PathEvent (FlowPathNode * FlowPathNode)) : DashboardFlowLink :=
  let '(source, target) := ev_item e in
  {| l_source := pn_id source; l_target := pn_id target; l_value := zero; l_metrics := no_metrics;
     l_sourceLabel := pn_label source; l_targetLabel := pn_label target; l_color := ev_color e; l_linkColor := ev_color e;
     l_linkAlpha := of_Z 1; l_hoverColor := ev_color e; l_colorKey := ev_root e; l_share := zero;
     l_highlighted := None; l_dimmed := None |}.

Definition link_step (metric : FlowMetric) (l : DashboardFlowLink) (e : PathEvent (FlowPathNode * FlowPathNode))
  : DashboardFlowLink :=
  {| l_source := l_source l; l_target := l_target l; l_value := nadd (l_value l) (metricValue (ev_metrics e) metric);
     l_metrics := add_metrics (l_metrics l) (ev_metrics e); l_sourceLabel := l_sourceLabel l; l_targetLabel := l_targetLabel l;
     l_color := l_color l; l_linkColor := l_linkColor l; l_linkAlpha := l_linkAlpha l; l_hoverColor := l_hoverColor l;
     l_colorKey := l_colorKey l; l_share := l_share l; l_highlighted := l_highlighted l; l_dimmed := l_dimmed l |}.

Definition node_key (e : PathEvent FlowPathNode) : jstring := pn_id (ev_item e).
Definition link_key (e : PathEvent (FlowPathNode * FlowPathNode)) : jstring :=
  pathLinkKey (ev_item e).1 (ev_item e).2.

Lemma graph_maps scheme metric colors palette ps m1 m2 :
  let color (root : FlowPathNode) := nullish (oget (pn_id root) colors) (colorAt scheme 0 palette) in
  fold_left (add_path scheme metric colors palette) ps (m1, m2)
  = (fold_left (group_add node_key node_init (node_step metric)) (ps ≫= path_events color (λ p, p)) m1,
     fold_left (group_add link_key link_init (link_step metric)) (ps ≫= path_events color steps) m2).
Proof.
  intros color. revert m1 m2. induction ps as [|p ps IH]; intros m1 m2; [done|].
  cbn [fold_left]. rewrite !bind_cons, !fold_left_app, <- IH. f_equal.
  unfold add_path, path_events. destruct (head (path p)) as [root|]; [|done]. cbn [fst snd]. f_equal.
  - generalize (path p). clear. intros l. revert m1. induction l as [|n l IH]; intros m1; [done|]. cbn [fold_left map]. apply IH.
  - generalize (steps (path p)). clear. intros l. revert m2. induction l as [|[a b] l IH]; intros m2; [done|]. cbn [fold_left map]. apply IH.
Qed.

(** Each path through a key adds to it once. *)
Lemma events_through {A K} `{EqDecision K} (key : PathEvent A → K) (ids : PreparedFlowPath → list K) color items ps k :
  Forall (λ p, NoDup (ids p) ∧ map key (path_events color items p) = ids p) ps →
  map ev_metrics (filter (λ e, key e = k) (ps ≫= path_events color items)) = map metrics (filter (λ p, k ∈ ids p) ps).
Proof.
  induction 1 as [|p ps [Hnd Hk] _ IH]; [done|].
  rewrite bind_cons, filter_app, map_app, IH, filter_cons. rewrite <- Hk in Hnd |- *. destruct (decide _) as [Hin|Hin].
  - apply list_elem_of_fmap in Hin as (e & -> & He). rewrite filter_key_one by done. cbn [map app]. f_equal.
    unfold path_events in He. destruct (head (path p)); [|by apply elem_of_nil in He].
    by apply list_elem_of_fmap in He as (x & -> & _).
  - by rewrite filter_key_none.
Qed.

(** ** The totals of the nodes and links *)

(** The paths through a node, and the paths along a link. *)
Definition through (ps : list PreparedFlowPath) (i : jstring) : list PreparedFlowPath := filter (λ p, i ∈ path_ids p) ps.
Definition along (ps : list PreparedFlowPath) (st : jstring * jstring) : list PreparedFlowPath :=
  filter (λ p, st ∈ step_ids p) ps.

Definition total_value (metric : FlowMetric) (ps : list PreparedFlowPath) : num :=
  nsum (map (λ p, metricValue (metrics p) metric) ps).
Definition total_metrics (ps : list PreparedFlowPath) : FlowMetrics := fold_left add_metrics (map metrics ps) no_metrics.

Definition link_ends (l : DashboardFlowLink) : jstring * jstring := (l_source l, l_target l).

(** What the graph of some paths promises. *)
Record flow_totals (metric : FlowMetric) (ps : list PreparedFlowPath) (g : DashboardFlowGraph) : Prop := {
  ft_node_ids : NoDup (map n_id (nodes g)) ∧ ∀ i, i ∈ map n_id (nodes g) ↔ ∃ p, p ∈ ps ∧ i ∈ path_ids p;
  ft_nodes : Forall (λ n, n_value n = total_value metric (through ps (n_id n)) ∧
    n_metrics n = total_metrics (through ps (n_id n)) ∧
    ∃ p x, p ∈ ps ∧ x ∈ path p ∧ pn_id x = n_id n ∧ pn_kind x = n_kind n) (nodes g);
  ft_link_ends : NoDup (map link_ends (links g)) ∧ ∀ st, st ∈ map link_ends (links g) ↔ ∃ p, p ∈ ps ∧ st ∈ step_ids p;
  ft_links : Forall (λ l, l_value l = total_value metric (along ps (link_ends l)) ∧
    l_metrics l = total_metrics (along ps (link_ends l))) (links g);
}.

(** The fields that the later passes over the graph leave alone. *)
Definition node_core (n : DashboardFlowNode) := (n_id n, n_kind n, n_value n, n_metrics n).
Definition link_core (l : DashboardFlowLink) := (link_ends l, l_value l, l_metrics l).

Lemma fold_node_step metric es n :
  node_core (fold_left (node_step metric) es n)
  = (n_id n, n_kind n, fold_left nadd (map (λ e, metricValue (ev_metrics e) metric) es) (n_value n),
     fold_left add_metrics (map ev_metrics es) (n_metrics n)).
Proof. revert n. induction es as [|e es IH]; intros n; [done|]. cbn [fold_left map]. by rewrite IH. Qed.

Lemma fold_link_step metric es l :
  link_core (fold_left (link_step metric) es l)
  = (link_ends l, fold_left nadd (map (λ e, metricValue (ev_metrics e) metric) es) (l_value l),
     fold_left add_metrics (map ev_metrics es) (l_metrics l)).
Proof. revert l. induction es as [|e es IH]; intros l; [done|]. cbn [fold_left map]. by rewrite IH. Qed.

Lemma total_map metric l :
  map (λ p, metricValue (metrics p) metric) l = map (λ m, metricValue m metric) (map metrics l).
Proof. by rewrite map_map. Qed.

Section totals.
Variable scheme : list ColorScheme.
Variable localeCompare : jstring → jstring → Z.
Variable metric : FlowMetric.
Variable stages : list FlowNodeKind.
Variable ps : list PreparedFlowPath.
Variable color : FlowPathNode → jstring.
Hypothesis stages_distinct : NoDup stages.
Hypothesis ps_paths : Forall (λ p, stage_path stages (path p)) ps.
Hypothesis ps_plain : Forall (λ p, plain_path (path p)) ps.

Definition raw_nodes : NodeMap := fold_left (group_add node_key node_init (node_step metric)) (ps ≫= path_events color (λ p, p)) [].
Definition raw_links : LinkMap := fold_left (group_add link_key link_init (link_step metric)) (ps ≫= path_events color steps) [].

Lemma node_events_ids : Forall (λ p, NoDup (path_ids p) ∧ map node_key (path_events color (λ p, p) p) = path_ids p) ps.
Proof.
  eapply Forall_impl; [exact ps_paths|]. intros p Hp. cbn beta. split; [by eapply stage_path_ids|].
  unfold path_events, path_ids. destruct (path p) as [|root r]; [done|]. cbn [head]. by rewrite map_map.
Qed.

Lemma link_events_ids :
  Forall (λ p, NoDup (map step_key (step_ids p)) ∧ map link_key (path_events color steps p) = map step_key (step_ids p)) ps.
Proof.
  apply Forall_forall. intros p Hp. rewrite Forall_forall in ps_paths, ps_plain. split.
  - apply NoDup_fmap_2_strong; [|eapply NoDup_step_ids; [done|by apply ps_paths]].
    intros [a b] [c d] [Ha _]%step_ids_nodes [Hc _]%step_ids_nodes.
    specialize (ps_plain p Hp). unfold plain_path in ps_plain. rewrite Forall_forall in ps_plain.
    apply list_elem_of_fmap in Ha as (n & -> & Hn), Hc as (m & -> & Hm). apply step_key_inj; auto.
  - unfold path_events, step_ids. destruct (path p) as [|root r]; [done|]. cbn [head]. rewrite !map_map.
    apply map_ext. by intros [].
Qed.

Lemma elem_of_events {A} (items : list FlowPathNode → list A) e :
  e ∈ ps ≫= path_events color items → ∃ p, p ∈ ps ∧ ev_item e ∈ items (path p).
Proof.
  intros (p & He & Hp)%list_elem_of_bind. exists p. split; [done|]. unfold path_events in He.
  destruct (head (path p)); [|by apply elem_of_nil in He]. by apply list_elem_of_fmap in He as (x & -> & Hx).
Qed.

Lemma okeys_raw_nodes i : i ∈ okeys raw_nodes ↔ ∃ p, p ∈ ps ∧ i ∈ path_ids p.
Proof.
  unfold raw_nodes. rewrite okeys_grouped, elem_of_new_set.
  rewrite list_elem_of_fmap. setoid_rewrite list_elem_of_bind. pose proof node_events_ids as H. rewrite Forall_forall in H. split.
  - intros (e & -> & p & He & Hp). exists p. split; [done|]. destruct (H p Hp) as [_ <-]. by apply list_elem_of_fmap_2.
  - intros (p & Hp & Hi). destruct (H p Hp) as [_ E]. rewrite <- E in Hi. apply list_elem_of_fmap in Hi as (e & -> & He).
    by exists e; eauto.
Qed.

Lemma raw_node k n :
  (k, n) ∈ raw_nodes →
  node_core n = (k, n_kind n, total_value metric (through ps k), total_metrics (through ps k)) ∧
  ∃ p x, p ∈ ps ∧ x ∈ path p ∧ pn_id x = k ∧ pn_kind x = n_kind n.
Proof.
  intros (e & r & Hf & En)%elem_of_group. assert (e ∈ filter (λ e, node_key e = k) (ps ≫= path_events color (λ p, p))) as He
    by (rewrite Hf; left). apply list_elem_of_filter in He as [Hk He]. destruct (elem_of_events _ e He) as (p & Hp & Hx).
  pose proof (fold_node_step metric (e :: r) (node_init e)) as Hc. rewrite <- En in Hc.
  pose proof (events_through node_key path_ids color (λ p, p) ps k node_events_ids) as Ht. rewrite Hf in Ht.
  split; [|exists p, (ev_item e); by injection Hc as _ -> _ _].
  rewrite Hc. unfold node_core in Hc. injection Hc as _ -> _ _. unfold total_value, total_metrics, nsum, through.
  rewrite total_map, <- Ht, map_map. unfold node_init. cbn [n_id n_kind n_value n_metrics]. by rewrite <- Hk.
Qed.

Lemma okeys_raw_links st : (∃ p, p ∈ ps ∧ st ∈ step_ids p) → step_key st ∈ okeys raw_links.
Proof.
  intros (p & Hp & Hi). unfold raw_links. rewrite okeys_grouped, elem_of_new_set. pose proof link_events_ids as H.
  rewrite Forall_forall in H. destruct (H p Hp) as [_ E]. apply (list_elem_of_fmap_2 step_key) in Hi.
  change (fmap ?f ?l) with (map f l) in Hi. rewrite <- E in Hi. apply list_elem_of_fmap in Hi as (e & -> & He).
  apply list_elem_of_fmap_2, list_elem_of_bind. by exists p.
Qed.

Lemma raw_link k l :
  (k, l) ∈ raw_links →
  ∃ st, k = step_key st ∧ (∃ p, p ∈ ps ∧ st ∈ step_ids p) ∧
    link_core l = (st, total_value metric (along ps st), total_metrics (along ps st)).
Proof.
  intros (e & r & Hf & El)%elem_of_group. assert (e ∈ filter (λ e, link_key e = k) (ps ≫= path_events color steps)) as He
    by (rewrite Hf; left). apply list_elem_of_filter in He as [Hk He]. destruct (elem_of_events _ e He) as (p & Hp & Hx).
  pose proof (fold_link_step metric (e :: r) (link_init e)) as Hc. rewrite <- El in Hc.
  pose proof (events_through link_key (λ p, map step_key (step_ids p)) color steps ps k link_events_ids) as Ht. rewrite Hf in Ht.
  destruct (ev_item e) as [a b] eqn:Ee. assert ((pn_id a, pn_id b) ∈ step_ids p) as Hst.
  { unfold step_ids. apply list_elem_of_fmap. by exists (a, b). }
  assert (k = step_key (pn_id a, pn_id b)) as -> by (rewrite <- Hk; unfold link_key; by rewrite Ee).
  exists (pn_id a, pn_id b). split_and!; [done|by exists p|]. rewrite Hc. unfold total_value, total_metrics, nsum, along.
  rewrite total_map, (filter_ext_in _ (λ q, step_key (pn_id a, pn_id b) ∈ map step_key (step_ids q))), <- Ht, map_map.
  { unfold link_init. by rewrite Ee. }
  intros q Hq. split; [apply list_elem_of_fmap_2|]. intros ([c d] & E & Hcd)%list_elem_of_fmap.
  rewrite Forall_forall in ps_plain. pose proof (ps_plain p Hp) as Pp. pose proof (ps_plain q Hq) as Pq.
  unfold plain_path in Pp, Pq. rewrite Forall_forall in Pp, Pq.
  destruct (step_ids_nodes _ _ _ Hst) as [(x & Ex & Hx')%list_elem_of_fmap _].
  destruct (step_ids_nodes _ _ _ Hcd) as [(y & Ey & Hy)%list_elem_of_fmap _].
  apply step_key_inj in E; [by rewrite E|..]; [rewrite Ex|rewrite Ey]; auto.
Qed.
End totals.

(** ** The later passes *)

Definition same_nodes (a b : NodeMap) : Prop := map node_core (ovalues a) = map node_core (ovalues b).
Definition same_links (a b : LinkMap) : Prop := map link_core (ovalues a) = map link_core (ovalues b).

Lemma map_entries {A B} (core : A → B) (f : jstring → A → A) (m : list (jstring * A)) :
  (∀ k x, core (f k x) = core x) → map core (ovalues (map (λ '(k, x), (k, f k x)) m)) = map core (ovalues m).
Proof. intros Hf. unfold ovalues. induction m as [|[k x] m IH]; [done|]. cbn. by rewrite Hf, <- IH. Qed.

Lemma mask_same nodes links :
  same_nodes (maskFlowGraphLabels nodes links).1 nodes ∧ same_links (maskFlowGraphLabels nodes links).2 links.
Proof.
  split; unfold same_nodes, same_links, maskFlowGraphLabels; cbn [fst snd].
  - apply (map_entries node_core (λ _ n, if is_masked n then set_label (maskFlowLabel (n_label n)) n else n)).
    intros _ n. by destruct (is_masked n).
  - destruct (_ =? _)%nat; [done|]. by apply (map_entries link_core (λ _ l, set_link_labels _ _ l)).
Qed.

Lemma highlights_same nodes links sets :
  same_nodes (applyFlowHighlights nodes links sets).1 nodes ∧ same_links (applyFlowHighlights nodes links sets).2 links.
Proof.
  destruct sets as [sets|]; [|done]. split; unfold same_nodes, same_links; cbn [applyFlowHighlights fst snd].
  - by apply (map_entries node_core (λ _ n, set_node_highlight _ n)).
  - by apply (map_entries link_core (λ _ l, set_link_highlight _ l)).
Qed.

Lemma display_colors_core localeCompare links :
  map link_core (assignLinkDisplayColors localeCompare links) = map link_core links.
Proof.
  unfold assignLinkDisplayColors. rewrite map_map. apply map_ext. intros l. unfold set_display_color. by case_match.
Qed.

Lemma graph_cores scheme localeCompare ps metric stages palette options :
  let colors := stableColorMap scheme (sort_by localeCompare (root_ids ps)) palette in
  let color (root : FlowPathNode) := nullish (oget (pn_id root) colors) (colorAt scheme 0 palette) in
  let g := graph_of_paths scheme localeCompare ps metric stages palette options in
  map node_core (nodes g) ≡ₚ map node_core (ovalues (raw_nodes metric ps color)) ∧
  map link_core (links g) ≡ₚ map link_core (ovalues (raw_links metric ps color)).
Proof.
  intros colors color g. unfold g, graph_of_paths. fold colors.
  rewrite graph_maps. fold color. cbn zeta. fold (raw_nodes metric ps color) (raw_links metric ps color).
  set (raw := (raw_nodes metric ps color, raw_links metric ps color)).
  set (masked := if default false (maskSensitive options) then maskFlowGraphLabels raw.1 raw.2 else raw).
  assert (same_nodes masked.1 raw.1 ∧ same_links masked.2 raw.2) as [Hm1 Hm2].
  { unfold masked. destruct (default _ _); [|done]. apply mask_same. }
  set (sets := buildFlowHighlightSets _ _ _ _).
  destruct (highlights_same masked.1 masked.2 sets) as [Hh1 Hh2]. unfold same_nodes, same_links in *. cbn [nodes links]. split.
  - rewrite sort_by_perm. change (map node_core (ovalues (applyFlowHighlights masked.1 masked.2 sets).1) ≡ₚ map node_core (ovalues raw.1)).
    by rewrite Hh1, Hm1.
  - rewrite display_colors_core, map_map. change (λ x, link_core (set_share ?t x)) with link_core.
    rewrite sort_by_perm. change (map link_core (ovalues (applyFlowHighlights masked.1 masked.2 sets).2) ≡ₚ map link_core (ovalues raw.2)).
    by rewrite Hh2, Hm2.
Qed.

(** The entries behind the elements of a list with the same cores. *)
Lemma core_entry {A B} (core : A → B) (l : list A) (m : list (jstring * A)) x :
  map core l ≡ₚ map core (ovalues m) → x ∈ l → ∃ k y, (k, y) ∈ m ∧ core x = core y.
Proof.
  intros Hl Hx. apply (list_elem_of_fmap_2 core) in Hx. change (fmap ?f ?l) with (map f l) in Hx. rewrite Hl in Hx.
  apply list_elem_of_fmap in Hx as (y & E & Hy). unfold ovalues in Hy. apply list_elem_of_fmap in Hy as ([k y'] & -> & Hy).
  by exists k, y'.
Qed.

Lemma core_keys {A B K} (core : A → B) (key : B → K) (name : K → jstring) (l : list A) (m : list (jstring * A)) :
  map core l ≡ₚ map core (ovalues m) → (∀ k y, (k, y) ∈ m → name (key (core y)) = k) →
  map name (map (λ x, key (core x)) l) ≡ₚ okeys m.
Proof.
  intros Hl Hk. rewrite map_map. rewrite <- (map_map core (λ b, name (key b))). rewrite Hl. apply reflexive_eq.
  unfold ovalues, okeys. change (m.*2) with (map snd m). rewrite !map_map. change (m.*1) with (map fst m).
  apply map_ext_in. intros [k y] Hin%list_elem_of_In. by apply Hk.
Qed.

(** The graph of some paths has the totals of the paths through each node and along
    each link. *)
Section graph_totals.
Context (scheme : list ColorScheme) (localeCompare : jstring → jstring → Z) (ps : list PreparedFlowPath)
  (metric : FlowMetric) (stages : list FlowNodeKind) (palette : option (list jstring)) (options : FlowBuildOptions).
Hypothesis Hs : NoDup stages.
Hypothesis Hp : Forall (λ p, stage_path stages (path p)) ps.
Hypothesis Hpl : Forall (λ p, plain_path (path p)) ps.
Let g := graph_of_paths scheme localeCompare ps metric stages palette options.
Let colors := stableColorMap scheme (sort_by localeCompare (root_ids ps)) palette.
Let color (root : FlowPathNode) := nullish (oget (pn_id root) colors) (colorAt scheme 0 palette).

Lemma graph_node_ids : map n_id (nodes g) ≡ₚ okeys (raw_nodes metric ps color).
Proof using Hs Hp.
  destruct (graph_cores scheme localeCompare ps metric stages palette options) as [Hn _].
  rewrite <- (map_id (map n_id (nodes g))). apply (core_keys node_core (λ c, c.1.1.1) (λ i, i)); [exact Hn|].
  intros k n Hkn. destruct (raw_node metric stages ps color Hs Hp k n Hkn) as [-> _]. done.
Qed.

Lemma graph_node n : n ∈ nodes g →
  n_value n = total_value metric (through ps (n_id n)) ∧ n_metrics n = total_metrics (through ps (n_id n)) ∧
  ∃ p x, p ∈ ps ∧ x ∈ path p ∧ pn_id x = n_id n ∧ pn_kind x = n_kind n.
Proof using Hs Hp.
  destruct (graph_cores scheme localeCompare ps metric stages palette options) as [Hn _].
  intros (k & m & Hm & E)%(core_entry node_core _ (raw_nodes metric ps color)); [|exact Hn].
  destruct (raw_node metric stages ps color Hs Hp k m Hm) as [Ec (p & x & ? & ? & Ex & Ek)]. rewrite Ec in E.
  unfold node_core in E. injection E as -> -> -> ->. split_and!; [done..|]. by exists p, x.
Qed.

Lemma graph_link l : l ∈ links g →
  (∃ p, p ∈ ps ∧ link_ends l ∈ step_ids p) ∧
  l_value l = total_value metric (along ps (link_ends l)) ∧ l_metrics l = total_metrics (along ps (link_ends l)).
Proof using Hs Hp Hpl.
  destruct (graph_cores scheme localeCompare ps metric stages palette options) as [_ Hl].
  intros (k & m & Hm & E)%(core_entry link_core _ (raw_links metric ps color)); [|exact Hl].
  destruct (raw_link metric stages ps color Hs Hp Hpl k m Hm) as (st & _ & Hst & Ec). rewrite Ec in E.
  unfold link_core in E. by injection E as -> -> ->.
Qed.

Lemma graph_link_keys : map step_key (map link_ends (links g)) ≡ₚ okeys (raw_links metric ps color).
Proof using Hs Hp Hpl.
  destruct (graph_cores scheme localeCompare ps metric stages palette options) as [_ Hl].
  apply (core_keys link_core (λ c, c.1.1) step_key); [exact Hl|].
  intros k l Hkl. destruct (raw_link metric stages ps color Hs Hp Hpl k l Hkl) as (st & -> & _ & ->). done.
Qed.

Lemma plain_step st : (∃ p, p ∈ ps ∧ st ∈ step_ids p) → 0%N ∉ st.1.
Proof using Hpl.
  destruct st as [x y]. intros (p & Hpp & [Hx _]%step_ids_nodes). rewrite Forall_forall in Hpl. specialize (Hpl p Hpp).
  unfold plain_path in Hpl. rewrite Forall_forall in Hpl. apply list_elem_of_fmap in Hx as (n & -> & Hx). by apply Hpl.
Qed.

Lemma graph_totals : flow_totals metric ps g.
Proof using Hs Hp Hpl.
  split.
  - split; [rewrite graph_node_ids; apply NoDup_grouped|]. intros i. rewrite graph_node_ids.
    by apply okeys_raw_nodes with (stages := stages).
  - apply Forall_forall, graph_node.
  - split.
    + apply (NoDup_fmap_1 step_key). change (fmap ?f ?l) with (map f l). rewrite graph_link_keys. apply NoDup_grouped.
    + intros st. split; [intros (l & -> & Hl)%list_elem_of_fmap; by apply graph_link|]. intros Hst.
      pose proof (okeys_raw_links metric stages ps color Hs Hp Hpl st Hst) as Hk. rewrite <- graph_link_keys in Hk.
      apply list_elem_of_fmap in Hk as ([a b] & E & Hab). destruct st as [c d]. pose proof Hab as Hab'.
      apply list_elem_of_fmap in Hab' as (l & E' & Hl). destruct (graph_link l Hl) as [Hst' _]. rewrite <- E' in Hst'.
      apply step_key_inj in E; [by rewrite E|by apply (plain_step (c, d))|by apply (plain_step (a, b))].
  - apply Forall_forall. intros l Hl. by apply graph_link.
Qed.
End graph_totals.

(** ** Steps between adjacent stages *)

Lemma elem_of_steps (l : list FlowPathNode) a b : (a, b) ∈ steps l ↔ ∃ k, l !! k = Some a ∧ l !! S k = Some b.
Proof.
  unfold steps. rewrite list_elem_of_lookup. split.
  - intros (k & Hk). exists k. apply lookup_zip_Some in Hk. rewrite lookup_tail in Hk. exact Hk.
  - intros (k & Ha & Hb). exists k. apply lookup_zip_Some. by rewrite lookup_tail.
Qed.

Section steps.
Context (stages : list FlowNodeKind) (p : PreparedFlowPath) (k : nat) (s s' : FlowNodeKind).
Hypothesis Hs : NoDup stages.
Hypothesis Hp : stage_path stages (path p).
Hypothesis Hk : stages !! k = Some s.
Hypothesis Hk' : stages !! S k = Some s'.

Lemma at_stage_lookup j t : stages !! j = Some t → ∃ n, path p !! j = Some n ∧ pn_kind n = t ∧ pn_id n = at_stage t p.
Proof using Hs Hp.
  intros Hj. destruct (at_stage_spec stages t p Hp) as (m & Hm & Hmt & Hat); [by eapply list_elem_of_lookup_2|].
  destruct Hp as [Hkinds _]. pose proof Hj as Hj'. rewrite <- Hkinds in Hj'. apply list_lookup_fmap_Some in Hj' as (n & Ht & Hn).
  exists n. split_and!; [done|done|]. rewrite Hat. f_equal.
  apply (NoDup_key_inj pn_kind (path p)); [by rewrite Hkinds|by eapply list_elem_of_lookup_2|done|congruence].
Qed.

Lemma step_at_stages : (at_stage s p, at_stage s' p) ∈ step_ids p.
Proof using Hs Hp Hk Hk'.
  destruct (at_stage_lookup k s Hk) as (a & Ha & _ & <-), (at_stage_lookup (S k) s' Hk') as (b & Hb & _ & <-).
  unfold step_ids. apply list_elem_of_fmap. exists (a, b). split; [done|]. apply elem_of_steps. eauto.
Qed.

(** A step from the id at a stage, or to the id at the next, is the step between them. *)
Lemma step_from_stage i j : (i, j) ∈ step_ids p → i = at_stage s p ∨ j = at_stage s' p → (i, j) = (at_stage s p, at_stage s' p).
Proof using Hs Hp Hk Hk'.
  unfold step_ids. intros ([a b] & [= -> ->] & (x & Hx & Hx')%elem_of_steps)%list_elem_of_fmap H.
  destruct (at_stage_lookup k s Hk) as (c & Hc & _ & Ec), (at_stage_lookup (S k) s' Hk') as (d & Hd & _ & Ed).
  pose proof (stage_path_ids _ _ Hs Hp) as Hn. rewrite NoDup_alt in Hn.
  assert (∀ y z n m, path p !! y = Some n → path p !! z = Some m → pn_id n = pn_id m → y = z) as Hinj.
  { intros y z n m Hy Hz E. apply (Hn y z (pn_id n)); apply list_lookup_fmap_Some; eauto. }
  assert (x = k) as ->; [|congruence]. destruct H as [E|E]; [apply (Hinj x k a c); congruence|].
  assert (S x = S k) by (apply (Hinj (S x) (S k) b d); congruence). lia.
Qed.
End steps.

(** ** Exact totals *)

(** A metric as an integer. *)
Definition units (metric : FlowMetric) (m : FlowMetrics) : Z := default 0%Z (floor_Z (metricValue m metric)).

(** The metric is a natural number, as it is for counts of requests, tokens and quota. *)
Definition whole (metric : FlowMetric) (m : FlowMetrics) : Prop :=
  ∃ z, (0 <= z < 2 ^ 53)%Z ∧ metricValue m metric = of_Z z.

Lemma whole_units metric m : whole metric m → metricValue m metric = of_Z (units metric m) ∧ (0 <= units metric m)%Z.
Proof.
  intros (z & Hz & E). unfold units. rewrite E. destruct (of_Z_finite z Hz) as [_ ->]. cbn [default from_option]. split; [done|apply Hz].
Qed.

(** The paths have whole metrics, and together less than [2^53]. *)
Definition countable_paths (metric : FlowMetric) (ps : list PreparedFlowPath) : Prop :=
  Forall (λ p, whole metric (metrics p)) ps ∧ (zsum (map (λ p, units metric (metrics p)) ps) < 2 ^ 53)%Z.

Lemma total_value_exact metric ps : countable_paths metric ps → ∀ (Q : PreparedFlowPath → Prop) `{∀ p, Decision (Q p)},
  total_value metric (filter Q ps) = of_Z (zsum (map (λ p, units metric (metrics p)) (filter Q ps))) ∧
  (0 <= zsum (map (λ p, units metric (metrics p)) (filter Q ps)))%Z.
Proof.
  intros [Hw Hb] Q HQ. set (u := λ p, units metric (metrics p)) in *.
  assert (Forall (λ p, (0 <= u p)%Z) ps) as Hu by (eapply Forall_impl; [exact Hw|]; intros p Hp; by apply whole_units).
  pose proof (zsum_filter_le Q u ps Hu) as Hle. assert (Forall (λ z, (0 <= z)%Z) (map u (filter Q ps))) as Hnn.
  { apply Forall_map, Forall_forall. intros p [_ Hp]%list_elem_of_filter. rewrite Forall_forall in Hu. by apply Hu. }
  split; [|by apply zsum_nonneg]. unfold total_value. rewrite <- nsum_of_Z by (done || lia). f_equal.
  rewrite map_map. apply map_ext_in. intros p Hp%list_elem_of_In. apply list_elem_of_filter in Hp as [_ Hp].
  rewrite Forall_forall in Hw. by apply whole_units, Hw.
Qed.

(** ** Conservation *)

Section conservation.
Context (metric : FlowMetric) (stages : list FlowNodeKind) (ps : list PreparedFlowPath) (g : DashboardFlowGraph).
Hypothesis Hs : NoDup stages.
Hypothesis Hp : Forall (λ p, stage_path stages (path p)) ps.
Hypothesis Hc : countable_paths metric ps.
Hypothesis Hg : flow_totals metric ps g.
Let u (p : PreparedFlowPath) : Z := units metric (metrics p).

Lemma in_stages p : p ∈ ps → stage_path stages (path p).
Proof using Hp. intros Hpp. rewrite Forall_forall in Hp. by apply Hp. Qed.

(** Values that are the totals of a partition of some paths add up to their total. *)
Lemma partition_sum {A K} `{EqDecision K} (value : A → num) (name : A → K) (key : PreparedFlowPath → K) (l : list A)
  (Q : PreparedFlowPath → Prop) `{∀ p, Decision (Q p)} :
  NoDup (map name l) →
  (∀ x, x ∈ l → value x = total_value metric (filter (λ p, key p = name x) (filter Q ps))) →
  (∀ p, p ∈ ps → Q p → key p ∈ map name l) →
  nsum (map value l) = total_value metric (filter Q ps).
Proof using Hc.
  intros Hnd Hv Hk. set (part k := zsum (map u (filter (λ p, key p = k) (filter Q ps)))).
  assert (∀ k, total_value metric (filter (λ p, key p = k) (filter Q ps)) = of_Z (part k) ∧ (0 <= part k)%Z) as Hpart.
  { intros k. unfold part. rewrite list_filter_filter. by apply total_value_exact. }
  assert (zsum (map part (map name l)) = zsum (map u (filter Q ps))) as Hz.
  { apply zsum_partition; [done|]. apply Forall_forall. intros p [HQ Hpp]%list_elem_of_filter. by apply Hk. }
  destruct (total_value_exact metric ps Hc Q) as [-> _]. fold u. rewrite <- Hz, <- nsum_of_Z.
  - f_equal. rewrite !map_map. apply map_ext_in. intros x Hx%list_elem_of_In. rewrite (Hv x Hx). apply Hpart.
  - apply Forall_map, Forall_map, Forall_forall. intros x _. apply Hpart.
  - rewrite Hz. destruct Hc as [Hw Hb]. eapply Z.le_lt_trans; [|exact Hb]. apply zsum_filter_le.
    eapply Forall_impl; [exact Hw|]. intros p Hpp. by apply whole_units.
Qed.

Lemma typed_in_path p x : p ∈ ps → x ∈ path p → typed x.
Proof using Hp.
  intros Hpp Hx. destruct (in_stages p Hpp) as [_ Ht]. rewrite Forall_forall in Ht. by apply Ht.
Qed.

Lemma at_stage_in n p : n ∈ nodes g → n_kind n ∈ stages → p ∈ ps → n_id n ∈ path_ids p ↔ at_stage (n_kind n) p = n_id n.
Proof using Hs Hp Hg.
  intros Hn Hk Hpp. pose proof (ft_nodes _ _ _ Hg) as Hns. rewrite Forall_forall in Hns.
  destruct (Hns n Hn) as (_ & _ & q & x & Hq & Hx & Ei & Ek).
  apply at_stage_iff with (stages := stages) (n := x); auto using in_stages. by apply (typed_in_path q).
Qed.

(** The nodes of a stage carry everything. *)
Lemma stage_sum s : s ∈ stages → nsum (map n_value (filter (λ n, n_kind n = s) (nodes g))) = total_value metric ps.
Proof using Hs Hp Hc Hg.
  intros Hst. pose proof (ft_nodes _ _ _ Hg) as Hns. rewrite Forall_forall in Hns.
  destruct (ft_node_ids _ _ _ Hg) as [Hnd Hids].
  assert (filter (λ _, True) ps = ps) as Hall by by apply filter_all, Forall_true.
  rewrite <- Hall. apply (partition_sum n_value n_id (at_stage s)); [by apply NoDup_map_filter|..].
  - intros n [Hk Hn]%list_elem_of_filter. destruct (Hns n Hn) as [-> _]. rewrite Hall. unfold through. f_equal.
    apply filter_ext_in. intros p Hpp. rewrite <- Hk. apply at_stage_in; [done|by rewrite Hk|done].
  - intros p Hpp _. destruct (at_stage_spec stages s p (in_stages p Hpp) Hst) as (x & Hx & Hxk & ->).
    assert (pn_id x ∈ map n_id (nodes g)) as Hin.
    { apply Hids. exists p. split; [done|]. by apply list_elem_of_fmap_2. }
    apply list_elem_of_fmap in Hin as (n & E & Hn). rewrite E. apply list_elem_of_fmap_2, list_elem_of_filter. split; [|done].
    destruct (Hns n Hn) as (_ & _ & q & y & Hq & Hy & Ei & Ek). rewrite <- Ek, <- Hxk.
    apply typed_kind; [by apply (typed_in_path q)|by apply (typed_in_path p)|congruence].
Qed.

(** The links between two adjacent stages carry what goes through them. *)
Lemma links_sum k s s' (P : jstring * jstring → Prop) `{∀ st, Decision (P st)} (Q : PreparedFlowPath → Prop) `{∀ p, Decision (Q p)} :
  stages !! k = Some s → stages !! S k = Some s' →
  (∀ p st, p ∈ ps → st ∈ step_ids p → P st → st = (at_stage s p, at_stage s' p)) →
  (∀ p, p ∈ ps → P (at_stage s p, at_stage s' p) ↔ Q p) →
  nsum (map l_value (filter (λ l, P (link_ends l)) (links g))) = total_value metric (filter Q ps).
Proof using Hs Hp Hc Hg.
  intros Hk Hk' HP HQ. destruct (ft_link_ends _ _ _ Hg) as [Hnd Hends]. pose proof (ft_links _ _ _ Hg) as Hl.
  rewrite Forall_forall in Hl.
  apply (partition_sum l_value link_ends (λ p, (at_stage s p, at_stage s' p))); [by apply NoDup_map_filter|..].
  - intros l [HPl Hll]%list_elem_of_filter. destruct (Hl l Hll) as [-> _]. unfold along. f_equal.
    rewrite list_filter_filter. apply filter_ext_in. intros p Hpp. split.
    + intros Hst. pose proof (HP p _ Hpp Hst HPl) as E. split; [done|]. apply HQ; [done|]. by rewrite <- E.
    + intros [E HQp]. rewrite <- E. by apply (step_at_stages stages p k s s' Hs (in_stages p Hpp)).
  - intros p Hpp HQp. assert ((at_stage s p, at_stage s' p) ∈ map link_ends (links g)) as Hin.
    { apply Hends. exists p. split; [done|]. by apply (step_at_stages stages p k s s' Hs (in_stages p Hpp)). }
    apply list_elem_of_fmap in Hin as (l & E & Hll). rewrite E. apply list_elem_of_fmap_2, list_elem_of_filter. split; [|done].
    rewrite <- E. by apply HQ.
Qed.

(** What a node at a stage takes in and gives out. *)
Lemma node_balance n k : n ∈ nodes g → stages !! k = Some (n_kind n) →
  (S k < length stages → nsum (map l_value (filter (λ l, l_source l = n_id n) (links g))) = n_value n) ∧
  (0 < k → nsum (map l_value (filter (λ l, l_target l = n_id n) (links g))) = n_value n).
Proof using Hs Hp Hc Hg.
  intros Hn Hk. pose proof (ft_nodes _ _ _ Hg) as Hns. rewrite Forall_forall in Hns. destruct (Hns n Hn) as [-> _].
  assert (n_kind n ∈ stages) as Hin by by eapply list_elem_of_lookup_2.
  pose proof (λ p, at_stage_in n p Hn Hin) as Hat. unfold through. split; intros Hlt.
  - destruct (lookup_lt_is_Some_2 stages (S k) Hlt) as [s' Hk'].
    refine (links_sum k (n_kind n) s' (λ st, st.1 = n_id n) (λ p, n_id n ∈ path_ids p) _ _ _ _); [done|done|..].
    + intros p [i j] Hpp Hst E. cbn in E. subst i. eapply step_from_stage; [done|by apply in_stages|done..|]. left. symmetry.
      apply Hat; [done|]. by apply step_ids_nodes in Hst as [? _].
    + intros p Hpp. cbn [fst]. symmetry. by apply Hat.
  - destruct k as [|k]; [lia|]. destruct (lookup_lt_is_Some_2 stages k) as [s Hk']; [apply lookup_lt_Some in Hk; lia|].
    refine (links_sum k s (n_kind n) (λ st, st.2 = n_id n) (λ p, n_id n ∈ path_ids p) _ _ _ _); [done|done|..].
    + intros p [i j] Hpp Hst E. cbn in E. subst j. eapply step_from_stage; [done|by apply in_stages|done..|]. right. symmetry.
      apply Hat; [done|]. by apply step_ids_nodes in Hst as [_ ?].
    + intros p Hpp. cbn [snd]. symmetry. by apply Hat.
Qed.
End conservation.

(** ** Shares *)

Lemma flow_totals_links metric ps g fl :
  flow_totals metric ps g → map link_core fl ≡ₚ map link_core (links g) →
  flow_totals metric ps {| nodes := nodes g; links := fl |}.
Proof.
  intros [H1 H2 [H3 H4] H5] Hfl.
  assert (map link_ends fl ≡ₚ map link_ends (links g)) as He.
  { assert (∀ l, map link_ends l = map (λ c, c.1.1) (map link_core l)) as E by (intros; by rewrite map_map).
    rewrite !E. by rewrite Hfl. }
  split; cbn [nodes links]; [done|done| |].
  - split; [by rewrite He|]. intros st. by rewrite He.
  - rewrite Forall_forall in *. intros l Hl. assert (link_core l ∈ map link_core fl) as Hc by by apply list_elem_of_fmap_2.
    rewrite Hfl in Hc. apply list_elem_of_fmap in Hc as (l' & E & Hl'). injection E as E1 E2 E3 E4.
    unfold link_ends. rewrite E1, E2, E3, E4. by apply H5.
Qed.

Lemma graph_shares scheme localeCompare ps metric stages palette options l :
  let g := graph_of_paths scheme localeCompare ps metric stages palette options in
  l ∈ links g →
  ∃ fl, map link_core fl ≡ₚ map link_core (links g) ∧
    let total := first_step_total ps fl in
    l_share l = if nlt zero total then ndiv (l_value l) total else zero.
Proof.
  intros g. unfold g, graph_of_paths. cbn [links]. set (fl := sort_by _ _). intros Hl. exists fl. split.
  - rewrite display_colors_core, map_map. done.
  - unfold assignLinkDisplayColors in Hl. apply list_elem_of_fmap in Hl as (l' & -> & (l0 & -> & _)%list_elem_of_fmap).
    unfold set_display_color. by case_match.
Qed.

(** The total that shares refer to is everything. *)
Lemma first_total metric stages ps g :
  NoDup stages → Forall (λ p, stage_path stages (path p)) ps → countable_paths metric ps → flow_totals metric ps g →
  2 <= length stages → first_step_total ps (links g) = total_value metric ps.
Proof.
  intros Hs Hp Hc Hg Hlen. destruct stages as [|s [|s' rest]]; [cbn in Hlen; lia..|].
  assert (∀ p, p ∈ ps → at_stage s p ∈ root_ids ps ∧
    ∀ st, st ∈ step_ids p → st.1 ∈ root_ids ps → st = (at_stage s p, at_stage s' p)) as Hroot.
  { assert (∀ p, p ∈ ps → ∃ n r, path p = n :: r ∧ pn_id n = at_stage s p ∧ pn_kind n = s ∧ typed n) as Hhead.
    { intros p Hpp. rewrite Forall_forall in Hp.
      destruct (at_stage_lookup _ p Hs (Hp p Hpp) 0 s eq_refl) as (n & Hn & Hk & Hi).
      destruct (path p) as [|m r] eqn:E; [done|]. injection Hn as ->. exists n, r. split_and!; [done..|].
      destruct (Hp p Hpp) as [_ Ht]. rewrite E in Ht. by apply Forall_cons in Ht as [? _]. }
    intros p Hpp. split.
    - destruct (Hhead p Hpp) as (n & r & E & <- & _ & [t Ht]). apply list_elem_of_omap. exists p. split; [done|].
      rewrite E. cbn [head]. rewrite Ht. by destruct (pn_kind n).
    - intros [i j] Hst Hi. cbn [fst] in Hi. apply list_elem_of_omap in Hi as (q & Hq & Ei).
      destruct (Hhead q Hq) as (n & r & E & Hn & Hk & Ht). rewrite E in Ei. cbn [head] in Ei.
      destruct (truthy _); [|done]. injection Ei as <-. rewrite Forall_forall in Hp.
      eapply (step_from_stage _ p 0 s s' Hs (Hp p Hpp)); [done..|]. left. symmetry.
      apply (at_stage_iff (s :: s' :: rest) s p (pn_id n) n); auto; [by left|]. by apply step_ids_nodes in Hst as [? _]. }
  unfold first_step_total. transitivity (total_value metric (filter (λ _, True) ps)); [|by rewrite filter_all by by apply Forall_true].
  rewrite <- (links_sum metric (s :: s' :: rest) ps g Hs Hp Hc Hg 0 s s' (λ st, st.1 ∈ root_ids ps) (λ _, True) eq_refl eq_refl).
  - unfold nsum. rewrite fold_left_map. f_equal. apply filter_ext_in. intros l _. by rewrite has_spec, elem_of_new_set.
  - intros p st Hpp Hst HP. by apply Hroot.
  - intros p Hpp. split; [done|]. intros _. by apply Hroot.
Qed.

(** ** The chart of some rows *)

(** No id of the row has the character that separates ids. *)
Definition plain_row (row : FlowQuotaDataItem) : bool :=
  forallb (λ stage, negb (has 0%N (pn_id (NODE_BUILDERS stage row None)))) FLOW_NODE_KINDS.

(** The rows have natural numbers as metrics, and together less than [2^53]. *)
Definition countable_rows (metric : FlowMetric) (rows : list FlowQuotaDataItem) : Prop :=
  Forall (λ row, whole metric (rowMetrics row)) rows ∧ (zsum (map (λ row, units metric (rowMetrics row)) rows) < 2 ^ 53)%Z.

Section chart.
Variable scheme : list ColorScheme.
Variable localeCompare : jstring → jstring → Z.
Variable NumberFormat : option jstring → NumberFormatOptions → num → jstring.

Section prepared.
Context (rows : list FlowQuotaDataItem) (stages : list FlowNodeKind) (ctx : option (num → jstring))
  (sets : option NodeFilters) (mode : FlowOverflowMode) (labeler : option (FlowNodeKind → jstring)).
Let ps := preparePaths rows stages ctx sets mode labeler.

Lemma prepared_path p : p ∈ ps → ∃ row, row ∈ rows ∧ metrics p = rowMetrics row ∧
  applyTopNodeLimit (flowPathForStages row stages ctx) sets mode labeler = Some (path p).
Proof.
  unfold ps, preparePaths. intros (row & Hrow & E)%list_elem_of_omap. exists row. split; [done|].
  destruct (applyTopNodeLimit _ _ _ _); [|done]. by injection E as <-.
Qed.

Lemma prepared_stages : Forall (λ p, stage_path stages (path p)) ps.
Proof.
  apply Forall_forall. intros p (row & _ & _ & E)%prepared_path. eapply limited_path; [|exact E]. apply flowPath_stages.
Qed.

Lemma prepared_plain : Forall (λ row, plain_row row = true) rows → Forall (λ p, plain_path (path p)) ps.
Proof.
  intros Hr. apply Forall_forall. intros p (row & Hrow & _ & E)%prepared_path. rewrite Forall_forall in Hr.
  specialize (Hr row Hrow). unfold plain_row in Hr. rewrite forallb_forall in Hr.
  assert (plain_path (flowPathForStages row stages ctx)) as Hf.
  { apply Forall_forall. intros n (s & -> & _)%list_elem_of_fmap. rewrite (NODE_BUILDERS_id s row ctx None).
    assert (List.In s FLOW_NODE_KINDS) as Hin by (destruct s; cbn; tauto). specialize (Hr s Hin).
    apply negb_true_iff in Hr. by apply has_spec_false in Hr. }
  unfold applyTopNodeLimit in E. destruct sets as [ss|]; [|by injection E as <-].
  destruct (negb _); [by injection E as <-|]. destruct (bool_decide _); [done|]. injection E as <-.
  apply Forall_map. eapply Forall_impl; [exact Hf|]. intros n Hn. cbn beta in *. case_match; [done|].
  unfold otherFlowNode. cbn [pn_id]. apply has_spec_false. by destruct (pn_kind n).
Qed.

Lemma prepared_countable metric : countable_rows metric rows → countable_paths metric ps.
Proof.
  intros [Hw Hb]. split.
  { apply Forall_forall. intros p (row & Hrow & -> & _)%prepared_path. rewrite Forall_forall in Hw. by apply Hw. }
  eapply Z.le_lt_trans; [|exact Hb]. clear Hb. unfold ps, preparePaths. induction Hw as [|row rest Hw _ IH]; [done|].
  cbn [omap list_omap] in IH |- *. pose proof (proj2 (whole_units metric _ Hw)).
  destruct (applyTopNodeLimit _ _ _ _); cbn [mbind option_bind map zsum foldr metrics]; unfold zsum in IH; [|lia].
  apply Z.add_le_mono_l, IH.
Qed.

(** Unless overflowing paths are hidden, no row is dropped. *)
Lemma prepared_all : sets = None ∨ mode = mode_aggregate → map metrics ps = map rowMetrics rows.
Proof.
  intros H. unfold ps, preparePaths. induction rows as [|row rest IH]; [done|]. cbn [omap list_omap map].
  assert (is_Some (applyTopNodeLimit (flowPathForStages row stages ctx) sets mode labeler)) as [p ->].
  { unfold applyTopNodeLimit. destruct sets; [|by eexists]. destruct (negb _); [by eexists|].
    destruct H as [?| ->]; [done|]. rewrite bool_decide_eq_false_2 by done. by eexists. }
  cbn [mbind option_bind map]. by rewrite IH.
Qed.
End prepared.

(** The paths the chart draws. *)
Definition shown_paths (rows : list FlowQuotaDataItem) (metric : FlowMetric) (options : FlowBuildOptions) : list PreparedFlowPath :=
  let stages := resolveVisibleStages (nullish (fo_role options) role_user) (visibleStages options) in
  let ctx := fo_deletedTokenLabel options in
  let shown := shown_rows rows options in
  preparePaths shown stages ctx
    (buildTopNodeSets localeCompare shown metric stages (normalizeTopNodeLimit (topNodeLimit options)) ctx)
    (nullish (overflowMode options) mode_aggregate) (otherNodeLabel options).

Lemma summary_sum rows metric : metricValue (buildSummary rows) metric = nsum (map (λ row, metricValue (rowMetrics row) metric) rows).
Proof.
  unfold buildSummary, nsum. rewrite fold_left_map.
  assert (metricValue no_metrics metric = zero) as <- by by destruct metric. generalize no_metrics.
  induction rows as [|row rows IH]; intros m; [done|]. cbn [fold_left]. rewrite IH. by destruct metric.
Qed.

Section data.
Context (rows : list FlowQuotaDataItem) (metric : FlowMetric) (options : FlowBuildOptions).
Let data := buildDashboardFlowData scheme localeCompare NumberFormat rows metric options.
Let stages := resolveVisibleStages (nullish (fo_role options) role_user) (visibleStages options).
Hypothesis Hplain : Forall (λ row, plain_row row = true) (shown_rows rows options).

(** C4: The chart refines its specification: its nodes and links are exactly those the
    paths of the shown rows go through, each once, whatever is highlighted, masked
    or merged; each has the totals of the paths through it, in all metrics. *)
Theorem flow_refines : flow_totals metric (shown_paths rows metric options) (flow data).
Proof using Hplain.
  apply (graph_totals scheme localeCompare _ metric stages); [apply NoDup_stages|apply prepared_stages|by apply prepared_plain].
Qed.

Hypothesis Hcount : countable_rows metric (shown_rows rows options).

(** C15: What goes into a node comes out of it: the links into a node and the links out
    of it add up to its value exactly, but for the first and the last column. *)
Theorem flow_balanced n : n ∈ nodes (flow data) →
  ∃ k, stages !! k = Some (n_kind n) ∧
    (0 < k → nsum (map l_value (filter (λ l, l_target l = n_id n) (links (flow data)))) = n_value n) ∧
    (S k < length stages → nsum (map l_value (filter (λ l, l_source l = n_id n) (links (flow data)))) = n_value n).
Proof using Hplain Hcount.
  intros Hn. pose proof (graph_totals scheme localeCompare (shown_paths rows metric options) metric stages (fo_palette options) options
    (NoDup_stages _ _) (prepared_stages _ _ _ _ _ _) (prepared_plain _ _ _ _ _ _ Hplain)) as Hg.
  pose proof (ft_nodes _ _ _ Hg) as Hns. rewrite Forall_forall in Hns.
  destruct (Hns n Hn) as (_ & _ & p & x & Hp & Hx & _ & Ek). pose proof (prepared_stages (shown_rows rows options) stages
    (fo_deletedTokenLabel options) (buildTopNodeSets localeCompare (shown_rows rows options) metric stages
      (normalizeTopNodeLimit (topNodeLimit options)) (fo_deletedTokenLabel options))
    (nullish (overflowMode options) mode_aggregate) (otherNodeLabel options)) as Hst.
  rewrite Forall_forall in Hst. destruct (Hst p Hp) as [Hk _].
  assert (n_kind n ∈ stages) as (k & Hkk)%list_elem_of_lookup by (rewrite <- Ek, <- Hk; by apply list_elem_of_fmap_2).
  exists k. split; [done|]. apply and_comm. rewrite <- Forall_forall in Hst.
  apply (node_balance metric stages (shown_paths rows metric options) (flow data)); try done.
  - apply NoDup_stages.
  - by apply prepared_countable.
Qed.

(** Unless overflowing nodes are hidden, nothing is lost: the nodes of every visible
    column add up to the summary of the chart exactly, and the shares of the links
    are their parts of that total. *)
Lemma flow_conserved : overflowMode options ≠ Some mode_hide ∨ topNodeLimit options = None →
  let total := metricValue (summary data) metric in
  (∀ s, s ∈ stages → nsum (map n_value (filter (λ n, n_kind n = s) (nodes (flow data)))) = total) ∧
  Forall (λ l, l_share l = if nlt zero total then ndiv (l_value l) total else zero) (links (flow data)).
Proof using Hplain Hcount.
  intros Hmode total. pose proof (graph_totals scheme localeCompare (shown_paths rows metric options) metric stages
    (fo_palette options) options (NoDup_stages _ _) (prepared_stages _ _ _ _ _ _) (prepared_plain _ _ _ _ _ _ Hplain)) as Hg.
  assert (total = total_value metric (shown_paths rows metric options)) as Ht.
  { unfold total. cbn [data buildDashboardFlowData summary]. rewrite summary_sum. unfold total_value. f_equal.
    unfold shown_paths. rewrite total_map, prepared_all, map_map; [done|].
    destruct Hmode as [Hm|Hm]; [right|left; by rewrite Hm]. destruct (overflowMode options) as [[]|]; done. }
  rewrite Ht. split.
  - intros s Hs. apply (stage_sum metric stages (shown_paths rows metric options) (flow data)); try done.
    + apply NoDup_stages.
    + apply prepared_stages.
    + by apply prepared_countable.
  - apply Forall_forall. intros l Hl.
    destruct (graph_shares scheme localeCompare (shown_paths rows metric options) metric stages (fo_palette options) options l Hl)
      as (fl & Hfl & ->). pose proof (flow_totals_links _ _ _ fl Hg Hfl) as Hg'. cbn zeta.
    pose proof (first_total metric stages (shown_paths rows metric options) {| nodes := nodes (flow data); links := fl |}
      (NoDup_stages _ _) (prepared_stages _ _ _ _ _ _) (prepared_countable _ _ _ _ _ _ _ Hcount) Hg' (stages_length _ _)) as E.
    cbn [links] in E. by rewrite E.
Qed.
End data.
End chart.

(** ** Examples *)

Module Samples.
(** A colour scheme of two colours, the order by the first character, and the numbers as they are. *)
Definition sample_scheme : list ColorScheme := [{| maxDomainLength := None; scheme := [Some "#1664FF"; Some "#FF8A00"] |}].
Definition sample_order (a b : jstring) : Z := Z.of_N (cu a) - Z.of_N (cu b).
Definition sample_format (_ : option jstring) (_ : NumberFormatOptions) (n : num) : jstring := Number_to_string n.

Lemma sample_order_sym a b : Z.sgn (sample_order b a) = (- Z.sgn (sample_order a b))%Z.
Proof. unfold sample_order. lia. Qed.

Lemma sample_order_trans a b c : (sample_order a b <= 0)%Z → (sample_order b c <= 0)%Z → (sample_order a c <= 0)%Z.
Proof. unfold sample_order. lia. Qed.

Definition sample_row (user token : Z) (group model : jstring) (quota tokens : Z) : FlowQuotaDataItem := {|
  user_id := Some (of_Z user); username := Some ("u" ++ Z_to_js user); node_name := None; use_group := Some group;
  use_group_ref := None; token_id := Some (of_Z token); token_name := None; channel_id := None; channel_name := None;
  model_name := Some model; token_used := Some (of_Z tokens); count := Some (of_Z 1); quota := Some (of_Z quota) |}.

Definition sample_rows : list FlowQuotaDataItem := [
  sample_row 1 7 "vip" "gpt" 40 4; sample_row 1 8 "vip" "claude" 60 6; sample_row 2 9 "std" "gpt" 100 10;
  sample_row 2 9 "std" "llama" 5 1].

Definition sample_options : FlowBuildOptions := {|
  fo_role := None; selectedUsers := None; selectedNodes := None; activeNode := None; activeLink := None; fo_palette := None;
  visibleStages := None; topNodeLimit := Some (of_Z 2); overflowMode := None; maskSensitive := Some true;
  fo_deletedTokenLabel := None; otherNodeLabel := None |}.

Definition sample_data (options : FlowBuildOptions) : ProcessedFlowData :=
  buildDashboardFlowData sample_scheme sample_order sample_format sample_rows metric_quota options.

Lemma sample_plain : Forall (λ row, plain_row row = true) (shown_rows sample_rows sample_options).
Proof. repeat (apply Forall_cons; split; [vm_compute; reflexivity|]). by apply Forall_nil. Qed.

Lemma sample_whole user token group model quota tokens :
  (0 <= quota < 2 ^ 53)%Z → whole metric_quota (rowMetrics (sample_row user token group model quota tokens)).
Proof. intros Hq. exists quota. split; [done|]. cbn. destruct (of_Z_finite quota Hq) as [Hf _]. by rewrite Hf. Qed.

Lemma sample_countable : countable_rows metric_quota (shown_rows sample_rows sample_options).
Proof.
  split; [|vm_compute; reflexivity]. change (shown_rows _ _) with sample_rows. unfold sample_rows.
  repeat (apply Forall_cons; split; [apply sample_whole; lia|]). by apply Forall_nil.
Qed.

(** The nodes of a chart with their values, and its links. *)
Definition node_values (g : DashboardFlowGraph) : list (jstring * jstring * num) := map (λ n, (n_id n, n_label n, n_value n)) (nodes g).
Definition link_values (g : DashboardFlowGraph) : list (jstring * jstring * num) := map (λ l, (l_source l, l_target l, l_value l)) (links g).
End Samples.

Section examples.
Import Samples.

Example sample_nodes : node_values (flow (sample_data sample_options)) = [
  ("model:gpt", "gpt", of_Z 140); ("token:9", "••••", of_Z 105); ("group:std", "••••", of_Z 105); ("group:vip", "••••", of_Z 100);
  ("model:claude", "claude", of_Z 60); ("token:8", "••••", of_Z 60); ("token:__other__", "Other tokens", of_Z 40);
  ("model:__other__", "Other models", of_Z 5)].
Proof. vm_compute. reflexivity. Qed.

Example sample_links : link_values (flow (sample_data sample_options)) = [
  ("group:vip", "model:gpt", of_Z 40); ("group:vip", "model:claude", of_Z 60); ("group:std", "model:gpt", of_Z 100);
  ("group:std", "model:__other__", of_Z 5); ("token:__other__", "group:vip", of_Z 40); ("token:8", "group:vip", of_Z 60);
  ("token:9", "group:std", of_Z 105)].
Proof. vm_compute. reflexivity. Qed.

(** A user whose name is a number, without an id, shares the node of the user with that id. *)
Example user_name_as_id : pn_id (userNode (sample_row 5 1 "g" "m" 0 0)) = pn_id (userNode {|
  user_id := None; username := Some "5"; node_name := None; use_group := None; use_group_ref := None; token_id := None;
  token_name := None; channel_id := None; channel_name := None; model_name := None; token_used := None; count := None; quota := None |}).
Proof. vm_compute. reflexivity. Qed.

Example flow_refines_witness :
  flow_totals metric_quota (shown_paths sample_order sample_rows metric_quota sample_options) (flow (sample_data sample_options)).
Proof.
  apply (flow_refines sample_scheme sample_order sample_format sample_rows metric_quota sample_options).
  repeat (apply Forall_cons; split; [vm_compute; reflexivity|]). by apply Forall_nil.
Defined.

Example flow_balanced_witness : ∃ n, nodes (flow (sample_data sample_options)) !! 0 = Some n ∧ n_value n = of_Z 140 ∧
  nsum (map l_value (filter (λ l, l_target l = n_id n) (links (flow (sample_data sample_options))))) = n_value n.
Proof.
  assert ((λ n, (n_kind n, n_value n)) <$> nodes (flow (sample_data sample_options)) !! 0 = Some (kind_model, of_Z 140)) as E
    by (vm_compute; reflexivity).
  destruct (nodes (flow (sample_data sample_options)) !! 0) as [n|] eqn:En; [|discriminate E]. injection E as Ek Ev.
  destruct (flow_balanced sample_scheme sample_order sample_format sample_rows metric_quota sample_options sample_plain
    sample_countable n (list_elem_of_lookup_2 _ 0 n En)) as (k & Hk & Hin & _).
  exists n. split; [reflexivity|]. split; [exact Ev|]. apply Hin. destruct k; [|lia]. rewrite Ek in Hk. discriminate Hk.
Defined.

Example flow_conserved_witness :
  nsum (map n_value (filter (λ n, n_kind n = kind_token) (nodes (flow (sample_data sample_options))))) = of_Z 205.
Proof.
  destruct (flow_conserved sample_scheme sample_order sample_format sample_rows metric_quota sample_options sample_plain
    sample_countable) as [H _]; [left; discriminate|].
  etransitivity; [refine (H kind_token _); left|vm_compute; reflexivity].
Defined.
End examples.
