(* ===== verification/FlowFilters.v ===== *)
(** * FlowFilters: the filters of the flow chart and the limit to the top nodes

    What the node filters keep ([filterRowsByNodes_spec]), the amounts beside the
    options of the filters, and which nodes the limit keeps. *)
From Stdlib Require Import Floats.SpecFloat.
From S2P Require Import Prelude JsString JsNumber JsFloat Currency DashboardFlow FlowTotals.

(** ** Node filters *)

(** The filters of each stage that has any name the node of the row. *)
Definition row_matches (sel : list FlowNodeFilter) (stages : list FlowNodeKind) (ctx : option (num → jstring))
  (row : FlowQuotaDataItem) : Prop :=
  Forall (λ stage, Forall (λ f, nf_kind f ≠ stage) sel ∨
                   {| nf_kind := stage; nf_id := pn_id (NODE_BUILDERS stage row ctx) |} ∈ sel) stages.

#[export] Instance row_matches_dec sel stages ctx row : Decision (row_matches sel stages ctx row).
Proof. unfold row_matches. apply _. Defined.

Lemma elem_of_fold_set_add_map {A B} `{EqDecision B} (f : A → B) y l s :
  y ∈ fold_left (λ s x, set_add (f x) s) l s ↔ y ∈ map f l ∨ y ∈ s.
Proof. rewrite <- (fold_left_map (λ s x, set_add x s)), elem_of_fold_set_add. tauto. Qed.

Lemma normalize_grouped sel stages :
  normalizeSelectedNodeFilters sel stages
  = fold_left (group_add nf_kind (λ _, []) (λ s f, set_add (nf_id f) s)) (filter (λ f, nf_kind f ∈ stages) (default [] sel)) [].
Proof.
  unfold normalizeSelectedNodeFilters. generalize (default [] sel). intros l. generalize (@nil (FlowNodeKind * list jstring)).
  induction l as [|f l IH]; intros m; [done|]. cbn [fold_left]. rewrite IH, filter_cons. clear IH. unfold has.
  case_decide; case_bool_decide; try done. 
Qed.

(** A path has one node at each of its stages. *)
Lemma path_at_stage stages row ctx s :
  NoDup stages → s ∈ stages → filter (λ n, pn_kind n = s) (flowPathForStages row stages ctx) = [NODE_BUILDERS s row ctx].
Proof.
  intros Hnd Hs. assert (NODE_BUILDERS s row ctx ∈ flowPathForStages row stages ctx) as Hin.
  { apply list_elem_of_fmap_2 with (f := λ stage, NODE_BUILDERS stage row ctx). done. }
  pose proof (filter_key_one pn_kind _ _ ltac:(by rewrite (sp_kinds _ _ (flowPath_stages row stages ctx))) Hin) as H.
  by rewrite NODE_BUILDERS_kind in H.
Qed.

Lemma pathNodesByKind_spec stages row ctx stage :
  NoDup stages → stage ∈ stages →
  oget stage (pathNodesByKind (flowPathForStages row stages ctx)) = Some [pn_id (NODE_BUILDERS stage row ctx)].
Proof.
  intros Hnd Hs. unfold pathNodesByKind.
  change (fold_left _ ?l []) with (fold_left (group_add pn_kind (λ _, []) (λ s n, set_add (pn_id n) s)) l []).
  by rewrite oget_group, path_at_stage.
Qed.

Lemma matches_spec sel stages ctx row :
  NoDup stages →
  pathMatchesNodeFilters (flowPathForStages row stages ctx) (normalizeSelectedNodeFilters sel stages) = true ↔
  row_matches (default [] sel) stages ctx row.
Proof.
  intros Hnd. set (path := flowPathForStages row stages ctx). set (filters := normalizeSelectedNodeFilters sel stages).
  assert (pathMatchesNodeFilters path filters =
    forallb (λ '(kind, selectedIds), match oget kind (pathNodesByKind path) with
      | None => false | Some pathIds => existsb (λ id, has id pathIds) selectedIds end) filters) as ->.
  { by destruct filters. }
  rewrite forallb_forall. unfold row_matches. rewrite Forall_forall. set (l := default [] sel).
  assert (∀ k ids, (k, ids) ∈ filters ↔ k ∈ stages ∧ ∃ f r, filter (λ f, nf_kind f = k) l = f :: r ∧
    ids = fold_left (λ s f, set_add (nf_id f) s) (f :: r) []) as Hf.
  { intros k ids. unfold filters. rewrite normalize_grouped, elem_of_group, list_filter_filter. split.
    - intros (f & r & E & ->). assert (f ∈ filter (λ f, nf_kind f = k ∧ nf_kind f ∈ stages) l) as Hin by (unfold l; rewrite E; left).
      apply list_elem_of_filter in Hin as [[<- Hk] _]. split; [done|]. exists f, r. split; [|done]. rewrite <- E. fold l.
      apply filter_ext_in. intros x _. split; [intros E'; by rewrite E'|by intros []].
    - intros [Hk (f & r & E & ->)]. exists f, r. split; [|done]. rewrite <- E. fold l.
      apply filter_ext_in. intros x _. split; [by intros []|intros E'; by rewrite E']. }
  split.
  - intros H stage Hs. destruct (filter (λ f, nf_kind f = stage) l) as [|f r] eqn:E.
    { left. apply Forall_forall. intros f Hin Hk. by apply (filter_nil_not_elem_of _ _ f E). }
    right. specialize (H (stage, fold_left (λ s f, set_add (nf_id f) s) (f :: r) [])). cbn beta iota in H.
    unfold path in H. rewrite pathNodesByKind_spec in H by done.
    assert (existsb (λ id, has id [pn_id (NODE_BUILDERS stage row ctx)]) (fold_left (λ s f, set_add (nf_id f) s) (f :: r) []) = true) as Hx.
    { apply H, list_elem_of_In, Hf. split; [done|]. by exists f, r. }
    apply existsb_exists in Hx as (i & Hi%list_elem_of_In & Hhas). apply has_spec, list_elem_of_singleton in Hhas as ->.
    apply elem_of_fold_set_add_map in Hi as [Hi|Hi]; [|by apply elem_of_nil in Hi]. rewrite <- E in Hi.
    apply list_elem_of_fmap in Hi as ([k i] & -> & [Hk Hin]%list_elem_of_filter). cbn in Hk. by subst k.
  - intros H [k ids] Hin%list_elem_of_In. apply Hf in Hin as [Hk (f & r & E & ->)]. unfold path. rewrite pathNodesByKind_spec by done.
    apply existsb_exists. exists (pn_id (NODE_BUILDERS k row ctx)). rewrite has_spec, list_elem_of_singleton. split; [|done].
    apply list_elem_of_In, elem_of_fold_set_add_map. left. rewrite <- E. destruct (H k Hk) as [Hnone|Hin].
    + rewrite Forall_forall in Hnone. assert (f ∈ filter (λ f, nf_kind f = k) l) as [? ?]%list_elem_of_filter by (rewrite E; left).
      by destruct (Hnone f).
    + apply list_elem_of_fmap. exists {| nf_kind := k; nf_id := pn_id (NODE_BUILDERS k row ctx) |}. split; [done|].
      by apply list_elem_of_filter.
Qed.

Lemma filterRowsByNodes_spec rows sel stages ctx :
  NoDup stages → filterRowsByNodes rows sel stages ctx = filter (row_matches (default [] sel) stages ctx) rows.
Proof.
  intros Hnd. unfold filterRowsByNodes. destruct (Nat.eqb_spec (length (normalizeSelectedNodeFilters sel stages)) 0) as [E|E].
  - apply nil_length_inv in E. symmetry. apply filter_all, Forall_forall. intros row _. apply matches_spec; [done|]. by rewrite E.
  - apply filter_ext_in. intros row _. by apply matches_spec.
Qed.

(** ** The amounts beside the options *)

Section options.
Variable scheme : list ColorScheme.
Variable localeCompare : jstring → jstring → Z.
Variable NumberFormat : option jstring → NumberFormatOptions → num → jstring.

(** The options of the chart with only one filter chosen at the stage of that filter. *)
Definition select_only (f : FlowNodeFilter) (options : FlowBuildOptions) : FlowBuildOptions := {|
  fo_role := fo_role options; selectedUsers := selectedUsers options;
  selectedNodes := Some (filter (λ g, nf_kind g ≠ nf_kind f) (default [] (selectedNodes options)) ++ [f]);
  activeNode := activeNode options; activeLink := activeLink options; fo_palette := fo_palette options;
  visibleStages := visibleStages options; topNodeLimit := topNodeLimit options; overflowMode := overflowMode options;
  maskSensitive := maskSensitive options; fo_deletedTokenLabel := fo_deletedTokenLabel options;
  otherNodeLabel := otherNodeLabel options |}.

Lemma except_kind sel stage :
  default [] (selectedNodeFiltersExceptKind sel stage) = filter (λ f, nf_kind f ≠ stage) (default [] sel).
Proof. unfold selectedNodeFiltersExceptKind. by destruct (filter _ _). Qed.

Lemma row_matches_snoc sel stages ctx row f :
  nf_kind f ∈ stages → Forall (λ g, nf_kind g ≠ nf_kind f) sel →
  row_matches (sel ++ [f]) stages ctx row ↔
  row_matches sel stages ctx row ∧ pn_id (NODE_BUILDERS (nf_kind f) row ctx) = nf_id f.
Proof.
  intros Hf Hsel. unfold row_matches. rewrite !Forall_forall. rewrite Forall_forall in Hsel. split.
  - intros H. split.
    + intros stage Hs. destruct (H stage Hs) as [H'|H'].
      * left. apply Forall_app in H' as [? _]. done.
      * apply elem_of_app in H' as [H'|H']; [by right|]. apply list_elem_of_singleton in H'. left.
        apply Forall_forall. intros g Hg. rewrite <- H' in Hsel. by apply Hsel.
    + destruct (H (nf_kind f) Hf) as [H'|H'].
      * apply Forall_app in H' as [_ H']. rewrite Forall_singleton in H'. by destruct H'.
      * apply elem_of_app in H' as [H'|H']; [exfalso; by apply (Hsel _ H')|]. apply list_elem_of_singleton in H'. by rewrite <- H'.
  - intros [H Hid] stage Hs. destruct (decide (nf_kind f = stage)) as [<-|Hne].
    + right. apply elem_of_app. right. apply list_elem_of_singleton. rewrite Hid. by destruct f.
    + destruct (H stage Hs) as [H'|H']; [left|right; by apply elem_of_app; left].
      apply Forall_app. split; [done|]. by apply Forall_singleton.
Qed.

Lemma nodeFilterKey_inj k i j : nodeFilterKey {| nf_kind := k; nf_id := i |} = nodeFilterKey {| nf_kind := k; nf_id := j |} → i = j.
Proof. unfold nodeFilterKey. cbn [nf_kind nf_id]. intros E%app_inv_head. by apply app_inv_head in E. Qed.

(** The total of an option is that of the rows with its node. *)
Lemma stage_option_total metric stage ctx rows k rank :
  (k, rank) ∈ fold_left (add_option metric stage ctx) rows [] →
  pn_kind (rk_node rank) = stage ∧
  rk_value rank = nsum (map (λ row, metricValue (rowMetrics row) metric)
    (filter (λ row, pn_id (NODE_BUILDERS stage row ctx) = pn_id (rk_node rank)) rows)).
Proof.
  set (key row := nodeFilterKey {| nf_kind := pn_kind (NODE_BUILDERS stage row ctx); nf_id := pn_id (NODE_BUILDERS stage row ctx) |}).
  set (init row := {| rk_node := NODE_BUILDERS stage row ctx; rk_value := zero |}).
  set (step (r : FlowNodeRank) row := {| rk_node := rk_node r; rk_value := nadd (rk_value r) (metricValue (rowMetrics row) metric) |}).
  change (fold_left _ rows []) with (fold_left (group_add key init step) rows []).
  intros (row & rest & E & ->)%elem_of_group.
  assert (∀ l r, fold_left step l r = {| rk_node := rk_node r;
    rk_value := fold_left nadd (map (λ row, metricValue (rowMetrics row) metric) l) (rk_value r) |}) as Hfold.
  { induction l as [|x l IH]; intros r; [by destruct r|]. cbn [fold_left map]. by rewrite IH. }
  rewrite Hfold. cbn [rk_node rk_value init]. split; [apply NODE_BUILDERS_kind|]. unfold nsum. f_equal. f_equal. rewrite <- E.
  assert (row ∈ filter (λ row, key row = k) rows) as [Hk _]%list_elem_of_filter by (rewrite E; left).
  apply filter_ext_in. intros x _. rewrite <- Hk. unfold key. rewrite !NODE_BUILDERS_kind. split.
  - apply nodeFilterKey_inj.
  - by intros ->.
Qed.

(** C16: The amount beside an option of the node filters is exactly the total of the
    chart when that option alone is chosen in its column, with the filters of the
    other columns and of the users as they are. *)
Theorem option_total rows metric options o :
  let chart options := buildDashboardFlowData scheme localeCompare NumberFormat rows metric options in
  o ∈ node_options (filterOptions (chart options)) →
  no_valueRaw o = metricValue (summary (chart (select_only {| nf_kind := no_kind o; nf_id := no_value o |} options))) metric.
Proof.
  intros chart. cbn [chart buildDashboardFlowData filterOptions node_options summary]. unfold buildNodeFilterOptions.
  rewrite elem_of_sort_by. intros (stage & Ho & Hs)%list_elem_of_bind. unfold stage_options in Ho.
  apply list_elem_of_fmap in Ho as (rank & -> & Hr). unfold ovalues in Hr. apply list_elem_of_fmap in Hr as ([k rank'] & -> & Hr).
  cbn [snd no_valueRaw no_kind no_value]. apply stage_option_total in Hr as [Hk Hv]. rewrite Hv, summary_sum.
  unfold shown_rows. cbn [select_only fo_role selectedUsers selectedNodes visibleStages fo_deletedTokenLabel nf_kind].
  rewrite !filterRowsByNodes_spec, except_kind, list_filter_filter by apply NoDup_stages. cbn [default from_option id].
  f_equal. f_equal. apply filter_ext_in. intros row _. rewrite row_matches_snoc; cbn [nf_kind nf_id].
  - rewrite Hk. tauto.
  - by rewrite Hk.
  - apply Forall_forall. by intros g [? _]%list_elem_of_filter.
Qed.
End options.

(** ** The limit to the top nodes *)

(** Comparing by one order, then by another. *)
Lemma or_else_le (c next : Z) : (or_else c next <= 0)%Z ↔ (c < 0)%Z ∨ c = 0%Z ∧ (next <= 0)%Z.
Proof. unfold or_else. destruct (Z.eqb_spec c 0); lia. Qed.

Section ranks.
Context (metric : FlowMetric) (stages : list FlowNodeKind) (ctx : option (num → jstring)).
Hypothesis Hnd : NoDup stages.

(** The totals of one stage, by the id of the node. *)
Definition rank_key (s : FlowNodeKind) (row : FlowQuotaDataItem) : jstring := pn_id (NODE_BUILDERS s row ctx).
Definition rank_init (s : FlowNodeKind) (row : FlowQuotaDataItem) : FlowNodeRank :=
  {| rk_node := NODE_BUILDERS s row ctx; rk_value := zero |}.
Definition rank_step (r : FlowNodeRank) (row : FlowQuotaDataItem) : FlowNodeRank :=
  {| rk_node := rk_node r; rk_value := nadd (rk_value r) (metricValue (rowMetrics row) metric) |}.

Lemma add_ranks row path totals s :
  NoDup (map pn_kind path) →
  oget s (fold_left (add_rank (metricValue (rowMetrics row) metric)) path totals)
  = match oget s totals, head (filter (λ n, pn_kind n = s) path) with
    | Some st, Some n => Some (group_add pn_id (λ n, {| rk_node := n; rk_value := zero |}) (λ r _, rank_step r row) st n)
    | st, _ => st
    end.
Proof.
  revert totals. induction path as [|n path IH]; intros totals Hp; [cbn [fold_left]; by destruct (oget s totals)|].
  cbn [map fold_left] in *. apply NoDup_cons in Hp as [Hn Hp]. rewrite IH by done. rewrite filter_cons. unfold add_rank at 1.
  destruct (decide (pn_kind n = s)) as [<-|Hne].
  - rewrite filter_key_none by done. cbn [head]. destruct (oget (pn_kind n) totals) as [st|] eqn:E; [by rewrite oget_oset_eq|by rewrite E].
  - destruct (oget (pn_kind n) totals) as [st|]; [by rewrite oget_oset_ne|done].
Qed.

Lemma stage_totals_spec rows s :
  s ∈ stages →
  oget s (stage_totals rows metric stages ctx) = Some (fold_left (group_add (rank_key s) (rank_init s) rank_step) rows []).
Proof using Hnd.
  intros Hs. unfold stage_totals.
  assert (oget s (fold_left (λ totals stage, oset stage [] totals) stages []) = Some (@nil (jstring * FlowNodeRank))) as H0.
  { change (fold_left _ stages []) with (fold_left (group_add (λ s : FlowNodeKind, s) (λ _, @nil (jstring * FlowNodeRank)) (λ _ _, [])) stages []).
    rewrite oget_group. assert (s ∈ filter (λ e, e = s) stages) as Hin by by apply list_elem_of_filter.
    destruct (filter _ stages) as [|e r]; [by apply elem_of_nil in Hin|]. by destruct r using rev_ind; [|rewrite app_comm_cons, fold_left_app]. }
  revert H0. set (totals0 := fold_left _ stages []). clearbody totals0. revert totals0. generalize (@nil (jstring * FlowNodeRank)).
  induction rows as [|row rows IH]; intros st totals H0; [done|].
  cbn [fold_left]. apply IH. rewrite add_ranks by (rewrite (sp_kinds _ _ (flowPath_stages row stages ctx)); done).
  unfold StageTotals in *. rewrite H0. by rewrite path_at_stage.
Qed.

Lemma okeys_stage_totals rows : okeys (stage_totals rows metric stages ctx) = stages.
Proof using Hnd.
  unfold stage_totals. assert (okeys (fold_left (λ totals stage, oset stage ([] : StageTotals) totals) stages []) = stages) as H0.
  { change (fold_left _ stages []) with (fold_left (group_add (λ s : FlowNodeKind, s) (λ _, [] : StageTotals) (λ _ _, [])) stages []).
    rewrite okeys_grouped, map_id. by apply new_set_NoDup. }
  revert H0. set (totals0 := fold_left _ stages []). clearbody totals0. revert totals0.
  induction rows as [|row rows IH]; intros totals H0; [done|]. cbn [fold_left]. apply IH.
  assert (∀ path totals, Forall (λ n, pn_kind n ∈ okeys totals) path →
    okeys (fold_left (add_rank (metricValue (rowMetrics row) metric)) path totals) = okeys totals) as H.
  { clear. induction path as [|n path IH]; intros totals Hk; [done|]. apply Forall_cons in Hk as [Hn Hk]. cbn [fold_left].
    assert (okeys (add_rank (metricValue (rowMetrics row) metric) totals n) = okeys totals) as E.
    { unfold add_rank. destruct (oget (pn_kind n) totals); [|done]. rewrite okeys_oset. unfold set_add.
      by rewrite (proj2 (has_spec _ _) Hn). }
    rewrite IH; [done|]. by rewrite E. }
  rewrite H; [done|]. rewrite H0. apply Forall_forall. intros n (s & -> & Hs)%list_elem_of_fmap. by rewrite NODE_BUILDERS_kind.
Qed.
End ranks.

(** *** Merging *)

Section merged.
Context (stages : list FlowNodeKind) (ctx : option (num → jstring)) (labeler : option (FlowNodeKind → jstring)).

(** The node a row has at a stage once overflowing nodes are merged. *)
Definition merged_node (sets : NodeFilters) (n : FlowPathNode) : FlowPathNode :=
  if isTopFlowNode n (Some sets) then n else otherFlowNode (pn_kind n) labeler.

Definition merged_path (sets : NodeFilters) (row : FlowQuotaDataItem) : PreparedFlowPath :=
  {| path := map (merged_node sets) (flowPathForStages row stages ctx); metrics := rowMetrics row |}.

Lemma merged_paths rows sets : preparePaths rows stages ctx (Some sets) mode_aggregate labeler = map (merged_path sets) rows.
Proof.
  unfold preparePaths. induction rows as [|row rest IH]; [done|]. cbn [omap list_omap map].
  assert (applyTopNodeLimit (flowPathForStages row stages ctx) (Some sets) mode_aggregate labeler
    = Some (map (merged_node sets) (flowPathForStages row stages ctx))) as ->.
  { unfold applyTopNodeLimit. destruct (existsb _ _) eqn:E; [done|]. cbn [negb]. f_equal.
    rewrite <- (map_id (flowPathForStages _ _ _)) at 1. apply map_ext_in. intros n Hn. unfold merged_node.
    destruct (isTopFlowNode n (Some sets)) eqn:Et; [done|]. exfalso. apply Bool.not_true_iff_false in E. apply E, existsb_exists.
    exists n. by rewrite Et. }
  cbn [mbind option_bind]. f_equal. exact IH.
Qed.

Lemma merged_node_kind sets n : pn_kind (merged_node sets n) = pn_kind n.
Proof. unfold merged_node. by destruct (isTopFlowNode _ _). Qed.

Lemma merged_at_stage sets s row : NoDup stages → s ∈ stages → at_stage s (merged_path sets row) = pn_id (merged_node sets (NODE_BUILDERS s row ctx)).
Proof.
  intros Hnd Hs. unfold at_stage, merged_path. cbn [path].
  assert (∀ l, filter (λ n, pn_kind n = s) (map (merged_node sets) l) = map (merged_node sets) (filter (λ n, pn_kind n = s) l)) as ->.
  { clear. induction l as [|n l IH]; [done|]. cbn [map]. rewrite !filter_cons, IH, merged_node_kind. by case_decide. }
  by rewrite path_at_stage.
Qed.

End merged.

Section top.
Variable scheme : list ColorScheme.
Variable localeCompare : jstring → jstring → Z.
Variable NumberFormat : option jstring → NumberFormatOptions → num → jstring.
(** The collation orders the texts. *)
Hypothesis localeCompare_sym : ∀ a b, Z.sgn (localeCompare b a) = (- Z.sgn (localeCompare a b))%Z.
Hypothesis localeCompare_trans : ∀ a b c,
  (localeCompare a b <= 0)%Z → (localeCompare b c <= 0)%Z → (localeCompare a c <= 0)%Z.

(** The order of ranks with the same value. *)
Definition rank_names (a b : FlowNodeRank) : Z :=
  or_else (localeCompare (pn_label (rk_node a)) (pn_label (rk_node b))) (localeCompare (pn_id (rk_node a)) (pn_id (rk_node b))).

Lemma rank_names_total a b : (0 < rank_names a b)%Z → (rank_names b a <= 0)%Z.
Proof using localeCompare_sym.
  intros H. apply or_else_le. pose proof (localeCompare_sym (pn_label (rk_node a)) (pn_label (rk_node b))).
  pose proof (localeCompare_sym (pn_id (rk_node a)) (pn_id (rk_node b))). unfold rank_names, or_else in H.
  destruct (Z.eqb_spec (localeCompare (pn_label (rk_node a)) (pn_label (rk_node b))) 0); lia.
Qed.

Lemma rank_names_trans a b c : cmp_le rank_names a b → cmp_le rank_names b c → cmp_le rank_names a c.
Proof using localeCompare_sym localeCompare_trans.
  unfold cmp_le, rank_names. rewrite !or_else_le.
  set (x := pn_label (rk_node a)). set (y := pn_label (rk_node b)). set (z := pn_label (rk_node c)).
  pose proof (localeCompare_trans (pn_id (rk_node a)) (pn_id (rk_node b)) (pn_id (rk_node c))).
  pose proof (localeCompare_trans x y z). pose proof (localeCompare_trans z x y). pose proof (localeCompare_trans y z x).
  pose proof (localeCompare_trans z y x). pose proof (localeCompare_trans y x z). pose proof (localeCompare_trans x z y).
  pose proof (localeCompare_sym x y). pose proof (localeCompare_sym y z). pose proof (localeCompare_sym x z). lia.
Qed.

(** What the first of the sorted ranks have, the others do not exceed. *)
Lemma top_ranks n ranks a b :
  Forall (proper_number rk_value) ranks →
  a ∈ take n (sort_by (rank_order localeCompare) ranks) → b ∈ ranks → b ∉ take n (sort_by (rank_order localeCompare) ranks) →
  nle (rk_value b) (rk_value a) = true.
Proof using localeCompare_sym localeCompare_trans.
  intros HP Ha Hb Hnb.
  pose proof (sort_then_sorted rk_value true rank_names rank_names_total rank_names_trans ranks HP) as Hs.
  change (number_then rk_value true rank_names) with (rank_order localeCompare) in Hs.
  apply (elem_of_sort_by (rank_order localeCompare)) in Hb. set (sorted := sort_by _ ranks) in *.
  rewrite <- (take_drop n sorted) in Hs, Hb. apply elem_of_app in Hb as [Hb|Hb]; [done|].
  assert (before_then rk_value true rank_names a b) as [H|[H _]].
  { clear -Hs Ha Hb. induction (take n sorted) as [|x l IH]; [by apply elem_of_nil in Ha|]. cbn [app] in Hs.
    apply StronglySorted_inv in Hs as [Hs Hx]. apply elem_of_cons in Ha as [->|Ha]; [|by apply IH].
    rewrite Forall_forall in Hx. apply Hx, elem_of_app. by right. }
  - by apply nlt_nle.
  - rewrite Forall_forall in HP. apply neqb_nle; [..|done]; apply finite_not_nan, HP.
    + apply (elem_of_sort_by (rank_order localeCompare)). fold sorted. rewrite <- (take_drop n sorted). apply elem_of_app. by left.
    + apply (elem_of_sort_by (rank_order localeCompare)). fold sorted. rewrite <- (take_drop n sorted). apply elem_of_app. by right.
Qed.

Lemma slice_0_take {A} z (l : list A) : (0 <= z)%Z → slice 0 z l = take (Z.to_nat z) l.
Proof.
  intros Hz. unfold slice, slice_nat, rel_index. rewrite bool_decide_eq_false_2, bool_decide_eq_false_2 by lia.
  rewrite Nat.min_0_l, Nat.sub_0_r. cbn [drop].
  destruct (Nat.le_ge_cases (Z.to_nat z) (length l)); [by rewrite Nat.min_l|]. rewrite Nat.min_r by done.
  rewrite (take_ge l (Z.to_nat z)) by done. by rewrite take_ge.
Qed.

(** The number of nodes a limit lets through. *)
Definition limit_count (limit : num) : nat := Z.to_nat (default 0%Z (floor_Z limit)).

Lemma normalized_limit o limit :
  normalizeTopNodeLimit o = Some limit → num_truthy limit = true ∧ (0 <= default 0 (floor_Z limit))%Z.
Proof.
  unfold normalizeTopNodeLimit. destruct o as [x|]; [|done]. destruct (_ && _) eqn:E; [|done]. intros [= <-].
  apply andb_true_iff in E as [Hf Hp]. destruct (nfloor x) as [[]|[]| |[] m e]; try done. split; [done|].
  cbn [floor_Z default from_option signed]. apply Z.shiftl_nonneg. lia.
Qed.

Section limit.
Context (rows : list FlowQuotaDataItem) (metric : FlowMetric) (stages : list FlowNodeKind) (ctx : option (num → jstring))
  (limit : num).
Hypothesis Hnd : NoDup stages.
Hypothesis Hlimit : num_truthy limit = true ∧ (0 <= default 0 (floor_Z limit))%Z.
Hypothesis Hcount : countable_rows metric rows.

(** What the rows with a node add up to. *)
Definition row_total (s : FlowNodeKind) (i : jstring) : num :=
  nsum (map (λ row, metricValue (rowMetrics row) metric) (filter (λ row, rank_key ctx s row = i) rows)).

Let ranks (s : FlowNodeKind) : StageTotals := fold_left (group_add (rank_key ctx s) (rank_init ctx s) (rank_step metric)) rows [].

(** The ids of the top nodes of a stage. *)
Definition top_ids (s : FlowNodeKind) : list jstring :=
  map (λ r, pn_id (rk_node r)) (take (limit_count limit) (sort_by (rank_order localeCompare) (ovalues (ranks s)))).

Lemma rank_value s k r : (k, r) ∈ ranks s → pn_id (rk_node r) = k ∧ rk_value r = row_total s k.
Proof.
  intros (row & rest & E & ->)%elem_of_group.
  assert (∀ l r, fold_left (rank_step metric) l r = {| rk_node := rk_node r;
    rk_value := fold_left nadd (map (λ row, metricValue (rowMetrics row) metric) l) (rk_value r) |}) as Hfold.
  { induction l as [|x l IH]; intros r; [by destruct r|]. cbn [fold_left map]. by rewrite IH. }
  rewrite Hfold. cbn [rk_node rk_value rank_init]. unfold row_total. rewrite E. split; [|done].
  assert (row ∈ filter (λ row, rank_key ctx s row = k) rows) as [Hk _]%list_elem_of_filter by (rewrite E; left). exact Hk.
Qed.

Lemma row_total_exact s i : ∃ z, (0 <= z < 2 ^ 53)%Z ∧ row_total s i = of_Z z.
Proof using Hcount.
  destruct Hcount as [Hw Hb]. set (u row := units metric (rowMetrics row)) in *. unfold row_total.
  exists (zsum (map u (filter (λ row, rank_key ctx s row = i) rows))).
  assert (Forall (λ row, (0 <= u row)%Z) rows) as Hu by (eapply Forall_impl; [exact Hw|]; intros row Hr; by apply whole_units).
  pose proof (zsum_filter_le (λ row, rank_key ctx s row = i) u rows Hu) as Hle.
  assert (Forall (λ z, (0 <= z)%Z) (map u (filter (λ row, rank_key ctx s row = i) rows))) as Hnn.
  { apply Forall_map, Forall_forall. intros row [_ Hr]%list_elem_of_filter. rewrite Forall_forall in Hu. by apply Hu. }
  pose proof (zsum_nonneg _ Hnn). split; [lia|]. rewrite <- nsum_of_Z by (done || lia). f_equal.
  rewrite map_map. apply map_ext_in. intros row Hr%list_elem_of_In. apply list_elem_of_filter in Hr as [_ Hr].
  rewrite Forall_forall in Hw. by apply whole_units, Hw.
Qed.

Lemma top_sets : ∃ sets, buildTopNodeSets localeCompare rows metric stages (Some limit) ctx = Some sets ∧
  ∀ s row, s ∈ stages → isTopFlowNode (NODE_BUILDERS s row ctx) (Some sets) = has (rank_key ctx s row) (top_ids s).
Proof using Hnd Hlimit.
  unfold buildTopNodeSets. destruct Hlimit as [-> Hz]. cbn [negb]. eexists. split; [reflexivity|]. intros s row Hs.
  unfold isTopFlowNode. rewrite NODE_BUILDERS_kind.
  set (ids (st : StageTotals) := new_set (map (λ rank, pn_id (rk_node rank)) (slice 0 (default 0%Z (floor_Z limit)) (sort_by (rank_order localeCompare) (ovalues st))))).
  rewrite (oget_fold_map ids) by (rewrite okeys_stage_totals; done). rewrite stage_totals_spec by done.
  unfold ids. rewrite slice_0_take by done. apply bool_decide_ext. by rewrite elem_of_new_set.
Qed.

Lemma top_id_total s i : i ∈ top_ids s → ∃ r, pn_id (rk_node r) = i ∧ rk_value r = row_total s i ∧
  r ∈ take (limit_count limit) (sort_by (rank_order localeCompare) (ovalues (ranks s))).
Proof.
  intros (r & -> & Hr)%list_elem_of_fmap. exists r. split_and!; [done| |done]. assert (r ∈ ovalues (ranks s)) as Hin.
  { apply (elem_of_sort_by (rank_order localeCompare)). rewrite <- (take_drop (limit_count limit) (sort_by _ _)).
    apply elem_of_app. by left. }
  unfold ovalues in Hin. apply list_elem_of_fmap in Hin as ([k r'] & -> & Hin). by destruct (rank_value _ _ _ Hin) as [<- ?].
Qed.

(** A node that is not among the top ones has no more than any of them. *)
Lemma top_ids_most s i row : i ∈ top_ids s → row ∈ rows → rank_key ctx s row ∉ top_ids s →
  nle (row_total s (rank_key ctx s row)) (row_total s i) = true.
Proof using localeCompare_sym localeCompare_trans Hcount.
  intros Hi Hrow Hn. destruct (top_id_total s i Hi) as (a & _ & <- & Ha).
  assert (rank_key ctx s row ∈ okeys (ranks s)) as ((k, b) & Ek & Hb)%list_elem_of_fmap.
  { unfold ranks. rewrite okeys_grouped, elem_of_new_set. by apply list_elem_of_fmap_2. }
  cbn in Ek. subst k. destruct (rank_value _ _ _ Hb) as [Eb <-].
  assert (b ∈ ovalues (ranks s)) as Hbv by by apply list_elem_of_fmap_2 with (f := snd) in Hb.
  eapply top_ranks; [|exact Ha|exact Hbv|].
  - apply Forall_forall. intros r ([k r'] & -> & Hr)%list_elem_of_fmap. destruct (rank_value _ _ _ Hr) as [_ E]. cbn [snd].
    destruct (row_total_exact s k) as (z & Hz & Ez). split; rewrite E, Ez; [apply of_Z_valid|by apply of_Z_finite].
  - intros Hbt. apply Hn. rewrite <- Eb. by apply (list_elem_of_fmap_2 (λ r, pn_id (rk_node r))).
Qed.
End limit.

(** *** The columns of the limited graph *)

Section columns.
Context (rows : list FlowQuotaDataItem) (metric : FlowMetric) (stages : list FlowNodeKind) (ctx : option (num → jstring))
  (limit : num) (labeler : option (FlowNodeKind → jstring)) (sets : NodeFilters) (s : FlowNodeKind) (g : DashboardFlowGraph).
Hypothesis Hnd : NoDup stages.
Hypothesis Hs : s ∈ stages.
Hypothesis Htop : ∀ row, isTopFlowNode (NODE_BUILDERS s row ctx) (Some sets) = has (rank_key ctx s row) (top_ids rows metric ctx limit s).
Let ps := map (merged_path stages ctx labeler sets) rows.
Hypothesis Hp : Forall (λ p, stage_path stages (path p)) ps.
Hypothesis Hg : flow_totals metric ps g.
Let column := filter (λ n, n_kind n = s) (nodes g).
Let top := top_ids rows metric ctx limit s.

(** The id a row has in the column. *)
Lemma column_id row : at_stage s (merged_path stages ctx labeler sets row)
  = if has (rank_key ctx s row) top then rank_key ctx s row else OTHER_FLOW_NODE_IDS s.
Proof using Hnd Hs Htop.
  rewrite merged_at_stage by done. unfold merged_node. rewrite Htop. fold top. destruct (has _ _); [done|].
  unfold otherFlowNode. cbn [pn_id]. by rewrite NODE_BUILDERS_kind.
Qed.

Lemma column_through n row : n ∈ column → row ∈ rows →
  n_id n ∈ path_ids (merged_path stages ctx labeler sets row) ↔ at_stage s (merged_path stages ctx labeler sets row) = n_id n.
Proof using Hnd Hs Hp Hg.
  intros [Hk Hn]%list_elem_of_filter Hrow. rewrite <- Hk.
  apply (at_stage_in metric stages ps g Hnd Hp Hg n); [done|by rewrite Hk|]. by apply list_elem_of_fmap_2.
Qed.

Lemma column_origin n : n ∈ column → ∃ row, row ∈ rows ∧ at_stage s (merged_path stages ctx labeler sets row) = n_id n.
Proof using Hnd Hs Hp Hg.
  intros Hn. pose proof Hn as [_ Hn']%list_elem_of_filter. destruct (ft_node_ids _ _ _ Hg) as [_ Hids].
  apply (list_elem_of_fmap_2 n_id), Hids in Hn' as (p & (row & -> & Hrow)%list_elem_of_fmap & Hi).
  exists row. split; [done|]. by apply (column_through n row).
Qed.

Lemma column_top n : n ∈ column → n_id n ≠ OTHER_FLOW_NODE_IDS s → n_id n ∈ top.
Proof using Hnd Hs Hp Hg Htop.
  intros Hn Hne. destruct (column_origin n Hn) as (row & _ & E). rewrite column_id in E.
  destruct (has _ top) eqn:Et; [|congruence]. rewrite <- E. by apply has_spec.
Qed.

Lemma column_total n : n ∈ column → n_id n ≠ OTHER_FLOW_NODE_IDS s → n_value n = row_total rows metric ctx s (n_id n).
Proof using Hnd Hs Hp Hg Htop.
  intros Hn Hne. pose proof (column_top n Hn Hne) as Ht. pose proof Hn as [_ Hn']%list_elem_of_filter.
  pose proof (ft_nodes _ _ _ Hg) as Hns. rewrite Forall_forall in Hns. destruct (Hns n Hn') as [-> _].
  unfold total_value, row_total, through, ps. rewrite filter_map, map_map.
  f_equal. f_equal. apply filter_ext_in. intros row Hrow. rewrite column_through by done. rewrite column_id.
  destruct (has (rank_key ctx s row) top) eqn:E; [done|]. apply has_spec_false in E. split; congruence.
Qed.

Lemma column_dropped row : row ∈ rows → rank_key ctx s row ∉ map n_id column → rank_key ctx s row ∉ top.
Proof using Hnd Hs Hp Hg Htop.
  intros Hrow Hno Ht. apply Hno. set (p := merged_path stages ctx labeler sets row).
  assert (p ∈ ps) as Hpp by by apply list_elem_of_fmap_2.
  pose proof (column_id row) as E. rewrite (proj2 (has_spec _ _) Ht) in E. rewrite <- E.
  destruct (at_stage_spec stages s p (in_stages stages ps Hp p Hpp) Hs) as (x & Hx & Hk & Ex). fold p. rewrite Ex.
  destruct (ft_node_ids _ _ _ Hg) as [_ Hids]. assert (pn_id x ∈ map n_id (nodes g)) as Hin.
  { apply Hids. exists p. split; [done|]. by apply list_elem_of_fmap_2. }
  apply list_elem_of_fmap in Hin as (n & En & Hn). rewrite En. apply list_elem_of_fmap_2, list_elem_of_filter. split; [|done].
  pose proof (ft_nodes _ _ _ Hg) as Hns. rewrite Forall_forall in Hns. destruct (Hns n Hn) as (_ & _ & q & y & Hq & Hy & Ei & Eky).
  rewrite <- Eky, <- Hk. apply typed_kind; [by apply (typed_in_path stages ps Hp q)|by apply (typed_in_path stages ps Hp p)|congruence].
Qed.

Lemma column_length : length column ≤ S (limit_count limit).
Proof using Hnd Hs Hp Hg Htop.
  destruct (ft_node_ids _ _ _ Hg) as [Hdup _].
  assert (NoDup (map n_id column)) as Hc by by apply NoDup_map_filter.
  assert (map n_id column ⊆ OTHER_FLOW_NODE_IDS s :: top) as Hsub.
  { intros i (n & -> & Hn)%list_elem_of_fmap. destruct (decide (n_id n = OTHER_FLOW_NODE_IDS s)) as [->|Hne]; [by left|].
    right. by apply column_top. }
  pose proof (submseteq_length _ _ (NoDup_submseteq _ _ Hc Hsub)) as Hlen. rewrite length_map in Hlen. cbn [length] in Hlen.
  assert (length top ≤ limit_count limit); [|lia]. unfold top, top_ids. rewrite length_map, length_take. lia.
Qed.
End columns.

(** C35: With a limit of [n], a column has at most [n] nodes of its own and one for the
    rest; each has the total of its rows, and no node that was merged into the rest
    has a larger one. *)
Theorem top_nodes rows metric options limit s :
  let shown := shown_rows rows options in
  let stages := resolveVisibleStages (nullish (fo_role options) role_user) (visibleStages options) in
  let ctx := fo_deletedTokenLabel options in
  Forall (λ row, plain_row row = true) shown → countable_rows metric shown →
  overflowMode options ≠ Some mode_hide → normalizeTopNodeLimit (topNodeLimit options) = Some limit → s ∈ stages →
  let column := filter (λ n, n_kind n = s) (nodes (flow (buildDashboardFlowData scheme localeCompare NumberFormat rows metric options))) in
  length column ≤ S (limit_count limit) ∧
  ∀ n, n ∈ column → n_id n ≠ OTHER_FLOW_NODE_IDS s →
    n_value n = row_total shown metric ctx s (n_id n) ∧
    ∀ row, row ∈ shown → rank_key ctx s row ∉ map n_id column →
      nle (row_total shown metric ctx s (rank_key ctx s row)) (n_value n) = true.
Proof using localeCompare_sym localeCompare_trans.
  intros shown stages ctx Hplain Hcount Hmode Hlim Hs column. pose proof (normalized_limit _ _ Hlim) as Hl.
  assert (NoDup stages) as Hnd by apply NoDup_stages.
  assert (nullish (overflowMode options) mode_aggregate = mode_aggregate) as Hm by by destruct (overflowMode options) as [[]|].
  destruct (top_sets shown metric stages ctx limit Hnd Hl) as (sets & Hsets & Htop).
  assert (shown_paths localeCompare rows metric options = map (merged_path stages ctx (otherNodeLabel options) sets) shown) as Hps.
  { unfold shown_paths. rewrite Hlim, Hm. fold shown stages ctx. rewrite Hsets. apply merged_paths. }
  pose proof (prepared_stages shown stages ctx (Some sets) mode_aggregate (otherNodeLabel options)) as Hp.
  rewrite merged_paths in Hp.
  assert (flow_totals metric (map (merged_path stages ctx (otherNodeLabel options) sets) shown)
    (flow (buildDashboardFlowData scheme localeCompare NumberFormat rows metric options))) as Hg.
  { rewrite <- Hps. exact (graph_totals scheme localeCompare _ metric stages (fo_palette options) options Hnd
      (prepared_stages _ _ _ _ _ _) (prepared_plain _ _ _ _ _ _ Hplain)). }
  specialize (Htop s). split.
  - exact (column_length shown metric stages ctx limit (otherNodeLabel options) sets s _ Hnd Hs (λ row, Htop row Hs) Hp Hg).
  - intros n Hn Hne.
    pose proof (column_total shown metric stages ctx limit (otherNodeLabel options) sets s _ Hnd Hs (λ row, Htop row Hs) Hp Hg n Hn Hne) as Hv.
    split; [done|]. intros row Hrow Hno. rewrite Hv. apply (top_ids_most shown metric ctx limit Hcount); [|done|].
    + exact (column_top shown metric stages ctx limit (otherNodeLabel options) sets s _ Hnd Hs (λ row, Htop row Hs) Hp Hg n Hn Hne).
    + exact (column_dropped shown metric stages ctx limit (otherNodeLabel options) sets s _ Hnd Hs (λ row, Htop row Hs) Hp Hg row Hrow Hno).
Qed.
End top.

(** ** Examples *)

Section examples.
Import Samples.

(** Two groups and a model chosen. *)
Definition filtered_options : FlowBuildOptions := {|
  fo_role := None; selectedUsers := None;
  selectedNodes := Some [{| nf_kind := kind_group; nf_id := "group:vip" |}; {| nf_kind := kind_group; nf_id := "group:std" |};
                         {| nf_kind := kind_model; nf_id := "model:gpt" |}];
  activeNode := None; activeLink := None; fo_palette := None; visibleStages := None; topNodeLimit := Some (of_Z 2);
  overflowMode := Some mode_hide; maskSensitive := None; fo_deletedTokenLabel := None; otherNodeLabel := None |}.

Definition option_values (data : ProcessedFlowData) : list (jstring * num) :=
  map (λ o, (no_value o, no_valueRaw o)) (node_options (filterOptions data)).

Example filtered_option_values : option_values (sample_data filtered_options) = [
  ("token:9", of_Z 100); ("token:7", of_Z 40); ("group:std", of_Z 100); ("group:vip", of_Z 40);
  ("model:gpt", of_Z 140); ("model:claude", of_Z 60); ("model:llama", of_Z 5)].
Proof. vm_compute. reflexivity. Qed.

(** Hidden: the path through the third token is dropped. *)
Example hidden_nodes :
  map (λ n, (n.1.1, n.2)) (node_values (flow (sample_data (select_only {| nf_kind := kind_group; nf_id := "group:vip" |} filtered_options))))
  = [("model:gpt", of_Z 40); ("token:7", of_Z 40); ("group:vip", of_Z 40)].
Proof. vm_compute. reflexivity. Qed.

Example option_total_witness : ∃ o, node_options (filterOptions (sample_data filtered_options)) !! 5 = Some o ∧ no_valueRaw o = of_Z 60 ∧
  no_valueRaw o = m_quota (summary (sample_data (select_only {| nf_kind := no_kind o; nf_id := no_value o |} filtered_options))).
Proof.
  assert (no_valueRaw <$> node_options (filterOptions (sample_data filtered_options)) !! 5 = Some (of_Z 60)) as Ev by (vm_compute; reflexivity).
  destruct (node_options (filterOptions (sample_data filtered_options)) !! 5) as [o|] eqn:E; [|discriminate Ev]. injection Ev as Ev.
  exists o. split; [reflexivity|]. split; [exact Ev|].
  exact (option_total sample_scheme sample_order sample_format sample_rows metric_quota filtered_options o (list_elem_of_lookup_2 _ 5 o E)).
Defined.

Example top_nodes_witness :
  length (filter (λ n, n_kind n = kind_model) (nodes (flow (sample_data sample_options)))) ≤ 3.
Proof.
  refine (proj1 (top_nodes sample_scheme sample_order sample_format sample_order_sym sample_order_trans sample_rows metric_quota
    sample_options (of_Z 2) kind_model sample_plain sample_countable _ _ _)).
  - discriminate.
  - vm_compute. reflexivity.
  - right. right. left.
Defined.
End examples.
