(* ===== verification/FlowPanel.v ===== *)
(** * FlowPanel: the panel with the flow chart

    The data and the style callbacks that [buildFlowSankeySpec] of
    [features/dashboard/lib/flow.ts] gives the chart library, what the code reads
    back from the data of a pointer event, the functions of
    [lib/flow-selection.ts], and the state of [components/flow/flow-charts.tsx]
    with its handlers as a transition relation.  The role of the user is a
    parameter of the panel; the layout of the chart, its colours of the theme and
    the request for the rows are left out. *)
From Stdlib Require Import Floats.SpecFloat.
From S2P Require Import Prelude JsString JsNumber JsFloat JsValue Currency DashboardFlow FlowTotals FlowFilters.

(** ** What a datum of the chart holds *)

(** [typeof value === 'object'], without [null]. *)
Definition recordValue (value : jval) : option jval := match value with JObj _ | JArr _ => Some value | _ => None end.

(** [numberValue(value)] for any value. *)
Definition numberOf (value : jval) : num := let n := to_number value in if is_finite n then n else zero.

(** [l[n]] *)
Definition array_get (l : list jval) (n : num) : jval :=
  if is_integer n then
    match floor_Z n with
    | Some z => if bool_decide (z < 0)%Z then JUndefined else default JUndefined (l !! Z.to_nat z)
    | None => JUndefined
    end
  else JUndefined.

Definition sankeyDatumSource (datum : jval) : jval :=
  match member "datum" datum with
  | JArr nested =>
    let depth := numberOf (member "depth" datum) in
    nullish (recordValue (array_get nested depth)) (nullish (recordValue (array_get nested zero)) datum)
  | nested => nullish (recordValue nested) datum
  end.

Definition sankeyDatumValue (datum : jval) (key : jstring) : jval :=
  match member key datum with JUndefined => member key (sankeyDatumSource datum) | v => v end.

Definition sankeyDatumFlag (datum : jval) (key : jstring) : bool :=
  match sankeyDatumValue datum key with JBool true => true | _ => false end.

Definition flowSankeyDatumValue (datum : jval) (key : jstring) : jval :=
  match recordValue datum with Some record => sankeyDatumValue record key | None => JUndefined end.

Definition is_defined (v : jval) : bool := match v with JUndefined => false | _ => true end.

Definition isSankeyLinkDatum (datum : jval) : bool :=
  is_defined (sankeyDatumValue datum "source") && is_defined (sankeyDatumValue datum "target").

(** [isFlowNodeKind]: the kind a text names. *)
Definition flowNodeKind (value : jval) : option FlowNodeKind :=
  match value with
  | JStr s => head (filter (λ k, kind_text k = s) FLOW_NODE_KINDS)
  | _ => None
  end.

Definition flowNodeFilterFromSankeyDatum (datum : jval) : option FlowNodeFilter :=
  match recordValue datum with
  | None => None
  | Some record =>
    if isSankeyLinkDatum record then None
    else
      match flowSankeyDatumValue record "key", flowNodeKind (flowSankeyDatumValue record "kind") with
      | JStr id, Some kind => Some {| nf_kind := kind; nf_id := id |}
      | JNum id, Some kind => Some {| nf_kind := kind; nf_id := Number_to_string id |}
      | _, _ => None
      end
  end.

(** ** The data of the chart *)

(** An optional flag of an object. *)
Definition flag (b : option bool) : jval := match b with Some b => JBool b | None => JUndefined end.

Definition node_datum (node : DashboardFlowNode) : jval := JObj [
  ("key", JStr (n_id node)); ("name", JStr (n_label node)); ("rawLabel", JStr (n_label node));
  ("kind", JStr (kind_text (n_kind node))); ("value", JNum (n_value node)); ("requests", JNum (m_requests (n_metrics node)));
  ("quota", JNum (m_quota (n_metrics node))); ("tokens", JNum (m_tokens (n_metrics node))); ("color", JStr (n_color node));
  ("colorKey", JStr (n_colorKey node)); ("highlighted", flag (n_highlighted node)); ("dimmed", flag (n_dimmed node))].

Definition link_zIndex (link : DashboardFlowLink) (index : nat) : Z :=
  if default false (l_highlighted link) then 1000000 + Z.of_nat index
  else if default false (l_dimmed link) then Z.of_nat index
  else 100000 + Z.of_nat index.

Definition link_datum (link : DashboardFlowLink) (index : nat) : jval := JObj [
  ("source", JStr (l_source link)); ("target", JStr (l_target link)); ("linkKey", JStr (linkStableKey link));
  ("sourceLabel", JStr (l_sourceLabel link)); ("targetLabel", JStr (l_targetLabel link)); ("value", JNum (l_value link));
  ("requests", JNum (m_requests (l_metrics link))); ("quota", JNum (m_quota (l_metrics link)));
  ("tokens", JNum (m_tokens (l_metrics link))); ("color", JStr (l_color link)); ("linkColor", JStr (l_linkColor link));
  ("linkAlpha", JNum (l_linkAlpha link)); ("hoverColor", JStr (l_hoverColor link)); ("colorKey", JStr (l_colorKey link));
  ("share", JNum (l_share link)); ("highlighted", flag (l_highlighted link)); ("dimmed", flag (l_dimmed link));
  ("zIndex", JNum (of_Z (link_zIndex link index)))].

(** [v ?? w] *)
Definition or_value (v w : jval) : jval := if is_nullish v then w else v.

(** [Number(flag)] *)
Definition flag_number (b : option bool) : num :=
  match b with Some true => of_Z 1 | Some false => zero | None => nan end.

Record FlowSankeyLabels := { lb_quota : jstring; lb_tokens : jstring; lb_requests : jstring; lb_share : jstring }.

Section sankey.
Variable vchartDefaultDataScheme : list ColorScheme.
Variable localeCompare : jstring → jstring → Z.
Variable NumberFormat : option jstring → NumberFormatOptions → num → jstring.
(** [formatQuota] *)
Variable valueFormatter : num → jstring.

Definition byLinkDrawPriority (a b : DashboardFlowLink) : Z :=
  or_compare (nsub (flag_number (l_dimmed a)) (flag_number (l_dimmed b)))
    (or_compare (nsub (flag_number (l_highlighted b)) (flag_number (l_highlighted a)))
       (or_compare (nsub (l_value b) (l_value a)) (localeCompare (linkStableKey a) (linkStableKey b)))).

(** [data[0].values[0]] of the specification. *)
Definition sankey_nodes (flow : DashboardFlowGraph) : list jval := map node_datum (nodes flow).

Definition sankey_links (flow : DashboardFlowGraph) : list jval :=
  imap (λ index link, link_datum link index)
    (sort_by byLinkDrawPriority (filter (λ link, nlt zero (l_value link) = true) (links flow))).

(** *** The style callbacks *)

Definition linkSortBy (a b : jval) : Z :=
  let name v key := to_js_string (or_value (member key v) (JStr [])) in
  or_compare (nsub (numberOf (member "value" b)) (numberOf (member "value" a)))
    (or_else (localeCompare (name a "source" ++ [0%N] ++ name a "target") (name b "source" ++ [0%N] ++ name b "target"))
       (compare_result (nsub (numberOf (member "index" a)) (numberOf (member "index" b))))).

Definition first_color : jval := JStr (colorAt vchartDefaultDataScheme 0 None).

Definition node_fill (datum : jval) : jstring := to_js_string (or_value (sankeyDatumValue datum "color") first_color).

Definition node_fillOpacity (datum : jval) : num :=
  if sankeyDatumFlag datum "dimmed" then Number_of_string "0.18"
  else if sankeyDatumFlag datum "highlighted" then of_Z 1
  else Number_of_string "0.92".

Definition node_stroke (datum : jval) : jstring :=
  if sankeyDatumFlag datum "highlighted" then "rgba(15, 23, 42, 0.74)" else "rgba(148, 163, 184, 0.45)".

Definition node_lineWidth (datum : jval) : num := if sankeyDatumFlag datum "highlighted" then Number_of_string "1.5" else of_Z 1.

Definition link_fill (datum : jval) : jstring :=
  to_js_string (or_value (sankeyDatumValue datum "linkColor") (or_value (sankeyDatumValue datum "color") first_color)).

Definition link_fillOpacity (datum : jval) : num :=
  if sankeyDatumFlag datum "dimmed" then Number_of_string "0.08"
  else if sankeyDatumFlag datum "highlighted" then Number_of_string "0.86"
  else num_or (numberOf (sankeyDatumValue datum "linkAlpha")) (of_Z 1).

Definition link_layer (datum : jval) : num :=
  match sankeyDatumValue datum "zIndex" with
  | JUndefined => nsub (of_Z 1000000000) (numberOf (sankeyDatumValue datum "value"))
  | zIndex => numberOf zIndex
  end.

Definition link_hover_fill (datum : jval) : jstring :=
  to_js_string (or_value (sankeyDatumValue datum "hoverColor") (or_value (sankeyDatumValue datum "color") first_color)).

Definition tooltip_visible (datum : jval) : bool := isSankeyLinkDatum datum || is_defined (sankeyDatumValue datum "key").

Definition tooltip_title (datum : jval) : jstring :=
  let source := sankeyDatumValue datum "source" in
  let target := sankeyDatumValue datum "target" in
  if to_boolean source && to_boolean target
  then to_js_string (or_value (sankeyDatumValue datum "sourceLabel") source) ++ " -> "
       ++ to_js_string (or_value (sankeyDatumValue datum "targetLabel") target)
  else to_js_string (or_value (sankeyDatumValue datum "name") (or_value (sankeyDatumValue datum "rawLabel") (JStr []))).

(** [tooltipMetricLines]: the lines of a datum; the share only when there is one. *)
Definition tooltip_lines (labels : FlowSankeyLabels) (datum : jval) : list (jstring * jstring) :=
  let metricValue (key : jstring) := numberOf (sankeyDatumValue datum key) in
  [(lb_quota labels, valueFormatter (metricValue "quota"));
   (lb_tokens labels, formatNumber NumberFormat (metricValue "tokens"));
   (lb_requests labels, formatNumber NumberFormat (metricValue "requests"))] ++
  (if nlt zero (metricValue "share") then [(lb_share labels, to_fixed 1 (nmul (metricValue "share") (of_Z 100)) ++ "%")] else []).
End sankey.

(** ** Selections ([lib/flow-selection.ts]) *)

Inductive FlowDisplayState := display_loading | display_error | display_empty | display_chart.

Record FlowResponse := { response_success : bool; response_data : option (list FlowQuotaDataItem); response_message : option jstring }.

(** The rows, or the message of the error thrown. *)
Definition requireSuccessfulFlowRows (response : FlowResponse) (fallbackMessage : jstring) : list FlowQuotaDataItem + jstring :=
  if negb (response_success response) then inr (ostr_or (response_message response) fallbackMessage)
  else inl (nullish (response_data response) []).

Definition flowDisplayState (isLoading isError : bool) (linkCount : nat) (themeReady : bool) : FlowDisplayState :=
  if isLoading then display_loading
  else if isError then display_error
  else if (linkCount =? 0)%nat then display_empty
  else if negb themeReady then display_loading
  else display_chart.

Definition compactFlowSelectionLabel (count : nat) : jstring := if (0 <? count)%nat then Z_to_js (Z.of_nat count) else "*".

Definition visibleFlowUsers (users : list FlowUserFilterOption) (selectedUsers : list jstring) : list FlowUserFilterOption :=
  match selectedUsers with [] => users | _ => filter (λ user, has (uo_value user) selectedUsers = true) users end.

(** ** The panel ([components/flow/flow-charts.tsx]) *)

Definition DEFAULT_FLOW_TOP_NODE_LIMIT : num := of_Z 50.
Definition FLOW_TOP_LIMIT_OPTIONS : list num := map of_Z [10; 20; 50; 100]%Z.
Definition MIN_VISIBLE_STAGES : nat := 2.

Definition FLOW_OTHER_NODE_LABEL_KEYS (kind : FlowNodeKind) : jstring :=
  match kind with
  | kind_user => "Other users" | kind_node => "Other nodes" | kind_token => "Other tokens"
  | kind_group => "Other groups" | kind_model => "Other models" | kind_channel => "Other channels"
  end.

Definition looksLikeFlowDatum (value : jval) : bool :=
  match recordValue value with
  | None => false
  | Some record =>
    (is_defined (member "key" record) && is_defined (member "kind" record))
    || (is_defined (member "source" record) && is_defined (member "target" record))
  end.

(** [record?.key] of a value that may not be an object. *)
Definition record_member (key : jstring) (value : option jval) : jval :=
  match value with Some record => member key record | None => JUndefined end.

(** The first element of an array, or the value itself. *)
Definition first_element (v : jval) : jval := match v with JArr l => default JUndefined (head l) | _ => v end.

Definition chartGraphicDatum (value : jval) : jval :=
  let context := recordValue (record_member "context" (recordValue value)) in
  first_element (record_member "data" context).

Definition flowChartEventDatum (event : jval) : jval :=
  match recordValue event with
  | None => JUndefined
  | Some record =>
    let datum := member "datum" record in
    if negb (is_nullish datum) then datum
    else
      let item := member "item" record in
      let itemRecord := recordValue item in
      let itemDatum := record_member "datum" itemRecord in
      if negb (is_nullish itemDatum) then itemDatum
      else
        let graphicDatum := chartGraphicDatum item in
        if negb (is_nullish graphicDatum) then graphicDatum
        else
          match record_member "data" itemRecord with
          | JArr l => default JUndefined (head l)
          | itemData =>
            if negb (is_nullish itemData) then itemData
            else if looksLikeFlowDatum record then record else JUndefined
          end
  end.

Definition isSameFlowNodeFilter (a : option FlowNodeFilter) (b : FlowNodeFilter) : bool :=
  match a with Some a => bool_decide (nf_kind a = nf_kind b) && bool_decide (nf_id a = nf_id b) | None => false end.

Definition toggleSelectedValue (values : list jstring) (value : jstring) : list jstring :=
  if has value values then filter (λ item, item ≠ value) values else values ++ [value].

Definition toggleSelectedNodeFilter (filters : list FlowNodeFilter) (f : FlowNodeFilter) : list FlowNodeFilter :=
  let key := nodeFilterKey f in
  if existsb (λ item, bool_decide (nodeFilterKey item = key)) filters
  then filter (λ item, nodeFilterKey item ≠ key) filters
  else filters ++ [f].

Record PanelState := {
  metric : FlowMetric;
  p_topNodeLimit : num;
  p_overflowMode : FlowOverflowMode;
  p_selectedUsers : list jstring;
  p_selectedNodes : list FlowNodeFilter;
  activeFlowNode : option FlowNodeFilter;
  activeFlowLink : option FlowLinkSelection;
  hiddenStages : list FlowNodeKind;
}.

Definition initial_panel : PanelState := {|
  metric := metric_quota; p_topNodeLimit := DEFAULT_FLOW_TOP_NODE_LIMIT; p_overflowMode := mode_aggregate;
  p_selectedUsers := []; p_selectedNodes := []; activeFlowNode := None; activeFlowLink := None; hiddenStages := [] |}.

Definition with_metric (m : FlowMetric) (s : PanelState) : PanelState := {|
  metric := m; p_topNodeLimit := p_topNodeLimit s; p_overflowMode := p_overflowMode s; p_selectedUsers := p_selectedUsers s;
  p_selectedNodes := p_selectedNodes s; activeFlowNode := activeFlowNode s; activeFlowLink := activeFlowLink s;
  hiddenStages := hiddenStages s |}.

Definition with_limit (limit : num) (s : PanelState) : PanelState := {|
  metric := metric s; p_topNodeLimit := limit; p_overflowMode := p_overflowMode s; p_selectedUsers := p_selectedUsers s;
  p_selectedNodes := p_selectedNodes s; activeFlowNode := activeFlowNode s; activeFlowLink := activeFlowLink s;
  hiddenStages := hiddenStages s |}.

Definition with_mode (m : FlowOverflowMode) (s : PanelState) : PanelState := {|
  metric := metric s; p_topNodeLimit := p_topNodeLimit s; p_overflowMode := m; p_selectedUsers := p_selectedUsers s;
  p_selectedNodes := p_selectedNodes s; activeFlowNode := activeFlowNode s; activeFlowLink := activeFlowLink s;
  hiddenStages := hiddenStages s |}.

Definition with_users (users : list jstring) (s : PanelState) : PanelState := {|
  metric := metric s; p_topNodeLimit := p_topNodeLimit s; p_overflowMode := p_overflowMode s; p_selectedUsers := users;
  p_selectedNodes := p_selectedNodes s; activeFlowNode := activeFlowNode s; activeFlowLink := activeFlowLink s;
  hiddenStages := hiddenStages s |}.

Definition with_nodes (nodes : list FlowNodeFilter) (s : PanelState) : PanelState := {|
  metric := metric s; p_topNodeLimit := p_topNodeLimit s; p_overflowMode := p_overflowMode s;
  p_selectedUsers := p_selectedUsers s; p_selectedNodes := nodes; activeFlowNode := activeFlowNode s;
  activeFlowLink := activeFlowLink s; hiddenStages := hiddenStages s |}.

Definition with_active (node : option FlowNodeFilter) (link : option FlowLinkSelection) (s : PanelState) : PanelState := {|
  metric := metric s; p_topNodeLimit := p_topNodeLimit s; p_overflowMode := p_overflowMode s;
  p_selectedUsers := p_selectedUsers s; p_selectedNodes := p_selectedNodes s; activeFlowNode := node; activeFlowLink := link;
  hiddenStages := hiddenStages s |}.

Definition with_hidden (hidden : list FlowNodeKind) (s : PanelState) : PanelState := {|
  metric := metric s; p_topNodeLimit := p_topNodeLimit s; p_overflowMode := p_overflowMode s;
  p_selectedUsers := p_selectedUsers s; p_selectedNodes := p_selectedNodes s; activeFlowNode := activeFlowNode s;
  activeFlowLink := activeFlowLink s; hiddenStages := hidden |}.

Definition toggleFlowNodeFilter (f : FlowNodeFilter) (s : PanelState) : PanelState :=
  if bool_decide (nf_kind f = kind_user) then with_users (toggleSelectedValue (p_selectedUsers s) (nf_id f)) s
  else with_nodes (toggleSelectedNodeFilter (p_selectedNodes s) f) s.

Definition removeFlowNodeFilter (f : FlowNodeFilter) (s : PanelState) : PanelState :=
  if bool_decide (nf_kind f = kind_user) then with_users (filter (λ item, item ≠ nf_id f) (p_selectedUsers s)) s
  else with_nodes (filter (λ item, nodeFilterKey item ≠ nodeFilterKey f) (p_selectedNodes s)) s.

Definition clearFlowNodeFilters (s : PanelState) : PanelState := with_nodes [] s.

(** [handleChartPointerDown] on the datum of an event. *)
Definition handleChartPointerDown (event : jval) (s : PanelState) : PanelState :=
  let datum := flowChartEventDatum event in
  match flowNodeFilterFromSankeyDatum datum with
  | Some f => with_active (if isSameFlowNodeFilter (activeFlowNode s) f then None else Some f) None s
  | None =>
    match flowSankeyDatumValue datum "source", flowSankeyDatumValue datum "target" with
    | JStr source, JStr target =>
      let link := {| ls_source := source; ls_target := target |} in
      with_active None (if bool_decide (activeFlowLink s = Some link) then None else Some link) s
    | _, _ => with_active None None s
    end
  end.

Section panel.
Variable role : FlowRole.
Let stages : list FlowNodeKind := getFlowStages role.

(** [visibleStages] *)
Definition visible_stages (s : PanelState) : list FlowNodeKind := filter (λ stage, has stage (hiddenStages s) = false) stages.

(** The update of [setHiddenStages]; [None] keeps the former array. *)
Definition next_hidden (stage : FlowNodeKind) (prev : list FlowNodeKind) : option (list FlowNodeKind) :=
  let hidden := new_set prev in
  if has stage hidden then Some (filter (λ item, item ∈ filter (λ h, h ≠ stage) hidden) stages)
  else
    let remaining := length (filter (λ item, has item hidden = false) stages) in
    if (remaining <=? MIN_VISIBLE_STAGES)%nat then None
    else Some (filter (λ item, item ∈ set_add stage hidden) stages).

(** The effect that runs after [visibleStages] has changed. *)
Definition stages_effect (s : PanelState) : PanelState :=
  let visible := visible_stages s in
  with_active (match activeFlowNode s with Some f => if has (nf_kind f) visible then Some f else None | None => None end) None
    (with_nodes (filter (λ f, nf_kind f ∈ visible) (p_selectedNodes s)) s).

Definition toggleStage (stage : FlowNodeKind) (s : PanelState) : PanelState :=
  match next_hidden stage (hiddenStages s) with
  | Some hidden => stages_effect (with_hidden hidden s)
  | None => s
  end.

Section data.
Variable vchartDefaultDataScheme : list ColorScheme.
Variable localeCompare : jstring → jstring → Z.
Variable NumberFormat : option jstring → NumberFormatOptions → num → jstring.
(** The translations, one with the number of a deleted token. *)
Variable t : jstring → jstring.
Variable deleted_label : num → jstring.

(** The options that the panel builds the data with. *)
Definition panel_options (maskSensitive : bool) (s : PanelState) : FlowBuildOptions := {|
  fo_role := Some role; selectedUsers := Some (p_selectedUsers s); selectedNodes := Some (p_selectedNodes s);
  activeNode := activeFlowNode s; activeLink := activeFlowLink s; fo_palette := None;
  visibleStages := Some (visible_stages s); topNodeLimit := Some (p_topNodeLimit s); overflowMode := Some (p_overflowMode s);
  maskSensitive := Some maskSensitive; fo_deletedTokenLabel := Some deleted_label;
  otherNodeLabel := Some (λ kind, t (FLOW_OTHER_NODE_LABEL_KEYS kind)) |}.

Definition flowData (rows : list FlowQuotaDataItem) (maskSensitive : bool) (s : PanelState) : ProcessedFlowData :=
  buildDashboardFlowData vchartDefaultDataScheme localeCompare NumberFormat rows (metric s) (panel_options maskSensitive s).

Definition userFilterOptions (data : ProcessedFlowData) : list (jstring * jstring) :=
  map (λ user, (uo_label user ++ " · " ++ uo_valueLabel user, uo_value user)) (users (filterOptions data)).

Definition nodeFilterOptions (data : ProcessedFlowData) : list FlowNodeFilterOption :=
  filter (λ option, no_kind option ≠ kind_user) (node_options (filterOptions data)).

(** What the user can do in the panel with the rows and the masking it has then. *)
Inductive panel_step : PanelState → PanelState → Prop :=
  | step_metric s m : panel_step s (with_metric m s)
  | step_limit s limit : limit ∈ FLOW_TOP_LIMIT_OPTIONS → panel_step s (with_limit limit s)
  | step_mode s m : panel_step s (with_mode m s)
  | step_users s users : panel_step s (with_users users s)
  | step_toggle s rows masked o : o ∈ nodeFilterOptions (flowData rows masked s) →
      panel_step s (toggleFlowNodeFilter {| nf_kind := no_kind o; nf_id := no_value o |} s)
  | step_remove s f : panel_step s (removeFlowNodeFilter f s)
  | step_clear s : panel_step s (clearFlowNodeFilters s)
  | step_node s rows masked n event : n ∈ nodes (flow (flowData rows masked s)) → flowChartEventDatum event = node_datum n →
      panel_step s (handleChartPointerDown event s)
  | step_link s rows masked l i event : l ∈ links (flow (flowData rows masked s)) → flowChartEventDatum event = link_datum l i →
      panel_step s (handleChartPointerDown event s)
  | step_away s event : flowChartEventDatum event = JUndefined → panel_step s (handleChartPointerDown event s)
  | step_stage s stage : stage ∈ stages → panel_step s (toggleStage stage s).

Inductive panel_reachable : PanelState → Prop :=
  | reach_initial : panel_reachable initial_panel
  | reach_step s s' : panel_reachable s → panel_step s s' → panel_reachable s'.
End data.
End panel.

(** ** Highlighting *)

Section highlights.
Context (ps : list PreparedFlowPath) (activeNode : option FlowNodeFilter) (activeLink : option FlowLinkSelection).

(** The loop of [buildFlowHighlightSets]. *)
Definition highlight_sets : FlowHighlightSets :=
  fold_left (λ sets prepared,
    if negb (matchesPath activeNode activeLink (path prepared)) then sets
    else {| hs_nodes := fold_left (λ s node, set_add (pn_id node) s) (path prepared) (hs_nodes sets);
            hs_links := fold_left (λ s '(source, target), set_add (pathLinkKey source target) s) (steps (path prepared)) (hs_links sets) |})
  ps {| hs_nodes := []; hs_links := [] |}.

Let chosen := filter (λ p, matchesPath activeNode activeLink (path p) = true) ps.

Lemma highlight_sets_new :
  highlight_sets = {| hs_nodes := new_set (chosen ≫= path_ids); hs_links := new_set (chosen ≫= λ p, map step_key (step_ids p)) |}.
Proof.
  unfold highlight_sets, new_set, chosen. generalize (@nil jstring) at 2 4. generalize (@nil jstring) at 1 2.
  intros ns ls. revert ns ls. induction ps as [|p l IH]; intros ns ls; [done|]. cbn [fold_left]. rewrite filter_cons.
  destruct (matchesPath activeNode activeLink (path p)); cbn [negb]; [|by rewrite decide_False, IH].
  rewrite decide_True, !bind_cons, !fold_left_app, IH by done. cbn [hs_nodes hs_links]. f_equal; f_equal.
  - unfold path_ids. by rewrite fold_left_map.
  - unfold step_ids. rewrite map_map, fold_left_map. clear. revert ls.
    induction (steps (path p)) as [|[a b] r IH]; intros z; [done|]. cbn [fold_left]. apply IH.
Qed.

Lemma elem_of_highlight_sets :
  (∀ i, i ∈ hs_nodes highlight_sets ↔ ∃ p, p ∈ ps ∧ matchesPath activeNode activeLink (path p) = true ∧ i ∈ path_ids p) ∧
  (∀ k, k ∈ hs_links highlight_sets ↔
    ∃ p, p ∈ ps ∧ matchesPath activeNode activeLink (path p) = true ∧ k ∈ map step_key (step_ids p)).
Proof.
  rewrite highlight_sets_new. cbn [hs_nodes hs_links]. unfold chosen.
  split; intros x; rewrite elem_of_new_set, list_elem_of_bind; setoid_rewrite list_elem_of_filter.
  all: split; [intros (p & Hx & Hm & Hp)|intros (p & Hp & Hm & Hx)]; by exists p.
Qed.
End highlights.

(** ** Flags of nodes and links *)

(** What the graph of some paths marks: nothing, or the nodes and links on the paths
    that match. *)
Record marked (match_path : list FlowPathNode → bool) (ps : list PreparedFlowPath) (g : DashboardFlowGraph) : Prop := {
  mk_nodes : Forall (λ n, ∃ b : bool, n_highlighted n = Some b ∧ n_dimmed n = Some (negb b) ∧
    (b = true ↔ ∃ p, p ∈ ps ∧ match_path (path p) = true ∧ n_id n ∈ path_ids p)) (nodes g);
  mk_links : Forall (λ l, ∃ b : bool, l_highlighted l = Some b ∧ l_dimmed l = Some (negb b) ∧
    (b = true ↔ ∃ p, p ∈ ps ∧ match_path (path p) = true ∧ link_ends l ∈ step_ids p)) (links g);
}.

Definition unmarked (g : DashboardFlowGraph) : Prop :=
  Forall (λ n, n_highlighted n = None ∧ n_dimmed n = None) (nodes g) ∧
  Forall (λ l, l_highlighted l = None ∧ l_dimmed l = None) (links g).

Definition node_flags (n : DashboardFlowNode) := (n_id n, n_highlighted n, n_dimmed n).
Definition link_flags (l : DashboardFlowLink) := (link_ends l, l_highlighted l, l_dimmed l).

Section graph_flags.
Context (scheme : list ColorScheme) (localeCompare : jstring → jstring → Z) (ps : list PreparedFlowPath)
  (metric : FlowMetric) (stages : list FlowNodeKind) (palette : option (list jstring)) (options : FlowBuildOptions).
Let g := graph_of_paths scheme localeCompare ps metric stages palette options.
Let sets := buildFlowHighlightSets ps (activeNode options) (activeLink options) stages.

(** The flags of a node and a link under the sets. *)
Definition set_flags (marked : option bool) (flags : option bool * option bool) : Prop := flags = (marked, negb <$> marked).

Lemma raw_unflagged color :
  Forall (λ kn, n_highlighted kn.2 = None ∧ n_dimmed kn.2 = None) (raw_nodes metric ps color) ∧
  Forall (λ kl, l_highlighted kl.2 = None ∧ l_dimmed kl.2 = None) (raw_links metric ps color).
Proof.
  split; apply Forall_forall; intros [k x] (e & r & _ & ->)%elem_of_group; cbn [snd].
  - assert (∀ l n, n_highlighted (fold_left (node_step metric) l n) = n_highlighted n ∧ n_dimmed (fold_left (node_step metric) l n) = n_dimmed n)
      as H by (induction l as [|y l IH]; intros n; [done|]; exact (IH (node_step metric n y))). apply H.
  - assert (∀ l n, l_highlighted (fold_left (link_step metric) l n) = l_highlighted n ∧ l_dimmed (fold_left (link_step metric) l n) = l_dimmed n)
      as H by (induction l as [|y l IH]; intros n; [done|]; exact (IH (link_step metric n y))).
    destruct (H (e :: r) (link_init e)) as [-> ->]. unfold link_init. by destruct (ev_item e).
Qed.

(** The flags of the nodes, and of the links, of the graph. *)
Lemma graph_flags :
  Forall (λ n, (n_highlighted n, n_dimmed n) = match sets with
    | None => (None, None) | Some sets => let b := has (n_id n) (hs_nodes sets) in (Some b, Some (negb b)) end) (nodes g) ∧
  Forall (λ l, (l_highlighted l, l_dimmed l) = match sets with
    | None => (None, None) | Some sets => let b := has (step_key (link_ends l)) (hs_links sets) in (Some b, Some (negb b)) end) (links g).
Proof.
  unfold g, graph_of_paths. rewrite graph_maps. fold sets. cbn zeta. cbn [nodes links].
  set (color := λ root : FlowPathNode, _). fold (raw_nodes metric ps color) (raw_links metric ps color).
  set (raw := (raw_nodes metric ps color, raw_links metric ps color)).
  set (masked := if default false (maskSensitive options) then maskFlowGraphLabels raw.1 raw.2 else raw).
  assert (Forall (λ kn, n_highlighted kn.2 = None ∧ n_dimmed kn.2 = None) masked.1 ∧
    Forall (λ kl, l_highlighted kl.2 = None ∧ l_dimmed kl.2 = None) masked.2) as [Hn Hl].
  { destruct (raw_unflagged color) as [Hn Hl]. unfold masked. destruct (default _ _); [|done]. unfold maskFlowGraphLabels. cbn [fst snd].
    split; [apply Forall_map|destruct (_ =? _)%nat; [done|apply Forall_map]]; (eapply Forall_impl; [eassumption|]); intros [k x]; cbn; [|done].
    by destruct (is_masked x). }
  split.
  - apply Forall_forall. intros n Hin. apply elem_of_sort_by in Hin. unfold ovalues in Hin.
    apply list_elem_of_fmap in Hin as ([k n'] & -> & Hin). cbn [snd].
    destruct sets as [ss|]; cbn [applyFlowHighlights fst] in Hin.
    + by apply list_elem_of_fmap in Hin as ([k' n0] & [= -> ->] & _).
    + rewrite Forall_forall in Hn. destruct (Hn _ Hin) as [E1 E2]. cbn [snd] in E1, E2. by rewrite E1, E2.
  - apply Forall_forall. intros l Hin. unfold assignLinkDisplayColors in Hin.
    apply list_elem_of_fmap in Hin as (l1 & -> & (l2 & -> & Hin)%list_elem_of_fmap). apply elem_of_sort_by in Hin.
    unfold ovalues in Hin. apply list_elem_of_fmap in Hin as ([k l'] & -> & Hin). cbn [snd] in *.
    set (l3 := set_share _ l'). assert (∀ colors, link_flags (set_display_color colors l3) = link_flags l') as Hd
      by (intros colors; unfold set_display_color; by destruct (oget _ colors)).
    set (colors := _ ≫= _). specialize (Hd colors). unfold link_flags in Hd. injection Hd as Hs Ht -> ->.
    assert (link_ends (set_display_color colors l3) = link_ends l') as -> by (unfold link_ends; congruence).
    destruct sets as [ss|]; cbn [applyFlowHighlights snd] in Hin.
    + by apply list_elem_of_fmap in Hin as ([k' l0] & [= -> ->] & _).
    + rewrite Forall_forall in Hl. destruct (Hl _ Hin) as [E1 E2]. cbn [snd] in E1, E2. by rewrite E1, E2.
Qed.

Hypothesis Hplain : Forall (λ p, plain_path (path p)) ps.

Lemma step_key_in p l : p ∈ ps → (∃ q, q ∈ ps ∧ link_ends l ∈ step_ids q) →
  step_key (link_ends l) ∈ map step_key (step_ids p) ↔ link_ends l ∈ step_ids p.
Proof using Hplain.
  intros Hp Hl. split; [|apply list_elem_of_fmap_2]. intros ([c d] & E & Hcd)%list_elem_of_fmap.
  destruct (link_ends l) as [a b] eqn:El. apply step_key_inj in E; [by rewrite E|by apply (plain_step ps Hplain (a, b))|].
  apply (plain_step ps Hplain (c, d)). by exists p.
Qed.

(** When some path matches the selection, the graph is marked by it. *)
Lemma graph_marked p :
  Forall (λ l, ∃ q, q ∈ ps ∧ link_ends l ∈ step_ids q) (links g) →
  (∃ f, activeNode options = Some f ∧ nf_kind f ∈ stages) ∨ is_Some (activeLink options) →
  p ∈ ps → path p ≠ [] → matchesPath (activeNode options) (activeLink options) (path p) = true →
  marked (matchesPath (activeNode options) (activeLink options)) ps g.
Proof using Hplain.
  intros Hends Hact Hp Hne Hm. destruct graph_flags as [Hn Hl].
  destruct (elem_of_highlight_sets ps (activeNode options) (activeLink options)) as [Hin Hil].
  assert (sets = Some (highlight_sets ps (activeNode options) (activeLink options))) as Hsets.
  { unfold sets, buildFlowHighlightSets. fold (highlight_sets ps (activeNode options) (activeLink options)).
    assert (negb (match activeNode options with Some node => has (nf_kind node) stages | None => false end)
      && negb (bool_decide (is_Some (activeLink options))) = false) as ->.
    { destruct Hact as [(f & -> & Hf)|Hf]; [by rewrite (proj2 (has_spec _ _) Hf)|].
      rewrite (bool_decide_eq_true_2 _ Hf). apply andb_false_r. }
    destruct (path p) as [|n r] eqn:E; [done|]. assert (pn_id n ∈ hs_nodes (highlight_sets ps (activeNode options) (activeLink options))) as Hx.
    { apply Hin. exists p. rewrite E. split_and!; [done..|]. unfold path_ids. rewrite E. left. }
    destruct (hs_nodes _); [by apply elem_of_nil in Hx|done]. }
  rewrite Hsets in Hn, Hl. rewrite Forall_forall in Hends. split; apply Forall_forall.
  - intros n Hn'. pose proof (proj1 (Forall_forall _ _) Hn n Hn') as E. injection E as -> ->. eexists. split_and!; [done..|]. rewrite has_spec. apply Hin.
  - intros l Hl'. pose proof (proj1 (Forall_forall _ _) Hl l Hl') as E. injection E as -> ->. eexists. split_and!; [done..|]. rewrite has_spec, Hil.
    split; intros (q & Hq & Hmq & Hs); exists q; (split_and!; [done..|]); by apply step_key_in; auto.
Qed.

(** Without a selection, or when no path matches it, nothing is marked. *)
Lemma graph_unmarked :
  (∀ p, p ∈ ps → matchesPath (activeNode options) (activeLink options) (path p) = false) → unmarked g.
Proof.
  intros Hm. destruct graph_flags as [Hn Hl]. assert (sets = None) as Hsets.
  { unfold sets, buildFlowHighlightSets. destruct (_ && _); [done|]. fold (highlight_sets ps (activeNode options) (activeLink options)).
    destruct (hs_nodes (highlight_sets _ _ _)) as [|i r] eqn:E; [done|].
    destruct (elem_of_highlight_sets ps (activeNode options) (activeLink options)) as [Hin _].
    assert (i ∈ hs_nodes (highlight_sets ps (activeNode options) (activeLink options))) as Hi by (rewrite E; left).
    apply Hin in Hi as (p & Hp & Hmp & _). by rewrite Hm in Hmp. }
  rewrite Hsets in Hn, Hl. split; eapply Forall_impl; [exact Hn| |exact Hl|]; by intros x [= -> ->].
Qed.
End graph_flags.

(** ** Reading the data of a drawn item back *)

Lemma node_datum_read n : flowNodeFilterFromSankeyDatum (node_datum n) = Some {| nf_kind := n_kind n; nf_id := n_id n |}.
Proof. destruct n as [i l [] v m c k h d]; vm_compute; reflexivity. Qed.

Lemma link_datum_read l i :
  flowNodeFilterFromSankeyDatum (link_datum l i) = None ∧
  flowSankeyDatumValue (link_datum l i) "source" = JStr (l_source l) ∧ flowSankeyDatumValue (link_datum l i) "target" = JStr (l_target l).
Proof. by destruct l. Qed.

(** The chart library may wrap the datum of a node in an object, or in the levels of a tree. *)
Lemma nested_datum_read n depth before after :
  numberOf depth = of_Z (Z.of_nat (length before)) → (length before < 1000)%nat →
  flowNodeFilterFromSankeyDatum (JObj [("datum", node_datum n)]) = Some {| nf_kind := n_kind n; nf_id := n_id n |} ∧
  flowNodeFilterFromSankeyDatum (JObj [("depth", depth); ("datum", JArr (before ++ node_datum n :: after))])
    = Some {| nf_kind := n_kind n; nf_id := n_id n |}.
Proof.
  intros Hd Hlen. split; [destruct n as [i l [] v m c k h d]; vm_compute; reflexivity|].
  set (datum := JObj _).
  assert (sankeyDatumSource datum = node_datum n) as Hs.
  { unfold sankeyDatumSource, datum. change (member "datum" _) with (JArr (before ++ node_datum n :: after)).
    change (member "depth" _) with depth. cbv iota. rewrite Hd. unfold array_get.
    assert (0 <= Z.of_nat (length before) < 2 ^ 53)%Z as Hb by lia.
    destruct (of_Z_finite _ Hb) as [_ Hf]. rewrite of_Z_integer, Hf by done.
    rewrite bool_decide_eq_false_2, Nat2Z.id, list_lookup_middle by (done || lia). done. }
  assert (∀ key, member key datum = JUndefined → sankeyDatumValue datum key = member key (node_datum n)) as Hv.
  { intros key Hk. unfold sankeyDatumValue. by rewrite Hk, Hs. }
  unfold flowNodeFilterFromSankeyDatum, isSankeyLinkDatum, flowSankeyDatumValue. cbn [recordValue datum]. fold datum.
  rewrite !Hv by done. by destruct n as [i l [] v m c k h d].
Qed.

(** ** The panel *)

Section panel_theorems.
Variable role : FlowRole.
Variable scheme : list ColorScheme.
Variable localeCompare : jstring → jstring → Z.
Variable NumberFormat : option jstring → NumberFormatOptions → num → jstring.
Variable t : jstring → jstring.
Variable deleted_label : num → jstring.

Let data rows masked s := flowData role scheme localeCompare NumberFormat t deleted_label rows masked s.
Let drawn rows masked s := shown_paths localeCompare rows (metric s) (panel_options role t deleted_label masked s).

(** What holds in every state of the panel. *)
Record panel_invariant (s : PanelState) : Prop := {
  pi_stages : MIN_FLOW_STAGES <= length (visible_stages role s);
  pi_active : activeFlowNode s = None ∨ activeFlowLink s = None;
  pi_active_visible : ∀ f, activeFlowNode s = Some f → nf_kind f ∈ visible_stages role s;
  pi_filters : Forall (λ f, nf_kind f ∈ visible_stages role s ∧ nf_kind f ≠ kind_user) (p_selectedNodes s) ∧ NoDup (p_selectedNodes s);
  pi_limit : p_topNodeLimit s ∈ FLOW_TOP_LIMIT_OPTIONS;
}.

Lemma nodeFilterKey_eq f g : nodeFilterKey f = nodeFilterKey g ↔ f = g.
Proof.
  split; [|by intros ->]. destruct f as [k i], g as [k' i']. intros E.
  assert (k = k') as -> by (destruct k, k'; try done; by injection E). by rewrite (nodeFilterKey_inj _ _ _ E).
Qed.

Lemma NoDup_without (l : list FlowNodeKind) a : NoDup l → length l <= S (length (filter (λ x, x ≠ a) l)).
Proof.
  induction 1 as [|x l Hx _ IH]; [cbn; lia|]. rewrite filter_cons. case_decide as E; cbn [length]; [lia|].
  subst x. rewrite filter_all; [done|]. apply Forall_forall. by intros y Hy ->.
Qed.

(** Columns can be hidden as long as two are left. *)
Lemma toggled_stages stage s : MIN_FLOW_STAGES <= length (visible_stages role s) →
  MIN_FLOW_STAGES <= length (visible_stages role (toggleStage role stage s)).
Proof.
  intros Hv. unfold toggleStage, next_hidden. destruct (has stage (new_set (hiddenStages s))) eqn:Eh.
  - etrans; [exact Hv|]. apply submseteq_length, NoDup_submseteq; [apply NoDup_filter; by destruct role; apply (bool_decide_unpack _)|].
    intros x [Hx Hs]%list_elem_of_filter. apply list_elem_of_filter. split; [|done]. cbn [stages_effect with_active with_nodes hiddenStages with_hidden].
    apply has_spec_false in Hx. apply has_spec_false. intros [[_ Hn]%list_elem_of_filter _]%list_elem_of_filter. rewrite elem_of_new_set in Hn. done.
  - destruct (Nat.leb_spec (length (filter (λ item, has item (new_set (hiddenStages s)) = false) (getFlowStages role))) MIN_VISIBLE_STAGES)
      as [Hle|Hgt]; [done|].
    set (rest := filter (λ item, has item (new_set (hiddenStages s)) = false) (getFlowStages role)) in *.
    assert (NoDup rest) as Hn by (apply NoDup_filter; by destruct role; apply (bool_decide_unpack _)).
    pose proof (NoDup_without rest stage Hn) as Hlen. unfold MIN_FLOW_STAGES, MIN_VISIBLE_STAGES in *.
    transitivity (length (filter (λ x, x ≠ stage) rest)); [lia|]. apply Nat.eq_le_incl. f_equal.
    unfold rest. rewrite list_filter_filter. refine (filter_ext_in _ _ _ _). intros x Hx.
    cbn [stages_effect with_active with_nodes with_hidden hiddenStages]. rewrite !has_spec_false, list_elem_of_filter, elem_of_set_add. tauto.
Qed.

Lemma visible_resolved s : MIN_FLOW_STAGES <= length (visible_stages role s) →
  resolveVisibleStages role (Some (visible_stages role s)) = visible_stages role s.
Proof.
  intros Hv. unfold resolveVisibleStages.
  assert (filter (λ stage, has stage (visible_stages role s) = true) (getFlowStages role) = visible_stages role s) as ->.
  { unfold visible_stages at 2. apply filter_ext_in. intros x Hx. rewrite has_spec. unfold visible_stages. rewrite list_elem_of_filter. tauto. }
  by rewrite (proj2 (Nat.leb_le _ _) Hv).
Qed.

Let shown_stages (s : PanelState) := resolveVisibleStages role (Some (visible_stages role s)).

(** The drawn nodes are in visible columns, on drawn paths. *)
Lemma drawn_node rows masked s n : n ∈ nodes (flow (data rows masked s)) →
  n_kind n ∈ shown_stages s ∧
  ∃ p x, p ∈ drawn rows masked s ∧ x ∈ path p ∧ pn_id x = n_id n ∧ pn_kind x = n_kind n ∧ typed x.
Proof.
  intros Hn. pose proof (prepared_stages (shown_rows rows (panel_options role t deleted_label masked s)) (shown_stages s)
    (Some deleted_label) (buildTopNodeSets localeCompare (shown_rows rows (panel_options role t deleted_label masked s)) (metric s)
      (shown_stages s) (normalizeTopNodeLimit (Some (p_topNodeLimit s))) (Some deleted_label))
    (p_overflowMode s) (Some (λ kind, t (FLOW_OTHER_NODE_LABEL_KEYS kind)))) as Hp.
  destruct (graph_node scheme localeCompare (drawn rows masked s) (metric s) (shown_stages s) None
    (panel_options role t deleted_label masked s) (NoDup_stages _ _) Hp n Hn) as (_ & _ & p & x & Hpp & Hx & Ei & Ek).
  rewrite Forall_forall in Hp. destruct (Hp p Hpp) as [Hk Ht]. rewrite Forall_forall in Ht. split.
  - rewrite <- Ek, <- Hk. by apply list_elem_of_fmap_2.
  - exists p, x. split_and!; auto.
Qed.

Lemma offered_option rows masked s o : o ∈ nodeFilterOptions (data rows masked s) →
  no_kind o ∈ shown_stages s ∧ no_kind o ≠ kind_user.
Proof.
  unfold nodeFilterOptions. intros [Hu Ho]%list_elem_of_filter. split; [|done].
  cbn [data flowData buildDashboardFlowData filterOptions node_options] in Ho. unfold buildNodeFilterOptions in Ho.
  apply elem_of_sort_by in Ho. apply list_elem_of_bind in Ho as (stage & Ho & Hs). unfold stage_options in Ho.
  apply list_elem_of_fmap in Ho as (rank & -> & Hr). unfold ovalues in Hr. apply list_elem_of_fmap in Hr as ([k rank'] & -> & Hr).
  apply stage_option_total in Hr as [Hk _]. cbn [no_kind snd]. by rewrite Hk.
Qed.

Lemma toggled_filters l f : NoDup l → NoDup (toggleSelectedNodeFilter l f) ∧
  ∀ g, g ∈ toggleSelectedNodeFilter l f → g ∈ l ∨ g = f.
Proof.
  intros Hl. unfold toggleSelectedNodeFilter. destruct (existsb _ _) eqn:E.
  - split; [by apply NoDup_filter|]. intros g [_ Hg]%list_elem_of_filter. by left.
  - split; [|intros g [Hg|Hg%list_elem_of_singleton]%elem_of_app; auto]. apply NoDup_app. split_and!; [done| |apply NoDup_singleton].
    intros g Hg ->%list_elem_of_singleton. apply Bool.not_true_iff_false in E. apply E, existsb_exists. exists f.
    split; [by apply list_elem_of_In|]. by apply bool_decide_eq_true.
Qed.

Lemma panel_step_invariant s s' :
  panel_invariant s → panel_step role scheme localeCompare NumberFormat t deleted_label s s' → panel_invariant s'.
Proof.
  intros [H1 H2 H3 [H4 H5] H6] Hstep. pose proof (visible_resolved s H1) as Hres.
  destruct Hstep as [s m|s limit Hl|s m|s us|s rows masked o Ho|s f|s|s rows masked n event Hn He|s rows masked l i event Hl He|s event He|s stage Hst].
  - done.
  - done.
  - done.
  - done.
  - destruct (offered_option _ _ _ _ Ho) as [Hk Hu]. unfold shown_stages in Hk. rewrite Hres in Hk.
    unfold toggleFlowNodeFilter. cbn [nf_kind nf_id]. rewrite bool_decide_eq_false_2 by done. split; try done.
    cbn [with_nodes p_selectedNodes]. destruct (toggled_filters (p_selectedNodes s) {| nf_kind := no_kind o; nf_id := no_value o |} H5) as [Hd Hg].
    split; [|done]. rewrite Forall_forall in H4. apply Forall_forall. by intros g [Hg'| ->]%Hg; [apply H4|].
  - unfold removeFlowNodeFilter. case_bool_decide; [done|]. split; try done. cbn [with_nodes p_selectedNodes].
    split; [|by apply NoDup_filter]. rewrite Forall_forall in H4. apply Forall_forall. intros g [_ Hg]%list_elem_of_filter. by apply H4.
  - split; try done. split; [constructor|apply NoDup_nil_2].
  - unfold handleChartPointerDown. rewrite He, node_datum_read. destruct (drawn_node _ _ _ _ Hn) as [Hk _]. unfold shown_stages in Hk.
    rewrite Hres in Hk. split; try done; [by right|]. cbn [with_active activeFlowNode].
    destruct (isSameFlowNodeFilter _ _); [done|]. by intros f [= <-].
  - unfold handleChartPointerDown. rewrite He. destruct (link_datum_read l i) as (-> & -> & ->). split; try done. by left.
  - unfold handleChartPointerDown. rewrite He. split; try done. by left.
  - pose proof (toggled_stages stage s H1) as Hv. revert Hv. unfold toggleStage. destruct (next_hidden _ _ _) as [hidden|]; [|done].
    intros Hv. split; [done|by right| | |done].
    + cbn [stages_effect with_active activeFlowNode with_nodes with_hidden]. intros f Hf.
      destruct (activeFlowNode s) as [g|]; [|done]. destruct (has _ _) eqn:Eh; [|done]. injection Hf as <-. by apply has_spec in Eh.
    + cbn [stages_effect with_active p_selectedNodes with_nodes with_hidden]. split; [|by apply NoDup_filter].
      apply Forall_forall. intros f [Hf Hin]%list_elem_of_filter. split; [done|]. rewrite Forall_forall in H4. by apply H4.
Qed.

Lemma panel_initial : panel_invariant initial_panel.
Proof.
  split; [|by left|done|split; [constructor|apply NoDup_nil_2]|].
  - unfold visible_stages. cbn [hiddenStages initial_panel]. rewrite filter_all by (by apply Forall_forall).
    destruct role; unfold MIN_FLOW_STAGES; cbn; lia.
  - unfold FLOW_TOP_LIMIT_OPTIONS, DEFAULT_FLOW_TOP_NODE_LIMIT. apply (list_elem_of_fmap_2 of_Z [10; 20; 50; 100]%Z 50%Z).
    apply (bool_decide_unpack _). by vm_compute.
Qed.

(** Whatever is done in the panel, at least two columns are visible and they are the
    columns drawn, in order; the filters are distinct and on visible columns; at
    most one of a node and a link is active, and an active node is in a visible
    column. *)
Lemma panel_sound s :
  panel_reachable role scheme localeCompare NumberFormat t deleted_label s →
  panel_invariant s ∧ resolveVisibleStages role (Some (visible_stages role s)) = visible_stages role s ∧
  ∀ rows masked n, n ∈ nodes (flow (data rows masked s)) → n_kind n ∈ visible_stages role s.
Proof.
  intros Hr. assert (panel_invariant s) as Hi.
  { induction Hr as [|s s' _ IH Hstep]; [apply panel_initial|by eapply panel_step_invariant]. }
  pose proof (visible_resolved s (pi_stages _ Hi)) as E. split_and!; [done|done|].
  intros rows masked n Hn. rewrite <- E. by apply (drawn_node rows masked s n Hn).
Qed.

Lemma drawn_plain rows masked s :
  Forall (λ row, plain_row row = true) (shown_rows rows (panel_options role t deleted_label masked s)) →
  Forall (λ p, plain_path (path p)) (drawn rows masked s).
Proof. intros H. by apply prepared_plain. Qed.

(** A path contains a drawn node when it has its id. *)
Lemma contains_drawn rows masked s n p : n ∈ nodes (flow (data rows masked s)) → p ∈ drawn rows masked s →
  pathContainsFlowNode (path p) {| nf_kind := n_kind n; nf_id := n_id n |} = true ↔ n_id n ∈ path_ids p.
Proof.
  intros Hn Hp. destruct (drawn_node rows masked s n Hn) as (_ & q & x & _ & _ & Ei & Ek & Ht).
  pose proof (prepared_stages (shown_rows rows (panel_options role t deleted_label masked s)) (shown_stages s)
    (Some deleted_label) (buildTopNodeSets localeCompare (shown_rows rows (panel_options role t deleted_label masked s)) (metric s)
      (shown_stages s) (normalizeTopNodeLimit (Some (p_topNodeLimit s))) (Some deleted_label))
    (p_overflowMode s) (Some (λ kind, t (FLOW_OTHER_NODE_LABEL_KEYS kind)))) as Hst.
  rewrite Forall_forall in Hst. destruct (Hst p Hp) as [_ Htp]. rewrite Forall_forall in Htp.
  unfold pathContainsFlowNode, path_ids. cbn [nf_kind nf_id]. rewrite existsb_exists. split.
  - intros (y & Hy%list_elem_of_In & [_ Hyi]%andb_true_iff). apply bool_decide_eq_true in Hyi. rewrite <- Hyi. by apply list_elem_of_fmap_2.
  - intros (y & E & Hy)%list_elem_of_fmap. exists y. split; [by apply list_elem_of_In|]. apply andb_true_iff.
    rewrite !bool_decide_eq_true. split; [|done]. rewrite <- Ek. apply typed_kind; [by apply Htp|done|congruence].
Qed.

(** C36: Clicking a node that is not active highlights it, every node and link on a path
    through it, and nothing else; clicking it again in the chart that is drawn then
    removes every highlight. *)
Theorem click_highlights rows masked s n event :
  Forall (λ row, plain_row row = true) (shown_rows rows (panel_options role t deleted_label masked s)) →
  n ∈ nodes (flow (data rows masked s)) → flowChartEventDatum event = node_datum n →
  activeFlowNode s ≠ Some {| nf_kind := n_kind n; nf_id := n_id n |} →
  let s1 := handleChartPointerDown event s in
  marked (λ p, pathContainsFlowNode p {| nf_kind := n_kind n; nf_id := n_id n |}) (drawn rows masked s) (flow (data rows masked s1)) ∧
  (∃ m, m ∈ nodes (flow (data rows masked s1)) ∧ n_id m = n_id n ∧ n_highlighted m = Some true) ∧
  ∀ m again, m ∈ nodes (flow (data rows masked s1)) → n_id m = n_id n → flowChartEventDatum again = node_datum m →
    unmarked (flow (data rows masked (handleChartPointerDown again s1))).
Proof.
  intros Hplain Hn He Hact s1. pose proof (drawn_plain rows masked s Hplain) as Hpl. set (f := {| nf_kind := n_kind n; nf_id := n_id n |}) in *.
  assert (s1 = with_active (Some f) None s) as Hs1.
  { unfold s1, handleChartPointerDown. rewrite He, node_datum_read. fold f. destruct (isSameFlowNodeFilter (activeFlowNode s) f) eqn:E; [|done].
    exfalso. apply Hact. unfold isSameFlowNodeFilter in E. destruct (activeFlowNode s) as [[k i]|]; [|done].
    apply andb_true_iff in E as [E1%bool_decide_eq_true E2%bool_decide_eq_true]. cbn in E1, E2. unfold f. by rewrite E1, E2. }
  clearbody s1. subst s1. set (s1 := with_active (Some f) None s).
  destruct (drawn_node rows masked s n Hn) as (Hk & p & x & Hp & Hx & Ei & Ek & _).
  assert (n_id n ∈ path_ids p) as Hnp by (rewrite <- Ei; by apply list_elem_of_fmap_2).
  assert (flow_totals (metric s) (drawn rows masked s) (flow (data rows masked s1))) as Hg.
  { exact (graph_totals scheme localeCompare (drawn rows masked s) (metric s) (shown_stages s) None (panel_options role t deleted_label masked s1)
      (NoDup_stages _ _) (prepared_stages _ _ _ _ _ _) Hpl). }
  destruct (ft_link_ends _ _ _ Hg) as [_ Hends]. destruct (ft_node_ids _ _ _ Hg) as [_ Hids].
  assert (marked (λ p, pathContainsFlowNode p f) (drawn rows masked s) (flow (data rows masked s1))) as Hm.
  { apply (graph_marked scheme localeCompare (drawn rows masked s) (metric s) (shown_stages s) None (panel_options role t deleted_label masked s1) Hpl p).
    - apply Forall_forall. intros l Hl. apply Hends. by apply list_elem_of_fmap_2.
    - left. by exists f.
    - done.
    - by intros E; rewrite E in Hx; apply elem_of_nil in Hx.
    - by apply (contains_drawn rows masked s n p Hn Hp). }
  split; [done|]. assert (∃ m, m ∈ nodes (flow (data rows masked s1)) ∧ n_id n = n_id m) as (m & Hmn & Em).
  { assert (n_id n ∈ map n_id (nodes (flow (data rows masked s1)))) as Hi by (apply Hids; by exists p).
    apply list_elem_of_fmap in Hi as (m & E & Hmn). by exists m. }
  split.
  - exists m. split_and!; [done..|]. pose proof (mk_nodes _ _ _ Hm) as Hmk. rewrite Forall_forall in Hmk.
    destruct (Hmk m Hmn) as (b & -> & _ & Hb). f_equal. apply Hb. exists p. split_and!; [done| |by rewrite <- Em].
    by apply (contains_drawn rows masked s n p Hn Hp).
  - intros m' again Hm' E' Hagain. apply graph_unmarked. intros q _. unfold handleChartPointerDown.
    rewrite Hagain, node_datum_read. destruct (drawn_node rows masked s1 m' Hm') as (_ & q' & y & _ & _ & Ey & Eyk & Hty).
    destruct (drawn_node rows masked s n Hn) as (_ & _ & z & _ & _ & Ez & Ezk & Htz).
    assert (n_kind m' = n_kind n) as Ekk by (rewrite <- Eyk, <- Ezk; apply typed_kind; [done..|congruence]).
    unfold isSameFlowNodeFilter. cbn [s1 with_active activeFlowNode f nf_kind nf_id].
    by rewrite !bool_decide_eq_true_2 by congruence.
Qed.
End panel_theorems.

(** ** Examples *)

Section examples.
Import Samples.

Definition sample_panel_data (s : PanelState) : DashboardFlowGraph :=
  flow (flowData role_user sample_scheme sample_order sample_format (λ s, s) (λ _, "deleted") sample_rows false s).

Definition sample_reachable : PanelState → Prop :=
  panel_reachable role_user sample_scheme sample_order sample_format (λ s, s) (λ _, "deleted").

(** The column of the tokens hidden; hiding another one does nothing. *)
Definition hidden_state : PanelState := toggleStage role_user kind_group (toggleStage role_user kind_token initial_panel).

Example hidden_state_stages : visible_stages role_user hidden_state = [kind_group; kind_model].
Proof. vm_compute. reflexivity. Qed.

Example same_click : handleChartPointerDown JUndefined (with_active (Some {| nf_kind := kind_group; nf_id := "group:vip" |}) None hidden_state)
  = hidden_state.
Proof. vm_compute. reflexivity. Qed.

Example selection_labels : (compactFlowSelectionLabel 0, compactFlowSelectionLabel 12) = ("*", "12").
Proof. vm_compute. reflexivity. Qed.

Example panel_sound_witness : sample_reachable hidden_state ∧ MIN_FLOW_STAGES <= length (visible_stages role_user hidden_state) ∧
  ∀ n, n ∈ nodes (sample_panel_data hidden_state) → n_kind n ∈ [kind_group; kind_model].
Proof.
  assert (sample_reachable hidden_state) as Hr.
  { eapply reach_step; [eapply reach_step; [apply reach_initial|apply (step_stage _ _ _ _ _ _ _ kind_token); left]|].
    apply (step_stage _ _ _ _ _ _ _ kind_group). right. left. }
  destruct (panel_sound role_user sample_scheme sample_order sample_format (λ s, s) (λ _, "deleted") hidden_state Hr) as (Hi & _ & Hn).
  split; [exact Hr|]. split; [exact (pi_stages _ _ Hi)|]. intros n Hin. rewrite <- hidden_state_stages. exact (Hn sample_rows false n Hin).
Defined.

Example click_highlights_witness : ∃ n, nodes (sample_panel_data initial_panel) !! 0 = Some n ∧
  ∃ m, m ∈ nodes (sample_panel_data (handleChartPointerDown (JObj [("datum", node_datum n)]) initial_panel)) ∧
    n_id m = n_id n ∧ n_highlighted m = Some true.
Proof.
  destruct (nodes (sample_panel_data initial_panel) !! 0) as [n|] eqn:E; [|vm_compute in E; discriminate E]. exists n. split; [reflexivity|].
  refine (proj1 (proj2 (click_highlights role_user sample_scheme sample_order sample_format (λ s, s) (λ _, "deleted")
    sample_rows false initial_panel n (JObj [("datum", node_datum n)]) _ (list_elem_of_lookup_2 _ 0 n E) _ _))).
  - repeat (apply Forall_cons; split; [vm_compute; reflexivity|]). by apply Forall_nil.
  - reflexivity.
  - discriminate.
Defined.
End examples.
