(* ===== verification/WalletPayment.v ===== *)
(** * WalletPayment: [features/wallet/lib/payment.ts]

    Payment methods and their minimal amounts, cashback tiers, and the quote of a
    payment, which is computed in exact decimal arithmetic and rounded upward. *)
From Stdlib Require Import Floats.SpecFloat QArith.
From S2P Require Import Prelude JsString JsNumber JsFloat JsValue JsRegex JsDecimal Currency.

#[local] Open Scope Z_scope.

(** ** Data ([features/wallet/types.ts], [constants.ts]) *)

Inductive DirectUSDTNetwork := TRON | TON | SOLANA.

#[export] Instance DirectUSDTNetwork_eq_dec : EqDecision DirectUSDTNetwork.
Proof. solve_decision. Defined.

Record PaymentMethod := {
  name : jstring;
  type_ : jstring;
  color : option jstring;
  min_topup : option num;
  icon : option jstring;
  description : option jstring;
  contact_url : option jstring;
  admin_only : option bool;
  topup_ratio : option num;
  rate_to_usd : option num;
  base_amount_multiplier : option num;
  rounding_decimals : option num;
  currency : option jstring;
  payment_amount : option num;
  currency_symbol : option jstring;
  crypto_networks : option (list DirectUSDTNetwork);
}.

Record WaffoPayMethod := {
  waffo_name : jstring;
  waffo_icon : option jstring;
  payMethodType : option jstring;
  payMethodName : option jstring;
  waffo_currency : option jstring;
  waffo_rate_to_usd : option num;
  waffo_base_amount_multiplier : option num;
  waffo_topup_ratio : option num;
  waffo_rounding_decimals : option num;
  waffo_currency_symbol : option jstring;
}.

Record CashbackThreshold := {
  min_amount : num;
  cashback_percent : num;
  referral_cashback_percent : option num;
}.

(** The fields that are read; the others are links and texts that are shown. *)
Record TopupInfo := {
  enable_online_topup : bool;
  enable_stripe_topup : bool;
  pay_methods : option (list PaymentMethod);
  info_min_topup : num;
  stripe_min_topup : num;
  amount_options : list num;
  cashback_tiers : list CashbackThreshold;
  is_referral_cashback : bool;
  enable_waffo_topup : bool;
  waffo_pay_methods : list WaffoPayMethod;
  waffo_min_topup : option num;
  enable_waffo_pancake_topup : bool;
  waffo_pancake_min_topup : option num;
  enable_yookassa_topup : bool;
  enable_nowpayments_topup : bool;
  yookassa_min_topup : option num;
  info_crypto_networks : list DirectUSDTNetwork;
}.

Record PresetAmount := { preset_value : num; preset_cashback_percent : option num }.

Definition ALIPAY : jstring := "alipay".
Definition STRIPE : jstring := "stripe".
Definition WAFFO : jstring := "waffo".
Definition WAFFO_PANCAKE : jstring := "waffo_pancake".
Definition YOOKASSA_SBP : jstring := "yookassa_sbp".
Definition NOWPAYMENTS : jstring := "nowpayments".
Definition CRYPTO_DIRECT : jstring := "crypto_direct".
Definition USDT_TRON : jstring := "usdt_trc20_direct".
Definition USDT_TON : jstring := "usdt_ton_direct".
Definition USDT_SOLANA : jstring := "usdt_solana_direct".

Definition DEFAULT_PAYMENT_TYPE : jstring := ALIPAY.
Definition DEFAULT_PRESET_MULTIPLIERS : list num := map of_Z [1; 5; 10; 30; 50; 100; 300; 500].
Definition DEFAULT_MIN_TOPUP : num := of_Z 1.

(** [Number(v)] of a field that may be missing. *)
Definition Number_field (v : option num) : num := default nan v.

(** ** Payment types *)

Definition isStripePayment (paymentType : jstring) : bool := bool_decide (paymentType = STRIPE).
Definition isWaffoPancakePayment (paymentType : jstring) : bool := bool_decide (paymentType = WAFFO_PANCAKE).
Definition isWaffoPayment (paymentType : jstring) : bool := bool_decide (paymentType = WAFFO).
Definition isYooKassaPayment (paymentType : jstring) : bool := bool_decide (paymentType = YOOKASSA_SBP).
Definition isNOWPaymentsPayment (paymentType : jstring) : bool := bool_decide (paymentType = NOWPAYMENTS).
Definition isUSDTTrc20Payment (paymentType : jstring) : bool := bool_decide (paymentType = "usdt_trc20_direct").

Inductive PaymentCheckoutKind := kind_waffo | kind_waffo_pancake | kind_generic.

Definition getPaymentCheckoutKind (paymentType : jstring) : PaymentCheckoutKind :=
  if isWaffoPayment paymentType then kind_waffo
  else if isWaffoPancakePayment paymentType then kind_waffo_pancake
  else kind_generic.

Definition directUSDTTypeNetwork : list (jstring * DirectUSDTNetwork) :=
  [(USDT_TRON, TRON); (USDT_TON, TON); (USDT_SOLANA, SOLANA)].

Definition isUSDTTrc20TerminalStatus (status : jstring) : bool :=
  bool_decide (status = "paid") || bool_decide (status = "success") || bool_decide (status = "expired")
  || bool_decide (status = "failed") || bool_decide (status = "cancelled").

Definition getUSDTTrc20DisplayStatus (status : option jstring) (expiredByTime : bool) : option jstring :=
  if expiredByTime then Some "expired"
  else if bool_decide (status = Some "paid") then Some "success" else status.

(** ** Cashback tiers *)

(** The tiers come from the server unchecked. *)
Definition normalizeCashbackTiers (data : jval) : list CashbackThreshold :=
  match data with
  | JArr l =>
    let objects := List.filter (λ tier, match tier with JObj _ | JArr _ => true | _ => false end) l in
    let tiers := map (λ tier,
        let cashbackPercent := to_number (member "cashback_percent" tier) in
        let referralCashbackPercent := to_number (member "referral_cashback_percent" tier) in
        {| min_amount := to_number (member "min_amount" tier);
           cashback_percent := cashbackPercent;
           referral_cashback_percent :=
             if is_finite referralCashbackPercent && nle cashbackPercent referralCashbackPercent
                && nle referralCashbackPercent (of_Z 100)
             then Some referralCashbackPercent else None |}) objects in
    sort_by (number_order min_amount)
      (List.filter (λ tier, is_finite (min_amount tier) && nle zero (min_amount tier)
         && is_finite (cashback_percent tier) && nle zero (cashback_percent tier)
         && nle (cashback_percent tier) (of_Z 100)) tiers)
  | _ => []
  end.

(** A tier as a value, to be handed to the functions that take tiers. *)
Definition tier_value (tier : CashbackThreshold) : jval :=
  JObj ([("min_amount", JNum (min_amount tier)); ("cashback_percent", JNum (cashback_percent tier))] ++
        match referral_cashback_percent tier with
        | Some r => [("referral_cashback_percent", JNum r)]
        | None => []
        end).

Definition tiers_value (tiers : list CashbackThreshold) : jval := JArr (map tier_value tiers).

Definition getEffectiveCashbackTiers (regularTiers : jval) (isReferralCashback : bool) : list CashbackThreshold :=
  let normalized := normalizeCashbackTiers regularTiers in
  if negb isReferralCashback then normalized
  else map (λ tier,
    {| min_amount := min_amount tier;
       cashback_percent := nullish (referral_cashback_percent tier) (cashback_percent tier);
       referral_cashback_percent := referral_cashback_percent tier |}) normalized.

(** The loop of [getCashbackPercentForAmount]. *)
Definition cashback_step (amount : num) (acc : num * num) (threshold : CashbackThreshold) : num * num :=
  let '(cashbackPercent, bestMinAmount) := acc in
  let minAmount := min_amount threshold in
  let percent := cashback_percent threshold in
  if nle minAmount amount && nlt bestMinAmount minAmount && is_finite percent && nle zero percent
  then (percent, minAmount) else acc.

Definition getCashbackPercentForAmount (amount : num) (cashback : jval) : num :=
  (fold_left (cashback_step amount) (normalizeCashbackTiers cashback) (zero, of_Z (-1))).1.

Record CashbackTierSummary := {
  current : option CashbackThreshold;
  next : option CashbackThreshold;
  progress : num;
}.

(** The loop of [getCashbackTierSummary]. *)
Fixpoint summary_loop (amount : num) (current : option CashbackThreshold) (tiers : list CashbackThreshold) :
  option CashbackThreshold * option CashbackThreshold :=
  match tiers with
  | [] => (current, None)
  | tier :: rest => if nle (min_amount tier) amount then summary_loop amount (Some tier) rest else (current, Some tier)
  end.

Definition getCashbackTierSummary (amount : num) (cashback : jval) : CashbackTierSummary :=
  let tiers := normalizeCashbackTiers cashback in
  let normalizedAmount := if is_finite amount then nmax zero amount else zero in
  let '(current, next) := summary_loop normalizedAmount None tiers in
  match next with
  | None => {| current := current; next := None;
               progress := match current with Some _ => of_Z 100 | None => zero end |}
  | Some n =>
    let start := nullish (min_amount <$> current) zero in
    let range := nsub (min_amount n) start in
    {| current := current; next := next;
       progress := if nlt zero range
         then nmin (of_Z 100) (nmax zero (nmul (ndiv (nsub normalizedAmount start) range) (of_Z 100)))
         else zero |}
  end.

Definition generatePresetAmounts (minAmount : num) : list PresetAmount :=
  map (λ multiplier, {| preset_value := nmul minAmount multiplier; preset_cashback_percent := None |})
    DEFAULT_PRESET_MULTIPLIERS.

Definition mergePresetAmounts (amountOptions : option (list num)) (cashback : jval) : list PresetAmount :=
  match amountOptions with
  | None | Some [] => []
  | Some options =>
    map (λ amount, {| preset_value := amount;
                      preset_cashback_percent := Some (getCashbackPercentForAmount amount cashback) |}) options
  end.

(** ** Exact decimal amounts

    A [bigint] is an integer; its division truncates, and making one from a text
    that is not a numeral throws, which is [None] of the outer option; [null] is
    [None] of the inner one. *)

Record DecimalValue := { digits_ : Z; scale : Z }.
Record FractionValue := { numerator : Z; denominator : Z }.

Definition BigInt (text : jstring) : option Z :=
  if all_digits text then Some (Z.of_N (digits_val text)) else None.

(** [replace(/^0+(?=\d)/, '')] *)
Fixpoint strip_leading_zeros (text : jstring) : jstring :=
  match text with
  | c :: ((d :: _) as rest) => if is_zero c && is_digit d then strip_leading_zeros rest else text
  | _ => text
  end.

(** The case mapping is only applied to the text of a number, which is ASCII. *)
Definition getDecimalParts (value : num) : option (option DecimalValue) :=
  let parts := split_unit (cu "e") (map ascii_lower (Number_to_string value)) in
  let rawCoefficient := nth 0 parts [] in
  let exponentValue := nth_error parts 1 in
  let exponent := if otruthy exponentValue then Number_of_string (default [] exponentValue) else zero in
  let sign := if starts_with "-" rawCoefficient then -1 else 1 in
  let coefficient :=
    match rawCoefficient with
    | c :: r => if (c =? cu "+")%N || (c =? cu "-")%N then r else rawCoefficient
    | [] => []
    end in
  let whole_fraction := split_unit (cu ".") coefficient in
  let whole := nth 0 whole_fraction [] in
  let fraction := default [] (nth_error whole_fraction 1) in
  match (if is_integer exponent then floor_Z exponent else None) with
  | None => Some None
  | Some e =>
    let scale := Z.of_nat (length fraction) - e in
    if 20 <? Z.abs scale then Some None
    else
      let digits := str_or (strip_leading_zeros (whole ++ fraction)) "0" in
      n ← BigInt digits; Some (Some {| digits_ := sign * n; scale := scale |})
  end.

Definition multiplyDecimalValues (left right : DecimalValue) : DecimalValue :=
  {| digits_ := digits_ left * digits_ right; scale := scale left + scale right |}.

Definition decimalToFraction (value : DecimalValue) : FractionValue :=
  if 0 <=? scale value
  then {| numerator := digits_ value; denominator := 10 ^ scale value |}
  else {| numerator := digits_ value * 10 ^ (- scale value); denominator := 1 |}.

Definition divideDecimalValues (left right : DecimalValue) : FractionValue :=
  let leftFraction := decimalToFraction left in
  let rightFraction := decimalToFraction right in
  {| numerator := numerator leftFraction * denominator rightFraction;
     denominator := denominator leftFraction * numerator rightFraction |}.

Definition subtractFractionValues (left right : FractionValue) : FractionValue :=
  {| numerator := numerator left * denominator right - numerator right * denominator left;
     denominator := denominator left * denominator right |}.

Definition multiplyFractionValues (left right : FractionValue) : FractionValue :=
  {| numerator := numerator left * numerator right; denominator := denominator left * denominator right |}.

Definition fractionToNumber (value : FractionValue) : option num :=
  if denominator value =? 0 then None
  else
    let result := ndiv (of_Z (numerator value)) (of_Z (denominator value)) in
    if is_finite result then Some result else None.

Definition roundDisplayAmount (values : list DecimalValue) (decimals : Z) : option DecimalValue :=
  let product := fold_left multiplyDecimalValues values {| digits_ := 1; scale := 0 |} in
  let digits := digits_ product in
  let scale := scale product in
  if 20 <? Z.abs scale then None
  else if scale <=? decimals then Some {| digits_ := digits * 10 ^ (decimals - scale); scale := decimals |}
  else
    let divisor := 10 ^ (scale - decimals) in
    Some {| digits_ := Z.quot (digits + divisor - 1) divisor; scale := decimals |}.

(** ** Minimal amounts and quotes *)

Record PaymentMethodDisplayQuote := {
  quote_currency : jstring;
  baseAmountUSD : num;
  commissionUSD : num;
  creditedAmountUSD : num;
  cashbackPercent : num;
  cashbackAmountUSD : num;
  chargedAmountUSD : num;
  chargedAmount : num;
}.

Section payment.
Variable toLowerCase toUpperCase : jstring → jstring.
(** The currency in the store of the system configuration. *)
Variable store : option CurrencyConfig.

Definition isDirectUSDTPayment (paymentType : jstring) : bool :=
  if bool_decide (toLowerCase (trim paymentType) = CRYPTO_DIRECT) then true
  else ohas (toLowerCase (trim paymentType)) directUSDTTypeNetwork.

Definition getDirectUSDTNetwork (paymentType : jstring) : option DirectUSDTNetwork :=
  oget (toLowerCase (trim paymentType)) directUSDTTypeNetwork.

Definition not_positive (x : num) : bool := negb (is_finite x) || nle x zero.

Definition getPaymentMethodMinimumAmount (method : option PaymentMethod) : option num :=
  match method with
  | None => None
  | Some method =>
    let minimum := Number_field (min_topup method) in
    if not_positive minimum then None
    else
      let config := (getCurrencyDisplay store).1 in
      if isDirectUSDTPayment (type_ method) then
        if bool_decide (quotaDisplayType config = TOKENS)
        then Some (nmul minimum (quotaPerUnit config))
        else Some minimum
      else
        let rateToUSD := Number_field (rate_to_usd method) in
        let multiplier := Number_field (base_amount_multiplier method) in
        let coefficient := nmax (of_Z 1) (Number_field (topup_ratio method)) in
        if not_positive rateToUSD || not_positive multiplier || not_positive coefficient then None
        else Some (ndiv minimum (nmul (nmul rateToUSD multiplier) coefficient))
  end.

Definition method_minimums (topupInfo : TopupInfo) : list num :=
  omap (λ method, getPaymentMethodMinimumAmount (Some method)) (default [] (pay_methods topupInfo)).

Definition getMinimumAvailablePaymentMethodAmountWithoutRecursion (topupInfo : TopupInfo) : option num :=
  let minimums := method_minimums topupInfo in
  match minimums with [] => None | _ => Some (Math_min minimums) end.

Definition getMinTopupAmount (topupInfo : option TopupInfo) (selectedMethod : option PaymentMethod) : num :=
  match topupInfo with
  | None => DEFAULT_MIN_TOPUP
  | Some topupInfo =>
    match getPaymentMethodMinimumAmount selectedMethod with
    | Some selectedMinimum => selectedMinimum
    | None =>
      match getMinimumAvailablePaymentMethodAmountWithoutRecursion topupInfo with
      | Some availableMinimum => availableMinimum
      | None =>
        let methods := default [] (pay_methods topupInfo) in
        if (0 <? length methods)%nat && forallb (λ method, isDirectUSDTPayment (type_ method)) methods
        then nullish (getPaymentMethodMinimumAmount (head methods)) DEFAULT_MIN_TOPUP
        else if enable_online_topup topupInfo then info_min_topup topupInfo
        else if enable_stripe_topup topupInfo then stripe_min_topup topupInfo
        else if enable_waffo_topup topupInfo then num_or (Number_field (waffo_min_topup topupInfo)) DEFAULT_MIN_TOPUP
        else if enable_waffo_pancake_topup topupInfo
        then num_or (Number_field (waffo_pancake_min_topup topupInfo)) DEFAULT_MIN_TOPUP
        else if enable_yookassa_topup topupInfo
        then num_or (Number_field (yookassa_min_topup topupInfo)) DEFAULT_MIN_TOPUP
        else if enable_nowpayments_topup topupInfo then DEFAULT_MIN_TOPUP
        else DEFAULT_MIN_TOPUP
      end
    end
  end.

Definition getMinimumAvailablePaymentMethodAmount (topupInfo : option TopupInfo) : num :=
  match topupInfo with
  | None => DEFAULT_MIN_TOPUP
  | Some info =>
    match default [] (pay_methods info) with
    | [] => getMinTopupAmount topupInfo None
    | _ => match method_minimums info with
           | [] => getMinTopupAmount topupInfo None
           | minimums => Math_min minimums
           end
    end
  end.

Definition isPaymentMethodAmountEligible (amount : num) (method : option PaymentMethod) : bool :=
  if not_positive amount then false
  else
    let minimum := getPaymentMethodMinimumAmount method in
    let configuredMinimum := Number_field (method ≫= min_topup) in
    match minimum with
    | None => negb (nlt zero configuredMinimum)
    | Some minimum => nle minimum amount
    end.

Definition getDefaultPaymentType (topupInfo : option TopupInfo) : jstring :=
  match topupInfo with
  | None => DEFAULT_PAYMENT_TYPE
  | Some info =>
    match pay_methods info with
    | Some (method :: _) => type_ method
    | _ =>
      if enable_stripe_topup info then STRIPE
      else if enable_waffo_topup info then WAFFO
      else if enable_waffo_pancake_topup info then WAFFO_PANCAKE
      else if enable_yookassa_topup info then YOOKASSA_SBP
      else if enable_nowpayments_topup info then NOWPAYMENTS
      else DEFAULT_PAYMENT_TYPE
    end
  end.

(** The quote of a direct transfer. *)
Definition direct_quote (amount : num) (cashback : jval) : option PaymentMethodDisplayQuote :=
  if not_positive amount then None
  else
    let config := (getCurrencyDisplay store).1 in
    let baseAmountUSD := if bool_decide (quotaDisplayType config = TOKENS)
                         then ndiv amount (quotaPerUnit config) else amount in
    if not_positive baseAmountUSD then None
    else
      let cashbackPercent := getCashbackPercentForAmount baseAmountUSD cashback in
      let cashbackAmountUSD := ndiv (nmul baseAmountUSD cashbackPercent) (of_Z 100) in
      Some {| quote_currency := "USDT"; baseAmountUSD := baseAmountUSD; commissionUSD := zero;
              creditedAmountUSD := baseAmountUSD; cashbackPercent := cashbackPercent;
              cashbackAmountUSD := cashbackAmountUSD; chargedAmountUSD := baseAmountUSD;
              chargedAmount := baseAmountUSD |}.

(** The quote from the exact values of the amount, the multiplier, the rate and
    the coefficient. *)
Definition decimal_quote (currency : jstring) (amountDecimal multiplierDecimal rateDecimal effectiveCoefficient : DecimalValue)
  (roundingDecimals : Z) (cashback : jval) : option (option PaymentMethodDisplayQuote) :=
  let baseAmountDecimal := multiplyDecimalValues amountDecimal multiplierDecimal in
  match fractionToNumber (decimalToFraction baseAmountDecimal) with
  | None => Some None
  | Some baseAmountUSD =>
    let cashbackPercent := getCashbackPercentForAmount baseAmountUSD cashback in
    match roundDisplayAmount [amountDecimal; multiplierDecimal; effectiveCoefficient; rateDecimal] roundingDecimals with
    | None => Some None
    | Some chargedAmountDecimal =>
      match fractionToNumber (decimalToFraction chargedAmountDecimal),
            fractionToNumber (divideDecimalValues chargedAmountDecimal rateDecimal) with
      | Some chargedAmount, Some chargedAmountUSD =>
        let commissionFraction := subtractFractionValues
          (divideDecimalValues chargedAmountDecimal rateDecimal) (decimalToFraction baseAmountDecimal) in
        match (if 0 <? numerator commissionFraction then fractionToNumber commissionFraction else Some zero) with
        | None => Some None
        | Some commissionUSD =>
          parts ← getDecimalParts cashbackPercent;
          match parts with
          | None => Some None
          | Some cashbackPercentDecimal =>
            match fractionToNumber (multiplyFractionValues (decimalToFraction baseAmountDecimal)
                    (multiplyFractionValues (decimalToFraction cashbackPercentDecimal)
                       {| numerator := 1; denominator := 100 |})) with
            | None => Some None
            | Some cashbackAmountUSD =>
              Some (Some {| quote_currency := currency; baseAmountUSD := baseAmountUSD; commissionUSD := commissionUSD;
                creditedAmountUSD := baseAmountUSD; cashbackPercent := cashbackPercent;
                cashbackAmountUSD := cashbackAmountUSD; chargedAmountUSD := chargedAmountUSD;
                chargedAmount := chargedAmount |})
            end
          end
        end
      | _, _ => Some None
      end
    end
  end.

Definition getPaymentMethodDisplayQuote (amount : num) (method : PaymentMethod) (cashback : jval) :
  option (option PaymentMethodDisplayQuote) :=
  if isDirectUSDTPayment (type_ method) then Some (direct_quote amount cashback)
  else
    let currency := (λ c, toUpperCase (trim c)) <$> currency method in
    let rateToUSD := Number_field (rate_to_usd method) in
    let multiplier := Number_field (base_amount_multiplier method) in
    let coefficient := Number_field (topup_ratio method) in
    let roundingDecimals := Number_field (rounding_decimals method) in
    if negb (otruthy currency) || not_positive amount || not_positive rateToUSD || not_positive multiplier
       || not_positive coefficient || negb (is_integer roundingDecimals) || nlt roundingDecimals zero
       || nlt (of_Z 8) roundingDecimals
    then Some None
    else
      amountDecimal ← getDecimalParts amount;
      multiplierDecimal ← getDecimalParts multiplier;
      rateDecimal ← getDecimalParts rateToUSD;
      coefficientDecimal ← getDecimalParts coefficient;
      match amountDecimal, multiplierDecimal, rateDecimal, coefficientDecimal with
      | Some amountDecimal, Some multiplierDecimal, Some rateDecimal, Some coefficientDecimal =>
        let effectiveCoefficientDecimal :=
          if nlt (of_Z 1) coefficient then coefficientDecimal else {| digits_ := 1; scale := 0 |} in
        decimal_quote (default [] currency) amountDecimal multiplierDecimal rateDecimal effectiveCoefficientDecimal
          (default 0 (floor_Z roundingDecimals)) cashback
      | _, _, _, _ => Some None
      end.
End payment.
