(* ===== verification/WalletCashback.v ===== *)
(** * WalletCashback: cashback tiers and minimal amounts

    Normalized tiers are valid, sorted and stable under a second normalization;
    the percentage of an amount is that of the highest tier it reaches; the
    minimal amount of the wallet is the least of its methods, and is accepted. *)
From Stdlib Require Import Floats.SpecFloat.
From S2P Require Import Prelude JsString JsNumber JsFloat JsValue JsJson JsRegex JsDecimal Currency WalletPayment.

#[local] Open Scope Z_scope.

(** A tier that normalization keeps. *)
Definition proper_tier (tier : CashbackThreshold) : bool :=
  is_finite (min_amount tier) && nle zero (min_amount tier)
  && is_finite (cashback_percent tier) && nle zero (cashback_percent tier)
  && nle (cashback_percent tier) (of_Z 100).

(** Its referral percentage, when it has one, is between its percentage and 100. *)
Definition proper_referral (tier : CashbackThreshold) : bool :=
  match referral_cashback_percent tier with
  | Some r => is_finite r && nle (cashback_percent tier) r && nle r (of_Z 100)
  | None => true
  end.

Definition valid_tier (tier : CashbackThreshold) : Prop :=
  valid_num (min_amount tier) = true ∧ valid_num (cashback_percent tier) = true ∧
  ∀ r, referral_cashback_percent tier = Some r → valid_num r = true.

Lemma elem_of_normalized_tiers data tier :
  tier ∈ normalizeCashbackTiers data →
  proper_tier tier = true ∧ proper_referral tier = true ∧ (numbers_ok data → valid_tier tier).
Proof.
  unfold normalizeCashbackTiers. destruct data as [| | | | |l|]; try by rewrite elem_of_nil.
  rewrite elem_of_sort_by, list_elem_of_In, filter_In, <- list_elem_of_In. intros [Hin Hp].
  apply list_elem_of_In, in_map_iff in Hin as (v & <- & Hv).
  split_and!.
  - unfold proper_tier. exact Hp.
  - clear Hp. unfold proper_referral. cbn [referral_cashback_percent cashback_percent].
    destruct (is_finite _ && _ && _) eqn:E; [exact E|done].
  - intros Hn. unfold valid_tier. cbn [min_amount cashback_percent referral_cashback_percent]. rewrite filter_In, <- list_elem_of_In in Hv. destruct Hv as [Hv _].
    rewrite numbers_ok_arr, Forall_forall in Hn. specialize (Hn v Hv).
    split_and!; [by apply to_number_valid, numbers_ok_member..|]. intros r.
    clear Hp. destruct (is_finite _ && _ && _); [intros [= <-]; by apply to_number_valid, numbers_ok_member|done].
Qed.

Lemma normalized_proper data :
  numbers_ok data → Forall (proper_number min_amount) (normalizeCashbackTiers data).
Proof.
  intros Hd. apply Forall_forall. intros tier Ht. apply elem_of_normalized_tiers in Ht as (Hp & _ & Hv).
  destruct (Hv Hd) as (? & _). split; [done|]. unfold proper_tier in Hp. by bool_to_prop.
Qed.

Lemma normalized_sorted data :
  numbers_ok data →
  StronglySorted (λ a b, nle (min_amount a) (min_amount b) = true) (normalizeCashbackTiers data).
Proof.
  intros Hd. pose proof (normalized_proper data Hd) as HP. unfold normalizeCashbackTiers in *.
  destruct data as [| | | | |l|]; try constructor. apply sort_numbers_sorted. by rewrite sort_by_perm in HP.
Qed.

Lemma member_tier_value tier :
  member "min_amount" (tier_value tier) = JNum (min_amount tier) ∧
  member "cashback_percent" (tier_value tier) = JNum (cashback_percent tier) ∧
  member "referral_cashback_percent" (tier_value tier) =
    match referral_cashback_percent tier with Some r => JNum r | None => JUndefined end.
Proof. unfold tier_value. by destruct (referral_cashback_percent tier). Qed.

Lemma normalize_proper_tiers tiers :
  Forall (λ tier, proper_tier tier = true ∧ proper_referral tier = true) tiers →
  normalizeCashbackTiers (tiers_value tiers) = sort_by (number_order min_amount) tiers.
Proof.
  intros HP. unfold normalizeCashbackTiers, tiers_value. f_equal.
  induction HP as [|tier tiers [Hp Hr] HP IH]; [done|]. cbn [map List.filter].
  unfold tier_value at 1. cbn [List.filter map].
  destruct (member_tier_value tier) as (E1 & E2 & E3). fold (tier_value tier).
  cbn [List.filter map]. rewrite E1, E2, E3. cbn [to_number min_amount cashback_percent].
  unfold proper_tier in Hp. rewrite Hp, IH. f_equal. destruct tier as [m c r]. cbn [referral_cashback_percent min_amount cashback_percent]. f_equal.
  unfold proper_referral in Hr. cbn [referral_cashback_percent cashback_percent] in Hr.
  destruct r as [r|]; cbn [to_number]; [by rewrite Hr|done].
Qed.

(** The tiers, as values, have numbers of the language. *)
Lemma tiers_value_ok tiers : Forall valid_tier tiers → numbers_ok (tiers_value tiers).
Proof.
  intros Ht. apply numbers_ok_arr, Forall_map. eapply Forall_impl; [exact Ht|]. intros tier (H1 & H2 & H3).
  unfold tier_value. cbn. destruct (referral_cashback_percent tier); cbn; auto.
Qed.

Lemma normalized_valid data : numbers_ok data → Forall valid_tier (normalizeCashbackTiers data).
Proof. intros Hd. apply Forall_forall. intros tier Ht. apply elem_of_normalized_tiers in Ht as (_ & _ & Hv). auto. Qed.

Lemma effective_valid data referral : numbers_ok data → Forall valid_tier (getEffectiveCashbackTiers data referral).
Proof.
  intros Hd. pose proof (normalized_valid data Hd) as Hv. unfold getEffectiveCashbackTiers.
  destruct referral; cbn [negb]; [|done]. apply Forall_map. eapply Forall_impl; [exact Hv|].
  intros tier (H1 & H2 & H3). split_and!; [done| |done]. cbn.
  destruct (referral_cashback_percent tier); cbn; auto.
Qed.

Lemma normalized_all_ok data :
  Forall (λ tier, proper_tier tier = true ∧ proper_referral tier = true) (normalizeCashbackTiers data).
Proof. apply Forall_forall. intros tier Ht. by apply elem_of_normalized_tiers in Ht as (? & ? & _). Qed.

(** Tiers that are proper and in order are their own normal form. *)
Lemma normalize_sorted tiers :
  Forall (λ tier, proper_tier tier = true ∧ proper_referral tier = true) tiers →
  Forall (proper_number min_amount) tiers →
  StronglySorted (λ a b, nle (min_amount a) (min_amount b) = true) tiers →
  normalizeCashbackTiers (tiers_value tiers) = tiers.
Proof. intros HP Hn Hs. rewrite normalize_proper_tiers by done. by apply sort_numbers_id. Qed.

(** Normalized tiers have thresholds that are not negative and percentages from
    0 to 100, a referral percentage no lower than the ordinary one, are sorted by
    threshold, and normalizing them again changes nothing. *)
Lemma normalized_tiers data :
  numbers_ok data →
  let tiers := normalizeCashbackTiers data in
  Forall (λ tier, proper_tier tier = true ∧ proper_referral tier = true) tiers ∧
  StronglySorted (λ a b, nle (min_amount a) (min_amount b) = true) tiers ∧
  normalizeCashbackTiers (tiers_value tiers) = tiers.
Proof.
  intros Hd tiers.
  split_and!; [apply normalized_all_ok|by apply normalized_sorted|].
  apply normalize_sorted; [apply normalized_all_ok|by apply normalized_proper|by apply normalized_sorted].
Qed.

(** ** The percentage of an amount *)

Lemma proper_tier_facts tier :
  proper_tier tier = true →
  is_nan (min_amount tier) = false ∧ nlt (of_Z (-1)) (min_amount tier) = true ∧
  is_finite (cashback_percent tier) = true ∧ nle zero (cashback_percent tier) = true.
Proof.
  unfold proper_tier. intros H. bool_to_prop. split_and!; [by apply finite_not_nan| |done|done].
  eapply nlt_nle_trans; [|done]. by vm_compute.
Qed.

(** [t] is the first of the highest tiers that [amount] reaches. *)
Definition highest_reached (amount : num) (tiers : list CashbackThreshold) (t : CashbackThreshold) : Prop :=
  ∃ before after, tiers = before ++ t :: after ∧ nle (min_amount t) amount = true ∧
    (∀ u, u ∈ before → nle (min_amount u) amount = true → nlt (min_amount u) (min_amount t) = true) ∧
    (∀ u, u ∈ after → nle (min_amount u) amount = true → nle (min_amount u) (min_amount t) = true).

Lemma cashback_fold amount tiers :
  Forall (λ tier, proper_tier tier = true) tiers →
  let acc := fold_left (cashback_step amount) tiers (zero, of_Z (-1)) in
  (Forall (λ u, nle (min_amount u) amount = false) tiers ∧ acc = (zero, of_Z (-1))) ∨
  ∃ t, highest_reached amount tiers t ∧ acc = (cashback_percent t, min_amount t).
Proof.
  induction tiers as [|x tiers IH] using rev_ind; intros HP acc; unfold acc; clear acc; [by left|].
  apply Forall_app in HP as [HP Hx]. rewrite Forall_singleton in Hx.
  destruct (proper_tier_facts x Hx) as (Hn & Hm1 & Hf & Hz).
  rewrite fold_left_app. cbn [fold_left]. destruct (IH HP) as [[Hno ->]|(t & (bef & aft & -> & Ht & Hb & Ha) & ->)].
  - unfold cashback_step. rewrite Hm1, Hf, Hz, !andb_true_r. destruct (nle (min_amount x) amount) eqn:Ex.
    + right. exists x. split; [|done]. exists tiers, []. split_and!; [done|done| |by intros u ?%elem_of_nil].
      intros u Hu Hr. rewrite Forall_forall in Hno. by rewrite Hno in Hr.
    + left. split; [|done]. apply Forall_app. split; [done|]. by apply Forall_singleton.
  - right. unfold cashback_step. rewrite Hf, Hz, !andb_true_r.
    assert (is_nan (min_amount t) = false) as Htn.
    { apply Forall_app in HP as [_ HP]. apply Forall_cons in HP as [HP _]. by apply proper_tier_facts. }
    destruct (nle (min_amount x) amount) eqn:Ex; cbn [andb]; [destruct (nlt (min_amount t) (min_amount x)) eqn:El|].
    + exists x. split; [|done]. exists (bef ++ t :: aft), []. split_and!; [done|done| |by intros u ?%elem_of_nil].
      intros u [Hu|[->|Hu]%elem_of_cons]%elem_of_app Hr; [|done|].
      * eapply nlt_nle_trans; [by apply Hb|by apply nlt_nle].
      * eapply nle_nlt_trans; [by apply Ha|done].
    + exists t. split; [|done]. exists bef, (aft ++ [x]). rewrite <- app_assoc. split_and!; [done..|].
      intros u [Hu|Hu]%elem_of_app Hr; [by apply Ha|]. apply list_elem_of_singleton in Hu as ->.
      rewrite nle_nlt by done. by rewrite El.
    + exists t. split; [|done]. exists bef, (aft ++ [x]). rewrite <- app_assoc. split_and!; [done..|].
      intros u [Hu|Hu]%elem_of_app Hr; [by apply Ha|]. apply list_elem_of_singleton in Hu as ->. congruence.
Qed.

Lemma normalized_all_proper data : Forall (λ tier, proper_tier tier = true) (normalizeCashbackTiers data).
Proof. eapply Forall_impl; [apply normalized_all_ok|]. by intros tier []. Qed.

Lemma cashback_percent_cases amount cashback :
  let tiers := normalizeCashbackTiers cashback in
  let percent := getCashbackPercentForAmount amount cashback in
  (Forall (λ u, nle (min_amount u) amount = false) tiers ∧ percent = zero) ∨
  ∃ t, highest_reached amount tiers t ∧ percent = cashback_percent t.
Proof.
  unfold getCashbackPercentForAmount.
  destruct (cashback_fold amount _ (normalized_all_proper cashback)) as [[? ->]|(t & ? & ->)]; [by left|].
  right. by exists t.
Qed.

(** The percentage of an amount is that of the highest tier the amount reaches,
    the first one of several with the same threshold, and zero when it reaches
    none; it lies between 0 and 100. *)
Lemma cashback_percent_highest amount cashback :
  let tiers := normalizeCashbackTiers cashback in
  let percent := getCashbackPercentForAmount amount cashback in
  ((Forall (λ u, nle (min_amount u) amount = false) tiers ∧ percent = zero) ∨
   ∃ t, highest_reached amount tiers t ∧ percent = cashback_percent t) ∧
  nle zero percent = true ∧ nle percent (of_Z 100) = true.
Proof.
  simpl. pose proof (cashback_percent_cases amount cashback) as Hc. simpl in Hc. split; [done|].
  destruct Hc as [[_ ->]|(t & (bef & aft & E & _) & ->)]; [by split; vm_compute|].
  pose proof (normalized_all_proper cashback) as HP. rewrite E in HP. apply Forall_app in HP as [_ HP].
  apply Forall_cons in HP as [HP _]. unfold proper_tier in HP. by bool_to_prop.
Qed.

(** ** The summary *)

Lemma summary_loop_spec amount cur tiers :
  ∃ before after, tiers = before ++ after ∧
    Forall (λ t, nle (min_amount t) amount = true) before ∧
    (∀ t, head after = Some t → nle (min_amount t) amount = false) ∧
    summary_loop amount cur tiers = (match last before with Some t => Some t | None => cur end, head after).
Proof.
  revert cur. induction tiers as [|t tiers IH]; intros cur; [by exists [], []|]. cbn [summary_loop].
  destruct (nle (min_amount t) amount) eqn:Et.
  - destruct (IH (Some t)) as (bef & aft & -> & Hb & Ha & ->). exists (t :: bef), aft.
    split_and!; [done|by constructor|done|]. rewrite last_cons. by destruct (last bef).
  - exists [], (t :: tiers). split_and!; [done|done| |done]. by intros u [= <-].
Qed.

Lemma reached_nmax t amount : nle zero amount = true → nle t (nmax zero amount) = nle t amount.
Proof.
  intros H. unfold nmax. unfold nle, SFleb in H. destruct (SFcompare zero amount) as [[]|] eqn:E; try done.
  unfold zero in *. destruct amount as [[]|[]| |[] ??]; try done; by destruct t as [|[]| |[] ??].
Qed.

(** The tiers an amount reaches come before the others. *)
Lemma summary_split amount cashback :
  numbers_ok cashback → is_finite amount = true → nle zero amount = true →
  ∃ before after, normalizeCashbackTiers cashback = before ++ after ∧
    Forall (λ t, nle (min_amount t) amount = true) before ∧
    Forall (λ t, nle (min_amount t) amount = false) after ∧
    summary_loop (nmax zero amount) None (normalizeCashbackTiers cashback) = (last before, head after).
Proof.
  intros Hd Hf Hz. set (a := nmax zero amount).
  assert (∀ t, nle t a = nle t amount) as Hr by (intros; by apply reached_nmax).
  destruct (summary_loop_spec a None (normalizeCashbackTiers cashback)) as (bef & aft & E & Hb & Ha & ->).
  exists bef, aft. pose proof (normalized_sorted cashback Hd) as Hs. rewrite E in Hs. split_and!; [done|..].
  - eapply Forall_impl; [exact Hb|]. intros t Ht. by rewrite <- Hr.
  - destruct aft as [|x aft]; [done|]. specialize (Ha x eq_refl). rewrite Hr in Ha. constructor; [done|].
    apply StronglySorted_app in Hs as (_ & _ & Hs). apply StronglySorted_inv in Hs as [_ Hx].
    eapply Forall_impl; [exact Hx|]. intros t Ht. destruct (nle (min_amount t) amount) eqn:Et; [|done].
    rewrite (nle_trans _ _ _ Ht Et) in Ha. done.
  - by destruct (last bef).
Qed.

Lemma summary_current amount cashback before after :
  is_finite amount = true →
  summary_loop (nmax zero amount) None (normalizeCashbackTiers cashback) = (last before, head after) →
  current (getCashbackTierSummary amount cashback) = last before ∧
  next (getCashbackTierSummary amount cashback) = head after.
Proof. intros Hf E. unfold getCashbackTierSummary. rewrite Hf, E. by destruct (head after). Qed.

(** The start of a step is a number. *)
Lemma start_finite before :
  Forall (λ t, proper_tier t = true) before →
  is_finite (nullish (min_amount <$> last before) zero) = true.
Proof.
  intros HP. destruct (last before) as [t|] eqn:El; [|done]. apply last_Some in El as [b ->].
  apply Forall_app in HP as [_ HP]. rewrite Forall_singleton in HP. unfold proper_tier in HP.
  change (is_finite (min_amount t) = true). by bool_to_prop.
Qed.

(** The summary of an amount: the tiers up to the current one are those the
    amount reaches, the next one is the first it does not; the progress is 0 or
    100 at the ends and within these bounds between two tiers. *)
Lemma tier_summary_spec amount cashback :
  numbers_ok cashback → is_finite amount = true → nle zero amount = true →
  let tiers := normalizeCashbackTiers cashback in
  let summary := getCashbackTierSummary amount cashback in
  ∃ before after, tiers = before ++ after ∧
    Forall (λ t, nle (min_amount t) amount = true) before ∧
    Forall (λ t, nle (min_amount t) amount = false) after ∧
    current summary = last before ∧ next summary = head after ∧
    (after = [] → progress summary = if bool_decide (before = []) then zero else of_Z 100) ∧
    (∀ n, head after = Some n →
       is_finite (nsub (min_amount n) (nullish (min_amount <$> last before) zero)) = true →
       nle zero (progress summary) = true ∧ nle (progress summary) (of_Z 100) = true).
Proof.
  intros Hd Hf Hz tiers summary. destruct (summary_split amount cashback Hd Hf Hz) as (bef & aft & E & Hb & Ha & El).
  destruct (summary_current _ _ _ _ Hf El) as [Hc Hn]. exists bef, aft.
  pose proof (normalized_all_proper cashback) as HP. rewrite E in HP. apply Forall_app in HP as [HP _].
  split_and!; [done..| |].
  - intros ->. unfold summary, getCashbackTierSummary. rewrite Hf, El. cbn [head progress].
    destruct bef as [|b bef] using rev_ind; [done|]. rewrite last_snoc, bool_decide_eq_false_2; [done|]. by destruct bef.
  - intros n Hnext Hfin. unfold summary, getCashbackTierSummary. rewrite Hf, El, Hnext. cbn [progress].
    set (start := nullish (min_amount <$> last bef) zero) in *. set (range := nsub (min_amount n) start) in *.
    destruct (nlt zero range) eqn:Er; [|by split; vm_compute].
    assert (is_finite start = true) as Hstart by (by apply start_finite).
    assert (is_finite (nmax zero amount) = true) as Hfa.
    { unfold nmax. destruct (SFcompare zero amount) as [[]|] eqn:Ec; try done. by destruct amount. }
    apply clamp_bounds; [|done|done|by vm_compute].
    apply nmul_not_nan; [|by vm_compute..]. apply ndiv_not_nan; [|done..]. by apply nsub_not_nan.
Qed.

(** Tiers with pairwise different thresholds, from the lowest up. *)
Definition distinct_thresholds (tiers : list CashbackThreshold) : Prop :=
  StronglySorted (λ a b, nlt (min_amount a) (min_amount b) = true) tiers.

(** The percentage applied to an amount is the one of the summary's current tier,
    provided that no two tiers have the same threshold. *)
Lemma percent_is_current amount cashback :
  numbers_ok cashback → is_finite amount = true → nle zero amount = true →
  distinct_thresholds (normalizeCashbackTiers cashback) →
  getCashbackPercentForAmount amount cashback =
  nullish (cashback_percent <$> current (getCashbackTierSummary amount cashback)) zero.
Proof.
  intros Hd Hf Hz Hs. destruct (summary_split amount cashback Hd Hf Hz) as (bef & aft & E & Hb & Ha & El).
  destruct (summary_current _ _ _ _ Hf El) as [-> _].
  destruct (cashback_percent_cases amount cashback) as [[Hno ->]|(t & (b & a & E' & Ht & Hlow & Hhigh) & ->)].
  - rewrite E in Hno. apply Forall_app in Hno as [Hno _]. destruct bef as [|x bef]; [done|].
    apply Forall_cons in Hb as [Hb _]. apply Forall_cons in Hno as [Hno _]. congruence.
  - rewrite E' in Hs. apply StronglySorted_app in Hs as (_ & _ & Hs). apply StronglySorted_inv in Hs as [_ Hs].
    assert (Forall (λ u, nle (min_amount u) amount = false) a) as Hna.
    { apply Forall_forall. intros u Hu. rewrite Forall_forall in Hs. specialize (Hs u Hu).
      destruct (nle (min_amount u) amount) eqn:Eu; [|done]. specialize (Hhigh u Hu Eu).
      pose proof (nlt_nle_trans _ _ _ Hs Hhigh) as Hc. by rewrite nlt_irrefl in Hc. }
    assert (last bef = Some t) as ->; [|done].
    (* both lists split the tiers where the amount stops reaching them *)
    rewrite E' in E. clear E' Hd El. revert b Hlow E. induction bef as [|x bef IH]; intros b Hlow E.
    + cbn [app] in E. rewrite <- E in Ha. apply Forall_app in Ha as [_ Ha]. apply Forall_cons in Ha as [Ha _]. congruence.
    + destruct b as [|y b]; cbn [app] in E; injection E as -> E.
      * destruct bef as [|z bef]; [done|]. exfalso. apply Forall_cons in Hb as [_ Hb].
        apply Forall_cons in Hb as [Hb _]. rewrite E in Hna. cbn [app] in Hna.
        apply Forall_cons in Hna as [Hna _]. congruence.
      * apply Forall_cons in Hb as [_ Hb]. rewrite last_cons, (IH Hb b); [done| |done].
        intros u Hu. apply Hlow. by apply elem_of_cons; right.
Qed.

(** ** Referral accounts *)

(** A tier with the percentage of a referral account. *)
Definition raised (tier : CashbackThreshold) : CashbackThreshold :=
  {| min_amount := min_amount tier;
     cashback_percent := nullish (referral_cashback_percent tier) (cashback_percent tier);
     referral_cashback_percent := referral_cashback_percent tier |}.

Lemma raised_proper tier :
  proper_tier tier = true → proper_referral tier = true →
  proper_tier (raised tier) = true ∧ proper_referral (raised tier) = true ∧
  nle (cashback_percent tier) (cashback_percent (raised tier)) = true.
Proof.
  unfold proper_tier, proper_referral. cbn [raised min_amount cashback_percent referral_cashback_percent].
  intros Hp Hr. destruct (referral_cashback_percent tier) as [r|]; cbn [nullish].
  - bool_to_prop. repeat (apply andb_true_iff; split) || split_and!; try done.
    + by eapply nle_trans.
    + by apply nle_refl, finite_not_nan.
  - split_and!; [done..|]. apply nle_refl, finite_not_nan. by bool_to_prop.
Qed.

Lemma raised_fold amount tiers p q m :
  Forall (λ tier, proper_tier tier = true ∧ proper_referral tier = true) tiers → nle p q = true →
  nle (fold_left (cashback_step amount) tiers (p, m)).1 (fold_left (cashback_step amount) (map raised tiers) (q, m)).1 = true.
Proof.
  intros HP. revert p q m. induction HP as [|tier tiers [Hp Hr] HP IH]; intros p q m Hpq; [done|].
  destruct (raised_proper tier Hp Hr) as (Hp' & _ & Hle). cbn [map fold_left]. unfold cashback_step at 2 4.
  destruct (proper_tier_facts tier Hp) as (_ & _ & -> & ->).
  destruct (proper_tier_facts _ Hp') as (_ & _ & -> & ->). change (min_amount (raised tier)) with (min_amount tier).
  destruct (nle (min_amount tier) amount && nlt m (min_amount tier) && true && true); by apply IH.
Qed.

(** A referral account never gets a lower percentage than an ordinary one. *)
Lemma referral_no_less amount data :
  numbers_ok data →
  let percent referral := getCashbackPercentForAmount amount (tiers_value (getEffectiveCashbackTiers data referral)) in
  nle (percent false) (percent true) = true.
Proof.
  intros Hd percent. unfold percent, getCashbackPercentForAmount, getEffectiveCashbackTiers. cbn [negb].
  set (tiers := normalizeCashbackTiers data). change (map _ tiers) with (map raised tiers).
  pose proof (normalized_all_ok data) as HP. fold tiers in HP. pose proof (normalized_proper data Hd) as Hn. pose proof (normalized_sorted data Hd) as Hs. fold tiers in Hn, Hs.
  rewrite (normalize_sorted tiers HP Hn Hs), normalize_sorted; [by apply raised_fold| | |].
  - apply Forall_map. eapply Forall_impl; [exact HP|]. intros tier [H1 H2]. cbn beta.
    by destruct (raised_proper tier H1 H2) as (? & ? & _).
  - apply Forall_map. eapply Forall_impl; [exact Hn|]. done.
  - clear -Hs. induction Hs as [|tier tiers Hs IH Ht]; constructor; [done|]. by apply Forall_map.
Qed.

(** With two tiers of one threshold the amounts that reach it are credited by the
    first and shown as being on the last. *)
Lemma tied_tiers_disagree :
  let tier p := JObj [("min_amount", JNum (of_Z 10)); ("cashback_percent", JNum (of_Z p))] in
  let cashback := JArr [tier 1; tier 2] in
  getCashbackPercentForAmount (of_Z 10) cashback = of_Z 1 ∧
  cashback_percent <$> current (getCashbackTierSummary (of_Z 10) cashback) = Some (of_Z 2).
Proof. split; vm_compute; reflexivity. Qed.

(** ** Minimal amounts *)

Section minimal_amounts.
Context (toLowerCase : jstring → jstring) (store : option CurrencyConfig).

Abbreviation minimum_of := (getPaymentMethodMinimumAmount toLowerCase store).

Lemma config_unit_positive : nlt zero (quotaPerUnit (getCurrencyDisplay store).1) = true.
Proof.
  unfold getCurrencyDisplay, getConfig. cbn [fst quotaPerUnit]. unfold positive_or.
  destruct (num_truthy _ && _) eqn:E; [|by vm_compute]. by bool_to_prop.
Qed.

Lemma not_positive_iff x : not_positive x = false → is_finite x = true ∧ nlt zero x = true.
Proof. unfold not_positive. by destruct x as [[]|[]| |[] ??]. Qed.

Lemma minimum_not_nan method m : minimum_of method = Some m → is_nan m = false.
Proof.
  unfold getPaymentMethodMinimumAmount. destruct method as [method|]; [|done].
  destruct (not_positive (Number_field (min_topup method))) eqn:Em; [done|].
  apply not_positive_iff in Em as [Fm Pm].
  destruct (isDirectUSDTPayment _ _); [destruct (bool_decide _); intros [= <-]|].
  - apply pos_nmul_not_nan; [done..|]. by apply (nlt_not_nan zero), config_unit_positive.
  - by apply finite_not_nan.
  - destruct (_ || _) eqn:E; [done|]. intros [= <-].
    apply orb_false_iff in E as [[E1 E2]%orb_false_iff E3].
    apply not_positive_iff in E1 as [F1 P1], E2 as [F2 P2], E3 as [F3 P3].
    apply pos_ndiv_not_nan; [done..|]. apply nmul_not_nan; [|done..]. apply nmul_not_nan; [|done..].
    by apply finite_not_nan.
Qed.

Lemma elem_of_minimums info m :
  m ∈ method_minimums toLowerCase store info ↔
  ∃ method, method ∈ default [] (pay_methods info) ∧ minimum_of (Some method) = Some m.
Proof. unfold method_minimums. apply list_elem_of_omap. Qed.

Lemma minimums_not_nan info : Forall (λ x, is_nan x = false) (method_minimums toLowerCase store info).
Proof. apply Forall_forall. intros m (method & _ & Hm)%elem_of_minimums. by apply minimum_not_nan in Hm. Qed.

(** The two functions for the minimum of the wallet agree; when some method has a
    minimum, the minimum of the wallet is the least of them, and paying it with the
    method it comes from is accepted. *)
Lemma wallet_minimum info :
  let minimum := getMinTopupAmount toLowerCase store (Some info) None in
  getMinimumAvailablePaymentMethodAmount toLowerCase store (Some info) = minimum ∧
  (method_minimums toLowerCase store info ≠ [] →
   (∀ method m, method ∈ default [] (pay_methods info) → minimum_of (Some method) = Some m → nle minimum m = true) ∧
   ∃ method, method ∈ default [] (pay_methods info) ∧ minimum_of (Some method) = Some minimum ∧
     (not_positive minimum = false →
      isPaymentMethodAmountEligible toLowerCase store minimum (Some method) = true)).
Proof.
  intros minimum. unfold minimum. clear minimum. assert (method_minimums toLowerCase store info ≠ [] →
    getMinTopupAmount toLowerCase store (Some info) None = Math_min (method_minimums toLowerCase store info)) as Hmin.
  { intros Hne. unfold getMinTopupAmount, getMinimumAvailablePaymentMethodAmountWithoutRecursion.
    cbn [getPaymentMethodMinimumAmount]. by destruct (method_minimums toLowerCase store info). }
  split.
  - unfold getMinimumAvailablePaymentMethodAmount. destruct (default [] (pay_methods info)); [done|].
    destruct (method_minimums toLowerCase store info) eqn:E; [done|]. rewrite Hmin by done. done.
  - intros Hne. rewrite (Hmin Hne). destruct (Math_min_least _ Hne (minimums_not_nan info)) as [Hin Hle].
    split.
    + intros method m Hm Hmm. rewrite Forall_forall in Hle. apply Hle, elem_of_minimums. by exists method.
    + apply elem_of_minimums in Hin as (method & Hm & Hmm). exists method. split_and!; [done..|].
      intros Hp. unfold isPaymentMethodAmountEligible. rewrite Hp, Hmm. apply nle_refl.
      by apply minimum_not_nan in Hmm.
Qed.
End minimal_amounts.

(** ** Concrete inputs *)

(** Tiers at 0 and 100, out of order, with one that is refused. *)
Definition sample_tiers : jval :=
  let tier m p := JObj [("min_amount", JNum (of_Z m)); ("cashback_percent", JNum (of_Z p));
                         ("referral_cashback_percent", JNum (of_Z (p + 5)))] in
  JArr [tier 100 20; JStr "tier"; tier 0 10; tier 50 120].

Lemma sample_numbers : numbers_ok sample_tiers.
Proof. vm_compute. repeat split. Qed.

Example normalized_tiers_witness :
  map min_amount (normalizeCashbackTiers sample_tiers) = [of_Z 0; of_Z 100] ∧
  normalizeCashbackTiers (tiers_value (normalizeCashbackTiers sample_tiers)) = normalizeCashbackTiers sample_tiers.
Proof. split; [by vm_compute|]. exact (proj2 (proj2 (normalized_tiers sample_tiers sample_numbers))). Defined.

Example tier_summary_spec_witness :
  progress (getCashbackTierSummary (of_Z 25) sample_tiers) = of_Z 25 ∧
  nle zero (progress (getCashbackTierSummary (of_Z 25) sample_tiers)) = true.
Proof.
  split; [by vm_compute|].
  destruct (tier_summary_spec (of_Z 25) sample_tiers sample_numbers eq_refl eq_refl)
    as (before & after & _ & _ & _ & Hc & Hn & _ & Hp).
  refine (proj1 (Hp {| min_amount := of_Z 100; cashback_percent := of_Z 20; referral_cashback_percent := Some (of_Z 25) |} _ _)).
  - rewrite <- Hn. by vm_compute.
  - rewrite <- Hc. by vm_compute.
Defined.

Example percent_is_current_witness :
  getCashbackPercentForAmount (of_Z 25) sample_tiers = of_Z 10 ∧
  nullish (cashback_percent <$> current (getCashbackTierSummary (of_Z 25) sample_tiers)) zero = of_Z 10.
Proof.
  assert (getCashbackPercentForAmount (of_Z 25) sample_tiers = of_Z 10) as E by (by vm_compute). split; [exact E|].
  rewrite <- (percent_is_current (of_Z 25) sample_tiers); [exact E|exact sample_numbers|by vm_compute..|].
  vm_compute. repeat constructor.
Defined.

Example referral_no_less_witness :
  let percent r := getCashbackPercentForAmount (of_Z 60) (tiers_value (getEffectiveCashbackTiers sample_tiers r)) in
  percent false = of_Z 10 ∧ percent true = of_Z 15 ∧ nle (percent false) (percent true) = true.
Proof.
  split; [by vm_compute|]. split; [by vm_compute|].
  exact (referral_no_less (of_Z 60) sample_tiers sample_numbers).
Defined.
