(* ===== verification/WalletQuote.v ===== *)
(** * WalletQuote: what the quote of a payment promises

    The decimal arithmetic of [WalletPayment] is exact, and its rounding is the
    least amount of the currency that covers the price. *)
From Stdlib Require Import Floats.SpecFloat QArith Qpower Lqa.
From S2P Require Import Prelude JsString JsNumber JsFloat JsValue JsJson JsRegex JsDecimal Currency WalletPayment WalletCashback.

#[local] Open Scope Z_scope.

(** ** Taking a number apart *)

Lemma strip_leading_zeros_spec s :
  digits s →
  digits (strip_leading_zeros s) ∧ digits_val (strip_leading_zeros s) = digits_val s ∧
  (s ≠ [] → strip_leading_zeros s ≠ []).
Proof.
  induction 1 as [|c s Hc Hs IH]; [done|]. simpl. destruct s as [|d s]; [by split_and!; auto|].
  destruct (is_zero c) eqn:E; cbn [andb]; [|by split_and!; auto].
  destruct (is_digit d); [|by split_and!; auto]. destruct IH as (H1 & H2 & H3).
  split_and!; [done| |intros _; by apply H3]. rewrite H2, (digits_val_cons c).
  apply N.eqb_eq in E as ->. done.
Qed.

Lemma BigInt_digits s : digits s → BigInt s = Some (Z.of_N (digits_val s)).
Proof.
  intros Hs. unfold BigInt. assert (all_digits s = true) as ->; [|done].
  unfold all_digits. apply forallb_forall. rewrite Forall_forall in Hs. intros c Hc. by apply Hs, list_elem_of_In.
Qed.

Lemma digits_not_in c a : digits a → is_digit c = false → c ∉ a.
Proof. intros Ha Hc Hin. rewrite Forall_forall in Ha. apply Ha in Hin. congruence. Qed.

Lemma lower_digits a : digits a → map ascii_lower a = a.
Proof.
  induction 1 as [|c a Hc Ha IH]; [done|]. simpl. rewrite IH. f_equal. unfold ascii_lower.
  unfold is_digit in Hc. apply andb_true_iff in Hc as [H1%N.leb_le H2%N.leb_le].
  by destruct (N.leb_spec 65 c); [lia|].
Qed.

(** The whole part and the fraction, with a point between. *)
Definition coefficient_text (ip fp : jstring) : jstring := ip ++ match fp with [] => [] | _ => "." ++ fp end.

Lemma coefficient_units ip fp c :
  digits ip → digits fp → is_digit c = false → c ≠ cu "." → c ∉ coefficient_text ip fp.
Proof.
  intros Hi Hf Hc Hd. unfold coefficient_text. rewrite elem_of_app. intros [H|H].
  - by apply (digits_not_in c ip).
  - destruct fp as [|f fp]; [by apply elem_of_nil in H|]. apply elem_of_cons in H as [->|H]; [done|].
    by apply (digits_not_in c (f :: fp)).
Qed.

Lemma split_coefficient ip fp :
  digits ip → digits fp →
  nth 0 (split_unit (cu ".") (coefficient_text ip fp)) [] = ip ∧
  default [] (nth_error (split_unit (cu ".") (coefficient_text ip fp)) 1) = fp.
Proof.
  intros Hi Hf. unfold coefficient_text.
  assert (cu "." ∉ ip) by (by apply digits_not_in). assert (cu "." ∉ fp) by (by apply digits_not_in).
  destruct fp as [|f fp].
  - rewrite app_nil_r, split_unit_clean by done. done.
  - change ("." ++ f :: fp) with (cu "." :: f :: fp). rewrite split_unit_app, split_unit_clean by done. done.
Qed.

Lemma lower_coefficient ip fp : digits ip → digits fp → map ascii_lower (coefficient_text ip fp) = coefficient_text ip fp.
Proof.
  intros Hi Hf. unfold coefficient_text. rewrite map_app, lower_digits by done.
  destruct fp as [|f fp]; [done|]. rewrite map_app, (lower_digits (f :: fp)) by done. done.
Qed.

(** The exponent part of the code, as an integer. *)
Lemma exponent_read (neg : bool) ip fp ex :
  digits ip → ip ≠ [] → digits fp → (ex = None ∨ ∃ e, ex = Some e ∧ -6000 <= e <= 6000) →
  let parts := split_unit (cu "e") (map ascii_lower ((if neg then "-" else []) ++ numeral ip fp ex)) in
  let exponentValue := nth_error parts 1 in
  let exponent := if otruthy exponentValue then Number_of_string (default [] exponentValue) else zero in
  nth 0 parts [] = (if neg then "-" else []) ++ coefficient_text ip fp ∧
  (if is_integer exponent then floor_Z exponent else None) = Some (exponent_value ex).
Proof.
  intros Hi Hne Hf Hex. simpl.
  assert (∀ t, map ascii_lower ((if neg then "-" else []) ++ coefficient_text ip fp ++ t) =
    ((if neg then "-" else []) ++ coefficient_text ip fp) ++ map ascii_lower t) as Hl.
  { intros t. rewrite !map_app, lower_coefficient by done. rewrite app_assoc. by destruct neg. }
  assert (cu "e" ∉ (if neg then "-" else []) ++ coefficient_text ip fp) as Hn.
  { rewrite elem_of_app. intros [H|H]; [|by apply coefficient_units in H].
    destruct neg; [|by apply elem_of_nil in H]. by apply list_elem_of_singleton in H. }
  unfold numeral. rewrite (app_assoc ip). fold (coefficient_text ip fp). rewrite Hl.
  destruct Hex as [->|(e & -> & He)].
  - rewrite app_nil_r, split_unit_clean by done. done.
  - destruct (digits_val_Z (Z.abs e) ltac:(lia)) as (ds & -> & Hd & Hdne & Hv).
    assert (map ascii_lower ("e" ++ (if e <? 0 then "-" else "+") ++ ds) =
      cu "e" :: (if e <? 0 then "-" else "+") ++ ds) as ->.
    { rewrite !map_app, (lower_digits ds) by done. destruct (e <? 0); reflexivity. }
    assert (cu "e" ∉ (if e <? 0 then "-" else "+") ++ ds) as Hn2.
    { rewrite elem_of_app. intros [H|H]; [|by apply (digits_not_in (cu "e") ds)].
      by destruct (e <? 0); apply list_elem_of_singleton in H. }
    rewrite split_unit_app, split_unit_clean by done. cbn [nth nth_error].
    split; [done|].
    assert (otruthy (Some ((if e <? 0 then "-" else "+") ++ ds)) = true) as -> by (by destruct (e <? 0)).
    change (default [] (Some ?t)) with t.
    pose proof (Number_of_signed (e <? 0) ds Hd Hdne) as Hs. rewrite Hs.
    destruct (of_decimal_small (e <? 0) (digits_val ds)) as [-> ->]; [lia|].
    change (exponent_value (Some e)) with e. f_equal. destruct (Z.ltb_spec e 0); lia.
Qed.

(** The digits and the scale of a finite number, read off its text. *)
Lemma getDecimalParts_text x :
  is_finite x = true → valid_num x = true →
  ∃ ip fp ex, Number_to_string x = (if sign_of x then "-" else []) ++ numeral ip fp ex ∧
    digits ip ∧ ip ≠ [] ∧ digits fp ∧
    let scale := Z.of_nat (length fp) - exponent_value ex in
    getDecimalParts x = Some (if 20 <? Z.abs scale then None
      else Some {| digits_ := (if sign_of x then -1 else 1) * Z.of_N (digits_val (ip ++ fp)); scale := scale |}).
Proof.
  intros Hx Hv. destruct (Number_to_string_numeral x Hx) as (ip & fp & ex & Ht & Hi & Hne & Hf & Hex).
  specialize (Hex Hv). exists ip, fp, ex. split_and!; [done..|]. simpl. unfold getDecimalParts. rewrite Ht.
  destruct (exponent_read (sign_of x) ip fp ex Hi Hne Hf Hex) as [-> ->].
  assert (starts_with "-" ((if sign_of x then "-" else []) ++ coefficient_text ip fp) = sign_of x ∧
    match (if sign_of x then "-" else []) ++ coefficient_text ip fp with
    | c :: r => if (c =? cu "+")%N || (c =? cu "-")%N then r
                else (if sign_of x then "-" else []) ++ coefficient_text ip fp
    | [] => [] end = coefficient_text ip fp) as [-> ->].
  { destruct (sign_of x); [done|]. unfold coefficient_text. destruct ip as [|c ip]; [done|].
    apply Forall_cons in Hi as [Hc _]. cbn [app].
    assert (∀ d, is_digit d = false → (c =? d)%N = false) as Hd by (intros d Hd; apply N.eqb_neq; congruence).
    rewrite !Hd by done. split; [|done]. apply not_true_iff_false. intros [t [= -> _]]%starts_with_spec. by vm_compute in Hc. }
  destruct (split_coefficient ip fp Hi Hf) as [-> ->].
  destruct (20 <? _); [done|].
  destruct (strip_leading_zeros_spec (ip ++ fp)) as (Hd & Hvs & Hns); [by apply Forall_app|].
  unfold str_or. assert (truthy (strip_leading_zeros (ip ++ fp)) = true) as ->.
  { apply truthy_spec, Hns. by destruct ip. }
  by rewrite BigInt_digits, Hvs.
Qed.

(** The digits and the scale of a finite number are those of its decimal text:
    taking it apart never throws, and the number that the decimal denotes is the
    number itself, as its text reads back. *)
Lemma getDecimalParts_exact x :
  is_finite x = true → valid_num x = true → Number_of_string (Number_to_string x) = x →
  ∃ parts, getDecimalParts x = Some parts ∧
    match parts with
    | Some p => Z.abs (scale p) <= 20 ∧ (sign_of x = false → 0 <= digits_ p) ∧
        of_decimal (sign_of x) (Z.to_N (Z.abs (digits_ p))) (- scale p) = x
    | None => True
    end.
Proof.
  intros Hx Hv Hr. destruct (getDecimalParts_text x Hx Hv) as (ip & fp & ex & Ht & Hi & Hne & Hf & Hp).
  rewrite Ht, Number_of_numeral in Hr by done.
  eexists. split; [exact Hp|]. destruct (Z.ltb_spec 20 (Z.abs (Z.of_nat (length fp) - exponent_value ex))); [done|].
  cbn [scale digits_]. split_and!; [done|by intros ->; lia|].
  replace (Z.abs ((if sign_of x then -1 else 1) * Z.of_N (digits_val (ip ++ fp))))
    with (Z.of_N (digits_val (ip ++ fp))) by (destruct (sign_of x); lia).
  rewrite N2Z.id. etransitivity; [|exact Hr]. f_equal. lia.
Qed.

(** ** The exact values *)

Definition pow10 (z : Z) : Q := Qpower (inject_Z 10) z.
Definition dec_value (d : DecimalValue) : Q := inject_Z (digits_ d) * pow10 (- scale d).
Definition frac_value (f : FractionValue) : Q := inject_Z (numerator f) / inject_Z (denominator f).

Lemma ten_nonzero : ~ (inject_Z 10 == 0)%Q.
Proof. by intros H. Qed.

Lemma pow10_pos z : (0 < pow10 z)%Q.
Proof. apply Qpower_0_lt. reflexivity. Qed.

Lemma pow10_add a b : (pow10 (a + b) == pow10 a * pow10 b)%Q.
Proof. apply Qpower_plus, ten_nonzero. Qed.

Lemma pow10_Z z : 0 <= z → (pow10 z == inject_Z (10 ^ z))%Q.
Proof. intros Hz. unfold pow10. by rewrite Zpower_Qpower by done. Qed.

Lemma dec_mul a b : (dec_value (multiplyDecimalValues a b) == dec_value a * dec_value b)%Q.
Proof.
  unfold dec_value, multiplyDecimalValues. cbn [digits_ scale]. rewrite inject_Z_mult, Z.opp_add_distr, pow10_add. ring.
Qed.

Lemma decimalToFraction_pos d : 0 < denominator (decimalToFraction d).
Proof. unfold decimalToFraction. destruct (Z.leb_spec 0 (scale d)); cbn; lia. Qed.

Lemma dec_frac d : (frac_value (decimalToFraction d) == dec_value d)%Q.
Proof.
  unfold frac_value, dec_value, decimalToFraction. destruct (Z.leb_spec 0 (scale d)); cbn [numerator denominator].
  - rewrite <- pow10_Z by done. unfold pow10. rewrite Qpower_opp. reflexivity.
  - rewrite inject_Z_mult, <- pow10_Z by lia. change (inject_Z 1) with 1%Q. field.
Qed.

Lemma inject_nonzero z : z ≠ 0 → ~ (inject_Z z == 0)%Q.
Proof. intros Hz H. unfold inject_Z, Qeq in H. simpl in H. lia. Qed.

Lemma frac_div a b : digits_ b ≠ 0 → (frac_value (divideDecimalValues a b) == dec_value a / dec_value b)%Q.
Proof.
  intros Hb. rewrite <- !dec_frac. unfold frac_value, divideDecimalValues. cbn [numerator denominator].
  assert (numerator (decimalToFraction b) ≠ 0).
  { unfold decimalToFraction. destruct (0 <=? scale b) eqn:E; cbn [numerator]; [done|].
    pose proof (Z.pow_pos_nonneg 10 (- scale b) ltac:(lia) ltac:(lia)). nia. }
  pose proof (decimalToFraction_pos a). pose proof (decimalToFraction_pos b).
  rewrite !inject_Z_mult. field. split_and!; apply inject_nonzero; lia.
Qed.

Lemma frac_sub a b :
  denominator a ≠ 0 → denominator b ≠ 0 →
  (frac_value (subtractFractionValues a b) == frac_value a - frac_value b)%Q.
Proof.
  intros Ha Hb. unfold frac_value, subtractFractionValues. cbn [numerator denominator].
  unfold Z.sub. rewrite inject_Z_plus, inject_Z_opp, !inject_Z_mult. field. split; by apply inject_nonzero.
Qed.

Lemma inject_pos z : (0 < inject_Z z)%Q ↔ 0 < z.
Proof. change 0%Q with (inject_Z 0). by rewrite <- Zlt_Qlt. Qed.

(** The sign of a fraction with a positive denominator is that of its numerator. *)
Lemma frac_positive f : 0 < denominator f → 0 < numerator f ↔ (0 < frac_value f)%Q.
Proof.
  intros Hd. unfold frac_value. rewrite <- inject_pos.
  assert (0 < / inject_Z (denominator f))%Q as Hi by (by apply Qinv_lt_0_compat, inject_pos).
  rewrite <- (Qmult_lt_r 0 (inject_Z (numerator f)) _ Hi). by rewrite Qmult_0_l.
Qed.

(** Comparing an amount with a multiple of a unit is comparing integers. *)
Lemma unit_le D s d n :
  s <= d → (inject_Z D * pow10 (- s) <= inject_Z n * pow10 (- d))%Q ↔ D * 10 ^ (d - s) <= n.
Proof.
  intros Hs. rewrite Zle_Qle, inject_Z_mult, <- pow10_Z by lia.
  rewrite <- (Qmult_le_r _ _ (pow10 d)) by apply pow10_pos.
  assert (inject_Z D * pow10 (- s) * pow10 d == inject_Z D * pow10 (d - s))%Q as ->.
  { rewrite <- Qmult_assoc, <- pow10_add. by replace (- s + d) with (d - s) by lia. }
  assert (inject_Z n * pow10 (- d) * pow10 d == inject_Z n)%Q as ->; [|done].
  rewrite <- Qmult_assoc, <- pow10_add. replace (- d + d) with 0 by lia. apply Qmult_1_r.
Qed.

Lemma unit_le_up D s d n :
  d <= s → (inject_Z D * pow10 (- s) <= inject_Z n * pow10 (- d))%Q ↔ D <= n * 10 ^ (s - d).
Proof.
  intros Hs. rewrite Zle_Qle, inject_Z_mult, <- pow10_Z by lia.
  rewrite <- (Qmult_le_r _ _ (pow10 s)) by apply pow10_pos.
  assert (inject_Z n * pow10 (- d) * pow10 s == inject_Z n * pow10 (s - d))%Q as ->.
  { rewrite <- Qmult_assoc, <- pow10_add. by replace (- d + s) with (s - d) by lia. }
  assert (inject_Z D * pow10 (- s) * pow10 s == inject_Z D)%Q as ->; [|done].
  rewrite <- Qmult_assoc, <- pow10_add. replace (- s + s) with 0 by lia. apply Qmult_1_r.
Qed.

(** ** Rounding *)

(** The exact product of the factors of a price. *)
Definition price (values : list DecimalValue) : Q := fold_left (λ q v, q * dec_value v)%Q values 1%Q.

Lemma product_value values acc q :
  (dec_value acc == q)%Q →
  (dec_value (fold_left multiplyDecimalValues values acc) == fold_left (λ q v, q * dec_value v) values q)%Q.
Proof.
  revert acc q. induction values as [|v values IH]; intros acc q H; [done|]. simpl. apply IH. by rewrite dec_mul, H.
Qed.

Lemma product_nonneg values acc :
  0 <= digits_ acc → Forall (λ v, 0 <= digits_ v) values → 0 <= digits_ (fold_left multiplyDecimalValues values acc).
Proof.
  intros Ha Hv. revert acc Ha. induction Hv as [|v values Hv Hvs IH]; intros acc Ha; [done|]. apply IH. cbn. lia.
Qed.

Lemma ceiling_le D v n : 0 <= D → 0 < v → Z.quot (D + v - 1) v <= n ↔ D <= n * v.
Proof.
  intros HD Hv. rewrite Z.quot_div_nonneg by lia.
  pose proof (Z.div_mod (D + v - 1) v ltac:(lia)) as Hdm. pose proof (Z.mod_pos_bound (D + v - 1) v Hv).
  set (k := (D + v - 1) / v) in *. split; intros H1; nia.
Qed.

Lemma roundDisplayAmount_least values decimals r :
  Forall (λ v, 0 <= digits_ v) values → roundDisplayAmount values decimals = Some r →
  scale r = decimals ∧
  ∀ n, (price values <= inject_Z n * pow10 (- decimals))%Q ↔ digits_ r <= n.
Proof.
  intros Hv. unfold roundDisplayAmount, price.
  pose proof (product_nonneg values {| digits_ := 1; scale := 0 |} ltac:(done) Hv) as Hn.
  assert (dec_value {| digits_ := 1; scale := 0 |} == 1)%Q as H1 by reflexivity.
  pose proof (product_value values _ _ H1) as Hp. set (P := fold_left multiplyDecimalValues _ _) in *.
  set (q := fold_left _ values 1%Q) in *. clearbody P q.
  destruct (20 <? Z.abs (scale P)); [done|].
  destruct (Z.leb_spec (scale P) decimals); intros [= <-]; cbn [scale digits_]; (split; [done|]); intros n;
    rewrite <- Hp; unfold dec_value.
  - by apply unit_le.
  - rewrite unit_le_up by lia. rewrite ceiling_le; [done..|]. by apply Z.pow_pos_nonneg; lia.
Qed.

Lemma round_covers values decimals r :
  Forall (λ v, 0 <= digits_ v) values → roundDisplayAmount values decimals = Some r →
  scale r = decimals ∧ (price values <= dec_value r)%Q ∧
  ∀ n, (price values <= inject_Z n * pow10 (- decimals))%Q → digits_ r <= n.
Proof.
  intros Hv E. destruct (roundDisplayAmount_least values decimals r Hv E) as [Hr Hle].
  split_and!; [done|unfold dec_value; rewrite Hr; by apply Hle|]. intros n. by apply Hle.
Qed.

(** A rounded amount has the number of decimals asked for and is the least such
    amount that is not below the exact product; it is refused only when the product
    has a scale above 20, and is exact when the product has no more decimals. *)
Lemma roundDisplayAmount_ceiling values decimals :
  Forall (λ v, 0 <= digits_ v) values →
  match roundDisplayAmount values decimals with
  | Some r =>
    scale r = decimals ∧ (price values <= dec_value r)%Q ∧
    (∀ n, (price values <= inject_Z n * pow10 (- decimals))%Q → digits_ r <= n) ∧
    (fold_left (λ s v, s + scale v) values 0 <= decimals → (dec_value r == price values)%Q)
  | None => 20 < Z.abs (fold_left (λ s v, s + scale v) values 0)
  end.
Proof.
  intros Hv.
  assert (∀ acc, scale (fold_left multiplyDecimalValues values acc) = fold_left (λ s v, s + scale v) values (scale acc)) as Hs.
  { clear Hv. induction values as [|v values IH]; intros acc; [done|]. simpl. by rewrite IH. }
  specialize (Hs {| digits_ := 1; scale := 0 |}). cbn [scale] in Hs.
  destruct (roundDisplayAmount values decimals) as [r|] eqn:E.
  - destruct (round_covers values decimals r Hv E) as (Hr & Hle & Hl). split_and!; [done..|].
    rewrite <- Hs. intros Hd. unfold roundDisplayAmount in E. destruct (20 <? _); [done|].
    apply Z.leb_le in Hd as Hd'. rewrite Hd' in E. injection E as <-. unfold price.
    assert (dec_value {| digits_ := 1; scale := 0 |} == 1)%Q as H1 by reflexivity.
    rewrite <- (product_value values _ _ H1). unfold dec_value. cbn [digits_ scale].
    rewrite inject_Z_mult, <- pow10_Z, <- Qmult_assoc, <- pow10_add by lia.
    by match goal with |- (_ * pow10 ?a == _ * pow10 ?b)%Q => replace a with b by lia end.
  - unfold roundDisplayAmount in E. rewrite Hs in E. destruct (Z.ltb_spec 20 (Z.abs (fold_left (λ s v, s + scale v) values 0))); [done|].
    by destruct (_ <=? decimals).
Qed.

(** ** The quote *)

Lemma parts_nonneg x p :
  is_finite x = true → sign_of x = false → getDecimalParts x = Some (Some p) → 0 <= digits_ p.
Proof.
  intros Hx Hs. destruct (Number_to_string_numeral x Hx) as (ip & fp & ex & Ht & Hi & Hne & _).
  unfold getDecimalParts. rewrite Ht, Hs. destruct ip as [|c ip]; [done|]. apply Forall_cons in Hi as [Hc _].
  assert (∃ r t, split_unit (cu "e") (map ascii_lower ([] ++ numeral (c :: ip) fp ex)) = (c :: r) :: t) as (r & t & ->).
  { unfold numeral. cbn [app map]. assert (ascii_lower c = c) as ->.
    { pose proof (lower_digits [c] ltac:(by repeat constructor)) as H. by injection H as ->. }
    cbn [split_unit]. assert ((c =? cu "e")%N = false) as -> by (apply N.eqb_neq; intros ->; by vm_compute in Hc).
    destruct (split_unit _ _) as [|w ws]; by eexists _, _. }
  assert (starts_with "-" (nth 0 ((c :: r) :: t) []) = false) as ->.
  { apply not_true_iff_false. intros [w [= -> _]]%starts_with_spec. by vm_compute in Hc. }
  destruct (if is_integer _ then _ else _) as [e|]; [|done]. destruct (20 <? _); [done|].
  destruct (BigInt _) as [n|] eqn:En; [|done]. intros [= <-]. cbn [digits_].
  unfold BigInt in En. destruct (all_digits _); [|done]. injection En as <-. lia.
Qed.

Lemma not_positive_false x : not_positive x = false → is_finite x = true ∧ sign_of x = false ∧ nlt zero x = true.
Proof. unfold not_positive. by destruct x as [[]|[]| |[] ??]. Qed.

(** What the parts of a quote are, from the exact values. *)
Record quote_exact (a m c r charge : DecimalValue) (decimals : Z) (cashback : jval)
  (q : PaymentMethodDisplayQuote) : Prop := {
  (** the charge is the least amount of the currency that covers the price *)
  q_scale : scale charge = decimals;
  q_covers : (price [a; m; c; r] <= dec_value charge)%Q;
  q_least : ∀ n, (price [a; m; c; r] <= inject_Z n * pow10 (- decimals))%Q → digits_ charge <= n;
  q_charged : fractionToNumber (decimalToFraction charge) = Some (chargedAmount q);
  (** what is credited is the base amount *)
  q_base : fractionToNumber (decimalToFraction (multiplyDecimalValues a m)) = Some (baseAmountUSD q);
  q_credited : creditedAmountUSD q = baseAmountUSD q;
  (** the commission is what the charge is above the base amount, and never negative *)
  q_rate : (0 < dec_value r)%Q;
  q_commission : (0 < dec_value charge / dec_value r - dec_value a * dec_value m)%Q →
    ∃ f, (frac_value f == dec_value charge / dec_value r - dec_value a * dec_value m)%Q ∧
         fractionToNumber f = Some (commissionUSD q);
  q_no_commission : (dec_value charge / dec_value r <= dec_value a * dec_value m)%Q → commissionUSD q = zero;
  q_fee : (1 <= dec_value c)%Q → (dec_value a * dec_value m <= dec_value charge / dec_value r)%Q;
  q_cashback : cashbackPercent q = getCashbackPercentForAmount (baseAmountUSD q) cashback;
}.

Lemma dec_value_nonneg d : 0 <= digits_ d → (0 <= dec_value d)%Q.
Proof.
  intros Hd. unfold dec_value. apply Qmult_le_0_compat.
  - change 0%Q with (inject_Z 0). by rewrite <- Zle_Qle.
  - apply Qlt_le_weak, pow10_pos.
Qed.

Lemma fractionToNumber_nonzero f x : fractionToNumber f = Some x → denominator f ≠ 0.
Proof. unfold fractionToNumber. destruct (Z.eqb_spec (denominator f) 0); [done|]. by intros. Qed.

Lemma decimal_quote_exact currency a m r c decimals cashback q :
  0 <= digits_ a → 0 <= digits_ m → 0 <= digits_ c → 0 <= digits_ r →
  decimal_quote currency a m r c decimals cashback = Some (Some q) →
  ∃ charge, quote_exact a m c r charge decimals cashback q.
Proof.
  intros Ha Hm Hc Hr. unfold decimal_quote.
  destruct (fractionToNumber (decimalToFraction (multiplyDecimalValues a m))) as [base|] eqn:Eb; [|done].
  destruct (roundDisplayAmount _ _) as [charge|] eqn:Er; [|done].
  destruct (fractionToNumber (decimalToFraction charge)) as [charged|] eqn:Ech; [|done].
  destruct (fractionToNumber (divideDecimalValues charge r)) as [chargedUSD|] eqn:Eu; [|done].
  set (fee := subtractFractionValues _ _).
  destruct (if 0 <? numerator fee then fractionToNumber fee else Some zero) as [commission|] eqn:Ef; [|done].
  destruct (getDecimalParts _) as [[percent|]|]; [|done..]. cbn [mbind option_bind].
  destruct (fractionToNumber (multiplyFractionValues _ _)) as [back|]; [|done]. intros [= <-].
  destruct (round_covers [a; m; c; r] decimals charge ltac:(by repeat constructor) Er) as (H1 & H2 & H3).
  (* the rate is not zero, since a quotient by it is a number *)
  apply fractionToNumber_nonzero in Eu as Hd. unfold divideDecimalValues in Hd. cbn [denominator] in Hd.
  assert (digits_ r ≠ 0) as Hr0.
  { intros H0. apply Hd. unfold decimalToFraction at 2. rewrite H0. destruct (0 <=? scale r); cbn [numerator]; lia. }
  assert (0 < dec_value r)%Q as Hrpos.
  { unfold dec_value. apply Qmult_lt_0_compat; [apply inject_pos; lia|apply pow10_pos]. }
  assert (0 < denominator (divideDecimalValues charge r)) as Hden.
  { unfold divideDecimalValues. cbn [denominator]. pose proof (decimalToFraction_pos charge).
    assert (0 < numerator (decimalToFraction r)); [|nia]. unfold decimalToFraction.
    pose proof (Z.pow_pos_nonneg 10 (- scale r) ltac:(lia)). destruct (Z.leb_spec 0 (scale r)); cbn [numerator]; [lia|nia]. }
  pose proof (decimalToFraction_pos (multiplyDecimalValues a m)) as Hbden.
  assert (frac_value fee == dec_value charge / dec_value r - dec_value a * dec_value m)%Q as Hfee.
  { unfold fee. rewrite frac_sub by lia. by rewrite frac_div, dec_frac, dec_mul. }
  assert (0 < denominator fee) as Hfden by (unfold fee, subtractFractionValues; cbn [denominator]; nia).
  pose proof (frac_positive fee Hfden) as Hsign. rewrite Hfee in Hsign.
  exists charge. constructor; cbn [chargedAmount baseAmountUSD creditedAmountUSD commissionUSD cashbackPercent]; try done.
  - intros H. apply Hsign, Z.ltb_lt in H. rewrite H in Ef. by exists fee.
  - intros H. destruct (Z.ltb_spec 0 (numerator fee)) as [Hn|_]; [|congruence]. apply Hsign in Hn. lra.
  - intros H. apply Qle_shift_div_l; [done|]. eapply Qle_trans; [|exact H2]. unfold price. cbn [fold_left].
    pose proof (Qmult_le_0_compat _ _ (dec_value_nonneg a Ha) (dec_value_nonneg m Hm)).
    apply Qmult_le_compat_r; [|by apply Qlt_le_weak]. nra.
Qed.

(** C12: the quote of a payment in a currency.  The charge is the least amount of the
    currency, at its number of decimals, that covers amount x multiplier x
    coefficient x rate, where a coefficient below one counts as one; the base amount
    is credited in full, and the commission is exactly what is charged above it. *)
Theorem display_quote_charge toLowerCase toUpperCase store amount method cashback q :
  isDirectUSDTPayment toLowerCase (type_ method) = false →
  getPaymentMethodDisplayQuote toLowerCase toUpperCase store amount method cashback = Some (Some q) →
  ∃ a m r c charge,
    getDecimalParts amount = Some (Some a) ∧
    getDecimalParts (Number_field (base_amount_multiplier method)) = Some (Some m) ∧
    getDecimalParts (Number_field (rate_to_usd method)) = Some (Some r) ∧
    (if nlt (of_Z 1) (Number_field (topup_ratio method))
     then getDecimalParts (Number_field (topup_ratio method)) = Some (Some c)
     else c = {| digits_ := 1; scale := 0 |}) ∧
    quote_exact a m c r charge (default 0 (floor_Z (Number_field (rounding_decimals method)))) cashback q.
Proof.
  intros Hdirect. unfold getPaymentMethodDisplayQuote. rewrite Hdirect.
  set (rate := Number_field (rate_to_usd method)). set (mult := Number_field (base_amount_multiplier method)).
  set (coef := Number_field (topup_ratio method)). set (dec := Number_field (rounding_decimals method)).
  destruct (_ || _) eqn:Eg; [done|]. bool_to_prop.
  destruct (not_positive_false amount) as (Fa & Sa & _); [done|].
  destruct (not_positive_false rate) as (Fr & Sr & _); [done|].
  destruct (not_positive_false mult) as (Fm & Sm & _); [done|].
  destruct (not_positive_false coef) as (Fc & Sc & _); [done|].
  destruct (getDecimalParts amount) as [[a|]|] eqn:Ea; cbn [mbind option_bind]; [| |done];
    destruct (getDecimalParts mult) as [[m|]|] eqn:Em; cbn [mbind option_bind]; try done;
    destruct (getDecimalParts rate) as [[r|]|] eqn:Er; cbn [mbind option_bind]; try done;
    destruct (getDecimalParts coef) as [[c|]|] eqn:Ec; cbn [mbind option_bind]; try done.
  intros Hq. apply decimal_quote_exact in Hq as [charge Hq].
  - eexists a, m, r, _, charge. split_and!; [done..| |exact Hq]. destruct (nlt (of_Z 1) coef); done.
  - by apply (parts_nonneg amount).
  - by apply (parts_nonneg mult).
  - destruct (nlt (of_Z 1) coef); [by apply (parts_nonneg coef)|done].
  - by apply (parts_nonneg rate).
Qed.

(** ** Quotes never throw *)

Lemma getDecimalParts_total x : is_finite x = true → valid_num x = true → ∃ p, getDecimalParts x = Some p.
Proof. intros Hx Hv. destruct (getDecimalParts_text x Hx Hv) as (? & ? & ? & _ & _ & _ & _ & ->). by eexists. Qed.

Lemma cashback_percent_number amount cashback :
  numbers_ok cashback →
  is_finite (getCashbackPercentForAmount amount cashback) = true ∧
  valid_num (getCashbackPercentForAmount amount cashback) = true.
Proof.
  intros Hd. destruct (cashback_percent_cases amount cashback) as [[_ ->]|(t & (b & a & E & _) & ->)]; [done|].
  assert (t ∈ normalizeCashbackTiers cashback) as Ht by (rewrite E; apply elem_of_app; right; constructor).
  apply elem_of_normalized_tiers in Ht as (Hp & _ & Hv). destruct (Hv Hd) as (? & ? & _). split; [|done].
  by apply proper_tier_facts in Hp as (_ & _ & ? & _).
Qed.

(** The numbers of a payment method are numbers of the language. *)
Definition method_numbers (method : PaymentMethod) : Prop :=
  ∀ f, f ∈ [topup_ratio method; rate_to_usd method; base_amount_multiplier method] → valid_num (Number_field f) = true.

(** A quote is always given or refused: no conversion to a [bigint] throws. *)
Lemma quote_defined toLowerCase toUpperCase store amount method cashback :
  valid_num amount = true → method_numbers method → numbers_ok cashback →
  ∃ quote, getPaymentMethodDisplayQuote toLowerCase toUpperCase store amount method cashback = Some quote.
Proof.
  intros Ha Hm Hd. unfold getPaymentMethodDisplayQuote. destruct (isDirectUSDTPayment _ _); [by eexists|].
  set (rate := Number_field (rate_to_usd method)). set (mult := Number_field (base_amount_multiplier method)).
  set (coef := Number_field (topup_ratio method)).
  assert (valid_num rate = true) by (apply Hm; rewrite !elem_of_cons; auto). assert (valid_num mult = true) by (apply Hm; rewrite !elem_of_cons; auto).
  assert (valid_num coef = true) by (apply Hm; rewrite !elem_of_cons; auto).
  destruct (_ || _) eqn:Eg; [by eexists|]. bool_to_prop.
  destruct (getDecimalParts_total amount) as [[a|] ->]; [by apply not_positive_false|done|..]; cbn [mbind option_bind];
    destruct (getDecimalParts_total mult) as [[m|] ->]; try (by apply not_positive_false); try done; cbn [mbind option_bind];
    destruct (getDecimalParts_total rate) as [[r|] ->]; try (by apply not_positive_false); try done; cbn [mbind option_bind];
    destruct (getDecimalParts_total coef) as [[c|] ->]; try (by apply not_positive_false); try done; cbn [mbind option_bind];
    try (by eexists).
  unfold decimal_quote. destruct (fractionToNumber _) as [base|]; [|by eexists].
  destruct (roundDisplayAmount _ _) as [charge|]; [|by eexists].
  destruct (fractionToNumber (decimalToFraction charge)); [|by eexists].
  destruct (fractionToNumber (divideDecimalValues charge r)); [|by eexists].
  destruct (if 0 <? _ then _ else _); [|by eexists].
  destruct (cashback_percent_number base cashback Hd) as [Hf Hv].
  destruct (getDecimalParts_total _ Hf Hv) as [[percent|] ->]; cbn [mbind option_bind]; [|by eexists].
  destruct (fractionToNumber _); by eexists.
Qed.

(** ** Concrete inputs *)

Definition sample_method : PaymentMethod := {|
  WalletPayment.name := "Card"; type_ := "card"; color := None; min_topup := None; icon := None;
  description := None; contact_url := None; admin_only := None; topup_ratio := Some (of_Z 1);
  rate_to_usd := Some (of_Z 90); base_amount_multiplier := Some (Number_of_string "1.1");
  rounding_decimals := Some (of_Z 2); WalletPayment.currency := Some ("RUB" : jstring);
  payment_amount := None; currency_symbol := None; crypto_networks := None |}.

Definition sample_quote : option (option PaymentMethodDisplayQuote) :=
  getPaymentMethodDisplayQuote id id None (Number_of_string "0.1") sample_method sample_tiers.

Example getDecimalParts_exact_witness :
  getDecimalParts (Number_of_string "1.05") = Some (Some {| digits_ := 105; scale := 2 |}) ∧
  of_decimal false 105 (-2) = Number_of_string "1.05".
Proof.
  assert (getDecimalParts (Number_of_string "1.05") = Some (Some {| digits_ := 105; scale := 2 |})) as E by (by vm_compute).
  split; [exact E|].
  destruct (getDecimalParts_exact (Number_of_string "1.05")) as (parts & Hp & H); [by vm_compute..|].
  rewrite E in Hp. injection Hp as <-. destruct H as (_ & _ & H). exact H.
Defined.

Example roundDisplayAmount_ceiling_witness :
  let values := [{| digits_ := 1; scale := 1 |}; {| digits_ := 11001; scale := 4 |}] in
  roundDisplayAmount values 2 = Some {| digits_ := 12; scale := 2 |} ∧
  (price values <= dec_value {| digits_ := 12; scale := 2 |})%Q.
Proof.
  intros values. split; [by vm_compute|].
  pose proof (roundDisplayAmount_ceiling values 2 ltac:(by repeat constructor)) as H.
  exact (proj1 (proj2 H)).
Defined.

Example display_quote_charge_witness :
  (chargedAmount <$> mjoin sample_quote) = Some (Number_of_string "9.9") ∧
  ∃ q c charge, sample_quote = Some (Some q) ∧
    quote_exact {| digits_ := 1; scale := 1 |} {| digits_ := 11; scale := 1 |} c {| digits_ := 90; scale := 0 |} charge 2
      sample_tiers q.
Proof.
  split; [by vm_compute|]. destruct sample_quote as [[q|]|] eqn:E; [|by vm_compute in E..].
  destruct (display_quote_charge id id None (Number_of_string "0.1") sample_method sample_tiers q)
    as (a & m & r & c & charge & Ha & Hm & Hr & _ & Hq); [by vm_compute|exact E|].
  exists q, c, charge. split; [reflexivity|].
  vm_compute in Ha, Hm, Hr. injection Ha as <-. injection Hm as <-. injection Hr as <-. exact Hq.
Defined.
