(* ===== verification/WalletTopupInfo.v ===== *)
(** * WalletTopupInfo: [features/wallet/hooks/use-topup-info.ts]

    What the server sends about payments is untyped; it is parsed into the methods,
    tiers and amounts of [WalletPayment].  Whatever the server sends, the methods
    offered are well formed, so every quote for them is computed without throwing. *)
From Stdlib Require Import Floats.SpecFloat.
From S2P Require Import Prelude JsString JsNumber JsFloat JsValue JsJson JsRegex Currency WalletPayment WalletCashback WalletQuote.

#[local] Open Scope Z_scope.

Section topup_info.
Variable toLowerCase toUpperCase : jstring → jstring.

(** ** Crypto networks *)

Definition network_text (n : DirectUSDTNetwork) : jstring :=
  match n with TRON => "TRON" | TON => "TON" | SOLANA => "SOLANA" end.

Definition CRYPTO_NETWORKS : list DirectUSDTNetwork := [TRON; TON; SOLANA].

(** One step of the [reduce] of [parseCryptoNetworks]; the networks seen are those
    already in the result. *)
Definition network_step (result : list DirectUSDTNetwork) (item : jval) : list DirectUSDTNetwork :=
  let raw :=
    match item with
    | JStr s => s
    | JObj o => if ohas "network" o then to_js_string (member "network" item) else []
    | _ => []
    end in
  match List.find (λ n, bool_decide (network_text n = toUpperCase (trim raw))) CRYPTO_NETWORKS with
  | Some network => if bool_decide (network ∈ result) then result else result ++ [network]
  | None => result
  end.

Definition parseCryptoNetworks (data : jval) : list DirectUSDTNetwork :=
  match data with JArr l => fold_left network_step l [] | _ => [] end.

Fixpoint dedupe_from (cryptoSeen : bool) (methods : list PaymentMethod) : list PaymentMethod :=
  match methods with
  | [] => []
  | method :: rest =>
    if negb (bool_decide (type_ method = CRYPTO_DIRECT)) then method :: dedupe_from cryptoSeen rest
    else if cryptoSeen then dedupe_from cryptoSeen rest
    else method :: dedupe_from true rest
  end.

Definition dedupeCryptoPaymentMethods (methods : list PaymentMethod) : list PaymentMethod :=
  dedupe_from false methods.

(** ** Lists that may be texts *)

Definition parseJsonArray (data : jval) : list jval :=
  match data with
  | JArr l => l
  | JStr s => match JSON_parse s with Some (JArr parsed) => parsed | _ => [] end
  | _ => []
  end.

(** [!!item && typeof item === 'object'] *)
Definition is_object (item : jval) : bool := match item with JObj _ | JArr _ => true | _ => false end.

(** [typeof v === 'string' ? v : undefined] *)
Definition string_field (v : jval) : option jstring := match v with JStr s => Some s | _ => None end.

(** [Number.isFinite(v) ? v : undefined] *)
Definition finite_field (v : num) : option num := if is_finite v then Some v else None.

(** [typeof v === 'string' && v.trim() ? v.trim().toUpperCase() : undefined] *)
Definition currency_field (v : jval) : option jstring :=
  match v with
  | JStr s => if truthy (trim s) then Some (toUpperCase (trim s)) else None
  | _ => None
  end.

Definition parse_method (stripeMinTopup : num) (cryptoNetworks : list DirectUSDTNetwork) (item : jval) : PaymentMethod :=
  let rawMinTopup := to_number (member "min_topup" item) in
  let normalizedMinTopup := if is_finite rawMinTopup then rawMinTopup else zero in
  let rawType := match member "type" item with JStr s => toLowerCase (trim s) | _ => [] end in
  let type := if starts_with "usdt_" rawType then CRYPTO_DIRECT else rawType in
  let rawTopupRatio := to_number (member "topup_ratio" item) in
  let rawPaymentAmount := to_number (member "payment_amount" item) in
  let rawRateToUSD := to_number (member "rate_to_usd" item) in
  let rawBaseAmountMultiplier := to_number (member "base_amount_multiplier" item) in
  let rawRoundingDecimals := to_number (member "rounding_decimals" item) in
  let rawAdminOnly := member "admin_only" item in
  let configuredName := match member "name" item with JStr s => trim s | _ => [] end in
  {| name := str_or configuredName (if bool_decide (type = CRYPTO_DIRECT) then "Crypto" else []);
     type_ := type;
     color := string_field (member "color" item);
     icon := string_field (member "icon" item);
     description := string_field (member "description" item);
     contact_url := string_field (member "contact_url" item);
     admin_only := match rawAdminOnly with
                   | JBool b => Some b
                   | JStr s => if bool_decide (s = "true") then Some true
                               else if bool_decide (s = "false") then Some false else None
                   | _ => None
                   end;
     min_topup := Some (if bool_decide (type = STRIPE) && nle normalizedMinTopup zero
                        then stripeMinTopup else normalizedMinTopup);
     topup_ratio := Some (if is_finite rawTopupRatio then rawTopupRatio else of_Z 1);
     rate_to_usd := finite_field rawRateToUSD;
     base_amount_multiplier := finite_field rawBaseAmountMultiplier;
     rounding_decimals := if is_integer rawRoundingDecimals then Some rawRoundingDecimals else None;
     currency := currency_field (member "currency" item);
     payment_amount := finite_field rawPaymentAmount;
     currency_symbol := string_field (member "currency_symbol" item);
     crypto_networks := if bool_decide (type = CRYPTO_DIRECT) then Some cryptoNetworks else None |}.

Definition parsePaymentMethods (data : jval) (stripeMinTopup : num) (cryptoNetworks : list DirectUSDTNetwork) :
  list PaymentMethod :=
  List.filter (λ item, truthy (name item) && truthy (type_ item))
    (map (parse_method stripeMinTopup cryptoNetworks) (List.filter is_object (parseJsonArray data))).

Definition parseWaffoPayMethods (data : jval) : list WaffoPayMethod :=
  List.filter (λ item, truthy (waffo_name item))
    (map (λ item,
      let rateToUSD := to_number (member "rate_to_usd" item) in
      let multiplier := to_number (member "base_amount_multiplier" item) in
      let ratio := to_number (member "topup_ratio" item) in
      let roundingDecimals := to_number (member "rounding_decimals" item) in
      {| waffo_name := match member "name" item with JStr s => s | _ => [] end;
         waffo_icon := string_field (member "icon" item);
         payMethodType := string_field (member "payMethodType" item);
         payMethodName := string_field (member "payMethodName" item);
         waffo_currency := currency_field (member "currency" item);
         waffo_rate_to_usd := finite_field rateToUSD;
         waffo_base_amount_multiplier := finite_field multiplier;
         waffo_topup_ratio := finite_field ratio;
         waffo_rounding_decimals := if is_integer roundingDecimals then Some roundingDecimals else None;
         waffo_currency_symbol := string_field (member "currency_symbol" item) |})
      (List.filter is_object (parseJsonArray data))).

Definition parseAmountOptions (data : jval) : list num :=
  List.filter (λ item, is_finite item && nlt zero item) (map to_number (parseJsonArray data)).

(** Tiers as a list, or as an object from thresholds to percentages. *)
Definition cashback_of_value (parsedData : jval) : list CashbackThreshold :=
  match parsedData with
  | JArr _ => normalizeCashbackTiers parsedData
  | JObj o => normalizeCashbackTiers
      (JArr (map (λ kv, JObj [("min_amount", JNum (Number_of_string kv.1)); ("cashback_percent", JNum (to_number kv.2))]) o))
  | _ => []
  end.

Definition parseCashbackConfig (data : jval) : list CashbackThreshold :=
  if negb (to_boolean data) then []
  else
    match data with
    | JStr s => match JSON_parse s with Some parsedData => cashback_of_value parsedData | None => [] end
    | _ => cashback_of_value data
    end.

(** ** What is offered *)

(** The data of the response: fields of the declared types, and those that are parsed. *)
Record TopupResponse := {
  declared : TopupInfo;
  raw_pay_methods : jval;
  raw_amount_options : jval;
  raw_cashback : jval;
  raw_waffo_pay_methods : jval;
  raw_crypto_networks : jval;
}.

Definition is_direct_type (type : jstring) : bool :=
  bool_decide (type ∈ [CRYPTO_DIRECT; USDT_TRON; USDT_TON; USDT_SOLANA]).

(** Whether the gateway of a method is enabled; the networks are the raw ones. *)
Definition method_enabled (topupInfo : TopupInfo) (rawNetworks : jval) (hasVisibleWaffoMethod : bool)
  (method : PaymentMethod) : bool :=
  if bool_decide (type_ method = STRIPE) then enable_stripe_topup topupInfo
  else if bool_decide (type_ method = WAFFO) then enable_waffo_topup topupInfo && negb hasVisibleWaffoMethod
  else if bool_decide (type_ method = WAFFO_PANCAKE) then enable_waffo_pancake_topup topupInfo
  else if bool_decide (type_ method = YOOKASSA_SBP) then enable_yookassa_topup topupInfo
  else if bool_decide (type_ method = NOWPAYMENTS) then enable_nowpayments_topup topupInfo
  else if is_direct_type (type_ method)
  then match rawNetworks with JArr (_ :: _) => true | _ => false end
  else if bool_decide (type_ method = "manual_transfer") then true
  else enable_online_topup topupInfo.

Definition filterAvailablePaymentMethods (methods : list PaymentMethod) (topupInfo : TopupInfo) (rawNetworks : jval)
  (hasVisibleWaffoMethod : bool) : list PaymentMethod :=
  List.filter (method_enabled topupInfo rawNetworks hasVisibleWaffoMethod) methods.

Definition visible_waffo (methods : list WaffoPayMethod) : bool :=
  existsb (λ method,
    negb (existsb (λ value, bool_decide ((λ v, toLowerCase (trim v)) <$> value = Some ("custom1" : jstring)))
            [Some (waffo_name method); payMethodType method; payMethodName method])) methods.

Variable store : option CurrencyConfig.

Definition with_symbol (symbolsByCode : list (jstring * jstring)) (method : PaymentMethod) : PaymentMethod :=
  {| name := name method; type_ := type_ method; color := color method; min_topup := min_topup method;
     icon := icon method; description := description method; contact_url := contact_url method;
     admin_only := admin_only method; topup_ratio := topup_ratio method; rate_to_usd := rate_to_usd method;
     base_amount_multiplier := base_amount_multiplier method; rounding_decimals := rounding_decimals method;
     currency := currency method; payment_amount := payment_amount method;
     currency_symbol :=
       if otruthy (currency_symbol method) then currency_symbol method
       else oget (str_or (default [] (toUpperCase <$> currency method)) "USD") symbolsByCode;
     crypto_networks := crypto_networks method |}.

(** The information that [fetchTopupInfo] keeps of a successful response. *)
Definition processedData (response : TopupResponse) (availableCurrencies : list (jstring * jstring)) : TopupInfo :=
  let data := declared response in
  let cashback := parseCashbackConfig (raw_cashback response) in
  let symbolsByCode := new_map (map (λ c, (toUpperCase c.1, c.2)) availableCurrencies) in
  let waffoPayMethods := parseWaffoPayMethods (raw_waffo_pay_methods response) in
  let hasVisibleWaffoMethod := visible_waffo waffoPayMethods in
  let cryptoNetworks := parseCryptoNetworks (raw_crypto_networks response) in
  let methods := filterAvailablePaymentMethods
    (dedupeCryptoPaymentMethods
       (parsePaymentMethods (raw_pay_methods response) (stripe_min_topup data) cryptoNetworks))
    data (raw_crypto_networks response) hasVisibleWaffoMethod in
  {| enable_online_topup := enable_online_topup data; enable_stripe_topup := enable_stripe_topup data;
     pay_methods := Some (map (with_symbol symbolsByCode) methods);
     info_min_topup := info_min_topup data; stripe_min_topup := stripe_min_topup data;
     amount_options := parseAmountOptions (raw_amount_options response);
     cashback_tiers := cashback; is_referral_cashback := is_referral_cashback data;
     enable_waffo_topup := enable_waffo_topup data; waffo_pay_methods := waffoPayMethods;
     waffo_min_topup := waffo_min_topup data; enable_waffo_pancake_topup := enable_waffo_pancake_topup data;
     waffo_pancake_min_topup := waffo_pancake_min_topup data; enable_yookassa_topup := enable_yookassa_topup data;
     enable_nowpayments_topup := enable_nowpayments_topup data; yookassa_min_topup := yookassa_min_topup data;
     info_crypto_networks := cryptoNetworks |}.

(** The preset amounts it shows for them. *)
Definition presets (info : TopupInfo) : list PresetAmount :=
  let effectiveCashback := getEffectiveCashbackTiers (tiers_value (cashback_tiers info)) (is_referral_cashback info) in
  match amount_options info with
  | [] => generatePresetAmounts (getMinTopupAmount toLowerCase store (Some info) None)
  | options => mergePresetAmounts (Some options) (tiers_value effectiveCashback)
  end.

(** ** Well-formed methods *)

Definition number_field (P : num → bool) (v : option num) : Prop :=
  match v with Some n => P n = true ∧ valid_num n = true | None => True end.

Definition well_formed (networks : list DirectUSDTNetwork) (method : PaymentMethod) : Prop :=
  name method ≠ [] ∧ type_ method ≠ [] ∧ starts_with "usdt_" (type_ method) = false ∧
  number_field is_finite (topup_ratio method) ∧ is_Some (topup_ratio method) ∧
  number_field is_finite (rate_to_usd method) ∧
  number_field is_finite (base_amount_multiplier method) ∧
  number_field is_integer (rounding_decimals method) ∧
  currency method ≠ Some [] ∧
  crypto_networks method = (if bool_decide (type_ method = CRYPTO_DIRECT) then Some networks else None).

Lemma finite_field_ok v : valid_num v = true → number_field is_finite (finite_field v).
Proof. unfold finite_field. by destruct (is_finite v) eqn:E. Qed.

Lemma parseJsonArray_ok data : numbers_ok data → Forall numbers_ok (parseJsonArray data).
Proof.
  destruct data as [| | | |s|l|]; try constructor; [|apply numbers_ok_arr]. intros _. simpl.
  destruct (JSON_parse s) as [v|] eqn:E; [|constructor]. apply JSON_parse_ok in E.
  destruct v; try constructor. by apply numbers_ok_arr.
Qed.

Lemma field_valid k item : numbers_ok item → valid_num (to_number (member k item)) = true.
Proof. intros. by apply to_number_valid, numbers_ok_member. Qed.

Lemma parse_method_ok stripe networks item :
  (∀ s, s ≠ [] → toUpperCase s ≠ []) → numbers_ok item →
  let method := parse_method stripe networks item in
  name method ≠ [] → type_ method ≠ [] → well_formed networks method.
Proof.
  intros Hup Hok method Hn Ht.
  assert (starts_with "usdt_" (type_ method) = false) as Hs.
  { unfold method, parse_method. cbn [type_]. set (raw := match member "type" item with JStr s => _ | _ => _ end).
    by destruct (starts_with "usdt_" raw) eqn:E. }
  split_and!; [done|done|done|..].
  all: unfold method, parse_method; cbn [topup_ratio rate_to_usd base_amount_multiplier rounding_decimals currency
    crypto_networks type_].
  - pose proof (field_valid "topup_ratio" item Hok). cbn [number_field]. destruct (is_finite (to_number _)) eqn:E; [done|by split; vm_compute].
  - by eexists.
  - apply finite_field_ok, field_valid, Hok.
  - apply finite_field_ok, field_valid, Hok.
  - pose proof (field_valid "rounding_decimals" item Hok). by destruct (is_integer (to_number _)) eqn:E.
  - unfold currency_field. destruct (member "currency" item) as [| | | |s| |]; try done.
    destruct (truthy (trim s)) eqn:E; [|done]. apply truthy_spec in E. intros [= E2]. by eapply Hup.
  - done.
Qed.

Lemma elem_of_parsed data stripe networks method :
  method ∈ parsePaymentMethods data stripe networks ↔
  ∃ item, item ∈ parseJsonArray data ∧ is_object item = true ∧ method = parse_method stripe networks item ∧
    name method ≠ [] ∧ type_ method ≠ [].
Proof.
  unfold parsePaymentMethods. rewrite list_elem_of_In, filter_In, in_map_iff. setoid_rewrite filter_In.
  setoid_rewrite <- list_elem_of_In. rewrite andb_true_iff, !truthy_spec. naive_solver.
Qed.

Lemma with_symbol_ok networks symbols method : well_formed networks (with_symbol symbols method) ↔ well_formed networks method.
Proof. done. Qed.

(** ** Deduplication *)

Definition is_crypto (method : PaymentMethod) : bool := bool_decide (type_ method = CRYPTO_DIRECT).

Lemma dedupe_spec seen methods :
  List.filter (λ m, negb (is_crypto m)) (dedupe_from seen methods) = List.filter (λ m, negb (is_crypto m)) methods ∧
  List.filter is_crypto (dedupe_from seen methods) = if seen then [] else take 1 (List.filter is_crypto methods).
Proof.
  revert seen. induction methods as [|m methods IH]; intros seen; [by destruct seen|]. cbn [dedupe_from].
  change (bool_decide (type_ m = CRYPTO_DIRECT)) with (is_crypto m).
  destruct (is_crypto m) eqn:E; cbn [negb]; [destruct seen|]; cbn [List.filter]; rewrite E; cbn [negb].
  - apply (IH true).
  - destruct (IH true) as [H1 H2]. rewrite H2. split; [exact H1|]. cbn. by rewrite take_0.
  - destruct (IH seen) as [H1 H2]. by rewrite H1, H2.
Qed.

Lemma elem_of_dedupe seen methods m : m ∈ dedupe_from seen methods → m ∈ methods.
Proof.
  revert seen. induction methods as [|x methods IH]; intros seen; [done|]. cbn [dedupe_from].
  destruct (negb _); [|destruct seen]; rewrite ?elem_of_cons; naive_solver.
Qed.

Lemma networks_NoDup data : NoDup (parseCryptoNetworks data).
Proof.
  destruct data as [| | | | |l|]; try constructor. unfold parseCryptoNetworks.
  assert (NoDup (@nil DirectUSDTNetwork)) as H by constructor. revert H. generalize (@nil DirectUSDTNetwork).
  induction l as [|x l IH]; intros acc Hacc; [done|]. cbn [fold_left]. apply IH. unfold network_step.
  destruct (List.find _ _) as [n|]; [|done]. case_bool_decide; [done|]. apply NoDup_app. split_and!; [done| |].
  - intros y Hy ->%list_elem_of_singleton. done.
  - apply NoDup_singleton.
Qed.

(** ** What is offered is well formed *)

Definition offered (info : TopupInfo) : list PaymentMethod := default [] (pay_methods info).

Lemma elem_of_offered response currencies method :
  let info := processedData response currencies in
  method ∈ offered info → ∃ symbols m, method = with_symbol symbols m ∧
    m ∈ parsePaymentMethods (raw_pay_methods response) (stripe_min_topup (declared response)) (info_crypto_networks info) ∧
    method_enabled (declared response) (raw_crypto_networks response)
      (visible_waffo (waffo_pay_methods info)) method = true.
Proof.
  intros info. unfold offered, info, processedData.
  cbn [pay_methods default from_option id info_crypto_networks waffo_pay_methods].
  rewrite list_elem_of_In, in_map_iff. intros (m & <- & Hm).
  apply filter_In in Hm as [Hm He]. apply list_elem_of_In, elem_of_dedupe in Hm. by eexists _, m.
Qed.

Lemma filter_swap {A} (p q : A → bool) l : List.filter p (List.filter q l) = List.filter q (List.filter p l).
Proof. induction l as [|x l IH]; [done|]. simpl. destruct (p x) eqn:Ep, (q x) eqn:Eq; simpl; rewrite ?Ep, ?Eq, IH; done. Qed.

Lemma one_crypto response currencies :
  (length (List.filter is_crypto (offered (processedData response currencies))) <= 1)%nat.
Proof.
  unfold offered, processedData. cbn [pay_methods default from_option id].
  match goal with |- context [map ?f ?l] => assert (List.filter is_crypto (map f l) = map f (List.filter is_crypto l)) as -> end.
  { induction (filterAvailablePaymentMethods _ _ _ _) as [|m l IH]; [done|]. cbn [map List.filter].
    change (is_crypto (with_symbol _ m)) with (is_crypto m). destruct (is_crypto m); cbn [map]; by rewrite IH. }
  rewrite length_map. unfold filterAvailablePaymentMethods. rewrite filter_swap.
  etransitivity; [apply filter_length_le|]. unfold dedupeCryptoPaymentMethods.
  rewrite (proj2 (dedupe_spec false _)). rewrite length_take. lia.
Qed.

Section offers.
(** Mapping a text to upper case does not empty it. *)
Hypothesis upper_text : ∀ s, s ≠ [] → toUpperCase s ≠ [].

Lemma offered_well_formed response currencies method :
  numbers_ok (raw_pay_methods response) →
  let info := processedData response currencies in
  method ∈ offered info → well_formed (info_crypto_networks info) method.
Proof.
  intros Hok info (symbols & m & -> & Hm & _)%elem_of_offered. apply with_symbol_ok.
  apply elem_of_parsed in Hm as (item & Hi & _ & -> & Hn & Ht). apply parse_method_ok; [done| |done|done].
  pose proof (parseJsonArray_ok _ Hok) as Hall. rewrite Forall_forall in Hall. auto.
Qed.

(** C31: whatever the server sends, the methods offered have a name and a known kind,
    finite numbers of the language and a whole number of decimals; their gateway is
    enabled; at most one of them is the crypto method, and no network is listed twice. *)
Theorem offered_methods response currencies :
  numbers_ok (raw_pay_methods response) →
  let info := processedData response currencies in
  Forall (λ method, well_formed (info_crypto_networks info) method ∧
    method_enabled (declared response) (raw_crypto_networks response)
      (visible_waffo (waffo_pay_methods info)) method = true) (offered info) ∧
  (length (List.filter is_crypto (offered info)) <= 1)%nat ∧ NoDup (info_crypto_networks info).
Proof.
  intros Hok info. split_and!; [|apply one_crypto|apply networks_NoDup].
  apply Forall_forall. intros method Hm. split; [by apply offered_well_formed|].
  by apply elem_of_offered in Hm as (symbols & m & _ & _ & ?).
Qed.

Lemma number_field_valid P v : number_field P v → valid_num (Number_field v) = true.
Proof. destruct v as [n|]; [|done]. by intros []. Qed.

Lemma well_formed_numbers networks method : well_formed networks method → method_numbers method.
Proof.
  intros (_ & _ & _ & H1 & _ & H2 & H3 & _) f Hf.
  repeat (apply elem_of_cons in Hf as [->|Hf]; [by eapply number_field_valid|]). by apply elem_of_nil in Hf.
Qed.

Lemma cashback_of_value_ok v : numbers_ok v → Forall valid_tier (cashback_of_value v).
Proof.
  destruct v as [| | | | |l|o]; intros Hv; try constructor; apply normalized_valid; [done|].
  apply numbers_ok_arr, Forall_map. apply numbers_ok_obj in Hv. eapply Forall_impl; [exact Hv|].
  intros kv Hkv. cbn. split_and!; [apply Number_of_string_valid|by apply to_number_valid|done].
Qed.

Lemma parseCashbackConfig_ok data : numbers_ok data → Forall valid_tier (parseCashbackConfig data).
Proof.
  intros Hd. unfold parseCashbackConfig. destruct (negb (to_boolean data)); [constructor|].
  destruct data as [| | | |s| |]; try by apply cashback_of_value_ok.
  destruct (JSON_parse s) as [v|] eqn:E; [|constructor]. by eapply cashback_of_value_ok, JSON_parse_ok.
Qed.

(** C29: from the answer of the server to the quote: for every method offered and every
    amount, with the tiers of the account, a quote is computed or refused; no
    conversion on the way throws. *)
Theorem offered_quotes response currencies method amount :
  numbers_ok (raw_pay_methods response) → numbers_ok (raw_cashback response) → valid_num amount = true →
  let info := processedData response currencies in
  let tiers := getEffectiveCashbackTiers (tiers_value (cashback_tiers info)) (is_referral_cashback info) in
  method ∈ offered info →
  ∃ quote, getPaymentMethodDisplayQuote toLowerCase toUpperCase store amount method (tiers_value tiers) = Some quote.
Proof.
  intros Hm Hc Ha info tiers Hin. apply quote_defined; [done| |].
  - eapply well_formed_numbers, offered_well_formed; [exact Hm|exact Hin].
  - apply tiers_value_ok, effective_valid, tiers_value_ok. by apply parseCashbackConfig_ok.
Qed.
End offers.

Lemma cashback_of_proper data :
  numbers_ok data → parseCashbackConfig (tiers_value (parseCashbackConfig data)) = parseCashbackConfig data.
Proof.
  intros Hd. assert (∃ v, numbers_ok v ∧ parseCashbackConfig data = normalizeCashbackTiers v) as (v & Hv & ->).
  { assert (∀ v, numbers_ok v → ∃ v', numbers_ok v' ∧ cashback_of_value v = normalizeCashbackTiers v') as H.
    { intros [| | | | |l|o] Hv; try (by exists JNull); [by exists (JArr l)|]. eexists. split; [|reflexivity].
      apply numbers_ok_arr, Forall_map. apply numbers_ok_obj in Hv. eapply Forall_impl; [exact Hv|].
      intros kv Hkv. cbn. split_and!; [apply Number_of_string_valid|by apply to_number_valid|done]. }
    unfold parseCashbackConfig. destruct (negb _); [by exists JNull|].
    destruct data as [| | | |s| |]; try (by apply H). destruct (JSON_parse s) as [w|] eqn:E; [|by exists JNull].
    by apply H, (JSON_parse_ok s). }
  unfold parseCashbackConfig, tiers_value. cbn [to_boolean negb cashback_of_value]. fold (tiers_value (normalizeCashbackTiers v)).
  apply normalize_sorted; [apply normalized_all_ok|by apply normalized_proper|by apply normalized_sorted].
Qed.

(** A configuration of tiers may be sent as a value or as the text of that value,
    compact or indented, with the same result; and a parsed configuration, sent
    again, is parsed as itself. *)
Lemma cashback_config_forms indent data text :
  json_ok data → match data with JArr _ | JObj _ => True | _ => False end →
  JSON_stringify indent data = Some text → numbers_ok data →
  parseCashbackConfig (JStr text) = parseCashbackConfig data ∧
  parseCashbackConfig (tiers_value (parseCashbackConfig data)) = parseCashbackConfig data.
Proof.
  intros Hok Hshape Ht Hd. split; [|by apply cashback_of_proper].
  destruct (JSON_roundtrip indent data Hok) as (t & Ht' & Hp). rewrite Ht in Ht'. injection Ht' as <-.
  assert (text ≠ []) as Hne by (by intros ->). unfold parseCashbackConfig. cbn [to_boolean].
  apply truthy_spec in Hne as ->. cbn [negb]. rewrite Hp. by destruct data.
Qed.
End topup_info.

(** ** Concrete inputs *)

Definition upper_ascii (s : jstring) : jstring :=
  map (λ c, if ((97 <=? c) && (c <=? 122))%N then (c - 32)%N else c) s.
Definition lower_ascii (s : jstring) : jstring := map ascii_lower s.

Lemma upper_ascii_text s : s ≠ [] → upper_ascii s ≠ [].
Proof. by destruct s. Qed.

Definition sample_info : TopupInfo :=
  {| enable_online_topup := true; enable_stripe_topup := false; pay_methods := None; info_min_topup := of_Z 1;
     stripe_min_topup := of_Z 1; amount_options := []; cashback_tiers := []; is_referral_cashback := true;
     enable_waffo_topup := false; waffo_pay_methods := []; waffo_min_topup := None;
     enable_waffo_pancake_topup := false; waffo_pancake_min_topup := None; enable_yookassa_topup := false;
     enable_nowpayments_topup := false; yookassa_min_topup := None; info_crypto_networks := [] |}.

Definition sample_response (networks : jval) : TopupResponse :=
  {| declared := sample_info;
     raw_pay_methods := JArr
       [JObj [("name", JStr "Card"); ("type", JStr "alipay"); ("rate_to_usd", JStr "90");
              ("base_amount_multiplier", JNum (Number_of_string "1.1")); ("rounding_decimals", JNum (of_Z 2));
              ("currency", JStr "rub")];
        JObj [("type", JStr "USDT_TON_direct")]; JObj [("type", JStr "crypto_direct")]; JNull];
     raw_amount_options := JNull; raw_cashback := sample_tiers; raw_waffo_pay_methods := JNull;
     raw_crypto_networks := networks |}.

Abbreviation sample_offer networks := (processedData lower_ascii upper_ascii (sample_response networks) []).

Example offered_methods_witness :
  map type_ (offered (sample_offer (JArr [JStr "ton"; JStr "TON"]))) = ["alipay" : jstring; CRYPTO_DIRECT] ∧
  info_crypto_networks (sample_offer (JArr [JStr "ton"; JStr "TON"])) = [TON] ∧
  (length (List.filter is_crypto (offered (sample_offer (JArr [JStr "ton"; JStr "TON"])))) <= 1)%nat.
Proof.
  split; [by vm_compute|]. split; [by vm_compute|].
  refine (proj1 (proj2 (offered_methods lower_ascii upper_ascii upper_ascii_text (sample_response _) [] _))).
  vm_compute. repeat split.
Defined.

Example offered_quotes_witness :
  ∃ method, head (offered (sample_offer JNull)) = Some method ∧
  (chargedAmount <$> mjoin (getPaymentMethodDisplayQuote lower_ascii upper_ascii None (Number_of_string "0.1") method JNull)) =
    Some (Number_of_string "9.9") ∧
  ∃ quote, getPaymentMethodDisplayQuote lower_ascii upper_ascii None (of_Z 5) method
    (tiers_value (getEffectiveCashbackTiers (tiers_value (cashback_tiers (sample_offer JNull))) true)) = Some quote.
Proof.
  destruct (offered (sample_offer JNull)) as [|method rest] eqn:E; [by vm_compute in E|].
  exists method. split; [reflexivity|]. split.
  - vm_compute in E. injection E as <- _. by vm_compute.
  - apply (offered_quotes lower_ascii upper_ascii None upper_ascii_text (sample_response JNull) [] method (of_Z 5));
      [vm_compute; repeat split|vm_compute; repeat split|by vm_compute|]. rewrite E. constructor.
Defined.

Example cashback_config_forms_witness :
  let data := JObj [("10", JNum (of_Z 5)); ("100", JStr "7.5")] in
  ∃ text, JSON_stringify None data = Some text ∧ parseCashbackConfig (JStr text) = parseCashbackConfig data ∧
    map cashback_percent (parseCashbackConfig data) = [of_Z 5; Number_of_string "7.5"].
Proof.
  intros data. destruct (JSON_stringify None data) as [text|] eqn:E; [|by vm_compute in E].
  exists text. split; [reflexivity|]. split; [|by vm_compute].
  refine (proj1 (cashback_config_forms None data text _ I E _)); [apply json_ok_b_spec; by vm_compute|].
  vm_compute. repeat split.
Defined.

(** The crypto method is offered when the server lists networks none of which is
    supported: the gateway looks at the raw list, so nothing can be chosen. *)
Lemma crypto_without_network :
  map (λ m, (type_ m, crypto_networks m)) (List.filter is_crypto (offered (sample_offer (JArr [JStr "BSC"])))) =
  [(CRYPTO_DIRECT, Some [])].
Proof. vm_compute. reflexivity. Qed.
