(* ===== verification/WalletCheckout.v ===== *)
(** * WalletCheckout: [features/wallet/lib/direct-crypto-checkout.ts], and the
    redirects and error messages of [features/wallet/lib/payment.ts]

    Amounts of transfers, the addresses of invoices, and what is accepted of the
    answer of a payment provider.  The URL parser of the platform is a parameter. *)
From Stdlib Require Import Floats.SpecFloat.
From S2P Require Import Prelude JsString JsNumber JsFloat JsValue JsRegex JsDecimal WalletPayment.

#[local] Open Scope N_scope.

(** ** [encodeURIComponent] *)

Definition uri_mark : jstring := "-_.!~*'()".
Definition uri_unreserved (c : N) : bool :=
  is_digit c || ((65 <=? c) && (c <=? 90)) || ((97 <=? c) && (c <=? 122)) || one_of uri_mark c.

Definition upper_hex (n : N) : N := if n <? 10 then 48 + n else 55 + n.
Definition percent (byte : N) : jstring := cu "%" :: [upper_hex (byte / 16); upper_hex (byte mod 16)].

(** The bytes of a code point in UTF-8. *)
Definition utf8 (p : N) : list N :=
  if p <? 128 then [p]
  else if p <? 2048 then [192 + p / 64; 128 + p mod 64]
  else if p <? 65536 then [224 + p / 4096; 128 + p / 64 mod 64; 128 + p mod 64]
  else [240 + p / 262144; 128 + p / 4096 mod 64; 128 + p / 64 mod 64; 128 + p mod 64].

(** [None]: the text has a surrogate without its pair, and the function throws. *)
Fixpoint encodeURIComponent (s : jstring) : option jstring :=
  match s with
  | [] => Some []
  | c :: r =>
    if uri_unreserved c then r' ← encodeURIComponent r; Some (c :: r')
    else if is_trail c then None
    else if is_lead c then
      match r with
      | d :: r0 =>
        if is_trail d then
          r' ← encodeURIComponent r0;
          Some (concat (map percent (utf8 (65536 + (c - 55296) * 1024 + (d - 56320)))) ++ r')
        else None
      | [] => None
      end
    else r' ← encodeURIComponent r; Some (concat (map percent (utf8 c)) ++ r')
  end.

Example encode_ex : encodeURIComponent [97; 32; 8372; 55357; 56832] = Some "a%20%E2%82%B4%F0%9F%98%80".
Proof. reflexivity. Qed.

(** ** Networks and invoices *)

Definition directCryptoNetworkPaths (network : DirectUSDTNetwork) : jstring :=
  match network with TRON => "tron" | TON => "ton" | SOLANA => "solana" end.

Definition legacyDirectCryptoNetworks : list (jstring * DirectUSDTNetwork) :=
  [("usdt_trc20_direct" : jstring, TRON); ("usdt_ton_direct" : jstring, TON); ("usdt_solana_direct" : jstring, SOLANA)].

Record TopupHistoryRow := {
  status : jstring;
  user_id : Z;
  payment_provider : option jstring;
  payment_method : option jstring;
  trade_no : jstring;
}.

Record DirectUSDTPayment := {
  receiving_address : option jstring;
  destination_token_account : option jstring;
  address : option jstring;
}.

(** [new URL(text)]; [None] when it throws. *)
Record ParsedURL := { protocol : jstring; pathname : jstring; search : jstring; hash : jstring }.

(** [/^\d+\.\d+$/] *)
Definition decimal_re : regex :=
  RSeq RBol (RSeq (RPlus (RChar is_digit)) (RSeq (RLit ".") (RSeq (RPlus (RChar is_digit)) REol))).

Definition formatDirectCryptoAmount (value : jstring) : jstring :=
  let trimmed := trim value in
  if negb (test decimal_re trimmed) then trimmed
  else replace_first point_only_zeros_re (λ _, []) (replace_first point_digit_zeros_re (mg 1) trimmed).

(** [[^/?#%]] *)
Definition path_unit : N → bool := none_of "/?#%".

(** [/^\/crypto\/(tron|ton|solana)\/[^/?#%]+$/] *)
Definition crypto_path_re : regex :=
  RSeq RBol (RSeq (RLit "/crypto/") (RSeq (RGroup 1 (RAlt (RLit "tron") (RAlt (RLit "ton") (RLit "solana"))))
    (RSeq (RLit "/") (RSeq (RPlus (RChar path_unit)) REol)))).

(** [/^\/usdt-trc20\/[^/?#%]+$/] *)
Definition legacy_path_re : regex :=
  RSeq RBol (RSeq (RLit "/usdt-trc20/") (RSeq (RPlus (RChar path_unit)) REol)).

Section checkout.
Variable toLowerCase toUpperCase : jstring → jstring.
(** [new URL(text)] and [new URL(text, 'https://internal.invalid')]. *)
Variable URL internal_URL : jstring → option ParsedURL.

Definition getDirectCryptoHistoryNetwork (paymentProvider paymentMethod : option jstring) (tradeNo : jstring) :
  option DirectUSDTNetwork :=
  let legacy value := if otruthy value then oget (toLowerCase (trim (default [] value))) legacyDirectCryptoNetworks else None in
  match legacy paymentProvider, legacy paymentMethod with
  | Some network, _ => Some network
  | None, Some network => Some network
  | None, None =>
    let is_direct value := bool_decide ((λ v, toLowerCase (trim v)) <$> value = Some ("crypto_direct" : jstring)) in
    if negb (is_direct paymentProvider) && negb (is_direct paymentMethod) then None
    else
      let normalizedTradeNo := toUpperCase (trim tradeNo) in
      if starts_with "TON" normalizedTradeNo then Some TON
      else if starts_with "SOLANA" normalizedTradeNo then Some SOLANA
      else Some TRON
  end.

Definition canOpenDirectCryptoHistoryPayment (record : TopupHistoryRow) (currentUserId : option Z) : bool :=
  bool_decide (status record = "pending") && bool_decide (currentUserId = Some (user_id record)) &&
  bool_decide (is_Some (getDirectCryptoHistoryNetwork (payment_provider record) (payment_method record) (trade_no record))).

Definition getDirectCryptoInvoicePath (network : DirectUSDTNetwork) (tradeNo : jstring) : option jstring :=
  encoded ← encodeURIComponent tradeNo;
  Some ("/crypto/" ++ directCryptoNetworkPaths network ++ "/" ++ encoded).

Definition getDirectCryptoPaymentAddress (payment : DirectUSDTPayment) (network : DirectUSDTNetwork) : jstring :=
  let field v := default [] (trim <$> v) in
  if bool_decide (network = SOLANA) then field (destination_token_account payment)
  else str_or (field (destination_token_account payment))
         (str_or (field (receiving_address payment)) (field (address payment))).

Definition getDirectCryptoCheckoutSearch (paymentType : jstring) (amount : num) : option num :=
  if negb (bool_decide (toLowerCase (trim paymentType) = "crypto_direct")) || negb (is_finite amount) || nle amount zero
  then None else Some amount.

(** A path of this application whose parsed form one of the patterns accepts. *)
Definition internal_path (accepts : jstring → bool) (value : jstring) : bool :=
  let trimmed := trim value in
  if negb (truthy trimmed) || negb (starts_with "/" trimmed) || starts_with "//" trimmed then false
  else match internal_URL trimmed with
       | None => false
       | Some parsed => negb (truthy (search parsed)) && negb (truthy (hash parsed)) && accepts (pathname parsed)
       end.

Definition isSafeDirectCryptoInvoiceUrl (value : jstring) : bool := internal_path (test crypto_path_re) value.

Definition isSafeInternalUSDTTrc20Url (value : jstring) : bool := internal_path (test legacy_path_re) value.

Definition isSafeInternalDirectUSDTUrl (value : jstring) : bool :=
  internal_path (λ path, test crypto_path_re path || test legacy_path_re path) value.

(** A part that the path does not have is [undefined]. *)
Definition parseDirectCryptoInvoiceUrl (value : jstring) : option (DirectUSDTNetwork * option jstring) :=
  if negb (isSafeDirectCryptoInvoiceUrl value) then None
  else
    let parts := split_unit (cu "/") (trim value) in
    let networks := [("tron" : jstring, TRON); ("ton" : jstring, TON); ("solana" : jstring, SOLANA)] in
    network ← nth_error parts 2;
    n ← oget network networks;
    Some (n, nth_error parts 3).

Definition prepareDirectCryptoPayment (amount : num) (availableNetworks : list DirectUSDTNetwork)
  (selectedNetwork : option DirectUSDTNetwork) (directMethodAvailable : bool) :
  option (DirectUSDTNetwork * (num * jstring)) :=
  match selectedNetwork with
  | Some selectedNetwork =>
    if negb directMethodAvailable || negb (is_finite amount) || nle amount zero
       || negb (bool_decide (selectedNetwork ∈ availableNetworks))
    then None
    else Some (selectedNetwork, (amount, "crypto_direct" : jstring))
  | None => None
  end.

(** ** Redirects *)

Definition isSafeHttpRedirectUrl (value : jstring) : bool :=
  let trimmed := trim value in
  if negb (truthy trimmed) then false
  else match URL trimmed with
       | Some url => bool_decide (protocol url = "http:") || bool_decide (protocol url = "https:")
       | None => false
       end.

(** Whether it navigates, and where to. *)
Definition redirectToPaymentPage (value : jstring) : bool * option jstring :=
  if negb (isSafeHttpRedirectUrl value) then (false, None) else (true, Some (trim value)).

(** ** Error messages *)

(** The words between the boundaries of the pattern; the first stands for four. *)
Definition credential_words : list jstring :=
  ["secret"; "token"; "password"; "authorization"; "bearer"; "signature"; "private key"].

Definition api_key_re : regex := RSeq (RLitI "api") (RSeq (ROpt (RChar (one_of " _-"))) (RLitI "key")).

(** [/\b(api[ _-]?key|secret|token|...|private key)\b/i] *)
Definition credential_re : regex :=
  RSeq RWordB (RSeq (RGroup 1 (foldr (λ w r, RAlt r (RLitI w)) api_key_re (reverse credential_words))) RWordB).

Definition isSafeMessage (value : jval) : bool :=
  match value with
  | JStr s =>
    let text := trim s in
    if negb (truthy text) || (280 <? length text)%nat || existsb (one_of "<>") text || existsb (λ c, c <? 32) text
    then false
    else negb (test credential_re text)
  | _ => false
  end.

Definition text_of (value : jval) : jstring := match value with JStr s => s | _ => [] end.

(** The message and the data of a response are untyped. *)
Definition getPaymentErrorMessage (message data : jval) (fallback : jstring) : jstring :=
  if isSafeMessage data then trim (text_of data)
  else if isSafeMessage message &&
          negb (bool_decide (toLowerCase (trim (text_of message)) ∈ ["error" : jstring; "success" : jstring]))
  then trim (text_of message)
  else fallback.
End checkout.

(** ** Amounts of transfers *)

Lemma decimal_re_spec s :
  test decimal_re s = true ↔ ∃ ip fp, s = ip ++ "." ++ fp ∧ ip ≠ [] ∧ fp ≠ [] ∧ digits ip ∧ digits fp.
Proof.
  unfold decimal_re. rewrite test_anchored, rmatch_seq, plus_some. setoid_rewrite rmatch_seq.
  setoid_rewrite lit_some. setoid_rewrite rmatch_seq. setoid_rewrite plus_some.
  assert (∀ b r cs, is_Some (rmatch REol Some (mkState b r cs)) ↔ r = []) as He.
  { intros b [|c r] cs; cbn; split; try done; by intros []. }
  setoid_rewrite He. split.
  - intros (ip & r & -> & Hi & Hip & r' & -> & fp & r2 & -> & Hf & Hfp & ->). exists ip, fp. by rewrite app_nil_r.
  - intros (ip & fp & -> & Hi & Hf & Hip & Hfp). exists ip, ("." ++ fp). split_and!; [done..|].
    exists fp. split; [done|]. exists fp, []. by rewrite app_nil_r.
Qed.

Lemma digits_val_zeros z : forallb is_zero z = true → digits_val z = 0.
Proof.
  induction z as [|c z IH]; [done|]. cbn [forallb]. intros [->%N.eqb_eq Hz]%andb_true_iff.
  rewrite digits_val_cons, IH by done. done.
Qed.

(** The amount of a transfer is shown without the zeros that end its fraction and
    is otherwise unchanged, so its value is exact; any other text is only trimmed. *)
Lemma formatDirectCryptoAmount_exact value :
  (∀ ip fp, trim value = ip ++ "." ++ fp → ip ≠ [] → fp ≠ [] → digits ip → digits fp →
   ∃ a z, fp = a ++ z ∧ forallb is_zero z = true ∧ clean_fraction a ∧
     formatDirectCryptoAmount value = cleaned ip a ∧
     digits_val (ip ++ fp) = digits_val (ip ++ a) * 10 ^ N.of_nat (length z)) ∧
  ((∀ ip fp, trim value = ip ++ "." ++ fp → ip ≠ [] → fp ≠ [] → digits ip → ¬ digits fp) →
   formatDirectCryptoAmount value = trim value).
Proof.
  unfold formatDirectCryptoAmount. split.
  - intros ip fp E Hi Hf Hip Hfp. assert (test decimal_re (trim value) = true) as ->.
    { apply decimal_re_spec. by exists ip, fp. }
    destruct (split_fraction fp) as (a & z & -> & Ha & Hz). apply Forall_app in Hfp as [Hfa _].
    exists a, z. split_and!; [done..| |].
    + rewrite E. cbn [negb]. by apply remove_point_digit_zeros.
    + by rewrite app_assoc, digits_val_app, (digits_val_zeros z), N.add_0_r.
  - intros Hno. destruct (test decimal_re (trim value)) eqn:Ht; [|done].
    apply decimal_re_spec in Ht as (ip & fp & E & Hi & Hf & Hip & Hfp). by destruct (Hno ip fp).
Qed.

Example formatDirectCryptoAmount_exact_witness :
  formatDirectCryptoAmount " 10.010000" = "10.01" ∧
  ∃ a z, ("010000" : jstring) = a ++ z ∧ formatDirectCryptoAmount " 10.010000" = cleaned "10" a.
Proof.
  split; [by vm_compute|].
  destruct (proj1 (formatDirectCryptoAmount_exact " 10.010000") "10" "010000") as (a & z & H1 & _ & _ & H2 & _);
    [by vm_compute|done|done|by repeat constructor..|]. exists a, z. by split.
Defined.

(** ** Addresses of invoices *)

Lemma reol_some b r cs : is_Some (rmatch REol Some (mkState b r cs)) ↔ r = [].
Proof. destruct r; cbn; split; try done; by intros []. Qed.

(** A class repeated up to the end of the text. *)
Lemma rest_of_path p b t cs :
  is_Some (rmatch (RSeq (RPlus (RChar p)) REol) Some (mkState b t cs)) ↔ t ≠ [] ∧ Forall (λ c, p c = true) t.
Proof.
  rewrite rmatch_seq, plus_some. setoid_rewrite reol_some. split.
  - intros (w & r & -> & Hw & HF & ->). by rewrite app_nil_r.
  - intros [Ht HF]. exists t, []. by rewrite app_nil_r.
Qed.

Lemma crypto_path_spec path :
  test crypto_path_re path = true ↔
  ∃ network id, path = "/crypto/" ++ directCryptoNetworkPaths network ++ "/" ++ id ∧ id ≠ [] ∧
    Forall (λ c, path_unit c = true) id.
Proof.
  unfold crypto_path_re. rewrite test_anchored, rmatch_seq, lit_some. split.
  - intros (r & -> & H). rewrite rmatch_seq, rmatch_group, !alt_some, !lit_some in H.
    destruct H as [(r' & -> & H)|[(r' & -> & H)|(r' & -> & H)]]; [exists TRON|exists TON|exists SOLANA];
      cbn [rbefore rrest rcaps] in H; rewrite rmatch_seq, lit_some in H; destruct H as (id & -> & H); apply rest_of_path in H as [H1 H2];
      by exists id.
  - intros (network & id & -> & Hid & HF). eexists. split; [reflexivity|].
    rewrite rmatch_seq, rmatch_group, !alt_some, !lit_some.
    destruct network; [left|right; left|right; right]; (eexists; split; [reflexivity|]);
      cbn [rbefore rrest rcaps]; rewrite rmatch_seq, lit_some; (eexists; split; [reflexivity|]); by apply rest_of_path.
Qed.

Lemma legacy_path_spec path :
  test legacy_path_re path = true ↔
  ∃ id, path = "/usdt-trc20/" ++ id ∧ id ≠ [] ∧ Forall (λ c, path_unit c = true) id.
Proof.
  unfold legacy_path_re. rewrite test_anchored, rmatch_seq, lit_some. setoid_rewrite rest_of_path. naive_solver.
Qed.

Section urls.
Variable internal_URL : jstring → option ParsedURL.

Lemma internal_path_spec accepts value :
  internal_path internal_URL accepts value = true ↔
  (∃ rest, trim value = "/" ++ rest) ∧ (¬ ∃ rest, trim value = "//" ++ rest) ∧
  ∃ url, internal_URL (trim value) = Some url ∧ search url = [] ∧ hash url = [] ∧ accepts (pathname url) = true.
Proof.
  unfold internal_path. rewrite <- !starts_with_spec.
  destruct (truthy (trim value)) eqn:Et; cbn [negb orb].
  2: { apply truthy_false in Et. rewrite Et. split; [done|]. by intros (? & _). }
  destruct (starts_with "/" (trim value)); cbn [negb orb]; [|split; [done|by intros (? & _)]].
  destruct (starts_with "//" (trim value)); [split; [done|naive_solver]|].
  destruct (internal_URL (trim value)) as [url|]; [|split; [done|by intros (_ & _ & ? & ? & _)]].
  rewrite !andb_true_iff, !negb_true_iff, !truthy_false. naive_solver.
Qed.

(** What is accepted as the address of an invoice: a path of this application that
    parses, without query and fragment, to one of the networks and an identifier
    without separators; with the legacy form the general check accepts these two
    forms and no others. *)
Lemma invoice_url_spec value :
  (isSafeDirectCryptoInvoiceUrl internal_URL value = true ↔
   (∃ rest, trim value = "/" ++ rest) ∧ (¬ ∃ rest, trim value = "//" ++ rest) ∧
   ∃ url network id, internal_URL (trim value) = Some url ∧ search url = [] ∧ hash url = [] ∧
     pathname url = "/crypto/" ++ directCryptoNetworkPaths network ++ "/" ++ id ∧ id ≠ [] ∧
     Forall (λ c, path_unit c = true) id) ∧
  isSafeInternalDirectUSDTUrl internal_URL value =
  isSafeDirectCryptoInvoiceUrl internal_URL value || isSafeInternalUSDTTrc20Url internal_URL value.
Proof.
  split.
  - unfold isSafeDirectCryptoInvoiceUrl. rewrite internal_path_spec. setoid_rewrite crypto_path_spec. naive_solver.
  - unfold isSafeInternalDirectUSDTUrl, isSafeDirectCryptoInvoiceUrl, isSafeInternalUSDTTrc20Url, internal_path.
    destruct (_ || _); [done|]. destruct (internal_URL _); [|done]. by rewrite andb_orb_distrib_r.
Qed.

(** A segment that a URL parser leaves as it is. *)
Definition plain_segment (segment : jstring) : Prop :=
  segment ≠ [] ∧ segment ≠ "." ∧ segment ≠ ".." ∧ forallb uri_unreserved segment = true.

(** A path of plain segments parses as itself. *)
Definition parses_plain_paths : Prop :=
  ∀ segments, segments ≠ [] → Forall plain_segment segments →
  ∃ url, internal_URL ("/" ++ join "/" segments) = Some url ∧
    pathname url = "/" ++ join "/" segments ∧ search url = [] ∧ hash url = [].

Lemma encode_plain s : forallb uri_unreserved s = true → encodeURIComponent s = Some s.
Proof.
  induction s as [|c s IH]; [done|]. cbn [forallb encodeURIComponent]. intros [-> Hs]%andb_true_iff.
  by rewrite IH.
Qed.

(** No unit of a plain segment is a blank or separates the parts of an address. *)
Lemma unreserved_unit c : uri_unreserved c = true → is_space c = false ∧ path_unit c = true ∧ c ≠ cu "/".
Proof.
  intros H. assert (c < 128) as Hc.
  { unfold uri_unreserved, is_digit in H. rewrite !orb_true_iff, !andb_true_iff, !N.leb_le in H.
    destruct H as [[[H|H]|H]|H]; [lia..|]. unfold one_of in H. apply existsb_exists in H as (d & Hd & ->%N.eqb_eq).
    cbn in Hd. repeat (destruct Hd as [<-|Hd]; [lia|]). done. }
  assert (∀ n, (n < 128)%nat → uri_unreserved (N.of_nat n) = true →
    is_space (N.of_nat n) = false ∧ path_unit (N.of_nat n) = true ∧ N.of_nat n ≠ cu "/") as Hall.
  { intros n Hn. do 128 (destruct n as [|n]; [try (by vm_compute); intros Hu; vm_compute in Hu; done|]). lia. }
  rewrite <- (N2Nat.id c) in *. apply Hall; [lia|done].
Qed.

(** The address made for an invoice is read back as its network and number, for
    numbers that need no encoding. *)
Lemma invoice_path_roundtrip network tradeNo :
  parses_plain_paths → plain_segment tradeNo →
  ∃ path, getDirectCryptoInvoicePath network tradeNo = Some path ∧
    parseDirectCryptoInvoiceUrl internal_URL path = Some (network, Some tradeNo).
Proof.
  intros HURL Hp. pose proof Hp as (Hne & _ & _ & Hu).
  unfold getDirectCryptoInvoicePath. rewrite (encode_plain _ Hu). cbn [mbind option_bind]. eexists. split; [reflexivity|].
  set (path := "/crypto/" ++ directCryptoNetworkPaths network ++ "/" ++ tradeNo).
  assert (Forall (λ c, is_space c = false ∧ path_unit c = true ∧ c ≠ cu "/") tradeNo) as Hc.
  { apply Forall_forall. intros c Hin. rewrite forallb_forall in Hu. by apply unreserved_unit, Hu, list_elem_of_In. }
  assert (trim path = path) as Ht.
  { apply trim_id, trimmed_no_space. unfold path. rewrite !Forall_app. split_and!; [by repeat constructor| |by repeat constructor|].
    - destruct network; by repeat constructor.
    - eapply Forall_impl; [exact Hc|]. by intros c []. }
  assert (isSafeDirectCryptoInvoiceUrl internal_URL path = true) as Hs.
  { apply internal_path_spec. rewrite Ht. split_and!.
    - by eexists.
    - intros [rest E]. unfold path in E. by vm_compute in E.
    - destruct (HURL ["crypto" : jstring; directCryptoNetworkPaths network; tradeNo]) as (url & E & Hpath & Hse & Hh).
      + done.
      + repeat (apply Forall_cons; split); [by repeat constructor| |exact Hp|by apply Forall_nil].
        destruct network; by repeat constructor.
      + exists url. split_and!; [exact E|done|done|]. rewrite Hpath. apply crypto_path_spec.
        exists network, tradeNo. split_and!; [done..|]. eapply Forall_impl; [exact Hc|]. by intros c (_ & ? & _). }
  unfold parseDirectCryptoInvoiceUrl. rewrite Hs, Ht. cbn [negb].
  assert (split_unit (cu "/") path = [[]; "crypto" : jstring; directCryptoNetworkPaths network; tradeNo]) as ->.
  { assert (path = join [cu "/"] [[]; "crypto" : jstring; directCryptoNetworkPaths network; tradeNo]) as -> by done.
    apply split_join_unit; [done|]. repeat (apply Forall_cons; split); [..|by apply Forall_nil].
    - apply not_elem_of_nil.
    - apply (bool_decide_unpack _). by vm_compute.
    - destruct network; apply (bool_decide_unpack _); by vm_compute.
    - intros Hin. rewrite Forall_forall in Hc. by destruct (Hc _ Hin) as (_ & _ & ?). }
  cbn [nth_error mbind option_bind]. by destruct network.
Qed.

(** The address is checked in its parsed form but taken apart as it was written:
    a path that goes up over a network is accepted as the payment of one network
    and opened as a payment of another. *)
Lemma invoice_url_taken_apart_raw url :
  let value := "/crypto/tron/../ton/abc" in
  internal_URL value = Some url → pathname url = "/crypto/ton/abc" → search url = [] → hash url = [] →
  isSafeDirectCryptoInvoiceUrl internal_URL value = true ∧
  parseDirectCryptoInvoiceUrl internal_URL value = Some (TRON, Some (".." : jstring)).
Proof.
  intros value E Hp Hs Hh. assert (trim value = value) as Ht by reflexivity.
  assert (isSafeDirectCryptoInvoiceUrl internal_URL value = true) as Hsafe.
  { apply internal_path_spec. rewrite Ht. split_and!.
    - by eexists.
    - intros [rest Er]. by vm_compute in Er.
    - exists url. split_and!; [done..|]. rewrite Hp. by vm_compute. }
  split; [done|]. unfold parseDirectCryptoInvoiceUrl. rewrite Hsafe. reflexivity.
Qed.
End urls.

(** A parser of paths that resolves nothing, and one for the path above. *)
Definition plain_URL (text : jstring) : option ParsedURL :=
  Some {| protocol := "https:"; pathname := text; search := []; hash := [] |}.
Definition resolved_URL (text : jstring) : option ParsedURL := plain_URL "/crypto/ton/abc".

Lemma plain_URL_paths : parses_plain_paths plain_URL.
Proof. intros segments _ _. by eexists. Qed.

Example invoice_path_roundtrip_witness :
  ∃ path, getDirectCryptoInvoicePath TON "trade-1" = Some path ∧
    parseDirectCryptoInvoiceUrl plain_URL path = Some (TON, Some ("trade-1" : jstring)).
Proof. apply (invoice_path_roundtrip plain_URL TON "trade-1" plain_URL_paths). by repeat constructor. Defined.

Example invoice_url_taken_apart_raw_witness :
  parseDirectCryptoInvoiceUrl resolved_URL "/crypto/tron/../ton/abc" = Some (TRON, Some (".." : jstring)).
Proof.
  exact (proj2 (invoice_url_taken_apart_raw resolved_URL
    {| protocol := "https:"; pathname := "/crypto/ton/abc"; search := []; hash := [] |} eq_refl eq_refl eq_refl eq_refl)).
Defined.

(** ** Error messages *)

(** A word, in any case, with no other word character next to it. *)
Definition occurs_word (w s : jstring) : Prop :=
  ∃ a u c, s = a ++ u ++ c ∧ map ascii_lower u = w ∧
    head_is is_word (reverse a) = false ∧ head_is is_word c = false.

Definition api_key_words : list jstring := ["apikey"; "api key"; "api_key"; "api-key"].

Lemma word_unit_lower c : is_word (ascii_lower c) = is_word c.
Proof.
  unfold ascii_lower. destruct ((65 <=? c) && (c <=? 90)) eqn:E; [|done].
  apply andb_true_iff in E as [H1%N.leb_le H2%N.leb_le]. unfold is_word.
  assert ((65 <=? c) && (c <=? 90) = true) as -> by (rewrite andb_true_iff, !N.leb_le; lia).
  assert ((97 <=? c + 32) && (c + 32 <=? 122) = true) as -> by (rewrite andb_true_iff, !N.leb_le; lia).
  by rewrite !orb_true_r.
Qed.

Lemma word_ends (u w : jstring) :
  map ascii_lower u = w → head_is is_word w = true → head_is is_word (reverse w) = true →
  (∀ c, head_is is_word (u ++ c) = true) ∧ ∀ b, head_is is_word (reverse u ++ b) = true.
Proof.
  intros <- Hh Hl. split.
  - intros c. destruct u as [|d u]; [done|]. cbn in *. by rewrite word_unit_lower in Hh.
  - intros b. destruct u as [|d u _] using rev_ind; [done|]. rewrite map_app, reverse_app in Hl. rewrite reverse_app.
    cbn in *. by rewrite word_unit_lower in Hl.
Qed.

Lemma word_boundary (k : rstate → option rstate) b t cs :
  head_is is_word b = negb (head_is is_word t) → rmatch RWordB k (mkState b t cs) = k (mkState b t cs).
Proof. intros H. cbn [rmatch rbefore rrest]. rewrite H. by destruct (head_is is_word t). Qed.

Lemma alternatives_some (k : rstate → option rstate) r ws s w :
  w ∈ ws → is_Some (rmatch (RLitI w) k s) → is_Some (rmatch (foldr (λ w r, RAlt r (RLitI w)) r ws) k s).
Proof.
  induction ws as [|x ws IH]; [by intros ?%elem_of_nil|]. cbn [foldr]. rewrite elem_of_cons, alt_some.
  intros [->|Hw] H; [by right|]. left. auto.
Qed.

Lemma first_alternative_some (k : rstate → option rstate) r ws s :
  is_Some (rmatch r k s) → is_Some (rmatch (foldr (λ w r, RAlt r (RLitI w)) r ws) k s).
Proof. intros H. induction ws as [|x ws IH]; [done|]. cbn [foldr]. apply alt_some. by left. Qed.

Lemma separator_lower c : one_of " _-" (ascii_lower c) = true → one_of " _-" c = true.
Proof.
  unfold ascii_lower. destruct ((65 <=? c) && (c <=? 90)) eqn:E; [|done].
  apply andb_true_iff in E as [E1%N.leb_le E2%N.leb_le]. unfold one_of. intros H.
  apply existsb_exists in H as (x & Hx & Hc%N.eqb_eq). cbn in Hx. repeat (destruct Hx as [Hx|Hx]; [lia|]). done.
Qed.

Lemma api_key_some (k : rstate → option rstate) b u r cs :
  map ascii_lower u ∈ api_key_words → is_Some (k (mkState (reverse u ++ b) r cs)) →
  is_Some (rmatch api_key_re k (mkState b (u ++ r) cs)).
Proof.
  intros Hu Hk.
  assert (∃ sep, map ascii_lower u = "api" ++ sep ++ "key" ∧ (sep = [] ∨ ∃ c, sep = [c] ∧ one_of " _-" c = true))
    as (sep' & E & Hs).
  { unfold api_key_words in Hu. rewrite !elem_of_cons in Hu.
    destruct Hu as [-> |[-> |[-> |[-> |Hu]]]]; [by exists []; auto|..|by apply elem_of_nil in Hu];
      [exists " "|exists "_"|exists "-"]; (split; [done|right; by eexists]). }
  apply map_eq_app in E as (u1 & u' & -> & H1 & E). apply map_eq_app in E as (sep & u2 & -> & H2 & H3).
  unfold api_key_re, ROpt. rewrite rmatch_seq, liti_some. exists u1, (sep ++ u2 ++ r).
  split_and!; [by rewrite <- !app_assoc|done|]. rewrite rmatch_seq, alt_some.
  assert (is_Some (rmatch (RLitI "key") k (mkState (reverse sep ++ reverse u1 ++ b) (u2 ++ r) cs))) as Hkey.
  { apply liti_some. exists u2, r. split_and!; [done..|]. by rewrite !reverse_app, <- !app_assoc in Hk. }
  destruct Hs as [-> |(c & -> & Hc)].
  - right. by destruct sep.
  - left. destruct sep as [|d [|]]; [done| |done]. injection H2 as Hd. apply char_some. exists d, (u2 ++ r).
    split_and!; [done| |exact Hkey]. apply separator_lower. by rewrite Hd.
Qed.

Lemma credential_found w s : w ∈ api_key_words ++ credential_words → occurs_word w s → test credential_re s = true.
Proof.
  intros Hw (a & u & c & -> & Hu & Ha & Hc).
  assert (head_is is_word w = true ∧ head_is is_word (reverse w) = true) as [Hh Hl].
  { assert (Forall (λ w, head_is is_word w && head_is is_word (reverse w) = true) (api_key_words ++ credential_words)) as H
      by (vm_compute; by repeat constructor).
    rewrite Forall_forall in H. by apply andb_true_iff, H. }
  destruct (word_ends u w Hu Hh Hl) as [H1 H2].
  apply test_anywhere. exists a, (u ++ c). split; [done|]. unfold credential_re.
  rewrite rmatch_seq, word_boundary by (by rewrite H1, Ha). rewrite rmatch_seq, rmatch_group.
  set (k := λ s' : rstate, _).
  assert (is_Some (k (mkState (reverse u ++ reverse a) c []))) as Hk.
  { unfold k. cbn [rbefore rrest rcaps]. rewrite word_boundary; [by eexists|]. by rewrite Hc, H2. }
  clearbody k. apply elem_of_app in Hw as [Hw|Hw].
  - apply first_alternative_some, api_key_some; [by rewrite Hu|done].
  - apply (alternatives_some _ _ _ _ w); [by apply elem_of_reverse|]. apply liti_some. exists u, c.
    split_and!; [done| |done]. rewrite Hu. unfold credential_words in Hw. rewrite !elem_of_cons in Hw.
    repeat (destruct Hw as [-> |Hw]; [by vm_compute|]). by apply elem_of_nil in Hw.
Qed.

(** A text that may be shown: not empty, not long, one line without markup, and
    without the words that go with credentials. *)
Definition safe_text (s : jstring) : Prop :=
  s ≠ [] ∧ (length s <= 280)%nat ∧ Forall (λ c, 32 <= c ∧ c ≠ cu "<" ∧ c ≠ cu ">") s ∧
  ∀ w, w ∈ api_key_words ++ credential_words → ¬ occurs_word w s.

Lemma isSafeMessage_text value : isSafeMessage value = true → safe_text (trim (text_of value)).
Proof.
  destruct value as [| | | |s| |]; try done. cbn [isSafeMessage text_of].
  destruct (_ || _) eqn:E; [done|]. intros Ht%negb_true_iff. apply orb_false_iff in E as [[[E1 E2]%orb_false_iff E3]%orb_false_iff E4].
  split_and!.
  - apply negb_false_iff in E1. by apply truthy_spec.
  - by apply Nat.ltb_ge.
  - apply Forall_forall. intros c Hc. rewrite list_elem_of_In in Hc. split_and!.
    + apply N.ltb_ge. apply not_true_is_false. intros H. apply not_true_iff_false in E4. apply E4, existsb_exists. eauto.
    + intros ->. apply not_true_iff_false in E3. apply E3, existsb_exists. by eexists.
    + intros ->. apply not_true_iff_false in E3. apply E3, existsb_exists. by eexists.
  - intros w Hw Ho. rewrite (credential_found w _ Hw Ho) in Ht. done.
Qed.

(** The message shown for a failed payment is the fallback or one of the texts of
    the answer, which then is short, has no markup and no control characters, and
    contains none of the credential words in any case; the data of the answer has
    precedence, and bare [error] and [success] are never shown. *)
Lemma getPaymentErrorMessage_safe toLowerCase message data fallback :
  let shown := getPaymentErrorMessage toLowerCase message data fallback in
  shown = fallback ∨
  (∃ value, (value = data ∨ value = message ∧ isSafeMessage data = false ∧
       toLowerCase shown ≠ "error" ∧ toLowerCase shown ≠ "success") ∧
     isSafeMessage value = true ∧ shown = trim (text_of value) ∧ safe_text shown).
Proof.
  simpl. unfold getPaymentErrorMessage. destruct (isSafeMessage data) eqn:Ed.
  - right. exists data. split_and!; [by left|done|done|by apply isSafeMessage_text].
  - destruct (isSafeMessage message) eqn:Em; [|by left]. cbn [andb].
    destruct (bool_decide _) eqn:Eb; [by left|]. right. exists message.
    apply bool_decide_eq_false in Eb. rewrite !elem_of_cons in Eb.
    split_and!; [right; naive_solver|done|done|by apply isSafeMessage_text].
Qed.
