(* ===== verification/WalletHistory.v ===== *)
(** * WalletHistory: [features/wallet/lib/billing.ts] and [features/wallet/lib/format.ts]

    The rows of the top-up history: which amount is shown, in which currency, and
    the names of statuses, methods and sources. *)
From Stdlib Require Import Floats.SpecFloat.
From S2P Require Import Prelude JsString JsNumber JsFloat JsValue JsRegex Currency.

#[local] Open Scope Z_scope.

(** ** Amounts of the wallet ([format.ts]) *)

Definition PAYMENT_CURRENCY_SYMBOLS : list (jstring * jstring) :=
  [("USD" : jstring, "$" : jstring); ("USDT" : jstring, [8366%N]); ("RUB" : jstring, [8381%N]);
   ("EUR" : jstring, [8364%N]); ("CNY" : jstring, [165%N]); ("GBP" : jstring, [163%N]); ("JPY" : jstring, [165%N]);
   ("KRW" : jstring, [8361%N]); ("INR" : jstring, [8377%N])].

Definition formatQuotaShort (quota : num) : jstring :=
  if nle (of_Z 1000000) quota then to_fixed 1 (ndiv quota (of_Z 1000000)) ++ "M"
  else if nle (of_Z 1000) quota then to_fixed 1 (ndiv quota (of_Z 1000)) ++ "K"
  else Number_to_string quota.

Record PresetPricing := { displayValue : num; originalPrice : num; actualPrice : num }.

Definition calculatePresetPricing (presetValue priceRatio usdExchangeRate : num) : PresetPricing :=
  let originalPrice := nmul presetValue priceRatio in
  let displayValue := nmul presetValue usdExchangeRate in
  {| displayValue := displayValue; originalPrice := originalPrice; actualPrice := originalPrice |}.

Definition calculateCashbackAmount (amount cashbackPercent : num) : num :=
  if negb (is_finite amount) || negb (is_finite cashbackPercent) then zero
  else nmax zero (ndiv (nmul amount cashbackPercent) (of_Z 100)).

(** ** Statuses and names ([billing.ts]) *)

Record StatusConfig := { variant : jstring; label : jstring }.

Definition STATUS_CONFIG : list (jstring * StatusConfig) :=
  [("success" : jstring, {| variant := "success"; label := "Success" |});
   ("pending" : jstring, {| variant := "warning"; label := "Pending" |});
   ("failed" : jstring, {| variant := "danger"; label := "Failed" |});
   ("expired" : jstring, {| variant := "danger"; label := "Expired" |});
   ("cancelled" : jstring, {| variant := "neutral"; label := "Cancelled" |})].

(** A status of the server is a text. *)
Definition getStatusConfig (status : jstring) : StatusConfig :=
  default {| variant := "warning"; label := "Pending" |} (oget status STATUS_CONFIG).

Definition getTopupStatusLabel (status : jstring) (t : jstring → jstring) : jstring := t (label (getStatusConfig status)).

Definition PAYMENT_METHOD_NAMES : list (jstring * jstring) :=
  [("stripe" : jstring, "Stripe" : jstring); ("creem" : jstring, "Creem" : jstring);
   ("alipay" : jstring, "Alipay" : jstring); ("wxpay" : jstring, "WeChat Pay" : jstring);
   ("waffo" : jstring, "Waffo (Global Payment)" : jstring); ("waffo_pancake" : jstring, "Waffo Pancake" : jstring);
   ("nowpayments" : jstring, "Crypto / NOWPayments" : jstring); ("balance" : jstring, "Balance top-up" : jstring)].

Definition PROMO_NAME : jstring := "Top-up by promo code".
Definition REFERRAL_NAME : jstring := "Referral top-up income".

Definition TOPUP_SOURCE_NAMES : list (jstring * jstring) :=
  [("stripe" : jstring, "Stripe" : jstring); ("creem" : jstring, "Creem" : jstring);
   ("alipay" : jstring, "Alipay" : jstring); ("wxpay" : jstring, "WeChat Pay" : jstring);
   ("waffo" : jstring, "Waffo (Global Payment)" : jstring); ("waffo_pancake" : jstring, "Waffo Pancake" : jstring);
   ("yookassa_sbp" : jstring, [1057; 1041; 1055]%N); ("nowpayments" : jstring, "Crypto / NOWPayments" : jstring);
   ("balance" : jstring, "Balance top-up" : jstring); ("promo" : jstring, PROMO_NAME); ("promo_code" : jstring, PROMO_NAME);
   ("redemption" : jstring, PROMO_NAME); ("redemption_code" : jstring, PROMO_NAME); ("referral" : jstring, REFERRAL_NAME);
   ("referral_income" : jstring, REFERRAL_NAME); ("referral_reward" : jstring, REFERRAL_NAME);
   ("affiliate" : jstring, REFERRAL_NAME)].

(** [typeof v === 'number' && Number.isFinite(v) && v > 0] *)
Definition positive_number (v : option num) : bool :=
  match v with Some v => is_finite v && nlt zero v | None => false end.

(** [values.find(...)] with that test. *)
Definition find_positive (values : list (option num)) : option num := mjoin (List.find positive_number values).

Record TopupAmounts := {
  amount : num;
  requestedAmount : option num;
  money : option num;
  accountingAmountUSD : option num;
  paymentBaseAmount : option num;
  paymentChargedAmount : option num;
  paymentCurrency : option jstring;
  paymentProvider : option jstring;
  source : option jstring;
}.

Record TopupDisplayAmount := { display_amount : num; display_currency : jstring }.

Definition getTopupAmountToDisplay (amount : num) (requestedAmount money accountingAmountUSD : option num) : num :=
  match accountingAmountUSD with
  | Some accounting => if is_finite accounting && nlt zero accounting then accounting else zero
  | None =>
    if positive_number requestedAmount then default zero requestedAmount
    else if positive_number (Some amount) then amount
    else if positive_number money then default zero money else zero
  end.

Section history.
Variable toLowerCase toUpperCase : jstring → jstring.

(** [v?.trim().toLowerCase()] *)
Definition lowered (v : option jstring) : option jstring := (λ s, toLowerCase (trim s)) <$> v.
(** [code?.trim().toUpperCase() || 'USD'] *)
Definition upper_or_usd (v : option jstring) : jstring := ostr_or ((λ s, toUpperCase (trim s)) <$> v) "USD".

Definition getPaymentCurrencyLabel (code symbol : option jstring) : jstring :=
  let normalized := upper_or_usd code in
  str_or (default [] (trim <$> symbol)) (ostr_or (oget normalized PAYMENT_CURRENCY_SYMBOLS) normalized).

Definition getPaymentMethodName (method : jstring) (t : option (jstring → jstring)) : jstring :=
  let name := ostr_or (oget (toLowerCase (trim method)) PAYMENT_METHOD_NAMES) method in
  match t with Some t => t name | None => name end.

Definition getTopupSourceLabel (source : option jstring) (paymentMethod : jstring) (t : option (jstring → jstring))
  (paymentMethodName : option jstring) : jstring :=
  let translated := λ s, match t with Some t => t s | None => s end in
  let sourceKey := lowered source in
  let sourceName := if otruthy sourceKey then oget (default [] sourceKey) TOPUP_SOURCE_NAMES else None in
  if otruthy sourceName then
    let sourceName := default [] sourceName in
    if bool_decide (sourceName = PROMO_NAME) || bool_decide (sourceName = REFERRAL_NAME)
    then translated sourceName else sourceName
  else if otruthy (trim <$> paymentMethodName) then default [] (trim <$> paymentMethodName)
  else
    let paymentName := ostr_or (oget (toLowerCase (trim paymentMethod)) TOPUP_SOURCE_NAMES) "Payment" in
    if bool_decide (paymentName = "Payment") then translated paymentName else paymentName.

Definition getProviderHistoryCurrency (paymentCurrency paymentProvider : option jstring) : jstring :=
  let currency := upper_or_usd paymentCurrency in
  if negb (bool_decide (currency = "USD")) then currency
  else if bool_decide (lowered paymentProvider = Some ("nowpayments" : jstring)) then "USDT"
  else if bool_decide (lowered paymentProvider = Some ("yookassa" : jstring)) then "RUB"
  else currency.

Definition getTopupDisplayAmount (input : TopupAmounts) : TopupDisplayAmount :=
  let currency := upper_or_usd (paymentCurrency input) in
  let provider := lowered (paymentProvider input) in
  let accounting := if positive_number (accountingAmountUSD input) then default zero (accountingAmountUSD input) else zero in
  let paymentBase := if positive_number (paymentBaseAmount input) then default zero (paymentBaseAmount input) else zero in
  if nlt zero accounting || nlt zero paymentBase
  then {| display_amount := num_or accounting paymentBase; display_currency := "USD" |}
  else
    let providerCurrency := getProviderHistoryCurrency (paymentCurrency input) (paymentProvider input) in
    let providerHasNonUSDHistory :=
      negb (bool_decide (currency = "USD")) ||
      bool_decide (provider ∈ map Some ["nowpayments" : jstring; "yookassa" : jstring; "waffo" : jstring; "creem" : jstring]) in
    let fallback :=
      {| display_amount := getTopupAmountToDisplay (amount input) (requestedAmount input) (money input) (accountingAmountUSD input);
         display_currency := "USD" |} in
    if providerHasNonUSDHistory then
      match find_positive [money input; requestedAmount input] with
      | Some providerAmount => {| display_amount := providerAmount; display_currency := providerCurrency |}
      | None => fallback
      end
    else fallback.

(** The sources that are credits without a payment. *)
Definition credit_sources : list jstring :=
  ["promo"; "promo_code"; "redemption"; "redemption_code"; "referral"; "referral_income"; "referral_reward"; "affiliate"].

Definition getTopupPaymentDisplayAmount (input : TopupAmounts) : option TopupDisplayAmount :=
  let amount := find_positive [paymentChargedAmount input; money input] in
  if negb (bool_decide (is_Some amount)) && bool_decide (lowered (source input) ∈ map Some credit_sources) then None
  else Some {| display_amount := nullish amount zero;
               display_currency := getProviderHistoryCurrency (paymentCurrency input) (paymentProvider input) |}.

(** [Intl.NumberFormat] of the platform, and the currency in the store. *)
Variable NumberFormat : option jstring → NumberFormatOptions → num → jstring.
Variable store : option CurrencyConfig.

(** A text is read by [parseFloat] first. *)
Definition formatCurrency (amount : num + jstring) (fractionDigits : option nat) : jstring :=
  let numeric := match amount with inl n => n | inr s => parseFloat s end in
  if negb (is_finite numeric) then "-"
  else NumberFormat None
    {| Currency.currency := None; compactNotation := false;
       minimumFractionDigits := Some (nullish fractionDigits 0%nat);
       maximumFractionDigits := nullish fractionDigits (if nle (of_Z 1) (nabs numeric) then 2%nat else 4%nat) |} numeric.

Definition plain_options (large small : nat) : CurrencyFormatOptions :=
  {| digitsLarge := Some large; digitsSmall := Some small; abbreviate := Some false;
     minimumNonZero := None; compact := None; showSymbol := None; locale := None |}.

Definition formatCashbackCredit (amount : num) : jstring :=
  let currency := nullish store DEFAULT_CURRENCY_CONFIG in
  let amountUSD :=
    if bool_decide (quotaDisplayType currency = TOKENS)
    then ndiv amount (if nlt zero (quotaPerUnit currency) then quotaPerUnit currency
                      else quotaPerUnit DEFAULT_CURRENCY_CONFIG)
    else amount in
  formatCurrencyFromUSD NumberFormat store (Some amountUSD) (Some (plain_options 2 4)).

Definition formatTopupDisplayAmount (display : TopupDisplayAmount) : jstring :=
  if bool_decide (display_currency display = "USD")
  then formatCurrencyFromUSD NumberFormat store (Some (display_amount display)) (Some (plain_options 2 2))
  else getPaymentCurrencyLabel (Some (display_currency display)) None ++ formatCurrency (inl (display_amount display)) (Some 2%nat).

Definition formatTopupPaymentDisplayAmount (display : option TopupDisplayAmount) : jstring :=
  match display with
  | None => [8212%N]
  | Some display =>
    getPaymentCurrencyLabel (Some (display_currency display)) None ++ formatCurrency (inl (display_amount display)) (Some 2%nat)
  end.
End history.

(** ** Properties *)

Lemma find_positive_spec values v : find_positive values = Some v → Some v ∈ values ∧ positive_number (Some v) = true.
Proof.
  unfold find_positive. destruct (List.find positive_number values) as [w|] eqn:E; [|done]. cbn. intros ->.
  apply List.find_some in E as [H1 H2]. split; [by apply list_elem_of_In|done].
Qed.

Lemma positive_nlt v : positive_number (Some v) = true → nlt zero v = true.
Proof. unfold positive_number. by intros [_ ?]%andb_true_iff. Qed.

(** [0 < x ? x : 0] of a field. *)
Lemma positive_or_zero v :
  let x := if positive_number v then default zero v else zero in
  nlt zero x = positive_number v ∧ (positive_number v = true → v = Some x ∧ num_truthy x = true).
Proof.
  destruct v as [v|]; [|done]. cbn [default from_option id]. destruct (positive_number (Some v)) eqn:E; [|done].
  apply positive_nlt in E. split; [done|]. split; [done|]. by destruct v as [[]|[]| |[]].
Qed.

Lemma to_display_positive amount requested money accounting :
  let shown := getTopupAmountToDisplay amount requested money accounting in
  shown = zero ∨ positive_number (Some shown) = true.
Proof.
  unfold getTopupAmountToDisplay. destruct accounting as [v|].
  - destruct (is_finite v && nlt zero v) eqn:E; [by right|by left].
  - destruct (positive_number requested) eqn:E1; [right; by destruct requested|].
    destruct (positive_number (Some amount)) eqn:E2; [by right|].
    destruct (positive_number money) eqn:E3; [right; by destruct money|by left].
Qed.

(** The amount of a history row is zero or a positive number.  The accounting
    amount, else the base amount, is shown in dollars when there is one; only
    without them an amount in another currency is shown, and it is what the
    provider charged, else what was asked for. *)
Lemma getTopupDisplayAmount_spec toLowerCase toUpperCase input :
  let display := getTopupDisplayAmount toLowerCase toUpperCase input in
  let usd v := {| display_amount := v; display_currency := "USD" |} in
  (display_amount display = zero ∨ positive_number (Some (display_amount display)) = true) ∧
  (positive_number (accountingAmountUSD input) = true → usd <$> accountingAmountUSD input = Some display) ∧
  (positive_number (accountingAmountUSD input) = false → positive_number (paymentBaseAmount input) = true →
   usd <$> paymentBaseAmount input = Some display) ∧
  (display_currency display ≠ "USD" →
   positive_number (accountingAmountUSD input) = false ∧ positive_number (paymentBaseAmount input) = false ∧
   find_positive [money input; requestedAmount input] = Some (display_amount display) ∧
   display_currency display = getProviderHistoryCurrency toLowerCase toUpperCase (paymentCurrency input) (paymentProvider input)).
Proof.
  intros display usd. unfold display, getTopupDisplayAmount. clear display.
  destruct (positive_or_zero (accountingAmountUSD input)) as [Ha1 Ha2].
  destruct (positive_or_zero (paymentBaseAmount input)) as [Hb1 Hb2].
  set (a := if positive_number (accountingAmountUSD input) then _ else _) in *.
  set (b := if positive_number (paymentBaseAmount input) then _ else _) in *. rewrite Ha1, Hb1.
  destruct (positive_number (accountingAmountUSD input)) eqn:Ea.
  { destruct (Ha2 eq_refl) as [E Ht]. cbn [orb display_amount display_currency]. unfold num_or. rewrite Ht.
    rewrite E in *. by split_and!; [right| | |]. }
  destruct (positive_number (paymentBaseAmount input)) eqn:Eb.
  { destruct (Hb2 eq_refl) as [E Ht]. cbn [orb display_amount display_currency].
    assert (num_or a b = b) as -> by done. rewrite E in *. by split_and!; [right| | |]. }
  cbn [orb]. destruct (_ || _).
  - destruct (find_positive _) as [v|] eqn:Ef; cbn [display_amount display_currency].
    + split_and!; [|done|done|done]. right. by apply find_positive_spec in Ef as [_ ?].
    + split_and!; [apply to_display_positive|done|done|done].
  - cbn [display_amount display_currency]. split_and!; [apply to_display_positive|done|done|done].
Qed.

Example getTopupDisplayAmount_spec_witness :
  let input := {| amount := of_Z 500000; requestedAmount := Some (of_Z 500000); money := Some (of_Z 10);
    accountingAmountUSD := None; paymentBaseAmount := Some zero; paymentChargedAmount := None;
    paymentCurrency := Some ("EUR" : jstring); paymentProvider := Some ("stripe" : jstring); source := None |} in
  getTopupDisplayAmount id id input = {| display_amount := of_Z 10; display_currency := "EUR" |} ∧
  find_positive [money input; requestedAmount input] = Some (of_Z 10).
Proof.
  intros input. assert (getTopupDisplayAmount id id input = {| display_amount := of_Z 10; display_currency := "EUR" |}) as E
    by (by vm_compute).
  split; [exact E|]. destruct (getTopupDisplayAmount_spec id id input) as (_ & _ & _ & H). rewrite E in H.
  by apply H.
Defined.

(** A quota just below a million is shown as a thousand thousands. *)
Lemma quota_thousand_thousands : formatQuotaShort (of_Z 999950) = "1000.0K".
Proof. vm_compute. reflexivity. Qed.
