(* ===== verification/NavModules.v ===== *)
(** * NavModules: the header navigation

    [lib/nav-modules.ts] and the links of [hooks/use-top-nav-links.ts]: the setting
    of the server that says which pages the header links to, as every visitor reads
    it.  [toLowerCase] and the translation [t] are parameters; what the local storage
    of the browser holds is an argument, [None] when there is nothing or it cannot
    be read. *)
From S2P Require Import Prelude JsString JsNumber JsValue.

Record ModuleAccess := { enabled : bool; requireAuth : bool }.

Inductive HeaderNavModule := rankings | pricing.

(** A value of the modules: a switch, or the access to a page. *)
Inductive NavValue := NavFlag (b : bool) | NavAccess (a : ModuleAccess).

#[export] Instance ModuleAccess_eq_dec : EqDecision ModuleAccess.
Proof. solve_decision. Defined.
#[export] Instance NavValue_eq_dec : EqDecision NavValue.
Proof. solve_decision. Defined.

(** An object with the modules as properties. *)
Definition HeaderNavModules := list (jstring * NavValue).

Definition open_access : ModuleAccess := {| enabled := true; requireAuth := false |}.

Definition DEFAULT_HEADER_NAV_MODULES : HeaderNavModules := [
  ("home", NavFlag true); ("console", NavFlag true); ("referralProgram", NavFlag true); ("pricing", NavAccess open_access);
  ("rankings", NavAccess open_access); ("docs", NavFlag true); ("about", NavFlag true)].

Definition module_key (m : HeaderNavModule) : jstring := match m with rankings => "rankings" | pricing => "pricing" end.

(** [modules[m]] of a page whose access is controlled. *)
Definition access_of (m : HeaderNavModule) (modules : HeaderNavModules) : ModuleAccess :=
  match oget (module_key m) modules with Some (NavAccess a) => a | _ => open_access end.

Definition DEFAULTS (m : HeaderNavModule) : ModuleAccess := access_of m DEFAULT_HEADER_NAV_MODULES.

(** [v === b] *)
Definition is_bool (b : bool) (v : jval) : bool := match v with JBool c => Bool.eqb b c | _ => false end.

(** The value is a boolean, a number or a string. *)
Definition is_scalar (v : jval) : bool := match v with JBool _ | JNum _ | JStr _ => true | _ => false end.

(** [Object.entries(v)], [None] when it throws. *)
Definition object_entries (v : jval) : option (list (jstring * jval)) := if is_nullish v then None else Some (spread_entries v).

Section header.
Variable toLowerCase : jstring → jstring.

Definition parse_switch_text (s : jstring) (fallback : bool) : bool :=
  let normalized := toLowerCase (trim s) in
  if bool_decide (normalized = "true") || bool_decide (normalized = "1") then true
  else if bool_decide (normalized = "false") || bool_decide (normalized = "0") then false else fallback.

Definition parseHeaderNavBoolean (raw : jval) (fallback : bool) : bool :=
  match raw with
  | JBool b => b
  | JNum n => if neqb n (of_Z 1) then true else if neqb n zero then false else fallback
  | JStr s => parse_switch_text s fallback
  | _ => fallback
  end.

Definition parseAccess (raw : jval) (fallback : ModuleAccess) : ModuleAccess :=
  if is_scalar raw then {| enabled := parseHeaderNavBoolean raw (enabled fallback); requireAuth := requireAuth fallback |}
  else match raw with
       | JObj _ | JArr _ =>
         {| enabled := parseHeaderNavBoolean (member "enabled" raw) (enabled fallback);
            requireAuth := parseHeaderNavBoolean (member "requireAuth" raw) (requireAuth fallback) |}
       | _ => fallback
       end.

(** [JNull] for [null], when there is no setting. *)
Definition parseHeaderNavRecord (raw : jval) : jval :=
  if negb (to_boolean raw) || negb (truthy (trim (to_js_string raw))) then JNull
  else match raw with
       | JObj _ | JArr _ => raw
       | _ => default JNull (JSON_parse (to_js_string raw))
       end.

(** The callback of the loop over the entries. *)
Definition read_module (result : HeaderNavModules) (entry : jstring * jval) : HeaderNavModules :=
  let '(key, value) := entry in
  if bool_decide (key = "pricing") then obj_set key (NavAccess (parseAccess value (access_of pricing result))) result
  else if bool_decide (key = "rankings") then obj_set key (NavAccess (parseAccess value (access_of rankings result))) result
  else
    let fallback := match oget key result with Some (NavFlag b) => Some b | _ => None end in
    if bool_decide (is_Some fallback) || is_scalar value
    then obj_set key (NavFlag (parseHeaderNavBoolean value (default true fallback))) result
    else result.

Definition parseHeaderNavModules (raw : jval) : HeaderNavModules :=
  let parsed := parseHeaderNavRecord raw in
  if to_boolean parsed then fold_left read_module (default [] (object_entries parsed)) DEFAULT_HEADER_NAV_MODULES
  else DEFAULT_HEADER_NAV_MODULES.

(** The status of the server is an object or [null]. *)
Definition parseHeaderNavModulesFromStatus (status : jval) : HeaderNavModules :=
  parseHeaderNavModules (member "HeaderNavModules" status).

Definition getCachedStatus (stored : option jstring) : jval :=
  if otruthy stored then default JNull (JSON_parse (default [] stored)) else JNull.

(** What is stored, if anything. *)
Definition cacheStatus (status : jval) : option jstring := if to_boolean status then JSON_stringify None status else None.

Definition getModuleAccessFromStatus (status : jval) (m : HeaderNavModule) : ModuleAccess :=
  match oget (module_key m) (parseHeaderNavModulesFromStatus status) with Some (NavAccess a) => a | _ => DEFAULTS m end.

Definition getModuleAccess (stored : option jstring) (m : HeaderNavModule) : ModuleAccess :=
  getModuleAccessFromStatus (getCachedStatus stored) m.

(** The answer is [None] when the request fails.  The result holds what is stored. *)
Definition getFreshModuleAccess (answer : option jval) (m : HeaderNavModule) : option jstring * ModuleAccess :=
  match answer with
  | Some status => (cacheStatus status, getModuleAccessFromStatus status m)
  | None => (None, {| enabled := false; requireAuth := true |})
  end.

(** A property of [null] throws, which gives [true], as a section that is absent. *)
Definition isSidebarModuleEnabled (stored : option jstring) (section module : jstring) : bool :=
  let status := getCachedStatus stored in
  if negb (to_boolean status) then true
  else
    let raw := member "SidebarModulesAdmin" status in
    if negb (to_boolean raw) || negb (truthy (trim (to_js_string raw))) then true
    else match JSON_parse (to_js_string raw) with
         | None => true
         | Some parsed =>
           let sectionConfig := member section parsed in
           if negb (to_boolean sectionConfig) then true
           else negb (is_bool false (member "enabled" sectionConfig)) && negb (is_bool false (member module sectionConfig))
         end.

(** ** [hooks/use-top-nav-links.ts] *)

Record TopNavLink := { title : jstring; href : jstring; requiresAuth : option bool }.

#[export] Instance TopNavLink_eq_dec : EqDecision TopNavLink.
Proof. solve_decision. Defined.

Variable t : jstring → jstring.

(** [modules?.[key] !== false] *)
Definition flag_on (key : jstring) (modules : HeaderNavModules) : bool :=
  negb (bool_decide (oget key modules = Some (NavFlag false))).

(** The link to a page with controlled access. *)
Definition access_link (m : HeaderNavModule) (name path : jstring) (isAuthed : bool) (modules : HeaderNavModules) : list TopNavLink :=
  match oget (module_key m) modules with
  | Some (NavAccess a) =>
    if enabled a then [{| title := t name; href := path; requiresAuth := Some (requireAuth a && negb isAuthed) |}] else []
  | _ => []
  end.

Definition flag_link (key name path : jstring) (modules : HeaderNavModules) : list TopNavLink :=
  if flag_on key modules then [{| title := t name; href := path; requiresAuth := None |}] else [].

(** [keySession] says whether a visitor without an account has a session by key. *)
Definition top_nav_links (modules : HeaderNavModules) (isAuthed keySession : bool) : list TopNavLink :=
  flag_link "home" "Home" "/" modules ++
  flag_link "console" "Dashboard tab" (if negb isAuthed && keySession then "/key-access" else "/dashboard") modules ++
  flag_link "referralProgram" "Referral Program" "/referral-program" modules ++
  access_link pricing "Models" "/pricing" isAuthed modules ++
  access_link rankings "Rankings" "/rankings" isAuthed modules ++
  flag_link "docs" "Documentation" "/docs" modules ++
  flag_link "about" "About" "/about" modules.

Definition useTopNavLinks (status : jval) (isAuthed keySession : bool) : list TopNavLink :=
  top_nav_links (parseHeaderNavModulesFromStatus status) isAuthed keySession.
End header.
