(* ===== verification/NavSettings.v ===== *)
(** * NavSettings: the settings of the navigation

    [features/system-settings/maintenance/config.ts] and the state of
    [header-navigation-section.tsx] and [sidebar-modules-section.tsx]: the texts in
    which the administrator's choices are stored, read and written. *)
From S2P Require Import Prelude JsString JsNumber JsValue NavModules.

Definition HEADER_NAV_DEFAULT : HeaderNavModules := DEFAULT_HEADER_NAV_MODULES.

(** A section of the sidebar: an object of switches. *)
Definition SidebarSectionConfig := list (jstring * bool).
Definition SidebarModulesAdminConfig := list (jstring * SidebarSectionConfig).

Definition SIDEBAR_MODULES_DEFAULT : SidebarModulesAdminConfig := [
  ("console", [("enabled", true); ("detail", true); ("token", true); ("log", true); ("midjourney", true); ("task", true)]);
  ("personal", [("enabled", true); ("topup", true); ("personal", true)]);
  ("admin", [("enabled", true); ("channel", true); ("models", true); ("redemption", true); ("user", true); ("setting", true);
             ("subscription", true)])].

Section settings.
Variable toLowerCase : jstring → jstring.

Definition toBoolean (value : jval) (fallback : bool) : bool :=
  match value with
  | JBool b => b
  | JNum n => neqb n (of_Z 1)
  | JStr s => parse_switch_text toLowerCase s fallback
  | _ => fallback
  end.

(** ** The header *)

Definition parseAccessModule (raw : jval) (fallback : ModuleAccess) : ModuleAccess :=
  if is_scalar raw then {| enabled := toBoolean raw (enabled fallback); requireAuth := requireAuth fallback |}
  else match raw with
       | JObj _ | JArr _ =>
         {| enabled := toBoolean (member "enabled" raw) (enabled fallback);
            requireAuth := toBoolean (member "requireAuth" raw) (requireAuth fallback) |}
       | _ => fallback
       end.

(** [Boolean(base[key])] *)
Definition base_flag (key : jstring) : bool :=
  match oget key HEADER_NAV_DEFAULT with Some (NavFlag b) => b | Some (NavAccess _) => true | None => false end.

Definition read_header_module (result : HeaderNavModules) (entry : jstring * jval) : HeaderNavModules :=
  let '(key, raw) := entry in
  if bool_decide (key = "pricing") then obj_set key (NavAccess (parseAccessModule raw (DEFAULTS pricing))) result
  else if bool_decide (key = "rankings") then obj_set key (NavAccess (parseAccessModule raw (DEFAULTS rankings))) result
  else match raw with
       | JBool b => obj_set key (NavFlag b) result
       | JStr _ | JNum _ => obj_set key (NavFlag (toBoolean raw (base_flag key))) result
       | _ => result
       end.

(** An exception, of the parser or of the entries of [null], gives the default. *)
Definition parseHeaderNavModules (value : option jstring) : HeaderNavModules :=
  if negb (otruthy value) then HEADER_NAV_DEFAULT
  else match JSON_parse (default [] value) ≫= object_entries with
       | Some entries => fold_left read_header_module entries HEADER_NAV_DEFAULT
       | None => HEADER_NAV_DEFAULT
       end.

Definition access_json (a : ModuleAccess) : jval := JObj [("enabled", JBool (enabled a)); ("requireAuth", JBool (requireAuth a))].

Definition nav_json (v : NavValue) : jval := match v with NavFlag b => JBool b | NavAccess a => access_json a end.

Definition header_json (config : HeaderNavModules) : jval := JObj (map (λ kv, (kv.1, nav_json kv.2)) config).

Definition serializeHeaderNavModules (config : HeaderNavModules) : jstring := default [] (JSON_stringify None (header_json config)).

(** *** The form *)

Record HeaderNavFormValues := {
  f_home : bool; f_console : bool; f_referralProgram : bool; f_pricingEnabled : bool; f_pricingRequireAuth : bool;
  f_rankingsEnabled : bool; f_rankingsRequireAuth : bool; f_docs : bool; f_about : bool;
}.

(** [config[key] === undefined ? HEADER_NAV_DEFAULT[key] : Boolean(config[key])] *)
Definition form_flag (key : jstring) (config : HeaderNavModules) : bool :=
  match oget key config with Some (NavFlag b) => b | Some (NavAccess _) => true | None => base_flag key end.

Definition toFormValues (config : HeaderNavModules) : HeaderNavFormValues :=
  {| f_home := form_flag "home" config; f_console := form_flag "console" config; f_referralProgram := form_flag "referralProgram" config;
     f_pricingEnabled := enabled (access_of pricing config); f_pricingRequireAuth := requireAuth (access_of pricing config);
     f_rankingsEnabled := enabled (access_of rankings config); f_rankingsRequireAuth := requireAuth (access_of rankings config);
     f_docs := form_flag "docs" config; f_about := form_flag "about" config |}.

(** The payload that is saved. *)
Definition header_payload (config : HeaderNavModules) (values : HeaderNavFormValues) : HeaderNavModules :=
  obj_spread (obj_spread [] config) [
    ("home", NavFlag (f_home values)); ("console", NavFlag (f_console values)); ("referralProgram", NavFlag (f_referralProgram values));
    ("docs", NavFlag (f_docs values)); ("about", NavFlag (f_about values));
    ("pricing", NavAccess {| enabled := f_pricingEnabled values; requireAuth := f_pricingRequireAuth values |});
    ("rankings", NavAccess {| enabled := f_rankingsEnabled values; requireAuth := f_rankingsRequireAuth values |})].

(** The text of the option that is updated, [None] when nothing has changed. *)
Definition submit_header (config : HeaderNavModules) (initialSerialized : jstring) (values : HeaderNavFormValues) : option jstring :=
  let serialized := serializeHeaderNavModules (header_payload config values) in
  if bool_decide (serialized = initialSerialized) then None else Some serialized.

(** ** The sidebar *)

Definition read_sidebar_module (defaultSection : SidebarSectionConfig) (sectionConfig : SidebarSectionConfig) (entry : jstring * jval)
    : SidebarSectionConfig :=
  let '(moduleKey, moduleValue) := entry in
  if bool_decide (moduleKey = "enabled") then sectionConfig
  else obj_set moduleKey (toBoolean moduleValue (default true (oget moduleKey defaultSection))) sectionConfig.

Definition read_sidebar_section (result : SidebarModulesAdminConfig) (entry : jstring * jval) : SidebarModulesAdminConfig :=
  let '(sectionKey, raw) := entry in
  if bool_decide (sectionKey = "chat") then result
  else match raw with
       | JObj _ | JArr _ =>
         let defaultSection := default [("enabled", true)] (oget sectionKey SIDEBAR_MODULES_DEFAULT) in
         let sectionConfig := [("enabled" : jstring, toBoolean (member "enabled" raw) (default true (oget "enabled" defaultSection)))] in
         obj_set sectionKey (fold_left (read_sidebar_module defaultSection) (spread_entries raw) sectionConfig) result
       | _ => result
       end.

Definition add_missing_module (section : SidebarSectionConfig) (entry : jstring * bool) : SidebarSectionConfig :=
  if ohas entry.1 section then section else obj_set entry.1 entry.2 section.

Definition add_missing_section (result : SidebarModulesAdminConfig) (entry : jstring * SidebarSectionConfig) : SidebarModulesAdminConfig :=
  match oget entry.1 result with
  | None => obj_set entry.1 entry.2 result
  | Some section => obj_set entry.1 (fold_left add_missing_module entry.2 section) result
  end.

Definition parseSidebarModulesAdmin (value : option jstring) : SidebarModulesAdminConfig :=
  if negb (otruthy (trim <$> value)) then SIDEBAR_MODULES_DEFAULT
  else match JSON_parse (default [] value) ≫= object_entries with
       | Some entries => fold_left add_missing_section SIDEBAR_MODULES_DEFAULT (fold_left read_sidebar_section entries [])
       | None => SIDEBAR_MODULES_DEFAULT
       end.

Definition section_json (section : SidebarSectionConfig) : jval := JObj (map (λ kv, (kv.1, JBool kv.2)) section).
Definition sidebar_json (config : SidebarModulesAdminConfig) : jval := JObj (map (λ kv, (kv.1, section_json kv.2)) config).
Definition serializeSidebarModulesAdmin (config : SidebarModulesAdminConfig) : jstring := default [] (JSON_stringify None (sidebar_json config)).

(** A switch of the form that is changed, and the saved text. *)
Definition set_switch (section module : jstring) (b : bool) (config : SidebarModulesAdminConfig) : SidebarModulesAdminConfig :=
  match oget section config with Some s => obj_set section (obj_set module b s) config | None => config end.

Definition submit_sidebar (values : SidebarModulesAdminConfig) (initialSerialized : jstring) : option jstring :=
  let serialized := serializeSidebarModulesAdmin values in
  if bool_decide (serialized = initialSerialized) then None else Some serialized.
End settings.
