(* ===== verification/SidebarConfig.v ===== *)
(** * SidebarConfig: what the sidebar shows

    [hooks/use-sidebar-config.ts, use-sidebar-data.ts, use-sidebar-view.ts],
    [lib/roles.ts] and the state of
    [features/profile/components/sidebar-modules-card.tsx]: the entries of the
    sidebar, which of them the settings of the administrator and of the user leave,
    and the card in which the user chooses.  The settings are parsed texts that
    nothing checks, so they are untyped.  Icons and nested views are left out. *)
From S2P Require Import Prelude JsString JsNumber JsValue NavModules NavSettings.

Definition GUEST : Z := 0.
Definition USER : Z := 1.
Definition ADMIN : Z := 10.
Definition SUPER_ADMIN : Z := 100.

Definition ROLE_LABEL_KEYS : list (Z * jstring) := [(SUPER_ADMIN, "Super Admin" : jstring); (ADMIN, "Admin" : jstring); (USER, "User" : jstring); (GUEST, "Guest" : jstring)].

Definition getRoleLabelKey (role : option Z) : jstring :=
  default (default [] (oget GUEST ROLE_LABEL_KEYS)) (role ≫= λ r, oget r ROLE_LABEL_KEYS).

Definition getRoleLabel (t : jstring → jstring) (role : option Z) : jstring := t (getRoleLabelKey role).

(** ** The settings *)

(** [DEFAULT_SIDEBAR_MODULES] has the same modules as the settings of the administrator. *)
Definition DEFAULT_SIDEBAR_MODULES : list (jstring * list (jstring * jval)) :=
  map (λ kv, (kv.1, map (λ m, (m.1, JBool m.2)) kv.2)) [
    ("console" : jstring, [("enabled" : jstring, true); ("detail" : jstring, true); ("token" : jstring, true); ("log" : jstring, true);
                           ("midjourney" : jstring, true); ("task" : jstring, true)]);
    ("personal" : jstring, [("enabled" : jstring, true); ("topup" : jstring, true); ("personal" : jstring, true)]);
    ("admin" : jstring, [("enabled" : jstring, true); ("channel" : jstring, true); ("models" : jstring, true); ("redemption" : jstring, true);
                         ("user" : jstring, true); ("setting" : jstring, true); ("subscription" : jstring, true)])].

(** [if (section[key] === undefined) section[key] = value] *)
Definition add_undefined (section : list (jstring * jval)) (entry : jstring * jval) : list (jstring * jval) :=
  match oget entry.1 section with
  | None | Some JUndefined => obj_set entry.1 entry.2 section
  | Some _ => section
  end.

Definition merge_section (merged : list (jstring * jval)) (entry : jstring * list (jstring * jval)) : list (jstring * jval) :=
  let '(sectionKey, defaultSection) := entry in
  let existingSection := default JUndefined (oget sectionKey merged) in
  obj_set sectionKey
    (JObj (if to_boolean existingSection
           then fold_left add_undefined defaultSection (obj_spread (obj_spread [] defaultSection) (spread_entries existingSection))
           else defaultSection)) merged.

Definition mergeWithDefaultSidebarModules (config : jval) : list (jstring * jval) :=
  fold_left merge_section DEFAULT_SIDEBAR_MODULES (obj_spread [] (spread_entries config)).

Definition default_modules : list (jstring * jval) := map (λ kv, (kv.1, JObj kv.2)) DEFAULT_SIDEBAR_MODULES.

Definition URL_TO_CONFIG_MAP : list (jstring * (jstring * jstring)) := [
  ("/dashboard", ("console", "detail")); ("/dashboard/overview", ("console", "detail")); ("/dashboard/models", ("console", "detail"));
  ("/dashboard/users", ("console", "detail")); ("/keys", ("console", "token")); ("/usage-logs", ("console", "log"));
  ("/usage-logs/common", ("console", "log")); ("/usage-logs/drawing", ("console", "midjourney")); ("/usage-logs/task", ("console", "task"));
  ("/wallet", ("personal", "topup")); ("/profile", ("personal", "personal")); ("/channels", ("admin", "channel"));
  ("/models", ("admin", "models")); ("/models/metadata", ("admin", "models")); ("/models/deployments", ("admin", "models"));
  ("/users", ("admin", "user")); ("/redemption-codes", ("admin", "redemption")); ("/subscriptions", ("admin", "subscription"));
  ("/system-settings", ("admin", "setting")); ("/system-settings/site", ("admin", "setting"))].

Definition parseSidebarConfig (value : option jstring) : jval :=
  if negb (otruthy (trim <$> value)) then JObj default_modules
  else match JSON_parse (default [] value) with
       | Some parsed => JObj (mergeWithDefaultSidebarModules parsed)
       | None => JObj default_modules
       end.

(** [JNull] when the user does not narrow the sidebar. *)
Definition parseUserSidebarConfig (value : option jstring) : jval :=
  if negb (otruthy (trim <$> value)) then JNull
  else match JSON_parse (default [] value) with
       | Some (JObj o) => JObj o
       | Some (JArr l) => JArr l
       | _ => JNull
       end.

(** ** The visible entries *)

(** [Boolean(section && section.enabled && section[module] === true)] *)
Definition adminAllowed (section module : jstring) (adminConfig : jval) : bool :=
  let adminSection := member section adminConfig in
  to_boolean adminSection && to_boolean (member "enabled" adminSection) && is_bool true (member module adminSection).

Definition user_allowed (section module : jstring) (userConfig : jval) : bool :=
  if negb (to_boolean userConfig) then true
  else
    let userSection := member section userConfig in
    if negb (to_boolean userSection) then true
    else if is_bool false (member "enabled" userSection) then false
    else negb (is_bool false (member module userSection)).

Definition isModuleEnabled (url : jstring) (adminConfig userConfig : jval) : bool :=
  match oget url URL_TO_CONFIG_MAP with
  | None => true
  | Some (section, module) => if negb (adminAllowed section module adminConfig) then false else user_allowed section module userConfig
  end.

(** A link, with the pages that decide whether it is shown, or a group of links. *)
Inductive NavTarget :=
  | nav_url (url : jstring) (configUrls : option (list jstring))
  | nav_items (items : list (jstring * jstring)).

Record NavItem := { ni_title : jstring; ni_target : NavTarget; ni_requiredRole : option Z }.

Record NavGroup := { ng_id : jstring; ng_title : jstring; ng_items : list NavItem; ng_requiredRole : option Z }.

Definition with_items (items : list NavItem) (group : NavGroup) : NavGroup :=
  {| ng_id := ng_id group; ng_title := ng_title group; ng_items := items; ng_requiredRole := ng_requiredRole group |}.

Section visible.
Context (adminConfig userConfig : jval).

(** An empty [url] is as none. *)
Definition isNavItemVisible (item : NavItem) : bool :=
  match ni_target item with
  | nav_url url configUrls =>
    if truthy url then existsb (λ url, isModuleEnabled url adminConfig userConfig) (default [url] configUrls) else true
  | nav_items items => existsb (λ subItem, isModuleEnabled subItem.2 adminConfig userConfig) items
  end.

(** The links of a group that are left. *)
Definition filter_sub_items (item : NavItem) : NavItem :=
  match ni_target item with
  | nav_url _ _ => item
  | nav_items items =>
    {| ni_title := ni_title item; ni_requiredRole := ni_requiredRole item;
       ni_target := nav_items (filter (λ subItem, isModuleEnabled subItem.2 adminConfig userConfig = true) items) |}
  end.

Definition filterNavItems (items : list NavItem) : list NavItem :=
  filter (λ item, isNavItemVisible item = true) (map filter_sub_items items).

Definition filteredNavGroups (navGroups : list NavGroup) : list NavGroup :=
  filter (λ group, ng_items group ≠ []) (map (λ group, with_items (filterNavItems (ng_items group)) group) navGroups).
End visible.

(** What the sidebar reads of the signed-in user. *)
Record SidebarUser := { su_role : option Z; su_sidebar_settings : option bool; su_sidebar_modules : option jstring }.

(** The setting of the user, unless the user cannot change it. *)
Definition user_config (user : option SidebarUser) : jval :=
  if bool_decide (user ≫= su_sidebar_settings = Some false) then JNull else parseUserSidebarConfig (user ≫= su_sidebar_modules).

Definition useSidebarConfig (status : option jstring) (user : option SidebarUser) (navGroups : list NavGroup) : list NavGroup :=
  filteredNavGroups (parseSidebarConfig status) (user_config user) navGroups.

Definition useIsSidebarModuleVisible (status : option jstring) (user : option SidebarUser) (url : jstring) : bool :=
  isModuleEnabled url (parseSidebarConfig status) (user_config user).

(** ** [hooks/use-sidebar-view.ts] *)

Definition role_allows (role : Z) (required : option Z) : bool := match required with None => true | Some r => (r <=? role)%Z end.

Definition rootNavGroups (configFilteredRoot : list NavGroup) (userRole : option Z) : list NavGroup :=
  let role := default GUEST userRole in
  filter (λ group, ng_items group ≠ [])
    (map (λ group, with_items (filter (λ item, role_allows role (ni_requiredRole item) = true) (ng_items group)) group)
      (filter (λ group, role_allows role (ng_requiredRole group) = true) configFilteredRoot)).

(** ** [hooks/use-sidebar-data.ts] *)

Section data.
Variable t : jstring → jstring.

Definition link (name url : jstring) : NavItem := {| ni_title := t name; ni_target := nav_url url None; ni_requiredRole := None |}.

Definition getSidebarData : list NavGroup := [
  {| ng_id := "general"; ng_title := t "General"; ng_requiredRole := None; ng_items := [
       link "Chat" "/playground"; link "Overview navigation" "/dashboard/overview"; link "Dashboard navigation" "/dashboard/models";
       link "API Keys" "/keys";
       {| ni_title := t "Usage Logs navigation"; ni_requiredRole := None;
          ni_target := nav_url "/usage-logs/common" (Some ["/usage-logs/common" : jstring; "/usage-logs/drawing" : jstring; "/usage-logs/task" : jstring]) |}] |};
  {| ng_id := "personal"; ng_title := t "Personal"; ng_requiredRole := None; ng_items := [link "Wallet" "/wallet"; link "Profile" "/profile"] |};
  {| ng_id := "admin"; ng_title := t "Admin"; ng_requiredRole := Some ADMIN; ng_items := [
       link "Channels" "/channels"; link "Models" "/models/metadata"; link "Users" "/users"; link "Redemption Codes" "/redemption-codes";
       link "Subscriptions" "/subscriptions";
       {| ni_title := t "System Info"; ni_requiredRole := Some SUPER_ADMIN; ni_target := nav_url "/system-info" None |};
       link "System Settings" "/system-settings/site"] |};
  {| ng_id := "super-admin"; ng_title := t "Super Admin"; ng_requiredRole := Some SUPER_ADMIN; ng_items := [link "News" "/announcements"] |}].

(** The root navigation of the sidebar. *)
Definition root_view (status : option jstring) (user : option SidebarUser) : list NavGroup :=
  rootNavGroups (useSidebarConfig status user getSidebarData) (user ≫= su_role).
End data.

(** ** The card of the user *)

Definition sectionDefs : list (jstring * list jstring) := [
  ("console", ["detail"; "token"; "log"; "midjourney"; "task"]); ("personal", ["topup"; "personal"])].

(** The defaults with which the card is opened and reset. *)
Definition card_defaults : list (jstring * jval) :=
  map (λ sec, (sec.1, JObj (("enabled" : jstring, JBool true) :: map (λ m, (m, JBool true)) sec.2))) sectionDefs.

(** The state after the answer of the server, [None] when it cannot be read: the card
    stays as it was. *)
Definition loadConfig (success : bool) (sidebar_modules : jval) : option (list (jstring * jval)) :=
  if success && to_boolean sidebar_modules then
    parsed ← (match sidebar_modules with JStr raw => JSON_parse raw | v => Some v end);
    entries ← object_entries parsed;
    Some (obj_of_entries (filter (λ kv, kv.1 ≠ ("chat" : jstring)) entries))
  else Some card_defaults.

(** The state after a switch of a section, or of one of its modules, is moved. *)
Definition toggle (sectionKey key : jstring) (val : bool) (config : list (jstring * jval)) : list (jstring * jval) :=
  obj_set sectionKey (JObj (obj_spread (obj_spread [] (spread_entries (default JUndefined (oget sectionKey config)))) [(key, JBool val)]))
    (obj_spread [] config).

Definition toggleSection (sectionKey : jstring) (val : bool) := toggle sectionKey "enabled" val.
Definition toggleModule (sectionKey moduleKey : jstring) (val : bool) := toggle sectionKey moduleKey val.

(** [config[section]?.[key] !== false]: a switch is shown as on. *)
Definition switch_on (sectionKey key : jstring) (config : list (jstring * jval)) : bool :=
  negb (is_bool false (member key (default JUndefined (oget sectionKey config)))).

(** The text that is saved, and that the sidebar reads when the server has accepted it. *)
Definition handleSave (config : list (jstring * jval)) : jstring := default [] (JSON_stringify None (JObj config)).
