(* ===== verification/NavSaved.v ===== *)
(** * NavSaved: the settings of the navigation, from the switches to the entries

    What the administrator chooses is what the header links to
    ([header_form_saved]) and what the sidebar shows ([sidebar_follows_settings]);
    the card of the user hides exactly what it shows as off ([user_switches]); which
    entries a visitor sees ([root_view_entries]); and stored switches that are no
    booleans, which the three readers take differently ([untyped_switch_hidden]). *)
From S2P Require Import Prelude JsString JsNumber JsValue JsJson NavModules NavSettings SidebarConfig.

Section saved.
Variable toLowerCase : jstring → jstring.

(** ** The header *)

(** Modules whose pages have an access and whose other properties are switches, with
    the properties of the defaults. *)
Record header_ok (c : HeaderNavModules) : Prop := {
  ho_keys : NoDup (okeys c);
  ho_ordered : keys_ordered (okeys c) = true;
  ho_units : Forall valid_units (okeys c);
  ho_kinds : ∀ k v, oget k c = Some v → match v with NavAccess _ => k = "pricing" ∨ k = "rankings" | NavFlag _ => k ≠ "pricing" ∧ k ≠ "rankings" end;
  ho_defaults : Forall (λ k, is_Some (oget k c)) (okeys HEADER_NAV_DEFAULT);
}.

Lemma okeys_mapped {V W} (g : V → W) (c : list (jstring * V)) : okeys (map (λ kv, (kv.1, g kv.2)) c) = okeys c.
Proof. unfold okeys. induction c as [|[k v] c IH]; [done|]. cbn. by f_equal. Qed.

Lemma oget_mapped {V W} (g : V → W) (c : list (jstring * V)) k : oget k (map (λ kv, (kv.1, g kv.2)) c) = g <$> oget k c.
Proof. induction c as [|[j v] c IH]; [done|]. cbn. by case_bool_decide. Qed.

(** The text of an object built from the values of another. *)
Lemma mapped_json_ok {V} (g : V → jval) (c : list (jstring * V)) :
  NoDup (okeys c) → keys_ordered (okeys c) = true → Forall valid_units (okeys c) → Forall (λ kv, json_ok (g kv.2)) c →
  json_ok (JObj (map (λ kv, (kv.1, g kv.2)) c)).
Proof.
  intros Hn Ho Hu Hv. apply json_ok_obj. rewrite okeys_mapped. split_and!; [done..|]. apply Forall_map.
  unfold okeys in Hu. rewrite Forall_fmap in Hu. rewrite Forall_forall in *. intros kv Hkv. split; [by apply Hu|by apply Hv].
Qed.

Lemma header_json_ok c : header_ok c → json_ok (header_json c).
Proof.
  intros H. apply mapped_json_ok; [apply H..|]. apply Forall_forall. intros [k [b|[e r]]] _; [done|].
  apply json_ok_b_spec. by destruct e, r.
Qed.

(** The value of a key after the two readers. *)
Definition read_value (k : jstring) (v : jval) (old : option NavValue) : option NavValue :=
  let access := match old with Some (NavAccess a) => a | _ => open_access end in
  if bool_decide (k = "pricing") || bool_decide (k = "rankings") then Some (NavAccess (parseAccess toLowerCase v access))
  else
    let fallback := match old with Some (NavFlag b) => Some b | _ => None end in
    if bool_decide (is_Some fallback) || is_scalar v
    then Some (NavFlag (parseHeaderNavBoolean toLowerCase v (default true fallback))) else old.

Lemma read_module_get m j v k :
  oget k (read_module toLowerCase m (j, v)) = if bool_decide (k = j) then read_value j v (oget j m) else oget k m.
Proof.
  unfold read_module, read_value. case_bool_decide as H1; [subst; rewrite oget_obj_set; by case_bool_decide|]. cbn [orb].
  case_bool_decide as H2; [subst; rewrite oget_obj_set; by case_bool_decide|]. cbv zeta.
  destruct (bool_decide _ || _); [rewrite oget_obj_set; by case_bool_decide|]. by case_bool_decide; subst.
Qed.

Definition read_setting (k : jstring) (v : jval) (old : option NavValue) : option NavValue :=
  if bool_decide (k = "pricing") then Some (NavAccess (parseAccessModule toLowerCase v (DEFAULTS pricing)))
  else if bool_decide (k = "rankings") then Some (NavAccess (parseAccessModule toLowerCase v (DEFAULTS rankings)))
  else match v with
       | JBool b => Some (NavFlag b)
       | JStr _ | JNum _ => Some (NavFlag (toBoolean toLowerCase v (base_flag k)))
       | _ => old
       end.

Lemma read_header_module_get m j v k :
  oget k (read_header_module toLowerCase m (j, v)) = if bool_decide (k = j) then read_setting j v (oget j m) else oget k m.
Proof.
  unfold read_header_module, read_setting. case_bool_decide as H1; [subst; rewrite oget_obj_set; by case_bool_decide|].
  case_bool_decide as H2; [subst; rewrite oget_obj_set; by case_bool_decide|].
  destruct v; try (rewrite oget_obj_set; by case_bool_decide); by case_bool_decide; subst.
Qed.

Lemma saved_access (a b : ModuleAccess) : parseAccess toLowerCase (access_json a) b = a ∧ parseAccessModule toLowerCase (access_json a) b = a.
Proof. by destruct a as [[] []]. Qed.

(** Both readers give back what was saved. *)
Lemma header_read c k : header_ok c →
  oget k (NavModules.parseHeaderNavModules toLowerCase (JStr (serializeHeaderNavModules c))) = oget k c ∧
  oget k (parseHeaderNavModules toLowerCase (Some (serializeHeaderNavModules c))) = oget k c.
Proof.
  intros Hc. pose proof (header_json_ok c Hc) as Hj. pose proof (stringify_not_blank None _ Hj) as Hb.
  pose proof (stringify_nonempty None _ Hj) as Hne. pose proof (stringify_reads None _ Hj) as Hr.
  fold (serializeHeaderNavModules c) in Hb, Hne, Hr.
  assert (oget k c = None → oget k HEADER_NAV_DEFAULT = None) as Hdef.
  { intros E. apply oget_None. intros Hk. pose proof (ho_defaults c Hc) as H. rewrite Forall_forall in H. destruct (H k Hk). congruence. }
  assert (NoDup (okeys (map (λ kv, (kv.1, nav_json kv.2)) c))) as Hn by (rewrite okeys_mapped; apply Hc).
  split.
  - unfold NavModules.parseHeaderNavModules, parseHeaderNavRecord. cbn [to_boolean to_js_string]. apply truthy_spec in Hne as ->.
    rewrite Hb. cbn [negb orb]. rewrite Hr. cbn [default from_option id]. cbv zeta. cbn [to_boolean header_json object_entries is_nullish spread_entries default from_option id].
    unfold header_json. cbn [to_boolean object_entries is_nullish spread_entries default from_option id].
    rewrite (oget_fold_keyed _ read_value) by (done || apply read_module_get). rewrite oget_mapped.
    destruct (oget k c) as [v|] eqn:E; cbn [fmap option_fmap option_map]; [|by apply Hdef]. pose proof (ho_kinds c Hc k v E) as Hk. unfold read_value.
    destruct v as [b|a]; cbn [nav_json].
    + destruct Hk as [H1 H2]. rewrite !bool_decide_eq_false_2 by done. cbn [orb is_scalar]. rewrite orb_true_r. by destruct (oget k _) as [[]|].
    + assert (bool_decide (k = "pricing") || bool_decide (k = "rankings") = true) as -> by (destruct Hk as [->| ->]; reflexivity).
      by rewrite (proj1 (saved_access a _)).
  - unfold parseHeaderNavModules. unfold otruthy. cbn [default from_option id]. apply truthy_spec in Hne as ->. cbn [negb]. rewrite Hr.
    cbn [mbind option_bind]. unfold header_json. cbn [object_entries is_nullish spread_entries].
    rewrite (oget_fold_keyed _ read_setting) by (done || apply read_header_module_get). rewrite oget_mapped.
    destruct (oget k c) as [v|] eqn:E; cbn [fmap option_fmap option_map]; [|by apply Hdef]. pose proof (ho_kinds c Hc k v E) as Hk. unfold read_setting.
    destruct v as [b|a]; cbn [nav_json].
    + destruct Hk as [H1 H2]. by rewrite !bool_decide_eq_false_2 by done.
    + destruct Hk as [->| ->]; [rewrite bool_decide_eq_true_2 by done|rewrite bool_decide_eq_false_2, bool_decide_eq_true_2 by done];
        by rewrite (proj2 (saved_access a _)).
Qed.

(** Setting properties that an object has keeps its keys. *)
Lemma okeys_obj_spread_present {V} (a b : list (jstring * V)) : Forall (λ k, k ∈ okeys a) (okeys b) → okeys (obj_spread a b) = okeys a.
Proof.
  revert a. induction b as [|[k v] b IH]; intros a H; [done|]. unfold okeys in H. cbn in H. apply Forall_cons in H as [Hk H].
  change (obj_spread a ((k, v) :: b)) with (obj_spread (obj_set k v a) b).
  assert (okeys (obj_set k v a) = okeys a) as Hs.
  { unfold obj_set, ohas. rewrite bool_decide_eq_true_2 by by apply elem_of_okeys. rewrite okeys_oset. unfold set_add, has. by rewrite bool_decide_eq_true_2. }
  rewrite IH; [done|by rewrite Hs].
Qed.

Lemma obj_spread_copy {V} (c : list (jstring * V)) : NoDup (okeys c) → keys_ordered (okeys c) = true → obj_spread [] c = c.
Proof. apply obj_of_entries_ordered. Qed.

(** The properties that the form sets. *)
Definition form_changes (v : HeaderNavFormValues) : HeaderNavModules := [
  ("home", NavFlag (f_home v)); ("console", NavFlag (f_console v)); ("referralProgram", NavFlag (f_referralProgram v));
  ("docs", NavFlag (f_docs v)); ("about", NavFlag (f_about v));
  ("pricing", NavAccess {| enabled := f_pricingEnabled v; requireAuth := f_pricingRequireAuth v |});
  ("rankings", NavAccess {| enabled := f_rankingsEnabled v; requireAuth := f_rankingsRequireAuth v |})].

Lemma payload_get c v k : header_ok c →
  oget k (header_payload c v) = match oget k (form_changes v) with Some x => Some x | None => oget k c end.
Proof.
  intros Hc. unfold header_payload. rewrite obj_spread_copy by apply Hc. rewrite oget_obj_spread. fold (form_changes v).
  by rewrite oget_reverse by (by apply (bool_decide_unpack _); vm_compute).
Qed.

Lemma header_payload_ok c v : header_ok c → header_ok (header_payload c v).
Proof.
  intros Hc. assert (okeys (header_payload c v) = okeys c) as E.
  { unfold header_payload. rewrite obj_spread_copy by apply Hc. apply okeys_obj_spread_present. fold (form_changes v).
    pose proof (ho_defaults c Hc) as H. rewrite Forall_forall in *. intros k Hk. apply elem_of_okeys, H. revert k Hk. apply Forall_forall.
    by apply (bool_decide_unpack _); vm_compute. }
  constructor; rewrite ?E; [apply Hc..| |].
  - intros k x. rewrite payload_get by done. destruct (oget k (form_changes v)) as [y|] eqn:Ey; [|apply Hc]. intros [= <-].
    apply oget_Some_elem_of in Ey. unfold form_changes in Ey.
    repeat (apply elem_of_cons in Ey as [[= -> ->]|Ey]; [first [by left|by right|by split]|]). by apply elem_of_nil in Ey.
  - pose proof (ho_defaults c Hc) as H. rewrite Forall_forall in *. intros k Hk. rewrite payload_get by done. destruct (oget k (form_changes v)); eauto.
Qed.

Variable t : jstring → jstring.

(** The links of the pages that are switched on, in the order of the header. *)
Definition chosen_links (v : HeaderNavFormValues) (isAuthed keySession : bool) : list TopNavLink :=
  let plain (b : bool) (name path : jstring) := if b then [{| title := t name; href := path; requiresAuth := None |}] else [] in
  let guarded (b auth : bool) (name path : jstring) :=
    if b then [{| title := t name; href := path; requiresAuth := Some (auth && negb isAuthed) |}] else [] in
  plain (f_home v) "Home" "/" ++
  plain (f_console v) "Dashboard tab" (if negb isAuthed && keySession then "/key-access" else "/dashboard") ++
  plain (f_referralProgram v) "Referral Program" "/referral-program" ++
  guarded (f_pricingEnabled v) (f_pricingRequireAuth v) "Models" "/pricing" ++
  guarded (f_rankingsEnabled v) (f_rankingsRequireAuth v) "Rankings" "/rankings" ++
  plain (f_docs v) "Documentation" "/docs" ++ plain (f_about v) "About" "/about".

(** C17: What the administrator saves in the form of the header is what the form shows
    again, what the header links to, and what guards the pages. *)
Theorem header_form_saved c v : header_ok c →
  let text := serializeHeaderNavModules (header_payload c v) in
  toFormValues (parseHeaderNavModules toLowerCase (Some text)) = v ∧
  ∀ status, member "HeaderNavModules" status = JStr text →
    (∀ isAuthed keySession, useTopNavLinks toLowerCase t status isAuthed keySession = chosen_links v isAuthed keySession) ∧
    getModuleAccessFromStatus toLowerCase status pricing = {| enabled := f_pricingEnabled v; requireAuth := f_pricingRequireAuth v |} ∧
    getModuleAccessFromStatus toLowerCase status rankings = {| enabled := f_rankingsEnabled v; requireAuth := f_rankingsRequireAuth v |}.
Proof.
  intros Hc text.
  assert (∀ k x, oget k (form_changes v) = Some x → oget k (NavModules.parseHeaderNavModules toLowerCase (JStr text)) = Some x) as Hlib.
  { intros k x Hx. unfold text. rewrite (proj1 (header_read _ k (header_payload_ok c v Hc))), payload_get, Hx by done. done. }
  assert (∀ k x, oget k (form_changes v) = Some x → oget k (parseHeaderNavModules toLowerCase (Some text)) = Some x) as Hset.
  { intros k x Hx. unfold text. rewrite (proj2 (header_read _ k (header_payload_ok c v Hc))), payload_get, Hx by done. done. }
  clearbody text. split.
  - unfold toFormValues, form_flag, access_of. cbn [module_key]. do 7 (erewrite Hset by reflexivity). by destruct v.
  - intros status Hs. unfold useTopNavLinks, getModuleAccessFromStatus, parseHeaderNavModulesFromStatus. rewrite Hs.
    split; [|cbn [module_key]; do 2 (erewrite Hlib by reflexivity); done].
    intros isAuthed ks. unfold top_nav_links, flag_link, access_link, flag_on. cbn [module_key]. do 7 (erewrite Hlib by reflexivity).
    unfold chosen_links. cbv zeta. cbn [enabled requireAuth]. destruct v as [[] [] [] [] ? [] ? [] []]; reflexivity.
Qed.

(** ** The settings of the sidebar *)

Definition switch (s m : jstring) (c : SidebarModulesAdminConfig) : option bool := oget s c ≫= oget m.

(** Sections of switches, with those of the defaults, as the form has them. *)
Record sidebar_ok (c : SidebarModulesAdminConfig) : Prop := {
  so_keys : NoDup (okeys c);
  so_ordered : keys_ordered (okeys c) = true;
  so_units : Forall valid_units (okeys c);
  so_sections : ∀ k s, oget k c = Some s →
    NoDup (okeys s) ∧ keys_ordered (okeys s) = true ∧ Forall valid_units (okeys s) ∧ is_Some (oget "enabled" s);
  so_chat : oget "chat" c = None;
  so_defaults : ∀ k d, oget k SIDEBAR_MODULES_DEFAULT = Some d → ∃ s, oget k c = Some s ∧ ∀ m, is_Some (oget m d) → is_Some (oget m s);
}.

Lemma sidebar_json_ok c : sidebar_ok c → json_ok (sidebar_json c).
Proof.
  intros H. apply mapped_json_ok; [apply H..|]. apply Forall_forall. intros [k s] Hin. apply elem_of_oget in Hin; [|apply H].
  destruct (so_sections c H k s Hin) as (H1 & H2 & H3 & _). apply mapped_json_ok; [done..|]. by apply Forall_forall.
Qed.

(** *** The form *)

Lemma read_sidebar_module_get d m j v k :
  oget k (read_sidebar_module toLowerCase d m (j, v)) =
  if bool_decide (k = j) then if bool_decide (j = "enabled") then oget j m else Some (toBoolean toLowerCase v (default true (oget j d))) else oget k m.
Proof. unfold read_sidebar_module. case_bool_decide; [by case_bool_decide; subst|]. rewrite oget_obj_set. by case_bool_decide. Qed.

(** A section that is read. *)
Definition read_section (j : jstring) (raw : jval) : SidebarSectionConfig :=
  let d := default [("enabled", true)] (oget j SIDEBAR_MODULES_DEFAULT) in
  fold_left (read_sidebar_module toLowerCase d) (spread_entries raw)
    [("enabled" : jstring, toBoolean toLowerCase (member "enabled" raw) (default true (oget "enabled" d)))].

Lemma read_section_get j o m : NoDup (okeys o) →
  oget m (read_section j (JObj o)) =
  if bool_decide (m = "enabled") then
    Some (toBoolean toLowerCase (member m (JObj o)) (default true (oget m (default [("enabled", true)] (oget j SIDEBAR_MODULES_DEFAULT)))))
  else (λ v, toBoolean toLowerCase v (default true (oget m (default [("enabled", true)] (oget j SIDEBAR_MODULES_DEFAULT))))) <$> oget m o.
Proof.
  intros Hn. unfold read_section. cbv zeta. set (d := default _ _). cbn [spread_entries].
  rewrite (oget_fold_keyed (K := jstring) _ (λ j v old, if bool_decide (j = "enabled") then old else Some (toBoolean toLowerCase v (default true (oget j d)))))
    by (done || apply read_sidebar_module_get).
  cbn [oget]. case_bool_decide; [subst; by destruct (oget "enabled" o)|by destruct (oget m o)].
Qed.

(** The section of an entry, the old one when it is skipped. *)
Definition entry_section (j : jstring) (v : jval) (old : option SidebarSectionConfig) : option SidebarSectionConfig :=
  if bool_decide (j = "chat") then old else match v with JObj _ | JArr _ => Some (read_section j v) | _ => old end.

Lemma read_sidebar_section_get m j v k :
  oget k (read_sidebar_section toLowerCase m (j, v)) = if bool_decide (k = j) then entry_section j v (oget j m) else oget k m.
Proof.
  unfold read_sidebar_section, entry_section. case_bool_decide; [by case_bool_decide; subst|].
  destruct v; try (by case_bool_decide; subst); rewrite oget_obj_set; by case_bool_decide.
Qed.

Lemma add_missing_module_get m j (b : bool) k :
  oget k (add_missing_module m (j, b)) = if bool_decide (k = j) then Some (default b (oget j m)) else oget k m.
Proof.
  unfold add_missing_module, ohas. cbn [fst snd]. case_bool_decide as H.
  - case_bool_decide; [subst|done]. by destruct H as [x ->].
  - rewrite oget_obj_set. case_bool_decide; [subst|done]. destruct (oget j m); [|done]. by destruct H.
Qed.

(** A section completed with the default switches. *)
Lemma add_missing_get j d x m : oget j SIDEBAR_MODULES_DEFAULT = Some d →
  oget m (fold_left add_missing_module d x) = match oget m d with Some b => Some (default b (oget m x)) | None => oget m x end.
Proof.
  intros Hd. apply (oget_fold_keyed add_missing_module (λ _ b old, Some (default b old))); [apply add_missing_module_get|].
  assert (Forall (λ kd, NoDup (okeys kd.2)) SIDEBAR_MODULES_DEFAULT) as H by (by apply (bool_decide_unpack _); vm_compute).
  rewrite Forall_forall in H. by apply (H (j, d)), oget_Some_elem_of.
Qed.

Lemma add_missing_section_get m j d k :
  oget k (add_missing_section m (j, d)) =
  if bool_decide (k = j) then Some (match oget j m with Some s => fold_left add_missing_module d s | None => d end) else oget k m.
Proof. unfold add_missing_section. cbn [fst snd]. destruct (oget j m); by rewrite oget_obj_set. Qed.

Lemma defaults_NoDup : NoDup (okeys SIDEBAR_MODULES_DEFAULT).
Proof. by apply (bool_decide_unpack _); vm_compute. Qed.

(** A section of the settings in terms of the stored text. *)
Lemma settings_section text o s : JSON_parse text = Some (JObj o) → truthy (trim text) = true →
  oget s (parseSidebarModulesAdmin toLowerCase (Some text)) =
  let read := v ← oget s o; entry_section s v None in
  match oget s SIDEBAR_MODULES_DEFAULT with
  | Some d => Some (match read with Some x => fold_left add_missing_module d x | None => d end)
  | None => read
  end.
Proof.
  intros Hp Hb. unfold parseSidebarModulesAdmin. unfold otruthy. cbn [fmap option_fmap option_map default from_option id]. rewrite Hb. cbn [negb].
  rewrite Hp. cbn [mbind option_bind object_entries is_nullish spread_entries].
  etransitivity.
  { apply (oget_fold_keyed (K := jstring) (V := SidebarSectionConfig) (W := SidebarSectionConfig) add_missing_section
      (λ j d old, Some (match old with Some x => fold_left add_missing_module d x | None => d end)));
      [apply add_missing_section_get|apply defaults_NoDup]. }
  assert (oget s (fold_left (read_sidebar_section toLowerCase) o []) = v ← oget s o; entry_section s v None) as ->; [|done].
  apply (oget_fold_keyed (W := SidebarSectionConfig) (read_sidebar_section toLowerCase) entry_section);
    [apply read_sidebar_section_get|by eapply JSON_parse_keys].
Qed.

Lemma settings_switch text o s d sec m v :
  JSON_parse text = Some (JObj o) → truthy (trim text) = true → oget s SIDEBAR_MODULES_DEFAULT = Some d → s ≠ "chat" → m ≠ "enabled" →
  oget s o = Some (JObj sec) → NoDup (okeys sec) → oget m sec = Some v →
  switch s m (parseSidebarModulesAdmin toLowerCase (Some text)) = Some (toBoolean toLowerCase v (default true (oget m d))).
Proof.
  intros Hp Hb Hd Hchat Hm Hs Hn Hv. unfold switch. rewrite (settings_section text o s Hp Hb), Hs, Hd. cbn [mbind option_bind]. unfold entry_section. rewrite bool_decide_eq_false_2 by done. cbv zeta.
  cbn [mbind option_bind].
  rewrite (add_missing_get s d) by done.
  rewrite read_section_get by done. rewrite bool_decide_eq_false_2, Hv, Hd by done. cbn. by destruct (oget m d).
Qed.

(** The form is opened with the switches that were saved. *)
Lemma settings_read c s m : sidebar_ok c → switch s m (parseSidebarModulesAdmin toLowerCase (Some (serializeSidebarModulesAdmin c))) = switch s m c.
Proof.
  intros Hc. pose proof (sidebar_json_ok c Hc) as Hj. unfold switch.
  rewrite (settings_section _ (map (λ kv, (kv.1, section_json kv.2)) c)) by (by apply stringify_reads || by apply stringify_not_blank).
  cbv zeta. rewrite oget_mapped.
  assert (∀ sec, oget s c = Some sec → s ≠ "chat" ∧ oget m (read_section s (section_json sec)) = oget m sec) as Hread.
  { intros sec Es. split; [intros ->; rewrite (so_chat c Hc) in Es; done|].
    destruct (so_sections c Hc s sec Es) as (Hn & _ & _ & b & Hb). unfold section_json. rewrite read_section_get by by rewrite okeys_mapped.
    cbn [member]. rewrite oget_mapped. case_bool_decide; [subst; by rewrite Hb|]. by destruct (oget m sec). }
  destruct (oget s c) as [sec|] eqn:Es; cbn [fmap option_fmap option_map].
  - destruct (Hread sec eq_refl) as [Hchat E]. cbn [mbind option_bind]. unfold entry_section. rewrite bool_decide_eq_false_2 by done. cbn [section_json]. fold (section_json sec).
    destruct (oget s SIDEBAR_MODULES_DEFAULT) as [d|] eqn:Ed; [|done]. cbn [mbind option_bind].
    rewrite (add_missing_get s d) by done.
    rewrite E. destruct (oget m d) as [b|] eqn:Em; [|done].
    destruct (so_defaults c Hc s d Ed) as (sec' & Es' & Hm). rewrite Es in Es'. injection Es' as <-. destruct (Hm m ltac:(eauto)) as [x ->]. done.
  - destruct (oget s SIDEBAR_MODULES_DEFAULT) as [d|] eqn:Ed; [|done].
    destruct (so_defaults c Hc s d Ed) as (sec' & Es' & _). congruence.
Qed.

(** *** The sidebar *)

Definition old_or (v : jval) (old : option jval) : option jval := match old with None | Some JUndefined => Some v | _ => old end.

Lemma add_undefined_get m j v k : oget k (add_undefined m (j, v)) = if bool_decide (k = j) then old_or v (oget j m) else oget k m.
Proof.
  unfold add_undefined, old_or. cbn [fst snd]. case_bool_decide as H; [subst|].
  - destruct (oget j m) as [[]|] eqn:E; rewrite ?oget_obj_set, ?bool_decide_eq_true_2, ?E by done; done.
  - destruct (oget j m) as [[]|] eqn:E; rewrite ?oget_obj_set, ?bool_decide_eq_false_2 by done; done.
Qed.

(** A section merged with its default. *)
Definition merged (d : list (jstring * jval)) (e : jval) : list (jstring * jval) :=
  if to_boolean e then fold_left add_undefined d (obj_spread (obj_spread [] d) (spread_entries e)) else d.

Lemma merge_section_get m j d k :
  oget k (merge_section m (j, d)) = if bool_decide (k = j) then Some (JObj (merged d (default JUndefined (oget j m)))) else oget k m.
Proof. unfold merge_section. by rewrite oget_obj_set. Qed.

Lemma sidebar_defaults_NoDup :
  NoDup (okeys DEFAULT_SIDEBAR_MODULES) ∧ Forall (λ kd, NoDup (okeys kd.2) ∧ keys_ordered (okeys kd.2) = true) DEFAULT_SIDEBAR_MODULES.
Proof.
  split; [by apply (bool_decide_unpack _); vm_compute|]. repeat constructor; by apply (bool_decide_unpack _); vm_compute.
Qed.

(** A property of a merged section is that of the setting, if it has one. *)
Lemma merged_get s d o m : oget s DEFAULT_SIDEBAR_MODULES = Some d → NoDup (okeys o) →
  member m (JObj (merged d (JObj o))) = match member m (JObj o) with JUndefined => member m (JObj d) | v => v end.
Proof.
  intros Hd Hn. assert (NoDup (okeys d) ∧ keys_ordered (okeys d) = true) as [Hnd Hod].
  { pose proof (proj2 sidebar_defaults_NoDup) as H. rewrite Forall_forall in H. by apply (H (s, d)), oget_Some_elem_of. }
  unfold merged. cbn [to_boolean spread_entries member].
  rewrite (oget_fold_keyed add_undefined (λ _, old_or)) by (done || apply add_undefined_get).
  rewrite oget_obj_spread, oget_reverse, obj_spread_copy by done.
  by destruct (oget m o) as [[]|], (oget m d) as [[]|].
Qed.

(** A section of the configuration of the sidebar. *)
Lemma sidebar_section text o s d : JSON_parse text = Some (JObj o) → truthy (trim text) = true →
  oget s DEFAULT_SIDEBAR_MODULES = Some d →
  member s (parseSidebarConfig (Some text)) = JObj (merged d (member s (JObj o))).
Proof.
  intros Hp Hb Hd. unfold parseSidebarConfig, otruthy. cbn [fmap option_fmap option_map default from_option id]. rewrite Hb. cbn [negb]. rewrite Hp.
  unfold mergeWithDefaultSidebarModules. cbn [spread_entries member].
  rewrite (oget_fold_keyed merge_section (λ j d old, Some (JObj (merged d (default JUndefined old)))))
    by (apply sidebar_defaults_NoDup || apply merge_section_get).
  rewrite Hd, oget_obj_spread, oget_reverse by by eapply JSON_parse_keys. by destruct (oget s o).
Qed.

(** The pages of the sidebar are governed by switches of the defaults. *)
Definition governs (sm : jstring * jstring) : bool :=
  let '(s, m) := sm in
  match oget s DEFAULT_SIDEBAR_MODULES, oget s SIDEBAR_MODULES_DEFAULT with
  | Some d, Some d' => is_bool true (member m (JObj d)) && bool_decide (oget m d' = Some true) && is_bool true (member "enabled" (JObj d))
      && bool_decide (oget "enabled" d' = Some true) && bool_decide (m ≠ "enabled") && bool_decide (s ≠ "chat")
  | _, _ => false
  end.

Lemma is_bool_spec b v : is_bool b v = true ↔ v = JBool b.
Proof. split; [destruct v as [| |c| | | |]; try done; by destruct b, c|intros ->; by destruct b]. Qed.

Lemma page_governed url s m : oget url URL_TO_CONFIG_MAP = Some (s, m) →
  ∃ d d', oget s DEFAULT_SIDEBAR_MODULES = Some d ∧ oget s SIDEBAR_MODULES_DEFAULT = Some d' ∧
    member m (JObj d) = JBool true ∧ oget m d' = Some true ∧ member "enabled" (JObj d) = JBool true ∧ oget "enabled" d' = Some true ∧
    m ≠ "enabled" ∧ s ≠ "chat".
Proof.
  intros H%oget_Some_elem_of. assert (Forall (λ kv, governs kv.2 = true) URL_TO_CONFIG_MAP) as Hall by (by apply (bool_decide_unpack _); vm_compute).
  rewrite Forall_forall in Hall. apply Hall in H. cbn [snd governs] in H. destruct (oget s DEFAULT_SIDEBAR_MODULES) as [d|]; [|done].
  destruct (oget s SIDEBAR_MODULES_DEFAULT) as [d'|]; [|done]. rewrite !andb_true_iff, !is_bool_spec, !bool_decide_eq_true in H.
  destruct H as [[[[[H1 H2] H3] H4] H5] H6]. by exists d, d'.
Qed.

(** C8: What the administrator saves in the form of the sidebar is what the form shows
    again; a page is in the sidebar, and open, exactly when its section and its module
    are switched on. *)
Theorem sidebar_follows_settings c : sidebar_ok c →
  let text := serializeSidebarModulesAdmin c in
  (∀ s m, switch s m (parseSidebarModulesAdmin toLowerCase (Some text)) = switch s m c) ∧
  ∀ url s m, oget url URL_TO_CONFIG_MAP = Some (s, m) →
    let on := bool_decide (switch s "enabled" c = Some true) && bool_decide (switch s m c = Some true) in
    isModuleEnabled url (parseSidebarConfig (Some text)) JNull = on ∧
    ∀ stored, member "SidebarModulesAdmin" (getCachedStatus stored) = JStr text → isSidebarModuleEnabled stored s m = on.
Proof.
  intros Hc text. split; [intros; by apply settings_read|]. intros url s m Hurl.
  pose proof (sidebar_json_ok c Hc) as Hj. pose proof (stringify_reads None _ Hj) as Hp. pose proof (stringify_not_blank None _ Hj) as Hb.
  pose proof (stringify_nonempty None _ Hj) as Hne. change (default [] (JSON_stringify None (sidebar_json c))) with text in Hp, Hb, Hne. clearbody text.
  destruct (page_governed url s m Hurl) as (d & d' & Hd & Hd' & _ & Hm & _ & He & _ & _).
  destruct (so_defaults c Hc s d' Hd') as (sec & Es & Hsec). destruct (so_sections c Hc s sec Es) as (Hn & _).
  destruct (Hsec m ltac:(by rewrite Hm)) as [b Hb']. destruct (Hsec "enabled" ltac:(by rewrite He)) as [e He'].
  assert (member s (sidebar_json c) = section_json sec) as Ejson by (unfold sidebar_json; cbn [member]; by rewrite oget_mapped, Es).
  assert (∀ k x, oget k sec = Some x → member k (section_json sec) = JBool x) as Hval.
  { intros k x Hk. unfold section_json. cbn [member]. by rewrite oget_mapped, Hk. }
  assert (bool_decide (switch s "enabled" c = Some true) && bool_decide (switch s m c = Some true) = e && b) as ->.
  { unfold switch. rewrite Es. cbn [mbind option_bind]. rewrite Hb', He'. by destruct e, b. }
  split.
  - unfold isModuleEnabled. rewrite Hurl. unfold adminAllowed. rewrite (sidebar_section text _ s d Hp Hb Hd).
    fold (sidebar_json c). rewrite Ejson. unfold section_json at 1 2 3.
    rewrite !(merged_get s d) by (done || by rewrite okeys_mapped). fold (section_json sec).
    rewrite (Hval _ _ Hb'), (Hval _ _ He'). by destruct e, b.
  - intros stored Hst. unfold isSidebarModuleEnabled. destruct (to_boolean (getCachedStatus stored)) eqn:E.
    + cbn [negb]. rewrite Hst. cbn [to_boolean to_js_string]. apply truthy_spec in Hne as ->. rewrite Hb. cbn [negb orb]. rewrite Hp.
      cbv zeta. rewrite Ejson. cbn [section_json to_boolean negb]. fold (section_json sec). rewrite (Hval _ _ Hb'), (Hval _ _ He'). by destruct e, b.
    + by destruct (getCachedStatus stored).
Qed.

(** A stored switch that is no boolean, such as 1, hides its page in the sidebar,
    although the page is open and the form shows the switch as it reads the value. *)
Lemma untyped_switch_hidden text o sec url s m v : JSON_parse text = Some (JObj o) →
  oget url URL_TO_CONFIG_MAP = Some (s, m) → oget s o = Some (JObj sec) → NoDup (okeys sec) → oget m sec = Some v → v ≠ JUndefined → (∀ b, v ≠ JBool b) →
  (∀ user, isModuleEnabled url (parseSidebarConfig (Some text)) user = false) ∧
  switch s m (parseSidebarModulesAdmin toLowerCase (Some text)) = Some (toBoolean toLowerCase v true) ∧
  (oget "enabled" sec ≠ Some (JBool false) →
    ∀ stored, member "SidebarModulesAdmin" (getCachedStatus stored) = JStr text → isSidebarModuleEnabled stored s m = true).
Proof.
  intros Hp Hurl Hs Hn Hv Hu Ht. assert (truthy (trim text) = true) as Hb by (apply truthy_spec; intros E; by rewrite JSON_parse_blank in Hp).
  destruct (page_governed url s m Hurl) as (d & d' & Hd & Hd' & _ & Hm & _ & _ & Hme & Hchat).
  assert (∀ b, is_bool b v = false) as Hnb by (intros b; destruct (is_bool b v) eqn:E; [|done]; apply is_bool_spec in E as ->; by destruct (Ht b)).
  split_and!.
  - intros user. unfold isModuleEnabled. rewrite Hurl. assert (adminAllowed s m (parseSidebarConfig (Some text)) = false) as ->; [|done].
    unfold adminAllowed. rewrite (sidebar_section text o s d Hp Hb Hd). cbn [member]. rewrite Hs. cbn [default from_option id].
    fold (member m (JObj (merged d (JObj sec)))). rewrite (merged_get s d) by done. cbn [member]. rewrite Hv. cbn [default from_option id].
    destruct v; try done; by rewrite Hnb, andb_false_r.
  - rewrite (settings_switch text o s d' sec m v) by done. by rewrite Hm.
  - intros He stored Hst. unfold isSidebarModuleEnabled. destruct (to_boolean (getCachedStatus stored)); [|done]. cbn [negb]. rewrite Hst.
    cbn [to_boolean to_js_string]. destruct (truthy text); [|done]. rewrite Hb. cbn [negb orb]. rewrite Hp. cbv zeta. cbn [member]. rewrite Hs.
    cbn [default from_option id to_boolean negb member]. rewrite Hv. cbn [default from_option id]. rewrite Hnb. cbn [negb]. rewrite andb_true_r.
    destruct (is_bool false _) eqn:E; [|done]. apply is_bool_spec in E. destruct (oget "enabled" sec) as [w|]; cbn in E; congruence.
Qed.

(** ** The card of the user *)

Definition sections_are_objects (config : list (jstring * jval)) : Prop := ∀ s v, oget s config = Some v → ∃ o, v = JObj o ∧ NoDup (okeys o).

(** A switch that is moved is as it was moved, and all others are as before. *)
Lemma toggle_switch s k b config s' k' : NoDup (okeys config) → sections_are_objects config →
  switch_on s' k' (toggle s k b config) = if bool_decide (s' = s ∧ k' = k) then b else switch_on s' k' config.
Proof.
  intros Hn Ho. unfold switch_on, toggle. rewrite oget_obj_set, oget_obj_spread, oget_reverse by done. cbn [oget].
  assert (match oget s' config with Some v => Some v | None => None end = oget s' config) as -> by by destruct (oget s' config).
  case_bool_decide as Hs; [subst|by rewrite bool_decide_eq_false_2 by naive_solver].
  cbn [default from_option id]. cbn [member].
  rewrite oget_obj_spread. change (reverse [(k, JBool b)]) with [(k, JBool b)]. cbn [oget].
  case_bool_decide as Hk; [subst; rewrite bool_decide_eq_true_2 by done; by destruct b|]. rewrite bool_decide_eq_false_2 by naive_solver.
  destruct (oget s config) as [v|] eqn:E; cbn [default from_option id]; [|done]. destruct (Ho s v E) as (o & -> & Hno). cbn [spread_entries member].
  rewrite oget_obj_spread, oget_reverse by done. by destruct (oget k' o).
Qed.

Lemma user_allowed_switches s m config : user_allowed s m (JObj config) = switch_on s "enabled" config && switch_on s m config.
Proof.
  unfold user_allowed, switch_on. cbn [to_boolean negb member]. set (v := default JUndefined (oget s config)). cbv zeta.
  destruct (to_boolean v) eqn:E; cbn [negb]; [by destruct (is_bool false (member "enabled" v))|].
  by destruct v as [| | | | | |].
Qed.

(** C20: What the user saves in the card is what the card shows again, and hides exactly
    the pages whose section or module it shows as off, of those the administrator
    allows; moving a switch changes that switch alone. *)
Theorem user_switches config : json_ok (JObj config) →
  let text := handleSave config in
  (oget "chat" config = None → loadConfig true (JStr text) = Some config) ∧
  (∀ url admin, isModuleEnabled url admin (parseUserSidebarConfig (Some text)) =
    isModuleEnabled url admin JNull &&
    match oget url URL_TO_CONFIG_MAP with Some (s, m) => switch_on s "enabled" config && switch_on s m config | None => true end) ∧
  (sections_are_objects config → ∀ s k b s' k',
    switch_on s' k' (toggle s k b config) = if bool_decide (s' = s ∧ k' = k) then b else switch_on s' k' config).
Proof.
  intros Hj text. pose proof (stringify_reads None _ Hj) as Hp. pose proof (stringify_not_blank None _ Hj) as Hb.
  pose proof (stringify_nonempty None _ Hj) as Hne. change (default [] (JSON_stringify None (JObj config))) with text in Hp, Hb, Hne. clearbody text.
  apply json_ok_obj in Hj as (Hn & Ho & _). split_and!.
  - intros Hc. unfold loadConfig. cbn [to_boolean andb]. apply truthy_spec in Hne as ->. rewrite Hp. cbn [mbind option_bind object_entries is_nullish spread_entries].
    assert (filter (λ kv, kv.1 ≠ ("chat" : jstring)) config = config) as ->; [|by rewrite obj_of_entries_ordered].
    apply filter_all, Forall_forall. intros [k v] Hin Ek. cbn in Ek. subst. apply oget_None in Hc. apply Hc. apply list_elem_of_fmap. by exists ("chat" : jstring, v).
  - intros url admin. unfold parseUserSidebarConfig, otruthy. cbn [fmap option_fmap option_map default from_option id]. rewrite Hb, Hp. cbn [negb].
    unfold isModuleEnabled. destruct (oget url URL_TO_CONFIG_MAP) as [[s m]|]; [|done]. rewrite user_allowed_switches.
    by destruct (adminAllowed s m admin).
  - intros Hs s k b s' k'. by apply toggle_switch.
Qed.

(** ** The entries of the sidebar *)

Definition entries_of (groups : list NavGroup) : list NavItem := concat (map ng_items groups).

Lemma elem_of_nav_entries item groups : item ∈ entries_of groups ↔ ∃ g, g ∈ groups ∧ item ∈ ng_items g.
Proof.
  unfold entries_of. induction groups as [|g gs IH]; cbn [map concat].
  - split; [by intros ?%elem_of_nil|intros (g & ?%elem_of_nil & _); done].
  - rewrite elem_of_app, IH. setoid_rewrite elem_of_cons. naive_solver.
Qed.

(** The pages that decide whether a link is shown. *)
Definition pages (item : NavItem) : list jstring :=
  match ni_target item with nav_url url configUrls => default [url] configUrls | nav_items items => map snd items end.

(** Every entry of the navigation is a link. *)
Definition is_link (item : NavItem) : bool := match ni_target item with nav_url url _ => truthy url | nav_items _ => false end.

Lemma elem_of_filteredNavGroups a u groups g' : g' ∈ filteredNavGroups a u groups ↔
  ng_items g' ≠ [] ∧ ∃ g, g ∈ groups ∧ g' = with_items (filterNavItems a u (ng_items g)) g.
Proof.
  unfold filteredNavGroups. rewrite list_elem_of_filter, list_elem_of_In, in_map_iff. setoid_rewrite <- list_elem_of_In. naive_solver.
Qed.

Lemma elem_of_rootNavGroups groups role g' : g' ∈ rootNavGroups groups role ↔
  ng_items g' ≠ [] ∧ ∃ g, g ∈ groups ∧ role_allows (default GUEST role) (ng_requiredRole g) = true ∧
    g' = with_items (filter (λ item, role_allows (default GUEST role) (ni_requiredRole item) = true) (ng_items g)) g.
Proof.
  unfold rootNavGroups. cbv zeta. rewrite list_elem_of_filter, list_elem_of_In, in_map_iff. setoid_rewrite <- list_elem_of_In.
  setoid_rewrite list_elem_of_filter. naive_solver.
Qed.

Lemma visible_link a u item : is_link item = true → isNavItemVisible a u item = existsb (λ url, isModuleEnabled url a u) (pages item).
Proof. unfold is_link, isNavItemVisible, pages. destruct (ni_target item); [by intros ->|done]. Qed.

Lemma filter_links a u items : forallb is_link items = true → filterNavItems a u items = filter (λ item, isNavItemVisible a u item = true) items.
Proof.
  intros H. unfold filterNavItems. assert (map (filter_sub_items a u) items = items) as ->; [|done].
  rewrite forallb_forall in H. rewrite <- (map_id items) at 2. apply map_ext_in. intros item Hin. apply H in Hin.
  unfold is_link, filter_sub_items in *. by destruct (ni_target item).
Qed.

(** The entries of the sidebar of a user are exactly those whose role, and that of
    their group, the user has and one of whose pages the settings leave; without a
    setting of the user there are no fewer. *)
Lemma root_view_entries status user item :
  (item ∈ entries_of (root_view t status user) ↔
    ∃ g, g ∈ getSidebarData t ∧ item ∈ ng_items g ∧
      role_allows (default GUEST (user ≫= su_role)) (ng_requiredRole g) = true ∧
      role_allows (default GUEST (user ≫= su_role)) (ni_requiredRole item) = true ∧
      ∃ url, url ∈ pages item ∧ useIsSidebarModuleVisible status user url = true) ∧
  (item ∈ entries_of (root_view t status user) →
    item ∈ entries_of (rootNavGroups (filteredNavGroups (parseSidebarConfig status) JNull (getSidebarData t)) (user ≫= su_role))).
Proof.
  assert (∀ a u role, item ∈ entries_of (rootNavGroups (filteredNavGroups a u (getSidebarData t)) role) ↔
    ∃ g, g ∈ getSidebarData t ∧ item ∈ ng_items g ∧ role_allows (default GUEST role) (ng_requiredRole g) = true ∧
      role_allows (default GUEST role) (ni_requiredRole item) = true ∧ ∃ url, url ∈ pages item ∧ isModuleEnabled url a u = true) as Hin.
  { intros a u role. rewrite elem_of_nav_entries.
    assert (Forall (λ g, forallb is_link (ng_items g) = true) (getSidebarData t)) as Hlinks by (repeat constructor).
    assert (∀ g, g ∈ getSidebarData t → filterNavItems a u (ng_items g) = filter (λ item, isNavItemVisible a u item = true) (ng_items g)) as Hf.
    { intros g Hg. rewrite Forall_forall in Hlinks. by apply filter_links, Hlinks. }
    assert (∀ g, g ∈ getSidebarData t → item ∈ ng_items g →
      isNavItemVisible a u item = true ↔ ∃ url, url ∈ pages item ∧ isModuleEnabled url a u = true) as Hv.
    { intros g Hg Hi. rewrite Forall_forall in Hlinks. pose proof (Hlinks g Hg) as Hl. rewrite forallb_forall in Hl.
      rewrite visible_link by by apply Hl, list_elem_of_In. rewrite existsb_exists. by setoid_rewrite list_elem_of_In. }
    split.
    - intros (g2 & Hg2 & Hi). apply elem_of_rootNavGroups in Hg2 as (_ & g1 & Hg1 & Hr & ->).
      apply elem_of_filteredNavGroups in Hg1 as (_ & g & Hg & ->). cbn [ng_items with_items ng_requiredRole] in Hi, Hr.
      apply list_elem_of_filter in Hi as [Hri Hi]. rewrite Hf in Hi by done. apply list_elem_of_filter in Hi as [Hvis Hi].
      exists g. split_and!; [done..|]. by apply (Hv g).
    - intros (g & Hg & Hi & Hr & Hri & Hvis). apply (Hv g Hg Hi) in Hvis.
      assert (item ∈ filterNavItems a u (ng_items g)) as Hi1 by (rewrite Hf by done; by apply list_elem_of_filter).
      set (g1 := with_items (filterNavItems a u (ng_items g)) g).
      set (g2 := with_items (filter (λ item, role_allows (default GUEST role) (ni_requiredRole item) = true) (ng_items g1)) g1).
      assert (item ∈ ng_items g2) as Hi2 by by apply list_elem_of_filter.
      assert (∀ (l : list NavItem) x, x ∈ l → l ≠ []) as Hne by (intros l x Hx ->; by apply elem_of_nil in Hx).
      exists g2. split; [|done]. apply elem_of_rootNavGroups. split; [by eapply Hne|]. exists g1. split_and!; [|done..].
      apply elem_of_filteredNavGroups. split; [by eapply Hne|]. by exists g. }
  unfold root_view, useSidebarConfig, useIsSidebarModuleVisible. rewrite !Hin. split; [done|].
  intros (g & Hg & Hi & Hr & Hri & url & Hurl & Hen). exists g. split_and!; [done..|]. exists url. split; [done|].
  revert Hen. unfold isModuleEnabled. destruct (oget url URL_TO_CONFIG_MAP) as [[s m]|]; [|done]. by destruct (adminAllowed s m _).
Qed.
End saved.

(** ** Examples *)

Definition sample_header : HeaderNavModules := HEADER_NAV_DEFAULT ++ [("extra" : jstring, NavFlag false)].

Definition sample_values : HeaderNavFormValues :=
  {| f_home := true; f_console := false; f_referralProgram := true; f_pricingEnabled := true; f_pricingRequireAuth := true;
     f_rankingsEnabled := false; f_rankingsRequireAuth := false; f_docs := true; f_about := false |}.

Lemma sample_header_ok : header_ok sample_header.
Proof.
  constructor; [by apply (bool_decide_unpack _); vm_compute|vm_compute; reflexivity| | |].
  - repeat constructor.
  - intros k v H%oget_Some_elem_of.
    repeat (apply elem_of_cons in H as [[= -> ->]|H]; [first [by left|by right|by split]|]). by apply elem_of_nil in H.
  - repeat constructor; eexists; reflexivity.
Qed.

Definition sample_status : jval := JObj [("HeaderNavModules", JStr (serializeHeaderNavModules (header_payload sample_header sample_values)))].

Example header_form_saved_witness :
  let text := serializeHeaderNavModules (header_payload sample_header sample_values) in
  toFormValues (NavSettings.parseHeaderNavModules id (Some text)) = sample_values ∧
  useTopNavLinks id id sample_status false true = chosen_links id sample_values false true.
Proof.
  destruct (header_form_saved id id sample_header sample_values sample_header_ok) as [H1 H2]. split; [exact H1|].
  destruct (H2 sample_status ltac:(reflexivity)) as [H3 _]. apply H3.
Defined.

Definition sample_sidebar : SidebarModulesAdminConfig :=
  set_switch "console" "detail" false SIDEBAR_MODULES_DEFAULT ++ [("extra" : jstring, [("enabled" : jstring, false); ("page" : jstring, true)])].

(** The sections have the default switches. *)
Lemma sidebar_ok_closed c :
  bool_decide (NoDup (okeys c)) && keys_ordered (okeys c) && bool_decide (oget "chat" c = None) &&
  forallb (λ k, forallb (λ u, u <? 65536)%N k) (okeys c) &&
  forallb (λ kv, bool_decide (NoDup (okeys kv.2)) && keys_ordered (okeys kv.2) && forallb (λ k, forallb (λ u, u <? 65536)%N k) (okeys kv.2)
                 && ohas "enabled" kv.2) c &&
  forallb (λ kd, match oget kd.1 c with Some s => forallb (λ m, ohas m s) (okeys kd.2) | None => false end) SIDEBAR_MODULES_DEFAULT = true →
  sidebar_ok c.
Proof.
  rewrite !andb_true_iff, !bool_decide_eq_true. intros (((((H1 & H2) & H3) & H4) & H5) & H6).
  assert (∀ l, forallb (λ k, forallb (λ u, u <? 65536)%N k) l = true → Forall valid_units l) as Hu.
  { intros l Hl. rewrite forallb_forall in Hl. apply Forall_forall. intros k Hk. by apply valid_units_b, Hl, list_elem_of_In. }
  rewrite forallb_forall in H5, H6. constructor; [done|done|by apply Hu| |done|].
  - intros k s Hs%oget_Some_elem_of. apply list_elem_of_In, H5 in Hs. rewrite !andb_true_iff, !bool_decide_eq_true in Hs.
    destruct Hs as (((Hs1 & Hs2) & Hs3) & Hs4). split_and!; [done|done|by apply Hu|]. unfold ohas in Hs4. by apply bool_decide_eq_true in Hs4.
  - intros k d Hd%oget_Some_elem_of. apply list_elem_of_In, H6 in Hd. cbn [fst snd] in Hd. destruct (oget k c) as [s|] eqn:Es; [|done].
    exists s. split; [exact Es|]. intros m Hm%elem_of_okeys. rewrite forallb_forall in Hd. apply list_elem_of_In, Hd in Hm.
    unfold ohas in Hm. by apply bool_decide_eq_true in Hm.
Qed.

Example sidebar_follows_settings_witness :
  let text := serializeSidebarModulesAdmin sample_sidebar in
  isModuleEnabled "/dashboard" (parseSidebarConfig (Some text)) JNull = false ∧ isModuleEnabled "/keys" (parseSidebarConfig (Some text)) JNull = true.
Proof.
  destruct (sidebar_follows_settings id sample_sidebar) as [_ H]; [apply sidebar_ok_closed; vm_compute; reflexivity|].
  split; [rewrite (proj1 (H "/dashboard" "console" "detail" eq_refl))|rewrite (proj1 (H "/keys" "console" "token" eq_refl))]; vm_compute; reflexivity.
Defined.

Definition sample_section : list (jstring * jval) := [("enabled", JBool true); ("detail", JNum (of_Z 1))].
Definition sample_stored : jstring := default [] (JSON_stringify None (JObj [("console", JObj sample_section)])).

Example untyped_switch_hidden_witness :
  (∀ user, isModuleEnabled "/dashboard" (parseSidebarConfig (Some sample_stored)) user = false) ∧
  switch "console" "detail" (parseSidebarModulesAdmin id (Some sample_stored)) = Some true.
Proof.
  destruct (untyped_switch_hidden id sample_stored [("console" : jstring, JObj sample_section)] sample_section "/dashboard" "console" "detail" (JNum (of_Z 1)))
    as (H1 & H2 & _); [vm_compute; reflexivity|reflexivity|reflexivity|by apply (bool_decide_unpack _); vm_compute|reflexivity|discriminate|discriminate|].
  split; [exact H1|exact H2].
Defined.

Example user_switches_witness :
  loadConfig true (JStr (handleSave (toggleModule "console" "token" false card_defaults))) = Some (toggleModule "console" "token" false card_defaults).
Proof.
  destruct (user_switches (toggleModule "console" "token" false card_defaults)) as [H _]; [apply json_ok_b_spec; vm_compute; reflexivity|].
  apply H. reflexivity.
Defined.

Example root_view_entries_witness :
  let user := Some {| su_role := Some USER; su_sidebar_settings := None; su_sidebar_modules := None |} in
  link id "Wallet" "/wallet" ∈ entries_of (root_view id None user).
Proof.
  intros user. apply (proj2 (proj1 (root_view_entries id None user (link id "Wallet" "/wallet")))).
  exists {| ng_id := "personal"; ng_title := "Personal"; ng_requiredRole := None; ng_items := [link id "Wallet" "/wallet"; link id "Profile" "/profile"] |}.
  split_and!; [unfold getSidebarData; right; left|left|reflexivity|reflexivity|]. exists "/wallet". split; [left|vm_compute; reflexivity].
Defined.
