(* ===== verification/TableUrlState.v ===== *)
(** * TableUrlState: the state of the tables, kept in the address

    [hooks/use-table-url-state.ts], the tables that use it and the schemas of the search
    parameters of their routes ([routes/_authenticated]).  The search parameters are an
    object.  A navigation gives a new one to the router, which writes it in the address,
    reads it again, validates it with the schema of the route and gives the table what
    the schema answers ([read_search]); a schema that fails shows the error of the route
    instead ([None]).  The schemas are built with a third-party library, [Zod], and the
    router is one, [Router]; both are parameters, with what is used of them as laws.  The
    effect of the hook that follows a change of the parameters is [after_effect].

    What the tables promise is proved for any table and route whose columns keep their
    values as [RouteColumn] says, and every table with the schema of its route is one
    ([route_tables], [tables_ok]).  The guards of the routes ([beforeLoad]), which
    redirect, are not modelled: the table of the usage log is the one of the common logs,
    the other sections also remove the parameter [type], for which they have no filter. *)
From Stdlib Require Import Floats.SpecFloat.
From S2P Require Import Prelude JsString JsNumber JsFloat JsRounding JsValue.

(** ** Schemas and the router *)

(** The functions of [zod] that the routes use. *)
Class Zod := {
  Schema : Type;
  (** [safeParse]: [None] when it fails. *)
  parse : Schema → jval → option jval;
  z_number : Schema;
  z_string : Schema;
  z_enum : list jstring → Schema;
  z_array : Schema → Schema;
  z_optional : Schema → Schema;
  z_catch : jval → Schema → Schema;
  z_preprocess : (jval → jval) → Schema → Schema;
  z_object : list (jstring * Schema) → Schema;
}.

Class ZodLaws (Z : Zod) : Prop := {
  parse_number v : parse z_number v = match v with JNum n => if is_finite n then Some v else None | _ => None end;
  parse_string v : parse z_string v = match v with JStr _ => Some v | _ => None end;
  parse_enum l v : parse (z_enum l) v = match v with JStr s => if has s l then Some v else None | _ => None end;
  parse_array s v : parse (z_array s) v = match v with JArr l => JArr <$> mapM (parse s) l | _ => None end;
  parse_optional s v : v ≠ JUndefined → parse (z_optional s) v = parse s v;
  (** Whatever the schema says of nothing, unless it makes a value of it. *)
  parse_optional_nothing s : default JUndefined (parse s JUndefined) = JUndefined → parse (z_optional s) JUndefined = Some JUndefined;
  parse_catch d s v : parse (z_catch d s) v = Some (default d (parse s v));
  parse_preprocess f s v : parse (z_preprocess f s) v = parse s (f v);
  (** An object is read field by field; a field that is absent may stay absent. *)
  parse_object fields o : NoDup (okeys fields) → (∀ k s, (k, s) ∈ fields → is_Some (parse s (member k (JObj o)))) →
    ∃ r, parse (z_object fields) (JObj o) = Some (JObj r) ∧ NoDup (okeys r) ∧
      ∀ k s, (k, s) ∈ fields → parse s (member k (JObj o)) = Some (member k (JObj r)) ∧ (k ∈ okeys o → k ∈ okeys r);
}.

(** A text without lone surrogates. *)
Fixpoint well_formed (s : jstring) : bool :=
  match s with
  | [] => true
  | c :: r =>
    if (55296 <=? c)%N && (c <=? 56319)%N
    then match r with d :: r => (56320 <=? d)%N && (d <=? 57343)%N && well_formed r | [] => false end
    else negb ((56320 <=? c)%N && (c <=? 57343)%N) && (c <=? 65535)%N && well_formed r
  end.

(** A value an address can hold: nothing, a number, a text or a list of texts. *)
Definition url_value (v : jval) : Prop :=
  match v with
  | JUndefined => True
  | JNum n => is_finite n = true ∧ n ≠ S754_zero true
  | JStr s => well_formed s = true
  | JArr l => Forall (λ x, match x with JStr s => well_formed s = true | _ => False end) l
  | _ => False
  end.

Definition url_valueb (v : jval) : bool :=
  match v with
  | JUndefined => true
  | JNum n => is_finite n && match n with S754_zero true => false | _ => true end
  | JStr s => well_formed s
  | JArr l => forallb (λ x, match x with JStr s => well_formed s | _ => false end) l
  | _ => false
  end.

Lemma url_valueb_true v : url_valueb v = true → url_value v.
Proof.
  destruct v as [| | |n|s|l|]; try done; cbn [url_valueb url_value].
  - intros [Hn Hz]%andb_prop. split; [done|]. by intros ->.
  - intros H. apply Forall_forall. intros x Hx%list_elem_of_In. apply forallb_forall with (x := x) in H; [|done]. by destruct x.
Qed.

(** What the router reads from the address it wrote for some parameters, and what it
    makes of these and of what the schema answers. *)
Class Router := {
  through_url : list (jstring * jval) → list (jstring * jval);
  matched_search : list (jstring * jval) → list (jstring * jval) → list (jstring * jval);
}.

Class RouterLaws (R : Router) : Prop := {
  through_url_keys o : NoDup (okeys o) → NoDup (okeys (through_url o));
  through_url_value o k : NoDup (okeys o) → url_value (member k (JObj o)) → member k (JObj (through_url o)) = member k (JObj o);
  matched_keys o r : NoDup (okeys o) → NoDup (okeys r) → NoDup (okeys (matched_search o r));
  matched_value o r k : NoDup (okeys o) → NoDup (okeys r) → k ∈ okeys r → member k (JObj (matched_search o r)) = member k (JObj r);
  matched_absent o r k : NoDup (okeys o) → NoDup (okeys r) → k ∉ okeys o → k ∉ okeys r → member k (JObj (matched_search o r)) = JUndefined;
}.

(** ** The page size in the local storage *)

(** [parseInt(s, 10)] *)
Definition parse_int (s : jstring) : num :=
  let s := trim_start s in
  let '(negative, r) := match s with
                        | c :: r => if (c =? cu "-")%N then (true, r) else if (c =? cu "+")%N then (false, r) else (false, s)
                        | [] => (false, [])
                        end in
  match (span_digits r).1 with
  | [] => nan
  | ds => let n := of_Z (Z.of_N (digits_val ds)) in if negative then SFopp n else n
  end.

(** The argument is what is stored, [None] when there is nothing or reading throws. *)
Definition getStoredPageSize (stored : option jstring) : option num :=
  let n := parse_int (default [] stored) in
  if nlt zero n then Some n else None.

(** ** The configuration of a table *)

Record FilterConfig := {
  fc_columnId : jstring;
  fc_searchKey : jstring;
  fc_string : bool; (* [type === 'string'] *)
  fc_serialize : jval → jval;
  fc_deserialize : jval → jval;
}.

Record TableConfig := {
  tc_pageKey : jstring;
  tc_pageSizeKey : jstring;
  tc_defaultPage : num;
  tc_defaultPageSize : num;
  tc_globalFilterEnabled : bool;
  tc_globalFilterKey : jstring;
  tc_trimGlobal : bool;
  tc_columnFilters : list FilterConfig;
}.

(** A filter of a column without functions of its own. *)
Definition plain_filter (columnId searchKey : jstring) (string : bool) : FilterConfig :=
  {| fc_columnId := columnId; fc_searchKey := searchKey; fc_string := string; fc_serialize := λ v, v; fc_deserialize := λ v, v |}.

(** What a table passes and the defaults of the hook. *)
Definition table (pageKey pageSizeKey globalFilterKey : jstring) (defaultPageSize : Z) (filters : list FilterConfig) : TableConfig :=
  {| tc_pageKey := pageKey; tc_pageSizeKey := pageSizeKey; tc_defaultPage := of_Z 1; tc_defaultPageSize := of_Z defaultPageSize;
     tc_globalFilterEnabled := true; tc_globalFilterKey := globalFilterKey; tc_trimGlobal := true; tc_columnFilters := filters |}.

Record ColumnFilter := { cf_id : jstring; cf_value : jval }.

Record PaginationState := { pageIndex : num; pageSize : num }.

Record TableState := {
  ts_search : list (jstring * jval);
  ts_columnFilters : list ColumnFilter;
  ts_globalFilter : option jstring;
  ts_stored : option jstring;
}.

Section table.
Context {Z : Zod} {R : Router}.
Variable cfg : TableConfig.
(** The fields of the schema of the route. *)
Variable fields : list (jstring * Schema).

(** ** What is read from the address *)

Definition coalesce (v w : jval) : jval := if is_nullish v then w else v.

(** The value is a filter: a text that is not blank, or a list that is not empty. *)
Definition accepted (c : FilterConfig) (v : jval) : bool :=
  if fc_string c then match v with JStr s => truthy (trim s) | _ => false end
  else match v with JArr (_ :: _) => true | _ => false end.

Definition read_filter (search : list (jstring * jval)) (c : FilterConfig) : option ColumnFilter :=
  let value := coalesce (fc_deserialize c (member (fc_searchKey c) (JObj search))) (if fc_string c then JStr [] else JArr []) in
  if accepted c value then Some {| cf_id := fc_columnId c; cf_value := value |} else None.

Definition initialColumnFilters (search : list (jstring * jval)) : list ColumnFilter := omap (read_filter search) (tc_columnFilters cfg).

Definition page_number (search : list (jstring * jval)) : num :=
  match member (tc_pageKey cfg) (JObj search) with JNum n => n | _ => tc_defaultPage cfg end.

Definition pagination (s : TableState) : PaginationState :=
  {| pageIndex := nmax zero (nsub (page_number (ts_search s)) (of_Z 1));
     pageSize := match member (tc_pageSizeKey cfg) (JObj (ts_search s)) with
                 | JNum n => n
                 | _ => default (tc_defaultPageSize cfg) (getStoredPageSize (ts_stored s))
                 end |}.

Definition initial_globalFilter (search : list (jstring * jval)) : option jstring :=
  if tc_globalFilterEnabled cfg then Some (match member (tc_globalFilterKey cfg) (JObj search) with JStr raw => raw | _ => [] end) else None.

(** *** What the route gives *)

(** [route.useSearch()] after a navigation to some parameters. *)
Definition read_search (raw : list (jstring * jval)) : option (list (jstring * jval)) :=
  let read := through_url raw in
  match parse (z_object fields) (JObj read) with
  | Some (JObj r) => Some (matched_search read r)
  | _ => None
  end.

(** The first render. *)
Definition mount (raw : list (jstring * jval)) (stored : option jstring) : option TableState :=
  search ← read_search raw;
  Some {| ts_search := search; ts_columnFilters := initialColumnFilters search; ts_globalFilter := initial_globalFilter search;
          ts_stored := stored |}.

(** ** Changes *)

Definition with_search (search : list (jstring * jval)) (s : TableState) : TableState :=
  {| ts_search := search; ts_columnFilters := ts_columnFilters s; ts_globalFilter := ts_globalFilter s; ts_stored := ts_stored s |}.

(** [navigate({ search: (prev) => ({ ...prev, ...patch }) })] *)
Definition navigate (patch : list (jstring * jval)) (s : TableState) : option TableState :=
  search ← read_search (obj_spread (obj_spread [] (ts_search s)) patch);
  Some (with_search search s).

Definition setColumnFilters (filters : list ColumnFilter) (s : TableState) : TableState :=
  {| ts_search := ts_search s; ts_columnFilters := filters; ts_globalFilter := ts_globalFilter s; ts_stored := ts_stored s |}.

(** The effect that runs when the search parameters have changed. *)
Definition after_effect (s : TableState) : TableState := setColumnFilters (initialColumnFilters (ts_search s)) s.

(** [next] is what the updater of the table library gives. *)
Definition onPaginationChange (next : PaginationState) (s : TableState) : option TableState :=
  let nextPage := nadd (pageIndex next) (of_Z 1) in
  let nextPageSize := pageSize next in
  let s := if neqb nextPageSize (pageSize (pagination s)) then s
           else {| ts_search := ts_search s; ts_columnFilters := ts_columnFilters s; ts_globalFilter := ts_globalFilter s;
                   ts_stored := Some (Number_to_string nextPageSize) |} in
  navigate [(tc_pageKey cfg, if nle nextPage (tc_defaultPage cfg) then JUndefined else JNum nextPage);
            (tc_pageSizeKey cfg, JNum nextPageSize)] s.

(** Only when the global filter is enabled. *)
Definition onGlobalFilterChange (next : jstring) (s : TableState) : option TableState :=
  let value := if tc_trimGlobal cfg then trim next else next in
  navigate [(tc_pageKey cfg, JUndefined); (tc_globalFilterKey cfg, if truthy value then JStr value else JUndefined)]
    {| ts_search := ts_search s; ts_columnFilters := ts_columnFilters s; ts_globalFilter := Some value; ts_stored := ts_stored s |}.

(** The value of a column in the filters of the table. *)
Definition found_value (c : FilterConfig) (next : list ColumnFilter) : jval :=
  match filter (λ f, cf_id f = fc_columnId c) next with f :: _ => cf_value f | [] => JUndefined end.

Definition patch_entry (next : list ColumnFilter) (c : FilterConfig) : jstring * jval :=
  let value := match found_value c next with
               | JStr s => if fc_string c then JStr s else JArr []
               | JArr l => if fc_string c then JStr [] else JArr l
               | _ => if fc_string c then JStr [] else JArr []
               end in
  (fc_searchKey c, if accepted c value then fc_serialize c value else JUndefined).

Definition onColumnFiltersChange (next : list ColumnFilter) (s : TableState) : option TableState :=
  let patch := fold_left (λ patch c, obj_set (patch_entry next c).1 (patch_entry next c).2 patch) (tc_columnFilters cfg) [] in
  navigate ((tc_pageKey cfg, JUndefined) :: patch) (setColumnFilters next s).

(** [last] stands for [opts.resetTo === 'last']. *)
Definition ensurePageInRange (pageCount : num) (last : bool) (s : TableState) : option TableState :=
  if nlt zero pageCount && nlt pageCount (page_number (ts_search s))
  then navigate [(tc_pageKey cfg, if last then JNum pageCount else JUndefined)] s
  else Some s.
End table.

(** ** The tables *)

(** [features/usage-logs/components/usage-logs-table.tsx] *)
Definition LOG_TYPE_ALL_VALUE : jstring := "0".

Definition deserializeLogTypeFilter (value : jval) : jval :=
  let values := match value with JArr l => l | v => if to_boolean v then [v] else [] end in
  JArr (filter (λ item, to_js_string item ≠ LOG_TYPE_ALL_VALUE) values).

Definition usageLogsTable (isMobile isAdmin : bool) : TableConfig :=
  {| tc_pageKey := "page"; tc_pageSizeKey := "pageSize"; tc_defaultPage := of_Z 1; tc_defaultPageSize := of_Z (if isMobile then 20 else 100);
     tc_globalFilterEnabled := false; tc_globalFilterKey := "filter"; tc_trimGlobal := true;
     tc_columnFilters :=
       [{| fc_columnId := "created_at"; fc_searchKey := "type"; fc_string := false; fc_serialize := λ v, v; fc_deserialize := deserializeLogTypeFilter |};
        plain_filter "model_name" "model" true; plain_filter "token_name" "token" true; plain_filter "group" "group" true]
       ++ if isAdmin then [plain_filter "channel" "channel" true; plain_filter "username" "username" true] else [] |}.

Definition redemptionsTable (isMobile : bool) : TableConfig :=
  table "page" "pageSize" "filter" (if isMobile then 10 else 20) [plain_filter "status" "status" false].

Definition usersTable (isMobile : bool) : TableConfig :=
  table "page" "pageSize" "filter" (if isMobile then 10 else 20)
    [plain_filter "status" "status" false; plain_filter "role" "role" false; plain_filter "group" "group" true].

(** [DEFAULT_PAGE_SIZE] of [features/channels/constants.ts] and [features/models/constants.ts]. *)
Definition DEFAULT_PAGE_SIZE : Z := 20.

Definition channelsTable (isMobile : bool) : TableConfig :=
  table "page" "pageSize" "filter" (if isMobile then 10 else DEFAULT_PAGE_SIZE)
    [plain_filter "status" "status" false; plain_filter "type" "type" false; plain_filter "group" "group" false; plain_filter "model" "model" true].

Definition deploymentsTable (isMobile : bool) : TableConfig :=
  table "dPage" "dPageSize" "dFilter" (if isMobile then 8 else 10) [plain_filter "status" "dStatus" false].

Definition modelsTable (isMobile : bool) : TableConfig :=
  table "page" "pageSize" "filter" (if isMobile then 10 else DEFAULT_PAGE_SIZE)
    [plain_filter "status" "status" false; plain_filter "vendor_id" "vendor" false; plain_filter "sync_official" "sync" false].

Definition apiKeysTable : TableConfig :=
  table "page" "pageSize" "filter" 20 [plain_filter "status" "status" false; plain_filter "_tokenSearch" "token" true].

(** ** The schemas of the routes *)

Section routes.
Context {Z : Zod}.

Definition optional_number (fallback : jval) : Schema := z_catch fallback (z_optional z_number).
Definition optional_text : Schema := z_catch (JStr []) (z_optional z_string).
Definition optional_texts : Schema := z_catch (JArr []) (z_optional (z_array z_string)).
Definition optional_listed (values : list jstring) : Schema := z_catch (JArr []) (z_optional (z_array (z_enum values))).

(** [routes/_authenticated/usage-logs/$section.tsx] *)
Definition logTypeValues : list jstring := ["0"; "1"; "2"; "3"; "4"; "5"; "6"; "7"].

Definition log_type_values (value : jval) : jval :=
  match value with
  | JUndefined | JNull | JStr [] => JUndefined
  | JArr _ => value
  | _ => JArr [value]
  end.

Definition logTypeSearchSchema : Schema := z_catch (JArr []) (z_preprocess log_type_values (z_optional (z_array (z_enum logTypeValues)))).

Definition usageLogsSearchSchema : list (jstring * Schema) := [
  ("page", optional_number (JNum (of_Z 1))); ("pageSize", optional_number JUndefined); ("type", z_optional logTypeSearchSchema);
  ("filter", optional_text); ("model", optional_text); ("token", optional_text); ("channel", optional_text);
  ("group", optional_text); ("username", optional_text); ("requestId", optional_text); ("upstreamRequestId", optional_text);
  ("startTime", z_optional z_number); ("endTime", z_optional z_number)].

(** [String(value)] of the values of [REDEMPTION_STATUS] in [features/redemption-codes/constants.ts]. *)
Definition REDEMPTION_STATUS_VALUES : list jstring := ["1"; "2"; "3"].

Definition redemptionsSearchSchema : list (jstring * Schema) := [
  ("page", optional_number (JNum (of_Z 1))); ("pageSize", optional_number (JNum (of_Z 10))); ("filter", optional_text);
  ("status", optional_listed REDEMPTION_STATUS_VALUES)].

Definition usersSearchSchema : list (jstring * Schema) := [
  ("page", optional_number (JNum (of_Z 1))); ("pageSize", optional_number JUndefined); ("filter", optional_text);
  ("status", optional_listed ["-1"; "1"; "2"]); ("role", optional_listed ["1"; "10"; "100"]); ("group", optional_text)].

Definition channelsSearchSchema : list (jstring * Schema) := [
  ("page", optional_number (JNum (of_Z 1))); ("pageSize", optional_number JUndefined); ("filter", optional_text);
  ("status", optional_texts); ("type", optional_texts); ("group", optional_texts); ("model", optional_text)].

(** The tables of models and of deployments have the same route. *)
Definition modelsSearchSchema : list (jstring * Schema) := [
  ("page", optional_number (JNum (of_Z 1))); ("pageSize", optional_number (JNum (of_Z 10))); ("filter", optional_text);
  ("vendor", optional_texts); ("status", optional_texts); ("sync", optional_texts);
  ("dPage", optional_number (JNum (of_Z 1))); ("dPageSize", optional_number (JNum (of_Z 10))); ("dFilter", optional_text);
  ("dStatus", optional_texts)].

(** The values of [API_KEY_STATUS_OPTIONS] in [features/keys/constants.ts]. *)
Definition API_KEY_STATUS_VALUES : list jstring := ["1"; "2"; "3"; "4"; "5"].

Definition apiKeySearchSchema : list (jstring * Schema) := [
  ("page", optional_number (JNum (of_Z 1))); ("pageSize", optional_number JUndefined);
  ("status", optional_listed API_KEY_STATUS_VALUES); ("filter", optional_text); ("token", optional_text)].
End routes.

(** The statuses the tables of users and of redemption codes offer, [getUserStatusOptions]
    and [getRedemptionStatusOptions]. *)
Definition user_status_options : list jstring := ["1"; "2"; "3"; "-1"].
Definition redemption_status_options : list jstring := REDEMPTION_STATUS_VALUES ++ ["expired"].

(** ** What a table promises *)

(** A field of a route that lets through what an address can hold: what it answers is
    such a value again, and the same when it is read again. *)
Definition settled_field `{Zod} (s : Schema) : Prop :=
  ∀ v, url_value v → ∀ w, parse s v = Some w → url_value w ∧ parse s w = Some w.

(** The values of a column as the route reads them back: [kept] is what becomes of a
    value that was set. *)
Class RouteColumn `{Zod} (c : FilterConfig) (s : Schema) (kept : jval → jval) : Prop := {
  column_kept v : accepted c v = true → url_value (fc_serialize c v) →
    ∃ w, parse s (fc_serialize c v) = Some w ∧
      coalesce (fc_deserialize c w) (if fc_string c then JStr [] else JArr []) = kept v;
  column_nothing : ∃ w, parse s JUndefined = Some w ∧
    accepted c (coalesce (fc_deserialize c w) (if fc_string c then JStr [] else JArr [])) = false;
}.

(** The parameters of a table are distinct, its route has a field for each, and every
    column is a column of the route. *)
Record table_ok `{Zod} (cfg : TableConfig) (fields : list (jstring * Schema)) (kept : FilterConfig → jval → jval) : Prop := {
  to_keys : NoDup (tc_pageKey cfg :: tc_pageSizeKey cfg :: tc_globalFilterKey cfg :: map fc_searchKey (tc_columnFilters cfg));
  to_fields : NoDup (okeys fields);
  to_settled : ∀ k s, (k, s) ∈ fields → settled_field s;
  to_numbers : ∀ k, k ∈ [tc_pageKey cfg; tc_pageSizeKey cfg] → ∃ s, (k, s) ∈ fields ∧ parse s JUndefined = Some JUndefined ∧
    ∀ n, is_finite n = true → parse s (JNum n) = Some (JNum n);
  to_global : ∃ s, (tc_globalFilterKey cfg, s) ∈ fields ∧ parse s JUndefined = Some JUndefined ∧ ∀ t, parse s (JStr t) = Some (JStr t);
  to_columns : ∀ c, c ∈ tc_columnFilters cfg → ∃ s, (fc_searchKey c, s) ∈ fields ∧ RouteColumn c s (kept c);
}.

Section promises.
Context {Z : Zod} {ZL : ZodLaws Z} {R : Router} {RL : RouterLaws R}.
Context (cfg : TableConfig) (fields : list (jstring * Schema)) (kept : FilterConfig → jval → jval).
Hypothesis Hcfg : table_ok cfg fields kept.

(** The parameters are what the route answers to themselves. *)
Record search_ok (search : list (jstring * jval)) : Prop := {
  so_keys : NoDup (okeys search);
  so_settled : ∀ k s, (k, s) ∈ fields → url_value (member k (JObj search)) ∧ parse s (member k (JObj search)) = Some (member k (JObj search));
}.

(** Parameters an address can hold and the fields accept are read by the fields. *)
Lemma read_search_ok raw :
  NoDup (okeys raw) →
  (∀ k s, (k, s) ∈ fields → url_value (member k (JObj raw)) ∧ is_Some (parse s (member k (JObj raw)))) →
  ∃ search, read_search fields raw = Some search ∧ search_ok search ∧
    ∀ k s, (k, s) ∈ fields → parse s (member k (JObj raw)) = Some (member k (JObj search)).
Proof using Hcfg ZL RL.
  intros Hn Hraw. unfold read_search. set (read := through_url raw).
  assert (NoDup (okeys read)) as Hr by by apply through_url_keys.
  assert (∀ k s, (k, s) ∈ fields → member k (JObj read) = member k (JObj raw)) as Hm.
  { intros k s Hk. apply through_url_value; [done|]. by destruct (Hraw k s Hk). }
  destruct (parse_object fields read) as (r & -> & Hrn & Hrf); [apply Hcfg| |].
  { intros k s Hk. rewrite (Hm k s Hk). by destruct (Hraw k s Hk). }
  exists (matched_search read r). split; [done|].
  assert (∀ k s, (k, s) ∈ fields → parse s (member k (JObj raw)) = Some (member k (JObj (matched_search read r)))) as Hsearch.
  { intros k s Hk. destruct (Hrf k s Hk) as [Hp Hin]. rewrite <- (Hm k s Hk), Hp. f_equal. symmetry.
    destruct (decide (k ∈ okeys r)) as [Hkr|Hkr]; [by apply matched_value|].
    rewrite matched_absent by auto. cbn. by apply oget_None in Hkr as ->. }
  split; [|done]. split; [by apply matched_keys|]. intros k s Hk. destruct (Hraw k s Hk) as [Hu _].
  by apply (to_settled _ _ _ Hcfg k s Hk _ Hu), Hsearch.
Qed.

Lemma member_patch patch search k : NoDup (okeys patch) → NoDup (okeys search) →
  member k (JObj (obj_spread (obj_spread [] search) patch)) = match oget k patch with Some v => v | None => member k (JObj search) end.
Proof.
  intros Hp Hs. cbn [member]. rewrite oget_obj_spread, oget_reverse, oget_obj_spread, oget_reverse by done.
  destruct (oget k patch); [done|]. by destruct (oget k search).
Qed.

(** A navigation to values the route accepts changes the parameters it names. *)
Lemma navigate_ok patch s :
  search_ok (ts_search s) → NoDup (okeys patch) →
  (∀ k sch v, (k, sch) ∈ fields → oget k patch = Some v → url_value v ∧ is_Some (parse sch v)) →
  ∃ search, navigate fields patch s = Some (with_search search s) ∧ search_ok search ∧
    ∀ k sch, (k, sch) ∈ fields →
      match oget k patch with
      | Some v => parse sch v = Some (member k (JObj search))
      | None => member k (JObj search) = member k (JObj (ts_search s))
      end.
Proof using Hcfg ZL RL.
  intros [Hn Hs] Hp Hv. unfold navigate. set (raw := obj_spread _ patch).
  assert (∀ k, member k (JObj raw) = match oget k patch with Some v => v | None => member k (JObj (ts_search s)) end) as Hm.
  { intros k. by apply member_patch. }
  destruct (read_search_ok raw) as (search & -> & Hok & Hread).
  - by apply NoDup_okeys_obj_spread, NoDup_okeys_obj_spread, NoDup_nil_2.
  - intros k sch Hk. rewrite Hm. destruct (oget k patch) as [v|] eqn:E; [by apply (Hv k)|].
    destruct (Hs k sch Hk) as [Hu ->]. by split.
  - exists search. split_and!; [done..|]. intros k sch Hk. specialize (Hread k sch Hk). rewrite Hm in Hread.
    destruct (oget k patch); [done|]. destruct (Hs k sch Hk) as [_ E]. rewrite E in Hread. by injection Hread.
Qed.

(** The first parameters, and those after any navigation, are settled. *)
Lemma mount_ok raw stored :
  NoDup (okeys raw) → (∀ k s, (k, s) ∈ fields → url_value (member k (JObj raw)) ∧ is_Some (parse s (member k (JObj raw)))) →
  ∃ s, mount cfg fields raw stored = Some s ∧ search_ok (ts_search s) ∧
    ts_columnFilters s = initialColumnFilters cfg (ts_search s) ∧ ts_stored s = stored.
Proof using Hcfg ZL RL.
  intros Hn Hraw. destruct (read_search_ok raw Hn Hraw) as (search & E & Hok & _). unfold mount. rewrite E. by eexists.
Qed.

(** *** The filters *)

(** The patch of the filters. *)
Definition filter_patch (next : list ColumnFilter) : list (jstring * jval) := map (patch_entry next) (tc_columnFilters cfg).

Lemma filter_patch_keys next : okeys (filter_patch next) = map fc_searchKey (tc_columnFilters cfg).
Proof. unfold okeys, filter_patch. induction (tc_columnFilters cfg) as [|c cs IH]; [done|]. cbn. by f_equal. Qed.

Lemma filter_patch_NoDup next : NoDup (okeys (filter_patch next)).
Proof using Hcfg. rewrite filter_patch_keys. pose proof (to_keys _ _ _ Hcfg) as H. by repeat apply NoDup_cons in H as [_ H]. Qed.

Lemma patch_get next k :
  oget k (fold_left (λ patch c, obj_set (patch_entry next c).1 (patch_entry next c).2 patch) (tc_columnFilters cfg) []) = oget k (filter_patch next).
Proof using Hcfg.
  transitivity (oget k (obj_spread [] (filter_patch next))).
  - unfold obj_spread, filter_patch. generalize (@nil (jstring * jval)) as acc. induction (tc_columnFilters cfg) as [|c cs IH]; intros acc; [done|]. apply IH.
  - rewrite oget_obj_spread, oget_reverse by apply filter_patch_NoDup. by destruct (oget k (filter_patch next)).
Qed.

Lemma patch_okeys next : NoDup (okeys (fold_left (λ patch c, obj_set (patch_entry next c).1 (patch_entry next c).2 patch) (tc_columnFilters cfg) [])).
Proof.
  assert (∀ acc : list (jstring * jval), NoDup (okeys acc) →
    NoDup (okeys (fold_left (λ patch c, obj_set (patch_entry next c).1 (patch_entry next c).2 patch) (tc_columnFilters cfg) acc))) as H;
    [|apply H, NoDup_nil_2].
  induction (tc_columnFilters cfg) as [|c cs IH]; intros acc Hacc; [done|]. apply IH. by apply NoDup_okeys_obj_set.
Qed.

Lemma accepted_defined c v d : accepted c v = true → coalesce v d = v.
Proof. unfold accepted, coalesce. destruct (fc_string c), v; done. Qed.

Lemma patch_entry_value next c :
  patch_entry next c = (fc_searchKey c, if accepted c (found_value c next) then fc_serialize c (found_value c next) else JUndefined).
Proof.
  unfold patch_entry. f_equal. set (v := found_value c next). unfold accepted. destruct (fc_string c); [by destruct v|]. by destruct v as [| | | | |[]|].
Qed.

(** What becomes of the value of a column: what its route keeps of it, if that is a filter. *)
Definition kept_filter (next : list ColumnFilter) (c : FilterConfig) : option ColumnFilter :=
  if accepted c (found_value c next) && accepted c (kept c (found_value c next))
  then Some {| cf_id := fc_columnId c; cf_value := kept c (found_value c next) |} else None.

(** The filters that are set have values an address can hold. *)
Definition filters_fit (next : list ColumnFilter) : Prop :=
  ∀ c, c ∈ tc_columnFilters cfg → accepted c (found_value c next) = true → url_value (fc_serialize c (found_value c next)).

Lemma field_of_key k s s' : (k, s) ∈ fields → (k, s') ∈ fields → s = s'.
Proof using Hcfg.
  intros H1 H2. pose proof (to_fields _ _ _ Hcfg) as Hn. apply (elem_of_oget _ _ _ Hn) in H1, H2. congruence.
Qed.

(** The entry of a column is a value its field reads. *)
Lemma entry_fits next c s : filters_fit next → c ∈ tc_columnFilters cfg → (fc_searchKey c, s) ∈ fields →
  url_value (patch_entry next c).2 ∧ ∃ w, parse s (patch_entry next c).2 = Some w ∧
    let value := coalesce (fc_deserialize c w) (if fc_string c then JStr [] else JArr []) in
    (if accepted c value then Some {| cf_id := fc_columnId c; cf_value := value |} else None) = kept_filter next c.
Proof using Hcfg.
  intros Hfit Hc Hs. destruct (to_columns _ _ _ Hcfg c Hc) as (s' & Hs' & Hcol). rewrite (field_of_key _ _ _ Hs Hs'). clear Hs.
  rewrite patch_entry_value. cbn [snd]. unfold kept_filter. specialize (Hfit c Hc).
  destruct (accepted c (found_value c next)) eqn:Ea; cbn [andb].
  - split; [by apply Hfit|]. destruct (column_kept (found_value c next) Ea (Hfit eq_refl)) as (w & Hw & E).
    exists w. split; [done|]. cbv zeta. by rewrite E.
  - split; [done|]. destruct column_nothing as (w & Hw & E). exists w. split; [done|]. cbv zeta. by rewrite E.
Qed.

Lemma patch_column next c : c ∈ tc_columnFilters cfg → oget (fc_searchKey c) (filter_patch next) = Some (patch_entry next c).2.
Proof using Hcfg.
  intros Hc. apply elem_of_oget; [apply filter_patch_NoDup|]. apply list_elem_of_In, in_map_iff. exists c.
  split; [by rewrite patch_entry_value|by apply list_elem_of_In].
Qed.

(** The parameters after the filters were changed. *)
Lemma filters_navigate next s : search_ok (ts_search s) → filters_fit next →
  ∃ search, onColumnFiltersChange cfg fields next s = Some (with_search search (setColumnFilters next s)) ∧ search_ok search ∧
    member (tc_pageKey cfg) (JObj search) = JUndefined ∧
    (∀ k sch, (k, sch) ∈ fields → k ≠ tc_pageKey cfg → k ∉ map fc_searchKey (tc_columnFilters cfg) →
      member k (JObj search) = member k (JObj (ts_search s))) ∧
    ∀ c sch, c ∈ tc_columnFilters cfg → (fc_searchKey c, sch) ∈ fields →
      parse sch (patch_entry next c).2 = Some (member (fc_searchKey c) (JObj search)).
Proof using Hcfg ZL RL.
  intros Hok Hfit. pose proof (to_keys _ _ _ Hcfg) as [H1 _]%NoDup_cons. unfold onColumnFiltersChange.
  set (patch := fold_left _ _ _). set (full := (tc_pageKey cfg, JUndefined) :: patch).
  assert (tc_pageKey cfg ∉ map fc_searchKey (tc_columnFilters cfg)) as Hpage by (intros ?; apply H1; by do 2 right).
  assert (∀ k, oget k full = if bool_decide (k = tc_pageKey cfg) then Some JUndefined else oget k (filter_patch next)) as Hget.
  { intros k. unfold full. cbn [oget]. unfold patch. by rewrite patch_get. }
  destruct (to_numbers _ _ _ Hcfg (tc_pageKey cfg) ltac:(left)) as (sp & Hsp & Hu & _).
  destruct (navigate_ok full (setColumnFilters next s)) as (search & E & Hok' & Hm); [done| | |].
  - apply NoDup_cons. split; [|apply patch_okeys]. apply oget_None. unfold patch. rewrite patch_get. apply oget_None. by rewrite filter_patch_keys.
  - intros k sch v Hk. rewrite Hget. case_bool_decide as Ek.
    + intros [= <-]. subst k. rewrite (field_of_key _ _ _ Hk Hsp), Hu. by split.
    + intros Hv. apply oget_Some_elem_of, list_elem_of_In, in_map_iff in Hv as (c & Ec & Hc%list_elem_of_In).
      rewrite patch_entry_value in Ec. injection Ec as <- Ev.
      destruct (entry_fits next c sch Hfit Hc Hk) as (H & w & Hw & _). rewrite patch_entry_value in H, Hw. cbn [snd] in H, Hw.
      rewrite Ev in H, Hw. split; [done|by eexists].
  - exists search. split_and!; [done..| | |].
    + specialize (Hm _ _ Hsp). rewrite Hget, bool_decide_eq_true_2, Hu in Hm by done. by injection Hm.
    + intros k sch Hk Hne Hc. specialize (Hm k sch Hk). rewrite Hget, bool_decide_eq_false_2 in Hm by done.
      assert (oget k (filter_patch next) = None) as Hnone by (apply oget_None; by rewrite filter_patch_keys). by rewrite Hnone in Hm.
    + intros c sch Hc Hk. specialize (Hm _ _ Hk). rewrite Hget, patch_column in Hm by done.
      rewrite bool_decide_eq_false_2 in Hm; [done|]. intros E'. apply Hpage. rewrite <- E'. by apply list_elem_of_In, in_map, list_elem_of_In.
Qed.

(** The filters that are read from these parameters. *)
Lemma filters_read next s : search_ok (ts_search s) → filters_fit next →
  ∃ search, onColumnFiltersChange cfg fields next s = Some (with_search search (setColumnFilters next s)) ∧ search_ok search ∧
    initialColumnFilters cfg search = omap (kept_filter next) (tc_columnFilters cfg).
Proof using Hcfg ZL RL.
  intros Hok Hfit. destruct (filters_navigate next s Hok Hfit) as (search & E & Hok' & _ & _ & Hcols). exists search. split_and!; [done..|].
  unfold initialColumnFilters. apply list_omap_ext, Forall_Forall2_diag, Forall_forall. intros c Hc.
  destruct (to_columns _ _ _ Hcfg c Hc) as (sch & Hs & _). destruct (entry_fits next c sch Hfit Hc Hs) as (_ & w & Hw & <-).
  rewrite (Hcols c sch Hc Hs) in Hw. by injection Hw as <-.
Qed.

(** The filters that are set are read again as far as the route keeps them; the table
    shows its first page, and the page size and the global filter stay. *)
Lemma table_filters_kept next s : search_ok (ts_search s) → filters_fit next →
  ∃ s', onColumnFiltersChange cfg fields next s = Some s' ∧ search_ok (ts_search s') ∧
    ts_columnFilters (after_effect cfg s') = omap (kept_filter next) (tc_columnFilters cfg) ∧
    pageIndex (pagination cfg s') = nmax zero (nsub (tc_defaultPage cfg) (of_Z 1)) ∧
    pageSize (pagination cfg s') = pageSize (pagination cfg s) ∧
    initial_globalFilter cfg (ts_search s') = initial_globalFilter cfg (ts_search s) ∧ ts_globalFilter s' = ts_globalFilter s.
Proof using Hcfg ZL RL.
  intros Hok Hfit. destruct (filters_navigate next s Hok Hfit) as (search & E & Hok' & Hpage & Hother & Hcols).
  pose proof (to_keys _ _ _ Hcfg) as [H1 [H2 [H3 _]%NoDup_cons]%NoDup_cons]%NoDup_cons.
  eexists. split; [exact E|]. split; [done|]. cbn [with_search setColumnFilters ts_search ts_columnFilters ts_globalFilter after_effect].
  split_and!; [| | | |done].
  - destruct (filters_read next s Hok Hfit) as (search' & E' & _ & <-). rewrite E in E'. by injection E' as ->.
  - unfold pagination, page_number. cbn [pageIndex with_search ts_search]. by rewrite Hpage.
  - unfold pagination. cbn [pageSize with_search setColumnFilters ts_search ts_stored].
    destruct (to_numbers _ _ _ Hcfg (tc_pageSizeKey cfg) ltac:(right; left)) as (ss & Hss & _). rewrite (Hother _ _ Hss); [done| |].
    + intros E'. apply H1. rewrite E'. left.
    + intros ?. apply H2. by right.
  - unfold initial_globalFilter. destruct (to_global _ _ _ Hcfg) as (sg & Hsg & _). rewrite (Hother _ _ Hsg); [done| |done].
    intros E'. apply H1. rewrite <- E'. right. left.
Qed.

(** *** The page *)

(** A navigation of the page and the page size changes no filter. *)
Lemma page_navigate patch s : search_ok (ts_search s) → NoDup (okeys patch) →
  (∀ k v, oget k patch = Some v → k ∈ [tc_pageKey cfg; tc_pageSizeKey cfg] ∧
    (v = JUndefined ∨ ∃ n, v = JNum n ∧ is_finite n = true ∧ n ≠ S754_zero true)) →
  ∃ search, navigate fields patch s = Some (with_search search s) ∧ search_ok search ∧
    (∀ k, k ∈ [tc_pageKey cfg; tc_pageSizeKey cfg] →
      member k (JObj search) = match oget k patch with Some v => v | None => member k (JObj (ts_search s)) end) ∧
    initialColumnFilters cfg search = initialColumnFilters cfg (ts_search s) ∧
    initial_globalFilter cfg search = initial_globalFilter cfg (ts_search s).
Proof using Hcfg ZL RL.
  intros Hok Hp Hv. pose proof (to_keys _ _ _ Hcfg) as [H1 [H2 [H3 _]%NoDup_cons]%NoDup_cons]%NoDup_cons.
  assert (∀ k sch v, (k, sch) ∈ fields → oget k patch = Some v → url_value v ∧ parse sch v = Some v) as Hread.
  { intros k sch v Hk E. destruct (Hv k v E) as [Hin Hval]. destruct (to_numbers _ _ _ Hcfg k Hin) as (s' & Hs' & Hu & Hnum).
    rewrite (field_of_key _ _ _ Hk Hs'). destruct Hval as [->|(n & -> & Hf & Hz)]; split; [done|done|done|by apply Hnum]. }
  destruct (navigate_ok patch s Hok Hp) as (search & E & Hok' & Hm).
  { intros k sch v Hk Ev. destruct (Hread k sch v Hk Ev) as [? ->]. by split. }
  assert (∀ k sch, (k, sch) ∈ fields → k ∉ [tc_pageKey cfg; tc_pageSizeKey cfg] → member k (JObj search) = member k (JObj (ts_search s))) as Hother.
  { intros k sch Hk Hne. specialize (Hm k sch Hk). destruct (oget k patch) as [v|] eqn:Ev; [|done]. by destruct (Hv k v Ev). }
  exists search. split_and!; [done|done| | |].
  - intros k Hin. destruct (to_numbers _ _ _ Hcfg k Hin) as (s' & Hs' & _). specialize (Hm k s' Hs').
    destruct (oget k patch) as [v|] eqn:Ev; [|done]. destruct (Hread k s' v Hs' Ev) as [_ E']. rewrite E' in Hm. by injection Hm.
  - unfold initialColumnFilters. apply list_omap_ext, Forall_Forall2_diag, Forall_forall. intros c Hc. unfold read_filter.
    destruct (to_columns _ _ _ Hcfg c Hc) as (sch & Hs & _).
    assert (fc_searchKey c ∈ map fc_searchKey (tc_columnFilters cfg)) as Hin by (apply list_elem_of_In, in_map, list_elem_of_In; done).
    rewrite (Hother _ _ Hs); [done|]. intros [E'|[E'|[]%elem_of_nil]%elem_of_cons]%elem_of_cons; rewrite E' in Hin; [apply H1; by do 2 right|apply H2; by right].
  - unfold initial_globalFilter. destruct (to_global _ _ _ Hcfg) as (sg & Hsg & _). rewrite (Hother _ _ Hsg); [done|].
    intros [E'|[E'|[]%elem_of_nil]%elem_of_cons]%elem_of_cons; [apply H1; rewrite <- E'; right; left|apply H2; rewrite <- E'; left].
Qed.

(** Pages are numbers an address can hold. *)
Lemma page_value p : (0 < p < 2 ^ 53)%Z → is_finite (of_Z p) = true ∧ of_Z p ≠ S754_zero true.
Proof.
  intros Hp. split; [by apply of_Z_finite; lia|]. intros E.
  assert (nlt (of_Z 0) (of_Z p) = true) as H by (rewrite nlt_of_Z by lia; by apply Z.ltb_lt; lia). by rewrite E in H.
Qed.

(** A page that is chosen in a table that starts with page 1 is the page read from the
    address, with its page size; the filters stay. *)
Lemma pagination_kept i n s : (0 <= i)%Z → (i + 1 < 2 ^ 53)%Z → is_finite n = true → n ≠ S754_zero true →
  tc_defaultPage cfg = of_Z 1 → search_ok (ts_search s) →
  ∃ s', onPaginationChange cfg fields {| pageIndex := of_Z i; pageSize := n |} s = Some s' ∧
    pagination cfg s' = {| pageIndex := of_Z i; pageSize := n |} ∧
    initialColumnFilters cfg (ts_search s') = initialColumnFilters cfg (ts_search s) ∧
    initial_globalFilter cfg (ts_search s') = initial_globalFilter cfg (ts_search s).
Proof using Hcfg ZL RL.
  intros Hi Hi2 Hn Hn0 Hdef Hok. pose proof (to_keys _ _ _ Hcfg) as [H1 _]%NoDup_cons.
  assert (tc_pageKey cfg ≠ tc_pageSizeKey cfg) as Hne by (intros E; apply H1; rewrite E; left).
  unfold onPaginationChange. cbn [pageIndex pageSize]. rewrite nadd_of_Z, Hdef, nle_of_Z by lia.
  set (s1 := if neqb n _ then s else _). assert (ts_search s1 = ts_search s) as Es by (unfold s1; by destruct (neqb n _)).
  set (page := if (i + 1 <=? 1)%Z then JUndefined else JNum (of_Z (i + 1))).
  destruct (page_navigate [(tc_pageKey cfg, page); (tc_pageSizeKey cfg, JNum n)] s1) as (search & E & _ & Hm & Hf & Hg).
  - by rewrite Es.
  - apply NoDup_cons. split; [by intros ?%list_elem_of_singleton|apply NoDup_singleton].
  - intros k v. cbn [oget]. case_bool_decide as E1; [|case_bool_decide as E2; [|done]]; intros [= <-]; subst k.
    + split; [left|]. unfold page. destruct (Z.leb_spec (i + 1) 1); [by left|right]. eexists. split; [done|]. apply page_value; lia.
    + split; [right; left|]. right. by eexists.
  - eexists. split; [exact E|]. cbn [with_search ts_search]. rewrite Es in Hf, Hg. split_and!; [|done..].
    unfold pagination, page_number. cbn [with_search ts_search]. rewrite !Hm by (left || (right; left)). cbn [oget].
    rewrite (bool_decide_eq_false_2 (tc_pageSizeKey cfg = tc_pageKey cfg)), !bool_decide_eq_true_2 by done. f_equal. rewrite Hdef. unfold page.
    destruct (Z.leb_spec (i + 1) 1).
    + by assert (i = 0)%Z as -> by lia.
    + rewrite nsub_of_Z by lia. replace (i + 1 - 1)%Z with i by lia. unfold nmax. change zero with (of_Z 0).
      assert (nlt (of_Z 0) (of_Z i) = true) as Hlt by (rewrite nlt_of_Z by lia; by apply Z.ltb_lt; lia).
      unfold nlt, SFltb in Hlt. by destruct (SFcompare (of_Z 0) (of_Z i)) as [[]|].
Qed.

(** A page beyond the last is left by one navigation. *)
Lemma table_page_settles p c last s : (0 < p < 2 ^ 53)%Z → (0 < c < 2 ^ 53)%Z → tc_defaultPage cfg = of_Z 1 → search_ok (ts_search s) →
  page_number cfg (ts_search s) = of_Z p →
  ∃ s', ensurePageInRange cfg fields (of_Z c) last s = Some s' ∧
    page_number cfg (ts_search s') = of_Z (if (c <? p)%Z then if last then c else 1 else p) ∧
    ensurePageInRange cfg fields (of_Z c) last s' = Some s' ∧
    initialColumnFilters cfg (ts_search s') = initialColumnFilters cfg (ts_search s).
Proof using Hcfg ZL RL.
  intros Hp Hc Hdef Hok Epage.
  assert (nlt zero (of_Z c) = true) as Hpos by (change zero with (of_Z 0); rewrite nlt_of_Z by lia; by apply Z.ltb_lt; lia).
  assert (∀ s' q, (0 < q < 2 ^ 53)%Z → page_number cfg (ts_search s') = of_Z q → ensurePageInRange cfg fields (of_Z c) last s'
    = if (c <? q)%Z then navigate fields [(tc_pageKey cfg, if last then JNum (of_Z c) else JUndefined)] s' else Some s') as Hensure.
  { intros s' q Hq E. unfold ensurePageInRange. by rewrite Hpos, E, nlt_of_Z by lia. }
  rewrite (Hensure s p Hp Epage). destruct (Z.ltb_spec c p) as [Hcp|Hcp].
  - destruct (page_navigate [(tc_pageKey cfg, if last then JNum (of_Z c) else JUndefined)] s) as (search & -> & _ & Hm & Hf & _);
      [done|apply NoDup_singleton| |].
    { intros k v. cbn [oget]. case_bool_decide; [|done]. intros [= <-]. subst k. split; [left|].
      destruct last; [right; eexists; split; [done|apply page_value; lia]|by left]. }
    assert (page_number cfg search = of_Z (if last then c else 1)) as E.
    { unfold page_number. rewrite Hm by left. cbn [oget]. rewrite bool_decide_eq_true_2 by done. by destruct last. }
    eexists. split; [done|]. cbn [with_search ts_search]. split_and!; [done| |done].
    rewrite (Hensure _ (if last then c else 1)%Z); [|by destruct last; lia|done].
    by rewrite (proj2 (Z.ltb_ge _ _)) by (destruct last; lia).
  - exists s. split_and!; [done|done| |done]. rewrite (Hensure s p) by done. by rewrite (proj2 (Z.ltb_ge _ _)) by lia.
Qed.
End promises.

(** The effect follows any change of the address, but the text of the global filter does not. *)
Lemma global_filter_not_followed cfg search s :
  let s' := after_effect cfg (with_search search s) in
  ts_columnFilters s' = initialColumnFilters cfg search ∧ ts_globalFilter s' = ts_globalFilter s.
Proof. done. Qed.

(** ** The tables keep their promises *)

(** What the schemas of one field answer is what they are given. *)
Section schemas.
Context {Z : Zod} {ZL : ZodLaws Z}.

Definition keeps_values (s : Schema) : Prop := ∀ v w, parse s v = Some w → w = v.

Lemma number_keeps : keeps_values z_number.
Proof using ZL. intros v w. rewrite parse_number. destruct v as [| | |n| | |]; try done. by destruct (is_finite n); intros [= <-]. Qed.

Lemma string_keeps : keeps_values z_string.
Proof using ZL. intros v w. rewrite parse_string. by destruct v; intros [= <-]. Qed.

Lemma enum_keeps l : keeps_values (z_enum l).
Proof using ZL. intros v w. rewrite parse_enum. destruct v as [| | | |t| |]; try done. by destruct (has t l); intros [= <-]. Qed.

Lemma array_keeps s : keeps_values s → keeps_values (z_array s).
Proof using ZL.
  intros Hs v w. rewrite parse_array. destruct v as [| | | | |l|]; try done. intros (r & Hr%mapM_Some & ->)%fmap_Some. f_equal.
  induction Hr as [|x y l r Hx _ IH]; [done|]. by rewrite (Hs _ _ Hx), IH.
Qed.

Lemma optional_keeps s : keeps_values s → parse s JUndefined = None → keeps_values (z_optional s).
Proof using ZL.
  intros Hs Hn v w. destruct v; try (rewrite parse_optional by done; apply Hs). rewrite parse_optional_nothing by by rewrite Hn. by intros [= <-].
Qed.

Lemma keeps_settled s : keeps_values s → settled_field s.
Proof. intros Hs v Hv w Hw. by pose proof (Hs _ _ Hw) as ->. Qed.

Lemma catch_settled d s : settled_field s → url_value d → parse s d = Some d → settled_field (z_catch d s).
Proof using ZL.
  intros Hs Hd Ed v Hv w. rewrite !parse_catch. intros [= <-]. destruct (parse s v) as [w|] eqn:E; cbn [from_option id].
  - destruct (Hs v Hv w E) as [? ->]. done.
  - by rewrite Ed.
Qed.

Lemma jval_undefined v : v = JUndefined ∨ v ≠ JUndefined.
Proof. destruct v; by (left + right). Qed.

Lemma optional_settled s : settled_field s → default JUndefined (parse s JUndefined) = JUndefined → settled_field (z_optional s).
Proof using ZL.
  intros Hs Hn v Hv w Hw.
  assert (parse (z_optional s) JUndefined = Some JUndefined) as E0 by by apply parse_optional_nothing.
  destruct (jval_undefined v) as [->|Hne]; [rewrite E0 in Hw; by injection Hw as <-|].
  rewrite parse_optional in Hw by done. destruct (Hs v Hv w Hw) as [Hu E].
  destruct (jval_undefined w) as [->|Hw']; [done|]. by rewrite parse_optional.
Qed.

(** Lists of values that a schema of one value accepts. *)
Lemma mapM_parse (s : Schema) (p : jval → bool) (l : list jval) : (∀ x, parse s x = if p x then Some x else None) → mapM (parse s) l = if forallb p l then Some l else None.
Proof. intros Hs. induction l as [|x l IH]; [done|]. cbn. rewrite Hs. destruct (p x); [|done]. cbn. rewrite IH. by destruct (forallb p l). Qed.

Definition is_text (v : jval) : bool := match v with JStr _ => true | _ => false end.
Definition is_listed (values : list jstring) (v : jval) : bool := match v with JStr s => has s values | _ => false end.

Lemma parse_texts l : parse optional_texts (JArr l) = Some (JArr (if forallb is_text l then l else [])).
Proof using ZL.
  unfold optional_texts. rewrite parse_catch, parse_optional, parse_array, (mapM_parse _ is_text); [by destruct (forallb _ l)| |done].
  intros x. rewrite parse_string. by destruct x.
Qed.

Lemma parse_listed_array values l : parse (z_array (z_enum values)) (JArr l) = if forallb (is_listed values) l then Some (JArr l) else None.
Proof using ZL.
  rewrite parse_array, (mapM_parse _ (is_listed values)); [by destruct (forallb _ l)|]. intros x. rewrite parse_enum. by destruct x.
Qed.

Lemma parse_listed values l : parse (optional_listed values) (JArr l) = Some (JArr (if forallb (is_listed values) l then l else [])).
Proof using ZL. unfold optional_listed. rewrite parse_catch, parse_optional, parse_listed_array by done. by destruct (forallb _ l). Qed.

Lemma parse_number_field d v : parse (optional_number d) v = Some (match v with JUndefined => JUndefined | JNum n => if is_finite n then v else d | _ => d end).
Proof using ZL.
  unfold optional_number. rewrite parse_catch. destruct v as [| | |n| | |]; rewrite ?parse_optional, ?parse_number by done; try done.
  - rewrite parse_optional_nothing; [done|]. by rewrite parse_number.
  - by destruct (is_finite n).
Qed.

Lemma parse_text_field v : parse optional_text v = Some (match v with JUndefined | JStr _ => v | _ => JStr [] end).
Proof using ZL.
  unfold optional_text. rewrite parse_catch. destruct v; rewrite ?parse_optional, ?parse_string by done; try done.
  rewrite parse_optional_nothing; [done|]. by rewrite parse_string.
Qed.

Lemma parse_list_nothing s : parse (z_catch (JArr []) (z_optional (z_array s))) JUndefined = Some JUndefined.
Proof using ZL. rewrite parse_catch, parse_optional_nothing; [done|]. by rewrite parse_array. Qed.

(** *** The fields of the routes *)

Lemma number_settled d : d = JUndefined ∨ (∃ n, d = JNum n ∧ is_finite n = true ∧ n ≠ S754_zero true) → settled_field (optional_number d).
Proof using ZL.
  intros Hd v Hv w. rewrite !parse_number_field. intros [= <-].
  destruct v as [| | |n| | |]; try done; [destruct Hv as [Hn Hz]; rewrite Hn; by rewrite Hn|..];
    destruct Hd as [->|(n & -> & Hn & Hz)]; rewrite ?Hn; done.
Qed.

Lemma text_settled : settled_field optional_text.
Proof using ZL. intros v Hv w. rewrite !parse_text_field. intros [= <-]. by destruct v. Qed.

Lemma list_settled s : keeps_values s → settled_field (z_catch (JArr []) (z_optional (z_array s))).
Proof using ZL.
  intros Hs. apply catch_settled; [|by constructor|by rewrite parse_optional, parse_array by done].
  apply keeps_settled, optional_keeps; [by apply array_keeps|by rewrite parse_array].
Qed.

Lemma texts_settled : settled_field optional_texts.
Proof using ZL. apply list_settled, string_keeps. Qed.

Lemma listed_settled values : settled_field (optional_listed values).
Proof using ZL. apply list_settled, enum_keeps. Qed.

Lemma bound_settled : settled_field (z_optional z_number).
Proof using ZL. apply keeps_settled, optional_keeps; [apply number_keeps|by rewrite parse_number]. Qed.

Lemma parse_log_type v : parse logTypeSearchSchema v = Some (default (JArr []) (parse (z_optional (z_array (z_enum logTypeValues))) (log_type_values v))).
Proof using ZL. unfold logTypeSearchSchema. by rewrite parse_catch, parse_preprocess. Qed.

Lemma parse_log_array l : parse logTypeSearchSchema (JArr l) = Some (JArr (if forallb (is_listed logTypeValues) l then l else [])).
Proof using ZL. rewrite parse_log_type. cbn [log_type_values]. rewrite parse_optional, parse_listed_array by done. by destruct (forallb _ l). Qed.

Lemma log_type_settled : settled_field (z_optional logTypeSearchSchema).
Proof using ZL.
  assert (parse (z_optional (z_array (z_enum logTypeValues))) JUndefined = Some JUndefined) as E0.
  { apply parse_optional_nothing. by rewrite parse_array. }
  apply optional_settled; [|by rewrite parse_log_type; cbn [log_type_values]; rewrite E0].
  assert (∀ l, (forallb (is_listed logTypeValues) l = true → url_value (JArr l)) → ∀ w,
    Some (JArr (if forallb (is_listed logTypeValues) l then l else [])) = Some w → url_value w ∧ parse logTypeSearchSchema w = Some w) as Harr.
  { intros l Hl w [= <-]. destruct (forallb (is_listed logTypeValues) l) eqn:E; rewrite parse_log_array; [rewrite E; by auto|split; [by constructor|done]]. }
  assert (∀ x w, url_value x → parse logTypeSearchSchema (JArr [x]) = Some w → url_value w ∧ parse logTypeSearchSchema w = Some w) as Hone.
  { intros x w Hx. rewrite parse_log_array. apply Harr. cbn [forallb andb]. destruct x; try done. intros _. by constructor. }
  intros v Hv w Hw. destruct v as [| | |n|[|c t]|l|]; try done.
  - rewrite parse_log_type in Hw. cbn [log_type_values] in Hw. rewrite E0 in Hw. injection Hw as <-. split; [done|].
    rewrite parse_log_type. cbn [log_type_values]. by rewrite E0.
  - apply (Hone (JNum n)); [done|]. by rewrite parse_log_type in Hw |- *.
  - rewrite parse_log_type in Hw. cbn [log_type_values] in Hw. rewrite E0 in Hw. injection Hw as <-. split; [done|].
    rewrite parse_log_type. cbn [log_type_values]. by rewrite E0.
  - apply (Hone (JStr (c :: t))); [done|]. by rewrite parse_log_type in Hw |- *.
  - rewrite parse_log_array in Hw. by apply (Harr l).
Qed.

(** *** The columns of the tables *)

(** What a route that lists the values of a column keeps of some: all or none. *)
Definition kept_listed (values : list jstring) (v : jval) : jval :=
  match v with JArr l => JArr (if forallb (is_listed values) l then l else []) | _ => v end.

#[export] Instance text_column columnId searchKey : RouteColumn (plain_filter columnId searchKey true) optional_text (λ v, v).
Proof using ZL.
  split; [|exists JUndefined; by rewrite parse_text_field]. intros v Ha _. exists v. cbn [fc_serialize fc_deserialize plain_filter].
  rewrite parse_text_field. by destruct v.
Qed.

#[export] Instance texts_column columnId searchKey : RouteColumn (plain_filter columnId searchKey false) optional_texts (λ v, v).
Proof using ZL.
  split; [|exists JUndefined; split; [apply parse_list_nothing|done]]. intros v Ha Hv. exists v. cbn [fc_serialize fc_deserialize plain_filter] in *.
  destruct v as [| | | | |l|]; try done. rewrite parse_texts. split; [|done].
  assert (forallb is_text l = true) as ->; [|done]. apply forallb_forall. intros x Hx%list_elem_of_In.
  pose proof (proj1 (Forall_forall _ _) Hv x Hx). by destruct x.
Qed.

#[export] Instance listed_column columnId searchKey values :
  RouteColumn (plain_filter columnId searchKey false) (optional_listed values) (kept_listed values).
Proof using ZL.
  split; [|exists JUndefined; split; [apply parse_list_nothing|done]]. intros v Ha Hv. cbn [fc_serialize fc_deserialize plain_filter] in *.
  destruct v as [| | | | |l|]; try done. eexists. by rewrite parse_listed.
Qed.

(** The value of all types is not a filter. *)
Definition kept_types (v : jval) : jval := deserializeLogTypeFilter (kept_listed logTypeValues v).

#[export] Instance types_column columnId searchKey :
  RouteColumn {| fc_columnId := columnId; fc_searchKey := searchKey; fc_string := false; fc_serialize := λ v, v; fc_deserialize := deserializeLogTypeFilter |}
    (z_optional logTypeSearchSchema) kept_types.
Proof using ZL.
  assert (parse logTypeSearchSchema JUndefined = Some JUndefined) as E.
  { rewrite parse_log_type. cbn [log_type_values]. rewrite parse_optional_nothing; [done|]. by rewrite parse_array. }
  split; [|exists JUndefined; split; [apply parse_optional_nothing; by rewrite E|done]].
  intros v Ha Hv. cbn [fc_serialize fc_deserialize] in *. destruct v as [| | | | |l|]; try done. eexists. by rewrite parse_optional, parse_log_array.
Qed.
End schemas.

(** What the routes keep of the values of the columns. *)
Definition kept_as {A} (rules : list (jstring * A)) (keep : A → jval → jval) (c : FilterConfig) (v : jval) : jval :=
  match oget (fc_searchKey c) rules with Some a => keep a v | None => v end.

Definition usageLogs_kept : FilterConfig → jval → jval := kept_as [("type" : jstring, tt)] (λ _, kept_types).
Definition redemptions_kept : FilterConfig → jval → jval := kept_as [("status" : jstring, REDEMPTION_STATUS_VALUES)] kept_listed.
Definition users_kept : FilterConfig → jval → jval :=
  kept_as [("status" : jstring, ["-1"; "1"; "2"] : list jstring); ("role" : jstring, ["1"; "10"; "100"] : list jstring)] kept_listed.
Definition apiKeys_kept : FilterConfig → jval → jval := kept_as [("status" : jstring, API_KEY_STATUS_VALUES)] kept_listed.
Definition all_kept (c : FilterConfig) (v : jval) : jval := v.

Section tables.
Context {Z : Zod} {ZL : ZodLaws Z}.

(** The columns and the fields are checked one by one. *)
Ltac field := eexists; split; [apply oget_Some_elem_of; reflexivity|].
Ltac settled := first [by apply number_settled; left | by apply number_settled; right; eexists | apply text_settled | apply texts_settled
  | apply listed_settled | apply bound_settled | apply log_type_settled].
Ltac members H tac := cbn [app] in H; repeat (apply elem_of_cons in H as [H|H]; [first [injection H as -> -> | subst]; tac|]); by apply elem_of_nil in H.

Lemma number_parameter k (fields : list (jstring * Schema)) d : (k, optional_number d) ∈ fields →
  ∃ s, (k, s) ∈ fields ∧ parse s JUndefined = Some JUndefined ∧ ∀ n, is_finite n = true → parse s (JNum n) = Some (JNum n).
Proof using ZL. intros Hk. exists (optional_number d). split; [done|]. split; [by rewrite parse_number_field|]. intros n Hn. by rewrite parse_number_field, Hn. Qed.

Lemma text_parameter k (fields : list (jstring * Schema)) : (k, optional_text) ∈ fields →
  ∃ s, (k, s) ∈ fields ∧ parse s JUndefined = Some JUndefined ∧ ∀ t, parse s (JStr t) = Some (JStr t).
Proof using ZL. intros Hk. exists optional_text. split; [done|]. split; [|intros t]; by rewrite parse_text_field. Qed.

Ltac table_promise := split;
  [ apply (bool_decide_unpack _); vm_compute; reflexivity
  | apply (bool_decide_unpack _); vm_compute; reflexivity
  | intros ?k ?s ?Hin; members Hin settled
  | intros ?k ?Hin; members Hin ltac:(eapply number_parameter, oget_Some_elem_of; reflexivity)
  | eapply text_parameter, oget_Some_elem_of; reflexivity
  | intros ?c ?Hin; members Hin ltac:(field; first [apply text_column | apply texts_column | apply listed_column | apply types_column]) ].

Lemma usersTable_ok isMobile : table_ok (usersTable isMobile) usersSearchSchema users_kept.
Proof using ZL. table_promise. Qed.

Lemma redemptionsTable_ok isMobile : table_ok (redemptionsTable isMobile) redemptionsSearchSchema redemptions_kept.
Proof using ZL. table_promise. Qed.

Lemma channelsTable_ok isMobile : table_ok (channelsTable isMobile) channelsSearchSchema all_kept.
Proof using ZL. table_promise. Qed.

Lemma modelsTable_ok isMobile : table_ok (modelsTable isMobile) modelsSearchSchema all_kept.
Proof using ZL. table_promise. Qed.

Lemma deploymentsTable_ok isMobile : table_ok (deploymentsTable isMobile) modelsSearchSchema all_kept.
Proof using ZL. table_promise. Qed.

Lemma apiKeysTable_ok : table_ok apiKeysTable apiKeySearchSchema apiKeys_kept.
Proof using ZL. table_promise. Qed.

Lemma usageLogsTable_ok isMobile isAdmin : table_ok (usageLogsTable isMobile isAdmin) usageLogsSearchSchema usageLogs_kept.
Proof using ZL. destruct isAdmin; table_promise. Qed.

(** The tables, the schemas of their routes and what these keep of the filters. *)
Definition route_tables (isMobile isAdmin : bool) : list (TableConfig * list (jstring * Schema) * (FilterConfig → jval → jval)) :=
  [(usageLogsTable isMobile isAdmin, usageLogsSearchSchema, usageLogs_kept); (redemptionsTable isMobile, redemptionsSearchSchema, redemptions_kept);
   (usersTable isMobile, usersSearchSchema, users_kept); (channelsTable isMobile, channelsSearchSchema, all_kept);
   (deploymentsTable isMobile, modelsSearchSchema, all_kept); (modelsTable isMobile, modelsSearchSchema, all_kept);
   (apiKeysTable, apiKeySearchSchema, apiKeys_kept)].

Lemma tables_ok isMobile isAdmin cfg fields kept : (cfg, fields, kept) ∈ route_tables isMobile isAdmin →
  table_ok cfg fields kept ∧ tc_defaultPage cfg = of_Z 1.
Proof using ZL.
  revert cfg fields kept.
  assert (Forall (λ t : _ * _ * _, table_ok t.1.1 t.1.2 t.2 ∧ tc_defaultPage t.1.1 = of_Z 1) (route_tables isMobile isAdmin)) as H.
  - repeat (apply Forall_cons_2; [split; [|reflexivity]|]); [..|apply Forall_nil_2];
      [apply usageLogsTable_ok|apply redemptionsTable_ok|apply usersTable_ok|apply channelsTable_ok|apply deploymentsTable_ok|apply modelsTable_ok|apply apiKeysTable_ok].
  - intros cfg fields kept Hin. rewrite Forall_forall in H. apply (H _ Hin).
Qed.

Context {R : Router} {RL : RouterLaws R}.

(** C24: A change of the filters of any table navigates, and what is read from the address
    afterwards, through the router and the schema of the route, are the filters that
    were set, each with what the route keeps of its value, which is all of it but: a
    list of statuses or roles one of which the route does not know is lost whole (of
    those the tables offer, the frozen users and the expired codes), and of log types
    the one of all types is left out.  The table shows its first page, and the page
    size and the global filter stay. *)
Theorem column_filters_kept isMobile isAdmin cfg fields kept next s :
  (cfg, fields, kept) ∈ route_tables isMobile isAdmin → search_ok fields (ts_search s) → filters_fit cfg next →
  ∃ s', onColumnFiltersChange cfg fields next s = Some s' ∧ search_ok fields (ts_search s') ∧
    ts_columnFilters (after_effect cfg s') = omap (kept_filter kept next) (tc_columnFilters cfg) ∧
    pageIndex (pagination cfg s') = zero ∧ pageSize (pagination cfg s') = pageSize (pagination cfg s) ∧
    initial_globalFilter cfg (ts_search s') = initial_globalFilter cfg (ts_search s) ∧ ts_globalFilter s' = ts_globalFilter s.
Proof using ZL RL.
  intros [Hcfg Hdef]%tables_ok Hok Hfit. destruct (table_filters_kept cfg fields kept Hcfg next s Hok Hfit) as (s' & E & Hok' & Hf & Hp & H).
  exists s'. rewrite Hp, Hdef. split_and!; try done; apply H.
Qed.

(** C25: In any table, a page beyond the last is left by one navigation, after which what is
    read from the address is a page in range (the first one or the last one, as asked
    for) and nothing is navigated again; a page in range is not left.  The filters
    stay. *)
Theorem page_in_range_settles isMobile isAdmin cfg fields kept p c last s :
  (cfg, fields, kept) ∈ route_tables isMobile isAdmin → (0 < p < 2 ^ 53)%Z → (0 < c < 2 ^ 53)%Z → search_ok fields (ts_search s) →
  page_number cfg (ts_search s) = of_Z p →
  ∃ s', ensurePageInRange cfg fields (of_Z c) last s = Some s' ∧
    page_number cfg (ts_search s') = of_Z (if (c <? p)%Z then if last then c else 1 else p) ∧
    ensurePageInRange cfg fields (of_Z c) last s' = Some s' ∧
    initialColumnFilters cfg (ts_search s') = initialColumnFilters cfg (ts_search s).
Proof using ZL RL. intros [Hcfg Hdef]%tables_ok Hp Hc Hok E. by apply (table_page_settles cfg fields kept Hcfg). Qed.

(** *** Statuses that are offered and lost *)

(** A filter by one status. *)
Definition status_filter (status : jstring) : list ColumnFilter := [{| cf_id := "status"; cf_value := JArr [JStr status] |}].

Lemma status_fits cfg status : Forall (λ c, ∃ a b d, c = plain_filter a b d) (tc_columnFilters cfg) → well_formed status = true →
  filters_fit cfg (status_filter status).
Proof.
  intros Hplain Hw c Hc Ha. rewrite Forall_forall in Hplain. destruct (Hplain c Hc) as (a & b & d & ->). cbn [fc_serialize plain_filter].
  unfold found_value, status_filter in *. cbn [fc_columnId plain_filter] in *. rewrite filter_cons in *. cbn [cf_id filter list_filter] in *.
  case_decide; [by repeat constructor|by destruct d].
Qed.

(** The table of users offers the status of an account frozen by the verification; its
    route does not know it, so a filter by it filters nothing. *)
Lemma frozen_status_lost isMobile s : search_ok usersSearchSchema (ts_search s) →
  "3" ∈ user_status_options ∧
  ∃ s', onColumnFiltersChange (usersTable isMobile) usersSearchSchema (status_filter "3") s = Some s' ∧ ts_columnFilters (after_effect (usersTable isMobile) s') = [].
Proof using ZL RL.
  intros Hok. split; [by apply (bool_decide_unpack _); vm_compute|].
  destruct (filters_read (usersTable isMobile) usersSearchSchema users_kept (usersTable_ok isMobile) (status_filter "3") s Hok) as (search & E & _ & Hread).
  - apply status_fits; [repeat constructor; by do 3 eexists|done].
  - eexists. split; [exact E|]. exact Hread.
Qed.

(** The table of redemption codes offers the codes that are expired, in the same way. *)
Lemma expired_status_lost isMobile s : search_ok redemptionsSearchSchema (ts_search s) →
  "expired" ∈ redemption_status_options ∧
  ∃ s', onColumnFiltersChange (redemptionsTable isMobile) redemptionsSearchSchema (status_filter "expired") s = Some s' ∧
    ts_columnFilters (after_effect (redemptionsTable isMobile) s') = [].
Proof using ZL RL.
  intros Hok. split; [by apply (bool_decide_unpack _); vm_compute|].
  destruct (filters_read (redemptionsTable isMobile) redemptionsSearchSchema redemptions_kept (redemptionsTable_ok isMobile) (status_filter "expired") s Hok)
    as (search & E & _ & Hread).
  - apply status_fits; [repeat constructor; by do 3 eexists|done].
  - eexists. split; [exact E|]. exact Hread.
Qed.

(** Every other status that is offered is kept. *)
Lemma other_statuses_kept :
  (∀ status, status ∈ user_status_options → status ≠ "3" → ∀ c, fc_searchKey c = "status" → users_kept c (JArr [JStr status]) = JArr [JStr status]) ∧
  (∀ status, status ∈ redemption_status_options → status ≠ "expired" → ∀ c, fc_searchKey c = "status" →
    redemptions_kept c (JArr [JStr status]) = JArr [JStr status]).
Proof.
  split; intros status Hin Hne c Hc; [unfold users_kept|unfold redemptions_kept]; unfold kept_as; rewrite Hc;
    repeat (apply elem_of_cons in Hin as [->|Hin]; [done|]); by apply elem_of_nil in Hin.
Qed.
End tables.

(** ** Schemas and a router for which this holds *)

(** A schema is what it does. *)
Fixpoint read_fields (fields : list (jstring * (jval → option jval))) (v : jval) : option (list (jstring * jval)) :=
  match fields with
  | [] => Some []
  | (k, s) :: fields => w ← s (member k v); r ← read_fields fields v; Some ((k, w) :: r)
  end.

#[export] Instance zod_model : Zod := {
  Schema := jval → option jval;
  parse s v := s v;
  z_number v := match v with JNum n => if is_finite n then Some v else None | _ => None end;
  z_string v := match v with JStr _ => Some v | _ => None end;
  z_enum l v := match v with JStr s => if has s l then Some v else None | _ => None end;
  z_array s v := match v with JArr l => JArr <$> mapM s l | _ => None end;
  z_optional s v := match v with JUndefined => Some JUndefined | _ => s v end;
  z_catch d s v := Some (default d (s v));
  z_preprocess f s v := s (f v);
  z_object fields v := match v with JObj _ => JObj <$> read_fields fields v | _ => None end;
}.

#[export] Instance zod_model_laws : ZodLaws zod_model.
Proof.
  split; try done.
  - intros s v Hv. by destruct v.
  - intros fields o Hn Hf. cbn [parse z_object zod_model].
    assert (∃ r, read_fields fields (JObj o) = Some r ∧ okeys r = okeys fields ∧
      ∀ k (s : jval → option jval), (k, s) ∈ fields → ∃ w, s (member k (JObj o)) = Some w ∧ (k, w) ∈ r) as (r & E & Hk & Hr).
    { clear Hn. induction fields as [|[k s] fields IH]; [exists []; split_and!; [done..|intros ? ? []%elem_of_nil]|].
      destruct (Hf k s ltac:(left)) as [w Hw]. destruct IH as (r & E & Hk & Hr); [intros k' s' Hin; apply Hf; by right|].
      exists ((k, w) :: r). split_and!; [|cbn; by f_equal|].
      - cbn [read_fields]. change (s (member k (JObj o)) = Some w) in Hw. by rewrite Hw, E.
      - intros k' s' [[= -> ->]|Hin]%elem_of_cons; [exists w; split; [done|left]|]. destruct (Hr k' s' Hin) as (w' & ? & ?). exists w'. split; [done|by right]. }
    rewrite E. exists r. split; [done|]. split; [by rewrite Hk|]. intros k s Hin. destruct (Hr k s Hin) as (w & Hw & Hkw). split.
    + etransitivity; [exact Hw|]. f_equal. cbn [member]. apply elem_of_oget in Hkw; [by rewrite Hkw|by rewrite Hk].
    + intros _. rewrite Hk. by apply (list_elem_of_fmap_2 fst _ (k, s)).
Qed.

#[export] Instance router_model : Router := {
  through_url o := o;
  matched_search o r := obj_spread (obj_spread [] o) r;
}.

#[export] Instance router_model_laws : RouterLaws router_model.
Proof.
  split; try done.
  - intros o r Ho Hr. by apply NoDup_okeys_obj_spread, NoDup_okeys_obj_spread, NoDup_nil_2.
  - intros o r k Ho Hr Hk. cbn [matched_search router_model]. rewrite member_patch by done. cbn [member].
    destruct (oget k r) eqn:E; [done|]. by apply oget_None in E.
  - intros o r k Ho Hr Hko Hkr. cbn [matched_search router_model]. rewrite member_patch by done. cbn [member].
    apply oget_None in Hko as ->. by apply oget_None in Hkr as ->.
Qed.

(** The parameters of a list of users. *)
Definition sample_search : list (jstring * jval) :=
  [("page", JNum (of_Z 5)); ("pageSize", JNum (of_Z 50)); ("filter", JStr "ann"); ("role", JArr [JStr "10"])].

Definition sample_state : TableState :=
  {| ts_search := sample_search; ts_columnFilters := [{| cf_id := "role"; cf_value := JArr [JStr "10"] |}]; ts_globalFilter := Some ("ann" : jstring);
     ts_stored := None |}.


Lemma sample_search_ok : search_ok usersSearchSchema (ts_search sample_state).
Proof.
  split; [by apply (bool_decide_unpack _); vm_compute|]. intros k s Hin.
  repeat (apply elem_of_cons in Hin as [Hin|Hin]; [injection Hin as -> ->; split; [by apply url_valueb_true; vm_compute|vm_compute; reflexivity]|]).
  by apply elem_of_nil in Hin.
Qed.

(** The statuses that are set: the enabled and the deleted users are shown. *)
Example column_filters_kept_witness :
  let next := [{| cf_id := "status"; cf_value := JArr [JStr "1"; JStr "-1"] |}; {| cf_id := "group"; cf_value := JStr "vip" |}] in
  ∃ s', onColumnFiltersChange (usersTable false) usersSearchSchema next sample_state = Some s' ∧
    ts_columnFilters (after_effect (usersTable false) s') = next ∧ pageIndex (pagination (usersTable false) s') = zero.
Proof.
  intros next.
  destruct (column_filters_kept false false (usersTable false) usersSearchSchema users_kept next sample_state) as (s' & E & _ & H1 & H2 & _);
    [do 2 right; left|exact sample_search_ok| |].
  - intros c Hc Ha. repeat (apply elem_of_cons in Hc as [->|Hc]; [first [discriminate Ha|by apply url_valueb_true; vm_compute]|]). by apply elem_of_nil in Hc.
  - exists s'. split; [exact E|]. split; [exact H1|exact H2].
Defined.

Example pagination_kept_witness :
  ∃ s', onPaginationChange (usersTable true) usersSearchSchema {| pageIndex := of_Z 3; pageSize := of_Z 20 |} sample_state = Some s' ∧
    pagination (usersTable true) s' = {| pageIndex := of_Z 3; pageSize := of_Z 20 |}.
Proof.
  destruct (pagination_kept (usersTable true) usersSearchSchema users_kept (usersTable_ok true) 3 (of_Z 20) sample_state) as (s' & E & H & _);
    [lia|lia|reflexivity|done|reflexivity|exact sample_search_ok|]. by exists s'.
Defined.

Example page_in_range_settles_witness :
  ∃ s', ensurePageInRange (usersTable true) usersSearchSchema (of_Z 2) true sample_state = Some s' ∧
    page_number (usersTable true) (ts_search s') = of_Z 2 ∧
    ensurePageInRange (usersTable true) usersSearchSchema (of_Z 2) true s' = Some s'.
Proof.
  destruct (page_in_range_settles true false (usersTable true) usersSearchSchema users_kept 5 2 true sample_state) as (s' & E & H1 & H2 & _);
    [do 2 right; left|lia|lia|exact sample_search_ok|reflexivity|]. exists s'. split; [exact E|]. split; [exact H1|exact H2].
Defined.
