(* ===== verification/DashboardCharts.v ===== *)
(** * DashboardCharts: the charts and the statistics of the dashboard

    [features/dashboard/lib/charts.ts, stats.ts] and the times of [lib/time.ts]: rows
    of usage grouped by time, model and user, the points of the charts with their
    bucket for the models beyond the largest, the lines of the tooltips, and the
    totals.  What a chart looks like is data for the chart library and is left out.
    The theorems are in [ChartTotals]. *)
From Stdlib Require Import Floats.SpecFloat.
From S2P Require Import Prelude JsString JsNumber JsFloat JsValue Currency DashboardFlow.

(** ** Data ([features/dashboard/types.ts]) *)

Record QuotaDataItem := {
  qd_username : option jstring;
  qd_model_name : option jstring;
  qd_created_at : num;
  qd_token_used : option num;
  qd_count : option num;
  qd_quota : option num;
}.

Inductive TimeGranularity := hour | day | week.

#[export] Instance TimeGranularity_eq_dec : EqDecision TimeGranularity.
Proof. solve_decision. Defined.

(** The totals of a model, [{ quota, count, tokens }]. *)
Record Stats := { st_quota : num; st_count : num; st_tokens : num }.

Record LineValue := { lv_Time : jstring; lv_Model : jstring; lv_rawQuota : num; lv_Usage : num; lv_TimeSum : num }.
Record TrendValue := { tv_Time : jstring; tv_Model : jstring; tv_Count : num }.
Record RankValue := { rv_Model : jstring; rv_Count : num }.
Record PieValue := { pv_type : jstring; pv_value : num }.
Record ModelColor := { domain : list jstring; range : list jstring }.

(** The values of the five charts, the colours and the totals shown beside them. *)
Record ProcessedChartData := {
  pieValues : list PieValue;
  lineValues : list LineValue;
  areaValues : list LineValue;
  modelLineValues : list TrendValue;
  rankValues : list RankValue;
  modelColor : option ModelColor;
  totalQuotaDisplay : jstring;
  totalCountDisplay : jstring;
}.

Record UserRank := { ur_User : jstring; ur_rawQuota : num; ur_Usage : num }.
Record UserTrend := { ut_Time : jstring; ut_User : jstring; ut_rawQuota : num; ut_Usage : num }.

Record ProcessedUserChartData := {
  user_rank : list UserRank;
  user_trend : list UserTrend;
  user_colors : list (jstring * jstring);
  user_subtext : jstring;
}.

Definition MAX_CHART_TREND_POINTS : nat := 7.

(** ** Numbers and texts *)

(** [Number(x) || 0] *)
Definition or_zero (x : num) : num := num_or x zero.
Definition number_field (x : option num) : num := or_zero (default nan x).

(** [Math.max(...l)] *)
Definition Math_max (l : list num) : num := foldl nmax (S754_infinity true) l.

(** The order of [sort()] without a function: by code units. *)
Fixpoint compare_units (a b : jstring) : Z :=
  match a, b with
  | [], [] => 0
  | [], _ :: _ => -1
  | _ :: _, [] => 1
  | c :: a, d :: b => match (c ?= d)%N with Lt => -1 | Gt => 1 | Eq => compare_units a b end
  end.

(** [(a, b) => b.f - a.f] *)
Definition descending {A} (f : A → num) (a b : A) : Z := compare_result (nsub (f b) (f a)).

(** What the code uses of the date library: [dayjs(ms)], [d.format(pattern)] and
    [d.add(n, 'day')]. *)
Record DateLib := {
  moment : Type;
  dayjs : num → moment;
  moment_format : moment → jstring → jstring;
  add_days : moment → Z → moment;
}.

Section charts.
Variable dates : DateLib.
(** [a.localeCompare(b)] *)
Variable localeCompare : jstring → jstring → Z.
(** [Intl.NumberFormat], and [n.toLocaleString()] *)
Variable NumberFormat : option jstring → NumberFormatOptions → num → jstring.
Variable toLocaleString : num → jstring.
Variable vchartDefaultDataScheme : list ColorScheme.
Variable store : option CurrencyConfig.
(** [t], when there is one *)
Variable t : option (jstring → jstring).

Definition tt (key : jstring) : jstring := match t with Some t => t key | None => key end.

Definition formatChartTime (timestamp : num) (granularity : TimeGranularity) : jstring :=
  let d := dayjs dates (nmul timestamp (of_Z 1000)) in
  let result := moment_format dates d "MM-DD" in
  match granularity with
  | hour => result ++ " " ++ moment_format dates d "HH" ++ ":00"
  | week => result ++ " - " ++ moment_format dates (add_days dates d 6) "MM-DD"
  | day => result
  end.

(** [Math.pow(10, -digits)] is correctly rounded. *)
Definition renderQuotaCompat (rawQuota : num) (digits : nat) : jstring :=
  let '(config, meta) := getCurrencyDisplay store in
  let shown symbol rate :=
    let usd := ndiv rawQuota (quotaPerUnit config) in
    let value := nmul usd rate in
    let fixed := to_fixed digits value in
    if neqb (parseFloat fixed) zero && nlt zero rawQuota && nlt zero value
    then symbol ++ to_fixed digits (of_decimal false 1 (- Z.of_nat digits))
    else symbol ++ fixed in
  match meta with
  | Tokens_meta _ => toLocaleString rawQuota
  | Currency_meta symbol _ exchangeRate => shown symbol exchangeRate
  | Custom_meta symbol exchangeRate => shown symbol exchangeRate
  end.

Definition formatInt (value : num) : jstring :=
  NumberFormat None {| currency := None; compactNotation := false; minimumFractionDigits := None; maximumFractionDigits := 0 |} value.

Definition formatQuotaValue (value : num) : jstring := renderQuotaCompat value 4.
Definition formatQuotaTotal (value : num) : jstring := renderQuotaCompat value 2.

(** ** The maps *)

Definition no_stats : Stats := {| st_quota := zero; st_count := zero; st_tokens := zero |}.

Definition model_of (item : QuotaDataItem) : jstring :=
  match qd_model_name item with Some (c :: s) => c :: s | _ => "Unknown" end.

Definition add_stats (existing : Stats) (item : QuotaDataItem) : Stats := {|
  st_quota := nadd (st_quota existing) (number_field (qd_quota item));
  st_count := nadd (st_count existing) (number_field (qd_count item));
  st_tokens := nadd (st_tokens existing) (number_field (qd_token_used item)) |}.

(** One row added to a map of models. *)
Definition add_model : list (jstring * Stats) → QuotaDataItem → list (jstring * Stats) :=
  group_add model_of (λ _, no_stats) add_stats.

Definition modelTotalsMap (data : list QuotaDataItem) : list (jstring * Stats) := fold_left add_model data [].

Section data.
Variable data : list QuotaDataItem.
Variable timeGranularity : TimeGranularity.

Definition time_key (item : QuotaDataItem) : jstring := formatChartTime (qd_created_at item) timeGranularity.

Definition timeModelMap : list (jstring * list (jstring * Stats)) :=
  fold_left (group_add time_key (λ _, []) add_model) data [].

Definition otherLabel : jstring := tt "Other".
Definition sortedTimes : list jstring := sort_by compare_units (okeys timeModelMap).
Definition sortedModels : list jstring := sort_by compare_units (okeys (modelTotalsMap data)).

Definition modelColors : ModelColor :=
  let domain := new_set (sortedModels ++ [otherLabel]) in
  {| domain := domain; range := getDashboardChartColors vchartDefaultDataScheme (length domain) |}.

Definition otherTooltipColor : jstring :=
  let i := default 0 (find_index (λ m, bool_decide (m = otherLabel)) (domain modelColors)) in
  default "#FF8A00" (range modelColors !! i).

Definition intervalSec : Z := match timeGranularity with week => 604800 | day => 86400 | hour => 3600 end.

(** The times that replace those of the data when there are too few. *)
Definition paddedTimes : list jstring :=
  let lastTime := Math_max (map (λ item, or_zero (qd_created_at item)) data) in
  map (λ i, formatChartTime (nsub lastTime (of_Z (Z.of_nat (MAX_CHART_TREND_POINTS - 1 - i) * intervalSec))) timeGranularity)
    (seq 0 MAX_CHART_TREND_POINTS).

Definition fillTimePoints (times : list jstring) : list jstring :=
  if (MAX_CHART_TREND_POINTS <=? length times)%nat then times else paddedTimes.

Definition chartTimes : list jstring := fillTimePoints sortedTimes.

Definition totalTimes : num :=
  fold_left (λ sum x, nadd sum (or_zero (st_count x))) (ovalues (modelTotalsMap data)) zero.
Definition totalQuotaRaw : num :=
  fold_left (λ sum x, nadd sum (or_zero (st_quota x))) (ovalues (modelTotalsMap data)) zero.

(** [Number(timeModelMap.get(time)?.get(model)?.f) || 0] *)
Definition stat_at (f : Stats → num) (time model : jstring) : num :=
  number_field (f <$> (m ← oget time timeModelMap; oget model m)).

(** ** The values of the charts *)

Definition pie_values : list PieValue :=
  sort_by (descending pv_value) (map (λ '(model, stats), {| pv_type := model; pv_value := or_zero (st_count stats) |}) (modelTotalsMap data)).

(** [Number(usd.toFixed(4))], in dollars *)
Definition four_digits (x : num) : num := Number_of_string (to_fixed 4 x).

Definition usage_of (rawQuota : num) : num :=
  let usd := if num_truthy rawQuota then ndiv rawQuota (quotaPerUnit (getConfig store)) else zero in
  if num_truthy usd then four_digits usd else zero.

Definition by_time {A} (time : A → jstring) (a b : A) : Z := localeCompare (time a) (time b).

Definition line_at (time : jstring) : list LineValue :=
  let timeData := map (λ model, let rawQuota := stat_at st_quota time model in
      {| lv_Time := time; lv_Model := model; lv_rawQuota := rawQuota; lv_Usage := usage_of rawQuota; lv_TimeSum := zero |})
    sortedModels in
  let timeSum := fold_left (λ sum item, nadd sum (lv_rawQuota item)) timeData zero in
  map (λ item, {| lv_Time := lv_Time item; lv_Model := lv_Model item; lv_rawQuota := lv_rawQuota item;
                  lv_Usage := lv_Usage item; lv_TimeSum := timeSum |})
    (sort_by (descending lv_rawQuota) timeData).

Definition line_values : list LineValue := sort_by (by_time lv_Time) (flat_map line_at chartTimes).

Definition MAX_AREA_MODELS : nat := 15.

(** The models with their totals, the largest first. *)
Definition ranked (f : Stats → num) : list (jstring * num) :=
  sort_by (descending snd) (map (λ '(model, stats), (model, or_zero (f stats))) (modelTotalsMap data)).

Definition topAreaModels : list jstring := new_set (take MAX_AREA_MODELS (ranked st_quota)).*1.

Record Bucket := { bk_rawQuota : num; bk_usage : num }.

(** One model added to the buckets of a time. *)
Definition area_key (model : jstring) : jstring := if has model topAreaModels then model else otherLabel.

Definition add_bucket (time : jstring) : list (jstring * Bucket) → jstring → list (jstring * Bucket) :=
  group_add area_key (λ _, {| bk_rawQuota := zero; bk_usage := zero |})
    (λ prev model, let rawQuota := stat_at st_quota time model in
       {| bk_rawQuota := nadd (bk_rawQuota prev) rawQuota;
          bk_usage := four_digits (nadd (bk_usage prev) (usage_of rawQuota)) |}).

Definition area_at (time : jstring) : list LineValue :=
  let buckets := fold_left (add_bucket time) sortedModels [] in
  let timeSum := fold_left (λ sum model, nadd sum (stat_at st_quota time model)) sortedModels zero in
  map (λ '(model, vals), {| lv_Time := time; lv_Model := model; lv_rawQuota := bk_rawQuota vals;
                            lv_Usage := bk_usage vals; lv_TimeSum := timeSum |}) buckets.

Definition area_values : list LineValue := sort_by (by_time lv_Time) (flat_map area_at chartTimes).

Definition MAX_TREND_MODELS : nat := 20.

Definition topTrendModels : list jstring := (take MAX_TREND_MODELS (ranked st_count)).*1.
Definition otherTrendModels : list jstring := (drop MAX_TREND_MODELS (ranked st_count)).*1.

Definition trend_at (time : jstring) : list TrendValue :=
  map (λ model, {| tv_Time := time; tv_Model := model; tv_Count := stat_at st_count time model |}) topTrendModels ++
  match otherTrendModels with
  | [] => []
  | others => [{| tv_Time := time; tv_Model := otherLabel;
                  tv_Count := fold_left (λ sum model, nadd sum (stat_at st_count time model)) others zero |}]
  end.

Definition model_line_values : list TrendValue := sort_by (by_time tv_Time) (flat_map trend_at chartTimes).

Definition MAX_RANK_MODELS : nat := 20.

Definition rank_values : list RankValue :=
  let allRankValues := map (λ '(model, count), {| rv_Model := model; rv_Count := count |}) (ranked st_count) in
  if (MAX_RANK_MODELS <? length allRankValues)%nat
  then take MAX_RANK_MODELS allRankValues ++
       [{| rv_Model := otherLabel;
           rv_Count := fold_left (λ sum item, nadd sum (rv_Count item)) (drop MAX_RANK_MODELS allRankValues) zero |}]
  else allRankValues.

Definition processChartData : ProcessedChartData :=
  match data with
  | [] => {| pieValues := []; lineValues := []; areaValues := []; modelLineValues := []; rankValues := [];
             modelColor := None; totalQuotaDisplay := formatQuotaTotal zero; totalCountDisplay := formatInt zero |}
  | _ => {| pieValues := pie_values; lineValues := line_values; areaValues := area_values;
            modelLineValues := model_line_values; rankValues := rank_values; modelColor := Some modelColors;
            totalQuotaDisplay := formatQuotaTotal totalQuotaRaw; totalCountDisplay := formatInt totalTimes |}
  end.

(** ** The lines of a tooltip *)

(** The [datum] of a line is the value of the chart, here its [TimeSum] and [rawQuota];
    [value] is a number until the line is written. *)
Record TooltipLineItem := {
  tl_key : jstring;
  tl_value : jval;
  tl_datum : option LineValue;
  tl_shapeFill : option jstring;
}.

Definition with_value (item : TooltipLineItem) (v : jstring) : TooltipLineItem :=
  {| tl_key := tl_key item; tl_value := JStr v; tl_datum := tl_datum item; tl_shapeFill := tl_shapeFill item |}.

Definition line_number (item : TooltipLineItem) : num := or_zero (to_number (tl_value item)).
Definition plain_line (key value : jstring) : TooltipLineItem :=
  {| tl_key := key; tl_value := JStr value; tl_datum := None; tl_shapeFill := None |}.

Definition isOtherTooltipKey (key : jstring) : bool := bool_decide (key = "Other") || bool_decide (key = otherLabel).

(** The models, the largest first, and the lines of the bucket. *)
Definition tooltip_order (array : list TooltipLineItem) : list TooltipLineItem * list TooltipLineItem :=
  (sort_by (descending line_number) (filter (λ item, isOtherTooltipKey (tl_key item) = false) array),
   filter (λ item, isOtherTooltipKey (tl_key item) = true) array).

(** The line the chart library makes from a value of the chart ([dimension.content]) *)
Definition dimension_line (v : LineValue) : TooltipLineItem :=
  {| tl_key := lv_Model v; tl_value := JNum (or_zero (lv_rawQuota v)); tl_datum := Some v; tl_shapeFill := None |}.

Definition MAX_TOOLTIP_MODELS : nat := 15.

Definition tooltip_sum (array : list TooltipLineItem) : num :=
  fold_left (λ sum item,
    match tl_datum item with
    | Some d => if num_truthy (lv_TimeSum d) then lv_TimeSum d else sum
    | None => sum
    end) array zero.

Definition raw_of (item : TooltipLineItem) : num :=
  match tl_datum item with Some d => or_zero (lv_rawQuota d) | None => zero end.

(** The values are written in the items, which [modelItems] shares. *)
Definition updateContent (collapseOverflow : bool) (array : list TooltipLineItem) : list TooltipLineItem :=
  let '(modelItems, otherItems) := tooltip_order array in
  let sum := tooltip_sum (modelItems ++ otherItems) in
  let written := map (λ item, with_value item (formatQuotaValue (line_number item))) in
  let shown :=
    if collapseOverflow && (MAX_TOOLTIP_MODELS <? length (modelItems ++ otherItems))%nat
    then let otherSum := fold_left (λ sum item, nadd sum (raw_of item)) (drop MAX_TOOLTIP_MODELS modelItems ++ otherItems) zero in
         written (take MAX_TOOLTIP_MODELS modelItems) ++
         [{| tl_key := otherLabel; tl_value := JStr (formatQuotaValue otherSum); tl_datum := None;
             tl_shapeFill := Some otherTooltipColor |}]
    else written (modelItems ++ otherItems) in
  plain_line (tt "Total:") (formatQuotaValue sum) :: shown.

(** The tooltip of the trend of calls *)
Definition updateTrendContent (array : list TooltipLineItem) : list TooltipLineItem :=
  let '(modelItems, otherItems) := tooltip_order array in
  let sum := fold_left (λ sum item, nadd sum (line_number item)) (modelItems ++ otherItems) zero in
  plain_line (tt "Total:") (formatInt sum) :: map (λ item, with_value item (formatInt (line_number item))) (modelItems ++ otherItems).

(** The tooltip of the trend of users *)
Definition updateUserContent (array : list TooltipLineItem) : list TooltipLineItem :=
  let array := sort_by (descending line_number) array in
  let sum := fold_left (λ sum item, nadd sum (line_number item)) array zero in
  plain_line (tt "Total:") (formatQuotaTotal sum) :: map (λ item, with_value item (formatQuotaTotal (line_number item))) array.

(** ** Users *)

Definition USER_COLORS : list jstring :=
  ["#5B8FF9"; "#5AD8A6"; "#F6BD16"; "#E8684A"; "#6DC8EC"; "#9270CA"; "#FF9D4D"; "#269A99"; "#FF99C3"; "#5D7092"].

Definition user_of (item : QuotaDataItem) : jstring :=
  match qd_username item with Some (c :: s) => c :: s | _ => "unknown" end.

(** [map.set(user, (map.get(user) || 0) + (Number(item.quota) || 0))] *)
Definition add_user : list (jstring * num) → QuotaDataItem → list (jstring * num) :=
  group_add user_of (λ _, zero) (λ prev item, nadd (or_zero prev) (number_field (qd_quota item))).

Section users.
Variable limit : Z.

Definition userQuotaTotal : list (jstring * num) := fold_left add_user data [].
Definition sortedUsers : list (jstring * num) := sort_by (descending snd) userQuotaTotal.
Definition rankedUsers : list (jstring * num) := slice 0 limit sortedUsers.
Definition topUsers : list jstring := rankedUsers.*1.
Definition totalUserQuota : num := fold_left (λ s '(_, q), nadd s q) rankedUsers zero.

Definition user_usage (quota : num) : num := four_digits (ndiv quota (quotaPerUnit (getConfig store))).

Definition user_rank_values : list UserRank :=
  map (λ '(username, quota), {| ur_User := username; ur_rawQuota := quota; ur_Usage := user_usage quota |}) rankedUsers.

Definition userColorMap : list (jstring * jstring) :=
  fold_left (λ acc '(i, user), obj_set user (default [] (USER_COLORS !! (i mod length USER_COLORS)%nat)) acc)
    (zip (seq 0 (length topUsers)) topUsers) [].

Definition timeUserMap : list (jstring * list (jstring * num)) :=
  fold_left (group_add time_key (λ _, []) add_user) (filter (λ item, has (user_of item) (new_set topUsers) = true) data) [].

Definition sortedTimePoints : list jstring := sort_by compare_units (new_set (map time_key data)).

Definition user_trend_values : list UserTrend :=
  flat_map (λ time, map (λ user,
    let q := number_field (m ← oget time timeUserMap; oget user m) in
    {| ut_Time := time; ut_User := user; ut_rawQuota := q; ut_Usage := user_usage q |}) topUsers) sortedTimePoints.

Definition formatVal (raw : num) : jstring := renderQuotaCompat raw 2.

Definition processUserChartData : ProcessedUserChartData :=
  match data with
  | [] => {| user_rank := []; user_trend := []; user_colors := []; user_subtext := tt "No data available" |}
  | _ => {| user_rank := user_rank_values; user_trend := user_trend_values; user_colors := userColorMap;
            user_subtext := tt "Total:" ++ " " ++ formatVal totalUserQuota |}
  end.
End users.
End data.
End charts.

(** ** Statistics ([lib/stats.ts]) *)

(** [Math.pow(10, precision)] is exact for the precisions used. *)
Definition safeDivide (value divisor : num) (precision : nat) : num :=
  let result := ndiv value divisor in
  if is_nan result || negb (is_finite result) then zero
  else let factor := of_Z (10 ^ Z.of_nat precision) in ndiv (nround (nmul result factor)) factor.

Definition calculateDashboardStats (data : list QuotaDataItem) : Stats := fold_left add_stats data no_stats.
