(* ===== verification/ChartTotals.v ===== *)
(** * ChartTotals: what the charts of the dashboard add up to

    Each point of a chart is the sum of the rows of its time and model ([stat_at_rows]).
    With counts that are natural numbers this gives the rows that the charts show
    ([chart_rows]), their agreement with the totals beside them ([charts_agree]), and
    the same for the charts of users ([user_trend_totals]) and the tooltips. *)
From Stdlib Require Import Floats.SpecFloat.
From S2P Require Import Prelude JsString JsNumber JsFloat JsValue Currency DashboardFlow DashboardCharts.
Set Default Proof Using "Type".

(** ** Numbers that count *)

(** The natural number that a number is *)
Definition cnt (x : num) : Z := default 0%Z (floor_Z x).
Definition natural (x : num) : Prop := (0 <= cnt x)%Z ∧ x = of_Z (cnt x).

Lemma natural_of_Z z : (0 <= z < 2 ^ 53)%Z → natural (of_Z z) ∧ cnt (of_Z z) = z.
Proof. intros Hz. unfold natural, cnt. destruct (of_Z_finite z Hz) as [_ ->]. cbn. by split; [split; [lia|]|]. Qed.

Lemma natural_zero : natural zero.
Proof. split; [vm_compute; congruence|reflexivity]. Qed.

(** The numbers of a list are natural, and together less than [2^53]. *)
Definition countable (l : list num) : Prop := Forall natural l ∧ (zsum (map cnt l) < 2 ^ 53)%Z.

#[export] Instance natural_dec x : Decision (natural x).
Proof. unfold natural. apply _. Defined.
#[export] Instance countable_dec l : Decision (countable l).
Proof. unfold countable. apply _. Defined.

Lemma natural_zsum l : Forall natural l → (0 <= zsum (map cnt l))%Z.
Proof. intros H. apply zsum_nonneg, Forall_map. eapply Forall_impl; [exact H|]. by intros x []. Qed.

Lemma zsum_elem x l : Forall (λ z, 0 <= z)%Z l → x ∈ l → (x <= zsum l)%Z.
Proof.
  intros H. induction H as [|y l Hy Hl IH]; [by intros ?%elem_of_nil|]. pose proof (zsum_nonneg l Hl).
  intros [->|Hx]%elem_of_cons; cbn [zsum foldr]; change (foldr Z.add 0%Z l) with (zsum l); [lia|]. specialize (IH Hx). lia.
Qed.

Lemma nsum_countable l : countable l → nsum l = of_Z (zsum (map cnt l)).
Proof.
  intros [Hn Hb]. rewrite <- nsum_of_Z; [|apply Forall_map; eapply Forall_impl; [exact Hn|]; by intros x []|done].
  f_equal. rewrite map_map. rewrite <- (map_id l) at 1. apply map_ext_in. intros x Hx%list_elem_of_In.
  rewrite Forall_forall in Hn. by apply Hn.
Qed.

Lemma countable_sum l : countable l → natural (nsum l) ∧ cnt (nsum l) = zsum (map cnt l).
Proof. intros H. rewrite (nsum_countable l H). apply natural_of_Z. destruct H. split; [by apply natural_zsum|done]. Qed.

Lemma countable_perm l l' : l ≡ₚ l' → countable l → countable l'.
Proof. intros E [Hn Hb]. split; [by rewrite <- E|]. rewrite <- (zsum_perm (map cnt l) (map cnt l')); [done|by apply Permutation_map]. Qed.

Lemma nsum_perm l l' : l ≡ₚ l' → countable l → nsum l' = nsum l.
Proof.
  intros E H. rewrite (nsum_countable l H), (nsum_countable l' (countable_perm _ _ E H)). f_equal.
  symmetry. apply zsum_perm. by apply Permutation_map.
Qed.

Lemma countable_filter {A} (g : A → num) (P : A → Prop) `{∀ x, Decision (P x)} l :
  countable (map g l) → countable (map g (filter P l)).
Proof.
  intros [Hn Hb]. rewrite Forall_map in Hn. split.
  - rewrite Forall_map. rewrite Forall_forall in Hn |- *. intros x [_ Hx]%list_elem_of_filter. by apply Hn.
  - rewrite map_map in Hb |- *. eapply Z.le_lt_trans; [|exact Hb]. apply zsum_filter_le.
    eapply Forall_impl; [exact Hn|]. by intros x [].
Qed.

Lemma or_zero_natural x : natural x → or_zero x = x.
Proof.
  intros [Hx E]. unfold or_zero, num_or, num_truthy. by destruct x.
Qed.

Lemma fold_nsum {A} (v : A → num) (l : list A) x : fold_left (λ sum a, nadd sum (v a)) l x = fold_left nadd (map v l) x.
Proof. by rewrite fold_left_map. Qed.

(** Sums over the parts of a partition *)
Lemma countable_partition {A K} `{EqDecision K} (key : A → K) (g : A → num) ks l :
  NoDup ks → countable (map g l) →
  countable (map (λ k, nsum (map g (filter (λ x, key x = k) l))) ks) ∧
  nsum (map (λ k, nsum (map g (filter (λ x, key x = k) l))) ks) = nsum (map g (filter (λ x, key x ∈ ks) l)).
Proof.
  intros Hks Hc. set (part := λ k, nsum (map g (filter (λ x, key x = k) l))).
  assert (∀ k, natural (part k) ∧ cnt (part k) = zsum (map (λ x, cnt (g x)) (filter (λ x, key x = k) l))) as Hp.
  { intros k. destruct (countable_sum (map g (filter (λ x, key x = k) l))) as [Hn E]; [by apply countable_filter|].
    split; [done|]. unfold part. by rewrite E, map_map. }
  assert (zsum (map cnt (map part ks)) = zsum (map (λ x, cnt (g x)) (filter (λ x, key x ∈ ks) l))) as E.
  { rewrite map_map. rewrite <- (zsum_partition key (λ x, cnt (g x)) ks (filter (λ x, key x ∈ ks) l)).
    - f_equal. apply map_ext_in. intros k Hk%list_elem_of_In. rewrite (proj2 (Hp k)). f_equal. f_equal.
      rewrite list_filter_filter. apply list_filter_iff. intros x. naive_solver.
    - done.
    - apply Forall_forall. by intros x [? _]%list_elem_of_filter. }
  pose proof (countable_filter g (λ x, key x ∈ ks) l Hc) as Hf.
  assert (countable (map part ks)) as Hcp.
  { split; [apply Forall_map, Forall_forall; intros k _; apply Hp|]. rewrite E. destruct Hf as [_ Hf]. by rewrite map_map in Hf. }
  split; [done|]. rewrite (nsum_countable _ Hcp), (nsum_countable _ Hf), E. f_equal. by rewrite map_map.
Qed.

(** ** The maps hold the sums of the rows *)

(** A total that sums a field of the rows *)
Class SumsField (f : Stats → num) (g : QuotaDataItem → num) : Prop := {
  sums_start : f no_stats = zero;
  sums_step s item : f (add_stats s item) = nadd (f s) (g item);
}.

#[export] Instance quota_sums : SumsField st_quota (λ item, number_field (qd_quota item)).
Proof. by split. Qed.
#[export] Instance count_sums : SumsField st_count (λ item, number_field (qd_count item)).
Proof. by split. Qed.
#[export] Instance tokens_sums : SumsField st_tokens (λ item, number_field (qd_token_used item)).
Proof. by split. Qed.

Lemma add_stats_sums f g `{!SumsField f g} l s : f (fold_left add_stats l s) = fold_left nadd (map g l) (f s).
Proof. revert s. induction l as [|x l IH]; intros s; [done|]. cbn [fold_left map]. by rewrite IH, sums_step. Qed.

Section maps.
Context (f : Stats → num) (g : QuotaDataItem → num) `{!SumsField f g}.

Lemma oget_models rows m :
  oget m (modelTotalsMap rows) =
  match filter (λ item, model_of item = m) rows with [] => None | l => Some (fold_left add_stats l no_stats) end.
Proof. unfold modelTotalsMap, add_model. rewrite oget_group. by destruct (filter _ rows). Qed.

Lemma model_total rows m stats : (m, stats) ∈ modelTotalsMap rows → f stats = nsum (map g (filter (λ item, model_of item = m) rows)).
Proof using SumsField0.
  intros H. apply elem_of_oget in H; [|apply NoDup_grouped]. rewrite oget_models in H.
  destruct (filter _ rows) as [|x l]; [done|]. assert (stats = fold_left add_stats (x :: l) no_stats) as -> by congruence.
  by rewrite (add_stats_sums f g), (sums_start (f:=f) (g:=g)).
Qed.

Lemma okeys_models rows : okeys (modelTotalsMap rows) = new_set (map model_of rows).
Proof. apply okeys_grouped. Qed.

Context (dates : DateLib) (granularity : TimeGranularity).

Lemma okeys_times data : okeys (timeModelMap dates data granularity) = new_set (map (time_key dates granularity) data).
Proof. apply okeys_grouped. Qed.

(** A point of a chart: the rows of its time and model. *)
Lemma stat_at_rows data time model :
  stat_at dates data granularity f time model =
  or_zero (nsum (map g (filter (λ item, model_of item = model) (filter (λ item, time_key dates granularity item = time) data)))).
Proof using SumsField0.
  unfold stat_at, timeModelMap. rewrite oget_group. destruct (filter _ data) as [|x l] eqn:E; [done|].
  cbn [mbind option_bind]. cbn [nullish from_option default oget id].
  change (fold_left add_model (x :: l) []) with (modelTotalsMap (x :: l)). rewrite oget_models.
  destruct (filter _ (x :: l)) as [|y r]; [done|]. cbn [fmap option_fmap option_map number_field default from_option id].
  unfold number_field. cbn [default from_option id]. by rewrite (add_stats_sums f g), (sums_start (f:=f) (g:=g)).
Qed.

(** ** The points and the totals count the rows *)

Context (data : list QuotaDataItem).
Hypothesis Hc : countable (map g data).

Lemma stat_at_natural time model :
  stat_at dates data granularity f time model =
  nsum (map g (filter (λ item, model_of item = model) (filter (λ item, time_key dates granularity item = time) data))).
Proof using All.
  rewrite stat_at_rows. apply or_zero_natural. apply countable_sum.
  by apply countable_filter, countable_filter.
Qed.

(** The models of one time, in any order that has every model once *)
Lemma models_sum time models : NoDup models → (∀ item, item ∈ data → model_of item ∈ models) →
  countable (map (stat_at dates data granularity f time) models) ∧
  nsum (map (stat_at dates data granularity f time) models) = nsum (map g (filter (λ item, time_key dates granularity item = time) data)).
Proof using All.
  intros Hnd Hall. set (rows := filter (λ item, time_key dates granularity item = time) data).
  rewrite (map_ext _ (λ m, nsum (map g (filter (λ item, model_of item = m) rows)))) by (intros; apply stat_at_natural).
  destruct (countable_partition model_of g models rows) as [H1 H2]; [done|by apply countable_filter|]. split; [done|].
  rewrite H2. do 2 f_equal. apply filter_all, Forall_forall. intros item [_ Hi]%list_elem_of_filter. by apply Hall.
Qed.

(** The totals of the models sum to the total of the rows. *)
Lemma totals_sum :
  countable (map (λ stats, or_zero (f stats)) (ovalues (modelTotalsMap data))) ∧
  nsum (map (λ stats, or_zero (f stats)) (ovalues (modelTotalsMap data))) = nsum (map g data).
Proof using SumsField0 Hc.
  assert (map (λ stats, or_zero (f stats)) (ovalues (modelTotalsMap data)) =
    map (λ m, nsum (map g (filter (λ item, model_of item = m) data))) (okeys (modelTotalsMap data))) as ->.
  { unfold okeys, ovalues. change (@fmap list _) with (λ A B, @map A B). cbn. rewrite !map_map. apply map_ext_in.
    intros [m s] H%list_elem_of_In. cbn. apply model_total in H as ->. apply or_zero_natural, countable_sum. by apply countable_filter. }
  destruct (countable_partition model_of g (okeys (modelTotalsMap data)) data) as [H1 H2]; [apply NoDup_grouped|done|].
  split; [done|]. rewrite H2. do 2 f_equal. apply filter_all, Forall_forall. intros item Hi.
  rewrite okeys_models, elem_of_new_set. by apply list_elem_of_fmap_2.
Qed.
End maps.

(** ** Sums of charts *)

(** A bucket in place of the values it holds *)
Lemma countable_bucket l l' : countable (l ++ l') → countable (l ++ [nsum l']) ∧ nsum (l ++ [nsum l']) = nsum (l ++ l').
Proof.
  intros [Hn Hb]. apply Forall_app in Hn as [Hl Hl']. rewrite map_app, zsum_app in Hb.
  pose proof (natural_zsum l Hl). assert (countable l') as Hc by (split; [done|lia]).
  destruct (countable_sum l' Hc) as [Hs Es].
  assert (zsum (map cnt (l ++ [nsum l'])) = zsum (map cnt (l ++ l'))) as E.
  { rewrite !map_app, !zsum_app. f_equal. cbn [map zsum foldr]. rewrite Es. lia. }
  assert (countable (l ++ [nsum l'])) as Hc1.
  { split; [apply Forall_app; split; [done|by constructor]|]. rewrite E, map_app, zsum_app. lia. }
  split; [done|]. rewrite (nsum_countable _ Hc1), E. symmetry. apply nsum_countable.
  split; [by apply Forall_app|]. rewrite map_app, zsum_app. lia.
Qed.

(** The parts of a chart, one after the other *)
Lemma countable_parts {A K} (v : A → num) (part : K → list A) ks :
  (∀ k, k ∈ ks → countable (map v (part k))) → countable (map (λ k, nsum (map v (part k))) ks) →
  countable (map v (flat_map part ks)) ∧ nsum (map v (flat_map part ks)) = nsum (map (λ k, nsum (map v (part k))) ks).
Proof.
  intros Hp Hc. assert (zsum (map cnt (map v (flat_map part ks))) = zsum (map cnt (map (λ k, nsum (map v (part k))) ks))) as E.
  { clear Hc. induction ks as [|k ks IH]; [done|]. cbn [flat_map map zsum foldr]. rewrite map_app, map_app, zsum_app.
    change (foldr Z.add 0%Z ?l) with (zsum l). rewrite IH by (intros; apply Hp; by constructor). f_equal.
    symmetry. apply countable_sum, Hp. by constructor. }
  assert (countable (map v (flat_map part ks))) as Hc1.
  { split; [|rewrite E; apply Hc]. apply Forall_map, Forall_forall. intros x (k & Hk & Hx)%list_elem_of_In%in_flat_map.
    destruct (Hp k) as [Hn _]; [by apply list_elem_of_In|]. rewrite Forall_map, Forall_forall in Hn. by apply Hn, list_elem_of_In. }
  split; [done|]. by rewrite (nsum_countable _ Hc1), E, <- (nsum_countable _ Hc).
Qed.

Lemma NoDup_sortedModels data : NoDup (sortedModels data).
Proof. apply NoDup_sort_by, NoDup_grouped. Qed.

Lemma elem_of_sortedModels data item : item ∈ data → model_of item ∈ sortedModels data.
Proof. intros H. apply elem_of_sort_by. rewrite okeys_models, elem_of_new_set. by apply list_elem_of_fmap_2. Qed.

Section sums.
Context (dates : DateLib) (store : option CurrencyConfig) (t : option (jstring → jstring)).
Context (data : list QuotaDataItem) (granularity : TimeGranularity).

Let quotas (rows : list QuotaDataItem) : list num := map (λ item, number_field (qd_quota item)) rows.
Let counts (rows : list QuotaDataItem) : list num := map (λ item, number_field (qd_count item)) rows.
Let at_time (time : jstring) : list QuotaDataItem := filter (λ item, time_key dates granularity item = time) data.

Hypothesis Hq : countable (quotas data).
Hypothesis Hn : countable (counts data).

Lemma quotas_at time :
  countable (map (stat_at dates data granularity st_quota time) (sortedModels data)) ∧
  nsum (map (stat_at dates data granularity st_quota time) (sortedModels data)) = nsum (quotas (at_time time)).
Proof using Hq. apply (models_sum st_quota _); [done|apply NoDup_sortedModels|apply elem_of_sortedModels]. Qed.

Lemma line_sum time :
  countable (map lv_rawQuota (line_at dates store data granularity time)) ∧
  nsum (map lv_rawQuota (line_at dates store data granularity time)) = nsum (quotas (at_time time)).
Proof using Hq.
  destruct (quotas_at time) as [Hc <-].
  assert (map (stat_at dates data granularity st_quota time) (sortedModels data) ≡ₚ
          map lv_rawQuota (line_at dates store data granularity time)) as E.
  { unfold line_at. rewrite map_map. cbn [lv_rawQuota].
    rewrite (Permutation_map lv_rawQuota (sort_by_perm _ _)). by rewrite map_map. }
  split; [by apply (countable_perm _ _ E)|by apply nsum_perm].
Qed.

Lemma fold_buckets time l b :
  bk_rawQuota (fold_left (λ prev model, {| bk_rawQuota := nadd (bk_rawQuota prev) (stat_at dates data granularity st_quota time model);
      bk_usage := four_digits (nadd (bk_usage prev) (usage_of store (stat_at dates data granularity st_quota time model))) |}) l b) =
  fold_left nadd (map (stat_at dates data granularity st_quota time) l) (bk_rawQuota b).
Proof. revert b. induction l as [|m l IH]; intros b; [done|]. cbn [fold_left map]. by rewrite IH. Qed.

Lemma area_buckets time :
  map (λ v, (lv_Model v, lv_rawQuota v)) (area_at dates store t data granularity time) =
  map (λ k, (k, nsum (map (stat_at dates data granularity st_quota time) (filter (λ m, area_key t data m = k) (sortedModels data)))))
    (new_set (map (area_key t data) (sortedModels data))).
Proof.
  unfold area_at, add_bucket. rewrite map_map. rewrite <- okeys_grouped with (init := λ _, {| bk_rawQuota := zero; bk_usage := zero |})
    (step := λ prev model, {| bk_rawQuota := nadd (bk_rawQuota prev) (stat_at dates data granularity st_quota time model);
      bk_usage := four_digits (nadd (bk_usage prev) (usage_of store (stat_at dates data granularity st_quota time model))) |}).
  unfold okeys. change (@fmap list _) with (λ A B, @map A B). cbn beta. rewrite map_map. apply map_ext_in.
  intros [k v] H%list_elem_of_In%elem_of_group. destruct H as (m & r & E & ->). cbn [lv_Model lv_rawQuota fst].
  rewrite E, fold_buckets. done.
Qed.

Lemma area_sum time :
  countable (map lv_rawQuota (area_at dates store t data granularity time)) ∧
  nsum (map lv_rawQuota (area_at dates store t data granularity time)) = nsum (quotas (at_time time)).
Proof using Hq.
  destruct (quotas_at time) as [Hc <-]. pose proof (area_buckets time) as E.
  apply (f_equal (map snd)) in E. rewrite !map_map in E. cbn [snd] in E.
  change (λ x, lv_rawQuota x) with lv_rawQuota in E. rewrite E.
  destruct (countable_partition (area_key t data) (stat_at dates data granularity st_quota time)
    (new_set (map (area_key t data) (sortedModels data))) (sortedModels data)) as [H1 H2]; [apply NoDup_new_set|done|].
  split; [done|]. rewrite H2. f_equal. f_equal. apply filter_all, Forall_forall. intros m Hm. apply elem_of_new_set.
  by apply list_elem_of_fmap_2.
Qed.

Lemma ranked_models f : (ranked data f).*1 ≡ₚ okeys (modelTotalsMap data).
Proof.
  unfold ranked. change (@fmap list _) with (λ A B, @map A B). cbn beta. rewrite (Permutation_map fst (sort_by_perm _ _)), map_map.
  unfold okeys. change (@fmap list _) with (λ A B, @map A B). cbn beta. erewrite map_ext; [reflexivity|]. by intros [].
Qed.

Lemma trend_sum time :
  countable (map tv_Count (trend_at dates t data granularity time)) ∧
  nsum (map tv_Count (trend_at dates t data granularity time)) = nsum (counts (at_time time)).
Proof using Hn.
  set (point := stat_at dates data granularity st_count time).
  assert (NoDup (topTrendModels data ++ otherTrendModels data) ∧
    ∀ item, item ∈ data → model_of item ∈ topTrendModels data ++ otherTrendModels data) as [Hnd Hall].
  { unfold topTrendModels, otherTrendModels. rewrite <- fmap_app, take_drop. split.
    - rewrite ranked_models. apply NoDup_grouped.
    - intros item Hi. rewrite ranked_models, okeys_models, elem_of_new_set. by apply list_elem_of_fmap_2. }
  destruct (models_sum st_count _ dates granularity data Hn time _ Hnd Hall) as [Hc E].
  fold point in Hc, E. unfold trend_at. rewrite map_app, map_map. cbn [tv_Count]. fold point.
  assert (nsum (counts (at_time time)) = nsum (map point (topTrendModels data ++ otherTrendModels data))) as -> by (by rewrite E).
  rewrite map_app in Hc |- *. destruct (otherTrendModels data) as [|m l]; [done|].
  cbn [map]. cbn [tv_Count]. rewrite fold_nsum. by apply countable_bucket.
Qed.

(** The points of all times, sorted: the rows of these times *)
Lemma chart_sum {A} (v : A → num) (part : jstring → list A) (g : QuotaDataItem → num) cmp times :
  NoDup times → countable (map g data) →
  (∀ time, countable (map v (part time)) ∧ nsum (map v (part time)) = nsum (map g (at_time time))) →
  nsum (map v (sort_by cmp (flat_map part times))) = nsum (map g (filter (λ item, time_key dates granularity item ∈ times) data)).
Proof.
  intros Ht Hg Hp. destruct (countable_partition (time_key dates granularity) g times data Ht Hg) as [Hc E].
  rewrite <- (map_ext _ _ (λ time, proj2 (Hp time))) in Hc, E.
  destruct (countable_parts v part times) as [Hc' E']; [intros; apply Hp|done|].
  rewrite <- E, <- E'. apply nsum_perm; [|done]. apply Permutation_map. symmetry. apply sort_by_perm.
Qed.

Lemma ranked_values f : (ranked data f).*2 ≡ₚ map (λ stats, or_zero (f stats)) (ovalues (modelTotalsMap data)).
Proof.
  unfold ranked. change (@fmap list _) with (λ A B, @map A B). cbn beta. rewrite (Permutation_map snd (sort_by_perm _ _)), map_map.
  unfold ovalues. change (@fmap list _) with (λ A B, @map A B). cbn beta. rewrite map_map. erewrite map_ext; [reflexivity|]. by intros [].
Qed.

Lemma pie_sum : nsum (map pv_value (pie_values data)) = nsum (counts data).
Proof using Hn.
  destruct (totals_sum st_count _ data Hn) as [Hc E].
  etrans; [|exact E]. apply nsum_perm; [|done]. unfold pie_values. rewrite (Permutation_map pv_value (sort_by_perm _ _)), map_map.
  unfold ovalues. change (@fmap list _) with (λ A B, @map A B). cbn beta. rewrite map_map. erewrite map_ext; [reflexivity|]. by intros [].
Qed.

Lemma rank_sum : nsum (map rv_Count (rank_values t data)) = nsum (counts data).
Proof using Hn.
  destruct (totals_sum st_count _ data Hn) as [Hc E].
  assert (map rv_Count (map (λ '(model, count), {| rv_Model := model; rv_Count := count |}) (ranked data st_count)) = (ranked data st_count).*2) as Em.
  { rewrite map_map. apply map_ext. by intros []. }
  assert (countable (ranked data st_count).*2) as Hr by (eapply countable_perm; [symmetry; apply ranked_values|done]).
  assert (nsum (ranked data st_count).*2 = nsum (counts data)) as <-.
  { etrans; [|exact E]. apply nsum_perm; [symmetry; apply ranked_values|done]. }
  unfold rank_values. rewrite <- Em in Hr |- *. set (all := map _ (ranked data st_count)) in *. case_match; [|done].
  rewrite map_app. cbn [map]. cbn [rv_Count]. rewrite fold_nsum. rewrite <- (take_drop MAX_RANK_MODELS all) in Hr at 1.
  rewrite <- (take_drop MAX_RANK_MODELS all) at 3. rewrite map_app in Hr |- *. by apply countable_bucket.
Qed.

Lemma total_times : totalTimes data = nsum (counts data).
Proof using Hn. unfold totalTimes. rewrite fold_nsum. apply (totals_sum st_count _ data Hn). Qed.

Lemma total_quota : totalQuotaRaw data = nsum (quotas data).
Proof using Hq. unfold totalQuotaRaw. rewrite fold_nsum. apply (totals_sum st_quota _ data Hq). Qed.
End sums.

(** The fields that the charts add up *)
Definition quota_of (item : QuotaDataItem) : num := number_field (qd_quota item).
Definition count_of (item : QuotaDataItem) : num := number_field (qd_count item).

(** ** Users *)

Section users.
Context (dates : DateLib) (store : option CurrencyConfig) (data : list QuotaDataItem) (granularity : TimeGranularity) (limit : Z).
Hypothesis Hq : countable (map quota_of data).

Let user_rows (user : jstring) : list QuotaDataItem := filter (λ item, user_of item = user) data.

Lemma fold_user l : countable (map quota_of l) →
  fold_left (λ prev item, nadd (or_zero prev) (number_field (qd_quota item))) l zero = nsum (map quota_of l).
Proof.
  induction l as [|x l IH] using rev_ind; [done|]. intros [Hn Hb]. rewrite !map_app in Hn, Hb. rewrite map_app in Hb.
  apply Forall_app in Hn as [Hl Hx]. rewrite zsum_app in Hb. pose proof (natural_zsum _ Hx).
  assert (countable (map quota_of l)) as Hc by (split; [done|lia]).
  rewrite fold_left_app, IH by done. cbn [fold_left]. rewrite map_app. unfold nsum at 2. rewrite fold_left_app.
  fold (nsum (map quota_of l)). rewrite or_zero_natural by (by apply countable_sum). done.
Qed.

Lemma user_map rows user : countable (map quota_of rows) → oget user (fold_left add_user rows []) =
  match filter (λ item, user_of item = user) rows with [] => None | l => Some (nsum (map quota_of l)) end.
Proof.
  intros Hc. unfold add_user. rewrite oget_group. destruct (filter _ rows) as [|x l] eqn:E; [done|]. f_equal.
  change (nullish (oget user ([] : list (jstring * num))) zero) with zero. rewrite fold_user; [done|]. rewrite <- E. by apply countable_filter.
Qed.

Lemma user_total user q : (user, q) ∈ userQuotaTotal data → q = nsum (map quota_of (user_rows user)).
Proof using Hq.
  intros H. apply elem_of_oget in H; [|apply NoDup_grouped]. unfold userQuotaTotal in H. rewrite user_map in H by done.
  fold (user_rows user) in H. by destruct (user_rows user); [|injection H as <-].
Qed.

Lemma okeys_users : okeys (userQuotaTotal data) = new_set (map user_of data).
Proof. apply okeys_grouped. Qed.

Lemma rankedUsers_prefix : 0 ≤ length (sortedUsers data) → ∃ rest, sortedUsers data = rankedUsers data limit ++ rest.
Proof. intros _. unfold rankedUsers, slice, slice_nat. cbn. rewrite drop_0. eexists. symmetry. apply take_drop. Qed.

Lemma sortedUsers_names : NoDup (sortedUsers data).*1.
Proof.
  unfold sortedUsers. rewrite (fmap_Permutation fst _ _ (sort_by_perm _ _)). apply NoDup_grouped.
Qed.

Lemma NoDup_topUsers : NoDup (topUsers data limit).
Proof.
  destruct rankedUsers_prefix as [rest E]; [lia|]. pose proof sortedUsers_names as H. rewrite E, fmap_app in H.
  by apply NoDup_app in H as [H _].
Qed.

Lemma rankedUsers_total user q : (user, q) ∈ rankedUsers data limit → q = nsum (map quota_of (user_rows user)).
Proof using Hq.
  intros H. apply user_total. destruct rankedUsers_prefix as [rest E]; [lia|].
  apply (elem_of_sort_by (descending snd)). change (sort_by _ _) with (sortedUsers data). rewrite E. apply elem_of_app. by left.
Qed.

(** A point of the trend: the rows of its user and time *)
Lemma trend_point time user : user ∈ topUsers data limit →
  number_field (m ← oget time (timeUserMap dates data granularity limit); oget user m) =
  nsum (map quota_of (filter (λ item, time_key dates granularity item = time) (user_rows user))).
Proof using Hq.
  intros Hu. unfold timeUserMap. rewrite oget_group.
  set (top := filter (λ item, has (user_of item) (new_set (topUsers data limit)) = true) data).
  assert (countable (map quota_of top)) as Ht by (by apply countable_filter).
  assert (filter (λ item, user_of item = user) (filter (λ item, time_key dates granularity item = time) top) =
          filter (λ item, time_key dates granularity item = time) (user_rows user)) as E.
  { unfold top, user_rows. rewrite !list_filter_filter. apply list_filter_iff. intros item.
    rewrite has_spec, elem_of_new_set. naive_solver. }
  destruct (filter (λ item, time_key dates granularity item = time) top) as [|x l] eqn:E'.
  { rewrite <- E. done. }
  cbn [mbind option_bind]. cbn [nullish default from_option oget id].
  rewrite user_map; [|rewrite <- E'; by apply countable_filter]. rewrite E.
  assert (natural (nsum (map quota_of (filter (λ item, time_key dates granularity item = time) (user_rows user))))) as Hnat
    by (by apply countable_sum, countable_filter, countable_filter).
  destruct (filter _ (user_rows user)); [done|]. unfold number_field. cbn [default from_option id]. by apply or_zero_natural.
Qed.

Lemma trend_of_user user : user ∈ topUsers data limit →
  map ut_rawQuota (filter (λ v, ut_User v = user) (user_trend_values dates store data granularity limit)) =
  map (λ time, nsum (map quota_of (filter (λ item, time_key dates granularity item = time) (user_rows user))))
    (sortedTimePoints dates data granularity).
Proof using Hq.
  intros Hu. unfold user_trend_values. induction (sortedTimePoints dates data granularity) as [|time times IH]; [done|].
  cbn [flat_map map]. rewrite filter_app, map_app, IH. change (?a :: map ?f times) with ([a] ++ map f times). f_equal.
  rewrite filter_map. cbn [ut_User]. rewrite (filter_key_one (λ u : jstring, u) (topUsers data limit) user).
  - cbn [map]. cbn [ut_rawQuota]. by rewrite trend_point.
  - rewrite map_id. apply NoDup_topUsers.
  - done.
Qed.

Lemma trend_user_sum user : user ∈ topUsers data limit →
  nsum (map ut_rawQuota (filter (λ v, ut_User v = user) (user_trend_values dates store data granularity limit))) =
  nsum (map quota_of (user_rows user)).
Proof using Hq.
  intros Hu. rewrite trend_of_user by done.
  destruct (countable_partition (time_key dates granularity) quota_of (sortedTimePoints dates data granularity) (user_rows user)) as [_ E].
  - apply NoDup_sort_by, NoDup_new_set.
  - by apply countable_filter.
  - rewrite E. do 2 f_equal. apply filter_all, Forall_forall. intros item [_ Hi]%list_elem_of_filter.
    apply elem_of_sort_by, elem_of_new_set. by apply list_elem_of_fmap_2.
Qed.

Lemma sortedUsers_sorted : StronglySorted (λ a b, nle b.2 a.2 = true) (sortedUsers data).
Proof using Hq.
  apply (sort_numbers_sorted_down snd), Forall_forall. intros [user q] H%user_total. cbn in H. unfold proper_number. cbn [snd].
  rewrite H, nsum_countable by (by apply countable_filter). split; [apply of_Z_valid|].
  apply of_Z_finite. assert (countable (map quota_of (user_rows user))) as [Hn Hb] by (by apply countable_filter).
  split; [by apply natural_zsum|done].
Qed.
End users.

(** ** The charts of a dashboard *)

(** The distinct times of the rows *)
Definition row_times (dates : DateLib) (granularity : TimeGranularity) (data : list QuotaDataItem) : list jstring :=
  new_set (map (time_key dates granularity) data).

Lemma chartTimes_long dates data granularity : 7 ≤ length (row_times dates granularity data) →
  NoDup (chartTimes dates data granularity) ∧ ∀ item, item ∈ data → time_key dates granularity item ∈ chartTimes dates data granularity.
Proof.
  intros H. unfold chartTimes, fillTimePoints, sortedTimes. rewrite length_sort_by, okeys_times.
  unfold row_times in H. destruct (Nat.leb_spec MAX_CHART_TREND_POINTS (length (new_set (map (time_key dates granularity) data)))) as [_|Hlt].
  - split; [apply NoDup_sort_by, NoDup_new_set|]. intros item Hi. apply elem_of_sort_by, elem_of_new_set. by apply list_elem_of_fmap_2.
  - unfold MAX_CHART_TREND_POINTS in Hlt. lia.
Qed.

Lemma stats_sum f g `{!SumsField f g} data : f (calculateDashboardStats data) = nsum (map g data).
Proof. unfold calculateDashboardStats. rewrite (add_stats_sums f g), (sums_start (f:=f) (g:=g)). done. Qed.

Section dashboard.
Context (dates : DateLib) (localeCompare : jstring → jstring → Z).
Context (NumberFormat : option jstring → NumberFormatOptions → num → jstring) (toLocaleString : num → jstring).
Context (scheme : list ColorScheme) (store : option CurrencyConfig) (t : option (jstring → jstring)).
Context (data : list QuotaDataItem) (granularity : TimeGranularity).

Let result := processChartData dates localeCompare NumberFormat toLocaleString scheme store t data granularity.

Lemma result_sums : NoDup (chartTimes dates data granularity) → countable (map quota_of data) → countable (map count_of data) →
  let shown := filter (λ item, time_key dates granularity item ∈ chartTimes dates data granularity) data in
  nsum (map lv_rawQuota (lineValues result)) = nsum (map quota_of shown) ∧
  nsum (map lv_rawQuota (areaValues result)) = nsum (map quota_of shown) ∧
  nsum (map tv_Count (modelLineValues result)) = nsum (map count_of shown) ∧
  nsum (map pv_value (pieValues result)) = nsum (map count_of data) ∧
  nsum (map rv_Count (rankValues result)) = nsum (map count_of data).
Proof.
  intros Ht Hq Hn. unfold result, processChartData. destruct data as [|row rows] eqn:Ed; [done|].
  rewrite <- Ed in *. clear Ed. cbn [lineValues areaValues modelLineValues pieValues rankValues].
  split_and!.
  - apply chart_sum; [done..|]. intros time. by apply line_sum.
  - apply chart_sum; [done..|]. intros time. by apply area_sum.
  - apply chart_sum; [done..|]. intros time. by apply trend_sum.
  - by apply pie_sum.
  - by apply rank_sum.
Qed.

(** The charts over time show the rows whose time is one of their points, and no
    other row, when the points are distinct. *)
Lemma chart_rows : NoDup (chartTimes dates data granularity) → countable (map quota_of data) → countable (map count_of data) →
  let shown := filter (λ item, time_key dates granularity item ∈ chartTimes dates data granularity) data in
  nsum (map lv_rawQuota (lineValues result)) = nsum (map quota_of shown) ∧
  nsum (map lv_rawQuota (areaValues result)) = nsum (map quota_of shown) ∧
  nsum (map tv_Count (modelLineValues result)) = nsum (map count_of shown).
Proof. intros Ht Hq Hn. cbn zeta. by destruct (result_sums Ht Hq Hn) as (? & ? & ? & _). Qed.

(** C26: Rows of at least seven distinct times are all shown: each chart adds up to the
    statistics of the same rows, and these are the totals written beside the charts. *)
Theorem charts_agree : 7 ≤ length (row_times dates granularity data) →
  countable (map quota_of data) → countable (map count_of data) →
  let stats := calculateDashboardStats data in
  nsum (map lv_rawQuota (lineValues result)) = st_quota stats ∧
  nsum (map lv_rawQuota (areaValues result)) = st_quota stats ∧
  nsum (map tv_Count (modelLineValues result)) = st_count stats ∧
  nsum (map pv_value (pieValues result)) = st_count stats ∧
  nsum (map rv_Count (rankValues result)) = st_count stats ∧
  totalQuotaDisplay result = formatQuotaTotal toLocaleString store (st_quota stats) ∧
  totalCountDisplay result = formatInt NumberFormat (st_count stats).
Proof.
  intros H7 Hq Hn. destruct (chartTimes_long _ _ _ H7) as [Ht Hall]. cbn zeta.
  rewrite (stats_sum st_quota quota_of), (stats_sum st_count count_of).
  destruct (result_sums Ht Hq Hn) as (H1 & H2 & H3 & H4 & H5). rewrite H1, H2, H3, H4, H5.
  rewrite (filter_all _ data) by (by apply Forall_forall).
  unfold result, processChartData. destruct data as [|row rows] eqn:Ed; [by cbn in H7; lia|]. rewrite <- Ed in *.
  cbn [totalQuotaDisplay totalCountDisplay]. by rewrite total_quota, total_times.
Qed.

(** *** Names of series *)

Lemma series_names {A} (name : A → jstring) (l : list A) (allowed : list jstring) :
  (∀ x, x ∈ l → name x ∈ allowed) → length (new_set (map name l)) ≤ length allowed.
Proof.
  intros H. apply submseteq_length, NoDup_submseteq; [apply NoDup_new_set|].
  intros k Hk. apply elem_of_new_set, list_elem_of_fmap in Hk as (x & -> & Hx). by apply H.
Qed.

Lemma elem_of_sorted_flat {A} (cmp : A → A → Z) (part : jstring → list A) times x :
  x ∈ sort_by cmp (flat_map part times) → ∃ time, x ∈ part time.
Proof. intros H%elem_of_sort_by%list_elem_of_In%in_flat_map. destruct H as (time & _ & H). exists time. by apply list_elem_of_In. Qed.

Lemma area_names v : v ∈ areaValues result → ∃ m, m ∈ sortedModels data ∧ lv_Model v = area_key t data m.
Proof.
  unfold result, processChartData. destruct data as [|row rows] eqn:Ed; [by intros ?%elem_of_nil|]. rewrite <- Ed. clear Ed. cbn [areaValues].
  intros (time & Hv)%elem_of_sorted_flat.
  pose proof (list_elem_of_fmap_2 (λ v, (lv_Model v, lv_rawQuota v)) _ _ Hv) as H. change (@fmap list _) with (λ A B, @map A B) in H. cbn beta in H.
  rewrite area_buckets in H. apply list_elem_of_In, in_map_iff in H as (k & [= <- _] & Hk).
  apply list_elem_of_In, elem_of_new_set, list_elem_of_fmap in Hk as (m & -> & Hm). by exists m.
Qed.

Lemma trend_names v : v ∈ modelLineValues result →
  tv_Model v ∈ topTrendModels data ∨ tv_Model v = otherLabel t ∧ otherTrendModels data ≠ [].
Proof.
  unfold result, processChartData. destruct data as [|row rows] eqn:Ed; [by intros ?%elem_of_nil|]. rewrite <- Ed. clear Ed. cbn [modelLineValues].
  intros (time & Hv)%elem_of_sorted_flat. unfold trend_at in Hv. apply elem_of_app in Hv as [Hv|Hv].
  - apply list_elem_of_fmap in Hv as (m & -> & Hm). by left.
  - destruct (otherTrendModels data); [by apply elem_of_nil in Hv|]. apply list_elem_of_singleton in Hv as ->. by right.
Qed.

(** However many models there are, the chart of areas has at most sixteen series, the
    trend at most twenty-one, and the ranking at most twenty-one bars; each name is in the
    domain of the colours. *)
Lemma series_bounded :
  length (new_set (map lv_Model (areaValues result))) ≤ 16 ∧
  length (new_set (map tv_Model (modelLineValues result))) ≤ 21 ∧
  length (rankValues result) ≤ 21 ∧
  ∀ name, name ∈ map lv_Model (areaValues result) ++ map tv_Model (modelLineValues result) ++ map rv_Model (rankValues result) →
    ∃ c, modelColor result = Some c ∧ name ∈ domain c.
Proof.
  assert (∀ m, m ∈ sortedModels data ∨ m = otherLabel t → m ∈ domain (modelColors scheme t data)) as Hd.
  { intros m Hm. unfold modelColors. cbn [domain]. rewrite elem_of_new_set, elem_of_app, list_elem_of_singleton. done. }
  assert (∀ m f, m ∈ (ranked data f).*1 → m ∈ sortedModels data) as Hr.
  { intros m f Hm. rewrite ranked_models in Hm. by apply elem_of_sort_by. }
  assert (∀ v, v ∈ rankValues result → rv_Model v ∈ sortedModels data ∨ rv_Model v = otherLabel t) as Hrank.
  { intros v. unfold result, processChartData. destruct data as [|row rows] eqn:Ed; [by intros ?%elem_of_nil|]. rewrite <- Ed in *. clear Ed.
    cbn [rankValues]. unfold rank_values. intros Hv.
    assert (v ∈ map (λ '(model, count), {| rv_Model := model; rv_Count := count |}) (ranked data st_count) → rv_Model v ∈ sortedModels data) as Hall.
    { intros ([m c] & -> & Hm)%list_elem_of_fmap. apply (Hr _ st_count). cbn. by apply (list_elem_of_fmap_2 fst _ (m, c)). }
    case_match; [|by left; apply Hall]. apply elem_of_app in Hv as [Hv|Hv]; [|apply list_elem_of_singleton in Hv as ->; by right].
    left. apply Hall. by eapply subseteq_take. }
  split_and!.
  - etrans; [apply (series_names _ _ (topAreaModels data ++ [otherLabel t]))|].
    + intros v (m & _ & ->)%area_names. unfold area_key. rewrite elem_of_app, list_elem_of_singleton. case_match eqn:E; [|by right].
      left. by apply has_spec.
    + rewrite length_app. cbn [length]. enough (length (topAreaModels data) ≤ 15) by lia. unfold topAreaModels.
      transitivity (length (take MAX_AREA_MODELS (ranked data st_quota)).*1).
      { apply submseteq_length, NoDup_submseteq; [apply NoDup_new_set|]. intros k Hk. by rewrite elem_of_new_set in Hk. }
      rewrite length_fmap, length_take. unfold MAX_AREA_MODELS. lia.
  - etrans; [apply (series_names _ _ (topTrendModels data ++ [otherLabel t]))|].
    + intros v [Hv|[-> _]]%trend_names; rewrite elem_of_app, list_elem_of_singleton; auto.
    + rewrite length_app. unfold topTrendModels. rewrite length_fmap, length_take. cbn [length]. unfold MAX_TREND_MODELS. lia.
  - unfold result, processChartData. destruct data as [|row rows] eqn:Ed; [cbn; lia|]. rewrite <- Ed. clear Ed.
    cbn [rankValues]. unfold rank_values. set (all := map _ (ranked _ _)). destruct (Nat.ltb_spec MAX_RANK_MODELS (length all)) as [_|Hle].
    + rewrite length_app, length_take. cbn [length]. unfold MAX_RANK_MODELS. lia.
    + unfold MAX_RANK_MODELS in Hle. lia.
  - intros name Hname.
    assert (name ∈ domain (modelColors scheme t data)) as Hin.
    { apply Hd. rewrite !elem_of_app in Hname. destruct Hname as [Hname|[Hname|Hname]]; apply list_elem_of_fmap in Hname as (v & -> & Hv).
      - apply area_names in Hv as (m & Hm & ->). unfold area_key. case_match; auto.
      - apply trend_names in Hv as [Hv|[-> _]]; [|by right]. left. apply (Hr _ st_count).
        unfold topTrendModels in Hv. apply list_elem_of_fmap in Hv as (x & -> & Hx). apply list_elem_of_fmap_2. by eapply subseteq_take.
      - by apply Hrank. }
    unfold result, processChartData in *. destruct data as [|row rows]; [by apply elem_of_nil in Hname|]. by eexists.
Qed.
End dashboard.

(** ** The charts of users *)

Section user_charts.
Context (dates : DateLib) (toLocaleString : num → jstring) (store : option CurrencyConfig) (t : option (jstring → jstring)).
Context (data : list QuotaDataItem) (granularity : TimeGranularity) (limit : Z).

Let result := processUserChartData dates toLocaleString store t data granularity limit.
Let total (user : jstring) : num := nsum (map quota_of (filter (λ item, user_of item = user) data)).

Lemma user_result : user_rank result = user_rank_values store data limit ∧ user_trend result = user_trend_values dates store data granularity limit.
Proof.
  unfold result, processUserChartData. destruct data; [|done]. split; [|done].
  unfold user_rank_values, rankedUsers, slice, slice_nat, sortedUsers. cbn. by rewrite drop_nil, take_nil.
Qed.

Lemma rank_entry x : x ∈ user_rank_values store data limit → (ur_User x, ur_rawQuota x) ∈ rankedUsers data limit.
Proof. intros H. apply list_elem_of_fmap in H as ([u q] & -> & H). done. Qed.

Lemma rank_users : map ur_User (user_rank_values store data limit) = topUsers data limit.
Proof. unfold user_rank_values, topUsers. rewrite map_map. apply map_ext. by intros []. Qed.

(** C27: Each user of the ranking has the total of its rows, its points over time add up
    to it, the ranking is descending within its limit, and no user left out has more. *)
Theorem user_charts_agree : (0 <= limit)%Z → countable (map quota_of data) →
  length (user_rank result) ≤ Z.to_nat limit ∧
  StronglySorted (λ a b, nle (ur_rawQuota b) (ur_rawQuota a) = true) (user_rank result) ∧
  ∀ x, x ∈ user_rank result →
    ur_rawQuota x = total (ur_User x) ∧
    nsum (map ut_rawQuota (filter (λ v, ut_User v = ur_User x) (user_trend result))) = ur_rawQuota x ∧
    ∀ item, item ∈ data → user_of item ∉ map ur_User (user_rank result) → nle (total (user_of item)) (ur_rawQuota x) = true.
Proof.
  intros Hl Hq. destruct user_result as [-> ->]. pose proof (sortedUsers_sorted data Hq) as Hs.
  destruct (rankedUsers_prefix data limit) as [rest E]; [lia|]. rewrite E in Hs. split_and!.
  - unfold user_rank_values. rewrite length_map. unfold rankedUsers, slice, slice_nat. rewrite length_take.
    unfold rel_index. rewrite (bool_decide_false (limit < 0)%Z) by lia. lia.
  - apply StronglySorted_app_1_l in Hs. unfold user_rank_values. clear - Hs.
    induction Hs as [|[u q] l Hs IH Hf]; [constructor|]. cbn [map]. constructor; [done|]. apply Forall_map.
    eapply Forall_impl; [exact Hf|]. by intros [].
  - intros x Hx. pose proof (rank_entry x Hx) as Hr. pose proof (rankedUsers_total data limit Hq _ _ Hr) as Et.
    split; [exact Et|]. rewrite rank_users. split.
    + rewrite trend_user_sum; [by rewrite Et|done|]. rewrite <- rank_users. by apply list_elem_of_fmap_2.
    + intros item Hi Hnot.
      assert (user_of item ∈ (sortedUsers data).*1) as Hu.
      { unfold sortedUsers. rewrite (fmap_Permutation fst _ _ (sort_by_perm _ _)). change (_.*1) with (okeys (userQuotaTotal data)).
        rewrite okeys_users, elem_of_new_set. by apply list_elem_of_fmap_2. }
      rewrite E, fmap_app in Hu. apply elem_of_app in Hu as [Hu|Hu]; [done|].
      apply list_elem_of_fmap in Hu as ([u q] & Eu & Hu). cbn in Eu. subst u.
      pose proof (StronglySorted_app_1_elem_of _ _ _ _ _ Hs Hr Hu) as Hle. cbn in Hle.
      assert ((user_of item, q) ∈ userQuotaTotal data) as Hin.
      { apply (elem_of_sort_by (descending snd)). change (sort_by _ _) with (sortedUsers data). rewrite E. apply elem_of_app. by right. }
      apply user_total in Hin; [|done]. unfold total. by rewrite <- Hin.
Qed.
End user_charts.

(** ** The tooltip of a time *)

Section tooltip.
Context (dates : DateLib) (toLocaleString : num → jstring) (scheme : list ColorScheme) (store : option CurrencyConfig).
Context (t : option (jstring → jstring)) (data : list QuotaDataItem) (granularity : TimeGranularity) (time : jstring).

Let values := line_at dates store data granularity time.
Let total : num := nsum (map quota_of (filter (λ item, time_key dates granularity item = time) data)).

Lemma line_TimeSum v : countable (map quota_of data) → v ∈ values → lv_TimeSum v = total ∧ natural (lv_rawQuota v).
Proof.
  intros Hq Hv. split.
  - unfold values, line_at in Hv. apply list_elem_of_fmap in Hv as (w & -> & _). cbn [lv_TimeSum].
    rewrite fold_nsum, map_map. cbn [lv_rawQuota]. fold (nsum (map (stat_at dates data granularity st_quota time) (sortedModels data))).
    by apply quotas_at.
  - destruct (line_sum dates store data granularity Hq time) as [[Hn _] _]. rewrite Forall_map, Forall_forall in Hn. by apply Hn.
Qed.

Lemma tooltip_sum_total array x : natural x → Forall (λ item, ∃ v, tl_datum item = Some v ∧ lv_TimeSum v = x) array → array ≠ [] →
  tooltip_sum array = x.
Proof.
  intros Hx Hall Hne. pose proof (or_zero_natural x Hx) as Ex. unfold or_zero, num_or in Ex. unfold tooltip_sum.
  set (F := λ sum item, _). assert (∀ s item, item ∈ array → F s item = if num_truthy x then x else s) as HF.
  { intros s item Hi. rewrite Forall_forall in Hall. destruct (Hall item Hi) as (v & Ev & Es). unfold F. by rewrite Ev, Es. }
  clearbody F. assert (∀ s, s = x ∨ s = zero → fold_left F array s = if num_truthy x then x else s) as H; [|by rewrite H by auto].
  destruct array as [|item l]; [done|]. clear Hne Hall. intros s _. cbn [fold_left]. rewrite HF by by left.
  assert (∀ item, item ∈ l → ∀ s, F s item = if num_truthy x then x else s) as HF' by (intros; apply HF; by right). clear HF.
  induction l as [|y l IH]; [done|]. cbn [fold_left]. rewrite HF' by by left.
  destruct (num_truthy x); apply IH; intros; apply HF'; by right.
Qed.

Lemma filter_bool_perm {A} (p : A → bool) (l : list A) : filter (λ x, p x = false) l ++ filter (λ x, p x = true) l ≡ₚ l.
Proof.
  induction l as [|x l IH]; [done|]. rewrite !filter_cons. destruct (p x); cbn [decide]; repeat (case_decide; try done).
  - rewrite <- Permutation_middle. by rewrite IH.
  - cbn [app]. by rewrite IH.
Qed.

Lemma tooltip_order_perm array : (tooltip_order t array).1 ++ (tooltip_order t array).2 ≡ₚ array.
Proof. unfold tooltip_order. cbn [fst snd]. rewrite (sort_by_perm _ _). apply (filter_bool_perm (λ item, isOtherTooltipKey t (tl_key item))). Qed.

Let written (item : TooltipLineItem) : TooltipLineItem := with_value item (formatQuotaValue toLocaleString store (raw_of item)).
Let other_line (hidden : list TooltipLineItem) : TooltipLineItem :=
  {| tl_key := otherLabel t; tl_value := JStr (formatQuotaValue toLocaleString store (nsum (map raw_of hidden)));
     tl_datum := None; tl_shapeFill := Some (otherTooltipColor scheme t data) |}.

(** C28: The tooltip of a time starts with the total of its rows; its lines, at most fifteen,
    and the rest in one more line account for this total, whatever the order in which
    the chart hands the lines over. *)
Theorem tooltip_accounts array : countable (map quota_of data) → array ≡ₚ map dimension_line values → array ≠ [] →
  ∃ visible hidden, visible ++ hidden ≡ₚ array ∧ length visible ≤ 15 ∧
    nsum (map raw_of visible ++ [nsum (map raw_of hidden)]) = total ∧
    updateContent toLocaleString scheme store t data true array =
      plain_line (tt t "Total:") (formatQuotaValue toLocaleString store total) ::
      map written visible ++ match hidden with [] => [] | _ => [other_line hidden] end.
Proof.
  intros Hq Ha Hne. destruct (tooltip_order t array) as [modelItems otherItems] eqn:Eo.
  pose proof (tooltip_order_perm array) as Hp. rewrite Eo in Hp. cbn [fst snd] in Hp.
  assert (∀ item, item ∈ modelItems ++ otherItems → ∃ v, v ∈ values ∧ item = dimension_line v) as Hitems.
  { intros item Hi. rewrite Hp, Ha in Hi. apply list_elem_of_fmap in Hi as (v & -> & Hv). by exists v. }
  assert (∀ item, item ∈ modelItems ++ otherItems → line_number item = raw_of item) as Hline.
  { intros item (v & Hv & ->)%Hitems. destruct (line_TimeSum v Hq Hv) as [_ Hn].
    unfold line_number, raw_of. cbn [tl_value tl_datum dimension_line to_number]. by rewrite !(or_zero_natural _ Hn). }
  destruct (line_sum dates store data granularity Hq time) as [Hc Et]. fold values in Hc, Et. fold quota_of in Et.
  assert (map raw_of (modelItems ++ otherItems) ≡ₚ map lv_rawQuota values) as Hraw.
  { rewrite Hp, Ha, map_map. erewrite map_ext_in; [reflexivity|]. intros v Hv%list_elem_of_In.
    destruct (line_TimeSum v Hq Hv) as [_ Hn]. by apply or_zero_natural. }
  assert (tooltip_sum (modelItems ++ otherItems) = total) as Hsum.
  { apply tooltip_sum_total.
    - by apply countable_sum, countable_filter.
    - apply Forall_forall. intros item (v & Hv & ->)%Hitems. exists v. split; [done|]. by apply line_TimeSum.
    - intros E. rewrite E in Hp. by apply Permutation_nil_l in Hp. }
  assert (∀ visible hidden, visible ++ hidden = modelItems ++ otherItems →
    nsum (map raw_of visible ++ [nsum (map raw_of hidden)]) = total) as Hacc.
  { intros visible hidden E. assert (countable (map raw_of visible ++ map raw_of hidden)) as Hcc.
    { rewrite <- map_app, E. by apply (countable_perm _ _ (symmetry Hraw)). }
    destruct (countable_bucket _ _ Hcc) as [_ ->]. rewrite <- map_app, E. rewrite (nsum_perm _ _ (symmetry Hraw) Hc). exact Et. }
  assert (∀ l, (∀ item, item ∈ l → item ∈ modelItems ++ otherItems) →
    map (λ item, with_value item (formatQuotaValue toLocaleString store (line_number item))) l = map written l) as Hw.
  { intros l Hl. apply map_ext_in. intros item Hi%list_elem_of_In. unfold written. by rewrite Hline by auto. }
  unfold updateContent. rewrite Eo, Hsum. cbn [andb]. destruct (Nat.ltb_spec MAX_TOOLTIP_MODELS (length (modelItems ++ otherItems))) as [Hlt|Hle].
  - exists (take MAX_TOOLTIP_MODELS modelItems), (drop MAX_TOOLTIP_MODELS modelItems ++ otherItems).
    assert (take MAX_TOOLTIP_MODELS modelItems ++ drop MAX_TOOLTIP_MODELS modelItems ++ otherItems = modelItems ++ otherItems) as E
      by (by rewrite app_assoc, take_drop).
    split_and!.
    + by rewrite E.
    + rewrite length_take. unfold MAX_TOOLTIP_MODELS. lia.
    + by apply Hacc.
    + f_equal. rewrite Hw by (intros item Hi; rewrite <- E; apply elem_of_app; by left). f_equal. rewrite fold_nsum.
      unfold other_line. destruct (drop MAX_TOOLTIP_MODELS modelItems ++ otherItems) eqn:E'; [|done].
      rewrite <- E, length_app, length_take in Hlt. cbn [length] in Hlt. lia.
  - exists (modelItems ++ otherItems), []. rewrite !app_nil_r. split_and!; [done|done|by apply Hacc; rewrite app_nil_r|].
    by rewrite Hw.
Qed.
End tooltip.

(** ** Examples *)

Module UtcDates.
(** A date library for times in seconds, in UTC: the civil calendar. *)
Definition month_day (days : Z) : Z * Z :=
  let z := (days + 719468)%Z in
  let doe := (z mod 146097)%Z in
  let yoe := ((doe - doe / 1460 + doe / 36524 - doe / 146096) / 365)%Z in
  let doy := (doe - (365 * yoe + yoe / 4 - yoe / 100))%Z in
  let mp := ((5 * doy + 2) / 153)%Z in
  ((if mp <? 10 then mp + 3 else mp - 9)%Z, (doy - (153 * mp + 2) / 5 + 1)%Z).

Definition two_digits (n : Z) : jstring := [(48 + Z.to_N (n / 10))%N; (48 + Z.to_N (n mod 10))%N].

Definition utc_dates : DateLib := {|
  moment := Z;
  dayjs := λ ms, (default 0 (floor_Z ms) / 1000)%Z;
  moment_format := λ seconds pattern,
    if bool_decide (pattern = "HH") then two_digits (seconds / 3600 mod 24)%Z
    else let '(m, d) := month_day (seconds / 86400) in two_digits m ++ "-" ++ two_digits d;
  add_days := λ seconds days, (seconds + days * 86400)%Z |}.

Definition usage (user model : jstring) (seconds quota : Z) : QuotaDataItem := {|
  qd_username := Some user; qd_model_name := Some model; qd_created_at := of_Z seconds; qd_token_used := None;
  qd_count := Some (of_Z 1); qd_quota := Some (of_Z quota) |}.

(** Midnight of the 28th of December 2024 *)
Definition late_december : Z := 1735344000.

Definition no_format : option jstring → NumberFormatOptions → num → jstring := λ _ _ n, Number_to_string n.

Definition charts (data : list QuotaDataItem) (granularity : TimeGranularity) : ProcessedChartData :=
  processChartData utc_dates compare_units no_format Number_to_string [] None None data granularity.

(** Two hours of one day, at nine and at twenty *)
Definition two_hours : list QuotaDataItem :=
  [usage "a" "m" (late_december + 9 * 3600) 7; usage "a" "m" (late_december + 20 * 3600) 5].

(** A row of each of eight days, from the 28th of December to the 4th of January *)
Definition eight_days : list QuotaDataItem :=
  map (λ i, usage (if Nat.even i then "even" else "odd") "m" (late_december + Z.of_nat i * 86400) (Z.of_nat i + 1)) (seq 0 8).

(** Rows of one hour for seventeen models *)
Definition many_models : list QuotaDataItem :=
  map (λ i, usage "a" (two_digits (Z.of_nat i)) late_december (Z.of_nat i)) (seq 0 17).
End UtcDates.

Section examples.
Import UtcDates.

(** Of two hours with requests, the one eight hours and more before the last is in no
    chart over time, while the totals beside them count it. *)
Example early_rows_lost :
  nsum (map quota_of two_hours) = of_Z 12 ∧
  totalCountDisplay (charts two_hours hour) = "2" ∧
  nsum (map lv_rawQuota (lineValues (charts two_hours hour))) = of_Z 5 ∧
  nsum (map lv_rawQuota (areaValues (charts two_hours hour))) = of_Z 5 ∧
  nsum (map tv_Count (modelLineValues (charts two_hours hour))) = of_Z 1.
Proof. by vm_compute. Qed.

(** Days around the end of a year: January comes before December. *)
Example year_end_order : map lv_Time (lineValues (charts eight_days day)) =
  (["01-01"; "01-02"; "01-03"; "01-04"; "12-28"; "12-29"; "12-30"; "12-31"] : list jstring).
Proof. by vm_compute. Qed.

Example chart_rows_witness :
  nsum (map lv_rawQuota (lineValues (charts two_hours hour))) =
  nsum (map quota_of (filter (λ item, time_key utc_dates hour item ∈ chartTimes utc_dates two_hours hour) two_hours)).
Proof.
  apply (chart_rows utc_dates compare_units no_format Number_to_string [] None None two_hours hour);
    by apply (bool_decide_unpack _); vm_compute.
Defined.

Example charts_agree_witness : nsum (map lv_rawQuota (areaValues (charts eight_days day))) = st_quota (calculateDashboardStats eight_days).
Proof.
  apply (charts_agree utc_dates compare_units no_format Number_to_string [] None None eight_days day);
    by apply (bool_decide_unpack _); vm_compute.
Defined.

Example user_charts_agree_witness :
  length (user_rank (processUserChartData utc_dates Number_to_string None None eight_days day 1)) ≤ 1.
Proof.
  apply (user_charts_agree utc_dates Number_to_string None None eight_days day 1); by apply (bool_decide_unpack _); vm_compute.
Defined.

Example tooltip_accounts_witness : ∃ visible hidden,
  visible ++ hidden ≡ₚ map dimension_line (line_at utc_dates None many_models hour (time_key utc_dates hour (usage "a" "m" late_december 0))) ∧
  length visible ≤ 15.
Proof.
  destruct (tooltip_accounts utc_dates Number_to_string [] None None many_models hour
    (time_key utc_dates hour (usage "a" "m" late_december 0))
    (map dimension_line (line_at utc_dates None many_models hour (time_key utc_dates hour (usage "a" "m" late_december 0)))))
    as (visible & hidden & H1 & H2 & _).
  - by apply (bool_decide_unpack _); vm_compute.
  - reflexivity.
  - by vm_compute.
  - by exists visible, hidden.
Defined.
End examples.
