(* ===== verification/AccountForms.v ===== *)
(** * AccountForms: the forms of keys, redemption codes, plans, models and users

    [features/keys/lib/api-key-form.ts, features/redemption-codes/lib/redemption-form.ts,
    features/subscriptions/lib/plan-form.ts, features/models/lib/model-form.ts,
    features/users/lib/user-form.ts] and [lib/admin-permissions.ts]: the form a stored
    record is opened with, the payload that is sent, and the matrix of permissions.
    A [Date] is its time in milliseconds.  The theorems compose the two directions:
    what is sent is opened as a form that sends it again. *)
From Stdlib Require Import Floats.SpecFloat.
From S2P Require Import Prelude JsString JsNumber JsFloat JsRounding JsValue JsJson Currency Format SidebarConfig.

(** [Math.floor(date.getTime() / 1000)], and [new Date(seconds * 1000)] *)
Definition date_seconds (ms : Z) : Z := (ms / 1000)%Z.
Definition seconds_date (seconds : Z) : Z := (seconds * 1000)%Z.

(** [text.split(',').filter(Boolean)] *)
Definition split_names (text : jstring) : list jstring := filter (λ x, truthy x = true) (split_unit (cu ",") text).

Section forms.
(** The currency in the store of the configuration *)
Variable store : option CurrencyConfig.

(** ** Keys *)

Inductive AutoGroupMode := mode_all | mode_specific.

#[export] Instance AutoGroupMode_eq_dec : EqDecision AutoGroupMode.
Proof. solve_decision. Defined.

Record ApiKeyFormValues := {
  kf_name : jstring;
  kf_remain_quota_dollars : option num;
  kf_expired_time : option Z;
  kf_unlimited_quota : bool;
  kf_model_limits : list jstring;
  kf_model_mapping : jstring;
  kf_allow_ips : option jstring;
  kf_group : jstring;
  kf_auto_group_mode : AutoGroupMode;
  kf_auto_group_candidates : list jstring;
  kf_tokenCount : option Z;
}.

(** The fields of a key that the form reads *)
Record ApiKey := {
  k_name : jstring;
  k_remain_quota : num;
  k_expired_time : Z;
  k_unlimited_quota : bool;
  k_model_limits : option jstring;
  k_model_mapping : option jstring;
  k_allow_ips : option jstring;
  k_group : option jstring;
  k_auto_group_candidates : option (list jstring);
}.

Record ApiKeyFormData := {
  kp_name : jstring;
  kp_remain_quota : num;
  kp_expired_time : Z;
  kp_unlimited_quota : bool;
  kp_model_limits_enabled : bool;
  kp_model_limits : jstring;
  kp_model_mapping : jstring;
  kp_allow_ips : jstring;
  kp_group : jstring;
  kp_auto_group_candidates : list jstring;
}.

(** The rules added to the schema: the paths and the messages of the issues. *)
Definition api_key_issues (t : jstring → jstring) (data : ApiKeyFormValues) : list (jstring * jstring) :=
  (if negb (kf_unlimited_quota data) &&
      match kf_remain_quota_dollars data with None => true | Some q => nlt q zero end
   then [("remain_quota_dollars" : jstring, t "Quota must be zero or greater")] else []) ++
  (if bool_decide (kf_group data = "auto") && bool_decide (kf_auto_group_mode data = mode_specific) &&
      bool_decide (kf_auto_group_candidates data = [])
   then [("auto_group_candidates" : jstring, t "Select at least one group for Auto")] else []).

Definition resolveAutoGroupCandidates (availableGroups autoGroups : list jstring) : list jstring :=
  let available := new_set (filter (λ group, truthy group && negb (bool_decide (group = "auto")) = true) availableGroups) in
  (fold_left (λ '(resolved, seen) group,
     if negb (has group available) || has group seen then (resolved, seen)
     else (resolved ++ [group], set_add group seen)) autoGroups ([], [])).1.

Definition getApiKeyFormDefaultValues : ApiKeyFormValues := {|
  kf_name := []; kf_remain_quota_dollars := Some (of_Z 10); kf_expired_time := None; kf_unlimited_quota := true;
  kf_model_limits := []; kf_model_mapping := []; kf_allow_ips := Some []; kf_group := "auto"; kf_auto_group_mode := mode_all;
  kf_auto_group_candidates := []; kf_tokenCount := Some 1%Z |}.

Definition not_auto (groups : list jstring) : list jstring := filter (λ group, group ≠ ("auto" : jstring)) groups.

Definition key_payload (data : ApiKeyFormValues) : ApiKeyFormData := {|
  kp_name := kf_name data;
  kp_remain_quota := if kf_unlimited_quota data then zero
    else parseQuotaFromDollars store (num_or (default nan (kf_remain_quota_dollars data)) zero);
  kp_expired_time := match kf_expired_time data with Some date => date_seconds date | None => -1 end;
  kp_unlimited_quota := kf_unlimited_quota data;
  kp_model_limits_enabled := (0 <? length (kf_model_limits data))%nat;
  kp_model_limits := join "," (kf_model_limits data);
  kp_model_mapping := kf_model_mapping data;
  kp_allow_ips := ostr_or (kf_allow_ips data) [];
  kp_group := str_or (kf_group data) "auto";
  kp_auto_group_candidates :=
    if bool_decide (kf_group data = "auto") && bool_decide (kf_auto_group_mode data = mode_specific)
    then not_auto (kf_auto_group_candidates data) else [] |}.

Definition key_form (apiKey : ApiKey) : ApiKeyFormValues :=
  let autoGroupCandidates := default [] (k_auto_group_candidates apiKey) in {|
  kf_name := k_name apiKey;
  kf_remain_quota_dollars := Some (if k_unlimited_quota apiKey then zero else quotaUnitsToDollars store (k_remain_quota apiKey));
  kf_expired_time := if (0 <? k_expired_time apiKey)%Z then Some (seconds_date (k_expired_time apiKey)) else None;
  kf_unlimited_quota := k_unlimited_quota apiKey;
  kf_model_limits := match k_model_limits apiKey with Some (c :: s) => split_names (c :: s) | _ => [] end;
  kf_model_mapping := ostr_or (k_model_mapping apiKey) [];
  kf_allow_ips := Some (ostr_or (k_allow_ips apiKey) []);
  kf_group := ostr_or (k_group apiKey) "auto";
  kf_auto_group_mode := if (0 <? length autoGroupCandidates)%nat then mode_specific else mode_all;
  kf_auto_group_candidates := not_auto autoGroupCandidates;
  kf_tokenCount := Some 1%Z |}.

(** ** Redemption codes *)

Record RedemptionFormValues := { rf_name : jstring; rf_quota_dollars : num; rf_expired_time : option Z; rf_count : option num }.
Record Redemption := { r_name : jstring; r_quota : num; r_expired_time : Z }.
Record RedemptionFormData := { rp_name : jstring; rp_quota : num; rp_expired_time : Z; rp_count : num }.

Definition REDEMPTION_FORM_DEFAULT_VALUES : RedemptionFormValues :=
  {| rf_name := []; rf_quota_dollars := of_Z 10; rf_expired_time := None; rf_count := Some (of_Z 1) |}.

Definition redemption_payload (data : RedemptionFormValues) : RedemptionFormData := {|
  rp_name := rf_name data;
  rp_quota := parseQuotaFromDollars store (rf_quota_dollars data);
  rp_expired_time := match rf_expired_time data with Some date => date_seconds date | None => 0 end;
  rp_count := num_or (default nan (rf_count data)) (of_Z 1) |}.

Definition redemption_form (redemption : Redemption) : RedemptionFormValues := {|
  rf_name := r_name redemption;
  rf_quota_dollars := quotaUnitsToDollars store (r_quota redemption);
  rf_expired_time := if (0 <? r_expired_time redemption)%Z then Some (seconds_date (r_expired_time redemption)) else None;
  rf_count := Some (of_Z 1) |}.

(** ** Subscription plans *)

(** The stored fields; texts and numbers may be missing. *)
Record SubscriptionPlan := {
  p_title : jstring;
  p_subtitle : option jstring;
  p_price_amount : num;
  p_duration_unit : jstring;
  p_duration_value : num;
  p_custom_seconds : option num;
  p_quota_reset_period : jstring;
  p_quota_reset_custom_seconds : option num;
  p_enabled : option bool;
  p_sort_order : num;
  p_allow_balance_pay : option bool;
  p_allow_wallet_overflow : option bool;
  p_max_purchase_per_user : num;
  p_total_amount : num;
  p_upgrade_group : option jstring;
  p_downgrade_group : option jstring;
  p_stripe_price_id : option jstring;
  p_waffo_pancake_product_id : option jstring;
}.

(** [Number(x || d)] *)
Definition number_or (x : option num) (d : num) : num := num_or (default nan x) d.
Definition not_false (b : option bool) : bool := negb (bool_decide (b = Some false)).

(** The values of the form are a plan with every field. *)
Definition planToFormValues (plan : SubscriptionPlan) : SubscriptionPlan := {|
  p_title := str_or (p_title plan) [];
  p_subtitle := Some (ostr_or (p_subtitle plan) []);
  p_price_amount := num_or (p_price_amount plan) zero;
  p_duration_unit := str_or (p_duration_unit plan) "month";
  p_duration_value := num_or (p_duration_value plan) (of_Z 1);
  p_custom_seconds := Some (number_or (p_custom_seconds plan) zero);
  p_quota_reset_period := str_or (p_quota_reset_period plan) "never";
  p_quota_reset_custom_seconds := Some (number_or (p_quota_reset_custom_seconds plan) zero);
  p_enabled := Some (not_false (p_enabled plan));
  p_sort_order := num_or (p_sort_order plan) zero;
  p_allow_balance_pay := Some (not_false (p_allow_balance_pay plan));
  p_allow_wallet_overflow := Some (not_false (p_allow_wallet_overflow plan));
  p_max_purchase_per_user := num_or (p_max_purchase_per_user plan) zero;
  p_total_amount := quotaUnitsToDollars store (num_or (p_total_amount plan) zero);
  p_upgrade_group := Some (ostr_or (p_upgrade_group plan) []);
  p_downgrade_group := Some (ostr_or (p_downgrade_group plan) []);
  p_stripe_price_id := Some (ostr_or (p_stripe_price_id plan) []);
  p_waffo_pancake_product_id := Some (ostr_or (p_waffo_pancake_product_id plan) []) |}.

(** The payload, with its currency. *)
Definition formValuesToPlanPayload (values : SubscriptionPlan) : SubscriptionPlan * jstring :=
  ({| p_title := p_title values;
      p_subtitle := p_subtitle values;
      p_price_amount := num_or (p_price_amount values) zero;
      p_duration_unit := p_duration_unit values;
      p_duration_value := num_or (p_duration_value values) zero;
      p_custom_seconds := Some (number_or (p_custom_seconds values) zero);
      p_quota_reset_period := str_or (p_quota_reset_period values) "never";
      p_quota_reset_custom_seconds :=
        Some (if bool_decide (p_quota_reset_period values = "custom") then number_or (p_quota_reset_custom_seconds values) zero else zero);
      p_enabled := p_enabled values;
      p_sort_order := num_or (p_sort_order values) zero;
      p_allow_balance_pay := p_allow_balance_pay values;
      p_allow_wallet_overflow := p_allow_wallet_overflow values;
      p_max_purchase_per_user := num_or (p_max_purchase_per_user values) zero;
      p_total_amount := parseQuotaFromDollars store (num_or (p_total_amount values) zero);
      p_upgrade_group := Some (ostr_or (p_upgrade_group values) []);
      p_downgrade_group := Some (ostr_or (p_downgrade_group values) []);
      p_stripe_price_id := p_stripe_price_id values;
      p_waffo_pancake_product_id := p_waffo_pancake_product_id values |}, "USD").

(** ** Models *)

Record Model := {
  m_id : option Z;
  m_model_name : jstring;
  m_aliases : option (list jstring);
  m_description : option jstring;
  m_icon : option jstring;
  m_tags : option jstring;
  m_vendor_id : option Z;
  m_endpoints : option jstring;
  m_name_rule : Z;
  m_status : Z;
  m_sync_official : Z;
  m_enable_groups : option (list jstring);
  m_quota_types : option (list Z);
}.

Record ModelFormValues := {
  mf_id : option Z;
  mf_model_name : jstring;
  mf_aliases : list jstring;
  mf_description : jstring;
  mf_icon : jstring;
  mf_tags : list jstring;
  mf_vendor_id : option Z;
  mf_endpoints : jstring;
  mf_name_rule : Z;
  mf_status : bool;
  mf_sync_official : bool;
  mf_enable_groups : list jstring;
  mf_quota_types : list Z;
}.

Definition parseModelTags (tags : option jstring) : list jstring :=
  match tags with Some (c :: s) => names_of (cu ",") (c :: s) | _ => [] end.

Definition formatTagsArray (tags : list jstring) : jstring := join "," (filter (λ tag, truthy tag = true) tags).

Definition transformModelToFormDefaults (model : Model) : ModelFormValues := {|
  mf_id := m_id model;
  mf_model_name := m_model_name model;
  mf_aliases := default [] (m_aliases model);
  mf_description := ostr_or (m_description model) [];
  mf_icon := ostr_or (m_icon model) [];
  mf_tags := parseModelTags (m_tags model);
  mf_vendor_id := m_vendor_id model;
  mf_endpoints := ostr_or (m_endpoints model) [];
  mf_name_rule := m_name_rule model;
  mf_status := (m_status model =? 1)%Z;
  mf_sync_official := (m_sync_official model =? 1)%Z;
  mf_enable_groups := default [] (m_enable_groups model);
  mf_quota_types := default [] (m_quota_types model) |}.

Definition transformFormDataToModelPayload (formData : ModelFormValues) : Model := {|
  m_id := mf_id formData;
  m_model_name := mf_model_name formData;
  m_aliases := Some (mf_aliases formData);
  m_description := Some (str_or (mf_description formData) []);
  m_icon := Some (str_or (mf_icon formData) []);
  m_tags := Some (formatTagsArray (mf_tags formData));
  m_vendor_id := mf_vendor_id formData;
  m_endpoints := Some (str_or (mf_endpoints formData) []);
  m_name_rule := mf_name_rule formData;
  m_status := if mf_status formData then 1 else 0;
  m_sync_official := if mf_sync_official formData then 1 else 0;
  m_enable_groups := Some (mf_enable_groups formData);
  m_quota_types := Some (mf_quota_types formData) |}.

(** [validateJSON], [validateEndpoints] *)
Definition validateJSON (value : jstring) : bool :=
  if negb (truthy value) || negb (truthy (trim value)) then true
  else bool_decide (is_Some (JSON_parse value)).

(** ** Permissions ([lib/admin-permissions.ts]) *)

Definition AdminPermissionMatrix : Type := list (jstring * list (jstring * bool)).

Record PermissionResourceDef := { pr_resource : jstring; pr_actions : list jstring }.
Record PermissionRoleDef := { role_key : jstring; grants : AdminPermissionMatrix }.
Record PermissionCatalog := { resources : list PermissionResourceDef; roles : list PermissionRoleDef }.

Definition ADMIN_ROLE_KEY : jstring := "admin".

(** [matrix[resource]?.[action]] *)
Definition granted (matrix : AdminPermissionMatrix) (resource action : jstring) : option bool :=
  actions ← oget resource matrix; oget action actions.

Record PermissionUser := { pu_role : Z; admin_permissions : option AdminPermissionMatrix }.

Definition hasPermission (user : option PermissionUser) (resource action : jstring) : bool :=
  match user with
  | None => false
  | Some user =>
    if (pu_role user =? SUPER_ADMIN)%Z then true
    else bool_decide ((m ← admin_permissions user; granted m resource action) = Some true)
  end.

Definition roleGrants (catalog : PermissionCatalog) (roleKey : jstring) : AdminPermissionMatrix :=
  match find (λ role, bool_decide (role_key role = roleKey)) (roles catalog) with Some role => grants role | None => [] end.

Definition normalizeAdminPermissions (value : option AdminPermissionMatrix) (catalog : PermissionCatalog) : AdminPermissionMatrix :=
  let baseline := roleGrants catalog ADMIN_ROLE_KEY in
  fold_left (λ normalized resource,
    let actions := fold_left (λ actions action,
      obj_set action (nullish (m ← value; granted m (pr_resource resource) action)
        (nullish (granted baseline (pr_resource resource) action) false)) actions)
      (pr_actions resource) [] in
    obj_set (pr_resource resource) actions normalized) (resources catalog) [].

(** ** Users *)

Record UserFormValues := {
  uf_username : jstring;
  uf_display_name : option jstring;
  uf_password : option jstring;
  uf_role : option Z;
  uf_quota_dollars : option num;
  uf_group : option jstring;
  uf_remark : option jstring;
  uf_admin_permissions : option AdminPermissionMatrix;
}.

Record User := {
  u_username : jstring;
  u_display_name : jstring;
  u_role : Z;
  u_quota : num;
  u_group : jstring;
  u_remark : option jstring;
  u_admin_permissions : option AdminPermissionMatrix;
}.

Record UserFormData := {
  up_username : jstring;
  up_display_name : jstring;
  up_password : option jstring;
  up_role : option Z;
  up_group : option jstring;
  up_remark : option jstring;
  up_admin_permissions : option AdminPermissionMatrix;
  up_id : option Z;
}.

(** [s || undefined] *)
Definition or_undefined (s : option jstring) : option jstring := match s with Some (c :: s) => Some (c :: s) | _ => None end.

Definition DEFAULT_GROUP : jstring := "default".

Definition user_payload (data : UserFormValues) (userId : option Z) (catalog : option PermissionCatalog) : UserFormData :=
  let role := match userId with
    | None => match uf_role data with Some role => if (role =? 0)%Z then 1%Z else role | None => 1%Z end
    | Some _ => nullish (uf_role data) 0%Z
    end in
  {| up_username := uf_username data;
     up_display_name := ostr_or (uf_display_name data) (uf_username data);
     up_password := or_undefined (uf_password data);
     up_role := match userId with None => Some role | Some _ => None end;
     up_group := match userId with None => None | Some _ => uf_group data end;
     up_remark := match userId with None => None | Some _ => or_undefined (uf_remark data) end;
     up_admin_permissions := match catalog with
       | Some catalog => if (ADMIN <=? role)%Z then Some (normalizeAdminPermissions (uf_admin_permissions data) catalog) else None
       | None => None
       end;
     up_id := userId |}.

Definition user_form (user : User) : UserFormValues := {|
  uf_username := u_username user;
  uf_display_name := Some (u_display_name user);
  uf_password := Some [];
  uf_role := Some (u_role user);
  uf_quota_dollars := Some (quotaUnitsToDollars store (u_quota user));
  uf_group := Some (str_or (u_group user) DEFAULT_GROUP);
  uf_remark := Some (ostr_or (u_remark user) []);
  uf_admin_permissions := Some (nullish (u_admin_permissions user) []) |}.
End forms.

(** ** Quotas *)

(** The rates are neither very small nor very large ([Format.quota_roundtrip]). *)
Definition sane_currency (store : option CurrencyConfig) : Prop :=
  moderate (quotaPerUnit (getCurrencyDisplay store).1) ∧
  ∀ rate, rate_of (getCurrencyDisplay store).2 = Some rate → moderate rate.

(** The number is a quota of a record. *)
Definition stored_quota (x : num) : Prop := ∃ n, (0 <= n < 2 ^ 48)%Z ∧ x = of_Z n.

Lemma quota_units_kept store x : sane_currency store → stored_quota x →
  num_or (quotaUnitsToDollars store x) zero = quotaUnitsToDollars store x.
Proof.
  intros [Hq Hr] (n & Hn & ->). unfold num_or, quotaUnitsToDollars. destruct (getCurrencyDisplay store) as [config meta].
  cbn [fst snd] in Hq, Hr.
  assert (∀ rate, moderate rate → let x := nmul (ndiv (of_Z n) (quotaPerUnit config)) rate in (if num_truthy x then x else zero) = x) as H.
  { intros rate Hrate x. destruct (Z.eq_dec n 0%Z) as [->|Hne].
    - unfold x. destruct Hq as [[(p & f & ->) _] _], Hrate as [[(p' & f' & ->) _] _]. done.
    - destruct (chain_close n (quotaPerUnit config) rate) as [P _]; [lia|done..|].
      destruct (positive_facts _ P) as [Hf Hlt]. fold x in Hf, Hlt. destruct x; done. }
  destruct meta; [by apply H, Hr|by apply H, Hr|]. destruct (Z.eq_dec n 0%Z) as [->|Hne]; [done|].
  destruct (of_Z_value n) as [P _]; [lia|]. destruct (positive_facts _ P) as [Hf Hlt]. by destruct (of_Z n).
Qed.

Lemma quota_kept store x : sane_currency store → stored_quota x →
  parseQuotaFromDollars store (num_or (quotaUnitsToDollars store x) zero) = x.
Proof. intros Hs Hx. rewrite quota_units_kept by done. destruct Hs, Hx as (n & Hn & ->). by apply quota_roundtrip. Qed.

Lemma stored_quota_or x : stored_quota x → num_or x zero = x.
Proof.
  intros (n & Hn & ->). unfold num_or. destruct (Z.eq_dec n 0%Z) as [->|Hne]; [done|].
  destruct (of_Z_value n) as [P _]; [lia|]. destruct (positive_facts _ P) as [Hf Hlt]. by destruct (of_Z n).
Qed.

Lemma seconds_kept ms : date_seconds (seconds_date (date_seconds ms)) = date_seconds ms.
Proof. unfold date_seconds, seconds_date. by rewrite Z.div_mul. Qed.

Lemma ostr_or_Some s : ostr_or (Some s) [] = s.
Proof. by destruct s. Qed.

Lemma not_auto_idemp l : not_auto (not_auto l) = not_auto l.
Proof. unfold not_auto. apply filter_all, Forall_forall. by intros x [? _]%list_elem_of_filter. Qed.

(** ** Keys *)

Definition stored_key (p : ApiKeyFormData) : ApiKey := {|
  k_name := kp_name p; k_remain_quota := kp_remain_quota p; k_expired_time := kp_expired_time p;
  k_unlimited_quota := kp_unlimited_quota p; k_model_limits := Some (kp_model_limits p);
  k_model_mapping := Some (kp_model_mapping p); k_allow_ips := Some (kp_allow_ips p); k_group := Some (kp_group p);
  k_auto_group_candidates := Some (kp_auto_group_candidates p) |}.

Lemma names_kept l : Forall (λ m, m ≠ [] ∧ cu "," ∉ m) l →
  match join "," l with c :: s => split_names (c :: s) | [] => [] end = l.
Proof.
  intros Hl. assert (l ≠ [] → split_names (join "," l) = l) as Hs.
  { intros Hne. unfold split_names. change ("," : jstring) with [cu ","]. rewrite split_join_unit; [|done|].
    - apply filter_all. eapply Forall_impl; [exact Hl|]. intros m [Hm _]. by apply truthy_spec.
    - eapply Forall_impl; [exact Hl|]. by intros m []. }
  destruct l as [|m l]; [done|]. specialize (Hs ltac:(done)). destruct (join "," (m :: l)); [|done].
  by cbn in Hs.
Qed.

(** C18: What a key form saves is opened as a form that saves the same again: the quota
    through the display of the currency, the time of expiry, the models, the group and
    its candidates. *)
Theorem saved_key_fixpoint store data : sane_currency store →
  (kf_unlimited_quota data = false → stored_quota (kp_remain_quota (key_payload store data))) →
  (∀ date, kf_expired_time data = Some date → (1000 <= date)%Z) →
  Forall (λ m, m ≠ [] ∧ cu "," ∉ m) (kf_model_limits data) →
  key_payload store (key_form store (stored_key (key_payload store data))) = key_payload store data.
Proof.
  intros Hs Hq Hd Hm. destruct data as [name dollars expired unlimited models mapping ips group mode candidates count].
  cbn [kf_unlimited_quota kf_expired_time kf_model_limits] in *.
  unfold key_payload, key_form, stored_key in *. cbn -[parseQuotaFromDollars quotaUnitsToDollars join split_names num_or not_auto] in Hq |- *.
  f_equal.
  - destruct unlimited; [done|]. by apply quota_kept, Hq.
  - destruct expired as [date|]; [|done]. specialize (Hd date eq_refl).
    assert (1 <= date_seconds date)%Z by (unfold date_seconds; apply Z.div_le_lower_bound; lia).
    rewrite (proj2 (Z.ltb_lt 0 (date_seconds date))) by lia. apply seconds_kept.
  - by rewrite names_kept.
  - by rewrite names_kept.
  - by apply ostr_or_Some.
  - destruct ips as [[|]|]; done.
  - by destruct group.
  - destruct (decide (group = "auto")) as [->|Hg]; [|by rewrite (bool_decide_false (group = "auto")) by done; cbn -[str_or]; rewrite andb_false_r].
    destruct mode; [done|]. cbn -[not_auto bool_decide].
    rewrite !(bool_decide_true ("auto" = _)), (bool_decide_true (mode_specific = mode_specific)) by done. cbn [andb].
    rewrite !not_auto_idemp. by destruct (not_auto candidates).
Qed.

(** The candidates of the automatic group: those that are available, once each. *)
Lemma resolved_candidates availableGroups autoGroups :
  NoDup (resolveAutoGroupCandidates availableGroups autoGroups) ∧
  ∀ group, group ∈ resolveAutoGroupCandidates availableGroups autoGroups ↔
    group ∈ autoGroups ∧ group ∈ availableGroups ∧ group ≠ [] ∧ group ≠ "auto".
Proof.
  unfold resolveAutoGroupCandidates. set (available := new_set _).
  assert (∀ group, group ∈ available ↔ group ∈ availableGroups ∧ group ≠ [] ∧ group ≠ "auto") as Ha.
  { intros group. unfold available. rewrite elem_of_new_set, list_elem_of_filter, andb_true_iff, truthy_spec, negb_true_iff, bool_decide_eq_false.
    naive_solver. }
  clearbody available. enough (∀ resolved seen, NoDup resolved → (∀ group, group ∈ seen ↔ group ∈ resolved) →
    let final := (fold_left (λ '(resolved, seen) group, if negb (has group available) || has group seen then (resolved, seen)
      else (resolved ++ [group], set_add group seen)) autoGroups (resolved, seen)).1 in
    NoDup final ∧ ∀ group, group ∈ final ↔ group ∈ resolved ∨ group ∈ autoGroups ∧ group ∈ available) as H.
  { destruct (H [] []) as [H1 H2]; [constructor|done|]. split; [done|]. intros group. rewrite H2, Ha, elem_of_nil. naive_solver. }
  induction autoGroups as [|a l IH]; intros resolved seen Hn Hs; cbn [fold_left].
  { split; [done|]. intros group. rewrite elem_of_nil. naive_solver. }
  destruct (negb (has a available) || has a seen) eqn:E.
  - destruct (IH resolved seen Hn Hs) as [H1 H2]. split; [done|]. intros group. rewrite H2, elem_of_cons.
    apply orb_true_iff in E as [E|E]; [apply negb_true_iff, has_spec_false in E|apply has_spec in E; rewrite Hs in E]; naive_solver.
  - apply orb_false_iff in E as [E1 E2]. apply negb_false_iff, has_spec in E1. apply has_spec_false in E2.
    assert (a ∉ resolved) as Hr by (by rewrite <- Hs).
    destruct (IH (resolved ++ [a]) (set_add a seen)) as [H1 H2].
    + apply NoDup_app. split_and!; [done| |apply NoDup_singleton]. intros x Hx ->%list_elem_of_singleton. done.
    + intros group. rewrite elem_of_set_add, elem_of_app, list_elem_of_singleton, Hs. naive_solver.
    + split; [done|]. intros group. rewrite H2, elem_of_app, list_elem_of_singleton, elem_of_cons. naive_solver.
Qed.

(** ** Redemption codes *)

(** A code that is opened and saved keeps its name, its quota and its expiry. *)
Lemma saved_redemption_kept store r : sane_currency store → stored_quota (r_quota r) → (0 <= r_expired_time r)%Z →
  redemption_payload store (redemption_form store r) =
  {| rp_name := r_name r; rp_quota := r_quota r; rp_expired_time := r_expired_time r; rp_count := of_Z 1 |}.
Proof.
  intros Hs Hq Ht. pose proof (quota_kept store _ Hs Hq) as E. rewrite quota_units_kept in E by done.
  unfold redemption_payload, redemption_form. cbn -[parseQuotaFromDollars quotaUnitsToDollars num_or]. f_equal; [exact E|].
  destruct (Z.ltb_spec 0 (r_expired_time r)); [|lia]. unfold date_seconds, seconds_date. by rewrite Z.div_mul.
Qed.

(** ** Subscription plans *)

Lemma num_or_idemp x d : num_or (num_or x d) d = num_or x d.
Proof. unfold num_or. destruct (num_truthy x) eqn:E; [by rewrite E|]. by destruct (num_truthy d). Qed.

Lemma num_or_stable x d e : num_truthy d = true → num_or (num_or x d) e = num_or x d.
Proof. intros Hd. unfold num_or. destruct (num_truthy x) eqn:E; [by rewrite E|by rewrite Hd]. Qed.

Lemma str_or_stable s d : str_or (str_or s d) d = str_or s d.
Proof. by destruct s, d. Qed.

Lemma not_false_stable b : not_false (Some (not_false b)) = not_false b.
Proof. by destruct b as [[]|]. Qed.

(** A plan that is opened and saved is the plan with its defaults, and saving it again
    changes nothing more. *)
Lemma saved_plan_fixpoint store plan : sane_currency store → stored_quota (num_or (p_total_amount plan) zero) →
  let saved := (formValuesToPlanPayload store (planToFormValues store plan)).1 in
  p_total_amount saved = num_or (p_total_amount plan) zero ∧
  (formValuesToPlanPayload store (planToFormValues store saved)).1 = saved.
Proof.
  intros Hs Hq. cbn zeta. pose proof (quota_kept store _ Hs Hq) as E.
  unfold formValuesToPlanPayload, planToFormValues. cbn [fst p_total_amount]. split; [exact E|].
  cbn [fst p_title p_subtitle p_price_amount p_duration_unit p_duration_value p_custom_seconds p_quota_reset_period
    p_quota_reset_custom_seconds p_enabled p_sort_order p_allow_balance_pay p_allow_wallet_overflow p_max_purchase_per_user
    p_total_amount p_upgrade_group p_downgrade_group p_stripe_price_id p_waffo_pancake_product_id].
  rewrite E, (stored_quota_or _ Hq), E. unfold number_or. cbn [default from_option id].
  rewrite !(num_or_stable _ (of_Z 1)) by done. rewrite !ostr_or_Some, !num_or_idemp, !str_or_stable, !not_false_stable. f_equal.
  f_equal. case_bool_decide; [by rewrite !num_or_idemp|done].
Qed.

(** ** Models *)

Lemma tags_kept s : parseModelTags (Some (formatTagsArray (parseModelTags s))) = parseModelTags s.
Proof.
  assert (Forall (name_without (cu ",")) (parseModelTags s)) as Hn.
  { destruct s as [[|c s]|]; [by apply Forall_nil| |by apply Forall_nil]. cbn [parseModelTags]. pose proof (names_of_parts (λ _, True) (cu ",") (c :: s)) as H.
    eapply Forall_impl; [apply H, Forall_true; done|]. by intros x []. }
  unfold formatTagsArray. rewrite filter_all by (eapply Forall_impl; [exact Hn|]; intros m (? & _); by apply truthy_spec).
  change (join "," ?l) with (join [cu ","] l). generalize (parseModelTags s) Hn. clear. intros l Hn. transitivity (names_of (cu ",") (join [cu ","] l)); [|by apply names_of_join].
  unfold parseModelTags. by destruct (join [cu ","] l).
Qed.

(** A model that is opened and saved keeps its tags, and saving it again changes nothing. *)
Lemma saved_model_fixpoint m :
  let saved := transformFormDataToModelPayload (transformModelToFormDefaults m) in
  parseModelTags (m_tags saved) = parseModelTags (m_tags m) ∧
  transformFormDataToModelPayload (transformModelToFormDefaults saved) = saved.
Proof.
  cbn zeta. split; [apply tags_kept|].
  unfold transformFormDataToModelPayload, transformModelToFormDefaults. cbn -[parseModelTags formatTagsArray ostr_or str_or].
  rewrite !tags_kept. f_equal.
  - by destruct (m_description m) as [[]|].
  - by destruct (m_icon m) as [[]|].
  - by destruct (m_endpoints m) as [[]|].
  - by destruct (m_status m =? 1)%Z.
  - by destruct (m_sync_official m =? 1)%Z.
Qed.

(** ** Permissions *)

Lemma fold_left_ext_in {A B} (f g : A → B → A) l a : (∀ a x, x ∈ l → f a x = g a x) → fold_left f l a = fold_left g l a.
Proof.
  revert a. induction l as [|x l IH]; intros a H; [done|]. cbn [fold_left]. rewrite H by (by left). apply IH.
  intros; apply H; by right.
Qed.

Lemma oget_fold_set {V} (f : jstring → V) l o k :
  oget k (fold_left (λ o a, obj_set a (f a) o) l o) = if bool_decide (k ∈ l) then Some (f k) else oget k o.
Proof.
  revert o. induction l as [|a l IH]; intros o; [done|]. cbn [fold_left]. rewrite IH, oget_obj_set.
  repeat case_bool_decide; subst; rewrite ?elem_of_cons in *; naive_solver.
Qed.

(** What the editor shows for an action: the value, or the grant of the role. *)
Definition permission_of (value : option AdminPermissionMatrix) (catalog : PermissionCatalog) (resource action : jstring) : bool :=
  nullish (m ← value; granted m resource action) (nullish (granted (roleGrants catalog ADMIN_ROLE_KEY) resource action) false).

Definition in_catalog (catalog : PermissionCatalog) (resource action : jstring) : Prop :=
  ∃ r, r ∈ resources catalog ∧ pr_resource r = resource ∧ action ∈ pr_actions r.

Lemma normalized_entry value catalog resource : NoDup (map pr_resource (resources catalog)) →
  oget resource (normalizeAdminPermissions value catalog) =
  match find (λ r, bool_decide (pr_resource r = resource)) (resources catalog) with
  | Some r => Some (fold_left (λ o a, obj_set a (permission_of value catalog resource a) o) (pr_actions r) [])
  | None => None
  end.
Proof.
  intros Hn. set (actions := λ r, fold_left (λ o a, obj_set a (permission_of value catalog (pr_resource r) a) o) (pr_actions r) []).
  change (normalizeAdminPermissions value catalog) with (fold_left (λ o r, obj_set (pr_resource r) (actions r) o) (resources catalog) []).
  assert (∀ o, oget resource (fold_left (λ o r, obj_set (pr_resource r) (actions r) o) (resources catalog) o) =
    match find (λ r, bool_decide (pr_resource r = resource)) (resources catalog) with Some r => Some (actions r) | None => oget resource o end) as H.
  { induction (resources catalog) as [|r l IH]; intros o; [done|]. cbn [map] in Hn. apply NoDup_cons in Hn as [Hr Hn].
    cbn [fold_left find]. rewrite IH, oget_obj_set by done. case_bool_decide as E; [|by rewrite bool_decide_false by done].
    rewrite bool_decide_true by done. destruct (find _ l) as [r'|] eqn:Ef; [|done]. exfalso. apply Hr.
    apply find_some in Ef as [Hin Ee]. apply bool_decide_eq_true in Ee. apply list_elem_of_In in Hin.
    rewrite <- E, <- Ee. by apply list_elem_of_fmap_2. }
  rewrite H. destruct (find _ _) as [r|] eqn:Ef; [|done]. apply find_some in Ef as [_ Ee]. apply bool_decide_eq_true in Ee.
  unfold actions. by rewrite Ee.
Qed.

Lemma normalized_granted value catalog resource action : NoDup (map pr_resource (resources catalog)) →
  (in_catalog catalog resource action → granted (normalizeAdminPermissions value catalog) resource action = Some (permission_of value catalog resource action)) ∧
  (¬ in_catalog catalog resource action → granted (normalizeAdminPermissions value catalog) resource action = None).
Proof.
  intros Hn. unfold granted. rewrite normalized_entry by done.
  destruct (find _ _) as [r|] eqn:Ef; cbn [mbind option_bind].
  - apply find_some in Ef as [Hin Ee]. apply bool_decide_eq_true in Ee. apply list_elem_of_In in Hin.
    rewrite oget_fold_set. case_bool_decide as Ha; split; [done| |intros (r' & Hr' & E' & Ha')|done].
    + intros []. by exists r.
    + destruct Ha. by rewrite (NoDup_key_inj pr_resource _ r r' Hn Hin Hr') by congruence.
  - split; [|done]. intros (r & Hr & E & _). apply list_elem_of_In in Hr.
    pose proof (find_none _ _ Ef r Hr) as H. cbn in H. by rewrite bool_decide_true in H.
Qed.

(** C19: An administrator whose permissions are saved has exactly the permissions that the
    form shows for the actions of the catalog, the chosen value or else the grant of the
    role, and no others; saving them again sends the same. *)
Theorem saved_permissions data userId catalog role resource action :
  NoDup (map pr_resource (resources catalog)) →
  uf_role data = Some role → (10 <= role < 100)%Z →
  let sent := up_admin_permissions (user_payload data (Some userId) (Some catalog)) in
  let user := Some {| pu_role := role; admin_permissions := sent |} in
  (in_catalog catalog resource action →
    hasPermission user resource action = permission_of (uf_admin_permissions data) catalog resource action) ∧
  (¬ in_catalog catalog resource action → hasPermission user resource action = false) ∧
  ∀ m, sent = Some m → normalizeAdminPermissions (Some m) catalog = m.
Proof.
  intros Hn Hrole Hr. cbn zeta. unfold user_payload. rewrite Hrole. cbn [nullish default from_option id up_admin_permissions].
  unfold hasPermission. rewrite (proj2 (Z.leb_le ADMIN role)) by (unfold ADMIN; lia). cbn [pu_role admin_permissions mbind option_bind].
  rewrite (proj2 (Z.eqb_neq role SUPER_ADMIN)) by (unfold SUPER_ADMIN; lia).
  destruct (normalized_granted (uf_admin_permissions data) catalog resource action Hn) as [H1 H2]. split_and!.
  - intros Hin. rewrite H1 by done. by destruct (permission_of _ _ _ _).
  - intros Hout. rewrite H2 by done. done.
  - intros m [= <-]. unfold normalizeAdminPermissions at 1 3. apply fold_left_ext_in. intros o r Hin. f_equal.
    apply fold_left_ext_in. intros o' a Ha. f_equal.
    destruct (normalized_granted (uf_admin_permissions data) catalog (pr_resource r) a Hn) as [H _]. specialize (H ltac:(by exists r)). cbn [mbind option_bind].
    by rewrite H.
Qed.

(** ** Examples *)

Module FormSamples.
Definition yuan : option CurrencyConfig := Some {| displayInCurrency := true; quotaDisplayType := CNY; quotaPerUnit := of_Z 500000;
  usdExchangeRate := Number_of_string "7.3"; customCurrencySymbol := []; customCurrencyExchangeRate := of_Z 1 |}.

Definition sample_key_form : ApiKeyFormValues := {|
  kf_name := "batch"; kf_remain_quota_dollars := Some (Number_of_string "12.5"); kf_expired_time := Some 1735344000999%Z;
  kf_unlimited_quota := false; kf_model_limits := ["gpt-4o"; "o3"]; kf_model_mapping := []; kf_allow_ips := None;
  kf_group := "auto"; kf_auto_group_mode := mode_specific; kf_auto_group_candidates := ["vip"; "auto"]; kf_tokenCount := None |}.

Definition sample_catalog : PermissionCatalog := {|
  resources := [{| pr_resource := "channel"; pr_actions := ["read"; "write"] |}; {| pr_resource := "log"; pr_actions := ["read"] |}];
  roles := [{| role_key := "admin"; grants := [("channel" : jstring, [("read" : jstring, true)])] |}] |}.

Definition sample_user_form : UserFormValues := {|
  uf_username := "ann"; uf_display_name := None; uf_password := None; uf_role := Some 10%Z; uf_quota_dollars := None;
  uf_group := None; uf_remark := None; uf_admin_permissions := Some [("log" : jstring, [("read" : jstring, true)])] |}.
End FormSamples.

Section examples.
Import FormSamples.

Lemma sane_yuan : sane_currency yuan.
Proof.
  split; [|intros rate [= <-]]; (split; [split; [eexists _, _; by vm_compute|by vm_compute]|by vm_compute]).
Qed.

Example sample_key_payload : key_payload yuan sample_key_form = {|
  kp_name := "batch"; kp_remain_quota := of_Z 856164; kp_expired_time := 1735344000; kp_unlimited_quota := false;
  kp_model_limits_enabled := true; kp_model_limits := "gpt-4o,o3"; kp_model_mapping := []; kp_allow_ips := [];
  kp_group := "auto"; kp_auto_group_candidates := ["vip" : jstring] |}.
Proof. by vm_compute. Qed.

Example saved_key_fixpoint_witness :
  key_payload yuan (key_form yuan (stored_key (key_payload yuan sample_key_form))) = key_payload yuan sample_key_form.
Proof.
  apply saved_key_fixpoint.
  - exact sane_yuan.
  - intros _. exists 856164%Z. split; [lia|by vm_compute].
  - intros date [= <-]. lia.
  - apply (bool_decide_unpack _); by vm_compute.
Defined.

Example saved_permissions_witness :
  let sent := up_admin_permissions (user_payload sample_user_form (Some 7%Z) (Some sample_catalog)) in
  let user := Some {| pu_role := 10; admin_permissions := sent |} in
  hasPermission user "channel" "read" = true ∧ hasPermission user "channel" "delete" = false.
Proof.
  assert (NoDup (map pr_resource (resources sample_catalog))) as Hn by (apply (bool_decide_unpack _); by vm_compute).
  destruct (saved_permissions sample_user_form 7 sample_catalog 10 "channel" "read" Hn eq_refl ltac:(lia)) as [H1 _].
  destruct (saved_permissions sample_user_form 7 sample_catalog 10 "channel" "delete" Hn eq_refl ltac:(lia)) as (_ & H2 & _).
  split.
  - rewrite H1; [by vm_compute|]. exists {| pr_resource := "channel"; pr_actions := ["read"; "write"] |}. repeat split; [by left|by left].
  - apply H2. intros (r & Hr & E & Ha). apply elem_of_cons in Hr as [->|Hr]; [|apply list_elem_of_singleton in Hr as ->; done].
    cbn in Ha. by apply (bool_decide_unpack _) in Ha || (revert Ha; apply (bool_decide_unpack _); by vm_compute).
Defined.
End examples.
