(* ===== verification/UsageLogs.v ===== *)
(** * UsageLogs: the requests for logs and what a log shows

    [features/usage-logs/lib/utils.ts, query-params.ts, format.ts, api.ts] and the
    constants they use: the query that the filters of the page become, and what is read
    from the additional data of a log, an untyped value since it comes from
    [JSON.parse].  Users who are no administrators never ask for the logs of a channel or
    of another user ([user_query_restricted]); the prices shown beside a log are those of
    the catalog ([log_prices_catalog]). *)
From Stdlib Require Import Floats.SpecFloat.
From S2P Require Import Prelude JsString JsNumber JsFloat JsValue JsJson JsRegex BillingExpr Currency PricingCatalog PricingPrices.

(** ** Types of logs ([constants.ts]) *)

Record LogType := { lt_value : num; lt_label : jstring; lt_color : jstring }.

Definition LOG_TYPES : list LogType :=
  map (λ '(v, l, c), {| lt_value := of_Z v; lt_label := l; lt_color := c |})
    [(0%Z, "Unknown" : jstring, "default" : jstring); (1%Z, "Top-up", "cyan"); (2%Z, "Consume", "green"); (3%Z, "Manage", "orange");
     (4%Z, "System", "purple"); (5%Z, "Error", "red"); (6%Z, "Refund", "blue"); (7%Z, "Login", "teal")].

Definition DISPLAYABLE_LOG_TYPES : list num := map of_Z [0; 2; 5; 6]%Z.
Definition TIMING_LOG_TYPES : list num := map of_Z [2; 5]%Z.

(** [includes] on numbers; [NaN] is in none of the lists. *)
Definition isDisplayableLogType (type : num) : bool := existsb (neqb type) DISPLAYABLE_LOG_TYPES.
Definition isTimingLogType (type : num) : bool := existsb (neqb type) TIMING_LOG_TYPES.

Definition getLogTypeConfig (type : num) : option LogType :=
  match find (λ t, neqb (lt_value t) type) LOG_TYPES with Some t => Some t | None => head LOG_TYPES end.

Definition isPerCallBilling (modelPrice : option num) : bool := nlt zero (nullish modelPrice zero).

(** ** Parameters of a request *)

Definition timestampToSeconds (ms : num) : num := nfloor (ndiv ms (of_Z 1000)).

Record TimeRange := { range_start : num; range_end : num }.

Section requests.
(** [getDefaultTimeRange()]: from midnight to one hour from now *)
Variable defaultTimeRange : TimeRange.

Definition time_param (useMilliseconds : bool) (paramTime : jval) (defaultTime : option num) : jval :=
  let time := js_or paramTime (match defaultTime with Some d => JNum d | None => JUndefined end) in
  if to_boolean time then (if useMilliseconds then time else JNum (timestampToSeconds (to_number time))) else JUndefined.

Definition buildTimeRangeParams (searchParams : jval) (useMilliseconds : bool) : list (jstring * jval) :=
  let hasTimeParams := if is_nullish (member "startTime" searchParams) then member "endTime" searchParams else member "startTime" searchParams in
  let range := if to_boolean hasTimeParams then None else Some defaultTimeRange in
  [("start_timestamp", time_param useMilliseconds (member "startTime" searchParams) (range_start <$> range));
   ("end_timestamp", time_param useMilliseconds (member "endTime" searchParams) (range_end <$> range))].

(** [...(condition ? { key: value } : {})] *)
Definition when (condition : bool) (key : jstring) (value : jval) : list (jstring * jval) :=
  if condition then [(key, value)] else [].

Definition text (v : jval) : jval := JStr (to_js_string v).

Definition buildBaseParams (page pageSize : num) (searchParams : jval) (useMilliseconds : bool) : list (jstring * jval) :=
  [("p" : jstring, JNum page); ("page_size" : jstring, JNum pageSize)] ++
  when (to_boolean (member "channel" searchParams)) "channel_id" (text (member "channel" searchParams)) ++
  buildTimeRangeParams searchParams useMilliseconds.

Definition parseType (raw : jval) : jval := let type := to_number raw in if is_finite type then JNum type else JUndefined.

Definition processType (value : jval) : jval :=
  match value with
  | JArr [v] => parseType v
  | JStr (c :: s) => parseType (JStr (c :: s))
  | _ => JUndefined
  end.

Record ColumnFilterValue := { cf_id : jstring; cf_value : jval }.

(** [Number(v) || 0] *)
Definition channel_number (v : jval) : jval := JNum (num_or (to_number v) zero).

(** What a filter of a column sets, if anything. *)
Definition filter_param (isAdmin : bool) (f : ColumnFilterValue) : option (jstring * jval) :=
  let value := cf_value f in
  if is_nullish value || match value with JStr [] => true | _ => false end then None
  else if bool_decide (cf_id f = "type") then Some ("type" : jstring, processType value)
  else if bool_decide (cf_id f = "model_name") || bool_decide (cf_id f = "token_name") || bool_decide (cf_id f = "group")
  then Some (cf_id f, text value)
  else if bool_decide (cf_id f = "channel") then if isAdmin then Some ("channel" : jstring, channel_number value) else None
  else if bool_decide (cf_id f = "username") then if isAdmin then Some ("username" : jstring, text value) else None
  else None.

Definition buildApiParams (page pageSize : num) (searchParams : jval) (columnFilters : list ColumnFilterValue) (isAdmin : bool)
  : list (jstring * jval) :=
  let given key := to_boolean (member key searchParams) in
  let params := obj_of_entries (
    [("p" : jstring, JNum page); ("page_size" : jstring, JNum pageSize)] ++
    when (given "type") "type" (processType (member "type" searchParams)) ++
    when (given "model") "model_name" (text (member "model" searchParams)) ++
    when (given "token") "token_name" (text (member "token" searchParams)) ++
    when (given "group") "group" (text (member "group" searchParams)) ++
    when (isAdmin && given "channel") "channel" (channel_number (member "channel" searchParams)) ++
    when (isAdmin && given "username") "username" (text (member "username" searchParams)) ++
    when (given "requestId") "request_id" (text (member "requestId" searchParams)) ++
    when (given "upstreamRequestId") "upstream_request_id" (text (member "upstreamRequestId" searchParams)) ++
    buildTimeRangeParams searchParams false) in
  fold_left (λ params f, match filter_param isAdmin f with Some (k, v) => obj_set k v params | None => params end) columnFilters params.

(** ** Requests ([api.ts], [query-params.ts]) *)

(** [URLSearchParams], as the pairs that are appended. *)
Definition buildQueryParams (params : list (jstring * jval)) : list (jstring * jstring) :=
  omap (λ '(key, value),
    if is_nullish value || match value with JStr [] => true | _ => false end then None else Some (key, to_js_string value)) params.

Definition buildApiPath (endpoint : jstring) (isAdmin : bool) : jstring := if isAdmin then endpoint else endpoint ++ "/self".

(** The path and the query. *)
Definition fetchLogs (endpoint : jstring) (params : list (jstring * jval)) (isAdmin : bool) : jstring * list (jstring * jstring) :=
  let first := [("p" : jstring, js_or (member "p" (JObj params)) (JNum (of_Z 1)));
                ("page_size" : jstring, js_or (member "page_size" (JObj params)) (JNum (of_Z 20)))] in
  (buildApiPath endpoint isAdmin, buildQueryParams (obj_spread first params)).

Inductive LogCategory := log_common | log_drawing | log_task.

Definition fetchLogsByCategory (logCategory : LogCategory) (isAdmin : bool) (page pageSize : num) (searchParams : jval)
  (columnFilters : list ColumnFilterValue) : jstring * list (jstring * jstring) :=
  match logCategory with
  | log_common => fetchLogs "/api/log" (buildApiParams page pageSize searchParams columnFilters isAdmin) isAdmin
  | log_drawing =>
    fetchLogs "/api/mj" (obj_set "mj_id" (member "filter" searchParams) (obj_of_entries (buildBaseParams page pageSize searchParams true))) isAdmin
  | log_task =>
    fetchLogs "/api/task" (obj_set "task_id" (member "filter" searchParams) (obj_of_entries (buildBaseParams page pageSize searchParams false))) isAdmin
  end.
End requests.

(** ** What a log shows ([format.ts]) *)

Definition PARAM_OVERRIDE_ACTION_MAP : list (jstring * jstring) :=
  [("set" : jstring, "Set" : jstring); ("delete", "Delete"); ("copy", "Copy"); ("move", "Move"); ("append", "Append");
   ("prepend", "Prepend"); ("trim_prefix", "Trim Prefix"); ("trim_suffix", "Trim Suffix");
   ("ensure_prefix", "Ensure Prefix"); ("ensure_suffix", "Ensure Suffix"); ("trim_space", "Trim Space");
   ("to_lower", "To Lower"); ("to_upper", "To Upper"); ("replace", "Replace"); ("regex_replace", "Regex Replace");
   ("set_header", "Set Header"); ("delete_header", "Delete Header"); ("copy_header", "Copy Header");
   ("move_header", "Move Header"); ("pass_headers", "Pass Headers"); ("sync_fields", "Sync Fields");
   ("return_error", "Return Error")].

Definition AUDIT_TEMPLATES : list (jstring * jstring) :=
  [("login" : jstring, "Logged in successfully via {{method}}" : jstring);
   ("user.create", "Created user {{username}} (role {{role}})"); ("user.update", "Updated user {{username}} (ID: {{id}})");
   ("user.delete", "Deleted user {{username}} (ID: {{id}})");
   ("user.manage", "Performed {{action}} on user {{username}} (ID: {{id}})");
   ("user.quota_add", "Increased user quota by {{quota}}"); ("user.quota_subtract", "Decreased user quota by {{quota}}");
   ("user.quota_override", "Overrode user quota from {{from}} to {{to}}");
   ("user.binding_clear", "Cleared {{bindingType}} binding for user {{username}}");
   ("user.2fa_disable", "Force-disabled two-factor authentication for the user");
   ("user.passkey_register", "Registered a passkey"); ("user.passkey_delete", "Deleted a passkey");
   ("user.topup_complete", "Completed top-up order for the user"); ("user.reset_passkey", "Reset the user passkey");
   ("user.oauth_unbind", "Removed an OAuth binding for the user"); ("option.update", "Updated system setting {{key}}");
   ("option.payment_compliance", "Confirmed payment compliance"); ("option.reset_ratio", "Reset model ratios");
   ("option.clear_affinity_cache", "Cleared channel affinity cache");
   ("custom_oauth.create", "Created a custom OAuth provider"); ("custom_oauth.update", "Updated a custom OAuth provider");
   ("custom_oauth.delete", "Deleted a custom OAuth provider"); ("performance.clear_disk_cache", "Cleared disk cache");
   ("performance.clear_docker_cache", "Cleared Docker build cache"); ("performance.gc", "Triggered garbage collection");
   ("performance.clear_logs", "Cleared log files");
   ("channel.create", "Created channel {{name}} (type {{type}}, count {{count}})");
   ("channel.update", "Updated channel {{name}} (ID: {{id}})"); ("channel.delete", "Deleted channel {{name}} (ID: {{id}})");
   ("channel.delete_batch", "Batch deleted {{count}} channels");
   ("channel.delete_disabled", "Deleted all disabled channels ({{count}})");
   ("channel.key_view", "Viewed channel key {{name}} (ID: {{id}})");
   ("channel.tag_disable", "Disabled channels with tag {{tag}}");
   ("channel.tag_enable", "Enabled channels with tag {{tag}}"); ("channel.tag_edit", "Edited channels with tag {{tag}}");
   ("channel.tag_batch_set", "Batch set tag for {{count}} channels");
   ("channel.copy", "Copied channel (source ID: {{sourceId}}) to {{name}} (new ID: {{id}})");
   ("channel.multi_key_manage", "Multi-key management {{action}} on channel (ID: {{id}})");
   ("channel.upstream_apply", "Applied upstream model changes to channel (ID: {{id}})");
   ("channel.upstream_apply_all", "Applied upstream model changes to {{count}} channels");
   ("redemption.create", "Created {{count}} redemption codes named {{name}} ({{quota}} each)");
   ("redemption.update", "Updated a redemption code"); ("redemption.delete", "Deleted a redemption code");
   ("redemption.delete_invalid", "Deleted invalid redemption codes"); ("prefill_group.create", "Created a prefill group");
   ("prefill_group.update", "Updated a prefill group"); ("prefill_group.delete", "Deleted a prefill group");
   ("vendor.create", "Created a vendor"); ("vendor.update", "Updated a vendor"); ("vendor.delete", "Deleted a vendor");
   ("model.create", "Created a model"); ("model.update", "Updated a model"); ("model.delete", "Deleted a model");
   ("model.sync_upstream", "Synced upstream models"); ("deployment.create", "Created a deployment");
   ("deployment.update", "Updated a deployment"); ("deployment.delete", "Deleted a deployment");
   ("subscription.plan_create", "Created a subscription plan"); ("subscription.plan_update", "Updated a subscription plan");
   ("subscription.bind", "Bound a subscription"); ("log.clear", "Cleared historical logs");
   ("generic", "{{method}} {{route}}")].

Inductive LogVariant := log_success | log_warning | log_danger.

Definition getTimeColor (seconds : num) : LogVariant :=
  if nlt seconds (of_Z 10) then log_success else if nlt seconds (of_Z 30) then log_warning else log_danger.

Definition getFirstResponseTimeColor (seconds : num) : LogVariant :=
  if nlt seconds (of_Z 5) then log_success else if nlt seconds (of_Z 10) then log_warning else log_danger.

Definition getThroughputColor (tokensPerSecond : num) : LogVariant :=
  if nle (of_Z 30) tokensPerSecond then log_success else if nle (of_Z 15) tokensPerSecond then log_warning else log_danger.

Definition getResponseTimeColor (seconds completionTokens : num) : LogVariant :=
  if nlt completionTokens (of_Z 100) || nle seconds zero then getTimeColor seconds
  else getThroughputColor (ndiv completionTokens seconds).

(** The action and the content of a line. *)
Definition parseAuditLine (line : jval) : option (jstring * jstring) :=
  match line with
  | JStr s => match index_of " " s with
              | Some (S i) => Some (take (S i) s, drop (S (S i)) s)
              | _ => Some (s, s)
              end
  | _ => None
  end.

Definition isViolationFeeLog (other : jval) : bool :=
  to_boolean other &&
  (match member "violation_fee" other with JBool true => true | _ => false end ||
   to_boolean (member "violation_fee_code" other) || to_boolean (member "violation_fee_marker" other)).

(** [null] when there is no text or it is no JSON. *)
Definition parseLogOther (other : jstring) : jval :=
  if truthy other then default JNull (JSON_parse other) else JNull.

Record ModelNameShown := { mn_name : jstring; mn_isMapped : bool; mn_actualModel : jval }.

Definition formatModelName (model_name other : jstring) : ModelNameShown :=
  let other := parseLogOther other in
  let upstream := member "upstream_model_name" other in
  let isMapped := to_boolean (member "is_model_mapped" other) && to_boolean upstream in
  {| mn_name := model_name; mn_isMapped := isMapped; mn_actualModel := if isMapped then upstream else JUndefined |}.

Definition hasAnyCacheTokens (other : jval) : bool :=
  to_boolean other &&
  existsb (λ k, nlt zero (to_number (js_or (member k other) (JNum zero))))
    ["cache_tokens" : jstring; "cache_creation_tokens"; "cache_creation_tokens_5m"; "cache_creation_tokens_1h"; "cache_creation_tokens_12h"].

(** The seconds between two times; [true] is the variant [red]. *)
Definition formatDuration (submitTime finishTime : option num) (in_milliseconds : bool) : option (num * bool) :=
  match submitTime, finishTime with
  | Some s, Some f =>
    if num_truthy s && num_truthy f
    then let durationSec := if in_milliseconds then ndiv (nsub f s) (of_Z 1000) else nsub f s in
         Some (durationSec, nlt (of_Z 60) durationSec)
    else None
  | _, _ => None
  end.

Section shown.
Variable toLowerCase : jstring → jstring.
(** [window.atob(s)], [None] when it throws, and the decoding of its units by [TextDecoder] *)
Variable atob : jstring → option jstring.
Variable decode : jstring → jstring.
(** The translation of a template with its parameters *)
Variable t : jstring → jval → jstring.

Definition getParamOverrideActionLabel (action : jstring) : jstring :=
  match oget (toLowerCase action) PARAM_OVERRIDE_ACTION_MAP with Some key => t key JUndefined | None => action end.

Definition decodeBillingExprB64 (exprB64 : jval) : jstring :=
  if to_boolean exprB64 then match atob (to_js_string exprB64) with Some binary => decode binary | None => [] end else [].

Definition resolveMatchedTier (tiers : list ParsedTier) (matchedLabel : option jstring) : option ParsedTier :=
  match tiers, matchedLabel with
  | [], _ | _, None | _, Some [] => None
  | _, Some _ =>
    find (λ tier,
      let l1 := normalizeTierLabel toLowerCase (Some (pt_label tier)) in
      bool_decide (l1 = normalizeTierLabel toLowerCase matchedLabel) && truthy l1) tiers
  end.

Record PriceShown := { ps_variable : BillingVar; ps_price : num }.
Record TieredBillingSummary := { tb_tiers : list ParsedTier; tb_tier : ParsedTier; priceEntries : list PriceShown }.

Definition is_cache (v : BillingVar) : bool := bool_decide (BillingExpr.group v = Some ("cache" : jstring)).

(** One round of the loop over the variables. *)
Definition log_price (tier : ParsedTier) (cacheTokensPresent : bool) (v : BillingVar) : option PriceShown :=
  if negb (otruthy (field v)) then None
  else if is_cache v && negb cacheTokensPresent then None
  else let price := tier_price tier v in
       if is_finite price && nlt zero price then Some {| ps_variable := v; ps_price := price |} else None.

(** The label of the matched tier is a text, as the server writes it. *)
Definition label_text (v : jval) : option jstring := match v with JStr s => Some s | _ => None end.

Definition getTieredBillingSummary (other : jval) : option TieredBillingSummary :=
  match member "billing_mode" other with
  | JStr mode =>
    if bool_decide (mode = "tiered_expr") then
      let exprStr := decodeBillingExprB64 (member "expr_b64" other) in
      if negb (truthy exprStr) then None
      else
        let tiers := parseTiersFromExpr exprStr in
        match resolveMatchedTier tiers (label_text (member "matched_tier" other)) with
        | None => None
        | Some tier =>
          Some {| tb_tiers := tiers; tb_tier := tier;
                  priceEntries := omap (log_price tier (hasAnyCacheTokens other)) BILLING_PRICING_VARS |}
        end
    else None
  | _ => None
  end.

Definition renderAuditContent (other : jval) : option jstring :=
  match member "action" (member "op" other) with
  | JStr (c :: s) =>
    match oget (c :: s) AUDIT_TEMPLATES with
    | Some template =>
      let params := member "params" (member "op" other) in
      Some (t template (if is_nullish params then JObj [] else params))
    | None => None
    end
  | _ => None
  end.
End shown.

(** ** Who may ask for what *)

(** The keys that only administrators send *)
Definition restricted (key : jstring) : Prop := key = "channel" ∨ key = "username".

Lemma elem_of_query params key v : (key, v) ∈ buildQueryParams params → key ∈ okeys params.
Proof.
  unfold buildQueryParams. intros ([k x] & Hin & E)%list_elem_of_omap. destruct (_ || _); [done|]. injection E as <- _.
  by apply (list_elem_of_fmap_2 fst _ (k, x)).
Qed.

Lemma okeys_of_entries (l : list (jstring * jval)) k o : k ∈ okeys (fold_left (λ o kv, obj_set kv.1 kv.2 o) l o) ↔ k ∈ okeys l ∨ k ∈ okeys o.
Proof.
  revert o. induction l as [|[j v] l IH]; intros o; cbn [fold_left].
  - unfold okeys at 2. cbn. rewrite elem_of_nil. naive_solver.
  - rewrite IH, elem_of_okeys_obj_set. unfold okeys at 3. cbn. rewrite elem_of_cons. unfold okeys. naive_solver.
Qed.

Lemma elem_of_when b k v k' : k' ∈ (when b k v).*1 ↔ b = true ∧ k' = k.
Proof. destruct b; cbn; rewrite ?list_elem_of_singleton, ?elem_of_nil; naive_solver. Qed.

Section query.
Context (range : TimeRange) (page pageSize : num) (searchParams : jval) (columnFilters : list ColumnFilterValue).

Lemma api_params_restricted key : restricted key →
  key ∉ okeys (buildApiParams range page pageSize searchParams columnFilters false).
Proof.
  intros Hr. unfold buildApiParams.
  assert (∀ o, key ∉ okeys o → key ∉ okeys (fold_left (λ params f, match filter_param false f with Some (k, v) => obj_set k v params | None => params end) columnFilters o)) as H.
  { induction columnFilters as [|f l IH]; intros o Ho; [done|]. cbn [fold_left]. apply IH.
    destruct (filter_param false f) as [[k v]|] eqn:E; [|done]. rewrite elem_of_okeys_obj_set. intros [->|?]; [|done].
    unfold filter_param in E. destruct (_ || _) in E; [done|]. destruct Hr as [->| ->]; repeat case_bool_decide; cbn in E; congruence. }
  apply H. unfold obj_of_entries. rewrite okeys_of_entries. intros [Hk|Hk]; [|by apply elem_of_nil in Hk].
  unfold okeys in Hk. rewrite !fmap_app, !elem_of_app in Hk. rewrite !elem_of_when in Hk.
  unfold buildTimeRangeParams in Hk. cbn in Hk. rewrite !elem_of_cons, !elem_of_nil in Hk.
  destruct Hr as [->| ->]; naive_solver.
Qed.

Lemma query_of_fetch endpoint params isAdmin key v : (key, v) ∈ (fetchLogs endpoint params isAdmin).2 →
  key = "p" ∨ key = "page_size" ∨ key ∈ okeys params.
Proof.
  unfold fetchLogs. cbn [snd]. intros H%elem_of_query. unfold obj_spread in H. rewrite okeys_of_entries in H.
  destruct H as [H|H]; [auto|]. cbn in H. rewrite !elem_of_cons, elem_of_nil in H. naive_solver.
Qed.

Lemma base_params_restricted useMs k v key : restricted key → k ≠ key →
  key ∉ okeys (obj_set k v (obj_of_entries (buildBaseParams range page pageSize searchParams useMs))).
Proof.
  intros Hr Hk. unfold obj_of_entries. rewrite elem_of_okeys_obj_set, okeys_of_entries. intros [->|[H|H]]; [done| |by apply elem_of_nil in H].
  unfold buildBaseParams, okeys in H. rewrite !fmap_app, !elem_of_app, elem_of_when in H. unfold buildTimeRangeParams in H. cbn in H.
  rewrite !elem_of_cons, !elem_of_nil in H. destruct Hr as [->| ->]; naive_solver.
Qed.

(** C21: Whatever the page and its filters ask for, the request of a user who is no
    administrator goes to the logs of that user and has no parameter [channel] or
    [username]. *)
Theorem user_query_restricted category key v : restricted key →
  let request := fetchLogsByCategory range category false page pageSize searchParams columnFilters in
  (∃ endpoint, request.1 = endpoint ++ "/self") ∧ (key, v) ∉ request.2.
Proof.
  intros Hr. cbn zeta. assert (key ≠ "p" ∧ key ≠ "page_size" ∧ key ≠ "mj_id" ∧ key ≠ "task_id") as (H1 & H2 & H3 & H4)
    by (by destruct Hr as [->| ->]).
  split; [destruct category; by eexists|].
  destruct category; cbn [fetchLogsByCategory]; intros [?|[?|H]]%query_of_fetch; try done; revert H.
  - by apply api_params_restricted.
  - by apply base_params_restricted.
  - by apply base_params_restricted.
Qed.
End query.

(** ** The tier a request was billed with *)

Section billed.
Context (toLowerCase : jstring → jstring) (atob : jstring → option jstring) (decode : jstring → jstring).
Context (NumberFormat : option jstring → NumberFormatOptions → num → jstring) (store : option CurrencyConfig).

Lemma matched_tier tiers label tier : resolveMatchedTier toLowerCase tiers label = Some tier →
  tier ∈ tiers ∧ normalizeTierLabel toLowerCase (Some (pt_label tier)) = normalizeTierLabel toLowerCase label ∧
  normalizeTierLabel toLowerCase label ≠ [].
Proof.
  unfold resolveMatchedTier. destruct tiers as [|x l]; [done|]. destruct label as [[|c s]|]; [done| |done].
  intros [Hin E]%find_some. apply andb_true_iff in E as [E%bool_decide_eq_true Ht]. split_and!.
  - by apply list_elem_of_In.
  - done.
  - rewrite <- E. by apply truthy_spec.
Qed.

Lemma catalog_prices tier options :
  map (λ e, (de_value e, de_variable e)) (getDynamicPriceEntries NumberFormat store (Some tier) options) ≡ₚ
  map (λ p, (ps_price p, ps_variable p)) (omap (log_price tier true) BILLING_PRICING_VARS).
Proof.
  unfold getDynamicPriceEntries. rewrite (Permutation_map _ (sort_by_perm _ _)).
  assert (∀ v, (λ e, (de_value e, de_variable e)) <$> price_entry NumberFormat store options tier v =
               (λ p, (ps_price p, ps_variable p)) <$> log_price tier true v) as Hv.
  { intros v. unfold price_entry, log_price. rewrite andb_false_r. destruct (negb (otruthy (field v))); [done|].
    destruct (is_finite (tier_price tier v)) eqn:Ef; [|done]. cbn [negb orb andb].
    rewrite nle_nlt by (done || by apply finite_not_nan). by destruct (nlt zero (tier_price tier v)). }
  induction BILLING_PRICING_VARS as [|v vs IH]; [done|]. cbn [omap list_omap]. specialize (Hv v).
  destruct (price_entry _ _ options tier v), (log_price tier true v); try done.
  cbn [fmap option_fmap option_map] in Hv. injection Hv as E1 E2. cbn [map]. rewrite E1, E2. by constructor.
Qed.

Lemma cache_prices tier present :
  omap (log_price tier present) BILLING_PRICING_VARS =
  filter (λ p, negb (is_cache (ps_variable p)) || present = true) (omap (log_price tier true) BILLING_PRICING_VARS).
Proof.
  induction BILLING_PRICING_VARS as [|v vs IH]; [done|]. cbn [omap list_omap].
  assert (log_price tier present v = if negb (is_cache v) || present then log_price tier true v else None) as ->.
  { unfold log_price. destruct (negb (otruthy (field v))); [by destruct (_ || _)|]. by destruct (is_cache v), present. }
  destruct (log_price tier true v) as [p|] eqn:E; [|by destruct (_ || _)].
  assert (ps_variable p = v) as Ep.
  { unfold log_price in E. destruct (negb _); [done|]. destruct (_ && _); [done|]. destruct (_ && _); [|done]. by injection E as <-. }
  rewrite filter_cons, Ep. destruct (negb (is_cache v) || present); [rewrite decide_True by done|rewrite decide_False by done]; by rewrite IH.
Qed.

(** C22: The tier shown beside a log is one of the tiers of its expression, the one with the
    label the log was billed with, and its prices are those the catalog shows for this
    tier, without the prices of the cache when no token of the cache was used. *)
Theorem log_prices_catalog other s options : getTieredBillingSummary toLowerCase atob decode other = Some s →
  tb_tiers s = parseTiersFromExpr (decodeBillingExprB64 atob decode (member "expr_b64" other)) ∧
  tb_tier s ∈ tb_tiers s ∧
  (∃ label, member "matched_tier" other = JStr label ∧
    normalizeTierLabel toLowerCase (Some (pt_label (tb_tier s))) = normalizeTierLabel toLowerCase (Some label) ∧
    normalizeTierLabel toLowerCase (Some label) ≠ []) ∧
  map (λ p, (ps_price p, ps_variable p)) (priceEntries s) ≡ₚ
    filter (λ entry, negb (is_cache entry.2) || hasAnyCacheTokens other = true)
      (map (λ e, (de_value e, de_variable e)) (getDynamicPriceEntries NumberFormat store (Some (tb_tier s)) options)).
Proof.
  unfold getTieredBillingSummary. destruct (member "billing_mode" other); try done. case_bool_decide; [|done].
  destruct (negb (truthy _)); [done|]. destruct (resolveMatchedTier _ _ _) as [tier|] eqn:Em; [|done]. intros E. apply (inj Some) in E. subst s.
  cbn [tb_tiers tb_tier priceEntries]. destruct (matched_tier _ _ _ Em) as (Hin & Hl & Hne). split_and!; [done|done| |].
  - destruct (member "matched_tier" other); try (by cbn in Hne). by eexists.
  - rewrite catalog_prices, (cache_prices tier (hasAnyCacheTokens other)), filter_map. reflexivity.
Qed.
End billed.

(** ** Examples *)

Module LogSamples.
Definition base_range : TimeRange := {| range_start := of_Z 1735344000000; range_end := of_Z 1735430400999 |}.

(** A page whose address asks for another user and a channel. *)
Definition curious_search : jval := JObj [("username" : jstring, JStr "bob"); ("channel", JStr "3"); ("model", JStr "gpt-4o")].

(** The functions of the browser, for texts that are their own encoding. *)
Definition plain_atob (s : jstring) : option jstring := Some s.

Definition tiered_log : jval := JObj [
  ("billing_mode" : jstring, JStr "tiered_expr"); ("matched_tier", JStr "Base");
  ("expr_b64", JStr ("tier(" ++ quote "base" ++ ", p * 2.5 + c * 10 + cr * 0.5)"))].

Definition log_options : DynamicPriceOptions := {|
  do_tokenUnit := unit_M; do_showRechargePrice := None; do_priceRate := None; do_usdExchangeRate := None; do_groupRatioMultiplier := None |}.

(** The lower case of ASCII letters *)
Definition ascii_lower_case (s : jstring) : jstring := map ascii_lower s.
End LogSamples.

Section examples.
Import LogSamples.

Example curious_request : fetchLogsByCategory base_range log_common false (of_Z 2) (of_Z 20) curious_search [] =
  ("/api/log/self" : jstring, [("p" : jstring, "2" : jstring); ("page_size", "20"); ("model_name", "gpt-4o");
    ("start_timestamp", "1735344000"); ("end_timestamp", "1735430400")]).
Proof. by vm_compute. Qed.

(** The requests for drawings and tasks have another parameter for the channel, which is
    sent for every user. *)
Example channel_id_sent : ("channel_id" : jstring, "3" : jstring) ∈
  (fetchLogsByCategory base_range log_drawing false (of_Z 2) (of_Z 20) curious_search []).2.
Proof. apply (bool_decide_unpack _). by vm_compute. Qed.

Example tiered_prices : match getTieredBillingSummary ascii_lower_case plain_atob id tiered_log with
  | Some s => map (λ p, (key (ps_variable p), ps_price p)) (priceEntries s) | None => [] end =
  [("p" : jstring, Number_of_string "2.5"); ("c", of_Z 10)].
Proof. by vm_compute. Qed.

Example user_query_restricted_witness :
  ("username" : jstring, "bob" : jstring) ∉ (fetchLogsByCategory base_range log_common false (of_Z 2) (of_Z 20) curious_search []).2.
Proof. apply (user_query_restricted base_range (of_Z 2) (of_Z 20) curious_search [] log_common "username" "bob"). by right. Defined.

Example log_prices_catalog_witness : ∃ s, getTieredBillingSummary ascii_lower_case plain_atob id tiered_log = Some s ∧ tb_tier s ∈ tb_tiers s.
Proof.
  destruct (getTieredBillingSummary ascii_lower_case plain_atob id tiered_log) as [s|] eqn:E; [|by vm_compute in E].
  exists s. split; [done|]. by apply (log_prices_catalog ascii_lower_case plain_atob id (λ _ _ _, []) None tiered_log s log_options).
Defined.
End examples.
